(* ===== verification/_CoqProject ===== *)
-Q . S2P
Prelude.v
JsString.v
Encoding.v
Json.v
JsTime.v
Errors.v
Models.v
Store.v
Calm.v
MemStore.v
Principal.v
Manifest.v
Restrictions.v
Destination.v
Bounded.v
Evidence.v
Gateway.v
Rely.v
GatewayFacts.v
ApiKeys.v
ApiKeysFacts.v
KeyLifecycle.v
KeyAuth.v
Webhooks.v
WebhookFacts.v
Files.v
Configuration.v
ConfigFacts.v
Sensitive.v
Jobs.v
Notifications.v
NotificationFacts.v
DeliveryFacts.v
JobsFacts.v
Schedules.v
Transfer.v
Worker.v
Demo.v
GatewayProps.v
KeyProps.v
WebhookProps.v
FileProps.v
ConfigProps.v
JobsProps.v
NotificationProps.v
TransferProps.v
ExportImport.v
Transactions.v
Intelligence.v
IntelligenceProps.v
TransactionFacts.v
TransactionProps.v
Health.v
HealthProps.v
Extensions.v
ExtensionProps.v
Invoke.v
InvokeProps.v
Events.v
Dsl.v
DslProps.v
Contract.v
ContractProps.v
Platform.v
PlatformProps.v
AppPort.v
AppPortProps.v
Ui.v
UiProps.v
Management.v
ManagementProps.v
HttpAdapter.v
Email.v
Wiring.v
WiringProps.v
Host.v
HostProps.v
Cli.v
CliProps.v
Application.v
