(* ===== verification/Prelude.v ===== *)
(** * AppPort Services: a verification development

    The program ([src/src/]) is a library of durable services for
    applications on FeltDB: jobs and schedules, notifications, webhooks in and
    out, files, configuration and credentials, API keys, and the choice of a
    model provider.  Every operation of a service is a protected effect: it
    passes the gateway, which asks AuthBoundry for a decision, writes evidence
    before and after the effect, and hands out credentials only inside it.

    ** Parts and how they interact

    A caller is a verified principal ([Principal], authority/principal.ts),
    minted by the host or by the API-key service.  A service operation
    resolves the tenant, validates its input and calls [execute] of the
    gateway ([Gateway], authority/gateway.ts) with a capability of the
    manifest ([Manifest]), the resource, and the effect.  [execute] authorizes
    ([authorize]), issues an execution context, writes a [started] row of
    evidence ([Evidence]), runs the effect and finishes the row.  Effects read
    and write collections of FeltDB ([Store]); some call other services:
    [Transfer] drives configuration, webhooks and schedules, [Schedules] the
    job service, [Notifications] its channels, [Worker] the job service,
    [Intelligence] the configuration store.  Jobs, deliveries and
    notifications keep the principal they were created under as a durable
    principal, which a later run trusts only if evidence attests it
    ([attest]).

    The services are put together twice: [createServices] ([Wiring]) for a
    host that calls them, [appport()] ([AppPort], [Application]) for an
    application described by its contract ([Dsl], [Contract]).  On top of both
    are the dispatcher of capabilities ([Invoke]), transactions
    ([Transactions]), health ([Health]), extensions ([Extensions]), in-process
    events ([Events]), the HTTP runtime ([Platform], [HttpAdapter]), the
    management router with its pages ([Management], [Ui]), the standalone host
    that serves it ([Host]) and the command line ([Cli]).

    ** Files

    Foundations: [Prelude] (this file: record update, optional values,
    automation), [JsString], [Encoding], [Json], [JsTime] (the parts of the
    language's library the source uses), [Errors] (failure codes and thrown
    values), [Models] (the records of the models.ts files), [Store] (FeltDB as
    a class of operations with laws, the world, the monad, weakest
    preconditions), [Calm] (sequential reasoning), [Rely] (rely/guarantee
    reasoning under interference), [MemStore] (an instance of the laws),
    [Demo] (concrete hosts and worlds for the witnesses).

    Components, one file each, with the operations of the source under the
    source's names: [Principal], [Manifest], [Evidence], [Bounded], [Gateway]
    (authority/, storage/bounded.ts); [Restrictions], [ApiKeys] (api-keys/,
    storage/api-keys.ts); [Destination], [Webhooks] (authority/destination.ts,
    webhooks/, storage/webhooks.ts); [Files] (files/, storage/files.ts);
    [Configuration], [Transfer] (configuration/, storage/secrets.ts);
    [Sensitive], [Notifications] (notifications/, storage/notifications.ts),
    [Email] (its mail channel); [Jobs], [Schedules], [Worker] (jobs/,
    schedules/); [Intelligence] (intelligence/).

    The runtime, from runtime/ unless said otherwise: [Transactions]
    (transaction.ts, transaction-services.ts), [Health] (health.ts),
    [Extensions] (extensions/), [Invoke] (invoke.ts), [Events] and [Platform]
    (platform.ts), [Dsl] (dsl.ts), [Contract] (contract/, discovery.ts),
    [AppPort] (appport.ts, deployment.ts, api-keys.ts: what the runtime
    decides) and [Application] (appport.ts: the services it constructs and the
    operations over them), [Ui] (ui.ts), [Management] (management.ts and the
    routers of configuration/, intelligence/ and notifications/),
    [HttpAdapter] (http-adapter.ts, express-middleware.ts), [Wiring]
    (unified-services.ts and the services the host is given), [Host]
    (management-host.ts), [Cli] (cli.ts).

    Facts about a component are in the files named after it with [Facts]
    ([GatewayFacts], [ApiKeysFacts], [KeyLifecycle], [KeyAuth],
    [WebhookFacts], [ConfigFacts], [JobsFacts], [NotificationFacts],
    [DeliveryFacts], [TransactionFacts]); the properties, each with a witness
    on a concrete world, in the files named with [Props], in [ExportImport],
    [Sensitive], [Events] and [Application].

    ** How the code is modelled

    An operation is a computation of [M DB A]: it threads the [World] and
    returns a value or throws.  The world holds the store, the two clocks, the
    sources of identifiers and random bytes, this process's caches, and the
    writes of everybody else ([w_env]), one of which happens at every call on
    the store.  [calm] and [quiet] worlds have no such writes; [stable] ones
    have any that keep a given protocol.  Each awaited call is one step, so
    the interleavings considered are those at calls on the store;
    [Promise.all] runs its calls one after the other.  Exceptions are values
    of [exn], with the source's codes and messages.

    Untyped input is [jsval]; input objects are given by the fields the
    source reads, and by their own properties where the source looks at those.
    Strings are sequences of code units 0..255.  Numbers are integers; a
    number that is no integer is one value, [JNumOther].  The clock is an
    integer of milliseconds, and dates are printed and compared as the source
    does, within the range of [Date].

    Third-party code is a parameter: FeltDB is the class [FeltDB] with the
    laws [FeltDBLaws] (reads return what is stored, a version-checked update
    happens exactly if the version matches, a transaction commits all or
    nothing); AuthBoundry, custody, channels, handlers, the HTTP client, DNS,
    hashes, [JSON.parse], the URL parser and the host's collation are
    arguments of the definitions that use them, and what a theorem needs of
    them is a named hypothesis ([hostQuiet], [hostSafe], [readsBack] and so
    on) that its witness discharges for a concrete function.

    Loops that wait for the store (version conflicts, pages of bounded
    queries) recurse on fuel; the fuel is the source's own bound on attempts
    where it has one, and otherwise a theorem shows that enough fuel gives
    the result (the lookup of a run's evidence ends, because every page
    shrinks what is left).

    Components meet at interfaces.  [Guarded] says of one operation that
    without an admitted request for its capability it leaves the store as it
    was, but for one row recording a denial; the classes [GuardedApiKeys],
    [GuardedJobs] and so on ([InvokeProps], [ManagementProps]) say it of every
    operation the dispatcher or the router may call.  The dispatcher
    ([invoke_untouched]) and the router ([handle_untouched]) are proved against
    those classes; [WiringProps] gives the instances for the services, and the
    theorems on whole hosts follow.  How a plain object is read as the input
    of an operation and how its result is shown are the parameters [Shapes].

    ** What the theorems show

    The gateway ([GatewayProps]): nothing runs without authority; evidence
    brackets every effect; the evidence of a run is found completely.
    Jobs ([JobsProps], [Worker]): a job runs as its attested principal or not
    at all, a worker tries a failing one up to its maximum and no more, a lost
    claim writes nothing, a schedule makes one job per interval, a worker keeps
    its bound.
    Webhooks ([WebhookProps]): deliveries go only to addresses outside the
    reserved ranges, as far as IPv4 inside IPv6 is recognised ([Destination]
    says what that is, apart from the code), and are settled by their outcome; an event reaches its subscribers once; an
    inbound event is handled once.
    API keys ([KeyProps]): keys stay within the ceiling of their creator;
    exactly the right texts authenticate; revocation stops a key; rotation
    happens once; restrictions mean what they say.
    Files and configuration ([FileProps], [ConfigProps]): writes stay in the
    scopes of their callers and keep the rows well-formed; a stored value
    reaches custody only.
    Transfer ([TransferProps], [ExportImport]): importing an export changes
    nothing, where the endpoints and schedules are such that they read back; a dry run predicts the import; no import attaches a credential.
    Notifications ([NotificationProps], [Sensitive]): notifications only move
    on, under interference; equal requests make one notification; deliveries
    end; the credential guard is exact.
    Intelligence ([IntelligenceProps]): the service implements a step
    function on settings; a credential stays with its destination.
    Transactions ([TransactionProps]): all or nothing, and the jobs they make
    are attested.  Health ([HealthProps]): the summary is exact and writes
    nothing.  Extensions ([ExtensionProps]): they join the gateway and take
    nothing of it.  Events and publishing ([Events], [AppPortProps]): a
    subscriber resumes without gaps, if none throws; webhooks are delivered
    for a principal only, in its own tenant.  The contract ([DslProps], [ContractProps]): accepted contracts are
    within their bounds and enable exactly what they name; the storage
    fragment declares exactly what the services store.
    Requests ([PlatformProps], [ManagementProps], [UiProps]): an authenticated
    request stays in its tenant; a page's text is inert.
    Whole programs: without an admitted request nothing is written but
    evidence of a denial - through the services ([WiringProps]), through an
    application and the helpers of its tenants ([Application]), through
    the standalone host ([HostProps]) and through the command line
    ([CliProps]).
    The services an application constructs are those its plan names, and its
    getters and discovery say so ([assemble_made], [getters_as_planned]).
    The command line ([CliProps]): options read back, and the contract that
    [init] writes as what was asked for.
    Where the code does not do what it means to, a lemma shows it (for
    instance [proto_rule_matches_all], [stuck_delivery],
    [failed_set_moves_credential], [migrate_writes_lines]).

    ** Not modelled

    The browser script of the management pages and the assets packaged with
    it; listening, sockets, signals and the closing of stores, which are I/O
    around the operations modelled here; entry points, which only re-export;
    the types of the custody protocol; the report of [overview()]; published
    wrappers, vendored code, examples and tooling.  The parsers of TOML, JSON,
    URLs and of FeltDB's flow format, the import of modules named on the
    command line, Express and its rate limiter are parameters. *)

From Stdlib Require Import ZArith Lia.
From Stdlib Require Ascii String.
From stdpp Require Export base strings list gmap pretty.

#[global] Open Scope Z_scope.

(** ** Record update

    [r <| proj := v |>] is the object spread [{ ...r, proj: v }] of the
    source.  A record declares how it is rebuilt from its projections (an
    instance of [Eta]); the setter of a projection is then computed. *)

Class Eta (R : Type) := eta : R -> R.

Class Field {R T : Type} (proj : R -> T) := over : (T -> T) -> R -> R.

Ltac head_of t := lazymatch t with ?f _ => head_of f | _ => t end.

Ltac solve_field :=
  match goal with
  | |- @Field ?R ?T ?proj =>
      let i := eval cbv beta delta [eta] in (@eta R _) in
      let h := head_of i in
      let e := eval cbv beta delta [h] in i in
      let body := eval pattern proj in e in
      lazymatch body with
      | ?build _ => exact (fun (f : T -> T) (r : R) => build (fun x => f (proj x)) r)
      end
  end.

#[global] Hint Extern 0 (Field _) => solve_field : typeclass_instances.

Declare Scope svc_scope.
Delimit Scope svc_scope with svc.
#[global] Open Scope svc_scope.

Notation "r <| proj := v |>" := (@over _ _ proj _ (fun _ => v) r)
  (at level 40, left associativity, format "r  <| proj  :=  v |>") : svc_scope.

(** ** JavaScript's view of optional values *)

(** [a ?? b] on an optional value. *)
Definition orElse {A} (a : option A) (b : A) : A :=
  match a with Some x => x | None => b end.

(** [Boolean(s)] of a string. *)
Definition truthy (s : string) : bool := negb (String.eqb s EmptyString).

(** [Boolean(s)] of an optional string: absent and empty are both false. *)
Definition present (s : option string) : bool :=
  match s with Some x => truthy x | None => false end.

(** [...(s ? { field: s } : {})]: the field is left out when [s] is falsy. *)
Definition ifPresent (s : option string) : option string :=
  match s with Some x => if truthy x then Some x else None | None => None end.

(** [a === b] on optional strings. *)
Definition oeqb (a b : option string) : bool := bool_decide (a = b).

(** The quotation mark, written by its code. *)
Definition dq : string := String (Ascii.ascii_of_nat 34) EmptyString.

(** [`"${s}"`]. *)
Definition quoted (s : string) : string := (dq +:+ s +:+ dq)%string.

(** ** Shared automation *)

Create HintDb svc discriminated.

(** Split every conjunction and existential in the context. *)
Ltac split_hyps :=
  repeat match goal with
  | H : _ /\ _ |- _ => destruct H
  | H : exists _, _ |- _ => destruct H
  end.

(** Turn boolean tests in the context into propositions. *)
Ltac bool_hyps :=
  repeat match goal with
  | H : andb _ _ = true |- _ => apply andb_prop in H; destruct H
  | H : orb _ _ = false |- _ => apply orb_false_elim in H; destruct H
  | H : negb _ = true |- _ => apply negb_true_iff in H
  | H : negb _ = false |- _ => apply negb_false_iff in H
  | H : String.eqb _ _ = true |- _ => apply String.eqb_eq in H
  | H : String.eqb _ _ = false |- _ => apply String.eqb_neq in H
  | H : Z.leb _ _ = true |- _ => apply Z.leb_le in H
  | H : Z.leb _ _ = false |- _ => apply Z.leb_gt in H
  | H : Z.ltb _ _ = true |- _ => apply Z.ltb_lt in H
  | H : Z.ltb _ _ = false |- _ => apply Z.ltb_ge in H
  | H : Z.eqb _ _ = true |- _ => apply Z.eqb_eq in H
  | H : Z.eqb _ _ = false |- _ => apply Z.eqb_neq in H
  | H : bool_decide _ = true |- _ => apply bool_decide_eq_true in H
  | H : bool_decide _ = false |- _ => apply bool_decide_eq_false in H
  end.

(** Case analysis on the scrutinee of the first [if] or [match] of the goal. *)
Ltac case_goal :=
  match goal with
  | |- context [match ?x with _ => _ end] =>
      lazymatch x with
      | context [match _ with _ => _ end] => fail
      | _ => let E := fresh "E" in destruct x eqn:E
      end
  end.

(** The same in a hypothesis. *)
Ltac case_hyp H :=
  match type of H with
  | context [match ?x with _ => _ end] =>
      lazymatch x with
      | context [match _ with _ => _ end] => fail
      | _ => let E := fresh "E" in destruct x eqn:E
      end
  end.

(** ** Generic lemmas *)

Lemma oeqb_true a b : oeqb a b = true <-> a = b.
Proof. unfold oeqb. apply bool_decide_eq_true. Qed.

Lemma truthy_spec s : truthy s = true <-> s <> EmptyString.
Proof. unfold truthy. rewrite negb_true_iff. apply String.eqb_neq. Qed.

Lemma present_spec o : present o = true <-> exists s, o = Some s /\ s <> EmptyString.
Proof.
  unfold present. destruct o as [s|].
  - rewrite truthy_spec. split; [eauto | intros (s' & [= ->] & Hs); exact Hs].
  - split; [discriminate | intros (s & H & _); discriminate].
Qed.

Lemma ifPresent_present o : present o = true -> ifPresent o = o.
Proof. unfold present, ifPresent. destruct o as [s|]; [intros ->; reflexivity | discriminate]. Qed.

Lemma ifPresent_idem o : ifPresent (ifPresent o) = ifPresent o.
Proof. unfold ifPresent. destruct o as [x|]; [|reflexivity]. destruct (truthy x) eqn:E; [now rewrite E | reflexivity]. Qed.

Lemma NoDup_map_filter {A B} (f : A -> B) p l : NoDup (map f l) -> NoDup (map f (List.filter p l)).
Proof.
  induction l as [|a l IH]; cbn; [auto|]. intros Hd. apply NoDup_cons in Hd as [Hn Hd].
  destruct (p a); cbn; [|now apply IH]. constructor; [|now apply IH].
  rewrite list_elem_of_In in *. intros Hin. apply Hn, in_map_iff.
  apply in_map_iff in Hin as (x & E & Hx). apply filter_In in Hx as [Hx _]. eauto.
Qed.
