(* ===== verification/JsString.v ===== *)
(** * JsString: the string operations of the source

    A JavaScript string is a sequence of code units; the development uses
    [string], the sequences of code units 0..255.  Comparison ([<=] on
    strings) is the lexicographic order of code units, [String.leb]. *)

From S2P Require Import Prelude.
From Stdlib Require Import ZArith Lia.
From Stdlib Require Import Ascii String.
Local Open Scope string_scope.

#[local] Arguments String.append !s1 s2 : simpl nomatch.

(** ** Characters *)

Definition code (c : ascii) : nat := nat_of_ascii c.

Definition codeIn (a b : nat) (c : ascii) : bool :=
  Nat.leb a (code c) && Nat.leb (code c) b.

Definition isDigit (c : ascii) : bool := codeIn 48 57 c.
Definition isLower (c : ascii) : bool := codeIn 97 122 c.
Definition isUpper (c : ascii) : bool := codeIn 65 90 c.
Definition isAlnum (c : ascii) : bool := isDigit c || isLower c || isUpper c.

(** The white space and line terminators that [trim] and [\s] drop. *)
Definition isSpace (c : ascii) : bool :=
  codeIn 9 13 c || Nat.eqb (code c) 32 || Nat.eqb (code c) 160.

Definition digitVal (c : ascii) : Z := Z.of_nat (code c) - 48.

(** ** Whole-string predicates and slices *)

Fixpoint all (p : ascii -> bool) (s : string) : bool :=
  match s with EmptyString => true | String c r => p c && all p r end.

Fixpoint any (p : ascii -> bool) (s : string) : bool :=
  match s with EmptyString => false | String c r => p c || any p r end.

(** [s.slice(n)]. *)
Fixpoint sliceFrom (n : nat) (s : string) : string :=
  match n, s with
  | O, _ => s
  | S n, String _ r => sliceFrom n r
  | S _, EmptyString => EmptyString
  end.

(** [s.slice(0, n)]. *)
Fixpoint sliceTo (n : nat) (s : string) : string :=
  match n, s with
  | S n, String c r => String c (sliceTo n r)
  | _, _ => EmptyString
  end.

Fixpoint trimStart (s : string) : string :=
  match s with
  | String c r => if isSpace c then trimStart r else s
  | EmptyString => EmptyString
  end.

Fixpoint trimEnd (s : string) : string :=
  match s with
  | EmptyString => EmptyString
  | String c r =>
      match trimEnd r with
      | EmptyString => if isSpace c then EmptyString else String c EmptyString
      | r' => String c r'
      end
  end.

(** [s.trim()]. *)
Definition trim (s : string) : string := trimEnd (trimStart s).

(** [!s.trim()]. *)
Definition blank (s : string) : bool := negb (truthy (trim s)).

(** [s.startsWith(p)]. *)
Definition startsWith (s p : string) : bool := String.prefix p s.

Fixpoint toLowerCase (s : string) : string :=
  match s with
  | EmptyString => EmptyString
  | String c r =>
      String (if isUpper c || (codeIn 192 222 c && negb (Nat.eqb (code c) 215))
              then ascii_of_nat (code c + 32) else c) (toLowerCase r)
  end.

(** [s.split(c)] *)
Fixpoint splitOn (c : ascii) (s : string) : list string :=
  match s with
  | EmptyString => [EmptyString]
  | String d r =>
      if Ascii.eqb d c then EmptyString :: splitOn c r
      else match splitOn c r with
           | [] => [String d EmptyString]
           | x :: l => String d x :: l
           end
  end.

(** ** Decimal digits *)

(** [parseInt(s, 10)] of a string of digits. *)
Fixpoint digitsValue (acc : Z) (s : string) : Z :=
  match s with
  | EmptyString => acc
  | String c r => digitsValue (acc * 10 + digitVal c) r
  end.

(** [^(\d+)([smhd])$] on an interval: the digits and the unit. *)
Fixpoint splitLast (s : string) : option (string * ascii) :=
  match s with
  | EmptyString => None
  | String c EmptyString => Some (EmptyString, c)
  | String c r =>
      match splitLast r with
      | Some (p, l) => Some (String c p, l)
      | None => None
      end
  end.

(** A number in a template string. *)
Definition num (z : Z) : string := pretty z.

(** ** [encodeURIComponent] *)

Definition hexDigit (n : nat) : ascii :=
  if Nat.ltb n 10 then ascii_of_nat (48 + n) else ascii_of_nat (55 + n).

Definition pct (n : nat) : string :=
  String "%" (String (hexDigit (Nat.div n 16)) (String (hexDigit (Nat.modulo n 16)) EmptyString)).

(** The characters [encodeURIComponent] leaves alone: [A-Za-z0-9-_.!~*'()]. *)
Definition isUnreserved (c : ascii) : bool :=
  isAlnum c ||
  existsb (fun k => Nat.eqb (code c) k) [45; 95; 46; 33; 126; 42; 39; 40; 41]%nat.

(** One code unit, percent-encoded as UTF-8 when it is reserved. *)
Definition encodeChar (c : ascii) : string :=
  let n := code c in
  if isUnreserved c then String c EmptyString
  else if Nat.ltb n 128 then pct n
  else pct (192 + Nat.div n 64) ++ pct (128 + Nat.modulo n 64).

Fixpoint encodeURIComponent (s : string) : string :=
  match s with
  | EmptyString => EmptyString
  | String c r => encodeChar c ++ encodeURIComponent r
  end.

Definition hexVal (c : ascii) : nat :=
  if isDigit c then code c - 48 else code c - 55.

(** The decoder used to state that nothing is lost. *)
Fixpoint decodeURIComponent (fuel : nat) (s : string) : string :=
  match fuel with
  | O => EmptyString
  | S fuel =>
      match s with
      | EmptyString => EmptyString
      | String c r =>
          if Ascii.eqb c "%" then
            match r with
            | String a (String b r1) =>
                let x := (hexVal a * 16 + hexVal b)%nat in
                if Nat.ltb x 128 then String (ascii_of_nat x) (decodeURIComponent fuel r1)
                else match r1 with
                     | String _ (String d (String e r2)) =>
                         String (ascii_of_nat ((x - 192) * 64 + (hexVal d * 16 + hexVal e - 128)))
                                (decodeURIComponent fuel r2)
                     | _ => EmptyString
                     end
            | _ => EmptyString
            end
          else String c (decodeURIComponent fuel r)
      end
  end.

(** ** Lemmas on slices, prefixes and trimming *)

Lemma append_assoc a b c : (a ++ b) ++ c = a ++ (b ++ c).
Proof. induction a as [|x a IH]; cbn; [reflexivity | now rewrite IH]. Qed.

Lemma append_nil a : a ++ "" = a.
Proof. induction a as [|x a IH]; cbn; [reflexivity | now rewrite IH]. Qed.

Lemma length_append a b : String.length (a ++ b) = (String.length a + String.length b)%nat.
Proof. induction a as [|c a IH]; [reflexivity | exact (f_equal S IH)]. Qed.

Lemma append_inj_l a b c : a ++ b = a ++ c -> b = c.
Proof. induction a as [|x a IH]; cbn; [auto | intros [= H]; auto]. Qed.

Lemma prefix_append p s : String.prefix p (p ++ s) = true.
Proof.
  induction p as [|c p IH]; cbn; [destruct s; reflexivity|].
  destruct (ascii_dec c c); [exact IH | contradiction].
Qed.

Lemma startsWith_split s p : startsWith s p = true -> s = p ++ sliceFrom (String.length p) s.
Proof.
  unfold startsWith. revert s.
  induction p as [|c p IH]; intros [|d s]; cbn; try reflexivity; try discriminate.
  destruct (ascii_dec c d) as [->|]; [|discriminate].
  intros H. f_equal. apply IH, H.
Qed.

Lemma sliceFrom_append p s : sliceFrom (String.length p) (p ++ s) = s.
Proof. induction p as [|c p IH]; cbn; [reflexivity | exact IH]. Qed.

Lemma all_append p a b : all p (a ++ b) = all p a && all p b.
Proof. induction a as [|x a IH]; cbn; [reflexivity | rewrite IH; apply andb_assoc]. Qed.

Lemma blank_head c r : isSpace c = false -> blank (String c r) = false.
Proof. unfold blank, trim. cbn. intros E. rewrite E. cbn. rewrite E. now destruct (trimEnd r). Qed.

Lemma blank_nonempty s : blank s = false -> s <> "".
Proof. intros H ->. discriminate H. Qed.

(** ** [encodeURIComponent] loses nothing *)

Lemma decode_char c rest fuel :
  decodeURIComponent (S fuel) (encodeChar c ++ rest) = String c (decodeURIComponent fuel rest).
Proof. destruct c as [[] [] [] [] [] [] [] []]; reflexivity. Qed.

Lemma decode_encode s fuel :
  (String.length s < fuel)%nat -> decodeURIComponent fuel (encodeURIComponent s) = s.
Proof.
  revert fuel. induction s as [|c s IH]; intros [|fuel] Hf; cbn [String.length] in Hf; try lia.
  - reflexivity.
  - cbn [encodeURIComponent]. rewrite decode_char, IH by lia. reflexivity.
Qed.

Lemma encodeURIComponent_inj s t : encodeURIComponent s = encodeURIComponent t -> s = t.
Proof.
  intros H.
  set (n := S (Nat.max (String.length s) (String.length t))).
  rewrite <- (decode_encode s n), <- (decode_encode t n) by (subst n; lia).
  now rewrite H.
Qed.

Definition noSlash (s : string) : bool := all (fun c => negb (Ascii.eqb c "/")) s.

Lemma encodeChar_noSlash c : noSlash (encodeChar c) = true.
Proof. destruct c as [[] [] [] [] [] [] [] []]; reflexivity. Qed.

Lemma encode_noSlash s : noSlash (encodeURIComponent s) = true.
Proof.
  induction s as [|c s IH]; cbn [encodeURIComponent]; [reflexivity|].
  pose proof (encodeChar_noSlash c) as Hc. unfold noSlash in *.
  rewrite all_append, Hc, IH. reflexivity.
Qed.

(** Segments separated by a slash can be read back. *)
Lemma slash_split a b x y :
  noSlash a = true -> noSlash b = true ->
  a ++ String "/" x = b ++ String "/" y -> a = b /\ x = y.
Proof.
  unfold noSlash. revert b. induction a as [|c a IH]; intros [|d b]; cbn; intros Ha Hb H.
  - injection H as ->. auto.
  - injection H as <- _. discriminate Hb.
  - injection H as -> _. discriminate Ha.
  - apply andb_prop in Ha as [_ Ha]. apply andb_prop in Hb as [_ Hb].
    injection H as -> H. destruct (IH b Ha Hb H) as [-> ->]. auto.
Qed.

Lemma splitLast_spec s p l : splitLast s = Some (p, l) <-> s = p ++ String l EmptyString.
Proof.
  revert p l. induction s as [|c s IH]; intros p l; cbn.
  - split; [discriminate | destruct p; discriminate].
  - destruct s as [|d s'].
    + split; [intros [= <- <-]; reflexivity|].
      destruct p as [|e p]; cbn; [intros [= ->]; reflexivity|].
      intros [= _ H]. destruct p; discriminate H.
    + destruct (splitLast (String d s')) as [[p' l']|] eqn:E.
      * split.
        -- intros [= <- <-]. rewrite (proj1 (IH p' l') eq_refl). reflexivity.
        -- destruct p as [|e p]; cbn; intros [= -> H].
           pose proof (proj2 (IH p l) H) as [= -> ->]. reflexivity.
      * split; [discriminate|].
        destruct p as [|e p]; cbn; intros [= -> H].
        discriminate (proj2 (IH p l) H).
Qed.

(** ** Maps in insertion order ([Map]) *)

Fixpoint mapGet {A} (m : list (string * A)) (k : string) : option A :=
  match m with
  | [] => None
  | (k', v) :: r => if String.eqb k' k then Some v else mapGet r k
  end.

Definition mapDelete {A} (m : list (string * A)) (k : string) : list (string * A) :=
  List.filter (fun kv => negb (String.eqb kv.1 k)) m.

(** Setting a present key keeps its place. *)
Fixpoint mapSet {A} (m : list (string * A)) (k : string) (v : A) : list (string * A) :=
  match m with
  | [] => [(k, v)]
  | (k', v') :: r => if String.eqb k' k then (k, v) :: r else (k', v') :: mapSet r k v
  end.
