(* ===== verification/Encoding.v ===== *)
(** * Encoding: hexadecimal and base64url texts of bytes

    [Buffer.toString('hex')], [Buffer.toString('base64url')] and
    [Buffer.from(text, 'base64url')].  A buffer is a string of bytes. *)

From S2P Require Import Prelude JsString.
From Stdlib Require Import ZArith Lia ZifyNat Ascii.
Local Open Scope string_scope.
Local Open Scope nat_scope.

Definition hexLower (n : nat) : ascii := ascii_of_nat (if Nat.ltb n 10 then 48 + n else 87 + n).

Fixpoint toHex (s : string) : string :=
  match s with
  | EmptyString => EmptyString
  | String c r => String (hexLower (code c / 16)) (String (hexLower (code c mod 16)) (toHex r))
  end.

(** The alphabet [A-Za-z0-9-_]. *)
Definition sextetChar (n : nat) : ascii :=
  ascii_of_nat (if Nat.ltb n 26 then 65 + n else if Nat.ltb n 52 then 71 + n
                else if Nat.ltb n 62 then n - 4 else if Nat.eqb n 62 then 45 else 95).

(** The value of a character; the standard alphabet is read too. *)
Definition charSextet (c : ascii) : option nat :=
  if isUpper c then Some (code c - 65)
  else if isLower c then Some (code c - 71)
  else if isDigit c then Some (code c + 4)
  else if Nat.eqb (code c) 45 || Nat.eqb (code c) 43 then Some 62
  else if Nat.eqb (code c) 95 || Nat.eqb (code c) 47 then Some 63
  else None.

Fixpoint toBase64url (s : string) : string :=
  match s with
  | EmptyString => EmptyString
  | String a r =>
      String (sextetChar (code a / 4))
        match r with
        | EmptyString => String (sextetChar (code a mod 4 * 16)) EmptyString
        | String b r =>
            String (sextetChar (code a mod 4 * 16 + code b / 16))
              match r with
              | EmptyString => String (sextetChar (code b mod 16 * 4)) EmptyString
              | String c r =>
                  String (sextetChar (code b mod 16 * 4 + code c / 64))
                    (String (sextetChar (code c mod 64)) (toBase64url r))
              end
        end
  end.

Fixpoint sextets (s : string) : list nat :=
  match s with
  | EmptyString => []
  | String c r => match charSextet c with Some n => n :: sextets r | None => sextets r end
  end.

Fixpoint joinSextets (l : list nat) : string :=
  match l with
  | p :: q :: r =>
      String (ascii_of_nat (p * 4 + q / 16))
        match r with
        | [] => EmptyString
        | s :: r =>
            String (ascii_of_nat (q mod 16 * 16 + s / 4))
              match r with
              | [] => EmptyString
              | t :: r => String (ascii_of_nat (s mod 4 * 64 + t)) (joinSextets r)
              end
        end
  | _ => EmptyString
  end.

Definition fromBase64url (s : string) : string := joinSextets (sextets s).

(** ** Decoding is the inverse *)

Lemma code_lt c : code c < 256.
Proof. apply nat_ascii_bounded. Qed.

Lemma code_of_nat n : n < 256 -> code (ascii_of_nat n) = n.
Proof. apply nat_ascii_embedding. Qed.

Lemma sextet_back n : n < 64 -> charSextet (sextetChar n) = Some n.
Proof.
  assert (forallb (fun n => match charSextet (sextetChar n) with Some m => Nat.eqb m n | None => false end) (seq 0 64) = true) as Hall
    by (vm_compute; reflexivity).
  intros Hn. rewrite forallb_forall in Hall. specialize (Hall n (proj2 (in_seq 64 0 n) ltac:(lia))).
  destruct (charSextet _) as [m|]; [|discriminate]. apply Nat.eqb_eq in Hall as ->. reflexivity.
Qed.

Lemma sextets_cons n r : n < 64 -> sextets (String (sextetChar n) r) = n :: sextets r.
Proof. intros Hn. cbn [sextets]. now rewrite sextet_back. Qed.

Lemma ascii_eq n c : n = code c -> ascii_of_nat n = c.
Proof. intros ->. apply ascii_nat_embedding. Qed.

#[local] Ltac byte_tac :=
  repeat match goal with c : ascii |- _ =>
    lazymatch goal with H : code c < 256 |- _ => fail | _ => pose proof (code_lt c) end end;
  zify; Z.to_euclidean_division_equations; lia.

Lemma base64url_back s : fromBase64url (toBase64url s) = s.
Proof.
  unfold fromBase64url. remember (String.length s) as n eqn:Hn.
  revert s Hn. induction n as [n IH] using lt_wf_ind. intros [|a [|b [|c r]]] Hn; cbn [toBase64url].
  - reflexivity.
  - rewrite !sextets_cons by byte_tac. cbn [sextets joinSextets]. f_equal. apply ascii_eq. byte_tac.
  - rewrite !sextets_cons by byte_tac. cbn [sextets joinSextets]. f_equal; [apply ascii_eq; byte_tac|].
    f_equal. apply ascii_eq. byte_tac.
  - rewrite !sextets_cons by byte_tac. cbn [joinSextets]. f_equal; [apply ascii_eq; byte_tac|].
    f_equal; [apply ascii_eq; byte_tac|]. f_equal; [apply ascii_eq; byte_tac|].
    apply (IH (String.length r)); [cbn in Hn; lia | reflexivity].
Qed.

(** ** Alphabets *)

Definition isHexLower (c : ascii) : bool := isDigit c || codeIn 97 102 c.

Definition isBase64url (c : ascii) : bool := isAlnum c || Nat.eqb (code c) 45 || Nat.eqb (code c) 95.

Lemma hexLower_ok n : n < 16 -> isHexLower (hexLower n) = true.
Proof. do 16 (destruct n as [|n]; [reflexivity|]). lia. Qed.

Lemma toHex_all s : all isHexLower (toHex s) = true.
Proof.
  induction s as [|c r IH]; cbn [toHex all]; [reflexivity|].
  rewrite !hexLower_ok, IH by byte_tac. reflexivity.
Qed.

Lemma toHex_length s : String.length (toHex s) = 2 * String.length s.
Proof. induction s as [|c r IH]; cbn; [reflexivity | rewrite IH; lia]. Qed.

Lemma sextetChar_ok n : n < 64 -> isBase64url (sextetChar n) = true.
Proof.
  assert (forallb (fun n => isBase64url (sextetChar n)) (seq 0 64) = true) as Hall by (vm_compute; reflexivity).
  intros Hn. rewrite forallb_forall in Hall. apply Hall, in_seq. lia.
Qed.

Lemma base64url_all s : all isBase64url (toBase64url s) = true.
Proof.
  remember (String.length s) as n eqn:Hn.
  revert s Hn. induction n as [n IH] using lt_wf_ind. intros [|a [|b [|c r]]] Hn; cbn [toBase64url all].
  - reflexivity.
  - rewrite !sextetChar_ok by byte_tac. reflexivity.
  - rewrite !sextetChar_ok by byte_tac. reflexivity.
  - rewrite !sextetChar_ok by byte_tac. apply (IH (String.length r)); [cbn in Hn; lia | reflexivity].
Qed.

Lemma base64url_nonempty s : s <> "" -> toBase64url s <> "".
Proof. destruct s; [contradiction | discriminate]. Qed.
