(* ===== verification/Json.v ===== *)
(** * Json: the JSON texts the source builds

    [JSON.stringify] of strings and of lists of strings, over code units
    0..255, and that no two lists of strings give one text. *)

From S2P Require Import Prelude JsString Encoding.
From Stdlib Require Import ZArith Lia Ascii.
Local Open Scope string_scope.

(** A character between the quotes: the short escapes, other control
    characters by their code, and the rest as it is. *)
Definition escapeChar (c : ascii) : string :=
  let n := code c in
  if Nat.eqb n 8 then "\b" else if Nat.eqb n 9 then "\t" else if Nat.eqb n 10 then "\n"
  else if Nat.eqb n 12 then "\f" else if Nat.eqb n 13 then "\r"
  else if Nat.eqb n 34 then String "\" dq
  else if Nat.eqb n 92 then "\\"
  else if Nat.ltb n 32 then "\u00" ++ String (hexLower (n / 16)) (String (hexLower (n mod 16)) EmptyString)
  else String c EmptyString.

Fixpoint escapeText (s : string) : string :=
  match s with EmptyString => EmptyString | String c r => escapeChar c ++ escapeText r end.

(** [JSON.stringify(s)] *)
Definition quoteJson (s : string) : string := dq ++ escapeText s ++ dq.

Fixpoint joinTexts (l : list string) : string :=
  match l with [] => "" | [s] => quoteJson s | s :: r => quoteJson s ++ "," ++ joinTexts r end.

(** [JSON.stringify(parts)] *)
Definition jsonStrings (parts : list string) : string := "[" ++ joinTexts parts ++ "]".

(** [Buffer.from(s, 'utf8')]: the bytes of a text. *)
Fixpoint utf8 (s : string) : string :=
  match s with
  | EmptyString => EmptyString
  | String c r =>
      if Nat.ltb (code c) 128 then String c (utf8 r)
      else String (ascii_of_nat (192 + code c / 64)) (String (ascii_of_nat (128 + code c mod 64)) (utf8 r))
  end.

(** ** No two lists have one text *)

#[local] Arguments String.append !s1 s2 : simpl nomatch.

Definition hexValLower (c : ascii) : nat := if isDigit c then code c - 48 else code c - 87.

(** One character read back from the text; [None] at the closing quote. *)
Definition unescapeChar (s : string) : option (ascii * string) :=
  match s with
  | EmptyString => None
  | String c r =>
      if Nat.eqb (code c) 34 then None
      else if negb (Nat.eqb (code c) 92) then Some (c, r)
      else match r with
           | EmptyString => None
           | String d r' =>
               if Ascii.eqb d "b" then Some (ascii_of_nat 8, r') else if Ascii.eqb d "t" then Some (ascii_of_nat 9, r')
               else if Ascii.eqb d "n" then Some (ascii_of_nat 10, r') else if Ascii.eqb d "f" then Some (ascii_of_nat 12, r')
               else if Ascii.eqb d "r" then Some (ascii_of_nat 13, r')
               else if Ascii.eqb d "u" then
                 match r' with
                 | String _ (String _ (String a (String b r''))) => Some (ascii_of_nat (hexValLower a * 16 + hexValLower b), r'')
                 | _ => None
                 end
               else Some (d, r')
           end
  end.

Lemma unescape_escape c rest : unescapeChar (escapeChar c ++ rest) = Some (c, rest).
Proof. destruct c as [[] [] [] [] [] [] [] []]; reflexivity. Qed.

Lemma unescape_quote rest : unescapeChar (dq ++ rest) = None.
Proof. reflexivity. Qed.

Lemma escapeText_inj s t x y : escapeText s ++ dq ++ x = escapeText t ++ dq ++ y -> s = t /\ x = y.
Proof.
  revert t. induction s as [|c s IH]; intros [|d t] E; cbn [escapeText] in E; rewrite ?append_assoc in E.
  - split; [reflexivity | exact (append_inj_l dq _ _ E)].
  - apply (f_equal unescapeChar) in E. rewrite unescape_escape in E. discriminate E.
  - apply (f_equal unescapeChar) in E. rewrite unescape_escape in E. discriminate E.
  - apply (f_equal unescapeChar) in E. rewrite !unescape_escape in E. injection E as -> E.
    destruct (IH t E) as [-> ->]. auto.
Qed.

Lemma quoteJson_inj s t x y : quoteJson s ++ x = quoteJson t ++ y -> s = t /\ x = y.
Proof. unfold quoteJson. rewrite !append_assoc. intros E. apply append_inj_l in E. now apply escapeText_inj in E. Qed.

Lemma joinTexts_inj l m : joinTexts l ++ "]" = joinTexts m ++ "]" -> l = m.
Proof.
  revert m. induction l as [|s l IH]; intros [|t m] E; try reflexivity.
  - destruct m; discriminate E.
  - destruct l; discriminate E.
  - assert (forall s (l : list string), exists tail, joinTexts (s :: l) ++ "]" = quoteJson s ++ tail /\
      match l with [] => tail = "]" | _ => tail = "," ++ joinTexts l ++ "]" end) as Hj.
    { intros u [|v k]; cbn [joinTexts]; [eexists; split; reflexivity|]. eexists. split; [rewrite !append_assoc; reflexivity | reflexivity]. }
    destruct (Hj s l) as (x & Ex & Hx), (Hj t m) as (y & Ey & Hy). rewrite Ex, Ey in E.
    apply quoteJson_inj in E as [-> ->]. destruct l as [|v k], m as [|w n]; [reflexivity| | |].
    + rewrite Hx in Hy. discriminate Hy.
    + rewrite Hy in Hx. discriminate Hx.
    + rewrite Hx in Hy. f_equal. apply IH. exact (append_inj_l "," _ _ Hy).
Qed.

Lemma jsonStrings_inj l m : jsonStrings l = jsonStrings m -> l = m.
Proof. unfold jsonStrings. intros E. apply append_inj_l in E. now apply joinTexts_inj. Qed.

(** The text up to the closing quote, and what follows it. *)
Fixpoint readText (fuel : nat) (s : string) : option (string * string) :=
  match fuel with
  | O => None
  | S fuel =>
      match unescapeChar s with
      | Some (c, r) => match readText fuel r with Some (t, r') => Some (String c t, r') | None => None end
      | None => match s with String _ r => Some (EmptyString, r) | EmptyString => None end
      end
  end.

Lemma readText_escape s rest fuel : (String.length s < fuel)%nat -> readText fuel (escapeText s ++ dq ++ rest) = Some (s, rest).
Proof.
  revert fuel. induction s as [|c s IH]; intros [|fuel] Hf; cbn [String.length] in Hf; try lia; [reflexivity|].
  cbn [escapeText readText]. now rewrite append_assoc, unescape_escape, IH by lia.
Qed.
