(* ===== verification/JsTime.v ===== *)
(** * JsTime: dates as the source uses them

    A [Date] is its time value, an integer number of milliseconds.  The source
    stores [toISOString()] of it and compares those strings with [<=]; this
    file models [toISOString] and the reading of such a string by [new Date],
    and relates the order of the strings to the order of the instants. *)

From S2P Require Import Prelude JsString.
From Stdlib Require Import ZArith Lia.
From Stdlib Require Import Ascii String.
Local Open Scope string_scope.
Local Open Scope Z_scope.

#[local] Arguments String.append !s1 s2 : simpl nomatch.

(** ** Calendar arithmetic (ECMAScript, 21.4.1) *)

Definition msPerDay : Z := 86400000.

(** The range of time values: 100,000,000 days around 1970. *)
Definition maxTime : Z := 8640000000000000.

Definition dayFromYear (y : Z) : Z :=
  365 * (y - 1970) + (y - 1969) / 4 - (y - 1901) / 100 + (y - 1601) / 400.

Definition yearFromDay (d : Z) : Z :=
  let y := 1970 + d * 400 / 146097 in
  if d <? dayFromYear y then y - 1
  else if dayFromYear (y + 1) <=? d then y + 1
  else y.

Definition isLeap (y : Z) : Z :=
  if ((y mod 4 =? 0) && negb (y mod 100 =? 0)) || (y mod 400 =? 0) then 1 else 0.

(** First day (from 0) of month [m] (from 1) in a year, [l] = 1 in leap years. *)
Definition monthStart (l m : Z) : Z :=
  if m =? 1 then 0 else if m =? 2 then 31 else
  l + (if m =? 3 then 59 else if m =? 4 then 90 else if m =? 5 then 120
       else if m =? 6 then 151 else if m =? 7 then 181 else if m =? 8 then 212
       else if m =? 9 then 243 else if m =? 10 then 273 else if m =? 11 then 304
       else 334).

Definition monthOf (l d : Z) : Z :=
  if d <? 31 then 1 else if d <? 59 + l then 2 else if d <? 90 + l then 3
  else if d <? 120 + l then 4 else if d <? 151 + l then 5 else if d <? 181 + l then 6
  else if d <? 212 + l then 7 else if d <? 243 + l then 8 else if d <? 273 + l then 9
  else if d <? 304 + l then 10 else if d <? 334 + l then 11 else 12.

(** The broken-down UTC time of a time value. *)
Record fields := mkFields {
  fYear : Z; fMonth : Z; fDay : Z; fHour : Z; fMin : Z; fSec : Z; fMs : Z }.

Definition fieldsOf (t : Z) : fields :=
  let d := t / msPerDay in
  let r := t mod msPerDay in
  let y := yearFromDay d in
  let dy := d - dayFromYear y in
  let m := monthOf (isLeap y) dy in
  mkFields y m (dy - monthStart (isLeap y) m + 1)
    (r / 3600000) (r / 60000 mod 60) (r / 1000 mod 60) (r mod 1000).

Definition timeOf (f : fields) : Z :=
  (dayFromYear (fYear f) + monthStart (isLeap (fYear f)) (fMonth f) + fDay f - 1) * msPerDay
  + fHour f * 3600000 + fMin f * 60000 + fSec f * 1000 + fMs f.

(** ** Printing *)

Definition digit (d : Z) : ascii := ascii_of_nat (48 + Z.to_nat d).

(** The last [w] decimal digits of [n], most significant first. *)
Fixpoint pad (w : nat) (n : Z) : string :=
  match w with
  | O => ""
  | S w => String (digit (n / 10 ^ Z.of_nat w)) (pad w (n mod 10 ^ Z.of_nat w))
  end.

Definition printYear (y : Z) : string :=
  if (0 <=? y) && (y <=? 9999) then pad 4 y
  else if y <? 0 then "-" ++ pad 6 (- y) else "+" ++ pad 6 y.

Definition printFields (f : fields) : string :=
  printYear (fYear f) ++ "-" ++ pad 2 (fMonth f) ++ "-" ++ pad 2 (fDay f) ++ "T" ++
  pad 2 (fHour f) ++ ":" ++ pad 2 (fMin f) ++ ":" ++ pad 2 (fSec f) ++ "." ++ pad 3 (fMs f) ++ "Z".

(** [new Date(t).toISOString()]; [None] is the RangeError of an invalid date. *)
Definition toISO (t : Z) : option string :=
  if (- maxTime <=? t) && (t <=? maxTime) then Some (printFields (fieldsOf t)) else None.

(** ** Parsing *)

Fixpoint takeNum (w : nat) (acc : Z) (s : string) : option (Z * string) :=
  match w with
  | O => Some (acc, s)
  | S w => match s with
           | String c r => if isDigit c then takeNum w (acc * 10 + digitVal c) r else None
           | EmptyString => None
           end
  end.

Definition expect (c : ascii) (s : string) : option string :=
  match s with String d r => if Ascii.eqb c d then Some r else None | EmptyString => None end.

Definition takeYear (s : string) : option (Z * string) :=
  match s with
  | String "+" r => takeNum 6 0 r
  | String "-" r => match takeNum 6 0 r with Some (y, r) => Some (- y, r) | None => None end
  | _ => takeNum 4 0 s
  end.

Definition parseFields (s : string) : option fields :=
  '(y, s) ← takeYear s; s ← expect "-" s;
  '(mo, s) ← takeNum 2 0 s; s ← expect "-" s;
  '(d, s) ← takeNum 2 0 s; s ← expect "T" s;
  '(h, s) ← takeNum 2 0 s; s ← expect ":" s;
  '(mi, s) ← takeNum 2 0 s; s ← expect ":" s;
  '(sec, s) ← takeNum 2 0 s; s ← expect "." s;
  '(ms, s) ← takeNum 3 0 s; s ← expect "Z" s;
  if String.eqb s "" then Some (mkFields y mo d h mi sec ms) else None.

(** [new Date(s).getTime()], [None] for NaN: a string in the form
    [toISOString] prints is read exactly; the engine's parser [other] reads
    every other one. *)
Definition parseDate (other : string -> option Z) (s : string) : option Z :=
  match parseFields s with
  | Some f =>
      if bool_decide (toISO (timeOf f) = Some s) then Some (timeOf f) else other s
  | None => other s
  end.

(** [a <= b] on strings. *)
Definition strLe (a b : string) : bool := String.leb a b.

(** ** The calendar is consistent *)

Lemma yearFromDay_spec d :
  dayFromYear (yearFromDay d) <= d < dayFromYear (yearFromDay d + 1).
Proof.
  unfold yearFromDay.
  destruct (Z.ltb_spec d (dayFromYear (1970 + d * 400 / 146097))) as [H|H];
    [|destruct (Z.leb_spec (dayFromYear (1970 + d * 400 / 146097 + 1)) d) as [H'|H']];
    unfold dayFromYear in *; Z.div_mod_to_equations; lia.
Qed.

Lemma isLeap_01 y : isLeap y = 0 \/ isLeap y = 1.
Proof. unfold isLeap. case_match; auto. Qed.

Lemma year_length y : dayFromYear (y + 1) = dayFromYear y + 365 + isLeap y.
Proof.
  unfold isLeap, dayFromYear.
  destruct (Z.eqb_spec (y mod 4) 0), (Z.eqb_spec (y mod 100) 0), (Z.eqb_spec (y mod 400) 0);
    cbn; Z.div_mod_to_equations; lia.
Qed.

Lemma dayFromYear_mono y z : y <= z -> dayFromYear y <= dayFromYear z.
Proof.
  intros H. pattern z. apply Zlt_lower_bound_ind with (z := y); [|exact H].
  intros x IH Hx. destruct (Z.eq_dec x y) as [->|]; [lia|].
  pose proof (IH (x - 1) ltac:(lia)). pose proof (year_length (x - 1)).
  pose proof (isLeap_01 (x - 1)). replace (x - 1 + 1) with x in * by lia. lia.
Qed.

Lemma yearFromDay_mono d e : d <= e -> yearFromDay d <= yearFromDay e.
Proof.
  intros H. pose proof (yearFromDay_spec d). pose proof (yearFromDay_spec e).
  destruct (Z.le_gt_cases (yearFromDay d) (yearFromDay e)) as [|Hlt]; [assumption|].
  pose proof (dayFromYear_mono (yearFromDay e + 1) (yearFromDay d) ltac:(lia)). lia.
Qed.

Ltac split_tests :=
  repeat match goal with |- context [?a <? ?b] => destruct (Z.ltb_spec a b) end.

Lemma monthOf_spec l d :
  l = 0 \/ l = 1 -> 0 <= d < 365 + l ->
  1 <= monthOf l d <= 12 /\ 1 <= d - monthStart l (monthOf l d) + 1 <= 31.
Proof. intros Hl Hd. unfold monthOf. split_tests; cbn; lia. Qed.

Lemma monthOf_mono l d e : l = 0 \/ l = 1 -> d <= e -> monthOf l d <= monthOf l e.
Proof. intros Hl H. unfold monthOf. split_tests; lia. Qed.

(** The fields of a time value: each in its range, and nothing lost. *)
Definition fieldsOk (f : fields) : Prop :=
  1 <= fMonth f <= 12 /\ 1 <= fDay f <= 31 /\ 0 <= fHour f <= 23 /\
  0 <= fMin f <= 59 /\ 0 <= fSec f <= 59 /\ 0 <= fMs f <= 999.

Lemma dayOfYear_range d :
  0 <= d - dayFromYear (yearFromDay d) < 365 + isLeap (yearFromDay d).
Proof. pose proof (yearFromDay_spec d). pose proof (year_length (yearFromDay d)). lia. Qed.

Lemma fieldsOf_ok t : fieldsOk (fieldsOf t).
Proof.
  unfold fieldsOk, fieldsOf. cbn [fMonth fDay fHour fMin fSec fMs].
  pose proof (monthOf_spec _ _ (isLeap_01 _) (dayOfYear_range (t / msPerDay))) as [Hm Hd].
  unfold msPerDay in *. repeat split; try (apply Hm || apply Hd); Z.div_mod_to_equations; lia.
Qed.

Lemma timeOf_fieldsOf t : timeOf (fieldsOf t) = t.
Proof.
  unfold timeOf, fieldsOf. cbn [fYear fMonth fDay fHour fMin fSec fMs].
  set (y := yearFromDay (t / msPerDay)). set (s := monthStart _ _).
  replace (dayFromYear y + s + _ - 1) with (t / msPerDay) by lia.
  unfold msPerDay. Z.div_mod_to_equations; lia.
Qed.

Lemma yearOf_bounds t :
  - maxTime <= t <= maxTime -> -271821 <= fYear (fieldsOf t) <= 275760.
Proof.
  unfold maxTime. intros H. cbn [fieldsOf fYear].
  pose proof (yearFromDay_mono (-100000000) (t / msPerDay)).
  pose proof (yearFromDay_mono (t / msPerDay) 100000000).
  change (yearFromDay (-100000000)) with (-271821) in *.
  change (yearFromDay 100000000) with 275760 in *.
  unfold msPerDay in *. Z.div_mod_to_equations; lia.
Qed.

(** ** Printing and parsing *)

Lemma digit_range n w : 0 <= n < 10 ^ Z.of_nat (S w) -> 0 <= n / 10 ^ Z.of_nat w <= 9.
Proof.
  rewrite Nat2Z.inj_succ, Z.pow_succ_r by lia. intros H.
  assert (0 < 10 ^ Z.of_nat w) by (apply Z.pow_pos_nonneg; lia).
  split; [apply Z.div_pos; lia|].
  apply Z.lt_succ_r, Z.div_lt_upper_bound; lia.
Qed.

Lemma digit_ok d : 0 <= d <= 9 -> isDigit (digit d) = true /\ digitVal (digit d) = d.
Proof.
  intros H. assert (d = 0 \/ d = 1 \/ d = 2 \/ d = 3 \/ d = 4 \/ d = 5 \/ d = 6 \/ d = 7
    \/ d = 8 \/ d = 9) as Hd by lia.
  repeat destruct Hd as [->|Hd]; try subst d; split; reflexivity.
Qed.

Lemma takeNum_pad w acc n s :
  0 <= n < 10 ^ Z.of_nat w ->
  takeNum w acc (pad w n ++ s) = Some (acc * 10 ^ Z.of_nat w + n, s).
Proof.
  revert acc n. induction w as [|w IH]; intros acc n Hn.
  - cbn in *. f_equal. f_equal. lia.
  - pose proof (digit_ok _ (digit_range _ _ Hn)) as [Hd Hv].
    cbn [pad takeNum append]. rewrite Hd, Hv.
    assert (0 < 10 ^ Z.of_nat w) by (apply Z.pow_pos_nonneg; lia).
    rewrite IH by (apply Z.mod_pos_bound; lia).
    rewrite Nat2Z.inj_succ, Z.pow_succ_r by lia.
    f_equal. f_equal. rewrite (Z.div_mod n (10 ^ Z.of_nat w)) at 3 by lia. ring.
Qed.

Lemma pad_first w n : exists r, pad (S w) n = String (digit (n / 10 ^ Z.of_nat w)) r.
Proof. eexists; reflexivity. Qed.

Lemma takeYear_print y s :
  -999999 <= y <= 999999 -> takeYear (printYear y ++ s) = Some (y, s).
Proof.
  intros Hy. unfold printYear.
  destruct ((0 <=? y) && (y <=? 9999)) eqn:E; [|destruct (Z.ltb_spec y 0)].
  - bool_hyps.
    pose proof (takeNum_pad 4 0 y s ltac:(cbn; lia)) as HT.
    destruct (pad_first 3 y) as [r Hr]. rewrite Hr in HT |- *.
    pose proof (digit_ok (y / 10 ^ Z.of_nat 3) ltac:(apply digit_range; cbn; lia)) as [Hd _].
    destruct (digit (y / 10 ^ Z.of_nat 3)) as [[] [] [] [] [] [] [] []];
      cbn in Hd; try discriminate Hd; exact HT.
  - cbn [append takeYear]. rewrite takeNum_pad by (cbn; lia). f_equal. f_equal. lia.
  - cbn [append takeYear]. rewrite takeNum_pad by (apply andb_false_iff in E; bool_hyps; cbn; lia).
    reflexivity.
Qed.

Lemma parseFields_print f :
  fieldsOk f -> -999999 <= fYear f <= 999999 -> parseFields (printFields f) = Some f.
Proof.
  intros (Hmo & Hd & Hh & Hmi & Hs & Hms) Hy. unfold parseFields, printFields.
  rewrite takeYear_print by exact Hy. cbn [append expect Ascii.eqb Bool.eqb mbind option_bind].
  repeat (rewrite takeNum_pad by (cbn; lia);
          cbn [append expect Ascii.eqb Bool.eqb mbind option_bind]).
  destruct f; reflexivity.
Qed.

(** A time that [toISOString] printed is read back exactly, over the whole
    range of dates. *)
Lemma parseDate_toISO other t s : toISO t = Some s -> parseDate other s = Some t.
Proof.
  intros H. pose proof H as H0. unfold toISO in H. case_match eqn:E; [|discriminate].
  injection H as <-. bool_hyps.
  pose proof (yearOf_bounds t ltac:(lia)).
  unfold parseDate. rewrite parseFields_print by (apply fieldsOf_ok || lia).
  rewrite timeOf_fieldsOf, bool_decide_eq_true_2 by exact H0. reflexivity.
Qed.

Lemma toISO_inj t u s : toISO t = Some s -> toISO u = Some s -> t = u.
Proof.
  intros Ht Hu. apply (parseDate_toISO (fun _ => None)) in Ht, Hu. congruence.
Qed.

(** ** The order of the strings *)

Definition lex (c d : comparison) : comparison :=
  match c with Eq => d | _ => c end.

Definition cmpFields (f g : fields) : comparison :=
  lex (fYear f ?= fYear g) (lex (fMonth f ?= fMonth g) (lex (fDay f ?= fDay g)
    (lex (fHour f ?= fHour g) (lex (fMin f ?= fMin g) (lex (fSec f ?= fSec g) (fMs f ?= fMs g)))))).

Lemma digit_compare a b :
  0 <= a <= 9 -> 0 <= b <= 9 -> Ascii.compare (digit a) (digit b) = (a ?= b).
Proof.
  intros Ha Hb. unfold Ascii.compare, digit, ascii_of_nat.
  rewrite !N_ascii_embedding by lia.
  destruct (Z.compare_spec a b);
    [apply N.compare_eq_iff | apply N.compare_lt_iff | apply N.compare_gt_iff]; lia.
Qed.

Lemma pad_compare w n m s t :
  0 <= n < 10 ^ Z.of_nat w -> 0 <= m < 10 ^ Z.of_nat w ->
  String.compare (pad w n ++ s) (pad w m ++ t) = lex (n ?= m) (String.compare s t).
Proof.
  revert n m. induction w as [|w IH]; intros n m Hn Hm.
  - cbn in *. replace n with 0 by lia. replace m with 0 by lia. reflexivity.
  - cbn [pad append String.compare].
    rewrite digit_compare by (apply digit_range; assumption).
    assert (0 < 10 ^ Z.of_nat w) as Hp by (apply Z.pow_pos_nonneg; lia).
    rewrite IH by (apply Z.mod_pos_bound; lia).
    pose proof (Z.div_mod n (10 ^ Z.of_nat w) ltac:(lia)).
    pose proof (Z.div_mod m (10 ^ Z.of_nat w) ltac:(lia)).
    pose proof (Z.mod_pos_bound n _ Hp). pose proof (Z.mod_pos_bound m _ Hp).
    destruct (Z.compare_spec (n / 10 ^ Z.of_nat w) (m / 10 ^ Z.of_nat w)) as [He|Hl|Hg].
    + destruct (Z.compare_spec n m), (Z.compare_spec (n mod 10 ^ Z.of_nat w) (m mod 10 ^ Z.of_nat w));
        try reflexivity; exfalso; nia.
    + destruct (Z.compare_spec n m); try reflexivity; exfalso; nia.
    + destruct (Z.compare_spec n m); try reflexivity; exfalso; nia.
Qed.

Lemma print_compare f g :
  fieldsOk f -> fieldsOk g -> 0 <= fYear f <= 9999 -> 0 <= fYear g <= 9999 ->
  String.compare (printFields f) (printFields g) = cmpFields f g.
Proof.
  intros (? & ? & ? & ? & ? & ?) (? & ? & ? & ? & ? & ?) Hf Hg.
  unfold printFields, printYear, cmpFields.
  replace ((0 <=? fYear f) && (fYear f <=? 9999)) with true by (symmetry; apply andb_true_intro; lia).
  replace ((0 <=? fYear g) && (fYear g <=? 9999)) with true by (symmetry; apply andb_true_intro; lia).
  repeat (rewrite pad_compare by (cbn; lia); f_equal; cbn [append String.compare Ascii.compare]).
  destruct (fMs f ?= fMs g); reflexivity.
Qed.

Lemma cmpFields_antisym f g : cmpFields g f = CompOpp (cmpFields f g).
Proof.
  assert (forall a b c d, c = CompOpp d -> lex (b ?= a) c = CompOpp (lex (a ?= b) d)) as Hl.
  { intros a b c d ->. rewrite (Z.compare_antisym a b). destruct (a ?= b); reflexivity. }
  unfold cmpFields. repeat apply Hl. apply Z.compare_antisym.
Qed.

Lemma lex_lt a b c : a < b \/ (a = b /\ c = Lt) -> lex (a ?= b) c = Lt.
Proof. intros [H|[-> ->]]; [now rewrite (proj2 (Z.compare_lt_iff a b) H) | now rewrite Z.compare_refl]. Qed.

Lemma cmpFields_lt t u : t < u -> cmpFields (fieldsOf t) (fieldsOf u) = Lt.
Proof.
  intros H. unfold cmpFields, fieldsOf. cbn [fYear fMonth fDay fHour fMin fSec fMs].
  assert (t / msPerDay <= u / msPerDay) as Hd by (apply Z.div_le_mono; unfold msPerDay; lia).
  pose proof (yearFromDay_mono _ _ Hd) as Hy.
  apply lex_lt. destruct (Z.le_lteq (yearFromDay (t / msPerDay)) (yearFromDay (u / msPerDay))) as [Hc _].
  destruct (Hc Hy) as [|He]; [now left | right; split; [exact He|]]. rewrite <- He.
  set (y := yearFromDay (t / msPerDay)). clearbody y.
  pose proof (monthOf_mono (isLeap y) (t / msPerDay - dayFromYear y) (u / msPerDay - dayFromYear y)
    (isLeap_01 y) ltac:(lia)) as Hm.
  apply lex_lt. destruct (Z.eq_dec (t / msPerDay) (u / msPerDay)) as [E|E].
  - rewrite E. right. split; [reflexivity|]. apply lex_lt. right. split; [reflexivity|].
    assert (t mod msPerDay < u mod msPerDay) as Hr
      by (unfold msPerDay in *; Z.div_mod_to_equations; lia).
    revert Hr. generalize (t mod msPerDay) (u mod msPerDay). clear. intros a b Hr.
    apply lex_lt. destruct (Z.eq_dec (a / 3600000) (b / 3600000)) as [E|E];
      [right; split; [exact E|] | left; Z.div_mod_to_equations; lia].
    apply lex_lt. destruct (Z.eq_dec (a / 60000 mod 60) (b / 60000 mod 60)) as [E1|E1];
      [right; split; [exact E1|] | left; Z.div_mod_to_equations; lia].
    apply lex_lt. destruct (Z.eq_dec (a / 1000 mod 60) (b / 1000 mod 60)) as [E2|E2];
      [right; split; [exact E2|] | left; Z.div_mod_to_equations; lia].
    apply Z.compare_lt_iff. Z.div_mod_to_equations; lia.
  - destruct (Z.eq_dec (monthOf (isLeap y) (t / msPerDay - dayFromYear y))
                       (monthOf (isLeap y) (u / msPerDay - dayFromYear y))) as [Em|Em]; [|left; lia].
    right. split; [exact Em|]. apply lex_lt. left. rewrite <- Em. lia.
Qed.

(** The instants of the years 0 to 9999, which print with a four-digit year. *)
Definition fourDigit (t : Z) : Prop := -62167219200000 <= t <= 253402300799999.

Lemma fourDigit_year t : fourDigit t -> 0 <= fYear (fieldsOf t) <= 9999.
Proof.
  unfold fourDigit. intros H. cbn [fieldsOf fYear].
  pose proof (yearFromDay_mono (-719528) (t / msPerDay)).
  pose proof (yearFromDay_mono (t / msPerDay) 2932896).
  change (yearFromDay (-719528)) with 0 in *.
  change (yearFromDay 2932896) with 9999 in *.
  unfold msPerDay in *. Z.div_mod_to_equations; lia.
Qed.

Lemma fourDigit_toISO t : fourDigit t -> toISO t = Some (printFields (fieldsOf t)).
Proof.
  unfold fourDigit, toISO, maxTime. intros H.
  replace ((_ <=? t) && (t <=? _)) with true by (symmetry; apply andb_true_intro; lia).
  reflexivity.
Qed.

(** Within the years 0 to 9999, comparing the printed strings compares the
    instants. *)
Lemma strLe_refl a : strLe a a = true.
Proof.
  unfold strLe, String.leb. pose proof (String.compare_antisym a a) as E.
  destruct (String.compare a a); [reflexivity | reflexivity | discriminate E].
Qed.

Lemma strLe_toISO t u a b :
  fourDigit t -> fourDigit u -> toISO t = Some a -> toISO u = Some b ->
  strLe a b = (t <=? u).
Proof.
  intros Ht Hu. rewrite !fourDigit_toISO by assumption. intros [= <-] [= <-].
  unfold strLe, String.leb.
  rewrite print_compare by (apply fieldsOf_ok || apply fourDigit_year; assumption).
  destruct (Z.lt_trichotomy t u) as [H|[->|H]].
  - rewrite cmpFields_lt by exact H. symmetry. apply Z.leb_le. lia.
  - rewrite Z.leb_refl. unfold cmpFields. rewrite !Z.compare_refl. reflexivity.
  - rewrite cmpFields_antisym, cmpFields_lt by exact H. symmetry. apply Z.leb_gt. lia.
Qed.

(** Past the year 9999 the printed year has a sign, which sorts before every
    digit: the later instant has the smaller string. *)
Lemma strLe_beyond : exists t u a b,
  t < u /\ toISO t = Some a /\ toISO u = Some b /\ strLe a b = false.
Proof.
  exists 253402300799999, 253402300800000. do 2 eexists.
  split; [lia|]. split; [reflexivity|]. split; [reflexivity|]. reflexivity.
Qed.

(** ** The alphabet of printed dates *)

Definition isoChar (c : ascii) : bool :=
  isDigit c || existsb (fun k => Nat.eqb (code c) k) [45; 58; 46; 84; 90; 43]%nat.

Lemma pad_iso w n : 0 <= n < 10 ^ Z.of_nat w -> all isoChar (pad w n) = true.
Proof.
  revert n. induction w as [|w IH]; intros n Hn; [reflexivity|]. cbn [pad all].
  rewrite IH by (apply Z.mod_pos_bound, Z.pow_pos_nonneg; lia).
  unfold isoChar. rewrite (proj1 (digit_ok _ (digit_range _ _ Hn))). reflexivity.
Qed.

Lemma toISO_chars t s : toISO t = Some s -> all isoChar s = true.
Proof.
  unfold toISO. case_match eqn:E; [|discriminate]. intros [= <-]. bool_hyps.
  pose proof (yearOf_bounds t ltac:(lia)) as Hy.
  pose proof (fieldsOf_ok t) as (? & ? & ? & ? & ? & ?).
  generalize dependent (fieldsOf t). intros f Hy ? ? ? ? ? ?.
  assert (all isoChar (printYear (fYear f)) = true) as Hyr.
  { unfold printYear.
    destruct ((0 <=? fYear f) && (fYear f <=? 9999)) eqn:Ey; [|destruct (Z.ltb_spec (fYear f) 0)].
    - bool_hyps. apply pad_iso. cbn. lia.
    - cbn [append all]. rewrite pad_iso by (cbn; lia). reflexivity.
    - cbn [append all]. rewrite pad_iso by (cbn; lia). reflexivity. }
  unfold printFields. repeat (rewrite !all_append || cbn [append all]).
  rewrite Hyr, !pad_iso by (cbn; lia). reflexivity.
Qed.

Lemma toISO_some t : - maxTime <= t <= maxTime -> exists s, toISO t = Some s.
Proof.
  intros H. unfold toISO.
  replace ((_ <=? t) && (t <=? _)) with true by (symmetry; apply andb_true_intro; lia). eauto.
Qed.

Lemma toISO_nonempty t : toISO t = Some EmptyString -> False.
Proof.
  unfold toISO. destruct (_ && _); [|discriminate]. intros [= E].
  unfold printFields, printYear in E. repeat case_hyp E; discriminate E.
Qed.
