(* ===== verification/Errors.v ===== *)
(** * Errors: failure codes and thrown values

    [authority/errors.ts], [jobs/errors.ts] and [secrets/errors.ts], and the
    outcome of a call: a value or a thrown value. *)

From S2P Require Import Prelude JsString.
From Stdlib Require Import ZArith.
Local Open Scope string_scope.
Local Open Scope Z_scope.

(** ** [authority/errors.ts] *)

Inductive ServiceFailureCode :=
| DENIED
| AUTHORITY_UNAVAILABLE
| AUTHORIZATION_TIMEOUT
| INVALID_REQUEST
| PROVIDER_ERROR
| UNAUTHENTICATED
| NOT_FOUND
| CUSTODY_READ_ONLY.

#[global] Instance ServiceFailureCode_eq_dec : EqDecision ServiceFailureCode.
Proof. solve_decision. Defined.

Definition STATUS (code : ServiceFailureCode) : Z :=
  match code with
  | DENIED => 403
  | AUTHORITY_UNAVAILABLE => 503
  | AUTHORIZATION_TIMEOUT => 504
  | INVALID_REQUEST => 400
  | PROVIDER_ERROR => 502
  | UNAUTHENTICATED => 401
  | NOT_FOUND => 404
  | CUSTODY_READ_ONLY => 409
  end.

(** The code as the string the source stores. *)
Definition codeName (code : ServiceFailureCode) : string :=
  match code with
  | DENIED => "DENIED"
  | AUTHORITY_UNAVAILABLE => "AUTHORITY_UNAVAILABLE"
  | AUTHORIZATION_TIMEOUT => "AUTHORIZATION_TIMEOUT"
  | INVALID_REQUEST => "INVALID_REQUEST"
  | PROVIDER_ERROR => "PROVIDER_ERROR"
  | UNAUTHENTICATED => "UNAUTHENTICATED"
  | NOT_FOUND => "NOT_FOUND"
  | CUSTODY_READ_ONLY => "CUSTODY_READ_ONLY"
  end.

(** [webhooks/models.ts]: the outcome of one delivery attempt. *)
Record WebhookDeliveryResult := mkResult {
  dr_success : bool;
  dr_statusCode : option Z;
  dr_error : option string;
  dr_code : option ServiceFailureCode }.

(** [d_outcome] is not one of the source's details: it is the property
    [outcome] that a failed delivery attaches to its error ([Object.assign]). *)
Record ErrorDetails := mkDetailsWith {
  d_capability : option string;
  d_decisionId : option string;
  d_reason : option string;
  d_outcome : option WebhookDeliveryResult }.

Definition mkDetails (capability decisionId reason : option string) : ErrorDetails :=
  mkDetailsWith capability decisionId reason None.

Definition noDetails : ErrorDetails := mkDetails None None None.
Definition capabilityOnly (c : string) : ErrorDetails := mkDetails (Some c) None None.
Definition reasonOnly (r : string) : ErrorDetails := mkDetails None None (Some r).

(** ** Thrown values

    [ServiceAuthorityError] (of which [ServiceMigrationError] is a subclass),
    [SecretError], the store's [ConditionalConflictError], any other [Error]
    (by name and message), an [Error] of the HTTP layer with its status and
    code, and a thrown value that is no [Error], known by its
    [String(value)]. *)
Inductive exn :=
| ServiceAuthorityError (code : ServiceFailureCode) (message : string) (details : ErrorDetails)
| SecretError (code message : string)
| ConditionalConflictError (message : string)
| JsError (name message : string)
| HttpError (status : Z) (code message : string)
| Thrown (repr : string).

Inductive outcome (A : Type) :=
| Ok (a : A)
| Throw (e : exn).
Arguments Ok {A} a.
Arguments Throw {A} e.

#[export] Instance outcome_ret : MRet outcome := fun _ a => Ok a.
#[export] Instance outcome_bind : MBind outcome := fun _ _ k o => match o with Ok a => k a | Throw e => Throw e end.

Definition ServiceMigrationError (message : string) : exn :=
  ServiceAuthorityError INVALID_REQUEST (message ++ " See docs/AUTHORITY.md#migration.") noDetails.

Definition denied (message : string) (details : ErrorDetails) : exn :=
  ServiceAuthorityError DENIED message details.

Definition invalidRequest (message : string) : exn :=
  ServiceAuthorityError INVALID_REQUEST message noDetails.

Definition isServiceAuthorityError (e : exn) : bool :=
  match e with ServiceAuthorityError _ _ _ => true | _ => false end.

(** [isServiceAuthorityError(e) && e.code === code]. *)
Definition hasCode (code : ServiceFailureCode) (e : exn) : bool :=
  match e with ServiceAuthorityError c _ _ => bool_decide (c = code) | _ => false end.

(** [error instanceof ConditionalConflictError]. *)
Definition isConditionalConflict (e : exn) : bool :=
  match e with ConditionalConflictError _ => true | _ => false end.

(** [error instanceof Error ? error.message : String(error)]. *)
Definition errorMessage (e : exn) : string :=
  match e with
  | ServiceAuthorityError _ m _ => m
  | SecretError _ m => m
  | ConditionalConflictError m => m
  | JsError _ m => m
  | HttpError _ _ m => m
  | Thrown r => r
  end.

(** ** [jobs/errors.ts] *)

Definition JobNotFoundError (jobId : string) : exn :=
  JsError "JobNotFoundError" ("Job not found: " ++ jobId).
Definition JobClaimFailedError (jobId reason : string) : exn :=
  JsError "JobClaimFailedError" ("Failed to claim job " ++ jobId ++ ": " ++ reason).
Definition HandlerNotRegisteredError (jobType : string) : exn :=
  JsError "HandlerNotRegisteredError" ("Handler not registered for job type: " ++ jobType).
Definition InvalidIntervalError (interval : string) : exn :=
  JsError "InvalidIntervalError" ("Invalid interval format: " ++ interval).

(** What [toISOString] throws on an invalid date. *)
Definition invalidDate : exn := JsError "RangeError" "Invalid time value".

Lemma hasCode_spec c e :
  hasCode c e = true <-> exists m d, e = ServiceAuthorityError c m d.
Proof.
  destruct e; cbn; try (split; [discriminate | intros (? & ? & ?); discriminate]).
  rewrite bool_decide_eq_true. split; [intros ->; eauto | intros (? & ? & [=]); auto].
Qed.

Lemma obind_ok {A B} (o : outcome A) (k : A -> outcome B) b :
  (a ← o; k a) = Ok b -> exists a, o = Ok a /\ k a = Ok b.
Proof. destruct o; [eauto | discriminate]. Qed.
