(* ===== verification/Models.v ===== *)
(** * Models: the values the services pass around and store

    One record per interface of the source's [models.ts] files and of
    [authority/].  Field names carry a short prefix of the record; optional
    fields ([field?: T]) are [option T].  [__version] is FeltDB's record
    version. *)

From S2P Require Import Prelude JsString.
From Stdlib Require Import ZArith.
Local Open Scope string_scope.
Local Open Scope Z_scope.

(** ** Untyped JavaScript values ([unknown])

    Numbers that are not integers (fractions, NaN, infinities) are one value;
    the source only asks whether a number is an integer.  A function, symbol
    or bigint is [JOpaque]. *)
Inductive jsval :=
| JUndef
| JNull
| JBool (b : bool)
| JInt (z : Z)
| JNumOther
| JStr (s : string)
| JArr (l : list jsval)
| JObj (fields : list (string * jsval))
| JOpaque.

(** [input[field]] of an object given by its own properties. *)
Fixpoint getField (fields : list (string * jsval)) (f : string) : jsval :=
  match fields with
  | [] => JUndef
  | (k, v) :: r => if String.eqb k f then v else getField r f
  end.

Definition ofOption (s : option string) : jsval :=
  match s with Some x => JStr x | None => JUndef end.

(** ** Identity ([authority/principal.ts]) *)

Inductive PrincipalVerification := ByApiKey | ByHost | ByJob | ByDelivery | ByIntegration.

#[global] Instance PrincipalVerification_eq_dec : EqDecision PrincipalVerification.
Proof. solve_decision. Defined.

Definition verificationName (v : PrincipalVerification) : string :=
  match v with
  | ByApiKey => "api_key" | ByHost => "host" | ByJob => "job"
  | ByDelivery => "delivery" | ByIntegration => "integration"
  end.

(** [vp_bound] is membership of the principal in the module-private weak map
    of credential checks ([authority/credential-binding.ts]). *)
Record VerifiedPrincipal := mkPrincipal {
  vp_principalId : string;
  vp_principalType : string;
  vp_tenantId : string;
  vp_applicationId : option string;
  vp_credentialId : option string;
  vp_delegationId : option string;
  vp_runId : option string;
  vp_verifiedBy : PrincipalVerification;
  vp_bound : bool }.

Record PrincipalClaims := mkClaims {
  pc_principalId : string;
  pc_principalType : string;
  pc_tenantId : string;
  pc_applicationId : option string;
  pc_credentialId : option string;
  pc_delegationId : option string;
  pc_runId : option string }.

Record DurablePrincipal := mkDurable {
  dp_principalId : string;
  dp_principalType : string;
  dp_tenantId : string;
  dp_applicationId : option string;
  dp_delegationId : option string;
  dp_credentialId : option string;
  dp_authorizedBy : option string }.

(** ** Requests ([authority/context.ts], [authority/authorizer.ts]) *)

Record ServiceResource := mkResource {
  r_type : string;
  r_tenantId : string;
  r_id : option string;
  r_attributes : option (gmap string string) }.

Record AuthorizationEvidence := mkAuthorization {
  a_decisionId : string;
  a_decidedAt : string;
  a_policyVersion : option string;
  a_reason : option string }.

(** [x_identity] is the object's identity: membership in the weak sets of
    issued and consumed contexts is by identity. *)
Record ServiceExecutionContext := mkContext {
  x_identity : nat;
  x_application : string;
  x_tenantId : string;
  x_principal : VerifiedPrincipal;
  x_capability : string;
  x_capabilityVersion : Z;
  x_requestId : string;
  x_resource : ServiceResource;
  x_resourceUri : string;
  x_authorization : AuthorizationEvidence;
  x_expiresAt : string }.

Record ServiceAuthorizationRequest := mkRequest {
  rq_request_id : string;
  rq_subject_kind : string;
  rq_subject_id : string;
  rq_tenant_id : string;
  rq_application_id : string;
  rq_capability : string;
  rq_capability_version : Z;
  rq_uri : string;
  rq_attributes : option (gmap string string);
  rq_timestamp : Z;
  rq_execution_id : option string;
  rq_delegation_id : option string;
  rq_run_id : option string;
  rq_credential_id : option string;
  rq_verified_by : string }.

(** A decision as it arrives: every field may be missing or mistyped. *)
Record ServiceAuthorizationDecision := mkDecision {
  dc_decision_id : jsval;
  dc_allowed : jsval;
  dc_capability : jsval;
  dc_tenant_id : jsval;
  dc_application_id : jsval;
  dc_subject_id : jsval;
  dc_uri : jsval;
  dc_reason : option string;
  dc_policy_version : option string }.

(** ** Evidence ([authority/evidence.ts]) *)

Inductive EffectOutcome := Started | Succeeded | Failed | ProviderError | OutcomeDenied.

#[global] Instance EffectOutcome_eq_dec : EqDecision EffectOutcome.
Proof. solve_decision. Defined.

Inductive EvidenceDecision := Allow | Deny | NoDecision.

#[global] Instance EvidenceDecision_eq_dec : EqDecision EvidenceDecision.
Proof. solve_decision. Defined.

Record EffectEvidence := mkEvidence {
  e_id : string;
  e_application : string;
  e_tenantId : string;
  e_principalId : string;
  e_principalType : string;
  e_delegationId : option string;
  e_runId : option string;
  e_capability : string;
  e_capabilityVersion : Z;
  e_resource : string;
  e_decision : EvidenceDecision;
  e_decisionId : option string;
  e_credentialRef : option string;
  e_credentialVersion : option Z;
  e_service : string;
  e_provider : option string;
  e_requestId : string;
  e_startedAt : string;
  e_completedAt : option string;
  e_outcome : EffectOutcome;
  e_failureCode : option string;
  e_version : Z }.

#[global] Instance EffectEvidence_eta : Eta EffectEvidence := fun r =>
  mkEvidence (e_id r) (e_application r) (e_tenantId r) (e_principalId r) (e_principalType r)
    (e_delegationId r) (e_runId r) (e_capability r) (e_capabilityVersion r) (e_resource r)
    (e_decision r) (e_decisionId r) (e_credentialRef r) (e_credentialVersion r) (e_service r)
    (e_provider r) (e_requestId r) (e_startedAt r) (e_completedAt r) (e_outcome r)
    (e_failureCode r) (e_version r).

(** ** Jobs and schedules ([jobs/models.ts]) *)

Inductive JobStatus := JScheduled | JPending | JRunning | JRetrying | JCompleted | JFailed.

#[global] Instance JobStatus_eq_dec : EqDecision JobStatus.
Proof. solve_decision. Defined.

Record Job := mkJob {
  j_id : string;
  j_tenantId : string;
  j_applicationId : option string;
  j_type : string;
  j_payload : jsval;
  j_status : JobStatus;
  j_runAt : string;
  j_attemptCount : Z;
  j_maxAttempts : Z;
  j_createdAt : string;
  j_startedAt : option string;
  j_completedAt : option string;
  j_nextAttemptAt : option string;
  j_leaseOwner : option string;
  j_leaseExpiresAt : option string;
  j_lastError : option string;
  j_principal : option DurablePrincipal;
  j_version : Z }.

#[global] Instance Job_eta : Eta Job := fun r =>
  mkJob (j_id r) (j_tenantId r) (j_applicationId r) (j_type r) (j_payload r) (j_status r)
    (j_runAt r) (j_attemptCount r) (j_maxAttempts r) (j_createdAt r) (j_startedAt r)
    (j_completedAt r) (j_nextAttemptAt r) (j_leaseOwner r) (j_leaseExpiresAt r)
    (j_lastError r) (j_principal r) (j_version r).

Record JobSchedule := mkSchedule {
  s_id : string;
  s_tenantId : string;
  s_applicationId : option string;
  s_type : string;
  s_payload : jsval;
  s_interval : string;
  s_nextRunAt : string;
  s_enabled : bool;
  s_createdAt : string;
  s_createdBy : string;
  s_principal : option DurablePrincipal;
  s_version : Z }.

#[global] Instance JobSchedule_eta : Eta JobSchedule := fun r =>
  mkSchedule (s_id r) (s_tenantId r) (s_applicationId r) (s_type r) (s_payload r)
    (s_interval r) (s_nextRunAt r) (s_enabled r) (s_createdAt r) (s_createdBy r)
    (s_principal r) (s_version r).

Record JobAuditEvent := mkJobAudit {
  ja_id : string;
  ja_type : string;
  ja_jobId : option string;
  ja_scheduleId : option string;
  ja_tenantId : string;
  ja_principalId : string;
  ja_timestamp : string;
  ja_success : bool;
  ja_details : list (string * jsval);
  ja_jobType : option string }.

Record CreateJobInput := mkCreateJob {
  ci_tenantId : option string;
  ci_type : string;
  ci_payload : jsval;
  ci_runAt : option string;
  ci_maxAttempts : option Z;
  ci_delegationId : option string;
  (** Properties the interface does not declare. *)
  ci_extra : list (string * jsval) }.

#[global] Instance CreateJobInput_eta : Eta CreateJobInput := fun r =>
  mkCreateJob (ci_tenantId r) (ci_type r) (ci_payload r) (ci_runAt r) (ci_maxAttempts r)
    (ci_delegationId r) (ci_extra r).

Record ScheduleRecurringInput := mkRecurring {
  sr_tenantId : option string;
  sr_type : string;
  sr_payload : jsval;
  sr_interval : string;
  sr_delegationId : option string;
  sr_createdBy : option string;
  sr_extra : list (string * jsval) }.

#[global] Instance ScheduleRecurringInput_eta : Eta ScheduleRecurringInput := fun r =>
  mkRecurring (sr_tenantId r) (sr_type r) (sr_payload r) (sr_interval r) (sr_delegationId r)
    (sr_createdBy r) (sr_extra r).

(** ** API keys ([api-keys/models.ts], [storage/api-keys.ts]) *)

Record ApiKeyResourceRule := mkRule {
  rl_type : option string;
  rl_id : option string;
  rl_attributes : option (gmap string string) }.

Record ApiKeyRestrictions := mkRestrictions {
  rs_capabilities : list string;
  rs_resources : option (list ApiKeyResourceRule) }.

Record ApiKey := mkApiKey {
  k_id : string;
  k_tenantId : string;
  k_applicationId : option string;
  k_name : string;
  k_keyPrefix : string;
  k_secretHash : string;
  k_restrictions : option ApiKeyRestrictions;
  k_createdAt : string;
  k_expiresAt : option string;
  k_revokedAt : option string;
  k_revokedBy : option string;
  k_lastUsedAt : option string;
  k_updatedAt : option string;
  k_updatedBy : option string;
  k_rotatedFrom : option string;
  k_rotatedTo : option string;
  k_rotatedAt : option string;
  k_createdBy : string;
  k_version : Z }.

#[global] Instance ApiKey_eta : Eta ApiKey := fun r =>
  mkApiKey (k_id r) (k_tenantId r) (k_applicationId r) (k_name r) (k_keyPrefix r)
    (k_secretHash r) (k_restrictions r) (k_createdAt r) (k_expiresAt r) (k_revokedAt r)
    (k_revokedBy r) (k_lastUsedAt r) (k_updatedAt r) (k_updatedBy r) (k_rotatedFrom r)
    (k_rotatedTo r) (k_rotatedAt r) (k_createdBy r) (k_version r).

Inductive ApiKeyStatus := KActive | KExpired | KRevoked.

#[global] Instance ApiKeyStatus_eq_dec : EqDecision ApiKeyStatus.
Proof. solve_decision. Defined.

Record ApiKeyPrefixRecord := mkPrefix {
  kp_id : string;
  kp_apiKeyId : string;
  kp_tenantId : string;
  kp_createdAt : string;
  kp_version : Z }.

Inductive KeyAuditResult :=
| RSuccess | RRevoked | RExpired | RInvalidSecret | RApplicationMismatch | RVerifierUnavailable.

#[global] Instance KeyAuditResult_eq_dec : EqDecision KeyAuditResult.
Proof. solve_decision. Defined.

Record ApiKeyAuditEvent := mkKeyAudit {
  ka_id : string;
  ka_type : string;
  ka_credentialId : string;
  ka_tenantId : string;
  ka_principalId : string;
  ka_timestamp : string;
  ka_result : KeyAuditResult;
  ka_changes : option (list string);
  ka_relatedCredentialId : option string }.

(** ** Webhooks ([webhooks/models.ts]) *)

Record WebhookEndpoint := mkEndpoint {
  we_id : string;
  we_tenantId : string;
  we_applicationId : option string;
  we_url : string;
  we_events : list string;
  we_signingCredentialRef : option string;
  we_createdAt : string;
  we_createdBy : string;
  we_disabledAt : option string;
  we_version : Z }.

#[global] Instance WebhookEndpoint_eta : Eta WebhookEndpoint := fun r =>
  mkEndpoint (we_id r) (we_tenantId r) (we_applicationId r) (we_url r) (we_events r)
    (we_signingCredentialRef r) (we_createdAt r) (we_createdBy r) (we_disabledAt r) (we_version r).

Inductive WebhookDeliveryStatus := WPending | WDelivering | WDelivered | WRetrying | WFailed.

#[global] Instance WebhookDeliveryStatus_eq_dec : EqDecision WebhookDeliveryStatus.
Proof. solve_decision. Defined.

Record WebhookDelivery := mkDelivery {
  wd_id : string;
  wd_tenantId : string;
  wd_endpointId : string;
  wd_eventId : string;
  wd_eventType : string;
  wd_payload : jsval;
  wd_status : WebhookDeliveryStatus;
  wd_attemptCount : Z;
  wd_nextAttemptAt : option string;
  wd_createdAt : string;
  wd_lastAttemptAt : option string;
  wd_deliveredAt : option string;
  wd_lastStatusCode : option Z;
  wd_lastError : option string;
  wd_principal : option DurablePrincipal;
  wd_version : Z }.

#[global] Instance WebhookDelivery_eta : Eta WebhookDelivery := fun r =>
  mkDelivery (wd_id r) (wd_tenantId r) (wd_endpointId r) (wd_eventId r) (wd_eventType r)
    (wd_payload r) (wd_status r) (wd_attemptCount r) (wd_nextAttemptAt r) (wd_createdAt r)
    (wd_lastAttemptAt r) (wd_deliveredAt r) (wd_lastStatusCode r) (wd_lastError r)
    (wd_principal r) (wd_version r).

Record WebhookAuditEvent := mkHookAudit {
  wa_id : string;
  wa_type : string;
  wa_endpointId : option string;
  wa_deliveryId : option string;
  wa_integrationId : option string;
  wa_tenantId : string;
  wa_principalId : string;
  wa_timestamp : string;
  wa_success : bool;
  wa_reason : option string;
  wa_eventType : option string }.

Record WebhookIntegration := mkIntegration {
  wi_id : string;
  wi_tenantId : string;
  wi_applicationId : string;
  wi_provider : string;
  wi_principalId : string;
  wi_signingCredentialRef : string;
  wi_createdAt : string;
  wi_createdBy : string;
  wi_disabledAt : option string;
  wi_version : Z }.

Record InboundRecord := mkInbound {
  ib_id : string;
  ib_integrationId : string;
  ib_provider : string;
  ib_eventId : string;
  ib_eventTimestamp : string;
  ib_acceptedAt : string;
  ib_tenantId : string }.

(** ** Files ([files/models.ts]) *)

Record File := mkFile {
  f_id : string;
  f_tenantId : string;
  f_applicationId : option string;
  f_owner : string;
  f_name : string;
  f_contentType : option string;
  f_size : Z;
  f_checksum : option string;
  f_storageKey : string;
  f_metadata : option jsval;
  f_createdAt : string;
  f_updatedAt : option string;
  f_deletedAt : option string;
  f_version : Z }.

#[global] Instance File_eta : Eta File := fun r =>
  mkFile (f_id r) (f_tenantId r) (f_applicationId r) (f_owner r) (f_name r) (f_contentType r)
    (f_size r) (f_checksum r) (f_storageKey r) (f_metadata r) (f_createdAt r) (f_updatedAt r)
    (f_deletedAt r) (f_version r).

Record FileAuditEvent := mkFileAudit {
  fa_id : string;
  fa_type : string;
  fa_fileId : string;
  fa_tenantId : string;
  fa_owner : string;
  fa_principalId : string;
  fa_timestamp : string }.

(** ** Secrets ([secrets/models.ts], [secrets/protocol.ts]) *)

Record SecretReference := mkSecretRef {
  sf_secretId : string;
  sf_tenantId : string;
  sf_provider : option string;
  sf_kind : option string }.

Record SecretAccessContext := mkAccess {
  sa_tenantId : string;
  sa_principalId : string;
  sa_purpose : string;
  sa_authorizationRef : option string }.

Record ResolvedSecret := mkResolved {
  rv_value : jsval;
  rv_secretId : string;
  rv_version : Z }.

(** What a host's custody returns, before it is checked. *)
Record RawCustodyStatus := mkRawStatus {
  cs_state : jsval;
  cs_version : jsval;
  cs_updatedAt : jsval;
  cs_location : jsval;
  cs_writable : jsval }.

Record RawStoreResult := mkRawStore {
  cr_version : jsval;
  cr_storedAt : jsval }.

Inductive CustodyState := CSet | CMissing | CRevoked.

Record SecretCustodyStatus := mkStatus {
  ss_state : CustodyState;
  ss_version : option Z;
  ss_updatedAt : option string;
  ss_location : option string;
  ss_writable : bool }.

Record SecretCustodyWriteResult := mkWriteResult {
  sw_version : Z;
  sw_storedAt : string }.

(** Value-free metadata of stored credentials ([storage/secrets.ts]). *)

Inductive SecretStatus := SActive | SRevoked | SRetired.

#[global] Instance SecretStatus_eq_dec : EqDecision SecretStatus.
Proof. solve_decision. Defined.

Record Secret := mkSecret {
  sm_id : string;
  sm_tenantId : string;
  sm_name : string;
  sm_currentVersion : Z;
  sm_status : SecretStatus;
  sm_providerRef : string;
  sm_provider : option string;
  sm_kind : option string;
  sm_createdAt : string;
  sm_createdBy : string }.

#[global] Instance Secret_eta : Eta Secret := fun r =>
  mkSecret (sm_id r) (sm_tenantId r) (sm_name r) (sm_currentVersion r) (sm_status r) (sm_providerRef r)
    (sm_provider r) (sm_kind r) (sm_createdAt r) (sm_createdBy r).

Record SecretVersion := mkSecretVersion {
  sn_id : string;
  sn_secretId : string;
  sn_tenantId : string;
  sn_version : Z;
  sn_providerRef : string;
  sn_status : SecretStatus;
  sn_createdAt : string;
  sn_createdBy : string }.

#[global] Instance SecretVersion_eta : Eta SecretVersion := fun r =>
  mkSecretVersion (sn_id r) (sn_secretId r) (sn_tenantId r) (sn_version r) (sn_providerRef r)
    (sn_status r) (sn_createdAt r) (sn_createdBy r).

Record SecretAuditEvent := mkSecretAudit {
  sx_id : string;
  sx_type : string;
  sx_secretId : string;
  sx_version : option Z;
  sx_tenantId : string;
  sx_principalId : string;
  sx_timestamp : string;
  sx_success : bool;
  sx_purpose : string;
  sx_reason : option string;
  sx_provider : option string }.

(** ** Configuration ([configuration/models.ts]) *)

Inductive ConfigurationEnvironment := Development | Staging | Production.

#[global] Instance ConfigurationEnvironment_eq_dec : EqDecision ConfigurationEnvironment.
Proof. solve_decision. Defined.

Record ConfigurationScope := mkScope {
  sc_tenantId : string;
  sc_applicationId : string;
  sc_environment : ConfigurationEnvironment }.

#[global] Instance ConfigurationScope_eq_dec : EqDecision ConfigurationScope.
Proof. solve_decision. Defined.

Record ConfigurationVariable := mkVariable {
  cv_id : string;
  cv_scope : ConfigurationScope;
  cv_name : string;
  cv_value : string;
  cv_required : bool;
  cv_createdAt : string;
  cv_updatedAt : string;
  cv_createdBy : string;
  cv_version : Z }.

#[global] Instance ConfigurationVariable_eta : Eta ConfigurationVariable := fun r =>
  mkVariable (cv_id r) (cv_scope r) (cv_name r) (cv_value r) (cv_required r) (cv_createdAt r)
    (cv_updatedAt r) (cv_createdBy r) (cv_version r).

(** [cb_value] is the raw value of a legacy row; new rows have none. *)
Record ConfigurationSecret := mkBinding {
  cb_id : string;
  cb_scope : ConfigurationScope;
  cb_name : string;
  cb_credentialRef : string;
  cb_required : bool;
  cb_createdAt : string;
  cb_updatedAt : string;
  cb_createdBy : string;
  cb_value : option jsval;
  cb_version : Z }.

#[global] Instance ConfigurationSecret_eta : Eta ConfigurationSecret := fun r =>
  mkBinding (cb_id r) (cb_scope r) (cb_name r) (cb_credentialRef r) (cb_required r) (cb_createdAt r)
    (cb_updatedAt r) (cb_createdBy r) (cb_value r) (cb_version r).

Record ConfigurationAuditEvent := mkConfigAudit {
  ca_id : string;
  ca_type : string;
  ca_scope : ConfigurationScope;
  ca_name : string;
  ca_secret : bool;
  ca_actor : string;
  ca_timestamp : string;
  ca_operation : string;
  ca_configured : bool }.

(** ** Notifications ([notifications/models.ts]) *)

Inductive NotificationPriority := PLow | PNormal | PHigh | PUrgent.

#[global] Instance NotificationPriority_eq_dec : EqDecision NotificationPriority.
Proof. solve_decision. Defined.

Inductive NotificationStatus := NPending | NDelivered | NFailed | NRead | NAcknowledged | NExpired.

#[global] Instance NotificationStatus_eq_dec : EqDecision NotificationStatus.
Proof. solve_decision. Defined.

Record NotificationSource := mkSource {
  so_type : string;
  so_id : option string;
  so_eventId : option string }.

Record Notification := mkNotification {
  n_id : string;
  n_tenantId : string;
  n_applicationId : option string;
  n_recipient : string;
  n_type : string;
  n_title : string;
  n_body : option string;
  n_data : option jsval;
  n_source : option NotificationSource;
  n_priority : NotificationPriority;
  n_channels : list string;
  n_status : NotificationStatus;
  n_idempotencyKey : option string;
  n_createdAt : string;
  n_createdBy : option string;
  n_expiresAt : option string;
  n_deliveredAt : option string;
  n_failedAt : option string;
  n_expiredAt : option string;
  n_readAt : option string;
  n_acknowledgedAt : option string;
  n_dismissedAt : option string;
  n_version : Z }.

#[global] Instance Notification_eta : Eta Notification := fun r =>
  mkNotification (n_id r) (n_tenantId r) (n_applicationId r) (n_recipient r) (n_type r) (n_title r) (n_body r)
    (n_data r) (n_source r) (n_priority r) (n_channels r) (n_status r) (n_idempotencyKey r) (n_createdAt r)
    (n_createdBy r) (n_expiresAt r) (n_deliveredAt r) (n_failedAt r) (n_expiredAt r) (n_readAt r)
    (n_acknowledgedAt r) (n_dismissedAt r) (n_version r).

Inductive NotificationDeliveryStatus := NdPending | NdDelivered | NdFailed | NdRetrying.

#[global] Instance NotificationDeliveryStatus_eq_dec : EqDecision NotificationDeliveryStatus.
Proof. solve_decision. Defined.

Record NotificationDelivery := mkNotificationDelivery {
  nd_id : string;
  nd_tenantId : string;
  nd_notificationId : string;
  nd_recipient : string;
  nd_channel : string;
  nd_status : NotificationDeliveryStatus;
  nd_idempotencyKey : string;
  nd_attemptCount : Z;
  nd_maxAttempts : Z;
  nd_createdAt : string;
  nd_lastAttemptAt : option string;
  nd_nextAttemptAt : option string;
  nd_deliveredAt : option string;
  nd_failedAt : option string;
  nd_failureReason : option string;
  nd_externalId : option string;
  nd_version : Z }.

#[global] Instance NotificationDelivery_eta : Eta NotificationDelivery := fun r =>
  mkNotificationDelivery (nd_id r) (nd_tenantId r) (nd_notificationId r) (nd_recipient r) (nd_channel r)
    (nd_status r) (nd_idempotencyKey r) (nd_attemptCount r) (nd_maxAttempts r) (nd_createdAt r)
    (nd_lastAttemptAt r) (nd_nextAttemptAt r) (nd_deliveredAt r) (nd_failedAt r) (nd_failureReason r)
    (nd_externalId r) (nd_version r).

Record NotificationAuditEvent := mkNotificationAudit {
  nx_id : string;
  nx_type : string;
  nx_notificationId : string;
  nx_tenantId : string;
  nx_recipient : string;
  nx_principalId : string;
  nx_timestamp : string;
  nx_success : bool;
  nx_channel : option string;
  nx_deliveryId : option string }.

(** ** Collections of the application

    What an application keeps in a collection of its own is its business: a
    value, under a version that the store counts. *)

Record ApplicationRecord := mkApplicationRecord {
  ar_value : jsval;
  ar_version : Z }.

#[global] Instance ApplicationRecord_eta : Eta ApplicationRecord := fun r => mkApplicationRecord (ar_value r) (ar_version r).
