(* ===== verification/Store.v ===== *)
(** * Store: FeltDB as the services use it, and the monad they run in

    FeltDB ([@feltdb/core]) is not part of the repository: it is the class
    [FeltDB] of its operations on typed collections, with the documented
    behaviour the services rely on as the class [FeltDBLaws].  [MemDB] is a
    concrete instance, used by the witnesses.

    A service operation is a computation of [M]: it threads the [World] (the
    database, the clock, fresh identifiers, this process's memory) and returns
    a value or throws.  Between any two database calls other tasks and
    processes may write: [w_env] lists what they do at each call. *)

From S2P Require Import Prelude JsString JsTime Errors Models.
From Stdlib Require Import ZArith Lia Ascii.
Local Open Scope string_scope.
Local Open Scope Z_scope.

(** ** Collections *)

Inductive coll : Type -> Type :=
| CJobs : coll Job
| CSchedules : coll JobSchedule
| CJobAudit : coll JobAuditEvent
| CEvidence : coll EffectEvidence
| CKeys : coll ApiKey
| CPrefixes : coll ApiKeyPrefixRecord
| CKeyAudit : coll ApiKeyAuditEvent
| CEndpoints : coll WebhookEndpoint
| CDeliveries : coll WebhookDelivery
| CHookAudit : coll WebhookAuditEvent
| CIntegrations : coll WebhookIntegration
| CInbound : coll InboundRecord
| CFiles : coll File
| CFileAudit : coll FileAuditEvent
| CSecrets : coll Secret
| CSecretVersions : coll SecretVersion
| CSecretAudit : coll SecretAuditEvent
| CVariables : coll ConfigurationVariable
| CBindings : coll ConfigurationSecret
| CConfigAudit : coll ConfigurationAuditEvent
| CNotifications : coll Notification
| CNotificationDeliveries : coll NotificationDelivery
| CNotificationAudit : coll NotificationAuditEvent
| CApplication (name : string) : coll ApplicationRecord.

(** The name of a collection; a slash keeps those of the application apart
    from the services' own. *)
Definition cname {V} (c : coll V) : string :=
  match c with
  | CJobs => "jobs" | CSchedules => "job_schedules" | CJobAudit => "job_audit_events"
  | CEvidence => "service_effect_evidence"
  | CKeys => "api_keys" | CPrefixes => "api_key_prefixes" | CKeyAudit => "api_key_audit_events"
  | CEndpoints => "webhook_endpoints" | CDeliveries => "webhook_deliveries"
  | CHookAudit => "webhook_audit_events" | CIntegrations => "webhook_integrations"
  | CInbound => "inbound_webhook_events"
  | CFiles => "files" | CFileAudit => "file_audit_events"
  | CSecrets => "Secrets"
  | CSecretVersions => "SecretVersions"
  | CSecretAudit => "SecretAuditEvents"
  | CVariables => "ConfigurationVariables"
  | CBindings => "ConfigurationSecrets"
  | CConfigAudit => "ConfigurationAuditEvents"
  | CNotifications => "notifications"
  | CNotificationDeliveries => "notification_deliveries"
  | CNotificationAudit => "notification_audit_events"
  | CApplication name => String "/"%char name
  end.

(** Collections of one name are one collection. *)
Lemma coll_same {V W} (c : coll V) (c' : coll W) (P : forall W, coll W -> Prop) : cname c' = cname c -> P V c -> P W c'.
Proof. intros E. destruct c, c'; first [discriminate E | injection E as -> | idtac]; exact id. Qed.

(** The record version of an item, where its type declares one. *)
Definition getVersion {V} (c : coll V) : V -> Z :=
  match c with
  | CJobs => j_version | CSchedules => s_version | CEvidence => e_version
  | CKeys => k_version | CPrefixes => kp_version | CEndpoints => we_version
  | CDeliveries => wd_version | CIntegrations => wi_version | CFiles => f_version
  | CVariables => cv_version
  | CBindings => cb_version
  | CNotifications => n_version
  | CNotificationDeliveries => nd_version
  | CApplication _ => ar_version
  | _ => fun _ => 0
  end.

Definition setVersion {V} (c : coll V) (n : Z) : V -> V :=
  match c with
  | CJobs => fun r => r <| j_version := n |>
  | CSchedules => fun r => r <| s_version := n |>
  | CEvidence => fun r => r <| e_version := n |>
  | CKeys => fun r => r <| k_version := n |>
  | CEndpoints => fun r => r <| we_version := n |>
  | CDeliveries => fun r => r <| wd_version := n |>
  | CFiles => fun r => r <| f_version := n |>
  | CVariables => fun r => r <| cv_version := n |>
  | CBindings => fun r => r <| cb_version := n |>
  | CNotifications => fun r => r <| n_version := n |>
  | CNotificationDeliveries => fun r => r <| nd_version := n |>
  | CApplication _ => fun r => r <| ar_version := n |>
  | _ => fun r => r
  end.

(** One operation of [db.transaction]: on a record of the services, or on one
    of a collection of the application. *)
Inductive txop :=
| TxPut {V : Type} (c : coll V) (id : string) (requireAbsent : bool)
    (expectedVersion : option Z) (value : V)
| TxApplication (collection id : string) (requireAbsent requirePresent : bool)
    (expectedVersion : option Z) (value : jsval).

Definition txKey (o : txop) : string * string :=
  match o with
  | TxPut c id _ _ _ => (cname c, id)
  | TxApplication name id _ _ _ _ => (cname (CApplication name), id)
  end.

(** ** FeltDB *)

Class FeltDB (DB : Type) := {
  db_get : forall {V}, coll V -> string -> DB -> DB * outcome (option V);
  db_find : forall {V}, coll V -> (V -> bool) -> DB -> DB * outcome (list V);
  db_updateIfVersion : forall {V}, coll V -> string -> Z -> (V -> V) -> DB -> DB * outcome (option V);
  db_insert : forall {V}, coll V -> string -> V -> DB -> DB * outcome unit;
  db_update : forall {V}, coll V -> string -> V -> DB -> DB * outcome unit;
  db_delete : forall {V}, coll V -> string -> DB -> DB * outcome unit;
  db_transaction : list txop -> DB -> DB * outcome unit;
  (** One page: at most [limit] matching records from a cursor on, and the
      cursor of the next page ([None]: exhausted). *)
  db_query : forall {V}, coll V -> (V -> bool) -> nat -> option string -> DB
    -> DB * outcome (list V * option string);
  (** Specification only: the committed record, and that the store answers. *)
  peek : forall {V}, coll V -> string -> DB -> option V;
  up : DB -> Prop }.

(** The store changed at one key only. *)
Definition changed {DB} `{FeltDB DB} {V} (c : coll V) (k : string) (o : option V) (db db' : DB) : Prop :=
  up db' /\ peek c k db' = o /\
  forall V' (c' : coll V') k', (cname c', k') <> (cname c, k) -> peek c' k' db' = peek c' k' db.

(** The precondition of one transaction operation. *)
Definition txReady {DB} `{FeltDB DB} (db : DB) (o : txop) : Prop :=
  match o with
  | TxPut c id absent ev _ =>
      match peek c id db with
      | None => ev = None
      | Some cur => absent = false /\ match ev with Some v => getVersion c cur = v | None => True end
      end
  | TxApplication name id absent present ev _ =>
      match peek (CApplication name) id db with
      | None => present = false /\ ev = None
      | Some cur => absent = false /\ match ev with Some v => ar_version cur = v | None => True end
      end
  end.

Definition txDone {DB} `{FeltDB DB} (db : DB) (o : txop) : Prop :=
  match o with
  | TxPut c id _ _ v => peek c id db = Some v
  | TxApplication name id _ _ _ v => exists n, peek (CApplication name) id db = Some (mkApplicationRecord v n)
  end.

(** [l] lists the records that satisfy [p], once each. *)
Definition enumerates {DB} `{FeltDB DB} {V} (c : coll V) (p : V -> bool) (db : DB) (l : list V) : Prop :=
  exists ks, NoDup ks /\ Forall2 (fun k x => peek c k db = Some x) ks l /\
    Forall (fun x => p x = true) l /\
    (forall k x, peek c k db = Some x -> p x = true -> k ∈ ks).

Class FeltDBLaws (DB : Type) `{FeltDB DB} := {
  law_get : forall V (c : coll V) k db, up db -> db_get c k db = (db, Ok (peek c k db));
  law_find : forall V (c : coll V) p db, up db ->
    exists l, db_find c p db = (db, Ok l) /\ enumerates c p db l;
  law_query : forall V (c : coll V) p db, up db ->
    exists l (pos : string -> nat), enumerates c p db l /\
      forall limit cursor, (0 < limit)%nat ->
        let i := match cursor with Some s => pos s | None => O end in
        exists n next, db_query c p limit cursor db = (db, Ok (take n (drop i l), next)) /\
          (n <= limit)%nat /\
          match next with
          | None => (length l <= i + n)%nat
          | Some s => s <> "" /\ (0 < n <= length l - i)%nat /\ pos s = (i + n)%nat
          end;
  law_cas_hit : forall V (c : coll V) k v patch db cur, up db ->
    peek c k db = Some cur -> getVersion c cur = v ->
    exists db', db_updateIfVersion c k v patch db
                = (db', Ok (Some (setVersion c (v + 1) (patch cur)))) /\
      changed c k (Some (setVersion c (v + 1) (patch cur))) db db';
  law_cas_miss : forall V (c : coll V) k v patch db, up db ->
    (forall cur, peek c k db = Some cur -> getVersion c cur <> v) ->
    db_updateIfVersion c k v patch db = (db, Ok None);
  law_insert : forall V (c : coll V) k x db, up db -> peek c k db = None ->
    exists db', db_insert c k x db = (db', Ok tt) /\ changed c k (Some x) db db';
  law_update : forall V (c : coll V) k x cur db, up db -> peek c k db = Some cur ->
    exists db', db_update c k x db = (db', Ok tt) /\
      changed c k (Some (setVersion c (getVersion c cur + 1) x)) db db';
  law_delete : forall V (c : coll V) k db, up db ->
    exists db', db_delete c k db = (db', Ok tt) /\ changed c k None db db';
  law_commit : forall ops db, up db -> NoDup (map txKey ops) -> Forall (txReady db) ops ->
    exists db', db_transaction ops db = (db', Ok tt) /\ up db' /\ Forall (txDone db') ops /\
      forall V (c : coll V) k, (cname c, k) ∉ map txKey ops -> peek c k db' = peek c k db;
  law_conflict : forall ops db, up db -> Exists (fun o => ~ txReady db o) ops ->
    exists m, db_transaction ops db = (db, Throw (ConditionalConflictError m)) }.

(** ** The world *)

(** This process's caches of the API-key service. *)
Record Mem := mkMem {
  mm_known : list (string * string);
  mm_local : list (string * ApiKey) }.

#[global] Instance Mem_eta : Eta Mem := fun r => mkMem (mm_known r) (mm_local r).

Record World (DB : Type) := mkWorld {
  w_db : DB;
  (** What other tasks and processes do to the store at the next calls. *)
  w_env : list (DB -> DB);
  (** The configured clock ([options.now]): its readings, and how many were taken. *)
  w_clock : nat -> Z;
  w_tick : nat;
  (** The system clock ([new Date()]). *)
  w_system : nat -> Z;
  w_systick : nat;
  (** [randomUUID()] *)
  w_uuid : nat -> string;
  w_fresh : nat;
  (** [randomBytes(n)], as a string of bytes *)
  w_random : nat -> nat -> string;
  w_drawn : nat;
  (** Per run of an effect (by evidence id): the credentials it named, and the
      custody version it stored. *)
  w_resolved : gmap string (list string);
  w_stored : gmap string Z;
  (** Per use of a credential: the error its callback raised. *)
  w_markers : gmap nat exn;
  w_uses : nat;
  (** Execution contexts: how many were minted, and which were consumed. *)
  w_minted : nat;
  w_consumed : list nat;
  w_mem : Mem }.
Arguments mkWorld {DB}.
Arguments w_db {DB} _. Arguments w_env {DB} _. Arguments w_clock {DB} _. Arguments w_tick {DB} _.
Arguments w_system {DB} _. Arguments w_systick {DB} _. Arguments w_uuid {DB} _.
Arguments w_fresh {DB} _. Arguments w_random {DB} _. Arguments w_drawn {DB} _.
Arguments w_resolved {DB} _. Arguments w_stored {DB} _. Arguments w_minted {DB} _.
Arguments w_markers {DB} _. Arguments w_uses {DB} _.
Arguments w_consumed {DB} _. Arguments w_mem {DB} _.

#[global] Instance World_eta DB : Eta (World DB) := fun r =>
  mkWorld (w_db r) (w_env r) (w_clock r) (w_tick r) (w_system r) (w_systick r) (w_uuid r)
    (w_fresh r) (w_random r) (w_drawn r) (w_resolved r) (w_stored r) (w_markers r)
    (w_uses r) (w_minted r) (w_consumed r)
    (w_mem r).

(** ** The monad *)

Definition M (DB A : Type) : Type := World DB -> World DB * outcome A.

#[global] Instance M_ret DB : MRet (M DB) := fun A a w => (w, Ok a).

#[global] Instance M_bind DB : MBind (M DB) := fun A B k m w =>
  match m w with
  | (w', Ok a) => k a w'
  | (w', Throw e) => (w', Throw e)
  end.

Definition throw {DB A} (e : exn) : M DB A := fun w => (w, Throw e).

Definition ofOutcome {DB A} (o : outcome A) : M DB A := fun w => (w, o).

(** [try { m } catch (e) { h(e) }] *)
Definition tryCatch {DB A} (m : M DB A) (h : exn -> M DB A) : M DB A := fun w =>
  match m w with
  | (w', Ok a) => (w', Ok a)
  | (w', Throw e) => h e w'
  end.

(** [m.catch(() => undefined)], the result of [m] unused. *)
Definition swallow {DB A} (m : M DB A) : M DB unit := fun w => ((m w).1, Ok tt).

Definition ask {DB A} (f : World DB -> A) : M DB A := fun w => (w, Ok (f w)).
Definition modify {DB} (f : World DB -> World DB) : M DB unit := fun w => (f w, Ok tt).

(** [this.now().getTime()] *)
Definition nowMs {DB} : M DB Z := fun w =>
  (w <| w_tick := S (w_tick w) |>, Ok (w_clock w (w_tick w))).

Definition isoString {DB} (t : Z) : M DB string :=
  ofOutcome match toISO t with Some s => Ok s | None => Throw invalidDate end.

(** [this.now().toISOString()] *)
Definition nowIso {DB} : M DB string := t ← nowMs; isoString t.

(** [new Date().getTime()] and [new Date().toISOString()] *)
Definition systemMs {DB} : M DB Z := fun w =>
  (w <| w_systick := S (w_systick w) |>, Ok (w_system w (w_systick w))).

Definition systemIso {DB} : M DB string := t ← systemMs; isoString t.

Definition randomUUID {DB} : M DB string := fun w =>
  (w <| w_fresh := S (w_fresh w) |>, Ok (w_uuid w (w_fresh w))).

Definition randomBytes {DB} (n : nat) : M DB string := fun w =>
  (w <| w_drawn := S (w_drawn w) |>, Ok (w_random w (w_drawn w) n)).

(** What the others do while this task waits. *)
Definition interfere {DB} (w : World DB) : World DB :=
  match w_env w with
  | [] => w
  | f :: r => w <| w_db := f (w_db w) |> <| w_env := r |>
  end.

(** An awaited call on the store. *)
Definition dbop {DB A} (f : DB -> DB * outcome A) : M DB A := fun w =>
  let w := interfere w in
  (w <| w_db := (f (w_db w)).1 |>, (f (w_db w)).2).

(** An awaited timer: the others run. *)
Definition sleep {DB} : M DB unit := fun w => (interfere w, Ok tt).

Section operations.
Context {DB : Type} `{FeltDB DB}.
Definition get {V} (c : coll V) k : M DB (option V) := dbop (db_get c k).
Definition find {V} (c : coll V) (p : V -> bool) : M DB (list V) := dbop (db_find c p).
Definition updateIfVersion {V} (c : coll V) k v (patch : V -> V) : M DB (option V) :=
  dbop (db_updateIfVersion c k v patch).
Definition insert {V} (c : coll V) k (x : V) : M DB unit := dbop (db_insert c k x).
Definition update {V} (c : coll V) k (x : V) : M DB unit := dbop (db_update c k x).
Definition remove {V} (c : coll V) k : M DB unit := dbop (db_delete (V := V) c k).
Definition query {V} (c : coll V) (p : V -> bool) limit cursor : M DB (list V * option string) :=
  dbop (db_query c p limit cursor).
Definition transaction ops : M DB unit := dbop (db_transaction ops).
End operations.

(** ** Weakest preconditions *)

Definition wp {DB A} (m : M DB A) (Q : outcome A -> World DB -> Prop) (w : World DB) : Prop :=
  Q (m w).2 (m w).1.

(** [fresh w]: identifiers not drawn yet are pairwise different and unused. *)
Definition fresh {DB} `{FeltDB DB} (w : World DB) : Prop :=
  (forall i j, w_uuid w i = w_uuid w j -> i = j) /\
  forall n V (c : coll V), (w_fresh w <= n)%nat -> peek c (w_uuid w n) (w_db w) = None.

(** [quiet w]: the store answers, nobody else writes, identifiers are fresh. *)
Definition quiet {DB} `{FeltDB DB} (w : World DB) : Prop :=
  w_env w = [] /\ up (w_db w) /\ fresh w.

Section rules.
Context {DB : Type} `{FeltDBLaws DB}.
Implicit Types w : World DB.

Lemma wp_ret {A} (a : A) Q w : Q (Ok a) w -> wp (mret a) Q w.
Proof. exact id. Qed.

Lemma wp_throw {A} e (Q : outcome A -> World DB -> Prop) w : Q (Throw e) w -> wp (throw e) Q w.
Proof. exact id. Qed.

Lemma wp_outcome {A} (o : outcome A) Q w : Q o w -> wp (ofOutcome o) Q w.
Proof. exact id. Qed.

Lemma wp_bind {A B} (m : M DB A) (k : A -> M DB B) Q w :
  wp m (fun o w' => match o with Ok a => wp (k a) Q w' | Throw e => Q (Throw e) w' end) w ->
  wp (m ≫= k) Q w.
Proof. unfold wp, mbind, M_bind. destruct (m w) as [w' [a|e]]; exact id. Qed.

Lemma wp_guard {A B} (o : outcome A) (k : A -> M DB B) Q w :
  (forall a, o = Ok a -> wp (k a) Q w) -> (forall e, Q (Throw e) w) -> wp (ofOutcome o ≫= k) Q w.
Proof. intros Hok Hno. apply wp_bind, wp_outcome. destruct o; [now apply Hok | apply Hno]. Qed.

Lemma wp_tryCatch {A} (m : M DB A) h Q w :
  wp m (fun o w' => match o with Ok a => Q (Ok a) w' | Throw e => wp (h e) Q w' end) w ->
  wp (tryCatch m h) Q w.
Proof. unfold wp, tryCatch. destruct (m w) as [w' [a|e]]; exact id. Qed.

Lemma wp_swallow {A} (m : M DB A) Q w :
  wp m (fun _ w' => Q (Ok tt) w') w -> wp (swallow m) Q w.
Proof. exact id. Qed.

Lemma wp_mono {A} (m : M DB A) (Q R : outcome A -> World DB -> Prop) w :
  wp m Q w -> (forall o w', Q o w' -> R o w') -> wp m R w.
Proof. unfold wp. auto. Qed.

Lemma wp_run {A} (m : M DB A) Q w : wp m Q w <-> exists o w', m w = (w', o) /\ Q o w'.
Proof.
  unfold wp. split.
  - intros HQ. exists (m w).2, (m w).1. split; [now destruct (m w) | exact HQ].
  - intros (o & w' & -> & HQ). exact HQ.
Qed.

Lemma wp_ask {A} (f : World DB -> A) Q w : Q (Ok (f w)) w -> wp (ask f) Q w.
Proof. exact id. Qed.

Lemma wp_modify f Q w : Q (Ok tt) (f w) -> wp (modify f) Q w.
Proof. exact id. Qed.

Lemma wp_nowMs Q w :
  Q (Ok (w_clock w (w_tick w))) (w <| w_tick := S (w_tick w) |>) -> wp nowMs Q w.
Proof. exact id. Qed.

Lemma wp_isoString t s Q w : toISO t = Some s -> Q (Ok s) w -> wp (isoString t) Q w.
Proof. unfold wp, isoString. intros ->. exact id. Qed.

Lemma wp_nowIso s Q w :
  toISO (w_clock w (w_tick w)) = Some s ->
  Q (Ok s) (w <| w_tick := S (w_tick w) |>) -> wp nowIso Q w.
Proof. intros Hs HQ. unfold nowIso. apply wp_bind, wp_nowMs, wp_isoString with s; assumption. Qed.

Lemma wp_systemIso s Q w :
  toISO (w_system w (w_systick w)) = Some s ->
  Q (Ok s) (w <| w_systick := S (w_systick w) |>) -> wp systemIso Q w.
Proof.
  intros Hs HQ. unfold systemIso. apply wp_bind. unfold systemMs. red. cbn.
  apply wp_isoString with s; assumption.
Qed.

Lemma wp_uuid Q w :
  Q (Ok (w_uuid w (w_fresh w))) (w <| w_fresh := S (w_fresh w) |>) -> wp randomUUID Q w.
Proof. exact id. Qed.

Lemma interfere_quiet w : quiet w -> interfere w = w.
Proof. intros (He & _). unfold interfere. rewrite He. reflexivity. Qed.

Lemma world_db_eta w : w <| w_db := w_db w |> = w.
Proof. destruct w; reflexivity. Qed.

Lemma wp_dbop {A} (f : DB -> DB * outcome A) db' o Q w :
  quiet w -> f (w_db w) = (db', o) -> Q o (w <| w_db := db' |>) -> wp (dbop f) Q w.
Proof. unfold wp, dbop. intros Hq Hf. rewrite (interfere_quiet w Hq), Hf. exact id. Qed.

(** A call at which somebody else gets in first. *)
Lemma wp_dbop_env {A} (f : DB -> DB * outcome A) g rest db' o Q w :
  w_env w = g :: rest -> f (g (w_db w)) = (db', o) ->
  Q o (w <| w_db := g (w_db w) |> <| w_env := rest |> <| w_db := db' |>) -> wp (dbop f) Q w.
Proof. unfold wp, dbop, interfere. intros -> Hf. cbn. rewrite Hf. exact id. Qed.

Lemma wp_sleep Q w : quiet w -> Q (Ok tt) w -> wp sleep Q w.
Proof. unfold wp, sleep. intros Hq. cbn. rewrite (interfere_quiet w Hq). exact id. Qed.

Lemma wp_get {V} (c : coll V) k Q w :
  quiet w -> Q (Ok (peek c k (w_db w))) w -> wp (get c k) Q w.
Proof.
  intros Hq HQ. eapply wp_dbop; [exact Hq | apply law_get, Hq|]. now rewrite world_db_eta.
Qed.

(** A change at a used key keeps the world quiet. *)
Lemma quiet_changed {V} (c : coll V) k o db' w :
  quiet w -> changed c k o (w_db w) db' ->
  (forall n, (w_fresh w <= n)%nat -> w_uuid w n <> k) -> quiet (w <| w_db := db' |>).
Proof.
  intros (He & Hu & Hi & Hf) (Hu' & _ & Hfr) Hk. split; [exact He|]. split; [exact Hu'|].
  split; [exact Hi|]. cbn. intros n V' c' Hn. rewrite Hfr; [apply Hf, Hn|].
  intros [= _ E]. apply (Hk n Hn E).
Qed.

Lemma used_key {V} (c : coll V) k x w :
  quiet w -> peek c k (w_db w) = Some x ->
  forall n, (w_fresh w <= n)%nat -> w_uuid w n <> k.
Proof. intros (_ & _ & _ & Hf) Hx n Hn <-. rewrite (Hf n V c Hn) in Hx. discriminate. Qed.

Lemma drawn_key w m :
  quiet w -> (m < w_fresh w)%nat ->
  forall n, (w_fresh w <= n)%nat -> w_uuid w n <> w_uuid w m.
Proof. intros (_ & _ & Hi & _) Hm n Hn E. apply Hi in E. lia. Qed.

Lemma wp_cas_hit {V} (c : coll V) k cur patch Q w :
  quiet w -> peek c k (w_db w) = Some cur ->
  (let new := setVersion c (getVersion c cur + 1) (patch cur) in
   forall db', changed c k (Some new) (w_db w) db' -> quiet (w <| w_db := db' |>) ->
   Q (Ok (Some new)) (w <| w_db := db' |>)) ->
  wp (updateIfVersion c k (getVersion c cur) patch) Q w.
Proof.
  intros Hq Hk HQ.
  destruct (law_cas_hit V c k _ patch (w_db w) cur (proj1 (proj2 Hq)) Hk eq_refl) as (db' & Hdb & Hch).
  eapply wp_dbop; [exact Hq | exact Hdb | apply HQ; [exact Hch|]].
  eapply quiet_changed; [exact Hq | exact Hch | eapply used_key; eassumption].
Qed.

Lemma wp_cas_miss {V} (c : coll V) k v patch Q w :
  quiet w -> (forall cur, peek c k (w_db w) = Some cur -> getVersion c cur <> v) ->
  Q (Ok None) w -> wp (updateIfVersion c k v patch) Q w.
Proof.
  intros Hq Hk HQ. eapply wp_dbop; [exact Hq | apply law_cas_miss; [apply Hq | exact Hk]|].
  now rewrite world_db_eta.
Qed.

(** Inserting under an identifier drawn earlier and still unused. *)
Lemma wp_insert {V} (c : coll V) k x Q w :
  quiet w -> peek c k (w_db w) = None ->
  (forall n, (w_fresh w <= n)%nat -> w_uuid w n <> k) ->
  (forall db', changed c k (Some x) (w_db w) db' -> quiet (w <| w_db := db' |>) ->
   Q (Ok tt) (w <| w_db := db' |>)) ->
  wp (insert c k x) Q w.
Proof.
  intros Hq Hk Hn HQ. destruct (law_insert V c k x (w_db w) (proj1 (proj2 Hq)) Hk) as (db' & Hdb & Hch).
  eapply wp_dbop; [exact Hq | exact Hdb | apply HQ; [exact Hch|]].
  eapply quiet_changed; eassumption.
Qed.

Lemma wp_update {V} (c : coll V) k x cur Q w :
  quiet w -> peek c k (w_db w) = Some cur ->
  (let new := setVersion c (getVersion c cur + 1) x in
   forall db', changed c k (Some new) (w_db w) db' -> quiet (w <| w_db := db' |>) ->
   Q (Ok tt) (w <| w_db := db' |>)) ->
  wp (update c k x) Q w.
Proof.
  intros Hq Hk HQ. destruct (law_update V c k x cur (w_db w) (proj1 (proj2 Hq)) Hk) as (db' & Hdb & Hch).
  eapply wp_dbop; [exact Hq | exact Hdb | apply HQ; [exact Hch|]].
  eapply quiet_changed; [exact Hq | exact Hch | eapply used_key; eassumption].
Qed.

(** A transaction of one [requireAbsent] put of an unused key. *)
Lemma wp_create {V} (c : coll V) k x Q w :
  quiet w -> peek c k (w_db w) = None ->
  (forall n, (w_fresh w <= n)%nat -> w_uuid w n <> k) ->
  (forall db', changed c k (Some x) (w_db w) db' -> quiet (w <| w_db := db' |>) ->
   Q (Ok tt) (w <| w_db := db' |>)) ->
  wp (transaction [TxPut c k true None x]) Q w.
Proof.
  intros Hq Hk Hn HQ.
  destruct (law_commit [TxPut c k true None x] (w_db w)) as (db' & Hdb & Hup & Hdone & Hfr).
  { apply Hq. } { apply NoDup_singleton. } { constructor; [|constructor]. cbn. now rewrite Hk. }
  assert (changed c k (Some x) (w_db w) db') as Hch.
  { split; [exact Hup|]. split; [apply Forall_inv in Hdone; exact Hdone|].
    intros V' c' k' Hne. apply Hfr. cbn. intros Hin. apply list_elem_of_singleton in Hin. auto. }
  eapply wp_dbop; [exact Hq | exact Hdb | apply HQ; [exact Hch|]].
  eapply quiet_changed; eassumption.
Qed.

Lemma wp_create_conflict {V} (c : coll V) k x cur Q w :
  quiet w -> peek c k (w_db w) = Some cur ->
  (forall m, Q (Throw (ConditionalConflictError m)) w) ->
  wp (transaction [TxPut c k true None x]) Q w.
Proof.
  intros Hq Hk HQ.
  destruct (law_conflict [TxPut c k true None x] (w_db w)) as (m & Hdb); [apply Hq| |].
  { constructor. cbn. rewrite Hk. intros [? _]. discriminate. }
  eapply wp_dbop; [exact Hq | exact Hdb|]. rewrite world_db_eta. apply HQ.
Qed.

Lemma wp_find {V} (c : coll V) p Q w :
  quiet w ->
  (forall l, enumerates c p (w_db w) l -> Q (Ok l) w) ->
  wp (find c p) Q w.
Proof.
  intros Hq HQ. destruct (law_find V c p (w_db w)) as (l & Hdb & He); [apply Hq|].
  eapply wp_dbop; [exact Hq | exact Hdb|]. rewrite world_db_eta. apply HQ, He.
Qed.

(** Filtering a listing lists the records that satisfy both. *)
Lemma enumerates_filter {V} (c : coll V) p q db l :
  enumerates c p db l -> enumerates c (fun x => p x && q x) db (List.filter q l).
Proof.
  intros (ks & Hd & H2 & Hp & Hall).
  assert (exists ks', sublist ks' ks /\ Forall2 (fun k x => peek c k db = Some x) ks' (List.filter q l) /\
    forall k x, k ∈ ks -> peek c k db = Some x -> q x = true -> k ∈ ks') as (ks' & Hs & H2' & Hin).
  { clear Hd Hp Hall. induction H2 as [|k x ks l Hk _ (ks' & Hs & H2' & Hin)].
    - exists []. split; [constructor|]. split; [constructor|]. intros k x Hk. apply elem_of_nil in Hk. destruct Hk.
    - cbn. destruct (q x) eqn:Eq.
      + exists (k :: ks'). split; [now constructor|]. split; [now constructor|].
        intros k' y [->|Hk']%elem_of_cons Hy Hq; [left | right; eauto].
      + exists ks'. split; [now constructor|]. split; [exact H2'|].
        intros k' y [->|Hk']%elem_of_cons Hy Hq; [congruence | eauto]. }
  exists ks'. split; [eapply sublist_NoDup; eassumption|]. split; [exact H2'|]. split.
  - rewrite List.Forall_forall. rewrite Forall_forall in Hp. intros x Hx. apply filter_In in Hx as [Hx Hq].
    rewrite (Hp x), Hq by now apply list_elem_of_In. reflexivity.
  - intros k x Hk [Hpx Hq]%andb_true_iff. eapply Hin; eauto.
Qed.

Lemma enumerates_frame {V} (c : coll V) p db db' l :
  enumerates c p db l -> (forall k, peek c k db = peek c k db') -> enumerates c p db' l.
Proof.
  intros (ks & Hd & H2 & Hp & Hall) Hk. exists ks. split; [exact Hd|].
  split; [eapply Forall2_impl; [exact H2|]; cbn; intros k x E; now rewrite <- Hk|].
  split; [exact Hp|]. intros k x E. apply Hall. now rewrite Hk.
Qed.

Lemma enumerates_keyed {V} (c : coll V) (idOf : V -> string) p db l :
  enumerates c p db l -> (forall k x, peek c k db = Some x -> idOf x = k) -> NoDup (map idOf l).
Proof.
  intros (ks & Hd & Hf & _) Hid. replace (map idOf l) with ks; [exact Hd|].
  clear Hd. induction Hf as [|k x ks l Hk _ IH]; [reflexivity|]. cbn. rewrite (Hid k x Hk), <- IH. reflexivity.
Qed.

Lemma enumerates_in {V} (c : coll V) p db l x :
  enumerates c p db l -> (x ∈ l <-> exists k, peek c k db = Some x /\ p x = true).
Proof.
  intros (ks & Hd & H2 & Hp & Hall). split.
  - intros Hx. rewrite Forall_forall in Hp. pose proof (Hp x Hx) as Hpx.
    apply list_elem_of_lookup in Hx as [i Hi].
    destruct (Forall2_lookup_r _ _ _ _ _ H2 Hi) as (k & _ & Hk). eauto.
  - intros (k & Hk & Hpx). specialize (Hall k x Hk Hpx).
    apply list_elem_of_lookup in Hall as [i Hi].
    destruct (Forall2_lookup_l _ _ _ _ _ H2 Hi) as (y & Hy & Hk').
    rewrite Hk in Hk'. injection Hk' as <-. eapply list_elem_of_lookup_2, Hy.
Qed.

Lemma changed_hit {V} (c : coll V) k o db db' : changed c k o db db' -> peek c k db' = o.
Proof. intros (_ & Hk & _). exact Hk. Qed.

Lemma changed_frame {V W} (c : coll V) k o (c' : coll W) k' db db' :
  changed c k o db db' -> (cname c', k') <> (cname c, k) -> peek c' k' db' = peek c' k' db.
Proof. intros (_ & _ & Hf). apply Hf. Qed.

(** A new record leaves every record as it was. *)
Lemma changed_keep {V W} (c : coll V) k x (c' : coll W) k' y db db' :
  changed c k (Some x) db db' -> peek c k db = None -> peek c' k' db = Some y ->
  peek c' k' db' = Some y.
Proof.
  intros Hch Hn Hy. destruct (decide ((cname c', k') = (cname c, k))) as [E|E].
  - exfalso. injection E as E ->.
    pose proof (coll_same c c' (fun W c' => peek c' k db = None) E Hn). congruence.
  - rewrite (changed_frame _ _ _ _ _ _ _ Hch E). exact Hy.
Qed.

Lemma quiet_ctl w w' :
  quiet w -> w_env w' = w_env w -> w_db w' = w_db w -> w_uuid w' = w_uuid w ->
  (w_fresh w <= w_fresh w')%nat -> quiet w'.
Proof.
  intros (He & Hu & Hi & Hf) He' Hd' Hu' Hle. unfold quiet, fresh. rewrite He', Hd', Hu'.
  repeat split; try assumption. intros n V c Hn. apply Hf. lia.
Qed.
End rules.

(** ** Inverting a run that returned *)

Lemma bind_inv {DB A B} (m : M DB A) (k : A -> M DB B) w w' b :
  (m ≫= k) w = (w', Ok b) -> exists w1 a, m w = (w1, Ok a) /\ k a w1 = (w', Ok b).
Proof.
  unfold mbind, M_bind. destruct (m w) as [w1 [a|e]]; [eauto | discriminate].
Qed.

Lemma ofOutcome_inv {DB A} (o : outcome A) (w w' : World DB) a :
  ofOutcome o w = (w', Ok a) -> w' = w /\ o = Ok a.
Proof. intros [= <- ->]. auto. Qed.

Lemma throw_inv {DB A} e (w w' : World DB) (a : A) : throw e w = (w', Ok a) -> False.
Proof. discriminate. Qed.

Lemma ret_inv {DB A} (x : A) (w w' : World DB) a : (mret x : M DB A) w = (w', Ok a) -> w' = w /\ a = x.
Proof. intros [= <- <-]. auto. Qed.

Lemma isoString_inv {DB} t (w w' : World DB) s : isoString t w = (w', Ok s) -> w' = w /\ toISO t = Some s.
Proof. unfold isoString, ofOutcome. destruct (toISO t); intros [= <- <-]; auto. Qed.

Lemma nowMs_inv {DB} (w w' : World DB) t :
  nowMs w = (w', Ok t) -> w' = w <| w_tick := S (w_tick w) |> /\ t = w_clock w (w_tick w).
Proof. intros [= <- <-]. auto. Qed.

(** Invert every step of a run that returned. *)
Ltac inv_run :=
  repeat match goal with
  | H : (_ ≫= _) _ = (_, Ok _) |- _ =>
      let w := fresh "w" in let a := fresh "a" in let H1 := fresh "Hm" in
      apply bind_inv in H as (w & a & H1 & H)
  | H : ofOutcome _ _ = (_, Ok _) |- _ => apply ofOutcome_inv in H as [? H]; try subst
  | H : throw _ _ = (_, Ok _) |- _ => exfalso; exact (throw_inv _ _ _ _ H)
  | H : (mret _) _ = (_, Ok _) |- _ => apply ret_inv in H as [? ?]; try subst
  | H : isoString _ _ = (_, Ok _) |- _ => apply isoString_inv in H as [? H]; try subst
  | H : nowMs _ = (_, Ok _) |- _ => apply nowMs_inv in H as [? ?]; try subst
  end.

(** Two runs that agree. *)
Lemma bind_ext {DB A B} (m : M DB A) (k k' : A -> M DB B) w :
  (forall w1 a, m w = (w1, Ok a) -> k a w1 = k' a w1) -> (m ≫= k) w = (m ≫= k') w.
Proof. intros Hk. unfold mbind, M_bind. destruct (m w) as [w1 [a|e]]; auto. Qed.

Lemma bind_throw_inv {DB A B} (m : M DB A) (k : A -> M DB B) w w' e :
  (m ≫= k) w = (w', Throw e) ->
  m w = (w', Throw e) \/ exists w1 a, m w = (w1, Ok a) /\ k a w1 = (w', Throw e).
Proof.
  unfold mbind, M_bind. destruct (m w) as [w1 [a|e1]]; [eauto|]. intros [= <- <-]. auto.
Qed.
