(* ===== verification/Calm.v ===== *)
(** * Calm: sequential reasoning about service operations

    A [calm] world is one where nobody else writes, the store answers,
    identifiers are fresh and both clocks show dates in range.  The rules step
    through an operation and keep the world abstract: each gives the next
    world as [calm], [later] than the one before, with its store described by
    [changed]. *)

From S2P Require Import Prelude JsString JsTime Errors Models Store.
From Stdlib Require Import ZArith Lia.
Local Open Scope string_scope.
Local Open Scope Z_scope.

(** Half of the range of dates, so that a delay can be added. *)
Definition timeBound : Z := 4320000000000000.

Definition clocksOk {DB} (w : World DB) : Prop :=
  (forall n, 0 <= w_clock w n <= timeBound) /\ (forall n, 0 <= w_system w n <= timeBound) /\
  (forall n, (w_fresh w <= n)%nat -> w_resolved w !! w_uuid w n = None).

Definition calm {DB} `{FeltDB DB} (w : World DB) : Prop := quiet w /\ clocksOk w.

(** The same clocks and identifiers, some of them already used. *)
Definition later {DB} (w w' : World DB) : Prop :=
  w_clock w' = w_clock w /\ w_system w' = w_system w /\ w_uuid w' = w_uuid w /\
  (w_fresh w <= w_fresh w')%nat /\ w_mem w' = w_mem w /\ w_resolved w' = w_resolved w /\
  w_random w' = w_random w.

(** The same, process memory aside. *)
Definition after {DB} (w w' : World DB) : Prop :=
  w_clock w' = w_clock w /\ w_system w' = w_system w /\ w_uuid w' = w_uuid w /\
  (w_fresh w <= w_fresh w')%nat /\ w_random w' = w_random w.

#[global] Instance after_preorder DB : PreOrder (@after DB).
Proof.
  split.
  - intros w. unfold after. auto 10.
  - intros w1 w2 w3 (A1 & B1 & C1 & D1 & E1) (A2 & B2 & C2 & D2 & E2).
    unfold after. repeat split; try congruence. lia.
Qed.

Lemma later_after {DB} (w w' : World DB) : later w w' -> after w w'.
Proof. intros (A & B & C & D & _ & _ & G). unfold after. auto. Qed.

Lemma after_clock {DB} (w w' : World DB) : after w w' -> w_clock w' = w_clock w.
Proof. intros (A & _). exact A. Qed.

Lemma after_random {DB} (w w' : World DB) : after w w' -> w_random w' = w_random w.
Proof. intros (_ & _ & _ & _ & A). exact A. Qed.

Lemma later_mem {DB} (w w' : World DB) : later w w' -> w_mem w' = w_mem w.
Proof. intros (_ & _ & _ & _ & E & _). exact E. Qed.

Lemma later_resolved {DB} (w w' : World DB) : later w w' -> w_resolved w' = w_resolved w.
Proof. intros (_ & _ & _ & _ & _ & E & _). exact E. Qed.

#[global] Instance later_preorder DB : PreOrder (@later DB).
Proof.
  split.
  - intros w. unfold later. auto 10.
  - intros w1 w2 w3 (A1 & B1 & C1 & D1 & E1 & F1 & G1) (A2 & B2 & C2 & D2 & E2 & F2 & G2).
    unfold later. repeat split; try congruence. lia.
Qed.

(** Solve goals about worlds reached by steps of the rules. *)
Ltac after_tac := solve [eassumption | apply later_after; eassumption
  | etransitivity; [first [eassumption | apply later_after; eassumption] | after_tac] | reflexivity].

Ltac later_tac := solve [eassumption | etransitivity; [eassumption | later_tac] | reflexivity].

(** [later], when the next world is given by its updates. *)
Ltac later_ctl := unfold later; cbn; repeat split; first [reflexivity | lia].

Section rules.
Context {DB : Type} `{FeltDBLaws DB}.
Implicit Types w : World DB.

Lemma calm_quiet w : calm w -> quiet w.
Proof. intros [Hq _]. exact Hq. Qed.

(** An operation that leaves the store and everybody else alone. *)
Lemma calm_ctl w w' :
  calm w -> w_env w' = w_env w -> w_db w' = w_db w -> later w w' -> calm w'.
Proof.
  intros [Hq (Hc1 & Hc2 & Hc3)] He Hd (A & B & C & D & _ & F & _). split; [eapply quiet_ctl; eassumption|].
  unfold clocksOk. rewrite A, B, C, F. repeat split; try apply Hc1; try apply Hc2.
  intros n Hn. apply Hc3. lia.
Qed.

Lemma calm_db w db' : calm w -> quiet (w <| w_db := db' |>) -> calm (w <| w_db := db' |>).
Proof. intros [_ Hc] Hq. split; [exact Hq | exact Hc]. Qed.

Lemma wpc_nowMs Q w :
  calm w ->
  (forall t w', 0 <= t <= timeBound -> (exists n, t = w_clock w n) -> calm w' -> later w w' ->
     w_db w' = w_db w -> Q (Ok t) w') ->
  wp nowMs Q w.
Proof.
  intros Hc HQ. apply wp_nowMs. apply HQ; [apply Hc | eauto | | later_ctl | reflexivity].
  eapply calm_ctl; [exact Hc | reflexivity | reflexivity | later_ctl].
Qed.

Lemma wpc_isoString t Q w :
  - maxTime <= t <= maxTime -> (forall s, toISO t = Some s -> Q (Ok s) w) -> wp (isoString t) Q w.
Proof. intros Ht HQ. destruct (toISO_some t Ht) as [s Hs]. eapply wp_isoString; eauto. Qed.

Lemma wpc_nowIso Q w :
  calm w ->
  (forall t s w', toISO t = Some s -> (exists n, t = w_clock w n) -> calm w' -> later w w' ->
     w_db w' = w_db w -> Q (Ok s) w') ->
  wp nowIso Q w.
Proof.
  intros Hc HQ. unfold nowIso. apply wp_bind, wpc_nowMs; [exact Hc|].
  intros t w' Ht Hn Hc' Hl Hd. apply wpc_isoString; [unfold timeBound, maxTime in *; lia|].
  intros s Hs. eapply HQ; eassumption.
Qed.

Lemma wpc_systemIso Q w :
  calm w ->
  (forall t s w', toISO t = Some s -> (exists n, t = w_system w n) -> calm w' -> later w w' ->
     w_db w' = w_db w -> Q (Ok s) w') ->
  wp systemIso Q w.
Proof.
  intros Hc HQ. unfold systemIso. apply wp_bind. unfold systemMs. red. cbn [fst snd].
  apply wpc_isoString; [pose proof (proj1 (proj2 (proj2 Hc)) (w_systick w)); unfold timeBound, maxTime in *; lia|].
  intros s Hs. eapply HQ; [exact Hs | eauto | | later_ctl | reflexivity].
  eapply calm_ctl; [exact Hc | reflexivity | reflexivity | later_ctl].
Qed.

(** A computation that touches neither the store nor process memory. *)
Definition kept w w' : Prop := calm w' /\ later w w' /\ w_db w' = w_db w.

Lemma kept_trans w1 w2 w3 : kept w1 w2 -> kept w2 w3 -> kept w1 w3.
Proof. intros (_ & L1 & D1) (C & L2 & D2). split; [exact C|]. split; [later_tac | congruence]. Qed.

Lemma kept_refl w : calm w -> kept w w.
Proof. intros Hc. split; [exact Hc|]. split; reflexivity. Qed.

(** A fresh identifier: unused in every collection, and never drawn again. *)
Definition owned (id : string) (w : World DB) : Prop :=
  (exists m, (m < w_fresh w)%nat /\ id = w_uuid w m) /\
  forall V (c : coll V), peek c id (w_db w) = None.

Lemma wpc_uuid Q w :
  calm w ->
  (forall id w', (exists n, (w_fresh w <= n)%nat /\ id = w_uuid w n) -> owned id w' -> calm w' ->
     later w w' -> w_db w' = w_db w -> Q (Ok id) w') ->
  wp randomUUID Q w.
Proof.
  intros Hc HQ. apply wp_uuid. apply HQ.
  - exists (w_fresh w). auto.
  - split; [exists (w_fresh w); cbn; split; [lia | reflexivity]|].
    intros V c. cbn. destruct Hc as [(_ & _ & _ & Hf) _]. apply Hf. lia.
  - eapply calm_ctl; [exact Hc | reflexivity | reflexivity | later_ctl].
  - later_ctl.
  - reflexivity.
Qed.

Lemma wpc_get {V} (c : coll V) k Q w :
  calm w -> Q (Ok (peek c k (w_db w))) w -> wp (get c k) Q w.
Proof. intros Hc. apply wp_get, calm_quiet, Hc. Qed.

Lemma wpc_find {V} (c : coll V) p Q w :
  calm w -> (forall l, enumerates c p (w_db w) l -> Q (Ok l) w) -> wp (find c p) Q w.
Proof. intros Hc. apply wp_find, calm_quiet, Hc. Qed.

Lemma wpc_cas {V} (c : coll V) k cur patch Q w :
  calm w -> peek c k (w_db w) = Some cur ->
  (let new := setVersion c (getVersion c cur + 1) (patch cur) in
   forall w', calm w' -> later w w' -> changed c k (Some new) (w_db w) (w_db w') -> Q (Ok (Some new)) w') ->
  wp (updateIfVersion c k (getVersion c cur) patch) Q w.
Proof.
  intros Hc Hk HQ. eapply wp_cas_hit; [apply calm_quiet, Hc | exact Hk|].
  intros new db' Hch Hq. apply HQ; [now apply calm_db | later_ctl | exact Hch].
Qed.

Lemma wpc_cas_stale {V} (c : coll V) k v patch Q w :
  calm w -> (forall cur, peek c k (w_db w) = Some cur -> getVersion c cur <> v) ->
  Q (Ok None) w -> wp (updateIfVersion c k v patch) Q w.
Proof. intros Hc. apply wp_cas_miss, calm_quiet, Hc. Qed.

Lemma wpc_random n Q w :
  calm w ->
  (forall b w', (exists i, b = w_random w i n) -> calm w' -> later w w' -> w_db w' = w_db w -> Q (Ok b) w') ->
  wp (randomBytes n) Q w.
Proof.
  intros Hc HQ. unfold wp, randomBytes. apply HQ; [eauto | | later_ctl | reflexivity].
  eapply calm_ctl; [exact Hc | reflexivity | reflexivity | later_ctl].
Qed.

Lemma wpc_sleep Q w : calm w -> Q (Ok tt) w -> wp sleep Q w.
Proof. intros Hc. apply wp_sleep, calm_quiet, Hc. Qed.

(** Changing only this process's caches. *)
Lemma wpc_mem (f : Mem -> Mem) Q w :
  calm w ->
  (forall w', calm w' -> after w w' -> w_db w' = w_db w -> w_mem w' = f (w_mem w) ->
     w_resolved w' = w_resolved w -> Q (Ok tt) w') ->
  wp (modify (fun w => w <| w_mem := f (w_mem w) |>)) Q w.
Proof.
  intros [Hq Hck] HQ. apply wp_modify. apply HQ; try reflexivity.
  - split; [eapply quiet_ctl; [exact Hq | reflexivity.. | cbn; lia] | exact Hck].
  - unfold after. cbn. repeat split; first [reflexivity | lia].
Qed.

Lemma owned_unused id w : calm w -> owned id w ->
  forall n, (w_fresh w <= n)%nat -> w_uuid w n <> id.
Proof. intros Hc ((m & Hm & ->) & _). apply drawn_key; [apply calm_quiet, Hc | exact Hm]. Qed.

Lemma wpc_insert {V} (c : coll V) k x Q w :
  calm w -> owned k w ->
  (forall w', calm w' -> later w w' -> changed c k (Some x) (w_db w) (w_db w') -> Q (Ok tt) w') ->
  wp (insert c k x) Q w.
Proof.
  intros Hc Ho HQ. apply wp_insert; [apply calm_quiet, Hc | apply Ho | now apply owned_unused|].
  intros db' Hch Hq. apply HQ; [now apply calm_db | later_ctl | exact Hch].
Qed.

Lemma wpc_create {V} (c : coll V) k x Q w :
  calm w -> owned k w ->
  (forall w', calm w' -> later w w' -> changed c k (Some x) (w_db w) (w_db w') -> Q (Ok tt) w') ->
  wp (transaction [TxPut c k true None x]) Q w.
Proof.
  intros Hc Ho HQ. apply wp_create; [apply calm_quiet, Hc | apply Ho | now apply owned_unused|].
  intros db' Hch Hq. apply HQ; [now apply calm_db | later_ctl | exact Hch].
Qed.

Lemma wpc_remove {V} (c : coll V) k Q w :
  calm w -> (exists x, peek c k (w_db w) = Some x) ->
  (forall w', calm w' -> later w w' -> changed c k None (w_db w) (w_db w') -> Q (Ok tt) w') ->
  wp (remove c k) Q w.
Proof.
  intros Hc (x & Hk) HQ. pose proof (calm_quiet _ Hc) as Hq.
  destruct (law_delete V c k (w_db w)) as (db' & Hdb & Hch); [apply Hq|].
  eapply wp_dbop; [exact Hq | exact Hdb|]. apply HQ; [|later_ctl | exact Hch].
  apply calm_db; [exact Hc|]. eapply quiet_changed; [exact Hq | exact Hch | eapply used_key; eassumption].
Qed.

(** A transaction whose every operation may commit. *)
Lemma wpc_transaction ops Q w :
  calm w -> NoDup (map txKey ops) -> Forall (txReady (w_db w)) ops ->
  (forall c k n, (c, k) ∈ map txKey ops -> (w_fresh w <= n)%nat -> w_uuid w n <> k) ->
  (forall w', calm w' -> later w w' -> Forall (txDone (w_db w')) ops ->
     (forall V (c : coll V) k, (cname c, k) ∉ map txKey ops -> peek c k (w_db w') = peek c k (w_db w)) ->
     Q (Ok tt) w') ->
  wp (transaction ops) Q w.
Proof.
  intros Hc Hd Hr Hk HQ. pose proof (calm_quiet _ Hc) as Hq.
  destruct (law_commit ops (w_db w)) as (db' & Hdb & Hup & Hdone & Hfr); [apply Hq | exact Hd | exact Hr|].
  eapply wp_dbop; [exact Hq | exact Hdb|]. apply HQ; [|later_ctl | exact Hdone | exact Hfr].
  apply calm_db; [exact Hc|]. destruct Hq as (He & Hu & Hi & Hf).
  split; [exact He|]. split; [exact Hup|]. split; [exact Hi|]. cbn. intros n V c Hn.
  rewrite Hfr; [apply Hf, Hn|]. intros Hin. exact (Hk _ _ n Hin Hn eq_refl).
Qed.

Lemma wpc_transaction_conflict ops Q w :
  calm w -> Exists (fun o => ~ txReady (w_db w) o) ops ->
  (forall m, Q (Throw (ConditionalConflictError m)) w) -> wp (transaction ops) Q w.
Proof.
  intros Hc Hx HQ. destruct (law_conflict ops (w_db w)) as (m & Hdb); [apply calm_quiet, Hc | exact Hx|].
  eapply wp_dbop; [apply calm_quiet, Hc | exact Hdb|]. rewrite world_db_eta. apply HQ.
Qed.

(** An identifier drawn but not used yet is still unused after a change
    elsewhere. *)
Lemma owned_ctl id w w' : owned id w -> later w w' -> w_db w' = w_db w -> owned id w'.
Proof.
  intros ((m & Hm & E) & Hp) (_ & _ & Hu & Hf & _) Hd. split; [exists m; rewrite Hu; split; [lia | exact E]|].
  rewrite Hd. exact Hp.
Qed.

Lemma owned_changed {V} (c : coll V) k o id w w' :
  owned id w -> later w w' -> changed c k o (w_db w) (w_db w') -> id <> k -> owned id w'.
Proof.
  intros ((m & Hm & E) & Hp) (_ & _ & Hu & Hf & _) (_ & _ & Hfr) Hne.
  split; [exists m; rewrite Hu; split; [lia | exact E]|].
  intros V' c'. rewrite Hfr; [apply Hp | intros [= _ E']; contradiction].
Qed.

Lemma owned_ne {V} (c : coll V) k x id w : owned id w -> peek c k (w_db w) = Some x -> id <> k.
Proof. intros (_ & Hp) Hk ->. rewrite Hp in Hk. discriminate. Qed.
End rules.

(** Look a record up in a store described by [changed] and equations. *)
Ltac peek_step :=
  match goal with
  | E : w_db ?w' = w_db ?w |- context [w_db ?w'] => rewrite E
  | H : changed ?c ?k ?o ?db ?db' |- context [peek ?c' ?k' ?db'] =>
      first [ rewrite (changed_hit c k o db db' H)
            | rewrite (changed_frame c k o c' k' db db' H) by (first [discriminate | congruence | intros [=]; congruence]) ]
  end.

Ltac peek_tac := repeat peek_step.
