(* ===== verification/MemStore.v ===== *)
(** * MemStore: an in-memory FeltDB

    A concrete instance of the store's interface, one finite map per
    collection, and the proof that it satisfies the laws.  Witnesses run the
    services on it. *)

From S2P Require Import Prelude JsString JsTime Errors Models Store.
From Stdlib Require Import ZArith Lia.
Local Open Scope Z_scope.


Record MemDB := mkMemDB {
  mJobs : gmap string Job;
  mSchedules : gmap string JobSchedule;
  mJobAudit : gmap string JobAuditEvent;
  mEvidence : gmap string EffectEvidence;
  mKeys : gmap string ApiKey;
  mPrefixes : gmap string ApiKeyPrefixRecord;
  mKeyAudit : gmap string ApiKeyAuditEvent;
  mEndpoints : gmap string WebhookEndpoint;
  mDeliveries : gmap string WebhookDelivery;
  mHookAudit : gmap string WebhookAuditEvent;
  mIntegrations : gmap string WebhookIntegration;
  mInbound : gmap string InboundRecord;
  mFiles : gmap string File;
  mFileAudit : gmap string FileAuditEvent;
  mSecrets : gmap string Secret;
  mSecretVersions : gmap string SecretVersion;
  mSecretAudit : gmap string SecretAuditEvent;
  mVariables : gmap string ConfigurationVariable;
  mBindings : gmap string ConfigurationSecret;
  mConfigAudit : gmap string ConfigurationAuditEvent;
  mNotifications : gmap string Notification;
  mNotificationDeliveries : gmap string NotificationDelivery;
  mNotificationAudit : gmap string NotificationAuditEvent;
  mApplication : gmap string (gmap string ApplicationRecord) }.

#[global] Instance MemDB_eta : Eta MemDB := fun r =>
  mkMemDB (mJobs r) (mSchedules r) (mJobAudit r) (mEvidence r) (mKeys r) (mPrefixes r) (mKeyAudit r) (mEndpoints r) (mDeliveries r) (mHookAudit r) (mIntegrations r) (mInbound r) (mFiles r) (mFileAudit r)
    (mSecrets r) (mSecretVersions r) (mSecretAudit r) (mVariables r) (mBindings r) (mConfigAudit r) (mNotifications r) (mNotificationDeliveries r) (mNotificationAudit r) (mApplication r).

Definition mget {V} (c : coll V) : MemDB -> gmap string V :=
  match c with
  | CJobs => mJobs
  | CSchedules => mSchedules
  | CJobAudit => mJobAudit
  | CEvidence => mEvidence
  | CKeys => mKeys
  | CPrefixes => mPrefixes
  | CKeyAudit => mKeyAudit
  | CEndpoints => mEndpoints
  | CDeliveries => mDeliveries
  | CHookAudit => mHookAudit
  | CIntegrations => mIntegrations
  | CInbound => mInbound
  | CFiles => mFiles
  | CFileAudit => mFileAudit
  | CSecrets => mSecrets
  | CSecretVersions => mSecretVersions
  | CSecretAudit => mSecretAudit
  | CVariables => mVariables
  | CBindings => mBindings
  | CConfigAudit => mConfigAudit
  | CNotifications => mNotifications
  | CNotificationDeliveries => mNotificationDeliveries
  | CNotificationAudit => mNotificationAudit
  | CApplication name => fun r => orElse (mApplication r !! name) ∅
  end.

Definition mset {V} (c : coll V) : gmap string V -> MemDB -> MemDB :=
  match c with
  | CJobs => fun m r => r <| mJobs := m |>
  | CSchedules => fun m r => r <| mSchedules := m |>
  | CJobAudit => fun m r => r <| mJobAudit := m |>
  | CEvidence => fun m r => r <| mEvidence := m |>
  | CKeys => fun m r => r <| mKeys := m |>
  | CPrefixes => fun m r => r <| mPrefixes := m |>
  | CKeyAudit => fun m r => r <| mKeyAudit := m |>
  | CEndpoints => fun m r => r <| mEndpoints := m |>
  | CDeliveries => fun m r => r <| mDeliveries := m |>
  | CHookAudit => fun m r => r <| mHookAudit := m |>
  | CIntegrations => fun m r => r <| mIntegrations := m |>
  | CInbound => fun m r => r <| mInbound := m |>
  | CFiles => fun m r => r <| mFiles := m |>
  | CFileAudit => fun m r => r <| mFileAudit := m |>
  | CSecrets => fun m r => r <| mSecrets := m |>
  | CSecretVersions => fun m r => r <| mSecretVersions := m |>
  | CSecretAudit => fun m r => r <| mSecretAudit := m |>
  | CVariables => fun m r => r <| mVariables := m |>
  | CBindings => fun m r => r <| mBindings := m |>
  | CConfigAudit => fun m r => r <| mConfigAudit := m |>
  | CNotifications => fun m r => r <| mNotifications := m |>
  | CNotificationDeliveries => fun m r => r <| mNotificationDeliveries := m |>
  | CNotificationAudit => fun m r => r <| mNotificationAudit := m |>
  | CApplication name => fun m r => r <| mApplication := <[name := m]> (mApplication r) |>
  end.

Definition emptyDB : MemDB := mkMemDB ∅ ∅ ∅ ∅ ∅ ∅ ∅ ∅ ∅ ∅ ∅ ∅ ∅ ∅ ∅ ∅ ∅ ∅ ∅ ∅ ∅ ∅ ∅ ∅.

Definition memPut {V} (c : coll V) (k : string) (x : V) (db : MemDB) : MemDB :=
  mset c (<[k := x]> (mget c db)) db.

Definition memReady (db : MemDB) (o : txop) : bool :=
  match o with
  | TxPut c id absent ev _ =>
      match mget c db !! id with
      | None => match ev with None => true | Some _ => false end
      | Some cur => negb absent && match ev with Some v => getVersion c cur =? v | None => true end
      end
  | TxApplication name id absent present ev _ =>
      match mget (CApplication name) db !! id with
      | None => negb present && match ev with None => true | Some _ => false end
      | Some cur => negb absent && match ev with Some v => ar_version cur =? v | None => true end
      end
  end.

Definition memApply (db : MemDB) (o : txop) : MemDB :=
  match o with
  | TxPut c id _ _ v => memPut c id v db
  | TxApplication name id _ _ _ v =>
      memPut (CApplication name) id
        (mkApplicationRecord v match mget (CApplication name) db !! id with Some cur => ar_version cur + 1 | None => 1 end) db
  end.

(** Cursors of the in-memory store: a page ends after as many records as the
    cursor has characters. *)
Fixpoint tally (n : nat) : string :=
  match n with O => EmptyString | S n => String (Ascii.ascii_of_nat 120) (tally n) end.

Definition memMatching {V} (c : coll V) (p : V -> bool) (db : MemDB) : list V :=
  List.filter p (map snd (map_to_list (mget c db))).

#[global] Instance MemDB_FeltDB : FeltDB MemDB := {
  db_get V c k db := (db, Ok (mget c db !! k));
  db_find V c p db := (db, Ok (memMatching c p db));
  db_query V c p limit cursor db :=
    let l := memMatching c p db in
    let i := match cursor with Some s => String.length s | None => O end in
    (db, Ok (take limit (drop i l),
             if Nat.ltb (i + limit) (length l) then Some (tally (i + limit)) else None));
  db_updateIfVersion V c k v patch db :=
    match mget c db !! k with
    | Some cur =>
        if getVersion c cur =? v then
          let new := setVersion c (v + 1) (patch cur) in (memPut c k new db, Ok (Some new))
        else (db, Ok None)
    | None => (db, Ok None)
    end;
  db_insert V c k x db :=
    match mget c db !! k with
    | None => (memPut c k x db, Ok tt)
    | Some _ => (db, Throw (JsError "Error" "already exists"))
    end;
  db_update V c k x db :=
    match mget c db !! k with
    | Some cur => (memPut c k (setVersion c (getVersion c cur + 1) x) db, Ok tt)
    | None => (db, Throw (JsError "Error" "not found"))
    end;
  db_delete V c k db := (mset c (delete k (mget c db)) db, Ok tt);
  db_transaction ops db :=
    if forallb (memReady db) ops then (fold_left memApply ops db, Ok tt)
    else (db, Throw (ConditionalConflictError "conflict"));
  peek V c k db := mget c db !! k;
  up _ := True }.

Lemma mget_mset {V} (c : coll V) m db : mget c (mset c m db) = m.
Proof. destruct c; cbn; try reflexivity. now rewrite lookup_insert_eq. Qed.

Lemma mget_mset_ne {V W} (c : coll V) (c' : coll W) m db :
  cname c' <> cname c -> mget c' (mset c m db) = mget c' db.
Proof.
  intros Hne. destruct c, c'; try solve [reflexivity | exfalso; apply Hne; reflexivity].
  cbn. rewrite lookup_insert_ne by (intros ->; now apply Hne). reflexivity.
Qed.

Lemma mget_put_ne {V W} (c : coll V) (c' : coll W) k k' (o : option V) db :
  (cname c', k') <> (cname c, k) ->
  mget c' (mset c (partial_alter (fun _ => o) k (mget c db)) db) !! k' = mget c' db !! k'.
Proof.
  intros Hne. destruct (decide (cname c' = cname c)) as [E|E].
  - assert (k' <> k) as Hk by (intros ->; apply Hne; now rewrite E).
    revert E. clear Hne. intros E. apply (coll_same c c' (fun W c' => mget c' (mset c (partial_alter (fun _ => o) k (mget c db)) db) !! k' = mget c' db !! k') E).
    rewrite mget_mset. now rewrite lookup_partial_alter_ne by congruence.
  - now rewrite mget_mset_ne by exact E.
Qed.

Lemma memPut_changed {V} (c : coll V) k x db : changed c k (Some x) db (memPut c k x db).
Proof.
  split; [exact I|]. split; cbn.
  - unfold memPut. rewrite mget_mset. apply lookup_insert_eq.
  - intros V' c' k' Hne. apply (mget_put_ne c c' k k' (Some x)), Hne.
Qed.

Lemma memDelete_changed {V} (c : coll V) k db :
  changed c k None db (mset c (delete k (mget c db)) db).
Proof.
  split; [exact I|]. split; cbn.
  - rewrite mget_mset. apply lookup_delete_eq.
  - intros V' c' k' Hne. apply (mget_put_ne c c' k k' None), Hne.
Qed.

Lemma memReady_spec db o : memReady db o = true <-> txReady db o.
Proof.
  destruct o as [V c id absent ev v|name id absent present ev v].
  - cbn. destruct (mget c db !! id) as [cur|].
    + rewrite andb_true_iff, negb_true_iff. destruct ev as [n|]; [rewrite Z.eqb_eq|]; tauto.
    + destruct ev; split; congruence.
  - cbn. destruct (_ !! id) as [cur|]; rewrite andb_true_iff, negb_true_iff.
    + destruct ev as [n|]; [rewrite Z.eqb_eq|]; tauto.
    + destruct ev; intuition congruence.
Qed.

Lemma memApply_frame ops db V (c : coll V) k :
  (cname c, k) ∉ map txKey ops -> mget c (fold_left memApply ops db) !! k = mget c db !! k.
Proof.
  revert db. induction ops as [|o ops IH]; intros db Hn; [reflexivity|].
  cbn [map fold_left] in *. apply not_elem_of_cons in Hn as [Hn1 Hn2]. rewrite IH by exact Hn2.
  destruct o as [W c' id a ev v|name id a pr ev v]; apply (mget_put_ne _ c id k (Some _)), Hn1.
Qed.

Lemma memApply_done ops db :
  NoDup (map txKey ops) -> Forall (txDone (fold_left memApply ops db)) ops.
Proof.
  revert db. induction ops as [|o ops IH]; intros db Hd; [constructor|].
  cbn in Hd. apply NoDup_cons in Hd as [Hn Hd]. constructor; [|apply IH, Hd].
  cbn [fold_left]. destruct o as [W c' id a ev v|name id a pr ev v]; cbn [txDone txKey memApply] in *; [|eexists];
    (etransitivity; [exact (memApply_frame _ _ _ _ _ Hn)|]; unfold memPut; rewrite mget_mset; apply lookup_insert_eq).
Qed.

Lemma tally_length n : String.length (tally n) = n.
Proof. induction n as [|n IH]; cbn; congruence. Qed.

Lemma find_spec {V} (p : V -> bool) (l : list (string * V)) (m : gmap string V) :
  NoDup l.*1 -> (forall k x, (k, x) ∈ l <-> m !! k = Some x) ->
  exists ks, NoDup ks /\
    Forall2 (fun k x => m !! k = Some x) ks (List.filter p (map snd l)) /\
    Forall (fun x => p x = true) (List.filter p (map snd l)) /\
    (forall k x, m !! k = Some x -> p x = true -> k ∈ ks).
Proof.
  intros Hd Hm. exists (map fst (List.filter (fun kx => p kx.2) l)).
  assert (forall k, k ∈ map fst (List.filter (fun kx => p kx.2) l) -> k ∈ l.*1) as Hsub.
  { intros k. rewrite !list_elem_of_In, !in_map_iff. intros (x & <- & Hx).
    apply filter_In in Hx as [Hx _]. eauto. }
  assert (forall k x, m !! k = Some x -> p x = true -> k ∈ map fst (List.filter (fun kx => p kx.2) l)) as Hall.
  { intros k x Hk Hp. apply list_elem_of_In, in_map_iff. exists (k, x). split; [reflexivity|].
    apply filter_In. split; [|exact Hp]. apply list_elem_of_In, Hm, Hk. }
  assert (forall k x, (k, x) ∈ l -> m !! k = Some x) as Hin by (intros; now apply Hm).
  clear Hm. repeat split; [| | |exact Hall]; clear Hall.
  - clear Hin. induction l as [|[k x] l IH]; cbn in *; [constructor|].
    apply NoDup_cons in Hd as [Hn Hd].
    assert (forall k', k' ∈ map fst (List.filter (fun kx => p kx.2) l) -> k' ∈ l.*1) as Hs.
    { intros k'. rewrite !list_elem_of_In, !in_map_iff. intros (y & <- & Hy).
      apply filter_In in Hy as [Hy _]. eauto. }
    destruct (p x); [|now apply IH].
    constructor; [intros Hc; apply Hn, Hs, Hc | now apply IH].
  - clear Hsub Hd. induction l as [|[k x] l IH]; cbn; [constructor|].
    destruct (p x); [constructor|]; first [apply Hin; left | apply IH; intros; apply Hin; now right].
  - apply Forall_forall. intros x Hx. apply list_elem_of_In, filter_In in Hx. apply Hx.
Qed.

Lemma memMatching_enumerates {V} (c : coll V) p db : enumerates c p db (memMatching c p db).
Proof.
  apply find_spec; [apply NoDup_fst_map_to_list | intros; apply elem_of_map_to_list].
Qed.

#[global] Instance MemDB_laws : FeltDBLaws MemDB.
Proof.
  split; cbn.
  - reflexivity.
  - intros V c p db _. eexists. split; [reflexivity | apply memMatching_enumerates].
  - intros V c p db _. exists (memMatching c p db), String.length.
    split; [apply memMatching_enumerates|]. intros limit cursor Hl.
    set (l := memMatching c p db). set (i := match cursor with Some s => _ | None => _ end).
    exists limit. eexists. split; [reflexivity|]. split; [lia|].
    change (match length l with O => false | S m => (i + limit <=? m)%nat end)
      with (Nat.ltb (i + limit) (length l)).
    destruct (Nat.ltb_spec (i + limit) (length l)) as [Hlt|Hge]; [|exact Hge].
    split; [destruct (i + limit)%nat eqn:E; [lia | discriminate] | rewrite tally_length; lia].
  - intros V c k v patch db cur _ Hk Hv. rewrite Hk, Hv, Z.eqb_refl.
    eexists. split; [reflexivity | apply memPut_changed].
  - intros V c k v patch db _ Hv. destruct (mget c db !! k) as [cur|] eqn:E; [|reflexivity].
    destruct (Z.eqb_spec (getVersion c cur) v); [exfalso; eapply Hv; eauto | reflexivity].
  - intros V c k x db _ Hk. rewrite Hk. eexists. split; [reflexivity | apply memPut_changed].
  - intros V c k x cur db _ Hk. rewrite Hk. eexists. split; [reflexivity | apply memPut_changed].
  - intros V c k db _. eexists. split; [reflexivity | apply memDelete_changed].
  - intros ops db _ Hd Hr.
    assert (forallb (memReady db) ops = true) as ->.
    { apply forallb_forall. intros o Ho. apply memReady_spec. rewrite Forall_forall in Hr.
      apply Hr, list_elem_of_In, Ho. }
    eexists. split; [reflexivity|]. split; [exact I|]. split; [apply memApply_done, Hd|].
    intros. now apply memApply_frame.
  - intros ops db _ Hx.
    assert (forallb (memReady db) ops = false) as ->.
    { apply not_true_iff_false. intros Hall. rewrite forallb_forall in Hall.
      apply Exists_exists in Hx as (o & Ho & Hn). apply Hn, memReady_spec, Hall, list_elem_of_In, Ho. }
    eexists; reflexivity.
Qed.
