(* ===== verification/Principal.v ===== *)
(** * Principal: identity, credential references, reserved collections

    [authority/principal.ts], [authority/credentials.ts],
    [authority/reserved.ts] and [authority/credential-binding.ts]. *)

From S2P Require Import Prelude JsString JsTime Errors Models Store.
From Stdlib Require Import ZArith Lia.
Local Open Scope string_scope.
Local Open Scope Z_scope.

(** ** Minting *)

Definition missingIdentity (field : string) : exn :=
  ServiceAuthorityError UNAUTHENTICATED ("Authenticated identity is missing " ++ field) noDetails.

Definition mintVerifiedPrincipal (claims : PrincipalClaims) (verifiedBy : PrincipalVerification)
  : outcome VerifiedPrincipal :=
  if blank (pc_principalId claims) then Throw (missingIdentity "principalId")
  else if blank (pc_principalType claims) then Throw (missingIdentity "principalType")
  else if blank (pc_tenantId claims) then Throw (missingIdentity "tenantId")
  else Ok (mkPrincipal (pc_principalId claims) (pc_principalType claims) (pc_tenantId claims)
             (ifPresent (pc_applicationId claims)) (ifPresent (pc_credentialId claims))
             (ifPresent (pc_delegationId claims)) (ifPresent (pc_runId claims)) verifiedBy false).

(** What reaches a service as its caller: a member of the brand, or any other value. *)
Inductive Caller :=
| CVerified (p : VerifiedPrincipal)
| CString (s : string)
| CObject (hasScopes : bool)
| CNothing.

Definition requireVerifiedPrincipal (value : Caller) : outcome VerifiedPrincipal :=
  match value with
  | CVerified p => Ok p
  | CString _ => Throw (ServiceMigrationError "An actor string is not an identity. Pass the principal returned by authentication.")
  | CObject true => Throw (ServiceMigrationError "Principals carrying scopes are no longer authority. Pass the principal returned by authentication; AuthBoundry authorizes each capability.")
  | _ => Throw (ServiceAuthorityError UNAUTHENTICATED "A verified principal is required for this service operation" noDetails)
  end.

Definition ACTOR_FIELDS : list string :=
  ["actor"; "createdBy"; "revokedBy"; "disabledBy"; "replayedBy"; "principalId"].

Definition isUndef (v : jsval) : bool := match v with JUndef => true | _ => false end.
Definition isStr (v : jsval) (s : string) : bool :=
  match v with JStr x => String.eqb x s | _ => false end.

(** [input] is given by its own properties. *)
Definition rejectCallerActor (input : list (string * jsval)) (principal : VerifiedPrincipal)
  : outcome unit :=
  match List.find (fun field =>
          let value := getField input field in
          negb (isUndef value) && negb (isStr value (vp_principalId principal))) ACTOR_FIELDS with
  | Some field => Throw (ServiceMigrationError
      ("Caller-supplied " ++ quoted field ++ " cannot establish identity; the actor is the verified principal."))
  | None =>
      if negb (isUndef (getField input "principal")) then
        Throw (ServiceMigrationError ("Caller-supplied " ++ quoted "principal" ++ " cannot establish identity."))
      else match getField input "scopes" with
           | JUndef | JArr [] => Ok tt
           | _ => Throw (ServiceMigrationError "Caller-supplied scopes do not grant authority.")
           end
  end.

(** [supplied] is the [tenantId] property of the input, if it has one. *)
Definition resolveTenant (supplied : jsval) (principal : VerifiedPrincipal) : outcome string :=
  if isUndef supplied || isStr supplied (vp_tenantId principal)
  then Ok (vp_tenantId principal)
  else Throw (ServiceAuthorityError DENIED "Cross-tenant service operation denied" (reasonOnly "tenant_mismatch")).

Definition toDurablePrincipal (principal : VerifiedPrincipal) (delegationId authorizedBy : option string)
  : DurablePrincipal :=
  mkDurable (vp_principalId principal) (vp_principalType principal) (vp_tenantId principal)
    (ifPresent (vp_applicationId principal))
    (ifPresent match delegationId with Some _ => delegationId | None => vp_delegationId principal end)
    (ifPresent (vp_credentialId principal)) (ifPresent authorizedBy).

(** The claims a durable principal makes when a run mints it again. *)
Definition durableClaims (d : DurablePrincipal) (runId : string) : PrincipalClaims :=
  mkClaims (dp_principalId d) (dp_principalType d) (dp_tenantId d) (dp_applicationId d)
    (dp_credentialId d) (dp_delegationId d) (Some runId).

(** ** [authority/credentials.ts] *)

Definition PREFIX : string := "credential-ref:".

Definition refChar (c : Ascii.ascii) : bool :=
  isAlnum c || existsb (fun k => Nat.eqb (code c) k) [46; 95; 58; 45]%nat.

(** [^[A-Za-z0-9][A-Za-z0-9._:-]{0,199}$] *)
Definition isRefId (s : string) : bool :=
  match s with
  | String c r => isAlnum c && all refChar r && Nat.leb (String.length r) 199
  | EmptyString => false
  end.

Definition isCredentialRef (value : jsval) : bool :=
  match value with
  | JStr s => startsWith s PREFIX && isRefId (sliceFrom (String.length PREFIX) s)
  | _ => false
  end.

Definition formatCredentialRef (secretId : string) : outcome string :=
  let ref := PREFIX ++ secretId in
  if isCredentialRef (JStr ref) then Ok ref
  else Throw (invalidRequest "Invalid credential identifier").

Definition requireCredentialRef (value : jsval) (field : string) : outcome string :=
  match value with
  | JStr s =>
      if isCredentialRef value then Ok s
      else if truthy s then
        Throw (ServiceMigrationError (quoted field ++ " must be a credential-ref:<id> into AuthBoundry custody; raw credentials are never stored in service configuration."))
      else Throw (invalidRequest (field ++ " is required and must be a credential-ref:<id>"))
  | _ => Throw (invalidRequest (field ++ " is required and must be a credential-ref:<id>"))
  end.

Definition credentialReference (ref tenantId : string) (provider kind : option string) : SecretReference :=
  mkSecretRef (sliceFrom (String.length PREFIX) ref) tenantId (ifPresent provider) (ifPresent kind).

Definition RAW_CREDENTIAL_FIELDS : list string :=
  ["value"; "secret"; "password"; "token"; "apiKey"; "signingSecret"; "credential"].

Definition rejectRawCredentialFields (input : list (string * jsval)) : outcome unit :=
  match List.find (fun field => negb (isUndef (getField input field))) RAW_CREDENTIAL_FIELDS with
  | Some field => Throw (ServiceMigrationError
      (quoted field ++ " looks like raw credential material. Register it with AuthBoundry and pass credentialRef instead."))
  | None => Ok tt
  end.

(** ** [authority/reserved.ts] *)

Definition SERVICE_OWNED_COLLECTIONS : list string :=
  [ "api_keys"; "api_key_prefixes"; "api_key_audit_events";
    "webhook_endpoints"; "webhook_deliveries"; "webhook_audit_events"; "webhook_integrations"; "inbound_webhook_events";
    "jobs"; "job_schedules"; "job_audit_events";
    "notifications"; "notification_deliveries"; "notification_audit_events";
    "files"; "file_audit_events";
    "ConfigurationVariables"; "ConfigurationSecrets"; "ConfigurationAuditEvents";
    "service_effect_evidence" ].

Definition assertApplicationCollection (name : string) : outcome unit :=
  if existsb (String.eqb name) SERVICE_OWNED_COLLECTIONS
  then Throw (ServiceAuthorityError DENIED
         ("Collection " ++ quoted name ++ " is owned by AppPort Services; use the service capability instead of writing it directly")
         (reasonOnly "reserved_collection"))
  else Ok tt.

(** ** [authority/credential-binding.ts] *)

Section binding.
Context {DB : Type}.
(** The check that [bindCredentialCheck] attached: it closes over nothing
    but the principal and the API-key service. *)
Variable check : VerifiedPrincipal -> string -> ServiceResource -> M DB unit.

Definition enforceCredential (principal : VerifiedPrincipal) (capability : string)
  (resource : ServiceResource) : M DB unit :=
  if vp_bound principal then
    tryCatch (check principal capability resource) (fun error =>
      if isServiceAuthorityError error then throw error
      else throw (ServiceAuthorityError AUTHORITY_UNAVAILABLE "API-key credential state could not be read"
             (mkDetails (Some capability) None (Some "credential_store_unavailable"))))
  else if bool_decide (vp_verifiedBy principal = ByApiKey) then
    throw (ServiceAuthorityError DENIED "API-key principal is not bound to a live credential"
      (mkDetails (Some capability) None (Some "credential_unbound")))
  else mret tt.
End binding.

(** [bindings.set(principal, check)] *)
Definition bindCredentialCheck (p : VerifiedPrincipal) : VerifiedPrincipal :=
  mkPrincipal (vp_principalId p) (vp_principalType p) (vp_tenantId p) (vp_applicationId p)
    (vp_credentialId p) (vp_delegationId p) (vp_runId p) (vp_verifiedBy p) true.

(** ** What these functions guarantee *)

Lemma mint_ok claims by_ p :
  mintVerifiedPrincipal claims by_ = Ok p ->
  vp_principalId p = pc_principalId claims /\ vp_principalType p = pc_principalType claims /\
  vp_tenantId p = pc_tenantId claims /\ vp_verifiedBy p = by_ /\ vp_bound p = false /\
  blank (vp_principalId p) = false /\ blank (vp_tenantId p) = false.
Proof.
  unfold mintVerifiedPrincipal. repeat case_goal; try discriminate.
  intros [= <-]. cbn. auto 10.
Qed.

Lemma mint_total claims by_ :
  blank (pc_principalId claims) = false -> blank (pc_principalType claims) = false ->
  blank (pc_tenantId claims) = false -> exists p, mintVerifiedPrincipal claims by_ = Ok p.
Proof. unfold mintVerifiedPrincipal. intros -> -> ->. eauto. Qed.

Lemma requireVerified_ok value p : requireVerifiedPrincipal value = Ok p -> value = CVerified p.
Proof. destruct value as [q| |[]|]; cbn; congruence. Qed.

Lemma resolveTenant_ok supplied p t :
  resolveTenant supplied p = Ok t ->
  t = vp_tenantId p /\ (supplied = JUndef \/ supplied = JStr (vp_tenantId p)).
Proof.
  unfold resolveTenant. destruct supplied; cbn; try discriminate; [intros [= <-]; auto|].
  destruct (String.eqb_spec s (vp_tenantId p)) as [->|]; [intros [= <-]; auto | discriminate].
Qed.

Lemma find_none_iff {A} (f : A -> bool) l :
  List.find f l = None <-> forall x, In x l -> f x = false.
Proof.
  induction l as [|a l IH]; cbn; [split; [intros _ _ [] | reflexivity]|].
  destruct (f a) eqn:E.
  - split; [discriminate | intros Hx; specialize (Hx a (or_introl eq_refl)); congruence].
  - rewrite IH. split; [intros Hx x [<-|Hi]; auto | auto].
Qed.

Lemma rejectCallerActor_ok input p :
  rejectCallerActor input p = Ok tt <->
  (forall field, In field ACTOR_FIELDS ->
     getField input field = JUndef \/ getField input field = JStr (vp_principalId p)) /\
  getField input "principal" = JUndef /\
  (getField input "scopes" = JUndef \/ getField input "scopes" = JArr []).
Proof.
  unfold rejectCallerActor.
  destruct (List.find _ ACTOR_FIELDS) as [f|] eqn:E.
  - split; [discriminate|]. intros (Ha & _). apply find_some in E as [Hin Hf].
    destruct (Ha f Hin) as [Hv|Hv]; rewrite Hv in Hf; cbn in Hf;
      [|rewrite String.eqb_refl in Hf]; discriminate Hf.
  - rewrite find_none_iff in E.
    assert (forall field, In field ACTOR_FIELDS ->
      getField input field = JUndef \/ getField input field = JStr (vp_principalId p)) as Ha.
    { intros f Hf. specialize (E f Hf). cbn in E. destruct (getField input f); cbn in E; try discriminate; auto.
      apply negb_false_iff, String.eqb_eq in E as ->. auto. }
    destruct (getField input "principal") eqn:Ep; cbn;
      try (split; [discriminate | intros (_ & Hp & _); discriminate Hp]).
    destruct (getField input "scopes") as [| | | | | |[|]| |] eqn:Es;
      split; auto; try discriminate; intros (_ & _ & [Hs|Hs]); discriminate Hs.
Qed.

(** A formatted reference is accepted, and custody is asked for the identifier
    it was made from. *)
Lemma formatCredentialRef_ok id ref tenant provider kind :
  formatCredentialRef id = Ok ref ->
  isCredentialRef (JStr ref) = true /\ sf_secretId (credentialReference ref tenant provider kind) = id.
Proof.
  unfold formatCredentialRef. destruct (isCredentialRef (JStr (PREFIX ++ id))) eqn:E; [|discriminate].
  intros [= <-]. split; [exact E|]. apply (sliceFrom_append PREFIX).
Qed.

Lemma requireCredentialRef_ok v f r :
  requireCredentialRef v f = Ok r -> v = JStr r /\ isCredentialRef v = true.
Proof.
  unfold requireCredentialRef. destruct v; try discriminate.
  destruct (isCredentialRef (JStr s)) eqn:E; [intros [= <-]; auto | case_match; discriminate].
Qed.

(** Every collection the services keep is reserved, the metadata of stored
    credentials aside. *)
Lemma collection_reserved {V} (c : coll V) :
  ~ In (cname c) ["Secrets"; "SecretVersions"; "SecretAuditEvents"] -> (forall name, cname c <> cname (CApplication name)) ->
  exists d, assertApplicationCollection (cname c) =
    Throw (ServiceAuthorityError DENIED
      ("Collection " ++ quoted (cname c) ++ " is owned by AppPort Services; use the service capability instead of writing it directly") d).
Proof.
  destruct c; intros Hn Ha; try (exfalso; apply Hn; cbn; auto; fail); try (exfalso; exact (Ha _ eq_refl)); eexists; reflexivity.
Qed.

(** The collections [credential.store] writes its metadata to are not on the
    list: application code may write them directly. *)
Lemma secret_metadata_open :
  Forall (fun name => assertApplicationCollection name = Ok tt) [cname CSecrets; cname CSecretVersions; cname CSecretAudit].
Proof. repeat constructor. Qed.
