(* ===== verification/Manifest.v ===== *)
(** * Manifest: the declared service capabilities ([authority/manifest.ts])

    The table, its order and lookup, and the digest AuthBoundry pins it by. *)

From S2P Require Import Prelude JsString Json JsTime Errors Models Store.
From Stdlib Require Import ZArith Lia Sorting.Sorted.
Local Open Scope string_scope.
Local Open Scope Z_scope.

Inductive ServiceEffect := Consequential | Observation.

Record ServiceCapability := mkCapability {
  c_name : string;
  c_version : Z;
  c_service : string;
  c_operation : string;
  c_effect : ServiceEffect;
  c_invocable : bool;
  c_required : bool;
  c_resource : string }.

(** [freezeCapability] of a table entry. *)
Definition freezeCapability (name service operation : string) (effect : ServiceEffect)
  (resource : string) (invocable : bool) : ServiceCapability :=
  mkCapability name 1 service operation effect invocable true resource.

Definition entry n s o e r := freezeCapability n s o e r true.
Definition internal n s o e r := freezeCapability n s o e r false.

Definition ENTRIES : list ServiceCapability := [
  entry "apikeys.read" "api-keys" "listApiKeys" Observation "api_key";
  entry "apikeys.create" "api-keys" "createApiKey" Consequential "api_key";
  entry "apikeys.revoke" "api-keys" "revokeApiKey" Consequential "api_key";
  entry "apikeys.update" "api-keys" "updateApiKey" Consequential "api_key";
  entry "apikeys.rotate" "api-keys" "rotateApiKey" Consequential "api_key";
  entry "apikeys.audit" "api-keys" "listApiKeyAuditEvents" Observation "api_key";

  entry "webhooks.read" "webhooks" "listWebhookEndpoints" Observation "webhook_endpoint";
  entry "webhooks.deliveries.read" "webhooks" "readWebhookDeliveries" Observation "webhook_delivery";
  entry "webhooks.register" "webhooks" "createWebhookEndpoint" Consequential "webhook_endpoint";
  entry "webhooks.remove" "webhooks" "disableWebhookEndpoint" Consequential "webhook_endpoint";
  entry "webhooks.emit" "webhooks" "emitWebhookEvent" Consequential "webhook_event";
  entry "webhooks.replay" "webhooks" "replayWebhookDelivery" Consequential "webhook_delivery";
  internal "webhooks.deliver" "webhooks" "deliverWebhook" Consequential "webhook_delivery";
  entry "webhooks.integrations.register" "webhooks" "registerIntegration" Consequential "webhook_integration";
  internal "webhooks.receive" "webhooks" "receiveWebhook" Consequential "webhook_integration";

  entry "jobs.read" "jobs" "listJobs" Observation "job";
  entry "jobs.create" "jobs" "enqueue" Consequential "job";
  entry "jobs.retry" "jobs" "retry" Consequential "job";
  internal "jobs.execute" "jobs" "executeJob" Consequential "job";

  entry "schedules.read" "schedules" "list" Observation "schedule";
  entry "schedules.create" "schedules" "create" Consequential "schedule";
  entry "schedules.cancel" "schedules" "disable" Consequential "schedule";

  entry "notifications.read" "notifications" "list" Observation "notification";
  entry "notifications.send" "notifications" "create" Consequential "notification";
  entry "notifications.update" "notifications" "markRead" Consequential "notification";
  entry "notifications.delete" "notifications" "delete" Consequential "notification";

  entry "files.read" "files" "list" Observation "file";
  entry "files.write" "files" "create" Consequential "file";
  entry "files.delete" "files" "delete" Consequential "file";

  entry "configuration.read" "configuration" "list" Observation "configuration";
  entry "configuration.write" "configuration" "createVariable" Consequential "configuration";
  entry "configuration.delete" "configuration" "delete" Consequential "configuration";
  entry "credential.attach" "configuration" "createSecret" Consequential "credential";
  entry "credential.rotate" "configuration" "rotateSecret" Consequential "credential";
  entry "credential.detach" "configuration" "delete" Consequential "credential";
  entry "credential.store" "configuration" "storeCredential" Consequential "credential";
  entry "credential.status" "configuration" "credentialStatus" Observation "credential";

  entry "intelligence.catalog" "intelligence" "catalog" Observation "intelligence";
  entry "intelligence.read" "intelligence" "get" Observation "intelligence";
  entry "intelligence.write" "intelligence" "set" Consequential "intelligence";
  entry "intelligence.credential.set" "intelligence" "setCredential" Consequential "credential";
  entry "intelligence.credential.remove" "intelligence" "removeCredential" Consequential "credential";
  internal "intelligence.resolve" "intelligence" "resolveRuntime" Observation "intelligence" ].

(** [Array.prototype.sort]: stable, by [le]. *)
Fixpoint insertBy {A} (le : A -> A -> bool) (x : A) (l : list A) : list A :=
  match l with
  | [] => [x]
  | y :: r => if le x y then x :: y :: r else y :: insertBy le x r
  end.

Definition sortBy {A} (le : A -> A -> bool) (l : list A) : list A := foldr (insertBy le) [] l.

Section manifest.
(** [a.localeCompare(b) <= 0]: the host's collation. *)
Variable localeLe : string -> string -> bool.

Definition SERVICE_CAPABILITY_MANIFEST : list ServiceCapability :=
  sortBy (fun a b => localeLe (c_name a) (c_name b)) ENTRIES.

(** [BY_NAME.get(name)]: of two entries of one name the later wins. *)
Definition byName (name : string) : option ServiceCapability :=
  foldl (fun found c => if String.eqb (c_name c) name then Some c else found) None
    SERVICE_CAPABILITY_MANIFEST.
End manifest.

(** [getServiceCapability]: the collation does not matter ([byName_find]). *)
Definition getServiceCapability (name : string) : option ServiceCapability :=
  List.find (fun c => String.eqb (c_name c) name) ENTRIES.

Definition LEGACY_SCOPE_MIGRATION : list (string * option string) := [
  ("files.admin", None);
  ("notifications.admin", None);
  ("schedules.admin", None);
  ("configuration.admin", None);
  ("files.create", Some "files.write");
  ("files.read:any", Some "files.read");
  ("files.write:any", Some "files.write");
  ("files.delete:any", Some "files.delete");
  ("notifications.create", Some "notifications.send");
  ("notifications.write", Some "notifications.update");
  ("notifications.read:any", Some "notifications.read");
  ("schedules.write", Some "schedules.cancel");
  ("schedules.read:any", Some "schedules.read");
  ("schedules.write:any", Some "schedules.cancel");
  ("secret.rotate", Some "credential.rotate") ].

(** ** Sorting *)

Lemma insertBy_perm {A} le (x : A) l : insertBy le x l ≡ₚ x :: l.
Proof.
  induction l as [|y l IH]; cbn; [reflexivity|]. case_match; [reflexivity|].
  rewrite IH. constructor.
Qed.

Lemma sortBy_perm {A} le (l : list A) : sortBy le l ≡ₚ l.
Proof. induction l as [|x l IH]; cbn; [reflexivity|]. rewrite insertBy_perm, IH. reflexivity. Qed.

(** Sorted by an order in which any two elements compare. *)
Lemma insertBy_sorted {A} (le : A -> A -> bool) (x : A) l :
  (forall a b, le a b = false -> le b a = true) ->
  Sorted (fun a b => le a b = true) l -> Sorted (fun a b => le a b = true) (insertBy le x l).
Proof.
  intros Htot. induction l as [|y l IH]; intros Hs; cbn; [repeat constructor|].
  apply Sorted_inv in Hs as [Hs Hy]. destruct (le x y) eqn:E; [repeat constructor; assumption|].
  constructor; [now apply IH|]. destruct l as [|z l]; cbn; [constructor; now apply Htot|].
  inversion Hy; subst. case_match; constructor; [now apply Htot | assumption].
Qed.

Lemma sortBy_sorted {A} (le : A -> A -> bool) (l : list A) :
  (forall a b, le a b = false -> le b a = true) -> Sorted (fun a b => le a b = true) (sortBy le l).
Proof. intros Htot. induction l as [|x l IH]; cbn; [constructor | now apply insertBy_sorted]. Qed.

Lemma ENTRIES_unique : NoDup (map c_name ENTRIES).
Proof. apply (bool_decide_unpack _). vm_compute. exact I. Qed.

(** [foldl ... Some] over entries with different names finds the one entry. *)
Lemma last_wins l (name : string) found :
  NoDup (map c_name l) ->
  foldl (fun found c => if String.eqb (c_name c) name then Some c else found) found l =
  match List.find (fun c => String.eqb (c_name c) name) l with Some c => Some c | None => found end.
Proof.
  revert found. induction l as [|c l IH]; intros found Hd; cbn in *; [reflexivity|].
  apply NoDup_cons in Hd as [Hn Hd]. rewrite (IH _ Hd).
  destruct (String.eqb_spec (c_name c) name) as [E|E]; [|reflexivity].
  destruct (List.find _ l) as [d|] eqn:Ef; [|reflexivity].
  apply find_some in Ef as [Hin Hf]. apply String.eqb_eq in Hf.
  exfalso. apply Hn, list_elem_of_In, in_map_iff. exists d. split; [congruence | exact Hin].
Qed.

Lemma find_unique l (name : string) c :
  NoDup (map c_name l) -> c ∈ l -> c_name c = name ->
  List.find (fun c => String.eqb (c_name c) name) l = Some c.
Proof.
  intros Hd Hin E. induction l as [|d l IH]; [now apply not_elem_of_nil in Hin|].
  cbn in *. apply NoDup_cons in Hd as [Hn Hd]. apply elem_of_cons in Hin as [->|Hin].
  - subst name. now rewrite String.eqb_refl.
  - destruct (String.eqb_spec (c_name d) name) as [E'|]; [|now apply IH].
    exfalso. apply Hn, list_elem_of_In, in_map_iff. exists c. split; [congruence|].
    now apply list_elem_of_In.
Qed.

Lemma getServiceCapability_in name c :
  getServiceCapability name = Some c <-> c ∈ ENTRIES /\ c_name c = name.
Proof.
  unfold getServiceCapability. split.
  - intros Hf. apply find_some in Hf as [Hin Hn]. apply String.eqb_eq in Hn.
    split; [now apply list_elem_of_In | exact Hn].
  - intros [Hin Hn]. apply find_unique; [exact ENTRIES_unique | exact Hin | exact Hn].
Qed.

#[local] Opaque ENTRIES sortBy.

(** Looking a name up in the sorted, frozen manifest gives the table's entry,
    whatever the collation. *)
Lemma byName_find localeLe name : byName localeLe name = getServiceCapability name.
Proof.
  unfold byName, SERVICE_CAPABILITY_MANIFEST. rewrite last_wins.
  - destruct (List.find _ (sortBy _ ENTRIES)) as [c|] eqn:E.
    + apply find_some in E as [Hin Hn]. apply String.eqb_eq in Hn. symmetry.
      apply getServiceCapability_in. split; [|exact Hn].
      rewrite <- (sortBy_perm (fun a b => localeLe (c_name a) (c_name b)) ENTRIES).
      now apply list_elem_of_In.
    + destruct (getServiceCapability name) as [c|] eqn:E'; [|reflexivity].
      apply getServiceCapability_in in E' as [Hin Hn].
      rewrite <- (sortBy_perm (fun a b => localeLe (c_name a) (c_name b)) ENTRIES) in Hin.
      apply list_elem_of_In in Hin. eapply find_none in E; [|exact Hin]. cbn in E.
      rewrite Hn, String.eqb_refl in E. discriminate.
  - rewrite sortBy_perm. exact ENTRIES_unique.
Qed.

#[local] Transparent ENTRIES sortBy.

(** Every entry requires authorization and has version 1. *)
Lemma ENTRIES_required c : c ∈ ENTRIES -> c_required c = true /\ c_version c = 1.
Proof.
  intros Hin. apply list_elem_of_In in Hin. revert c Hin. apply List.Forall_forall.
  repeat constructor.
Qed.

(** ** The digest of the manifest

    AuthBoundry pins the manifest it decided by with the digest of its text.
    SHA-256 is a parameter; where it does not collide, the digest pins every
    capability. *)

Definition effectName (e : ServiceEffect) : string := match e with Consequential => "consequential" | Observation => "observation" end.
Definition boolText (b : bool) : string := if b then "true" else "false".

(** [JSON.stringify] of one capability, in the order [freezeCapability] has
    its properties. *)
Definition capabilityText (c : ServiceCapability) : string :=
  "{" ++ quoteJson "name" ++ ":" ++ quoteJson (c_name c) ++ "," ++ quoteJson "version" ++ ":" ++ num (c_version c) ++ ","
  ++ quoteJson "service" ++ ":" ++ quoteJson (c_service c) ++ "," ++ quoteJson "operation" ++ ":" ++ quoteJson (c_operation c) ++ ","
  ++ quoteJson "effect" ++ ":" ++ quoteJson (effectName (c_effect c)) ++ "," ++ quoteJson "invocable" ++ ":" ++ boolText (c_invocable c) ++ ","
  ++ quoteJson "authorization" ++ ":" ++ "{" ++ quoteJson "required" ++ ":" ++ boolText (c_required c) ++ ","
  ++ quoteJson "resource" ++ ":" ++ quoteJson (c_resource c) ++ "}" ++ "}".

Fixpoint joinCapabilities (l : list ServiceCapability) : string :=
  match l with [] => "" | [c] => capabilityText c | c :: r => capabilityText c ++ "," ++ joinCapabilities r end.

Definition manifestText (l : list ServiceCapability) : string := "[" ++ joinCapabilities l ++ "]".

(** [serviceCapabilityManifestDigest()] *)
Definition serviceCapabilityManifestDigest (sha256Hex : string -> string) (localeLe : string -> string -> bool) : string :=
  sha256Hex (manifestText (SERVICE_CAPABILITY_MANIFEST localeLe)).

(** *** What the digest pins *)

(** What [freezeCapability] makes. *)
Definition frozen (c : ServiceCapability) : Prop := c_version c = 1 /\ c_required c = true.

Lemma sortBy_Forall {A} (P : A -> Prop) le l : Forall P l -> Forall P (sortBy le l).
Proof.
  intros Hl. induction Hl as [|c l Hc _ IH]; [constructor|]. cbn [sortBy foldr]. change (foldr (insertBy le) [] l) with (sortBy le l).
  induction IH as [|d r Hd Hr IH]; cbn; [repeat constructor; exact Hc|].
  destruct (le _ _); repeat (constructor; try assumption).
Qed.

Lemma entries_frozen : forallb (fun c => Z.eqb (c_version c) 1 && c_required c) ENTRIES = true.
Proof. vm_compute. reflexivity. Qed.

Lemma manifest_frozen localeLe : Forall frozen (SERVICE_CAPABILITY_MANIFEST localeLe).
Proof.
  apply sortBy_Forall, List.Forall_forall. intros c Hin. pose proof (proj1 (List.forallb_forall _ _) entries_frozen c Hin) as E.
  apply andb_true_iff in E as [Ev Er]. split; [now apply Z.eqb_eq | exact Er].
Qed.

Lemma effectName_inj a b : effectName a = effectName b -> a = b.
Proof. destruct a, b; (reflexivity || discriminate). Qed.

Lemma boolText_inj a b x y : boolText a ++ x = boolText b ++ y -> a = b /\ x = y.
Proof. destruct a, b; cbn [boolText]; intros E; try discriminate E; (split; [reflexivity | exact (append_inj_l _ _ _ E)]). Qed.

Lemma capabilityText_inj a b x y : frozen a -> frozen b -> capabilityText a ++ x = capabilityText b ++ y -> a = b /\ x = y.
Proof.
  destruct a as [n v s o e i q r], b as [n' v' s' o' e' i' q' r']. intros [Hv Hq] [Hv' Hq']. cbn in Hv, Hq, Hv', Hq'. subst.
  unfold capabilityText. cbn [c_name c_version c_service c_operation c_effect c_invocable c_required c_resource]. rewrite !append_assoc.
  intros E. do 3 apply append_inj_l in E. apply quoteJson_inj in E as [-> E]. do 5 apply append_inj_l in E.
  do 2 apply append_inj_l in E. apply quoteJson_inj in E as [-> E]. do 3 apply append_inj_l in E. apply quoteJson_inj in E as [-> E].
  do 3 apply append_inj_l in E. apply quoteJson_inj in E as [He E]. apply effectName_inj in He as ->.
  do 3 apply append_inj_l in E. apply boolText_inj in E as [-> E]. do 10 apply append_inj_l in E. apply quoteJson_inj in E as [-> E].
  do 2 apply append_inj_l in E. now split.
Qed.

Lemma manifestText_inj l m : Forall frozen l -> Forall frozen m -> manifestText l = manifestText m -> l = m.
Proof.
  unfold manifestText. intros Hl Hm E. apply append_inj_l in E. revert m Hm E.
  assert (Hj : forall c (l : list ServiceCapability), exists tail, joinCapabilities (c :: l) ++ "]" = capabilityText c ++ tail /\
      match l with [] => tail = "]" | _ => tail = "," ++ joinCapabilities l ++ "]" end).
  { intros c [|d k]; cbn [joinCapabilities]; [eexists; split; reflexivity|]. eexists. split; [rewrite !append_assoc; reflexivity | reflexivity]. }
  induction Hl as [|c l Hc Hl IH]; intros m Hm E; destruct Hm as [|d m Hd Hm]; [reflexivity| | |].
  - destruct (Hj d m) as (y & Ey & _). rewrite Ey in E. discriminate E.
  - destruct (Hj c l) as (x & Ex & _). rewrite Ex in E. discriminate E.
  - destruct (Hj c l) as (x & Ex & Hx), (Hj d m) as (y & Ey & Hy). rewrite Ex, Ey in E.
    apply capabilityText_inj in E as [-> ->]; [|assumption..]. destruct l as [|a l], m as [|b m]; [reflexivity| | |].
    + rewrite Hx in Hy. discriminate Hy.
    + rewrite Hy in Hx. discriminate Hx.
    + rewrite Hx in Hy. f_equal. apply IH; [exact Hm|]. exact (append_inj_l "," _ _ Hy).
Qed.

(** Two hosts whose digests agree have one manifest, in one order, if the hash
    does not collide on their texts. *)
Lemma digest_pins_manifest sha256Hex le le' :
  (forall a b, sha256Hex a = sha256Hex b -> a = b) ->
  serviceCapabilityManifestDigest sha256Hex le = serviceCapabilityManifestDigest sha256Hex le' ->
  SERVICE_CAPABILITY_MANIFEST le = SERVICE_CAPABILITY_MANIFEST le'.
Proof. intros Hinj E. apply Hinj in E. apply manifestText_inj in E; [exact E | apply manifest_frozen..]. Qed.
