(* ===== verification/Restrictions.v ===== *)
(** * Restrictions: the ceiling of an API key ([api-keys/restrictions.ts]) *)

From S2P Require Import Prelude JsString Errors Models Store Manifest.
From Stdlib Require Import ZArith Lia Ascii Sorting.Sorted.
Local Open Scope string_scope.
Local Open Scope Z_scope.

Definition MAX_CAPABILITIES : nat := 64.
Definition MAX_RESOURCE_RULES : nat := 64.
Definition MAX_ATTRIBUTES : nat := 16.
Definition MAX_TEXT : nat := 256.

(** [CAPABILITIES.has(name)] *)
Definition isInvocable (name : string) : bool :=
  existsb (fun c => c_invocable c && String.eqb (c_name c) name) ENTRIES.

(** [RESOURCE_TYPES.has(type)] *)
Definition isResourceType (type : string) : bool :=
  existsb (fun c => String.eqb (c_resource c) type) ENTRIES.

Definition invalid (message : string) : exn := ServiceAuthorityError INVALID_REQUEST message noDetails.

Definition text (value : jsval) (property : string) : outcome string :=
  let err := Throw (invalid (property ++ " must be a non-empty string of at most 256 characters")) in
  match value with
  | JStr s => if blank s || Nat.ltb MAX_TEXT (String.length s) then err else Ok s
  | _ => err
  end.

(** Object keys the loop does not accept, if any. *)
Definition unknownKey (known : list string) (fields : list (string * jsval)) : option string :=
  match List.find (fun kv => negb (existsb (String.eqb kv.1) known)) fields with
  | Some (k, _) => Some k
  | None => None
  end.

(** [[...new Set(l)]]: the first occurrences. *)
Fixpoint dedupe (seen l : list string) : list string :=
  match l with
  | [] => []
  | x :: r => if existsb (String.eqb x) seen then dedupe seen r else x :: dedupe (x :: seen) r
  end.

Section normalize.
(** [a.localeCompare(b) <= 0] *)
Variable localeLe : string -> string -> bool.
(** [String(value)], in messages only. *)
Variable stringOfValue : jsval -> string.

(** The loop that builds [attributes]; assigning a text to [__proto__] creates
    no property. *)
Fixpoint collectAttributes (at_ : string) (entries : list (string * jsval)) (acc : gmap string string)
  : outcome (gmap string string) :=
  match entries with
  | [] => Ok acc
  | (key, value) :: rest =>
      match text (JStr key) (at_ ++ ".attributes key") with
      | Throw e => Throw e
      | Ok k =>
          match text value (at_ ++ ".attributes." ++ key) with
          | Throw e => Throw e
          | Ok v => collectAttributes at_ rest (if String.eqb k "__proto__" then acc else <[k := v]> acc)
          end
      end
  end.

Definition ruleType (at_ : string) (v : jsval) : outcome (option string) :=
  match v with
  | JUndef => Ok None
  | JStr t => if isResourceType t then Ok (Some t)
              else Throw (invalid (at_ ++ ".type: " ++ quoted t ++ " is not a resource type in the service manifest"))
  | _ => Throw (invalid (at_ ++ ".type: " ++ quoted (stringOfValue v) ++ " is not a resource type in the service manifest"))
  end.

Definition ruleId (at_ : string) (v : jsval) : outcome (option string) :=
  match v with
  | JUndef => Ok None
  | _ => match text v (at_ ++ ".id") with Ok s => Ok (Some s) | Throw e => Throw e end
  end.

Definition ruleAttributes (at_ : string) (v : jsval) : outcome (option (gmap string string)) :=
  match v with
  | JUndef => Ok None
  | JObj entries =>
      if Nat.ltb MAX_ATTRIBUTES (length entries) then
        Throw (invalid (at_ ++ ".attributes allows at most 16 entries"))
      else match collectAttributes at_ (sortBy (fun a b => localeLe a.1 b.1) entries) ∅ with
           | Throw e => Throw e
           | Ok m => Ok (match entries with [] => None | _ => Some m end)
           end
  | _ => Throw (invalid (at_ ++ ".attributes must be an object of strings"))
  end.

Definition isNone {A} (o : option A) : bool := match o with None => true | Some _ => false end.

Definition normalizeRule (value : jsval) (index : nat) : outcome ApiKeyResourceRule :=
  let at_ := "restrictions.resources[" ++ num (Z.of_nat index) ++ "]" in
  match value with
  | JObj rule =>
      match unknownKey ["type"; "id"; "attributes"] rule with
      | Some key => Throw (invalid (at_ ++ "." ++ key ++ " is not supported"))
      | None =>
          match ruleType at_ (getField rule "type") with
          | Throw e => Throw e
          | Ok type =>
              match ruleId at_ (getField rule "id") with
              | Throw e => Throw e
              | Ok id =>
                  match ruleAttributes at_ (getField rule "attributes") with
                  | Throw e => Throw e
                  | Ok attributes =>
                      if isNone type && isNone id && isNone attributes
                      then Throw (invalid (at_ ++ " must set at least one of type, id, or attributes"))
                      else Ok (mkRule type id attributes)
                  end
              end
          end
      end
  | _ => Throw (invalid (at_ ++ " must be an object"))
  end.

Fixpoint normalizeRules (index : nat) (values : list jsval) : outcome (list ApiKeyResourceRule) :=
  match values with
  | [] => Ok []
  | v :: r =>
      match normalizeRule v index with
      | Throw e => Throw e
      | Ok rule => match normalizeRules (S index) r with
                   | Throw e => Throw e
                   | Ok rules => Ok (rule :: rules)
                   end
      end
  end.

Fixpoint checkCapabilities (values : list jsval) : outcome (list string) :=
  match values with
  | [] => Ok []
  | v :: r =>
      match v with
      | JStr name =>
          if isInvocable name then
            match checkCapabilities r with Ok names => Ok (name :: names) | Throw e => Throw e end
          else Throw (invalid ("restrictions.capabilities: " ++ quoted name ++ " is not an invocable capability in the service manifest"))
      | _ => Throw (invalid ("restrictions.capabilities: " ++ quoted (stringOfValue v) ++ " is not an invocable capability in the service manifest"))
      end
  end.

Definition normalizeRestrictions (value : jsval) : outcome ApiKeyRestrictions :=
  match value with
  | JObj input =>
      match unknownKey ["capabilities"; "resources"] input with
      | Some key => Throw (invalid ("restrictions." ++ key ++ " is not supported"))
      | None =>
          match getField input "capabilities" with
          | JArr names =>
              if Nat.ltb MAX_CAPABILITIES (length names) then
                Throw (invalid "restrictions.capabilities allows at most 64 entries")
              else match checkCapabilities names with
              | Throw e => Throw e
              | Ok names =>
                  let capabilities := sortBy String.leb (dedupe [] names) in
                  match getField input "resources" with
                  | JUndef => Ok (mkRestrictions capabilities None)
                  | JArr rules =>
                      if Nat.ltb MAX_RESOURCE_RULES (length rules) then
                        Throw (invalid "restrictions.resources allows at most 64 rules")
                      else match normalizeRules 0 rules with
                           | Throw e => Throw e
                           | Ok resources => Ok (mkRestrictions capabilities (Some resources))
                           end
                  | _ => Throw (invalid "restrictions.resources must be an array of resource rules")
                  end
              end
          | _ => Throw (invalid "restrictions.capabilities must be an array of capability names")
          end
      end
  | _ => Throw (invalid "restrictions must be an object")
  end.
End normalize.

(** ** Permitting *)

(** Every entry of [outer] is in [inner]. *)
Definition attributesWithin (outer : option (gmap string string)) (inner : option (gmap string string)) : bool :=
  forallb (fun kv => oeqb (match inner with Some m => m !! kv.1 | None => None end) (Some kv.2))
    (map_to_list (orElse outer ∅)).

Definition fieldMatches (rule value : option string) : bool :=
  match rule with Some _ => oeqb rule value | None => true end.

Definition ruleMatches (rule : ApiKeyResourceRule) (resource : ServiceResource) : bool :=
  fieldMatches (rl_type rule) (Some (r_type resource)) && fieldMatches (rl_id rule) (r_id resource)
  && attributesWithin (rl_attributes rule) (r_attributes resource).

(** [l.includes(x)] *)
Definition includesText (l : list string) (x : string) : bool := existsb (String.eqb x) l.

Definition restrictionsPermit (restrictions : option ApiKeyRestrictions) (capability : string)
  (resource : ServiceResource) : bool :=
  match restrictions with
  | None => true
  | Some r => includesText (rs_capabilities r) capability &&
      match rs_resources r with
      | None => true
      | Some rules => existsb (fun rule => ruleMatches rule resource) rules
      end
  end.

Definition ruleNarrows (inner outer : ApiKeyResourceRule) : bool :=
  fieldMatches (rl_type outer) (rl_type inner) && fieldMatches (rl_id outer) (rl_id inner)
  && attributesWithin (rl_attributes outer) (rl_attributes inner).

Definition restrictionsWithin (child parent : option ApiKeyRestrictions) : bool :=
  match parent, child with
  | None, _ => true
  | Some _, None => false
  | Some p, Some c =>
      forallb (includesText (rs_capabilities p)) (rs_capabilities c) &&
      match rs_resources p, rs_resources c with
      | None, _ => true
      | Some _, None => false
      | Some outer, Some inner => forallb (fun rule => existsb (ruleNarrows rule) outer) inner
      end
  end.

(** ** What they guarantee *)

Lemma attributesWithin_spec outer inner :
  attributesWithin outer inner = true <->
  forall k v, orElse outer ∅ !! k = Some v -> match inner with Some m => m !! k | None => None end = Some v.
Proof.
  unfold attributesWithin. rewrite forallb_forall. split.
  - intros Hall k v Hk. apply elem_of_map_to_list in Hk.
    specialize (Hall (k, v) (proj1 (list_elem_of_In _ _) Hk)). now apply oeqb_true in Hall.
  - intros Hall [k v] Hin. apply oeqb_true, Hall, elem_of_map_to_list, list_elem_of_In, Hin.
Qed.

Lemma fieldMatches_spec rule value :
  fieldMatches rule value = true <-> forall x, rule = Some x -> value = Some x.
Proof.
  unfold fieldMatches. destruct rule as [x|]; [|split; [discriminate | reflexivity]].
  rewrite oeqb_true. split; [intros <- y; auto | intros Hx; symmetry; auto].
Qed.

Lemma includesText_spec l x : includesText l x = true <-> In x l.
Proof.
  unfold includesText. rewrite existsb_exists. split.
  - intros (y & Hy & E). apply String.eqb_eq in E as ->. exact Hy.
  - intros Hx. exists x. split; [exact Hx | apply String.eqb_refl].
Qed.

Lemma ruleNarrows_sound inner outer resource :
  ruleNarrows inner outer = true -> ruleMatches inner resource = true -> ruleMatches outer resource = true.
Proof.
  unfold ruleNarrows, ruleMatches. rewrite !andb_true_iff, !fieldMatches_spec, !attributesWithin_spec.
  intros ((Ht & Hi) & Ha) ((Ht' & Hi') & Ha'). repeat split; [auto | auto|].
  intros k v Hk. specialize (Ha k v Hk). apply Ha'. destruct (rl_attributes inner); [exact Ha | discriminate].
Qed.

Lemma ruleNarrows_trans a b c : ruleNarrows a b = true -> ruleNarrows b c = true -> ruleNarrows a c = true.
Proof.
  unfold ruleNarrows. rewrite !andb_true_iff, !fieldMatches_spec, !attributesWithin_spec.
  intros ((Ht & Hi) & Ha) ((Ht' & Hi') & Ha'). repeat split; [auto | auto|].
  intros k v Hk. specialize (Ha' k v Hk). apply Ha. destruct (rl_attributes b); [exact Ha' | discriminate].
Qed.

Lemma ruleNarrows_refl a : ruleNarrows a a = true.
Proof.
  unfold ruleNarrows. rewrite !andb_true_iff, !fieldMatches_spec, !attributesWithin_spec.
  repeat split; auto. intros k v. destruct (rl_attributes a); cbn; [auto | now rewrite lookup_empty].
Qed.

#[global] Instance restrictionsWithin_preorder : PreOrder (fun a b => restrictionsWithin a b = true).
Proof.
  split.
  - intros [r|]; [|reflexivity]. cbn. apply andb_true_iff. split.
    + apply forallb_forall. intros x Hx. now apply includesText_spec.
    + destruct (rs_resources r) as [rules|]; [|reflexivity]. apply forallb_forall. intros x Hx.
      apply existsb_exists. exists x. split; [exact Hx | apply ruleNarrows_refl].
  - intros [a|] [b|] [c|]; cbn; try congruence.
    rewrite !andb_true_iff, !forallb_forall. intros [H1 H2] [H3 H4]. split.
    + intros x Hx. now apply H3, includesText_spec, H1.
    + destruct (rs_resources c) as [rc|]; [|reflexivity]. destruct (rs_resources b) as [rb|]; [|discriminate].
      destruct (rs_resources a) as [ra|]; [|discriminate]. rewrite forallb_forall in *.
      intros x Hx. apply existsb_exists. specialize (H2 x Hx). apply existsb_exists in H2 as (y & Hy & Hxy).
      specialize (H4 y Hy). apply existsb_exists in H4 as (z & Hz & Hyz).
      exists z. split; [exact Hz | eapply ruleNarrows_trans; eassumption].
Qed.

(** A key within another key's ceiling permits nothing the other does not. *)
Lemma restrictionsWithin_sound child parent capability resource :
  restrictionsWithin child parent = true -> restrictionsPermit child capability resource = true ->
  restrictionsPermit parent capability resource = true.
Proof.
  destruct parent as [p|]; [|reflexivity]. destruct child as [c|]; [|discriminate].
  cbn. rewrite !andb_true_iff, forallb_forall. intros [Hc Hr] [Hcap Hres].
  split; [apply Hc, includesText_spec, Hcap|].
  destruct (rs_resources p) as [outer|]; [|reflexivity]. destruct (rs_resources c) as [inner|]; [|discriminate].
  apply existsb_exists in Hres as (rule & Hin & Hm). rewrite forallb_forall in Hr.
  specialize (Hr rule Hin). apply existsb_exists in Hr as (o & Ho & Hn).
  apply existsb_exists. exists o. split; [exact Ho | eapply ruleNarrows_sound; eassumption].
Qed.

(** ** Normalizing keeps the meaning *)

Lemma text_ok v p s : text v p = Ok s -> v = JStr s /\ s <> "" /\ (String.length s <= MAX_TEXT)%nat.
Proof.
  unfold text. destruct v; try discriminate. destruct (blank s0 || _) eqn:E; [discriminate|]. intros [= ->].
  apply orb_false_elim in E as [Eb El]. apply Nat.ltb_ge in El.
  split; [reflexivity|]. split; [now apply blank_nonempty | exact El].
Qed.

Lemma collectAttributes_ok at_ entries acc m :
  collectAttributes at_ entries acc = Ok m -> NoDup (map fst entries) -> "__proto__" ∉ map fst entries ->
  (forall k, k ∈ map fst entries -> acc !! k = None) ->
  (forall k v, (k, v) ∈ entries -> exists s, v = JStr s) /\
  forall k s, m !! k = Some s <-> acc !! k = Some s \/ (k, JStr s) ∈ entries.
Proof.
  revert acc. induction entries as [|[key value] rest IH]; intros acc; cbn [collectAttributes map fst].
  - intros [= ->] _ _ _. split; [intros k v Hin; now apply not_elem_of_nil in Hin|].
    intros k s. split; [auto | intros [Hk|Hin]; [exact Hk | now apply not_elem_of_nil in Hin]].
  - destruct (text (JStr key) _) as [k0|] eqn:Ek; [|discriminate]. apply text_ok in Ek as ([= <-] & _).
    destruct (text value _) as [v|] eqn:Ev; [|discriminate]. apply text_ok in Ev as (-> & _).
    intros Hc Hd Hp Hacc. apply NoDup_cons in Hd as [Hn Hd].
    apply not_elem_of_cons in Hp as [Hpk Hp].
    destruct (String.eqb_spec key "__proto__") as [->|_]; [contradiction|].
    specialize (IH _ Hc Hd Hp). destruct IH as [IH1 IH2].
    { intros k Hk. rewrite lookup_insert_ne by (intros ->; contradiction). apply Hacc. now right. }
    split; [intros k w [[= -> ->]|Hin]%elem_of_cons; eauto|].
    intros k s. rewrite IH2, lookup_insert_Some, elem_of_cons. split.
    + intros [[[-> ->]|[Hne Hk]]|Hin]; auto.
    + intros [Hk|[[= -> ->]|Hin]]; [|auto|auto]. left. right. split; [|exact Hk].
      intros ->. rewrite Hacc in Hk by now left. discriminate Hk.
Qed.

(** The attributes of an object given by its own properties: none is called
    [__proto__], no two have one name. *)
Definition plainAttributes (v : jsval) : Prop :=
  forall entries, v = JObj entries -> NoDup (map fst entries) /\ "__proto__" ∉ map fst entries.

(** The resource has the value the rule's field asks for. *)
Definition asks (v : jsval) (value : option string) : Prop := v = JUndef \/ exists s, v = JStr s /\ value = Some s.

(** What an untyped rule says about a resource. *)
Definition rawMatches (rule : jsval) (resource : ServiceResource) : Prop :=
  exists f, rule = JObj f /\ asks (getField f "type") (Some (r_type resource)) /\
    asks (getField f "id") (r_id resource) /\
    (getField f "attributes" = JUndef \/ exists entries, getField f "attributes" = JObj entries /\
       forall k v, (k, v) ∈ entries -> exists s, v = JStr s /\
         match r_attributes resource with Some m => m !! k | None => None end = Some s).

(** What untyped restrictions say about a request. *)
Definition rawPermits (value : jsval) (capability : string) (resource : ServiceResource) : Prop :=
  exists input names, value = JObj input /\ getField input "capabilities" = JArr names /\ In (JStr capability) names /\
    (getField input "resources" = JUndef \/ exists rules, getField input "resources" = JArr rules /\
       exists rule, In rule rules /\ rawMatches rule resource).

Section meaning.
Variable localeLe : string -> string -> bool.
Variable stringOfValue : jsval -> string.

Lemma ruleAttributes_ok at_ v o inner :
  ruleAttributes localeLe at_ v = Ok o -> plainAttributes v ->
  (attributesWithin o inner = true <->
   v = JUndef \/ exists entries, v = JObj entries /\ forall k w, (k, w) ∈ entries -> exists s, w = JStr s /\
     match inner with Some m => m !! k | None => None end = Some s).
Proof.
  unfold ruleAttributes. destruct v; try discriminate.
  - intros [= <-] _. rewrite attributesWithin_spec. split; [now left|]. intros _ k s. cbn. now rewrite lookup_empty.
  - destruct (Nat.ltb _ _); [discriminate|]. destruct (collectAttributes _ _ _) as [m|] eqn:E; [|discriminate].
    intros [= <-] Hpl. destruct (Hpl fields eq_refl) as [Hd Hp].
    assert (map fst (sortBy (fun a b => localeLe a.1 b.1) fields) ≡ₚ map fst fields) as Hperm
      by (apply Permutation_map, sortBy_perm).
    apply collectAttributes_ok in E as [Hs Hm]; [|now rewrite Hperm | now rewrite Hperm | intros; apply lookup_empty].
    assert (forall k s, (match fields with [] => None | _ => Some m end : option _) = Some m ->
      (orElse (Some m) ∅ !! k = Some s <-> (k, JStr s) ∈ fields)) as Hm'.
    { intros k s _. cbn. rewrite Hm, sortBy_perm, lookup_empty. split; [intros [Hk|]; [discriminate Hk | auto] | auto]. }
    clear Hm. rewrite attributesWithin_spec. split.
    + intros Hall. right. exists fields. split; [reflexivity|]. intros k w Hin.
      destruct (Hs k w) as [s ->]; [now rewrite sortBy_perm|]. exists s. split; [reflexivity|].
      destruct fields as [|f fs]; [now apply not_elem_of_nil in Hin|]. apply Hall, Hm'; auto.
    + intros [Hu|(entries & [= <-] & Hall)] k s Hk; [discriminate Hu|].
      destruct fields as [|f fs]; [cbn in Hk; now rewrite lookup_empty in Hk|].
      apply Hm' in Hk; [|reflexivity]. destruct (Hall k _ Hk) as (s' & [= <-] & Hi). exact Hi.
Qed.

Lemma ruleField_ok v o value :
  (v = JUndef /\ o = None) \/ (exists s, v = JStr s /\ o = Some s) -> (fieldMatches o value = true <-> asks v value).
Proof.
  rewrite fieldMatches_spec. intros [[-> ->]|(s & -> & ->)]; unfold asks.
  - split; [now left | discriminate].
  - split; [intros Hs; right; exists s; auto | intros [Hu|(s' & [= <-] & ->)] x [= <-]; [discriminate Hu | reflexivity]].
Qed.

Definition plainRule (v : jsval) : Prop := forall f, v = JObj f -> plainAttributes (getField f "attributes").

Lemma normalizeRule_ok v i rule resource :
  normalizeRule localeLe stringOfValue v i = Ok rule -> plainRule v ->
  (ruleMatches rule resource = true <-> rawMatches v resource).
Proof.
  unfold normalizeRule. destruct v; try discriminate. destruct (unknownKey _ _); [discriminate|].
  destruct (ruleType _ _ _) as [ty|] eqn:Et; [|discriminate].
  destruct (ruleId _ _) as [rid|] eqn:Ei; [|discriminate].
  destruct (ruleAttributes _ _ _) as [at_|] eqn:Ea; [|discriminate].
  destruct (_ && _); [discriminate|]. intros [= <-] Hpl.
  unfold ruleMatches. cbn [rl_type rl_id rl_attributes].
  rewrite !andb_true_iff, (ruleAttributes_ok _ _ _ (r_attributes resource) Ea (Hpl fields eq_refl)).
  rewrite (ruleField_ok (getField fields "type") ty), (ruleField_ok (getField fields "id") rid).
  - unfold rawMatches. split.
    + intros [[H1 H2] H3]. exists fields. auto.
    + intros (f & [= <-] & H1 & H2 & H3). auto.
  - unfold ruleId in Ei. destruct (getField fields "id"); try (injection Ei as <-; auto); cbn in Ei; try discriminate Ei.
    destruct (blank s || _); [discriminate|]. injection Ei as <-. eauto.
  - unfold ruleType in Et. destruct (getField fields "type"); try discriminate Et; try (injection Et as <-; auto).
    destruct (isResourceType s); [|discriminate]. injection Et as <-. eauto.
Qed.

Lemma normalizeRules_ok values : forall i rules resource,
  normalizeRules localeLe stringOfValue i values = Ok rules -> (forall v, In v values -> plainRule v) ->
  (existsb (fun rule => ruleMatches rule resource) rules = true <-> exists v, In v values /\ rawMatches v resource).
Proof.
  induction values as [|v r IH]; intros i rules resource; cbn.
  - intros [= <-] _. split; [discriminate | intros (v & [] & _)].
  - destruct (normalizeRule _ _ v i) as [rule|] eqn:E; [|discriminate].
    destruct (normalizeRules _ _ (S i) r) as [rules'|] eqn:Er; [|discriminate]. intros [= <-] Hpl.
    cbn. rewrite orb_true_iff, (normalizeRule_ok _ _ _ resource E) by (apply Hpl; now left).
    rewrite (IH _ _ resource Er) by (intros w Hw; apply Hpl; now right).
    split.
    + intros [Hv|(w & Hw & Hm)]; eauto.
    + intros (w & [<-|Hw] & Hm); [now left | right; eauto].
Qed.

Lemma checkCapabilities_ok values names :
  checkCapabilities stringOfValue values = Ok names ->
  values = map JStr names /\ Forall (fun n => isInvocable n = true) names.
Proof.
  revert names. induction values as [|v r IH]; intros names; cbn [checkCapabilities map]; [intros [= <-]; auto|].
  destruct v; try discriminate. destruct (isInvocable s) eqn:E; [|discriminate].
  destruct (checkCapabilities _ r) as [ns|]; [|discriminate]. intros [= <-].
  destruct (IH ns eq_refl) as [-> Hf]. auto.
Qed.

Lemma dedupe_in seen l x : In x (dedupe seen l) <-> In x l /\ ~ In x seen.
Proof.
  revert seen. induction l as [|y r IH]; intros seen; cbn; [tauto|].
  destruct (existsb (String.eqb y) seen) eqn:E.
  - apply includesText_spec in E. rewrite IH. split; [tauto|]. intros [[->|Hx] Hn]; [contradiction | auto].
  - assert (~ In y seen) as Hy by (intros Hi; apply includesText_spec in Hi; unfold includesText in Hi; congruence).
    cbn. rewrite IH. cbn. split.
    + intros [->|[Hx Hn]]; [auto | tauto].
    + intros [[->|Hx] Hn]; [auto|]. destruct (String.eqb_spec y x) as [->|Hne]; [auto|].
      right. split; [exact Hx|]. intros [->|Hi]; [contradiction | auto].
Qed.

Lemma dedupe_nodup seen l : NoDup (dedupe seen l).
Proof.
  revert seen. induction l as [|y r IH]; intros seen; cbn; [constructor|].
  destruct (existsb _ seen); [apply IH|]. constructor; [|apply IH].
  rewrite list_elem_of_In, dedupe_in. cbn. tauto.
Qed.

(** The rules of an input with plain attribute names. *)
Definition plainRestrictions (value : jsval) : Prop :=
  forall input rules rule, value = JObj input -> getField input "resources" = JArr rules -> In rule rules -> plainRule rule.

Lemma normalizeRestrictions_ok value r capability resource :
  normalizeRestrictions localeLe stringOfValue value = Ok r -> plainRestrictions value ->
  (restrictionsPermit (Some r) capability resource = true <-> rawPermits value capability resource) /\
  NoDup (rs_capabilities r) /\ Forall (fun n => isInvocable n = true) (rs_capabilities r).
Proof.
  unfold normalizeRestrictions. destruct value; try discriminate.
  destruct (unknownKey _ _); [discriminate|].
  destruct (getField fields "capabilities") as [| | | | | |names| |] eqn:Ec; try discriminate.
  destruct (Nat.ltb _ _); [discriminate|].
  destruct (checkCapabilities _ names) as [ns|] eqn:En; [|discriminate].
  apply checkCapabilities_ok in En as [-> Hinv]. set (caps := sortBy String.leb (dedupe [] ns)).
  assert (forall c, includesText caps c = true <-> In (JStr c) (map JStr ns)) as Hcaps.
  { intros c. rewrite includesText_spec. unfold caps. rewrite <- list_elem_of_In, sortBy_perm, list_elem_of_In.
    rewrite dedupe_in, in_map_iff. split; [intros [Hc _]; eauto | intros (x & [= ->] & Hx); auto]. }
  assert (NoDup caps /\ Forall (fun n => isInvocable n = true) caps) as [Hnd Hall].
  { split; [unfold caps; rewrite sortBy_perm; apply dedupe_nodup|].
    apply Forall_forall. intros x Hx. unfold caps in Hx. rewrite sortBy_perm, list_elem_of_In, dedupe_in in Hx.
    destruct Hx as [Hx _]. rewrite Forall_forall in Hinv. apply Hinv, list_elem_of_In, Hx. }
  intros E Hpl.
  destruct (getField fields "resources") as [| | | | | |rules| |] eqn:Er; try discriminate.
  - injection E as <-. cbn [restrictionsPermit rs_capabilities rs_resources]. split; [|auto]. rewrite andb_true_r, Hcaps. split.
    + intros Hc. exists fields, (map JStr ns). auto.
    + intros (f & ns' & [= <-] & Hns & Hin & _). rewrite Ec in Hns. injection Hns as <-. exact Hin.
  - destruct (Nat.ltb _ (length rules)); [discriminate|].
    destruct (normalizeRules _ _ 0 rules) as [rs|] eqn:En; [|discriminate]. injection E as <-.
    cbn [restrictionsPermit rs_capabilities rs_resources]. split; [|auto]. rewrite andb_true_iff, Hcaps.
    rewrite (normalizeRules_ok _ _ _ resource En) by (intros v Hv; eapply Hpl; eauto). split.
    + intros [Hc Hx]. exists fields, (map JStr ns). split; [reflexivity|]. split; [exact Ec|]. split; [exact Hc|].
      right. eauto.
    + intros (f & ns' & [= <-] & Hns & Hin & Hres). rewrite Ec in Hns. injection Hns as <-. split; [exact Hin|].
      destruct Hres as [Hu|(rules' & Hr & Hx)]; [congruence|]. rewrite Er in Hr. injection Hr as <-. exact Hx.
Qed.
End meaning.
