(* ===== verification/Destination.v ===== *)
(** * Destination: where a webhook may be sent ([authority/destination.ts])

    Addresses are read as Node's [isIP] and [BlockList] read them: a dotted
    quad without leading zeros, or an IPv6 text of at most eight groups with
    one [::] and perhaps a dotted tail and a zone.  An IPv4-mapped address is
    also checked against the IPv4 ranges, as [BlockList.check] does.  The URL
    parser and DNS are parameters. *)

From S2P Require Import Prelude JsString Errors Models Store.
From Stdlib Require Import ZArith Lia Ascii.
Local Open Scope string_scope.
Local Open Scope Z_scope.

(** ** Reading addresses *)

Definition allDigits (s : string) : bool := truthy s && all isDigit s.

(** A decimal octet: 0..255, no leading zero. *)
Definition octet (s : string) : option Z :=
  if allDigits s && Nat.leb (String.length s) 3 && (String.eqb s "0" || negb (startsWith s "0"))
     && (digitsValue 0 s <=? 255)
  then Some (digitsValue 0 s) else None.

(** A dotted quad, as a 32-bit number. *)
Definition ipv4 (s : string) : option Z :=
  match splitOn "." s with
  | [a; b; c; d] =>
      match octet a, octet b, octet c, octet d with
      | Some a, Some b, Some c, Some d => Some (((a * 256 + b) * 256 + c) * 256 + d)
      | _, _, _, _ => None
      end
  | _ => None
  end.

Definition hexDigitVal (c : ascii) : option Z :=
  if isDigit c then Some (digitVal c)
  else if codeIn 97 102 c then Some (Z.of_nat (code c) - 87)
  else if codeIn 65 70 c then Some (Z.of_nat (code c) - 55)
  else None.

Fixpoint hexValue (acc : Z) (s : string) : option Z :=
  match s with
  | EmptyString => Some acc
  | String c r => match hexDigitVal c with Some d => hexValue (acc * 16 + d) r | None => None end
  end.

(** One to four hexadecimal digits. *)
Definition group (s : string) : option Z :=
  if truthy s && Nat.leb (String.length s) 4 then hexValue 0 s else None.

(** Colon-separated groups; the last may be a dotted quad where that is allowed. *)
Fixpoint groups (l : list string) (dotted : bool) : option (list Z) :=
  match l with
  | [] => Some []
  | [x] =>
      match group x with
      | Some g => Some [g]
      | None => if dotted then match ipv4 x with Some n => Some [n / 65536; n mod 65536] | None => None end else None
      end
  | x :: r =>
      match group x, groups r dotted with Some g, Some gs => Some (g :: gs) | _, _ => None end
  end.

Definition side (s : string) (dotted : bool) : option (list Z) :=
  if truthy s then groups (splitOn ":" s) dotted else Some [].

(** The text before the first [::], and the text after it. *)
Fixpoint cutDouble (s : string) : option (string * string) :=
  match s with
  | String ":" (String ":" r) => Some (EmptyString, r)
  | String c r => match cutDouble r with Some (a, b) => Some (String c a, b) | None => None end
  | EmptyString => None
  end.

Definition ofGroups (l : list Z) : Z := fold_left (fun n g => n * 65536 + g) l 0.

(** The text before [%] when a zone follows it. *)
Definition withoutZone (s : string) : option string :=
  match splitOn "%" s with
  | [a] => Some a
  | [a; z] => if truthy z && all (fun c => isAlnum c || Ascii.eqb c "-" || Ascii.eqb c "." || Ascii.eqb c ":") z
              then Some a else None
  | _ => None
  end.

(** An IPv6 text, as a 128-bit number. *)
Definition ipv6 (s : string) : option Z :=
  match withoutZone s with
  | None => None
  | Some s =>
      match cutDouble s with
      | None => match groups (splitOn ":" s) true with
                | Some gs => if Nat.eqb (length gs) 8 then Some (ofGroups gs) else None
                | None => None
                end
      | Some (a, b) =>
          match side a false, side b true with
          | Some gs, Some hs =>
              if Nat.leb (length gs + length hs) 7
              then Some (ofGroups (gs ++ replicate (8 - length gs - length hs) 0 ++ hs)%list) else None
          | _, _ => None
          end
      end
  end.

(** [isIP(address)]: 4, 6 or 0. *)
Definition isIP (s : string) : Z :=
  match ipv4 s with Some _ => 4 | None => match ipv6 s with Some _ => 6 | None => 0 end end.

(** ** The block list *)

Definition BLOCKED_HOSTNAMES : list string :=
  ["localhost"; "metadata"; "metadata.google.internal"; "metadata.goog"; "instance-data"; "instance-data.ec2.internal"].

(** Network and prefix length. *)
Definition blocked4 : list (string * Z) :=
  [ ("0.0.0.0", 8); ("10.0.0.0", 8); ("100.64.0.0", 10); ("127.0.0.0", 8); ("169.254.0.0", 16); ("172.16.0.0", 12);
    ("192.0.0.0", 24); ("192.0.2.0", 24); ("192.88.99.0", 24); ("192.168.0.0", 16); ("198.18.0.0", 15);
    ("198.51.100.0", 24); ("203.0.113.0", 24); ("224.0.0.0", 4); ("240.0.0.0", 4) ].

Definition blocked6 : list (string * Z) :=
  [ ("::", 128); ("::1", 128); ("100::", 64); ("2001:db8::", 32); ("fc00::", 7); ("fe80::", 10); ("fec0::", 10); ("ff00::", 8) ].

(** [n] is in the network: they agree on the first [prefix] of [width] bits. *)
Definition inSubnet (width n network prefix : Z) : bool :=
  Z.shiftr n (width - prefix) =? Z.shiftr network (width - prefix).

Definition check4 (n : Z) : bool :=
  existsb (fun r => match ipv4 r.1 with Some net => inSubnet 32 n net r.2 | None => false end) blocked4.

(** [::ffff:a.b.c.d] *)
Definition mapped (n : Z) : bool := Z.shiftr n 32 =? 65535.

Definition check6 (n : Z) : bool :=
  existsb (fun r => match ipv6 r.1 with Some net => inSubnet 128 n net r.2 | None => false end) blocked6
  || (mapped n && check4 (n mod 2 ^ 32)).

(** ** Forbidden addresses *)

Fixpoint stripFirst (prefixes : list string) (ok : string -> bool) (s : string) : option string :=
  match prefixes with
  | [] => None
  | p :: r => if startsWith s p && ok (sliceFrom (String.length p) s) then Some (sliceFrom (String.length p) s)
              else stripFirst r ok s
  end.

(** [\d+\.\d+\.\d+\.\d+] *)
Definition isDotted (s : string) : bool :=
  match splitOn "." s with [a; b; c; d] => allDigits a && allDigits b && allDigits c && allDigits d | _ => false end.

Definition isHexLowerDigit (c : ascii) : bool := isDigit c || codeIn 97 102 c.

(** [[0-9a-f]{1,4}:[0-9a-f]{1,4}] *)
Definition isHexPair (s : string) : bool :=
  match splitOn ":" s with
  | [a; b] => forallb (fun x => truthy x && Nat.leb (String.length x) 4 && all isHexLowerDigit x) [a; b]
  | _ => false
  end.

Definition embeddedIpv4 (address : string) : option string :=
  match stripFirst ["::ffff:"; "::"; "64:ff9b::"] isDotted address with
  | Some dotted => Some dotted
  | None =>
      match stripFirst ["::ffff:"; "64:ff9b::"] isHexPair address with
      | Some hex =>
          match splitOn ":" hex with
          | [h; l] =>
              match hexValue 0 h, hexValue 0 l with
              | Some high, Some low =>
                  Some (num (Z.shiftr high 8) ++ "." ++ num (Z.land high 255) ++ "." ++
                        num (Z.shiftr low 8) ++ "." ++ num (Z.land low 255))
              | _, _ => None
              end
          | _ => None
          end
      | None => None
      end
  end.

(** The recursive call of [isForbiddenAddress] is on a dotted text. *)
Definition forbidden4 (address : string) : bool :=
  match ipv4 address with Some n => check4 n | None => true end.

Definition isForbiddenAddress (address : string) : bool :=
  match ipv4 address with
  | Some n => check4 n
  | None =>
      match ipv6 address with
      | None => true
      | Some _ =>
          let lower := toLowerCase address in
          match embeddedIpv4 lower with
          | Some embedded => forbidden4 embedded
          | None => match ipv6 lower with Some n => check6 n | None => true end
          end
      end
  end.

(** ** Validating a destination *)

(** What the program reads of a parsed [URL]. *)
Record URL := mkURL {
  u_protocol : string;
  u_username : string;
  u_password : string;
  u_hostname : string;
  u_origin : string;
  u_href : string }.

Record ResolvedAddress := mkAddress { ad_address : string; ad_family : Z }.

Record ValidatedDestination := mkDestination { de_url : URL; de_address : ResolvedAddress }.

Definition forbidden (message : string) : exn :=
  ServiceAuthorityError INVALID_REQUEST message (reasonOnly "destination_forbidden").

(** [s.replace(/^\[|\]$/g, '')] *)
Definition unbracket (s : string) : string :=
  let s := match s with String "[" r => r | _ => s end in
  match splitLast s with Some (p, "]"%char) => p | _ => s end.

(** [s.replace(/\.$/, '')] *)
Definition dropDot (s : string) : string :=
  match splitLast s with Some (p, "."%char) => p | _ => s end.

(** [s.endsWith(x)] *)
Definition endsWith (s x : string) : bool :=
  Nat.leb (String.length x) (String.length s) &&
  String.eqb (sliceFrom (String.length s - String.length x) s) x.

Section destination.
Context {DB : Type}.
(** [new URL(rawUrl)], [None] where it throws. *)
Variable parseUrl : string -> option URL.
(** [policy.lookup], or the system's resolver. *)
Variable lookup : string -> M DB (list ResolvedAddress).
(** [policy.allowPrivateNetworks] *)
Variable allowPrivateNetworks : bool.

Definition hostOf (url : URL) : string := dropDot (toLowerCase (unbracket (u_hostname url))).

Definition resolve (hostname : string) : M DB (list ResolvedAddress) :=
  tryCatch (lookup hostname) (fun _ => throw (forbidden "Webhook destination did not resolve")).

Definition blockedName (hostname : string) : bool :=
  existsb (String.eqb hostname) BLOCKED_HOSTNAMES || endsWith hostname ".localhost" || endsWith hostname ".internal".

Definition validateDestination (rawUrl : string) : M DB ValidatedDestination :=
  match parseUrl rawUrl with
  | None => throw (forbidden "Webhook destination is not a valid URL")
  | Some url =>
      if negb (String.eqb (u_protocol url) "https:") && negb (String.eqb (u_protocol url) "http:") then
        throw (forbidden "Webhook destination must use http or https")
      else if truthy (u_username url) || truthy (u_password url) then
        throw (forbidden "Webhook destination must not embed credentials")
      else
        let hostname := hostOf url in
        if negb (truthy hostname) then throw (forbidden "Webhook destination host is required")
        else if negb allowPrivateNetworks && blockedName hostname then
          throw (forbidden "Webhook destination host is not permitted")
        else
          addresses ← (if isIP hostname =? 0 then resolve hostname
                       else mret [mkAddress hostname (isIP hostname)]);
          match addresses with
          | [] => throw (forbidden "Webhook destination did not resolve")
          | first :: _ =>
              if negb allowPrivateNetworks && existsb (fun a => isForbiddenAddress (ad_address a)) addresses then
                throw (forbidden "Webhook destination resolves to a private, loopback, link-local, or metadata address")
              else mret (mkDestination url first)
          end
  end.
End destination.

Example isIP_texts : map isIP ["10.0.0.1"; "010.0.0.1"; "::1"; "1:2:3:4:5:6:7:8"; "::ffff:1.2.3.4"; "1::2::3"; "fe80::1%eth0"; "x"]
  = [4; 0; 6; 6; 6; 0; 6; 0].
Proof. vm_compute. reflexivity. Qed.

Example forbidden_texts : map isForbiddenAddress
  ["10.0.0.1"; "8.8.8.8"; "::FFFF:10.0.0.1"; "::ffff:a00:1"; "64:ff9b::7f00:1"; "::1"; "2606:4700::1111"; "fd00::1"; "0:0:0:0:0:ffff:a00:1"; "::8.8.8.8"]
  = [true; false; true; true; true; true; false; true; true; false].
Proof. vm_compute. reflexivity. Qed.

(** ** What it guarantees *)

(** First and last addresses [(lo, hi)], [hi] excluded, of the IPv4 ranges no
    public host has. *)
Definition ranges4 : list (Z * Z) :=
  [ (0, 2 ^ 24); (10 * 2 ^ 24, 11 * 2 ^ 24); (100 * 2 ^ 24 + 64 * 2 ^ 16, 100 * 2 ^ 24 + 128 * 2 ^ 16);
    (127 * 2 ^ 24, 128 * 2 ^ 24); (169 * 2 ^ 24 + 254 * 2 ^ 16, 169 * 2 ^ 24 + 255 * 2 ^ 16);
    (172 * 2 ^ 24 + 16 * 2 ^ 16, 172 * 2 ^ 24 + 32 * 2 ^ 16); (192 * 2 ^ 24, 192 * 2 ^ 24 + 2 ^ 8);
    (192 * 2 ^ 24 + 2 * 2 ^ 8, 192 * 2 ^ 24 + 3 * 2 ^ 8);
    (192 * 2 ^ 24 + 88 * 2 ^ 16 + 99 * 2 ^ 8, 192 * 2 ^ 24 + 88 * 2 ^ 16 + 100 * 2 ^ 8);
    (192 * 2 ^ 24 + 168 * 2 ^ 16, 192 * 2 ^ 24 + 169 * 2 ^ 16); (198 * 2 ^ 24 + 18 * 2 ^ 16, 198 * 2 ^ 24 + 20 * 2 ^ 16);
    (198 * 2 ^ 24 + 51 * 2 ^ 16 + 100 * 2 ^ 8, 198 * 2 ^ 24 + 51 * 2 ^ 16 + 101 * 2 ^ 8);
    (203 * 2 ^ 24 + 113 * 2 ^ 8, 203 * 2 ^ 24 + 114 * 2 ^ 8); (224 * 2 ^ 24, 240 * 2 ^ 24); (240 * 2 ^ 24, 256 * 2 ^ 24) ].

(** The same of IPv6: unspecified, loopback, discard-only, documentation,
    unique local, link-local, site-local and multicast. *)
Definition ranges6 : list (Z * Z) :=
  [ (0, 1); (1, 2); (256 * 2 ^ 112, 256 * 2 ^ 112 + 2 ^ 64);
    (8193 * 2 ^ 112 + 3512 * 2 ^ 96, 8193 * 2 ^ 112 + 3513 * 2 ^ 96); (64512 * 2 ^ 112, 65024 * 2 ^ 112);
    (65152 * 2 ^ 112, 65216 * 2 ^ 112); (65216 * 2 ^ 112, 65280 * 2 ^ 112); (65280 * 2 ^ 112, 65536 * 2 ^ 112) ].

Definition within_ (ranges : list (Z * Z)) (n : Z) : Prop := exists r, In r ranges /\ r.1 <= n < r.2.

Definition reserved4 : Z -> Prop := within_ ranges4.

(** Reserved, or an IPv4-mapped address of a reserved one. *)
Definition reserved6 (n : Z) : Prop :=
  within_ ranges6 n \/ 65535 * 2 ^ 32 <= n < 65536 * 2 ^ 32 /\ reserved4 (n mod 2 ^ 32).

Definition rangeOf (width : Z) (parse : string -> option Z) (r : string * Z) : Z * Z :=
  let k := width - r.2 in
  match parse r.1 with Some net => (net / 2 ^ k * 2 ^ k, (net / 2 ^ k + 1) * 2 ^ k) | None => (0, 0) end.

Lemma shiftr_range n m k : 0 <= k -> (Z.shiftr n k =? m) = true <-> m * 2 ^ k <= n < (m + 1) * 2 ^ k.
Proof.
  intros Hk. rewrite Z.eqb_eq, Z.shiftr_div_pow2 by exact Hk.
  assert (0 < 2 ^ k) as Hp by (apply Z.pow_pos_nonneg; lia). set (d := 2 ^ k) in *. clearbody d.
  pose proof (Z.mul_div_le n d Hp) as H1. pose proof (Z.mul_succ_div_gt n d Hp) as H2.
  split; [intros <-; lia|]. intros [L R]. nia.
Qed.

Lemma inSubnet_range width parse n r net :
  parse r.1 = Some net -> 0 <= width - r.2 ->
  inSubnet width n net r.2 = true <-> (rangeOf width parse r).1 <= n < (rangeOf width parse r).2.
Proof.
  intros Hp Hk. unfold rangeOf. rewrite Hp. unfold inSubnet. rewrite (Z.shiftr_div_pow2 net) by exact Hk.
  now apply shiftr_range.
Qed.

Lemma table_exact width parse rules n :
  Forall (fun r => (exists net, parse r.1 = Some net) /\ 0 <= width - r.2) rules ->
  existsb (fun r => match parse r.1 with Some net => inSubnet width n net r.2 | None => false end) rules = true <->
  within_ (map (rangeOf width parse) rules) n.
Proof.
  intros Hall. rewrite existsb_exists. unfold within_. split.
  - intros (r & Hin & Hr). rewrite List.Forall_forall in Hall. destruct (Hall r Hin) as ((net & Hp) & Hk). rewrite Hp in Hr.
    exists (rangeOf width parse r). split; [now apply in_map | now apply (inSubnet_range width parse n r net)].
  - intros (x & Hin & Hx). apply in_map_iff in Hin as (r & <- & Hin). exists r. split; [exact Hin|].
    rewrite List.Forall_forall in Hall. destruct (Hall r Hin) as ((net & Hp) & Hk). rewrite Hp.
    now apply (inSubnet_range width parse n r net).
Qed.

Ltac rules_ok := repeat (apply List.Forall_cons; [split; [eexists; vm_compute; reflexivity | vm_compute; discriminate]|]);
  apply List.Forall_nil.

Lemma check4_exact n : check4 n = true <-> reserved4 n.
Proof.
  unfold check4, reserved4. rewrite table_exact by rules_ok.
  replace (map (rangeOf 32 ipv4) blocked4) with ranges4 by (vm_compute; reflexivity). reflexivity.
Qed.

Lemma check6_exact n : check6 n = true <-> reserved6 n.
Proof.
  unfold check6, reserved6. rewrite orb_true_iff, andb_true_iff, table_exact by rules_ok.
  replace (map (rangeOf 128 ipv6) blocked6) with ranges6 by (vm_compute; reflexivity).
  unfold mapped. rewrite shiftr_range by lia. rewrite check4_exact. reflexivity.
Qed.

(** ** Letter case does not change what an address reads as *)

Definition lowerOf (c : ascii) : ascii :=
  if isUpper c || (codeIn 192 222 c && negb (Nat.eqb (code c) 215)) then ascii_of_nat (code c + 32) else c.

Lemma toLowerCase_cons c s : toLowerCase (String c s) = String (lowerOf c) (toLowerCase s).
Proof. reflexivity. Qed.

Ltac every_ascii := intros [[] [] [] [] [] [] [] []]; vm_compute; reflexivity.

Lemma lowerOf_idem : forall c, lowerOf (lowerOf c) = lowerOf c.
Proof. every_ascii. Qed.

Lemma hexDigitVal_lower : forall c, hexDigitVal (lowerOf c) = hexDigitVal c.
Proof. every_ascii. Qed.

Lemma isDigit_lower : forall c, isDigit (lowerOf c) = isDigit c.
Proof. every_ascii. Qed.

Lemma zone_lower : forall c, (isAlnum (lowerOf c) || Ascii.eqb (lowerOf c) "-" || Ascii.eqb (lowerOf c) "." || Ascii.eqb (lowerOf c) ":")
  = (isAlnum c || Ascii.eqb c "-" || Ascii.eqb c "." || Ascii.eqb c ":").
Proof. every_ascii. Qed.

(** A character only itself is lowered to. *)
Definition caseless (c : ascii) : Prop := forall d, Ascii.eqb (lowerOf d) c = Ascii.eqb d c.

Lemma caseless_marks : caseless "." /\ caseless ":" /\ caseless "%" /\ caseless "[" /\ caseless "]" /\ caseless "0".
Proof. repeat split; every_ascii. Qed.

Lemma toLowerCase_app a b : toLowerCase (a ++ b) = toLowerCase a ++ toLowerCase b.
Proof. induction a as [|c a IH]; [reflexivity|]. change (String c a ++ b) with (String c (a ++ b)). now rewrite !toLowerCase_cons, IH. Qed.

Lemma toLowerCase_idem s : toLowerCase (toLowerCase s) = toLowerCase s.
Proof. induction s as [|c s IH]; [reflexivity|]. now rewrite !toLowerCase_cons, lowerOf_idem, IH. Qed.

Lemma length_lower s : String.length (toLowerCase s) = String.length s.
Proof. induction s as [|c s IH]; [reflexivity|]. rewrite toLowerCase_cons. cbn. now rewrite IH. Qed.

Lemma truthy_lower s : truthy (toLowerCase s) = truthy s.
Proof. destruct s; reflexivity. Qed.

Lemma all_lower p s : (forall c, p (lowerOf c) = p c) -> all p (toLowerCase s) = all p s.
Proof. intros Hp. induction s as [|c s IH]; [reflexivity|]. rewrite toLowerCase_cons. cbn [all]. now rewrite Hp, IH. Qed.

Lemma splitOn_lower c s : caseless c -> splitOn c (toLowerCase s) = map toLowerCase (splitOn c s).
Proof.
  intros Hc. induction s as [|d s IH]; [reflexivity|]. rewrite toLowerCase_cons. cbn [splitOn]. rewrite Hc, IH.
  destruct (Ascii.eqb d c); [reflexivity|]. destruct (splitOn c s); reflexivity.
Qed.

Lemma digits_lower s : all isDigit s = true -> toLowerCase s = s.
Proof.
  induction s as [|c s IH]; [reflexivity|]. cbn [all]. intros [Hc Hs]%andb_prop. rewrite toLowerCase_cons, IH by exact Hs.
  f_equal. revert c Hc. intros [[] [] [] [] [] [] [] []]; vm_compute; first [discriminate | reflexivity].
Qed.

Lemma allDigits_lower s : allDigits (toLowerCase s) = allDigits s.
Proof. unfold allDigits. rewrite truthy_lower, (all_lower isDigit) by exact isDigit_lower. reflexivity. Qed.

Lemma octet_lower s : octet (toLowerCase s) = octet s.
Proof.
  destruct (allDigits s) eqn:E; [now rewrite digits_lower by now apply andb_prop in E as [_ E]|].
  unfold octet. now rewrite allDigits_lower, E.
Qed.

Lemma ipv4_lower s : ipv4 (toLowerCase s) = ipv4 s.
Proof.
  unfold ipv4. rewrite splitOn_lower by apply caseless_marks.
  destruct (splitOn "." s) as [|a [|b [|c [|d [|]]]]]; cbn [map]; rewrite ?octet_lower; reflexivity.
Qed.

Lemma hexValue_lower s acc : hexValue acc (toLowerCase s) = hexValue acc s.
Proof.
  revert acc. induction s as [|c s IH]; intros acc; [reflexivity|]. rewrite toLowerCase_cons. cbn [hexValue].
  rewrite hexDigitVal_lower. destruct (hexDigitVal c); auto.
Qed.

Lemma group_lower s : group (toLowerCase s) = group s.
Proof. unfold group. now rewrite truthy_lower, length_lower, hexValue_lower. Qed.

Lemma groups_lower l dotted : groups (map toLowerCase l) dotted = groups l dotted.
Proof.
  induction l as [|x [|y l] IH]; [reflexivity| |].
  - cbn [map groups]. now rewrite group_lower, ipv4_lower.
  - change (map toLowerCase (x :: y :: l)) with (toLowerCase x :: map toLowerCase (y :: l)).
    cbn [groups] in IH |- *. cbn [map] in IH |- *. now rewrite group_lower, IH.
Qed.

Lemma side_lower s dotted : side (toLowerCase s) dotted = side s dotted.
Proof. unfold side. rewrite truthy_lower, splitOn_lower, groups_lower by apply caseless_marks. reflexivity. Qed.

Lemma cutDouble_cons c d s : cutDouble (String c (String d s)) =
  if Ascii.eqb c ":" && Ascii.eqb d ":" then Some ("", s)
  else match cutDouble (String d s) with Some (a, b) => Some (String c a, b) | None => None end.
Proof. revert c. intros [[] [] [] [] [] [] [] []]; try reflexivity. revert d. intros [[] [] [] [] [] [] [] []]; reflexivity. Qed.

Lemma cutDouble_lower s :
  cutDouble (toLowerCase s) = match cutDouble s with Some (a, b) => Some (toLowerCase a, toLowerCase b) | None => None end.
Proof.
  destruct caseless_marks as (_ & Hcolon & _).
  induction s as [|c [|d s] IH]; [reflexivity | |].
  - rewrite toLowerCase_cons. revert c. intros [[] [] [] [] [] [] [] []]; reflexivity.
  - rewrite !toLowerCase_cons in *. rewrite !cutDouble_cons, !Hcolon, IH.
    destruct (_ && _); [reflexivity|]. destruct (cutDouble (String d s)) as [[a b]|]; reflexivity.
Qed.

Lemma withoutZone_lower s : withoutZone (toLowerCase s) = option_map toLowerCase (withoutZone s).
Proof.
  unfold withoutZone. rewrite splitOn_lower by apply caseless_marks.
  destruct (splitOn "%" s) as [|a [|z [|]]]; cbn [map]; try reflexivity.
  rewrite truthy_lower, all_lower by exact zone_lower. destruct (truthy z && _); reflexivity.
Qed.

Lemma ipv6_lower s : ipv6 (toLowerCase s) = ipv6 s.
Proof.
  unfold ipv6. rewrite withoutZone_lower. destruct (withoutZone s) as [t|]; [|reflexivity]. cbn [option_map].
  rewrite cutDouble_lower. destruct (cutDouble t) as [[a b]|]; [now rewrite !side_lower|].
  now rewrite splitOn_lower, groups_lower by apply caseless_marks.
Qed.
Ltac every_ascii_h := intros [[] [] [] [] [] [] [] []]; vm_compute; first [discriminate | reflexivity].
Ltac every_ascii_hh := intros [[] [] [] [] [] [] [] []]; vm_compute; first [discriminate | intros _; first [discriminate | reflexivity]].

(** ** IPv4 addresses written inside IPv6 ones *)

(** [a] is written as the IPv4 address [n] behind a prefix that carries one:
    mapped, compatible (dotted only) or NAT64, dotted or as two hexadecimal
    groups. *)
Inductive embeds (a : string) (n : Z) : Prop :=
| embeds_dotted p d : In p ["::ffff:"; "::"; "64:ff9b::"] -> toLowerCase a = p ++ d -> ipv4 d = Some n -> embeds a n
| embeds_hex p h l high low : In p ["::ffff:"; "64:ff9b::"] -> toLowerCase a = p ++ h ++ ":" ++ l ->
    group h = Some high -> group l = Some low -> n = high * 65536 + low -> embeds a n.

Lemma splitOn_none c s : all (fun d => negb (Ascii.eqb d c)) s = true -> splitOn c s = [s].
Proof.
  induction s as [|d s IH]; [reflexivity|]. cbn [all splitOn]. intros [Hd Hs]%andb_prop. apply negb_true_iff in Hd.
  now rewrite Hd, IH.
Qed.

Lemma splitOn_app c a b : all (fun d => negb (Ascii.eqb d c)) a = true -> splitOn c (a ++ String c b) = a :: splitOn c b.
Proof.
  induction a as [|d a IH]; cbn [all].
  - intros _. change ("" ++ String c b) with (String c b). cbn [splitOn]. now rewrite Ascii.eqb_refl.
  - intros [Hd Ha]%andb_prop. apply negb_true_iff in Hd. change (String d a ++ String c b) with (String d (a ++ String c b)).
    cbn [splitOn]. now rewrite Hd, IH.
Qed.

Lemma splitOn_pieces c q s : forallb (all q) (splitOn c s) = all (fun d => q d || Ascii.eqb d c) s.
Proof.
  induction s as [|d s IH]; [reflexivity|]. cbn [splitOn all]. destruct (Ascii.eqb d c) eqn:E.
  - cbn [forallb all]. rewrite IH, orb_true_r. reflexivity.
  - rewrite <- IH, orb_false_r. destruct (splitOn c s) as [|x l] eqn:El; cbn [forallb all]; [|now rewrite andb_assoc].
    apply (f_equal length) in El. revert El. clear. destruct s as [|e s]; [discriminate|]. cbn [splitOn].
    destruct (Ascii.eqb e c); [discriminate|]. destruct (splitOn c s); discriminate.
Qed.

Lemma all_weaken (p q : ascii -> bool) s : (forall c, p c = true -> q c = true) -> all p s = true -> all q s = true.
Proof. intros Hpq. induction s as [|c s IH]; [reflexivity|]. cbn [all]. intros [Hc Hs]%andb_prop. rewrite (Hpq c Hc). auto. Qed.

Lemma digitsValue_bound s acc : all isDigit s = true -> 0 <= acc -> 0 <= digitsValue acc s.
Proof.
  revert acc. induction s as [|c s IH]; intros acc; cbn [all digitsValue]; [auto|]. intros [Hc Hs]%andb_prop Ha. apply IH; [exact Hs|].
  unfold isDigit, codeIn in Hc. apply andb_prop in Hc as [Hc _]. apply Nat.leb_le in Hc. unfold digitVal. lia.
Qed.

Lemma octet_spec s n : octet s = Some n -> allDigits s = true /\ 0 <= n <= 255.
Proof.
  unfold octet. destruct (allDigits s) eqn:E; cbn [andb]; [|discriminate].
  destruct (_ && (digitsValue 0 s <=? 255)) eqn:Eb; [|discriminate]. intros [= <-]. split; [reflexivity|].
  apply andb_prop in Eb as [_ Eb]. apply Z.leb_le in Eb. split; [|exact Eb].
  apply digitsValue_bound; [now apply andb_prop in E as [_ E] | lia].
Qed.

(** A dotted quad is digits and dots, and a 32-bit number. *)
Lemma ipv4_spec d n : ipv4 d = Some n -> isDotted d = true /\ 0 <= n < 2 ^ 32.
Proof.
  unfold ipv4, isDotted. destruct (splitOn "." d) as [|a [|b [|c [|e [|]]]]]; try discriminate.
  destruct (octet a) as [na|] eqn:Ea; [|discriminate]. destruct (octet b) as [nb|] eqn:Eb; [|discriminate].
  destruct (octet c) as [nc|] eqn:Ec; [|discriminate]. destruct (octet e) as [ne|] eqn:Ee; [|discriminate].
  apply octet_spec in Ea as [-> Ha], Eb as [-> Hb], Ec as [-> Hcc], Ee as [-> He]. intros [= <-]. split; [reflexivity | lia].
Qed.

Definition dotOrDigit (c : ascii) : bool := isDigit c || Ascii.eqb c ".".

Lemma isDotted_chars d : isDotted d = true -> all dotOrDigit d = true.
Proof.
  unfold isDotted. intros Hd. unfold dotOrDigit. rewrite <- (splitOn_pieces "." isDigit d).
  destruct (splitOn "." d) as [|a [|b [|c [|e [|]]]]]; try discriminate. unfold allDigits in Hd.
  repeat match goal with H : _ && _ = true |- _ => apply andb_prop in H as [? ?] end. cbn [forallb].
  repeat match goal with H : all isDigit _ = true |- _ => rewrite H; clear H end. reflexivity.
Qed.

Lemma isDotted_head d : isDotted d = true -> exists c r, d = String c r /\ isDigit c = true.
Proof.
  unfold isDotted. destruct d as [|c r]; [discriminate|]. cbn [splitOn]. intros Hd. exists c, r. split; [reflexivity|].
  destruct (Ascii.eqb c "."); [destruct (splitOn "." r) as [|? [|? [|? [|? ?]]]]; discriminate|].
  destruct (splitOn "." r) as [|x [|b [|e [|f [|]]]]]; try discriminate. unfold allDigits in Hd.
  repeat match goal with H : _ && _ = true |- _ => apply andb_prop in H as [? ?] end.
  match goal with H : all isDigit (String c x) = true |- _ => now apply andb_prop in H as [? _] end.
Qed.

Lemma isDotted_dot d : isDotted d = true -> all isDigit d = false.
Proof.
  intros Hd. apply not_true_iff_false. intros Ha.
  assert (splitOn "." d = [d]) as E.
  { apply splitOn_none. revert Ha. apply all_weaken. every_ascii_h. }
  unfold isDotted in Hd. rewrite E in Hd. discriminate.
Qed.
Definition isHexDigit (c : ascii) : bool := match hexDigitVal c with Some _ => true | None => false end.

Lemma hexDigitVal_bound c d : hexDigitVal c = Some d -> 0 <= d < 16.
Proof.
  unfold hexDigitVal, isDigit, codeIn, digitVal. destruct (Nat.leb 48 _ && _) eqn:E1.
  { intros [= <-]. apply andb_prop in E1 as [E1 E2]. apply Nat.leb_le in E1, E2. lia. }
  destruct (Nat.leb 97 _ && _) eqn:E2.
  { intros [= <-]. apply andb_prop in E2 as [E2 E3]. apply Nat.leb_le in E2, E3. lia. }
  destruct (Nat.leb 65 _ && _) eqn:E3; [|discriminate].
  intros [= <-]. apply andb_prop in E3 as [E3 E4]. apply Nat.leb_le in E3, E4. lia.
Qed.

Lemma hexValue_spec s acc g : 0 <= acc -> hexValue acc s = Some g ->
  all isHexDigit s = true /\ 0 <= g < (acc + 1) * 16 ^ Z.of_nat (String.length s).
Proof.
  revert acc. induction s as [|c s IH]; intros acc Ha; cbn [hexValue all String.length].
  - intros [= <-]. split; [reflexivity | change (16 ^ Z.of_nat 0) with 1; lia].
  - unfold isHexDigit at 1. destruct (hexDigitVal c) as [d|] eqn:Ed; [|discriminate]. apply hexDigitVal_bound in Ed.
    intros Hv. apply IH in Hv as [-> Hg]; [|lia]. split; [reflexivity|]. rewrite Nat2Z.inj_succ, Z.pow_succ_r by lia.
    assert (0 < 16 ^ Z.of_nat (String.length s)) by (apply Z.pow_pos_nonneg; lia). nia.
Qed.

Lemma group_spec h g : group h = Some g ->
  all isHexDigit h = true /\ truthy h = true /\ Nat.leb (String.length h) 4 = true /\ hexValue 0 h = Some g /\ 0 <= g < 65536.
Proof.
  unfold group. destruct (truthy h); cbn [andb]; [|discriminate]. destruct (Nat.leb _ 4) eqn:El; [|discriminate].
  intros Hv. destruct (hexValue_spec h 0 g ltac:(lia) Hv) as [Ha Hg]. repeat split; auto; try lia.
  apply Nat.leb_le in El. assert (16 ^ Z.of_nat (String.length h) <= 16 ^ 4) by (apply Z.pow_le_mono_r; lia). lia.
Qed.

Lemma hex_no_colon h : all isHexDigit h = true -> all (fun d => negb (Ascii.eqb d ":")) h = true.
Proof. apply all_weaken. every_ascii_h. Qed.

Lemma splitOn_pair h l : all isHexDigit h = true -> all isHexDigit l = true -> splitOn ":" (h ++ ":" ++ l) = [h; l].
Proof.
  intros Hh Hl. change (h ++ ":" ++ l) with (h ++ String ":" l).
  now rewrite splitOn_app, splitOn_none by now apply hex_no_colon.
Qed.

(** The decimal text of a byte reads back. *)
Lemma octet_num b : 0 <= b < 256 -> octet (num b) = Some b /\ all (fun d => negb (Ascii.eqb d ".")) (num b) = true.
Proof.
  intros Hb.
  assert (forallb (fun n => let b := Z.of_nat n in
    match octet (num b) with Some m => (m =? b) && all (fun d => negb (Ascii.eqb d ".")) (num b) | None => false end)
    (List.seq 0 256) = true) as Hall by (vm_compute; reflexivity).
  rewrite forallb_forall in Hall. specialize (Hall (Z.to_nat b)). rewrite Z2Nat.id in Hall by lia.
  specialize (Hall (proj2 (in_seq 256 0 (Z.to_nat b)) ltac:(lia))). cbv zeta in Hall.
  destruct (octet (num b)) as [m|]; [|discriminate]. apply andb_prop in Hall as [Hm Ha]. apply Z.eqb_eq in Hm as ->. auto.
Qed.

Lemma ipv4_printed a b c d : 0 <= a < 256 -> 0 <= b < 256 -> 0 <= c < 256 -> 0 <= d < 256 ->
  ipv4 (num a ++ "." ++ num b ++ "." ++ num c ++ "." ++ num d) = Some (((a * 256 + b) * 256 + c) * 256 + d).
Proof.
  intros [Ha1 Ha2]%octet_num [Hb1 Hb2]%octet_num [Hc1 Hc2]%octet_num [Hd1 Hd2]%octet_num. unfold ipv4.
  change (num a ++ "." ++ num b ++ "." ++ num c ++ "." ++ num d) with
    (num a ++ String "." (num b ++ String "." (num c ++ String "." (num d)))).
  rewrite !splitOn_app, splitOn_none by assumption. now rewrite Ha1, Hb1, Hc1, Hd1.
Qed.

(** What [embeddedIpv4] makes of two groups reads as their number. *)
Lemma ipv4_of_groups high low : 0 <= high < 65536 -> 0 <= low < 65536 ->
  ipv4 (num (Z.shiftr high 8) ++ "." ++ num (Z.land high 255) ++ "." ++ num (Z.shiftr low 8) ++ "." ++ num (Z.land low 255))
  = Some (high * 65536 + low).
Proof.
  intros Hh Hl. change 255 with (Z.ones 8). rewrite !Z.land_ones, !Z.shiftr_div_pow2 by lia. change (2 ^ 8) with 256.
  pose proof (Z.div_mod high 256 ltac:(lia)). pose proof (Z.mod_pos_bound high 256 ltac:(lia)).
  pose proof (Z.div_mod low 256 ltac:(lia)). pose proof (Z.mod_pos_bound low 256 ltac:(lia)).
  rewrite ipv4_printed by lia. f_equal. lia.
Qed.

Lemma startsWith_app p d : startsWith (p ++ d) p = true.
Proof. apply prefix_append. Qed.

Lemma not_dotted_colon s t : isDotted (s ++ ":" ++ t) = false.
Proof.
  apply not_true_iff_false. intros Hd%isDotted_chars. rewrite all_append in Hd. apply andb_prop in Hd as [_ Hd]. discriminate.
Qed.

Lemma strip_dotted p d : In p ["::ffff:"; "::"; "64:ff9b::"] -> isDotted d = true ->
  stripFirst ["::ffff:"; "::"; "64:ff9b::"] isDotted (p ++ d) = Some d.
Proof.
  intros Hp Hd. destruct Hp as [<-|[<-|[<-|[]]]].
  - cbn [stripFirst]. now rewrite startsWith_app, sliceFrom_append, Hd.
  - destruct (isDotted_head d Hd) as (c & r & -> & Hc). cbn [stripFirst].
    assert (startsWith ("::" ++ String c r) "::ffff:" = false) as ->.
    { apply not_true_iff_false. intros E%startsWith_split.
      assert (c = "f"%char) as -> by (now injection E).
      discriminate Hc. }
    cbn [andb]. now rewrite startsWith_app, sliceFrom_append, Hd.
  - cbn [stripFirst].
    change (startsWith ("64:ff9b::" ++ d) "::ffff:") with false. change (startsWith ("64:ff9b::" ++ d) "::") with false.
    cbn [andb]. now rewrite startsWith_app, sliceFrom_append, Hd.
Qed.

Lemma strip_hex p h l : In p ["::ffff:"; "64:ff9b::"] -> isHexPair (h ++ ":" ++ l) = true ->
  stripFirst ["::ffff:"; "::"; "64:ff9b::"] isDotted (p ++ h ++ ":" ++ l) = None /\
  stripFirst ["::ffff:"; "64:ff9b::"] isHexPair (p ++ h ++ ":" ++ l) = Some (h ++ ":" ++ l).
Proof.
  intros Hp Hhex. destruct Hp as [<-|[<-|[]]]; cbn [stripFirst].
  - rewrite !startsWith_app, !sliceFrom_append, Hhex, not_dotted_colon. cbn [andb]. split; [|reflexivity].
    change (sliceFrom (String.length "::") ("::ffff:" ++ h ++ ":" ++ l)) with ("ffff" ++ ":" ++ (h ++ ":" ++ l)).
    rewrite not_dotted_colon, andb_false_r. reflexivity.
  - change (startsWith ("64:ff9b::" ++ h ++ ":" ++ l) "::ffff:") with false.
    change (startsWith ("64:ff9b::" ++ h ++ ":" ++ l) "::") with false. cbn [andb].
    now rewrite startsWith_app, sliceFrom_append, Hhex, not_dotted_colon.
Qed.
Lemma lower_hex h x y z : toLowerCase x = y ++ h ++ z -> all isHexDigit h = true -> all isHexLowerDigit h = true.
Proof.
  intros Hx Hh.
  assert (toLowerCase h = h) as Hs.
  { assert (toLowerCase (y ++ h ++ z) = y ++ h ++ z) as E by (rewrite <- Hx; apply toLowerCase_idem).
    rewrite !toLowerCase_app in E.
    assert (forall a b c d, String.length a = String.length b -> a ++ c = b ++ d -> a = b /\ c = d) as Hcut.
    { clear. induction a as [|e a IH]; intros [|f b] c d; cbn; try discriminate; [auto|].
      intros [= Hl] [= -> E]. destruct (IH b c d Hl E) as [-> ->]. auto. }
    apply Hcut in E as [_ E]; [|apply length_lower]. apply Hcut in E as [E _]; [exact E | apply length_lower]. }
  rewrite <- Hs, all_lower in Hh by every_ascii. rewrite <- Hs.
  revert Hh. clear. induction h as [|c h IH]; [reflexivity|]. rewrite toLowerCase_cons. cbn [all].
  intros [Hc Hh]%andb_prop. rewrite (IH Hh), andb_true_r. revert c Hc. every_ascii_h.
Qed.

(** [embeddedIpv4] finds every address that is written inside. *)
Lemma embeds_found a m : embeds a m -> exists e, embeddedIpv4 (toLowerCase a) = Some e /\ ipv4 e = Some m.
Proof.
  intros [p d Hp Hd Hm | p h l high low Hp Hd Hh Hl ->]; unfold embeddedIpv4; rewrite Hd.
  - rewrite strip_dotted by (auto; eapply ipv4_spec, Hm). eauto.
  - destruct (group_spec h high Hh) as (Hh1 & Hh2 & Hh3 & Hh4 & Hh5), (group_spec l low Hl) as (Hl1 & Hl2 & Hl3 & Hl4 & Hl5).
    assert (isHexPair (h ++ ":" ++ l) = true) as Hpair.
    { unfold isHexPair. rewrite splitOn_pair by assumption. cbn [forallb]. rewrite Hh2, Hh3, Hl2, Hl3.
      rewrite (lower_hex h a p (":" ++ l)) by assumption.
      rewrite (lower_hex l a (p ++ h ++ ":") "") by (rewrite ?append_nil, ?append_assoc; assumption). reflexivity. }
    destruct (strip_hex p h l Hp Hpair) as [-> ->]. rewrite splitOn_pair, Hh4, Hl4 by assumption.
    eexists. split; [reflexivity | now apply ipv4_of_groups].
Qed.

(** The first address with a prefix that carries IPv4. *)
Definition prefixBase (p : string) : Z :=
  if String.eqb p "::ffff:" then 65535 * 2 ^ 32 else if String.eqb p "64:ff9b::" then (100 * 65536 + 65435) * 2 ^ 96 else 0.

Lemma stripFirst_some ps ok s t : stripFirst ps ok s = Some t -> exists p, In p ps /\ s = p ++ t /\ ok t = true.
Proof.
  induction ps as [|p ps IH]; cbn [stripFirst]; [discriminate|].
  destruct (startsWith s p && _) eqn:E.
  - intros [= <-]. apply andb_prop in E as [E1 E2]. exists p. split; [now left|]. split; [now apply startsWith_split | exact E2].
  - intros Ht. destruct (IH Ht) as (q & Hq & Hrest). exists q. split; [now right | exact Hrest].
Qed.

Lemma ipv6_tail p t n : In p ["::ffff:"; "::"; "64:ff9b::"] -> all (fun d => negb (Ascii.eqb d "%")) t = true ->
  ((exists g, splitOn ":" t = [t] /\ groups [t] true = Some g /\ length g = 2%nat /\ ofGroups g = n) \/
   (exists x y g, splitOn ":" t = [x; y] /\ groups [x; y] true = Some g /\ length g = 2%nat /\ ofGroups g = n)) ->
  truthy t = true -> ipv6 (p ++ t) = Some (prefixBase p + n).
Proof.
  intros Hp Hz Ht Htr.
  assert (exists l g, splitOn ":" t = l /\ groups l true = Some g /\ length g = 2%nat /\ ofGroups g = n /\ l <> []) as
    (l & g & Hl & Hg & Hlen & <- & Hne).
  { destruct Ht as [(g & H1 & H2 & H3 & H4)|(x & y & g & H1 & H2 & H3 & H4)];
      [exists [t], g | exists [x; y], g]; repeat split; auto; discriminate. }
  clear Ht. destruct g as [|g1 [|g2 [|]]]; try discriminate. unfold ipv6, withoutZone.
  assert (all (fun d => negb (Ascii.eqb d "%")) (p ++ t) = true) as Hpz.
  { rewrite all_append, Hz, andb_true_r. destruct Hp as [<-|[<-|[<-|[]]]]; reflexivity. }
  rewrite splitOn_none by exact Hpz. destruct Hp as [<-|[<-|[<-|[]]]].
  - change (cutDouble ("::ffff:" ++ t)) with (Some ("", "ffff:" ++ t)). unfold side at 1. cbn [truthy].
    assert (side ("ffff:" ++ t) true = Some [65535; g1; g2]) as ->.
    { unfold side. change (splitOn ":" ("ffff:" ++ t)) with ("ffff" :: splitOn ":" t). rewrite Hl.
      destruct l as [|x l]; [contradiction|]. change (groups ("ffff" :: x :: l) true) with
        (match groups (x :: l) true with Some gs => Some (65535 :: gs) | None => None end). now rewrite Hg. }
    cbn. f_equal; lia.
  - change (cutDouble ("::" ++ t)) with (Some ("", t)). unfold side. rewrite Htr, Hl, Hg. cbn. f_equal; lia.
  - change (cutDouble ("64:ff9b::" ++ t)) with (Some ("64:ff9b", t)).
    cbv beta iota. change (side "64:ff9b" false) with (Some [100; 65435]). unfold side. rewrite Htr, Hl, Hg. cbn. f_equal; lia.
Qed.
(** A text that names an address a public host may have: outside the reserved
    IPv4 and IPv6 ranges, and not written as a reserved IPv4 address inside an
    IPv6 one. *)
Definition publicAddress (a : string) : Prop :=
  (exists n, ipv4 a = Some n /\ ~ reserved4 n) \/
  (ipv4 a = None /\ (exists n, ipv6 a = Some n /\ ~ reserved6 n) /\ forall n, embeds a n -> ~ reserved4 n).

Lemma embedded_not_reserved6 p m : In p ["::ffff:"; "::"; "64:ff9b::"] -> 0 <= m < 2 ^ 32 -> ~ reserved4 m ->
  ~ reserved6 (prefixBase p + m).
Proof.
  intros Hp Hm Hr. assert (2 <= m) as H2.
  { destruct (Z_lt_le_dec m 2); [|lia]. destruct Hr. exists (0, 2 ^ 24). split; [now left | cbn; lia]. }
  intros [(r & Hin & Hb)|[Hb Hr4]].
  - unfold ranges6 in Hin. cbn [In] in Hin.
    destruct Hp as [<-|[<-|[<-|[]]]]; repeat destruct Hin as [<-|Hin]; try contradiction; cbn in Hb; lia.
  - destruct Hp as [<-|[<-|[<-|[]]]]; [|cbn in Hb; lia | cbn in Hb; lia].
    change (prefixBase "::ffff:") with (65535 * 2 ^ 32) in Hr4.
    rewrite Z.add_comm, Z.mod_add, Z.mod_small in Hr4 by lia. contradiction.
Qed.

(** The value of a text that [embeddedIpv4] recognises. *)
Lemma embedded_value a e m : embeddedIpv4 (toLowerCase a) = Some e -> ipv4 e = Some m ->
  exists p, In p ["::ffff:"; "::"; "64:ff9b::"] /\ ipv6 (toLowerCase a) = Some (prefixBase p + m).
Proof.
  unfold embeddedIpv4. destruct (stripFirst _ isDotted _) as [d|] eqn:Ed.
  - intros [= <-] Hm. apply stripFirst_some in Ed as (p & Hp & -> & Hd). exists p. split; [exact Hp|].
    destruct (ipv4_spec d m Hm) as [_ Hb]. pose proof (isDotted_chars d Hd) as Hc.
    assert (splitOn ":" d = [d]) as Es by (apply splitOn_none; revert Hc; apply all_weaken; every_ascii_h).
    destruct (isDotted_head d Hd) as (c & r & E & _).
    apply ipv6_tail; [exact Hp | revert Hc; apply all_weaken; every_ascii_h | left | now rewrite E].
    exists [m / 65536; m mod 65536]. rewrite Es. split; [reflexivity|].
    assert (group d = None) as Eg.
    { destruct (group d) as [g|] eqn:Eg; [|reflexivity]. apply group_spec in Eg as (Hx & _).
      pose proof (isDotted_dot d Hd) as Hdot. rewrite <- not_true_iff_false in Hdot. destruct Hdot.
      revert Hc Hx. clear. induction d as [|c d IH]; [reflexivity|]. cbn [all]. intros [H1 H2]%andb_prop [H3 H4]%andb_prop.
      rewrite (IH H2 H4), andb_true_r. revert c H1 H3. every_ascii_hh. }
    cbn [groups]. rewrite Eg, Hm. split; [reflexivity|]. split; [reflexivity|].
    cbn [ofGroups fold_left]. pose proof (Z.div_mod m 65536 ltac:(lia)). lia.
  - destruct (stripFirst _ isHexPair _) as [t|] eqn:Et; [|discriminate].
    apply stripFirst_some in Et as (p & Hp & -> & Ht). unfold isHexPair in Ht.
    destruct (splitOn ":" t) as [|h [|l [|]]] eqn:Es; try discriminate. cbn [forallb] in Ht.
    repeat match goal with H : _ && _ = true |- _ => apply andb_prop in H as [? ?] end.
    destruct (hexValue 0 h) as [hi|] eqn:Eh; [|discriminate]. destruct (hexValue 0 l) as [lo|] eqn:El; [|discriminate].
    assert (group h = Some hi) as Gh by (unfold group; rewrite Eh; destruct (truthy h && _) eqn:E; [reflexivity | rewrite andb_false_iff in E; destruct E; congruence]).
    assert (group l = Some lo) as Gl by (unfold group; rewrite El; destruct (truthy l && _) eqn:E; [reflexivity | rewrite andb_false_iff in E; destruct E; congruence]).
    intros [= <-] Hm. pose proof (group_spec _ _ Gh) as (_ & _ & _ & _ & Bh). pose proof (group_spec _ _ Gl) as (_ & _ & _ & _ & Bl).
    rewrite ipv4_of_groups in Hm by assumption. injection Hm as <-.
    exists p. split; [destruct Hp as [<-|[<-|[]]]; cbn; auto|].
    apply ipv6_tail; [destruct Hp as [<-|[<-|[]]]; cbn; auto | | right | ].
    + assert (all (fun d => isHexLowerDigit d || Ascii.eqb d ":") t = true) as Ha.
      { rewrite <- splitOn_pieces, Es. cbn [forallb].
        repeat match goal with H : all isHexLowerDigit _ = true |- _ => rewrite H; clear H end. reflexivity. }
      revert Ha. apply all_weaken. every_ascii_h.
    + exists h, l, [hi; lo]. rewrite Es. cbn [groups]. rewrite Gh, Gl. repeat split; reflexivity.
    + destruct t; [discriminate Es | reflexivity].
Qed.

Lemma isForbiddenAddress_public a : isForbiddenAddress a = false -> publicAddress a.
Proof.
  unfold isForbiddenAddress, publicAddress, forbidden4. intros Hf.
  destruct (ipv4 a) as [n|]; [left; rewrite <- not_true_iff_false, check4_exact in Hf; eauto|]. right. split; [reflexivity|].
  destruct (ipv6 a) as [n|] eqn:E6; [|discriminate]. pose proof (ipv6_lower a) as E6'. rewrite E6 in E6'.
  destruct (embeddedIpv4 (toLowerCase a)) as [e|] eqn:Ee.
  - destruct (ipv4 e) as [m|] eqn:Em; [|discriminate]. rewrite <- not_true_iff_false, check4_exact in Hf. split.
    + destruct (embedded_value a e m Ee Em) as (p & Hp & Hv). exists n. split; [reflexivity|].
      rewrite E6' in Hv. injection Hv as ->. apply embedded_not_reserved6; [exact Hp | eapply ipv4_spec, Em | exact Hf].
    + intros m' (e' & Ee' & Em')%embeds_found. rewrite Ee in Ee'. injection Ee' as <-. rewrite Em in Em'. now injection Em' as <-.
  - rewrite E6' in Hf. rewrite <- not_true_iff_false, check6_exact in Hf. split; [eauto|].
    intros m' (e' & Ee' & _)%embeds_found. rewrite Ee in Ee'. discriminate.
Qed.
(** ** Names that are never looked up *)

(** The names of the loopback and of the cloud metadata services, and the
    zones that resolve inside a private network. *)
Definition reservedNames : list string :=
  ["localhost"; "metadata"; "metadata.google.internal"; "metadata.goog"; "instance-data"; "instance-data.ec2.internal"].

Definition reservedZones : list string := [".localhost"; ".internal"].

(** A host name, in any letter case and with or without the dot of the root,
    that is one of the names or is in one of the zones. *)
Definition reservedName (host : string) : Prop :=
  exists name dot, (dot = "" \/ dot = ".") /\ toLowerCase host = name ++ dot /\
    (In name reservedNames \/ exists prefix zone, In zone reservedZones /\ name = prefix ++ zone).

Lemma splitLast_snoc p c : splitLast (p ++ String c "") = Some (p, c).
Proof. now apply splitLast_spec. Qed.

Lemma splitLast_lower s : splitLast (toLowerCase s) = option_map (fun x => (toLowerCase x.1, lowerOf x.2)) (splitLast s).
Proof.
  induction s as [|c [|d s] IH]; [reflexivity | reflexivity|]. rewrite !toLowerCase_cons in *.
  change (splitLast (String (lowerOf c) (String (lowerOf d) (toLowerCase s)))) with
    (match splitLast (String (lowerOf d) (toLowerCase s)) with Some (p, l) => Some (String (lowerOf c) p, l) | None => None end).
  change (splitLast (String c (String d s))) with
    (match splitLast (String d s) with Some (p, l) => Some (String c p, l) | None => None end).
  rewrite IH. destruct (splitLast (String d s)) as [[p l]|]; reflexivity.
Qed.

(** The text without one leading bracket. *)
Definition unopen (s : string) : string := match s with String "[" r => r | _ => s end.

Definition unclose (s : string) : string := match splitLast s with Some (p, "]"%char) => p | _ => s end.

Lemma unopen_lower s : unopen (toLowerCase s) = toLowerCase (unopen s).
Proof. destruct s as [|c s]; [reflexivity|]. rewrite toLowerCase_cons. revert c. intros [[] [] [] [] [] [] [] []]; reflexivity. Qed.

Lemma unclose_lower s : unclose (toLowerCase s) = toLowerCase (unclose s).
Proof.
  unfold unclose. rewrite splitLast_lower. destruct (splitLast s) as [[p c]|]; [|reflexivity]. cbn [option_map fst snd].
  revert c. intros [[] [] [] [] [] [] [] []]; reflexivity.
Qed.

Lemma unbracket_lower s : toLowerCase (unbracket s) = unclose (unopen (toLowerCase s)).
Proof. now rewrite unopen_lower, unclose_lower. Qed.

Lemma sliceFrom_end p z : sliceFrom (String.length (p ++ z) - String.length z) (p ++ z) = z.
Proof. rewrite length_append, Nat.add_sub. apply sliceFrom_append. Qed.

Lemma endsWith_app p z : endsWith (p ++ z) z = true.
Proof. unfold endsWith. rewrite sliceFrom_end, String.eqb_refl, length_append, andb_true_r. apply Nat.leb_le. lia. Qed.

(** A zone's last characters are neither a bracket nor a dot. *)
Lemma dropDot_zone p c dot : (dot = "" \/ dot = ".") -> c <> "."%char -> c <> "]"%char ->
  dropDot (unclose (p ++ String c dot)) = p ++ String c "".
Proof.
  intros Hdot H1 H2. unfold dropDot, unclose. destruct Hdot as [->| ->].
  - rewrite splitLast_snoc. revert c H1 H2. intros [[] [] [] [] [] [] [] []] H1 H2; rewrite ?splitLast_snoc; try reflexivity; contradiction.
  - change (p ++ String c ".") with (p ++ String c "" ++ "."). rewrite <- append_assoc. now rewrite !splitLast_snoc.
Qed.

Lemma unopen_append p c z : c <> "["%char -> exists q, unopen (p ++ String c z) = q ++ String c z.
Proof.
  intros Hc. destruct p as [|d p].
  - exists "". change ("" ++ String c z) with (String c z). revert c Hc. intros [[] [] [] [] [] [] [] []] Hc; try reflexivity. contradiction.
  - change (String d p ++ String c z) with (String d (p ++ String c z)).
    destruct (Ascii.ascii_dec d "["%char) as [->|Hd]; [now exists p|]. exists (String d p).
    revert d Hd. intros [[] [] [] [] [] [] [] []] Hd; try reflexivity. contradiction.
Qed.

Lemma blockedName_reserved url : blockedName (hostOf url) = false -> ~ reservedName (u_hostname url).
Proof.
  intros Hb (name & dot & Hdot & Hn & Hname). unfold hostOf in Hb. rewrite unbracket_lower, Hn in Hb.
  destruct Hname as [Hin|(prefix & zone & Hz & ->)].
  - unfold reservedNames in Hin. cbn [In] in Hin.
    destruct Hdot as [->| ->]; repeat destruct Hin as [<-|Hin]; try contradiction; vm_compute in Hb; discriminate.
  - unfold blockedName in Hb. apply orb_false_elim in Hb as [Hb Hi]. apply orb_false_elim in Hb as [_ Hl].
    assert (forall z c, c <> "."%char -> c <> "]"%char -> exists q,
      dropDot (unclose (unopen ((prefix ++ String "." (z ++ String c "")) ++ dot))) = q ++ String "." (z ++ String c "")) as Hcut.
    { intros z c H1 H2. rewrite append_assoc. change (String "." (z ++ String c "") ++ dot) with (String "." ((z ++ String c "") ++ dot)).
      destruct (unopen_append prefix "." ((z ++ String c "") ++ dot) ltac:(discriminate)) as (q & ->). exists q.
      change (String "." ((z ++ String c "") ++ dot)) with ("." ++ ((z ++ String c "") ++ dot)).
      replace (q ++ "." ++ (z ++ String c "") ++ dot) with ((q ++ "." ++ z) ++ String c dot) by (rewrite !append_assoc; reflexivity).
      rewrite dropDot_zone by assumption. now rewrite !append_assoc. }
    destruct Hz as [<-|[<-|[]]].
    + destruct (Hcut "localhos" "t"%char) as (q & E); [discriminate | discriminate|].
      change (String "." ("localhos" ++ String "t" "")) with ".localhost" in E. rewrite E, endsWith_app in Hl. discriminate.
    + destruct (Hcut "interna" "l"%char) as (q & E); [discriminate | discriminate|].
      change (String "." ("interna" ++ String "l" "")) with ".internal" in E. rewrite E, endsWith_app in Hi. discriminate.
Qed.

(** What was checked before a destination is used: the scheme, no embedded
    credentials, no reserved name, every address public, and the first of them
    the one that is dialled. *)
Definition publicDestination (d : ValidatedDestination) (addresses : list ResolvedAddress) : Prop :=
  (u_protocol (de_url d) = "https:" \/ u_protocol (de_url d) = "http:") /\
  u_username (de_url d) = "" /\ u_password (de_url d) = "" /\ ~ reservedName (u_hostname (de_url d)) /\
  head addresses = Some (de_address d) /\ forall a, a ∈ addresses -> publicAddress (ad_address a).

(** The addresses are those of the URL's host: itself, when it is an address,
    or what its name resolved to. *)
Definition addressesOf {DB} (lookup : string -> M DB (list ResolvedAddress)) (url : URL) (addresses : list ResolvedAddress) : Prop :=
  let host := hostOf url in
  isIP host <> 0 /\ addresses = [mkAddress host (isIP host)] \/ isIP host = 0 /\ exists w w', lookup host w = (w', Ok addresses).

Lemma validateDestination_ok {DB} parseUrl (lookup : string -> M DB (list ResolvedAddress)) rawUrl w w' d :
  validateDestination parseUrl lookup false rawUrl w = (w', Ok d) ->
  parseUrl rawUrl = Some (de_url d) /\
  exists addresses, publicDestination d addresses /\ addressesOf lookup (de_url d) addresses.
Proof.
  unfold validateDestination. destruct (parseUrl rawUrl) as [url|]; [|intros E; inv_run].
  destruct (negb _ && negb _) eqn:Ep; [intros E; inv_run|].
  destruct (truthy _ || _) eqn:Eu; [intros E; inv_run|].
  destruct (negb (truthy _)); [intros E; inv_run|].
  destruct (negb false && blockedName _) eqn:Eb; [intros E; inv_run|]. cbn [negb andb] in Eb.
  intros E. inv_run. destruct a as [|first rest]; [inv_run|].
  destruct (negb false && existsb _ _) eqn:Ex; [inv_run|]. inv_run. subst. cbn [de_url de_address].
  apply orb_false_elim in Eu as [Eu1 Eu2]. unfold truthy in Eu1, Eu2. apply negb_false_iff, String.eqb_eq in Eu1, Eu2.
  split; [reflexivity|]. exists (first :: rest). split.
  - split; [|split; [exact Eu1|]; split; [exact Eu2|]; split; [now apply blockedName_reserved|]; split; [reflexivity|]].
    + apply andb_false_iff in Ep as [Ep|Ep]; apply negb_false_iff, String.eqb_eq in Ep; auto.
    + intros a Ha. apply isForbiddenAddress_public. cbn [negb andb] in Ex. rewrite <- not_true_iff_false, existsb_exists in Ex.
      apply not_true_iff_false. intros Hf. apply Ex. exists a. split; [now apply list_elem_of_In | exact Hf].
  - cbv zeta. destruct (isIP _ =? 0) eqn:Eip; [apply Z.eqb_eq in Eip; right | apply Z.eqb_neq in Eip; left; inv_run; split; [exact Eip | congruence]].
    split; [exact Eip|].
    unfold resolve, tryCatch in Hm. destruct (lookup _ _) as [w2 [l|e]] eqn:El; [injection Hm as -> ->; eauto | inv_run].
Qed.

(** The comment on [embeddedIpv4] lists IPv4-compatible addresses, but their
    hexadecimal form, which is what a URL parser makes of [[::10.0.0.1]], is
    not read as one: the same address is refused dotted and allowed in hex. *)
Lemma compatible_hex_allowed :
  ipv6 "::a00:1" = ipv6 "::10.0.0.1" /\ isForbiddenAddress "::10.0.0.1" = true /\ isForbiddenAddress "::a00:1" = false.
Proof. vm_compute. auto. Qed.
