(* ===== verification/Bounded.v ===== *)
(** * Bounded: bounded queries at the storage boundary ([storage/bounded.ts]) *)

From S2P Require Import Prelude JsString JsTime Errors Models Store.
From Stdlib Require Import ZArith Lia.
Local Open Scope string_scope.

Definition FELTDB_QUERY_PAGE_LIMIT : nat := 1000.

Section bounded.
Context {DB : Type} `{FeltDBLaws DB}.

(** The [while] loop; every page but the last adds a record, so [max]
    rounds are enough ([boundedFind_spec]). *)
Fixpoint boundedLoop {V} (fuel : nat) (c : coll V) (matches : V -> bool) (max : nat)
  (found : list V) (cursor : option string) : M DB (list V) :=
  if Nat.ltb (length found) max then
    match fuel with
    | O => throw (JsError "Error" "the store returned too many empty pages")
    | S fuel =>
        page ← query c matches (Nat.min FELTDB_QUERY_PAGE_LIMIT (max - length found)) cursor;
        let found := (found ++ List.filter matches (fst page))%list in
        match snd page with
        | Some next =>
            if negb (truthy next) || Nat.eqb (length (fst page)) 0 then mret (take max found)
            else boundedLoop fuel c matches max found (Some next)
        | None => mret (take max found)
        end
    end
  else mret (take max found).

(** At most [max] records for which [matches] holds. *)
Definition boundedFind {V} (c : coll V) (matches : V -> bool) (max : nat) : M DB (list V) :=
  boundedLoop max c matches max [] None.

Lemma filter_all {V} (p : V -> bool) l : Forall (fun x => p x = true) l -> List.filter p l = l.
Proof. induction 1 as [|x l Hx _ IH]; cbn; [reflexivity | rewrite Hx, IH; reflexivity]. Qed.

Lemma boundedLoop_spec {V} (c : coll V) p max w l (pos : string -> nat) :
  quiet w -> Forall (fun x => p x = true) l ->
  (forall limit cursor, (0 < limit)%nat ->
      let i := match cursor with Some s => pos s | None => O end in
      exists n next, db_query c p limit cursor (w_db w) = (w_db w, Ok (take n (drop i l), next)) /\
        (n <= limit)%nat /\
        match next with
        | None => (length l <= i + n)%nat
        | Some s => s <> "" /\ (0 < n <= length l - i)%nat /\ pos s = (i + n)%nat
        end) ->
  forall fuel found cursor,
    let i := match cursor with Some s => pos s | None => O end in
    found = take i l -> (i <= length l)%nat -> (max <= i + fuel)%nat ->
    wp (boundedLoop fuel c p max found cursor) (fun o w' => w' = w /\ o = Ok (take max l)) w.
Proof.
  intros Hq Hp Hpage. induction fuel as [|fuel IH]; intros found cursor i -> Hi Hf.
  - cbn [boundedLoop]. rewrite length_take_le by exact Hi.
    destruct (Nat.ltb_spec i max); [lia|]. apply wp_ret. split; [reflexivity|].
    rewrite take_take. f_equal. f_equal. lia.
  - cbn [boundedLoop]. rewrite length_take_le by exact Hi.
    destruct (Nat.ltb_spec i max) as [Hlt|Hge];
      [|apply wp_ret; split; [reflexivity|]; rewrite take_take; f_equal; f_equal; lia].
    destruct (Hpage (Nat.min FELTDB_QUERY_PAGE_LIMIT (max - i)) cursor) as (n & next & Hdb & Hn & Hnext);
      [unfold FELTDB_QUERY_PAGE_LIMIT; lia|]. fold i in Hdb, Hnext.
    apply wp_bind. eapply wp_dbop; [exact Hq | exact Hdb|]. rewrite world_db_eta. cbn [fst snd].
    rewrite filter_all by (apply Forall_take, Forall_drop, Hp). rewrite take_take_drop.
    destruct next as [s|].
    + destruct Hnext as (Hs & Hn0 & Hpos).
      replace (negb (truthy s)) with false by (symmetry; apply negb_false_iff, truthy_spec, Hs).
      rewrite length_take_le by (rewrite length_drop; lia).
      replace (Nat.eqb n 0) with false by (symmetry; apply Nat.eqb_neq; lia). cbn [orb].
      apply (IH _ (Some s)); rewrite Hpos; [reflexivity | lia | lia].
    + apply wp_ret. split; [reflexivity|]. f_equal.
      rewrite take_take. rewrite !take_ge by lia. reflexivity.
Qed.

(** The loop ends, and returns the first [max] of an enumeration of the
    matching records, without touching the world. *)
Lemma boundedFind_spec {V} (c : coll V) p max (w : World DB) :
  quiet w ->
  wp (boundedFind c p max)
     (fun o w' => w' = w /\ exists l, enumerates c p (w_db w) l /\ o = Ok (take max l)) w.
Proof.
  intros Hq. destruct (law_query V c p (w_db w)) as (l & pos & He & Hpage); [apply Hq|].
  eapply wp_mono; [eapply (boundedLoop_spec c p max w l pos Hq)|].
  - destruct He as (ks & _ & _ & Hp & _). exact Hp.
  - exact Hpage.
  - reflexivity.
  - lia.
  - lia.
  - intros o w' [-> ->]. eauto.
Qed.
End bounded.
