(* ===== verification/Evidence.v ===== *)
(** * Evidence: the durable record of service effects ([authority/evidence.ts]) *)

From S2P Require Import Prelude JsString Encoding JsTime Errors Models Store Principal Manifest Bounded.
From Stdlib Require Import ZArith Lia Ascii Sorting.Sorted.
Local Open Scope string_scope.
Local Open Scope Z_scope.

(** ** Lifecycle *)

Inductive EffectEvidenceState := EStarted | ECompleted | EFailed.

#[global] Instance EffectEvidenceState_eq_dec : EqDecision EffectEvidenceState.
Proof. solve_decision. Defined.

Definition evidenceState (outcome : EffectOutcome) : EffectEvidenceState :=
  match outcome with
  | Started => EStarted
  | Succeeded => ECompleted
  | _ => EFailed
  end.

(** [None] is ['none']. *)
Definition aggregateState (records : list EffectEvidenceState) : option EffectEvidenceState :=
  match records with
  | [] => None
  | _ => if existsb (fun s => bool_decide (s = EFailed)) records then Some EFailed
         else if existsb (fun s => bool_decide (s = EStarted)) records then Some EStarted
         else Some ECompleted
  end.

(** ** The guard against credential material *)

(** [s.includes(p)]. *)
Fixpoint includes (s p : string) : bool :=
  String.prefix p s || match s with String _ r => includes r p | EmptyString => false end.

(** [credential(?!Ref)], case-insensitively, in a lower-cased string. *)
Fixpoint credentialNotRef (s : string) : bool :=
  (startsWith s "credential" && negb (startsWith s "credentialref")) ||
  match s with String _ r => credentialNotRef r | EmptyString => false end.

(** [SECRET_KEY] *)
Definition secretKey (key : string) : bool :=
  let k := toLowerCase key in
  existsb (includes k) ["secret"; "token"; "password"; "authorization"; "apikey"; "api_key"; "api-key"; "signature"]
  || credentialNotRef k.


(** [app_live_[0-9a-f]{6}_] somewhere in a lower-cased string. *)
Fixpoint hasKeyPrefix (s : string) : bool :=
  (startsWith s "app_live_" &&
     (let r := sliceFrom 9 s in
      Nat.eqb (String.length (sliceTo 6 r)) 6 && all isHexLower (sliceTo 6 r) &&
      startsWith (sliceFrom 6 r) "_")) ||
  match s with String _ r => hasKeyPrefix r | EmptyString => false end.

(** [^bearer\s] *)
Definition isBearer (s : string) : bool :=
  startsWith s "bearer" &&
  match sliceFrom 6 s with String c _ => isSpace c | EmptyString => false end.

(** [SECRET_VALUE] *)
Definition secretValue (value : string) : bool :=
  let v := toLowerCase value in
  hasKeyPrefix v || isBearer v || includes v "-----begin".

(** [assertEvidenceHasNoSecrets], over the entries of the object. *)
Fixpoint assertEvidenceHasNoSecrets (entries : list (string * jsval)) : outcome unit :=
  match entries with
  | [] => Ok tt
  | (key, value) :: rest =>
      if String.eqb key "credentialVersion" then
        match value with
        | JUndef | JInt _ => assertEvidenceHasNoSecrets rest
        | _ => Throw (JsError "Error" ("Evidence field " ++ quoted "credentialVersion" ++ " must be an integer"))
        end
      else if negb (String.eqb key "credentialRef") && secretKey key then
        Throw (JsError "Error" ("Evidence field " ++ quoted key ++ " is not permitted"))
      else if match value with JStr s => secretValue s | _ => false end then
        Throw (JsError "Error" ("Evidence field " ++ quoted key ++ " contains credential material"))
      else if String.eqb key "credentialRef" && negb (isUndef value) &&
              negb (match value with JStr s => startsWith s "credential-ref:" | _ => false end) then
        Throw (JsError "Error" "Evidence may reference credentials only by credential-ref")
      else assertEvidenceHasNoSecrets rest
  end.

Definition outcomeName (o : EffectOutcome) : string :=
  match o with
  | Started => "started" | Succeeded => "succeeded" | Failed => "failed"
  | ProviderError => "provider_error" | OutcomeDenied => "denied"
  end.

Definition decisionName (d : EvidenceDecision) : string :=
  match d with Allow => "allow" | Deny => "deny" | NoDecision => "none" end.

(** An absent optional field is no property of the object. *)
Definition optEntry (key : string) (v : option string) : list (string * jsval) :=
  match v with Some s => [(key, JStr s)] | None => [] end.

(** [Object.entries(evidence)] *)
Definition evidenceEntries (e : EffectEvidence) : list (string * jsval) :=
  [("id", JStr (e_id e)); ("application", JStr (e_application e)); ("tenantId", JStr (e_tenantId e));
   ("principalId", JStr (e_principalId e)); ("principalType", JStr (e_principalType e))]
  ++ optEntry "delegationId" (e_delegationId e) ++ optEntry "runId" (e_runId e)
  ++ [("capability", JStr (e_capability e)); ("capabilityVersion", JInt (e_capabilityVersion e));
      ("resource", JStr (e_resource e)); ("decision", JStr (decisionName (e_decision e)))]
  ++ optEntry "decisionId" (e_decisionId e) ++ optEntry "credentialRef" (e_credentialRef e)
  ++ match e_credentialVersion e with Some v => [("credentialVersion", JInt v)] | None => [] end
  ++ [("service", JStr (e_service e))] ++ optEntry "provider" (e_provider e)
  ++ [("requestId", JStr (e_requestId e)); ("startedAt", JStr (e_startedAt e))]
  ++ optEntry "completedAt" (e_completedAt e)
  ++ [("outcome", JStr (outcomeName (e_outcome e)))] ++ optEntry "failureCode" (e_failureCode e).

(** The updates [complete] accepts. *)
Record EvidenceUpdate := mkUpdate {
  u_outcome : EffectOutcome;
  u_completedAt : string;
  u_failureCode : option string;
  u_credentialRef : option string;
  u_credentialVersion : option Z }.

Definition updateEntries (u : EvidenceUpdate) : list (string * jsval) :=
  [("outcome", JStr (outcomeName (u_outcome u))); ("completedAt", JStr (u_completedAt u))]
  ++ optEntry "failureCode" (u_failureCode u) ++ optEntry "credentialRef" (u_credentialRef u)
  ++ match u_credentialVersion u with Some v => [("credentialVersion", JInt v)] | None => [] end.

Definition orOld {A} (new old : option A) : option A := match new with Some _ => new | None => old end.

(** [{ ...current, ...updates }] *)
Definition applyUpdate (u : EvidenceUpdate) (e : EffectEvidence) : EffectEvidence :=
  e <| e_outcome := u_outcome u |> <| e_completedAt := Some (u_completedAt u) |>
    <| e_failureCode := orOld (u_failureCode u) (e_failureCode e) |>
    <| e_credentialRef := orOld (u_credentialRef u) (e_credentialRef e) |>
    <| e_credentialVersion := orOld (u_credentialVersion u) (e_credentialVersion e) |>.

(** ** [FeltDbEffectEvidenceStore] *)

Section store.
Context {DB : Type} `{FeltDB DB}.

Definition ev_record (e : EffectEvidence) : M DB unit :=
  _ ← ofOutcome (assertEvidenceHasNoSecrets (evidenceEntries e));
  transaction [TxPut CEvidence (e_id e) true None e].

Definition ev_complete (id : string) (u : EvidenceUpdate) : M DB unit :=
  _ ← ofOutcome (assertEvidenceHasNoSecrets (updateEntries u));
  current ← get CEvidence id;
  match current with
  | None => throw (JsError "Error" ("Evidence " ++ id ++ " not found"))
  | Some e => update CEvidence id (applyUpdate u e)
  end.

Definition ev_get (id : string) : M DB (option EffectEvidence) := get CEvidence id.

Definition ev_list (tenantId : string) : M DB (list EffectEvidence) :=
  find CEvidence (fun e => String.eqb (e_tenantId e) tenantId).

Definition ev_findByDecision (decisionId : string) : M DB (list EffectEvidence) :=
  find CEvidence (fun e => oeqb (e_decisionId e) (Some decisionId)).

Definition runMatches (runId : string) (application tenantId : option string) (e : EffectEvidence) : bool :=
  oeqb (e_runId e) (Some runId)
  && match ifPresent application with Some a => String.eqb (e_application e) a | None => true end
  && match ifPresent tenantId with Some t => String.eqb (e_tenantId e) t | None => true end.

Definition ev_findByRunId (runId : string) (limit : nat) (application tenantId : option string)
  : M DB (list EffectEvidence) :=
  boundedFind CEvidence (runMatches runId application tenantId) limit.

(** ** [createEvidenceReader] *)

Definition DEFAULT_EVIDENCE_LOOKUP_LIMIT : Z := 100.
Definition MAX_EVIDENCE_LOOKUP_LIMIT : Z := 1000.

Record EffectEvidenceLookup := mkLookup {
  lk_runId : string;
  lk_state : option EffectEvidenceState;
  lk_records : list (EffectEvidence * EffectEvidenceState);
  lk_truncated : bool }.

(** A row without its record version. *)
Definition stripVersion (row : EffectEvidence) : EffectEvidence := row <| e_version := 0 |>.

Variable localeLe : string -> string -> bool.

(** Oldest first, ties by identifier. *)
Definition recordLe (a b : EffectEvidence * EffectEvidenceState) : bool :=
  let s := e_startedAt a.1 in let t := e_startedAt b.1 in
  localeLe s t && (negb (localeLe t s) || localeLe (e_id a.1) (e_id b.1)).

Definition lookupRun (application runId : string) (limit : Z) (tenantId : option string)
  : M DB EffectEvidenceLookup :=
  rows ← ev_findByRunId runId (Z.to_nat (limit + 1)) (Some application) tenantId;
  let matching := List.filter (fun row => oeqb (e_runId row) (Some runId)
        && String.eqb (e_application row) application
        && match ifPresent tenantId with Some t => String.eqb (e_tenantId row) t | None => true end) rows in
  let records := sortBy recordLe
        (map (fun row => (stripVersion row, evidenceState (e_outcome row))) (take (Z.to_nat limit) matching)) in
  mret (mkLookup runId (aggregateState (map snd records)) records
          (Z.ltb limit (Z.of_nat (length matching)))).

Definition findByRunId (application runId : string) (limitInput : jsval) (tenantId : option string)
  : M DB EffectEvidenceLookup :=
  if negb (truthy runId) then throw (JsError "TypeError" "findByRunId requires a non-empty runId")
  else match limitInput with
  | JUndef | JNull => lookupRun application runId DEFAULT_EVIDENCE_LOOKUP_LIMIT tenantId
  | JInt n =>
      if (n <? 1) || (MAX_EVIDENCE_LOOKUP_LIMIT <? n)
      then throw (JsError "RangeError" "limit must be an integer from 1 to 1000")
      else lookupRun application runId n tenantId
  | _ => throw (JsError "RangeError" "limit must be an integer from 1 to 1000")
  end.
End store.

(** ** Reading the evidence of a run *)

Lemma aggregateState_spec l :
  (aggregateState l = None <-> l = []) /\
  (aggregateState l = Some EFailed <-> In EFailed l) /\
  (aggregateState l = Some ECompleted <-> l <> [] /\ forall s, In s l -> s = ECompleted).
Proof.
  assert (forall st, existsb (fun s => bool_decide (s = st)) l = true <-> In st l) as Hin.
  { intros st. rewrite existsb_exists. split.
    - intros (s & Hs & Hb). apply bool_decide_eq_true in Hb as ->. exact Hs.
    - intros Hs. exists st. split; [exact Hs | now apply bool_decide_eq_true]. }
  pose proof (Hin EFailed) as Hf. pose proof (Hin EStarted) as Hst. unfold aggregateState.
  destruct l as [|a l]; [cbn; repeat split; try tauto; try discriminate; intros [[] _]; reflexivity|].
  destruct (existsb _ (a :: l)) eqn:Ef.
  { assert (In EFailed (a :: l)) as Hi by tauto. repeat split; try discriminate; auto.
    intros [_ Hall]. discriminate (Hall _ Hi). }
  destruct (existsb (fun s => bool_decide (s = EStarted)) (a :: l)) eqn:Es.
  { assert (In EStarted (a :: l)) as Hi by tauto.
    split; [split; discriminate|]. split; [split; [discriminate | intros; exfalso; intuition discriminate]|].
    split; [discriminate|]. intros [_ Hall]. discriminate (Hall _ Hi). }
  split; [split; discriminate|]. split; [split; [discriminate | intros; exfalso; intuition discriminate]|].
  split; [|reflexivity]. intros _. split; [discriminate|]. intros [] Hi; [exfalso | reflexivity | exfalso]; intuition discriminate.
Qed.

Section reading.
Context {DB : Type} `{FeltDBLaws DB}.
Variable localeLe : string -> string -> bool.

(** What a lookup returns, for [l] the rows of the run. *)
Definition lookupOf (runId : string) (limit : nat) (l : list EffectEvidence) (k : EffectEvidenceLookup) : Prop :=
  lk_runId k = runId /\
  lk_records k ≡ₚ map (fun row => (stripVersion row, evidenceState (e_outcome row))) (take limit l) /\
  Sorted (fun a b => recordLe localeLe a b = true) (lk_records k) /\
  lk_state k = aggregateState (map snd (lk_records k)) /\
  (lk_truncated k = true <-> (limit < length l)%nat).

Lemma recordLe_total :
  (forall a b, localeLe a b = false -> localeLe b a = true) ->
  forall a b, recordLe localeLe a b = false -> recordLe localeLe b a = true.
Proof.
  intros Htot a b. unfold recordLe.
  destruct (localeLe (e_startedAt a.1) (e_startedAt b.1)) eqn:E1; cbn [andb].
  - destruct (localeLe (e_startedAt b.1) (e_startedAt a.1)); cbn; [|discriminate].
    intros E. apply Htot, E.
  - intros _. rewrite (Htot _ _ E1). reflexivity.
Qed.

Lemma lookupRun_spec application runId limit tenantId (w : World DB) :
  (forall a b, localeLe a b = false -> localeLe b a = true) ->
  quiet w -> application <> "" -> 0 < limit ->
  wp (lookupRun localeLe application runId limit tenantId)
     (fun o w' => w' = w /\ exists l k, o = Ok k /\
        enumerates CEvidence (runMatches runId (Some application) tenantId) (w_db w) l /\
        lookupOf runId (Z.to_nat limit) l k) w.
Proof.
  intros Htot Hq Happ Hlim. unfold lookupRun, ev_findByRunId. apply wp_bind.
  eapply wp_mono; [apply boundedFind_spec, Hq|]. intros o w' (-> & l & Hl & ->). apply wp_ret.
  split; [reflexivity|]. exists l. eexists. split; [reflexivity|]. split; [exact Hl|].
  rewrite filter_all.
  2: { apply Forall_take. destruct Hl as (_ & _ & _ & Hp & _). eapply Forall_impl; [exact Hp|].
       intros row Hrow. unfold runMatches, ifPresent in Hrow. apply truthy_spec in Happ.
       rewrite Happ in Hrow. exact Hrow. }
  rewrite take_take, Nat.min_l by lia.
  split; [reflexivity|]. cbn [lk_records lk_state lk_truncated].
  split; [apply sortBy_perm|]. split; [apply sortBy_sorted, recordLe_total, Htot|].
  split; [reflexivity|]. rewrite length_take, Z.ltb_lt. lia.
Qed.
End reading.

(** ** The guard, on what the program records *)

Lemma all_prefix Q p s : startsWith s p = true -> all Q s = true -> all Q p = true.
Proof.
  intros Hs Ha. rewrite (startsWith_split s p Hs), all_append in Ha. now apply andb_prop in Ha.
Qed.

Lemma all_tail Q c s : all Q (String c s) = true -> all Q s = true.
Proof. cbn. intros Ha. now apply andb_prop in Ha. Qed.

Lemma includes_sub Q p s : includes s p = true -> all Q s = true -> all Q p = true.
Proof.
  induction s as [|c s IH]; cbn [includes]; intros Hi Ha; apply orb_prop in Hi as [Hi|Hi];
    try (eapply all_prefix; eassumption); [discriminate|].
  apply IH; [exact Hi | eapply all_tail, Ha].
Qed.

Definition notAB (c : ascii) : bool := negb (Ascii.eqb c "a") && negb (Ascii.eqb c "b").

Lemma notAB_clean s : all notAB (toLowerCase s) = true -> secretValue s = false.
Proof.
  unfold secretValue. generalize (toLowerCase s). clear s. intros s Ha.
  assert (hasKeyPrefix s = false) as ->.
  { apply not_true_iff_false. intros Hk. induction s as [|c s IH]; [discriminate Hk|].
    cbn [hasKeyPrefix] in Hk. apply orb_prop in Hk as [Hk|Hk]; [|exact (IH (all_tail _ _ _ Ha) Hk)].
    apply andb_prop in Hk as [Hk _]. discriminate (all_prefix _ _ _ Hk Ha). }
  assert (isBearer s = false) as ->.
  { apply not_true_iff_false. intros Hk. apply andb_prop in Hk as [Hk _].
    discriminate (all_prefix _ _ _ Hk Ha). }
  apply not_true_iff_false. intros Hk. discriminate (includes_sub _ _ _ Hk Ha).
Qed.

Lemma isoChar_lower c s : all isoChar (String c s) = true ->
  exists d, toLowerCase (String c s) = String d (toLowerCase s) /\ notAB d = true.
Proof.
  cbn. intros Ha. apply andb_prop in Ha as [Ha _]. eexists. split; [reflexivity|].
  destruct c as [[] [] [] [] [] [] [] []]; vm_compute in Ha; try discriminate Ha; reflexivity.
Qed.

(** A printed date is never taken for credential material. *)
Lemma toISO_clean t s : toISO t = Some s -> secretValue s = false.
Proof.
  intros Hs. apply notAB_clean. apply toISO_chars in Hs. clear t.
  induction s as [|c s IH]; [reflexivity|].
  destruct (isoChar_lower c s Hs) as (d & -> & Hd). cbn. rewrite Hd. apply IH, (all_tail _ _ _ Hs).
Qed.

(** A credential reference the guard lets through. *)
Definition cleanRef (o : option string) : Prop :=
  match o with Some r => startsWith r "credential-ref:" = true /\ secretValue r = false | None => True end.

Lemma guard_ref entries r :
  assertEvidenceHasNoSecrets entries = Ok tt -> In ("credentialRef", JStr r) entries -> cleanRef (Some r).
Proof.
  induction entries as [|[key value] rest IH]; [intros _ []|]. cbn [assertEvidenceHasNoSecrets].
  intros Hg [[= -> ->]|Hin].
  - cbn -[secretValue startsWith] in Hg. destruct (secretValue r) eqn:Es; [discriminate|].
    destruct (startsWith r "credential-ref:") eqn:Ep; [split; assumption | discriminate].
  - apply IH; [|exact Hin]. repeat case_hyp Hg; try discriminate; exact Hg.
Qed.

Lemma update_clean o at_ t code ref v :
  toISO t = Some at_ -> match code with Some c => secretValue c = false | None => True end -> cleanRef ref ->
  assertEvidenceHasNoSecrets (updateEntries (mkUpdate o at_ code ref v)) = Ok tt.
Proof.
  intros Ht Hc Hr. apply toISO_clean in Ht.
  unfold updateEntries. cbn [u_outcome u_completedAt u_failureCode u_credentialRef u_credentialVersion].
  assert (secretValue (outcomeName o) = false) as Ho by (destruct o; reflexivity).
  destruct code as [c|], ref as [r|], v as [v|]; cbn -[secretValue startsWith] in *;
    rewrite ?Ho, ?Ht, ?Hc; cbn -[secretValue startsWith]; try reflexivity;
    destruct Hr as [Hr1 Hr2]; rewrite Hr1, Hr2; reflexivity.
Qed.

(** What the guard accepts carries no credential material in any field. *)
Lemma guard_sound entries key value :
  assertEvidenceHasNoSecrets entries = Ok tt -> In (key, JStr value) entries ->
  secretValue value = false /\
  (key = "credentialRef" -> startsWith value "credential-ref:" = true) /\
  (key <> "credentialRef" -> key <> "credentialVersion" -> secretKey key = false).
Proof.
  induction entries as [|[k v] rest IH]; [intros _ []|]. intros Hg [E|Hin].
  - injection E as -> ->. cbn -[secretValue startsWith secretKey String.eqb] in Hg.
    destruct (String.eqb_spec key "credentialVersion") as [->|Hv]; [discriminate Hg|].
    destruct (String.eqb_spec key "credentialRef") as [->|Hr]; cbn -[secretValue startsWith secretKey] in Hg;
      repeat case_hyp Hg; try discriminate Hg; bool_hyps; repeat split; try assumption; try congruence.
    all: destruct (startsWith value _); congruence.
  - apply IH; [|exact Hin]. clear -Hg. cbn -[secretValue startsWith secretKey String.eqb] in Hg.
    repeat case_hyp Hg; try discriminate Hg; exact Hg.
Qed.
