(* ===== verification/Gateway.v ===== *)
(** * Gateway: the policy enforcement point

    [authority/context.ts], [authority/authorizer.ts] and
    [authority/gateway.ts].  The AuthBoundry client, the host's credential
    custody and the API-key check bound to a principal are parameters of the
    gateway, as in the source. *)

From S2P Require Import Prelude JsString JsTime Errors Models Store Principal Manifest Evidence.
From Stdlib Require Import ZArith Lia Ascii.
Local Open Scope string_scope.
Local Open Scope Z_scope.

(** ** Execution contexts ([authority/context.ts]) *)

Definition resourceUri (application : string) (resource : ServiceResource) : string :=
  "appport://" ++ encodeURIComponent application ++ "/tenants/" ++
  encodeURIComponent (r_tenantId resource) ++ "/" ++ encodeURIComponent (r_type resource) ++ "/" ++
  encodeURIComponent (orElse (r_id resource) "*").

(** A value handed over as a context: one the gateway issued, or any other. *)
Inductive ContextInput :=
| Issued (x : ServiceExecutionContext)
| NotIssued.

(** [new Date(s)] of a stored time: an ISO string this program printed. *)
Definition dateOf (s : string) : option Z := parseDate (fun _ => None) s.

(** [new Date(s).getTime() <= t] ([NaN <= t] is false). *)
Definition dateLe (s : string) (t : Z) : bool :=
  match dateOf s with Some u => u <=? t | None => false end.

Definition assertExecutionContext (value : ContextInput) (capability : string)
  (tenantId : option string) (now : Z) : outcome ServiceExecutionContext :=
  match value with
  | NotIssued => Throw (ServiceAuthorityError UNAUTHENTICATED
      "A gateway-issued execution context is required" (capabilityOnly capability))
  | Issued x =>
      if negb (String.eqb (x_capability x) capability) then
        Throw (ServiceAuthorityError DENIED
          ("Execution context was authorized for " ++ x_capability x ++ ", not " ++ capability) (capabilityOnly capability))
      else if match tenantId with Some t => negb (String.eqb (x_tenantId x) t) | None => false end then
        Throw (ServiceAuthorityError DENIED "Cross-tenant service operation denied"
          (mkDetails (Some capability) None (Some "tenant_mismatch")))
      else if dateLe (x_expiresAt x) now then
        Throw (ServiceAuthorityError DENIED "Execution context has expired"
          (mkDetails (Some capability) (Some (a_decisionId (x_authorization x))) None))
      else Ok x
  end.

(** [contextInput?.capability]; for a value that was not issued it is not read. *)
Definition ownCapability (value : ContextInput) : string :=
  match value with Issued x => x_capability x | NotIssued => "undefined" end.

Definition consumeExecutionContext {DB} (value : ContextInput) (capability : string)
  (tenantId : option string) : M DB ServiceExecutionContext :=
  t ← systemMs;
  context ← ofOutcome (assertExecutionContext value capability tenantId t);
  used ← ask (fun w : World DB => bool_decide (x_identity context ∈ w_consumed w));
  if (used : bool) then throw (ServiceAuthorityError DENIED "Execution context has already been used"
         (mkDetails (Some capability) (Some (a_decisionId (x_authorization context))) None))
  else
    _ ← modify (fun w : World DB => w <| w_consumed := x_identity context :: w_consumed w |>);
    mret context.

(** [mintExecutionContext]: the frozen copy is a new object. *)
Definition mintExecutionContext {DB} (build : nat -> ServiceExecutionContext)
  : M DB ServiceExecutionContext := fun w =>
  (w <| w_minted := S (w_minted w) |>, Ok (build (w_minted w))).

(** ** The gateway's collaborators *)

(** What AuthBoundry does with a request: it answers, it throws, or it has not
    answered when the timeout fires. *)
Inductive Answer :=
| Decides (d : option ServiceAuthorizationDecision)
| Fails (e : exn)
| NoAnswer.

(** The host's credential custody: none, one that only resolves, or one that
    also stores and reports ([isSecretCustody]). *)
Inductive Credentials (DB : Type) :=
| NoCredentials
| Resolver (withSecret : forall T : Type, SecretReference -> SecretAccessContext ->
    (ResolvedSecret -> M DB T) -> M DB T)
| Custody (withSecret : forall T : Type, SecretReference -> SecretAccessContext ->
    (ResolvedSecret -> M DB T) -> M DB T)
    (status : SecretReference -> SecretAccessContext -> M DB (option RawCustodyStatus))
    (store : SecretReference -> string -> SecretAccessContext -> M DB (option RawStoreResult)).
Arguments NoCredentials {DB}. Arguments Resolver {DB} _. Arguments Custody {DB} _ _ _.

Record ServiceGateway (DB : Type) := mkGateway {
  g_application : string;
  g_authorizer : option (ServiceAuthorizationRequest -> M DB Answer);
  g_credentials : Credentials DB;
  g_timeoutMs : Z;
  g_extensionCapabilities : list ServiceCapability;
  (** The check [bindCredentialCheck] attached to API-key principals. *)
  g_check : VerifiedPrincipal -> string -> ServiceResource -> M DB unit }.
Arguments g_application {DB}. Arguments g_authorizer {DB}. Arguments g_credentials {DB}.
Arguments g_timeoutMs {DB}. Arguments g_extensionCapabilities {DB}. Arguments g_check {DB}.
Arguments mkGateway {DB}.

Definition DEFAULT_AUTHORIZATION_TIMEOUT_MS : Z := 5000.
Definition CONTEXT_TTL_MS : Z := 60000.

Definition declared (seen : list ServiceCapability) (name : string) : bool :=
  match getServiceCapability name with
  | Some _ => true
  | None => existsb (fun c => String.eqb (c_name c) name) seen
  end.

(** The extension's namespace, or [""]. *)
Definition extensionNamespace (service : string) : string :=
  if startsWith service "extension:" then sliceFrom 10 service else "".

Fixpoint checkExtensions (seen todo : list ServiceCapability) : outcome (list ServiceCapability) :=
  match todo with
  | [] => Ok seen
  | c :: rest =>
      if declared seen (c_name c) then
        Throw (JsError "Error" ("Extension capability " ++ quoted (c_name c) ++ " is already declared"))
      else
        let namespace := extensionNamespace (c_service c) in
        if negb (truthy namespace) || negb (startsWith (c_name c) (namespace ++ ".")) ||
           c_invocable c || negb (c_required c) then
          Throw (JsError "Error" ("Extension capability " ++ quoted (c_name c) ++
            " must come from a defined extension (extension:<id>, <id>.<name>, not invocable, authorization required)"))
        else checkExtensions (seen ++ [c])%list rest
  end.

(** The constructor. *)
Definition newGateway {DB} (application : string)
  (authorizer : option (ServiceAuthorizationRequest -> M DB Answer)) (credentials : Credentials DB)
  (authorizationTimeoutMs : option Z) (extensionCapabilities : list ServiceCapability)
  (check : VerifiedPrincipal -> string -> ServiceResource -> M DB unit) : outcome (ServiceGateway DB) :=
  if blank application then Throw (JsError "Error" "ServiceGateway requires an application")
  else match checkExtensions [] extensionCapabilities with
       | Ok ext => Ok (mkGateway application authorizer credentials
                         (orElse authorizationTimeoutMs DEFAULT_AUTHORIZATION_TIMEOUT_MS) ext check)
       | Throw e => Throw e
       end.

Definition capability {DB} (g : ServiceGateway DB) (name : string) : option ServiceCapability :=
  match getServiceCapability name with
  | Some c => Some c
  | None => List.find (fun c => String.eqb (c_name c) name) (g_extensionCapabilities g)
  end.

Definition identify {DB} (g : ServiceGateway DB) (claims : option PrincipalClaims)
  : outcome (option VerifiedPrincipal) :=
  match claims with
  | None => Ok None
  | Some c =>
      if present (pc_applicationId c) && negb (oeqb (pc_applicationId c) (Some (g_application g))) then
        Throw (ServiceAuthorityError DENIED "Identity belongs to a different application"
          (reasonOnly "application_mismatch"))
      else match mintVerifiedPrincipal c ByHost with Ok p => Ok (Some p) | Throw e => Throw e end
  end.

(** ** Asking AuthBoundry *)

Definition assertOwnership (application : string) (principal : VerifiedPrincipal)
  (resource : ServiceResource) (cap : string) : outcome unit :=
  if negb (truthy (r_tenantId resource)) ||
     negb (String.eqb (vp_tenantId principal) (r_tenantId resource)) then
    Throw (ServiceAuthorityError DENIED "Cross-tenant service operation denied"
      (mkDetails (Some cap) None (Some "tenant_mismatch")))
  else if present (vp_applicationId principal) &&
          negb (oeqb (vp_applicationId principal) (Some application)) then
    Throw (ServiceAuthorityError DENIED "Principal belongs to a different application"
      (mkDetails (Some cap) None (Some "application_mismatch")))
  else Ok tt.

(** [validateDecision]: the decision as a well-typed answer to this request. *)
Definition decisionMatches (request : ServiceAuthorizationRequest) (d : ServiceAuthorizationDecision) : bool :=
  match dc_decision_id d with JStr s => truthy s | _ => false end &&
  match dc_allowed d with JBool _ => true | _ => false end &&
  isStr (dc_capability d) (rq_capability request) &&
  isStr (dc_tenant_id d) (rq_tenant_id request) &&
  isStr (dc_application_id d) (rq_application_id request) &&
  isStr (dc_subject_id d) (rq_subject_id request) &&
  isStr (dc_uri d) (rq_uri request).

Definition validateDecision (request : ServiceAuthorizationRequest)
  (decision : option ServiceAuthorizationDecision) : outcome ServiceAuthorizationDecision :=
  match decision with
  | Some d =>
      if decisionMatches request d then Ok d
      else Throw (ServiceAuthorityError AUTHORITY_UNAVAILABLE
             "AuthBoundry returned a decision that does not match the request" (capabilityOnly (rq_capability request)))
  | None => Throw (ServiceAuthorityError AUTHORITY_UNAVAILABLE
             "AuthBoundry returned a decision that does not match the request" (capabilityOnly (rq_capability request)))
  end.

Section gateway.
Context {DB : Type} `{FeltDB DB}.
Variable g : ServiceGateway DB.

Definition decide_ (request : ServiceAuthorizationRequest) : M DB ServiceAuthorizationDecision :=
  match g_authorizer g with
  | None => throw (ServiceAuthorityError AUTHORITY_UNAVAILABLE
      "No AuthBoundry authorizer is configured; service effects are disabled" (capabilityOnly (rq_capability request)))
  | Some authorize =>
      answer ← authorize request;
      match answer with
      | NoAnswer => throw (ServiceAuthorityError AUTHORIZATION_TIMEOUT
          ("AuthBoundry did not decide " ++ rq_capability request ++ " within " ++ num (g_timeoutMs g) ++ "ms")
          (capabilityOnly (rq_capability request)))
      | Fails e =>
          if isServiceAuthorityError e then throw e
          else throw (ServiceAuthorityError AUTHORITY_UNAVAILABLE "AuthBoundry authorization failed"
                 (capabilityOnly (rq_capability request)))
      | Decides d => ofOutcome (validateDecision request d)
      end
  end.

Definition requestFor (c : ServiceCapability) (principal : VerifiedPrincipal)
  (resource : ServiceResource) (requestId : string) (timestamp : Z) : ServiceAuthorizationRequest :=
  mkRequest requestId (vp_principalType principal) (vp_principalId principal) (r_tenantId resource)
    (g_application g) (c_name c) (c_version c) (resourceUri (g_application g) resource)
    (r_attributes resource) timestamp (Some requestId) (ifPresent (vp_delegationId principal))
    (ifPresent (vp_runId principal)) (ifPresent (vp_credentialId principal))
    (verificationName (vp_verifiedBy principal)).

Definition decisionIdOf (d : ServiceAuthorizationDecision) : string :=
  match dc_decision_id d with JStr s => s | _ => "" end.

Definition authorize (capabilityName : string) (principalInput : Caller)
  (resource : ServiceResource) (requestId : string) : M DB ServiceExecutionContext :=
  match capability g capabilityName with
  | None => throw (invalidRequest ("Capability " ++ quoted capabilityName ++ " is not declared in the service capability manifest"))
  | Some c =>
      if negb (String.eqb (r_type resource) (c_resource c)) then
        throw (ServiceAuthorityError INVALID_REQUEST
          ("Capability " ++ quoted (c_name c) ++ " applies to " ++ c_resource c ++ " resources, not " ++ r_type resource)
          (capabilityOnly (c_name c)))
      else
        principal ← ofOutcome (requireVerifiedPrincipal principalInput);
        _ ← ofOutcome (assertOwnership (g_application g) principal resource capabilityName);
        _ ← enforceCredential (g_check g) principal (c_name c) resource;
        timestamp ← nowMs;
        decision ← decide_ (requestFor c principal resource requestId timestamp);
        if negb match dc_allowed decision with JBool b => b | _ => false end then
          throw (ServiceAuthorityError DENIED ("AuthBoundry denied " ++ c_name c)
            (mkDetails (Some (c_name c)) (Some (decisionIdOf decision)) (dc_reason decision)))
        else
          decidedAt ← nowIso;
          t ← nowMs;
          expiresAt ← isoString (t + CONTEXT_TTL_MS);
          mintExecutionContext (fun identity =>
            mkContext identity (g_application g) (r_tenantId resource) principal (c_name c) (c_version c)
              requestId resource (resourceUri (g_application g) resource)
              (mkAuthorization (decisionIdOf decision) decidedAt
                 (ifPresent (dc_policy_version decision)) (ifPresent (dc_reason decision)))
              expiresAt)
  end.

(** ** Credentials *)

(** [context.resource.attributes?.credentialRef] *)
Definition attribute (resource : ServiceResource) (key : string) : option string :=
  match r_attributes resource with Some m => m !! key | None => None end.

Definition credentialNotAuthorized (x : ServiceExecutionContext) : exn :=
  ServiceAuthorityError DENIED "Credential reference was not part of the authorized resource"
    (mkDetails (Some (x_capability x)) (Some (a_decisionId (x_authorization x))) (Some "credential_not_authorized")).

(** [safeCode]: [^[a-z][a-z0-9_]{0,63}$] *)
Definition safeCode (value : string) : bool :=
  match value with
  | String c r => isLower c && all (fun c => isLower c || isDigit c || Nat.eqb (code c) 95) r
                  && Nat.leb (String.length r) 63
  | EmptyString => false
  end.

Definition readOnly (cap : string) (location : option string) (none : bool) : exn :=
  ServiceAuthorityError CUSTODY_READ_ONLY
    (if none then "No credential custody is configured on this host, so a value cannot be stored here. Configure a SecretCustody (createServices({ credentials })), or store the credential where the host keeps credentials and attach its credential-ref."
     else match ifPresent location with
          | Some l => "This environment's credential comes from the host (" ++ l ++ ") and cannot be changed here; set it there."
          | None => "This host's credential custody is read-only: it resolves credentials but cannot store them. Store the value where the host keeps credentials (for example its secret manager or environment), or give createServices a SecretCustody."
          end)
    (mkDetails (Some cap) None (Some (if none then "custody_unconfigured" else "custody_read_only"))).

Definition secretFailure (cap : string) (code : option string) : exn :=
  let details := mkDetails (Some cap) None (Some (orElse code "unknown")) in
  if existsb (fun c => oeqb code (Some c)) ["secret_resolution_denied"; "tenant_mismatch"; "provider_mismatch"] then
    ServiceAuthorityError DENIED "Credential resolution denied by AuthBoundry" details
  else if existsb (fun c => oeqb code (Some c)) ["secret_revoked"; "secret_inactive"; "secret_expired"] then
    ServiceAuthorityError DENIED "Credential is revoked or inactive" details
  else if oeqb code (Some "secret_not_found") then
    ServiceAuthorityError DENIED "Credential reference is unknown" details
  else ServiceAuthorityError AUTHORITY_UNAVAILABLE "Credential custody is unavailable" details.

Definition mapCredentialFailure (error : exn) (cap : string) (custodyWrite : bool) : exn :=
  match error with
  | ServiceAuthorityError c _ d =>
      if negb custodyWrite then error
      else if bool_decide (c = CUSTODY_READ_ONLY) then readOnly cap None false
      else ServiceAuthorityError c ("Credential custody refused the request (" ++ codeName c ++ ")")
             (mkDetails (Some cap) None
                match d_reason d with Some r => if safeCode r then Some r else None | None => None end)
  | SecretError c _ => secretFailure cap (if custodyWrite && negb (safeCode c) then None else Some c)
  | _ => secretFailure cap None
  end.

Definition accessFor (x : ServiceExecutionContext) (purpose : string) : SecretAccessContext :=
  mkAccess (x_tenantId x) (vp_principalId (x_principal x)) purpose (Some (a_decisionId (x_authorization x))).

(** [use], with its failure noted in the marker of this call. *)
Definition marking {T} (n : nat) (use : ResolvedSecret -> M DB T) (secret : ResolvedSecret) : M DB T :=
  tryCatch (use secret) (fun error =>
    _ ← modify (fun w : World DB => w <| w_markers := <[n := error]> (w_markers w) |>);
    throw error).

Definition withCredential {T} (contextInput : ContextInput) (ref purpose : string)
  (use : ResolvedSecret -> M DB T) (provider : option string) : M DB T :=
  now ← nowMs;
  x ← ofOutcome (assertExecutionContext contextInput (ownCapability contextInput) None now);
  if negb (oeqb (attribute (x_resource x) "credentialRef") (Some ref)) then
    throw (credentialNotAuthorized x)
  else
    let reference := credentialReference ref (x_tenantId x) provider None in
    let resolve (withSecret : forall T : Type, SecretReference -> SecretAccessContext ->
                   (ResolvedSecret -> M DB T) -> M DB T) : M DB T :=
      n ← ask (fun w : World DB => w_uses w);
      _ ← modify (fun w : World DB => w <| w_uses := S (w_uses w) |>);
      tryCatch (withSecret T reference (accessFor x purpose) (marking n use)) (fun error =>
        marker ← ask (fun w : World DB => w_markers w !! n);
        match marker with
        | Some raised => throw raised
        | None => throw (mapCredentialFailure error (x_capability x) false)
        end) in
    match g_credentials g with
    | NoCredentials => throw (ServiceAuthorityError AUTHORITY_UNAVAILABLE
        "No AuthBoundry credential resolver is configured" (capabilityOnly (x_capability x)))
    | Resolver withSecret => resolve withSecret
    | Custody withSecret _ _ => resolve withSecret
    end.

Record CredentialCustodyOptions := mkCustodyOptions {
  co_purpose : string;
  co_provider : option string;
  co_kind : option string }.

(** [isSecretCustody(this.credentials)] *)
Definition custody : option ((SecretReference -> SecretAccessContext -> M DB (option RawCustodyStatus)) *
    (SecretReference -> string -> SecretAccessContext -> M DB (option RawStoreResult))) :=
  match g_credentials g with
  | Custody _ status store => Some (status, store)
  | _ => None
  end.

Definition noCredentials : bool :=
  match g_credentials g with NoCredentials => true | _ => false end.

Definition custodyContext (contextInput : ContextInput) (ref : string) : M DB ServiceExecutionContext :=
  now ← nowMs;
  x ← ofOutcome (assertExecutionContext contextInput (ownCapability contextInput) None now);
  if negb (oeqb (attribute (x_resource x) "credentialRef") (Some ref)) then
    throw (credentialNotAuthorized x)
  else mret x.

Definition isTrue (v : jsval) : bool := match v with JBool b => b | _ => false end.
Definition stringOf (v : jsval) : option string := match v with JStr s => Some s | _ => None end.

Definition storeCredential (contextInput : ContextInput) (ref value : string)
  (options : CredentialCustodyOptions) : M DB SecretCustodyWriteResult :=
  x ← custodyContext contextInput ref;
  match custody with
  | None => throw (readOnly (x_capability x) None noCredentials)
  | Some (status, store) =>
      let reference := credentialReference ref (x_tenantId x) (co_provider options) (co_kind options) in
      let access := accessFor x (co_purpose options) in
      raw ← tryCatch (status reference access)
              (fun error => throw (mapCredentialFailure error (x_capability x) true));
      if negb match raw with Some st => isTrue (cs_writable st) | None => false end then
        throw (readOnly (x_capability x)
                 match raw with Some st => stringOf (cs_location st) | None => None end false)
      else
        result ← tryCatch (store reference value access)
                   (fun error => throw (mapCredentialFailure error (x_capability x) true));
        match result with
        | Some (mkRawStore (JInt version) (JStr storedAt)) =>
            if 1 <=? version then mret (mkWriteResult version storedAt)
            else throw (ServiceAuthorityError AUTHORITY_UNAVAILABLE "Credential custody returned an invalid store result"
                          (mkDetails (Some (x_capability x)) None (Some "invalid_store_result")))
        | _ => throw (ServiceAuthorityError AUTHORITY_UNAVAILABLE "Credential custody returned an invalid store result"
                        (mkDetails (Some (x_capability x)) None (Some "invalid_store_result")))
        end
  end.

Definition safeStatus (status : option RawCustodyStatus) : outcome SecretCustodyStatus :=
  match status with
  | None => Throw (ServiceAuthorityError AUTHORITY_UNAVAILABLE "Credential custody returned an invalid status" (reasonOnly "invalid_status"))
  | Some st =>
      let known state := Ok (mkStatus state
            match cs_version st with JInt n => Some n | _ => None end
            (stringOf (cs_updatedAt st)) (stringOf (cs_location st)) (isTrue (cs_writable st))) in
      if isStr (cs_state st) "set" then known CSet
      else if isStr (cs_state st) "missing" then known CMissing
      else if isStr (cs_state st) "revoked" then known CRevoked
      else Throw (ServiceAuthorityError AUTHORITY_UNAVAILABLE "Credential custody returned an invalid status" (reasonOnly "invalid_status"))
  end.

Definition credentialStatus (contextInput : ContextInput) (ref purpose : string)
  (provider : option string) : M DB SecretCustodyStatus :=
  x ← custodyContext contextInput ref;
  match custody with
  | None => throw (readOnly (x_capability x) None noCredentials)
  | Some (status, _) =>
      tryCatch (raw ← status (credentialReference ref (x_tenantId x) provider None) (accessFor x purpose);
                ofOutcome (safeStatus raw))
        (fun error => throw (mapCredentialFailure error (x_capability x) true))
  end.

(** ** Running an effect *)

Record ExecuteOptions := mkOptions {
  o_service : string;
  o_provider : option string;
  o_credentialRef : option string;
  o_requestId : option string }.

(** The closures an effect gets; each notes the reference it was given. *)
Record EffectTools := mkTools {
  t_withCredential : forall T : Type, string -> string -> (ResolvedSecret -> M DB T) -> M DB T;
  t_storeCredential : string -> string -> CredentialCustodyOptions -> M DB SecretCustodyWriteResult;
  t_credentialStatus : string -> option (string * option string) -> M DB SecretCustodyStatus }.

Definition resolvedRefs (evidenceId : string) (w : World DB) : list string :=
  orElse (w_resolved w !! evidenceId) [].

Definition noteRef (evidenceId ref : string) : M DB unit :=
  modify (fun w : World DB =>
    w <| w_resolved := <[evidenceId := (resolvedRefs evidenceId w ++ [ref])%list]> (w_resolved w) |>).

Definition toolsFor (x : ServiceExecutionContext) (options : ExecuteOptions) (evidenceId : string) : EffectTools :=
  mkTools
    (fun T ref purpose use =>
       _ ← noteRef evidenceId ref;
       withCredential (Issued x) ref purpose use (o_provider options))
    (fun ref value custodyOptions =>
       _ ← noteRef evidenceId ref;
       result ← storeCredential (Issued x) ref value custodyOptions;
       _ ← modify (fun w : World DB => w <| w_stored := <[evidenceId := sw_version result]> (w_stored w) |>);
       mret result)
    (fun ref custodyOptions =>
       _ ← noteRef evidenceId ref;
       match custodyOptions with
       | Some (purpose, provider) => credentialStatus (Issued x) ref purpose (ifPresent provider)
       | None => credentialStatus (Issued x) ref (x_capability x) None
       end).

(** [effectiveDelegation] *)
Definition effectiveDelegation (x : ServiceExecutionContext) : option string :=
  match attribute (x_resource x) "delegationId" with
  | Some d => Some d
  | None => vp_delegationId (x_principal x)
  end.

Definition evidenceFor (x : ServiceExecutionContext) (options : ExecuteOptions)
  (id startedAt : string) (outcome : EffectOutcome) : EffectEvidence :=
  mkEvidence id (x_application x) (x_tenantId x) (vp_principalId (x_principal x))
    (vp_principalType (x_principal x)) (ifPresent (effectiveDelegation x))
    (ifPresent (vp_runId (x_principal x))) (x_capability x) (x_capabilityVersion x)
    (x_resourceUri x) Allow (Some (a_decisionId (x_authorization x)))
    (ifPresent (o_credentialRef options)) None (o_service options) (ifPresent (o_provider options))
    (x_requestId x) startedAt
    (if bool_decide (outcome = Started) then None else Some startedAt) outcome None 0.

(** [refUpdate]: the options' reference, else the first one resolved. *)
Definition refUpdate (options : ExecuteOptions) (resolved : list string) : option string :=
  ifPresent match o_credentialRef options with Some r => Some r | None => head resolved end.

Definition outcomeOf (error : exn) : EffectOutcome :=
  if hasCode PROVIDER_ERROR error then ProviderError
  else if hasCode DENIED error then OutcomeDenied
  else Failed.

Definition failureCodeOf (error : exn) : string :=
  match error with ServiceAuthorityError c _ _ => codeName c | _ => "EFFECT_FAILED" end.

Definition run {T} (contextInput : ContextInput) (options : ExecuteOptions)
  (effect : ServiceExecutionContext -> EffectTools -> M DB T) (startedAt : string) : M DB T :=
  now ← nowMs;
  x ← ofOutcome (assertExecutionContext contextInput (ownCapability contextInput) None now);
  evidenceId ← randomUUID;
  _ ← ev_record (evidenceFor x options evidenceId startedAt Started);
  tryCatch (
    result ← effect x (toolsFor x options evidenceId);
    completedAt ← nowIso;
    refs ← ask (resolvedRefs evidenceId);
    stored ← ask (fun w : World DB => w_stored w !! evidenceId);
    _ ← ev_complete evidenceId (mkUpdate Succeeded completedAt None (refUpdate options refs) stored);
    mret result)
  (fun error =>
    completedAt ← nowIso;
    refs ← ask (resolvedRefs evidenceId);
    _ ← swallow (ev_complete evidenceId
          (mkUpdate (outcomeOf error) completedAt (Some (failureCodeOf error)) (refUpdate options refs) None));
    throw error).

(** Refusals are recorded for a verified caller; a request that is malformed
    or anonymous leaves none. *)
Definition recordRefusal (cap : string) (principalInput : Caller) (resource : ServiceResource)
  (options : ExecuteOptions) (requestId startedAt : string) (error : exn) : M DB unit :=
  match error, principalInput with
  | ServiceAuthorityError c _ d, CVerified principal =>
      if bool_decide (c = INVALID_REQUEST) || bool_decide (c = UNAUTHENTICATED) then mret tt
      else
        id ← randomUUID;
        completedAt ← nowIso;
        swallow (ev_record (mkEvidence id (g_application g) (r_tenantId resource)
          (vp_principalId principal) (vp_principalType principal)
          (ifPresent (vp_delegationId principal)) (ifPresent (vp_runId principal))
          cap match capability g cap with Some k => c_version k | None => 0 end
          (resourceUri (g_application g) resource)
          (if present (d_decisionId d) then Deny else NoDecision) (ifPresent (d_decisionId d))
          None None (o_service options) (ifPresent (o_provider options)) requestId startedAt
          (Some completedAt) OutcomeDenied (Some (codeName c)) 0))
  | _, _ => mret tt
  end.

Definition execute {T} (capabilityName : string) (principalInput : Caller)
  (resource : ServiceResource) (options : ExecuteOptions)
  (effect : ServiceExecutionContext -> EffectTools -> M DB T) : M DB T :=
  requestId ← match o_requestId options with Some r => mret r | None => randomUUID end;
  startedAt ← nowIso;
  x ← tryCatch (authorize capabilityName principalInput resource requestId) (fun error =>
        _ ← recordRefusal capabilityName principalInput resource options requestId startedAt error;
        throw error);
  run (Issued x) options effect startedAt.

(** ** Durable principals *)

Definition attests (durable : DurablePrincipal) (creatingCapabilities : list string) (row : EffectEvidence) : bool :=
  bool_decide (e_decision row = Allow)
  && String.eqb (e_application row) (g_application g)
  && String.eqb (e_tenantId row) (dp_tenantId durable)
  && String.eqb (e_principalId row) (dp_principalId durable)
  && String.eqb (e_principalType row) (dp_principalType durable)
  && oeqb (e_delegationId row) (dp_delegationId durable)
  && existsb (String.eqb (e_capability row)) creatingCapabilities
  && (bool_decide (e_outcome row = Started) || bool_decide (e_outcome row = Succeeded)).

Definition attest (durable : option DurablePrincipal) (creatingCapabilities : list string) : M DB unit :=
  match durable with
  | Some d =>
      match ifPresent (dp_authorizedBy d) with
      | Some by_ =>
          rows ← ev_findByDecision by_;
          if existsb (attests d creatingCapabilities) rows then mret tt
          else throw (ServiceAuthorityError DENIED "Durable principal does not match an authorized effect"
                        (mkDetails None (Some by_) (Some "unattested_principal")))
      | None => throw (ServiceAuthorityError DENIED "Durable principal is not bound to an AuthBoundry decision"
                         (reasonOnly "unattested_principal"))
      end
  | None => throw (ServiceAuthorityError DENIED "Durable principal is not bound to an AuthBoundry decision"
                     (reasonOnly "unattested_principal"))
  end.
End gateway.
