(* ===== verification/Rely.v ===== *)
(** * Rely: reasoning under interference

    Other tasks and processes write to the store between any two calls of a
    task ([w_env]).  A [stable] world is one where whatever they do stays in a
    relation [R] (the rely) and leaves the identifiers of this process alone;
    [rg m Q w] says that [m], run from [w] among them, itself stays in [R] (the
    guarantee), leaves the world stable, and ends in [Q].  With one relation on
    both sides, operations proved this way may run beside each other. *)

From S2P Require Import Prelude JsString JsTime Errors Models Store Calm Principal Manifest Evidence Gateway.
From Stdlib Require Import ZArith Lia.
Local Open Scope string_scope.
Local Open Scope Z_scope.

(** What all writers promise each other. *)
Record Protocol (DB : Type) `{FeltDB DB} := mkProtocol {
  keeps : DB -> DB -> Prop;
  invariant : DB -> Prop;
  (** What a random identifier looks like. *)
  drawable : string -> Prop;
  #[global] protocol_preorder :: PreOrder keeps;
  protocol_inv : forall db db', invariant db -> keeps db db' -> invariant db';
  (** Evidence is never removed, and writing it is nobody's concern. *)
  protocol_evidence : forall db db' k, keeps db db' -> is_Some (peek CEvidence k db) -> is_Some (peek CEvidence k db');
  protocol_record : forall db db' k x, changed CEvidence k (Some x) db db' -> keeps db db' }.
Arguments keeps {DB _} _. Arguments invariant {DB _} _. Arguments drawable {DB _} _. Arguments protocol_inv {DB _} _.
Arguments protocol_evidence {DB _} _. Arguments protocol_record {DB _} _. Arguments mkProtocol {DB _}.

Section rely.
Context {DB : Type} `{FeltDBLaws DB} (P : Protocol DB).
#[local] Abbreviation R := (keeps P).
#[local] Abbreviation Inv := (invariant P).
Implicit Types w : World DB.

(** An interference that keeps the protocol and does not use our identifiers. *)
Definition polite (uuid : nat -> string) (f : DB -> DB) : Prop :=
  forall db, up db -> Inv db -> up (f db) /\ R db (f db) /\
    forall n V (c : coll V), peek c (uuid n) db = None -> peek c (uuid n) (f db) = None.

Definition stable w : Prop :=
  up (w_db w) /\ Inv (w_db w) /\ fresh w /\ Forall (polite (w_uuid w)) (w_env w) /\
  forall n, drawable P (w_uuid w n).

Definition onward w w' : Prop :=
  R (w_db w) (w_db w') /\ w_uuid w' = w_uuid w /\ (w_fresh w <= w_fresh w')%nat /\
  w_clock w' = w_clock w /\ (w_env w = [] -> w_env w' = []).

#[global] Instance onward_preorder : PreOrder onward.
Proof.
  split.
  - intros w. split; [reflexivity | auto].
  - intros w1 w2 w3 (A1 & B1 & C1 & D1 & E1) (A2 & B2 & C2 & D2 & E2). split; [etransitivity; eassumption|].
    split; [congruence|]. split; [lia|]. split; [congruence | auto].
Qed.

Definition rg {A} (m : M DB A) (Q : outcome A -> World DB -> Prop) w : Prop :=
  stable (m w).1 /\ onward w (m w).1 /\ Q (m w).2 (m w).1.

(** [m] keeps the protocol, whatever it comes to. *)
Definition safe {A} (m : M DB A) : Prop := forall w, stable w -> rg m (fun _ _ => True) w.

Lemma rg_mono {A} (m : M DB A) (Q Q' : outcome A -> World DB -> Prop) w :
  rg m Q w -> (forall o w', stable w' -> onward w w' -> Q o w' -> Q' o w') -> rg m Q' w.
Proof. intros (Hs & Ho & HQ) Himp. split; [exact Hs|]. split; [exact Ho|]. now apply Himp. Qed.

Lemma rg_safe {A} (m : M DB A) (Q : outcome A -> World DB -> Prop) w :
  safe m -> stable w -> (forall o w', stable w' -> onward w w' -> Q o w') -> rg m Q w.
Proof. intros Hm Hs HQ. eapply rg_mono; [apply Hm, Hs|]. intros o w' Hs' Ho _. now apply HQ. Qed.

Lemma rg_pure {A} (o : outcome A) (Q : outcome A -> World DB -> Prop) w : stable w -> Q o w -> rg (fun w => (w, o)) Q w.
Proof. intros Hs HQ. split; [exact Hs|]. split; [reflexivity | exact HQ]. Qed.

Lemma rg_ret {A} (a : A) Q w : stable w -> Q (Ok a) w -> rg (mret a) Q w.
Proof. apply (rg_pure (Ok a)). Qed.

Lemma rg_throw {A} e (Q : outcome A -> World DB -> Prop) w : stable w -> Q (Throw e) w -> rg (throw e) Q w.
Proof. apply (rg_pure (Throw e)). Qed.

Lemma rg_outcome {A} (o : outcome A) Q w : stable w -> Q o w -> rg (ofOutcome o) Q w.
Proof. apply rg_pure. Qed.

Lemma rg_onward {A} (m : M DB A) (Q : outcome A -> World DB -> Prop) w w1 :
  onward w w1 -> rg m Q w1 -> stable (m w1).1 /\ onward w (m w1).1 /\ Q (m w1).2 (m w1).1.
Proof. intros Ho (Hs & Ho' & HQ). split; [exact Hs|]. split; [etransitivity; eassumption | exact HQ]. Qed.

Lemma rg_bind {A B} (m : M DB A) (k : A -> M DB B) Q w :
  rg m (fun o w' => match o with Ok a => rg (k a) Q w' | Throw e => Q (Throw e) w' end) w -> rg (m ≫= k) Q w.
Proof.
  intros (Hs & Ho & HQ). unfold rg, mbind, M_bind in *. destruct (m w) as [w' [a|e]]; cbn [fst snd] in *.
  - now apply rg_onward.
  - auto.
Qed.

Lemma rg_tryCatch {A} (m : M DB A) h Q w :
  rg m (fun o w' => match o with Ok a => Q (Ok a) w' | Throw e => rg (h e) Q w' end) w -> rg (tryCatch m h) Q w.
Proof.
  intros (Hs & Ho & HQ). unfold rg, tryCatch in *. destruct (m w) as [w' [a|e]]; cbn [fst snd] in *.
  - auto.
  - now apply rg_onward.
Qed.

Lemma rg_swallow {A} (m : M DB A) Q w : rg m (fun _ w' => Q (Ok tt) w') w -> rg (swallow m) Q w.
Proof. exact id. Qed.

(** ** Steps that leave the store alone *)

Definition aside w w' : Prop :=
  w_db w' = w_db w /\ w_env w' = w_env w /\ w_uuid w' = w_uuid w /\ w_clock w' = w_clock w /\ (w_fresh w <= w_fresh w')%nat.

Lemma stable_aside w w' : stable w -> aside w w' -> stable w' /\ onward w w'.
Proof.
  intros (Hu & Hi & (Hj & Hf) & He & Hw) (A & B & C & D & E). unfold stable, onward, fresh. rewrite A, B, C, D.
  split; [|split; [reflexivity | auto]]. split; [exact Hu|]. split; [exact Hi|]. split; [|split; assumption].
  split; [exact Hj|]. intros n V c Hn. apply Hf. lia.
Qed.

Lemma rg_aside {A} (m : M DB A) (Q : outcome A -> World DB -> Prop) w :
  stable w -> aside w (m w).1 -> (stable (m w).1 -> onward w (m w).1 -> Q (m w).2 (m w).1) -> rg m Q w.
Proof. intros Hs Ha HQ. destruct (stable_aside _ _ Hs Ha) as [Hs' Ho]. split; [exact Hs'|]. split; [exact Ho | auto]. Qed.

Ltac aside_tac := unfold aside; cbn; repeat split; lia.

Lemma rg_nowMs Q w : stable w -> (forall t w', stable w' -> aside w w' -> Q (Ok t) w') -> rg nowMs Q w.
Proof. intros Hs HQ. apply rg_aside; [exact Hs | aside_tac|]. intros Hs' _. apply HQ; [exact Hs' | aside_tac]. Qed.

Lemma rg_isoString t Q w : stable w -> (forall o, Q o w) -> rg (isoString t) Q w.
Proof. intros Hs HQ. apply rg_outcome; auto. Qed.

Lemma rg_nowIso Q w :
  stable w -> (forall o w', stable w' -> aside w w' -> Q o w') -> rg nowIso Q w.
Proof.
  intros Hs HQ. unfold nowIso. apply rg_bind, rg_nowMs; [exact Hs|]. intros t w' Hs' Ha.
  apply rg_isoString; [exact Hs'|]. intros o. now apply HQ.
Qed.

(** A drawn identifier that nothing uses yet. *)
Definition vacant (id : string) w : Prop :=
  (exists m, (m < w_fresh w)%nat /\ id = w_uuid w m) /\ forall V (c : coll V), peek c id (w_db w) = None.

Lemma vacant_aside id w w' : vacant id w -> aside w w' -> vacant id w'.
Proof.
  intros ((m & Hm & E) & Hp) (A & _ & C & _ & D). split; [exists m; rewrite C; split; [lia | exact E]|].
  intros V c. rewrite A. apply Hp.
Qed.

Lemma rg_uuid Q w : stable w -> (forall id w', stable w' -> aside w w' -> vacant id w' -> Q (Ok id) w') -> rg randomUUID Q w.
Proof.
  intros Hs HQ. apply rg_aside; [exact Hs | aside_tac|]. intros Hs' _. apply HQ; [exact Hs' | aside_tac|].
  split; [exists (w_fresh w); cbn; split; [lia | reflexivity]|]. intros V c. cbn. apply Hs. lia.
Qed.

(** ** Calls on the store *)

Lemma stable_interfere w :
  stable w -> stable (interfere w) /\ onward w (interfere w) /\
    w_fresh (interfere w) = w_fresh w /\ forall id, vacant id w -> vacant id (interfere w).
Proof.
  intros (Hu & Hi & (Hj & Hf) & He & Hw). unfold interfere. destruct (w_env w) as [|f rest] eqn:E.
  { split; [|split; [reflexivity | auto]]. unfold stable, fresh. rewrite E. auto 6. }
  inversion He as [|? ? Hp Hrest]; subst. destruct (Hp _ Hu Hi) as (Hu' & HR & Hn).
  unfold stable, onward, fresh, vacant. cbn. split; [|split; [|split; [reflexivity|]]].
  - split; [exact Hu'|]. split; [eapply protocol_inv; eassumption|]. split; [|split; assumption]. auto.
  - split; [exact HR|]. split; [reflexivity|]. split; [lia|]. split; [reflexivity|]. rewrite E. intros [=].
  - intros id ((m & Hm & ->) & Hid). eauto.
Qed.

(** A call after which the store is up and in [R], the identifiers still ours. *)
Lemma rg_dbop {A} (f : DB -> DB * outcome A) (Q : outcome A -> World DB -> Prop) w :
  stable w ->
  (forall w1, stable w1 -> onward w w1 -> (forall id, vacant id w -> vacant id w1) ->
     exists db', f (w_db w1) = (db', (f (w_db w1)).2) /\ up db' /\ R (w_db w1) db' /\
       (forall n V (c : coll V), (w_fresh w1 <= n)%nat -> peek c (w_uuid w1 n) db' = None) /\
       (onward w (w1 <| w_db := db' |>) -> stable (w1 <| w_db := db' |>) -> Q (f (w_db w1)).2 (w1 <| w_db := db' |>))) ->
  rg (dbop f) Q w.
Proof.
  intros Hs HQ. destruct (stable_interfere w Hs) as (Hs1 & Ho1 & _ & Hv).
  destruct (HQ _ Hs1 Ho1 Hv) as (db' & E & Hu & HR & Hf & HQ'). unfold rg, dbop. cbn [fst snd].
  set (w1 := interfere w) in *. rewrite E. cbn [fst snd]. clear E.
  assert (onward w (w1 <| w_db := db' |>)) as Ho.
  { etransitivity; [exact Ho1|]. split; [exact HR|]. cbn. auto. }
  assert (stable (w1 <| w_db := db' |>)) as Hs'.
  { destruct Hs1 as (_ & Hi & (Hj & _) & He & Hw). split; [exact Hu|].
    split; [cbn; eapply protocol_inv; eassumption|]. split; [split; [exact Hj | exact Hf] | split; [exact He | exact Hw]]. }
  auto.
Qed.

(** A call that only reads. *)
Lemma rg_reads {A} (f : DB -> DB * outcome A) (Q : outcome A -> World DB -> Prop) w :
  stable w -> (forall w1, stable w1 -> onward w w1 -> (f (w_db w1)).1 = w_db w1 /\ Q (f (w_db w1)).2 w1) -> rg (dbop f) Q w.
Proof.
  intros Hs HQ. apply rg_dbop; [exact Hs|]. intros w1 Hs1 Ho1 _. destruct (HQ w1 Hs1 Ho1) as [E HQ1].
  exists (w_db w1). split; [rewrite <- E at 2; now destruct (f (w_db w1))|]. split; [apply Hs1|].
  split; [reflexivity|]. split; [apply Hs1|]. rewrite world_db_eta. auto.
Qed.

Lemma rg_get {V} (c : coll V) k Q w :
  stable w -> (forall w1, stable w1 -> onward w w1 -> Q (Ok (peek c k (w_db w1))) w1) -> rg (get c k) Q w.
Proof.
  intros Hs HQ. apply rg_reads; [exact Hs|]. intros w1 Hs1 Ho1. rewrite (law_get V c k (w_db w1)) by apply Hs1.
  split; [reflexivity | now apply HQ].
Qed.

Lemma rg_find {V} (c : coll V) p Q w :
  stable w -> (forall w1 l, stable w1 -> onward w w1 -> enumerates c p (w_db w1) l -> Q (Ok l) w1) -> rg (find c p) Q w.
Proof.
  intros Hs HQ. apply rg_reads; [exact Hs|]. intros w1 Hs1 Ho1.
  destruct (law_find V c p (w_db w1)) as (l & -> & He); [apply Hs1|].
  split; [reflexivity | now apply HQ].
Qed.

(** A call that changes one record. *)
Lemma changed_keeps {V} (c : coll V) k o db' w :
  stable w -> changed c k o (w_db w) db' -> (o = None \/ forall n, (w_fresh w <= n)%nat -> w_uuid w n <> k) ->
  forall n V' (c' : coll V'), (w_fresh w <= n)%nat -> peek c' (w_uuid w n) db' = None.
Proof.
  intros (_ & _ & (_ & Hf) & _) (_ & Hk & Hfr) Ho n V' c' Hn.
  destruct (decide ((cname c', w_uuid w n) = (cname c, k))) as [E|E]; [|rewrite Hfr by exact E; now apply Hf].
  destruct Ho as [->|Ho]; [|injection E as _ E; destruct (Ho n Hn E)].
  injection E as E <-. exact (coll_same c c' (fun W c' => peek c' _ db' = None) E Hk).
Qed.

Lemma stable_used {V} (c : coll V) k x w :
  stable w -> peek c k (w_db w) = Some x -> forall n, (w_fresh w <= n)%nat -> w_uuid w n <> k.
Proof. intros (_ & _ & (_ & Hf) & _) Hx n Hn <-. rewrite (Hf n V c Hn) in Hx. discriminate. Qed.

Lemma rg_cas {V} (c : coll V) k v patch Q w :
  stable w ->
  (forall w1, stable w1 -> onward w w1 -> Q (Ok None) w1) ->
  (forall w1 cur, stable w1 -> onward w w1 -> peek c k (w_db w1) = Some cur -> getVersion c cur = v ->
     let new := setVersion c (v + 1) (patch cur) in
     (forall db', changed c k (Some new) (w_db w1) db' -> R (w_db w1) db') /\
     forall w2, stable w2 -> onward w w2 -> changed c k (Some new) (w_db w1) (w_db w2) -> Q (Ok (Some new)) w2) ->
  rg (updateIfVersion c k v patch) Q w.
Proof.
  intros Hs Hmiss Hhit. apply rg_dbop; [exact Hs|]. intros w1 Hs1 Ho1 _.
  assert ((exists cur, peek c k (w_db w1) = Some cur /\ getVersion c cur = v) \/
          (forall cur, peek c k (w_db w1) = Some cur -> getVersion c cur <> v)) as [(cur & Hk & Hv)|Hno].
  { destruct (peek c k (w_db w1)) as [cur|]; [|right; discriminate].
    destruct (Z.eq_dec (getVersion c cur) v) as [E|E]; [left; eauto | right; intros ? [= <-]; exact E]. }
  - destruct (law_cas_hit V c k v patch (w_db w1) cur (proj1 Hs1) Hk Hv) as (db' & -> & Hch).
    destruct (Hhit w1 cur Hs1 Ho1 Hk Hv) as [HR HQ]. exists db'. cbn [fst snd]. split; [reflexivity|].
    split; [apply Hch|]. split; [apply HR, Hch|]. split; [|intros Ho Hs'; apply HQ; assumption].
    eapply changed_keeps; [exact Hs1 | exact Hch | right; eapply stable_used; eassumption].
  - rewrite (law_cas_miss V c k v patch (w_db w1) (proj1 Hs1) Hno). exists (w_db w1). cbn [fst snd].
    split; [reflexivity|]. split; [apply Hs1|]. split; [reflexivity|]. split; [apply Hs1|].
    rewrite world_db_eta. auto.
Qed.

Lemma rg_insert {V} (c : coll V) k x Q w :
  stable w -> vacant k w ->
  (forall db db', changed c k (Some x) db db' -> R db db') ->
  (forall w2, stable w2 -> onward w w2 -> Q (Ok tt) w2) -> rg (insert c k x) Q w.
Proof.
  intros Hs Hv HR HQ. apply rg_dbop; [exact Hs|]. intros w1 Hs1 Ho1 Hkeep. destruct (Hkeep k Hv) as ((m & Hm & E) & Hk).
  destruct (law_insert V c k x (w_db w1) (proj1 Hs1) (Hk V c)) as (db' & -> & Hch). exists db'. cbn [fst snd].
  split; [reflexivity|]. split; [apply Hch|]. split; [apply HR, Hch|]. split; [|intros; now apply HQ].
  eapply changed_keeps; [exact Hs1 | exact Hch|]. right. intros n Hn E'. destruct Hs1 as (_ & _ & (Hj & _) & _).
  rewrite E in E'. apply Hj in E'. lia.
Qed.

Lemma rg_remove {V} (c : coll V) k Q w :
  stable w -> (forall db db', changed c k None db db' -> R db db') ->
  (forall w2, stable w2 -> onward w w2 -> Q (Ok tt) w2) -> rg (remove c k) Q w.
Proof.
  intros Hs HR HQ. apply rg_dbop; [exact Hs|]. intros w1 Hs1 Ho1 _.
  destruct (law_delete V c k (w_db w1) (proj1 Hs1)) as (db' & -> & Hch). exists db'. cbn [fst snd].
  split; [reflexivity|]. split; [apply Hch|]. split; [apply HR, Hch|]. split; [|intros; now apply HQ].
  eapply changed_keeps; [exact Hs1 | exact Hch | now left].
Qed.

Lemma txReady_dec db o : {txReady db o} + {~ txReady db o}.
Proof.
  destruct o as [V c id absent ev v|name id absent present ev v]; cbn.
  - destruct (peek c id db) as [cur|]; [|destruct ev; [right|left]; congruence].
    destruct absent; [right; intros [? _]; discriminate|]. destruct ev as [e|]; [|left; auto].
    destruct (Z.eq_dec (getVersion c cur) e); [left | right]; tauto.
  - destruct (peek _ id db) as [cur|]; [|destruct present, ev; first [left; split; reflexivity | right; intros []; discriminate]].
    destruct absent; [right; intros [? _]; discriminate|]. destruct ev as [e|]; [|left; auto].
    destruct (Z.eq_dec (ar_version cur) e); [left | right]; tauto.
Qed.

(** A transaction commits or conflicts; its keys are not identifiers we may
    still draw. *)
Lemma rg_transaction ops Q w :
  stable w -> NoDup (map txKey ops) ->
  (forall c k n, (c, k) ∈ map txKey ops -> (w_fresh w <= n)%nat -> w_uuid w n <> k) ->
  (forall w1, stable w1 -> onward w w1 -> forall m, Q (Throw (ConditionalConflictError m)) w1) ->
  (forall db db', Forall (txReady db) ops -> up db' -> Forall (txDone db') ops ->
     (forall V (c : coll V) k, (cname c, k) ∉ map txKey ops -> peek c k db' = peek c k db) -> R db db') ->
  (forall w1 w2, onward w w1 -> Forall (txReady (w_db w1)) ops -> stable w2 -> onward w w2 -> Forall (txDone (w_db w2)) ops ->
     (forall V (c : coll V) k, (cname c, k) ∉ map txKey ops -> peek c k (w_db w2) = peek c k (w_db w1)) -> Q (Ok tt) w2) ->
  rg (transaction ops) Q w.
Proof.
  intros Hs Hd Hk Hconf HR HQ. apply rg_dbop; [exact Hs|]. intros w1 Hs1 Ho1 _.
  destruct (List.Forall_Exists_dec (txReady (w_db w1)) (txReady_dec (w_db w1)) ops) as [Hready|Hno].
  - destruct (law_commit ops (w_db w1) (proj1 Hs1) Hd Hready) as (db' & -> & Hu & Hdone & Hfr). exists db'. cbn [fst snd].
    split; [reflexivity|]. split; [exact Hu|]. split; [now apply HR|].
    split; [|intros Ho Hs2; exact (HQ w1 _ Ho1 Hready Hs2 Ho Hdone Hfr)].
    destruct Ho1 as (_ & HU & HF & _). intros n V c Hn. rewrite Hfr; [apply Hs1, Hn|].
    intros Hin. rewrite HU in Hin. refine (Hk _ _ n Hin _ eq_refl). lia.
  - destruct (law_conflict ops (w_db w1) (proj1 Hs1) Hno) as (m & ->). exists (w_db w1). cbn [fst snd].
    split; [reflexivity|]. split; [apply Hs1|]. split; [reflexivity|]. split; [apply Hs1|]. rewrite world_db_eta. auto.
Qed.

(** One [requireAbsent] put under a drawn identifier. *)
Lemma rg_create {V} (c : coll V) k x Q w :
  stable w -> vacant k w -> (forall db db', changed c k (Some x) db db' -> R db db') ->
  (forall o w2, stable w2 -> onward w w2 -> Q o w2) -> rg (transaction [TxPut c k true None x]) Q w.
Proof.
  intros Hs ((m & Hm & E) & _) HR HQ. apply rg_transaction; [exact Hs | apply NoDup_singleton | | auto | | auto].
  - intros c' k' n [= _ ->]%list_elem_of_singleton Hn E'. destruct Hs as (_ & _ & (Hj & _) & _).
    rewrite E in E'. apply Hj in E'. lia.
  - intros db db' _ Hu Hdone Hfr. apply HR. split; [exact Hu|]. split; [exact (Forall_inv Hdone)|].
    intros V' c' k' Hne. apply Hfr. cbn. intros Hin%list_elem_of_singleton. auto.
Qed.

(** ** Collections the protocol does not speak of *)

Definition free {V} (c : coll V) : Prop := forall k x db db', changed c k (Some x) db db' -> R db db'.

Lemma rg_insert_free {V} (c : coll V) k x Q w :
  free c -> stable w -> vacant k w -> (forall w2, stable w2 -> onward w w2 -> Q (Ok tt) w2) -> rg (insert c k x) Q w.
Proof. intros Hc Hs Hv HQ. apply rg_insert; [exact Hs | exact Hv | apply Hc | exact HQ]. Qed.

(** ** Composites *)

Lemma safe_ret {A} (a : A) : safe (mret a).
Proof. intros w Hs. now apply rg_ret. Qed.

Lemma safe_throw {A} e : safe (throw e : M DB A).
Proof. intros w Hs. now apply rg_throw. Qed.

Lemma safe_outcome {A} (o : outcome A) : safe (ofOutcome o).
Proof. intros w Hs. now apply rg_outcome. Qed.

Lemma safe_bind {A B} (m : M DB A) (k : A -> M DB B) : safe m -> (forall a, safe (k a)) -> safe (m ≫= k).
Proof.
  intros Hm Hk w Hs. apply rg_bind, rg_safe; [exact Hm | exact Hs|]. intros [a|e] w' Hs' _; [now apply Hk | exact I].
Qed.

Lemma safe_tryCatch {A} (m : M DB A) h : safe m -> (forall e, safe (h e)) -> safe (tryCatch m h).
Proof.
  intros Hm Hh w Hs. apply rg_tryCatch, rg_safe; [exact Hm | exact Hs|]. intros [a|e] w' Hs' _; [exact I | now apply Hh].
Qed.

Lemma safe_swallow {A} (m : M DB A) : safe m -> safe (swallow m).
Proof. intros Hm w Hs. apply rg_swallow, rg_safe; [exact Hm | exact Hs | auto]. Qed.

Lemma safe_aside {A} (m : M DB A) : (forall w, aside w (m w).1) -> safe m.
Proof. intros Ha w Hs. apply rg_aside; auto. Qed.

Lemma safe_nowMs : safe nowMs.
Proof. apply safe_aside. intros w. aside_tac. Qed.

Lemma safe_systemMs : safe systemMs.
Proof. apply safe_aside. intros w. aside_tac. Qed.

Lemma safe_uuid : safe randomUUID.
Proof. apply safe_aside. intros w. aside_tac. Qed.

Lemma safe_isoString t : safe (isoString t).
Proof. apply safe_outcome. Qed.

Lemma safe_nowIso : safe nowIso.
Proof. apply safe_bind; [apply safe_nowMs | apply safe_isoString]. Qed.

Lemma safe_systemIso : safe systemIso.
Proof. apply safe_bind; [apply safe_systemMs | apply safe_isoString]. Qed.

Lemma safe_get {V} (c : coll V) k : safe (get c k).
Proof. intros w Hs. apply rg_get; auto. Qed.

Lemma safe_find {V} (c : coll V) p : safe (find c p).
Proof. intros w Hs. apply rg_find; auto. Qed.

Lemma safe_cas_free {V} (c : coll V) k v patch : free c -> safe (updateIfVersion c k v patch).
Proof. intros Hc w Hs. apply rg_cas; [exact Hs | auto|]. intros w1 cur _ _ _ _ new. split; [apply Hc | auto]. Qed.

Lemma safe_ask {A} (f : World DB -> A) : safe (ask f).
Proof. apply safe_aside. intros w. aside_tac. Qed.
End rely.

Ltac aside_tac := unfold aside; cbn; repeat split; lia.

Create HintDb rely discriminated.

#[export] Hint Resolve safe_ret safe_throw safe_outcome safe_nowMs safe_systemMs safe_uuid safe_isoString
  safe_nowIso safe_systemIso safe_get safe_find safe_ask : rely.

(** Step through an operation every part of which keeps the protocol. *)
Ltac safe_step :=
  lazymatch goal with
  | |- safe _ (_ ≫= _) => apply safe_bind; [|intros ?]
  | |- safe _ (tryCatch _ _) => apply safe_tryCatch; [|intros ?]
  | |- safe _ (swallow _) => apply safe_swallow
  | |- forall _, safe _ _ => intros ?
  | |- safe _ (match ?x with _ => _ end) => destruct x
  | |- safe _ (let _ := _ in _) => cbv zeta
  | |- safe _ _ => solve [eauto with rely]
  end.

Ltac safe_tac := repeat safe_step.

(** ** The gateway keeps every protocol *)

Section gateway.
Context {DB : Type} `{FeltDBLaws DB} (P : Protocol DB).
#[local] Abbreviation safe := (safe P).
#[local] Abbreviation rg := (rg P).
#[local] Abbreviation stable := (stable P).
Implicit Types w : World DB.

Lemma rg_record e Q w :
  stable w -> vacant (e_id e) w -> (forall o w', stable w' -> onward P w w' -> Q o w') -> rg (ev_record e) Q w.
Proof.
  intros Hs Hv HQ. unfold ev_record. apply rg_bind, rg_outcome; [exact Hs|].
  destruct (assertEvidenceHasNoSecrets _) as [[]|]; [|now apply HQ].
  apply rg_create; [exact Hs | exact Hv | | exact HQ]. intros db db'. apply (protocol_record P).
Qed.

Lemma safe_complete id u : safe (ev_complete id u).
Proof.
  unfold ev_complete. apply safe_bind; [apply safe_outcome | intros _]. intros w Hs. apply rg_bind, rg_get; [exact Hs|].
  intros w1 Hs1 _. destruct (peek CEvidence id (w_db w1)) as [e|] eqn:E; [|now apply rg_throw].
  apply rg_dbop; [exact Hs1|]. intros w2 Hs2 (HR & _) _.
  destruct (protocol_evidence P _ _ id HR) as [cur Hcur]; [rewrite E; eauto|].
  destruct (law_update _ CEvidence id (applyUpdate u e) cur (w_db w2) (proj1 Hs2) Hcur) as (db' & -> & Hch).
  exists db'. cbn [fst snd]. split; [reflexivity|]. split; [apply Hch|].
  split; [eapply (protocol_record P), Hch|]. split; [|auto].
  eapply changed_keeps; [exact Hs2 | exact Hch | right; eapply stable_used; eassumption].
Qed.

Variable g : ServiceGateway DB.

(** AuthBoundry's answer and the check of an API key keep the protocol. *)
Definition hostSafe : Prop :=
  (forall (ask : ServiceAuthorizationRequest -> M DB Answer) request, g_authorizer g = Some ask -> safe (ask request)) /\
  (forall p capability resource, safe (g_check g p capability resource)).

Lemma safe_authorize name caller r requestId : hostSafe -> safe (authorize g name caller r requestId).
Proof.
  intros [Hask Hcheck]. unfold authorize, enforceCredential, decide_. safe_tac.
Qed.

Lemma safe_recordRefusal cap caller r options requestId startedAt e :
  safe (recordRefusal g cap caller r options requestId startedAt e).
Proof.
  unfold recordRefusal. destruct e; try apply safe_ret. destruct caller; try apply safe_ret.
  destruct (_ || _); [apply safe_ret|]. intros w Hs. apply rg_bind, rg_uuid; [exact Hs|]. intros id w1 Hs1 _ Hv.
  apply rg_bind, rg_nowIso; [exact Hs1|]. intros [at_|] w2 Hs2 Ha; [|exact I].
  apply rg_swallow, rg_record; [exact Hs2 | eapply vacant_aside; eassumption | auto].
Qed.

(** What the effect established is still there when the operation returns. *)
Lemma rg_execute {T} name caller r options (effect : ServiceExecutionContext -> EffectTools -> M DB T)
  (K : T -> World DB -> Prop) w :
  hostSafe -> stable w -> (forall a w1 w2, K a w1 -> onward P w1 w2 -> K a w2) ->
  (forall x tools w1, stable w1 -> onward P w w1 -> rg (effect x tools) (fun o w' => forall a, o = Ok a -> K a w') w1) ->
  rg (execute g name caller r options effect) (fun o w' => forall a, o = Ok a -> K a w') w.
Proof.
  intros Hhost Hs HK Heffect. unfold execute, run. apply rg_bind, rg_safe; [safe_tac | exact Hs|].
  intros [requestId|e] w1 Hs1 Ho1; [|discriminate]. apply rg_bind, rg_safe; [apply safe_nowIso | exact Hs1|].
  intros [startedAt|e] w2 Hs2 Ho2; [|discriminate]. apply rg_bind, rg_safe; [|exact Hs2|].
  { apply safe_tryCatch; [now apply safe_authorize | intros e; apply safe_bind; [apply safe_recordRefusal | safe_tac]]. }
  intros [x|e] w3 Hs3 Ho3; [|discriminate]. apply rg_bind, rg_safe; [apply safe_nowMs | exact Hs3|].
  intros [now|e] w4 Hs4 Ho4; [|discriminate]. apply rg_bind, rg_outcome; [exact Hs4|].
  destruct (assertExecutionContext _ _ _ _) as [x'|e]; [|discriminate].
  apply rg_bind, rg_uuid; [exact Hs4|]. intros id w5 Hs5 Ha Hv. cbv beta zeta iota.
  apply rg_bind, rg_record; [exact Hs5 | exact Hv|]. intros [_|e] w6 Hs6 Ho6; [|discriminate].
  assert (onward P w w6) as Ho.
  { etransitivity; [exact Ho1|]. etransitivity; [exact Ho2|]. etransitivity; [exact Ho3|]. etransitivity; [exact Ho4|].
    etransitivity; [apply (stable_aside P _ _ Hs4 Ha) | exact Ho6]. }
  apply rg_tryCatch, rg_bind. eapply rg_mono; [apply (Heffect x' (toolsFor g x' options id) w6 Hs6 Ho)|].
  assert (forall e w', stable w' -> rg (completedAt ← nowIso;
    refs ← ask (resolvedRefs id);
    _ ← swallow (ev_complete id
          (mkUpdate (outcomeOf e) completedAt (Some (failureCodeOf e)) (refUpdate options refs) None));
    throw e : M DB T) (fun o w' => forall a, o = Ok a -> K a w') w') as Hfail.
  { intros e w' Hs'. apply rg_bind, rg_safe; [apply safe_nowIso | exact Hs'|]. intros [at_|] w8 Hs8 _; [|discriminate].
    apply rg_bind, rg_safe; [apply safe_ask | exact Hs8|]. intros [refs|] w9 Hs9 _; [|discriminate].
    apply rg_bind, rg_safe; [apply safe_swallow, safe_complete | exact Hs9|]. intros [u|] w10 Hs10 _; [|discriminate].
    apply rg_throw; [exact Hs10 | discriminate]. }
  intros [result|e] w7 Hs7 _ HQ; [|now apply Hfail]. specialize (HQ result eq_refl).
  apply rg_bind, rg_safe; [apply safe_nowIso | exact Hs7|]. intros [at_|] w8 Hs8 Ho8; [|now apply Hfail].
  apply rg_bind, rg_safe; [apply safe_ask | exact Hs8|]. intros [refs|] w9 Hs9 Ho9; [|now apply Hfail].
  apply rg_bind, rg_safe; [apply safe_ask | exact Hs9|]. intros [stored|] w10 Hs10 Ho10; [|now apply Hfail].
  apply rg_bind, rg_safe; [apply safe_complete | exact Hs10|]. intros [u|] w11 Hs11 Ho11; [|now apply Hfail].
  apply rg_ret; [exact Hs11|]. intros a [= <-]. eapply HK; [exact HQ|].
  etransitivity; [exact Ho8|]. etransitivity; [exact Ho9|]. etransitivity; eassumption.
Qed.

Lemma safe_execute {T} name caller r options (effect : ServiceExecutionContext -> EffectTools -> M DB T) :
  hostSafe -> (forall x tools, safe (effect x tools)) -> safe (execute g name caller r options effect).
Proof.
  intros Hhost Heffect w Hs. eapply rg_mono; [apply (rg_execute _ _ _ _ effect (fun _ _ => True))|]; auto.
  intros x tools w1 Hs1 _. eapply rg_mono; [apply Heffect, Hs1 | auto].
Qed.
End gateway.
