(* ===== verification/GatewayFacts.v ===== *)
(** * GatewayFacts: what the policy enforcement point guarantees *)

From S2P Require Import Prelude JsString JsTime Errors Models Store Calm Principal Manifest Evidence Gateway.
From Stdlib Require Import ZArith Lia Ascii.
Local Open Scope string_scope.
Local Open Scope Z_scope.

(** ** Resource identifiers *)

(** Different resources have different identifiers: the identifier given to
    AuthBoundry names the application, tenant, type and id it was built from.
    [None] (a whole collection) is told apart from every id but ["*"]. *)
Lemma resourceUri_inj app app' r r' :
  resourceUri app r = resourceUri app' r' ->
  app = app' /\ r_tenantId r = r_tenantId r' /\ r_type r = r_type r' /\
  orElse (r_id r) "*" = orElse (r_id r') "*".
Proof.
  unfold resourceUri. intros E. apply (append_inj_l "appport://") in E.
  apply slash_split in E as [Ea E]; [|apply encode_noSlash..].
  apply (append_inj_l "tenants/") in E.
  apply slash_split in E as [Et E]; [|apply encode_noSlash..].
  apply slash_split in E as [Ey E]; [|apply encode_noSlash..].
  apply encodeURIComponent_inj in Ea, Et, Ey, E. auto.
Qed.

(** A record whose id is ["*"] has the identifier of its whole collection. *)
Lemma resourceUri_star app t ty :
  resourceUri app (mkResource ty t (Some "*") None) = resourceUri app (mkResource ty t None None).
Proof. reflexivity. Qed.

(** ** Authorization *)

Section facts.
Context {DB : Type} `{FeltDBLaws DB}.
Variable g : ServiceGateway DB.
Implicit Types w : World DB.

(** AuthBoundry was asked about exactly this principal, capability and
    resource, and answered with a matching allow decision. *)
Definition allowedBy (c : ServiceCapability) (p : VerifiedPrincipal) (r : ServiceResource)
  (requestId : string) (d : ServiceAuthorizationDecision) : Prop :=
  exists ask ts w1 w2, g_authorizer g = Some ask /\
    ask (requestFor g c p r requestId ts) w1 = (w2, Ok (Decides (Some d))) /\
    decisionMatches (requestFor g c p r requestId ts) d = true /\ dc_allowed d = JBool true.

(** The gate a context passed before it was minted. *)
Definition admitted (name : string) (caller : Caller) (r : ServiceResource) (requestId : string)
  (c : ServiceCapability) (p : VerifiedPrincipal) : Prop :=
  capability g name = Some c /\ r_type r = c_resource c /\ caller = CVerified p /\
  r_tenantId r <> "" /\ vp_tenantId p = r_tenantId r /\
  (present (vp_applicationId p) = true -> vp_applicationId p = Some (g_application g)) /\
  (exists w1 w2, enforceCredential (g_check g) p (c_name c) r w1 = (w2, Ok tt)) /\
  exists d, allowedBy c p r requestId d.

Lemma assertOwnership_ok app p r cap :
  assertOwnership app p r cap = Ok tt ->
  r_tenantId r <> "" /\ vp_tenantId p = r_tenantId r /\
  (present (vp_applicationId p) = true -> vp_applicationId p = Some app).
Proof.
  unfold assertOwnership. repeat case_goal; try discriminate. intros _. bool_hyps.
  repeat split; [now apply truthy_spec | assumption|].
  intros Hp. rewrite Hp in E0. cbn in E0. apply negb_false_iff, oeqb_true in E0. exact E0.
Qed.

Lemma validateDecision_ok req d d' :
  validateDecision req d = Ok d' -> d = Some d' /\ decisionMatches req d' = true.
Proof.
  unfold validateDecision. destruct d as [d|]; [|discriminate].
  destruct (decisionMatches req d) eqn:E; [intros [= <-]; auto | discriminate].
Qed.

Lemma decide_ok req w w' d :
  decide_ g req w = (w', Ok d) ->
  exists ask, g_authorizer g = Some ask /\ decisionMatches req d = true /\
    ask req w = (w', Ok (Decides (Some d))).
Proof.
  unfold decide_. destruct (g_authorizer g) as [ask|]; [|intros Hd; inv_run].
  intros Hd. inv_run. destruct a as [o|e|]; [|case_match; inv_run | inv_run].
  apply ofOutcome_inv in Hd as [-> Hv]. apply validateDecision_ok in Hv as [-> Hmt].
  exists ask. auto.
Qed.

(** The context the gate issued: about exactly what was asked. *)
Record issuedFor (name : string) (caller : Caller) (r : ServiceResource) (requestId : string)
  (c : ServiceCapability) (p : VerifiedPrincipal) (x : ServiceExecutionContext) : Prop := mkIssued {
  is_admitted : admitted name caller r requestId c p;
  is_principal : x_principal x = p;
  is_application : x_application x = g_application g;
  is_tenant : x_tenantId x = r_tenantId r;
  is_capability : x_capability x = c_name c;
  is_requestId : x_requestId x = requestId;
  is_resource : x_resource x = r;
  is_uri : x_resourceUri x = resourceUri (g_application g) r;
  is_decision : a_decisionId (x_authorization x) <> "";
  is_expiry : exists t, toISO (t + CONTEXT_TTL_MS) = Some (x_expiresAt x) }.

Lemma authorize_inv name caller r requestId w w' x :
  authorize g name caller r requestId w = (w', Ok x) ->
  exists c p, issuedFor name caller r requestId c p x.
Proof.
  unfold authorize. destruct (capability g name) as [c|] eqn:Ec; [|intros E; inv_run].
  case_match eqn:Et; [intros E; inv_run|]. intros E. inv_run.
  destruct (negb _) eqn:Ea in E; [inv_run|]. inv_run. injection E as <- <-.
  apply negb_false_iff in Ea, Et. apply String.eqb_eq in Et.
  apply requireVerified_ok in Hm as ->.
  destruct a0. apply assertOwnership_ok in Hm0 as (Ho1 & Ho2 & Ho3).
  apply decide_ok in Hm3 as (ask & Hask & Hmatch & Hans).
  exists c, a. split; try reflexivity.
  - repeat split; try assumption; [destruct a1; eauto|].
    exists a3. exists ask. do 3 eexists. repeat split; [exact Hask | exact Hans | exact Hmatch|].
    destruct (dc_allowed a3); try discriminate Ea. now subst.
  - cbn. unfold decisionMatches in Hmatch. repeat apply andb_prop in Hmatch as [Hmatch _].
    unfold decisionIdOf. destruct (dc_decision_id a3); try discriminate. now apply truthy_spec.
  - eexists. eassumption.
Qed.

(** ** The effect runs only behind an allow decision *)

(** An operation whose outcome depends on its effect was admitted: everything
    that stops a caller stops it before the effect. *)
Lemma execute_gate {T} name caller r options (f f' : ServiceExecutionContext -> EffectTools -> M DB T) w :
  (forall requestId c p, ~ admitted name caller r requestId c p) ->
  execute g name caller r options f w = execute g name caller r options f' w.
Proof.
  intros Hno. unfold execute.
  apply bind_ext. intros w1 requestId _. apply bind_ext. intros w2 startedAt _.
  apply bind_ext. intros w3 x Hx. exfalso. unfold tryCatch in Hx.
  destruct (authorize g name caller r requestId w2) as [w4 [y|e]] eqn:E.
  - apply authorize_inv in E as (c & p & Ha). exact (Hno _ _ _ (is_admitted _ _ _ _ _ _ _ Ha)).
  - inv_run.
Qed.

(** The context an effect receives is the one the gate admitted. *)
Lemma execute_ok {T} name caller r options (f : ServiceExecutionContext -> EffectTools -> M DB T) w w' a :
  execute g name caller r options f w = (w', Ok a) ->
  exists requestId c p x w1 startedAt, issuedFor name caller r requestId c p x /\
    run g (Issued x) options f startedAt w1 = (w', Ok a).
Proof.
  unfold execute. intros E. inv_run. unfold tryCatch in Hm1.
  destruct (authorize g name caller r a0 w1) as [w4 [y|e]] eqn:Ea; [|inv_run].
  injection Hm1 as <- <-.
  apply authorize_inv in Ea as (c & p & Had). do 6 eexists. split; [exact Had | exact E].
Qed.

(** ** Evidence brackets the effect *)

Lemma assertContext_self x now :
  dateLe (x_expiresAt x) now = false ->
  assertExecutionContext (Issued x) (x_capability x) None now = Ok x.
Proof. unfold assertExecutionContext. rewrite String.eqb_refl. cbn. now intros ->. Qed.

Lemma assertContext_spec value cap tenant now x :
  assertExecutionContext value cap tenant now = Ok x <->
  value = Issued x /\ x_capability x = cap /\ (forall t, tenant = Some t -> x_tenantId x = t) /\
  dateLe (x_expiresAt x) now = false.
Proof.
  unfold assertExecutionContext. destruct value as [y|]; [|split; [discriminate | intros [E _]; discriminate E]].
  destruct (String.eqb_spec (x_capability y) cap) as [<-|Hc]; cbn [negb].
  - destruct tenant as [t|]; [destruct (String.eqb_spec (x_tenantId y) t) as [<-|Ht]; cbn [negb]|].
    + destruct (dateLe (x_expiresAt y) now) eqn:E; split; try discriminate.
      * intros ([= <-] & _ & _ & E'). congruence.
      * intros [= <-]. repeat split; [congruence | exact E].
      * intros ([= <-] & _). reflexivity.
    + split; [discriminate|]. intros ([= <-] & _ & Ht' & _). exfalso. apply Ht. now apply Ht'.
    + destruct (dateLe (x_expiresAt y) now) eqn:E; split; try discriminate.
      * intros ([= <-] & _ & _ & E'). congruence.
      * intros [= <-]. repeat split; [discriminate | exact E].
      * intros ([= <-] & _). reflexivity.
  - split; [discriminate|]. intros ([= <-] & E & _). contradiction.
Qed.

Lemma wp_complete id u row Q w :
  calm w -> peek CEvidence id (w_db w) = Some row ->
  assertEvidenceHasNoSecrets (updateEntries u) = Ok tt ->
  (forall w', calm w' -> later w w' ->
     changed CEvidence id (Some (setVersion CEvidence (e_version row + 1) (applyUpdate u row))) (w_db w) (w_db w') ->
     Q (Ok tt) w') ->
  wp (ev_complete id u) Q w.
Proof.
  intros Hc Hrow Hs HQ. unfold ev_complete. apply wp_bind, wp_outcome. rewrite Hs.
  apply wp_bind, wpc_get; [exact Hc|]. rewrite Hrow.
  eapply wp_update; [apply calm_quiet, Hc | exact Hrow|]. intros new db' Hch Hq'.
  apply HQ; [now apply calm_db | later_ctl | exact Hch].
Qed.

Lemma failureCode_clean e : secretValue (failureCodeOf e) = false.
Proof. destruct e as [[]| | | | |]; reflexivity. Qed.

(** The final row of an effect that ran. *)
Definition finished {T} (x : ServiceExecutionContext) (options : ExecuteOptions) (id startedAt : string)
  (o : outcome T) (row : EffectEvidence) : Prop :=
  exists at_ ref v, row =
    setVersion CEvidence 1 (applyUpdate
      match o with
      | Ok _ => mkUpdate Succeeded at_ None ref v
      | Throw e => mkUpdate (outcomeOf e) at_ (Some (failureCodeOf e)) ref None
      end (evidenceFor x options id startedAt Started)).

(** A reference the operation is started with is one the guard lets through. *)
Lemma started_clean x options id startedAt refs :
  assertEvidenceHasNoSecrets (evidenceEntries (evidenceFor x options id startedAt Started)) = Ok tt ->
  (o_credentialRef options = None -> cleanRef (refUpdate options refs)) -> cleanRef (refUpdate options refs).
Proof.
  intros Hg Hnone. destruct (o_credentialRef options) as [r|] eqn:Er; [|now apply Hnone].
  unfold refUpdate. rewrite Er. unfold ifPresent. destruct (truthy r) eqn:Et; [|exact I].
  apply (guard_ref _ _ Hg). unfold evidenceEntries, evidenceFor. cbn [e_credentialRef].
  unfold ifPresent. rewrite Er, Et. rewrite !in_app_iff. cbn [optEntry In]. auto 10.
Qed.

(** What precedes an effect under a context, up to its [started] row, and
    what the effect is put in. *)
Definition opens (x : ServiceExecutionContext) (options : ExecuteOptions) (startedAt : string) : M DB string :=
  now ← nowMs;
  _ ← ofOutcome (assertExecutionContext (Issued x) (x_capability x) None now);
  id ← randomUUID;
  _ ← ev_record (evidenceFor x options id startedAt Started);
  mret id.

Definition closing {T} (x : ServiceExecutionContext) (options : ExecuteOptions) (id : string)
  (effect : ServiceExecutionContext -> EffectTools -> M DB T) : M DB T :=
  tryCatch (
    result ← effect x (toolsFor g x options id);
    completedAt ← nowIso;
    refs ← ask (resolvedRefs id);
    stored ← ask (fun w : World DB => w_stored w !! id);
    _ ← ev_complete id (mkUpdate Succeeded completedAt None (refUpdate options refs) stored);
    mret result)
  (fun error =>
    completedAt ← nowIso;
    refs ← ask (resolvedRefs id);
    _ ← swallow (ev_complete id (mkUpdate (outcomeOf error) completedAt (Some (failureCodeOf error)) (refUpdate options refs) None));
    throw error).

Lemma run_opens {T} x options (effect : ServiceExecutionContext -> EffectTools -> M DB T) startedAt w :
  run g (Issued x) options effect startedAt w =
  match opens x options startedAt w with (w1, Ok id) => closing x options id effect w1 | (w1, Throw e) => (w1, Throw e) end.
Proof.
  unfold run, opens, mbind, M_bind. destruct (nowMs w) as [w1 [t|e]]; [|reflexivity]. cbn [ownCapability]. unfold ofOutcome.
  destruct (assertExecutionContext (Issued x) (x_capability x) None t) as [y|e] eqn:Ey; [|reflexivity].
  apply assertContext_spec in Ey as ([= <-] & _). destruct (randomUUID w1) as [w2 [id|e]]; [|reflexivity].
  destruct (ev_record _ w2) as [w3 [[]|e]]; reflexivity.
Qed.

Lemma opens_spec x options startedAt w : calm w ->
  wp (opens x options startedAt) (fun o w' => calm w' /\ later w w' /\
    match o with
    | Throw _ => w_db w' = w_db w
    | Ok id => resolvedRefs id w' = [] /\ peek CEvidence id (w_db w) = None /\
        changed CEvidence id (Some (evidenceFor x options id startedAt Started)) (w_db w) (w_db w') /\
        assertEvidenceHasNoSecrets (evidenceEntries (evidenceFor x options id startedAt Started)) = Ok tt
    end) w.
Proof.
  intros Hc. unfold opens. apply wp_bind, wpc_nowMs; [exact Hc|]. intros t w1 _ _ Hc1 Hl1 Hd1.
  apply wp_bind, wp_outcome.
  destruct (assertExecutionContext _ _ _ _) as [y|e] eqn:Ey; [|split; [exact Hc1|]; split; [later_tac | exact Hd1]].
  apply wp_bind, wpc_uuid; [exact Hc1|]. intros id w2 (n & Hn & Hid) Ho Hc2 Hl2 Hd2.
  apply wp_bind. unfold ev_record. apply wp_bind, wp_outcome.
  destruct (assertEvidenceHasNoSecrets _) as [[]|e] eqn:Eg; [|split; [exact Hc2|]; split; [later_tac | congruence]].
  change (e_id (evidenceFor x options id startedAt Started)) with id. apply wpc_create; [exact Hc2 | exact Ho|]. intros w3 Hc3 Hl3 Hch3.
  apply wp_ret. rewrite Hd2, Hd1 in Hch3. split; [exact Hc3|]. split; [later_tac|]. split; [|split; [rewrite <- Hd1, <- Hd2; apply Ho | auto]].
  unfold resolvedRefs. assert (later w1 w3) as Hl13 by later_tac.
  rewrite (later_resolved _ _ Hl13), Hid. destruct Hc1 as (_ & _ & _ & ->); [reflexivity | exact Hn].
Qed.

Lemma closing_spec {T} x options (effect : ServiceExecutionContext -> EffectTools -> M DB T) startedAt id (R : outcome T -> World DB -> Prop) w :
  assertEvidenceHasNoSecrets (evidenceEntries (evidenceFor x options id startedAt Started)) = Ok tt ->
  wp (effect x (toolsFor g x options id))
     (fun o w2 => calm w2 /\ after w w2 /\
        peek CEvidence id (w_db w2) = Some (evidenceFor x options id startedAt Started) /\
        (o_credentialRef options = None -> cleanRef (refUpdate options (resolvedRefs id w2))) /\ R o w2) w ->
  wp (closing x options id effect)
     (fun o w' => calm w' /\ after w w' /\ exists w2 row, R o w2 /\ finished x options id startedAt o row /\ later w2 w' /\
        changed CEvidence id (Some row) (w_db w2) (w_db w')) w.
Proof.
  intros Eg Heffect. set (started := evidenceFor x options id startedAt Started).
  assert (forall refs, (o_credentialRef options = None -> cleanRef (refUpdate options refs)) -> cleanRef (refUpdate options refs)) as Hopt
    by (intros refs; apply (started_clean x options id startedAt); exact Eg).
  apply wp_tryCatch, wp_bind. eapply wp_mono; [exact Heffect|].
  intros [a|e] w4 (Hc4 & Hl4 & Hrow & Href & HR); specialize (Hopt _ Href); clear Href; rename Hopt into Href.
  - apply wp_bind, wpc_nowIso; [exact Hc4|]. intros u at_ w5 Hat _ Hc5 Hl5 Hd5.
    apply wp_bind, wp_ask, wp_bind, wp_ask, wp_bind. rewrite <- Hd5 in Hrow.
    replace (resolvedRefs id w5) with (resolvedRefs id w4)
      by (unfold resolvedRefs; now rewrite (later_resolved _ _ Hl5)).
    eapply wp_complete; [exact Hc5 | exact Hrow | |].
    { eapply update_clean; [exact Hat | exact I | exact Href]. }
    intros w' Hc' Hl' Hch'. apply wp_ret. split; [exact Hc'|]. split; [after_tac|].
    exists w4. eexists. split; [exact HR|]. split; [|split; [later_tac | rewrite <- Hd5; exact Hch']].
    do 3 eexists. reflexivity.
  - apply wp_bind, wpc_nowIso; [exact Hc4|]. intros u at_ w5 Hat _ Hc5 Hl5 Hd5.
    apply wp_bind, wp_ask, wp_bind, wp_swallow. rewrite <- Hd5 in Hrow.
    replace (resolvedRefs id w5) with (resolvedRefs id w4)
      by (unfold resolvedRefs; now rewrite (later_resolved _ _ Hl5)).
    eapply wp_complete; [exact Hc5 | exact Hrow | |].
    { eapply update_clean; [exact Hat | apply failureCode_clean | exact Href]. }
    intros w' Hc' Hl' Hch'. apply wp_throw. split; [exact Hc'|]. split; [after_tac|].
    exists w4. eexists. split; [exact HR|]. split; [|split; [later_tac | rewrite <- Hd5; exact Hch']].
    do 2 eexists. exists None. reflexivity.
Qed.

(** Running an effect under a context: either it is refused before the
    effect and the store is untouched, with one result whatever the effect is;
    or the effect runs in a world that already holds its [started] row, and
    its outcome is passed on unchanged and recorded in that row. *)
Lemma run_full {T} x options (effect : ServiceExecutionContext -> EffectTools -> M DB T) startedAt
  (R : string -> outcome T -> World DB -> Prop) w :
  calm w ->
  (forall id w1, calm w1 -> later w w1 -> resolvedRefs id w1 = [] -> peek CEvidence id (w_db w) = None ->
     changed CEvidence id (Some (evidenceFor x options id startedAt Started)) (w_db w) (w_db w1) ->
     wp (effect x (toolsFor g x options id))
        (fun o w2 => calm w2 /\ after w1 w2 /\
           peek CEvidence id (w_db w2) = Some (evidenceFor x options id startedAt Started) /\
           (o_credentialRef options = None -> cleanRef (refUpdate options (resolvedRefs id w2))) /\ R id o w2) w1) ->
  wp (run g (Issued x) options effect startedAt)
     (fun o w' => calm w' /\ after w w' /\
        ((exists e, o = Throw e /\ w_db w' = w_db w /\
            forall effect' : ServiceExecutionContext -> EffectTools -> M DB T, run g (Issued x) options effect' startedAt w = (w', Throw e)) \/
         exists id w2 row, R id o w2 /\ finished x options id startedAt o row /\ later w2 w' /\
           changed CEvidence id (Some row) (w_db w2) (w_db w'))) w.
Proof.
  intros Hc Heffect. pose proof (opens_spec x options startedAt w Hc) as Hopen. unfold wp at 1. unfold wp in Hopen. rewrite run_opens.
  destruct (opens x options startedAt w) as [w1 [id|e]] eqn:Eo; cbn [fst snd] in *.
  - destruct Hopen as (Hc1 & Hl1 & Hnil & Hn & Hch & Eg).
    pose proof (closing_spec x options effect startedAt id (R id) w1 Eg (Heffect id w1 Hc1 Hl1 Hnil Hn Hch)) as Hclose. unfold wp in Hclose.
    destruct Hclose as (Hc' & Ha' & w2 & row & HR & Hfin & Hl2 & Hch').
    split; [exact Hc'|]. split; [after_tac|]. right. exists id, w2, row. auto.
  - destruct Hopen as (Hc1 & Hl1 & Hd1). split; [exact Hc1|]. split; [after_tac|]. left. exists e. split; [reflexivity|]. split; [exact Hd1|].
    intros effect'. now rewrite run_opens, Eo.
Qed.

Lemma run_bracket {T} x options (effect : ServiceExecutionContext -> EffectTools -> M DB T) startedAt
  (R : string -> outcome T -> World DB -> Prop) w :
  calm w ->
  (forall id w1, calm w1 -> later w w1 -> resolvedRefs id w1 = [] -> peek CEvidence id (w_db w) = None ->
     changed CEvidence id (Some (evidenceFor x options id startedAt Started)) (w_db w) (w_db w1) ->
     wp (effect x (toolsFor g x options id))
        (fun o w2 => calm w2 /\ after w1 w2 /\
           peek CEvidence id (w_db w2) = Some (evidenceFor x options id startedAt Started) /\
           (o_credentialRef options = None -> cleanRef (refUpdate options (resolvedRefs id w2))) /\ R id o w2) w1) ->
  wp (run g (Issued x) options effect startedAt)
     (fun o w' => calm w' /\ after w w' /\
        ((exists e, o = Throw e /\ w_db w' = w_db w) \/
         exists id w2 row, R id o w2 /\ finished x options id startedAt o row /\ later w2 w' /\
           changed CEvidence id (Some row) (w_db w2) (w_db w'))) w.
Proof.
  intros Hc Heffect. eapply wp_mono; [exact (run_full x options effect startedAt R w Hc Heffect)|].
  intros o w' (Hc' & Ha & [(e & E & Hd & _)|Hran]); (split; [exact Hc'|]; split; [exact Ha|]); [left; eauto | now right].
Qed.

Lemma capability_name name c : capability g name = Some c -> c_name c = name.
Proof.
  unfold capability. destruct (getServiceCapability name) as [c'|] eqn:E.
  - intros [= <-]. now apply getServiceCapability_in in E as [_ E].
  - intros Hf. apply find_some in Hf as [_ Hf]. now apply String.eqb_eq in Hf.
Qed.

Lemma issued_name name caller r requestId c p x :
  issuedFor name caller r requestId c p x -> x_capability x = name.
Proof.
  intros Hi. rewrite (is_capability _ _ _ _ _ _ _ Hi). apply capability_name.
  apply (is_admitted _ _ _ _ _ _ _ Hi).
Qed.

(** ** The whole operation *)

(** The host's AuthBoundry client and the credential check read; they do not
    write this store. *)
Definition hostQuiet : Prop :=
  (forall ask req w, g_authorizer g = Some ask -> calm w -> kept w (ask req w).1) /\
  (forall p cap r w, calm w -> kept w (g_check g p cap r w).1).

Lemma authorize_quiet name caller r requestId w :
  hostQuiet -> calm w -> wp (authorize g name caller r requestId) (fun _ w' => kept w w') w.
Proof.
  intros [Hask Hcheck] Hc. unfold authorize. destruct (capability g name) as [c|]; [|now apply kept_refl].
  destruct (negb _); [now apply kept_refl|].
  apply wp_bind, wp_outcome. destruct (requireVerifiedPrincipal caller) as [p|]; [|now apply kept_refl].
  apply wp_bind, wp_outcome. destruct (assertOwnership _ _ _ _) as [[]|]; [|now apply kept_refl].
  apply wp_bind. unfold enforceCredential.
  assert (forall w1, kept w w1 -> wp (timestamp ← nowMs;
    decision ← decide_ g (requestFor g c p r requestId timestamp);
    if negb match dc_allowed decision with JBool b => b | _ => false end then
      throw (ServiceAuthorityError DENIED ("AuthBoundry denied " ++ c_name c)
        (mkDetails (Some (c_name c)) (Some (decisionIdOf decision)) (dc_reason decision)))
    else decidedAt ← nowIso; t ← nowMs; expiresAt ← isoString (t + CONTEXT_TTL_MS);
      mintExecutionContext (fun identity =>
            mkContext identity (g_application g) (r_tenantId r) p (c_name c) (c_version c)
              requestId r (resourceUri (g_application g) r)
              (mkAuthorization (decisionIdOf decision) decidedAt
                 (ifPresent (dc_policy_version decision)) (ifPresent (dc_reason decision)))
              expiresAt)) (fun _ w' => kept w w') w1) as Hrest.
  { intros w1 (Hc1 & Hl1 & Hd1). apply wp_bind, wpc_nowMs; [exact Hc1|].
    intros ts w2 _ _ Hc2 Hl2 Hd2. apply wp_bind.
    assert (kept w w2) as Hk2 by (split; [exact Hc2|]; split; [later_tac | congruence]).
    unfold decide_. destruct (g_authorizer g) as [ask|] eqn:Ea; [|exact Hk2].
    apply wp_bind. unfold wp at 1.
    pose proof (kept_trans _ _ _ Hk2 (Hask ask (requestFor g c p r requestId ts) w2 eq_refl Hc2)) as Hk3.
    destruct (ask _ w2) as [w3 [a|e]]; cbn [fst snd] in *; [|exact Hk3].
    destruct a as [d|e|]; [|destruct (isServiceAuthorityError e); exact Hk3 | exact Hk3].
    apply wp_outcome. destruct (validateDecision _ d) as [d'|e]; [|exact Hk3].
    destruct (negb _); [exact Hk3|]. destruct Hk3 as (Hc3 & Hl3 & Hd3).
    apply wp_bind, wpc_nowIso; [exact Hc3|]. intros u at_ w4 _ _ Hc4 Hl4 Hd4.
    apply wp_bind, wpc_nowMs; [exact Hc4|]. intros u' w5 Hu' _ Hc5 Hl5 Hd5.
    apply wp_bind, wpc_isoString; [unfold CONTEXT_TTL_MS, timeBound, maxTime in *; lia|]. intros e _.
    unfold wp, mintExecutionContext. cbn [fst snd].
    split; [eapply calm_ctl; [exact Hc5 | reflexivity | reflexivity | later_ctl]|].
    split; [|cbn; congruence]. transitivity w5; [later_tac | later_ctl]. }
  destruct (vp_bound p).
  - apply wp_tryCatch. unfold wp at 1. pose proof (Hcheck p (c_name c) r w Hc) as Hk.
    destruct (g_check g p (c_name c) r w) as [w1 [[]|e]]; cbn [fst snd] in *; [now apply Hrest|].
    destruct (isServiceAuthorityError e); exact Hk.
  - destruct (bool_decide _); [now apply kept_refl|]. apply wp_ret, Hrest. now apply kept_refl.
Qed.

(** A refusal leaves the store as it was, but for one new row that records
    the denial. *)
Definition onlyRefusal (db db' : DB) : Prop :=
  db' = db \/ exists id row, changed CEvidence id (Some row) db db' /\ peek CEvidence id db = None /\
    e_outcome row = OutcomeDenied /\ e_decision row <> Allow.

Lemma recordRefusal_spec cap caller r options requestId startedAt e w :
  calm w -> wp (recordRefusal g cap caller r options requestId startedAt e)
    (fun _ w' => calm w' /\ after w w' /\ onlyRefusal (w_db w) (w_db w')) w.
Proof.
  intros Hc. assert (calm w /\ after w w /\ onlyRefusal (w_db w) (w_db w)) as Hno
    by (split; [exact Hc|]; split; [reflexivity | now left]).
  unfold recordRefusal. destruct e; try exact Hno. destruct caller as [p| | |]; try exact Hno.
  destruct (_ || _); [exact Hno|]. clear Hno.
  apply wp_bind, wpc_uuid; [exact Hc|]. intros id w1 _ Ho Hc1 Hl1 Hd1.
  apply wp_bind, wpc_nowIso; [exact Hc1|]. intros u at_ w2 _ _ Hc2 Hl2 Hd2.
  pose proof (owned_ctl _ _ _ Ho Hl2 Hd2) as Ho2.
  apply wp_swallow. unfold ev_record. apply wp_bind, wp_outcome.
  destruct (assertEvidenceHasNoSecrets _) as [[]|];
    [|split; [exact Hc2|]; split; [after_tac | left; congruence]].
  cbn [e_id]. apply wpc_create; [exact Hc2 | exact Ho2|]. intros w3 Hc3 Hl3 Hch.
  split; [exact Hc3|]. split; [after_tac|]. right. rewrite <- Hd1, <- Hd2.
  exists id. eexists. split; [exact Hch|]. split; [apply Ho2|]. cbn.
  split; [reflexivity|]. destruct (present _); discriminate.
Qed.

(** What precedes the run of an admitted operation. *)
Definition approaches (name : string) (caller : Caller) (r : ServiceResource) (options : ExecuteOptions)
  : M DB (ServiceExecutionContext * string) :=
  requestId ← match o_requestId options with Some r => mret r | None => randomUUID end;
  startedAt ← nowIso;
  x ← tryCatch (authorize g name caller r requestId) (fun error =>
        _ ← recordRefusal g name caller r options requestId startedAt error; throw error);
  mret (x, startedAt).

Lemma execute_approaches {T} name caller r options (effect : ServiceExecutionContext -> EffectTools -> M DB T) w :
  execute g name caller r options effect w =
  match approaches name caller r options w with
  | (w1, Ok (x, startedAt)) => run g (Issued x) options effect startedAt w1
  | (w1, Throw e) => (w1, Throw e)
  end.
Proof.
  unfold execute, approaches, mbind, M_bind. destruct (match o_requestId options with Some r => mret r | None => randomUUID end w) as [w1 [rid|e]]; [|reflexivity].
  destruct (nowIso w1) as [w2 [st|e]]; [|reflexivity]. destruct (tryCatch _ _ w2) as [w3 [x|e]]; reflexivity.
Qed.

Lemma approaches_spec name caller r options w : calm w -> hostQuiet ->
  wp (approaches name caller r options) (fun o w' => calm w' /\ after w w' /\
    match o with
    | Ok (x, _) => later w w' /\ w_db w' = w_db w /\ exists requestId c p, issuedFor name caller r requestId c p x
    | Throw _ => onlyRefusal (w_db w) (w_db w')
    end) w.
Proof.
  intros Hc Hhost. unfold approaches. apply wp_bind.
  assert (forall requestId w1, kept w w1 -> wp (startedAt ← nowIso;
    x ← tryCatch (authorize g name caller r requestId) (fun error =>
        _ ← recordRefusal g name caller r options requestId startedAt error; throw error);
    mret (x, startedAt))
     (fun o w' => calm w' /\ after w w' /\
        match o with
        | Ok (x, _) => later w w' /\ w_db w' = w_db w /\ exists requestId c p, issuedFor name caller r requestId c p x
        | Throw _ => onlyRefusal (w_db w) (w_db w')
        end) w1) as Hgo.
  2: { destruct (o_requestId options) as [rid|]; [apply wp_ret, Hgo; now apply kept_refl|].
       apply wpc_uuid; [exact Hc|]. intros rid w1 _ _ Hc1 Hl1 Hd1. apply Hgo. split; auto. }
  intros requestId w1 (Hc1 & Hl1 & Hd1). apply wp_bind, wpc_nowIso; [exact Hc1|].
  intros u startedAt w2 _ _ Hc2 Hl2 Hd2. apply wp_bind, wp_tryCatch.
  pose proof (authorize_quiet name caller r requestId w2 Hhost Hc2) as Hq.
  unfold wp at 1. unfold wp in Hq.
  destruct (authorize g name caller r requestId w2) as [w3 [x|e]] eqn:Ea; cbn [fst snd] in *;
    destruct Hq as (Hc3 & Hl3 & Hd3).
  - apply wp_ret. apply authorize_inv in Ea as (c & p & Had). split; [exact Hc3|]. split; [after_tac|]. split; [later_tac|].
    split; [congruence|]. eauto.
  - apply wp_bind. eapply wp_mono; [apply recordRefusal_spec, Hc3|].
    assert (w_db w3 = w_db w) as Hdb by congruence. rewrite Hdb.
    intros o w4 (Hc4 & Hl4 & Href).
    destruct o as [[]|e']; [apply wp_throw|]; (split; [exact Hc4|]; split; [after_tac | exact Href]).
Qed.

(** One protected operation, in full: refused, with the store untouched but
    for evidence of the refusal and one result whatever the effect is; or
    admitted, and then the effect ran under the admitted context inside its
    evidence row. *)
Lemma execute_full {T} name caller r options (effect : ServiceExecutionContext -> EffectTools -> M DB T)
  (R : ServiceExecutionContext -> string -> string -> outcome T -> World DB -> Prop) w :
  calm w -> hostQuiet ->
  (forall requestId c p x id startedAt w1, issuedFor name caller r requestId c p x ->
     calm w1 -> later w w1 -> resolvedRefs id w1 = [] -> peek CEvidence id (w_db w) = None ->
     changed CEvidence id (Some (evidenceFor x options id startedAt Started)) (w_db w) (w_db w1) ->
     wp (effect x (toolsFor g x options id))
        (fun o w2 => calm w2 /\ after w1 w2 /\
           peek CEvidence id (w_db w2) = Some (evidenceFor x options id startedAt Started) /\
           (o_credentialRef options = None -> cleanRef (refUpdate options (resolvedRefs id w2))) /\ R x id startedAt o w2) w1) ->
  wp (execute g name caller r options effect)
     (fun o w' => calm w' /\ after w w' /\
        ((exists e, o = Throw e /\ onlyRefusal (w_db w) (w_db w') /\
            forall effect' : ServiceExecutionContext -> EffectTools -> M DB T, execute g name caller r options effect' w = (w', Throw e)) \/
         exists requestId c p x id startedAt w2 row, issuedFor name caller r requestId c p x /\
           R x id startedAt o w2 /\ finished x options id startedAt o row /\ later w2 w' /\
           changed CEvidence id (Some row) (w_db w2) (w_db w'))) w.
Proof.
  intros Hc Hhost Heffect. pose proof (approaches_spec name caller r options w Hc Hhost) as Hgate.
  unfold wp at 1. unfold wp in Hgate. rewrite execute_approaches.
  destruct (approaches name caller r options w) as [w1 [[x startedAt]|e]] eqn:Eg; cbn [fst snd] in *.
  - destruct Hgate as (Hc1 & _ & Hl1 & Hd1 & rid & c & p & Hi).
    assert (wp (run g (Issued x) options effect startedAt) (fun o w' => calm w' /\ after w1 w' /\
        ((exists e, o = Throw e /\ w_db w' = w_db w1 /\
            forall effect' : ServiceExecutionContext -> EffectTools -> M DB T, run g (Issued x) options effect' startedAt w1 = (w', Throw e)) \/
         exists id w2 row, R x id startedAt o w2 /\ finished x options id startedAt o row /\ later w2 w' /\
           changed CEvidence id (Some row) (w_db w2) (w_db w'))) w1) as Hrun.
    { apply (run_full x options effect startedAt (fun id => R x id startedAt)); [exact Hc1|].
      intros id w2 Hc2 Hl2 Hnil Hn Hch. rewrite Hd1 in Hn, Hch. eapply Heffect; try eassumption. later_tac. }
    unfold wp in Hrun. destruct Hrun as (Hc' & Ha' & [(e & E & Hd & Hall)|(id & w2 & row & HR & Hfin & Hl2 & Hch)]);
      (split; [exact Hc'|]; split; [after_tac|]).
    + left. exists e. split; [exact E|]. split; [left; congruence|]. intros effect'. now rewrite execute_approaches, Eg.
    + right. exists rid, c, p, x, id, startedAt, w2, row. auto 10.
  - destruct Hgate as (Hc1 & Ha1 & Href). split; [exact Hc1|]. split; [exact Ha1|]. left. exists e. split; [reflexivity|]. split; [exact Href|].
    intros effect'. now rewrite execute_approaches, Eg.
Qed.

Lemma execute_spec {T} name caller r options (effect : ServiceExecutionContext -> EffectTools -> M DB T)
  (R : ServiceExecutionContext -> string -> string -> outcome T -> World DB -> Prop) w :
  calm w -> hostQuiet ->
  (forall requestId c p x id startedAt w1, issuedFor name caller r requestId c p x ->
     calm w1 -> later w w1 -> resolvedRefs id w1 = [] -> peek CEvidence id (w_db w) = None ->
     changed CEvidence id (Some (evidenceFor x options id startedAt Started)) (w_db w) (w_db w1) ->
     wp (effect x (toolsFor g x options id))
        (fun o w2 => calm w2 /\ after w1 w2 /\
           peek CEvidence id (w_db w2) = Some (evidenceFor x options id startedAt Started) /\
           (o_credentialRef options = None -> cleanRef (refUpdate options (resolvedRefs id w2))) /\ R x id startedAt o w2) w1) ->
  wp (execute g name caller r options effect)
     (fun o w' => calm w' /\ after w w' /\
        ((exists e, o = Throw e /\ onlyRefusal (w_db w) (w_db w')) \/
         exists requestId c p x id startedAt w2 row, issuedFor name caller r requestId c p x /\
           R x id startedAt o w2 /\ finished x options id startedAt o row /\ later w2 w' /\
           changed CEvidence id (Some row) (w_db w2) (w_db w'))) w.
Proof.
  intros Hc Hhost Heffect. eapply wp_mono; [exact (execute_full name caller r options effect R w Hc Hhost Heffect)|].
  intros o w' (Hc' & Ha & [(e & E & Hd & _)|Hran]); (split; [exact Hc'|]; split; [exact Ha|]); [left; eauto | now right].
Qed.

(** Only evidence, clocks and identifiers moved. *)
Definition evidenceOnly w w' : Prop :=
  later w w' /\ forall V (c : coll V) k, cname c <> cname CEvidence -> peek c k (w_db w') = peek c k (w_db w).

Lemma evidenceOnly_changed id o w w' :
  later w w' -> changed CEvidence id o (w_db w) (w_db w') -> evidenceOnly w w'.
Proof.
  intros Hl Hch. split; [exact Hl|]. intros V c k Hne. apply (changed_frame _ _ _ _ _ _ _ Hch).
  intros E. apply Hne. exact (f_equal fst E).
Qed.

(** The same for an effect that names no credential: seen from the other
    collections, an admitted operation is its effect. *)
Lemma execute_effect {T} name caller r options (effect : ServiceExecutionContext -> EffectTools -> M DB T)
  (R : ServiceExecutionContext -> outcome T -> World DB -> Prop) w :
  calm w -> hostQuiet ->
  (forall requestId c p x id startedAt w1, issuedFor name caller r requestId c p x ->
     calm w1 -> evidenceOnly w w1 ->
     peek CEvidence id (w_db w1) = Some (evidenceFor x options id startedAt Started) ->
     wp (effect x (toolsFor g x options id))
        (fun o w2 => calm w2 /\ after w1 w2 /\ w_resolved w2 = w_resolved w1 /\
           (forall k row, peek CEvidence k (w_db w1) = Some row -> peek CEvidence k (w_db w2) = Some row) /\
           R x o w2) w1) ->
  wp (execute g name caller r options effect)
     (fun o w' => calm w' /\ after w w' /\
        ((exists e, o = Throw e /\ onlyRefusal (w_db w) (w_db w')) \/
         exists requestId c p x w2, issuedFor name caller r requestId c p x /\ R x o w2 /\ evidenceOnly w2 w')) w.
Proof.
  intros Hc Hhost Hf.
  eapply wp_mono; [apply (execute_spec name caller r options effect (fun x _ _ o w2 => R x o w2)); [exact Hc | exact Hhost|]|].
  - intros rid c p x id st w1 Hi Hc1 Hl1 Hnil Hn Hch.
    pose proof (changed_hit _ _ _ _ _ Hch) as Hrow.
    eapply wp_mono; [apply (Hf rid c p x id st w1 Hi Hc1 (evidenceOnly_changed _ _ _ _ Hl1 Hch) Hrow)|].
    intros o w2 (Hc2 & Ha2 & Hres & Hkeep & HR). split; [exact Hc2|]. split; [exact Ha2|].
    split; [apply Hkeep, Hrow|]. unfold resolvedRefs. rewrite Hres. unfold resolvedRefs in Hnil. rewrite Hnil.
    split; [unfold refUpdate; intros ->; exact I | exact HR].
  - intros o w' (Hc' & Ha' & [Hr|(rid & c & p & x & id & st & w2 & row & Hi & HR & _ & Hl2 & Hch)]);
      (split; [exact Hc'|]; split; [exact Ha'|]); [now left|].
    right. exists rid, c, p, x, w2. split; [exact Hi|]. split; [exact HR|]. eapply evidenceOnly_changed; eassumption.
Qed.

(** A refusal is not seen from the other collections. *)
Lemma onlyRefusal_frame db db' : onlyRefusal db db' ->
  forall V (c : coll V) k, cname c <> cname CEvidence -> peek c k db' = peek c k db.
Proof.
  intros [->|(id & row & Hch & _)] V c k Hne; [reflexivity|]. apply (changed_frame _ _ _ _ _ _ _ Hch).
  intros E. apply Hne. exact (f_equal fst E).
Qed.

(** ** Durable principals *)

(** The evidence that makes a durable principal an identity. *)
Definition attestedBy (durable : option DurablePrincipal) (caps : list string) (db : DB) : Prop :=
  exists d by_ k row, durable = Some d /\ dp_authorizedBy d = Some by_ /\ by_ <> "" /\
    peek CEvidence k db = Some row /\ e_decisionId row = Some by_ /\ e_decision row = Allow /\
    e_application row = g_application g /\ e_tenantId row = dp_tenantId d /\
    e_principalId row = dp_principalId d /\ e_principalType row = dp_principalType d /\
    e_delegationId row = dp_delegationId d /\ In (e_capability row) caps /\
    (e_outcome row = Started \/ e_outcome row = Succeeded).

Lemma attests_spec d caps row :
  attests g d caps row = true <->
  e_decision row = Allow /\ e_application row = g_application g /\ e_tenantId row = dp_tenantId d /\
  e_principalId row = dp_principalId d /\ e_principalType row = dp_principalType d /\
  e_delegationId row = dp_delegationId d /\ In (e_capability row) caps /\
  (e_outcome row = Started \/ e_outcome row = Succeeded).
Proof.
  unfold attests. rewrite !andb_true_iff, orb_true_iff, !bool_decide_eq_true, !String.eqb_eq, oeqb_true,
    existsb_exists.
  split.
  - intros (((((((? & ?) & ?) & ?) & ?) & ?) & (c & Hc & E)) & ?).
    apply String.eqb_eq in E. subst c. auto 10.
  - intros (? & ? & ? & ? & ? & ? & ? & ?). repeat split; try assumption.
    exists (e_capability row). split; [assumption | apply String.eqb_refl].
Qed.

Lemma attest_spec durable caps w :
  quiet w ->
  wp (attest g durable caps) (fun o w' => w' = w /\
    (o = Ok tt <-> attestedBy durable caps (w_db w)) /\
    match o with Ok _ => True | Throw e => hasCode DENIED e = true end) w.
Proof.
  intros Hq. unfold attest.
  destruct durable as [d|];
    [|apply wp_throw; split; [reflexivity|]; split; [|reflexivity];
      split; [discriminate | intros (? & ? & ? & ? & E & _); discriminate E]].
  destruct (ifPresent (dp_authorizedBy d)) as [by_|] eqn:Eb.
  - assert (dp_authorizedBy d = Some by_ /\ by_ <> "") as [Hby Hne].
    { unfold ifPresent in Eb. destruct (dp_authorizedBy d) as [s|]; [|discriminate].
      destruct (truthy s) eqn:Et; [|discriminate]. injection Eb as ->.
      split; [reflexivity | now apply truthy_spec]. }
    apply wp_bind, wp_find; [exact Hq|]. intros l Hl.
    destruct (existsb (attests g d caps) l) eqn:Ex.
    + apply wp_ret. split; [reflexivity|]. split; [|exact I]. split; [|reflexivity]. intros _.
      apply existsb_exists in Ex as (row & Hrow & Ha). apply list_elem_of_In in Hrow.
      apply (enumerates_in _ _ _ _ _ Hl) in Hrow as (k & Hk & Hd). apply oeqb_true in Hd.
      apply attests_spec in Ha. exists d, by_, k, row. tauto.
    + apply wp_throw. split; [reflexivity|]. split; [|reflexivity]. split; [discriminate|].
      intros (d' & by' & k & row & [= <-] & Hby' & _ & Hk & Hd & Ha).
      rewrite Hby in Hby'. injection Hby' as <-.
      apply not_true_iff_false in Ex. exfalso. apply Ex, existsb_exists. exists row.
      split; [|apply attests_spec; tauto].
      apply list_elem_of_In, (enumerates_in _ _ _ _ _ Hl). exists k.
      split; [exact Hk | now apply oeqb_true].
  - apply wp_throw. split; [reflexivity|]. split; [|reflexivity]. split; [discriminate|].
    intros (d' & by' & _ & _ & [= <-] & Hby' & Hne & _). exfalso.
    unfold ifPresent in Eb. rewrite Hby' in Eb. apply truthy_spec in Hne. rewrite Hne in Eb. discriminate.
Qed.

(** The row of an effect that returned attests the durable principal its
    records carry. *)
Lemma finished_attests {T} name p r requestId c p' x options id startedAt (a : T) row delegation caps (db : DB) :
  issuedFor name (CVerified p) r requestId c p' x ->
  finished x options id startedAt (Ok a) row -> peek CEvidence id db = Some row -> In name caps ->
  ifPresent (match attribute r "delegationId" with Some d => Some d | None => vp_delegationId p end)
    = ifPresent (match delegation with Some _ => delegation | None => vp_delegationId p end) ->
  attestedBy (Some (toDurablePrincipal p delegation (Some (a_decisionId (x_authorization x))))) caps db.
Proof.
  intros Hi (at_ & ref & v & ->) Hrow Hname Hdel. destruct Hi as [Had Hxp Hxa Hxt Hxc _ Hxr _ Hxd _].
  pose proof Had as (Hcap & _ & [= <-] & _ & Htenant & _).
  unfold attestedBy. do 4 eexists. split; [reflexivity|]. cbn -[applyUpdate].
  split; [rewrite (proj2 (truthy_spec _) Hxd); reflexivity|]. split; [exact Hxd|].
  split; [exact Hrow|]. cbn. rewrite Hxa, Hxt, Hxc, (capability_name _ _ Hcap), Hxp.
  repeat split; auto. unfold effectiveDelegation. rewrite Hxr, Hxp. exact Hdel.
Qed.

(** ** Contexts and credentials *)

Lemma assertContext_expired x cap tenant now now' :
  assertExecutionContext (Issued x) cap tenant now = Ok x -> dateLe (x_expiresAt x) now' = true ->
  exists e, assertExecutionContext (Issued x) cap tenant now' = Throw e /\ hasCode DENIED e = true.
Proof.
  unfold assertExecutionContext. intros Hok ->. do 2 (case_match; [discriminate|]).
  eexists. split; reflexivity.
Qed.

Lemma consume_once value cap tenant w w' x w2 :
  consumeExecutionContext value cap tenant w = (w', Ok x) ->
  x_identity x ∈ w_consumed w2 ->
  exists w3 e, consumeExecutionContext value cap tenant w2 = (w3, Throw e) /\ hasCode DENIED e = true.
Proof.
  unfold consumeExecutionContext. intros E Hc. inv_run.
  assert (x = a0) as -> by (destruct a1; inv_run; congruence).
  pose proof Hm0 as Hctx. apply assertContext_spec in Hctx as (-> & _).
  unfold mbind at 1, M_bind at 1, systemMs. unfold mbind at 1, M_bind at 1, ofOutcome.
  destruct (dateLe (x_expiresAt a0) (w_system w2 (w_systick w2))) eqn:El.
  - destruct (assertContext_expired _ _ _ _ _ Hm0 El) as (e & -> & He). eauto.
  - assert (assertExecutionContext (Issued a0) cap tenant (w_system w2 (w_systick w2)) = Ok a0) as ->.
    { apply assertContext_spec in Hm0 as (_ & H1 & H2 & _). apply assertContext_spec. auto. }
    unfold ask, mbind, M_bind. cbn. rewrite bool_decide_eq_true_2 by exact Hc.
    eexists; eexists; split; reflexivity.
Qed.

Lemma withCredential_unauthorized {T} x ref purpose (use : ResolvedSecret -> M DB T) provider w :
  attribute (x_resource x) "credentialRef" <> Some ref \/
    dateLe (x_expiresAt x) (w_clock w (w_tick w)) = true ->
  exists e, withCredential g (Issued x) ref purpose use provider w
    = (w <| w_tick := S (w_tick w) |>, Throw e) /\ hasCode DENIED e = true.
Proof.
  intros Hno. unfold withCredential, mbind, M_bind, nowMs, ofOutcome, assertExecutionContext.
  cbn [ownCapability]. rewrite String.eqb_refl. cbn [negb].
  destruct (dateLe (x_expiresAt x) (w_clock w (w_tick w))) eqn:El.
  - eexists. split; reflexivity.
  - destruct Hno as [Hno|]; [|discriminate].
    destruct (oeqb _ (Some ref)) eqn:Eo; [apply oeqb_true in Eo; contradiction|].
    eexists. split; reflexivity.
Qed.
End facts.

(** ** Custody failures are rebuilt from fixed text *)

(** Every message a failing custody write can produce. *)
Definition custodyMessages : list string :=
  app (map (fun c => "Credential custody refused the request (" ++ codeName c ++ ")")
    [DENIED; AUTHORITY_UNAVAILABLE; AUTHORIZATION_TIMEOUT; INVALID_REQUEST; PROVIDER_ERROR; UNAUTHENTICATED; NOT_FOUND])
  (map errorMessage [readOnly "" None false; secretFailure "" None; secretFailure "" (Some "tenant_mismatch");
    secretFailure "" (Some "secret_revoked"); secretFailure "" (Some "secret_not_found")]).

Lemma secretFailure_fixed cap code :
  In (errorMessage (secretFailure cap code)) custodyMessages /\
  exists c m, secretFailure cap code =
    ServiceAuthorityError c m (mkDetails (Some cap) None (Some (orElse code "unknown"))).
Proof.
  unfold secretFailure. repeat case_goal; (split; [cbn; auto 20 | eauto]).
Qed.

(** On the write path, whatever the host's custody throws, the error that
    leaves carries one of fixed messages, the capability, and at most a short
    snake_case reason. *)
Lemma mapCredentialFailure_fixed error cap :
  exists c m reason, mapCredentialFailure error cap true = ServiceAuthorityError c m (mkDetails (Some cap) None reason) /\
    In m custodyMessages /\
    match reason with Some r => safeCode r = true | None => True end.
Proof.
  unfold mapCredentialFailure. destruct error as [c m d|c m|m|n m|st c m|r]; cbn [negb andb].
  3-6: destruct (secretFailure_fixed cap None) as [Hin (k & m' & E)]; rewrite E in Hin |- *;
    do 3 eexists; (split; [reflexivity|]); split; [exact Hin | reflexivity].
  - destruct (bool_decide (c = CUSTODY_READ_ONLY)) eqn:E.
    + do 3 eexists. split; [reflexivity|]. split; [cbn; auto 20 | reflexivity].
    + do 3 eexists. split; [reflexivity|]. split; [destruct c; cbn; auto 20; discriminate E|].
      destruct (d_reason d) as [r|]; [|exact I]. destruct (safeCode r) eqn:Er; [exact Er | exact I].
  - destruct (safeCode c) eqn:Es; cbn [negb].
    + destruct (secretFailure_fixed cap (Some c)) as [Hin (k & m' & E)]. rewrite E in Hin |- *.
      do 3 eexists. split; [reflexivity|]. split; [exact Hin | exact Es].
    + destruct (secretFailure_fixed cap None) as [Hin (k & m' & E)]. rewrite E in Hin |- *.
      do 3 eexists. split; [reflexivity|]. split; [exact Hin | reflexivity].
Qed.
