(* ===== verification/ApiKeys.v ===== *)
(** * ApiKeys: API keys as identities

    [storage/api-keys.ts] and [api-keys/service.ts].  The key-derivation
    functions ([scryptSync], [createHmac]) are parameters.  The queues that
    order one process's creations and authentications have no counterpart:
    each operation here is one call.  Scopes are always empty and have no
    field. *)

From S2P Require Import Prelude JsString Encoding JsTime Errors Models Store Principal Manifest Restrictions Evidence Gateway.
From Stdlib Require Import ZArith Lia Ascii.
Local Open Scope string_scope.
Local Open Scope Z_scope.

(** ** [storage/api-keys.ts] *)

Section store.
Context {DB : Type} `{FeltDB DB}.

Definition issueOperations (k : ApiKey) : list txop :=
  [ TxPut CKeys (k_id k) true None k;
    TxPut CPrefixes (k_keyPrefix k) true None (mkPrefix (k_keyPrefix k) (k_id k) (k_tenantId k) (k_createdAt k) 1) ].

Definition ks_create (k : ApiKey) : M DB unit := transaction (issueOperations k).

Definition ks_rotate (current retired replacement : ApiKey) : M DB unit :=
  transaction (TxPut CKeys (k_id current) false (Some (k_version current))
                 (retired <| k_version := k_version current + 1 |>) :: issueOperations replacement).

(** Fields of the current record that [next] lacks are written as null, which
    reads as absent: the record becomes [next]. *)
Definition ks_replace (id : string) (expectedVersion : Z) (next : ApiKey) : M DB (option ApiKey) :=
  current ← get CKeys id;
  match current with
  | None => mret None
  | Some _ => updateIfVersion CKeys id expectedVersion (fun _ => next)
  end.

Definition ks_get (id : string) : M DB (option ApiKey) := get CKeys id.

Definition ks_findByPrefix (prefix : string) : M DB (option ApiKey) :=
  pointer ← get CPrefixes prefix;
  match pointer with
  | None => mret None
  | Some p => get CKeys (kp_apiKeyId p)
  end.

Definition ks_list (tenantId : string) : M DB (list ApiKey) :=
  find CKeys (fun k => String.eqb (k_tenantId k) tenantId).

Definition revokedCopy (revokedAt : string) (revokedBy : option string) (k : ApiKey) : ApiKey :=
  (k <| k_revokedAt := Some revokedAt |>) <| k_revokedBy := orOld (ifPresent revokedBy) (k_revokedBy k) |>.

Definition ks_revoke (id : string) (expectedVersion : Z) (revokedAt : string) (revokedBy : option string)
  : M DB (option ApiKey) :=
  current ← get CKeys id;
  match current with
  | None => mret None
  | Some c => updateIfVersion CKeys id expectedVersion (fun _ => revokedCopy revokedAt revokedBy c)
  end.

Definition ks_recordLastUsed (id : string) (expectedVersion : Z) (lastUsedAt : string) : M DB (option ApiKey) :=
  current ← get CKeys id;
  match current with
  | None => mret None
  | Some c => updateIfVersion CKeys id expectedVersion (fun _ => c <| k_lastUsedAt := Some lastUsedAt |>)
  end.

Definition ka_record (event : ApiKeyAuditEvent) : M DB unit := insert CKeyAudit (ka_id event) event.

Definition ka_list (tenantId : string) : M DB (list ApiKeyAuditEvent) :=
  find CKeyAudit (fun e => String.eqb (ka_tenantId e) tenantId).
End store.

(** ** Constants and inputs *)

Definition API_KEY_SCHEME : string := "app_live".
Definition SECRET_BYTES : nat := 32.
Definition SALT_BYTES : nat := 16.
Definition MIN_VERIFIER_KEY_BYTES : nat := 32.
Definition MAX_CREATE_ATTEMPTS : nat := 5.
Definition MAX_UPDATE_ATTEMPTS : nat := 10.
Definition MAX_OVERLAP_SECONDS : Z := 7 * 24 * 60 * 60.
Definition MAX_PAGE_SIZE : Z := 500.
Definition DEFAULT_AUDIT_PAGE_SIZE : Z := 100.
Definition MAX_CACHED_PREFIXES : nat := 10 * 1000.
Definition MAX_LOCAL_KEYS : nat := 1000.

(** [unknown], where a date is expected: a [Date] (its time, or an invalid
    one), a text, or anything else. *)
Inductive DateInput :=
| DDate (time : option Z)
| DText (s : string)
| DOther.

Record CreateApiKeyInput := mkCreateKey {
  ck_tenantId : option string;
  ck_name : jsval;
  ck_scopes : list string;
  ck_restrictions : jsval;
  ck_expiresAt : option DateInput;
  ck_createdBy : jsval }.

(** [uk_expiresAt]: absent, null, or a value. *)
Record UpdateApiKeyInput := mkUpdateKey {
  uk_tenantId : option string;
  uk_id : jsval;
  uk_name : jsval;
  uk_restrictions : jsval;
  uk_expiresAt : option (option DateInput);
  uk_extra : list (string * jsval) }.

Record RotateApiKeyInput := mkRotateKey {
  ro_tenantId : option string;
  ro_id : jsval;
  ro_overlapSeconds : jsval;
  ro_extra : list (string * jsval) }.

Record CreatedApiKey := mkCreatedKey {
  cr_id : string;
  cr_name : string;
  cr_prefix : string;
  cr_secret : string }.

Record RotatedApiKey := mkRotatedKey {
  rt_created : CreatedApiKey;
  rt_replaces : string;
  rt_replacedKeyValidUntil : string }.

Record ApiKeyView := mkKeyView {
  kv_id : string;
  kv_tenantId : string;
  kv_applicationId : option string;
  kv_name : string;
  kv_keyPrefix : string;
  kv_restrictions : option ApiKeyRestrictions;
  kv_status : ApiKeyStatus;
  kv_createdAt : string;
  kv_expiresAt : option string;
  kv_revokedAt : option string;
  kv_revokedBy : option string;
  kv_lastUsedAt : option string;
  kv_updatedAt : option string;
  kv_updatedBy : option string;
  kv_rotatedFrom : option string;
  kv_rotatedTo : option string;
  kv_rotatedAt : option string;
  kv_createdBy : string }.

Record ApiKeyListOptions := mkListOptions {
  lo_status : jsval;
  lo_createdBy : jsval;
  lo_limit : jsval;
  lo_after : jsval }.

Definition badRequest (message : string) : exn := ServiceAuthorityError INVALID_REQUEST message noDetails.

Definition ApiKeyScopesNotSupportedError : exn := ServiceMigrationError
  "API key scopes are no longer authority. Old: API key + scopes -> service authority. New: API key -> identity; AuthBoundry -> authorization. Create the key without scopes and grant capabilities in AuthBoundry.".

(** ** Pure helpers *)

Definition expiredAt (expiresAt : option string) (now : Z) : bool :=
  match ifPresent expiresAt with Some e => dateLe e now | None => false end.

Definition keyStatus (k : ApiKey) (now : Z) : ApiKeyStatus :=
  if present (k_revokedAt k) then KRevoked
  else if expiredAt (k_expiresAt k) now then KExpired
  else KActive.

Definition statusName (s : ApiKeyStatus) : string :=
  match s with KActive => "active" | KExpired => "expired" | KRevoked => "revoked" end.

Definition toView (k : ApiKey) (now : Z) : ApiKeyView :=
  mkKeyView (k_id k) (k_tenantId k) (ifPresent (k_applicationId k)) (k_name k) (k_keyPrefix k)
    (k_restrictions k) (keyStatus k now) (k_createdAt k) (k_expiresAt k) (k_revokedAt k)
    (ifPresent (k_revokedBy k)) (k_lastUsedAt k) (ifPresent (k_updatedAt k)) (ifPresent (k_updatedBy k))
    (ifPresent (k_rotatedFrom k)) (ifPresent (k_rotatedTo k)) (ifPresent (k_rotatedAt k)) (k_createdBy k).

Definition toAuditView (e : ApiKeyAuditEvent) : ApiKeyAuditEvent :=
  mkKeyAudit (ka_id e) (ka_type e) (ka_credentialId e) (ka_tenantId e) (ka_principalId e) (ka_timestamp e)
    (ka_result e) (ka_changes e) (ifPresent (ka_relatedCredentialId e)).

(** The filter, page size and cursor of a list. [lq_status = None] is ['all']. *)
Record ListQuery := mkListQuery {
  lq_status : option ApiKeyStatus;
  lq_createdBy : option string;
  lq_limit : nat;
  lq_after : option string }.

Definition queryStatus (v : jsval) : outcome (option ApiKeyStatus) :=
  match v with
  | JUndef | JNull => Ok None
  | JStr s =>
      if String.eqb s "all" then Ok None
      else if String.eqb s "active" then Ok (Some KActive)
      else if String.eqb s "expired" then Ok (Some KExpired)
      else if String.eqb s "revoked" then Ok (Some KRevoked)
      else Throw (badRequest "status must be one of all, active, expired, revoked")
  | _ => Throw (badRequest "status must be one of all, active, expired, revoked")
  end.

Definition queryLimit (v : jsval) : outcome nat :=
  match v with
  | JUndef | JNull => Ok (Z.to_nat MAX_PAGE_SIZE)
  | JInt n => if (n <? 1) || (MAX_PAGE_SIZE <? n) then Throw (badRequest "limit must be an integer from 1 to 500")
              else Ok (Z.to_nat n)
  | _ => Throw (badRequest "limit must be an integer from 1 to 500")
  end.

Definition queryText (v : jsval) (property : string) : outcome (option string) :=
  match v with
  | JUndef => Ok None
  | JStr s => if truthy s then Ok (Some s) else Throw (badRequest (property ++ " must be a non-empty string"))
  | _ => Throw (badRequest (property ++ " must be a non-empty string"))
  end.

Definition listQuery (o : ApiKeyListOptions) : outcome ListQuery :=
  match queryStatus (lo_status o) with
  | Throw e => Throw e
  | Ok status =>
      match queryLimit (lo_limit o) with
      | Throw e => Throw e
      | Ok limit =>
          match queryText (lo_createdBy o) "createdBy" with
          | Throw e => Throw e
          | Ok createdBy =>
              match queryText (lo_after o) "after" with
              | Throw e => Throw e
              | Ok after => Ok (mkListQuery status createdBy limit after)
              end
          end
      end
  end.

(** [items.findIndex(...)], [None] for -1. *)
Fixpoint findIndex {A} (p : A -> bool) (l : list A) : option nat :=
  match l with
  | [] => None
  | x :: r => if p x then Some O else match findIndex p r with Some i => Some (S i) | None => None end
  end.

Definition page {A} (idOf : A -> string) (items : list A) (after : option string) (limit : nat) : list A :=
  match after with
  | None => take limit items
  | Some a =>
      match findIndex (fun x => String.eqb (idOf x) a) items with
      | None => []
      | Some i => take limit (drop (S i) items)
      end
  end.

Definition requiredId (value : jsval) : outcome string :=
  match value with
  | JStr s => if blank s then Throw (badRequest "id is required") else Ok s
  | _ => Throw (badRequest "id is required")
  end.

Definition evictOldest {A} (m : list (string * A)) (max : nat) : list (string * A) :=
  drop (length m - max) m.

(** ** Secrets *)

(** [^(app_live_[0-9a-f]{6})_(.+)$]; [.] matches no line terminator. *)
Definition parseApiKeyPrefix (secret : string) : option string :=
  let scheme := API_KEY_SCHEME ++ "_" in
  let r := sliceFrom 9 secret in
  let hex := sliceTo 6 r in
  let rest := sliceFrom 6 r in
  if startsWith secret scheme && Nat.eqb (String.length hex) 6 && all isHexLower hex &&
     startsWith rest "_" && truthy (sliceFrom 1 rest) &&
     all (fun c => negb (Nat.eqb (code c) 10 || Nat.eqb (code c) 13)) (sliceFrom 1 rest)
  then Some (scheme ++ hex) else None.

(** [s.split('$')] *)
Definition splitDollar : string -> list string := splitOn "$".

Inductive Verdict := Verified | NotVerified | VerifierUnavailable.

Section verifier.
(** [scryptSync(input, salt, length)] and [createHmac('sha256', key).update(text).digest()] *)
Variable scrypt : string -> string -> nat -> string.
Variable hmac : string -> string -> string.

Definition hashWith (secret salt : string) (verifierKey : option string) : string :=
  match verifierKey with
  | Some key => "hmac-scrypt$" ++ toBase64url salt ++ "$" ++ toBase64url (scrypt (hmac key secret) salt 32)
  | None => "scrypt$" ++ toBase64url salt ++ "$" ++ toBase64url (scrypt secret salt 32)
  end.

Definition hashSecret {DB} (secret : string) (verifierKey : option string) : M DB string :=
  salt ← randomBytes SALT_BYTES;
  mret (hashWith secret salt verifierKey).

(** [timingSafeEqual] throws when the lengths differ. *)
Definition timingSafeEqual (a b : string) : outcome bool :=
  if Nat.eqb (String.length a) (String.length b) then Ok (String.eqb a b)
  else Throw (JsError "RangeError" "Input buffers must have the same byte length").

Definition compareDigest (input saltValue digestValue : string) : outcome Verdict :=
  let expected := fromBase64url digestValue in
  match timingSafeEqual (scrypt input (fromBase64url saltValue) (String.length expected)) expected with
  | Ok true => Ok Verified
  | Ok false => Ok NotVerified
  | Throw e => Throw e
  end.

Definition verifySecret (secret encodedHash : string) (verifierKey : option string) : outcome Verdict :=
  match splitDollar encodedHash with
  | algorithm :: saltValue :: digestValue :: _ =>
      if negb (truthy saltValue) || negb (truthy digestValue) then Ok NotVerified
      else if String.eqb algorithm "scrypt" then compareDigest secret saltValue digestValue
      else if String.eqb algorithm "hmac-scrypt" then
        match verifierKey with
        | None => Ok VerifierUnavailable
        | Some key => compareDigest (hmac key secret) saltValue digestValue
        end
      else Ok NotVerified
  | _ => Ok NotVerified
  end.
End verifier.

(** ** [api-keys/service.ts] *)

Record ApiKeyService (DB : Type) := mkApiKeyService {
  av_authority : option (ServiceGateway DB);
  av_applicationId : string;
  av_verifierKey : option string;
  (** [runtime?.deployment.mode === 'local'] *)
  av_local : bool }.
Arguments mkApiKeyService {DB}. Arguments av_authority {DB}. Arguments av_applicationId {DB}.
Arguments av_verifierKey {DB}. Arguments av_local {DB}.

(** The constructor. *)
Definition newApiKeyService {DB} (allowedScopes : list string) (verifierKey applicationId : option string)
  (authority : option (ServiceGateway DB)) (localMode : bool) : outcome (ApiKeyService DB) :=
  match allowedScopes with
  | _ :: _ => Throw ApiKeyScopesNotSupportedError
  | [] =>
      let build := mkApiKeyService authority
            (orElse match applicationId with
                    | Some a => Some a
                    | None => match authority with Some g => Some (g_application g) | None => None end
                    end "default") in
      match verifierKey with
      | None => Ok (build None localMode)
      | Some key =>
          if Nat.ltb (String.length key) MIN_VERIFIER_KEY_BYTES
          then Throw (JsError "Error" "API key verifierKey must be at least 32 bytes")
          else Ok (build (Some key) localMode)
      end
  end.

(** What a new key is made of. *)
Record IssueInput := mkIssueInput {
  is_tenantId : string;
  is_name : string;
  is_restrictions : option ApiKeyRestrictions;
  is_expiresAt : option string;
  is_createdBy : string;
  is_rotatedFrom : option string }.

(** The changes of an update: each field absent, cleared, or set. *)
Record KeyChanges := mkChanges {
  kc_name : option string;
  kc_restrictions : option (option ApiKeyRestrictions);
  kc_expiresAt : option (option string) }.

Definition changedFields (c : KeyChanges) : list string :=
  sortBy String.leb
    (match kc_name c with Some _ => ["name"] | None => [] end ++
     match kc_restrictions c with Some _ => ["restrictions"] | None => [] end ++
     match kc_expiresAt c with Some _ => ["expiresAt"] | None => [] end)%list.

Definition deniedKey (capability reason message : string) : exn :=
  ServiceAuthorityError DENIED message (mkDetails (Some capability) None (Some reason)).

(** [waitForUpdateRetry]: a pause of at most 32 ms. *)
Definition waitForUpdateRetry {DB} : M DB unit := sleep.

Section service.
Context {DB : Type} `{FeltDB DB}.
Variable scrypt : string -> string -> nat -> string.
Variable hmac : string -> string -> string.
Variable localeLe : string -> string -> bool.
Variable stringOfValue : jsval -> string.
(** [new Date(text)] of texts that are not ISO dates. *)
Variable otherDate : string -> option Z.
Variable s : ApiKeyService DB.

Definition keyGateway : M DB (ServiceGateway DB) :=
  match av_authority s with
  | Some g => mret g
  | None => throw (ServiceAuthorityError AUTHORITY_UNAVAILABLE "API key management has no AuthBoundry authority configured" noDetails)
  end.

Definition isoDate (value : DateInput) (property : string) : outcome string :=
  let bad := Throw (badRequest (property ++ " must be a valid date")) in
  let of_ t := match toISO t with Some iso => Ok iso | None => bad end in
  match value with
  | DDate (Some t) => of_ t
  | DDate None => bad
  | DText x => match parseDate otherDate x with Some t => of_ t | None => bad end
  | DOther => bad
  end.

(** *** This process's caches *)

Definition withKnown (f : list (string * string) -> list (string * string)) : M DB unit :=
  modify (fun w : World DB => w <| w_mem := w_mem w <| mm_known := f (mm_known (w_mem w)) |> |>).

Definition withLocal (f : list (string * ApiKey) -> list (string * ApiKey)) : M DB unit :=
  modify (fun w : World DB => w <| w_mem := w_mem w <| mm_local := f (mm_local (w_mem w)) |> |>).

Definition rememberPrefix (prefix id : string) : M DB unit :=
  withKnown (fun m => evictOldest (mapSet (mapDelete m prefix) prefix id) MAX_CACHED_PREFIXES).

Definition rememberCreated (k : ApiKey) : M DB unit :=
  if av_local s then withLocal (fun m => evictOldest (mapSet m (k_id k) k) MAX_LOCAL_KEYS) else mret tt.

Definition rememberLocal (k : ApiKey) : M DB unit :=
  withLocal (fun m => match mapGet m (k_id k) with Some _ => mapSet m (k_id k) k | None => m end).

(** *** Audit *)

Definition keyAudit (type : string) (k : ApiKey) (principalId timestamp : string)
  (changes : option (list string)) (related : option string) : M DB unit :=
  id ← randomUUID;
  ka_record (mkKeyAudit id type (k_id k) (k_tenantId k) principalId timestamp RSuccess changes related).

Definition recordAuthEvent (k : ApiKey) (result : KeyAuditResult) (timestamp : string) : M DB unit :=
  id ← randomUUID;
  ka_record (mkKeyAudit id "api_key.authenticated" (k_id k) (k_tenantId k) (k_id k) timestamp result None None).

(** *** Who may manage which key *)

Definition owns (k : ApiKey) (tenantId : string) (allowLegacy : bool) : bool :=
  String.eqb (k_tenantId k) tenantId &&
  (oeqb (k_applicationId k) (Some (av_applicationId s)) || (allowLegacy && oeqb (k_applicationId k) None)).

(** [a > b] on texts. *)
Definition strGt (a b : string) : bool := negb (strLe a b).

(** [callerKey.expiresAt && (!expiresAt || expiresAt > callerKey.expiresAt)] *)
Definition outlives (expiresAt callerExpiresAt : option string) : bool :=
  match ifPresent callerExpiresAt with
  | None => false
  | Some limit => match ifPresent expiresAt with Some e => strGt e limit | None => true end
  end.

Definition assertWithinCaller (principal : VerifiedPrincipal) (restrictions : option ApiKeyRestrictions)
  (expiresAt : option string) : M DB unit :=
  if negb (bool_decide (vp_verifiedBy principal = ByApiKey)) then mret tt
  else match ifPresent (vp_credentialId principal) with
  | None => mret tt
  | Some credentialId =>
      callerKey ← ks_get credentialId;
      match callerKey with
      | None => throw (ServiceAuthorityError DENIED "Calling API key is unknown" (reasonOnly "credential_unknown"))
      | Some c =>
          if negb (restrictionsWithin restrictions (k_restrictions c)) then
            throw (ServiceAuthorityError DENIED "An API key cannot create, widen, or rotate a key broader than its own restrictions"
                     (reasonOnly "exceeds_credential_restrictions"))
          else if outlives expiresAt (k_expiresAt c) then
            throw (ServiceAuthorityError DENIED "An API key cannot create or extend a key that outlives it"
                     (reasonOnly "exceeds_credential_lifetime"))
          else mret tt
      end
  end.

(** *** Creating *)

Definition issue (input : IssueInput) : M DB (ApiKey * string) :=
  p ← randomBytes 3;
  let prefix := API_KEY_SCHEME ++ "_" ++ toHex p in
  b ← randomBytes SECRET_BYTES;
  let secret := prefix ++ "_" ++ toBase64url b in
  id ← randomUUID;
  secretHash ← hashSecret scrypt hmac secret (av_verifierKey s);
  createdAt ← nowIso;
  mret (mkApiKey id (is_tenantId input) (Some (av_applicationId s)) (is_name input) prefix secretHash
          (is_restrictions input) createdAt (is_expiresAt input) None None None None None
          (ifPresent (is_rotatedFrom input)) None None (is_createdBy input) 1, secret).

Definition createdOf (k : ApiKey) (secret : string) : CreatedApiKey :=
  mkCreatedKey (k_id k) (k_name k) (k_keyPrefix k) secret.

Fixpoint createLoop (attempts : nat) (input : IssueInput) : M DB CreatedApiKey :=
  match attempts with
  | O => throw (JsError "Error" "Unable to create a unique API key after repeated FeltDB conflicts.")
  | S attempts =>
      issued ← issue input;
      let k := fst issued in
      done ← tryCatch (
        _ ← ks_create k;
        _ ← rememberPrefix (k_keyPrefix k) (k_id k);
        _ ← rememberCreated k;
        _ ← keyAudit "api_key.created" k (is_createdBy input) (k_createdAt k) None None;
        mret (Some (createdOf k (snd issued))))
      (fun error => if isConditionalConflict error then mret None else throw error);
      match done with
      | Some created => mret created
      | None => createLoop attempts input
      end
  end.

Definition createApiKeyWithSideEffects (tenantId : string) (name : jsval) (restrictions : option ApiKeyRestrictions)
  (expiresAt : option string) (createdBy : string) : M DB CreatedApiKey :=
  match name with
  | JStr n =>
      if blank n then throw (badRequest "name must be a non-empty string")
      else createLoop MAX_CREATE_ATTEMPTS (mkIssueInput tenantId n restrictions expiresAt createdBy None)
  | _ => throw (badRequest "name must be a non-empty string")
  end.

(** [input.restrictions === undefined ? undefined : normalizeRestrictions(...)] *)
Definition restrictionsInput (v : jsval) : outcome (option ApiKeyRestrictions) :=
  match v with
  | JUndef => Ok None
  | _ => match normalizeRestrictions localeLe stringOfValue v with Ok r => Ok (Some r) | Throw e => Throw e end
  end.

Definition dateInput (v : option DateInput) (property : string) : outcome (option string) :=
  match v with
  | None => Ok None
  | Some d => match isoDate d property with Ok e => Ok (Some e) | Throw e => Throw e end
  end.

Definition keyOptions : ExecuteOptions := mkOptions "api-keys" None None None.

Definition createApiKey (input : CreateApiKeyInput) (caller : Caller) : M DB CreatedApiKey :=
  _ ← ofOutcome match ck_scopes input with [] => Ok tt | _ => Throw ApiKeyScopesNotSupportedError end;
  principal ← ofOutcome (requireVerifiedPrincipal caller);
  _ ← ofOutcome (rejectCallerActor [("createdBy", ck_createdBy input)] principal);
  tenantId ← ofOutcome (resolveTenant (ofOption (ck_tenantId input)) principal);
  restrictions ← ofOutcome (restrictionsInput (ck_restrictions input));
  expiresAt ← ofOutcome (dateInput (ck_expiresAt input) "expiresAt");
  g ← keyGateway;
  execute g "apikeys.create" (CVerified principal) (mkResource "api_key" tenantId None None) keyOptions
    (fun _ _ =>
       _ ← assertWithinCaller principal restrictions expiresAt;
       createApiKeyWithSideEffects tenantId (ck_name input) restrictions expiresAt (vp_principalId principal)).

(** *** Reading *)

(** Oldest first, ties by identifier. *)
Definition keyLe (a b : ApiKey) : bool :=
  let x := k_createdAt a in let y := k_createdAt b in
  localeLe x y && (negb (localeLe y x) || localeLe (k_id a) (k_id b)).

Definition listApiKeys (tenantId : string) (options : option ApiKeyListOptions) : M DB (list ApiKeyView) :=
  items ← ks_list tenantId;
  now ← nowMs;
  match options with
  | None => mret (map (fun k => toView k now) items)
  | Some o =>
      query ← ofOutcome (listQuery o);
      let matching := sortBy keyLe (List.filter (fun k =>
            oeqb (k_applicationId k) (Some (av_applicationId s))
            && match lq_status query with None => true | Some st => bool_decide (keyStatus k now = st) end
            && match lq_createdBy query with None => true | Some c => String.eqb (k_createdBy k) c end) items) in
      mret (map (fun k => toView k now) (page k_id matching (lq_after query) (lq_limit query)))
  end.

Definition getApiKey (tenantId id : string) : M DB (option ApiKeyView) :=
  k ← ks_get id;
  match k with
  | None => mret None
  | Some k =>
      if String.eqb (k_tenantId k) tenantId then now ← nowMs; mret (Some (toView k now))
      else mret None
  end.

(** *** Updating *)

Definition updatedKey (changes : KeyChanges) (updatedAt principalId : string) (current : ApiKey) : ApiKey :=
  current <| k_name := orElse (kc_name changes) (k_name current) |>
    <| k_restrictions := match kc_restrictions changes with Some r => r | None => k_restrictions current end |>
    <| k_expiresAt := ifPresent match kc_expiresAt changes with Some e => e | None => k_expiresAt current end |>
    <| k_updatedAt := Some updatedAt |> <| k_updatedBy := Some principalId |>.

Fixpoint updateLoop (attempts : nat) (tenantId id : string) (changes : KeyChanges) (principal : VerifiedPrincipal)
  : M DB (option ApiKeyView) :=
  match attempts with
  | O => throw (JsError "Error" ("Unable to update API key " ++ id ++ " because concurrent FeltDB updates never settled."))
  | S attempts =>
      found ← ks_get id;
      match found with
      | None => mret None
      | Some current =>
          if negb (owns current tenantId false) then mret None
          else if present (k_revokedAt current) then throw (badRequest "A revoked API key cannot be updated")
          else
            updatedAt ← nowIso;
            let next := updatedKey changes updatedAt (vp_principalId principal) current in
            _ ← match kc_restrictions changes, kc_expiresAt changes with
                | None, None => mret tt
                | _, _ => assertWithinCaller principal (k_restrictions next) (k_expiresAt next)
                end;
            result ← ks_replace (k_id current) (k_version current) next;
            match result with
            | None => _ ← waitForUpdateRetry; updateLoop attempts tenantId id changes principal
            | Some r =>
                let updated := next <| k_version := k_version r |> in
                _ ← rememberLocal updated;
                _ ← keyAudit "api_key.updated" updated (vp_principalId principal) updatedAt (Some (changedFields changes)) None;
                now ← nowMs;
                mret (Some (toView updated now))
            end
      end
  end.

Definition nameChange (v : jsval) : outcome (option string) :=
  match v with
  | JUndef => Ok None
  | JStr n => if blank n then Throw (badRequest "name must be a non-empty string") else Ok (Some n)
  | _ => Throw (badRequest "name must be a non-empty string")
  end.

Definition restrictionsChange (v : jsval) : outcome (option (option ApiKeyRestrictions)) :=
  match v with
  | JUndef => Ok None
  | JNull => Ok (Some None)
  | _ => match normalizeRestrictions localeLe stringOfValue v with Ok r => Ok (Some (Some r)) | Throw e => Throw e end
  end.

Definition expiryChange (v : option (option DateInput)) : outcome (option (option string)) :=
  match v with
  | None => Ok None
  | Some None => Ok (Some None)
  | Some (Some d) => match isoDate d "expiresAt" with Ok e => Ok (Some (Some e)) | Throw e => Throw e end
  end.

Definition updateApiKey (input : UpdateApiKeyInput) (caller : Caller) : M DB (option ApiKeyView) :=
  principal ← ofOutcome (requireVerifiedPrincipal caller);
  _ ← ofOutcome (rejectCallerActor (uk_extra input) principal);
  tenantId ← ofOutcome (resolveTenant (ofOption (uk_tenantId input)) principal);
  id ← ofOutcome (requiredId (uk_id input));
  name ← ofOutcome (nameChange (uk_name input));
  restrictions ← ofOutcome (restrictionsChange (uk_restrictions input));
  expiresAt ← ofOutcome (expiryChange (uk_expiresAt input));
  let changes := mkChanges name restrictions expiresAt in
  _ ← ofOutcome match changedFields changes with
      | [] => Throw (badRequest "Nothing to update: supply name, restrictions, or expiresAt")
      | _ => Ok tt
      end;
  g ← keyGateway;
  execute g "apikeys.update" (CVerified principal) (mkResource "api_key" tenantId (Some id) None) keyOptions
    (fun _ _ => updateLoop MAX_UPDATE_ATTEMPTS tenantId id changes principal).

(** *** Rotating *)

Definition retiredKey (replacementId rotatedAt principalId validUntil : string) (overlapSeconds : Z)
  (current : ApiKey) : ApiKey :=
  let k := current <| k_rotatedTo := Some replacementId |> <| k_rotatedAt := Some rotatedAt |> in
  if overlapSeconds =? 0 then k <| k_revokedAt := Some rotatedAt |> <| k_revokedBy := Some principalId |>
  else k <| k_expiresAt := Some validUntil |>.

(** [current.expiresAt && current.expiresAt < overlapEnd ? current.expiresAt : overlapEnd] *)
Definition earlierExpiry (expiresAt : option string) (overlapEnd : string) : string :=
  match ifPresent expiresAt with
  | Some e => if strGt overlapEnd e then e else overlapEnd
  | None => overlapEnd
  end.

Fixpoint rotateLoop (attempts : nat) (tenantId id : string) (overlapSeconds : Z) (principal : VerifiedPrincipal)
  : M DB (option RotatedApiKey) :=
  match attempts with
  | O => throw (JsError "Error" ("Unable to rotate API key " ++ id ++ " because concurrent FeltDB updates never settled."))
  | S attempts =>
      found ← ks_get id;
      match found with
      | None => mret None
      | Some current =>
          if negb (owns current tenantId false) then mret None
          else
            now ← nowMs;
            if present (k_rotatedTo current) then
              throw (badRequest "This API key has already been rotated; rotate its replacement instead")
            else if negb (bool_decide (keyStatus current now = KActive)) then
              throw (badRequest ("A " ++ statusName (keyStatus current now) ++ " API key cannot be rotated"))
            else
              _ ← assertWithinCaller principal (k_restrictions current) (k_expiresAt current);
              rotatedAt ← isoString now;
              overlapEnd ← isoString (now + overlapSeconds * 1000);
              let validUntil := earlierExpiry (k_expiresAt current) overlapEnd in
              issued ← issue (mkIssueInput tenantId (k_name current) (k_restrictions current) (k_expiresAt current)
                                (vp_principalId principal) (Some (k_id current)));
              let replacement := fst issued in
              let retired := retiredKey (k_id replacement) rotatedAt (vp_principalId principal) validUntil overlapSeconds current in
              committed ← tryCatch (_ ← ks_rotate current retired replacement; mret true)
                (fun error => if isConditionalConflict error then mret false else throw error);
              if (committed : bool) then
                _ ← rememberPrefix (k_keyPrefix replacement) (k_id replacement);
                _ ← rememberCreated replacement;
                _ ← rememberLocal (retired <| k_version := k_version current + 1 |>);
                _ ← keyAudit "api_key.created" replacement (vp_principalId principal) rotatedAt None (Some (k_id current));
                _ ← keyAudit "api_key.rotated" current (vp_principalId principal) rotatedAt None (Some (k_id replacement));
                _ ← (if overlapSeconds =? 0
                     then keyAudit "api_key.revoked" current (vp_principalId principal) rotatedAt None None
                     else mret tt);
                mret (Some (mkRotatedKey (createdOf replacement (snd issued)) (k_id current)
                              (if overlapSeconds =? 0 then rotatedAt else validUntil)))
              else _ ← waitForUpdateRetry; rotateLoop attempts tenantId id overlapSeconds principal
      end
  end.

Definition overlapInput (v : jsval) : outcome Z :=
  match v with
  | JUndef | JNull => Ok 0
  | JInt n => if (n <? 0) || (MAX_OVERLAP_SECONDS <? n)
              then Throw (badRequest "overlapSeconds must be an integer from 0 to 604800") else Ok n
  | _ => Throw (badRequest "overlapSeconds must be an integer from 0 to 604800")
  end.

Definition rotateApiKey (input : RotateApiKeyInput) (caller : Caller) : M DB (option RotatedApiKey) :=
  principal ← ofOutcome (requireVerifiedPrincipal caller);
  _ ← ofOutcome (rejectCallerActor (ro_extra input) principal);
  tenantId ← ofOutcome (resolveTenant (ofOption (ro_tenantId input)) principal);
  id ← ofOutcome (requiredId (ro_id input));
  overlapSeconds ← ofOutcome (overlapInput (ro_overlapSeconds input));
  g ← keyGateway;
  execute g "apikeys.rotate" (CVerified principal) (mkResource "api_key" tenantId (Some id) None) keyOptions
    (fun _ _ => rotateLoop MAX_UPDATE_ATTEMPTS tenantId id overlapSeconds principal).

(** *** Revoking *)

Fixpoint revokeLoop (attempts : nat) (tenantId id revokedBy : string) : M DB (option ApiKeyView) :=
  match attempts with
  | O => throw (JsError "Error" ("Unable to revoke API key " ++ id ++ " because concurrent FeltDB updates never settled."))
  | S attempts =>
      found ← ks_get id;
      match found with
      | None => mret None
      | Some current =>
          if negb (owns current tenantId true) then mret None
          else if present (k_revokedAt current) then now ← nowMs; mret (Some (toView current now))
          else
            revokedAt ← nowIso;
            result ← ks_revoke (k_id current) (k_version current) revokedAt (Some revokedBy);
            match result with
            | None => _ ← waitForUpdateRetry; revokeLoop attempts tenantId id revokedBy
            | Some r =>
                let updated := current <| k_revokedAt := Some revokedAt |> <| k_revokedBy := Some revokedBy |>
                      <| k_version := k_version r |> in
                _ ← keyAudit "api_key.revoked" updated revokedBy revokedAt None None;
                _ ← rememberLocal updated;
                now ← nowMs;
                mret (Some (toView updated now))
            end
      end
  end.

Definition revoke (tenantId id revokedBy : string) : M DB (option ApiKeyView) :=
  revokeLoop MAX_UPDATE_ATTEMPTS tenantId id revokedBy.

Definition revokeApiKey (tenantId : option string) (id : string) (revokedBy : jsval) (caller : Caller)
  : M DB (option ApiKeyView) :=
  principal ← ofOutcome (requireVerifiedPrincipal caller);
  _ ← ofOutcome (rejectCallerActor [("revokedBy", revokedBy)] principal);
  tenant ← ofOutcome (resolveTenant (ofOption tenantId) principal);
  g ← keyGateway;
  execute g "apikeys.revoke" (CVerified principal) (mkResource "api_key" tenant (Some id) None) keyOptions
    (fun _ _ => revoke tenant id (vp_principalId principal)).

Fixpoint revokeEach (tenantId revokedBy : string) (keys : list ApiKey) (revoked : list string) : M DB (list string) :=
  match keys with
  | [] => mret revoked
  | k :: rest =>
      result ← revoke tenantId (k_id k) revokedBy;
      revokeEach tenantId revokedBy rest match result with Some v => revoked ++ [kv_id v] | None => revoked end%list
  end.

Definition revokeCandidates (tenantId : string) (createdBy : option string) (all : list ApiKey) : list ApiKey :=
  sortBy keyLe (List.filter (fun k => owns k tenantId true && negb (present (k_revokedAt k))
    && match createdBy with None => true | Some c => String.eqb (k_createdBy k) c end) all).

Definition revokeAllApiKeys (tenantId : option string) (createdBy revokedBy principalField : jsval) (caller : Caller)
  : M DB (list string) :=
  principal ← ofOutcome (requireVerifiedPrincipal caller);
  _ ← ofOutcome (rejectCallerActor [("revokedBy", revokedBy); ("principal", principalField)] principal);
  tenant ← ofOutcome (resolveTenant (ofOption tenantId) principal);
  creator ← ofOutcome match createdBy with
      | JUndef => Ok None
      | JStr c => if blank c then Throw (badRequest "createdBy must be a non-empty string") else Ok (Some c)
      | _ => Throw (badRequest "createdBy must be a non-empty string")
      end;
  g ← keyGateway;
  execute g "apikeys.revoke" (CVerified principal)
    (mkResource "api_key" tenant None (Some {[ "createdBy" := orElse creator "*" ]})) keyOptions
    (fun _ _ =>
       all ← ks_list tenant;
       revokeEach tenant (vp_principalId principal) (revokeCandidates tenant creator all) []).

(** *** Audit reads *)

Definition eventLe (a b : ApiKeyAuditEvent) : bool :=
  let x := ka_timestamp a in let y := ka_timestamp b in
  localeLe x y && (negb (localeLe y x) || localeLe (ka_id a) (ka_id b)).

Definition listApiKeyAuditEvents (tenantId : option string) (credentialId limit after : jsval) (caller : Caller)
  : M DB (list ApiKeyAuditEvent) :=
  principal ← ofOutcome (requireVerifiedPrincipal caller);
  tenant ← ofOutcome (resolveTenant (ofOption tenantId) principal);
  credential ← ofOutcome match credentialId with
      | JUndef => Ok None
      | v => match requiredId v with Ok c => Ok (Some c) | Throw e => Throw e end
      end;
  query ← ofOutcome (listQuery (mkListOptions JUndef JUndef
             match limit with JUndef | JNull => JInt DEFAULT_AUDIT_PAGE_SIZE | v => v end after));
  g ← keyGateway;
  execute g "apikeys.audit" (CVerified principal) (mkResource "api_key" tenant credential None) keyOptions
    (fun _ _ =>
       keys ← ks_list tenant;
       let owned := map k_id (List.filter (fun k => owns k tenant false) keys) in
       all ← ka_list tenant;
       let events := sortBy eventLe (List.filter (fun e =>
             String.eqb (ka_tenantId e) tenant && existsb (String.eqb (ka_credentialId e)) owned
             && match credential with None => true | Some c => String.eqb (ka_credentialId e) c end) all) in
       mret (map toAuditView (page ka_id events (lq_after query) (lq_limit query)))).

(** *** Authenticating *)

Definition findApiKeyByPrefix (prefix : string) : M DB (option ApiKey) :=
  let indexed : M DB (option ApiKey) :=
    found ← ks_findByPrefix prefix;
    match found with
    | Some k => _ ← rememberPrefix prefix (k_id k); mret (Some k)
    | None => mret None
    end in
  known ← ask (fun w : World DB => mapGet (mm_known (w_mem w)) prefix);
  match ifPresent known with
  | None => indexed
  | Some knownId =>
      stored ← ks_get knownId;
      match stored with
      | Some k => _ ← withLocal (fun m => mapDelete m knownId); mret (Some k)
      | None =>
          localKey ← ask (fun w : World DB => if av_local s then mapGet (mm_local (w_mem w)) knownId else None);
          match localKey with
          | Some k => mret (Some k)
          | None => indexed
          end
      end
  end.

Definition authenticationFailure (k : ApiKey) (secret : string) (now : Z) : outcome (option KeyAuditResult) :=
  if present (k_revokedAt k) then Ok (Some RRevoked)
  else if expiredAt (k_expiresAt k) now then Ok (Some RExpired)
  else match verifySecret scrypt hmac secret (k_secretHash k) (av_verifierKey s) with
       | Throw e => Throw e
       | Ok VerifierUnavailable => Ok (Some RVerifierUnavailable)
       | Ok NotVerified => Ok (Some RInvalidSecret)
       | Ok Verified =>
           if oeqb (k_applicationId k) (Some (av_applicationId s)) then Ok None else Ok (Some RApplicationMismatch)
       end.

Definition keyClaims (k : ApiKey) : PrincipalClaims :=
  mkClaims (k_id k) "api_key" (k_tenantId k) (k_applicationId k) (Some (k_id k)) None None.

Definition toPrincipal (k : ApiKey) : outcome VerifiedPrincipal :=
  match mintVerifiedPrincipal (keyClaims k) ByApiKey with
  | Ok p => Ok (bindCredentialCheck p)
  | Throw e => Throw e
  end.

(** What one attempt decided: the caller's identity, or nothing; [None]: try again. *)
Fixpoint authenticateLoop (attempts : nat) (prefix secret : string) : M DB (option VerifiedPrincipal) :=
  match attempts with
  | O =>
      found ← tryCatch (findApiKeyByPrefix prefix) (fun _ => mret None);
      match found with
      | None => mret None
      | Some current =>
          now ← nowMs;
          failure ← ofOutcome (authenticationFailure current secret now);
          at_ ← isoString now;
          match failure with
          | Some result => _ ← swallow (recordAuthEvent current result at_); mret None
          | None =>
              _ ← swallow (recordAuthEvent current RSuccess at_);
              p ← ofOutcome (toPrincipal current);
              mret (Some p)
          end
      end
  | S attempts =>
      let again := _ ← waitForUpdateRetry; authenticateLoop attempts prefix secret in
      found ← tryCatch (findApiKeyByPrefix prefix) (fun _ => mret None);
      match found with
      | None => again
      | Some current =>
          now ← nowMs;
          failure ← ofOutcome (authenticationFailure current secret now);
          match failure with
          | Some result => at_ ← isoString now; _ ← recordAuthEvent current result at_; mret None
          | None =>
              written ← tryCatch (at_ ← isoString now; ks_recordLastUsed (k_id current) (k_version current) at_)
                (fun _ => mret None);
              match written with
              | None => again
              | Some r =>
                  at_ ← isoString now;
                  let updated := current <| k_lastUsedAt := Some (orElse (k_lastUsedAt r) at_) |>
                        <| k_version := k_version r |> in
                  _ ← swallow (recordAuthEvent updated RSuccess at_);
                  _ ← rememberLocal updated;
                  p ← ofOutcome (toPrincipal updated);
                  mret (Some p)
              end
          end
      end
  end.

Definition authenticateApiKey (secret : jsval) : M DB (option VerifiedPrincipal) :=
  match secret with
  | JStr x =>
      match parseApiKeyPrefix x with
      | Some prefix => authenticateLoop MAX_UPDATE_ATTEMPTS prefix x
      | None => mret None
      end
  | _ => mret None
  end.
End service.

(** The check an authenticated principal carries: the key is read again for
    every operation.  It is what [g_check] is in a gateway of this process. *)
Definition credentialCheck {DB} `{FeltDB DB} (applicationId : string) (principal : VerifiedPrincipal)
  (capability : string) (resource : ServiceResource) : M DB unit :=
  found ← ks_get (vp_principalId principal);
  match found with
  | None => throw (deniedKey capability "credential_unknown" "API key is unknown")
  | Some current =>
      if negb (String.eqb (k_tenantId current) (vp_tenantId principal)) ||
         negb (oeqb (k_applicationId current) (Some applicationId))
      then throw (deniedKey capability "credential_unknown" "API key is unknown")
      else
        now ← nowMs;
        match keyStatus current now with
        | KRevoked => throw (deniedKey capability "credential_revoked" "API key has been revoked")
        | KExpired => throw (deniedKey capability "credential_expired" "API key has expired")
        | KActive =>
            if restrictionsPermit (k_restrictions current) capability resource then mret tt
            else throw (deniedKey capability "credential_restricted"
                   ("API key restrictions do not permit " ++ capability ++ " on this resource"))
        end
  end.
