(* ===== verification/ApiKeysFacts.v ===== *)
(** * ApiKeysFacts: what the API-key service guarantees *)

From S2P Require Import Prelude JsString Encoding JsTime Errors Models Store Calm Principal Manifest Restrictions Evidence Gateway GatewayFacts ApiKeys.
From Stdlib Require Import ZArith Lia Ascii Sorting.Sorted.
Local Open Scope string_scope.
Local Open Scope Z_scope.

#[local] Arguments String.append !s1 s2 : simpl nomatch.

(** ** Secrets verify *)

Definition noDollar (c : ascii) : bool := negb (Ascii.eqb c "$").

Lemma splitDollar_append a b :
  all noDollar a = true -> splitDollar (a ++ String "$" b) = a :: splitDollar b.
Proof.
  unfold splitDollar. induction a as [|c a IH]; cbn; [reflexivity|]. intros Ha. apply andb_prop in Ha as [Hc Ha].
  apply negb_true_iff in Hc. rewrite Hc, (IH Ha). reflexivity.
Qed.

Lemma splitDollar_none a : all noDollar a = true -> splitDollar a = [a].
Proof.
  unfold splitDollar. induction a as [|c a IH]; cbn; [reflexivity|]. intros Ha. apply andb_prop in Ha as [Hc Ha].
  apply negb_true_iff in Hc. rewrite Hc, (IH Ha). reflexivity.
Qed.

Lemma all_impl p q s : (forall c, p c = true -> q c = true) -> all p s = true -> all q s = true.
Proof.
  intros Hi. induction s as [|c s IH]; cbn; [reflexivity|]. intros Ha. apply andb_prop in Ha as [Hc Ha].
  rewrite (Hi c Hc), (IH Ha). reflexivity.
Qed.

Lemma base64url_noDollar s : all noDollar (toBase64url s) = true.
Proof.
  apply (all_impl isBase64url); [|apply base64url_all].
  intros c. destruct c as [[] [] [] [] [] [] [] []]; vm_compute; congruence.
Qed.

Lemma append_cons a c b : a ++ String c b = (a ++ String c "") ++ b.
Proof. rewrite append_assoc. reflexivity. Qed.

Section verifier.
Variable scrypt : string -> string -> nat -> string.
Variable hmac : string -> string -> string.

(** [scryptSync(input, salt, length)] returns [length] bytes. *)
Hypothesis scrypt_length : forall input salt n, String.length (scrypt input salt n) = n.

Lemma compareDigest_spec input salt digest :
  compareDigest scrypt input (toBase64url salt) (toBase64url digest) =
  Ok (if String.eqb (scrypt input salt (String.length digest)) digest then Verified else NotVerified).
Proof.
  unfold compareDigest, timingSafeEqual. rewrite !base64url_back, scrypt_length, Nat.eqb_refl.
  destruct (String.eqb _ digest); reflexivity.
Qed.

Lemma compareDigest_total input saltValue digestValue :
  exists v, compareDigest scrypt input saltValue digestValue = Ok v /\ v <> VerifierUnavailable.
Proof.
  unfold compareDigest, timingSafeEqual. rewrite scrypt_length, Nat.eqb_refl.
  destruct (String.eqb _ _); eexists; split; try reflexivity; discriminate.
Qed.

Lemma verifySecret_total secret hash key : exists v, verifySecret scrypt hmac secret hash key = Ok v.
Proof.
  unfold verifySecret. destruct (splitDollar hash) as [|a [|b [|c l]]]; eauto.
  destruct (_ || _); [eauto|]. destruct (String.eqb a "scrypt").
  - destruct (compareDigest_total secret b c) as (v & -> & _). eauto.
  - destruct (String.eqb a "hmac-scrypt"); [|eauto]. destruct key; [|eauto].
    destruct (compareDigest_total (hmac s secret) b c) as (v & -> & _). eauto.
Qed.

(** The digest a verifier derives from a secret. *)
Definition derive (secret salt : string) (key : option string) : string :=
  scrypt (match key with Some k => hmac k secret | None => secret end) salt 32.

(** A stored verifier accepts exactly the texts that derive its digest. *)
Lemma verify_hash secret attempt salt key :
  salt <> "" ->
  verifySecret scrypt hmac attempt (hashWith scrypt hmac secret salt key) key =
  Ok (if String.eqb (derive attempt salt key) (derive secret salt key) then Verified else NotVerified).
Proof.
  intros Hsalt. unfold verifySecret, hashWith, derive.
  assert (forall x, scrypt x salt 32 <> "") as Hne.
  { intros x E. pose proof (scrypt_length x salt 32) as Hl. rewrite E in Hl. discriminate Hl. }
  pose proof (base64url_nonempty salt Hsalt) as Hs. apply truthy_spec in Hs.
  assert (forall x, truthy (toBase64url (scrypt x salt 32)) = true) as Hd
    by (intros x; apply truthy_spec, base64url_nonempty, Hne).
  destruct key as [k|].
  - change ("hmac-scrypt$" ++ _) with ("hmac-scrypt" ++ String "$" (toBase64url salt ++ String "$" (toBase64url (scrypt (hmac k secret) salt 32)))).
    rewrite splitDollar_append, splitDollar_append, splitDollar_none by (reflexivity || apply base64url_noDollar).
    rewrite Hs, Hd. cbn [negb orb]. etransitivity; [apply compareDigest_spec|]. rewrite scrypt_length. reflexivity.
  - change ("scrypt$" ++ _) with ("scrypt" ++ String "$" (toBase64url salt ++ String "$" (toBase64url (scrypt secret salt 32)))).
    rewrite splitDollar_append, splitDollar_append, splitDollar_none by (reflexivity || apply base64url_noDollar).
    rewrite Hs, Hd. cbn [negb orb]. etransitivity; [apply compareDigest_spec|]. rewrite scrypt_length. reflexivity.
Qed.
End verifier.

(** ** Prefixes are read back *)

Definition issuedPrefix (p : string) : string := API_KEY_SCHEME ++ "_" ++ toHex p.
Definition issuedSecret (p b : string) : string := issuedPrefix p ++ "_" ++ toBase64url b.

Lemma sliceTo_append a b : sliceTo (String.length a) (a ++ b) = a.
Proof. induction a as [|c a IH]; cbn; [now destruct b | now rewrite IH]. Qed.

Lemma parse_issued p b :
  String.length p = 3%nat -> b <> "" -> parseApiKeyPrefix (issuedSecret p b) = Some (issuedPrefix p).
Proof.
  intros Hp Hb. unfold parseApiKeyPrefix, issuedSecret, issuedPrefix.
  pose proof (toHex_length p) as Hl. rewrite Hp in Hl. change (2 * 3)%nat with 6%nat in Hl.
  set (secret := _ ++ "_" ++ toBase64url b).
  assert (secret = "app_live_" ++ (toHex p ++ String "_" (toBase64url b))) as Hsec
    by (unfold secret, API_KEY_SCHEME; rewrite append_assoc; reflexivity).
  assert (sliceFrom 9 secret = toHex p ++ String "_" (toBase64url b)) as -> by (rewrite Hsec; reflexivity).
  rewrite <- Hl. rewrite sliceTo_append, sliceFrom_append, Hl.
  assert (startsWith secret (API_KEY_SCHEME ++ "_") = true) as ->
    by (rewrite Hsec; apply (prefix_append "app_live_")).
  rewrite toHex_all. replace (startsWith (String "_" (toBase64url b)) "_") with true
    by (symmetry; apply (prefix_append "_")).
  cbn [sliceFrom Nat.eqb andb]. rewrite (proj2 (truthy_spec _) (base64url_nonempty b Hb)). cbn [andb].
  replace (all _ (toBase64url b)) with true; [reflexivity|]. symmetry.
  apply (all_impl isBase64url); [|apply base64url_all].
  intros c. destruct c as [[] [] [] [] [] [] [] []]; vm_compute; congruence.
Qed.

(** ** Pages *)

Lemma findIndex_unique {A} (idOf : A -> string) l i x :
  NoDup (map idOf l) -> l !! i = Some x -> findIndex (fun y => String.eqb (idOf y) (idOf x)) l = Some i.
Proof.
  revert i. induction l as [|y l IH]; intros [|i] Hd Hi; cbn in *; try discriminate Hi; apply NoDup_cons in Hd as [Hn Hd].
  - injection Hi as ->. now rewrite String.eqb_refl.
  - destruct (String.eqb_spec (idOf y) (idOf x)) as [E|_]; [|now rewrite (IH i Hd Hi)].
    exfalso. apply Hn. rewrite E. apply list_elem_of_In, in_map, list_elem_of_In. eapply list_elem_of_lookup_2, Hi.
Qed.

(** Read a list page by page, each time from the last id seen on. *)
Fixpoint pages {A} (idOf : A -> string) (items : list A) (limit fuel : nat) (after : option string) : list A :=
  match fuel with
  | O => []
  | S fuel =>
      let p := page idOf items after limit in
      match last p with
      | None => []
      | Some x => (p ++ pages idOf items limit fuel (Some (idOf x)))%list
      end
  end.

Lemma last_lookup_some {A} (l : list A) x : last l = Some x -> exists i, l !! i = Some x /\ length l = S i.
Proof.
  intros Hl. rewrite last_lookup in Hl. exists (pred (length l)). split; [exact Hl|].
  apply lookup_lt_Some in Hl. lia.
Qed.

Lemma pages_from {A} (idOf : A -> string) items limit : NoDup (map idOf items) -> (0 < limit)%nat ->
  forall fuel n after, page idOf items after limit = take limit (drop n items) ->
    (length items - n < fuel)%nat -> pages idOf items limit fuel after = drop n items.
Proof.
  intros Hd Hlim. induction fuel as [|fuel IH]; intros n after Hp Hf; [lia|].
  cbn [pages]. rewrite Hp. destruct (last (take limit (drop n items))) as [x|] eqn:El.
  - apply last_lookup_some in El as (i & Hi & Hlen).
    pose proof Hi as Hi'. rewrite lookup_take_Some in Hi'. destruct Hi' as [Hi' Hlt]. rewrite lookup_drop in Hi'.
    rewrite (IH (n + S i)%nat).
    + rewrite length_take, length_drop in Hlen.
      rewrite <- (take_drop limit (drop n items)) at 2. f_equal. rewrite drop_drop. 
      destruct (Nat.le_gt_cases limit (length items - n)).
      * f_equal. lia.
      * rewrite !drop_ge by lia. reflexivity.
    + unfold page. rewrite (findIndex_unique idOf items (n + i) x Hd Hi'). f_equal. f_equal. lia.
    + apply lookup_lt_Some in Hi'. lia.
  - apply last_None in El. apply (f_equal length) in El. rewrite length_take, length_drop in El. cbn in El.
    rewrite drop_ge by lia. reflexivity.
Qed.

(** Following the cursor gives every item once, in order. *)
Lemma pages_all {A} (idOf : A -> string) items limit :
  NoDup (map idOf items) -> (0 < limit)%nat ->
  pages idOf items limit (S (length items)) None = items.
Proof. intros Hd Hlim. apply (pages_from idOf items limit Hd Hlim _ 0); [reflexivity | lia]. Qed.

(** ** Caches *)

Lemma mapSet_fresh {A} (m : list (string * A)) k v : k ∉ map fst m -> mapSet m k v = (m ++ [(k, v)])%list.
Proof.
  induction m as [|[k' v'] m IH]; cbn; [reflexivity|]. intros Hn. apply not_elem_of_cons in Hn as [Hk Hn].
  destruct (String.eqb_spec k' k) as [->|_]; [contradiction|]. now rewrite (IH Hn).
Qed.

Lemma mapDelete_absent {A} (m : list (string * A)) k : k ∉ map fst (mapDelete m k).
Proof.
  rewrite list_elem_of_In, in_map_iff. intros ([k' v] & <- & Hin). apply filter_In in Hin as [_ Hb].
  cbn in Hb. now rewrite String.eqb_refl in Hb.
Qed.

Lemma mapGet_end {A} (m : list (string * A)) k v : k ∉ map fst m -> mapGet (m ++ [(k, v)])%list k = Some v.
Proof.
  induction m as [|[k' v'] m IH]; cbn; [intros _; now rewrite String.eqb_refl|].
  intros Hn. apply not_elem_of_cons in Hn as [Hk Hn]. destruct (String.eqb_spec k' k) as [->|_]; [contradiction | auto].
Qed.

(** A prefix just remembered is known. *)
Lemma remembered (m : list (string * string)) k v max :
  (0 < max)%nat -> mapGet (evictOldest (mapSet (mapDelete m k) k v) max) k = Some v.
Proof.
  intros Hm. pose proof (mapDelete_absent m k) as Hn. rewrite (mapSet_fresh _ _ _ Hn).
  set (d := mapDelete m k) in *. unfold evictOldest. rewrite length_app. cbn [length].
  rewrite drop_app_le by lia. apply mapGet_end.
  intros Hin. apply Hn. rewrite list_elem_of_In, in_map_iff in *. destruct Hin as (x & Hx & Hin).
  exists x. split; [exact Hx|]. rewrite <- (take_drop (length d + 1 - max) d). apply in_or_app. now right.
Qed.

Lemma evictOldest_bound {A} (m : list (string * A)) max : (length (evictOldest m max) <= max)%nat.
Proof. unfold evictOldest. rewrite length_drop. lia. Qed.

(** ** The service in a calm world *)

Section facts.
Context {DB : Type} `{FeltDBLaws DB}.
Variable scrypt : string -> string -> nat -> string.
Variable hmac : string -> string -> string.
Variable s : ApiKeyService DB.
Implicit Types w : World DB.

Hypothesis scrypt_length : forall input salt n, String.length (scrypt input salt n) = n.

(** Random bytes have the length asked for, and no identifier is blank or looks
    like a key prefix. *)
Definition entropyOk w : Prop :=
  (forall i n, String.length (w_random w i n) = n) /\
  (forall n, startsWith (w_uuid w n) "app_live_" = false /\ blank (w_uuid w n) = false).

Lemma entropy_after w w' : entropyOk w -> after w w' -> entropyOk w'.
Proof.
  intros [Hb Hu] (_ & _ & Hu' & _ & Hr). unfold entropyOk. rewrite Hu', Hr. auto.
Qed.

(** Keys are stored under their own identifiers. *)
Definition keyed (db : DB) : Prop := forall id k, peek CKeys id db = Some k -> k_id k = id.

(** *** Issuing *)

(** The record of a new key and its secret. *)
Definition isIssued (input : IssueInput) (k : ApiKey) (secret : string) : Prop :=
  exists p b salt, String.length p = 3%nat /\ String.length b = SECRET_BYTES /\ String.length salt = SALT_BYTES /\
    secret = issuedSecret p b /\ k_keyPrefix k = issuedPrefix p /\
    k_secretHash k = hashWith scrypt hmac secret salt (av_verifierKey s) /\
    k_tenantId k = is_tenantId input /\ k_applicationId k = Some (av_applicationId s) /\ k_name k = is_name input /\
    k_restrictions k = is_restrictions input /\ k_expiresAt k = is_expiresAt input /\
    k_revokedAt k = None /\ k_rotatedTo k = None /\ k_rotatedFrom k = ifPresent (is_rotatedFrom input) /\
    k_createdBy k = is_createdBy input /\ k_version k = 1 /\ blank (k_id k) = false.

Lemma wp_issue input Q w :
  calm w -> entropyOk w ->
  (forall k secret w', isIssued input k secret -> (exists i, k_keyPrefix k = issuedPrefix (w_random w i 3)) ->
     owned (k_id k) w' -> kept w w' -> Q (Ok (k, secret)) w') ->
  wp (issue scrypt hmac s input) Q w.
Proof.
  intros Hc [Hb Hu] HQ. unfold issue. apply wp_bind, wpc_random; [exact Hc|].
  intros p w1 (ip & ->) Hc1 Hl1 Hd1. apply wp_bind, wpc_random; [exact Hc1|].
  intros b w2 (ib & ->) Hc2 Hl2 Hd2. apply wp_bind, wpc_uuid; [exact Hc2|].
  intros id w3 (iu & _ & Hid) Ho Hc3 Hl3 Hd3. apply wp_bind. unfold hashSecret.
  apply wp_bind, wpc_random; [exact Hc3|]. intros salt w4 (isalt & ->) Hc4 Hl4 Hd4. apply wp_ret.
  apply wp_bind, wpc_nowIso; [exact Hc4|]. intros u at_ w5 _ _ Hc5 Hl5 Hd5. apply wp_ret.
  assert (after w w3) as Ha3 by after_tac. assert (after w w1) as Ha1 by after_tac.
  apply HQ.
  - exists (w_random w ip 3), (w_random w1 ib SECRET_BYTES), (w_random w3 isalt SALT_BYTES).
    rewrite (after_random _ _ Ha3), (after_random _ _ Ha1). rewrite !Hb.
    assert (after w w2) as Ha2 by after_tac. pose proof (Hu iu) as [_ Hb'].
    destruct Ha2 as (_ & _ & Hu2 & _). rewrite <- Hu2, <- Hid in Hb'. auto 20.
  - exists ip. reflexivity.
  - cbn. eapply owned_ctl; [|exact Hl5 | exact Hd5]. eapply owned_ctl; eassumption.
  - split; [exact Hc5|]. split; [later_tac | congruence].
Qed.

(** The collections the API-key service does not write. *)
Definition notKeys {V} (c : coll V) : Prop :=
  cname c <> cname CKeys /\ cname c <> cname CPrefixes /\ cname c <> cname CKeyAudit.

(** One new key in the store, and nothing else but its audit record. *)
Definition stored (k : ApiKey) (db db' : DB) : Prop :=
  (forall V (c : coll V), peek c (k_id k) db = None) /\
  peek CKeys (k_id k) db' = Some k /\
  peek CPrefixes (k_keyPrefix k) db' = Some (mkPrefix (k_keyPrefix k) (k_id k) (k_tenantId k) (k_createdAt k) 1) /\
  (forall id, id <> k_id k -> peek CKeys id db' = peek CKeys id db) /\
  (forall p, p <> k_keyPrefix k -> peek CPrefixes p db' = peek CPrefixes p db) /\
  (forall V (c : coll V) id, notKeys c -> peek c id db' = peek c id db).

Lemma issued_prefix_uuid input k secret w n : entropyOk w -> isIssued input k secret -> w_uuid w n <> k_keyPrefix k.
Proof.
  intros [_ Hu] (p & b & salt & _ & _ & _ & _ & -> & _) E. destruct (Hu n) as [Hu' _]. clear Hu. rename Hu' into Hu. rewrite E in Hu.
  unfold issuedPrefix in Hu. unfold startsWith in Hu.
  change (API_KEY_SCHEME ++ "_" ++ toHex p) with ("app_live_" ++ toHex p) in Hu.
  rewrite prefix_append in Hu. discriminate Hu.
Qed.

Lemma wp_keyAudit type k p at_ changes related Q w :
  calm w ->
  (forall id ev w', calm w' -> later w w' -> changed CKeyAudit id (Some ev) (w_db w) (w_db w') ->
     (forall V (c : coll V), peek c id (w_db w) = None) ->
     ka_type ev = type -> ka_credentialId ev = k_id k -> ka_result ev = RSuccess -> Q (Ok tt) w') ->
  wp (keyAudit type k p at_ changes related) Q w.
Proof.
  intros Hc HQ. unfold keyAudit. apply wp_bind, wpc_uuid; [exact Hc|].
  intros id w1 _ Ho Hc1 Hl1 Hd1. unfold ka_record. cbn [ka_id].
  apply wpc_insert; [exact Hc1 | exact Ho|]. intros w2 Hc2 Hl2 Hch.
  eapply HQ; [exact Hc2 | later_tac | rewrite <- Hd1; exact Hch | rewrite <- Hd1; apply Ho | reflexivity..].
Qed.

Lemma wp_recordAuthEvent k result at_ Q w :
  calm w ->
  (forall id ev w', calm w' -> later w w' -> changed CKeyAudit id (Some ev) (w_db w) (w_db w') ->
     ka_type ev = "api_key.authenticated" -> ka_credentialId ev = k_id k -> ka_result ev = result -> Q (Ok tt) w') ->
  wp (recordAuthEvent k result at_) Q w.
Proof.
  intros Hc HQ. unfold recordAuthEvent. apply wp_bind, wpc_uuid; [exact Hc|].
  intros id w1 _ Ho Hc1 Hl1 Hd1. unfold ka_record. cbn [ka_id].
  apply wpc_insert; [exact Hc1 | exact Ho|]. intros w2 Hc2 Hl2 Hch.
  eapply HQ; [exact Hc2 | later_tac | rewrite <- Hd1; exact Hch | reflexivity..].
Qed.

(** Touching the caches changes nothing else. *)
Definition memOnly w w' : Prop := calm w' /\ after w w' /\ w_db w' = w_db w /\ w_resolved w' = w_resolved w.

Lemma wp_rememberPrefix p id Q w :
  calm w -> (forall w', memOnly w w' -> mapGet (mm_known (w_mem w')) p = Some id ->
     mm_local (w_mem w') = mm_local (w_mem w) -> Q (Ok tt) w') ->
  wp (rememberPrefix p id) Q w.
Proof.
  intros Hc HQ. unfold rememberPrefix, withKnown. apply wpc_mem with
    (f := fun m => m <| mm_known := evictOldest (mapSet (mapDelete (mm_known m) p) p id) MAX_CACHED_PREFIXES |>); [exact Hc|].
  intros w' Hc' Ha Hd Hm Hr. apply HQ; [split; auto | | rewrite Hm; reflexivity].
  rewrite Hm. apply remembered. clear. unfold MAX_CACHED_PREFIXES. lia.
Qed.

Lemma wp_withLocal f Q w :
  calm w -> (forall w', memOnly w w' -> mm_known (w_mem w') = mm_known (w_mem w) -> Q (Ok tt) w') ->
  wp (withLocal f) Q w.
Proof.
  intros Hc HQ. unfold withLocal. apply wpc_mem with
    (f := fun m => m <| mm_local := f (mm_local m) |>); [exact Hc|].
  intros w' Hc' Ha Hd Hm Hr. apply HQ; [split; auto | rewrite Hm; reflexivity].
Qed.

Lemma wp_rememberCreated k Q w :
  calm w -> (forall w', memOnly w w' -> mm_known (w_mem w') = mm_known (w_mem w) -> Q (Ok tt) w') ->
  wp (rememberCreated s k) Q w.
Proof.
  intros Hc HQ. unfold rememberCreated. destruct (av_local s); [now apply wp_withLocal|].
  apply wp_ret, HQ; [split; [exact Hc|]; split; [reflexivity | auto] | reflexivity].
Qed.

Lemma memOnly_refl w : calm w -> memOnly w w.
Proof. intros Hc. split; [exact Hc|]. split; [reflexivity | auto]. Qed.

(** What creating leaves. *)
Definition createdKey (attempts : nat) (input : IssueInput) w (o : outcome CreatedApiKey) w' : Prop :=
  match o with
  | Ok c => exists k, isIssued input k (cr_secret c) /\ c = createdOf k (cr_secret c) /\
      stored k (w_db w) (w_db w') /\ mapGet (mm_known (w_mem w')) (k_keyPrefix k) = Some (k_id k)
  | Throw _ => w_db w' = w_db w /\ (attempts = O \/ exists i, peek CPrefixes (issuedPrefix (w_random w i 3)) (w_db w) <> None)
  end.

Lemma createLoop_spec input : forall attempts w,
  calm w -> entropyOk w ->
  wp (createLoop scrypt hmac s attempts input)
     (fun o w' => calm w' /\ after w w' /\ w_resolved w' = w_resolved w /\ createdKey attempts input w o w') w.
Proof.
  induction attempts as [|n IH]; intros w Hc He; cbn [createLoop].
  { apply wp_throw. split; [exact Hc|]. split; [reflexivity|]. split; [reflexivity|]. split; [reflexivity | now left]. }
  apply wp_bind, wp_issue; [exact Hc | exact He|].
  intros k secret w1 Hk (ip & Hip) Ho (Hc1 & Hl1 & Hd1). cbn [fst snd].
  assert (entropyOk w1) as He1 by (eapply entropy_after; [exact He | after_tac]).
  apply wp_bind, wp_tryCatch, wp_bind. unfold ks_create, issueOperations.
  destruct (peek CPrefixes (k_keyPrefix k) (w_db w1)) as [taken|] eqn:Et.
  - apply wpc_transaction_conflict; [exact Hc1 | |].
    { apply Exists_cons_tl, Exists_cons_hd. cbn. rewrite Et. intros [? _]. discriminate. }
    intros m. cbn [isConditionalConflict]. apply wp_ret.
    eapply wp_mono; [apply IH; [exact Hc1 | exact He1]|].
    intros o w' (Hc' & Hl' & Hr' & Hpost). split; [exact Hc'|]. split; [after_tac|].
    split; [rewrite Hr'; now apply later_resolved|].
    destruct o as [c|e]; cbn in *; [rewrite <- Hd1; exact Hpost|].
    split; [destruct Hpost; congruence|]. right. exists ip. rewrite <- Hip, <- Hd1, Et. discriminate.
  - apply wpc_transaction; [exact Hc1 | | | |].
    { apply NoDup_cons. split; [|apply NoDup_singleton]. intros Hin. apply list_elem_of_singleton in Hin. discriminate Hin. }
    { constructor; [cbn; now rewrite (proj2 Ho)|]. constructor; [cbn; now rewrite Et | constructor]. }
    { intros c k' m Hin Hm. cbn in Hin. apply elem_of_cons in Hin as [[= _ ->]|Hin]; [now apply owned_unused|].
      apply list_elem_of_singleton in Hin as [= _ ->]. eapply issued_prefix_uuid; [exact He1 | exact Hk]. }
    intros w2 Hc2 Hl2 Hdone Hfr. apply wp_bind, wp_rememberPrefix; [exact Hc2|].
    intros w3 (Hc3 & Ha3 & Hd3 & Hr3) Hknown _. apply wp_bind, wp_rememberCreated; [exact Hc3|].
    intros w4 (Hc4 & Ha4 & Hd4 & Hr4) Hk4. apply wp_bind, wp_keyAudit; [exact Hc4|].
    intros aid ev w5 Hc5 Hl5 Hch Hn _ _ _. apply wp_ret, wp_ret.
    split; [exact Hc5|]. split; [after_tac|].
    split; [rewrite (later_resolved _ _ Hl5), Hr4, Hr3, (later_resolved _ _ Hl2); now apply later_resolved|].
    exists k. split; [exact Hk|]. split; [reflexivity|].
    assert (w_db w4 = w_db w2) as Hdb by congruence. rewrite Hdb in Hch.
    apply Forall_cons_1 in Hdone as [Hdk Hdone]. apply Forall_cons_1 in Hdone as [Hdp _]. cbn in Hdk, Hdp.
    assert (forall V (c : coll V) k', cname c <> cname CKeyAudit -> peek c k' (w_db w5) = peek c k' (w_db w2)) as Hlast.
    { intros V c k' Hne. apply (changed_frame _ _ _ _ _ _ _ Hch). intros E. apply Hne. exact (f_equal fst E). }
    rewrite (later_mem _ _ Hl5), Hk4. split; [|exact Hknown]. rewrite <- Hd1.
    split; [apply Ho|]. rewrite !Hlast by discriminate. split; [exact Hdk|]. split; [exact Hdp|].
    split; [|split]; intros.
    + rewrite Hlast by discriminate. apply Hfr. cbn. intros Hin.
      apply elem_of_cons in Hin as [[= E]|Hin]; [contradiction|]. apply list_elem_of_singleton in Hin. discriminate Hin.
    + rewrite Hlast by discriminate. apply Hfr. cbn. intros Hin.
      apply elem_of_cons in Hin as [[=]|Hin]. apply list_elem_of_singleton in Hin. congruence.
    + rename H1 into Hne. destruct Hne as (Hn1 & Hn2 & Hn3). rewrite Hlast by assumption. apply Hfr. cbn. intros Hin.
      apply elem_of_cons in Hin as [E|Hin]; [apply Hn1, (f_equal fst E)|].
      apply list_elem_of_singleton in Hin. apply Hn2, (f_equal fst Hin).
Qed.

(** *** Looking a key up *)

Definition indexedKey (prefix : string) w : option ApiKey :=
  match peek CPrefixes prefix (w_db w) with Some p => peek CKeys (kp_apiKeyId p) (w_db w) | None => None end.

Definition lookupKey (prefix : string) w : option ApiKey :=
  match ifPresent (mapGet (mm_known (w_mem w)) prefix) with
  | None => indexedKey prefix w
  | Some id =>
      match peek CKeys id (w_db w) with
      | Some k => Some k
      | None => match (if av_local s then mapGet (mm_local (w_mem w)) id else None) with
                | Some k => Some k
                | None => indexedKey prefix w
                end
      end
  end.

(** Looking a key up again gives it again. *)
Lemma lookup_again prefix k w w' :
  keyed (w_db w) -> memOnly w w' -> lookupKey prefix w = Some k ->
  mapGet (mm_known (w_mem w')) prefix = Some (k_id k) -> indexedKey prefix w = Some k -> lookupKey prefix w' = Some k.
Proof.
  intros Hkey (_ & _ & Hd & _) Hl Hm Hi. unfold lookupKey. rewrite Hm. unfold indexedKey in *. rewrite Hd.
  destruct (peek CPrefixes prefix (w_db w)) as [p|]; [|discriminate].
  cbn [ifPresent]. destruct (truthy (k_id k)); [|exact Hi].
  pose proof (Hkey _ _ Hi) as ->. now rewrite Hi.
Qed.

Lemma wp_find_key prefix Q w :
  calm w ->
  (forall w', memOnly w w' -> (lookupKey prefix w = None -> w' = w) ->
     (keyed (w_db w) -> lookupKey prefix w' = lookupKey prefix w) -> Q (Ok (lookupKey prefix w)) w') ->
  wp (findApiKeyByPrefix s prefix) Q w.
Proof.
  intros Hc HQ. unfold findApiKeyByPrefix.
  set (indexed := found ← ks_findByPrefix prefix;
    match found with
    | Some k => _ ← rememberPrefix prefix (k_id k); mret (Some k)
    | None => mret None
    end : M DB (option ApiKey)).
  assert (lookupKey prefix w = indexedKey prefix w -> wp indexed Q w) as Hidx.
  { intros El. unfold indexed, ks_findByPrefix. apply wp_bind, wp_bind, wpc_get; [exact Hc|].
    destruct (indexedKey prefix w) as [k|] eqn:Ei; pose proof Ei as Ei'; unfold indexedKey in Ei';
      (destruct (peek CPrefixes prefix (w_db w)) as [p|]; [apply wpc_get; [exact Hc|]; rewrite Ei'|try discriminate Ei']).
    - apply wp_bind, wp_rememberPrefix; [exact Hc|]. intros w' Hm Hknown _. apply wp_ret.
      rewrite <- El. apply HQ; [exact Hm | rewrite El; discriminate|].
      intros Hkey. rewrite El. now apply (lookup_again prefix k w w').
    - apply wp_ret. rewrite <- El. apply HQ; [now apply memOnly_refl | reflexivity | reflexivity].
    - apply wp_ret, wp_ret. rewrite <- El. apply HQ; [now apply memOnly_refl | reflexivity | reflexivity]. }
  apply wp_bind, wp_ask. unfold lookupKey in Hidx, HQ |- *.
  destruct (ifPresent (mapGet (mm_known (w_mem w)) prefix)) as [id|] eqn:Ek; [|now apply Hidx].
  apply wp_bind. unfold ks_get. apply wpc_get; [exact Hc|].
  destruct (peek CKeys id (w_db w)) as [k|] eqn:Eid.
  - apply wp_bind, wp_withLocal; [exact Hc|]. intros w' Hm Hkn. apply wp_ret, HQ; [exact Hm | discriminate|].
    intros _. rewrite Hkn, Ek. destruct Hm as (_ & _ & -> & _). now rewrite Eid.
  - apply wp_bind, wp_ask. destruct (if av_local s then _ else _) as [k|] eqn:Eloc; [|now apply Hidx].
    apply wp_ret, HQ; [now apply memOnly_refl | discriminate|]. intros _. now rewrite Ek, Eid, Eloc.
Qed.

(** *** Authenticating *)

Lemma authenticationFailure_total k secret now :
  exists f, authenticationFailure scrypt hmac s k secret now = Ok f.
Proof.
  unfold authenticationFailure. destruct (present (k_revokedAt k)); [eauto|].
  destruct (expiredAt (k_expiresAt k) now); [eauto|].
  destruct (verifySecret_total scrypt hmac scrypt_length secret (k_secretHash k) (av_verifierKey s)) as [[] ->]; eauto.
  destruct (oeqb _ _); eauto.
Qed.

Lemma authenticate_unknown prefix secret w : calm w -> lookupKey prefix w = None ->
  forall attempts, wp (authenticateLoop scrypt hmac s attempts prefix secret) (fun o w' => o = Ok None /\ w' = w) w.
Proof.
  intros Hc Hn. induction attempts as [|n IH]; cbn [authenticateLoop].
  - apply wp_bind, wp_tryCatch, wp_find_key; [exact Hc|]. intros w' _ Hw _. rewrite (Hw Hn), Hn. apply wp_ret. auto.
  - apply wp_bind, wp_tryCatch, wp_find_key; [exact Hc|]. intros w' _ Hw _. rewrite (Hw Hn), Hn.
    apply wp_bind, wpc_sleep; [exact Hc|]. exact IH.
Qed.

(** The identity of a key. *)
Definition principalOf (k : ApiKey) : VerifiedPrincipal :=
  mkPrincipal (k_id k) "api_key" (k_tenantId k) (ifPresent (k_applicationId k)) (Some (k_id k)) None None ByApiKey true.

Lemma toPrincipal_ok k : blank (k_id k) = false -> blank (k_tenantId k) = false -> toPrincipal k = Ok (principalOf k).
Proof.
  intros Hid Ht. unfold toPrincipal, mintVerifiedPrincipal, keyClaims. cbn [pc_principalId pc_principalType pc_tenantId].
  rewrite Hid, Ht. pose proof (blank_nonempty _ Hid) as Hne. apply truthy_spec in Hne.
  unfold bindCredentialCheck, principalOf. cbn. now rewrite Hne.
Qed.

(** The key after a successful authentication. *)
Definition usedKey (at_ : string) (k : ApiKey) : ApiKey :=
  (k <| k_lastUsedAt := Some at_ |>) <| k_version := k_version k + 1 |>.

(** What one authentication decides, by the key its prefix leads to. *)
Definition authenticates (k : ApiKey) (secret : string) w (o : outcome (option VerifiedPrincipal)) w' : Prop :=
  exists n at_, toISO (w_clock w n) = Some at_ /\
    match authenticationFailure scrypt hmac s k secret (w_clock w n) with
    | Ok None => o = Ok (Some (principalOf k)) /\ peek CKeys (k_id k) (w_db w') = Some (usedKey at_ k) /\
        (forall id, id <> k_id k -> peek CKeys id (w_db w') = peek CKeys id (w_db w))
    | Ok (Some result) => o = Ok None /\ exists aid ev, changed CKeyAudit aid (Some ev) (w_db w) (w_db w') /\
        ka_credentialId ev = k_id k /\ ka_result ev = result
    | Throw _ => False
    end.

Lemma authenticate_known prefix secret k w n :
  calm w -> lookupKey prefix w = Some k -> peek CKeys (k_id k) (w_db w) = Some k ->
  blank (k_id k) = false -> blank (k_tenantId k) = false ->
  wp (authenticateLoop scrypt hmac s (S n) prefix secret)
     (fun o w' => calm w' /\ after w w' /\ authenticates k secret w o w') w.
Proof.
  intros Hc Hlook Hk Hid Ht. cbn [authenticateLoop].
  apply wp_bind, wp_tryCatch, wp_find_key; [exact Hc|].
  intros w1 (Hc1 & Ha1 & Hd1 & _) _ _. rewrite Hlook.
  apply wp_bind, wpc_nowMs; [exact Hc1|]. intros now w2 Hnow (i & Hi) Hc2 Hl2 Hd2.
  rewrite (after_clock _ _ Ha1) in Hi.
  assert (exists at_, toISO now = Some at_) as [at_ Hat]
    by (destruct (toISO_some now) as [at_ Hat]; [unfold timeBound, maxTime in *; lia | eauto]).
  apply wp_bind, wp_outcome.
  destruct (authenticationFailure scrypt hmac s k secret now) as [[result|]|e] eqn:Ef.
  - apply wp_bind. eapply wp_isoString; [exact Hat|].
    apply wp_bind, wp_recordAuthEvent; [exact Hc2|]. intros aid ev w3 Hc3 Hl3 Hch _ Hcid Hres. apply wp_ret.
    split; [exact Hc3|]. split; [after_tac|]. exists i, at_. rewrite <- Hi. split; [exact Hat|]. rewrite Ef.
    split; [reflexivity|]. exists aid, ev. rewrite <- Hd1, <- Hd2. auto.
  - apply wp_bind, wp_tryCatch, wp_bind. eapply wp_isoString; [exact Hat|].
    unfold ks_recordLastUsed. apply wp_bind, wpc_get; [exact Hc2|].
    assert (peek CKeys (k_id k) (w_db w2) = Some k) as Hk2 by (rewrite Hd2, Hd1; exact Hk). rewrite Hk2.
    eapply (wpc_cas CKeys (k_id k) k); [exact Hc2 | exact Hk2|].
    intros new w3 Hc3 Hl3 Hch. apply wp_bind. eapply wp_isoString; [exact Hat|].
    set (updated := _ <| k_version := k_version new |>).
    apply wp_bind, wp_swallow, wp_recordAuthEvent; [exact Hc3|]. intros aid ev w4 Hc4 Hl4 Hch4 _ _ _.
    apply wp_bind, wp_withLocal; [exact Hc4|]. intros w5 (Hc5 & Ha5 & Hd5 & _) _.
    apply wp_bind, wp_outcome. rewrite (toPrincipal_ok updated) by assumption. apply wp_ret.
    split; [exact Hc5|]. split; [after_tac|]. exists i, at_. rewrite <- Hi. split; [exact Hat|]. rewrite Ef.
    split; [reflexivity|]. rewrite Hd5, (changed_frame _ _ _ CKeys _ _ _ Hch4) by discriminate.
    split; [exact (changed_hit _ _ _ _ _ Hch)|].
    intros id Hne. rewrite (changed_frame _ _ _ CKeys id _ _ Hch4) by discriminate.
    rewrite (changed_frame _ _ _ CKeys id _ _ Hch) by (intros [=]; contradiction). congruence.
  - exfalso. destruct (authenticationFailure_total k secret now) as [f E]. congruence.
Qed.
End facts.
