(* ===== verification/KeyLifecycle.v ===== *)
(** * KeyLifecycle: creating, updating, rotating and revoking keys

    The specifications of the management operations of [api-keys/service.ts]
    in a calm world, below the gateway and through it. *)

From S2P Require Import Prelude JsString Encoding JsTime Errors Models Store Calm Principal Manifest Restrictions Evidence Gateway GatewayFacts ApiKeys ApiKeysFacts.
From Stdlib Require Import ZArith Lia Ascii Sorting.Sorted.
Local Open Scope string_scope.
Local Open Scope Z_scope.

Section lifecycle.
Context {DB : Type} `{FeltDBLaws DB}.
Variable scrypt : string -> string -> nat -> string.
Variable hmac : string -> string -> string.
Variable localeLe : string -> string -> bool.
Variable stringOfValue : jsval -> string.
Variable otherDate : string -> option Z.
Variable s : ApiKeyService DB.
Implicit Types w : World DB.

(** The same keys are stored, and every one of them is unchanged. *)
Definition sameKeys w w' : Prop := forall id, peek CKeys id (w_db w') = peek CKeys id (w_db w).

(** Only the key [id] changed, and it is [k] now. *)
Definition onlyKey (id : string) (k : ApiKey) w w' : Prop :=
  peek CKeys id (w_db w') = Some k /\ forall id', id' <> id -> peek CKeys id' (w_db w') = peek CKeys id' (w_db w).

(** Evidence rows are kept. *)
Definition keepsEvidence w w' : Prop :=
  forall k row, peek CEvidence k (w_db w) = Some row -> peek CEvidence k (w_db w') = Some row.

(** What every key operation does to the rest of the world. *)
Definition keyStep w w' : Prop :=
  calm w' /\ after w w' /\ w_resolved w' = w_resolved w /\ keepsEvidence w w'.

Lemma keyStep_refl w : calm w -> keyStep w w.
Proof. intros Hc. split; [exact Hc|]. split; [reflexivity|]. split; [reflexivity | intros k row; auto]. Qed.

Lemma keyStep_trans w1 w2 w3 : keyStep w1 w2 -> keyStep w2 w3 -> keyStep w1 w3.
Proof.
  intros (C1 & A1 & R1 & E1) (C2 & A2 & R2 & E2). split; [exact C2|]. split; [after_tac|].
  split; [congruence | intros k row Hk; auto].
Qed.

Lemma keyStep_later w w' : calm w' -> later w w' -> w_db w' = w_db w -> keyStep w w'.
Proof.
  intros Hc Hl Hd. split; [exact Hc|]. split; [after_tac|]. split; [now apply later_resolved|].
  intros k row. now rewrite Hd.
Qed.

Lemma keyStep_changed {V} (c : coll V) k o w w' :
  calm w' -> later w w' -> changed c k o (w_db w) (w_db w') -> cname CEvidence <> cname c -> keyStep w w'.
Proof.
  intros Hc Hl Hch Hne. split; [exact Hc|]. split; [after_tac|]. split; [now apply later_resolved|].
  intros k' row Hk. rewrite (changed_frame _ _ _ CEvidence k' _ _ Hch); [exact Hk|].
  intros E. apply Hne. exact (f_equal fst E).
Qed.

Lemma keyStep_mem w w' : memOnly w w' -> keyStep w w'.
Proof.
  intros (Hc & Ha & Hd & Hr). split; [exact Hc|]. split; [exact Ha|]. split; [exact Hr|].
  intros k row. now rewrite Hd.
Qed.

Lemma sameKeys_db w w' : w_db w' = w_db w -> sameKeys w w'.
Proof. intros E id. now rewrite E. Qed.

(** *** The caller's ceiling *)

(** A key-authenticated caller stays within its own key: in what it permits
    and in how long it lasts. *)
Definition within w (p : VerifiedPrincipal) (restrictions : option ApiKeyRestrictions) (expiresAt : option string) : Prop :=
  vp_verifiedBy p = ByApiKey -> forall cid, vp_credentialId p = Some cid -> cid <> "" ->
  exists c, peek CKeys cid (w_db w) = Some c /\
    restrictionsWithin restrictions (k_restrictions c) = true /\ outlives expiresAt (k_expiresAt c) = false.

Lemma wp_within p restrictions expiresAt Q w :
  calm w ->
  (within w p restrictions expiresAt -> Q (Ok tt) w) ->
  (forall e, hasCode DENIED e = true -> Q (Throw e) w) ->
  wp (assertWithinCaller p restrictions expiresAt) Q w.
Proof.
  intros Hc Hok Hno. unfold assertWithinCaller.
  destruct (bool_decide (vp_verifiedBy p = ByApiKey)) eqn:Ev; cbn [negb].
  2: { apply wp_ret, Hok. intros E. apply bool_decide_eq_false in Ev. contradiction. }
  destruct (vp_credentialId p) as [cid|] eqn:Ec; cbn [ifPresent].
  2: { apply wp_ret, Hok. intros _ cid E. congruence. }
  destruct (truthy cid) eqn:Et.
  2: { apply wp_ret, Hok. intros _ cid' E Hne. injection (eq_trans (eq_sym Ec) E) as <-.
       apply truthy_spec in Hne. congruence. }
  apply wp_bind. unfold ks_get. apply wpc_get; [exact Hc|].
  destruct (peek CKeys cid (w_db w)) as [c|] eqn:Ek; [|apply wp_throw, Hno; reflexivity].
  destruct (restrictionsWithin _ _) eqn:Er; cbn [negb]; [|apply wp_throw, Hno; reflexivity].
  destruct (outlives _ _) eqn:Eo; [apply wp_throw, Hno; reflexivity|].
  apply wp_ret, Hok. intros _ cid' E _. injection (eq_trans (eq_sym Ec) E) as <-. eauto.
Qed.

(** *** Bookkeeping after a write *)

Lemma wp_rememberLocal k Q w :
  calm w -> (forall w', memOnly w w' -> mm_known (w_mem w') = mm_known (w_mem w) -> Q (Ok tt) w') ->
  wp (rememberLocal k) Q w.
Proof. intros Hc HQ. unfold rememberLocal. now apply wp_withLocal. Qed.

(** An audit record changes no key. *)
Lemma wp_audited type k p at_ changes related Q w :
  calm w -> (forall w', keyStep w w' -> sameKeys w w' -> Q (Ok tt) w') ->
  wp (keyAudit type k p at_ changes related) Q w.
Proof.
  intros Hc HQ. apply wp_keyAudit; [exact Hc|]. intros id ev w' Hc' Hl' Hch _ _ _ _. apply HQ.
  - eapply keyStep_changed; [exact Hc' | exact Hl' | exact Hch | discriminate].
  - intros k'. apply (changed_frame _ _ _ CKeys k' _ _ Hch). discriminate.
Qed.

Lemma onlyKey_same id k w w1 w2 : onlyKey id k w w1 -> sameKeys w1 w2 -> onlyKey id k w w2.
Proof. intros [Hk Hf] Hs. split; [now rewrite Hs|]. intros id' Hne. rewrite Hs. now apply Hf. Qed.

Lemma same_onlyKey id k w w1 w2 : sameKeys w w1 -> onlyKey id k w1 w2 -> onlyKey id k w w2.
Proof. intros Hs [Hk Hf]. split; [exact Hk|]. intros id' Hne. rewrite <- Hs. now apply Hf. Qed.

Lemma same_trans w1 w2 w3 : sameKeys w1 w2 -> sameKeys w2 w3 -> sameKeys w1 w3.
Proof. intros H1' H2' id. now rewrite H2'. Qed.

Lemma onlyKey_changed id k w w' : changed CKeys id (Some k) (w_db w) (w_db w') -> onlyKey id k w w'.
Proof.
  intros Hch. split; [exact (changed_hit _ _ _ _ _ Hch)|]. intros id' Hne.
  apply (changed_frame _ _ _ CKeys id' _ _ Hch). intros [=]. contradiction.
Qed.

(** *** Revoking *)

(** The key after it is revoked. *)
Definition revokedKey (at_ by_ : string) (k : ApiKey) : ApiKey :=
  revokedCopy at_ (Some by_) k <| k_version := k_version k + 1 |>.

Definition revokes tenantId id by_ w (o : outcome (option ApiKeyView)) w' : Prop :=
  match peek CKeys id (w_db w) with
  | Some k =>
      if owns s k tenantId true then
        exists k' now at_ n m, o = Ok (Some (toView k' now)) /\ toISO (w_clock w n) = Some at_ /\ now = w_clock w m /\
          if present (k_revokedAt k) then k' = k /\ sameKeys w w'
          else k' = k <| k_revokedAt := Some at_ |> <| k_revokedBy := Some by_ |> <| k_version := k_version k + 1 |> /\
               onlyKey id (revokedKey at_ by_ k) w w'
      else o = Ok None /\ sameKeys w w'
  | None => o = Ok None /\ sameKeys w w'
  end.

Lemma toISO_at w n : calm w -> exists at_, toISO (w_clock w n) = Some at_.
Proof.
  intros [_ [Hck _]]. apply toISO_some. specialize (Hck n). unfold timeBound, maxTime in *. lia.
Qed.

Lemma revokeLoop_spec n tenantId id by_ w :
  calm w -> keyed (w_db w) ->
  wp (revokeLoop s (S n) tenantId id by_) (fun o w' => keyStep w w' /\ revokes tenantId id by_ w o w') w.
Proof.
  intros Hc Hkey. unfold revokes. cbn [revokeLoop]. apply wp_bind. unfold ks_get. apply wpc_get; [exact Hc|].
  destruct (peek CKeys id (w_db w)) as [k|] eqn:Ek; [|apply wp_ret; split; [now apply keyStep_refl | now auto using sameKeys_db]].
  destruct (owns s k tenantId true) eqn:Eo; cbn [negb]; [|apply wp_ret; split; [now apply keyStep_refl | now auto using sameKeys_db]].
  pose proof (Hkey _ _ Ek) as Hid. destruct (present (k_revokedAt k)) eqn:Ep.
  - apply wp_bind, wpc_nowMs; [exact Hc|]. intros t w1 _ (m & ->) Hc1 Hl1 Hd1. apply wp_ret.
    split; [now apply keyStep_later|]. destruct (toISO_at w 0 Hc) as [at_ Hat].
    exists k, (w_clock w m), at_, O, m. repeat split; auto. now apply sameKeys_db.
  - apply wp_bind, wpc_nowIso; [exact Hc|]. intros t at_ w1 Hat (m & ->) Hc1 Hl1 Hd1.
    apply wp_bind. unfold ks_revoke. rewrite Hid. apply wp_bind, wpc_get; [exact Hc1|].
    rewrite Hd1, Ek. eapply (wpc_cas CKeys id k); [exact Hc1 | now rewrite Hd1|].
    intros new w2 Hc2 Hl2 Hch. pose proof (keyStep_changed _ _ _ _ _ Hc2 Hl2 Hch ltac:(discriminate)) as Hs2.
    apply wp_bind, wp_audited; [exact Hc2|]. intros w3 Hs3 Hsame.
    apply wp_bind, wp_rememberLocal; [apply Hs3|]. intros w4 Hm4 _.
    pose proof (keyStep_mem _ _ Hm4) as Hs4.
    apply wp_bind, wpc_nowMs; [apply Hs4|]. intros t5 w5 _ (m5 & ->) Hc5 Hl5 Hd5. apply wp_ret.
    assert (keyStep w w4) as Hs04.
    { eapply keyStep_trans; [apply (keyStep_later w w1); assumption|].
      eapply keyStep_trans; [exact Hs2|]. eapply keyStep_trans; [exact Hs3 | exact Hs4]. }
    split; [eapply keyStep_trans; [exact Hs04 | now apply keyStep_later]|].
    eexists _, (w_clock w4 m5), at_, m, m5. split; [reflexivity|]. split; [exact Hat|].
    split; [destruct Hs04 as (_ & Ha & _); now rewrite (after_clock _ _ Ha)|].
    split; [reflexivity|].
    eapply same_onlyKey; [apply (sameKeys_db w w1), Hd1|].
    eapply onlyKey_same; [apply onlyKey_changed, Hch|].
    eapply same_trans; [exact Hsame|]. apply sameKeys_db. destruct Hm4 as (_ & _ & Hd4 & _). congruence.
Qed.

(** *** Updating *)

Definition updates tenantId id changes (p : VerifiedPrincipal) w (o : outcome (option ApiKeyView)) w' : Prop :=
  match peek CKeys id (w_db w) with
  | Some k =>
      if owns s k tenantId false then
        (exists e, o = Throw e /\ sameKeys w w') \/
        exists at_ now, present (k_revokedAt k) = false /\
          let next := updatedKey changes at_ (vp_principalId p) k in
          let new := next <| k_version := k_version k + 1 |> in
          o = Ok (Some (toView new now)) /\ onlyKey id new w w' /\
          (kc_restrictions changes <> None \/ kc_expiresAt changes <> None ->
             within w p (k_restrictions next) (k_expiresAt next))
      else o = Ok None /\ sameKeys w w'
  | None => o = Ok None /\ sameKeys w w'
  end.

(** The write of an update, and its bookkeeping. *)
Lemma replace_spec id k next p at_ fields (retry : M DB (option ApiKeyView)) w :
  calm w -> peek CKeys id (w_db w) = Some k ->
  wp (result ← ks_replace id (k_version k) next;
      match result with
      | None => retry
      | Some r =>
          let updated := next <| k_version := k_version r |> in
          _ ← rememberLocal updated;
          _ ← keyAudit "api_key.updated" updated p at_ fields None;
          now ← nowMs;
          mret (Some (toView updated now))
      end)
    (fun o w' => keyStep w w' /\
       let new := next <| k_version := k_version k + 1 |> in
       exists now, o = Ok (Some (toView new now)) /\ onlyKey id new w w') w.
Proof.
  intros Hc Hk. apply wp_bind. unfold ks_replace. apply wp_bind, wpc_get; [exact Hc|]. rewrite Hk.
  eapply (wpc_cas CKeys id k); [exact Hc | exact Hk|].
  intros new w2 Hc2 Hl2 Hch. pose proof (keyStep_changed _ _ _ _ _ Hc2 Hl2 Hch ltac:(discriminate)) as Hs2.
  apply wp_bind, wp_rememberLocal; [exact Hc2|]. intros w3 Hm3 _. pose proof (keyStep_mem _ _ Hm3) as Hs3.
  apply wp_bind, wp_audited; [apply Hs3|]. intros w4 Hs4 Hsame.
  apply wp_bind, wpc_nowMs; [apply Hs4|]. intros t5 w5 _ _ Hc5 Hl5 Hd5. apply wp_ret. split.
  { eapply keyStep_trans; [exact Hs2|]. eapply keyStep_trans; [exact Hs3|].
    eapply keyStep_trans; [exact Hs4 | now apply keyStep_later]. }
  exists t5. split; [reflexivity|].
  eapply onlyKey_same; [apply onlyKey_changed, Hch|].
  eapply same_trans; [apply sameKeys_db, Hm3|]. eapply same_trans; [exact Hsame | now apply sameKeys_db].
Qed.

Lemma updateLoop_spec n tenantId id changes p w :
  calm w -> keyed (w_db w) ->
  wp (updateLoop s (S n) tenantId id changes p)
     (fun o w' => keyStep w w' /\ updates tenantId id changes p w o w') w.
Proof.
  intros Hc Hkey. unfold updates. cbn [updateLoop]. apply wp_bind. unfold ks_get. apply wpc_get; [exact Hc|].
  destruct (peek CKeys id (w_db w)) as [k|] eqn:Ek; [|apply wp_ret; split; [now apply keyStep_refl | now auto using sameKeys_db]].
  destruct (owns s k tenantId false) eqn:Eo; cbn [negb]; [|apply wp_ret; split; [now apply keyStep_refl | now auto using sameKeys_db]].
  pose proof (Hkey _ _ Ek) as Hid. destruct (present (k_revokedAt k)) eqn:Ep.
  { apply wp_throw. split; [now apply keyStep_refl|]. left. eexists. split; [reflexivity | now apply sameKeys_db]. }
  apply wp_bind, wpc_nowIso; [exact Hc|]. intros t at_ w1 Hat (m & ->) Hc1 Hl1 Hd1.
  set (next := updatedKey changes at_ (vp_principalId p) k).
  pose proof (keyStep_later _ _ Hc1 Hl1 Hd1) as Hs1.
  assert (within w1 p (k_restrictions next) (k_expiresAt next) -> within w p (k_restrictions next) (k_expiresAt next)) as Hw
    by (unfold within; now rewrite Hd1).
  rewrite Hid. apply wp_bind.
  assert (peek CKeys id (w_db w1) = Some k) as Hk1 by now rewrite Hd1.
  destruct (kc_restrictions changes) as [r|] eqn:Er; destruct (kc_expiresAt changes) as [e|] eqn:Ee.
  4: apply wp_ret.
  all: try (apply wp_within; [exact Hc1 | intros Hwi | intros err _; split; [exact Hs1|]; left; eexists;
              split; [reflexivity | now apply sameKeys_db]]).
  all: eapply wp_mono; [apply replace_spec; [exact Hc1 | exact Hk1]|].
  all: intros o w' (Hs' & now & -> & Hk'); split; [eapply keyStep_trans; eassumption|].
  all: right; exists at_, now; split; [reflexivity|]; split; [reflexivity|].
  all: split; [eapply same_onlyKey; [apply (sameKeys_db w w1), Hd1 | exact Hk'] | intros Hn].
  4: destruct Hn; congruence.
  all: now apply Hw.
Qed.

(** *** Rotating *)

(** What the replacement of [k] is made of. *)
Definition replacementOf tenantId (p : VerifiedPrincipal) (k : ApiKey) : IssueInput :=
  mkIssueInput tenantId (k_name k) (k_restrictions k) (k_expiresAt k) (vp_principalId p) (Some (k_id k)).

(** [id] was rotated: [k] is retired and its replacement [kr] is issued. *)
Definition rotated tenantId id overlap (p : VerifiedPrincipal) w (r : RotatedApiKey) (k kr : ApiKey) w' : Prop :=
  peek CKeys id (w_db w) = Some k /\ owns s k tenantId false = true /\ present (k_rotatedTo k) = false /\
  within w p (k_restrictions k) (k_expiresAt k) /\
  isIssued scrypt hmac s (replacementOf tenantId p k) kr (cr_secret (rt_created r)) /\
  rt_created r = createdOf kr (cr_secret (rt_created r)) /\ rt_replaces r = id /\
  peek CKeys (k_id kr) (w_db w) = None /\ peek CKeys (k_id kr) (w_db w') = Some kr /\
  (forall id', id' <> id -> id' <> k_id kr -> peek CKeys id' (w_db w') = peek CKeys id' (w_db w)) /\
  exists n at_ overlapEnd, toISO (w_clock w n) = Some at_ /\ keyStatus k (w_clock w n) = KActive /\
    toISO (w_clock w n + overlap * 1000) = Some overlapEnd /\
    let validUntil := earlierExpiry (k_expiresAt k) overlapEnd in
    rt_replacedKeyValidUntil r = (if overlap =? 0 then at_ else validUntil) /\
    peek CKeys id (w_db w') =
      Some (retiredKey (k_id kr) at_ (vp_principalId p) validUntil overlap k <| k_version := k_version k + 1 |>).

(** Rotating happens completely or not at all. *)
Definition rotates tenantId id overlap p w (o : outcome (option RotatedApiKey)) w' : Prop :=
  match o with
  | Ok (Some r) => exists k kr, rotated tenantId id overlap p w r k kr w'
  | _ => sameKeys w w'
  end.

Lemma wpc_rotate k retired kr Q w :
  calm w -> peek CKeys (k_id k) (w_db w) = Some k -> owned (k_id kr) w ->
  (forall n, w_uuid w n <> k_keyPrefix kr) ->
  (forall m, Q (Throw (ConditionalConflictError m)) w) ->
  (forall w', calm w' -> later w w' ->
     peek CKeys (k_id k) (w_db w') = Some (retired <| k_version := k_version k + 1 |>) ->
     peek CKeys (k_id kr) (w_db w') = Some kr ->
     (forall V (c : coll V) id, (cname c, id) <> (cname CKeys, k_id k) -> (cname c, id) <> (cname CKeys, k_id kr) ->
        cname c <> cname CPrefixes -> peek c id (w_db w') = peek c id (w_db w)) ->
     Q (Ok tt) w') ->
  wp (ks_rotate k retired kr) Q w.
Proof.
  intros Hc Hk Ho Hpre Hconf HQ. unfold ks_rotate, issueOperations.
  assert (k_id kr <> k_id k) as Hne by (eapply owned_ne; eassumption).
  destruct (peek CPrefixes (k_keyPrefix kr) (w_db w)) as [taken|] eqn:Et.
  - apply wpc_transaction_conflict; [exact Hc | |exact Hconf].
    apply Exists_cons_tl, Exists_cons_tl, Exists_cons_hd. cbn. rewrite Et. intros [? _]. discriminate.
  - apply wpc_transaction; [exact Hc | | | |].
    + cbn. apply NoDup_cons. split; [|apply NoDup_cons; split; [|apply NoDup_singleton]].
      * intros [[= E]|Hin]%elem_of_cons; [congruence|]. apply list_elem_of_singleton in Hin. discriminate Hin.
      * intros Hin. apply list_elem_of_singleton in Hin. discriminate Hin.
    + constructor; [cbn; rewrite Hk; auto|]. constructor; [cbn; now rewrite (proj2 Ho)|].
      constructor; [cbn; now rewrite Et | constructor].
    + intros c id n Hin Hn. cbn in Hin.
      apply elem_of_cons in Hin as [[= _ ->]|Hin].
      { intros E. pose proof (calm_quiet _ Hc) as (_ & _ & _ & Hf). specialize (Hf n _ CKeys Hn). congruence. }
      apply elem_of_cons in Hin as [[= _ ->]|Hin]; [now apply owned_unused|].
      apply list_elem_of_singleton in Hin as [= _ ->]. apply Hpre.
    + intros w' Hc' Hl' Hdone Hfr. apply Forall_cons_1 in Hdone as [H1' Hdone]. apply Forall_cons_1 in Hdone as [H2' _].
      apply HQ; [exact Hc' | exact Hl' | exact H1' | exact H2'|].
      intros V c id N1 N2 N3. apply Hfr. cbn. intros [E|Hin]%elem_of_cons; [contradiction|].
      apply elem_of_cons in Hin as [E|Hin]; [contradiction|]. apply list_elem_of_singleton in Hin.
      apply N3. exact (f_equal fst Hin).
Qed.

Lemma rotateLoop_spec tenantId id overlap p : forall n w,
  calm w -> entropyOk w -> keyed (w_db w) -> 0 <= overlap <= MAX_OVERLAP_SECONDS ->
  wp (rotateLoop scrypt hmac s n tenantId id overlap p)
     (fun o w' => keyStep w w' /\ rotates tenantId id overlap p w o w') w.
Proof using H0.
  clear localeLe stringOfValue otherDate.
  induction n as [|n IH]; intros w Hc He Hkey Hov; cbn [rotateLoop].
  { apply wp_throw. split; [now apply keyStep_refl | now apply sameKeys_db]. }
  apply wp_bind. unfold ks_get. apply wpc_get; [exact Hc|].
  assert (forall (o : outcome (option RotatedApiKey)), match o with Ok (Some _) => False | _ => True end ->
    keyStep w w /\ rotates tenantId id overlap p w o w) as Hno.
  { intros [[r|]|e] Ho; (split; [now apply keyStep_refl|]); [destruct Ho | now apply sameKeys_db..]. }
  destruct (peek CKeys id (w_db w)) as [k|] eqn:Ek; [|apply wp_ret, Hno, I].
  destruct (owns s k tenantId false) eqn:Eo; cbn [negb]; [|apply wp_ret, Hno, I].
  apply wp_bind, wpc_nowMs; [exact Hc|]. intros t w1 Ht (m & Hm) Hc1 Hl1 Hd1.
  pose proof (keyStep_later _ _ Hc1 Hl1 Hd1) as Hs1.
  assert (forall (o : outcome (option RotatedApiKey)) w', match o with Ok (Some _) => False | _ => True end ->
    kept w1 w' -> keyStep w w' /\ rotates tenantId id overlap p w o w') as Hno1.
  { intros o w' Ho (Hc' & Hl' & Hd'). split; [eapply keyStep_trans; [exact Hs1 | now apply keyStep_later]|].
    assert (sameKeys w w') by (apply sameKeys_db; congruence). destruct o as [[r|]|e]; [destruct Ho | assumption..]. }
  clear Hno.
  destruct (present (k_rotatedTo k)) eqn:Er; [apply wp_throw, Hno1; [exact I | now apply kept_refl]|].
  destruct (bool_decide _) eqn:Ea; cbn [negb]; [|apply wp_throw, Hno1; [exact I | now apply kept_refl]].
  apply bool_decide_eq_true in Ea.
  apply wp_bind, wp_within; [exact Hc1 | intros Hwi | intros e _; apply Hno1; [exact I | now apply kept_refl]].
  apply wp_bind, wpc_isoString; [unfold timeBound, maxTime in *; lia|]. intros at_ Hat.
  apply wp_bind, wpc_isoString; [unfold timeBound, maxTime, MAX_OVERLAP_SECONDS in *; lia|]. intros overlapEnd Hend.
  apply wp_bind.
  assert (entropyOk w1) as He1 by (eapply entropy_after; [exact He | after_tac]).
  apply wp_issue; [exact Hc1 | exact He1|]. intros kr secret w2 Hkr _ Ho2 (Hc2 & Hl2 & Hd2). cbn [fst snd].
  pose proof (Hkey _ _ Ek) as Hid.
  assert (peek CKeys (k_id k) (w_db w2) = Some k) as Hk2 by (rewrite Hd2, Hd1, Hid; exact Ek).
  apply wp_bind, wp_tryCatch, wp_bind. set (retired := retiredKey _ _ _ _ _ k).
  apply wpc_rotate; [exact Hc2 | exact Hk2 | exact Ho2 | | |].
  { intros j. eapply issued_prefix_uuid; [|exact Hkr]. eapply entropy_after; [exact He1 | after_tac]. }
  { intros msg. cbn [isConditionalConflict]. apply wp_ret, wp_bind, wpc_sleep; [exact Hc2|].
    assert (w_db w2 = w_db w) as Hdb by congruence.
    eapply wp_mono; [apply IH; [exact Hc2 | | now rewrite Hdb | exact Hov]|].
    { eapply entropy_after; [exact He1 | after_tac]. }
    intros o w' (Hs' & Hr'). split.
    { eapply keyStep_trans; [exact Hs1|]. eapply keyStep_trans; [|exact Hs']. now apply keyStep_later. }
    assert (w_clock w2 = w_clock w) as Hck by (apply after_clock; after_tac).
    destruct o as [[r|]|e]; cbn in *; unfold sameKeys, rotated, within in *; rewrite ?Hck, Hdb in Hr'; exact Hr'. }
  intros w3 Hc3 Hl3 Hold Hnew Hfr. apply wp_ret.
  assert (keyStep w2 w3) as Hs3.
  { split; [exact Hc3|]. split; [after_tac|]. split; [now apply later_resolved|]. intros j row Hj.
    rewrite Hfr by discriminate. exact Hj. }
  apply wp_bind, wp_rememberPrefix; [exact Hc3|]. intros w4 Hm4 _ _.
  apply wp_bind, wp_rememberCreated; [apply Hm4|]. intros w5 Hm5 _.
  apply wp_bind, wp_rememberLocal; [apply Hm5|]. intros w6 Hm6 _.
  apply wp_bind, wp_audited; [apply Hm6|]. intros w7 Hs7 Hk7.
  apply wp_bind, wp_audited; [apply Hs7|]. intros w8 Hs8 Hk8.
  assert (keyStep w3 w8 /\ sameKeys w3 w8) as [Hs38 Hk38].
  { split.
    - do 3 (eapply keyStep_trans; [apply keyStep_mem; eassumption|]). eapply keyStep_trans; eassumption.
    - apply (same_trans w3 w4); [apply sameKeys_db, Hm4|]. apply (same_trans w4 w5); [apply sameKeys_db, Hm5|].
      apply (same_trans w5 w6); [apply sameKeys_db, Hm6|]. eapply same_trans; eassumption. }
  apply wp_bind.
  assert (forall w', keyStep w8 w' -> sameKeys w8 w' ->
    wp (mret (Some (mkRotatedKey (createdOf kr secret) (k_id k)
                      (if overlap =? 0 then at_ else earlierExpiry (k_expiresAt k) overlapEnd))))
      (fun o w'' => keyStep w w'' /\ rotates tenantId id overlap p w o w'') w') as Hdone.
  { intros w9 Hs9 Hk9. apply wp_ret. split.
    { eapply keyStep_trans; [exact Hs1|]. eapply keyStep_trans; [apply (keyStep_later w1 w2); assumption|].
      eapply keyStep_trans; [exact Hs3|]. eapply keyStep_trans; [exact Hs38 | exact Hs9]. }
    assert (forall j, peek CKeys j (w_db w9) = peek CKeys j (w_db w3)) as H93 by (intros j; now rewrite Hk9, Hk38).
    exists k, kr. split; [exact Ek|]. split; [exact Eo|]. split; [exact Er|].
    split; [unfold within in *; now rewrite <- Hd1|]. split; [exact Hkr|]. split; [reflexivity|].
    split; [exact Hid|]. split; [rewrite <- Hd1, <- Hd2; apply Ho2|].
    rewrite !H93. split; [exact Hnew|]. split.
    { intros j Hj1 Hj2. rewrite H93, Hfr by (first [discriminate | intros [=]; congruence]). now rewrite Hd2, Hd1. }
    exists m, at_, overlapEnd. rewrite <- Hm. split; [exact Hat|]. split; [exact Ea|]. split; [exact Hend|].
    split; [reflexivity|]. rewrite <- Hid. exact Hold. }
  destruct (overlap =? 0) eqn:Ez.
  - apply wp_audited; [apply Hs8|]. intros w9 Hs9 Hk9. now apply Hdone.
  - apply wp_ret. apply Hdone; [apply keyStep_refl, Hs8 | now apply sameKeys_db].
Qed.

(** *** Through the gateway *)

Lemma evidenceOnly_keys w w' : evidenceOnly w w' -> sameKeys w w'.
Proof. intros [_ Hf] id. apply Hf. discriminate. Qed.

Lemma keyed_same w w' : sameKeys w w' -> keyed (w_db w) -> keyed (w_db w').
Proof. intros Hs Hk id k. rewrite Hs. apply Hk. Qed.

(** A management operation, seen from outside its evidence: refused, or its
    effect. *)
Lemma managed {T} g name p r (effect : M DB T) (R : World DB -> outcome T -> World DB -> Prop) w :
  av_authority s = Some g -> hostQuiet g -> calm w ->
  (forall w1, calm w1 -> evidenceOnly w w1 -> wp effect (fun o w2 => keyStep w1 w2 /\ R w1 o w2) w1) ->
  wp (g ← keyGateway s; execute g name (CVerified p) r keyOptions (fun _ _ => effect))
     (fun o w' => calm w' /\ after w w' /\
        ((exists e, o = Throw e /\ sameKeys w w') \/
         exists w1 w2, evidenceOnly w w1 /\ R w1 o w2 /\ evidenceOnly w2 w')) w.
Proof.
  intros Hg Hhost Hc Heff. apply wp_bind. unfold keyGateway. rewrite Hg. apply wp_ret.
  eapply wp_mono; [apply (execute_effect g name (CVerified p) r keyOptions (fun _ _ => effect)
    (fun _ o w2 => exists w1, evidenceOnly w w1 /\ R w1 o w2)); [exact Hc | exact Hhost|]|].
  - intros rid c p' x id st w1 _ Hc1 He1 _. eapply wp_mono; [apply (Heff w1 Hc1 He1)|].
    intros o w2 ((Hc2 & Ha2 & Hr2 & Hk2) & HR). do 4 (split; [assumption|]). eauto.
  - intros o w' (Hc' & Ha' & [(e & -> & Href)|(rid & c & p' & x & w2 & _ & (w1 & He1 & HR) & He2)]);
      (split; [exact Hc'|]; split; [exact Ha'|]).
    + left. exists e. split; [reflexivity|]. intros id. apply (onlyRefusal_frame _ _ Href). discriminate.
    + right. exists w1, w2. auto.
Qed.

(** Guards that answer without reading or writing. *)
Lemma wp_check {A B} (o : outcome A) (k : A -> M DB B) Q w :
  (forall a, o = Ok a -> wp (k a) Q w) -> (forall e, Q (Throw e) w) -> wp (a ← ofOutcome o; k a) Q w.
Proof. intros Hok Hno. apply wp_bind, wp_outcome. destruct o as [a|e]; [now apply Hok | apply Hno]. Qed.

(** *** Creating through the gateway *)

(** [input] created the key [k] for the caller [p]. *)
Definition creates (p : VerifiedPrincipal) (secret : string) w (k : ApiKey) w' : Prop :=
  (exists name restrictions expiresAt,
     isIssued scrypt hmac s (mkIssueInput (vp_tenantId p) name restrictions expiresAt (vp_principalId p) None) k secret) /\
  within w p (k_restrictions k) (k_expiresAt k) /\
  peek CKeys (k_id k) (w_db w) = None /\ onlyKey (k_id k) k w w' /\
  peek CPrefixes (k_keyPrefix k) (w_db w') = Some (mkPrefix (k_keyPrefix k) (k_id k) (k_tenantId k) (k_createdAt k) 1) /\
  mapGet (mm_known (w_mem w')) (k_keyPrefix k) = Some (k_id k).

Lemma createApiKey_spec g input caller w :
  av_authority s = Some g -> hostQuiet g -> calm w -> entropyOk w ->
  wp (createApiKey scrypt hmac localeLe stringOfValue otherDate s input caller)
     (fun o w' => calm w' /\ after w w' /\
        match o with
        | Ok c => exists p k, caller = CVerified p /\ creates p (cr_secret c) w k w' /\ c = createdOf k (cr_secret c)
        | Throw _ => sameKeys w w'
        end) w.
Proof.
  intros Hg Hhost Hc He. unfold createApiKey.
  assert (forall e : exn, calm w /\ after w w /\ match @Throw CreatedApiKey e with Ok _ => False | Throw _ => sameKeys w w end) as Hno.
  { intros e. split; [exact Hc|]. split; [reflexivity | now apply sameKeys_db]. }
  apply wp_check; [intros _ _ | exact Hno]. apply wp_check; [intros p Hp | exact Hno].
  apply wp_check; [intros _ _ | exact Hno]. apply wp_check; [intros tenant Htenant | exact Hno].
  apply wp_check; [intros restrictions _ | exact Hno]. apply wp_check; [intros expiresAt _ | exact Hno]. clear Hno.
  apply requireVerified_ok in Hp as ->. apply resolveTenant_ok in Htenant as (-> & _).
  eapply wp_mono; [apply (managed g _ p _ _ (fun w1 o w2 => match o with
      | Ok c => exists k, creates p (cr_secret c) w1 k w2 /\ c = createdOf k (cr_secret c)
      | Throw _ => sameKeys w1 w2 end)); [exact Hg | exact Hhost | exact Hc|]|].
  - intros w1 Hc1 [Hl1 Hf1].
    assert (forall e : exn, keyStep w1 w1 /\ sameKeys w1 w1) as Hno
      by (intros _; split; [now apply keyStep_refl | now apply sameKeys_db]).
    apply wp_bind, wp_within; [exact Hc1 | intros Hwi | intros e _; apply (Hno e)].
    unfold createApiKeyWithSideEffects. destruct (ck_name input); try apply Hno; try exact invalidDate.
    destruct (blank _); [apply Hno; exact invalidDate|].
    eapply wp_mono; [apply createLoop_spec; [exact Hc1|]|].
    { eapply entropy_after; [exact He | after_tac]. }
    intros o w2 (Hc2 & Ha2 & Hr2 & Hpost). destruct o as [c|e].
    + destruct Hpost as (k & Hk & Hcr & (Hn & Hput & Hpre & Hfr & _ & Hrest) & Hknown). split.
      * split; [exact Hc2|]. split; [exact Ha2|]. split; [exact Hr2|]. intros j row Hj. rewrite Hrest; [exact Hj|].
        split; [discriminate | split; discriminate].
      * exists k. split; [|exact Hcr]. split; [do 3 eexists; exact Hk|].
        pose proof Hk as (pp & bb & sl & _ & _ & _ & _ & _ & _ & _ & _ & _ & Hre & Hex & _).
        rewrite Hre, Hex. split; [exact Hwi|]. split; [apply Hn|]. split; [split; [exact Hput | exact Hfr]|]. auto.
    + destruct Hpost as [Hdb _]. split; [|now apply sameKeys_db].
      split; [exact Hc2|]. split; [exact Ha2|]. split; [exact Hr2|]. intros j row. now rewrite Hdb.
  - intros o w' (Hc' & Ha' & [(e & -> & Hs)|(w1 & w2 & He1 & HR & He2)]); (split; [exact Hc'|]; split; [exact Ha'|]).
    + exact Hs.
    + pose proof (evidenceOnly_keys _ _ He1) as Hs1. pose proof (evidenceOnly_keys _ _ He2) as Hs2.
      destruct o as [c|e]; [|eapply same_trans; [exact Hs1|]; eapply same_trans; eassumption].
      destruct HR as (k & (Hi & Hwi & Hn & Hk & Hp & Hm) & Hcr). exists p, k. split; [reflexivity|]. split; [|exact Hcr].
      split; [exact Hi|]. split; [unfold within in *; intros Hv cid Hcid Hne; destruct (Hwi Hv cid Hcid Hne) as (c0 & Hc0 & ?); exists c0; rewrite <- Hs1; auto|].
      split; [now rewrite <- Hs1|].
      split; [eapply onlyKey_same; [eapply same_onlyKey; eassumption | exact Hs2]|].
      destruct He2 as [Hl2 Hf2]. rewrite Hf2 by discriminate. rewrite (later_mem _ _ Hl2). auto.
Qed.

(** *** The other operations through the gateway *)

Lemma within_same w w' p restrictions expiresAt :
  sameKeys w w' -> within w' p restrictions expiresAt -> within w p restrictions expiresAt.
Proof.
  intros Hs Hw Hv cid Hcid Hne. destruct (Hw Hv cid Hcid Hne) as (c & Hc & Hrest). exists c. rewrite <- Hs. auto.
Qed.

Lemma onlyKey_frame id k w w1 w2 w' :
  sameKeys w w1 -> sameKeys w2 w' -> onlyKey id k w1 w2 -> onlyKey id k w w'.
Proof. intros Hs1 Hs2 Hk. eapply onlyKey_same; [eapply same_onlyKey; eassumption | exact Hs2]. Qed.

Lemma sameKeys_frame w w1 w2 w' : sameKeys w w1 -> sameKeys w2 w' -> sameKeys w1 w2 -> sameKeys w w'.
Proof. intros Hs1 Hs2 Hk. eapply same_trans; [exact Hs1|]. eapply same_trans; eassumption. Qed.

Lemma rotates_frame tenantId id overlap p o w w1 w2 w' :
  w_clock w1 = w_clock w -> sameKeys w w1 -> sameKeys w2 w' ->
  rotates tenantId id overlap p w1 o w2 -> rotates tenantId id overlap p w o w'.
Proof.
  intros Hck Hs1 Hs2. destruct o as [[r|]|e]; cbn; try (now apply sameKeys_frame).
  intros (k & kr & Hk & Ho & Hr & Hwi & Hi & Hcr & Hrp & Hn & Hkr & Hf & n & at_ & oe & Hat & Ha & Hoe & Hv & Hret).
  exists k, kr. unfold rotated. rewrite !Hs2, <- !Hs1. rewrite Hck in Hat, Ha, Hoe. split; [exact Hk|]. split; [exact Ho|].
  split; [exact Hr|]. split; [eapply within_same; eassumption|]. do 5 (split; [assumption|]).
  split; [intros; rewrite Hs2, <- Hs1; now apply Hf|]. exists n, at_, oe. auto.
Qed.

Lemma revokes_frame tenantId id by_ o w w1 w2 w' :
  w_clock w1 = w_clock w -> sameKeys w w1 -> sameKeys w2 w' ->
  revokes tenantId id by_ w1 o w2 -> revokes tenantId id by_ w o w'.
Proof.
  intros Hck Hs1 Hs2. unfold revokes. rewrite <- Hs1. destruct (peek CKeys id (w_db w1)) as [k|].
  2: { intros [-> Hk]. split; [reflexivity | eapply sameKeys_frame; eassumption]. }
  destruct (owns s k tenantId true).
  2: { intros [-> Hk]. split; [reflexivity | eapply sameKeys_frame; eassumption]. }
  intros (k' & now & at_ & n & m & -> & Hat & Hnow & Hk). rewrite Hck in Hat, Hnow.
  exists k', now, at_, n, m. split; [reflexivity|]. split; [exact Hat|]. split; [exact Hnow|].
  destruct (present (k_revokedAt k)); destruct Hk as [-> Hk]; (split; [reflexivity|]);
    [eapply sameKeys_frame | eapply onlyKey_frame]; eassumption.
Qed.

Lemma updates_frame tenantId id changes p o w w1 w2 w' :
  sameKeys w w1 -> sameKeys w2 w' ->
  updates tenantId id changes p w1 o w2 -> updates tenantId id changes p w o w'.
Proof.
  intros Hs1 Hs2. unfold updates. rewrite <- Hs1. destruct (peek CKeys id (w_db w1)) as [k|].
  2: { intros [-> Hk]. split; [reflexivity | eapply sameKeys_frame; eassumption]. }
  destruct (owns s k tenantId false).
  2: { intros [-> Hk]. split; [reflexivity | eapply sameKeys_frame; eassumption]. }
  intros [(e & -> & Hk)|(at_ & now & Hr & -> & Hk & Hwi)].
  - left. exists e. split; [reflexivity | eapply sameKeys_frame; eassumption].
  - right. exists at_, now. split; [exact Hr|]. split; [reflexivity|].
    split; [eapply onlyKey_frame; eassumption|]. intros Hch. eapply within_same; eauto.
Qed.

(** The outcome of a managed operation: an exception and no change, or [R]. *)
Definition refusedOr {T} (R : outcome T -> World DB -> Prop) w (o : outcome T) w' : Prop :=
  calm w' /\ after w w' /\ ((exists e, o = Throw e /\ sameKeys w w') \/ R o w').

Lemma refused {T} (R : outcome T -> World DB -> Prop) w e : calm w -> refusedOr R w (Throw e) w.
Proof. intros Hc. split; [exact Hc|]. split; [reflexivity|]. left. exists e. split; [reflexivity | now apply sameKeys_db]. Qed.

Lemma managed_or {T} g name p r (effect : M DB T) (R : World DB -> outcome T -> World DB -> Prop) w :
  av_authority s = Some g -> hostQuiet g -> calm w ->
  (forall w1, calm w1 -> evidenceOnly w w1 -> wp effect (fun o w2 => keyStep w1 w2 /\ R w1 o w2) w1) ->
  (forall o w1 w2 w', w_clock w1 = w_clock w -> sameKeys w w1 -> sameKeys w2 w' -> R w1 o w2 -> R w o w') ->
  wp (g ← keyGateway s; execute g name (CVerified p) r keyOptions (fun _ _ => effect)) (refusedOr (R w) w) w.
Proof.
  intros Hg Hhost Hc Heff Hframe. eapply wp_mono; [apply (managed g name p r effect R); eassumption|].
  intros o w' (Hc' & Ha' & Hor). split; [exact Hc'|]. split; [exact Ha'|].
  destruct Hor as [Hno|(w1 & w2 & He1 & HR & He2)]; [now left|]. right.
  apply (Hframe o w1 w2 w'); [apply (proj1 He1) | now apply evidenceOnly_keys.. | exact HR].
Qed.

Lemma rotateApiKey_spec g input p id w :
  av_authority s = Some g -> hostQuiet g -> calm w -> entropyOk w -> keyed (w_db w) ->
  ro_id input = JStr id ->
  wp (rotateApiKey scrypt hmac s input (CVerified p))
     (refusedOr (fun o w' => exists overlap, overlapInput (ro_overlapSeconds input) = Ok overlap /\
                   rotates (vp_tenantId p) id overlap p w o w') w) w.
Proof using H0.
  clear localeLe stringOfValue otherDate.
  intros Hg Hhost Hc He Hkey Hid. unfold rotateApiKey.
  apply wp_check; [intros p' [= <-] | intros e; now apply refused].
  apply wp_check; [intros _ _ | intros e; now apply refused].
  apply wp_check; [intros tenant Ht | intros e; now apply refused]. apply resolveTenant_ok in Ht as (-> & _).
  rewrite Hid. apply wp_check; [intros id' Hid' | intros e; now apply refused].
  cbn [requiredId] in Hid'. destruct (blank id); [discriminate|]. injection Hid' as <-.
  apply wp_check; [intros overlap Hov | intros e; now apply refused].
  assert (0 <= overlap <= MAX_OVERLAP_SECONDS) as Hb.
  { unfold overlapInput in Hov. destruct (ro_overlapSeconds input); try discriminate;
      try (injection Hov as <-; unfold MAX_OVERLAP_SECONDS; lia).
    destruct (_ || _) eqn:Eb; [discriminate|]. injection Hov as <-. bool_hyps. lia. }
  eapply wp_mono; [apply (managed_or g _ p _ _ (rotates (vp_tenantId p) id overlap p)); [exact Hg | exact Hhost | exact Hc | |]|].
  - intros w1 Hc1 He1. apply rotateLoop_spec; [exact Hc1 | | | exact Hb].
    + eapply entropy_after; [exact He | apply later_after, He1].
    + eapply keyed_same; [apply evidenceOnly_keys, He1 | exact Hkey].
  - intros o w1 w2 w'. apply rotates_frame.
  - intros o w' (Hc' & Ha' & [Hno|HR]); (split; [exact Hc'|]; split; [exact Ha'|]); [now left | right; eauto].
Qed.

Lemma updateApiKey_spec g input p id w :
  av_authority s = Some g -> hostQuiet g -> calm w -> keyed (w_db w) -> uk_id input = JStr id ->
  wp (updateApiKey localeLe stringOfValue otherDate s input (CVerified p))
     (refusedOr (fun o w' => exists changes,
        (uk_restrictions input <> JUndef -> kc_restrictions changes <> None) /\
        (uk_expiresAt input <> None -> kc_expiresAt changes <> None) /\
        updates (vp_tenantId p) id changes p w o w') w) w.
Proof.
  intros Hg Hhost Hc Hkey Hid. unfold updateApiKey.
  apply wp_check; [intros p' [= <-] | intros e; now apply refused].
  apply wp_check; [intros _ _ | intros e; now apply refused].
  apply wp_check; [intros tenant Ht | intros e; now apply refused]. apply resolveTenant_ok in Ht as (-> & _).
  rewrite Hid. apply wp_check; [intros id' Hid' | intros e; now apply refused].
  cbn [requiredId] in Hid'. destruct (blank id); [discriminate|]. injection Hid' as <-.
  apply wp_check; [intros name _ | intros e; now apply refused].
  apply wp_check; [intros restrictions Hr | intros e; now apply refused].
  apply wp_check; [intros expiresAt Hx | intros e; now apply refused].
  apply wp_check; [intros _ _ | intros e; now apply refused].
  set (changes := mkChanges name restrictions expiresAt).
  eapply wp_mono; [apply (managed_or g _ p _ _ (updates (vp_tenantId p) id changes p)); [exact Hg | exact Hhost | exact Hc | |]|].
  - intros w1 Hc1 He1. apply updateLoop_spec; [exact Hc1|].
    eapply keyed_same; [apply evidenceOnly_keys, He1 | exact Hkey].
  - intros o w1 w2 w' _. apply updates_frame.
  - intros o w' (Hc' & Ha' & [Hno|HR]); (split; [exact Hc'|]; split; [exact Ha'|]); [now left | right].
    exists changes. split; [|split; [|exact HR]]; unfold changes; cbn.
    + intros Hne ->. unfold restrictionsChange in Hr. destruct (uk_restrictions input); try discriminate; try congruence;
        destruct (normalizeRestrictions _ _ _); discriminate.
    + intros Hne ->. unfold expiryChange in Hx. destruct (uk_expiresAt input) as [[d|]|]; try discriminate; try congruence.
      destruct (isoDate _ _ _); discriminate.
Qed.

Lemma revokeApiKey_spec g tenant id by_ p w :
  av_authority s = Some g -> hostQuiet g -> calm w -> keyed (w_db w) ->
  wp (revokeApiKey s tenant id by_ (CVerified p))
     (refusedOr (revokes (vp_tenantId p) id (vp_principalId p) w) w) w.
Proof.
  intros Hg Hhost Hc Hkey. unfold revokeApiKey.
  apply wp_check; [intros p' [= <-] | intros e; now apply refused].
  apply wp_check; [intros _ _ | intros e; now apply refused].
  apply wp_check; [intros t Ht | intros e; now apply refused]. apply resolveTenant_ok in Ht as (-> & _).
  apply (managed_or g _ p _ _ (revokes (vp_tenantId p) id (vp_principalId p))); [exact Hg | exact Hhost | exact Hc | |].
  - intros w1 Hc1 He1. apply revokeLoop_spec; [exact Hc1|].
    eapply keyed_same; [apply evidenceOnly_keys, He1 | exact Hkey].
  - intros o w1 w2 w'. apply revokes_frame.
Qed.

(** *** Revoking every key *)

Definition isRevoked (k : ApiKey) : Prop := present (k_revokedAt k) = true.

(** Revoking one key, coarsely: it is revoked afterwards, the others are as
    they were. *)
Lemma revokes_one tenantId id by_ o w w' k :
  revokes tenantId id by_ w o w' -> peek CKeys id (w_db w) = Some k -> owns s k tenantId true = true ->
  keyed (w_db w) ->
  (exists v, o = Ok (Some v) /\ kv_id v = id) /\
  (exists k', peek CKeys id (w_db w') = Some k' /\ k_id k' = id /\ isRevoked k') /\
  forall id', id' <> id -> peek CKeys id' (w_db w') = peek CKeys id' (w_db w).
Proof.
  intros Hr Hk Ho Hkey. unfold revokes in Hr. rewrite Hk, Ho in Hr.
  pose proof (Hkey _ _ Hk) as Hid.
  destruct Hr as (k' & now & at_ & n & m & -> & Hat & _ & Hr).
  destruct (present (k_revokedAt k)) eqn:Ep; destruct Hr as [-> Hr].
  - split; [eexists; split; [reflexivity | exact Hid]|]. split; [exists k; rewrite Hr; auto | intros; apply Hr].
  - destruct Hr as [Hput Hfr]. split; [eexists; split; [reflexivity | exact Hid]|]. split; [|exact Hfr].
    eexists. split; [exact Hput|]. split; [exact Hid|].
    unfold isRevoked. cbn. apply truthy_spec. intros ->. exact (toISO_nonempty _ Hat).
Qed.

Lemma revokeEach_spec tenantId by_ : forall keys revoked w,
  calm w -> keyed (w_db w) -> NoDup (map k_id keys) ->
  (forall k, k ∈ keys -> peek CKeys (k_id k) (w_db w) = Some k /\ owns s k tenantId true = true) ->
  wp (revokeEach s tenantId by_ keys revoked)
     (fun o w' => keyStep w w' /\ o = Ok (revoked ++ map k_id keys)%list /\
        (forall k, k ∈ keys -> exists k', peek CKeys (k_id k) (w_db w') = Some k' /\ k_id k' = k_id k /\ isRevoked k') /\
        forall id, id ∉ map k_id keys -> peek CKeys id (w_db w') = peek CKeys id (w_db w)) w.
Proof.
  induction keys as [|k keys IH]; intros revoked w Hc Hkey Hd Hin; cbn [revokeEach].
  { apply wp_ret. split; [now apply keyStep_refl|]. cbn. rewrite app_nil_r. split; [reflexivity|].
    split; [intros k Hk; now apply not_elem_of_nil in Hk | auto]. }
  cbn [map] in *. apply NoDup_cons in Hd as [Hn Hd]. destruct (Hin k) as [Hk Ho]; [left|].
  apply wp_bind. eapply wp_mono; [apply revokeLoop_spec; [exact Hc | exact Hkey]|].
  intros o w1 [Hs1 Hr]. destruct (revokes_one _ _ _ _ _ _ _ Hr Hk Ho Hkey) as ((v & -> & Hv) & (k1 & Hk1 & Hid1 & Hrev1) & Hfr).
  assert (keyed (w_db w1)) as Hkey1.
  { intros id k' Hk'. destruct (decide (id = k_id k)) as [->|Hne]; [congruence|].
    rewrite Hfr in Hk' by exact Hne. now apply Hkey. }
  eapply wp_mono; [apply IH; [apply Hs1 | exact Hkey1 | exact Hd|]|].
  - intros k' Hk'. destruct (Hin k') as [Hp Ho']; [now right|]. split; [|exact Ho']. rewrite Hfr; [exact Hp|].
    intros E. apply Hn. rewrite <- E. apply list_elem_of_In, in_map, list_elem_of_In, Hk'.
  - intros o w' (Hs' & -> & Hall & Hrest). split; [eapply keyStep_trans; eassumption|].
    split; [rewrite Hv, <- app_assoc; reflexivity|]. split.
    + intros k' [->|Hk']%elem_of_cons; [|now apply Hall]. exists k1. rewrite Hrest by exact Hn. auto.
    + intros id [Hne Hni]%not_elem_of_cons. rewrite Hrest by exact Hni. now apply Hfr.
Qed.

(** The keys a bulk revocation is about. *)
Definition revocable tenantId (createdBy : option string) (k : ApiKey) : Prop :=
  owns s k tenantId true = true /\ match createdBy with None => True | Some c => k_createdBy k = c end.

Lemma candidates_spec tenantId createdBy all w k :
  keyed (w_db w) -> enumerates CKeys (fun k => String.eqb (k_tenantId k) tenantId) (w_db w) all ->
  (k ∈ revokeCandidates localeLe s tenantId createdBy all <->
   peek CKeys (k_id k) (w_db w) = Some k /\ revocable tenantId createdBy k /\ ~ isRevoked k).
Proof.
  intros Hkey Hall. unfold revokeCandidates. rewrite sortBy_perm, list_elem_of_In, filter_In, !andb_true_iff,
    negb_true_iff, <- list_elem_of_In, (enumerates_in _ _ _ _ _ Hall), <- not_true_iff_false.
  unfold revocable, isRevoked. split.
  - intros [(id & Hk & Ht) ((Ho & Hr) & Hc)]. rewrite (Hkey _ _ Hk). split; [exact Hk|]. split; [|exact Hr].
    split; [exact Ho|]. destruct createdBy; [now apply String.eqb_eq | exact I].
  - intros (Hk & (Ho & Hc) & Hr). split; [|split; [auto|]].
    + exists (k_id k). split; [exact Hk|]. unfold owns in Ho. now apply andb_prop in Ho as [Ho _].
    + destruct createdBy; [now apply String.eqb_eq | reflexivity].
Qed.

Definition revokesAll tenantId createdBy w (o : outcome (list string)) w' : Prop :=
  exists ids, o = Ok ids /\ NoDup ids /\
    (forall id, id ∈ ids <-> exists k, peek CKeys id (w_db w) = Some k /\ revocable tenantId createdBy k /\ ~ isRevoked k) /\
    (forall id, id ∈ ids -> exists k, peek CKeys id (w_db w') = Some k /\ isRevoked k) /\
    (forall id, id ∉ ids -> peek CKeys id (w_db w') = peek CKeys id (w_db w)).

Lemma revokeAll_effect tenantId createdBy by_ w :
  calm w -> keyed (w_db w) ->
  wp (all ← ks_list tenantId; revokeEach s tenantId by_ (revokeCandidates localeLe s tenantId createdBy all) [])
     (fun o w' => keyStep w w' /\ revokesAll tenantId createdBy w o w') w.
Proof.
  intros Hc Hkey. apply wp_bind. unfold ks_list. apply wpc_find; [exact Hc|]. intros all Hall.
  pose proof (fun k => candidates_spec tenantId createdBy all w k Hkey Hall) as Hcand.
  set (keys := revokeCandidates _ _ _ _ _) in *.
  assert (NoDup (map k_id keys)) as Hd.
  { unfold keys, revokeCandidates. rewrite (Permutation_map k_id (sortBy_perm _ _)).
    apply NoDup_map_filter. eapply (enumerates_keyed CKeys); [exact Hall | exact Hkey]. }
  assert (forall id, id ∈ map k_id keys -> exists k, k ∈ keys /\ id = k_id k) as Hids.
  { intros id Hin. apply list_elem_of_In, in_map_iff in Hin as (k & <- & Hk). exists k. now rewrite list_elem_of_In. }
  eapply wp_mono; [apply revokeEach_spec; [exact Hc | exact Hkey | exact Hd|]|].
  { intros k Hk. apply Hcand in Hk as (Hp & [Ho _] & _). auto. }
  intros o w' (Hs & -> & Hrev & Hrest). split; [exact Hs|]. exists (map k_id keys). split; [reflexivity|].
  split; [exact Hd|]. split; [|split; [|exact Hrest]].
  - intros id. split.
    + intros Hin. apply Hids in Hin as (k & Hk & ->). apply Hcand in Hk. eauto.
    + intros (k & Hk & Hr). pose proof (Hkey _ _ Hk) as <-. apply list_elem_of_In, in_map, list_elem_of_In, Hcand. auto.
  - intros id Hin. apply Hids in Hin as (k & Hk & ->). destruct (Hrev k Hk) as (k' & Hk' & _ & Hr). eauto.
Qed.

Lemma revokesAll_frame tenantId createdBy o w w1 w2 w' :
  sameKeys w w1 -> sameKeys w2 w' -> revokesAll tenantId createdBy w1 o w2 -> revokesAll tenantId createdBy w o w'.
Proof.
  intros Hs1 Hs2 (ids & -> & Hd & Hin & Hrev & Hrest). exists ids. split; [reflexivity|]. split; [exact Hd|].
  split; [intros id; rewrite (Hin id); split; intros (k & Hk & Hr); exists k; [rewrite <- Hs1 | rewrite Hs1]; auto|].
  split; [intros id Hid; destruct (Hrev id Hid) as (k & Hk & Hr); exists k; rewrite Hs2; auto|].
  intros id Hid. rewrite Hs2, <- Hs1. now apply Hrest.
Qed.

Lemma revokeAllApiKeys_spec g tenant createdBy by_ field p w :
  av_authority s = Some g -> hostQuiet g -> calm w -> keyed (w_db w) ->
  wp (revokeAllApiKeys localeLe s tenant createdBy by_ field (CVerified p))
     (refusedOr (fun o w' => exists creator,
        match createdBy with JUndef => creator = None | JStr c => creator = Some c | _ => False end /\
        revokesAll (vp_tenantId p) creator w o w') w) w.
Proof.
  intros Hg Hhost Hc Hkey. unfold revokeAllApiKeys.
  apply wp_check; [intros p' [= <-] | intros e; now apply refused].
  apply wp_check; [intros _ _ | intros e; now apply refused].
  apply wp_check; [intros t Ht | intros e; now apply refused]. apply resolveTenant_ok in Ht as (-> & _).
  apply wp_check; [intros creator Hcr | intros e; now apply refused].
  eapply wp_mono; [apply (managed_or g _ p _ _ (revokesAll (vp_tenantId p) creator)); [exact Hg | exact Hhost | exact Hc | |]|].
  - intros w1 Hc1 He1. apply revokeAll_effect; [exact Hc1|].
    eapply keyed_same; [apply evidenceOnly_keys, He1 | exact Hkey].
  - intros o w1 w2 w' _. apply revokesAll_frame.
  - intros o w' (Hc' & Ha' & [Hno|HR]); (split; [exact Hc'|]; split; [exact Ha'|]); [now left | right].
    exists creator. split; [|exact HR]. destruct createdBy; try discriminate; [now injection Hcr as <-|].
    destruct (blank s0); [discriminate|]. now injection Hcr as <-.
Qed.

(** *** Listing *)

(** The keys of a tenant and application, perhaps of one creator, oldest first. *)
Definition listing tenantId (createdBy : option string) w (l : list ApiKey) : Prop :=
  NoDup (map k_id l) /\
  (forall k, k ∈ l <-> peek CKeys (k_id k) (w_db w) = Some k /\ k_tenantId k = tenantId /\
     k_applicationId k = Some (av_applicationId s) /\
     match createdBy with None => True | Some c => k_createdBy k = c end) /\
  ((forall a b, localeLe a b = false -> localeLe b a = true) ->
   Sorted (fun a b => keyLe localeLe a b = true) l).

Lemma keyLe_total a b :
  (forall x y, localeLe x y = false -> localeLe y x = true) -> keyLe localeLe a b = false -> keyLe localeLe b a = true.
Proof.
  intros Htot. unfold keyLe. pose proof (Htot (k_createdAt a) (k_createdAt b)) as H1'.
  pose proof (Htot (k_id a) (k_id b)) as H3. destruct (localeLe (k_createdAt a) _), (localeLe (k_createdAt b) _); cbn; auto.
Qed.

Lemma listApiKeys_spec tenantId createdBy limit w :
  calm w -> keyed (w_db w) -> 1 <= limit <= MAX_PAGE_SIZE ->
  match createdBy with Some c => c <> "" | None => True end ->
  exists l, listing tenantId createdBy w l /\
    forall after, match after with Some a => a <> "" | None => True end ->
    let options := mkListOptions JUndef (ofOption createdBy) (JInt limit) (ofOption after) in
    wp (listApiKeys localeLe s tenantId (Some options))
       (fun o w' => kept w w' /\ exists now, o = Ok (map (fun k => toView k now) (page k_id l after (Z.to_nat limit)))) w.
Proof.
  clear scrypt hmac stringOfValue otherDate.
  intros Hc Hkey Hlim Hcr.
  destruct (law_find _ CKeys (fun k => String.eqb (k_tenantId k) tenantId) (w_db w)) as (items & Hfind & Hen); [apply Hc|].
  set (match_ := fun k => oeqb (k_applicationId k) (Some (av_applicationId s)) && true
        && match createdBy with None => true | Some c => String.eqb (k_createdBy k) c end).
  exists (sortBy (keyLe localeLe) (List.filter match_ items)). split.
  - split; [|split].
    + rewrite (Permutation_map k_id (sortBy_perm _ _)). apply NoDup_map_filter.
      eapply (enumerates_keyed CKeys); [exact Hen | exact Hkey].
    + intros k. unfold match_. rewrite sortBy_perm, list_elem_of_In, filter_In, !andb_true_iff, oeqb_true,
        <- list_elem_of_In, (enumerates_in _ _ _ _ _ Hen). split.
      * intros [(id & Hk & Ht) ((Ha & _) & Hb)]. rewrite (Hkey _ _ Hk). apply String.eqb_eq in Ht.
        split; [exact Hk|]. split; [exact Ht|]. split; [exact Ha|]. destruct createdBy; [now apply String.eqb_eq | exact I].
      * intros (Hk & Ht & Ha & Hb). split; [exists (k_id k); split; [exact Hk | now apply String.eqb_eq]|].
        split; [auto|]. destruct createdBy; [now apply String.eqb_eq | reflexivity].
    + intros Htot. apply sortBy_sorted. intros a b. now apply keyLe_total.
  - intros after Ha options. unfold listApiKeys. apply wp_bind. unfold ks_list, find.
    eapply wp_dbop; [apply calm_quiet, Hc | exact Hfind|]. rewrite world_db_eta.
    apply wp_bind, wpc_nowMs; [exact Hc|]. intros now w1 _ _ Hc1 Hl1 Hd1.
    assert (listQuery options = Ok (mkListQuery None createdBy (Z.to_nat limit) after)) as Hq.
    { unfold listQuery, options, queryLimit. cbn [lo_status lo_limit lo_createdBy lo_after queryStatus].
      replace (limit <? 1) with false by (symmetry; apply Z.ltb_ge; lia).
      replace (MAX_PAGE_SIZE <? limit) with false by (symmetry; apply Z.ltb_ge; lia). cbn [orb].
      unfold queryText. destruct createdBy as [c|]; cbn [ofOption]; [apply truthy_spec in Hcr; rewrite Hcr|];
        (destruct after as [a|]; cbn [ofOption]; [apply truthy_spec in Ha; rewrite Ha|]); reflexivity. }
    apply wp_bind, wp_outcome. rewrite Hq. apply wp_ret. split; [split; auto|]. exists now. reflexivity.
Qed.
End lifecycle.
