(* ===== verification/KeyAuth.v ===== *)
(** * KeyAuth: who a key authenticates, and what an authenticated key may do *)

From S2P Require Import Prelude JsString Encoding JsTime Errors Models Store Calm Principal Manifest Restrictions Evidence Gateway GatewayFacts ApiKeys ApiKeysFacts KeyLifecycle.
From Stdlib Require Import ZArith Lia Ascii Sorting.Sorted.
Local Open Scope string_scope.
Local Open Scope Z_scope.

Section auth.
Context {DB : Type} `{FeltDBLaws DB}.
Variable scrypt : string -> string -> nat -> string.
Variable hmac : string -> string -> string.
Variable s : ApiKeyService DB.
Implicit Types w : World DB.

(** [scryptSync(input, salt, length)] returns [length] bytes. *)
Hypothesis scrypt_length : forall input salt n, String.length (scrypt input salt n) = n.

Lemma toPrincipal_inv k p : toPrincipal k = Ok p -> p = principalOf k.
Proof.
  destruct (blank (k_id k)) eqn:Ei, (blank (k_tenantId k)) eqn:Et;
    try (rewrite (toPrincipal_ok k Ei Et); intros [= <-]; reflexivity).
  all: unfold toPrincipal, mintVerifiedPrincipal, keyClaims;
       cbn [pc_principalId pc_principalType pc_tenantId]; rewrite ?Ei, ?Et; cbn; discriminate.
Qed.

Lemma lookupKey_later prefix w w' :
  later w w' -> w_db w' = w_db w -> lookupKey s prefix w' = lookupKey s prefix w.
Proof. intros Hl Hd. unfold lookupKey, indexedKey. now rewrite (later_mem _ _ Hl), Hd. Qed.

(** Whoever is authenticated is the key that the secret's prefix leads to,
    and that key accepted the secret at one reading of the clock. *)
Definition accepted prefix secret w (o : outcome (option VerifiedPrincipal)) : Prop :=
  forall p, o = Ok (Some p) -> exists k i, lookupKey s prefix w = Some k /\
    authenticationFailure scrypt hmac s k secret (w_clock w i) = Ok None /\ p = principalOf k.

Lemma accepted_after prefix secret w w' o :
  after w w' -> lookupKey s prefix w' = lookupKey s prefix w -> accepted prefix secret w' o -> accepted prefix secret w o.
Proof. intros Ha Hl Hacc p Hp. specialize (Hacc p Hp). rewrite Hl, (after_clock _ _ Ha) in Hacc. exact Hacc. Qed.

Lemma recordAuth_any k result at_ w :
  calm w -> wp (recordAuthEvent k result at_) (fun o w' => calm w') w.
Proof using H0. intros Hc. apply wp_recordAuthEvent; [exact Hc|]. intros id ev w' Hc' _ _ _ _ _. exact Hc'. Qed.

(** One compare-and-set of the last use: it is written, or nothing is. *)
Lemma wp_recordLastUsed k at_ Q w :
  calm w -> (forall r w', calm w' -> later w w' -> Q (Ok (Some r)) w') -> Q (Ok None) w ->
  wp (ks_recordLastUsed (k_id k) (k_version k) at_) Q w.
Proof using H0.
  intros Hc Hhit Hmiss. unfold ks_recordLastUsed. apply wp_bind, wpc_get; [exact Hc|].
  destruct (peek CKeys (k_id k) (w_db w)) as [c|] eqn:Ek; [|now apply wp_ret].
  destruct (decide (k_version c = k_version k)) as [Ev|Ev].
  - rewrite <- Ev. eapply (wpc_cas CKeys _ c); [exact Hc | exact Ek|].
    intros new w' Hc' Hl' _. now apply Hhit.
  - apply (wpc_cas_stale CKeys); [exact Hc | | exact Hmiss]. intros cur Hcur. rewrite Ek in Hcur. now injection Hcur as <-.
Qed.

Lemma authenticateLoop_accepted prefix secret : forall n w,
  calm w -> keyed (w_db w) ->
  wp (authenticateLoop scrypt hmac s n prefix secret) (fun o _ => accepted prefix secret w o) w.
Proof using H0.
  assert (forall w o, match o with Ok (Some _) => False | _ => True end -> accepted prefix secret w o) as Hno.
  { intros w o Ho p ->. destruct Ho. }
  induction n as [|n IH]; intros w Hc Hkey; cbn [authenticateLoop];
    apply wp_bind, wp_tryCatch, wp_find_key; try exact Hc;
    intros w1 (Hc1 & Ha1 & Hd1 & Hr1) Hnone Hagain; specialize (Hagain Hkey).
  - destruct (lookupKey s prefix w) as [k|] eqn:Ek; [|apply wp_ret, Hno, I].
    apply wp_bind, wpc_nowMs; [exact Hc1|]. intros t w2 Ht (i & Hi) Hc2 Hl2 Hd2. rewrite (after_clock _ _ Ha1) in Hi.
    apply wp_check; [intros failure Hf | intros e; apply Hno, I].
    apply wp_bind, wpc_isoString; [unfold timeBound, maxTime in *; lia|]. intros at_ Hat.
    destruct failure as [result|]; apply wp_bind, wp_swallow; (eapply wp_mono; [apply recordAuth_any, Hc2|]);
      intros o3 w3 Hc3; [apply wp_ret, Hno, I|].
    apply wp_check; [intros p Hp | intros e; apply Hno, I]. apply wp_ret. intros p' [= <-].
    exists k, i. rewrite <- Hi. split; [exact Ek|]. split; [exact Hf | now apply toPrincipal_inv].
  - assert (forall w2, calm w2 -> later w1 w2 -> w_db w2 = w_db w1 ->
      wp (_ ← waitForUpdateRetry; authenticateLoop scrypt hmac s n prefix secret) (fun o _ => accepted prefix secret w o) w2) as Hretry.
    { intros w2 Hc2 Hl2 Hd2. apply wp_bind, wpc_sleep; [exact Hc2|].
      assert (w_db w2 = w_db w) as Hdb by congruence.
      eapply wp_mono; [apply IH; [exact Hc2 | now rewrite Hdb]|]. intros o w3. apply accepted_after; [after_tac|].
      rewrite (lookupKey_later prefix w1 w2 Hl2 Hd2). congruence. }
    destruct (lookupKey s prefix w) as [k|] eqn:Ek; [|now apply Hretry].
    apply wp_bind, wpc_nowMs; [exact Hc1|]. intros t w2 Ht (i & Hi) Hc2 Hl2 Hd2. rewrite (after_clock _ _ Ha1) in Hi.
    apply wp_check; [intros failure Hf | intros e; apply Hno, I].
    destruct (toISO_some t) as [at_ Hat]; [unfold timeBound, maxTime in *; lia|].
    destruct failure as [result|]; apply wp_bind.
    + eapply wp_isoString; [exact Hat|]. apply wp_bind. eapply wp_mono; [apply recordAuth_any, Hc2|].
      intros [[]|e] w3 _; [apply wp_ret|]; apply Hno, I.
    + apply wp_tryCatch, wp_bind. eapply wp_isoString; [exact Hat|].
      apply wp_recordLastUsed; [exact Hc2 | | now apply Hretry].
      intros r w3 Hc3 Hl3. apply wp_bind. eapply wp_isoString; [exact Hat|].
      apply wp_bind, wp_swallow. eapply wp_mono; [apply recordAuth_any, Hc3|]. intros o4 w4 Hc4.
      apply wp_bind, wp_rememberLocal; [exact Hc4|]. intros w5 _ _.
      apply wp_check; [intros p Hp | intros e; apply Hno, I]. apply wp_ret. intros p' [= <-].
      exists k, i. rewrite <- Hi. split; [exact Ek|]. split; [exact Hf | now apply toPrincipal_inv in Hp].
Qed.

(** *** The check of an authenticated principal *)

(** The key may be used now, for this. *)
Definition usable (applicationId : string) (p : VerifiedPrincipal) capability resource now (db : DB) : Prop :=
  exists k, peek CKeys (vp_principalId p) db = Some k /\ k_tenantId k = vp_tenantId p /\
    k_applicationId k = Some applicationId /\ keyStatus k now = KActive /\
    restrictionsPermit (k_restrictions k) capability resource = true.

Lemma credentialCheck_spec applicationId p capability resource w :
  calm w ->
  wp (credentialCheck applicationId p capability resource)
     (fun o w' => kept w w' /\ exists i,
        (o = Ok tt <-> usable applicationId p capability resource (w_clock w i) (w_db w)) /\
        match o with Ok _ => True | Throw e => hasCode DENIED e = true end) w.
Proof.
  intros Hc. unfold credentialCheck. apply wp_bind. unfold ks_get. apply wpc_get; [exact Hc|].
  assert (forall w' i e, kept w w' -> hasCode DENIED e = true -> ~ usable applicationId p capability resource (w_clock w i) (w_db w) ->
    kept w w' /\ exists i, (@Throw unit e = Ok tt <-> usable applicationId p capability resource (w_clock w i) (w_db w)) /\ hasCode DENIED e = true) as Hno.
  { intros w' i e Hk He Hn. split; [exact Hk|]. exists i. split; [|exact He]. split; [discriminate | contradiction]. }
  destruct (peek CKeys (vp_principalId p) (w_db w)) as [k|] eqn:Ek.
  2: { apply wp_throw. apply (Hno _ O); [now apply kept_refl | reflexivity|]. intros (k & Hk & _). congruence. }
  destruct (negb _ || negb _) eqn:Eb.
  { apply wp_throw. apply (Hno _ O); [now apply kept_refl | reflexivity|]. intros (k' & Hk & Ht & Ha & _).
    rewrite Ek in Hk. injection Hk as <-. rewrite Ht, Ha, String.eqb_refl in Eb. cbn in Eb.
    apply negb_true_iff in Eb. unfold oeqb in Eb. apply bool_decide_eq_false in Eb. now apply Eb. }
  apply orb_false_elim in Eb as [Et Ea]. apply negb_false_iff in Et, Ea. apply String.eqb_eq in Et. apply oeqb_true in Ea.
  apply wp_bind, wpc_nowMs; [exact Hc|]. intros t w1 _ (i & ->) Hc1 Hl1 Hd1.
  assert (kept w w1) as Hk1 by (split; auto).
  destruct (keyStatus k (w_clock w i)) eqn:Es;
    try (apply wp_throw; apply (Hno _ i); [exact Hk1 | reflexivity|]; intros (k' & Hk & _ & _ & Hs & _); congruence).
  destruct (restrictionsPermit _ _ _) eqn:Er.
  - apply wp_ret. split; [exact Hk1|]. exists i. split; [|exact I]. split; [intros _ | reflexivity]. exists k. auto.
  - apply wp_throw. apply (Hno _ i); [exact Hk1 | reflexivity|]. intros (k' & Hk & _ & _ & _ & Hp). congruence.
Qed.

Lemma keyStatus_revoked k now : present (k_revokedAt k) = true -> keyStatus k now = KRevoked.
Proof. unfold keyStatus. now intros ->. Qed.

Lemma failure_revoked k secret now :
  present (k_revokedAt k) = true -> authenticationFailure scrypt hmac s k secret now = Ok (Some RRevoked).
Proof. unfold authenticationFailure. now intros ->. Qed.
End auth.
