(* ===== verification/Webhooks.v ===== *)
(** * Webhooks: signed deliveries and inbound events

    [storage/webhooks.ts], [webhooks/secrets.ts] and [webhooks/service.ts].
    The HMAC, SHA-256, JSON and URL functions of the platform, DNS and the
    HTTP client are parameters. *)

From S2P Require Import Prelude JsString JsTime Errors Models Store Principal Manifest Destination Bounded Evidence Gateway.
From Stdlib Require Import ZArith Lia Ascii.
Local Open Scope string_scope.
Local Open Scope Z_scope.

(** ** [storage/webhooks.ts] *)

Section store.
Context {DB : Type} `{FeltDB DB}.

Definition we_create (e : WebhookEndpoint) : M DB unit := transaction [TxPut CEndpoints (we_id e) true None e].
Definition we_get (id : string) : M DB (option WebhookEndpoint) := get CEndpoints id.
Definition we_list (tenantId : string) : M DB (list WebhookEndpoint) :=
  find CEndpoints (fun e => String.eqb (we_tenantId e) tenantId).

Definition we_disable (id : string) (expectedVersion : Z) (disabledAt : string) : M DB (option WebhookEndpoint) :=
  updateIfVersion CEndpoints id expectedVersion (fun e => e <| we_disabledAt := Some disabledAt |>).

Definition wd_create (d : WebhookDelivery) : M DB unit := transaction [TxPut CDeliveries (wd_id d) true None d].

Definition wd_createMultiple (l : list WebhookDelivery) : M DB unit :=
  match l with
  | [] => mret tt
  | _ => transaction (map (fun d => TxPut CDeliveries (wd_id d) true None d) l)
  end.

Definition wd_get (id : string) : M DB (option WebhookDelivery) := get CDeliveries id.

Definition wd_list (tenantId : string) (endpointId : option string) (limit : nat) : M DB (list WebhookDelivery) :=
  results ← find CDeliveries (fun d => String.eqb (wd_tenantId d) tenantId
              && match ifPresent endpointId with Some e => String.eqb (wd_endpointId d) e | None => true end);
  mret (match limit with O => results | _ => take limit results end).

Definition deliveryMatches (tenantId : string) (endpointId : option string) (status : option WebhookDeliveryStatus)
  (d : WebhookDelivery) : bool :=
  String.eqb (wd_tenantId d) tenantId
  && match ifPresent endpointId with Some e => String.eqb (wd_endpointId d) e | None => true end
  && match status with Some s => bool_decide (wd_status d = s) | None => true end.

Definition wd_page (tenantId : string) (endpointId : option string) (status : option WebhookDeliveryStatus)
  (limit : nat) : M DB (list WebhookDelivery) :=
  boundedFind CDeliveries (deliveryMatches tenantId endpointId status) limit.

Definition wd_update (id : string) (expectedVersion : Z) (updates : WebhookDelivery -> WebhookDelivery)
  : M DB (option WebhookDelivery) := updateIfVersion CDeliveries id expectedVersion updates.

Definition claimDelivery (now : string) (d : WebhookDelivery) : WebhookDelivery :=
  d <| wd_status := WDelivering |> <| wd_lastAttemptAt := Some now |>.

Definition wd_claim (id : string) (expectedVersion : Z) : M DB (option WebhookDelivery) :=
  now ← systemIso;
  wd_update id expectedVersion (claimDelivery now).

Definition wa_record (e : WebhookAuditEvent) : M DB unit := insert CHookAudit (wa_id e) e.

Definition wi_create (i : WebhookIntegration) : M DB unit := transaction [TxPut CIntegrations (wi_id i) true None i].
Definition wi_get (id : string) : M DB (option WebhookIntegration) := get CIntegrations id.
Definition wi_list (tenantId : string) : M DB (list WebhookIntegration) :=
  find CIntegrations (fun i => String.eqb (wi_tenantId i) tenantId).

(** False when the identity was accepted before. *)
Definition ib_accept (r : InboundRecord) : M DB bool :=
  tryCatch (_ ← transaction [TxPut CInbound (ib_id r) true None r]; mret true)
    (fun error => if isConditionalConflict error then mret false else throw error).
End store.

(** ** [webhooks/secrets.ts] *)

Section signatures.
(** [createHmac('sha256', secret).update(payload).digest('hex')] *)
Variable hmacHex : string -> string -> string.

Definition signWebhookPayload (secret payload : string) : string := hmacHex secret payload.

(** Texts of equal length are compared in constant time. *)
Definition verifyWebhookSignature (secret payload signature : string) : bool :=
  let expected := signWebhookPayload secret payload in
  Nat.eqb (String.length expected) (String.length signature) && String.eqb expected signature.
End signatures.

Definition noSigningSecret : exn := JsError "Error" "Resolved credential does not contain a signing secret".

Definition signingSecretValue (value : jsval) : outcome string :=
  match value with
  | JStr s => if truthy s then Ok s else Throw noSigningSecret
  | JObj f =>
      let candidate := match getField f "signingSecret" with
                       | JUndef | JNull => getField f "secret"
                       | v => v
                       end in
      match candidate with
      | JStr s => if truthy s then Ok s else Throw noSigningSecret
      | _ => Throw noSigningSecret
      end
  | _ => Throw noSigningSecret
  end.

(** ** Constants and inputs *)

Definition MAX_RETRY_ATTEMPTS : Z := 5.
Definition INITIAL_RETRY_DELAY_MS : Z := 5000.
Definition DEFAULT_INBOUND_TOLERANCE_MS : Z := 5 * 60 * 1000.
Definition DEFAULT_WEBHOOK_DELIVERY_PAGE : Z := 50.
Definition MAX_WEBHOOK_DELIVERY_PAGE : Z := 200.

(** [PROVIDER]: [^[a-z][a-z0-9_-]{0,63}$] *)
Definition isProvider (s : string) : bool :=
  match s with
  | String c r => isLower c && all (fun c => isLower c || isDigit c || Ascii.eqb c "_" || Ascii.eqb c "-") r
                  && Nat.leb (String.length r) 63
  | EmptyString => false
  end.

(** The [_extra] fields hold the properties the interface does not declare. *)
Record CreateWebhookEndpointInput := mkCreateEndpoint {
  ce_tenantId : option string;
  ce_url : jsval;
  ce_events : jsval;
  ce_signingCredentialRef : jsval;
  ce_extra : list (string * jsval) }.

Record DisableWebhookEndpointInput := mkDisableEndpoint {
  di_tenantId : option string;
  di_id : string;
  di_extra : list (string * jsval) }.

Record EmitWebhookEventInput := mkEmit {
  em_tenantId : option string;
  em_type : string;
  em_payload : jsval;
  em_extra : list (string * jsval) }.

Record WebhookDeliveryQuery := mkDeliveryQuery {
  dq_tenantId : option string;
  dq_endpointId : jsval;
  dq_status : jsval;
  dq_limit : jsval }.

Record RegisterWebhookIntegrationInput := mkRegister {
  ri_tenantId : option string;
  ri_provider : jsval;
  ri_signingCredentialRef : jsval;
  ri_extra : list (string * jsval) }.

(** A header: one value, several, or none. *)
Inductive HeaderValue := HOne (s : string) | HMany (l : list string) | HNone.

Record InboundWebhookRequest := mkInboundRequest {
  ir_integrationId : jsval;
  ir_headers : list (string * HeaderValue);
  ir_rawBody : jsval }.

Record InboundWebhookEvent := mkInboundEvent {
  ie_integrationId : string;
  ie_provider : string;
  ie_eventId : string;
  ie_timestamp : string;
  ie_payload : jsval }.

Record InboundWebhookHandlerInput := mkHandlerInput {
  ih_event : InboundWebhookEvent;
  ih_principal : VerifiedPrincipal;
  ih_context : ServiceExecutionContext }.

Record InboundWebhookResult := mkInboundResult {
  iw_eventId : string;
  iw_result : option jsval }.

(** ** Pure helpers *)

(** [value ?? next] of headers: absent and undefined fall through. *)
Definition headerOf (headers : list (string * HeaderValue)) (name : string) : option HeaderValue :=
  match mapGet headers name with
  | Some HNone | None =>
      match List.find (fun kv => String.eqb (toLowerCase kv.1) name) headers with
      | Some (_, v) => Some v
      | None => None
      end
  | v => v
  end.

Definition header (headers : list (string * HeaderValue)) (name : string) : option string :=
  match headerOf headers name with
  | Some (HOne s) => Some s
  | Some (HMany (s :: _)) => Some s
  | _ => None
  end.

Definition statusText (s : WebhookDeliveryStatus) : string :=
  match s with
  | WPending => "pending" | WDelivering => "delivering" | WDelivered => "delivered"
  | WRetrying => "retrying" | WFailed => "failed"
  end.

Definition WEBHOOK_DELIVERY_STATUSES : list WebhookDeliveryStatus := [WPending; WDelivering; WDelivered; WRetrying; WFailed].

Definition badInput (message : string) : exn := ServiceAuthorityError INVALID_REQUEST message noDetails.

Definition deliveryLimit (v : jsval) : outcome nat :=
  match v with
  | JUndef | JNull => Ok (Z.to_nat DEFAULT_WEBHOOK_DELIVERY_PAGE)
  | JInt n => if (n <? 1) || (MAX_WEBHOOK_DELIVERY_PAGE <? n)
              then Throw (badInput "limit must be an integer from 1 to 200") else Ok (Z.to_nat n)
  | _ => Throw (badInput "limit must be an integer from 1 to 200")
  end.

Definition deliveryEndpoint (v : jsval) : outcome (option string) :=
  match v with
  | JUndef => Ok None
  | JStr s => if truthy s then Ok (Some s) else Throw (badInput "endpointId must be a non-empty string")
  | _ => Throw (badInput "endpointId must be a non-empty string")
  end.

Definition deliveryStatus (v : jsval) : outcome (option WebhookDeliveryStatus) :=
  match v with
  | JUndef => Ok None
  | JStr s =>
      match List.find (fun st => String.eqb (statusText st) s) WEBHOOK_DELIVERY_STATUSES with
      | Some st => Ok (Some st)
      | None => Throw (badInput "status must be one of pending, delivering, delivered, retrying, failed")
      end
  | _ => Throw (badInput "status must be one of pending, delivering, delivered, retrying, failed")
  end.

(** The endpoint, the status and the limit of a delivery query. *)
Definition deliveryQuery (input : WebhookDeliveryQuery)
  : outcome (option string * option WebhookDeliveryStatus * nat) :=
  match deliveryLimit (dq_limit input) with
  | Throw e => Throw e
  | Ok limit =>
      match deliveryEndpoint (dq_endpointId input) with
      | Throw e => Throw e
      | Ok endpoint =>
          match deliveryStatus (dq_status input) with
          | Throw e => Throw e
          | Ok status => Ok (endpoint, status, limit)
          end
      end
  end.

Definition failureResult (error : exn) : WebhookDeliveryResult :=
  match error with
  | ServiceAuthorityError c m d =>
      match d_outcome d with
      | Some r => r
      | None =>
          let code := match c with
                      | UNAUTHENTICATED | NOT_FOUND => DENIED
                      | CUSTODY_READ_ONLY => AUTHORITY_UNAVAILABLE
                      | c => c
                      end in
          mkResult false None (Some m) (Some code)
      end
  | e => mkResult false None (Some (errorMessage e)) (Some PROVIDER_ERROR)
  end.

Definition refusedResult (code : ServiceFailureCode) (message : string) : WebhookDeliveryResult :=
  mkResult false None (Some message) (Some code).

Definition sentResult : WebhookDeliveryResult := mkResult true (Some 200) None None.

(** What the HTTP exchange came to. *)
Inductive HttpReply := HttpStatus (code : option Z) | HttpError (message : string) | HttpTimeout.

(** Responses to a delivery: only 2xx succeeds; redirects are not followed. *)
Definition httpResult (reply : HttpReply) : WebhookDeliveryResult :=
  match reply with
  | HttpStatus c =>
      let code := orElse c 500 in
      if (200 <=? code) && (code <? 300) then mkResult true (Some code) None None
      else if (300 <=? code) && (code <? 400) then
        mkResult false (Some code) (Some ("HTTP " ++ num code ++ ": redirects are not followed (destination policy)")) (Some PROVIDER_ERROR)
      else if (code =? 408) || (code =? 429) || (500 <=? code) then
        mkResult false (Some code) (Some ("HTTP " ++ num code ++ " (retryable)")) (Some PROVIDER_ERROR)
      else mkResult false (Some code) (Some ("HTTP " ++ num code)) (Some PROVIDER_ERROR)
  | HttpError m => mkResult false None (Some ("Network error: " ++ m)) (Some PROVIDER_ERROR)
  | HttpTimeout => mkResult false None (Some "Request timeout (retryable)") (Some PROVIDER_ERROR)
  end.

(** The error that carries a failed outcome out of the effect. *)
Definition deliveryError (o : WebhookDeliveryResult) : exn :=
  ServiceAuthorityError PROVIDER_ERROR (orElse (dr_error o) "Webhook delivery failed")
    (mkDetailsWith None None None (Some o)).

(** Statuses that no retry can change. *)
Definition isTerminal (statusCode : option Z) : bool :=
  match statusCode with
  | Some c => ((300 <=? c) && (c <? 400)) || ((400 <=? c) && (c <? 500) && negb (c =? 408) && negb (c =? 429))
  | None => false
  end.

(** ** [webhooks/service.ts] *)

(** What the program asks of the platform. *)
Record WebhookPlatform (DB : Type) := mkPlatform {
  pf_parseUrl : string -> option URL;
  pf_lookup : string -> M DB (list ResolvedAddress);
  pf_allowPrivateNetworks : bool;
  pf_hmacHex : string -> string -> string;
  pf_sha256Hex : string -> string;
  pf_stringify : jsval -> string;
  (** [JSON.parse], [None] where it throws *)
  pf_jsonParse : string -> option jsval;
  (** [Date.parse] of texts that are not ISO dates *)
  pf_otherDate : string -> option Z;
  (** POST to a validated address: event id, body, signature. *)
  pf_post : ValidatedDestination -> string -> string -> string -> M DB HttpReply }.
Arguments pf_parseUrl {DB}. Arguments pf_lookup {DB}. Arguments pf_allowPrivateNetworks {DB}.
Arguments pf_hmacHex {DB}. Arguments pf_sha256Hex {DB}. Arguments pf_stringify {DB}.
Arguments pf_jsonParse {DB}. Arguments pf_otherDate {DB}. Arguments pf_post {DB}. Arguments mkPlatform {DB}.

Record WebhookService (DB : Type) := mkWebhookService {
  hs_authority : option (ServiceGateway DB);
  hs_maxRetryAttempts : Z;
  hs_allowedEvents : option (list string);
  hs_inboundToleranceMs : Z;
  (** An integration store, and a replay store, are configured. *)
  hs_integrations : bool;
  hs_replay : bool;
  hs_handlers : list (string * (InboundWebhookHandlerInput -> M DB jsval)) }.
Arguments hs_authority {DB}. Arguments hs_maxRetryAttempts {DB}. Arguments hs_allowedEvents {DB}.
Arguments hs_inboundToleranceMs {DB}. Arguments hs_integrations {DB}. Arguments hs_replay {DB}.
Arguments hs_handlers {DB}. Arguments mkWebhookService {DB}.

(** The constructor. *)
Definition newWebhookService {DB} (authority : option (ServiceGateway DB)) (secretStore : bool)
  (maxRetryAttempts : option Z) (allowedEvents : list string) (inboundToleranceMs : option Z)
  (integrations replay : bool) : outcome (WebhookService DB) :=
  if secretStore then Throw (ServiceMigrationError "WebhookService no longer keeps signing secrets. Register them with AuthBoundry and pass signingCredentialRef per endpoint.")
  else Ok (mkWebhookService authority (orElse maxRetryAttempts MAX_RETRY_ATTEMPTS)
             match allowedEvents with [] => None | l => Some l end
             (orElse inboundToleranceMs DEFAULT_INBOUND_TOLERANCE_MS) integrations replay []).

Definition registerInboundHandler {DB} (provider : string) (handler : InboundWebhookHandlerInput -> M DB jsval)
  (s : WebhookService DB) : outcome (WebhookService DB) :=
  if isProvider provider
  then Ok (mkWebhookService (hs_authority s) (hs_maxRetryAttempts s) (hs_allowedEvents s) (hs_inboundToleranceMs s)
             (hs_integrations s) (hs_replay s) (mapSet (hs_handlers s) provider handler))
  else Throw (JsError "Error" "provider must be a lowercase identifier").

Section service.
Context {DB : Type} `{FeltDB DB}.
Variable pf : WebhookPlatform DB.
Variable s : WebhookService DB.

Definition hookGateway : M DB (ServiceGateway DB) :=
  match hs_authority s with
  | Some g => mret g
  | None => throw (ServiceAuthorityError AUTHORITY_UNAVAILABLE "Webhooks have no AuthBoundry authority configured" noDetails)
  end.

Definition requireIntegrationStore : outcome unit :=
  if hs_integrations s then Ok tt
  else Throw (ServiceAuthorityError AUTHORITY_UNAVAILABLE "Inbound webhook integrations are not configured" noDetails).

Definition hookAudit (type : string) (endpointId deliveryId integrationId : option string)
  (tenantId principalId : string) (success : bool) (reason : option string) : M DB unit :=
  id ← randomUUID;
  at_ ← nowIso;
  wa_record (mkHookAudit id type endpointId deliveryId integrationId tenantId principalId at_ success reason None).

Definition hookOptions (provider credentialRef : option string) : ExecuteOptions :=
  mkOptions "webhooks" provider credentialRef None.

Definition destinationFor (url : string) : M DB ValidatedDestination :=
  validateDestination (pf_parseUrl pf) (pf_lookup pf) (pf_allowPrivateNetworks pf) url.

(** *** Endpoints *)

Fixpoint eventNames (l : list jsval) : outcome (list string) :=
  match l with
  | [] => Ok []
  | JStr e :: r =>
      if truthy e then match eventNames r with Ok names => Ok (e :: names) | Throw x => Throw x end
      else Throw (badInput "events must be an array of event names")
  | _ => Throw (badInput "events must be an array of event names")
  end.

Definition eventList (v : jsval) : outcome (list string) :=
  match v with JArr l => eventNames l | _ => Throw (badInput "events must be an array of event names") end.

Definition urlText (v : jsval) : outcome string :=
  match v with JStr u => Ok u | _ => Throw (badInput "url must be a string") end.

Definition createWebhookEndpoint (input : CreateWebhookEndpointInput) (caller : Caller) : M DB WebhookEndpoint :=
  principal ← ofOutcome (requireVerifiedPrincipal caller);
  _ ← ofOutcome (if isUndef (getField (ce_extra input) "secret") then Ok tt
                 else Throw (ServiceMigrationError "Webhook signing secrets are not accepted; pass signingCredentialRef."));
  _ ← ofOutcome (rejectCallerActor (ce_extra input) principal);
  tenantId ← ofOutcome (resolveTenant (ofOption (ce_tenantId input)) principal);
  url ← ofOutcome (urlText (ce_url input));
  events ← ofOutcome (eventList (ce_events input));
  credentialRef ← ofOutcome (requireCredentialRef (ce_signingCredentialRef input) "signingCredentialRef");
  destination ← destinationFor url;
  g ← hookGateway;
  execute g "webhooks.register" (CVerified principal)
    (mkResource "webhook_endpoint" tenantId None
       (Some (<["destination" := u_origin (de_url destination)]> {["credentialRef" := credentialRef]})))
    (hookOptions None (Some credentialRef))
    (fun context _ =>
       createdAt ← nowIso;
       id ← randomUUID;
       let endpoint := mkEndpoint id tenantId (Some (x_application context)) (u_href (de_url destination)) events
             (Some credentialRef) createdAt (vp_principalId principal) None 1 in
       _ ← we_create endpoint;
       _ ← hookAudit "webhook.endpoint.created" (Some id) None None tenantId (vp_principalId principal) true None;
       mret endpoint).

Definition getWebhookEndpoint (tenantId id : string) : M DB (option WebhookEndpoint) :=
  e ← we_get id;
  mret match e with Some e => if String.eqb (we_tenantId e) tenantId then Some e else None | None => None end.

Definition listWebhookEndpoints (tenantId : string) : M DB (list WebhookEndpoint) := we_list tenantId.

Definition disableWebhookEndpoint (input : DisableWebhookEndpointInput) (caller : Caller) : M DB (option WebhookEndpoint) :=
  principal ← ofOutcome (requireVerifiedPrincipal caller);
  _ ← ofOutcome (rejectCallerActor (di_extra input) principal);
  tenantId ← ofOutcome (resolveTenant (ofOption (di_tenantId input)) principal);
  found ← getWebhookEndpoint tenantId (di_id input);
  match found with
  | None => mret None
  | Some endpoint =>
      g ← hookGateway;
      if negb (oeqb (we_applicationId endpoint) (Some (g_application g))) then mret None
      else if present (we_disabledAt endpoint) then mret (Some endpoint)
      else execute g "webhooks.remove" (CVerified principal)
             (mkResource "webhook_endpoint" tenantId (Some (we_id endpoint)) None) (hookOptions None None)
             (fun _ _ =>
                disabledAt ← nowIso;
                updated ← we_disable (we_id endpoint) (we_version endpoint) disabledAt;
                _ ← match updated with
                    | Some u => hookAudit "webhook.endpoint.disabled" (Some (we_id u)) None None tenantId (vp_principalId principal) true None
                    | None => mret tt
                    end;
                mret updated)
  end.

(** *** Emitting *)

Definition DESTINATION_FIELDS : list string :=
  ["url"; "destination"; "endpointId"; "endpointIds"; "signingCredentialRef"; "credentialRef"].

Definition rejectDestination (extra : list (string * jsval)) : outcome unit :=
  match List.find (fun f => negb (isUndef (getField extra f))) DESTINATION_FIELDS with
  | Some f => Throw (badInput (quoted f ++ " cannot be chosen when emitting; deliveries go only to registered, credential-bound destinations"))
  | None => Ok tt
  end.

Definition receivesEvent (application type : string) (e : WebhookEndpoint) : bool :=
  oeqb (we_applicationId e) (Some application) && negb (present (we_disabledAt e))
  && existsb (String.eqb type) (we_events e).

(** [matching.map(...)]: each delivery draws its own id. *)
Fixpoint queueDeliveries (tenantId eventId createdAt : string) (input : EmitWebhookEventInput)
  (principal : DurablePrincipal) (matching : list WebhookEndpoint) : M DB (list WebhookDelivery) :=
  match matching with
  | [] => mret []
  | e :: rest =>
      id ← randomUUID;
      deliveries ← queueDeliveries tenantId eventId createdAt input principal rest;
      mret (mkDelivery id tenantId (we_id e) eventId (em_type input) (em_payload input) WPending 0 None createdAt
              None None None None (Some principal) 1 :: deliveries)
  end.

Fixpoint auditQueued (tenantId principalId : string) (l : list WebhookDelivery) : M DB unit :=
  match l with
  | [] => mret tt
  | d :: rest =>
      _ ← hookAudit "webhook.delivery.created" (Some (wd_endpointId d)) (Some (wd_id d)) None tenantId principalId true None;
      auditQueued tenantId principalId rest
  end.

Definition emitWebhookEvent (input : EmitWebhookEventInput) (caller : Caller) : M DB (list WebhookDelivery) :=
  principal ← ofOutcome (requireVerifiedPrincipal caller);
  _ ← ofOutcome (rejectDestination (em_extra input));
  tenantId ← ofOutcome (resolveTenant (ofOption (em_tenantId input)) principal);
  _ ← ofOutcome match hs_allowedEvents s with
      | Some allowed => if existsb (String.eqb (em_type input)) allowed then Ok tt
                        else Throw (badInput ("Webhook event " ++ quoted (em_type input) ++ " is not declared in appport.toml"))
      | None => Ok tt
      end;
  g ← hookGateway;
  execute g "webhooks.emit" (CVerified principal)
    (mkResource "webhook_event" tenantId None (Some {["eventType" := em_type input]})) (hookOptions None None)
    (fun context _ =>
       endpoints ← we_list tenantId;
       let matching := List.filter (receivesEvent (x_application context) (em_type input)) endpoints in
       match matching with
       | [] => mret []
       | _ =>
           eventId ← randomUUID;
           createdAt ← nowIso;
           deliveries ← queueDeliveries tenantId eventId createdAt input
             (toDurablePrincipal principal None (Some (a_decisionId (x_authorization context)))) matching;
           _ ← wd_createMultiple deliveries;
           _ ← auditQueued tenantId (vp_principalId principal) deliveries;
           mret deliveries
       end).

(** *** Reading deliveries *)

Definition getWebhookDelivery (tenantId id : string) : M DB (option WebhookDelivery) :=
  d ← wd_get id;
  mret match d with Some d => if String.eqb (wd_tenantId d) tenantId then Some d else None | None => None end.

Definition listWebhookDeliveries (tenantId : string) (endpointId : option string) (limit : nat) : M DB (list WebhookDelivery) :=
  wd_list tenantId endpointId limit.

Definition ownedEndpointIds (tenantId application : string) : M DB (list string) :=
  l ← we_list tenantId;
  mret (map we_id (List.filter (fun e => oeqb (we_applicationId e) (Some application)) l)).

Definition readWebhookDeliveries (input : WebhookDeliveryQuery) (caller : Caller) : M DB (list WebhookDelivery) :=
  principal ← ofOutcome (requireVerifiedPrincipal caller);
  tenantId ← ofOutcome (resolveTenant (ofOption (dq_tenantId input)) principal);
  query ← ofOutcome (deliveryQuery input);
  let '(endpointId, status, limit) := query in
  g ← hookGateway;
  execute g "webhooks.deliveries.read" (CVerified principal)
    (mkResource "webhook_delivery" tenantId None
       (Some (<["endpointId" := orElse endpointId "*"]> {["status" := match status with Some st => statusText st | None => "*" end]})))
    (hookOptions None None)
    (fun context _ =>
       owned ← ownedEndpointIds tenantId (x_application context);
       if match endpointId with Some e => negb (existsb (String.eqb e) owned) | None => false end then mret []
       else
         rows ← wd_page tenantId endpointId status limit;
         mret (List.filter (fun d => existsb (String.eqb (wd_endpointId d)) owned) rows)).

Definition readWebhookDelivery (tenant : option string) (id : jsval) (caller : Caller) : M DB (option WebhookDelivery) :=
  principal ← ofOutcome (requireVerifiedPrincipal caller);
  tenantId ← ofOutcome (resolveTenant (ofOption tenant) principal);
  id ← ofOutcome match id with
      | JStr x => if truthy x then Ok x else Throw (badInput "id must be a non-empty string")
      | _ => Throw (badInput "id must be a non-empty string")
      end;
  delivery ← getWebhookDelivery tenantId id;
  g ← hookGateway;
  execute g "webhooks.deliveries.read" (CVerified principal)
    (mkResource "webhook_delivery" tenantId (Some id)
       (Some (<["endpointId" := match delivery with Some d => wd_endpointId d | None => "*" end]>
              {["status" := match delivery with Some d => statusText (wd_status d) | None => "*" end]})))
    (hookOptions None None)
    (fun context _ =>
       match delivery with
       | None => mret None
       | Some d =>
           owned ← ownedEndpointIds tenantId (x_application context);
           mret (if existsb (String.eqb (wd_endpointId d)) owned then Some d else None)
       end).
(** *** Delivering *)

(** [JSON.stringify({ id, eventId, type, data, timestamp })] *)
Definition deliveryBody (d : WebhookDelivery) : string :=
  pf_stringify pf (JObj [("id", JStr (wd_id d)); ("eventId", JStr (wd_eventId d)); ("type", JStr (wd_eventType d));
                         ("data", wd_payload d); ("timestamp", JStr (wd_createdAt d))]).

Definition performHttpDelivery (destination : ValidatedDestination) (d : WebhookDelivery) (payload signature : string)
  : M DB WebhookDeliveryResult :=
  reply ← pf_post pf destination (wd_eventId d) payload signature;
  mret (httpResult reply).

(** Mark a delivery failed without an attempt. *)
Definition failedBy (message : string) (d : WebhookDelivery) : WebhookDelivery :=
  d <| wd_status := WFailed |> <| wd_lastError := Some message |>.

Definition deliveredPatch (now : string) (attemptCount : Z) (statusCode : option Z) (d : WebhookDelivery) : WebhookDelivery :=
  d <| wd_status := WDelivered |> <| wd_deliveredAt := Some now |> <| wd_attemptCount := attemptCount |>
    <| wd_lastStatusCode := statusCode |>.

Definition exhaustedPatch (message : string) (attemptCount : Z) (statusCode : option Z) (d : WebhookDelivery) : WebhookDelivery :=
  failedBy message d <| wd_attemptCount := attemptCount |> <| wd_lastStatusCode := statusCode |>.

(** Wait for authority, without consuming an attempt. *)
Definition waitingPatch (nextAttemptAt message : string) (d : WebhookDelivery) : WebhookDelivery :=
  d <| wd_status := WRetrying |> <| wd_nextAttemptAt := Some nextAttemptAt |> <| wd_lastError := Some message |>.

Definition retryPatch (nextAttemptAt message : string) (attemptCount : Z) (statusCode : option Z) (d : WebhookDelivery) : WebhookDelivery :=
  waitingPatch nextAttemptAt message d <| wd_attemptCount := attemptCount |> <| wd_lastStatusCode := statusCode |>.

(** [`${result.code}: ${result.error}`] *)
Definition codedError (code : ServiceFailureCode) (error : option string) : string :=
  codeName code ++ ": " ++ orElse error "undefined".

Definition backoffMs (attemptCount : Z) : Z := INITIAL_RETRY_DELAY_MS * 2 ^ attemptCount.

Definition recordAttempt (claimed : WebhookDelivery) (result : WebhookDeliveryResult) : M DB unit :=
  now ← nowIso;
  let principalId := match wd_principal claimed with Some p => dp_principalId p | None => "anonymous" end in
  let id := wd_id claimed in
  let write updates := wd_update id (wd_version claimed) updates in
  let audit type success reason :=
    hookAudit type (Some (wd_endpointId claimed)) (Some id) None (wd_tenantId claimed) principalId success reason in
  let attempts := wd_attemptCount claimed + 1 in
  if dr_success result then
    _ ← write (deliveredPatch now attempts (dr_statusCode result));
    audit "webhook.delivery.delivered" true None
  else match dr_code result with
  | Some DENIED =>
      _ ← write (failedBy (codedError DENIED (dr_error result)));
      audit "webhook.delivery.denied" false (Some "DENIED")
  | Some INVALID_REQUEST =>
      _ ← write (failedBy (codedError INVALID_REQUEST (dr_error result)));
      audit "webhook.delivery.failed" false (Some "INVALID_REQUEST")
  | Some AUTHORITY_UNAVAILABLE =>
      t ← nowMs;
      next ← isoString (t + INITIAL_RETRY_DELAY_MS);
      _ ← write (waitingPatch next (codedError AUTHORITY_UNAVAILABLE (dr_error result)));
      mret tt
  | Some AUTHORIZATION_TIMEOUT =>
      t ← nowMs;
      next ← isoString (t + INITIAL_RETRY_DELAY_MS);
      _ ← write (waitingPatch next (codedError AUTHORIZATION_TIMEOUT (dr_error result)));
      mret tt
  | _ =>
      let message := orElse (ifPresent (dr_error result)) "Unknown error" in
      if isTerminal (dr_statusCode result) || (hs_maxRetryAttempts s <=? attempts) then
        _ ← write (exhaustedPatch message attempts (dr_statusCode result));
        audit "webhook.delivery.failed" false (Some "PROVIDER_ERROR")
      else
        t ← nowMs;
        next ← isoString (t + backoffMs (wd_attemptCount claimed));
        _ ← write (retryPatch next message attempts (dr_statusCode result));
        mret tt
  end.

Definition deliverResource (tenantId : string) (d : WebhookDelivery) (e : WebhookEndpoint) (origin credentialRef : string) : ServiceResource :=
  mkResource "webhook_delivery" tenantId (Some (wd_id d))
    (Some (<["endpointId" := we_id e]> (<["destination" := origin]> (<["eventType" := wd_eventType d]>
          {["credentialRef" := credentialRef]})))).

(** The effect of one attempt: validate again, sign, send. *)
Definition sendDelivery (e : WebhookEndpoint) (claimed : WebhookDelivery) (credentialRef : string) (tools : EffectTools)
  : M DB WebhookDeliveryResult :=
  destination ← destinationFor (we_url e);
  let payload := deliveryBody claimed in
  signature ← t_withCredential tools string credentialRef "webhook.sign" (fun secret =>
        k ← ofOutcome (signingSecretValue (rv_value secret));
        mret (signWebhookPayload (pf_hmacHex pf) k payload));
  outcome ← performHttpDelivery destination claimed payload signature;
  if dr_success outcome then mret outcome else throw (deliveryError outcome).

(** The attempt of a claimed delivery. *)
Definition attemptDelivery (g : ServiceGateway DB) (tenantId : string) (delivery : WebhookDelivery)
  (durable : DurablePrincipal) (endpoint : WebhookEndpoint) (credentialRef : string) (claimed : WebhookDelivery)
  : M DB WebhookDeliveryResult :=
  principal ← ofOutcome (mintVerifiedPrincipal
       (durableClaims durable (wd_id delivery ++ ":" ++ num (wd_attemptCount claimed + 1))) ByDelivery);
  result ← tryCatch (
    origin ← ofOutcome match pf_parseUrl pf (we_url endpoint) with
                       | Some u => Ok (u_origin u)
                       | None => Throw (JsError "TypeError" "Invalid URL")
                       end;
    execute g "webhooks.deliver" (CVerified principal) (deliverResource tenantId delivery endpoint origin credentialRef)
      (hookOptions (Some "webhook") (Some credentialRef))
      (fun _ tools => sendDelivery endpoint claimed credentialRef tools))
    (fun error => mret (failureResult error));
  _ ← recordAttempt claimed result;
  mret result.

Definition deliverWebhook (tenantId deliveryId : string) : M DB WebhookDeliveryResult :=
  found ← wd_get deliveryId;
  match found with
  | None => mret (refusedResult INVALID_REQUEST "Delivery not found")
  | Some delivery =>
      if negb (String.eqb (wd_tenantId delivery) tenantId) then mret (refusedResult DENIED "Tenant mismatch")
      else if bool_decide (wd_status delivery = WDelivered) || bool_decide (wd_status delivery = WDelivering) then mret sentResult
      else
        e ← we_get (wd_endpointId delivery);
        match e with
        | None => mret (refusedResult INVALID_REQUEST "Endpoint not found")
        | Some endpoint =>
            if negb (String.eqb (we_tenantId endpoint) tenantId) then mret (refusedResult INVALID_REQUEST "Endpoint not found")
            else
              g ← hookGateway;
              let fail message := wd_update deliveryId (wd_version delivery) (failedBy message) in
              let deniedAudit principalId reason :=
                hookAudit "webhook.delivery.denied" (Some (we_id endpoint)) (Some deliveryId) None tenantId principalId false (Some reason) in
              if negb (oeqb (we_applicationId endpoint) (Some (g_application g))) then
                mret (refusedResult DENIED "Endpoint belongs to a different application")
              else if present (we_disabledAt endpoint) then
                _ ← fail "Endpoint is disabled";
                mret (refusedResult INVALID_REQUEST "Endpoint is disabled")
              else
                match wd_principal delivery with
                | Some durable =>
                    if negb (String.eqb (dp_tenantId durable) tenantId) then
                      _ ← fail "DENIED: delivery has no durable execution principal";
                      _ ← deniedAudit "anonymous" "anonymous";
                      mret (refusedResult DENIED "Delivery has no durable execution principal")
                    else
                      match ifPresent (we_signingCredentialRef endpoint) with
                      | None =>
                          _ ← fail "Endpoint has no signing credential reference; re-register it";
                          mret (refusedResult INVALID_REQUEST "Endpoint has no signing credential reference")
                      | Some credentialRef =>
                          attested ← tryCatch (_ ← attest g (Some durable) ["webhooks.emit"; "webhooks.replay"]; mret None)
                            (fun error =>
                               _ ← fail ("DENIED: " ++ errorMessage error);
                               _ ← deniedAudit (dp_principalId durable) "unattested_principal";
                               mret (Some (failureResult error)));
                          match attested with
                          | Some refused => mret refused
                          | None =>
                              claimed ← wd_claim deliveryId (wd_version delivery);
                              match claimed with
                              | None => mret sentResult
                              | Some claimed => attemptDelivery g tenantId delivery durable endpoint credentialRef claimed
                              end
                          end
                      end
                | None =>
                    _ ← fail "DENIED: delivery has no durable execution principal";
                    _ ← deniedAudit "anonymous" "anonymous";
                    mret (refusedResult DENIED "Delivery has no durable execution principal")
                end
        end
  end.

Definition replayedPatch (p : DurablePrincipal) (d : WebhookDelivery) : WebhookDelivery :=
  d <| wd_status := WPending |> <| wd_attemptCount := 0 |> <| wd_nextAttemptAt := None |> <| wd_lastAttemptAt := None |>
    <| wd_deliveredAt := None |> <| wd_lastStatusCode := None |> <| wd_lastError := None |> <| wd_principal := Some p |>.

Definition replayWebhookDelivery (tenantId deliveryId : string) (caller : Caller) : M DB (option WebhookDelivery) :=
  principal ← ofOutcome (requireVerifiedPrincipal caller);
  _ ← ofOutcome (if String.eqb (vp_tenantId principal) tenantId then Ok tt
                 else Throw (ServiceAuthorityError DENIED "Cross-tenant service operation denied" (reasonOnly "tenant_mismatch")));
  found ← getWebhookDelivery tenantId deliveryId;
  match found with
  | None => mret None
  | Some delivery =>
      e ← we_get (wd_endpointId delivery);
      match e with
      | None => mret None
      | Some endpoint =>
          if present (we_disabledAt endpoint) then mret None
          else
            g ← hookGateway;
            if negb (oeqb (we_applicationId endpoint) (Some (g_application g))) then mret None
            else execute g "webhooks.replay" (CVerified principal)
                   (mkResource "webhook_delivery" tenantId (Some (wd_id delivery)) (Some {["endpointId" := we_id endpoint]}))
                   (hookOptions None None)
                   (fun context _ =>
                      updated ← wd_update deliveryId (wd_version delivery)
                        (replayedPatch (toDurablePrincipal principal None (Some (a_decisionId (x_authorization context)))));
                      _ ← match updated with
                          | Some u => hookAudit "webhook.delivery.replayed" (Some (wd_endpointId u)) (Some (wd_id u)) None
                                        tenantId (vp_principalId principal) true None
                          | None => mret tt
                          end;
                      mret updated)
      end
  end.

(** *** Inbound integrations *)

Definition providerText (v : jsval) : outcome string :=
  match v with
  | JStr p => if isProvider p then Ok p else Throw (badInput "provider must be a lowercase identifier")
  | _ => Throw (badInput "provider must be a lowercase identifier")
  end.

Definition registerIntegration (input : RegisterWebhookIntegrationInput) (caller : Caller) : M DB WebhookIntegration :=
  principal ← ofOutcome (requireVerifiedPrincipal caller);
  _ ← ofOutcome (rejectCallerActor (ri_extra input) principal);
  tenantId ← ofOutcome (resolveTenant (ofOption (ri_tenantId input)) principal);
  provider ← ofOutcome (providerText (ri_provider input));
  credentialRef ← ofOutcome (requireCredentialRef (ri_signingCredentialRef input) "signingCredentialRef");
  _ ← ofOutcome requireIntegrationStore;
  g ← hookGateway;
  execute g "webhooks.integrations.register" (CVerified principal)
    (mkResource "webhook_integration" tenantId None (Some (<["provider" := provider]> {["credentialRef" := credentialRef]})))
    (hookOptions (Some provider) (Some credentialRef))
    (fun context _ =>
       id ← randomUUID;
       createdAt ← nowIso;
       let integration := mkIntegration id tenantId (x_application context) provider ("integration:" ++ provider)
             credentialRef createdAt (vp_principalId principal) None 1 in
       _ ← wi_create integration;
       _ ← hookAudit "webhook.integration.registered" None None (Some id) tenantId (vp_principalId principal) true None;
       mret integration).

(** The identity under which an event is accepted once. *)
Definition inboundId (integrationId eventId : string) : string := pf_sha256Hex pf (integrationId ++ ":" ++ eventId).

Definition inboundReason (error : exn) : string :=
  match error with
  | ServiceAuthorityError c _ d => orElse (d_reason d) (codeName c)
  | _ => "handler_failed"
  end.

(** The authorized effect of one inbound event. *)
Definition acceptInbound (integration : WebhookIntegration) (principal : VerifiedPrincipal)
  (eventId timestamp signature rawBody : string) (sentAt : Z) (context : ServiceExecutionContext) (tools : EffectTools)
  : M DB InboundWebhookResult :=
  valid ← t_withCredential tools bool (wi_signingCredentialRef integration) "webhook.verify" (fun secret =>
        k ← ofOutcome (signingSecretValue (rv_value secret));
        mret (verifyWebhookSignature (pf_hmacHex pf) k (timestamp ++ "." ++ rawBody) signature));
  if negb valid then throw (ServiceAuthorityError DENIED "Inbound webhook signature is invalid" (reasonOnly "invalid_signature"))
  else
    eventTimestamp ← isoString sentAt;
    acceptedAt ← nowIso;
    accepted ← ib_accept (mkInbound (inboundId (wi_id integration) eventId) (wi_id integration) (wi_provider integration)
                  eventId eventTimestamp acceptedAt (wi_tenantId integration));
    if negb accepted then throw (ServiceAuthorityError DENIED "Inbound webhook event was already accepted" (reasonOnly "replayed"))
    else
      payload ← ofOutcome match pf_jsonParse pf rawBody with
                          | Some v => Ok v
                          | None => Throw (badInput "Inbound webhook body must be JSON")
                          end;
      match mapGet (hs_handlers s) (wi_provider integration) with
      | None => mret (mkInboundResult eventId None)
      | Some handler =>
          handledAt ← isoString sentAt;
          handled ← handler (mkHandlerInput (mkInboundEvent (wi_id integration) (wi_provider integration) eventId handledAt payload)
                               principal context);
          mret (mkInboundResult eventId match handled with JUndef => None | v => Some v end)
      end.

Definition receiveResource (i : WebhookIntegration) (eventId : string) : ServiceResource :=
  mkResource "webhook_integration" (wi_tenantId i) (Some (wi_id i))
    (Some (<["provider" := wi_provider i]> (<["eventId" := eventId]> {["credentialRef" := wi_signingCredentialRef i]}))).

Definition receiveWebhook (request : InboundWebhookRequest) : M DB InboundWebhookResult :=
  _ ← ofOutcome requireIntegrationStore;
  _ ← ofOutcome (if hs_replay s then Ok tt
                 else Throw (ServiceAuthorityError AUTHORITY_UNAVAILABLE "Inbound webhooks require a durable replay store" noDetails));
  found ← match ir_integrationId request with JStr id => wi_get id | _ => mret None end;
  match found with
  | None => throw (ServiceAuthorityError NOT_FOUND "Webhook integration not found" noDetails)
  | Some integration =>
      if present (wi_disabledAt integration) then throw (ServiceAuthorityError NOT_FOUND "Webhook integration not found" noDetails)
      else
        let missing := throw (badInput "Inbound webhook requires event id, timestamp, signature, and body") in
        match ifPresent (header (ir_headers request) "x-appport-event-id"),
              ifPresent (header (ir_headers request) "x-appport-timestamp"),
              ifPresent (header (ir_headers request) "x-appport-signature"), ir_rawBody request with
        | Some eventId, Some timestamp, Some signature, JStr rawBody =>
            let audit type success reason :=
              hookAudit type None None (Some (wi_id integration)) (wi_tenantId integration) (wi_principalId integration) success reason in
            now ← match parseDate (pf_otherDate pf) timestamp with Some _ => nowMs | None => mret 0 end;
            match parseDate (pf_otherDate pf) timestamp with
            | Some sentAt =>
                if hs_inboundToleranceMs s <? Z.abs (now - sentAt) then
                  _ ← audit "webhook.inbound.rejected" false (Some "stale_timestamp");
                  throw (ServiceAuthorityError DENIED "Inbound webhook timestamp is outside the accepted window" (reasonOnly "stale_timestamp"))
                else
                  principal ← ofOutcome (mintVerifiedPrincipal
                    (mkClaims (wi_principalId integration) "integration" (wi_tenantId integration)
                       (Some (wi_applicationId integration)) None None None) ByIntegration);
                  tryCatch (
                    g ← hookGateway;
                    result ← execute g "webhooks.receive" (CVerified principal) (receiveResource integration eventId)
                      (hookOptions (Some (wi_provider integration)) (Some (wi_signingCredentialRef integration)))
                      (acceptInbound integration principal eventId timestamp signature rawBody sentAt);
                    _ ← audit "webhook.inbound.accepted" true None;
                    mret result)
                  (fun error =>
                    _ ← swallow (audit "webhook.inbound.rejected" false (Some (inboundReason error)));
                    throw error)
            | None =>
                _ ← audit "webhook.inbound.rejected" false (Some "stale_timestamp");
                throw (ServiceAuthorityError DENIED "Inbound webhook timestamp is outside the accepted window" (reasonOnly "stale_timestamp"))
            end
        | _, _, _, _ => missing
        end
  end.
End service.
