(* ===== verification/WebhookFacts.v ===== *)
(** * WebhookFacts: lemmas about deliveries and inbound events *)

From S2P Require Import Prelude JsString JsTime Errors Models Store Calm Principal Manifest Destination Bounded Evidence Gateway GatewayFacts Webhooks.
From Stdlib Require Import ZArith Lia Ascii FunctionalExtensionality.
Local Open Scope string_scope.
Local Open Scope Z_scope.

(** ** Only public addresses are dialled *)

(** The same platform, with another HTTP client. *)
Definition withPost {DB} (pf : WebhookPlatform DB)
  (post : ValidatedDestination -> string -> string -> string -> M DB HttpReply) : WebhookPlatform DB :=
  mkPlatform (pf_parseUrl pf) (pf_lookup pf) (pf_allowPrivateNetworks pf) (pf_hmacHex pf) (pf_sha256Hex pf)
    (pf_stringify pf) (pf_jsonParse pf) (pf_otherDate pf) post.

(** A destination that passed the policy, as this platform parses URLs and
    resolves names. *)
Definition allowedDestination {DB} (pf : WebhookPlatform DB) (d : ValidatedDestination) : Prop :=
  (exists rawUrl, pf_parseUrl pf rawUrl = Some (de_url d)) /\
  exists addresses, publicDestination d addresses /\ addressesOf (pf_lookup pf) (de_url d) addresses.

(** A client that agrees with the platform's wherever the destination passed
    the policy cannot be told from it by a delivery. *)
Lemma sendDelivery_post {DB} `{FeltDB DB} (pf : WebhookPlatform DB) post :
  pf_allowPrivateNetworks pf = false ->
  (forall d eventId body signature, allowedDestination pf d ->
     post d eventId body signature = pf_post pf d eventId body signature) ->
  sendDelivery (withPost pf post) = sendDelivery pf.
Proof.
  intros Hpolicy Hpost. extensionality e. extensionality claimed. extensionality ref. extensionality tools.
  extensionality w. unfold sendDelivery. apply bind_ext. intros w1 d Hd.
  unfold destinationFor in Hd. cbn [withPost pf_parseUrl pf_lookup pf_allowPrivateNetworks] in Hd. rewrite Hpolicy in Hd.
  apply validateDestination_ok in Hd as (Hurl & Haddr).
  cbv zeta. apply bind_ext. intros w2 signature _. unfold performHttpDelivery. cbn [withPost pf_post].
  rewrite Hpost by (split; eauto). reflexivity.
Qed.

(** ** Steps *)

Section facts.
Context {DB : Type} `{FeltDBLaws DB}.
Variable pf : WebhookPlatform DB.
Variable s : WebhookService DB.
Implicit Types w : World DB.

(** One new audit record, and nothing else. *)
Definition hookAudited (type : string) (db db' : DB) : Prop :=
  exists id row, changed CHookAudit id (Some row) db db' /\ peek CHookAudit id db = None /\ wa_type row = type.

Lemma wp_hookAudit type endpointId deliveryId integrationId tenantId principalId success reason Q w :
  calm w ->
  (forall w', calm w' -> later w w' -> hookAudited type (w_db w) (w_db w') -> Q (Ok tt) w') ->
  wp (hookAudit type endpointId deliveryId integrationId tenantId principalId success reason) Q w.
Proof.
  intros Hc HQ. unfold hookAudit. apply wp_bind, wpc_uuid; [exact Hc|]. intros id w1 _ Ho Hc1 Hl1 Hd1.
  apply wp_bind, wpc_nowIso; [exact Hc1|]. intros t at_ w2 _ _ Hc2 Hl2 Hd2.
  pose proof (owned_ctl _ _ _ Ho Hl2 Hd2) as Ho2. unfold wa_record. cbn [wa_id].
  apply wpc_insert; [exact Hc2 | exact Ho2|]. intros w3 Hc3 Hl3 Hch.
  apply HQ; [exact Hc3 | later_tac|]. rewrite <- Hd1, <- Hd2. exists id. eexists.
  split; [exact Hch|]. split; [apply Ho2 | reflexivity].
Qed.

Lemma hookAudited_frame type db db' {V} (c : coll V) k :
  hookAudited type db db' -> cname c <> cname CHookAudit -> peek c k db' = peek c k db.
Proof.
  intros (id & row & Hch & _) Hne. apply (changed_frame _ _ _ _ _ _ _ Hch). intros E. apply Hne. exact (f_equal fst E).
Qed.

(** ** Settling an attempt *)

(** A status no retry can change: a redirect, or a client error other than a
    timeout (408) and too many requests (429). *)
Definition hopeless (statusCode : option Z) : bool :=
  match statusCode with Some c => (300 <=? c) && (c <? 500) && negb (c =? 408) && negb (c =? 429) | None => false end.

Lemma isTerminal_hopeless statusCode : isTerminal statusCode = hopeless statusCode.
Proof.
  destruct statusCode as [c|]; [|reflexivity]. cbn.
  destruct (Z.leb_spec 300 c), (Z.ltb_spec c 400), (Z.leb_spec 400 c), (Z.ltb_spec c 500), (Z.eqb_spec c 408), (Z.eqb_spec c 429);
    (reflexivity || lia).
Qed.

(** What the outcome of an attempt makes of its delivery: the status, the
    attempts counted, and the delay until the next one. *)
Definition settlement (maxAttempts : Z) (r : WebhookDeliveryResult) (attempts : Z)
  : WebhookDeliveryStatus * Z * option Z :=
  if dr_success r then (WDelivered, attempts + 1, None)
  else match dr_code r with
  | Some DENIED | Some INVALID_REQUEST => (WFailed, attempts, None)
  | Some AUTHORITY_UNAVAILABLE | Some AUTHORIZATION_TIMEOUT => (WRetrying, attempts, Some 5000)
  | _ => if hopeless (dr_statusCode r) || (maxAttempts <=? attempts + 1) then (WFailed, attempts + 1, None)
         else (WRetrying, attempts + 1, Some (5000 * 2 ^ attempts))
  end.

(** [c'] is [c] with its attempt settled; [clock] is the service's clock. *)
Record settledAs (maxAttempts : Z) (clock : nat -> Z) (r : WebhookDeliveryResult) (c c' : WebhookDelivery) : Prop := mkSettled {
  st_event : (wd_id c', wd_tenantId c', wd_endpointId c', wd_eventId c', wd_eventType c', wd_payload c', wd_principal c')
           = (wd_id c, wd_tenantId c, wd_endpointId c, wd_eventId c, wd_eventType c, wd_payload c, wd_principal c);
  st_status : wd_status c' = (settlement maxAttempts r (wd_attemptCount c)).1.1;
  st_attempts : wd_attemptCount c' = (settlement maxAttempts r (wd_attemptCount c)).1.2;
  st_next : forall delay, (settlement maxAttempts r (wd_attemptCount c)).2 = Some delay ->
    exists n at_, toISO (clock n + delay) = Some at_ /\ wd_nextAttemptAt c' = Some at_;
  st_version : wd_version c' = wd_version c + 1 }.

(** Deliveries, audit and evidence aside, the store is as it was; of the
    deliveries, only [id] may differ. *)
Definition onlyDelivery (id : string) (db db' : DB) : Prop :=
  forall V (c : coll V) k, cname c <> cname CEvidence -> cname c <> cname CHookAudit ->
    (cname c, k) <> (cname CDeliveries, id) -> peek c k db' = peek c k db.

Lemma onlyDelivery_trans id db1 db2 db3 : onlyDelivery id db1 db2 -> onlyDelivery id db2 db3 -> onlyDelivery id db1 db3.
Proof. intros H1 H2 V c k A B C. rewrite H2, H1; auto. Qed.

Lemma onlyDelivery_changed id o db db' : changed CDeliveries id o db db' -> onlyDelivery id db db'.
Proof. intros Hch V c k _ _ Hne. apply (changed_frame _ _ _ _ _ _ _ Hch Hne). Qed.

Lemma onlyDelivery_audited id type db db' : hookAudited type db db' -> onlyDelivery id db db'.
Proof. intros Ha V c k _ Hne _. apply (hookAudited_frame _ _ _ _ _ Ha Hne). Qed.

(** One write of the claimed delivery, then perhaps an audit record. *)
Lemma wp_settle (c : WebhookDelivery) (patch : WebhookDelivery -> WebhookDelivery) (rest : M DB unit) Q w :
  calm w -> peek CDeliveries (wd_id c) (w_db w) = Some c ->
  (rest = mret tt \/ exists type e d i t p ok reason, rest = hookAudit type e d i t p ok reason) ->
  (forall w', calm w' -> later w w' -> onlyDelivery (wd_id c) (w_db w) (w_db w') ->
     peek CDeliveries (wd_id c) (w_db w') = Some (patch c <| wd_version := wd_version c + 1 |>) -> Q (Ok tt) w') ->
  wp (_ ← wd_update (wd_id c) (wd_version c) patch; rest) Q w.
Proof.
  intros Hc Hd Hrest HQ. apply wp_bind. unfold wd_update.
  apply (wpc_cas CDeliveries (wd_id c) c); [exact Hc | exact Hd|]. cbn zeta. intros w1 Hc1 Hl1 Hch.
  pose proof (changed_hit _ _ _ _ _ Hch) as Hk. apply onlyDelivery_changed in Hch.
  destruct Hrest as [->|(type & e & d & i & t & p & ok & reason & ->)]; [apply wp_ret, HQ; assumption|].
  apply wp_hookAudit; [exact Hc1|]. intros w2 Hc2 Hl2 Ha. apply HQ; [exact Hc2 | later_tac | |].
  - eapply onlyDelivery_trans; [exact Hch | eapply onlyDelivery_audited, Ha].
  - rewrite (hookAudited_frame _ _ _ _ _ Ha) by discriminate. exact Hk.
Qed.

Lemma backoff_bound n : 0 <= n <= 39 -> 0 <= 5000 * 2 ^ n <= timeBound.
Proof.
  intros Hn. assert (2 ^ n <= 2 ^ 39) as Hp by (apply Z.pow_le_mono_r; lia).
  pose proof (Z.pow_nonneg 2 n ltac:(lia)). unfold timeBound. change (2 ^ 39) with 549755813888 in Hp. lia.
Qed.

Lemma recordAttempt_spec (c : WebhookDelivery) r w :
  calm w -> peek CDeliveries (wd_id c) (w_db w) = Some c -> 0 <= wd_attemptCount c <= 39 ->
  wp (recordAttempt s c r) (fun o w' => o = Ok tt /\ calm w' /\ later w w' /\ onlyDelivery (wd_id c) (w_db w) (w_db w') /\
    exists c', peek CDeliveries (wd_id c) (w_db w') = Some c' /\
      settledAs (hs_maxRetryAttempts s) (w_clock w) r c c') w.
Proof.
  intros Hc Hd Hn. unfold recordAttempt. apply wp_bind, wpc_nowIso; [exact Hc|].
  intros t now w1 Ht (n & ->) Hc1 Hl1 Hd1. rewrite <- Hd1 in Hd |- *.
  assert (forall patch rest, (rest = mret tt \/ exists type e d i t p ok reason, rest = hookAudit type e d i t p ok reason) ->
    forall w2, calm w2 -> later w1 w2 -> w_db w2 = w_db w1 ->
    settledAs (hs_maxRetryAttempts s) (w_clock w) r c (patch c <| wd_version := wd_version c + 1 |>) ->
    wp (_ ← wd_update (wd_id c) (wd_version c) patch; rest) (fun o w' => o = Ok tt /\ calm w' /\ later w w' /\
      onlyDelivery (wd_id c) (w_db w1) (w_db w') /\
      exists c', peek CDeliveries (wd_id c) (w_db w') = Some c' /\
        settledAs (hs_maxRetryAttempts s) (w_clock w) r c c') w2) as Hgo.
  { intros patch rest Hrest w2 Hc2 Hl2 Hd2 Hs. apply wp_settle; [exact Hc2 | now rewrite Hd2 | exact Hrest|].
    intros w3 Hc3 Hl3 Ho Hk. rewrite Hd2 in Ho. split; [reflexivity|]. split; [exact Hc3|].
    split; [later_tac|]. split; [exact Ho|]. eauto. }
  assert (forall delay k, 0 <= delay <= timeBound ->
    (forall at_ n, toISO (w_clock w n + delay) = Some at_ -> forall w2, calm w2 -> later w1 w2 -> w_db w2 = w_db w1 -> wp (k at_)
      (fun o w' => o = Ok tt /\ calm w' /\ later w w' /\ onlyDelivery (wd_id c) (w_db w1) (w_db w') /\
        exists c', peek CDeliveries (wd_id c) (w_db w') = Some c' /\
          settledAs (hs_maxRetryAttempts s) (w_clock w) r c c') w2) ->
    wp (t ← nowMs; next ← isoString (t + delay); k next)
      (fun o w' => o = Ok tt /\ calm w' /\ later w w' /\ onlyDelivery (wd_id c) (w_db w1) (w_db w') /\
        exists c', peek CDeliveries (wd_id c) (w_db w') = Some c' /\
          settledAs (hs_maxRetryAttempts s) (w_clock w) r c c') w1) as Hwait.
  { intros delay k Hb Hk. apply wp_bind, wpc_nowMs; [exact Hc1|]. intros u w2 Hu (m & ->) Hc2 Hl2 Hd2.
    apply wp_bind, wpc_isoString; [unfold timeBound, maxTime in *; lia|]. intros at_ Hat.
    destruct Hl1 as (Hcl & _). rewrite Hcl in Hat. eapply Hk; eassumption. }
  cbv zeta.
  pose proof (backoff_bound _ Hn) as Hback.
  destruct (dr_success r) eqn:Esucc.
  { apply Hgo; [right; do 8 eexists; reflexivity | exact Hc1 | reflexivity | reflexivity|].
    constructor; unfold settlement; rewrite ?Esucc; cbn; try reflexivity. discriminate. }
  rewrite isTerminal_hopeless. destruct (dr_code r) as [[]|] eqn:Ecode; cbv iota.
  all: try (destruct (hopeless (dr_statusCode r) || (hs_maxRetryAttempts s <=? wd_attemptCount c + 1)) eqn:Eterm).
  all: try (apply Hgo; [right; do 8 eexists; reflexivity | exact Hc1 | reflexivity | reflexivity|];
    constructor; unfold settlement; rewrite ?Esucc, ?Ecode, ?Eterm; cbn; first [reflexivity | discriminate]).
  all: apply Hwait; [first [exact Hback | unfold timeBound, INITIAL_RETRY_DELAY_MS; lia]|];
    intros at_ m Hat w2 Hc2 Hl2 Hd2; apply Hgo; [left; reflexivity | exact Hc2 | exact Hl2 | exact Hd2|];
    constructor; unfold settlement; rewrite ?Esucc, ?Ecode, ?Eterm; cbn; try reflexivity;
    intros delay [= <-]; eauto.
Qed.

(** ** The host *)

Variable g : ServiceGateway DB.

(** Custody runs the caller's callback, returns what it returned, and writes
    nothing to this store by itself. *)
Definition custodyQuiet : Prop :=
  forall withSecret, (g_credentials g = Resolver withSecret \/ exists status store, g_credentials g = Custody withSecret status store) ->
  forall T reference access (use : ResolvedSecret -> M DB T) w, calm w ->
    (forall secret w1, calm w1 -> kept w1 (use secret w1).1) ->
    kept w (withSecret T reference access use w).1 /\
    forall a, (withSecret T reference access use w).2 = Ok a -> exists secret w1 w2, use secret w1 = (w2, Ok a).

(** DNS and the HTTP client do not write this store. *)
Definition platformQuiet : Prop :=
  (forall host w, calm w -> kept w (pf_lookup pf host w).1) /\
  (forall d eventId body signature w, calm w -> kept w (pf_post pf d eventId body signature w).1).

Lemma kept_ctl w w' : calm w -> w_env w' = w_env w -> w_db w' = w_db w -> later w w' -> kept w w'.
Proof. intros Hc He Hd Hl. split; [eapply calm_ctl; eassumption|]. split; assumption. Qed.

Lemma marking_kept {T} n (use : ResolvedSecret -> M DB T) secret w :
  (forall w1, calm w1 -> kept w1 (use secret w1).1) -> calm w -> kept w (marking n use secret w).1.
Proof.
  intros Huse Hc. specialize (Huse w Hc). unfold marking, tryCatch.
  destruct (use secret w) as [w1 [a|e]]; cbn in *; [exact Huse|].
  eapply kept_trans; [exact Huse|]. apply kept_ctl; [apply Huse | reflexivity | reflexivity | later_ctl].
Qed.

Lemma wp_withCredential {T} x ref purpose (use : ResolvedSecret -> M DB T) provider w :
  custodyQuiet -> calm w -> (forall secret w1, calm w1 -> kept w1 (use secret w1).1) ->
  wp (withCredential g (Issued x) ref purpose use provider)
    (fun o w' => kept w w' /\ forall a, o = Ok a -> exists secret w1 w2, use secret w1 = (w2, Ok a)) w.
Proof.
  intros Hcust Hc Huse. unfold withCredential. apply wp_bind, wpc_nowMs; [exact Hc|].
  intros t w1 _ _ Hc1 Hl1 Hd1. assert (kept w w1) as Hk1 by (split; auto).
  apply wp_bind, wp_outcome. destruct (assertExecutionContext _ _ _ _) as [y|e]; [|split; [exact Hk1 | discriminate]].
  destruct (negb _); [split; [exact Hk1 | discriminate]|].
  assert (forall withSecret, (g_credentials g = Resolver withSecret \/ exists status store, g_credentials g = Custody withSecret status store) ->
    wp (n ← ask (fun w : World DB => w_uses w);
        _ ← modify (fun w : World DB => w <| w_uses := S (w_uses w) |>);
        tryCatch (withSecret T (credentialReference ref (x_tenantId y) provider None) (accessFor y purpose) (marking n use)) (fun error =>
          marker ← ask (fun w : World DB => w_markers w !! n);
          match marker with
          | Some raised => throw raised
          | None => throw (mapCredentialFailure error (x_capability y) false)
          end))
      (fun o w' => kept w w' /\ forall a, o = Ok a -> exists secret w1 w2, use secret w1 = (w2, Ok a)) w1) as Hres.
  { intros withSecret Hw. apply wp_bind, wp_ask, wp_bind, wp_modify, wp_tryCatch.
    set (w2 := w1 <| w_uses := S (w_uses w1) |>).
    assert (kept w1 w2) as Hk2 by (apply kept_ctl; [exact Hc1 | reflexivity | reflexivity | later_ctl]).
    pose proof (kept_trans _ _ _ Hk1 Hk2) as Hk02.
    destruct (Hcust withSecret Hw T (credentialReference ref (x_tenantId y) provider None) (accessFor y purpose)
                (marking (w_uses w1) use) w2 (proj1 Hk2)) as [Hk3 Hok].
    { intros secret w4 Hc4. apply marking_kept; [intros; now apply Huse | exact Hc4]. }
    pose proof (kept_trans _ _ _ Hk02 Hk3) as Hk03. unfold wp at 1.
    destruct (withSecret _ _ _ _ w2) as [w3 [a|e]]; cbn [fst snd] in *.
    - split; [exact Hk03|]. intros a' [= <-]. destruct (Hok a eq_refl) as (secret & w4 & w5 & Hrun).
      unfold marking, tryCatch in Hrun. destruct (use secret w4) as [w6 [b|e]] eqn:Eu; [|inv_run; discriminate].
      injection Hrun as <- <-. eauto.
    - apply wp_bind, wp_ask. destruct (w_markers w3 !! w_uses w1); apply wp_throw; (split; [exact Hk03 | discriminate]). }
  destruct (g_credentials g) as [|withSecret|withSecret status store] eqn:Eg.
  - apply wp_throw. split; [exact Hk1 | discriminate].
  - apply Hres. now left.
  - apply Hres. right. eauto.
Qed.

(** Naming a credential for the evidence: the run's own entry. *)
Lemma wp_noteRef id ref row Q w :
  calm w -> peek CEvidence id (w_db w) = Some row ->
  (forall w', calm w' -> after w w' -> w_db w' = w_db w -> resolvedRefs id w' = app (resolvedRefs id w) [ref] -> Q (Ok tt) w') ->
  wp (noteRef id ref) Q w.
Proof.
  intros [Hq (Hk1 & Hk2 & Hk3)] Hrow HQ. unfold noteRef. apply wp_modify. apply HQ; [|unfold after; cbn; auto 6 | reflexivity|].
  - split; [eapply quiet_ctl; [exact Hq | reflexivity.. | cbn; lia]|]. split; [exact Hk1|]. split; [exact Hk2|].
    cbn. intros n Hn. rewrite lookup_insert_ne; [apply Hk3, Hn|]. intros E.
    exact (used_key CEvidence id row w Hq Hrow n Hn (eq_sym E)).
  - unfold resolvedRefs at 1. cbn. rewrite lookup_insert_eq. reflexivity.
Qed.

(** ** One attempt *)

Lemma validateDestination_kept url w :
  platformQuiet -> calm w -> kept w (destinationFor pf url w).1.
Proof.
  intros [Hlook _] Hc. change (wp (destinationFor pf url) (fun _ w' => kept w w') w).
  pose proof (kept_refl w Hc) as Hk0. unfold destinationFor, validateDestination.
  destruct (pf_parseUrl pf url) as [u|]; [|exact Hk0].
  do 4 (match goal with |- wp (if ?b then _ else _) _ _ => destruct b; [exact Hk0|] end).
  apply wp_bind. assert (forall w1 l, kept w w1 ->
    wp (match l with
        | [] => throw (forbidden "Webhook destination did not resolve")
        | first :: _ =>
            if negb (pf_allowPrivateNetworks pf) && existsb (fun a => isForbiddenAddress (ad_address a)) l then
              throw (forbidden "Webhook destination resolves to a private, loopback, link-local, or metadata address")
            else mret (mkDestination u first)
        end) (fun _ w' => kept w w') w1) as Hrest.
  { intros w1 [|first rest] Hk; [exact Hk|]. destruct (_ && _); exact Hk. }
  destruct (isIP _ =? 0); [|apply wp_ret, (Hrest w [mkAddress (hostOf u) (isIP (hostOf u))]), Hk0].
  unfold resolve. apply wp_tryCatch. unfold wp at 1. specialize (Hlook (hostOf u) w Hc).
  destruct (pf_lookup pf (hostOf u) w) as [w1 [l|e]]; cbn [fst snd] in *; [apply (Hrest w1 l), Hlook | exact Hlook].
Qed.

Definition deliverOptions (ref : string) : ExecuteOptions := hookOptions (Some "webhook") (Some ref).

(** What a reply means: a 2xx status, and nothing else, is a delivery. *)
Inductive judged : HttpReply -> WebhookDeliveryResult -> Prop :=
| judged_delivered code : 200 <= code < 300 -> judged (HttpStatus (Some code)) (mkResult true (Some code) None None)
| judged_status code message : ~ 200 <= code < 300 ->
    judged (HttpStatus (Some code)) (mkResult false (Some code) (Some message) (Some PROVIDER_ERROR))
| judged_unknown message : judged (HttpStatus None) (mkResult false (Some 500) (Some message) (Some PROVIDER_ERROR))
| judged_error text message : judged (HttpError text) (mkResult false None (Some message) (Some PROVIDER_ERROR))
| judged_timeout message : judged HttpTimeout (mkResult false None (Some message) (Some PROVIDER_ERROR)).

Lemma httpResult_judged reply : judged reply (httpResult reply).
Proof.
  destruct reply as [[code|]| |]; cbn; try constructor.
  destruct ((200 <=? code) && (code <? 300)) eqn:E; [bool_hyps; now constructor|].
  assert (~ 200 <= code < 300) by (intros [H1 H2]; apply andb_false_iff in E as [E|E]; lia).
  repeat case_goal; now constructor.
Qed.

(** The principal and the resource of an attempt at [c] as [durable]. *)
Definition attempting (c : WebhookDelivery) (durable : DurablePrincipal) (p : VerifiedPrincipal) (r : ServiceResource) : Prop :=
  vp_principalId p = dp_principalId durable /\ vp_principalType p = dp_principalType durable /\ vp_tenantId p = dp_tenantId durable /\
  vp_applicationId p = ifPresent (dp_applicationId durable) /\ vp_verifiedBy p = ByDelivery /\
  r_type r = "webhook_delivery" /\ r_tenantId r = wd_tenantId c /\ r_id r = Some (wd_id c).

(** The signature of the body of [c], made in custody with the credential of
    the endpoint. *)
Definition signing (c : WebhookDelivery) (ref : string) (x : ServiceExecutionContext) (id : string) : M DB string :=
  t_withCredential (toolsFor g x (deliverOptions ref) id) string ref "webhook.sign"
    (fun secret => k ← ofOutcome (signingSecretValue (rv_value secret)); mret (signWebhookPayload (pf_hmacHex pf) k (deliveryBody pf c))).

Section attempt.
(** The world before the attempt, the claimed delivery, its durable principal,
    and the URL and the credential of its endpoint. *)
Variable w0 : World DB.
Variable c : WebhookDelivery.
Variable durable : DurablePrincipal.
Variables url ref : string.

(** A world of the attempt: nothing but this delivery, audit and evidence has
    changed since. *)
Definition during (w : World DB) : Prop := after w0 w /\ onlyDelivery (wd_id c) (w_db w0) (w_db w).

(** A context that the gateway issued for this attempt. *)
Definition issuedHere (x : ServiceExecutionContext) : Prop :=
  exists p r requestId cap, attempting c durable p r /\ issuedFor g "webhooks.deliver" (CVerified p) r requestId cap p x.

(** The signed body of [c] was posted, once the destination had passed the
    policy and the body was signed, and this came of it. *)
Definition posted (o : outcome HttpReply) : Prop :=
  exists d x id signature w1 w2 w3 w4,
    during w1 /\ issuedHere x /\ destinationFor pf url w1 = (w2, Ok d) /\ signing c ref x id w2 = (w3, Ok signature) /\
    (exists key, signature = pf_hmacHex pf key (deliveryBody pf c)) /\
    pf_post pf d (wd_eventId c) (deliveryBody pf c) signature w3 = (w4, o).

(** How the result of an attempt came about: the gateway refused it, whatever
    it would have done; its destination is no URL, or did not pass the policy;
    its body could not be signed; the host could not post it; or the host was
    answered, and the reply is the result. *)
Inductive resultOf : WebhookDeliveryResult -> Prop :=
| result_refused p r error w1 w2 : attempting c durable p r -> during w1 ->
    (forall effect : ServiceExecutionContext -> EffectTools -> M DB WebhookDeliveryResult,
       execute g "webhooks.deliver" (CVerified p) r (deliverOptions ref) effect w1 = (w2, Throw error)) ->
    resultOf (failureResult error)
| result_unparsed : pf_parseUrl pf url = None -> resultOf (failureResult (JsError "TypeError" "Invalid URL"))
| result_destination error w1 w2 : during w1 -> destinationFor pf url w1 = (w2, Throw error) -> resultOf (failureResult error)
| result_unsigned d x id error w1 w2 w3 : during w1 -> issuedHere x ->
    destinationFor pf url w1 = (w2, Ok d) -> signing c ref x id w2 = (w3, Throw error) -> resultOf (failureResult error)
| result_unsent error : posted (Throw error) -> resultOf (failureResult error)
| result_replied reply r : posted (Ok reply) -> judged reply r -> resultOf r.
End attempt.

(** The attempt may be seen from before the claim. *)
Lemma resultOf_earlier w0 w1 c durable url ref r :
  during w0 c w1 -> resultOf w1 c durable url ref r -> resultOf w0 c durable url ref r.
Proof.
  intros [Ha Ho] Hr. assert (forall w, during w1 c w -> during w0 c w) as Hd
    by (intros w [Ha' Ho']; split; [etransitivity; eassumption | eapply onlyDelivery_trans; eassumption]).
  assert (forall o, posted w1 c durable url ref o -> posted w0 c durable url ref o) as Hp
    by (intros o (d & x & id & sg & w2 & w3 & w4 & w5 & Hw & Hrest); exists d, x, id, sg, w2, w3, w4, w5; auto).
  destruct Hr; [eapply result_refused | eapply result_unparsed | eapply result_destination | eapply result_unsigned |
    eapply result_unsent | eapply result_replied]; eauto.
Qed.

Definition settledResult (o : outcome WebhookDeliveryResult) : WebhookDeliveryResult :=
  match o with Ok r => r | Throw error => failureResult error end.

Lemma sendDelivery_spec (e : WebhookEndpoint) (c : WebhookDelivery) durable ref x id row w0 w :
  custodyQuiet -> platformQuiet -> calm w -> peek CEvidence id (w_db w) = Some row -> during w0 c w -> issuedHere c durable x ->
  wp (sendDelivery pf e c ref (toolsFor g x (deliverOptions ref) id))
    (fun o w' => calm w' /\ after w w' /\ w_db w' = w_db w /\ resultOf w0 c durable (we_url e) ref (settledResult o)) w.
Proof.
  intros Hcust Hplat Hc Hrow Hdur Hx. unfold sendDelivery. apply wp_bind.
  pose proof (validateDestination_kept (we_url e) w Hplat Hc) as Hk.
  unfold wp at 1. destruct (destinationFor pf (we_url e) w) as [w1 [d|err]] eqn:Ed; cbn [fst snd] in *;
    destruct Hk as (Hc1 & Hl1 & Hd1);
    [|split; [exact Hc1|]; split; [after_tac|]; split; [exact Hd1 | exact (result_destination _ _ _ _ _ _ _ _ Hdur Ed)]].
  cbv zeta. apply wp_bind. change (deliveryBody pf c) with (deliveryBody pf c).
  assert (wp (signing c ref x id)
    (fun o w3 => calm w3 /\ after w1 w3 /\ w_db w3 = w_db w1 /\ forall signature, o = Ok signature ->
       exists key, signature = pf_hmacHex pf key (deliveryBody pf c)) w1) as Hsign.
  { unfold signing. cbn [toolsFor t_withCredential]. apply wp_bind. rewrite <- Hd1 in Hrow.
    eapply wp_noteRef; [exact Hc1 | exact Hrow|]. intros w2 Hc2 Ha2 Hd2 _. eapply wp_mono.
    { apply wp_withCredential; [exact Hcust | exact Hc2|]. intros secret w3 Hc3.
      unfold mbind, M_bind, ofOutcome. destruct (signingSecretValue _); now apply kept_refl. }
    intros o w3 ((Hc3 & Hl3 & Hd3) & Hsig). split; [exact Hc3|]. split; [transitivity w2; [exact Ha2 | after_tac]|]. split; [congruence|].
    intros signature Ho. destruct (Hsig _ Ho) as (secret & w4 & w5 & Huse). inv_run. eexists. reflexivity. }
  unfold wp in Hsign. unfold wp at 1. fold (signing c ref x id).
  destruct (signing c ref x id w1) as [w3 [signature|err]] eqn:Et; cbn [fst snd] in *; destruct Hsign as (Hc3 & Ha3 & Hd3 & Hsig);
    [|split; [exact Hc3|]; split; [transitivity w1; [after_tac | exact Ha3]|]; split; [congruence | exact (result_unsigned _ _ _ _ _ _ _ _ _ _ _ _ Hdur Hx Ed Et)]].
  unfold performHttpDelivery. apply wp_bind, wp_bind.
  pose proof (proj2 Hplat d (wd_eventId c) (deliveryBody pf c) signature w3 Hc3) as Hk4.
  assert (forall o w6, pf_post pf d (wd_eventId c) (deliveryBody pf c) signature w3 = (w6, o) -> posted w0 c durable (we_url e) ref o) as Hposted
    by (intros o w6 Ep; exists d, x, id, signature, w, w1, w3, w6; auto 10).
  unfold wp at 1. destruct (pf_post pf d _ _ _ w3) as [w6 [reply|err]] eqn:Ep; cbn [fst snd] in *;
    destruct Hk4 as (Hc6 & Hl6 & Hd6); assert (after w w6) as Ha6 by (transitivity w3; [transitivity w1; [after_tac | exact Ha3] | after_tac]);
    [|split; [exact Hc6|]; split; [exact Ha6|]; split; [congruence | apply result_unsent; exact (Hposted _ _ eq_refl)]].
  pose proof (result_replied w0 c durable (we_url e) ref reply _ (Hposted _ _ eq_refl) (httpResult_judged reply)) as Hr.
  apply wp_ret. destruct (dr_success (httpResult reply)); [apply wp_ret | apply wp_throw];
    (split; [exact Hc6|]; split; [exact Ha6|]; split; [congruence | exact Hr]).
Qed.

(** A delivery that may be attempted: not delivered and not being delivered,
    to an enabled endpoint of the tenant and application, with a durable
    principal that evidence attests. *)
Record deliverable (d : WebhookDelivery) (e : WebhookEndpoint) (ref : string) (durable : DurablePrincipal) (db : DB) : Prop := mkDeliverable {
  dv_stored : peek CDeliveries (wd_id d) db = Some d;
  dv_open : wd_status d <> WDelivered /\ wd_status d <> WDelivering;
  dv_attempts : 0 <= wd_attemptCount d <= 39;
  dv_endpoint : peek CEndpoints (wd_endpointId d) db = Some e;
  dv_tenant : we_tenantId e = wd_tenantId d;
  dv_application : we_applicationId e = Some (g_application g);
  dv_enabled : present (we_disabledAt e) = false;
  dv_ref : we_signingCredentialRef e = Some ref;
  dv_named : ref <> "";
  dv_principal : wd_principal d = Some durable;
  dv_principalTenant : dp_tenantId durable = wd_tenantId d;
  dv_identity : blank (dp_principalId durable) = false /\ blank (dp_principalType durable) = false /\ blank (dp_tenantId durable) = false;
  dv_attested : attestedBy g (Some durable) ["webhooks.emit"; "webhooks.replay"] db }.

Lemma attemptDelivery_spec d e ref durable c w :
  custodyQuiet -> platformQuiet -> hostQuiet g -> calm w ->
  wd_id c = wd_id d -> wd_tenantId c = wd_tenantId d -> peek CDeliveries (wd_id c) (w_db w) = Some c -> 0 <= wd_attemptCount c <= 39 ->
  blank (dp_principalId durable) = false /\ blank (dp_principalType durable) = false /\ blank (dp_tenantId durable) = false ->
  wp (attemptDelivery pf s g (wd_tenantId d) d durable e ref c)
    (fun o w' => exists r c', o = Ok r /\ resultOf w c durable (we_url e) ref r /\ onlyDelivery (wd_id c) (w_db w) (w_db w') /\
       peek CDeliveries (wd_id c) (w_db w') = Some c' /\
       settledAs (hs_maxRetryAttempts s) (w_clock w) r c c') w.
Proof.
  intros Hcust Hplat Hhost Hc Hid Htenant Hd Hn (Hb1 & Hb2 & Hb3). unfold attemptDelivery.
  apply wp_bind, wp_outcome.
  destruct (mint_total (durableClaims durable (wd_id d ++ ":" ++ num (wd_attemptCount c + 1))) ByDelivery Hb1 Hb2 Hb3) as (p & Ep).
  rewrite Ep.
  assert (forall origin, attempting c durable p (deliverResource (wd_tenantId d) d e origin ref)) as Has.
  { intros origin. unfold mintVerifiedPrincipal in Ep. cbn [durableClaims pc_principalId pc_principalType pc_tenantId pc_applicationId] in Ep.
    rewrite Hb1, Hb2, Hb3 in Ep. injection Ep as <-. unfold attempting. cbn. rewrite Hid, Htenant. auto 10. }
  assert (during w c w) as Hnow by (split; [reflexivity | intros V k key _ _ _; reflexivity]).
  apply wp_bind, wp_tryCatch.
  assert (forall r w1, resultOf w c durable (we_url e) ref r -> calm w1 -> after w w1 ->
    (forall V (k : coll V) key, cname k <> cname CEvidence -> peek k key (w_db w1) = peek k key (w_db w)) ->
    wp (_ ← recordAttempt s c r; mret r)
      (fun o w' => exists r c', o = Ok r /\ resultOf w c durable (we_url e) ref r /\ onlyDelivery (wd_id c) (w_db w) (w_db w') /\
       peek CDeliveries (wd_id c) (w_db w') = Some c' /\
       settledAs (hs_maxRetryAttempts s) (w_clock w) r c c') w1) as Hrest.
  { intros r w1 Hr Hc1 Ha1 Hf. apply wp_bind. eapply wp_mono.
    - apply recordAttempt_spec; [exact Hc1 | rewrite Hf by discriminate; exact Hd | exact Hn].
    - intros o w2 (-> & Hc2 & Hl2 & Ho & c' & Hk & Hset). apply wp_ret. exists r, c'.
      split; [reflexivity|]. split; [exact Hr|]. split.
      + intros V k key A B C. rewrite (Ho V k key A B C). apply Hf, A.
      + split; [exact Hk|]. rewrite <- (after_clock _ _ Ha1). exact Hset. }
  apply wp_bind, wp_outcome. destruct (pf_parseUrl pf (we_url e)) as [u|] eqn:Eu.
  2: { apply wp_ret, Hrest; [apply result_unparsed, Eu | exact Hc | reflexivity | reflexivity]. }
  eapply wp_mono.
  { apply (execute_full g "webhooks.deliver" (CVerified p) _ (deliverOptions ref) _
      (fun _ id st o w2 => (forall V (k : coll V) key, cname k <> cname CEvidence -> peek k key (w_db w2) = peek k key (w_db w)) /\
         resultOf w c durable (we_url e) ref (settledResult o))); [exact Hc | exact Hhost|].
    intros rid cap q x id st w1 Hi Hc1 Hl1 _ _ Hch. pose proof (changed_hit _ _ _ _ _ Hch) as Hrow.
    pose proof (is_admitted _ _ _ _ _ _ _ _ Hi) as (_ & _ & [= <-] & _).
    assert (issuedHere c durable x) as Hx by (exists p; do 3 eexists; split; [apply Has | exact Hi]).
    assert (during w c w1) as Hdur
      by (split; [after_tac | intros V k key A _ _; exact (proj2 (evidenceOnly_changed _ _ _ _ Hl1 Hch) V k key A)]).
    eapply wp_mono; [apply (sendDelivery_spec e c durable ref x id _ w w1 Hcust Hplat Hc1 Hrow Hdur Hx)|].
    intros o w2 (Hc2 & Ha2 & Hd2 & Hr). rewrite Hd2. split; [exact Hc2|]. split; [exact Ha2|]. split; [exact Hrow|].
    split; [discriminate|].
    split; [|exact Hr]. exact (proj2 (evidenceOnly_changed _ _ _ _ Hl1 Hch)). }
  intros o w1 (Hc1 & Ha1 & [(err & -> & Href & Hall)|(rid & cap & q & x & id & st & w2 & row & _ & (Hf & Hr) & _ & Hl2 & Hch)]).
  - apply wp_ret, Hrest; [exact (result_refused _ _ _ _ _ _ _ _ _ _ (Has _) Hnow Hall) | exact Hc1 | exact Ha1 | now apply onlyRefusal_frame].
  - assert (forall V (k : coll V) key, cname k <> cname CEvidence -> peek k key (w_db w1) = peek k key (w_db w)) as Hf1.
    { intros V k key A. rewrite (proj2 (evidenceOnly_changed _ _ _ _ Hl2 Hch) V k key A). apply Hf, A. }
    destruct o as [r|err]; [|apply wp_ret]; apply Hrest; assumption.
Qed.

(** ** Emitting *)

(** A delivery as [emitWebhookEvent] queues it. *)
Definition queued (tenantId : string) (input : EmitWebhookEventInput) (durable : DurablePrincipal) (d : WebhookDelivery) : Prop :=
  wd_tenantId d = tenantId /\ wd_eventType d = em_type input /\ wd_payload d = em_payload input /\
  wd_status d = WPending /\ wd_attemptCount d = 0 /\ wd_principal d = Some durable.

Lemma queueDeliveries_spec tenantId eventId createdAt input durable matching w :
  calm w ->
  wp (queueDeliveries tenantId eventId createdAt input durable matching)
    (fun o w' => exists ds, o = Ok ds /\ kept w w' /\ map wd_endpointId ds = map we_id matching /\
       Forall (fun d => queued tenantId input durable d /\
                exists m, (w_fresh w <= m < w_fresh w')%nat /\ wd_id d = w_uuid w m) ds /\
       NoDup (map wd_id ds)) w.
Proof.
  revert w. induction matching as [|e rest IH]; intros w Hc; cbn [queueDeliveries].
  - apply wp_ret. exists []. split; [reflexivity|]. split; [now apply kept_refl|]. split; [reflexivity|]. split; constructor.
  - apply wp_bind. unfold wp at 1, randomUUID. cbn [fst snd]. set (w1 := w <| w_fresh := S (w_fresh w) |>).
    assert (kept w w1) as Hk1 by (apply kept_ctl; [exact Hc | reflexivity | reflexivity | later_ctl]).
    apply wp_bind. eapply wp_mono; [apply IH, Hk1|].
    intros o w2 (ds & -> & Hk2 & He & Hall & Hnd). apply wp_ret. eexists. split; [reflexivity|].
    pose proof (proj1 (proj2 Hk2)) as (_ & _ & _ & Hf & _).
    split; [eapply kept_trans; eassumption|]. split; [cbn; now rewrite He|].
    rewrite Forall_forall in Hall.
    split.
    + constructor; [split; [unfold queued; cbn; auto 10 | exists (w_fresh w); cbn in *; split; [lia | reflexivity]]|].
      rewrite Forall_forall. intros d Hd. destruct (Hall d Hd) as [Hq (m & Hm & E)].
      split; [exact Hq|]. exists m. split; [cbn in *; lia | exact E].
    + cbn. constructor; [|exact Hnd]. rewrite list_elem_of_In, in_map_iff. intros (d & E & Hd).
      destruct (Hall d) as [_ (m & Hm & E')]; [now apply list_elem_of_In|]. rewrite E' in E.
      change (w_uuid w1 m) with (w_uuid w m) in E. destruct Hc as [(_ & _ & Hi & _) _]. apply Hi in E.
      cbn in *. lia.
Qed.

(** Only the audit log grew. *)
Definition onlyAudit (db db' : DB) : Prop :=
  forall V (c : coll V) k, cname c <> cname CHookAudit -> peek c k db' = peek c k db.

Lemma auditQueued_spec tenantId principalId l w :
  calm w ->
  wp (auditQueued tenantId principalId l) (fun o w' => o = Ok tt /\ calm w' /\ later w w' /\ onlyAudit (w_db w) (w_db w')) w.
Proof.
  revert w. induction l as [|d l IH]; intros w Hc; cbn [auditQueued].
  - apply wp_ret. split; [reflexivity|]. split; [exact Hc|]. split; [reflexivity | intros V c k _; reflexivity].
  - apply wp_bind, wp_hookAudit; [exact Hc|]. intros w1 Hc1 Hl1 Ha.
    eapply wp_mono; [apply IH, Hc1|]. intros o w2 (-> & Hc2 & Hl2 & Ho). split; [reflexivity|]. split; [exact Hc2|].
    split; [later_tac|]. intros V c k Hne. rewrite (Ho V c k Hne). apply (hookAudited_frame _ _ _ _ _ Ha Hne).
Qed.

(** All deliveries at once, each under an identifier of its own. *)
Lemma wd_createMultiple_spec ds w n0 :
  calm w -> NoDup (map wd_id ds) -> (n0 <= w_fresh w)%nat ->
  (forall d, d ∈ ds -> exists m, (n0 <= m < w_fresh w)%nat /\ wd_id d = w_uuid w m) ->
  (forall m, (n0 <= m)%nat -> forall V (c : coll V), peek c (w_uuid w m) (w_db w) = None) ->
  wp (wd_createMultiple ds) (fun o w' => o = Ok tt /\ calm w' /\ later w w' /\
    (forall d, d ∈ ds -> peek CDeliveries (wd_id d) (w_db w') = Some d) /\
    (forall V (c : coll V) k, cname c <> cname CDeliveries \/ (forall d, d ∈ ds -> k <> wd_id d) ->
       peek c k (w_db w') = peek c k (w_db w))) w.
Proof.
  intros Hc Hnd Hn Hids Hfree. unfold wd_createMultiple. destruct ds as [|d0 ds0].
  { apply wp_ret. split; [reflexivity|]. split; [exact Hc|]. split; [reflexivity|].
    split; [intros d Hd; apply elem_of_nil in Hd; destruct Hd | reflexivity]. }
  set (ds := d0 :: ds0) in *. clearbody ds. clear d0 ds0.
  assert (map txKey (map (fun d => TxPut CDeliveries (wd_id d) true None d) ds)
    = map (fun id => (cname CDeliveries, id)) (map wd_id ds)) as Hkeys by (rewrite !map_map; reflexivity).
  apply wpc_transaction.
  - exact Hc.
  - rewrite Hkeys. apply (NoDup_fmap_2_strong (fun id => (cname CDeliveries, id))); [congruence | exact Hnd].
  - rewrite Forall_forall. intros o Ho%list_elem_of_In. apply in_map_iff in Ho as (d & <- & Hd%list_elem_of_In).
    cbn. destruct (Hids d Hd) as (m & Hm & ->). now rewrite Hfree by lia.
  - intros c k n Hin Hle E. rewrite Hkeys, list_elem_of_In in Hin. apply in_map_iff in Hin as (id & [= <- <-] & Hin).
    apply in_map_iff in Hin as (d & <- & Hd%list_elem_of_In). destruct (Hids d Hd) as (m & Hm & E').
    rewrite E' in E. destruct Hc as [(_ & _ & Hi & _) _]. apply Hi in E. lia.
  - intros w' Hc' Hl' Hdone Hfr. split; [reflexivity|]. split; [exact Hc'|]. split; [exact Hl'|]. split.
    + intros d Hd. rewrite Forall_forall in Hdone.
      apply (Hdone (TxPut CDeliveries (wd_id d) true None d)), list_elem_of_In, in_map_iff.
      exists d. split; [reflexivity | now apply list_elem_of_In].
    + intros V c k Hk. apply Hfr. rewrite Hkeys, list_elem_of_In, in_map_iff. intros (id & [= E1 E2] & Hin).
      subst id. apply in_map_iff in Hin as (d & E & Hd%list_elem_of_In).
      destruct Hk as [Hk|Hk]; [now apply Hk | exact (Hk d Hd (eq_sym E))].
Qed.

(** The effect of an emission: one delivery for each endpoint of the tenant
    that is enabled, of this application and registered for the event. *)
Definition subscribed (application : string) (tenantId : string) (type : string) (e : WebhookEndpoint) : bool :=
  String.eqb (we_tenantId e) tenantId
  && (oeqb (we_applicationId e) (Some application) && negb (present (we_disabledAt e)) && existsb (String.eqb type) (we_events e)).

Definition emission (application tenantId : string) (input : EmitWebhookEventInput) (durable : DurablePrincipal)
  (db db' : DB) (ds : list WebhookDelivery) : Prop :=
  exists endpoints, enumerates CEndpoints (subscribed application tenantId (em_type input)) db endpoints /\
    map wd_endpointId ds = map we_id endpoints /\
    Forall (fun d => queued tenantId input durable d /\ peek CDeliveries (wd_id d) db = None /\
              peek CDeliveries (wd_id d) db' = Some d) ds.

(** Outside evidence, audit and new deliveries nothing changed. *)
Definition onlyNew (db db' : DB) : Prop :=
  forall V (c : coll V) k, cname c <> cname CEvidence -> cname c <> cname CHookAudit ->
    (cname c = cname CDeliveries -> peek c k db <> None) -> peek c k db' = peek c k db.

Lemma emitEffect_spec application tenantId input principalId durable w :
  calm w ->
  wp (endpoints ← we_list tenantId;
      let matching := List.filter (receivesEvent application (em_type input)) endpoints in
      match matching with
      | [] => mret []
      | _ =>
          eventId ← randomUUID;
          createdAt ← nowIso;
          deliveries ← queueDeliveries tenantId eventId createdAt input durable matching;
          _ ← wd_createMultiple deliveries;
          _ ← auditQueued tenantId principalId deliveries;
          mret deliveries
      end)
    (fun o w' => exists ds, o = Ok ds /\ calm w' /\ later w w' /\
       emission application tenantId input durable (w_db w) (w_db w') ds /\
       forall V (c : coll V) k, cname c <> cname CHookAudit -> (cname c = cname CDeliveries -> peek c k (w_db w) <> None) ->
         peek c k (w_db w') = peek c k (w_db w)) w.
Proof.
  intros Hc. apply wp_bind, wpc_find; [exact Hc|]. intros l Hl.
  apply (enumerates_filter _ _ (receivesEvent application (em_type input))) in Hl.
  cbv zeta. destruct (List.filter _ l) as [|e0 rest] eqn:Ef.
  - apply wp_ret. exists []. split; [reflexivity|]. split; [exact Hc|]. split; [reflexivity|]. split; [|reflexivity].
    exists []. split; [exact Hl|]. split; [reflexivity | constructor].
  - set (matching := e0 :: rest) in *. clearbody matching. clear e0 rest Ef.
    apply wp_bind, wpc_uuid; [exact Hc|]. intros eventId w1 _ _ Hc1 Hl1 Hd1.
    apply wp_bind, wpc_nowIso; [exact Hc1|]. intros t createdAt w2 _ _ Hc2 Hl2 Hd2.
    apply wp_bind. eapply wp_mono; [apply queueDeliveries_spec, Hc2|].
    intros o w3 (ds & -> & (Hc3 & Hl3 & Hd3) & He & Hall & Hnd). rewrite Forall_forall in Hall.
    assert (w_db w3 = w_db w) as Hd03 by congruence.
    assert (forall m, (w_fresh w2 <= m)%nat -> forall V (c : coll V), peek c (w_uuid w3 m) (w_db w3) = None) as Hfree.
    { intros m Hm V c. destruct Hc2 as [(_ & _ & _ & Hf) _]. rewrite Hd3. destruct Hl3 as (_ & _ & -> & _). now apply Hf. }
    assert (later w w3) as Hl03 by later_tac.
    assert (forall d, d ∈ ds -> peek CDeliveries (wd_id d) (w_db w) = None) as Hnone.
    { intros d Hd. destruct (Hall d Hd) as [_ (m & Hm & E)]. rewrite E, <- Hd03.
      destruct Hl3 as (_ & _ & Hu & _). rewrite <- Hu. apply Hfree. lia. }
    apply wp_bind. eapply wp_mono; [apply (wd_createMultiple_spec ds w3 (w_fresh w2)); [exact Hc3 | exact Hnd | apply Hl3 | | exact Hfree]|].
    { intros d Hd. destruct (Hall d Hd) as [_ (m & Hm & E)]. exists m. split; [exact Hm|].
      destruct Hl3 as (_ & _ & -> & _). exact E. }
    intros o w4 (-> & Hc4 & Hl4 & Hput & Hfr). rewrite Hd03 in Hfr.
    apply wp_bind. eapply wp_mono; [apply auditQueued_spec, Hc4|]. intros o w5 (-> & Hc5 & Hl5 & Hau).
    apply wp_ret. exists ds. split; [reflexivity|]. split; [exact Hc5|]. split; [later_tac|]. split.
    + exists matching. split; [exact Hl|]. split; [exact He|]. rewrite Forall_forall. intros d Hd.
      split; [apply (Hall d Hd)|]. split; [now apply Hnone|]. rewrite Hau by discriminate. now apply Hput.
    + intros V c k Hne Hold. rewrite Hau by exact Hne. apply Hfr.
      destruct (decide (cname c = cname CDeliveries)) as [E|]; [|now left]. right. intros d Hd ->. apply (Hold E).
      destruct c; try discriminate E. now apply Hnone.
Qed.

(** ** Inbound events *)

(** A handler may write, but takes back neither evidence nor accepted events. *)
Definition handlersQuiet : Prop :=
  forall provider handler, mapGet (hs_handlers s) provider = Some handler ->
  forall input w, calm w -> wp (handler input) (fun _ w' => calm w' /\ after w w' /\
    forall V (c : coll V) k x, cname c = cname CEvidence \/ cname c = cname CInbound ->
      peek c k (w_db w) = Some x -> peek c k (w_db w') = Some x) w.

(** The identity of an event is no identifier the service draws. *)
Definition keyFree (k : string) w : Prop := forall n, w_uuid w n <> k.

(** Accepting an event: recorded before, refused and nothing changed;
    otherwise recorded. *)
Lemma ib_accept_spec (r : InboundRecord) w :
  calm w -> keyFree (ib_id r) w ->
  wp (ib_accept r) (fun o w' => calm w' /\ later w w' /\
    ((exists old, peek CInbound (ib_id r) (w_db w) = Some old /\ o = Ok false /\ w_db w' = w_db w) \/
     (peek CInbound (ib_id r) (w_db w) = None /\ o = Ok true /\
      changed CInbound (ib_id r) (Some r) (w_db w) (w_db w')))) w.
Proof.
  intros Hc Hk. unfold ib_accept. apply wp_tryCatch, wp_bind.
  destruct (peek CInbound (ib_id r) (w_db w)) as [old|] eqn:Eo.
  - eapply wp_create_conflict; [apply calm_quiet, Hc | exact Eo|]. intros m. cbn [isConditionalConflict]. apply wp_ret.
    split; [exact Hc|]. split; [reflexivity|]. left. eauto.
  - eapply wp_create; [apply calm_quiet, Hc | exact Eo | intros n _; apply Hk|]. intros db' Hch Hq. apply wp_ret.
    split; [now apply calm_db|]. split; [later_ctl|]. right. auto.
Qed.

Lemma acceptInbound_spec i p eventId timestamp signature rawBody sentAt x id row context w :
  custodyQuiet -> calm w -> peek CEvidence id (w_db w) = Some row ->
  let k := inboundId pf (wi_id i) eventId in
  keyFree k w -> (peek CInbound k (w_db w) <> None \/ handlersQuiet) ->
  wp (acceptInbound pf s i p eventId timestamp signature rawBody sentAt context
        (toolsFor g x (hookOptions (Some (wi_provider i)) (Some (wi_signingCredentialRef i))) id))
    (fun o w' => calm w' /\ after w w' /\ peek CEvidence id (w_db w') = Some row /\
       (peek CInbound k (w_db w) <> None -> w_db w' = w_db w /\ exists e, o = Throw e) /\
       ((exists res, o = Ok res) -> peek CInbound k (w_db w') <> None)) w.
Proof.
  intros Hcust Hc Hrow k Hk Hh. unfold acceptInbound. apply wp_bind. cbn [toolsFor t_withCredential]. apply wp_bind.
  eapply wp_noteRef; [exact Hc | exact Hrow|]. intros w1 Hc1 Ha1 Hd1 _.
  eapply wp_mono.
  { apply wp_withCredential; [exact Hcust | exact Hc1|]. intros secret w3 Hc3.
    unfold mbind, M_bind, ofOutcome. destruct (signingSecretValue _); now apply kept_refl. }
  intros o w2 ((Hc2 & Hl2 & Hd2) & _). rewrite Hd1 in Hd2. rewrite <- Hd2 in Hrow, Hh |- *.
  assert (after w w2) as Ha2 by (transitivity w1; [exact Ha1 | after_tac]).
  assert (forall (e : exn) w3, calm w3 -> after w w3 -> w_db w3 = w_db w2 ->
    calm w3 /\ after w w3 /\ peek CEvidence id (w_db w3) = Some row /\
    (peek CInbound k (w_db w2) <> None -> w_db w3 = w_db w2 /\ exists e0, @Throw InboundWebhookResult e = Throw e0) /\
    ((exists res, @Throw InboundWebhookResult e = Ok res) -> peek CInbound k (w_db w3) <> None)) as Hno.
  { intros e w3 Hc3 Ha3 Hd3. split; [exact Hc3|]. split; [exact Ha3|]. split; [rewrite Hd3; exact Hrow|].
    split; [eauto | intros (res & [=])]. }
  destruct o as [valid|e]; [|now apply Hno]. destruct (negb valid); [now apply Hno|].
  apply wp_bind. unfold isoString. apply wp_outcome. destruct (toISO sentAt) as [st|] eqn:Est; [|now apply Hno].
  apply wp_bind, wpc_nowIso; [exact Hc2|]. intros t acceptedAt w3 _ _ Hc3 Hl3 Hd3.
  apply wp_bind. eapply wp_mono; [apply ib_accept_spec; [exact Hc3|]|].
  { cbn [ib_id]. intros n E. destruct Hl3 as (_ & _ & Hu & _). destruct Ha2 as (_ & _ & Hu2 & _).
    rewrite Hu, Hu2 in E. exact (Hk n E). }
  cbn [ib_id]. intros o w4 (Hc4 & Hl4 & Hacc). rewrite Hd3 in Hacc. assert (after w w4) as Ha4 by (transitivity w2; [exact Ha2 | after_tac]).
  destruct Hacc as [(old & Hold & -> & Hd4)|(Hnone & -> & Hch)]; cbn [negb].
  { apply wp_throw, Hno; [exact Hc4 | exact Ha4 | congruence]. }
  fold k in Hnone. destruct Hh as [Hh|Hh]; [contradiction|].
  assert (forall o w5, calm w5 -> after w w5 -> (forall V (c : coll V) key y, cname c = cname CEvidence \/ cname c = cname CInbound ->
      peek c key (w_db w4) = Some y -> peek c key (w_db w5) = Some y) ->
    calm w5 /\ after w w5 /\ peek CEvidence id (w_db w5) = Some row /\
    (peek CInbound k (w_db w2) <> None -> w_db w5 = w_db w2 /\ exists e0, o = Throw e0) /\
    ((exists res : InboundWebhookResult, o = Ok res) -> peek CInbound k (w_db w5) <> None)) as Hyes.
  { intros o w5 Hc5 Ha5 Hkeep. split; [exact Hc5|]. split; [exact Ha5|]. split.
    - apply Hkeep; [now left|]. rewrite (changed_frame _ _ _ _ _ _ _ Hch) by discriminate. exact Hrow.
    - split; [intros Hx; contradiction|]. intros _. erewrite Hkeep; [discriminate | now right | exact (changed_hit _ _ _ _ _ Hch)]. }
  apply wp_bind, wp_outcome. destruct (pf_jsonParse pf rawBody) as [payload|]; [|apply Hyes; auto].
  destruct (mapGet (hs_handlers s) (wi_provider i)) as [handler|] eqn:Eh; [|apply wp_ret, Hyes; auto].
  apply wp_bind, wp_outcome. apply wp_bind. eapply wp_mono; [apply (Hh _ _ Eh), Hc4|].
  intros o w5 (Hc5 & Ha5 & Hkeep).
  assert (after w w5) as Ha05 by (etransitivity; eassumption).
  destruct o; [apply wp_ret|]; now apply Hyes.
Qed.
End facts.

(** A delivery whose attempt never ended (its process died) stays
    [delivering]; delivering it again reports success and does nothing. *)
Lemma stuck_delivery {DB} `{FeltDBLaws DB} (pf : WebhookPlatform DB) s d (w : World DB) :
  quiet w -> peek CDeliveries (wd_id d) (w_db w) = Some d -> wd_status d = WDelivering ->
  deliverWebhook pf s (wd_tenantId d) (wd_id d) w = (w, Ok (mkResult true (Some 200) None None)).
Proof.
  intros Hq Hd Hs. unfold deliverWebhook, mbind, M_bind, wd_get, get, dbop.
  rewrite (interfere_quiet w Hq), law_get by apply Hq. cbn [fst snd]. rewrite Hd, String.eqb_refl. cbn [negb].
  rewrite Hs. cbn. now rewrite world_db_eta.
Qed.
