(* ===== verification/Files.v ===== *)
(** * Files: file metadata records

    [files/service.ts] and [storage/files.ts].  The host collation
    ([localeCompare]) is a parameter of the listing. *)

From S2P Require Import Prelude JsString JsTime Errors Models Store Principal Manifest Evidence Gateway.
From Stdlib Require Import ZArith Lia Ascii.
Local Open Scope string_scope.
Local Open Scope Z_scope.

(** ** [storage/files.ts] *)

Section store.
Context {DB : Type} `{FeltDB DB}.

Definition fs_create (item : File) : M DB unit := transaction [TxPut CFiles (f_id item) true None item].

Definition fs_get (tenantId id : string) : M DB (option File) :=
  item ← get CFiles id;
  mret match item with Some f => if String.eqb (f_tenantId f) tenantId then Some f else None | None => None end.

Definition fs_list (tenantId : string) : M DB (list File) := find CFiles (fun f => String.eqb (f_tenantId f) tenantId).

Definition fs_update (id : string) (expectedVersion : Z) (updates : File -> File) : M DB (option File) :=
  current ← get CFiles id;
  match current with
  | None => mret None
  | Some c => updateIfVersion CFiles id expectedVersion (fun _ => updates c)
  end.

Definition fa_record (e : FileAuditEvent) : M DB unit := insert CFileAudit (fa_id e) e.
End store.

(** ** Inputs *)

(** A property of an input object: missing, present as [undefined], or given. *)
Inductive Slot (A : Type) := NoKey | UndefinedKey | Has (a : A).
Arguments NoKey {A}. Arguments UndefinedKey {A}. Arguments Has {A} a.

Definition given {A} (s : Slot A) : option A := match s with Has a => Some a | _ => None end.
Definition hasKey {A} (s : Slot A) : bool := match s with NoKey => false | _ => true end.

Record CreateFileInput := mkCreateFile {
  cf_tenantId : option string;
  cf_owner : option string;
  cf_name : string;
  cf_contentType : option string;
  cf_size : jsval;
  cf_checksum : option string;
  cf_storageKey : string;
  cf_metadata : jsval }.

Record UpdateFileInput := mkUpdateFile {
  uf_tenantId : option string;
  uf_id : jsval;
  uf_name : Slot string;
  uf_contentType : Slot string;
  uf_size : Slot jsval;
  uf_checksum : Slot string;
  uf_storageKey : Slot string;
  uf_metadata : Slot jsval }.

Record FileListOptions := mkFileListOptions { fl_owner : option string }.

(** ** Errors and validation *)

Definition FileValidationError (message : string) : exn := JsError "FileValidationError" message.
Definition FileNotFoundError : exn := JsError "FileNotFoundError" "File not found".

(** [Number.isInteger(size) && size >= 0] *)
Definition sizeOf (v : jsval) : option Z := match v with JInt n => if 0 <=? n then Some n else None | _ => None end.

(** A record of metadata: an object that is no array. *)
Definition metadataOk (v : jsval) : bool := match v with JUndef | JObj _ => true | _ => false end.

Definition validateCreate (input : CreateFileInput) (tenantId owner : string) : outcome Z :=
  if blank tenantId then Throw (FileValidationError "tenantId is required")
  else if blank owner then Throw (FileValidationError "owner is required")
  else if blank (cf_name input) then Throw (FileValidationError "name is required")
  else if blank (cf_storageKey input) then Throw (FileValidationError "storageKey is required")
  else match sizeOf (cf_size input) with
       | None => Throw (FileValidationError "size must be a non-negative integer")
       | Some size => if metadataOk (cf_metadata input) then Ok size else Throw (FileValidationError "metadata must be an object")
       end.

(** At least one mutable property is a key of the input. *)
Definition providesField (input : UpdateFileInput) : bool :=
  hasKey (uf_name input) || hasKey (uf_contentType input) || hasKey (uf_size input) || hasKey (uf_checksum input)
  || hasKey (uf_storageKey input) || hasKey (uf_metadata input).

(** The identifier, once the input is valid. *)
Definition validateUpdate (input : UpdateFileInput) (tenantId : string) : outcome string :=
  match uf_id input with
  | JStr id =>
      if blank tenantId then Throw (FileValidationError "tenantId is required")
      else if blank id then Throw (FileValidationError "id is required")
      else if negb (providesField input) then Throw (FileValidationError "At least one file property must be updated")
      else if match given (uf_name input) with Some n => blank n | None => false end
      then Throw (FileValidationError "name must be a non-empty string")
      else if match given (uf_storageKey input) with Some k => blank k | None => false end
      then Throw (FileValidationError "storageKey must be a non-empty string")
      else if match given (uf_size input) with
              | Some JUndef | None => false
              | Some v => match sizeOf v with Some _ => false | None => true end
              end
      then Throw (FileValidationError "size must be a non-negative integer")
      else if match given (uf_metadata input) with Some v => negb (metadataOk v) | None => false end
      then Throw (FileValidationError "metadata must be an object")
      else Ok id
  | _ => Throw (FileValidationError "id is required")
  end.

(** [if (input[field] !== undefined) changes[field] = input[field]] *)
Definition setGiven {A} (slot : Slot A) (set : A -> File -> File) (f : File) : File :=
  match given slot with Some a => set a f | None => f end.

(** [mutableFields]: the given fields, and no others. *)
Definition updateFields (input : UpdateFileInput) (f : File) : File :=
  setGiven (uf_metadata input) (fun v f => match v with JUndef => f | v => f <| f_metadata := Some v |> end)
  (setGiven (uf_storageKey input) (fun k f => f <| f_storageKey := k |>)
  (setGiven (uf_checksum input) (fun c f => f <| f_checksum := Some c |>)
  (setGiven (uf_size input) (fun v f => match sizeOf v with Some n => f <| f_size := n |> | None => f end)
  (setGiven (uf_contentType input) (fun t f => f <| f_contentType := Some t |>)
  (setGiven (uf_name input) (fun n f => f <| f_name := n |>) f))))).

Definition metadataField (v : jsval) : option jsval := match v with JUndef => None | v => Some v end.

Definition fileResource (f : File) : ServiceResource :=
  mkResource "file" (f_tenantId f) (Some (f_id f)) (Some {["owner" := f_owner f]}).

Definition fileOptions : ExecuteOptions := mkOptions "files" None None None.

(** ** [files/service.ts] *)

Section service.
Context {DB : Type} `{FeltDB DB}.
Variable authority : option (ServiceGateway DB).
(** [a.localeCompare(b) <= 0] *)
Variable localeLe : string -> string -> bool.

Definition fileGateway : M DB (ServiceGateway DB) :=
  match authority with
  | Some g => mret g
  | None => throw (ServiceAuthorityError AUTHORITY_UNAVAILABLE "Files have no AuthBoundry authority configured" noDetails)
  end.

Definition ownsFile (g : ServiceGateway DB) (f : File) : bool := oeqb (f_applicationId f) (Some (g_application g)).

Definition fileAudit (type : string) (item : File) (principal : VerifiedPrincipal) : M DB unit :=
  id ← randomUUID;
  timestamp ← nowIso;
  fa_record (mkFileAudit id type (f_id item) (f_tenantId item) (f_owner item) (vp_principalId principal) timestamp).

Definition createFile (input : CreateFileInput) (caller : Caller) : M DB File :=
  principal ← ofOutcome (requireVerifiedPrincipal caller);
  tenantId ← ofOutcome (resolveTenant (ofOption (cf_tenantId input)) principal);
  let owner := orElse (cf_owner input) (vp_principalId principal) in
  size ← ofOutcome (validateCreate input tenantId owner);
  g ← fileGateway;
  execute g "files.write" (CVerified principal) (mkResource "file" tenantId None (Some {["owner" := owner]})) fileOptions
    (fun _ _ =>
       now ← nowIso;
       id ← randomUUID;
       let item := mkFile id tenantId (Some (g_application g)) owner (cf_name input) (cf_contentType input) size
             (cf_checksum input) (cf_storageKey input) (metadataField (cf_metadata input)) now (Some now) None 1 in
       _ ← fs_create item;
       _ ← fileAudit "file.created" item principal;
       mret item).

(** A file that is there for this application: stored, not deleted, its own. *)
Definition liveFile (tenantId id : string) : M DB (option (ServiceGateway DB * File)) :=
  item ← fs_get tenantId id;
  match item with
  | None => mret None
  | Some f =>
      if present (f_deletedAt f) then mret None
      else g ← fileGateway; mret (if ownsFile g f then Some (g, f) else None)
  end.

Definition getFile (tenantId id : string) (caller : Caller) : M DB File :=
  principal ← ofOutcome (requireVerifiedPrincipal caller);
  tenant ← ofOutcome (resolveTenant (JStr tenantId) principal);
  found ← liveFile tenant id;
  match found with
  | None => throw FileNotFoundError
  | Some (g, item) => execute g "files.read" (CVerified principal) (fileResource item) fileOptions (fun _ _ => mret item)
  end.

(** Newest first; ties by id, descending. *)
Definition fileLe (a b : File) : bool :=
  localeLe (f_createdAt b) (f_createdAt a)
  && (negb (localeLe (f_createdAt a) (f_createdAt b)) || localeLe (f_id b) (f_id a)).

Definition listed (g : ServiceGateway DB) (options : FileListOptions) (f : File) : bool :=
  negb (present (f_deletedAt f)) && ownsFile g f
  && match ifPresent (fl_owner options) with Some o => String.eqb (f_owner f) o | None => true end.

Definition listFiles (tenantId : string) (caller : Caller) (options : FileListOptions) : M DB (list File) :=
  principal ← ofOutcome (requireVerifiedPrincipal caller);
  tenant ← ofOutcome (resolveTenant (JStr tenantId) principal);
  g ← fileGateway;
  execute g "files.read" (CVerified principal)
    (mkResource "file" tenant None (Some {["owner" := orElse (fl_owner options) "*"]})) fileOptions
    (fun _ _ =>
       items ← fs_list tenant;
       mret (sortBy fileLe (List.filter (listed g options) items))).

Definition modifiedConcurrently : exn := FileValidationError "File was modified concurrently".

Definition updateFile (input : UpdateFileInput) (caller : Caller) : M DB File :=
  principal ← ofOutcome (requireVerifiedPrincipal caller);
  tenantId ← ofOutcome (resolveTenant (ofOption (uf_tenantId input)) principal);
  id ← ofOutcome (validateUpdate input tenantId);
  found ← liveFile tenantId id;
  match found with
  | None => throw FileNotFoundError
  | Some (g, current) =>
      execute g "files.write" (CVerified principal) (fileResource current) fileOptions
        (fun _ _ =>
           now ← nowIso;
           updated ← fs_update (f_id current) (f_version current)
                       (fun f => updateFields input f <| f_updatedAt := Some now |>);
           match updated with
           | None => throw modifiedConcurrently
           | Some u => _ ← fileAudit "file.updated" u principal; mret u
           end)
  end.

Definition deleteFile (tenantId id : string) (caller : Caller) : M DB unit :=
  principal ← ofOutcome (requireVerifiedPrincipal caller);
  tenant ← ofOutcome (resolveTenant (JStr tenantId) principal);
  found ← liveFile tenant id;
  match found with
  | None => mret tt
  | Some (g, current) =>
      execute g "files.delete" (CVerified principal) (fileResource current) fileOptions
        (fun _ _ =>
           deletedAt ← nowIso;
           updatedAt ← nowIso;
           updated ← fs_update (f_id current) (f_version current)
                       (fun f => f <| f_deletedAt := Some deletedAt |> <| f_updatedAt := Some updatedAt |>);
           match updated with
           | None => throw modifiedConcurrently
           | Some u => fileAudit "file.deleted" u principal
           end)
  end.
End service.
