(* ===== verification/Configuration.v ===== *)
(** * Configuration: variables, credential bindings and stored credentials

    [configuration/service.ts], [configuration/storage.ts] and
    [storage/secrets.ts].  The text of an error's stack belongs to the engine
    and is a parameter of [redactValue]. *)

From S2P Require Import Prelude JsString JsTime Errors Models Store Principal Manifest Restrictions Evidence Gateway.
From Stdlib Require Import ZArith Lia Ascii.
Local Open Scope string_scope.
Local Open Scope Z_scope.

(** ** [storage/secrets.ts] *)

Record SecretStoredRecord := mkStoredRecord {
  rs_tenantId : string;
  rs_secretId : string;
  rs_providerRef : string;
  rs_provider : option string;
  rs_kind : option string;
  rs_version : Z;
  rs_storedAt : string;
  rs_principalId : string;
  rs_purpose : string }.

Record SecretFailureRecord := mkFailureRecord {
  rf_tenantId : string;
  rf_secretId : string;
  rf_provider : option string;
  rf_principalId : string;
  rf_purpose : string;
  rf_reason : string;
  rf_timestamp : string }.

(** [{ ...existing, ...(text ? { field: text } : {}) }] *)
Definition overwrite (text old : option string) : option string :=
  match ifPresent text with Some t => Some t | None => old end.

Section metadata.
Context {DB : Type} `{FeltDB DB}.

Definition ofSecret (tenantId secretId : string) (s : Secret) : bool :=
  String.eqb (sm_tenantId s) tenantId && String.eqb (sm_name s) secretId.

Definition activeVersion (secretId : string) (v : SecretVersion) : bool :=
  String.eqb (sn_secretId v) secretId && bool_decide (sn_status v = SActive).

Fixpoint retireVersions (previous : list SecretVersion) : M DB unit :=
  match previous with
  | [] => mret tt
  | v :: rest => _ ← update CSecretVersions (sn_id v) (v <| sn_status := SRetired |>); retireVersions rest
  end.

(** The secret's row, written: the one that is there, or a new one. *)
Definition saveMetadata (input : SecretStoredRecord) (existing : option Secret) : M DB Secret :=
  match existing with
  | Some e =>
      let secret := e <| sm_currentVersion := rs_version input |> <| sm_status := SActive |>
        <| sm_providerRef := rs_providerRef input |> <| sm_provider := overwrite (rs_provider input) (sm_provider e) |>
        <| sm_kind := overwrite (rs_kind input) (sm_kind e) |> in
      _ ← update CSecrets (sm_id e) secret;
      previous ← find CSecretVersions (activeVersion (sm_id e));
      _ ← retireVersions previous;
      mret secret
  | None =>
      id ← randomUUID;
      let secret := mkSecret id (rs_tenantId input) (rs_secretId input) (rs_version input) SActive (rs_providerRef input)
        (ifPresent (rs_provider input)) (ifPresent (rs_kind input)) (rs_storedAt input) (rs_principalId input) in
      _ ← insert CSecrets (sm_id secret) secret;
      mret secret
  end.

Definition recordStored (input : SecretStoredRecord) : M DB bool :=
  found ← find CSecrets (ofSecret (rs_tenantId input) (rs_secretId input));
  secret ← saveMetadata input (head found);
  versionId ← randomUUID;
  _ ← insert CSecretVersions versionId (mkSecretVersion versionId (sm_id secret) (rs_tenantId input) (rs_version input)
        (rs_providerRef input) SActive (rs_storedAt input) (rs_principalId input));
  eventId ← randomUUID;
  _ ← insert CSecretAudit eventId (mkSecretAudit eventId
        (match head found with Some _ => "secret.rotated" | None => "secret.created" end) (sm_id secret)
        (Some (rs_version input)) (rs_tenantId input) (rs_principalId input) (rs_storedAt input) true (rs_purpose input)
        None (ifPresent (rs_provider input)));
  mret (match head found with Some _ => false | None => true end).

Definition recordFailure (input : SecretFailureRecord) : M DB unit :=
  found ← find CSecrets (ofSecret (rf_tenantId input) (rf_secretId input));
  eventId ← randomUUID;
  insert CSecretAudit eventId (mkSecretAudit eventId "secret.failed"
    (match head found with Some e => sm_id e | None => rf_secretId input end) None (rf_tenantId input)
    (rf_principalId input) (rf_timestamp input) false (rf_purpose input) (Some (rf_reason input)) (ifPresent (rf_provider input))).
End metadata.

(** ** [configuration/storage.ts] *)

Definition changedConcurrently : exn := JsError "Error" "Configuration changed concurrently".

Section store.
Context {DB : Type} `{FeltDB DB}.

Definition listVariables (scope : ConfigurationScope) : M DB (list ConfigurationVariable) :=
  find CVariables (fun v => bool_decide (cv_scope v = scope)).

Definition getVariable (scope : ConfigurationScope) (name : string) : M DB (option ConfigurationVariable) :=
  items ← find CVariables (fun v => bool_decide (cv_scope v = scope) && String.eqb (cv_name v) name);
  mret (head items).

Definition saveVariable (item : ConfigurationVariable) (expectedVersion : option Z) : M DB ConfigurationVariable :=
  match expectedVersion with
  | None => _ ← insert CVariables (cv_id item) item; mret item
  | Some v =>
      result ← updateIfVersion CVariables (cv_id item) v (fun _ => item);
      match result with Some r => mret r | None => throw changedConcurrently end
  end.

Definition deleteVariable (item : ConfigurationVariable) : M DB unit := remove CVariables (cv_id item).

Definition listSecrets (scope : ConfigurationScope) : M DB (list ConfigurationSecret) :=
  find CBindings (fun b => bool_decide (cb_scope b = scope)).

Definition getSecret (scope : ConfigurationScope) (name : string) : M DB (option ConfigurationSecret) :=
  items ← find CBindings (fun b => bool_decide (cb_scope b = scope) && String.eqb (cb_name b) name);
  mret (head items).

(** [updateIfVersion] merges the item into the stored row; [dropsValue]: the
    item has an explicit [value: undefined], which deletes that key. *)
Definition saveSecret (item : ConfigurationSecret) (dropsValue : bool) (expectedVersion : option Z) : M DB ConfigurationSecret :=
  match expectedVersion with
  | None => _ ← insert CBindings (cb_id item) item; mret item
  | Some v =>
      result ← updateIfVersion CBindings (cb_id item) v
                 (fun stored => item <| cb_value := match cb_value item with
                                                    | Some x => Some x
                                                    | None => if dropsValue then None else cb_value stored
                                                    end |>);
      match result with Some r => mret r | None => throw changedConcurrently end
  end.

Definition deleteSecret (item : ConfigurationSecret) : M DB unit := remove CBindings (cb_id item).

Definition auditConfiguration (e : ConfigurationAuditEvent) : M DB unit := insert CConfigAudit (ca_id e) e.
End store.

(** ** Views *)

Record ConfigurationVariableView := mkVariableView {
  vv_id : string;
  vv_scope : ConfigurationScope;
  vv_name : string;
  vv_value : string;
  vv_required : bool;
  vv_createdAt : string;
  vv_updatedAt : string;
  vv_createdBy : string }.

Record ConfigurationSecretView := mkSecretView {
  vb_id : string;
  vb_scope : ConfigurationScope;
  vb_name : string;
  vb_credentialRef : string;
  vb_required : bool;
  vb_createdAt : string;
  vb_updatedAt : string;
  vb_createdBy : string }.

Definition variableView (v : ConfigurationVariable) : ConfigurationVariableView :=
  mkVariableView (cv_id v) (cv_scope v) (cv_name v) (cv_value v) (cv_required v) (cv_createdAt v) (cv_updatedAt v) (cv_createdBy v).

(** The value of a legacy row is never returned. *)
Definition secretView (b : ConfigurationSecret) : ConfigurationSecretView :=
  mkSecretView (cb_id b) (cb_scope b) (cb_name b) (cb_credentialRef b) (cb_required b) (cb_createdAt b) (cb_updatedAt b) (cb_createdBy b).

Record ConfigurationDeclaration := mkDeclaration {
  de_name : string;
  de_secret : bool;
  de_required : bool }.

Record ConfigurationList := mkConfigurationList {
  li_variables : list ConfigurationVariableView;
  li_secrets : list ConfigurationSecretView;
  li_declarations : list ConfigurationDeclaration }.

(** ** Inputs

    [si_own] are all own properties of the input, among them the actor
    fields a caller may have added. *)

Record Scope := mkScopeInput {
  si_tenantId : jsval;
  si_applicationId : jsval;
  si_environment : jsval;
  si_own : list (string * jsval) }.

Record VariableInput := mkVariableInput {
  vi_scope : Scope;
  vi_name : jsval;
  vi_required : option bool;
  vi_value : jsval }.

(** [ci_value]: the property [value], which is refused. *)
Record CredentialInput := mkCredentialInput {
  ci_scope : Scope;
  ci_name : jsval;
  ci_required : option bool;
  ci_credentialRef : jsval;
  ci_value : jsval }.

Record CredentialStoreInput := mkStoreInput {
  st_scope : Scope;
  st_ref : jsval;
  st_value : jsval;
  st_provider : jsval;
  st_kind : jsval;
  st_name : jsval;
  st_required : option bool }.

Record CredentialStatusInput := mkStatusInput {
  su_scope : Scope;
  su_ref : jsval;
  su_refs : jsval;
  su_provider : jsval }.

Record CredentialStoreResult := mkStoreResult {
  cr_ref : string;
  cr_version : Z;
  cr_storedAt : string;
  cr_binding : option ConfigurationSecretView }.

Record CredentialStatusView := mkStatusView {
  vs_ref : string;
  vs_status : SecretCustodyStatus }.

Inductive ConfigurationKind := VariableKind | SecretKind.

(** ** Validation *)

Definition ConfigurationValidationError (message : string) : exn := JsError "ConfigurationValidationError" message.

(** [error instanceof ConfigurationValidationError] *)
Definition isValidationError (error : exn) : bool :=
  match error with JsError name _ => String.eqb name "ConfigurationValidationError" | _ => false end.

(** [^[A-Z][A-Z0-9_]*$] *)
Definition isName (s : string) : bool :=
  match s with
  | String c r => isUpper c && all (fun c => isUpper c || isDigit c || Ascii.eqb c "_") r
  | EmptyString => false
  end.

Definition validateName (name : jsval) : outcome string :=
  match name with
  | JStr s => if isName s then Ok s else Throw (ConfigurationValidationError "Name must be an uppercase configuration identifier")
  | _ => Throw (ConfigurationValidationError "Name must be an uppercase configuration identifier")
  end.

(** The name and the value. *)
Definition validateVariable (input : VariableInput) : outcome (string * string) :=
  match validateName (vi_name input) with
  | Throw e => Throw e
  | Ok name =>
      match vi_value input with
      | JStr v => if truthy v then Ok (name, v) else Throw (ConfigurationValidationError "Value is required")
      | _ => Throw (ConfigurationValidationError "Value is required")
      end
  end.

Definition rejectRawSecret (input : CredentialInput) : outcome unit :=
  if isUndef (ci_value input) then Ok tt
  else Throw (ServiceMigrationError ("Secret values are no longer stored in configuration. Register the credential with AuthBoundry and pass credentialRef: " ++ quoted "credential-ref:<id>" ++ ".")).

Definition MAX_CREDENTIAL_VALUE_LENGTH : Z := 65536.

Definition validateCredentialValue (value : jsval) : outcome string :=
  match value with
  | JStr s =>
      if negb (truthy (trim s)) then Throw (invalidRequest "value must not be empty")
      else if MAX_CREDENTIAL_VALUE_LENGTH <? Z.of_nat (String.length s) then
        Throw (invalidRequest ("value must be at most " ++ num MAX_CREDENTIAL_VALUE_LENGTH ++ " characters"))
      else if startsWith (trim s) "credential-ref:" || isCredentialRef (JStr (trim s)) then
        Throw (invalidRequest "value is a credential reference, not credential material. Pass the secret itself as value and the reference as ref, or use credential.attach to bind an existing reference.")
      else Ok s
  | _ => Throw (invalidRequest "value is required and must be a string")
  end.

(** [^[A-Za-z0-9][A-Za-z0-9._:-]{0,63}$] *)
Definition isLabel (s : string) : bool :=
  match s with
  | String c r => isAlnum c && all refChar r && Nat.leb (String.length r) 63
  | EmptyString => false
  end.

Definition optionalLabel (value : jsval) (field : string) : outcome (option string) :=
  match value with
  | JUndef | JNull | JStr EmptyString => Ok None
  | JStr s => if isLabel s then Ok (Some s)
              else Throw (invalidRequest (field ++ " must be a short identifier (letters, digits, . _ : -)"))
  | _ => Throw (invalidRequest (field ++ " must be a short identifier (letters, digits, . _ : -)"))
  end.

Definition failureReason (error : exn) : string :=
  if hasCode DENIED error then "secret_resolution_denied"
  else if hasCode CUSTODY_READ_ONLY error then "secret_unavailable"
  else "internal_error".

Definition environmentOf (v : jsval) : option ConfigurationEnvironment :=
  if isStr v "development" then Some Development
  else if isStr v "staging" then Some Staging
  else if isStr v "production" then Some Production
  else None.

Definition environmentName (e : ConfigurationEnvironment) : string :=
  match e with Development => "development" | Staging => "staging" | Production => "production" end.

(** [environment: input.environment ?? 'production'] *)
Definition inProduction (s : Scope) : Scope :=
  mkScopeInput (si_tenantId s) (si_applicationId s)
    (match si_environment s with JUndef | JNull => JStr "production" | e => e end) (si_own s).

Definition configResource (scope : ConfigurationScope) (name : option string) (type : string) (credentialRef : option string)
  : ServiceResource :=
  mkResource type (sc_tenantId scope)
    (match ifPresent name with Some n => Some (environmentName (sc_environment scope) ++ "/" ++ n) | None => None end)
    (Some (match ifPresent credentialRef with
           | Some ref => <["credentialRef" := ref]> {["applicationId" := sc_applicationId scope; "environment" := environmentName (sc_environment scope)]}
           | None => {["applicationId" := sc_applicationId scope; "environment" := environmentName (sc_environment scope)]}
           end)).

Definition resolveConfigurationOwnership (application : string) (scope : Scope) (caller : Caller)
  : outcome (VerifiedPrincipal * ConfigurationScope) :=
  match requireVerifiedPrincipal caller with
  | Throw e => Throw e
  | Ok principal =>
      match rejectCallerActor (si_own scope) principal with
      | Throw e => Throw e
      | Ok _ =>
          match resolveTenant (si_tenantId scope) principal with
          | Throw e => Throw e
          | Ok tenantId =>
              if negb (isUndef (si_applicationId scope)) && negb (isStr (si_applicationId scope) application) then
                Throw (ServiceAuthorityError DENIED "Configuration belongs to a different application" (reasonOnly "application_mismatch"))
              else match environmentOf (si_environment scope) with
                   | Some environment => Ok (principal, mkScope tenantId application environment)
                   | None => Throw (ConfigurationValidationError "Invalid environment")
                   end
          end
      end
  end.

(** The errors of [credential.store], freed of the value. *)
Definition redactValue (stackOf : exn -> option string) (error : exn) (value : jsval) : exn :=
  match value with
  | JStr (String _ _ as v) =>
      let leaks text := match text with Some t => includes t v | None => false end in
      match error with
      | Thrown repr => if includes repr v then ServiceAuthorityError AUTHORITY_UNAVAILABLE "credential.store failed" noDetails else error
      | _ =>
          let reason := match error with ServiceAuthorityError _ _ d => d_reason d | _ => None end in
          if negb (leaks (Some (errorMessage error))) && negb (leaks (stackOf error)) && negb (leaks reason) then error
          else match error with
               | ServiceAuthorityError code _ d =>
                   ServiceAuthorityError code ("credential.store failed (" ++ codeName code ++ ")")
                     (mkDetails (ifPresent (d_capability d)) (ifPresent (d_decisionId d)) None)
               | _ =>
                   if isValidationError error then ConfigurationValidationError "credential.store input is invalid"
                   else ServiceAuthorityError AUTHORITY_UNAVAILABLE "credential.store failed" noDetails
               end
      end
  | _ => error
  end.

(** ** [configuration/service.ts] *)

Definition configOptions (provider credentialRef : option string) : ExecuteOptions :=
  mkOptions "configuration" provider credentialRef None.

Definition MAX_STATUS_REFS : nat := 100.

(** [input.name !== undefined && validateName(input.name)] *)
Definition optionalName (name : jsval) : outcome (option string) :=
  if isUndef name then Ok None
  else match validateName name with Ok s => Ok (Some s) | Throw e => Throw e end.

(** [raw.map((ref, index) => requireCredentialRef(ref, ...))] *)
Fixpoint requireRefs (indexed : bool) (index : Z) (l : list jsval) : outcome (list string) :=
  match l with
  | [] => Ok []
  | v :: rest =>
      match requireCredentialRef v (if indexed then "refs[" ++ num index ++ "]" else "ref") with
      | Throw e => Throw e
      | Ok ref => match requireRefs indexed (index + 1) rest with Ok refs => Ok (ref :: refs) | Throw e => Throw e end
      end
  end.

Definition statusRefs (input : CredentialStatusInput) : outcome (list string) :=
  let raw := if negb (isUndef (su_refs input)) then su_refs input
             else if negb (isUndef (su_ref input)) then JArr [su_ref input] else JUndef in
  match raw with
  | JArr [] => Throw (invalidRequest "credential.status needs ref or a non-empty refs list")
  | JArr l =>
      if Nat.ltb MAX_STATUS_REFS (List.length l) then
        Throw (invalidRequest ("credential.status accepts at most " ++ num (Z.of_nat MAX_STATUS_REFS) ++ " references"))
      else match requireRefs (negb (isUndef (su_refs input))) 0 l with
           | Ok refs => Ok (dedupe [] refs)
           | Throw e => Throw e
           end
  | _ => Throw (invalidRequest "credential.status needs ref or a non-empty refs list")
  end.

Section service.
Context {DB : Type} `{FeltDB DB}.
Variable authority : option (ServiceGateway DB).
Variable declarations : list ConfigurationDeclaration.
(** Whether the service was given a [SecretMetadataStore]. *)
Variable secretMetadata : bool.
Variable stackOf : exn -> option string.

Definition configGateway : outcome (ServiceGateway DB) :=
  match authority with
  | Some g => Ok g
  | None => Throw (ServiceAuthorityError AUTHORITY_UNAVAILABLE "Configuration has no AuthBoundry authority configured" noDetails)
  end.

Definition own (scope : Scope) (caller : Caller) : outcome (ServiceGateway DB * VerifiedPrincipal * ConfigurationScope) :=
  match configGateway with
  | Throw e => Throw e
  | Ok g => match resolveConfigurationOwnership (g_application g) scope caller with
            | Ok (principal, owned) => Ok (g, principal, owned)
            | Throw e => Throw e
            end
  end.

Definition recordConfiguration (type : string) (scope : ConfigurationScope) (name : string) (secret : bool)
  (actor operation : string) (configured : bool) : M DB unit :=
  id ← randomUUID;
  timestamp ← nowIso;
  auditConfiguration (mkConfigAudit id type scope name secret actor timestamp operation configured).

Definition listConfiguration (scope : Scope) (caller : Caller) : M DB ConfigurationList :=
  '(g, principal, owned) ← ofOutcome (own scope caller);
  execute g "configuration.read" (CVerified principal) (configResource owned None "configuration" None) (configOptions None None)
    (fun _ _ =>
       variables ← listVariables owned;
       secrets ← listSecrets owned;
       mret (mkConfigurationList (map variableView variables) (map secretView secrets) declarations)).

Definition alreadyExists (name : string) : exn := ConfigurationValidationError ("Configuration " ++ name ++ " already exists").
Definition notFound (name : string) : exn := ConfigurationValidationError ("Configuration " ++ name ++ " not found").

Definition createVariable (input : VariableInput) (caller : Caller) : M DB ConfigurationVariableView :=
  '(g, principal, owned) ← ofOutcome (own (vi_scope input) caller);
  '(name, value) ← ofOutcome (validateVariable input);
  execute g "configuration.write" (CVerified principal) (configResource owned (Some name) "configuration" None) (configOptions None None)
    (fun _ _ =>
       current ← getVariable owned name;
       secret ← getSecret owned name;
       match current, secret with
       | None, None =>
           timestamp ← nowIso;
           id ← randomUUID;
           let item := mkVariable id owned name value (orElse (vi_required input) false) timestamp timestamp
                         (vp_principalId principal) 1 in
           _ ← saveVariable item None;
           _ ← recordConfiguration "configuration.created" owned name false (vp_principalId principal) "created" true;
           mret (variableView item)
       | _, _ => throw (alreadyExists name)
       end).

Definition updateVariable (input : VariableInput) (caller : Caller) : M DB ConfigurationVariableView :=
  '(g, principal, owned) ← ofOutcome (own (vi_scope input) caller);
  '(name, value) ← ofOutcome (validateVariable input);
  execute g "configuration.write" (CVerified principal) (configResource owned (Some name) "configuration" None) (configOptions None None)
    (fun _ _ =>
       current ← getVariable owned name;
       match current with
       | None => throw (notFound name)
       | Some c =>
           updatedAt ← nowIso;
           let item := c <| cv_value := value |> <| cv_required := orElse (vi_required input) (cv_required c) |>
                         <| cv_updatedAt := updatedAt |> <| cv_version := cv_version c + 1 |> in
           _ ← saveVariable item (Some (cv_version c));
           _ ← recordConfiguration "configuration.updated" (cv_scope item) (cv_name item) false (vp_principalId principal) "updated" true;
           mret (variableView item)
       end).

(** A new binding, stored and audited. *)
Definition addBinding (owned : ConfigurationScope) (name ref : string) (required : option bool) (actor timestamp : string)
  : M DB ConfigurationSecretView :=
  id ← randomUUID;
  let item := mkBinding id owned name ref (orElse required false) timestamp timestamp actor None 1 in
  _ ← saveSecret item false None;
  _ ← recordConfiguration "secret.created" owned name true actor "created" true;
  mret (secretView item).

(** The binding pointed at [ref], its legacy value dropped, and audited. *)
Definition pointBinding (current : ConfigurationSecret) (ref : string) (required : option bool) (actor timestamp : string)
  : M DB ConfigurationSecretView :=
  let item := current <| cb_value := None |> <| cb_credentialRef := ref |>
                <| cb_required := orElse required (cb_required current) |> <| cb_updatedAt := timestamp |>
                <| cb_version := cb_version current + 1 |> in
  _ ← saveSecret item (match cb_value current with Some _ => true | None => false end) (Some (cb_version current));
  _ ← recordConfiguration "secret.rotated" (cb_scope item) (cb_name item) true actor "rotated" true;
  mret (secretView item).

Definition createSecret (input : CredentialInput) (caller : Caller) : M DB ConfigurationSecretView :=
  _ ← ofOutcome (rejectRawSecret input);
  '(g, principal, owned) ← ofOutcome (own (ci_scope input) caller);
  name ← ofOutcome (validateName (ci_name input));
  ref ← ofOutcome (requireCredentialRef (ci_credentialRef input) "credentialRef");
  execute g "credential.attach" (CVerified principal) (configResource owned (Some name) "credential" (Some ref)) (configOptions None (Some ref))
    (fun _ _ =>
       current ← getSecret owned name;
       variable ← getVariable owned name;
       match current, variable with
       | None, None => timestamp ← nowIso; addBinding owned name ref (ci_required input) (vp_principalId principal) timestamp
       | _, _ => throw (alreadyExists name)
       end).

Definition rotateSecret (input : CredentialInput) (caller : Caller) : M DB ConfigurationSecretView :=
  _ ← ofOutcome (rejectRawSecret input);
  '(g, principal, owned) ← ofOutcome (own (ci_scope input) caller);
  name ← ofOutcome (validateName (ci_name input));
  ref ← ofOutcome (requireCredentialRef (ci_credentialRef input) "credentialRef");
  execute g "credential.rotate" (CVerified principal) (configResource owned (Some name) "credential" (Some ref)) (configOptions None (Some ref))
    (fun _ _ =>
       current ← getSecret owned name;
       match current with
       | None => throw (notFound name)
       | Some c => updatedAt ← nowIso; pointBinding c ref (ci_required input) (vp_principalId principal) updatedAt
       end).

(** Create or point a binding; the caller has authorized the change. *)
Definition bindConfiguration (owned : ConfigurationScope) (name ref : string) (required : option bool) (actor : string)
  (current : option ConfigurationSecret) : M DB ConfigurationSecretView :=
  timestamp ← nowIso;
  match current with
  | None => addBinding owned name ref required actor timestamp
  | Some c => pointBinding c ref required actor timestamp
  end.

(** Which capability changes the binding of [name] to [ref], if it changes. *)
Definition bindingCapability (name : option string) (current : option ConfigurationSecret) (ref : string) : option string :=
  match name, current with
  | None, _ => None
  | Some _, None => Some "credential.attach"
  | Some _, Some c => if String.eqb (cb_credentialRef c) ref then None else Some "credential.rotate"
  end.

(** The value handed to custody, and its metadata recorded. *)
Definition storeInCustody (tools : EffectTools) (owned : ConfigurationScope) (principalId ref value : string)
  (provider kind : option string) : M DB SecretCustodyWriteResult :=
  let secretId := sliceFrom (String.length PREFIX) ref in
  stored ← tryCatch (t_storeCredential tools ref value (mkCustodyOptions "credential.store" provider kind)) (fun error =>
    _ ← (if secretMetadata then
           timestamp ← nowIso;
           swallow (recordFailure (mkFailureRecord (sc_tenantId owned) secretId provider principalId "credential.store"
                      (failureReason error) timestamp))
         else mret tt);
    throw error);
  _ ← (if secretMetadata then
         _ ← recordStored (mkStoredRecord (sc_tenantId owned) secretId ref provider kind (sw_version stored)
               (sw_storedAt stored) principalId "credential.store");
         mret tt
       else mret tt);
  mret stored.

(** The rest of the effect, once the binding that is there is known: its
    change is authorized before the value reaches custody. *)
Definition storeAndBind (g : ServiceGateway DB) (principal : VerifiedPrincipal) (owned : ConfigurationScope)
  (ref value : string) (provider kind name : option string) (required : option bool) (tools : EffectTools)
  (current : option ConfigurationSecret) : M DB CredentialStoreResult :=
  bindingContext ← match bindingCapability name current ref with
    | Some cap =>
        requestId ← randomUUID;
        x ← authorize g cap (CVerified principal) (configResource owned name "credential" (Some ref)) requestId;
        mret (Some x)
    | None => mret None
    end;
  stored ← storeInCustody tools owned (vp_principalId principal) ref value provider kind;
  binding ← match name, bindingContext with
    | None, _ => mret None
    | Some _, None => mret (option_map secretView current)
    | Some n, Some x =>
        startedAt ← nowIso;
        b ← run g (Issued x) (configOptions None (Some ref)) (fun _ _ =>
              bindConfiguration owned n ref required (vp_principalId principal) current) startedAt;
        mret (Some b)
    end;
  mret (mkStoreResult ref (sw_version stored) (sw_storedAt stored) binding).

Definition storeEffect (g : ServiceGateway DB) (principal : VerifiedPrincipal) (owned : ConfigurationScope)
  (ref value : string) (provider kind name : option string) (required : option bool) (tools : EffectTools)
  : M DB CredentialStoreResult :=
  match name with
  | None => storeAndBind g principal owned ref value provider kind name required tools None
  | Some n =>
      variable ← getVariable owned n;
      match variable with
      | Some _ => throw (ConfigurationValidationError ("Configuration " ++ n ++ " already exists as a variable"))
      | None =>
          current ← getSecret owned n;
          storeAndBind g principal owned ref value provider kind name required tools current
      end
  end.

(** [None]: an input that is no object. *)
Definition storeCredentialUnredacted (input : option CredentialStoreInput) (caller : Caller) : M DB CredentialStoreResult :=
  match input with
  | None => throw (invalidRequest "credential.store input must be an object")
  | Some i =>
      ref ← ofOutcome (requireCredentialRef (st_ref i) "ref");
      value ← ofOutcome (validateCredentialValue (st_value i));
      provider ← ofOutcome (optionalLabel (st_provider i) "provider");
      kind ← ofOutcome (optionalLabel (st_kind i) "kind");
      name ← ofOutcome (optionalName (st_name i));
      '(g, principal, owned) ← ofOutcome (own (inProduction (st_scope i)) caller);
      execute g "credential.store" (CVerified principal) (configResource owned name "credential" (Some ref)) (configOptions provider (Some ref))
        (fun _ tools => storeEffect g principal owned ref value provider kind name (st_required i) tools)
  end.

Definition storeCredential (input : option CredentialStoreInput) (caller : Caller) : M DB CredentialStoreResult :=
  tryCatch (storeCredentialUnredacted input caller) (fun error =>
    throw (redactValue stackOf error match input with Some i => st_value i | None => JUndef end)).

Fixpoint statusEach (g : ServiceGateway DB) (principal : VerifiedPrincipal) (owned : ConfigurationScope)
  (provider : option string) (refs : list string) : M DB (list CredentialStatusView) :=
  match refs with
  | [] => mret []
  | ref :: rest =>
      view ← execute g "credential.status" (CVerified principal) (configResource owned None "credential" (Some ref))
        (configOptions provider (Some ref)) (fun _ tools =>
          status ← t_credentialStatus tools ref (Some ("credential.status", provider));
          mret (mkStatusView ref status));
      views ← statusEach g principal owned provider rest;
      mret (view :: views)
  end.

Definition credentialStatusOf (input : option CredentialStatusInput) (caller : Caller) : M DB (list CredentialStatusView) :=
  match input with
  | None => throw (invalidRequest "credential.status input must be an object")
  | Some i =>
      refs ← ofOutcome (statusRefs i);
      provider ← ofOutcome (optionalLabel (su_provider i) "provider");
      '(g, principal, owned) ← ofOutcome (own (inProduction (su_scope i)) caller);
      statusEach g principal owned provider refs
  end.

Definition deleteConfiguration (scope : Scope) (name : string) (kind : ConfigurationKind) (caller : Caller) : M DB unit :=
  '(g, principal, owned) ← ofOutcome (own scope caller);
  match kind with
  | VariableKind =>
      execute g "configuration.delete" (CVerified principal) (configResource owned (Some name) "configuration" None) (configOptions None None)
        (fun _ _ =>
           item ← getVariable owned name;
           match item with
           | None => mret tt
           | Some v =>
               _ ← deleteVariable v;
               recordConfiguration "configuration.deleted" (cv_scope v) (cv_name v) false (vp_principalId principal) "deleted" false
           end)
  | SecretKind =>
      execute g "credential.detach" (CVerified principal) (configResource owned (Some name) "credential" None) (configOptions None None)
        (fun _ _ =>
           item ← getSecret owned name;
           match item with
           | None => mret tt
           | Some b =>
               _ ← deleteSecret b;
               recordConfiguration "secret.deleted" (cb_scope b) (cb_name b) true (vp_principalId principal) "deleted" false
           end)
  end.
End service.
