(* ===== verification/ConfigFacts.v ===== *)
(** * ConfigFacts: the invariant of the configuration store

    A configuration row is a variable or a credential binding.  The invariant
    ([configInv]): rows are well-formed and a scope holds at most one row of a
    name, whichever kind it is.  [configStep] is what one operation on a scope
    may do.  Each operation is stepped through once, here. *)

From S2P Require Import Prelude JsString JsTime Errors Models Store Calm Principal Manifest Restrictions Evidence Gateway GatewayFacts WebhookFacts Configuration.
From Stdlib Require Import ZArith Lia Ascii.
Local Open Scope string_scope.
Local Open Scope Z_scope.

Definition ConfigurationRow : Type := (ConfigurationVariable + ConfigurationSecret)%type.

Definition slotOf (r : ConfigurationRow) : ConfigurationScope * string :=
  match r with inl v => (cv_scope v, cv_name v) | inr b => (cb_scope b, cb_name b) end.

(** A row as the service keeps it, under the key [k]. *)
Definition rowOk (k : string) (r : ConfigurationRow) : Prop :=
  isName (slotOf r).2 = true /\
  match r with
  | inl v => cv_id v = k /\ cv_value v <> ""
  | inr b => cb_id b = k /\ isCredentialRef (JStr (cb_credentialRef b)) = true
  end.

(** The collections operations write besides the rows. *)
Definition configSides : list string :=
  [cname CEvidence; cname CConfigAudit; cname CSecrets; cname CSecretVersions; cname CSecretAudit].

Section model.
Context {DB : Type} `{FeltDBLaws DB}.
Implicit Types w : World DB.

Definition configRow (db : DB) (secret : bool) (k : string) : option ConfigurationRow :=
  if secret then option_map inr (peek CBindings k db) else option_map inl (peek CVariables k db).

Definition rowsOk (db : DB) : Prop :=
  (forall s k r, configRow db s k = Some r -> rowOk k r) /\
  (forall s k r s' k' r', configRow db s k = Some r -> configRow db s' k' = Some r' ->
     slotOf r = slotOf r' -> (s, k) = (s', k')).

(** The metadata rows have their own ids. *)
Definition metaOk (db : DB) : Prop :=
  (forall k m, peek CSecrets k db = Some m -> sm_id m = k) /\
  (forall k v, peek CSecretVersions k db = Some v -> sn_id v = k).

Definition configInv (db : DB) : Prop := rowsOk db /\ metaOk db.

Definition inScope (owned : ConfigurationScope) (o : option ConfigurationRow) : Prop :=
  match o with Some r => (slotOf r).1 = owned | None => True end.

(** One operation on the scope [owned]. *)
Definition configStep (owned : ConfigurationScope) (db db' : DB) : Prop :=
  (forall s k, configRow db' s k = configRow db s k \/
     inScope owned (configRow db s k) /\ inScope owned (configRow db' s k)) /\
  (forall V (c : coll V) k, ~ In (cname c) (cname CVariables :: cname CBindings :: configSides) -> peek c k db' = peek c k db).

(** Nothing but the side collections changed. *)
Definition sideOnly (db db' : DB) : Prop :=
  forall V (c : coll V) k, ~ In (cname c) configSides -> peek c k db' = peek c k db.

Lemma sideOnly_rows db db' s k : sideOnly db db' -> configRow db' s k = configRow db s k.
Proof.
  intros Hs. unfold configRow. destruct s; rewrite Hs; try reflexivity; cbn; intuition discriminate.
Qed.

Lemma sideOnly_step owned db db' : sideOnly db db' -> configStep owned db db'.
Proof.
  intros Hs. split.
  - intros s k. left. now apply sideOnly_rows.
  - intros V c k Hn. apply Hs. intros Hin. apply Hn. now do 2 right.
Qed.

Lemma sideOnly_ok db db' : sideOnly db db' -> rowsOk db -> rowsOk db'.
Proof.
  intros Hs [Hok Hu]. split.
  - intros s k r. rewrite (sideOnly_rows _ _ _ _ Hs). apply Hok.
  - intros s k r s' k' r'. rewrite !(sideOnly_rows _ _ _ _ Hs). apply Hu.
Qed.

(** Evidence aside, the same store. *)
Lemma configInv_evidence db db' :
  (forall V (c : coll V) k, cname c <> cname CEvidence -> peek c k db' = peek c k db) -> configInv db -> configInv db'.
Proof.
  intros Hf [Hr [Hm1 Hm2]]. split; [|split; intros k m; rewrite Hf by discriminate; auto].
  eapply sideOnly_ok; [|exact Hr]. intros V c k Hn. apply Hf. intros E. apply Hn. rewrite E. now left.
Qed.

Lemma configInv_changed id row db db' : changed CEvidence id row db db' -> configInv db -> configInv db'.
Proof. intros Hch. apply configInv_evidence. intros V c k Hne. apply (changed_frame _ _ _ _ _ _ _ Hch). congruence. Qed.

Lemma sideOnly_changed {V} (c : coll V) k o db db' : In (cname c) configSides -> changed c k o db db' -> sideOnly db db'.
Proof. intros Hin Hch V' c' k' Hn. apply (changed_frame _ _ _ _ _ _ _ Hch). injection 1 as E _. apply Hn. now rewrite E. Qed.

Lemma sideOnly_trans db1 db2 db3 : sideOnly db1 db2 -> sideOnly db2 db3 -> sideOnly db1 db3.
Proof. intros A B V c k Hn. rewrite (B V c k Hn). now apply A. Qed.

Lemma configStep_trans owned db1 db2 db3 : configStep owned db1 db2 -> configStep owned db2 db3 -> configStep owned db1 db3.
Proof.
  intros [A1 B1] [A2 B2]. split.
  - intros s k. destruct (A2 s k) as [E2|[C2 D2]], (A1 s k) as [E1|[C1 D1]].
    + left. congruence.
    + right. split; [exact C1 | now rewrite E2].
    + right. split; [now rewrite <- E1 | exact D2].
    + right. now split.
  - intros V c k Hn. rewrite (B2 V c k Hn). now apply B1.
Qed.

(** One row written or removed. *)
Definition rowChanged (s : bool) (k : string) (o : option ConfigurationRow) (db db' : DB) : Prop :=
  configRow db' s k = o /\ (forall s' k', (s', k') <> (s, k) -> configRow db' s' k' = configRow db s' k') /\
  (forall V (c : coll V) k', cname c <> cname CVariables -> cname c <> cname CBindings -> peek c k' db' = peek c k' db).

Lemma rowChanged_variable k o db db' : changed CVariables k o db db' -> rowChanged false k (option_map inl o) db db'.
Proof.
  intros Hch. split; [cbn; now rewrite (changed_hit _ _ _ _ _ Hch)|]. split.
  - intros [] k' Hne; cbn; rewrite (changed_frame _ _ _ _ _ _ _ Hch); try reflexivity; [discriminate | congruence].
  - intros V c k' A B. apply (changed_frame _ _ _ _ _ _ _ Hch). congruence.
Qed.

Lemma rowChanged_binding k o db db' : changed CBindings k o db db' -> rowChanged true k (option_map inr o) db db'.
Proof.
  intros Hch. split; [cbn; now rewrite (changed_hit _ _ _ _ _ Hch)|]. split.
  - intros [] k' Hne; cbn; rewrite (changed_frame _ _ _ _ _ _ _ Hch); try reflexivity; [congruence | discriminate].
  - intros V c k' A B. apply (changed_frame _ _ _ _ _ _ _ Hch). congruence.
Qed.

(** What a new row must satisfy to be written at [(s, k)]. *)
Definition rowFits (owned : ConfigurationScope) (s : bool) (k : string) (db : DB) (r : ConfigurationRow) : Prop :=
  rowOk k r /\ (slotOf r).1 = owned /\
  (forall s' k' r', configRow db s' k' = Some r' -> slotOf r' = slotOf r -> (s', k') = (s, k)).

Lemma rowChanged_inv owned s k o db db' :
  configInv db -> rowChanged s k o db db' -> inScope owned (configRow db s k) ->
  match o with Some r => rowFits owned s k db r | None => True end ->
  configInv db' /\ configStep owned db db'.
Proof.
  intros [[Hok Hu] [Hm1 Hm2]] (Hhit & Hfr & Hother) Hold Hnew.
  assert (forall s' k' r, configRow db' s' k' = Some r ->
    (s', k') = (s, k) /\ o = Some r \/ (s', k') <> (s, k) /\ configRow db s' k' = Some r) as Hcase.
  { intros s' k' r Hr. destruct (decide ((s', k') = (s, k))) as [E|E].
    - left. split; [exact E|]. injection E as -> ->. congruence.
    - right. split; [exact E|]. rewrite <- Hfr by exact E. exact Hr. }
  split; [split; [split|split]|split].
  - intros s' k' r Hr. destruct (Hcase s' k' r Hr) as [[[= -> ->] ->]|[_ Hr']]; [apply Hnew | eapply Hok, Hr'].
  - intros s1 k1 r1 s2 k2 r2 H1 H2 E.
    destruct (Hcase _ _ _ H1) as [[E1 ->]|[N1 H1']], (Hcase _ _ _ H2) as [[E2 Eo]|[N2 H2']].
    + congruence.
    + destruct Hnew as (_ & _ & Hn). rewrite E1. symmetry. now apply (Hn s2 k2 r2).
    + rewrite Eo in Hnew. destruct Hnew as (_ & _ & Hn). rewrite E2. now apply (Hn s1 k1 r1).
    + eapply Hu; eassumption.
  - intros k' m. rewrite Hother by discriminate. apply Hm1.
  - intros k' v. rewrite Hother by discriminate. apply Hm2.
  - intros s' k'. destruct (decide ((s', k') = (s, k))) as [[= -> ->]|E]; [right | left; now apply Hfr].
    split; [exact Hold|]. rewrite Hhit. destruct o as [r|]; [apply Hnew | exact I].
  - intros V c k' Hn. apply Hother; intros E; apply Hn; rewrite E; cbn; auto.
Qed.

(** ** What an operation does to the world *)

(** A step that may name credentials. *)
Definition moved (owned : ConfigurationScope) w w' : Prop :=
  calm w' /\ after w w' /\
  (forall k row, peek CEvidence k (w_db w) = Some row -> peek CEvidence k (w_db w') = Some row) /\
  configInv (w_db w') /\ configStep owned (w_db w) (w_db w').

Lemma moved_trans owned w1 w2 w3 : moved owned w1 w2 -> moved owned w2 w3 -> moved owned w1 w3.
Proof.
  intros (_ & A1 & E1 & _ & S1) (C & A2 & E2 & I2 & S2). split; [exact C|]. split; [etransitivity; eassumption|].
  split; [auto|]. split; [exact I2 | eapply configStep_trans; eassumption].
Qed.

(** Control moved on, and nothing was written. *)
Lemma moved_same owned w w' : calm w' -> after w w' -> w_db w' = w_db w -> configInv (w_db w) -> moved owned w w'.
Proof.
  intros Hc Ha Hd Hi. unfold moved. rewrite Hd. split; [exact Hc|]. split; [exact Ha|]. split; [auto|]. split; [exact Hi|].
  apply sideOnly_step. intros V c k _. reflexivity.
Qed.

(** A step of an effect without credentials. *)
Definition plainly (owned : ConfigurationScope) w w' : Prop := moved owned w w' /\ w_resolved w' = w_resolved w.

Lemma plainly_trans owned w1 w2 w3 : plainly owned w1 w2 -> plainly owned w2 w3 -> plainly owned w1 w3.
Proof. intros [A B] [C D]. split; [eapply moved_trans; eassumption | congruence]. Qed.

Lemma plainly_same owned w w' : calm w' -> later w w' -> w_db w' = w_db w -> configInv (w_db w) -> plainly owned w w'.
Proof. intros Hc Hl Hd Hi. split; [apply moved_same; auto; now apply later_after | apply later_resolved, Hl]. Qed.

Lemma plainly_row owned s k o w w' :
  calm w' -> later w w' -> configInv (w_db w) -> rowChanged s k o (w_db w) (w_db w') -> inScope owned (configRow (w_db w) s k) ->
  match o with Some r => rowFits owned s k (w_db w) r | None => True end -> plainly owned w w'.
Proof.
  intros Hc Hl Hi Hch Hold Hnew. split; [|apply later_resolved, Hl].
  destruct (rowChanged_inv owned s k o _ _ Hi Hch Hold Hnew) as [Hi' Hst].
  split; [exact Hc|]. split; [after_tac|]. split; [|split; assumption].
  intros k' row Hk. destruct Hch as (_ & _ & Hother). now rewrite Hother by discriminate.
Qed.

(** A record added to a side collection, evidence and metadata apart. *)
Lemma plainly_audit owned id row w w' :
  calm w' -> later w w' -> configInv (w_db w) -> changed CConfigAudit id (Some row) (w_db w) (w_db w') -> plainly owned w w'.
Proof.
  intros Hc Hl [Hr [Hm1 Hm2]] Hch. assert (sideOnly (w_db w) (w_db w')) as Hs by (eapply sideOnly_changed; [|exact Hch]; cbn; auto).
  split; [|apply later_resolved, Hl]. split; [exact Hc|]. split; [after_tac|].
  split; [intros k r Hk; now rewrite (changed_frame _ _ _ _ _ _ _ Hch) by discriminate|].
  split; [|now apply sideOnly_step]. split; [eapply sideOnly_ok; eassumption|].
  split; intros k m; rewrite (changed_frame _ _ _ _ _ _ _ Hch) by discriminate; [apply Hm1 | apply Hm2].
Qed.

(** ** Reading and writing rows *)

Lemma wp_getVariable owned name Q w :
  calm w ->
  (forall k v, peek CVariables k (w_db w) = Some v -> cv_scope v = owned -> cv_name v = name -> Q (Ok (Some v)) w) ->
  ((forall k r, configRow (w_db w) false k = Some r -> slotOf r <> (owned, name)) -> Q (Ok None) w) ->
  wp (getVariable owned name) Q w.
Proof.
  intros Hc Hsome Hnone. unfold getVariable. apply wp_bind, wpc_find; [exact Hc|]. intros l Hl. apply wp_ret.
  pose proof (fun x => enumerates_in _ _ _ _ x Hl) as Hin. destruct l as [|v l]; cbn [head].
  - apply Hnone. intros k r Hr E. cbn in Hr. destruct (peek CVariables k (w_db w)) as [v|] eqn:Ev; [|discriminate Hr].
    injection Hr as <-. injection E as E1 E2. apply (not_elem_of_nil v), Hin. exists k. split; [exact Ev|].
    apply andb_true_intro. split; [now apply bool_decide_eq_true | now apply String.eqb_eq].
  - destruct (proj1 (Hin v)) as (k & Hk & Hp); [left|]. bool_hyps. eapply Hsome; eassumption.
Qed.

Lemma wp_getSecret owned name Q w :
  calm w ->
  (forall k b, peek CBindings k (w_db w) = Some b -> cb_scope b = owned -> cb_name b = name -> Q (Ok (Some b)) w) ->
  ((forall k r, configRow (w_db w) true k = Some r -> slotOf r <> (owned, name)) -> Q (Ok None) w) ->
  wp (getSecret owned name) Q w.
Proof.
  intros Hc Hsome Hnone. unfold getSecret. apply wp_bind, wpc_find; [exact Hc|]. intros l Hl. apply wp_ret.
  pose proof (fun x => enumerates_in _ _ _ _ x Hl) as Hin. destruct l as [|b l]; cbn [head].
  - apply Hnone. intros k r Hr E. cbn in Hr. destruct (peek CBindings k (w_db w)) as [b|] eqn:Eb; [|discriminate Hr].
    injection Hr as <-. injection E as E1 E2. apply (not_elem_of_nil b), Hin. exists k. split; [exact Eb|].
    apply andb_true_intro. split; [now apply bool_decide_eq_true | now apply String.eqb_eq].
  - destruct (proj1 (Hin b)) as (k & Hk & Hp); [left|]. bool_hyps. eapply Hsome; eassumption.
Qed.

Lemma wp_recordConfiguration type owned scope name secret actor operation configured w :
  calm w -> configInv (w_db w) ->
  wp (recordConfiguration type scope name secret actor operation configured) (fun o w' => o = Ok tt /\ plainly owned w w') w.
Proof.
  intros Hc Hi. unfold recordConfiguration. apply wp_bind, wpc_uuid; [exact Hc|]. intros id w1 _ Ho Hc1 Hl1 Hd1.
  apply wp_bind, wpc_nowIso; [exact Hc1|]. intros t at_ w2 _ _ Hc2 Hl2 Hd2.
  unfold auditConfiguration. cbn [ca_id]. apply wpc_insert; [exact Hc2 | eapply owned_ctl; eassumption|].
  intros w3 Hc3 Hl3 Hch. split; [reflexivity|]. eapply plainly_audit; [exact Hc3 | later_tac | exact Hi|].
  rewrite Hd2, Hd1 in Hch. exact Hch.
Qed.

(** Write, audit, and return: the shape of every change of a row. *)
Lemma wp_thenRecord {A} owned type scope name secret actor operation configured (a : A) w w1 :
  plainly owned w w1 ->
  wp (_ ← recordConfiguration type scope name secret actor operation configured; mret a) (fun _ w' => plainly owned w w') w1.
Proof.
  intros Hp. pose proof Hp as ((Hc & _ & _ & Hi & _) & _). apply wp_bind.
  eapply wp_mono; [now apply (wp_recordConfiguration type owned)|]. intros o w2 [-> Hp2]. apply wp_ret.
  eapply plainly_trans; eassumption.
Qed.

Lemma free_fits owned s k name db r :
  (forall s' k' r', configRow db s' k' = Some r' -> slotOf r' <> (owned, name)) ->
  rowOk k r -> slotOf r = (owned, name) -> rowFits owned s k db r.
Proof.
  intros Hfree Hok Hs. split; [exact Hok|]. split; [now rewrite Hs|].
  intros s' k' r' Hr E. exfalso. apply (Hfree s' k' r' Hr). congruence.
Qed.

(** A new version of a row in its own slot. *)
Lemma same_fits owned s k old db r :
  rowsOk db -> configRow db s k = Some old -> slotOf old = slotOf r -> (slotOf r).1 = owned -> rowOk k r -> rowFits owned s k db r.
Proof.
  intros [_ Hu] Hold E Ho Hok. split; [exact Hok|]. split; [exact Ho|].
  intros s' k' r' Hr E'. eapply Hu; [exact Hr | exact Hold | congruence].
Qed.

Lemma bothFree owned name (db : DB) :
  (forall k r, configRow db false k = Some r -> slotOf r <> (owned, name)) ->
  (forall k r, configRow db true k = Some r -> slotOf r <> (owned, name)) ->
  forall s k r, configRow db s k = Some r -> slotOf r <> (owned, name).
Proof. intros A B [] k r; [apply B | apply A]. Qed.

Lemma wp_addBinding owned name ref required actor timestamp w :
  calm w -> configInv (w_db w) -> isName name = true -> isCredentialRef (JStr ref) = true ->
  (forall s k r, configRow (w_db w) s k = Some r -> slotOf r <> (owned, name)) ->
  wp (addBinding owned name ref required actor timestamp) (fun _ w' => plainly owned w w') w.
Proof.
  intros Hc Hi Hn Href Hfree. unfold addBinding. apply wp_bind, wpc_uuid; [exact Hc|]. intros id w1 _ Ho Hc1 Hl1 Hd1.
  unfold saveSecret. cbn [cb_id]. apply wp_bind, wp_bind, wpc_insert; [exact Hc1 | exact Ho|].
  intros w2 Hc2 Hl2 Hch. apply wp_ret, wp_thenRecord. rewrite Hd1 in Hch. apply rowChanged_binding in Hch.
  eapply plainly_row; [exact Hc2 | later_tac | exact Hi | exact Hch | |].
  - cbn. rewrite <- Hd1. destruct Ho as [_ Ho]. now rewrite Ho.
  - eapply free_fits; [exact Hfree | | reflexivity]. split; [exact Hn | split; [reflexivity | exact Href]].
Qed.

Lemma wp_pointBinding k current ref required actor timestamp w :
  calm w -> configInv (w_db w) -> peek CBindings k (w_db w) = Some current -> isCredentialRef (JStr ref) = true ->
  wp (pointBinding current ref required actor timestamp) (fun _ w' => plainly (cb_scope current) w w') w.
Proof.
  intros Hc Hi Hk Href. unfold pointBinding.
  assert (configRow (w_db w) true k = Some (inr current)) as Hrow by (cbn; now rewrite Hk).
  pose proof Hi as [[Hok Hu] _]. destruct (Hok _ _ _ Hrow) as (Hn & Hid & Hr).
  unfold saveSecret. apply wp_bind, wp_bind.
  match goal with |- context [updateIfVersion CBindings ?i _ _] => change i with (cb_id current) end.
  rewrite Hid. change (cb_version current) with (getVersion CBindings current).
  apply (wpc_cas CBindings k current); [exact Hc | exact Hk|]. cbv zeta. intros w1 Hc1 Hl1 Hch. apply wp_ret, wp_thenRecord.
  apply rowChanged_binding in Hch. eapply plainly_row; [exact Hc1 | exact Hl1 | exact Hi | exact Hch | |].
  - rewrite Hrow. reflexivity.
  - cbn [option_map]. eapply same_fits; [exact (conj Hok Hu) | exact Hrow | reflexivity | reflexivity|].
    split; [exact Hn|]. split; [exact Hid | exact Href].
Qed.
End model.
