(* ===== verification/Sensitive.v ===== *)
(** * Sensitive: credentials in notification content

    [notifications/sensitive.ts].  The regular expressions of the source are
    values of [re], with a backtracking matcher [matchRe] and, as reference,
    the relation [Matches] of regular expressions with word boundaries and one
    character of lookahead. *)

From S2P Require Import Prelude JsString Errors Models.
From Stdlib Require Import ZArith Lia Ascii.
Local Open Scope string_scope.
Local Open Scope Z_scope.

(** ** Regular expressions *)

Inductive re :=
| Eps
| Chr (p : ascii -> bool)
| Many (p : ascii -> bool)
| Cat (a b : re)
| Or (a b : re)
| Edge
| NotNext (p : ascii -> bool).

(** [\w] *)
Definition isWord (c : ascii) : bool := isAlnum c || Ascii.eqb c "_".

Definition headIs (p : ascii -> bool) (s : string) : bool :=
  match s with String c _ => p c | EmptyString => false end.

(** [\b], between the previous character and the rest *)
Definition atEdge (prev : option ascii) (s : string) : bool :=
  xorb (match prev with Some c => isWord c | None => false end) (headIs isWord s).

(** Whether [k] accepts what some match leaves; [prev] is the character before. *)
Fixpoint matchRe (r : re) (prev : option ascii) (s : string) (k : option ascii -> string -> bool) {struct r} : bool :=
  match r with
  | Eps => k prev s
  | Chr p => match s with String c t => p c && k (Some c) t | EmptyString => false end
  | Many p =>
      (fix go (prev : option ascii) (s : string) {struct s} : bool :=
         match s with
         | String c t => (p c && go (Some c) t) || k prev s
         | EmptyString => k prev s
         end) prev s
  | Cat a b => matchRe a prev s (fun prev' s' => matchRe b prev' s' k)
  | Or a b => matchRe a prev s k || matchRe b prev s k
  | Edge => atEdge prev s && k prev s
  | NotNext p => negb (headIs p s) && k prev s
  end.

(** [r.test(s)]: a match at some position. *)
Fixpoint search (r : re) (prev : option ascii) (s : string) : bool :=
  matchRe r prev s (fun _ _ => true) ||
  match s with String c t => search r (Some c) t | EmptyString => false end.

Definition test (r : re) (s : string) : bool := search r None s.

(** *** Building blocks *)

Definition chr (c : ascii) : ascii -> bool := Ascii.eqb c.
Definition oneOf (s : string) (c : ascii) : bool := any (Ascii.eqb c) s.

Fixpoint lit (s : string) : re :=
  match s with EmptyString => Eps | String c r => Cat (Chr (chr c)) (lit r) end.

(** A character of a [/i] expression. *)
Definition lowerChar (c : ascii) : ascii := if isUpper c then ascii_of_nat (code c + 32) else c.
Definition caseless (p : ascii -> bool) (c : ascii) : bool := p (lowerChar c).

Fixpoint litI (s : string) : re :=
  match s with EmptyString => Eps | String c r => Cat (Chr (caseless (chr c))) (litI r) end.

Fixpoint times (n : nat) (r : re) : re := match n with O => Eps | S n => Cat r (times n r) end.
Fixpoint upTo (n : nat) (r : re) : re := match n with O => Eps | S n => Or (Cat r (upTo n r)) Eps end.

(** [p{n,}] *)
Definition atLeast (n : nat) (p : ascii -> bool) : re := Cat (times n (Chr p)) (Many p).

(** ** [notifications/sensitive.ts] *)

Definition SENSITIVE_KEYS : list string :=
  [ "password"; "passwd"; "pwd"; "passphrase";
    "cookie"; "cookies"; "setcookie"; "sessioncookie"; "sessionid"; "sid";
    "authorization"; "proxyauthorization"; "auth"; "bearer";
    "refreshtoken"; "accesstoken"; "idtoken"; "sessiontoken"; "authtoken"; "csrftoken"; "xsrftoken"; "token";
    "apikey"; "xapikey"; "apisecret"; "clientsecret"; "secret"; "secretkey";
    "privatekey"; "signingkey"; "signingsecret"; "credential"; "credentials" ].

Definition SENSITIVE_KEY_SUFFIXES : list string :=
  [ "password"; "passwd"; "token"; "secret"; "apikey"; "cookie"; "cookies"; "privatekey"; "signingkey";
    "authorization"; "credential"; "credentials" ].

Definition alnumOr (extra : string) (c : ascii) : bool := isAlnum c || oneOf extra c.
Definition upperDigit (c : ascii) : bool := isUpper c || isDigit c.
Definition hexDigitLower (c : ascii) : bool := isDigit c || codeIn 97 102 c.

Fixpoint sequence (l : list re) : re := match l with [] => Eps | [r] => r | r :: rest => Cat r (sequence rest) end.
Fixpoint anyOf (l : list re) : re := match l with [] => NotNext (fun _ => true) | [r] => r | r :: rest => Or r (anyOf rest) end.

(** [Bearer\s+...], [Basic\s+...], private keys, JWTs, keys of AppPort, Stripe,
    GitHub, Slack and AWS, and cookies. *)
Definition bearerToken : re :=
  sequence [Edge; litI "bearer"; atLeast 1 isSpace; atLeast 8 (caseless (alnumOr "-._~+/")); Many (chr "=")].
Definition basicToken : re :=
  sequence [Edge; lit "Basic"; atLeast 1 isSpace; atLeast 8 (alnumOr "+/"); upTo 2 (Chr (chr "=")); NotNext isAlnum].
Definition privateKeyBlock : re :=
  sequence [lit "-----BEGIN "; Many (fun c => isUpper c || chr " " c); lit "PRIVATE KEY-----"].
Definition jwtToken : re :=
  sequence [Edge; lit "eyJ"; atLeast 8 (alnumOr "_-"); lit ".eyJ"; atLeast 8 (alnumOr "_-"); lit "."; atLeast 8 (alnumOr "_-")].
Definition appportKey : re :=
  sequence [Edge; lit "app_live_"; times 6 (Chr hexDigitLower); lit "_"; atLeast 16 (alnumOr "_-")].
Definition stripeKey : re :=
  sequence [Edge; Or (lit "sk") (lit "rk"); lit "_"; Or (lit "live") (lit "test"); lit "_"; atLeast 16 isAlnum].
Definition githubToken : re := sequence [Edge; lit "gh"; Chr (oneOf "pousr"); lit "_"; atLeast 30 isAlnum].
Definition slackToken : re := sequence [Edge; lit "xox"; Chr (oneOf "abprs"); lit "-"; atLeast 10 (alnumOr "-")].
Definition awsKey : re := sequence [Edge; lit "AKIA"; times 16 (Chr upperDigit); Edge].

Definition wordOrDash (c : ascii) : bool := isWord c || chr "-" c.

Definition cookieFragment : re :=
  sequence [Edge;
    anyOf [litI "session"; litI "sessionid"; litI "sid"; litI "connect.sid";
           Cat (litI "__secure-") (atLeast 1 wordOrDash); Cat (litI "__host-") (atLeast 1 wordOrDash)];
    lit "="; atLeast 8 (fun c => negb (chr ";" c || isSpace c))].

Definition SENSITIVE_VALUE_PATTERNS : list re :=
  [bearerToken; basicToken; privateKeyBlock; jwtToken; appportKey; stripeKey; githubToken; slackToken; awsKey; cookieFragment].

Definition NotificationSensitiveDataError (path : string) : exn :=
  JsError "NotificationSensitiveDataError"
    ("Notification content at " ++ quoted path ++ " looks like a credential; credentials cannot be sent in notifications").

(** [s.replace(/[^a-z0-9]/g, '')] *)
Fixpoint keepAlnum (s : string) : string :=
  match s with
  | EmptyString => EmptyString
  | String c r => if isDigit c || isLower c then String c (keepAlnum r) else keepAlnum r
  end.

Definition normalizeKey (key : string) : string := keepAlnum (toLowerCase key).

(** [s.endsWith(suffix)] *)
Definition endsWith (s suffix : string) : bool :=
  Nat.leb (String.length suffix) (String.length s) &&
  String.eqb (sliceFrom (String.length s - String.length suffix) s) suffix.

Definition isSensitiveKey (key : string) : bool :=
  let normalized := normalizeKey key in
  existsb (String.eqb normalized) SENSITIVE_KEYS || existsb (endsWith normalized) SENSITIVE_KEY_SUFFIXES.

Definition isSensitiveValue (value : string) : bool := existsb (fun pattern => test pattern value) SENSITIVE_VALUE_PATTERNS.

(** [entry !== null && entry !== undefined && entry !== '' && entry !== false] *)
Definition carries (entry : jsval) : bool :=
  match entry with JNull | JUndef | JStr EmptyString | JBool false => false | _ => true end.

(** A value without cycles: an object met twice was found clean the first time,
    so the set of visited objects of the source changes nothing. *)
Fixpoint assertNoCredentials (value : jsval) (path : string) {struct value} : outcome unit :=
  match value with
  | JStr s => if isSensitiveValue s then Throw (NotificationSensitiveDataError path) else Ok tt
  | JArr l =>
      (fix entries (index : Z) (l : list jsval) : outcome unit :=
         match l with
         | [] => Ok tt
         | entry :: rest =>
             match assertNoCredentials entry (path ++ "[" ++ num index ++ "]") with
             | Throw e => Throw e
             | Ok _ => entries (index + 1) rest
             end
         end) 0 l
  | JObj fields =>
      (fix entries (fields : list (string * jsval)) : outcome unit :=
         match fields with
         | [] => Ok tt
         | (key, entry) :: rest =>
             if isSensitiveKey key && carries entry then Throw (NotificationSensitiveDataError (path ++ "." ++ key))
             else match assertNoCredentials entry (path ++ "." ++ key) with
                  | Throw e => Throw e
                  | Ok _ => entries rest
                  end
         end) fields
  | _ => Ok tt
  end.

(** ** The matcher and its reference *)

(** [Matches r prev s prev' s']: after [prev], [r] takes a prefix of [s] and
    leaves [s'], the last character taken being [prev']. *)
Inductive Matches : re -> option ascii -> string -> option ascii -> string -> Prop :=
| MEps prev s : Matches Eps prev s prev s
| MChr p prev c t : p c = true -> Matches (Chr p) prev (String c t) (Some c) t
| MManyNil p prev s : Matches (Many p) prev s prev s
| MManyCons p prev c t prev' s' :
    p c = true -> Matches (Many p) (Some c) t prev' s' -> Matches (Many p) prev (String c t) prev' s'
| MCat a b prev s prev1 s1 prev2 s2 :
    Matches a prev s prev1 s1 -> Matches b prev1 s1 prev2 s2 -> Matches (Cat a b) prev s prev2 s2
| MOrL a b prev s prev' s' : Matches a prev s prev' s' -> Matches (Or a b) prev s prev' s'
| MOrR a b prev s prev' s' : Matches b prev s prev' s' -> Matches (Or a b) prev s prev' s'
| MEdge prev s : atEdge prev s = true -> Matches Edge prev s prev s
| MNotNext p prev s : headIs p s = false -> Matches (NotNext p) prev s prev s.

Create HintDb regex discriminated.
#[export] Hint Constructors Matches : regex.

Lemma matchMany_spec p prev s k :
  matchRe (Many p) prev s k = true <-> exists prev' s', Matches (Many p) prev s prev' s' /\ k prev' s' = true.
Proof.
  revert prev. induction s as [|c t IH]; intros prev.
  - cbn. split; [eauto with regex|]. intros (prev' & s' & Hm & Hk). inversion Hm; subst. exact Hk.
  - change (matchRe (Many p) prev (String c t) k) with ((p c && matchRe (Many p) (Some c) t k) || k prev (String c t)).
    rewrite orb_true_iff, andb_true_iff, IH. split.
    + intros [[Hp (prev' & s' & Hm & Hk)]|Hk]; eauto with regex.
    + intros (prev' & s' & Hm & Hk). inversion Hm; subst; [right; exact Hk | left; eauto 6].
Qed.

Lemma matchRe_spec r prev s k :
  matchRe r prev s k = true <-> exists prev' s', Matches r prev s prev' s' /\ k prev' s' = true.
Proof.
  revert prev s k. induction r as [|p|p|a IHa b IHb|a IHa b IHb| |p]; intros prev s k.
  - cbn. split; [eauto with regex | intros (? & ? & Hm & Hk); inversion Hm; now subst].
  - cbn. destruct s as [|c t]; [split; [discriminate | intros (? & ? & Hm & _); inversion Hm]|]. rewrite andb_true_iff.
    split; [intros [Hp Hk]; eauto with regex | intros (? & ? & Hm & Hk); inversion Hm; now subst].
  - apply matchMany_spec.
  - cbn. rewrite IHa. split.
    + intros (prev1 & s1 & H1 & H2). apply IHb in H2 as (prev2 & s2 & H2 & Hk). eauto with regex.
    + intros (prev2 & s2 & Hm & Hk). inversion Hm as [| | | |? ? ? ? prev1 s1 ? ? H1 H2| | | |]; subst.
      exists prev1, s1. split; [exact H1|]. apply IHb. eauto.
  - cbn. rewrite orb_true_iff, IHa, IHb. split.
    + intros [(? & ? & Hm & Hk)|(? & ? & Hm & Hk)]; eauto with regex.
    + intros (prev' & s' & Hm & Hk). inversion Hm; subst; eauto 6.
  - cbn. rewrite andb_true_iff. split; [intros []; eauto with regex | intros (? & ? & Hm & Hk); inversion Hm; now subst].
  - cbn. rewrite andb_true_iff, negb_true_iff. split; [intros []; eauto with regex | intros (? & ? & Hm & Hk); inversion Hm; now subst].
Qed.

(** The last character of [pre], or [prev]. *)
Fixpoint lastOf (prev : option ascii) (pre : string) : option ascii :=
  match pre with String c r => lastOf (Some c) r | EmptyString => prev end.

(** [r] occurs in [s]: somewhere, some piece matches. *)
Definition occurs (r : re) (s : string) : Prop :=
  exists pre rest prev' s', s = pre ++ rest /\ Matches r (lastOf None pre) rest prev' s'.

Lemma search_spec r prev s :
  search r prev s = true <-> exists pre rest prev' s', s = pre ++ rest /\ Matches r (lastOf prev pre) rest prev' s'.
Proof.
  revert prev. induction s as [|c t IH]; intros prev; cbn [search]; rewrite orb_true_iff, matchRe_spec.
  - split.
    + intros [(prev' & s' & Hm & _)|E]; [|discriminate]. exists "", "", prev', s'. auto.
    + intros (pre & rest & prev' & s' & E & Hm). destruct pre; [|discriminate E].
      change ("" ++ rest) with rest in E. cbn in Hm. subst rest.
      left. exists prev', s'. split; [exact Hm | reflexivity].
  - rewrite IH. split.
    + intros [(prev' & s' & Hm & _)|(pre & rest & prev' & s' & -> & Hm)]; [exists "", (String c t), prev', s'; auto|].
      exists (String c pre), rest, prev', s'. auto.
    + intros (pre & rest & prev' & s' & E & Hm). destruct pre as [|d pre]; cbn in Hm.
      { change ("" ++ rest) with rest in E. subst rest. left. exists prev', s'. split; [exact Hm | reflexivity]. }
      change (String d pre ++ rest) with (String d (pre ++ rest)) in E. injection E as <- ->. right. eauto 6.
Qed.

Lemma test_spec r s : test r s = true <-> occurs r s.
Proof. apply search_spec. Qed.

(** ** What the guard accepts *)

(** [v] is [value] or a part of it. *)
Inductive within (v : jsval) : jsval -> Prop :=
| within_self : within v v
| within_entry l entry : In entry l -> within v entry -> within v (JArr l)
| within_field fields key entry : In (key, entry) fields -> within v entry -> within v (JObj fields).

(** No text in which a credential occurs, and nothing under a credential's name. *)
Definition noCredentials (value : jsval) : Prop :=
  (forall s, within (JStr s) value -> forall r, In r SENSITIVE_VALUE_PATTERNS -> ~ occurs r s) /\
  (forall fields key entry, within (JObj fields) value -> In (key, entry) fields ->
     isSensitiveKey key = true -> In entry [JNull; JUndef; JStr ""; JBool false]).

Lemma carries_spec entry : carries entry = false <-> In entry [JNull; JUndef; JStr ""; JBool false].
Proof.
  split; [|intros [<-|[<-|[<-|[<-|[]]]]]; reflexivity].
  destruct entry as [| |[]| | |[]| | |]; cbn; intros E; try discriminate E; tauto.
Qed.

Lemma isSensitiveValue_spec s :
  isSensitiveValue s = true <-> exists r, In r SENSITIVE_VALUE_PATTERNS /\ occurs r s.
Proof.
  unfold isSensitiveValue. rewrite existsb_exists. split; intros (r & Hr & Ht); exists r; (split; [exact Hr | now apply test_spec]).
Qed.

Lemma noCredentials_arr l : noCredentials (JArr l) <-> Forall noCredentials l.
Proof.
  rewrite List.Forall_forall. split.
  - intros [Hv Hk] entry Hin. split.
    + intros s Hw. apply Hv. now apply within_entry with entry.
    + intros fields key e Hw. apply Hk. now apply within_entry with entry.
  - intros Hall. split.
    + intros s Hw. inversion Hw as [|? entry Hin Hw'|]; subst. now apply (Hall entry Hin).
    + intros fields key e Hw. inversion Hw as [|? entry Hin Hw'|]; subst. now apply (Hall entry Hin).
Qed.

Lemma noCredentials_obj fields :
  noCredentials (JObj fields) <->
  Forall (fun ke => (isSensitiveKey ke.1 && carries ke.2) = false /\ noCredentials ke.2) fields.
Proof.
  rewrite List.Forall_forall. split.
  - intros [Hv Hk] [key entry] Hin. cbn. split; [|split].
    + destruct (isSensitiveKey key) eqn:Es; [|reflexivity]. apply carries_spec, (Hk fields key entry); [constructor | exact Hin | exact Es].
    + intros s Hw. apply Hv. now apply within_field with key entry.
    + intros fields' key' e Hw. apply Hk. now apply within_field with key entry.
  - intros Hall. split.
    + intros s Hw. inversion Hw as [| |? key entry Hin Hw']; subst. now apply (Hall _ Hin).
    + intros fields' key' e Hw Hin' Hs. inversion Hw as [| |? key entry Hin Hw']; subst.
      * destruct (Hall _ Hin') as [E _]. cbn in E. rewrite Hs in E. now apply carries_spec.
      * destruct (Hall _ Hin) as [_ [_ Hk]]. now apply (Hk fields' key' e).
Qed.

Lemma noCredentials_str s : noCredentials (JStr s) <-> isSensitiveValue s = false.
Proof.
  rewrite <- not_true_iff_false, isSensitiveValue_spec. split.
  - intros [Hv _] (r & Hr & Ho). exact (Hv s (within_self _) r Hr Ho).
  - intros Hn. split; [|intros fields key e Hw; inversion Hw].
    intros s' Hw r Hr Ho. inversion Hw; subst. eauto.
Qed.

Lemma noCredentials_other v :
  match v with JStr _ | JArr _ | JObj _ => False | _ => True end -> noCredentials v.
Proof. intros Hv. split; [intros s Hw | intros fields key e Hw]; inversion Hw; subst; destruct Hv. Qed.

(** Induction that reaches the entries of arrays and objects. *)
Fixpoint jsval_nested (P : jsval -> Prop)
  (Hother : forall v, match v with JArr _ | JObj _ => False | _ => True end -> P v)
  (Harr : forall l, Forall P l -> P (JArr l)) (Hobj : forall fields, Forall (fun ke => P ke.2) fields -> P (JObj fields))
  (v : jsval) : P v :=
  match v with
  | JArr l => Harr l ((fix go l : Forall P l :=
      match l with [] => Forall_nil_2 P | x :: r => Forall_cons_2 P x r (jsval_nested P Hother Harr Hobj x) (go r) end) l)
  | JObj fields => Hobj fields ((fix go l : Forall (fun ke => P ke.2) l :=
      match l with
      | [] => Forall_nil_2 _
      | ke :: r => Forall_cons_2 (fun ke => P ke.2) ke r (jsval_nested P Hother Harr Hobj ke.2) (go r)
      end) fields)
  | v' => Hother v' I
  end.

(** The guard throws for exactly the values with credentials, and its error
    names a path only. *)
Lemma guard_spec value path :
  (assertNoCredentials value path = Ok tt <-> noCredentials value) /\
  forall e, assertNoCredentials value path = Throw e -> exists p, e = NotificationSensitiveDataError (path ++ p).
Proof.
  revert value path. induction value as [v Hv|l IH|fields IH] using jsval_nested; intros path.
  - destruct v; try destruct Hv; try (split; [split; [intros _; now apply noCredentials_other | reflexivity] | discriminate]).
    cbn [assertNoCredentials]. rewrite noCredentials_str. destruct (isSensitiveValue s); split.
    + split; discriminate.
    + intros e [= <-]. exists "". now rewrite append_nil.
    + split; reflexivity.
    + discriminate.
  - rewrite noCredentials_arr. cbn [assertNoCredentials]. generalize 0 as index.
    induction IH as [|entry rest Hentry _ IHrest]; intros index.
    + split; [split; [intros _; constructor | reflexivity] | discriminate].
    + rewrite Forall_cons. destruct (Hentry (path ++ "[" ++ num index ++ "]")) as [Hok Hthrow].
      destruct (assertNoCredentials entry _) as [[]|e0] eqn:E.
      * destruct (IHrest (index + 1)) as [<- Ht]. split; [|exact Ht]. split; [intros Hr; split; [now apply Hok | exact Hr] | now intros []].
      * split; [split; [discriminate | intros [Hn _]; apply Hok in Hn; discriminate Hn]|].
        intros e [= <-]. destruct (Hthrow e0 eq_refl) as [p ->]. exists ("[" ++ num index ++ "]" ++ p). f_equal. now rewrite !append_assoc.
  - rewrite noCredentials_obj. cbn [assertNoCredentials].
    induction IH as [|[key entry] rest Hentry _ IHrest].
    + split; [split; [intros _; constructor | reflexivity] | discriminate].
    + rewrite Forall_cons. cbn [fst snd] in *. destruct (isSensitiveKey key && carries entry) eqn:Ek.
      { split; [split; [discriminate | intros [[[=] _] _]]|]. intros e [= <-]. now exists ("." ++ key). }
      destruct (Hentry (path ++ "." ++ key)) as [Hok Hthrow].
      destruct (assertNoCredentials entry _) as [[]|e0] eqn:E.
      * destruct IHrest as [<- Ht]. split; [|exact Ht]. split; [intros Hr; split; [split; [reflexivity | now apply Hok] | exact Hr] | now intros []].
      * split; [split; [discriminate | intros [[_ Hn] _]; apply Hok in Hn; discriminate Hn]|].
        intros e [= <-]. destruct (Hthrow e0 eq_refl) as [p ->]. exists ("." ++ key ++ p). f_equal. now rewrite !append_assoc.
Qed.

(** C37: The credential guard of notification content accepts exactly the values
    without credentials: no text anywhere in the value has a piece that one of
    the credential patterns matches (bearer and basic tokens, private keys,
    JWTs, keys of AppPort, Stripe, GitHub, Slack and AWS, cookies), and
    nothing is carried under a field named like a credential.  What it throws
    names the path and nothing of the value. *)
Theorem credential_guard_exact value path :
  (assertNoCredentials value path = Ok tt <-> noCredentials value) /\
  forall e, assertNoCredentials value path = Throw e -> exists p, e = NotificationSensitiveDataError (path ++ p).
Proof. apply guard_spec. Qed.
