(* ===== verification/Jobs.v ===== *)
(** * Jobs: the job store and the job service

    [jobs/store.ts] and [jobs/service.ts].  The service's options are
    [JobService]; its handler table is part of it, so [register] returns the
    changed service. *)

From S2P Require Import Prelude JsString JsTime Errors Models Store Principal Manifest Evidence Gateway.
From Stdlib Require Import ZArith Lia Ascii.
Local Open Scope string_scope.
Local Open Scope Z_scope.

(** ** [jobs/store.ts] *)

Section store.
Context {DB : Type} `{FeltDB DB}.

Definition js_create (job : Job) : M DB unit :=
  transaction [TxPut CJobs (j_id job) true None job].

Definition js_get (tenantId id : string) : M DB (option Job) :=
  job ← get CJobs id;
  mret match job with
       | Some j => if String.eqb (j_tenantId j) tenantId then Some j else None
       | None => None
       end.

Definition js_list (tenantId : string) : M DB (list Job) :=
  find CJobs (fun j => String.eqb (j_tenantId j) tenantId).

Definition js_listByStatus (tenantId : string) (status : JobStatus) : M DB (list Job) :=
  find CJobs (fun j => String.eqb (j_tenantId j) tenantId && bool_decide (j_status j = status)).

(** [x && x <= now] on an optional time. *)
Definition dueAt (x : option string) (now : string) : bool :=
  match x with Some t => truthy t && strLe t now | None => false end.

Definition isDue (now : string) (j : Job) : bool :=
  ((bool_decide (j_status j = JPending) || bool_decide (j_status j = JScheduled)) && strLe (j_runAt j) now)
  || (bool_decide (j_status j = JRetrying) && dueAt (j_nextAttemptAt j) now).

Definition isStale (now : string) (j : Job) : bool :=
  bool_decide (j_status j = JRunning) && dueAt (j_leaseExpiresAt j) now.

Definition js_listDue (tenantId now : string) : M DB (list Job) :=
  all ← find CJobs (fun j => String.eqb (j_tenantId j) tenantId);
  mret (List.filter (fun j => isDue now j || isStale now j) all).

Definition ofTenant (tenantId : string) (item : option Job) : option Job :=
  match item with
  | Some j => if String.eqb (j_tenantId j) tenantId then Some j else None
  | None => None
  end.

Definition claimPatch (leaseExpiresAt now : string) (j : Job) : Job :=
  j <| j_status := JRunning |> <| j_leaseExpiresAt := Some leaseExpiresAt |> <| j_startedAt := Some now |>.

Definition js_claim (tenantId jobId : string) (expectedVersion : Z) (leaseExpiresAt : string)
  : M DB (option Job) :=
  now ← systemIso;
  result ← updateIfVersion CJobs jobId expectedVersion (claimPatch leaseExpiresAt now);
  mret (ofTenant tenantId result).

Definition js_updateJob (tenantId jobId : string) (expectedVersion : Z) (updates : Job -> Job)
  : M DB (option Job) :=
  result ← updateIfVersion CJobs jobId expectedVersion updates;
  mret (ofTenant tenantId result).

Definition ss_create (schedule : JobSchedule) : M DB unit :=
  transaction [TxPut CSchedules (s_id schedule) true None schedule].

Definition ss_get (tenantId id : string) : M DB (option JobSchedule) :=
  schedule ← get CSchedules id;
  mret match schedule with
       | Some s => if String.eqb (s_tenantId s) tenantId then Some s else None
       | None => None
       end.

Definition ss_list (tenantId : string) : M DB (list JobSchedule) :=
  find CSchedules (fun s => String.eqb (s_tenantId s) tenantId).

Definition ss_listDue (tenantId now : string) : M DB (list JobSchedule) :=
  all ← find CSchedules (fun s => String.eqb (s_tenantId s) tenantId && s_enabled s);
  mret (List.filter (fun s => strLe (s_nextRunAt s) now) all).

Definition ss_updateSchedule (tenantId scheduleId : string) (expectedVersion : Z)
  (updates : JobSchedule -> JobSchedule) : M DB (option JobSchedule) :=
  result ← updateIfVersion CSchedules scheduleId expectedVersion updates;
  mret match result with
       | Some s => if String.eqb (s_tenantId s) tenantId then Some s else None
       | None => None
       end.

Definition ss_disable (tenantId scheduleId : string) (expectedVersion : Z) : M DB (option JobSchedule) :=
  ss_updateSchedule tenantId scheduleId expectedVersion (fun s => s <| s_enabled := false |>).

Definition ja_record (event : JobAuditEvent) : M DB unit := insert CJobAudit (ja_id event) event.
End store.

(** ** Intervals *)

(** The milliseconds of [<number><s|m|h|d>]; [None] when the text does not match. *)
Definition unitMs (u : ascii) : option Z :=
  if Ascii.eqb u "s" then Some 1000
  else if Ascii.eqb u "m" then Some (60 * 1000)
  else if Ascii.eqb u "h" then Some (60 * 60 * 1000)
  else if Ascii.eqb u "d" then Some (24 * 60 * 60 * 1000)
  else None.

Definition intervalMs (interval : string) : option Z :=
  match splitLast interval with
  | Some (digits, u) =>
      if truthy digits && all isDigit digits then
        match unitMs u with Some m => Some (digitsValue 0 digits * m) | None => None end
      else None
  | None => None
  end.

Definition nextRunTime (now interval : string) : outcome string :=
  match intervalMs interval with
  | None => Throw (InvalidIntervalError interval)
  | Some delayMs =>
      match dateOf now with
      | Some t => match toISO (t + delayMs) with Some s => Ok s | None => Throw invalidDate end
      | None => Throw invalidDate
      end
  end.

(** ** [jobs/service.ts] *)

Definition DEFAULT_MAX_ATTEMPTS : Z := 5.
Definition INITIAL_RETRY_DELAY_MS : Z := 1000.
Definition LEASE_DURATION_MS : Z := 30000.
Definition SYSTEM_JOB_TYPE_PREFIX : string := "appport.".

Record JobExecution := mkExecution {
  ex_principal : VerifiedPrincipal;
  ex_context : ServiceExecutionContext;
  ex_runId : string }.

(** [None]: the handler gets no execution (legacy and system jobs). *)
Definition JobHandler (DB : Type) : Type := Job -> option JobExecution -> M DB unit.

Record JobService (DB : Type) := mkJobService {
  jv_authority : option (ServiceGateway DB);
  jv_maxRetryAttempts : Z;
  jv_leaseDurationMs : Z;
  jv_allowedTypes : option (list string);
  jv_handlers : gmap string (JobHandler DB) }.
Arguments mkJobService {DB}. Arguments jv_authority {DB}. Arguments jv_maxRetryAttempts {DB}.
Arguments jv_leaseDurationMs {DB}. Arguments jv_allowedTypes {DB}. Arguments jv_handlers {DB}.

(** The constructor: an empty [allowedTypes] allows every type. *)
Definition newJobService {DB} (authority : option (ServiceGateway DB)) (maxRetryAttempts leaseDurationMs : option Z)
  (allowedTypes : list string) : JobService DB :=
  mkJobService authority (orElse maxRetryAttempts DEFAULT_MAX_ATTEMPTS)
    (orElse leaseDurationMs LEASE_DURATION_MS)
    match allowedTypes with [] => None | _ => Some allowedTypes end ∅.

Definition assertApplicationJobType (type : string) : outcome unit :=
  if startsWith type SYSTEM_JOB_TYPE_PREFIX
  then Throw (JsError "Error" ("Job type " ++ quoted type ++ " is reserved for AppPort Services"))
  else Ok tt.

Section service.
Context {DB : Type} `{FeltDB DB}.
Variable s : JobService DB.

Definition assertAllowedType (type : string) (authorityMode : bool) : outcome unit :=
  match jv_allowedTypes s with
  | None => Ok tt
  | Some types =>
      if existsb (String.eqb type) types then Ok tt
      else let m := "Job type " ++ quoted type ++ " is not declared in appport.toml" in
           if authorityMode then Throw (invalidRequest m) else Throw (JsError "Error" m)
  end.

Definition setHandler (type : string) (handler : JobHandler DB) : JobService DB :=
  mkJobService (jv_authority s) (jv_maxRetryAttempts s) (jv_leaseDurationMs s) (jv_allowedTypes s)
    (<[type := handler]> (jv_handlers s)).

Definition register (type : string) (handler : JobHandler DB) : outcome (JobService DB) :=
  match assertApplicationJobType type with
  | Throw e => Throw e
  | Ok _ => match assertAllowedType type false with
            | Throw e => Throw e
            | Ok _ => Ok (setHandler type handler)
            end
  end.

Definition registerSystem (type : string) (handler : JobHandler DB) : outcome (JobService DB) :=
  if startsWith type SYSTEM_JOB_TYPE_PREFIX then Ok (setHandler type handler)
  else Throw (JsError "Error" ("System job types must start with " ++ quoted SYSTEM_JOB_TYPE_PREFIX)).

Definition jobsGateway : M DB (ServiceGateway DB) :=
  match jv_authority s with
  | Some g => mret g
  | None => throw (ServiceAuthorityError AUTHORITY_UNAVAILABLE "Jobs have no AuthBoundry authority configured" noDetails)
  end.

Definition audit (type : string) (jobId scheduleId : option string) (tenantId principalId timestamp : string)
  (success : bool) (details : list (string * jsval)) : M DB unit :=
  id ← randomUUID;
  ja_record (mkJobAudit id type jobId scheduleId tenantId principalId timestamp success details None).

(** ** Creating *)

Definition durableFor (principal : option VerifiedPrincipal) (delegationId authorizedBy : option string)
  : option DurablePrincipal :=
  match principal with
  | Some p =>
      if present authorizedBy then
        Some (toDurablePrincipal p
                match delegationId with Some d => Some d | None => vp_delegationId p end authorizedBy)
      else None
  | None => None
  end.

(** A tenant is always present here: the verified caller's, or the one a
    trusted caller must pass ([input.tenantId!]). *)
Definition createJobRecord (input : CreateJobInput) (principalId : string) (applicationId : option string)
  (principal : option VerifiedPrincipal) (authorizedBy : option string) : M DB Job :=
  id ← randomUUID;
  now ← nowIso;
  let runAt := orElse (ci_runAt input) now in
  let job := mkJob id (orElse (ci_tenantId input) "") (ifPresent applicationId) (ci_type input)
        (ci_payload input) (if strLe runAt now then JPending else JScheduled) runAt 0
        (orElse (ci_maxAttempts input) (jv_maxRetryAttempts s)) now None None None None None None
        (durableFor principal (ci_delegationId input) authorizedBy) 1 in
  _ ← js_create job;
  _ ← audit "job.created" (Some id) None (j_tenantId job) principalId now true [("jobType", JStr (j_type job))];
  mret job.

Definition createScheduleRecord (input : ScheduleRecurringInput) (principalId : string)
  (applicationId : option string) (principal : option VerifiedPrincipal) (authorizedBy : option string)
  : M DB JobSchedule :=
  id ← randomUUID;
  now ← nowIso;
  nextRunAt ← ofOutcome (nextRunTime now (sr_interval input));
  let schedule := mkSchedule id (orElse (sr_tenantId input) "") (ifPresent applicationId) (sr_type input)
        (sr_payload input) (sr_interval input) nextRunAt true now principalId
        (durableFor principal (sr_delegationId input) authorizedBy) 1 in
  _ ← ss_create schedule;
  _ ← audit "job.schedule.created" None (Some id) (s_tenantId schedule) principalId now true
        [("jobType", JStr (s_type schedule)); ("interval", JStr (s_interval schedule))];
  mret schedule.

Definition systemEnqueue (input : CreateJobInput) : M DB Job :=
  if startsWith (ci_type input) SYSTEM_JOB_TYPE_PREFIX
  then createJobRecord input "system" None None None
  else throw (JsError "Error" ("System job types must start with " ++ quoted SYSTEM_JOB_TYPE_PREFIX)).

(** [{ jobType, ...(delegationId ? { delegationId } : {}) }] *)
Definition typeAttributes (type : string) (delegationId : option string) : gmap string string :=
  match ifPresent delegationId with
  | Some d => {[ "jobType" := type; "delegationId" := d ]}
  | None => {[ "jobType" := type ]}
  end.

Definition jobsOptions : ExecuteOptions := mkOptions "jobs" None None None.

Definition orElseOpt (a b : option string) : option string := match a with Some _ => a | None => b end.

Definition enqueue (input : CreateJobInput) (caller : Caller) : M DB Job :=
  _ ← ofOutcome (assertApplicationJobType (ci_type input));
  _ ← ofOutcome (assertAllowedType (ci_type input) (bool_decide (is_Some (jv_authority s))));
  match jv_authority s with
  | None => createJobRecord input "system" None None None
  | Some g =>
      principal ← ofOutcome (requireVerifiedPrincipal caller);
      _ ← ofOutcome (rejectCallerActor (ci_extra input) principal);
      tenantId ← ofOutcome (resolveTenant (ofOption (ci_tenantId input)) principal);
      let delegationId := orElseOpt (ci_delegationId input) (vp_delegationId principal) in
      execute g "jobs.create" (CVerified principal)
        (mkResource "job" tenantId None (Some (typeAttributes (ci_type input) delegationId))) jobsOptions
        (fun context _ => createJobRecord (input <| ci_tenantId := Some tenantId |>) (vp_principalId principal)
           (Some (g_application g)) (Some principal) (Some (a_decisionId (x_authorization context))))
  end.

Definition schedule (input : CreateJobInput) (caller : Caller) : M DB Job :=
  if present (ci_runAt input) then enqueue input caller
  else match jv_authority s with
       | Some _ => throw (invalidRequest "schedule() requires runAt")
       | None => throw (JsError "Error" "schedule() requires runAt")
       end.

Definition scheduleRecurring (input : ScheduleRecurringInput) (caller : Caller) : M DB JobSchedule :=
  now ← nowIso;
  _ ← ofOutcome (nextRunTime now (sr_interval input));
  _ ← ofOutcome (assertApplicationJobType (sr_type input));
  _ ← ofOutcome (assertAllowedType (sr_type input) (bool_decide (is_Some (jv_authority s))));
  match jv_authority s with
  | None => createScheduleRecord input (orElse (sr_createdBy input) "system") None None None
  | Some g =>
      principal ← ofOutcome (requireVerifiedPrincipal caller);
      _ ← ofOutcome (rejectCallerActor (("createdBy", ofOption (sr_createdBy input)) :: sr_extra input) principal);
      tenantId ← ofOutcome (resolveTenant (ofOption (sr_tenantId input)) principal);
      let delegationId := orElseOpt (sr_delegationId input) (vp_delegationId principal) in
      execute g "schedules.create" (CVerified principal)
        (mkResource "schedule" tenantId None (Some (typeAttributes (sr_type input) delegationId))) jobsOptions
        (fun context _ => createScheduleRecord (input <| sr_tenantId := Some tenantId |>)
           (vp_principalId principal) (Some (g_application g)) (Some principal)
           (Some (a_decisionId (x_authorization context))))
  end.

(** ** Reading *)

Definition getJob (tenantId jobId : string) : M DB (option Job) := js_get tenantId jobId.
Definition listJobs (tenantId : string) : M DB (list Job) := js_list tenantId.
Definition listDueJobs (tenantId : string) : M DB (list Job) :=
  now ← nowIso; js_listDue tenantId now.
Definition getSchedule (tenantId scheduleId : string) : M DB (option JobSchedule) := ss_get tenantId scheduleId.
Definition listSchedules (tenantId : string) : M DB (list JobSchedule) := ss_list tenantId.

(** ** Cancelling and retrying *)

Definition recordScheduleAudit (type : string) (sch : JobSchedule) (principalId : string) : M DB unit :=
  id ← randomUUID;
  timestamp ← nowIso;
  ja_record (mkJobAudit id type None (Some (s_id sch)) (s_tenantId sch) principalId timestamp true [] None).

Definition disableAndAudit (tenantId scheduleId : string) (version : Z) (principalId : string)
  : M DB (option JobSchedule) :=
  updated ← ss_disable tenantId scheduleId version;
  match updated with
  | Some u => _ ← recordScheduleAudit "job.schedule.disabled" u principalId; mret (Some u)
  | None => mret None
  end.

Definition disableScheduleLegacy (tenantId scheduleId : string) : M DB (option JobSchedule) :=
  sch ← ss_get tenantId scheduleId;
  match sch with
  | Some c => disableAndAudit tenantId scheduleId (s_version c) "system"
  | None => mret None
  end.

Definition disableSchedule (tenantId scheduleId : string) (caller : Caller) : M DB (option JobSchedule) :=
  match jv_authority s with
  | None => disableScheduleLegacy tenantId scheduleId
  | Some g =>
      principal ← ofOutcome (requireVerifiedPrincipal caller);
      tenant ← ofOutcome (resolveTenant (JStr tenantId) principal);
      sch ← ss_get tenant scheduleId;
      match sch with
      | Some c =>
          if negb (oeqb (s_applicationId c) (Some (g_application g))) then mret None
          else execute g "schedules.cancel" (CVerified principal)
                 (mkResource "schedule" tenantId (Some (s_id c))
                    (Some {[ "jobType" := s_type c; "createdBy" := s_createdBy c ]})) jobsOptions
                 (fun _ _ => disableAndAudit tenantId scheduleId (s_version c) (vp_principalId principal))
      | None => mret None
      end
  end.

Definition resetPatch (j : Job) : Job :=
  j <| j_status := JPending |> <| j_attemptCount := 0 |> <| j_nextAttemptAt := None |> <| j_lastError := None |>.

Definition resetJob (job : Job) (principalId : string) : M DB (option Job) :=
  now ← nowIso;
  updated ← js_updateJob (j_tenantId job) (j_id job) (j_version job) resetPatch;
  match updated with
  | Some u => _ ← audit "job.retried" (Some (j_id u)) None (j_tenantId u) principalId now true []; mret (Some u)
  | None => mret None
  end.

Definition retry (tenantId jobId : string) (caller : Caller) : M DB (option Job) :=
  job ← js_get tenantId jobId;
  match job with
  | None => mret None
  | Some j =>
      match jv_authority s with
      | None => resetJob j "system"
      | Some g =>
          principal ← ofOutcome (requireVerifiedPrincipal caller);
          tenant ← ofOutcome (resolveTenant (JStr tenantId) principal);
          owned ← js_get tenant jobId;
          match owned with
          | Some o =>
              if negb (oeqb (j_applicationId o) (Some (g_application g))) then mret None
              else execute g "jobs.retry" (CVerified principal)
                     (mkResource "job" tenantId (Some (j_id o)) (Some {[ "jobType" := j_type o ]})) jobsOptions
                     (fun _ _ => resetJob o (vp_principalId principal))
          | None => mret None
          end
      end
  end.

(** ** Settling a run *)

Definition completePatch (completedAt : string) (j : Job) : Job :=
  j <| j_status := JCompleted |> <| j_completedAt := Some completedAt |>.

Definition completeJob (job : Job) (principalId : string) (runId : option string) : M DB unit :=
  completedAt ← nowIso;
  _ ← js_updateJob (j_tenantId job) (j_id job) (j_version job) (completePatch completedAt);
  audit "job.completed" (Some (j_id job)) None (j_tenantId job) principalId completedAt true
    match ifPresent runId with Some r => [("runId", JStr r)] | None => [] end.

Definition failPatch (error : string) (attempts : Z) (j : Job) : Job :=
  j <| j_status := JFailed |> <| j_lastError := Some error |> <| j_attemptCount := attempts |>.

Definition retryPatch (at_ error : string) (attempts : Z) (j : Job) : Job :=
  j <| j_status := JRetrying |> <| j_nextAttemptAt := Some at_ |> <| j_lastError := Some error |>
    <| j_attemptCount := attempts |>.

Definition retryDelayMs (attemptCount : Z) : Z := INITIAL_RETRY_DELAY_MS * 2 ^ attemptCount.

Definition recordExecutionFailure (job : Job) (principalId : string) (error : exn) : M DB unit :=
  let message := errorMessage error in
  let nextAttempt := j_attemptCount job + 1 in
  if j_maxAttempts job <=? nextAttempt then
    failedAt ← nowIso;
    _ ← js_updateJob (j_tenantId job) (j_id job) (j_version job) (failPatch message nextAttempt);
    audit "job.failed" (Some (j_id job)) None (j_tenantId job) principalId failedAt false
      [("error", JStr message); ("attemptCount", JInt nextAttempt)]
  else
    t ← nowMs;
    nextAttemptAt ← isoString (t + retryDelayMs (j_attemptCount job));
    _ ← js_updateJob (j_tenantId job) (j_id job) (j_version job) (retryPatch nextAttemptAt message nextAttempt);
    id ← randomUUID;
    timestamp ← nowIso;
    ja_record (mkJobAudit id "job.retrying" (Some (j_id job)) None (j_tenantId job) principalId timestamp false
      [("error", JStr message); ("nextAttemptAt", JStr nextAttemptAt); ("attemptCount", JInt nextAttempt)] None).

Definition denyPatch (reason : string) (j : Job) : Job :=
  j <| j_status := JFailed |> <| j_lastError := Some reason |>.

Definition principalIdOr (job : Job) (default : string) : string :=
  match j_principal job with Some d => dp_principalId d | None => default end.

Definition deny (job : Job) (reason : string) : M DB unit :=
  _ ← js_updateJob (j_tenantId job) (j_id job) (j_version job) (denyPatch reason);
  id ← randomUUID;
  timestamp ← nowIso;
  ja_record (mkJobAudit id "job.denied" (Some (j_id job)) None (j_tenantId job)
    (principalIdOr job "anonymous") timestamp false [("reason", JStr reason)] None).

(** ** Executing *)

Definition executeLegacyHandler (job : Job) (handler : JobHandler DB) : M DB bool :=
  tryCatch (
    _ ← handler job None;
    _ ← completeJob job (principalIdOr job "system") None;
    mret true)
  (fun error =>
    _ ← recordExecutionFailure job (principalIdOr job "system") error;
    mret false).

Definition postponePatch (at_ error : string) (j : Job) : Job :=
  j <| j_status := JRetrying |> <| j_nextAttemptAt := Some at_ |> <| j_lastError := Some error |>.

Definition runIdOf (job : Job) : string := j_id job ++ ":" ++ num (j_attemptCount job + 1).

(** The run of a claimed job under its durable principal. *)
Definition executeAuthorized (g : ServiceGateway DB) (tenantId jobId : string) (claimed : Job)
  (handler : JobHandler DB) : M DB bool :=
  match j_principal claimed with
  | Some durable =>
    if negb (String.eqb (dp_tenantId durable) tenantId) then
      _ ← deny claimed "DENIED: anonymous job execution is not permitted; enqueue jobs through an authorized caller";
      mret false
    else
    attested ← tryCatch (_ ← attest g (Some durable) ["jobs.create"; "schedules.create"]; mret true)
      (fun error => _ ← deny claimed ("DENIED: " ++ errorMessage error); mret false);
    if negb attested then mret false
    else
    let runId := runIdOf claimed in
    principal ← ofOutcome (mintVerifiedPrincipal (durableClaims durable runId) ByJob);
    tryCatch (
      _ ← execute g "jobs.execute" (CVerified principal)
            (mkResource "job" tenantId (Some (j_id claimed)) (Some {[ "jobType" := j_type claimed ]}))
            (mkOptions "jobs" None None (Some runId))
            (fun context _ => handler claimed (Some (mkExecution principal context runId)));
      _ ← completeJob claimed (vp_principalId principal) (Some runId);
      mret true)
    (fun error =>
      if hasCode DENIED error || hasCode UNAUTHENTICATED error then
        _ ← deny claimed ("DENIED: " ++ errorMessage error); mret false
      else if hasCode AUTHORITY_UNAVAILABLE error || hasCode AUTHORIZATION_TIMEOUT error then
        t ← nowMs;
        nextAttemptAt ← isoString (t + INITIAL_RETRY_DELAY_MS);
        _ ← js_updateJob tenantId jobId (j_version claimed)
              (postponePatch nextAttemptAt (failureCodeOf error ++ ": " ++ errorMessage error));
        mret false
      else
        _ ← recordExecutionFailure claimed (vp_principalId principal) error; mret false)
  | None =>
      _ ← deny claimed "DENIED: anonymous job execution is not permitted; enqueue jobs through an authorized caller";
      mret false
  end.

Definition abandonedMessage (attemptCount : Z) : string :=
  "lease expired before attempt " ++ num attemptCount ++ " settled; it may have partly run".

Definition countPatch (attemptCount : Z) (error : string) (j : Job) : Job :=
  j <| j_attemptCount := attemptCount |> <| j_lastError := Some error |>.

(** An abandoned attempt is counted; [None] when the run must stop here. *)
Definition takeOver (tenantId jobId nowIso_ : string) (job : Job) : M DB (option Job) :=
  let attemptCount := j_attemptCount job + 1 in
  let lastError := abandonedMessage attemptCount in
  if j_maxAttempts job <=? attemptCount then
    failed ← js_updateJob tenantId jobId (j_version job) (failPatch lastError attemptCount);
    match failed with
    | Some _ =>
        _ ← audit "job.failed" (Some jobId) None tenantId (principalIdOr job "system") nowIso_ false
              [("error", JStr lastError); ("attemptCount", JInt attemptCount)];
        mret None
    | None => mret None
    end
  else js_updateJob tenantId jobId (j_version job) (countPatch attemptCount lastError).

(** From the claim on. *)
Definition claimAndRun (tenantId jobId : string) (job : Job) : M DB bool :=
  t ← nowMs;
  leaseExpiresAt ← isoString (t + jv_leaseDurationMs s);
  claimed ← js_claim tenantId jobId (j_version job) leaseExpiresAt;
  match claimed with
  | None => mret false
  | Some c =>
      match jv_handlers s !! j_type c with
      | None =>
          _ ← js_updateJob tenantId jobId (j_version c)
                (denyPatch ("Handler not registered for type: " ++ j_type c));
          mret false
      | Some handler =>
          match jv_authority s with
          | Some g =>
              if startsWith (j_type c) SYSTEM_JOB_TYPE_PREFIX then executeLegacyHandler c handler
              else executeAuthorized g tenantId jobId c handler
          | None => executeLegacyHandler c handler
          end
      end
  end.

Definition isAbandoned (now : string) (job : Job) : bool := isStale now job.

Definition executeJob (tenantId jobId workerId : string) : M DB bool :=
  job ← js_get tenantId jobId;
  match job with
  | None => mret false
  | Some j =>
      now ← nowIso;
      let running := bool_decide (j_status j = JRunning) in
      let abandoned := isAbandoned now j in
      if running && negb abandoned && negb (oeqb (j_leaseOwner j) (Some workerId)) then mret false
      else if abandoned then
        counted ← takeOver tenantId jobId now j;
        match counted with
        | None => mret false
        | Some c => claimAndRun tenantId jobId c
        end
      else claimAndRun tenantId jobId j
  end.

(** ** Recurring schedules *)

Definition jobFromSchedule (id now : string) (sch : JobSchedule) : Job :=
  mkJob id (s_tenantId sch) (ifPresent (s_applicationId sch)) (s_type sch) (s_payload sch) JPending now 0
    DEFAULT_MAX_ATTEMPTS now None None None None None None (s_principal sch) 1.

Definition processSchedule (tenantId now : string) (sch : JobSchedule) : M DB unit :=
  jobId ← randomUUID;
  _ ← js_create (jobFromSchedule jobId now sch);
  nextRunAt ← ofOutcome (nextRunTime now (s_interval sch));
  updated ← ss_updateSchedule tenantId (s_id sch) (s_version sch) (fun c => c <| s_nextRunAt := nextRunAt |>);
  match updated with
  | Some _ =>
      audit "job.created_from_schedule" (Some jobId) (Some (s_id sch)) (s_tenantId sch)
        match s_principal sch with Some d => dp_principalId d | None => "anonymous" end now true []
  | None => mret tt
  end.

Fixpoint processAll (tenantId now : string) (due : list JobSchedule) (created : Z) : M DB Z :=
  match due with
  | [] => mret created
  | sch :: rest => _ ← processSchedule tenantId now sch; processAll tenantId now rest (created + 1)
  end.

Definition processRecurringSchedules (tenantId : string) : M DB Z :=
  now ← nowIso;
  due ← ss_listDue tenantId now;
  processAll tenantId now due 0.
End service.
