(* ===== verification/Notifications.v ===== *)
(** * Notifications: durable notifications and their deliveries

    [notifications/service.ts], [notifications/channels.ts] and
    [storage/notifications.ts].  SHA-256, the size and the clone of the [data]
    of a notification, the parsing of dates in other formats and of cursors,
    and the host's collation belong to the platform.  [Promise.all] runs its
    operations one after the other and then throws the first error.  Rows of
    older versions without a status or channels are not represented. *)

From S2P Require Import Prelude JsString Encoding Json JsTime Errors Models Store Principal Manifest Restrictions Evidence Gateway Sensitive Jobs.
From Stdlib Require Import ZArith Lia Ascii.
Local Open Scope string_scope.
Local Open Scope Z_scope.

(** ** [storage/notifications.ts] *)

(** [Promise.all]: every operation runs; the first error is thrown at the end. *)
Definition attempt {DB A} (m : M DB A) : M DB (outcome A) := fun w => ((m w).1, Ok (m w).2).

Fixpoint promiseAll {DB A} (l : list (M DB A)) : M DB (list A) :=
  match l with
  | [] => mret []
  | m :: rest =>
      first ← attempt m;
      others ← attempt (promiseAll rest);
      match first, others with
      | Throw e, _ => throw e
      | _, Throw e => throw e
      | Ok a, Ok l => mret (a :: l)
      end
  end.

Section store.
Context {DB : Type} `{FeltDB DB}.

Definition creation (item : Notification) (deliveries : list NotificationDelivery) : list txop :=
  TxPut CNotifications (n_id item) true None item ::
  map (fun d => TxPut CNotificationDeliveries (nd_id d) true None d) deliveries.

Definition ns_create (item : Notification) : M DB unit := transaction [TxPut CNotifications (n_id item) true None item].
Definition ds_create (item : NotificationDelivery) : M DB unit :=
  transaction [TxPut CNotificationDeliveries (nd_id item) true None item].

(** [false], and nothing written, when the notification is there already. *)
Definition ns_createWithDeliveries (item : Notification) (deliveries : list NotificationDelivery) : M DB bool :=
  let operations := creation item deliveries in
  tryCatch (_ ← transaction operations; mret true) (fun error =>
    existing ← get CNotifications (n_id item);
    match existing with
    | Some _ => mret false
    | None =>
        orphaned ← promiseAll (map (fun d =>
          stored ← get CNotificationDeliveries (nd_id d);
          mret match stored with Some _ => Some (nd_id d) | None => None end) deliveries);
        match omap id orphaned with
        | [] => throw error
        | staleIds =>
            _ ← promiseAll (map (fun id => remove CNotificationDeliveries id) staleIds);
            _ ← transaction operations;
            mret true
        end
    end).

Definition ofNotificationTenant (tenantId : string) (item : option Notification) : option Notification :=
  match item with Some n => if String.eqb (n_tenantId n) tenantId then Some n else None | None => None end.

Definition ns_get (tenantId id : string) : M DB (option Notification) :=
  item ← get CNotifications id; mret (ofNotificationTenant tenantId item).

Definition ns_list (tenantId : string) : M DB (list Notification) :=
  find CNotifications (fun n => String.eqb (n_tenantId n) tenantId).

Definition ns_update (id : string) (expectedVersion : Z) (updates : Notification -> Notification) : M DB (option Notification) :=
  current ← get CNotifications id;
  match current with
  | None => mret None
  | Some c => updateIfVersion CNotifications id expectedVersion (fun _ => updates c)
  end.

Definition ns_delete (id : string) : M DB unit := remove CNotifications id.

Definition ds_get (tenantId id : string) : M DB (option NotificationDelivery) :=
  item ← get CNotificationDeliveries id;
  mret match item with Some d => if String.eqb (nd_tenantId d) tenantId then Some d else None | None => None end.

Definition ds_list (tenantId : string) (notificationId : option string) : M DB (list NotificationDelivery) :=
  find CNotificationDeliveries (fun d => String.eqb (nd_tenantId d) tenantId &&
    match ifPresent notificationId with Some n => String.eqb (nd_notificationId d) n | None => true end).

Definition ds_update (tenantId id : string) (expectedVersion : Z) (updates : NotificationDelivery -> NotificationDelivery)
  : M DB (option NotificationDelivery) :=
  current ← get CNotificationDeliveries id;
  match current with
  | None => mret None
  | Some c =>
      if negb (String.eqb (nd_tenantId c) tenantId) then mret None
      else updateIfVersion CNotificationDeliveries id expectedVersion (fun _ => updates c)
  end.

Definition ds_delete (id : string) : M DB unit := remove CNotificationDeliveries id.

Definition nx_record (e : NotificationAuditEvent) : M DB unit := insert CNotificationAudit (nx_id e) e.
End store.

(** ** [notifications/channels.ts] *)

Inductive NotificationDeliveryResult :=
| ChannelDelivered (externalId : option string)
| ChannelFailed (reason : string) (retryable : option bool).

(** [deliver] of a channel, and the registry: a [Map] by channel type. *)
Definition Channel (DB : Type) : Type := Notification -> NotificationDelivery -> M DB NotificationDeliveryResult.
Definition ChannelRegistry (DB : Type) : Type := list (string * Channel DB).

(** [^[a-z][a-z0-9_-]*$] *)
Definition isChannelType (s : string) : bool :=
  match s with
  | String c r => isLower c && all (fun c => isLower c || isDigit c || oneOf "_-" c) r
  | EmptyString => false
  end.

Definition registerChannel {DB} (registry : ChannelRegistry DB) (type : string) (deliver : Channel DB) : outcome (ChannelRegistry DB) :=
  if negb (isChannelType type) then Throw (JsError "Error" ("Invalid notification channel type " ++ quoted type))
  else match mapGet registry type with
       | Some _ => Throw (JsError "Error" ("Notification channel " ++ quoted type ++ " is already registered"))
       | None => Ok (mapSet registry type deliver)
       end.

(** [new NotificationChannelRegistry(channels)] *)
Fixpoint newRegistry {DB} (registry : ChannelRegistry DB) (channels : list (string * Channel DB)) : outcome (ChannelRegistry DB) :=
  match channels with
  | [] => Ok registry
  | (type, deliver) :: rest =>
      match registerChannel registry type deliver with
      | Ok registry' => newRegistry registry' rest
      | Throw e => Throw e
      end
  end.

Definition inAppChannel {DB} : Channel DB := fun _ _ => mret (ChannelDelivered None).

Record BrowserNotificationMessage := mkBrowserMessage {
  bm_notificationId : string;
  bm_deliveryId : string;
  bm_tenantId : string;
  bm_recipient : string;
  bm_type : string;
  bm_idempotencyKey : string;
  bm_createdAt : string;
  bm_expiresAt : option string }.

Definition browserChannel {DB} (push : BrowserNotificationMessage -> M DB unit) : Channel DB := fun n d =>
  _ ← push (mkBrowserMessage (n_id n) (nd_id d) (n_tenantId n) (n_recipient n) (n_type n) (nd_idempotencyKey d)
        (n_createdAt n) (ifPresent (n_expiresAt n)));
  mret (ChannelDelivered (Some (nd_idempotencyKey d))).

(** ** [notifications/service.ts]: constants and errors *)

Definition NOTIFICATION_DELIVERY_JOB : string := "appport.notifications.deliver".
Definition DEFAULT_MAX_DELIVERY_ATTEMPTS : Z := 5.
Definition DEFAULT_RETRY_DELAY_MS : Z := 1000.
Definition MAX_RETRY_DELAY_MS : Z := 60 * 60 * 1000.
Definition ATTEMPT_LEASE_MS : Z := 30000.
Definition MAX_DATA_BYTES : Z := 64 * 1024.
Definition MAX_TEXT_LENGTH : Z := 4096.

Definition INPUT_FIELDS : list string :=
  ["tenantId"; "recipient"; "type"; "title"; "body"; "data"; "source"; "priority"; "channels"; "channel"; "idempotencyKey"; "expiresAt"].

Definition NotificationAuthorizationError : exn := JsError "NotificationAuthorizationError" "Notification operation is not authorized".
Definition NotificationValidationError (message : string) : exn := JsError "NotificationValidationError" message.
Definition NotificationNotFoundError : exn := JsError "NotificationNotFoundError" "Notification not found".

Definition priorityOf (v : jsval) : option NotificationPriority :=
  if isStr v "low" then Some PLow else if isStr v "normal" then Some PNormal
  else if isStr v "high" then Some PHigh else if isStr v "urgent" then Some PUrgent else None.

Definition statusOf (s : string) : option NotificationStatus :=
  if String.eqb s "pending" then Some NPending else if String.eqb s "delivered" then Some NDelivered
  else if String.eqb s "failed" then Some NFailed else if String.eqb s "read" then Some NRead
  else if String.eqb s "acknowledged" then Some NAcknowledged else if String.eqb s "expired" then Some NExpired else None.

Definition requiredText (value : jsval) (name : string) (max : Z) : outcome string :=
  match value with
  | JStr s =>
      if blank s then Throw (NotificationValidationError (name ++ " is required"))
      else if max <? Z.of_nat (String.length s) then Throw (NotificationValidationError (name ++ " is too long"))
      else Ok s
  | _ => Throw (NotificationValidationError (name ++ " is required"))
  end.

(** A property that may be missing, and must otherwise be a text. *)
Definition optionalText (value : jsval) (name : string) (max : Z) : outcome (option string) :=
  if isUndef value then Ok None
  else match requiredText value name max with Ok s => Ok (Some s) | Throw e => Throw e end.

(** [^[A-Za-z0-9][A-Za-z0-9_.:-]*$] *)
Definition isNotificationType (s : string) : bool :=
  match s with String c r => isAlnum c && all (alnumOr "_.:-") r | EmptyString => false end.

Definition normalizeSource (value : jsval) : outcome (option NotificationSource) :=
  match value with
  | JUndef => Ok None
  | JObj fields =>
      match List.find (fun kv => negb (existsb (String.eqb kv.1) ["type"; "id"; "eventId"])) fields with
      | Some (key, _) => Throw (NotificationValidationError ("Unknown source field: " ++ key))
      | None =>
          match requiredText (getField fields "type") "source.type" 128 with
          | Throw e => Throw e
          | Ok type =>
              match optionalText (getField fields "id") "source.id" 256 with
              | Throw e => Throw e
              | Ok id =>
                  match optionalText (getField fields "eventId") "source.eventId" 256 with
                  | Throw e => Throw e
                  | Ok eventId => Ok (Some (mkSource type id eventId))
                  end
              end
          end
      end
  | _ => Throw (NotificationValidationError "source must be an object")
  end.

(** The normalized source as the object that is checked for credentials. *)
Definition sourceObject (s : NotificationSource) : jsval :=
  JObj (("type", JStr (so_type s)) ::
    match so_id s with Some i => [("id", JStr i)] | None => [] end ++
    match so_eventId s with Some e => [("eventId", JStr e)] | None => [] end)%list.

(** [input.channels ?? (input.channel !== undefined ? [input.channel] : defaults)] *)
Definition requestedChannels (input : list (string * jsval)) (defaults : list string) : jsval :=
  match getField input "channels" with
  | JUndef | JNull =>
      let channel := getField input "channel" in
      if isUndef channel then JArr (map JStr defaults) else JArr [channel]
  | v => v
  end.

(** [requested[0] ?? defaults[0] ?? 'in-app'], of a list of texts. *)
Definition firstRequestedChannel (input : list (string * jsval)) (defaults : list string) : string :=
  let fallback := orElse (head defaults) "in-app" in
  match requestedChannels input defaults with
  | JArr (JStr c :: _) => c
  | JStr (String c _) => String c EmptyString
  | _ => fallback
  end.

Definition texts (l : list jsval) : option (list string) :=
  foldr (fun v acc => match v, acc with JStr s, Some r => Some (s :: r) | _, _ => None end) (Some []) l.

Definition SENSITIVE_REASON : re :=
  sequence [Edge;
    anyOf [litI "password"; litI "passwd"; litI "passphrase"; litI "authorization";
      sequence [litI "refresh"; upTo 1 (Chr (oneOf "_-")); litI "token"];
      sequence [litI "access"; upTo 1 (Chr (oneOf "_-")); litI "token"];
      sequence [litI "id"; upTo 1 (Chr (oneOf "_-")); litI "token"];
      sequence [litI "session"; upTo 1 (Chr (oneOf "_-")); litI "token"];
      sequence [litI "api"; upTo 1 (Chr (oneOf "_-")); litI "key"];
      sequence [litI "client"; upTo 1 (Chr (oneOf "_-")); litI "secret"];
      sequence [litI "private"; upTo 1 (Chr (oneOf "_-")); litI "key"];
      sequence [litI "signing"; upTo 1 (Chr (oneOf "_-")); anyOf [litI "key"; litI "secret"]];
      litI "cookie"; litI "cookies"; litI "credential"; litI "credentials"];
    Edge; Many isSpace; Chr (oneOf ":=")].

Definition isSensitiveReason (reason : string) : bool := isSensitiveValue reason || test SENSITIVE_REASON reason.

Definition safeReason (reason : string) : string :=
  let trimmed := sliceTo 500 (if truthy reason then reason else "delivery_failed") in
  if isSensitiveReason trimmed then "delivery_failed (details withheld: contained credential material)" else trimmed.

(** ** Normalizing an input *)

Definition refuse {A} (message : string) : outcome A := Throw (NotificationValidationError message).
Definition checkThat (b : bool) (message : string) : outcome unit := if b then Ok tt else refuse message.

(** What the service asks of the platform. *)
Record NotificationPlatform := mkNotificationPlatform {
  (** [createHash('sha256').update(text).digest('hex')] *)
  np_sha256Hex : string -> string;
  (** [Buffer.byteLength(JSON.stringify(data), 'utf8')] *)
  np_dataBytes : jsval -> outcome Z;
  (** [structuredClone(data)] *)
  np_clone : jsval -> outcome jsval;
  (** [Date.parse] of texts that are not ISO dates *)
  np_otherDate : string -> option Z;
  (** [a.localeCompare(b) <= 0] *)
  np_localeLe : string -> string -> bool;
  (** [JSON.parse(Buffer.from(cursor, 'base64url').toString('utf8'))], [None] where it throws *)
  np_parseCursor : string -> option jsval }.

Record NormalizedNotification := mkNormalized {
  nn_tenantId : string;
  nn_recipient : string;
  nn_type : string;
  nn_title : string;
  nn_body : option string;
  nn_data : option jsval;
  nn_source : option NotificationSource;
  nn_priority : NotificationPriority;
  nn_channels : list string;
  nn_idempotencyKey : option string;
  nn_expiresAt : option string }.

(** [input.field] checked when it was given. *)
Definition whenGiven {A} (value : jsval) (check : outcome A) : outcome (option A) :=
  if isUndef value then Ok None else (a ← check; mret (Some a)).

Definition normalizeBody (value : jsval) : outcome (option string) :=
  match value with
  | JUndef => Ok None
  | JStr s => _ ← checkThat (Z.of_nat (String.length s) <=? MAX_TEXT_LENGTH * 4) "body is too long"; Ok (Some s)
  | _ => refuse "body must be a string"
  end.

Section normalize.
Variable np : NotificationPlatform.

Definition checkData (value : jsval) : outcome unit :=
  match value with
  | JUndef => Ok tt
  | JObj _ =>
      size ← np_dataBytes np value;
      checkThat (size <=? MAX_DATA_BYTES) "data is too large"
  | _ => refuse "data must be an object"
  end.

Definition normalizeExpiry (value : jsval) : outcome (option string) :=
  let invalid := refuse "expiresAt must be an ISO-8601 timestamp" in
  match value with
  | JUndef => Ok None
  | JStr s =>
      match parseDate (np_otherDate np) s with
      | Some t => match toISO t with Some at_ => Ok (Some at_) | None => invalid end
      | None => invalid
      end
  | _ => invalid
  end.

(** The list of requested channels, once each, all of them registered. *)
Definition normalizeChannels (registered : string -> bool) (requested : jsval) : outcome (list string) :=
  let invalid := refuse "channels must be a non-empty array of strings" in
  match requested with
  | JArr (v :: l) =>
      match texts (v :: l) with
      | Some names =>
          let channels := dedupe [] names in
          match List.find (fun c => negb (registered c)) channels with
          | Some c => refuse ("Unknown notification channel: " ++ c)
          | None => Ok channels
          end
      | None => invalid
      end
  | _ => invalid
  end.

Definition checkContent (title : string) (body : option string) (data : jsval) (source : option NotificationSource)
  (idempotencyKey : option string) : outcome unit :=
  _ ← assertNoCredentials (JStr title) "title";
  _ ← match body with Some b => assertNoCredentials (JStr b) "body" | None => Ok tt end;
  _ ← if isUndef data then Ok tt else assertNoCredentials data "data";
  _ ← match source with Some s => assertNoCredentials (sourceObject s) "source" | None => Ok tt end;
  match ifPresent idempotencyKey with Some k => assertNoCredentials (JStr k) "idempotencyKey" | None => Ok tt end.

(** [input.idempotencyKey ?? (source?.eventId ? JSON.stringify([...]) : undefined)] *)
Definition derivedKey (given : option string) (source : option NotificationSource) (type : string) : option string :=
  match given with
  | Some k => Some k
  | None =>
      match source with
      | Some s => match ifPresent (so_eventId s) with Some e => Some (jsonStrings [so_type s; e; type]) | None => None end
      | None => None
      end
  end.

Definition normalizeInput (defaultChannels : list string) (defaultPriority : option NotificationPriority)
  (registered : string -> bool) (input : list (string * jsval)) : outcome NormalizedNotification :=
  match List.find (fun kv => negb (existsb (String.eqb kv.1) INPUT_FIELDS)) input with
  | Some (key, _) => refuse ("Unknown field: " ++ key)
  | None =>
      tenantId ← requiredText (getField input "tenantId") "tenantId" 256;
      recipient ← requiredText (getField input "recipient") "recipient" 256;
      type ← requiredText (getField input "type") "type" 128;
      _ ← checkThat (isNotificationType type)
            ("type must contain only letters, digits, " ++ quoted "." ++ ", " ++ quoted "_" ++ ", " ++ quoted ":" ++ ", or " ++ quoted "-");
      title ← requiredText (getField input "title") "title" MAX_TEXT_LENGTH;
      body ← normalizeBody (getField input "body");
      _ ← checkData (getField input "data");
      source ← normalizeSource (getField input "source");
      priority ← match getField input "priority" with
                 | JUndef | JNull => Ok (orElse defaultPriority PNormal)
                 | v => match priorityOf v with Some p => Ok p | None => refuse "Invalid priority" end
                 end;
      channels ← normalizeChannels registered (requestedChannels input defaultChannels);
      expiresAt ← normalizeExpiry (getField input "expiresAt");
      given ← optionalText (getField input "idempotencyKey") "idempotencyKey" 256;
      let idempotencyKey := derivedKey given source type in
      _ ← checkContent title body (getField input "data") source idempotencyKey;
      data ← whenGiven (getField input "data") (np_clone np (getField input "data"));
      mret (mkNormalized tenantId recipient type title body data source priority channels
              (ifPresent idempotencyKey) (ifPresent expiresAt))
  end.

(** A version 5 style identifier, the same for the same parts. *)
Definition stableUuid (parts : list string) : string :=
  let hex := np_sha256Hex np (jsonStrings parts) in
  let slice a b := String.substring a (b - a) hex in
  let variant := hexLower (Nat.lor (Nat.land match String.get 16 hex with Some c => hexValLower c | None => 0%nat end 3) 8) in
  slice 0%nat 8%nat ++ "-" ++ slice 8%nat 12%nat ++ "-5" ++ slice 13%nat 16%nat ++ "-" ++
  String variant (slice 17%nat 20%nat ++ "-" ++ slice 20%nat 32%nat).
End normalize.

(** ** The service *)

Record NotificationService (DB : Type) := mkNotificationService {
  ns_authority : option (ServiceGateway DB);
  ns_channels : ChannelRegistry DB;
  ns_defaultChannels : list string;
  ns_defaultPriority : option NotificationPriority;
  ns_jobs : option (JobService DB);
  ns_maxDeliveryAttempts : Z;
  ns_retryDelayMs : Z;
  (** [deliverInline], [true] unless it is [false] *)
  ns_deliverInline : bool }.
Arguments mkNotificationService {DB}. Arguments ns_authority {DB}. Arguments ns_channels {DB}.
Arguments ns_defaultChannels {DB}. Arguments ns_defaultPriority {DB}. Arguments ns_jobs {DB}.
Arguments ns_maxDeliveryAttempts {DB}. Arguments ns_retryDelayMs {DB}. Arguments ns_deliverInline {DB}.

(** The constructor, less the registration with the job service ([connectJobs]).
    [channels]: a list of channels; the in-app inbox alone when none is given. *)
Definition newNotificationService {DB} (authority : option (ServiceGateway DB)) (channels : option (list (string * Channel DB)))
  (defaultChannels : option (list string)) (defaultPriority : option NotificationPriority) (jobs : option (JobService DB))
  (maxDeliveryAttempts retryDelayMs : option Z) (deliverInline : option bool) : outcome (NotificationService DB) :=
  match newRegistry [] (orElse channels [("in-app", inAppChannel)]) with
  | Throw e => Throw e
  | Ok registry => Ok (mkNotificationService authority registry (orElse defaultChannels ["in-app"]) defaultPriority jobs
      (orElse maxDeliveryAttempts DEFAULT_MAX_DELIVERY_ATTEMPTS) (orElse retryDelayMs DEFAULT_RETRY_DELAY_MS)
      (orElse deliverInline true))
  end.

(** [registerChannel] and [channelTypes] of the service *)
Definition addChannel {DB} (s : NotificationService DB) (type : string) (deliver : Channel DB) : outcome (NotificationService DB) :=
  match registerChannel (ns_channels s) type deliver with
  | Throw e => Throw e
  | Ok registry => Ok (mkNotificationService (ns_authority s) registry (ns_defaultChannels s) (ns_defaultPriority s) (ns_jobs s)
      (ns_maxDeliveryAttempts s) (ns_retryDelayMs s) (ns_deliverInline s))
  end.

Definition channelTypes {DB} (s : NotificationService DB) : list string := map fst (ns_channels s).

(** A principal of the compatibility mode: what of it is a text, and its
    scopes when they are a list. *)
Record LegacyPrincipal := mkLegacy {
  lp_principalId : option string;
  lp_tenantId : option string;
  lp_scopes : option (list string) }.

(** A caller, seen by the gateway and by the compatibility mode. *)
Record NotificationCaller := mkNotificationCaller {
  nc_caller : Caller;
  nc_legacy : option LegacyPrincipal }.

Definition hasScope (p : LegacyPrincipal) (scope : string) : bool :=
  match lp_scopes p with
  | None => false
  | Some scopes =>
      existsb (String.eqb "notifications.admin") scopes || existsb (String.eqb scope) scopes ||
      (String.eqb scope "notifications.read" && existsb (String.eqb "notifications.read:any") scopes)
  end.

(** The principal, when it may act on the tenant with the scope. *)
Definition authorizeTenant (caller : NotificationCaller) (tenantId : jsval) (scope : string) : outcome LegacyPrincipal :=
  match nc_legacy caller with
  | None => Throw NotificationAuthorizationError
  | Some p =>
      if negb (present (lp_principalId p)) || negb (present (lp_tenantId p)) || negb (bool_decide (is_Some (lp_scopes p)))
      then Throw NotificationAuthorizationError
      else if negb (isStr tenantId (orElse (lp_tenantId p) "")) then Throw NotificationAuthorizationError
      else if negb (hasScope p scope) then Throw NotificationAuthorizationError
      else Ok p
  end.

Definition legacyId (p : LegacyPrincipal) : string := orElse (lp_principalId p) "".

Definition authorizeAs (scope : string) (p : LegacyPrincipal) (item : Notification) : outcome unit :=
  if negb (oeqb (Some (n_tenantId item)) (lp_tenantId p)) then Throw NotificationAuthorizationError
  else if negb (oeqb (Some (n_recipient item)) (lp_principalId p)) && negb (hasScope p scope)
       then Throw NotificationAuthorizationError
  else Ok tt.

Definition authorizeRead := authorizeAs "notifications.read:any".
Definition authorizeOwner := authorizeAs "notifications.admin".

Definition notificationResource (item : Notification) : ServiceResource :=
  mkResource "notification" (n_tenantId item) (Some (n_id item)) (Some {[ "recipient" := n_recipient item ]}).

(** [{ ...input, [key]: value }] *)
Definition withField (input : list (string * jsval)) (key : string) (value : jsval) : list (string * jsval) :=
  mapSet input key value.

(** The attributes of a request to send; a recipient that is not a text is left out. *)
Definition sendAttributes (input : list (string * jsval)) (channel : string) : gmap string string :=
  match getField input "recipient" with
  | JStr r => {[ "recipient" := r; "channel" := channel ]}
  | _ => {[ "channel" := channel ]}
  end.

Definition notificationOptions (provider : option string) : ExecuteOptions := mkOptions "notifications" provider None None.

(** The statuses a notification can expire from. *)
Definition expirable (s : NotificationStatus) : bool :=
  match s with NPending | NDelivered | NFailed => true | _ => false end.

Inductive AttemptMode := InitialAttempt | ScheduledAttempt | ManualAttempt.

#[global] Instance AttemptMode_eq_dec : EqDecision AttemptMode.
Proof. solve_decision. Defined.

Record NotificationListOptions := mkListOptions {
  nl_status : option string;
  nl_limit : option Z;
  nl_cursor : option string;
  nl_recipient : option string;
  nl_unread : bool;
  nl_unacknowledged : bool;
  nl_type : option string;
  nl_priority : option NotificationPriority;
  nl_sourceType : option string;
  nl_createdAfter : option string;
  nl_createdBefore : option string }.

Record NotificationResult := mkNotificationResult {
  nr_notification : Notification;
  nr_deliveries : list NotificationDelivery;
  nr_created : bool }.

Definition strLt (a b : string) : bool := negb (strLe b a).

(** ** Pages *)

Definition encodeCursor (item : Notification) : string :=
  toBase64url (utf8 ("{" ++ quoteJson "createdAt" ++ ":" ++ quoteJson (n_createdAt item) ++ "," ++
    quoteJson "id" ++ ":" ++ quoteJson (n_id item) ++ "}")).

Definition afterCursor (item : Notification) (cursor : string * string) : bool :=
  strLt (n_createdAt item) cursor.1 || (String.eqb (n_createdAt item) cursor.1 && strLt (n_id item) cursor.2).

Section pages.
Variable np : NotificationPlatform.

Definition sortDeliveries (deliveries : list NotificationDelivery) : list NotificationDelivery :=
  sortBy (fun a b => np_localeLe np (nd_channel a) (nd_channel b)) deliveries.

Definition decodeCursor (cursor : string) : outcome (string * string) :=
  match np_parseCursor np cursor with
  | Some (JObj value) =>
      match getField value "createdAt", getField value "id" with
      | JStr createdAt, JStr id => Ok (createdAt, id)
      | _, _ => refuse "Invalid cursor"
      end
  | _ => refuse "Invalid cursor"
  end.

(** [b.createdAt.localeCompare(a.createdAt) || b.id.localeCompare(a.id)], at most 0. *)
Definition newestFirst (a b : Notification) : bool :=
  np_localeLe np (n_createdAt b) (n_createdAt a) &&
  (negb (np_localeLe np (n_createdAt a) (n_createdAt b)) || np_localeLe np (n_id b) (n_id a)).

Definition selects (options : NotificationListOptions) (cursor : option (string * string)) (item : Notification) : bool :=
  (negb (nl_unread options) || negb (present (n_readAt item))) &&
  (negb (nl_unacknowledged options) || negb (present (n_acknowledgedAt item))) &&
  match ifPresent (nl_status options) with Some s => bool_decide (statusOf s = Some (n_status item)) | None => true end &&
  match ifPresent (nl_type options) with Some t => String.eqb (n_type item) t | None => true end &&
  match nl_priority options with Some p => bool_decide (n_priority item = p) | None => true end &&
  match ifPresent (nl_sourceType options) with
  | Some t => match n_source item with Some s => String.eqb (so_type s) t | None => false end
  | None => true
  end &&
  match ifPresent (nl_createdAfter options) with Some t => strLt t (n_createdAt item) | None => true end &&
  match ifPresent (nl_createdBefore options) with Some t => strLt (n_createdAt item) t | None => true end &&
  match cursor with Some c => afterCursor item c | None => true end.

Definition pageLimit (options : NotificationListOptions) : nat := Z.to_nat (Z.min (Z.max (orElse (nl_limit options) 50) 1) 100).

(** The page, and the cursor of the next one. *)
Definition pageOf (options : NotificationListOptions) (cursor : option (string * string)) (items : list Notification)
  : list Notification * option string :=
  let filtered := sortBy newestFirst (List.filter (selects options cursor) items) in
  let page := take (pageLimit options) filtered in
  (page, if Nat.ltb (pageLimit options) (length filtered)
         then match last page with Some item => Some (encodeCursor item) | None => None end else None).
End pages.

Section service.
Context {DB : Type} `{FeltDB DB}.
Variable np : NotificationPlatform.
Variable s : NotificationService DB.

Definition channelRegistered (channel : string) : bool :=
  match mapGet (ns_channels s) channel with Some _ => true | None => false end.

Definition ownedHere (item : Notification) : bool :=
  match ns_authority s with Some g => oeqb (n_applicationId item) (Some (g_application g)) | None => true end.

Definition notifyAudit (type : string) (item : Notification) (principalId : string) (delivery : option NotificationDelivery)
  : M DB unit :=
  id ← randomUUID;
  timestamp ← nowIso;
  nx_record (mkNotificationAudit id type (n_id item) (n_tenantId item) (n_recipient item) principalId timestamp
    (negb (String.eqb type "notification.delivery.failed" || String.eqb type "notification.delivery.retrying"))
    (option_map nd_channel delivery) (option_map nd_id delivery)).

(** The expiry of an item has passed; the clock is read only for an item that expires. *)
Definition isPast (expiresAt : option string) : M DB bool :=
  match expiresAt with
  | Some e => now ← nowIso; mret (strLe e now)
  | None => mret false
  end.

Definition view (item : Notification) : M DB Notification :=
  past ← isPast (n_expiresAt item);
  mret (if past && expirable (n_status item) then item <| n_status := NExpired |> else item).

(** At most five attempts to change the current version. *)
Fixpoint transition (attempts : nat) (tenantId id : string)
  (change : Notification -> M DB (option (Notification -> Notification))) (audit : option string) : M DB unit :=
  match attempts with
  | O => mret tt
  | S rest =>
      found ← ns_get tenantId id;
      match found with
      | None => mret tt
      | Some item =>
          updates ← change item;
          match updates with
          | None => mret tt
          | Some patch =>
              updated ← ns_update (n_id item) (n_version item) patch;
              match updated, audit with
              | Some u, Some type => notifyAudit type u "system" None
              | Some _, None => mret tt
              | None, _ => transition rest tenantId id change audit
              end
          end
      end
  end.

Definition transitionNotification := transition 5.

Definition expireNow (current : Notification) : M DB (option (Notification -> Notification)) :=
  past ← isPast (n_expiresAt current);
  if past && expirable (n_status current) then
    now ← nowIso;
    mret (Some (fun n => n <| n_status := NExpired |> <| n_expiredAt := Some now |>))
  else mret None.

Definition materialize (item : Notification) : M DB Notification :=
  past ← isPast (n_expiresAt item);
  if past && expirable (n_status item) then
    _ ← transitionNotification (n_tenantId item) (n_id item) expireNow (Some "notification.expired");
    current ← ns_get (n_tenantId item) (n_id item);
    view (orElse current item)
  else view item.

(** What the deliveries of a notification make of its status. *)
Definition summarize (deliveries : list NotificationDelivery) (now : string) (item : Notification)
  : option (Notification -> Notification) :=
  if negb (bool_decide (n_status item = NPending)) && negb (bool_decide (n_status item = NFailed)) then None
  else if existsb (fun d => bool_decide (nd_status d = NdDelivered)) deliveries then
    Some (fun n => n <| n_status := NDelivered |> <| n_deliveredAt := Some now |> <| n_failedAt := None |>)
  else if bool_decide (n_status item = NPending) && Nat.ltb 0 (length deliveries) &&
          forallb (fun d => bool_decide (nd_status d = NdFailed)) deliveries then
    Some (fun n => n <| n_status := NFailed |> <| n_failedAt := Some now |>)
  else None.

Definition refreshStatus (tenantId id : string) : M DB unit :=
  deliveries ← ds_list tenantId (Some id);
  now ← nowIso;
  transitionNotification tenantId id (fun item => mret (summarize deliveries now item)) None.

(** ** Delivery *)

(** [systemJobs(this.options.jobs!).enqueue(...)] *)
Definition scheduleAttempt (delivery : NotificationDelivery) (runAt : string) : M DB unit :=
  match ns_jobs s with
  | None => throw (JsError "TypeError" "Cannot read properties of undefined")
  | Some jobs =>
      _ ← systemEnqueue jobs (mkCreateJob (Some (nd_tenantId delivery)) NOTIFICATION_DELIVERY_JOB
            (JObj [("deliveryId", JStr (nd_id delivery))]) (Some runAt) (Some 3) None []);
      mret tt
  end.

Definition retryDelay (attemptCount : Z) : Z :=
  Z.min (ns_retryDelayMs s * 2 ^ Z.max (attemptCount - 1) 0) MAX_RETRY_DELAY_MS.

Definition canRetry (delivery : NotificationDelivery) (retryable : option bool) : bool :=
  negb (bool_decide (retryable = Some false)) && bool_decide (is_Some (ns_jobs s)) &&
  (nd_attemptCount delivery <? nd_maxAttempts delivery).

Definition settleDelivered (now : string) (externalId : option string) (d : NotificationDelivery) : NotificationDelivery :=
  d <| nd_status := NdDelivered |> <| nd_deliveredAt := Some now |> <| nd_nextAttemptAt := None |>
    <| nd_failureReason := None |>
    <| nd_externalId := match ifPresent externalId with Some e => Some e | None => nd_externalId d end |>.

Definition settleRetrying (reason next : string) (d : NotificationDelivery) : NotificationDelivery :=
  d <| nd_status := NdRetrying |> <| nd_failureReason := Some reason |> <| nd_nextAttemptAt := Some next |>.

Definition settleFailed (now reason : string) (d : NotificationDelivery) : NotificationDelivery :=
  d <| nd_status := NdFailed |> <| nd_failureReason := Some reason |> <| nd_failedAt := Some now |>
    <| nd_nextAttemptAt := None |>.

(** The updates a result asks for, and the audit type. *)
Definition settlementOf (delivery : NotificationDelivery) (result : NotificationDeliveryResult)
  : M DB ((NotificationDelivery -> NotificationDelivery) * string) :=
  now ← nowIso;
  match result with
  | ChannelDelivered externalId => mret (settleDelivered now externalId, "notification.delivery.delivered")
  | ChannelFailed reason retryable =>
      let failureReason := safeReason reason in
      if canRetry delivery retryable then
        t ← nowMs;
        next ← isoString (t + retryDelay (nd_attemptCount delivery));
        mret (settleRetrying failureReason next, "notification.delivery.retrying")
      else mret (settleFailed now failureReason, "notification.delivery.failed")
  end.

Definition finishDelivery (delivery : NotificationDelivery) (notification : option Notification)
  (result : NotificationDeliveryResult) : M DB (option NotificationDelivery) :=
  settlement ← settlementOf delivery result;
  updated ← ds_update (nd_tenantId delivery) (nd_id delivery) (nd_version delivery) settlement.1;
  match updated with
  | None => ds_get (nd_tenantId delivery) (nd_id delivery)
  | Some u =>
      _ ← match nd_status u with
          | NdRetrying => scheduleAttempt u (orElse (nd_nextAttemptAt u) "")
          | _ => mret tt
          end;
      match notification with
      | None => mret (Some u)
      | Some n =>
          _ ← notifyAudit settlement.2 n "system" (Some u);
          _ ← refreshStatus (n_tenantId n) (n_id n);
          mret (Some u)
      end
  end.

(** [d] is settled: an attempt leaves it as it is. *)
Definition settled (d : NotificationDelivery) : bool :=
  match nd_status d with NdDelivered | NdFailed => true | _ => false end.

(** Not due yet, or claimed by an attempt whose lease still runs. *)
Definition waits (mode : AttemptMode) (now leaseCutoff : string) (d : NotificationDelivery) : bool :=
  (bool_decide (mode = ScheduledAttempt) && bool_decide (nd_status d = NdRetrying) &&
     match ifPresent (nd_nextAttemptAt d) with Some t => strLt now t | None => false end) ||
  (bool_decide (nd_status d = NdPending) &&
     match ifPresent (nd_lastAttemptAt d) with Some t => strLt leaseCutoff t | None => false end).

Definition claimAttempt (delivery : NotificationDelivery) (now : string) (d : NotificationDelivery) : NotificationDelivery :=
  d <| nd_attemptCount := nd_attemptCount delivery + 1 |> <| nd_lastAttemptAt := Some now |>.

(** What the channel made of the notification; an error it throws is a failure to retry. *)
Definition deliverThrough (channel : Channel DB) (notification : Notification) (claimed : NotificationDelivery)
  : M DB NotificationDeliveryResult :=
  tryCatch (shown ← view notification; channel shown claimed)
    (fun error => mret (ChannelFailed (errorMessage error) (Some true))).

Definition attemptDelivery (tenantId deliveryId : string) (mode : AttemptMode) : M DB (option NotificationDelivery) :=
  found ← ds_get tenantId deliveryId;
  match found with
  | None => mret None
  | Some delivery =>
      if settled delivery then mret (Some delivery)
      else
        t ← nowMs;
        now ← isoString t;
        leaseCutoff ← isoString (t - ATTEMPT_LEASE_MS);
        if waits mode now leaseCutoff delivery then mret (Some delivery)
        else
          stored ← ns_get tenantId (nd_notificationId delivery);
          match stored with
          | None => finishDelivery delivery None (ChannelFailed "notification_deleted" (Some false))
          | Some notification =>
              if match ifPresent (n_expiresAt notification) with Some e => strLe e now | None => false end then
                failed ← finishDelivery delivery (Some notification) (ChannelFailed "notification_expired" (Some false));
                _ ← transitionNotification tenantId (n_id notification) (fun item =>
                      mret (if expirable (n_status item)
                            then Some (fun n => n <| n_status := NExpired |> <| n_expiredAt := Some now |>) else None))
                      (Some "notification.expired");
                mret failed
              else match mapGet (ns_channels s) (nd_channel delivery) with
              | None => finishDelivery delivery (Some notification) (ChannelFailed "channel_unavailable" (Some false))
              | Some channel =>
                  claimed ← ds_update tenantId (nd_id delivery) (nd_version delivery) (claimAttempt delivery now);
                  match claimed with
                  | None => ds_get tenantId (nd_id delivery)
                  | Some c =>
                      result ← deliverThrough channel notification c;
                      finishDelivery c (Some notification) result
                  end
              end
          end
  end.

Definition dispatch (delivery : NotificationDelivery) : M DB unit :=
  if negb (ns_deliverInline s) && bool_decide (is_Some (ns_jobs s)) then
    now ← nowIso;
    scheduleAttempt delivery now
  else swallow (attemptDelivery (nd_tenantId delivery) (nd_id delivery) InitialAttempt).

Definition dispatchPending (tenantId notificationId : string) : M DB unit :=
  l ← ds_list tenantId (Some notificationId);
  _ ← promiseAll (map dispatch (List.filter (fun d =>
        bool_decide (nd_status d = NdPending) && (nd_attemptCount d =? 0)) l));
  mret tt.

Definition runDeliveryJob (job : Job) : M DB unit :=
  match j_payload job with
  | JObj payload =>
      match getField payload "deliveryId" with
      | JStr deliveryId => _ ← attemptDelivery (j_tenantId job) deliveryId ScheduledAttempt; mret tt
      | _ => throw (NotificationValidationError "Delivery job payload is invalid")
      end
  | _ => throw (NotificationValidationError "Delivery job payload is invalid")
  end.

(** What the constructor does to the job service it is given. *)
Definition connectJobs (jobs : JobService DB) : outcome (JobService DB) :=
  registerSystem jobs NOTIFICATION_DELIVERY_JOB (fun job _ => runDeliveryJob job).

Definition recoverDeliveries (tenantId : string) : M DB nat :=
  t ← nowMs;
  leaseCutoff ← isoString (t - ATTEMPT_LEASE_MS);
  l ← ds_list tenantId None;
  let pending := List.filter (fun d => bool_decide (nd_status d = NdPending) &&
        match ifPresent (nd_lastAttemptAt d) with Some at_ => strLe at_ leaseCutoff | None => true end) l in
  _ ← promiseAll (map dispatch pending);
  mret (length pending).

(** ** Creating *)

Definition notificationOf (input : NormalizedNotification) (id createdAt createdBy : string) (applicationId : option string)
  : Notification :=
  mkNotification id (nn_tenantId input) (ifPresent applicationId) (nn_recipient input) (nn_type input) (nn_title input)
    (nn_body input) (nn_data input) (nn_source input) (nn_priority input) (nn_channels input) NPending
    (nn_idempotencyKey input) createdAt (Some createdBy) (nn_expiresAt input) None None None None None None 1.

Definition deliveryOf (n : Notification) (channel : string) : NotificationDelivery :=
  mkNotificationDelivery (stableUuid np ["delivery"; n_id n; channel]) (n_tenantId n) (n_id n) (n_recipient n) channel
    NdPending (n_id n ++ ":" ++ channel) 0 (ns_maxDeliveryAttempts s) (n_createdAt n) None None None None None None 1.

Definition notificationId (input : NormalizedNotification) : M DB string :=
  match ifPresent (nn_idempotencyKey input) with
  | Some key => mret (stableUuid np ["notification"; nn_tenantId input; nn_recipient input; key])
  | None => randomUUID
  end.

Definition notifyInternal (input : list (string * jsval)) (createdBy : string) (applicationId : option string)
  : M DB NotificationResult :=
  normalized ← ofOutcome (normalizeInput np (ns_defaultChannels s) (ns_defaultPriority s) channelRegistered input);
  createdAt ← nowIso;
  if match ifPresent (nn_expiresAt normalized) with Some e => strLe e createdAt | None => false end
  then throw (NotificationValidationError "expiresAt must be in the future")
  else
    id ← notificationId normalized;
    let notification := notificationOf normalized id createdAt createdBy applicationId in
    created ← ns_createWithDeliveries notification (map (deliveryOf notification) (n_channels notification));
    _ ← if (created : bool) then notifyAudit "notification.created" notification createdBy None
        else (existing ← ns_get (n_tenantId notification) id;
              match existing with Some _ => mret tt | None => throw NotificationAuthorizationError end);
    _ ← dispatchPending (n_tenantId notification) id;
    current ← ns_get (n_tenantId notification) id;
    currentDeliveries ← ds_list (n_tenantId notification) (Some id);
    match current with
    | None => throw (JsError "TypeError" "Cannot read properties of null (reading 'expiresAt')")
    | Some item =>
        shown ← materialize item;
        mret (mkNotificationResult shown (sortDeliveries np currentDeliveries) created)
    end.

Definition notify (input : list (string * jsval)) (caller : NotificationCaller) : M DB NotificationResult :=
  match ns_authority s with
  | Some g =>
      verified ← ofOutcome (requireVerifiedPrincipal (nc_caller caller));
      _ ← ofOutcome (rejectCallerActor input verified);
      tenantId ← ofOutcome (resolveTenant (getField input "tenantId") verified);
      let channel := firstRequestedChannel input (ns_defaultChannels s) in
      execute g "notifications.send" (CVerified verified)
        (mkResource "notification" tenantId None (Some (sendAttributes input channel)))
        (notificationOptions (Some channel))
        (fun _ _ => notifyInternal (withField input "tenantId" (JStr tenantId)) (vp_principalId verified) (Some (g_application g)))
  | None =>
      principal ← ofOutcome (authorizeTenant caller (getField input "tenantId") "notifications.create");
      notifyInternal input (legacyId principal) None
  end.

Definition create (input : list (string * jsval)) (caller : NotificationCaller) : M DB Notification :=
  result ← notify input caller;
  mret (nr_notification result).

(** ** Reading *)

Definition loadReadable (tenantId id : string) (caller : NotificationCaller) : M DB Notification :=
  found ← ns_get tenantId id;
  match found with
  | None => throw NotificationNotFoundError
  | Some item =>
      if negb (ownedHere item) then throw NotificationNotFoundError
      else match ns_authority s with
      | Some g =>
          verified ← ofOutcome (requireVerifiedPrincipal (nc_caller caller));
          tenant ← ofOutcome (resolveTenant (JStr tenantId) verified);
          _ ← execute g "notifications.read" (CVerified verified)
                (notificationResource (item <| n_tenantId := tenant |>)) (notificationOptions None) (fun _ _ => mret tt);
          mret item
      | None =>
          principal ← ofOutcome (authorizeTenant caller (JStr tenantId) "notifications.read");
          _ ← ofOutcome (authorizeRead principal item);
          mret item
      end
  end.

Definition getNotification (tenantId id : string) (caller : NotificationCaller) : M DB Notification :=
  item ← loadReadable tenantId id caller;
  materialize item.

Definition deliveries (tenantId id : string) (caller : NotificationCaller) : M DB (list NotificationDelivery) :=
  item ← loadReadable tenantId id caller;
  _ ← materialize item;
  l ← ds_list (n_tenantId item) (Some (n_id item));
  mret (sortDeliveries np l).

Definition authorizedList (tenantId : string) (options : NotificationListOptions) (caller : NotificationCaller)
  : M DB (list Notification) :=
  match ns_authority s with
  | Some g =>
      verified ← ofOutcome (requireVerifiedPrincipal (nc_caller caller));
      tenant ← ofOutcome (resolveTenant (JStr tenantId) verified);
      _ ← execute g "notifications.read" (CVerified verified)
            (mkResource "notification" tenant None (Some {[ "recipient" := orElse (nl_recipient options) "*" ]}))
            (notificationOptions None) (fun _ _ => mret tt);
      items ← ns_list tenant;
      mret (List.filter (fun item => ownedHere item &&
              match ifPresent (nl_recipient options) with Some r => String.eqb (n_recipient item) r | None => true end) items)
  | None =>
      principal ← ofOutcome (authorizeTenant caller (JStr tenantId) "notifications.read");
      let readsAny := hasScope principal "notifications.read:any" in
      if match ifPresent (nl_recipient options) with
         | Some r => negb (oeqb (Some r) (lp_principalId principal)) && negb readsAny
         | None => false
         end then throw NotificationAuthorizationError
      else
        let recipient := if readsAny then nl_recipient options else lp_principalId principal in
        items ← ns_list tenantId;
        mret (List.filter (fun item =>
                match ifPresent recipient with Some r => String.eqb (n_recipient item) r | None => true end) items)
  end.

Definition listNotifications (tenantId : string) (options : NotificationListOptions) (caller : NotificationCaller)
  : M DB (list Notification * option string) :=
  if match ifPresent (nl_status options) with Some st => bool_decide (statusOf st = None) | None => false end
  then throw (NotificationValidationError "Invalid status")
  else
    cursor ← match ifPresent (nl_cursor options) with
             | Some c => decoded ← ofOutcome (decodeCursor np c); mret (Some decoded)
             | None => mret None
             end;
    items ← authorizedList tenantId options caller;
    materialized ← promiseAll (map materialize items);
    mret (pageOf np options cursor materialized).

(** ** Changing *)

Definition modifiedConcurrently : exn := NotificationValidationError "Notification was modified concurrently".

(** At most five attempts, each on the current version. *)
Fixpoint mutateLoop (attempts : nat) (type tenantId id principalId : string)
  (allowed : Notification -> outcome unit) (change : Notification -> string -> option (Notification -> Notification))
  : M DB Notification :=
  match attempts with
  | O => throw modifiedConcurrently
  | S rest =>
      found ← ns_get tenantId id;
      match found with
      | None => throw NotificationNotFoundError
      | Some current =>
          _ ← ofOutcome (allowed current);
          now ← nowIso;
          match change current now with
          | None => materialize current
          | Some patch =>
              updated ← ns_update (n_id current) (n_version current) patch;
              match updated with
              | Some u => _ ← notifyAudit type u principalId None; materialize u
              | None => mutateLoop rest type tenantId id principalId allowed change
              end
          end
      end
  end.

(** The notification, when this application owns it. *)
Definition loadOwned (tenantId id : string) : M DB (option Notification) :=
  found ← ns_get tenantId id;
  mret match found with Some item => if ownedHere item then Some item else None | None => None end.

Definition mutate (type tenantId id : string) (caller : NotificationCaller)
  (change : Notification -> string -> option (Notification -> Notification)) : M DB Notification :=
  match ns_authority s with
  | Some g =>
      verified ← ofOutcome (requireVerifiedPrincipal (nc_caller caller));
      tenant ← ofOutcome (resolveTenant (JStr tenantId) verified);
      found ← loadOwned tenant id;
      match found with
      | None => throw NotificationNotFoundError
      | Some item =>
          execute g "notifications.update" (CVerified verified) (notificationResource item) (notificationOptions None)
            (fun _ _ => mutateLoop 5 type (n_tenantId item) (n_id item) (vp_principalId verified) (fun _ => Ok tt) change)
      end
  | None =>
      principal ← ofOutcome (authorizeTenant caller (JStr tenantId) "notifications.write");
      mutateLoop 5 type tenantId id (legacyId principal) (authorizeOwner principal) change
  end.

Definition readChange (item : Notification) (now : string) : option (Notification -> Notification) :=
  if present (n_readAt item) then None
  else Some (fun n =>
    let n := n <| n_readAt := Some now |> in
    if bool_decide (n_status item = NAcknowledged) then n else n <| n_status := NRead |>).

Definition acknowledgeChange (item : Notification) (now : string) : option (Notification -> Notification) :=
  if present (n_acknowledgedAt item) then None
  else Some (fun n => n <| n_acknowledgedAt := Some now |> <| n_readAt := Some (orElse (n_readAt item) now) |>
               <| n_status := NAcknowledged |>).

Definition dismissChange (item : Notification) (now : string) : option (Notification -> Notification) :=
  if present (n_dismissedAt item) then None else Some (fun n => n <| n_dismissedAt := Some now |>).

Definition markRead (tenantId id : string) (caller : NotificationCaller) : M DB Notification :=
  mutate "notification.read" tenantId id caller readChange.
Definition acknowledge (tenantId id : string) (caller : NotificationCaller) : M DB Notification :=
  mutate "notification.acknowledged" tenantId id caller acknowledgeChange.
Definition dismiss (tenantId id : string) (caller : NotificationCaller) : M DB Notification :=
  mutate "notification.dismissed" tenantId id caller dismissChange.

Definition loadOwnedForWrite (tenantId id : string) (caller : NotificationCaller) (scope : string)
  : M DB (option (Notification * LegacyPrincipal)) :=
  found ← loadOwned tenantId id;
  match found with
  | None => mret None
  | Some item =>
      principal ← ofOutcome (authorizeTenant caller (JStr tenantId) scope);
      _ ← ofOutcome (authorizeOwner principal item);
      mret (Some (item, principal))
  end.

Definition deleteWithDeliveries (item : Notification) (id principalId : string) : M DB unit :=
  l ← ds_list (n_tenantId item) (Some (n_id item));
  _ ← promiseAll (map (fun d => ds_delete (nd_id d)) l);
  _ ← ns_delete id;
  notifyAudit "notification.deleted" item principalId None.

Definition deleteNotification (tenantId id : string) (caller : NotificationCaller) : M DB unit :=
  match ns_authority s with
  | Some g =>
      verified ← ofOutcome (requireVerifiedPrincipal (nc_caller caller));
      tenant ← ofOutcome (resolveTenant (JStr tenantId) verified);
      found ← loadOwned tenant id;
      match found with
      | None => mret tt
      | Some item =>
          execute g "notifications.delete" (CVerified verified) (notificationResource item) (notificationOptions None)
            (fun _ _ => deleteWithDeliveries item id (vp_principalId verified))
      end
  | None =>
      found ← loadOwnedForWrite tenantId id caller "notifications.delete";
      match found with
      | None => mret tt
      | Some (item, principal) => deleteWithDeliveries item id (legacyId principal)
      end
  end.

Definition retryPatch (delivery : NotificationDelivery) (now : string) (d : NotificationDelivery) : NotificationDelivery :=
  d <| nd_status := NdRetrying |> <| nd_maxAttempts := nd_attemptCount delivery + ns_maxDeliveryAttempts s |>
    <| nd_nextAttemptAt := Some now |> <| nd_failedAt := None |>.

Definition retryFailed (tenant : string) (item : Notification) (id channel principalId : string)
  : M DB (option NotificationDelivery) :=
  found ← ds_get tenant (stableUuid np ["delivery"; id; channel]);
  match found with
  | None => throw NotificationNotFoundError
  | Some delivery =>
      if negb (bool_decide (nd_status delivery = NdFailed)) then mret (Some delivery)
      else
        now ← nowIso;
        retrying ← ds_update tenant (nd_id delivery) (nd_version delivery) (retryPatch delivery now);
        match retrying with
        | None => ds_get tenant (nd_id delivery)
        | Some r =>
            _ ← notifyAudit "notification.delivery.retrying" item principalId (Some r);
            _ ← match ns_jobs s with
                | Some _ => scheduleAttempt r now
                | None => _ ← attemptDelivery tenant (nd_id r) ManualAttempt; mret tt
                end;
            ds_get tenant (nd_id delivery)
        end
  end.

Definition retryDelivery (tenantId id channel : string) (caller : NotificationCaller) : M DB (option NotificationDelivery) :=
  match ns_authority s with
  | Some g =>
      verified ← ofOutcome (requireVerifiedPrincipal (nc_caller caller));
      tenant ← ofOutcome (resolveTenant (JStr tenantId) verified);
      found ← loadOwned tenant id;
      match found with
      | None => throw NotificationNotFoundError
      | Some item =>
          execute g "notifications.update" (CVerified verified) (notificationResource item) (notificationOptions None)
            (fun _ _ => retryFailed tenant item id channel (vp_principalId verified))
      end
  | None =>
      found ← loadOwnedForWrite tenantId id caller "notifications.admin";
      match found with
      | None => throw NotificationNotFoundError
      | Some (item, principal) => retryFailed tenantId item id channel (legacyId principal)
      end
  end.
End service.
