(* ===== verification/NotificationFacts.v ===== *)
(** * NotificationFacts: the life of a notification, under interference

    A notification keeps its content, and its status only moves on
    ([advances]); one that was not there starts as [newNotification] says.
    Every operation but [delete] keeps this protocol, and relies on nothing
    else from the others. *)

From S2P Require Import Prelude JsString Encoding Json JsTime Errors Models Store Calm Principal Manifest Restrictions Evidence Gateway Rely Sensitive Jobs Notifications.
From Stdlib Require Import ZArith Lia Ascii.
Local Open Scope string_scope.
Local Open Scope Z_scope.

(** ** The protocol *)

Definition rank (s : NotificationStatus) : nat :=
  match s with
  | NPending => 0 | NFailed => 1 | NDelivered => 2 | NExpired => 3 | NRead => 4 | NAcknowledged => 5
  end.

(** What never changes of a notification. *)
Definition contentOf (n : Notification) :=
  ((n_id n, n_tenantId n, n_applicationId n, n_recipient n, n_type n, n_title n, n_body n, n_data n),
   (n_source n, n_priority n, n_channels n, n_idempotencyKey n, n_createdAt n, n_createdBy n, n_expiresAt n)).

Record advances (n n' : Notification) : Prop := mkAdvances {
  ad_content : contentOf n' = contentOf n;
  ad_rank : (rank (n_status n) <= rank (n_status n'))%nat;
  ad_read : present (n_readAt n) = true -> n_readAt n' = n_readAt n;
  ad_acknowledged : present (n_acknowledgedAt n) = true -> n_acknowledgedAt n' = n_acknowledgedAt n;
  ad_dismissed : present (n_dismissedAt n) = true -> n_dismissedAt n' = n_dismissedAt n;
  ad_version : n' = n \/ n_version n < n_version n' }.

#[global] Instance advances_preorder : PreOrder advances.
Proof.
  split.
  - intros n. constructor; auto.
  - intros a b c [A1 A2 A3 A4 A5 A6] [B1 B2 B3 B4 B5 B6]. constructor.
    + congruence.
    + lia.
    + intros E. rewrite B3; [auto | rewrite A3; assumption].
    + intros E. rewrite B4; [auto | rewrite A4; assumption].
    + intros E. rewrite B5; [auto | rewrite A5; assumption].
    + destruct A6 as [->|A6], B6 as [->|B6]; auto. right. lia.
Qed.

(** Nothing in the content that looks like a credential. *)
Definition cleanContent (n : Notification) : Prop :=
  noCredentials (JStr (n_title n)) /\ (forall b, n_body n = Some b -> noCredentials (JStr b)) /\
  (forall d, n_data n = Some d -> noCredentials d) /\
  (forall s, n_source n = Some s -> noCredentials (sourceObject s)) /\
  (forall k, n_idempotencyKey n = Some k -> noCredentials (JStr k)).

(** A notification as it is created, under the key [k]. *)
Definition newNotification (k : string) (n : Notification) : Prop :=
  n_id n = k /\ n_status n = NPending /\ n_version n = 1 /\ cleanContent n /\
  n_readAt n = None /\ n_acknowledgedAt n = None /\ n_dismissedAt n = None.

Definition rowMoves (k : string) (o o' : option Notification) : Prop :=
  match o, o' with
  | Some n, Some n' => advances n n'
  | Some _, None => False
  | None, Some n' => exists n0, newNotification k n0 /\ advances n0 n'
  | None, None => True
  end.

Lemma rowMoves_trans k a b c : rowMoves k a b -> rowMoves k b c -> rowMoves k a c.
Proof.
  destruct a as [n|], b as [n'|], c as [n''|]; cbn; try tauto.
  - intros. etransitivity; eassumption.
  - intros (n0 & Hn & Ha) Hb. exists n0. split; [exact Hn | etransitivity; eassumption].
Qed.

Section protocol.
Context {DB : Type} `{FeltDB DB}.

Definition movesForward (db db' : DB) : Prop :=
  (forall k, rowMoves k (peek CNotifications k db) (peek CNotifications k db')) /\
  (forall k, is_Some (peek CEvidence k db) -> is_Some (peek CEvidence k db')).

Definition keyed (db : DB) : Prop := forall k n, peek CNotifications k db = Some n -> n_id n = k.

(** Version 4 identifiers carry their version as the fifteenth character. *)
Definition versionDigit (id : string) : option ascii := String.get 14 id.

#[global] Instance movesForward_preorder : PreOrder movesForward.
Proof.
  split.
  - intros db. split; [|auto]. intros k. destruct (peek CNotifications k db); cbn; [reflexivity | exact I].
  - intros a b c [A1 A2] [B1 B2]. split; [|auto]. intros k. eapply rowMoves_trans; eauto.
Qed.

Lemma keyed_forward db db' : keyed db -> movesForward db db' -> keyed db'.
Proof.
  intros Hk [Hm _] k n' E. specialize (Hm k). rewrite E in Hm. unfold rowMoves in Hm.
  destruct (peek CNotifications k db) as [n|] eqn:E0.
  - destruct Hm as [Hc _ _ _ _ _]. injection Hc as Hid _ _ _ _ _ _ _ _ _ _ _ _ _ _. rewrite Hid. now apply Hk.
  - destruct Hm as (n0 & (Hid0 & _) & [Hc _ _ _ _ _]). injection Hc as Hid _ _ _ _ _ _ _ _ _ _ _ _ _ _. congruence.
Qed.

(** Writes elsewhere. *)
Lemma moves_elsewhere {V} (c : coll V) k o db db' :
  changed c k o db db' -> cname c <> cname CNotifications ->
  (cname c <> cname CEvidence \/ exists x, o = Some x) -> movesForward db db'.
Proof.
  intros Hch Hn He. split.
  - intros k'. rewrite (changed_frame _ _ _ CNotifications k' _ _ Hch) by (intros [= E _]; now apply Hn).
    destruct (peek CNotifications k' db); cbn; [reflexivity | exact I].
  - intros k' [e Hk']. destruct (decide ((cname CEvidence, k') = (cname c, k))) as [E|E].
    + destruct He as [He|[x ->]]; [injection E as E _; destruct (He (eq_sym E))|].
      injection E as E ->. apply changed_hit in Hch. destruct c; try discriminate E. rewrite Hch. eauto.
    + rewrite (changed_frame _ _ _ CEvidence k' _ _ Hch E). eauto.
Qed.

Definition forwardProtocol : Protocol DB.
Proof.
  refine (mkProtocol movesForward keyed (fun id => versionDigit id = Some "4"%char) _ keyed_forward _ _).
  - intros db db' k [_ He]. apply He.
  - intros db db' k x Hch. eapply moves_elsewhere; [exact Hch | discriminate | eauto].
Defined.
End protocol.

(** ** What an update may do *)

Definition patchOk (n : Notification) (patch : Notification -> Notification) : Prop :=
  forall v, n_version n < v -> advances n (patch n <| n_version := v |>).

Ltac patch_tac := intros v Hv; constructor; cbn; auto; try lia; try congruence.

Lemma readChange_ok n now patch : readChange n now = Some patch -> patchOk n patch.
Proof.
  unfold readChange. destruct (present (n_readAt n)) eqn:E; [discriminate|]. intros [= <-].
  destruct (bool_decide (n_status n = NAcknowledged)) eqn:Es; [patch_tac|].
  apply bool_decide_eq_false in Es. patch_tac. destruct (n_status n); cbn; try lia. now destruct Es.
Qed.

Lemma acknowledgeChange_ok n now patch : acknowledgeChange n now = Some patch -> patchOk n patch.
Proof.
  unfold acknowledgeChange. destruct (present (n_acknowledgedAt n)) eqn:E; [discriminate|]. intros [= <-].
  patch_tac.
  - destruct (n_status n); cbn; lia.
  - destruct (n_readAt n); [reflexivity | discriminate].
Qed.

Lemma dismissChange_ok n now patch : dismissChange n now = Some patch -> patchOk n patch.
Proof. unfold dismissChange. destruct (present (n_dismissedAt n)) eqn:E; [discriminate|]. intros [= <-]. patch_tac. Qed.

Lemma expire_ok n now :
  expirable (n_status n) = true -> patchOk n (fun n => n <| n_status := NExpired |> <| n_expiredAt := Some now |>).
Proof. intros E. patch_tac. destruct (n_status n); cbn; try lia; discriminate E. Qed.

Lemma summarize_ok l now n patch : summarize l now n = Some patch -> patchOk n patch.
Proof.
  unfold summarize. destruct (_ && _) eqn:E; [discriminate|].
  assert (n_status n = NPending \/ n_status n = NFailed) as Hs.
  { apply andb_false_elim in E as [E|E]; apply negb_false_iff, bool_decide_eq_true in E; auto. }
  destruct (existsb _ l); [intros [= <-]; patch_tac; destruct Hs as [-> | ->]; cbn; lia|].
  destruct (_ && _ && _); [|discriminate]. intros [= <-]. patch_tac. destruct Hs as [-> | ->]; cbn; lia.
Qed.

(** ** Derived identifiers *)

Lemma substring_length n m t : (n + m <= String.length t)%nat -> String.length (String.substring n m t) = m.
Proof.
  revert n m. induction t as [|c t IH]; intros n m E; cbn in *.
  - destruct n, m; cbn in *; lia.
  - destruct n as [|n].
    + destruct m as [|m]; [reflexivity|]. cbn. rewrite IH by (cbn; lia). reflexivity.
    + apply IH. lia.
Qed.

Lemma get_app n s t : String.get (String.length s + n) (s ++ t) = String.get n t.
Proof. induction s as [|c s IH]; [reflexivity | exact IH]. Qed.

(** SHA-256 prints 64 digits. *)
Definition shaLength (np : NotificationPlatform) : Prop := forall t, String.length (np_sha256Hex np t) = 64%nat.

Lemma stableUuid_version np parts : shaLength np -> versionDigit (stableUuid np parts) = Some "5"%char.
Proof.
  intros Hsha. unfold stableUuid, versionDigit. cbv zeta. set (hex := np_sha256Hex np (jsonStrings parts)).
  assert (String.length hex = 64%nat) as Hl by apply Hsha.
  pose proof (substring_length 0 8 hex ltac:(lia)) as L1. pose proof (substring_length 8 4 hex ltac:(lia)) as L2.
  change (8 - 0)%nat with 8%nat. change (12 - 8)%nat with 4%nat.
  replace 14%nat with (String.length (String.substring 0 8 hex) + (1 + (String.length (String.substring 8 4 hex) + 1)))%nat by lia.
  rewrite get_app. exact (get_app 1 _ _).
Qed.

(** ** What normalizing guarantees *)

(** The clone of a value is equal to it. *)
Definition clones (np : NotificationPlatform) : Prop := forall v v', np_clone np v = Ok v' -> v' = v.

Definition cleanInput (nn : NormalizedNotification) : Prop :=
  noCredentials (JStr (nn_title nn)) /\ (forall b, nn_body nn = Some b -> noCredentials (JStr b)) /\
  (forall d, nn_data nn = Some d -> noCredentials d) /\
  (forall s, nn_source nn = Some s -> noCredentials (sourceObject s)) /\
  (forall k, nn_idempotencyKey nn = Some k -> noCredentials (JStr k)).

Lemma guard_ok v path : assertNoCredentials v path = Ok tt -> noCredentials v.
Proof. apply guard_spec. Qed.

Lemma checkContent_ok title body data source key :
  checkContent title body data source key = Ok tt ->
  noCredentials (JStr title) /\ (forall b, body = Some b -> noCredentials (JStr b)) /\
  (data <> JUndef -> noCredentials data) /\ (forall s, source = Some s -> noCredentials (sourceObject s)) /\
  (forall k, ifPresent key = Some k -> noCredentials (JStr k)).
Proof.
  unfold checkContent. intros E. apply obind_ok in E as ([] & E1 & E). apply obind_ok in E as ([] & E2 & E).
  apply obind_ok in E as ([] & E3 & E). apply obind_ok in E as ([] & E4 & E5).
  split; [eapply guard_ok, E1|]. split; [intros b ->; eapply guard_ok, E2|].
  split; [intros Hd; destruct (isUndef data) eqn:Eu; [destruct data; try discriminate Eu; destruct (Hd eq_refl) | eapply guard_ok, E3]|].
  split; [intros s0 ->; eapply guard_ok, E4|]. intros k Hk. rewrite Hk in E5. eapply guard_ok, E5.
Qed.

Lemma normalizeChannels_ok registered v l :
  normalizeChannels registered v = Ok l -> NoDup l /\ Forall (fun c => registered c = true) l.
Proof.
  unfold normalizeChannels. destruct v; try discriminate. destruct l0; [discriminate|].
  destruct (texts _) as [names|]; [|discriminate]. destruct (List.find _ _) eqn:E; [discriminate|]. intros [= <-].
  split; [apply (dedupe_nodup String.leb)|]. rewrite Forall_forall. intros c Hc%list_elem_of_In.
  apply (List.find_none _ _ E) in Hc. now apply negb_false_iff in Hc.
Qed.

Lemma normalizeInput_ok np defaults priority registered input nn :
  clones np -> normalizeInput np defaults priority registered input = Ok nn ->
  cleanInput nn /\ NoDup (nn_channels nn) /\ Forall (fun c => registered c = true) (nn_channels nn).
Proof.
  intros Hclone. unfold normalizeInput. destruct (List.find _ input) as [[key v]|]; [discriminate|]. intros E.
  repeat (let a := fresh "a" in let Ha := fresh "Ha" in apply obind_ok in E as (a & Ha & E)).
  injection E as <-. cbn [nn_channels].
  match goal with Hc : normalizeChannels _ _ = Ok ?l |- _ => pose proof (normalizeChannels_ok _ _ _ Hc) as Hch end.
  match goal with Hc : checkContent _ _ _ _ _ = Ok ?u |- _ => destruct u; apply checkContent_ok in Hc as (C1 & C2 & C3 & C4 & C5) end.
  split; [|exact Hch]. unfold cleanInput. cbn. split; [exact C1|]. split; [exact C2|].
  split; [|split; [exact C4 | exact C5]].
  intros d Hd. match goal with Hw : whenGiven _ _ = Ok _ |- _ => unfold whenGiven in Hw; rename Hw into Hgiven end.
  destruct (getField input "data") eqn:Ed; cbn in Hgiven; [congruence|..];
    apply obind_ok in Hgiven as (d' & Hd' & [= <-]); injection Hd as <-; apply Hclone in Hd'; subst d'; apply C3; discriminate.
Qed.

(** ** Operations on other collections *)

Section general.
Context {DB : Type} `{FeltDBLaws DB} (P : Protocol DB).
Variable s : NotificationService DB.
#[local] Abbreviation safe := (safe P).
Implicit Types w : World DB.

Lemma safe_promiseAll {A} (l : list (M DB A)) : Forall safe l -> safe (promiseAll l).
Proof.
  induction 1 as [|m rest Hm _ IH]; cbn [promiseAll]; [apply safe_ret|].
  assert (forall B (m : M DB B), safe m -> safe (attempt m)) as Hattempt.
  { intros B m' Hm' w Hs. apply (Hm' w Hs). }
  apply safe_bind; [now apply Hattempt | intros o]. apply safe_bind; [now apply Hattempt | intros o'].
  destruct o, o'; eauto with rely.
Qed.

Lemma safe_map {A B} (f : A -> M DB B) l : (forall a, safe (f a)) -> safe (promiseAll (map f l)).
Proof. intros Hf. apply safe_promiseAll. induction l; cbn; constructor; auto. Qed.

Lemma safe_notifyAudit type item principalId d : free P CNotificationAudit -> safe (notifyAudit type item principalId d).
Proof.
  intros Hf w Hs. unfold notifyAudit, nx_record. apply rg_bind, rg_uuid; [exact Hs|]. intros id w1 Hs1 _ Hv.
  apply rg_bind, rg_nowIso; [exact Hs1|]. intros [t|] w2 Hs2 Ha; [|exact I]. cbn [nx_id].
  apply rg_insert_free; [exact Hf | exact Hs2 | eapply vacant_aside; eassumption | auto].
Qed.

(** The job service may write its jobs and its audit. *)
Definition jobsFree : Prop := free P CJobs /\ free P CJobAudit.

Lemma safe_systemEnqueue jobs input : jobsFree -> safe (systemEnqueue jobs input).
Proof.
  intros [Hj Ha]. unfold systemEnqueue. destruct (startsWith _ _); [|apply safe_throw]. unfold createJobRecord.
  intros w Hs. apply rg_bind, rg_uuid; [exact Hs|]. intros id w1 Hs1 _ Hv. apply rg_bind, rg_nowIso; [exact Hs1|].
  intros [now|] w2 Hs2 Hw2; [|exact I]. cbv zeta. apply rg_bind. unfold js_create. cbn [j_id].
  apply rg_create; [exact Hs2 | eapply vacant_aside; eassumption | apply Hj|].
  intros [[]|] w3 Hs3 _; [|exact I]. unfold audit, ja_record. apply rg_bind, rg_bind, rg_uuid; [exact Hs3|].
  intros id' w4 Hs4 _ Hv4. cbn [ja_id]. apply rg_insert_free; [exact Ha | exact Hs4 | exact Hv4|].
  intros w5 Hs5 _. now apply rg_ret.
Qed.

Lemma safe_scheduleAttempt d runAt : jobsFree -> safe (scheduleAttempt s d runAt).
Proof.
  intros Hj. unfold scheduleAttempt. destruct (ns_jobs s); [|apply safe_throw].
  apply safe_bind; [now apply safe_systemEnqueue | intros _; apply safe_ret].
Qed.

Lemma safe_ds_get tenantId id : safe (ds_get tenantId id).
Proof. unfold ds_get. safe_tac. Qed.

Lemma safe_ds_list tenantId id : safe (ds_list tenantId id).
Proof. apply safe_find. Qed.

Lemma safe_ns_get tenantId id : safe (ns_get tenantId id).
Proof. unfold ns_get. safe_tac. Qed.

Lemma safe_isPast e : safe (isPast e).
Proof. unfold isPast. safe_tac. Qed.

Lemma safe_view n : safe (view n).
Proof. unfold view. apply safe_bind; [apply safe_isPast | intros ?; apply safe_ret]. Qed.
End general.

(** ** Every operation keeps the protocol *)

Section safety.
Context {DB : Type} `{FeltDBLaws DB}.
Variable np : NotificationPlatform.
Variable s : NotificationService DB.
#[local] Abbreviation P := (forwardProtocol (DB := DB)).
#[local] Abbreviation safe := (safe P).
#[local] Abbreviation rg := (rg P).
#[local] Abbreviation stable := (stable P).
#[local] Abbreviation onward := (onward P).
Implicit Types w : World DB.

Lemma elsewhere_free {V} (c : coll V) : cname c <> cname CNotifications -> free P c.
Proof. intros Hc k x db db' Hch. eapply moves_elsewhere; [exact Hch | exact Hc | right; eauto]. Qed.

Lemma safe_audited type item principalId d : safe (notifyAudit type item principalId d).
Proof. now apply safe_notifyAudit, elsewhere_free. Qed.

Lemma safe_scheduled d runAt : safe (scheduleAttempt s d runAt).
Proof. apply safe_scheduleAttempt. split; now apply elsewhere_free. Qed.

Lemma safe_remove_elsewhere {V} (c : coll V) k :
  cname c <> cname CNotifications -> cname c <> cname CEvidence -> safe (remove c k).
Proof. intros Hc He w Hs. apply rg_remove; [exact Hs | | auto]. intros db db' Hch. eapply moves_elsewhere; eauto. Qed.

Lemma safe_ds_update tenantId id v patch : safe (ds_update tenantId id v patch).
Proof.
  unfold ds_update. apply safe_bind; [apply safe_get | intros [c|]; [|apply safe_ret]].
  destruct (negb _); [apply safe_ret | now apply safe_cas_free, elsewhere_free].
Qed.

(** ** Reading and updating notifications *)

(** A notification stays, and moves on. *)
Lemma stays k n w w' : peek CNotifications k (w_db w) = Some n -> onward w w' ->
  exists n', peek CNotifications k (w_db w') = Some n' /\ advances n n'.
Proof.
  intros Hk ((Hm & _) & _). specialize (Hm k). rewrite Hk in Hm. unfold rowMoves in Hm.
  destruct (peek CNotifications k (w_db w')) as [n'|]; [eauto | destruct Hm].
Qed.

(** [n] was read earlier: what the store has now comes from it. *)
Definition seen (n : Notification) w : Prop :=
  exists cur, peek CNotifications (n_id n) (w_db w) = Some cur /\ advances n cur.

Lemma seen_onward n w w' : seen n w -> onward w w' -> seen n w'.
Proof.
  intros (cur & Hk & Ha) Ho. destruct (stays _ _ _ _ Hk Ho) as (cur' & Hk' & Ha'). exists cur'.
  split; [exact Hk' | etransitivity; eassumption].
Qed.

Lemma rg_ns_get tenantId id Q w :
  stable w -> (forall o w1, stable w1 -> onward w w1 -> (forall n, o = Some n -> seen n w1 /\ n_id n = id) -> Q (Ok o) w1) ->
  rg (ns_get tenantId id) Q w.
Proof.
  intros Hs HQ. unfold ns_get. apply rg_bind, rg_get; [exact Hs|]. intros w1 Hs1 Ho1. apply rg_ret; [exact Hs1|].
  apply HQ; [exact Hs1 | exact Ho1|]. intros n Hn. unfold ofNotificationTenant in Hn.
  destruct (peek CNotifications id (w_db w1)) as [n0|] eqn:E; [|discriminate Hn].
  destruct (String.eqb _ _); [|discriminate Hn]. injection Hn as ->.
  pose proof (proj1 (proj2 Hs1) id n E) as Hid. split; [|exact Hid].
  exists n. rewrite Hid. split; [exact E | reflexivity].
Qed.

Lemma rg_ns_update n patch Q w :
  stable w -> seen n w -> patchOk n patch ->
  (forall o w1, stable w1 -> onward w w1 -> Q (Ok o) w1) -> rg (ns_update (n_id n) (n_version n) patch) Q w.
Proof.
  intros Hs Hseen Hp HQ. unfold ns_update. apply rg_bind, rg_get; [exact Hs|]. intros w1 Hs1 Ho1.
  destruct (seen_onward _ _ _ Hseen Ho1) as (cur & Hk & Ha). rewrite Hk.
  assert (forall w2, onward w1 w2 -> onward w w2) as Htr by (intros w2 Ho2; etransitivity; eassumption).
  apply rg_cas; [exact Hs1 | intros w2 Hs2 Ho2; apply HQ; auto|].
  intros w2 cur2 Hs2 Ho2 Hk2 Hv new. split; [|intros w3 Hs3 Ho3 _; apply HQ; auto].
  destruct Ho2 as ((Hm & _) & _). specialize (Hm (n_id n)). rewrite Hk, Hk2 in Hm. cbn in Hm, Hv.
  assert (cur = n /\ cur2 = n) as [-> ->].
  { destruct (ad_version _ _ Ha) as [->|L1], (ad_version _ _ Hm) as [->|L2]; split; auto; lia. }
  intros db' Hch. split.
  - intros k. destruct (decide (k = n_id n)) as [->|Hne].
    + rewrite Hk2, (changed_hit _ _ _ _ _ Hch). cbn. apply Hp. lia.
    + rewrite (changed_frame _ _ _ CNotifications k _ _ Hch) by congruence.
      destruct (peek CNotifications k (w_db w2)); cbn; [reflexivity | exact I].
  - intros k Hx. now rewrite (changed_frame _ _ _ CEvidence k _ _ Hch) by discriminate.
Qed.

#[local] Hint Resolve safe_ds_get safe_ds_list safe_ds_update safe_ns_get safe_view safe_isPast safe_scheduled
  safe_audited : rely.

(** A change that reads what it likes and proposes an update that goes on. *)
Definition changeOk (change : Notification -> M DB (option (Notification -> Notification))) : Prop :=
  forall n w, stable w -> rg (change n) (fun o _ => forall patch, o = Ok (Some patch) -> patchOk n patch) w.

Lemma safe_transition attempts tenantId id change audit : changeOk change -> safe (transition attempts tenantId id change audit).
Proof.
  intros Hchange. induction attempts as [|rest IH]; [apply safe_ret|]. cbn [transition]. intros w Hs.
  apply rg_bind, rg_ns_get; [exact Hs|]. intros [item|] w1 Hs1 _ Hseen; [|now apply rg_ret].
  destruct (Hseen item eq_refl) as [Hin _]. apply rg_bind. eapply rg_mono; [apply Hchange, Hs1|].
  intros [[patch|]|e] w2 Hs2 Ho2 Hp; [|now apply rg_ret | exact I].
  apply rg_bind, rg_ns_update; [exact Hs2 | eapply seen_onward; eassumption | now apply Hp|].
  intros o w3 Hs3 _. revert w3 Hs3. change (safe (match o, audit with
    | Some u, Some type => notifyAudit type u "system" None
    | Some _, None => mret tt
    | None, _ => transition rest tenantId id change audit end)).
  destruct o, audit; eauto with rely.
Qed.

Lemma expireNow_ok : changeOk expireNow.
Proof.
  intros n w Hs. unfold expireNow. apply rg_bind, rg_safe; [apply safe_isPast | exact Hs|].
  intros [past|e] w1 Hs1 _; [|discriminate]. destruct (past && expirable (n_status n)) eqn:E; [|now apply rg_ret].
  apply rg_bind, rg_nowIso; [exact Hs1|]. intros [now|e] w2 Hs2 _; [|discriminate].
  apply rg_ret; [exact Hs2|]. intros patch [= <-]. apply expire_ok. apply andb_prop in E. apply E.
Qed.

Lemma safe_materialize n : safe (materialize n).
Proof.
  unfold materialize. apply safe_bind; [apply safe_isPast | intros past]. destruct (_ && _); [|apply safe_view].
  apply safe_bind; [apply safe_transition, expireNow_ok | intros _]. safe_tac.
Qed.

Lemma pure_changeOk f : (forall n patch, f n = Some patch -> patchOk n patch) -> changeOk (fun n => mret (f n)).
Proof. intros Hf n w Hs. apply rg_ret; [exact Hs|]. intros patch [= E]. now apply Hf. Qed.

Lemma safe_refreshStatus tenantId id : safe (refreshStatus tenantId id).
Proof.
  unfold refreshStatus. apply safe_bind; [apply safe_ds_list | intros l]. apply safe_bind; [apply safe_nowIso | intros now].
  apply safe_transition, pure_changeOk. intros n patch. apply summarize_ok.
Qed.

#[local] Hint Resolve safe_materialize safe_refreshStatus : rely.

Lemma safe_finishDelivery d n r : safe (finishDelivery s d n r).
Proof. unfold finishDelivery, settlementOf. safe_tac. Qed.

(** Channels keep the protocol. *)
Definition channelsSafe : Prop :=
  forall type channel, mapGet (ns_channels s) type = Some channel -> forall n d, safe (channel n d).

Hypothesis Hchannels : channelsSafe.

#[local] Hint Resolve safe_finishDelivery : rely.

Lemma safe_attemptDelivery tenantId id mode : safe (attemptDelivery s tenantId id mode).
Proof.
  unfold attemptDelivery. apply safe_bind; [apply safe_ds_get | intros [d|]; [|apply safe_ret]].
  destruct (settled d); [apply safe_ret|]. apply safe_bind; [apply safe_nowMs | intros t].
  apply safe_bind; [apply safe_isoString | intros now]. apply safe_bind; [apply safe_isoString | intros cutoff].
  destruct (waits _ _ _ _); [apply safe_ret|]. apply safe_bind; [apply safe_ns_get | intros [n|]; [|apply safe_finishDelivery]].
  destruct (match ifPresent (n_expiresAt n) with Some e => strLe e now | None => false end).
  { apply safe_bind; [apply safe_finishDelivery | intros failed]. apply safe_bind; [|intros _; apply safe_ret].
    apply safe_transition, (pure_changeOk (fun item => if expirable (n_status item) then _ else _)).
    intros item patch. destruct (expirable (n_status item)) eqn:E; [|discriminate]. intros [= <-]. now apply expire_ok. }
  destruct (mapGet (ns_channels s) (nd_channel d)) as [channel|] eqn:Ec; [|apply safe_finishDelivery].
  apply safe_bind; [apply safe_ds_update | intros [c|]; [|apply safe_ds_get]].
  apply safe_bind; [|intros r; apply safe_finishDelivery]. unfold deliverThrough.
  apply safe_tryCatch; [|intros e; apply safe_ret]. apply safe_bind; [apply safe_view|]. intros shown. eapply Hchannels, Ec.
Qed.

#[local] Hint Resolve safe_attemptDelivery : rely.

Lemma safe_dispatch d : safe (dispatch s d).
Proof. unfold dispatch. safe_tac. Qed.

Lemma safe_dispatchPending tenantId id : safe (dispatchPending s tenantId id).
Proof.
  unfold dispatchPending. apply safe_bind; [apply safe_ds_list | intros l].
  apply safe_bind; [apply safe_map, safe_dispatch | intros _; apply safe_ret].
Qed.

Lemma safe_runDeliveryJob job : safe (runDeliveryJob s job).
Proof. unfold runDeliveryJob. safe_tac. Qed.

Lemma safe_recoverDeliveries tenantId : safe (recoverDeliveries s tenantId).
Proof.
  unfold recoverDeliveries. safe_tac. apply safe_map, safe_dispatch.
Qed.

(** ** Creating *)

(** No two registered channels share the delivery identifier of a notification. *)
Definition distinctDeliveries : Prop := forall id c c',
  channelRegistered s c = true -> channelRegistered s c' = true ->
  stableUuid np ["delivery"; id; c] = stableUuid np ["delivery"; id; c'] -> c = c'.

Definition platformOk : Prop := shaLength np /\ clones np /\ distinctDeliveries.

Lemma deliveries_nodup n l :
  distinctDeliveries -> NoDup l -> Forall (fun c => channelRegistered s c = true) l ->
  NoDup (map (fun c => nd_id (deliveryOf np s n c)) l).
Proof.
  intros Hdist Hd Hr. induction Hd as [|c l Hc Hd IH]; cbn; [constructor|]. apply Forall_cons in Hr as [Hrc Hr].
  constructor; [|now apply IH]. intros Hin. apply list_elem_of_In, in_map_iff in Hin as (c' & E & Hc').
  rewrite Forall_forall in Hr. apply list_elem_of_In in Hc'. apply Hdist in E; [|now apply Hr | exact Hrc]. now subst.
Qed.

Lemma creation_keys n l :
  map txKey (creation n (map (deliveryOf np s n) l)) =
  (cname CNotifications, n_id n) :: map (fun c => (cname CNotificationDeliveries, nd_id (deliveryOf np s n c))) l.
Proof. unfold creation. cbn [map txKey]. f_equal. rewrite !map_map. reflexivity. Qed.

(** An identifier that will not be drawn any more. *)
Definition spoken (id : string) w : Prop := forall n, (w_fresh w <= n)%nat -> w_uuid w n <> id.

Lemma spoken_onward id w w' : spoken id w -> onward w w' -> spoken id w'.
Proof. intros Hs (_ & Hu & Hf & _) n Hn. rewrite Hu. apply Hs. lia. Qed.

Lemma spoken_stable parts w : shaLength np -> stable w -> spoken (stableUuid np parts) w.
Proof.
  intros Hsha (_ & _ & _ & _ & Hv) n _ E. specialize (Hv n). cbn in Hv. rewrite E, stableUuid_version in Hv by exact Hsha.
  discriminate Hv.
Qed.

Lemma rg_creation n l Q w :
  platformOk -> stable w -> NoDup l -> Forall (fun c => channelRegistered s c = true) l ->
  newNotification (n_id n) n -> spoken (n_id n) w ->
  (forall o w', stable w' -> onward w w' -> (is_Some (peek CNotifications (n_id n) (w_db w)) -> o <> Ok tt) -> Q o w') ->
  rg (transaction (creation n (map (deliveryOf np s n) l))) Q w.
Proof.
  intros (Hsha & _ & Hdist) Hs Hd Hr Hnew Hsp HQ. apply rg_transaction; [exact Hs | | | | |].
  - rewrite creation_keys. constructor.
    + intros Hin. apply list_elem_of_In, in_map_iff in Hin as (c & E & _). discriminate E.
    + pose proof (deliveries_nodup n l Hdist Hd Hr) as Hn. apply (NoDup_fmap_2 (pair (cname CNotificationDeliveries))) in Hn.
      change (NoDup (map (pair (cname CNotificationDeliveries)) (map (fun c => nd_id (deliveryOf np s n c)) l))) in Hn.
      rewrite map_map in Hn. exact Hn.
  - rewrite creation_keys. intros c k i [[= -> ->]|Hin]%elem_of_cons Hi; [now apply Hsp|].
    apply list_elem_of_In, in_map_iff in Hin as (ch & [= <- <-] & _).
    apply (spoken_stable _ w Hsha Hs i Hi).
  - intros w1 Hs1 Ho1 m. apply HQ; [exact Hs1 | exact Ho1 | discriminate].
  - intros db db' Hready Hup Hdone Hfr. rewrite creation_keys in Hfr. apply Forall_inv in Hready, Hdone. cbn in Hready, Hdone.
    split.
    + intros k. destruct (decide (k = n_id n)) as [->|Hne].
      * rewrite Hdone. destruct (peek CNotifications (n_id n) db); [destruct Hready; discriminate|].
        cbn. exists n. split; [exact Hnew | reflexivity].
      * rewrite Hfr; [destruct (peek CNotifications k db); cbn; [reflexivity | exact I]|].
        intros [[= E]|Hin]%elem_of_cons; [contradiction|]. apply list_elem_of_In, in_map_iff in Hin as (c & E & _). discriminate E.
    + intros k Hk. rewrite Hfr; [exact Hk|].
      intros [[=]|Hin]%elem_of_cons. apply list_elem_of_In, in_map_iff in Hin as (c & E & _). discriminate E.
  - intros w1 w2 Ho1 Hready Hs2 Ho2 _ _. apply HQ; [exact Hs2 | exact Ho2|]. intros [cur Hk].
    apply Forall_inv in Hready. cbn in Hready. destruct (stays _ _ _ _ Hk Ho1) as (cur' & Hk' & _).
    rewrite Hk' in Hready. destruct Hready. discriminate.
Qed.

(** A notification that is there already is not created again. *)
Lemma rg_createWithDeliveries n l Q w :
  platformOk -> stable w -> NoDup l -> Forall (fun c => channelRegistered s c = true) l ->
  newNotification (n_id n) n -> spoken (n_id n) w ->
  (forall o w', stable w' -> onward w w' -> (is_Some (peek CNotifications (n_id n) (w_db w)) -> o <> Ok true) -> Q o w') ->
  rg (ns_createWithDeliveries n (map (deliveryOf np s n) l)) Q w.
Proof.
  intros Hpl Hs Hd Hr Hnew Hsp HQ. unfold ns_createWithDeliveries. cbv zeta.
  apply (rg_mono P _ (fun o _ => is_Some (peek CNotifications (n_id n) (w_db w)) -> o <> Ok true)); [|intros; now apply HQ]. clear Q HQ.
  assert (forall w', stable w' -> onward w w' -> rg (_ ← transaction (creation n (map (deliveryOf np s n) l)); mret true)
    (fun o _ => is_Some (peek CNotifications (n_id n) (w_db w)) -> exists e, o = Throw e) w') as Htx.
  { intros w' Hs' Ho'. apply rg_bind, rg_creation; try assumption; [eapply spoken_onward; eassumption|].
    intros [[]|e] w2 Hs2 _ Hno; [|eauto]. apply rg_ret; [exact Hs2|]. intros [cur Hk].
    destruct (stays _ _ _ _ Hk Ho') as (cur' & Hk' & _). destruct Hno; [now exists cur' | reflexivity]. }
  apply rg_tryCatch. eapply rg_mono; [apply (Htx w Hs); reflexivity|].
  intros [b|e] w1 Hs1 Ho1 Hx; [intros Hk; destruct (Hx Hk); discriminate|].
  apply rg_bind, rg_get; [exact Hs1|]. intros w2 Hs2 Ho2. assert (onward w w2) as Ho by (etransitivity; eassumption).
  destruct (peek CNotifications (n_id n) (w_db w2)) eqn:Ex; [apply rg_ret; [exact Hs2 | discriminate]|].
  assert (is_Some (peek CNotifications (n_id n) (w_db w)) -> False) as Habs.
  { intros [cur Hk]. destruct (stays _ _ _ _ Hk Ho) as (cur' & Hk' & _). congruence. }
  apply (rg_mono P _ (fun _ _ => True)); [|intros o w' _ _ _ Hk; now apply Habs in Hk].
  apply rg_bind, rg_safe; [apply safe_map; intros d; safe_tac | exact Hs2|]. intros [orphaned|e'] w3 Hs3 Ho3; [|exact I].
  destruct (omap id orphaned); [now apply rg_throw|].
  apply rg_bind, rg_safe; [apply safe_map; intros d; apply safe_remove_elsewhere; discriminate | exact Hs3|].
  intros [u|e'] w4 Hs4 Ho4; [|exact I]. eapply rg_mono; [apply Htx; [exact Hs4|] | auto].
  etransitivity; [exact Ho|]. etransitivity; eassumption.
Qed.

Lemma notification_new nn id createdAt createdBy applicationId :
  cleanInput nn -> newNotification id (notificationOf nn id createdAt createdBy applicationId).
Proof. intros Hc. do 3 (split; [reflexivity|]). split; [exact Hc | auto]. Qed.

(** [n] shows the notification stored under [k]. *)
Definition shows (k : string) (n : Notification) w : Prop :=
  exists cur, peek CNotifications k (w_db w) = Some cur /\ contentOf n = contentOf cur.

Lemma shows_onward k n w w' : shows k n w -> onward w w' -> shows k n w'.
Proof.
  intros (cur & Hk & Hc) Ho. destruct (stays _ _ _ _ Hk Ho) as (cur' & Hk' & Ha). exists cur'.
  split; [exact Hk'|]. rewrite Hc. symmetry. apply Ha.
Qed.

Lemma rg_view n w : stable w -> rg (view n) (fun o _ => forall n', o = Ok n' -> contentOf n' = contentOf n) w.
Proof.
  intros Hs. unfold view. apply rg_bind, rg_safe; [apply safe_isPast | exact Hs|]. intros [past|e] w1 Hs1 _; [|discriminate].
  apply rg_ret; [exact Hs1|]. intros n' [= <-]. destruct (_ && _); reflexivity.
Qed.

Lemma rg_materialize n w :
  stable w -> seen n w -> rg (materialize n) (fun o w' => forall n', o = Ok n' -> shows (n_id n) n' w') w.
Proof.
  intros Hs Hseen. unfold materialize.
  assert (forall m w1, stable w1 -> onward w w1 -> contentOf m = contentOf n ->
    rg (view m) (fun o w' => forall n', o = Ok n' -> shows (n_id n) n' w') w1) as Hview.
  { intros m w1 Hs1 Ho1 Hm. eapply rg_mono; [apply rg_view, Hs1|]. intros o w2 Hs2 Ho2 Ho n' ->.
    assert (onward w w2) as Hw by (etransitivity; eassumption). destruct (seen_onward _ _ _ Hseen Hw) as (cur & Hk & Ha).
    exists cur. split; [exact Hk|]. rewrite (Ho n' eq_refl), Hm. symmetry. apply Ha. }
  apply rg_bind, rg_safe; [apply safe_isPast | exact Hs|]. intros [past|e] w1 Hs1 Ho1; [|discriminate].
  destruct (_ && _); [|now apply Hview].
  apply rg_bind, rg_safe; [apply safe_transition, expireNow_ok | exact Hs1|]. intros [u|e] w2 Hs2 Ho2; [|discriminate].
  assert (onward w w2) as Hw2 by (etransitivity; eassumption).
  apply rg_bind, rg_ns_get; [exact Hs2|]. intros o w3 Hs3 Ho3 Hfound. apply Hview; [exact Hs3 | etransitivity; eassumption|].
  destruct o as [cur|]; [|reflexivity]. cbn [orElse]. destruct (Hfound cur eq_refl) as [(cur' & Hk' & Ha') Hid].
  assert (onward w w3) as Hw3 by (etransitivity; eassumption).
  destruct (seen_onward _ _ _ Hseen Hw3) as (cur'' & Hk'' & Ha''). rewrite Hid, Hk'' in Hk'. injection Hk' as ->.
  rewrite <- (ad_content _ _ Ha'). apply Ha''.
Qed.

(** The identifier that the input determines, if it does. *)
Definition logicalId (input : list (string * jsval)) : option string :=
  match normalizeInput np (ns_defaultChannels s) (ns_defaultPriority s) (channelRegistered s) input with
  | Ok nn => match ifPresent (nn_idempotencyKey nn) with
             | Some key => Some (stableUuid np ["notification"; nn_tenantId nn; nn_recipient nn; key])
             | None => None
             end
  | Throw _ => None
  end.

(** What a notify returned: the notification under its identifier, not
    created when it was there before. *)
Definition notified (input : list (string * jsval)) w (r : NotificationResult) w' : Prop :=
  shows (n_id (nr_notification r)) (nr_notification r) w' /\
  forall id, logicalId input = Some id -> n_id (nr_notification r) = id /\
    (is_Some (peek CNotifications id (w_db w)) -> nr_created r = false).

Lemma rg_notificationId nn w :
  platformOk -> stable w -> rg (notificationId np nn) (fun o w' => forall id, o = Ok id -> spoken id w' /\
    forall key, ifPresent (nn_idempotencyKey nn) = Some key ->
      id = stableUuid np ["notification"; nn_tenantId nn; nn_recipient nn; key]) w.
Proof.
  intros Hpl Hs. unfold notificationId. destruct (ifPresent _) as [key|].
  - apply rg_ret; [exact Hs|]. intros id [= <-]. split; [apply spoken_stable; [apply Hpl | exact Hs]|]. now intros ? [= ->].
  - apply rg_uuid; [exact Hs|]. intros id w2 Hs2 _ ((m & Hm & ->) & _) id' [= <-]. split; [|discriminate].
    intros i Hi E. destruct Hs2 as (_ & _ & (Hj & _) & _). apply Hj in E. lia.
Qed.

(** The rest of a notify, once its notification is stored. *)
Lemma rg_notifyTail tenantId id created w :
  stable w ->
  rg (_ ← dispatchPending s tenantId id;
      current ← ns_get tenantId id;
      currentDeliveries ← ds_list tenantId (Some id);
      match current with
      | None => throw (JsError "TypeError" "Cannot read properties of null (reading 'expiresAt')")
      | Some item =>
          shown ← materialize item;
          mret (mkNotificationResult shown (sortDeliveries np currentDeliveries) created)
      end)
    (fun o w' => forall r, o = Ok r -> shows id (nr_notification r) w' /\ nr_created r = created) w.
Proof.
  intros Hs. apply rg_bind, rg_safe; [now apply safe_dispatchPending | exact Hs|]. intros [u|e] w1 Hs1 _; [|discriminate].
  apply rg_bind, rg_ns_get; [exact Hs1|]. intros current w2 Hs2 _ Hfound.
  apply rg_bind, rg_safe; [apply safe_ds_list | exact Hs2|]. intros [l|e] w3 Hs3 Ho3; [|discriminate].
  destruct current as [item|]; [|apply rg_throw; [exact Hs3 | discriminate]]. destruct (Hfound item eq_refl) as [Hseen <-].
  apply rg_bind. eapply rg_mono; [apply rg_materialize; [exact Hs3 | eapply seen_onward; eassumption]|].
  intros [shown|e] w4 Hs4 _ Hshows; [|discriminate]. apply rg_ret; [exact Hs4|]. intros r [= <-]. cbn. auto.
Qed.

Lemma shows_id k n w : stable w -> shows k n w -> n_id n = k.
Proof.
  intros Hs (cur & Hk & Hc). injection Hc as Hid _ _ _ _ _ _ _ _ _ _ _ _ _ _. rewrite Hid. exact (proj1 (proj2 Hs) k cur Hk).
Qed.

Lemma rg_notifyInternal input createdBy applicationId w :
  platformOk -> stable w ->
  rg (notifyInternal np s input createdBy applicationId) (fun o w' => forall r, o = Ok r -> notified input w r w') w.
Proof.
  intros Hpl Hs. unfold notifyInternal, notified, logicalId. apply rg_bind, rg_outcome; [exact Hs|].
  destruct (normalizeInput _ _ _ _ _) as [nn|e] eqn:En; [|discriminate].
  apply normalizeInput_ok in En as (Hclean & Hd & Hr); [|apply Hpl].
  apply rg_bind, rg_safe; [apply safe_nowIso | exact Hs|]. intros [createdAt|] w1 Hs1 Ho1; [|discriminate].
  destruct (match ifPresent (nn_expiresAt nn) with Some e => strLe e createdAt | None => false end); [apply rg_throw; [exact Hs1 | discriminate]|].
  apply rg_bind. eapply rg_mono; [apply rg_notificationId; [exact Hpl | exact Hs1]|].
  intros [id|e] w2 Hs2 Ho2 Hsp; [|discriminate]. destruct (Hsp id eq_refl) as [Hspoken Hkey].
  cbv zeta. set (n := notificationOf nn id createdAt createdBy applicationId).
  apply rg_bind, rg_createWithDeliveries; try assumption; [apply (notification_new nn id), Hclean|].
  intros [created|e] w3 Hs3 Ho3 Hno; [|discriminate]. change (n_id n) with id in Hno. apply rg_bind, rg_safe; [|exact Hs3|].
  { destruct created; [apply safe_audited|]. safe_tac. }
  intros [u|e] w4 Hs4 _; [|discriminate]. eapply rg_mono; [apply (rg_notifyTail (n_tenantId n) id created), Hs4|].
  intros o w5 Hs5 _ HQ r ->. destruct (HQ r eq_refl) as [Hshows ->]. pose proof (shows_id _ _ _ Hs5 Hshows) as Hid.
  split; [now rewrite Hid|]. intros id' Hl. destruct (ifPresent (nn_idempotencyKey nn)) as [key|]; [|discriminate Hl].
  injection Hl as <-. rewrite Hid, (Hkey key eq_refl). split; [reflexivity|]. intros [cur Hx].
  assert (onward w w2) as Ho by (etransitivity; eassumption). destruct (stays _ _ _ _ Hx Ho) as (cur' & Hk' & _).
  destruct created; [|reflexivity]. destruct Hno; [rewrite (Hkey key eq_refl); eauto | reflexivity].
Qed.

(** ** The operations *)

(** The host's policy decisions keep the protocol. *)
Definition authoritySafe : Prop := forall g, ns_authority s = Some g -> hostSafe P g.

Hypothesis Hauthority : authoritySafe.

(** The input as it is normalized: the tenant is the verified caller's. *)
Definition effectiveInput (input : list (string * jsval)) (caller : NotificationCaller) : list (string * jsval) :=
  match ns_authority s, nc_caller caller with
  | Some _, CVerified p => withField input "tenantId" (JStr (vp_tenantId p))
  | _, _ => input
  end.

Lemma rg_notify input caller w :
  platformOk -> stable w ->
  rg (notify np s input caller) (fun o w' => forall r, o = Ok r -> notified (effectiveInput input caller) w r w') w.
Proof.
  intros Hpl Hs. unfold notify, effectiveInput. destruct (ns_authority s) as [g|] eqn:Eg.
  - apply rg_bind, rg_outcome; [exact Hs|]. destruct (requireVerifiedPrincipal _) as [p|] eqn:Ep; [|discriminate].
    apply requireVerified_ok in Ep as ->. apply rg_bind, rg_outcome; [exact Hs|]. destruct (rejectCallerActor _ _); [|discriminate].
    apply rg_bind, rg_outcome; [exact Hs|]. destruct (resolveTenant _ _) as [t|] eqn:Et; [|discriminate].
    apply resolveTenant_ok in Et as [-> _]. apply rg_execute; [now apply Hauthority | exact Hs | |].
    + intros r w1 w2 [Hshows Hid] Ho. split; [eapply shows_onward; eassumption | exact Hid].
    + intros x tools w1 Hs1 Ho1. eapply rg_mono; [now apply rg_notifyInternal|]. intros o w2 _ _ HQ r Hr.
      destruct (HQ r Hr) as [Hshows Hid]. split; [exact Hshows|]. intros id Hl. destruct (Hid id Hl) as [Hn Hc].
      split; [exact Hn|]. intros [cur Hk]. apply Hc. destruct (stays _ _ _ _ Hk Ho1) as (cur' & Hk' & _). eauto.
  - apply rg_bind, rg_outcome; [exact Hs|]. destruct (authorizeTenant _ _ _); [|discriminate]. now apply rg_notifyInternal.
Qed.

Lemma safe_notify input caller : platformOk -> safe (notify np s input caller).
Proof. intros Hpl w Hs. eapply rg_mono; [now apply rg_notify | auto]. Qed.

Lemma safe_loadReadable tenantId id caller : safe (loadReadable s tenantId id caller).
Proof.
  unfold loadReadable. apply safe_bind; [apply safe_ns_get | intros [item|]; [|apply safe_throw]].
  destruct (negb _); [apply safe_throw|]. destruct (ns_authority s) as [g|] eqn:Eg; [|safe_tac].
  do 2 (apply safe_bind; [apply safe_outcome | intros ?]). apply safe_bind; [|safe_tac].
  apply safe_execute; [now apply Hauthority | intros; apply safe_ret].
Qed.

Lemma safe_getNotification tenantId id caller : safe (getNotification s tenantId id caller).
Proof. apply safe_bind; [apply safe_loadReadable | intros item; apply safe_materialize]. Qed.

Lemma safe_deliveries tenantId id caller : safe (deliveries np s tenantId id caller).
Proof. unfold deliveries. apply safe_bind; [apply safe_loadReadable | intros item]. safe_tac. Qed.

Lemma safe_ns_list tenantId : safe (ns_list tenantId).
Proof. apply safe_find. Qed.

Lemma safe_listNotifications tenantId options caller : safe (listNotifications np s tenantId options caller).
Proof.
  unfold listNotifications. destruct (match ifPresent (nl_status options) with Some st => _ | None => false end); [apply safe_throw|].
  apply safe_bind; [safe_tac | intros cursor]. apply safe_bind.
  - unfold authorizedList. destruct (ns_authority s) as [g|] eqn:Eg.
    + do 2 (apply safe_bind; [apply safe_outcome | intros ?]). apply safe_bind; [|intros ?; apply safe_bind; [apply safe_ns_list | safe_tac]].
      apply safe_execute; [now apply Hauthority | intros; apply safe_ret].
    + apply safe_bind; [apply safe_outcome | intros principal]. cbv zeta.
      destruct (match ifPresent (nl_recipient options) with Some r => _ | None => false end); [apply safe_throw|].
      apply safe_bind; [apply safe_ns_list | intros ?; apply safe_ret].
  - intros items. apply safe_bind; [apply safe_map, safe_materialize | intros ?; apply safe_ret].
Qed.

Lemma safe_mutateLoop attempts type tenantId id principalId allowed change :
  (forall n now patch, change n now = Some patch -> patchOk n patch) ->
  safe (mutateLoop attempts type tenantId id principalId allowed change).
Proof.
  intros Hchange. induction attempts as [|rest IH]; [apply safe_throw|]. cbn [mutateLoop]. intros w Hs.
  apply rg_bind, rg_ns_get; [exact Hs|]. intros [n|] w1 Hs1 _ Hseen; [|now apply rg_throw].
  destruct (Hseen n eq_refl) as [Hin _]. apply rg_bind, rg_outcome; [exact Hs1|]. destruct (allowed n) as [u|e]; [|exact I].
  apply rg_bind, rg_nowIso; [exact Hs1|]. intros [now|e] w2 Hs2 Ha; [|exact I].
  destruct (change n now) as [patch|] eqn:E; [|now apply safe_materialize].
  apply rg_bind, rg_ns_update; [exact Hs2 | | eapply Hchange, E|].
  { eapply seen_onward; [exact Hin | apply (stable_aside P _ _ Hs1 Ha)]. }
  intros [u'|] w3 Hs3 _; [|now apply IH]. revert w3 Hs3.
  eapply safe_bind; [apply safe_audited | intros _; apply safe_materialize].
Qed.

Lemma safe_loadOwned tenantId id : safe (loadOwned s tenantId id).
Proof. unfold loadOwned. apply safe_bind; [apply safe_ns_get | intros [item|]; apply safe_ret]. Qed.

Lemma safe_mutate type tenantId id caller change :
  (forall n now patch, change n now = Some patch -> patchOk n patch) -> safe (mutate s type tenantId id caller change).
Proof.
  intros Hchange. unfold mutate. destruct (ns_authority s) as [g|] eqn:Eg.
  - do 2 (apply safe_bind; [apply safe_outcome | intros ?]).
    apply safe_bind; [apply safe_loadOwned | intros [item|]; [|apply safe_throw]].
    apply safe_execute; [now apply Hauthority | intros; now apply safe_mutateLoop].
  - apply safe_bind; [apply safe_outcome | intros ?]. now apply safe_mutateLoop.
Qed.

Lemma safe_retryFailed tenant item id channel principalId : safe (retryFailed np s tenant item id channel principalId).
Proof. unfold retryFailed. safe_tac. Qed.

Lemma safe_retryDelivery tenantId id channel caller : safe (retryDelivery np s tenantId id channel caller).
Proof.
  unfold retryDelivery. destruct (ns_authority s) as [g|] eqn:Eg.
  - do 2 (apply safe_bind; [apply safe_outcome | intros ?]).
    apply safe_bind; [apply safe_loadOwned | intros [item|]; [|apply safe_throw]].
    apply safe_execute; [now apply Hauthority | intros; apply safe_retryFailed].
  - apply safe_bind; [|intros [[item p]|]; [apply safe_retryFailed | apply safe_throw]].
    unfold loadOwnedForWrite. apply safe_bind; [apply safe_loadOwned | intros [item|]; [|apply safe_ret]].
    do 2 (apply safe_bind; [apply safe_outcome | intros ?]). apply safe_ret.
Qed.
End safety.

(** A request to the service: every operation but [delete], the delivery job
    and the recovery included. *)
Inductive NotificationRequest :=
| RqNotify (input : list (string * jsval)) (caller : NotificationCaller)
| RqGet (tenantId id : string) (caller : NotificationCaller)
| RqList (tenantId : string) (options : NotificationListOptions) (caller : NotificationCaller)
| RqRead (tenantId id : string) (caller : NotificationCaller)
| RqAcknowledge (tenantId id : string) (caller : NotificationCaller)
| RqDismiss (tenantId id : string) (caller : NotificationCaller)
| RqDeliveries (tenantId id : string) (caller : NotificationCaller)
| RqRetry (tenantId id channel : string) (caller : NotificationCaller)
| RqRecover (tenantId : string)
| RqJob (job : Job).

Section serving.
Context {DB : Type} `{FeltDBLaws DB}.
Variable np : NotificationPlatform.
Variable s : NotificationService DB.

Definition serve (r : NotificationRequest) : M DB unit :=
  match r with
  | RqNotify input caller => swallow (notify np s input caller)
  | RqGet t id caller => swallow (getNotification s t id caller)
  | RqList t options caller => swallow (listNotifications np s t options caller)
  | RqRead t id caller => swallow (markRead s t id caller)
  | RqAcknowledge t id caller => swallow (acknowledge s t id caller)
  | RqDismiss t id caller => swallow (dismiss s t id caller)
  | RqDeliveries t id caller => swallow (deliveries np s t id caller)
  | RqRetry t id channel caller => swallow (retryDelivery np s t id channel caller)
  | RqRecover t => swallow (recoverDeliveries s t)
  | RqJob job => swallow (runDeliveryJob s job)
  end.

Fixpoint serveAll (requests : list NotificationRequest) : M DB unit :=
  match requests with [] => mret tt | r :: rest => _ ← serve r; serveAll rest end.

Lemma safe_serve r :
  channelsSafe s -> authoritySafe s -> platformOk np s -> safe forwardProtocol (serve r).
Proof.
  intros Hc Ha Hp. destruct r; apply safe_swallow.
  - now apply safe_notify.
  - now apply safe_getNotification.
  - now apply safe_listNotifications.
  - apply safe_mutate; [exact Ha | apply readChange_ok].
  - apply safe_mutate; [exact Ha | apply acknowledgeChange_ok].
  - apply safe_mutate; [exact Ha | apply dismissChange_ok].
  - now apply safe_deliveries.
  - now apply safe_retryDelivery.
  - now apply safe_recoverDeliveries.
  - now apply safe_runDeliveryJob.
Qed.

Lemma safe_serveAll requests :
  channelsSafe s -> authoritySafe s -> platformOk np s -> safe forwardProtocol (serveAll requests).
Proof.
  intros Hc Ha Hp. induction requests as [|r rest IH]; [apply safe_ret|].
  apply safe_bind; [now apply safe_serve | intros _; exact IH].
Qed.
End serving.
