(* ===== verification/DeliveryFacts.v ===== *)
(** * DeliveryFacts: what an attempt makes of a delivery

    Nobody else writes here ([alone]).  An attempt either waits, or settles the
    delivery, or counts one more attempt below the maximum and schedules the
    next. *)

From S2P Require Import Prelude JsString JsTime Errors Models Store Calm Principal Manifest Evidence Gateway Rely Jobs Notifications NotificationFacts.
From Stdlib Require Import ZArith Lia Ascii.
Local Open Scope string_scope.
Local Open Scope Z_scope.

(** ** The deliveries stay as they are *)

Section rows.
Context {DB : Type} `{FeltDB DB}.

Definition sameDeliveries (db db' : DB) : Prop :=
  (forall k, peek CNotificationDeliveries k db' = peek CNotificationDeliveries k db) /\
  (forall k, is_Some (peek CEvidence k db) -> is_Some (peek CEvidence k db')).

#[global] Instance sameDeliveries_preorder : PreOrder sameDeliveries.
Proof.
  split.
  - intros db. split; auto.
  - intros a b c [A1 A2] [B1 B2]. split; [|auto]. intros k. now rewrite B1, A1.
Qed.

Lemma same_elsewhere {V} (c : coll V) k x db db' :
  changed c k (Some x) db db' -> cname c <> cname CNotificationDeliveries -> sameDeliveries db db'.
Proof.
  intros Hch Hne. split; [intros k'; apply (changed_frame _ _ _ _ _ _ _ Hch); congruence|].
  intros k' [e Hk']. destruct (decide ((cname CEvidence, k') = (cname c, k))) as [E|E].
  - injection E as E ->. apply changed_hit in Hch. destruct c; try discriminate E. rewrite Hch. eauto.
  - rewrite (changed_frame _ _ _ CEvidence k' _ _ Hch E). eauto.
Qed.

Definition deliveriesProtocol : Protocol DB.
Proof.
  refine (mkProtocol sameDeliveries (fun _ => True) (fun _ => True) _ _ _ _).
  - auto.
  - intros db db' k [_ He]. apply He.
  - intros db db' k x Hch. eapply same_elsewhere; [exact Hch | discriminate].
Defined.
End rows.

Section facts.
Context {DB : Type} `{FeltDBLaws DB}.
Variable s : NotificationService DB.
#[local] Abbreviation P := (deliveriesProtocol (DB := DB)).
#[local] Abbreviation safe := (safe P).
Implicit Types w : World DB.

(** Nobody else writes, and the clock shows dates. *)
Definition alone w : Prop := quiet w /\ forall n, 0 <= w_clock w n <= timeBound.

Lemma alone_stable w : alone w -> stable P w.
Proof.
  intros [(He & Hu & Hf) _]. split; [exact Hu|]. split; [exact I|]. split; [exact Hf|]. rewrite He. split; [constructor|].
  intros n. exact I.
Qed.

Lemma stable_alone w w' : alone w -> stable P w' -> onward P w w' -> alone w'.
Proof.
  intros [(He & _) Hc] (Hu & _ & Hf & _) (_ & _ & _ & Hck & Henv). split; [|now rewrite Hck].
  split; [now apply Henv|]. split; assumption.
Qed.

(** What leaves the deliveries alone. *)
Lemma wp_tail {A} (m : M DB A) Q w :
  safe m -> alone w -> (forall o w', alone w' -> w_clock w' = w_clock w ->
    (forall k, peek CNotificationDeliveries k (w_db w') = peek CNotificationDeliveries k (w_db w)) -> Q o w') -> wp m Q w.
Proof.
  intros Hm Hw HQ. destruct (Hm w (alone_stable _ Hw)) as (Hs & Ho & _).
  apply HQ; [eapply stable_alone; eassumption | apply Ho | apply Ho].
Qed.

Lemma other_free {V} (c : coll V) : cname c <> cname CNotificationDeliveries -> free P c.
Proof. intros Hne k x db db' Hch. eapply same_elsewhere; eassumption. Qed.

Lemma tail_transition attempts tenantId id change audit :
  (forall n, safe (change n)) -> safe (transition attempts tenantId id change audit).
Proof.
  intros Hch. induction attempts as [|rest IH]; [apply safe_ret|]. cbn [transition].
  apply safe_bind; [apply safe_ns_get | intros [n|]; [|apply safe_ret]]. apply safe_bind; [apply Hch | intros [patch|]; [|apply safe_ret]].
  apply safe_bind.
  - unfold ns_update. apply safe_bind; [apply safe_get | intros [c|]; [|apply safe_ret]]. now apply safe_cas_free, other_free.
  - intros [u|]; [|exact IH]. destruct audit; [now apply safe_notifyAudit, other_free | apply safe_ret].
Qed.

Lemma tail_refresh tenantId id : safe (refreshStatus tenantId id).
Proof.
  unfold refreshStatus. apply safe_bind; [apply safe_ds_list | intros l]. apply safe_bind; [apply safe_nowIso | intros now].
  apply tail_transition. intros n. apply safe_ret.
Qed.

Lemma tail_schedule d runAt : safe (scheduleAttempt s d runAt).
Proof. apply safe_scheduleAttempt. split; now apply other_free. Qed.

(** ** Settling *)

(** The delivery it is: its identity and its bound. *)
Definition deliveryIdentity (d : NotificationDelivery) :=
  (nd_id d, nd_tenantId d, nd_notificationId d, nd_channel d, nd_maxAttempts d).

(** What a result makes of the status. *)
Definition resultStatus (d : NotificationDelivery) (r : NotificationDeliveryResult) : NotificationDeliveryStatus :=
  match r with
  | ChannelDelivered _ => NdDelivered
  | ChannelFailed _ retryable => if canRetry s d retryable then NdRetrying else NdFailed
  end.

Lemma wp_isoDate t Q w : - maxTime <= t <= maxTime -> (forall a, toISO t = Some a -> Q (Ok a) w) -> wp (isoString t) Q w.
Proof. intros Ht HQ. destruct (toISO_some t Ht) as [a Ha]. eapply wp_isoString; eauto. Qed.

Lemma alone_tick w : alone w -> alone (w <| w_tick := S (w_tick w) |>).
Proof. intros [(He & Hu & Hf) Hc]. split; [|exact Hc]. split; [exact He|]. split; assumption. Qed.

Lemma wp_now Q w : alone w ->
  (forall t a, t = w_clock w (w_tick w) -> toISO t = Some a -> Q (Ok a) (w <| w_tick := S (w_tick w) |>)) -> wp nowIso Q w.
Proof.
  intros [Hq Hc] HQ. unfold nowIso. apply wp_bind, wp_nowMs. apply wp_isoDate; [|eauto].
  pose proof (Hc (w_tick w)). unfold timeBound, maxTime in *. lia.
Qed.

Lemma retryDelay_range n : 0 <= ns_retryDelayMs s -> 0 <= retryDelay s n <= MAX_RETRY_DELAY_MS.
Proof.
  intros Hr. unfold retryDelay. pose proof (Z.pow_nonneg 2 (Z.max (n - 1) 0) ltac:(lia)).
  unfold MAX_RETRY_DELAY_MS. nia.
Qed.

(** The update keeps the delivery's identity and count, and gives it the status of the result. *)
Definition settles (d : NotificationDelivery) (r : NotificationDeliveryResult) (patch : NotificationDelivery -> NotificationDelivery) : Prop :=
  deliveryIdentity (patch d) = deliveryIdentity d /\ nd_attemptCount (patch d) = nd_attemptCount d /\
  nd_status (patch d) = resultStatus d r.

Lemma settlement_spec d r Q w :
  alone w -> 0 <= ns_retryDelayMs s ->
  (forall st w', alone w' -> w_db w' = w_db w -> w_clock w' = w_clock w -> settles d r st.1 -> Q (Ok st) w') ->
  wp (settlementOf s d r) Q w.
Proof.
  intros Hw Hr HQ. unfold settlementOf. apply wp_bind, wp_now; [exact Hw|]. intros t now _ _.
  pose proof (alone_tick _ Hw) as Hw1. unfold settles, resultStatus in HQ.
  destruct r as [ext|reason retryable]; [apply wp_ret, HQ; auto; repeat split|].
  cbv zeta. destruct (canRetry s d retryable) eqn:E; [|apply wp_ret, HQ; auto; repeat split].
  apply wp_bind, wp_nowMs. apply wp_bind, wp_isoDate.
  - pose proof (proj2 Hw1 (w_tick (w <| w_tick := S (w_tick w) |>))) as Ht.
    pose proof (retryDelay_range (nd_attemptCount d) Hr) as Hd.
    unfold timeBound, maxTime, MAX_RETRY_DELAY_MS in *. cbn in *. lia.
  - intros next _. apply wp_ret, HQ; [apply alone_tick, Hw1 | reflexivity | reflexivity | repeat split].
Qed.

Lemma wp_ds_update d patch Q w :
  alone w -> peek CNotificationDeliveries (nd_id d) (w_db w) = Some d ->
  (let new := patch d <| nd_version := nd_version d + 1 |> in
   forall w', alone w' -> w_clock w' = w_clock w -> w_tick w' = w_tick w ->
     peek CNotificationDeliveries (nd_id d) (w_db w') = Some new -> Q (Ok (Some new)) w') ->
  wp (ds_update (nd_tenantId d) (nd_id d) (nd_version d) patch) Q w.
Proof.
  intros [Hq Hc] Hd HQ. unfold ds_update. apply wp_bind, wp_get; [exact Hq|]. rewrite Hd, String.eqb_refl. cbn [negb].
  apply (wp_cas_hit CNotificationDeliveries (nd_id d) d); [exact Hq | exact Hd|]. intros new db' Hch Hq'.
  apply HQ; [split; [exact Hq' | exact Hc] | reflexivity | reflexivity | eapply changed_hit, Hch].
Qed.

(** The delivery of [d], settled by [r]. *)
Definition finishedBy (d : NotificationDelivery) (r : NotificationDeliveryResult) w : Prop :=
  exists d', peek CNotificationDeliveries (nd_id d) (w_db w) = Some d' /\ deliveryIdentity d' = deliveryIdentity d /\
    nd_attemptCount d' = nd_attemptCount d /\ nd_status d' = resultStatus d r.

Lemma finish_spec d n r w :
  alone w -> 0 <= ns_retryDelayMs s -> peek CNotificationDeliveries (nd_id d) (w_db w) = Some d ->
  wp (finishDelivery s d n r) (fun _ w' => alone w' /\ w_clock w' = w_clock w /\ finishedBy d r w') w.
Proof.
  intros Hw Hr Hd. unfold finishDelivery. apply wp_bind, settlement_spec; [exact Hw | exact Hr|].
  intros st w1 Hw1 Hdb1 Hc1 (Hid & Hn & Hst). rewrite <- Hdb1 in Hd. apply wp_bind, wp_ds_update; [exact Hw1 | exact Hd|].
  intros new w2 Hw2 Hc2 _ Hk.
  assert (forall A (m : M DB A), safe m -> wp m (fun _ w' => alone w' /\ w_clock w' = w_clock w /\ finishedBy d r w') w2) as Htail.
  { intros A m Hm. eapply wp_tail; [exact Hm | exact Hw2|]. intros o w3 Hw3 Hc3 Hrows. split; [exact Hw3|].
    split; [congruence|]. exists new. rewrite Hrows. split; [exact Hk|]. split; [exact Hid|]. split; [exact Hn | exact Hst]. }
  apply Htail. eapply safe_bind.
  - destruct (nd_status new); try apply safe_ret. apply tail_schedule.
  - intros _. destruct n as [n|]; [|apply safe_ret].
    apply safe_bind; [now apply safe_notifyAudit, other_free | intros _].
    apply safe_bind; [apply tail_refresh | intros _; apply safe_ret].
Qed.

(** ** One attempt *)

(** Channels leave the stored deliveries to the service. *)
Definition channelsAside : Prop :=
  forall type channel, mapGet (ns_channels s) type = Some channel -> forall n d, safe (channel n d).

(** The next attempt, in this world, does not wait. *)
Definition due (mode : AttemptMode) (d : NotificationDelivery) w : Prop :=
  forall now cutoff, toISO (w_clock w (w_tick w)) = Some now -> toISO (w_clock w (w_tick w) - ATTEMPT_LEASE_MS) = Some cutoff ->
    waits mode now cutoff d = false.

(** After an attempt at [d]: settled, or one more attempt counted and more to come. *)
Definition attempted (d : NotificationDelivery) w : Prop :=
  exists d', peek CNotificationDeliveries (nd_id d) (w_db w) = Some d' /\ deliveryIdentity d' = deliveryIdentity d /\
    (settled d' = true \/
     nd_status d' = NdRetrying /\ nd_attemptCount d' = nd_attemptCount d + 1 /\ nd_attemptCount d' < nd_maxAttempts d').

Lemma finished_settled d r w : finishedBy d r w -> resultStatus d r <> NdRetrying -> attempted d w.
Proof.
  intros (d' & Hk & Hid & _ & Hst) Hne. exists d'. split; [exact Hk|]. split; [exact Hid|]. left. unfold settled. rewrite Hst.
  unfold resultStatus in *. destruct r; [reflexivity|]. destruct (canRetry _ _ _); [destruct (Hne eq_refl) | reflexivity].
Qed.

Lemma failed_settled d n reason w :
  alone w -> 0 <= ns_retryDelayMs s -> peek CNotificationDeliveries (nd_id d) (w_db w) = Some d ->
  wp (finishDelivery s d n (ChannelFailed reason (Some false)))
     (fun _ w' => alone w' /\ w_clock w' = w_clock w /\ attempted d w') w.
Proof.
  intros Hw Hr Hd. eapply wp_mono; [apply finish_spec; assumption|]. intros o w' (Hw' & Hc' & Hf). split; [exact Hw'|].
  split; [exact Hc'|]. eapply finished_settled; [exact Hf|]. cbn. discriminate.
Qed.

Lemma deliver_spec channel n d w :
  alone w -> (forall n d, safe (channel n d)) ->
  wp (deliverThrough channel n d) (fun o w' => (exists r, o = Ok r) /\ alone w' /\ w_clock w' = w_clock w /\
    forall k, peek CNotificationDeliveries k (w_db w') = peek CNotificationDeliveries k (w_db w)) w.
Proof.
  intros Hw Hch. unfold deliverThrough. apply wp_tryCatch.
  eapply wp_tail; [|exact Hw|]; [apply safe_bind; [apply safe_view | intros shown; apply Hch]|].
  intros [r|e] w' Hw' Hc' Hrows; [eauto|]. apply wp_ret. eauto.
Qed.

Lemma attempt_spec d mode w :
  channelsAside -> 0 <= ns_retryDelayMs s -> alone w -> peek CNotificationDeliveries (nd_id d) (w_db w) = Some d ->
  settled d = false -> due mode d w ->
  wp (attemptDelivery s (nd_tenantId d) (nd_id d) mode) (fun _ w' => alone w' /\ w_clock w' = w_clock w /\ attempted d w') w.
Proof.
  intros Hch Hr Hw Hd Hset Hdue. unfold attemptDelivery, ds_get. apply wp_bind, wp_bind, wp_get; [apply Hw|].
  apply wp_ret. rewrite Hd, String.eqb_refl, Hset. pose proof (proj2 Hw (w_tick w)) as Ht.
  apply wp_bind, wp_nowMs. pose proof (alone_tick _ Hw) as Hw1. set (w1 := w <| w_tick := S (w_tick w) |>) in *.
  apply wp_bind, wp_isoDate; [unfold timeBound, maxTime in *; lia|]. intros now Hnow.
  apply wp_bind, wp_isoDate; [unfold timeBound, maxTime, ATTEMPT_LEASE_MS in *; lia|]. intros cutoff Hcut.
  rewrite (Hdue now cutoff Hnow Hcut). unfold ns_get at 1. apply wp_bind, wp_bind, wp_get; [apply Hw1|]. apply wp_ret.
  change (w_clock w) with (w_clock w1). change (peek CNotificationDeliveries (nd_id d) (w_db w1) = Some d) in Hd.
  destruct (ofNotificationTenant _ _) as [n|]; [|now apply failed_settled].
  destruct (match ifPresent (n_expiresAt n) with Some e => strLe e now | None => false end).
  { apply wp_bind. eapply wp_mono; [now apply failed_settled|]. intros [failed|e] w2 (Hw2 & Hc2 & Ha); [|auto].
    eapply wp_tail; [|exact Hw2|].
    - eapply safe_bind; [apply tail_transition; intros; apply safe_ret | intros _; apply safe_ret].
    - intros o w3 Hw3 Hc3 Hrows. split; [exact Hw3|]. split; [congruence|]. unfold attempted in *. now rewrite Hrows. }
  destruct (mapGet (ns_channels s) (nd_channel d)) as [channel|] eqn:Ech; [|now apply failed_settled].
  apply wp_bind, wp_ds_update; [exact Hw1 | exact Hd|]. intros c w2 Hw2 Hc2 _ Hk. apply wp_bind.
  eapply wp_mono; [apply deliver_spec; [exact Hw2 | eapply Hch, Ech]|].
  intros o w3 ((r & ->) & Hw3 & Hc3 & Hrows). rewrite <- Hrows in Hk. change (nd_id d) with (nd_id c) in Hk.
  eapply wp_mono; [apply finish_spec; [exact Hw3 | exact Hr | exact Hk]|].
  intros o w4 (Hw4 & Hc4 & Hf). split; [exact Hw4|]. split; [etransitivity; [exact Hc4|]; now rewrite Hc3, Hc2|].
  destruct Hf as (d' & Hk' & Hid & Hn & Hst). exists d'. split; [exact Hk'|]. split; [exact Hid|].
  unfold settled. rewrite Hst. unfold resultStatus. destruct r as [|reason retryable]; [now left|].
  destruct (canRetry s c retryable) eqn:E; [|now left]. right. split; [reflexivity|]. split; [exact Hn|].
  unfold canRetry in E. apply andb_prop in E as [_ E]. apply Z.ltb_lt in E. injection Hid as _ _ _ _ ->. rewrite Hn. exact E.
Qed.

(** ** Until it is settled *)

(** A life of the delivery [id] with so many attempts that do not wait;
    between them others may do anything that leaves the delivery alone. *)
Inductive attemptsRun (tenantId id : string) : nat -> World DB -> World DB -> Prop :=
| run_done w : attemptsRun tenantId id 0 w w
| run_attempt mode n w w' :
    (forall d, peek CNotificationDeliveries id (w_db w) = Some d -> settled d = false -> due mode d w) ->
    attemptsRun tenantId id n (attemptDelivery s tenantId id mode w).1 w' -> attemptsRun tenantId id (S n) w w'
| run_other n w w1 w' :
    alone w1 -> peek CNotificationDeliveries id (w_db w1) = peek CNotificationDeliveries id (w_db w) ->
    attemptsRun tenantId id n w1 w' -> attemptsRun tenantId id n w w'.

Lemma attempt_settled tenantId d mode w :
  alone w -> peek CNotificationDeliveries (nd_id d) (w_db w) = Some d -> settled d = true ->
  wp (attemptDelivery s tenantId (nd_id d) mode) (fun _ w' => w' = w) w.
Proof.
  intros Hw Hd Hset. unfold attemptDelivery, ds_get. apply wp_bind, wp_bind, wp_get; [apply Hw|]. apply wp_ret. rewrite Hd.
  destruct (String.eqb _ _); [rewrite Hset|]; now apply wp_ret.
Qed.

Lemma run_settled tenantId id n w w' :
  attemptsRun tenantId id n w w' -> alone w ->
  forall d, nd_id d = id -> peek CNotificationDeliveries id (w_db w) = Some d -> settled d = true ->
  peek CNotificationDeliveries id (w_db w') = Some d.
Proof.
  induction 1 as [w|mode n w w' Hdue Hrun IH|n w w1 w' Hw1 Hrow Hrun IH]; intros Hw d Hid Hd Hset.
  - exact Hd.
  - subst id. pose proof (attempt_settled tenantId d mode w Hw Hd Hset) as E. unfold wp in E. rewrite E in IH. now apply IH.
  - apply (IH Hw1 d Hid); [now rewrite Hrow | exact Hset].
Qed.

Lemma run_settles tenantId id n w w' :
  channelsAside -> 0 <= ns_retryDelayMs s -> attemptsRun tenantId id n w w' -> alone w ->
  forall d, nd_id d = id -> nd_tenantId d = tenantId -> peek CNotificationDeliveries id (w_db w) = Some d ->
  settled d = true \/ (0 < n)%nat /\ nd_maxAttempts d - nd_attemptCount d <= Z.of_nat n ->
  exists d', peek CNotificationDeliveries id (w_db w') = Some d' /\ settled d' = true.
Proof.
  intros Hch Hr. induction 1 as [w|mode n w w' Hdue Hrun IH|n w w1 w' Hw1 Hrow Hrun IH]; intros Hw d Hid Ht Hd Hn.
  - destruct Hn as [Hs|[Hn _]]; [eauto | lia].
  - destruct (settled d) eqn:Es.
    { exists d. split; [|exact Es]. eapply run_settled; [eapply run_attempt; eassumption | exact Hw | exact Hid | exact Hd | exact Es]. }
    subst id tenantId. pose proof (attempt_spec d mode w Hch Hr Hw Hd Es (Hdue d Hd Es)) as (Hw1 & _ & d' & Hk & Hid & Hor).
    injection Hid as Hid Hten _ _ Hmax. apply (IH Hw1 d' Hid Hten Hk).
    destruct Hor as [Hs|(_ & Hc & Hlt)]; [now left|]. right. destruct Hn as [?|[_ Hn]]; [discriminate|]. rewrite Hmax, Hc in *. lia.
  - apply (IH Hw1 d Hid Ht); [now rewrite Hrow | exact Hn].
Qed.
End facts.
