(* ===== verification/JobsFacts.v ===== *)
(** * JobsFacts: what the job service guarantees *)

From S2P Require Import Prelude JsString JsTime Errors Models Store Calm Principal Manifest Evidence Gateway GatewayFacts Jobs.
From Stdlib Require Import ZArith Lia Ascii.
Local Open Scope string_scope.
Local Open Scope Z_scope.

(** ** Schedules' intervals *)

(** [<digits><unit>] is accepted exactly, and is that many milliseconds. *)
Lemma intervalMs_spec interval ms :
  intervalMs interval = Some ms <->
  exists digits u m, interval = digits ++ String u EmptyString /\ digits <> "" /\
    all isDigit digits = true /\ unitMs u = Some m /\ ms = digitsValue 0 digits * m.
Proof.
  unfold intervalMs. split.
  - destruct (splitLast interval) as [[digits u]|] eqn:E; [|discriminate].
    apply splitLast_spec in E. destruct (truthy digits && all isDigit digits) eqn:Ed; [|discriminate].
    apply andb_prop in Ed as [Ht Ha]. apply truthy_spec in Ht.
    destruct (unitMs u) as [m|] eqn:Em; [|discriminate]. intros [= <-].
    exists digits, u, m. auto.
  - intros (digits & u & m & -> & Hne & Ha & Hm & ->).
    replace (splitLast (digits ++ String u "")) with (Some (digits, u)) by (symmetry; now apply splitLast_spec).
    rewrite (proj2 (truthy_spec digits) Hne), Ha, Hm. reflexivity.
Qed.

Lemma digitsValue_nonneg digits acc : all isDigit digits = true -> 0 <= acc -> 0 <= digitsValue acc digits.
Proof.
  revert acc. induction digits as [|c r IH]; intros acc Ha Hacc; cbn in *; [exact Hacc|].
  apply andb_prop in Ha as [Hc Hr]. apply IH; [exact Hr|].
  unfold isDigit, codeIn, digitVal in *. apply andb_prop in Hc as [H1 H2].
  apply Nat.leb_le in H1. lia.
Qed.

(** The next run is exactly one interval after the given instant, and never
    before it. *)
Lemma nextRunTime_spec t now interval next :
  toISO t = Some now -> nextRunTime now interval = Ok next ->
  exists ms, intervalMs interval = Some ms /\ 0 <= ms /\ toISO (t + ms) = Some next.
Proof.
  intros Ht. unfold nextRunTime. destruct (intervalMs interval) as [ms|] eqn:E; [|discriminate].
  unfold dateOf. rewrite (parseDate_toISO _ _ _ Ht).
  destruct (toISO (t + ms)) as [s|] eqn:Es; [|discriminate]. intros [= <-].
  exists ms. split; [reflexivity|]. split; [|exact Es].
  apply intervalMs_spec in E as (digits & u & m & _ & _ & Ha & Hm & ->).
  pose proof (digitsValue_nonneg digits 0 Ha ltac:(lia)).
  unfold unitMs in Hm. repeat case_hyp Hm; try discriminate Hm; injection Hm as <-; lia.
Qed.

Section facts.
Context {DB : Type} `{FeltDBLaws DB}.
Variable s : JobService DB.
Implicit Types w : World DB.

(** ** Stepping through the store *)

Lemma wp_js_get t id Q w :
  calm w -> Q (Ok (ofTenant t (peek CJobs id (w_db w)))) w -> wp (js_get t id) Q w.
Proof. intros Hc HQ. unfold js_get. apply wp_bind, wpc_get; [exact Hc|]. apply wp_ret. exact HQ. Qed.

Definition written (patch : Job -> Job) (j : Job) : Job := patch j <| j_version := j_version j + 1 |>.

Lemma wp_js_update t id j patch Q w :
  calm w -> peek CJobs id (w_db w) = Some j ->
  (forall w', calm w' -> later w w' -> changed CJobs id (Some (written patch j)) (w_db w) (w_db w') ->
   Q (Ok (ofTenant t (Some (written patch j)))) w') ->
  wp (js_updateJob t id (j_version j) patch) Q w.
Proof.
  intros Hc Hj HQ. unfold js_updateJob. apply wp_bind.
  eapply (wpc_cas CJobs id j patch); [exact Hc | exact Hj|].
  intros new w' Hc' Hl Hch. apply wp_ret. apply HQ; assumption.
Qed.

(** A write from a copy that is no longer current does nothing. *)
Lemma wp_js_stale t id v patch Q w :
  calm w -> (forall j, peek CJobs id (w_db w) = Some j -> j_version j <> v) ->
  Q (Ok None) w -> wp (js_updateJob t id v patch) Q w.
Proof.
  intros Hc Hj HQ. unfold js_updateJob. apply wp_bind.
  apply wpc_cas_stale; [exact Hc | exact Hj|]. apply wp_ret. exact HQ.
Qed.

Lemma wp_js_claim t id j lease Q w :
  calm w -> peek CJobs id (w_db w) = Some j ->
  (forall sys w', calm w' -> later w w' ->
     changed CJobs id (Some (written (claimPatch lease sys) j)) (w_db w) (w_db w') ->
     Q (Ok (ofTenant t (Some (written (claimPatch lease sys) j)))) w') ->
  wp (js_claim t id (j_version j) lease) Q w.
Proof.
  intros Hc Hj HQ. unfold js_claim. apply wp_bind, wpc_systemIso; [exact Hc|].
  intros u sys w1 _ _ Hc1 Hl1 Hd1. apply wp_bind. rewrite <- Hd1 in Hj.
  eapply (wpc_cas CJobs id j); [exact Hc1 | exact Hj|].
  intros new w' Hc' Hl Hch. apply wp_ret. apply (HQ sys); [exact Hc' | later_tac | now rewrite <- Hd1].
Qed.

(** The store changed at one new audit record only. *)
Definition audited (type : string) (j : Job) (db db' : DB) : Prop :=
  exists id ev, changed CJobAudit id (Some ev) db db' /\ peek CJobAudit id db = None /\
    ja_type ev = type /\ ja_jobId ev = Some (j_id j) /\ ja_tenantId ev = j_tenantId j.

Lemma audited_frame type j db db' V (c : coll V) k x :
  audited type j db db' -> peek c k db = Some x -> peek c k db' = Some x.
Proof.
  intros (id & ev & Hch & Hn & _) Hx. eapply changed_keep; eassumption.
Qed.

(** ** Settling a run *)

(** The job [c] was claimed and nothing moved it since. *)
Definition holds (t id : string) (c : Job) (w : World DB) : Prop :=
  calm w /\ peek CJobs id (w_db w) = Some c /\ j_id c = id /\ j_tenantId c = t.

Lemma wp_audit type j sid p at_ ok details Q w :
  calm w ->
  (forall w', calm w' -> later w w' -> audited type j (w_db w) (w_db w') -> Q (Ok tt) w') ->
  wp (audit type (Some (j_id j)) sid (j_tenantId j) p at_ ok details) Q w.
Proof.
  intros Hc HQ. unfold audit. apply wp_bind, wpc_uuid; [exact Hc|].
  intros id w1 _ Ho Hc1 Hl1 Hd1. unfold ja_record. cbn [ja_id].
  apply wpc_insert; [exact Hc1 | exact Ho|]. intros w2 Hc2 Hl2 Hch.
  apply HQ; [exact Hc2 | later_tac|]. rewrite <- Hd1.
  exists id. eexists. split; [exact Hch|]. split; [apply Ho|]. auto.
Qed.

(** What settling leaves: the job written once, one audit record. *)
Definition settled (id type : string) (j' : Job) (db db' : DB) : Prop :=
  exists db1, changed CJobs id (Some j') db db1 /\ audited type j' db1 db'.

Lemma settled_job id type j' db db' : settled id type j' db db' -> peek CJobs id db' = Some j'.
Proof.
  intros (db1 & Hch & Ha). eapply audited_frame; [exact Ha|]. exact (changed_hit _ _ _ _ _ Hch).
Qed.

Lemma ofTenant_same t j : j_tenantId j = t -> ofTenant t (Some j) = Some j.
Proof. intros <-. cbn. now rewrite String.eqb_refl. Qed.

Lemma wp_completeJob t id c p r Q w :
  holds t id c w ->
  (forall at_ w', calm w' -> later w w' ->
     settled id "job.completed" (written (completePatch at_) c) (w_db w) (w_db w') -> Q (Ok tt) w') ->
  wp (completeJob c p r) Q w.
Proof.
  intros (Hc & Hj & Hid & Ht) HQ. unfold completeJob. apply wp_bind, wpc_nowIso; [exact Hc|].
  intros u at_ w1 _ _ Hc1 Hl1 Hd1. apply wp_bind. rewrite Hid. rewrite <- Hd1 in Hj.
  eapply wp_js_update; [exact Hc1 | exact Hj|]. intros w2 Hc2 Hl2 Hch.
  rewrite <- Hid. apply (wp_audit _ (written (completePatch at_) c)); [exact Hc2|].
  intros w3 Hc3 Hl3 Ha. apply (HQ at_); [exact Hc3 | later_tac|].
  exists (w_db w2). rewrite <- Hd1. auto.
Qed.

(** A completion reported from a stale copy writes no job, and still records
    [job.completed]. *)
Lemma wp_completeJob_stale c p r Q w :
  calm w -> (forall j, peek CJobs (j_id c) (w_db w) = Some j -> j_version j <> j_version c) ->
  (forall w', calm w' -> later w w' -> audited "job.completed" c (w_db w) (w_db w') -> Q (Ok tt) w') ->
  wp (completeJob c p r) Q w.
Proof.
  intros Hc Hj HQ. unfold completeJob. apply wp_bind, wpc_nowIso; [exact Hc|].
  intros u at_ w1 _ _ Hc1 Hl1 Hd1. apply wp_bind. rewrite <- Hd1 in Hj.
  apply wp_js_stale; [exact Hc1 | exact Hj|].
  apply (wp_audit _ c); [exact Hc1|]. intros w3 Hc3 Hl3 Ha.
  apply HQ; [exact Hc3 | later_tac | now rewrite <- Hd1].
Qed.

Lemma wp_deny t id c reason Q w :
  holds t id c w ->
  (forall w', calm w' -> later w w' ->
     settled id "job.denied" (written (denyPatch reason) c) (w_db w) (w_db w') -> Q (Ok tt) w') ->
  wp (deny c reason) Q w.
Proof.
  intros (Hc & Hj & Hid & Ht) HQ. unfold deny. apply wp_bind. rewrite Hid.
  eapply wp_js_update; [exact Hc | exact Hj|]. intros w1 Hc1 Hl1 Hch.
  apply wp_bind, wpc_uuid; [exact Hc1|]. intros aid w2 _ Ho Hc2 Hl2 Hd2.
  apply wp_bind, wpc_nowIso; [exact Hc2|]. intros u at_ w3 _ _ Hc3 Hl3 Hd3.
  unfold ja_record. cbn [ja_id].
  pose proof (owned_ctl _ _ _ Ho Hl3 Hd3) as Ho3.
  apply wpc_insert; [exact Hc3 | exact Ho3|].
  intros w4 Hc4 Hl4 Hch4. apply HQ; [exact Hc4 | later_tac|].
  exists (w_db w1). split; [exact Hch|]. rewrite <- Hd2, <- Hd3.
  exists aid. eexists. split; [exact Hch4|]. split; [apply Ho3|].
  cbn. repeat split; congruence.
Qed.

(** The record a failed attempt leaves: failed for good once the attempts are
    used up, else retrying after a doubling delay. *)
Inductive afterFailure (clock : nat -> Z) (c : Job) (message : string) : string -> Job -> Prop :=
| af_failed : j_maxAttempts c <= j_attemptCount c + 1 ->
    afterFailure clock c message "job.failed" (written (failPatch message (j_attemptCount c + 1)) c)
| af_retry n at_ : j_attemptCount c + 1 < j_maxAttempts c ->
    toISO (clock n + 1000 * 2 ^ j_attemptCount c) = Some at_ ->
    afterFailure clock c message "job.retrying" (written (retryPatch at_ message (j_attemptCount c + 1)) c).

Lemma retryDelay_bound n : 0 <= n <= 41 -> 0 <= retryDelayMs n <= timeBound.
Proof.
  intros Hn. unfold retryDelayMs, INITIAL_RETRY_DELAY_MS, timeBound.
  pose proof (Z.pow_le_mono_r 2 n 41 ltac:(lia) ltac:(lia)).
  pose proof (Z.pow_nonneg 2 n ltac:(lia)). change (2 ^ 41) with 2199023255552 in *. lia.
Qed.

Lemma wp_failure t id c p e Q w :
  holds t id c w -> 0 <= j_attemptCount c -> j_maxAttempts c <= 42 ->
  (forall type j' w', calm w' -> later w w' -> afterFailure (w_clock w) c (errorMessage e) type j' ->
     settled id type j' (w_db w) (w_db w') -> Q (Ok tt) w') ->
  wp (recordExecutionFailure c p e) Q w.
Proof.
  intros (Hc & Hj & Hid & Ht) Hpos Hmax HQ. unfold recordExecutionFailure.
  destruct (Z.leb_spec (j_maxAttempts c) (j_attemptCount c + 1)) as [Hle|Hgt].
  - apply wp_bind, wpc_nowIso; [exact Hc|]. intros u at_ w1 _ _ Hc1 Hl1 Hd1.
    apply wp_bind. rewrite Hid. rewrite <- Hd1 in Hj.
    eapply wp_js_update; [exact Hc1 | exact Hj|]. intros w2 Hc2 Hl2 Hch. rewrite <- Hid.
    apply (wp_audit _ (written (failPatch (errorMessage e) (j_attemptCount c + 1)) c)); [exact Hc2|].
    intros w3 Hc3 Hl3 Ha. eapply HQ; [exact Hc3 | later_tac | now apply af_failed|].
    exists (w_db w2). rewrite <- Hd1. auto.
  - apply wp_bind, wpc_nowMs; [exact Hc|]. intros u w1 Hu (n & Hn) Hc1 Hl1 Hd1.
    pose proof (retryDelay_bound (j_attemptCount c) ltac:(lia)) as Hr.
    apply wp_bind, wpc_isoString; [unfold timeBound, maxTime in *; lia|]. intros at_ Hat.
    apply wp_bind. rewrite Hid. rewrite <- Hd1 in Hj.
    eapply wp_js_update; [exact Hc1 | exact Hj|]. intros w2 Hc2 Hl2 Hch.
    apply wp_bind, wpc_uuid; [exact Hc2|]. intros aid w3 _ Ho Hc3 Hl3 Hd3.
    apply wp_bind, wpc_nowIso; [exact Hc3|]. intros u' at' w4 _ _ Hc4 Hl4 Hd4.
    pose proof (owned_ctl _ _ _ Ho Hl4 Hd4) as Ho4.
    unfold ja_record. cbn [ja_id]. apply wpc_insert; [exact Hc4 | exact Ho4|]. intros w5 Hc5 Hl5 Hch5.
    eapply HQ; [exact Hc5 | later_tac | eapply af_retry; [exact Hgt | rewrite <- Hn; exact Hat]|].
    exists (w_db w2). rewrite <- Hd1. split; [exact Hch|]. rewrite <- Hd3, <- Hd4.
    exists aid. eexists. split; [exact Hch5|]. split; [apply Ho4|].
    cbn. repeat split; congruence.
Qed.

(** ** Running a claimed job *)

(** The work behind a claimed job: it returns [r] and leaves the job's
    record alone. *)
Definition does {A} (t id : string) (c : Job) (m : M DB A) (r : outcome A) : Prop :=
  forall w1, holds t id c w1 -> wp m (fun o w2 => o = r /\ holds t id c w2 /\ after w1 w2) w1.

(** The record a run leaves, by the work's result. *)
Definition runLeaves (clock : nat -> Z) (c : Job) {A} (r : outcome A) (j' : Job) : Prop :=
  match r with
  | Ok _ => exists at_, j' = written (completePatch at_) c
  | Throw e => exists type, afterFailure clock c (errorMessage e) type j'
  end.

Definition succeeded {A} (r : outcome A) : bool := match r with Ok _ => true | Throw _ => false end.

Lemma executeLegacy_spec t id c (h : JobHandler DB) r w :
  holds t id c w -> 0 <= j_attemptCount c -> j_maxAttempts c <= 42 ->
  does t id c (h c None) r ->
  wp (executeLegacyHandler c h)
     (fun o w' => o = Ok (succeeded r) /\ calm w' /\ after w w' /\
        exists j', peek CJobs id (w_db w') = Some j' /\ runLeaves (w_clock w) c r j') w.
Proof.
  intros Hh Hpos Hmax Hdoes. unfold executeLegacyHandler. apply wp_tryCatch, wp_bind.
  eapply wp_mono; [apply (Hdoes w Hh)|]. intros o w1 (-> & Hh1 & Hl1).
  destruct r as [[]|e].
  - apply wp_bind. eapply wp_completeJob; [exact Hh1|]. intros at_ w2 Hc2 Hl2 Hs. apply wp_ret.
    split; [reflexivity|]. split; [exact Hc2|]. split; [after_tac|].
    eexists. split; [exact (settled_job _ _ _ _ _ Hs) | cbn; eauto].
  - apply wp_bind. eapply wp_failure; [exact Hh1 | exact Hpos | exact Hmax|].
    intros type j' w2 Hc2 Hl2 Haf Hs. apply wp_ret.
    split; [reflexivity|]. split; [exact Hc2|]. split; [after_tac|].
    eexists. split; [exact (settled_job _ _ _ _ _ Hs)|]. exists type.
    destruct Hl1 as (Hclk & _). rewrite <- Hclk. exact Haf.
Qed.

(** A job may be taken: it is there, it belongs to the tenant, and it is not
    held by a live lease. *)
Definition runnable (t id : string) (j : Job) (w : World DB) : Prop :=
  holds t id j w /\ j_status j <> JRunning.

Lemma isAbandoned_not_running now j : j_status j <> JRunning -> isAbandoned now j = false.
Proof.
  intros Hn. unfold isAbandoned, isStale. rewrite bool_decide_eq_false_2 by exact Hn. reflexivity.
Qed.

Lemma wp_execute_runnable t id j worker Q w :
  runnable t id j w -> (forall w', holds t id j w' -> later w w' -> w_db w' = w_db w -> wp (claimAndRun s t id j) Q w') ->
  wp (executeJob s t id worker) Q w.
Proof.
  intros ((Hc & Hj & Hid & Ht) & Hs) HQ. unfold executeJob. apply wp_bind, wp_js_get; [exact Hc|].
  rewrite Hj, (ofTenant_same t j Ht). apply wp_bind, wpc_nowIso; [exact Hc|].
  intros u now w1 _ _ Hc1 Hl1 Hd1. rewrite (isAbandoned_not_running now j Hs).
  rewrite bool_decide_eq_false_2 by exact Hs. cbn [andb negb].
  apply HQ; [|exact Hl1 | exact Hd1]. split; [exact Hc1|]. rewrite Hd1. auto.
Qed.

(** The lease can be printed as a date. *)
Definition leaseOk : Prop := 0 <= jv_leaseDurationMs s <= timeBound.

Lemma wp_claim_run t id j Q w :
  holds t id j w -> leaseOk ->
  (forall n lease sys w', toISO (w_clock w n + jv_leaseDurationMs s) = Some lease ->
     let c := written (claimPatch lease sys) j in
     holds t id c w' -> later w w' -> changed CJobs id (Some c) (w_db w) (w_db w') ->
     wp (match jv_handlers s !! j_type c with
         | None => _ ← js_updateJob t id (j_version c) (denyPatch ("Handler not registered for type: " ++ j_type c));
                   mret false
         | Some handler =>
             match jv_authority s with
             | Some g => if startsWith (j_type c) SYSTEM_JOB_TYPE_PREFIX then executeLegacyHandler c handler
                         else executeAuthorized g t id c handler
             | None => executeLegacyHandler c handler
             end
         end) Q w') ->
  wp (claimAndRun s t id j) Q w.
Proof.
  intros (Hc & Hj & Hid & Ht) Hlease HQ. unfold claimAndRun.
  apply wp_bind, wpc_nowMs; [exact Hc|]. intros u w1 Hu (n & Hn) Hc1 Hl1 Hd1.
  apply wp_bind, wpc_isoString; [unfold leaseOk, timeBound, maxTime in *; lia|]. intros lease Hlz.
  apply wp_bind. rewrite <- Hd1 in Hj. eapply wp_js_claim; [exact Hc1 | exact Hj|].
  intros sys w2 Hc2 Hl2 Hch. set (c := written (claimPatch lease sys) j) in *.
  assert (ofTenant t (Some c) = Some c) as -> by (apply ofTenant_same; exact Ht).
  eapply (HQ n lease sys); [now rewrite <- Hn | | later_tac | now rewrite <- Hd1].
  split; [exact Hc2|]. split; [exact (changed_hit _ _ _ _ _ Hch)|]. split; [exact Hid | exact Ht].
Qed.

(** ** One run of a trusted job *)

(** Jobs that run without AuthBoundry: every job of a service without an
    authority, and AppPort's own. *)
Definition trusted (j : Job) : Prop :=
  jv_authority s = None \/ startsWith (j_type j) SYSTEM_JOB_TYPE_PREFIX = true.

Lemma execute_trusted t id j worker (h : JobHandler DB) r w :
  runnable t id j w -> leaseOk -> trusted j -> jv_handlers s !! j_type j = Some h ->
  0 <= j_attemptCount j -> j_maxAttempts j <= 42 ->
  (forall lease sys, let c := written (claimPatch lease sys) j in does t id c (h c None) r) ->
  wp (executeJob s t id worker)
     (fun o w' => o = Ok (succeeded r) /\ calm w' /\ after w w' /\
        exists lease sys j', peek CJobs id (w_db w') = Some j' /\
          runLeaves (w_clock w) (written (claimPatch lease sys) j) r j') w.
Proof.
  intros Hr Hlease Htr Hh Hpos Hmax Hdoes.
  eapply wp_execute_runnable; [exact Hr|]. intros w1 Hh1 Hl1 _.
  eapply wp_claim_run; [exact Hh1 | exact Hlease|]. intros n lease sys w2 _ c Hh2 Hl2 _.
  change (j_type c) with (j_type j). rewrite Hh.
  assert (wp (executeLegacyHandler c h) (fun o w' => o = Ok (succeeded r) /\ calm w' /\ after w w' /\
    exists lease sys j', peek CJobs id (w_db w') = Some j' /\
      runLeaves (w_clock w) (written (claimPatch lease sys) j) r j') w2) as Hgo.
  { eapply wp_mono; [eapply executeLegacy_spec; [exact Hh2 | exact Hpos | exact Hmax | apply Hdoes]|].
    intros o w3 (Ho & Hc3 & Hl3 & j' & Hj' & Hleft). split; [exact Ho|]. split; [exact Hc3|].
    split; [after_tac|]. exists lease, sys, j'. split; [exact Hj'|].
    assert (later w w2) as (Hclk & _) by later_tac. rewrite <- Hclk. exact Hleft. }
  destruct Htr as [-> | Hsys]; [exact Hgo|]. rewrite Hsys. destruct (jv_authority s); exact Hgo.
Qed.

(** ** A job that always fails *)

(** [j] is [j0] after some attempts. *)
Definition sameJob (j0 j : Job) : Prop :=
  j_id j = j_id j0 /\ j_tenantId j = j_tenantId j0 /\ j_type j = j_type j0 /\
  j_maxAttempts j = j_maxAttempts j0 /\ j_principal j = j_principal j0 /\
  j_applicationId j = j_applicationId j0.

Fixpoint runs (n : nat) (t id worker : string) : M DB (list bool) :=
  match n with
  | O => mret []
  | S n => b ← executeJob s t id worker; bs ← runs n t id worker; mret (b :: bs)
  end.

Lemma fails_n t id worker (h : JobHandler DB) e (j0 : Job) :
  leaseOk -> trusted j0 -> jv_handlers s !! j_type j0 = Some h -> j_maxAttempts j0 <= 42 ->
  (forall c, sameJob j0 c -> does t id c (h c None) (Throw e)) ->
  forall n j w, runnable t id j w -> sameJob j0 j -> 0 <= j_attemptCount j ->
    j_attemptCount j + Z.of_nat (S n) <= j_maxAttempts j0 ->
    wp (runs (S n) t id worker)
       (fun o w' => o = Ok (repeat false (S n)) /\
          exists j', holds t id j' w' /\ sameJob j0 j' /\
            j_attemptCount j' = j_attemptCount j + Z.of_nat (S n) /\
            j_status j' = (if j_maxAttempts j0 <=? j_attemptCount j' then JFailed else JRetrying) /\
            j_lastError j' = Some (errorMessage e)) w.
Proof.
  intros Hlease Htr Hh Hmax Hdoes. induction n as [|n IH]; intros j w Hr Hsame Hpos Hle.
  all: pose proof Hsame as (S1 & S2 & S3 & S4 & S5 & S6).
  all: assert (forall lease sys, let c := written (claimPatch lease sys) j in does t id c (h c None) (Throw e))
    as Hd by (intros lease sys c; apply Hdoes; unfold sameJob; cbn; auto 10).
  all: cbn [runs]; apply wp_bind.
  all: eapply wp_mono; [eapply (execute_trusted t id j worker h (Throw e)); try eassumption;
    [unfold trusted in *; rewrite S3; exact Htr | rewrite S3; exact Hh | rewrite S4; exact Hmax]|].
  all: intros o w1 (-> & Hc1 & Hl1 & lease & sys & j1 & Hj1 & type & Haf).
  all: inversion Haf as [Hlim|k at_ Hlim Hat]; subst; cbn [j_maxAttempts j_attemptCount written claimPatch] in Hlim;
    cbn in Hlim.
  all: destruct Hr as ((_ & _ & Hid & Ht) & _).
  - apply wp_bind, wp_ret, wp_ret. split; [reflexivity|].
    eexists. split; [split; [exact Hc1|]; split; [exact Hj1|]; split; [exact Hid | exact Ht]|].
    unfold sameJob; cbn. repeat split; try congruence; try lia.
    destruct (Z.leb_spec (j_maxAttempts j0) (j_attemptCount j + 1)); [reflexivity | lia].
  - apply wp_bind, wp_ret, wp_ret. split; [reflexivity|].
    eexists. split; [split; [exact Hc1|]; split; [exact Hj1|]; split; [exact Hid | exact Ht]|].
    unfold sameJob; cbn. repeat split; try congruence; try lia.
    destruct (Z.leb_spec (j_maxAttempts j0) (j_attemptCount j + 1)); [lia | reflexivity].
  - exfalso. lia.
  - apply wp_bind. eapply wp_mono; [eapply IH|].
    + split; [split; [exact Hc1|]; split; [exact Hj1|]; split; [exact Hid | exact Ht] | discriminate].
    + unfold sameJob; cbn; auto 10.
    + cbn. lia.
    + cbn. lia.
    + intros o w2 (-> & j2 & Hh2 & Hs2 & Ha2 & Hst & Her). apply wp_ret.
      split; [reflexivity|]. exists j2. split; [exact Hh2|]. split; [exact Hs2|].
      cbn in Ha2. split; [lia|]. auto.
Qed.

(** What a worker does about one job: it executes the job when it is due, or
    was abandoned, at its reading of the clock; how often it executed it. *)
Definition pass (t id worker : string) : M DB nat :=
  now ← nowIso;
  job ← js_get t id;
  match job with
  | Some j => if isDue now j || isStale now j then _ ← executeJob s t id worker; mret 1%nat else mret 0%nat
  | None => mret 0%nat
  end.

Fixpoint passes (k : nat) (t id worker : string) : M DB nat :=
  match k with
  | O => mret 0%nat
  | S k => m ← pass t id worker; n ← passes k t id worker; mret (m + n)%nat
  end.

(** A failed job is due no more. *)
Lemma failed_not_due now j : j_status j = JFailed -> isDue now j || isStale now j = false.
Proof. intros E. unfold isDue, isStale. rewrite E. reflexivity. Qed.

(** However often a worker comes by a job that keeps failing: every execution
    counts, and the last one that may be is the last one that is. *)
Lemma passes_bounded t id worker (h : JobHandler DB) e (j0 : Job) :
  leaseOk -> trusted j0 -> jv_handlers s !! j_type j0 = Some h -> j_maxAttempts j0 <= 42 ->
  (forall c, sameJob j0 c -> does t id c (h c None) (Throw e)) ->
  forall k j w, runnable t id j w -> sameJob j0 j -> 0 <= j_attemptCount j <= j_maxAttempts j0 ->
    (j_attemptCount j = j_maxAttempts j0 -> j_status j = JFailed) ->
    wp (passes k t id worker)
       (fun o w' => exists n j', o = Ok n /\ holds t id j' w' /\ sameJob j0 j' /\
          j_attemptCount j' = j_attemptCount j + Z.of_nat n /\ j_attemptCount j' <= j_maxAttempts j0 /\
          (j_attemptCount j' = j_maxAttempts j0 -> j_status j' = JFailed)) w.
Proof.
  intros Hlease Htr Hh Hmax Hdoes. induction k as [|k IH]; intros j w Hr Hsame Hpos Hfull; cbn [passes].
  { apply wp_ret. exists 0%nat, j. split; [reflexivity|]. split; [exact (proj1 Hr)|]. split; [exact Hsame|]. split; [lia|]. split; [lia | exact Hfull]. }
  assert (forall m j1 w1, runnable t id j1 w1 -> sameJob j0 j1 -> j_attemptCount j1 = j_attemptCount j + Z.of_nat m /\ j_attemptCount j1 <= j_maxAttempts j0 ->
    (j_attemptCount j1 = j_maxAttempts j0 -> j_status j1 = JFailed) ->
    wp (n ← passes k t id worker; mret (m + n)%nat)
       (fun o w' => exists n j', o = Ok n /\ holds t id j' w' /\ sameJob j0 j' /\
          j_attemptCount j' = j_attemptCount j + Z.of_nat n /\ j_attemptCount j' <= j_maxAttempts j0 /\
          (j_attemptCount j' = j_maxAttempts j0 -> j_status j' = JFailed)) w1) as Hrest.
  { intros m j1 w1 Hr1 Hs1 Ha1 Hf1. apply wp_bind. eapply wp_mono; [apply (IH j1 w1 Hr1 Hs1); [lia | exact Hf1]|].
    intros o w2 (n & j' & -> & Hh' & Hs' & Ha' & Hle' & Hf'). apply wp_ret. exists (m + n)%nat, j'. split; [reflexivity|]. split; [exact Hh'|].
    split; [exact Hs'|]. split; [lia|]. split; [lia | exact Hf']. }
  apply wp_bind. unfold pass. destruct Hr as [(Hc & Hj & Hid & Ht) Hst]. apply wp_bind, wpc_nowIso; [exact Hc|].
  intros tick now w1 _ _ Hc1 Hl1 Hd1. apply wp_bind, wp_js_get; [exact Hc1|].
  rewrite Hd1, Hj. cbn [ofTenant]. rewrite Ht, String.eqb_refl.
  assert (Hr1 : runnable t id j w1) by (split; [split; [exact Hc1|]; split; [rewrite Hd1; exact Hj | auto] | exact Hst]).
  destruct (isDue now j || isStale now j) eqn:Edue; [|apply wp_ret; apply (Hrest 0%nat j w1); auto; lia].
  assert (Hless : j_attemptCount j < j_maxAttempts j0).
  { destruct (Z.eq_dec (j_attemptCount j) (j_maxAttempts j0)) as [E|E]; [|lia].
    rewrite (failed_not_due now j (Hfull E)) in Edue. discriminate. }
  apply wp_bind. assert (Hone : wp (runs 1 t id worker) (fun o w' => o = Ok (repeat false 1) /\
      exists j', holds t id j' w' /\ sameJob j0 j' /\ j_attemptCount j' = j_attemptCount j + Z.of_nat 1 /\
        j_status j' = (if j_maxAttempts j0 <=? j_attemptCount j' then JFailed else JRetrying) /\ j_lastError j' = Some (errorMessage e)) w1)
    by (apply (fails_n t id worker h e j0 Hlease Htr Hh Hmax Hdoes 0 j w1 Hr1 Hsame); lia).
  unfold runs, wp, mbind, M_bind in Hone |- *. destruct (executeJob s t id worker w1) as [w2 [b|err]]; cbn in Hone |- *.
  - destruct Hone as (_ & j' & Hh' & Hs' & Ha' & Hst' & _). apply (Hrest 1%nat j' w2).
    + split; [exact Hh'|]. rewrite Hst'. destruct (_ <=? _); discriminate.
    + exact Hs'.
    + lia.
    + intros E. rewrite Hst', E. now rewrite Z.leb_refl.
  - destruct Hone as [Hbad _]. discriminate Hbad.
Qed.

(** ** A job under authority *)

Definition creators : list string := ["jobs.create"; "schedules.create"].

(** The record of a refused job: failed at once, its attempts untouched. *)
Definition refused (c : Job) (j' : Job) : Prop :=
  exists reason, j' = written (denyPatch ("DENIED: " ++ reason)) c.

Lemma attested_changed g durable caps {V} (c : coll V) k o (db db' : DB) :
  changed c k o db db' -> cname c <> cname CEvidence ->
  attestedBy g durable caps db' -> attestedBy g durable caps db.
Proof.
  intros Hch Hne (d & by_ & kk & row & H1 & H2 & H3 & H4 & Hrest).
  exists d, by_, kk, row. repeat split; try assumption; try apply Hrest.
  rewrite <- H4. symmetry. eapply changed_frame; [exact Hch|]. intros E. apply (f_equal fst) in E. cbn [fst] in E. congruence.
Qed.

Lemma attested_keep g durable caps {V} (c : coll V) k o (db db' : DB) :
  changed c k o db db' -> cname c <> cname CEvidence ->
  attestedBy g durable caps db -> attestedBy g durable caps db'.
Proof.
  intros Hch Hne (d & by_ & kk & row & H1 & H2 & H3 & H4 & Hrest).
  exists d, by_, kk, row. repeat split; try assumption; try apply Hrest.
  rewrite <- H4. eapply changed_frame; [exact Hch|]. intros E. apply (f_equal fst) in E. cbn [fst] in E. congruence.
Qed.

(** Without a principal of this tenant that AuthBoundry allowed to create
    the job, a claimed job is refused; the handler and the gateway's
    [execute] play no part. *)
Lemma executeAuthorized_refused g t id c h w :
  holds t id c w ->
  (forall d, j_principal c = Some d -> dp_tenantId d = t -> ~ attestedBy g (Some d) creators (w_db w)) ->
  wp (executeAuthorized g t id c h)
     (fun o w' => o = Ok false /\ calm w' /\ later w w' /\
        exists j', settled id "job.denied" j' (w_db w) (w_db w') /\ refused c j') w.
Proof.
  intros Hh Hno. unfold executeAuthorized.
  assert (forall reason, wp (_ ← deny c ("DENIED: " ++ reason); mret false)
     (fun o w' => o = Ok false /\ calm w' /\ later w w' /\
        exists j', settled id "job.denied" j' (w_db w) (w_db w') /\ refused c j') w) as Hdeny.
  { intros reason. apply wp_bind. eapply wp_deny; [exact Hh|]. intros w1 Hc1 Hl1 Hs.
    apply wp_ret. split; [reflexivity|]. split; [exact Hc1|]. split; [exact Hl1|].
    eexists. split; [exact Hs|]. eexists. reflexivity. }
  destruct (j_principal c) as [d|]; [|apply Hdeny].
  destruct (String.eqb_spec (dp_tenantId d) t) as [Ht|Ht]; cbn [negb]; [|apply Hdeny].
  apply wp_bind, wp_tryCatch, wp_bind.
  eapply wp_mono; [apply attest_spec, calm_quiet, Hh|].
  intros o w1 (-> & Hiff & _). destruct o as [[]|e].
  - exfalso. apply (Hno d eq_refl Ht), Hiff. reflexivity.
  - specialize (Hdeny (errorMessage e)).
    unfold wp in *. unfold mbind, M_bind in *.
    destruct (deny c ("DENIED: " ++ errorMessage e) w) as [w2 [[]|e2]]; cbn in *; [exact Hdeny|].
    destruct Hdeny as [E _]. discriminate E.
Qed.

(** What a run under authority leaves, by the result of the gateway's
    [execute]. *)
Definition authorizedLeaves (clock : nat -> Z) (c : Job) (r : outcome unit) (j' : Job) : Prop :=
  match r with
  | Ok _ => exists at_, j' = written (completePatch at_) c
  | Throw e =>
      if hasCode DENIED e || hasCode UNAUTHENTICATED e then j' = written (denyPatch ("DENIED: " ++ errorMessage e)) c
      else if hasCode AUTHORITY_UNAVAILABLE e || hasCode AUTHORIZATION_TIMEOUT e then
        exists n at_, toISO (clock n + INITIAL_RETRY_DELAY_MS) = Some at_ /\
          j' = written (postponePatch at_ (failureCodeOf e ++ ": " ++ errorMessage e)) c
      else exists type, afterFailure clock c (errorMessage e) type j'
  end.

Definition runPrincipal (c : Job) (d : DurablePrincipal) : outcome VerifiedPrincipal :=
  mintVerifiedPrincipal (durableClaims d (runIdOf c)) ByJob.

(** The call of the gateway for a claimed job. *)
Definition gatewayRun (g : ServiceGateway DB) (t : string) (c : Job) (p : VerifiedPrincipal) (h : JobHandler DB) : M DB unit :=
  execute g "jobs.execute" (CVerified p)
    (mkResource "job" t (Some (j_id c)) (Some {[ "jobType" := j_type c ]}))
    (mkOptions "jobs" None None (Some (runIdOf c)))
    (fun context _ => h c (Some (mkExecution p context (runIdOf c)))).

Lemma executeAuthorized_spec g t id c (h : JobHandler DB) d p (R : outcome unit -> Prop) w :
  holds t id c w -> 0 <= j_attemptCount c -> j_maxAttempts c <= 42 ->
  j_principal c = Some d -> dp_tenantId d = t -> attestedBy g (Some d) creators (w_db w) ->
  runPrincipal c d = Ok p ->
  wp (gatewayRun g t c p h) (fun r w2 => holds t id c w2 /\ after w w2 /\ R r) w ->
  wp (executeAuthorized g t id c h)
     (fun o w' => calm w' /\ after w w' /\ exists r j', R r /\ o = Ok (succeeded r) /\
        peek CJobs id (w_db w') = Some j' /\ authorizedLeaves (w_clock w) c r j') w.
Proof.
  intros Hh Hpos Hmax Hd Ht Hatt Hp Hrun. unfold executeAuthorized. rewrite Hd.
  destruct (String.eqb_spec (dp_tenantId d) t) as [_|]; [|contradiction]. cbn [negb].
  apply wp_bind, wp_tryCatch, wp_bind. eapply wp_mono; [apply attest_spec, calm_quiet, Hh|].
  intros o w1 (-> & Hiff & _). apply Hiff in Hatt as ->. apply wp_ret. cbn [negb].
  apply wp_bind, wp_outcome. unfold runPrincipal in Hp. rewrite Hp. apply wp_tryCatch, wp_bind.
  eapply wp_mono; [apply Hrun|]. intros r w1 (Hh1 & Hl1 & HR).
  pose proof Hl1 as (Hclk & _). rewrite <- Hclk. destruct r as [[]|e].
  - apply wp_bind. eapply wp_completeJob; [exact Hh1|]. intros at_ w2 Hc2 Hl2 Hs. apply wp_ret.
    split; [exact Hc2|]. split; [after_tac|]. exists (Ok tt).
    eexists. split; [exact HR|]. split; [reflexivity|]. split; [exact (settled_job _ _ _ _ _ Hs) | cbn; eauto].
  - enough (forall k : M DB bool, wp k (fun o w' => o = Ok false /\ calm w' /\ after w1 w' /\ exists j',
        peek CJobs id (w_db w') = Some j' /\ authorizedLeaves (w_clock w1) c (Throw e) j') w1 ->
      wp k (fun o w' => calm w' /\ after w w' /\ exists r j', R r /\ o = Ok (succeeded r) /\
        peek CJobs id (w_db w') = Some j' /\ authorizedLeaves (w_clock w1) c r j') w1) as Hfin.
    2: { intros k Hk. eapply wp_mono; [exact Hk|]. intros o w' (-> & Hc' & Hl' & j' & Hj' & Hleft).
         split; [exact Hc'|]. split; [after_tac|]. exists (Throw e), j'. auto. }
    apply Hfin. clear Hfin. unfold authorizedLeaves. destruct (hasCode DENIED e || hasCode UNAUTHENTICATED e).
    { apply wp_bind. eapply wp_deny; [exact Hh1|]. intros w2 Hc2 Hl2 Hs. apply wp_ret.
      split; [reflexivity|]. split; [exact Hc2|]. split; [after_tac|].
      eexists. split; [exact (settled_job _ _ _ _ _ Hs) | reflexivity]. }
    destruct (hasCode AUTHORITY_UNAVAILABLE e || hasCode AUTHORIZATION_TIMEOUT e).
    { pose proof Hh1 as (Hc1 & Hj1 & Hid1 & Ht1).
      apply wp_bind, wpc_nowMs; [exact Hc1|]. intros u w2 Hu (n & Hn) Hc2 Hl2 Hd2.
      apply wp_bind, wpc_isoString; [unfold INITIAL_RETRY_DELAY_MS, timeBound, maxTime in *; lia|].
      intros at_ Hat. apply wp_bind. rewrite <- Hd2 in Hj1.
      eapply wp_js_update; [exact Hc2 | exact Hj1|]. intros w3 Hc3 Hl3 Hch. apply wp_ret.
      split; [reflexivity|]. split; [exact Hc3|]. split; [after_tac|].
      eexists. split; [exact (changed_hit _ _ _ _ _ Hch)|]. exists n, at_. rewrite <- Hn. auto. }
    apply wp_bind. eapply wp_failure; [exact Hh1 | exact Hpos | exact Hmax|].
    intros type j' w2 Hc2 Hl2 Haf Hs. apply wp_ret.
    split; [reflexivity|]. split; [exact Hc2|]. split; [after_tac|].
    eexists. split; [exact (settled_job _ _ _ _ _ Hs)|]. exists type. exact Haf.
Qed.

(** A handler that may do anything but touch its job's record and the
    evidence of its own run. *)
Definition minds (t id : string) (c : Job) (p : VerifiedPrincipal) (h : JobHandler DB) : Prop :=
  forall x eid row w1, holds t id c w1 -> peek CEvidence eid (w_db w1) = Some row -> resolvedRefs eid w1 = [] ->
    wp (h c (Some (mkExecution p x (runIdOf c)))) (fun _ w2 => holds t id c w2 /\ after w1 w2 /\
      peek CEvidence eid (w_db w2) = Some row /\ resolvedRefs eid w2 = []) w1.

(** The gateway refused the run, or the handler ran under the context it
    issued for this principal, capability and job, and [r] is its result. *)
Definition gated (g : ServiceGateway DB) (t : string) (c : Job) (p : VerifiedPrincipal) (h : JobHandler DB)
  (r : outcome unit) : Prop :=
  (exists e, r = Throw e) \/
  exists requestId cap x w1 w2,
    issuedFor g "jobs.execute" (CVerified p)
      (mkResource "job" t (Some (j_id c)) (Some {[ "jobType" := j_type c ]})) requestId cap p x /\
    h c (Some (mkExecution p x (runIdOf c))) w1 = (w2, r).

Lemma gatewayRun_spec g t id c p h w :
  hostQuiet g -> holds t id c w -> minds t id c p h ->
  wp (gatewayRun g t c p h) (fun r w2 => holds t id c w2 /\ after w w2 /\ gated g t c p h r) w.
Proof.
  intros Hhost (Hc & Hj & Hid & Ht) Hmind.
  eapply wp_mono; [apply (execute_spec g "jobs.execute" _ _ (mkOptions "jobs" None None (Some (runIdOf c))) _
    (fun x eid st o w2 => holds t id c w2 /\ exists w1,
       h c (Some (mkExecution p x (runIdOf c))) w1 = (w2, o))); [exact Hc | exact Hhost|]|].
  - intros rid cap p' x eid st w1 Hi Hc1 Hl1 Hnil Hn Hch.
    assert (holds t id c w1) as Hh1.
    { split; [exact Hc1|]. split; [|auto]. rewrite (changed_frame _ _ _ CJobs _ _ _ Hch) by discriminate. exact Hj. }
    pose proof (Hmind x eid _ w1 Hh1 (changed_hit _ _ _ _ _ Hch) Hnil) as Hw.
    unfold wp in *. destruct (h c (Some (mkExecution p x (runIdOf c))) w1) as [w2 o] eqn:E. cbn [fst snd] in *.
    destruct Hw as (Hh2 & Hl2 & Hrow & Href). split; [apply Hh2|]. split; [exact Hl2|]. split; [exact Hrow|].
    rewrite Href. split; [intros _; exact I|]. split; [exact Hh2|]. exists w1. exact E.
  - intros o w' (Hc' & Hl' & [(e & -> & Href)|(rid & cap & p' & x & eid & st & w2 & row & Hi & (Hh2 & w1 & Hrun) & Hfin & _ & Hch)]).
    + split; [|split; [exact Hl' | left; eauto]]. split; [exact Hc'|]. split; [|auto].
      destruct Href as [->|(k & row & Hch & _)]; [exact Hj|].
      rewrite (changed_frame _ _ _ CJobs _ _ _ Hch) by discriminate. exact Hj.
    + split; [|split; [exact Hl'|]].
      * split; [exact Hc'|]. split; [|auto]. rewrite (changed_frame _ _ _ CJobs _ _ _ Hch) by discriminate. apply Hh2.
      * pose proof (is_admitted _ _ _ _ _ _ _ _ Hi) as (_ & _ & [= <-] & _).
        right. exists rid, cap, x, w1, w2. auto.
Qed.

(** ** Creating jobs *)

(** One new job and its audit record. *)
Definition created (job : Job) (db db' : DB) : Prop :=
  (forall V (c : coll V), peek c (j_id job) db = None) /\
  exists db1, changed CJobs (j_id job) (Some job) db db1 /\ audited "job.created" job db1 db'.

(** The record [createJobRecord] builds. *)
Definition isRecord (input : CreateJobInput) (app : option string) (p : option VerifiedPrincipal)
  (auth : option string) (job : Job) : Prop :=
  j_tenantId job = orElse (ci_tenantId input) "" /\ j_type job = ci_type input /\
  j_applicationId job = ifPresent app /\ j_attemptCount job = 0 /\
  j_maxAttempts job = orElse (ci_maxAttempts input) (jv_maxRetryAttempts s) /\
  j_runAt job = orElse (ci_runAt input) (j_createdAt job) /\
  j_status job = (if strLe (j_runAt job) (j_createdAt job) then JPending else JScheduled) /\
  j_principal job = durableFor p (ci_delegationId input) auth /\ j_version job = 1.

Lemma createJobRecord_spec input pid app p auth w :
  calm w ->
  wp (createJobRecord s input pid app p auth)
     (fun o w' => exists job, o = Ok job /\ calm w' /\ later w w' /\
        created job (w_db w) (w_db w') /\ isRecord input app p auth job) w.
Proof.
  intros Hc. unfold createJobRecord. apply wp_bind, wpc_uuid; [exact Hc|].
  intros id w1 _ Ho Hc1 Hl1 Hd1. apply wp_bind, wpc_nowIso; [exact Hc1|].
  intros u now w2 _ _ Hc2 Hl2 Hd2. pose proof (owned_ctl _ _ _ Ho Hl2 Hd2) as Ho2.
  set (job := mkJob id _ _ _ _ _ _ _ _ _ _ _ _ _ _ _ _ _).
  apply wp_bind. unfold js_create. change (j_id job) with id.
  apply wpc_create; [exact Hc2 | exact Ho2|]. intros w3 Hc3 Hl3 Hch.
  apply wp_bind. change (Some id) with (Some (j_id job)).
  apply wp_audit; [exact Hc3|]. intros w4 Hc4 Hl4 Ha. apply wp_ret. exists job.
  split; [reflexivity|]. split; [exact Hc4|]. split; [later_tac|]. rewrite Hd2, Hd1 in *.
  split; [|unfold isRecord; cbn; auto 10]. split; [rewrite <- Hd1; apply Ho|].
  exists (w_db w3). auto.
Qed.

Lemma created_job job db db' : created job db db' -> peek CJobs (j_id job) db' = Some job.
Proof.
  intros (_ & db1 & Hch & Ha). eapply audited_frame; [exact Ha | exact (changed_hit _ _ _ _ _ Hch)].
Qed.

Lemma created_keep job db db' V (c : coll V) k x :
  created job db db' -> peek c k db = Some x -> peek c k db' = Some x.
Proof.
  intros (Hn & db1 & Hch & Ha) Hx. eapply audited_frame; [exact Ha|].
  eapply changed_keep; [exact Hch | apply Hn | exact Hx].
Qed.

(** ** Enqueued jobs can be attested *)

Definition noJobsLost (db db' : DB) : Prop :=
  forall k j, peek CJobs k db = Some j -> peek CJobs k db' = Some j.

Lemma attribute_delegation ty tenant type o :
  attribute (mkResource ty tenant None (Some (typeAttributes type o))) "delegationId" = ifPresent o.
Proof.
  unfold attribute, typeAttributes. cbn [r_attributes].
  destruct (ifPresent o); now simplify_map_eq.
Qed.

Lemma enqueue_attested g input caller w :
  jv_authority s = Some g -> hostQuiet g -> calm w ->
  wp (enqueue s input caller)
     (fun o w' => noJobsLost (w_db w) (w_db w') /\
        match o with
        | Ok job => peek CJobs (j_id job) (w_db w) = None /\ peek CJobs (j_id job) (w_db w') = Some job /\
            j_applicationId job = ifPresent (Some (g_application g)) /\
            exists p, caller = CVerified p /\ j_tenantId job = vp_tenantId p /\
              (ci_delegationId input <> Some "" \/ present (vp_delegationId p) = false ->
               attestedBy g (j_principal job) creators (w_db w'))
        | Throw _ => True
        end) w.
Proof.
  intros Hg Hhost Hc. unfold enqueue. rewrite Hg.
  assert (forall e : exn, noJobsLost (w_db w) (w_db w) /\ match @Throw Job e with Ok _ => False | _ => True end) as Hno
    by (split; [intros k j Hj; exact Hj | exact I]).
  apply wp_guard; [intros _ _ | intros e; apply (Hno e)].
  apply wp_guard; [intros _ _ | intros e; apply (Hno e)].
  apply wp_guard; [intros p Hp | intros e; apply (Hno e)].
  apply wp_guard; [intros _ _ | intros e; apply (Hno e)].
  apply wp_guard; [intros tenant Htenant | intros e; apply (Hno e)]. clear Hno.
  apply requireVerified_ok in Hp as ->. apply resolveTenant_ok in Htenant as (-> & _).
  eapply wp_mono; [apply (execute_spec g "jobs.create" _ _ jobsOptions _
    (fun x id st o w2 => exists job w1, o = Ok job /\ created job (w_db w1) (w_db w2) /\
       peek CEvidence id (w_db w) = None /\
       changed CEvidence id (Some (evidenceFor x jobsOptions id st Started)) (w_db w) (w_db w1) /\
       isRecord (input <| ci_tenantId := Some (vp_tenantId p) |>) (Some (g_application g)) (Some p)
         (Some (a_decisionId (x_authorization x))) job)); [exact Hc | exact Hhost|]|].
  - intros rid c p' x id st w1 Had Hc1 Hl1 Hnil Hn Hch.
    eapply wp_mono; [apply createJobRecord_spec, Hc1|].
    intros o w2 (job & -> & Hc2 & Hl2 & Hcr & Hrec). split; [exact Hc2|]. split; [after_tac|].
    pose proof (changed_hit _ _ _ _ _ Hch) as Hrow.
    split; [eapply created_keep; [exact Hcr | exact Hrow]|].
    split; [unfold resolvedRefs; rewrite (later_resolved _ _ Hl2); unfold resolvedRefs in Hnil; rewrite Hnil; intros _; exact I|].
    exists job, w1. auto 10.
  - intros o w' (Hc' & _ & [(e & -> & Href)|(rid & c & p' & x & id & st & w2 & row & Had & (job & w1 & -> & Hcr & Hn & Hch1 & Hrec) & Hfin & _ & Hch)]).
    + split; [|exact I]. intros k j Hj. destruct Href as [->|(id & row & Hch & Hn & _)]; [exact Hj|].
      eapply changed_keep; [exact Hch | exact Hn | exact Hj].
    + assert (forall k j, peek CJobs k (w_db w2) = Some j -> peek CJobs k (w_db w') = Some j) as Hlast.
      { intros k j Hj. rewrite (changed_frame _ _ _ CJobs k _ _ Hch) by discriminate. exact Hj. }
      split.
      { intros k j Hj. apply Hlast. eapply created_keep; [exact Hcr|].
        rewrite (changed_frame _ _ _ CJobs k _ _ Hch1) by discriminate. exact Hj. }
      split; [rewrite <- (changed_frame _ _ _ CJobs _ _ _ Hch1) by discriminate; apply Hcr|].
      split; [apply Hlast, (created_job _ _ _ Hcr)|].
      destruct Hrec as (Ht & _ & Happ & _ & _ & _ & _ & Hpr & _).
      split; [exact Happ|]. exists p. split; [reflexivity|]. split; [exact Ht|]. intros Hdel.
      rewrite Hpr. unfold durableFor.
      rewrite (proj2 (present_spec (Some _)) (ex_intro _ _ (conj eq_refl (is_decision _ _ _ _ _ _ _ _ Had)))).
      eapply finished_attests; [exact Had | exact Hfin | exact (changed_hit _ _ _ _ _ Hch) | now left |].
      rewrite attribute_delegation. revert Hdel. clear. change (ci_delegationId (input <| ci_tenantId := Some (vp_tenantId p) |>)) with (ci_delegationId input).
      destruct (ci_delegationId input) as [d|]; intros Hdel; cbn [orElseOpt ifPresent].
      * unfold present, ifPresent in *. destruct (truthy d) eqn:E; [rewrite ?E; reflexivity|].
        destruct Hdel as [Hdel|Hdel]; [exfalso; apply Hdel; destruct d; [reflexivity | discriminate E]|].
        destruct (vp_delegationId p) as [d'|]; [rewrite Hdel|]; rewrite ?E; reflexivity.
      * destruct (vp_delegationId p) as [d|]; cbn; [|reflexivity].
        destruct (truthy d) eqn:E; cbn; now rewrite E.
Qed.

(** ** Leases *)

(** At every reading of the clock from here on the lease has run out. *)
Definition expiredFor (j : Job) (w : World DB) : Prop :=
  forall n now, toISO (w_clock w n) = Some now -> dueAt (j_leaseExpiresAt j) now = true.

(** At every reading of the clock from here on the lease still holds. *)
Definition heldFor (j : Job) (w : World DB) : Prop :=
  forall n now, toISO (w_clock w n) = Some now -> dueAt (j_leaseExpiresAt j) now = false.

Lemma execute_held t id j worker w :
  holds t id j w -> j_status j = JRunning -> heldFor j w -> j_leaseOwner j <> Some worker ->
  wp (executeJob s t id worker) (fun o w' => o = Ok false /\ calm w' /\ w_db w' = w_db w) w.
Proof.
  intros (Hc & Hj & Hid & Ht) Hs Hheld Hown. unfold executeJob. apply wp_bind, wp_js_get; [exact Hc|].
  rewrite Hj, (ofTenant_same t j Ht). apply wp_bind, wpc_nowIso; [exact Hc|].
  intros u now w1 Hnow (n & ->) Hc1 Hl1 Hd1. unfold isAbandoned, isStale.
  rewrite (Hheld n now Hnow), bool_decide_eq_true_2 by exact Hs. cbn [andb negb].
  destruct (oeqb _ (Some worker)) eqn:E; [apply oeqb_true in E; contradiction|].
  cbn [negb]. apply wp_ret. auto.
Qed.

(** An abandoned attempt counts.  When it was the last one the job fails,
    and nothing runs it. *)
Lemma execute_abandoned_last t id j worker w :
  holds t id j w -> j_status j = JRunning -> expiredFor j w -> j_maxAttempts j <= j_attemptCount j + 1 ->
  wp (executeJob s t id worker)
     (fun o w' => o = Ok false /\ calm w' /\
        peek CJobs id (w_db w') = Some (written (failPatch (abandonedMessage (j_attemptCount j + 1)) (j_attemptCount j + 1)) j)) w.
Proof.
  intros (Hc & Hj & Hid & Ht) Hs Hexp Hlast. unfold executeJob. apply wp_bind, wp_js_get; [exact Hc|].
  rewrite Hj, (ofTenant_same t j Ht). apply wp_bind, wpc_nowIso; [exact Hc|].
  intros u now w1 Hnow (n & ->) Hc1 Hl1 Hd1. unfold isAbandoned, isStale.
  rewrite (Hexp n now Hnow), bool_decide_eq_true_2 by exact Hs. cbn [andb negb].
  apply wp_bind. unfold takeOver. rewrite (proj2 (Z.leb_le _ _) Hlast).
  rewrite <- Hd1 in Hj. apply wp_bind. eapply wp_js_update; [exact Hc1 | exact Hj|].
  intros w2 Hc2 Hl2 Hch. set (j' := written _ j) in *.
  assert (ofTenant t (Some j') = Some j') as -> by (apply ofTenant_same; exact Ht).
  assert (Some id = Some (j_id j')) as -> by (rewrite <- Hid; reflexivity).
  assert (t = j_tenantId j') as -> by (rewrite <- Ht; reflexivity).
  apply wp_bind, wp_audit; [exact Hc2|]. intros w3 Hc3 Hl3 Ha. apply wp_ret, wp_ret.
  split; [reflexivity|]. split; [exact Hc3|]. eapply audited_frame; [exact Ha|].
  exact (changed_hit _ _ _ _ _ Hch).
Qed.

(** Otherwise another worker takes the job over, one attempt further. *)
Lemma execute_abandoned t id j worker (h : JobHandler DB) r w :
  holds t id j w -> j_status j = JRunning -> expiredFor j w -> leaseOk ->
  0 <= j_attemptCount j -> j_attemptCount j + 1 < j_maxAttempts j -> j_maxAttempts j <= 42 ->
  trusted j -> jv_handlers s !! j_type j = Some h ->
  (forall lease sys, let c := written (claimPatch lease sys)
      (written (countPatch (j_attemptCount j + 1) (abandonedMessage (j_attemptCount j + 1))) j) in
      does t id c (h c None) r) ->
  wp (executeJob s t id worker)
     (fun o w' => o = Ok (succeeded r) /\ calm w' /\
        exists lease sys j', peek CJobs id (w_db w') = Some j' /\
          runLeaves (w_clock w) (written (claimPatch lease sys)
            (written (countPatch (j_attemptCount j + 1) (abandonedMessage (j_attemptCount j + 1))) j)) r j') w.
Proof.
  intros (Hc & Hj & Hid & Ht) Hs Hexp Hlease Hpos Hmore Hmax Htr Hh Hdoes.
  unfold executeJob. apply wp_bind, wp_js_get; [exact Hc|].
  rewrite Hj, (ofTenant_same t j Ht). apply wp_bind, wpc_nowIso; [exact Hc|].
  intros u now w1 Hnow (n & ->) Hc1 Hl1 Hd1. unfold isAbandoned, isStale.
  rewrite (Hexp n now Hnow), bool_decide_eq_true_2 by exact Hs. cbn [andb negb].
  apply wp_bind. unfold takeOver. rewrite (proj2 (Z.leb_gt _ _) Hmore).
  rewrite <- Hd1 in Hj. eapply wp_js_update; [exact Hc1 | exact Hj|].
  intros w2 Hc2 Hl2 Hch. set (j' := written _ j) in *.
  assert (ofTenant t (Some j') = Some j') as -> by (apply ofTenant_same; exact Ht).
  assert (holds t id j' w2) as Hh2.
  { split; [exact Hc2|]. split; [exact (changed_hit _ _ _ _ _ Hch)|]. split; [exact Hid | exact Ht]. }
  eapply wp_claim_run; [exact Hh2 | exact Hlease|]. intros n' lease sys w3 _ c Hh3 Hl3 _.
  change (j_type c) with (j_type j). rewrite Hh.
  assert (wp (executeLegacyHandler c h) (fun o w' => o = Ok (succeeded r) /\ calm w' /\
    exists lease sys j'', peek CJobs id (w_db w') = Some j'' /\
      runLeaves (w_clock w) (written (claimPatch lease sys) j') r j'') w3) as Hgo.
  { eapply wp_mono; [eapply (executeLegacy_spec t id c h r); [exact Hh3 | cbn; lia | exact Hmax | apply Hdoes]|].
    intros o w4 (Ho & Hc4 & Hl4 & j'' & Hj'' & Hleft). split; [exact Ho|]. split; [exact Hc4|].
    exists lease, sys, j''. split; [exact Hj''|].
    assert (later w w3) as (Hclk & _) by later_tac. rewrite <- Hclk. exact Hleft. }
  destruct Htr as [-> | Hsys]; [exact Hgo|]. rewrite Hsys. destruct (jv_authority s); exact Hgo.
Qed.

(** ** What is due *)

Lemma listDue_exact t w :
  calm w ->
  wp (listDueJobs t) (fun o w' => w_db w' = w_db w /\ exists n now l, toISO (w_clock w n) = Some now /\ o = Ok l /\
     forall j, j ∈ l <-> (exists k, peek CJobs k (w_db w) = Some j) /\ j_tenantId j = t /\
       (isDue now j = true \/ isStale now j = true)) w.
Proof.
  intros Hc. unfold listDueJobs. apply wp_bind, wpc_nowIso; [exact Hc|].
  intros u now w1 Hnow (n & ->) Hc1 Hl1 Hd1. unfold js_listDue.
  apply wp_bind, wpc_find; [exact Hc1|]. intros l Hl. apply wp_ret. split; [exact Hd1|].
  exists n, now. eexists. split; [exact Hnow|]. split; [reflexivity|]. intros j.
  rewrite list_elem_of_In, filter_In, <- list_elem_of_In, (enumerates_in _ _ _ _ _ Hl), Hd1.
  rewrite orb_true_iff. split.
  - intros [(k & Hk & Ht) Hdue]. apply String.eqb_eq in Ht. eauto.
  - intros [(k & Hk) [Ht Hdue]]. split; [|exact Hdue]. exists k. split; [exact Hk | now apply String.eqb_eq].
Qed.

(** ** Recurring schedules *)

Definition movedTo (next : string) (sch : JobSchedule) : JobSchedule :=
  (sch <| s_nextRunAt := next |>) <| s_version := s_version sch + 1 |>.

Lemma audited_by type jid sid t p at_ ok details Q w :
  calm w ->
  (forall id ev w', calm w' -> later w w' -> changed CJobAudit id (Some ev) (w_db w) (w_db w') ->
     (forall V (c : coll V), peek c id (w_db w) = None) -> Q (Ok tt) w') ->
  wp (audit type jid sid t p at_ ok details) Q w.
Proof.
  intros Hc HQ. unfold audit. apply wp_bind, wpc_uuid; [exact Hc|].
  intros id w1 _ Ho Hc1 Hl1 Hd1. unfold ja_record. cbn [ja_id].
  apply wpc_insert; [exact Hc1 | exact Ho|]. intros w2 Hc2 Hl2 Hch. rewrite Hd1 in Hch.
  eapply HQ; [exact Hc2 | later_tac | exact Hch|]. rewrite <- Hd1. apply Ho.
Qed.

(** One due schedule: a new job with its type and payload, and the next run
    one interval after now. *)
Lemma processSchedule_spec t sch u now ms next w :
  calm w -> peek CSchedules (s_id sch) (w_db w) = Some sch -> s_tenantId sch = t ->
  toISO u = Some now -> intervalMs (s_interval sch) = Some ms -> toISO (u + ms) = Some next ->
  wp (processSchedule t now sch)
     (fun o w' => o = Ok tt /\ calm w' /\ later w w' /\ exists id,
        (forall V (c : coll V), peek c id (w_db w) = None) /\
        peek CJobs id (w_db w') = Some (jobFromSchedule id now sch) /\
        (forall k, k <> id -> peek CJobs k (w_db w') = peek CJobs k (w_db w)) /\
        peek CSchedules (s_id sch) (w_db w') = Some (movedTo next sch) /\
        (forall k, k <> s_id sch -> peek CSchedules k (w_db w') = peek CSchedules k (w_db w))) w.
Proof.
  intros Hc Hk Ht Hnow Hms Hnext. unfold processSchedule. apply wp_bind, wpc_uuid; [exact Hc|].
  intros id w1 _ Ho Hc1 Hl1 Hd1. apply wp_bind. unfold js_create.
  change (j_id (jobFromSchedule id now sch)) with id.
  apply wpc_create; [exact Hc1 | exact Ho|]. intros w2 Hc2 Hl2 Hch2. rewrite Hd1 in Hch2.
  assert (nextRunTime now (s_interval sch) = Ok next) as Hnr.
  { unfold nextRunTime, dateOf. rewrite Hms, (parseDate_toISO _ _ _ Hnow), Hnext. reflexivity. }
  apply wp_bind, wp_outcome. rewrite Hnr. apply wp_bind. unfold ss_updateSchedule. apply wp_bind.
  assert (peek CSchedules (s_id sch) (w_db w2) = Some sch) as Hk2.
  { rewrite (changed_frame _ _ _ CSchedules _ _ _ Hch2) by discriminate. exact Hk. }
  eapply (wpc_cas CSchedules (s_id sch) sch); [exact Hc2 | exact Hk2|].
  intros new w3 Hc3 Hl3 Hch3. change new with (movedTo next sch) in *. apply wp_ret.
  assert ((if String.eqb (s_tenantId (movedTo next sch)) t then Some (movedTo next sch) else None)
          = Some (movedTo next sch)) as ->
    by (change (s_tenantId (movedTo next sch)) with (s_tenantId sch); rewrite Ht, String.eqb_refl; reflexivity).
  apply audited_by; [exact Hc3|]. intros aid ev w4 Hc4 Hl4 Hch4 _.
  split; [reflexivity|]. split; [exact Hc4|]. split; [later_tac|]. exists id.
  split; [rewrite <- Hd1; apply Ho|].
  rewrite (changed_frame _ _ _ CJobs id _ _ Hch4) by discriminate.
  rewrite (changed_frame _ _ _ CJobs id _ _ Hch3) by discriminate.
  rewrite (changed_hit _ _ _ _ _ Hch2). split; [reflexivity|].
  rewrite (changed_frame _ _ _ CSchedules _ _ _ Hch4) by discriminate.
  rewrite (changed_hit _ _ _ _ _ Hch3).
  split; [|split; [reflexivity|]]; intros k Hne.
  - rewrite (changed_frame _ _ _ CJobs k _ _ Hch4) by discriminate.
    rewrite (changed_frame _ _ _ CJobs k _ _ Hch3) by discriminate.
    apply (changed_frame _ _ _ CJobs k _ _ Hch2). intros [=]. contradiction.
  - rewrite (changed_frame _ _ _ CSchedules k _ _ Hch4) by discriminate.
    rewrite (changed_frame _ _ _ CSchedules k _ _ Hch3) by (intros [=]; contradiction).
    apply (changed_frame _ _ _ CSchedules k _ _ Hch2). discriminate.
Qed.

(** A schedule whose next run can be computed at [u]. *)
Definition runsNext (u : Z) (sch : JobSchedule) (next : string) : Prop :=
  exists ms, intervalMs (s_interval sch) = Some ms /\ toISO (u + ms) = Some next.

Lemma processAll_spec t u now due : toISO u = Some now -> forall n w,
  calm w -> NoDup (map s_id due) ->
  (forall sch, sch ∈ due -> peek CSchedules (s_id sch) (w_db w) = Some sch /\ s_tenantId sch = t /\
     exists next, runsNext u sch next) ->
  wp (processAll t now due n)
     (fun o w' => o = Ok (n + Z.of_nat (length due)) /\ calm w' /\ exists ids, NoDup ids /\
        Forall2 (fun id sch => peek CJobs id (w_db w) = None /\
           peek CJobs id (w_db w') = Some (jobFromSchedule id now sch)) ids due /\
        (forall k, k ∉ ids -> peek CJobs k (w_db w') = peek CJobs k (w_db w)) /\
        (forall sch, sch ∈ due -> exists next, runsNext u sch next /\
           peek CSchedules (s_id sch) (w_db w') = Some (movedTo next sch)) /\
        (forall k, k ∉ map s_id due -> peek CSchedules k (w_db w') = peek CSchedules k (w_db w))) w.
Proof.
  intros Hnow. induction due as [|sch due IH]; intros n w Hc Hd Hall.
  - apply wp_ret. split; [f_equal; cbn; lia|]. split; [exact Hc|]. exists []. split; [constructor|].
    split; [constructor|]. split; [auto|]. split; [|auto]. intros sch Hin. now apply not_elem_of_nil in Hin.
  - cbn [processAll]. apply NoDup_cons in Hd as [Hnin Hd].
    destruct (Hall sch) as (Hk & Ht & next & ms & Hms & Hnext); [left|].
    apply wp_bind. eapply wp_mono; [eapply processSchedule_spec; eassumption|].
    intros o w1 (-> & Hc1 & Hl1 & id & Hfr & Hj & Hjo & Hs & Hso).
    eapply wp_mono; [apply (IH (n + 1) w1 Hc1 Hd)|].
    { intros sch' Hin. destruct (Hall sch') as (Hk' & Ht' & Hn'); [now right|].
      split; [|auto]. rewrite Hso; [exact Hk'|]. intros E. apply Hnin. rewrite <- E.
      apply list_elem_of_In, in_map, list_elem_of_In, Hin. }
    intros o w2 (-> & Hc2 & ids & Hnd & Hf & Hout & Hsch & Hsout).
    assert (id ∉ ids) as Hidn.
    { intros Hin. apply list_elem_of_lookup in Hin as [i Hi].
      destruct (Forall2_lookup_l _ _ _ _ _ Hf Hi) as (sch' & _ & Hnone & _). congruence. }
    split; [f_equal; cbn [length]; lia|]. split; [exact Hc2|]. exists (id :: ids).
    split; [constructor; assumption|]. split; [|split; [|split]].
    + constructor; [split; [apply Hfr | rewrite Hout; [exact Hj | exact Hidn]]|].
      eapply Forall2_impl; [exact Hf|]. intros id' sch' [Hn1 Hn2]. split; [|exact Hn2].
      rewrite <- Hjo; [exact Hn1|]. intros ->. congruence.
    + intros k Hk'. apply not_elem_of_cons in Hk' as [Hk1 Hk2]. rewrite Hout by exact Hk2. now apply Hjo.
    + intros sch' Hin. apply elem_of_cons in Hin as [->|Hin]; [|now apply Hsch].
      exists next. split; [exists ms; auto|]. rewrite Hsout; [exact Hs | exact Hnin].
    + intros k Hk'. cbn in Hk'. apply not_elem_of_cons in Hk' as [Hk1 Hk2].
      rewrite Hsout by exact Hk2. now apply Hso.
Qed.

Definition dueSchedule (t now : string) (sch : JobSchedule) : Prop :=
  s_tenantId sch = t /\ s_enabled sch = true /\ strLe (s_nextRunAt sch) now = true.

Lemma recurring_spec t w :
  calm w -> (forall k sch, peek CSchedules k (w_db w) = Some sch -> s_id sch = k) ->
  (forall k sch n, peek CSchedules k (w_db w) = Some sch -> exists next, runsNext (w_clock w n) sch next) ->
  wp (processRecurringSchedules t)
     (fun o w' => calm w' /\ exists n now due ids, toISO (w_clock w n) = Some now /\
        o = Ok (Z.of_nat (length due)) /\ NoDup (map s_id due) /\
        (forall sch, sch ∈ due <-> (exists k, peek CSchedules k (w_db w) = Some sch) /\ dueSchedule t now sch) /\
        NoDup ids /\
        Forall2 (fun id sch => peek CJobs id (w_db w) = None /\
           peek CJobs id (w_db w') = Some (jobFromSchedule id now sch)) ids due /\
        (forall k, k ∉ ids -> peek CJobs k (w_db w') = peek CJobs k (w_db w)) /\
        (forall sch, sch ∈ due -> exists next, runsNext (w_clock w n) sch next /\
           peek CSchedules (s_id sch) (w_db w') = Some (movedTo next sch))) w.
Proof.
  intros Hc Hid Hruns. unfold processRecurringSchedules. apply wp_bind, wpc_nowIso; [exact Hc|].
  intros u now w1 Hnow (n & ->) Hc1 Hl1 Hd1. apply wp_bind. unfold ss_listDue.
  apply wp_bind, wpc_find; [exact Hc1|]. intros l Hl. rewrite Hd1 in Hl. apply wp_ret.
  set (due := List.filter (fun s => strLe (s_nextRunAt s) now) l).
  assert (forall sch, sch ∈ due <-> (exists k, peek CSchedules k (w_db w) = Some sch) /\ dueSchedule t now sch) as Hdue.
  { intros sch. unfold due, dueSchedule. rewrite list_elem_of_In, filter_In, <- list_elem_of_In, (enumerates_in _ _ _ _ _ Hl).
    split.
    - intros [(k & Hk & Hp) Hle]. apply andb_prop in Hp as [Ht He]. apply String.eqb_eq in Ht. eauto 6.
    - intros [(k & Hk) (Ht & He & Hle)]. split; [|exact Hle]. exists k. split; [exact Hk|].
      rewrite Ht, String.eqb_refl. exact He. }
  assert (NoDup (map s_id due)) as Hnd by (apply NoDup_map_filter; eapply enumerates_keyed; [exact Hl | exact Hid]).
  eapply wp_mono; [apply (processAll_spec t (w_clock w n) now due Hnow 0 w1 Hc1 Hnd)|].
  { intros sch Hin. apply Hdue in Hin as [(k & Hk) (Ht & _)]. rewrite Hd1, (Hid _ _ Hk).
    split; [exact Hk|]. split; [exact Ht|]. eapply Hruns, Hk. }
  intros o w2 (-> & Hc2 & ids & H1 & H2 & H3 & H4 & _). split; [exact Hc2|].
  rewrite Hd1 in *. exists n, now, due, ids. auto 10.
Qed.
End facts.
