(* ===== verification/Schedules.v ===== *)
(** * Schedules: the schedule service ([schedules/service.ts]) *)

From S2P Require Import Prelude JsString JsTime Errors Models Store Principal Manifest Evidence Gateway Jobs.
From Stdlib Require Import ZArith Lia Ascii.
Local Open Scope string_scope.
Local Open Scope Z_scope.

(** An untyped input: [type] and [interval] may be any value. *)
Record CreateScheduleInput := mkScheduleInput {
  si_type : jsval;
  si_interval : jsval;
  si_rest : ScheduleRecurringInput }.

Definition ScheduleValidationError (message : string) : exn := JsError "ScheduleValidationError" message.

(** [^\d+[smhd]$] *)
Definition isInterval (s : string) : bool :=
  match splitLast s with
  | Some (digits, u) => truthy digits && all isDigit digits &&
      existsb (fun k => Nat.eqb (code u) k) [115; 109; 104; 100]%nat
  | None => false
  end.

(** The input as [scheduleRecurring] reads it, once it is known to be text. *)
Definition validateInput (input : CreateScheduleInput) : outcome ScheduleRecurringInput :=
  match si_type input with
  | JStr ty =>
      if blank ty then Throw (ScheduleValidationError "type is required")
      else match si_interval input with
           | JStr iv =>
               if isInterval iv then
                 Ok (mkRecurring (sr_tenantId (si_rest input)) ty (sr_payload (si_rest input)) iv
                       (sr_delegationId (si_rest input)) (sr_createdBy (si_rest input)) (sr_extra (si_rest input)))
               else Throw (ScheduleValidationError "interval must match <number><s|m|h|d>")
           | _ => Throw (ScheduleValidationError "interval must match <number><s|m|h|d>")
           end
  | _ => Throw (ScheduleValidationError "type is required")
  end.

Section service.
Context {DB : Type} `{FeltDB DB}.
Variable jobs : JobService DB.
(** The service's own gateway, for reads. *)
Variable authority : option (ServiceGateway DB).

Definition schedulesGateway : M DB (ServiceGateway DB) :=
  match authority with
  | Some g => mret g
  | None => throw (ServiceAuthorityError AUTHORITY_UNAVAILABLE
      "Schedules have no AuthBoundry authority configured" noDetails)
  end.

Definition sc_create (input : CreateScheduleInput) (caller : Caller) : M DB JobSchedule :=
  checked ← ofOutcome (validateInput input);
  scheduleRecurring jobs checked caller.

Definition schedulesOptions : ExecuteOptions := mkOptions "schedules" None None None.

Definition sc_get (tenantId id : string) (caller : Caller) : M DB (option JobSchedule) :=
  principal ← ofOutcome (requireVerifiedPrincipal caller);
  tenant ← ofOutcome (resolveTenant (JStr tenantId) principal);
  found ← getSchedule tenant id;
  match found with
  | None => mret None
  | Some sch =>
      g ← schedulesGateway;
      if negb (oeqb (s_applicationId sch) (Some (g_application g))) then mret None
      else execute g "schedules.read" (CVerified principal)
             (mkResource "schedule" tenant (Some id) (Some {[ "createdBy" := s_createdBy sch ]})) schedulesOptions
             (fun _ _ => mret (Some sch))
  end.

Definition sc_list (tenantId : string) (caller : Caller) (createdBy : option string) : M DB (list JobSchedule) :=
  principal ← ofOutcome (requireVerifiedPrincipal caller);
  tenant ← ofOutcome (resolveTenant (JStr tenantId) principal);
  g ← schedulesGateway;
  execute g "schedules.read" (CVerified principal)
    (mkResource "schedule" tenant None (Some {[ "createdBy" := orElse createdBy "*" ]})) schedulesOptions
    (fun _ _ =>
       all ← listSchedules tenant;
       let schedules := List.filter (fun sch => oeqb (s_applicationId sch) (Some (g_application g))) all in
       mret match ifPresent createdBy with
            | Some c => List.filter (fun sch => String.eqb (s_createdBy sch) c) schedules
            | None => schedules
            end).

Definition sc_disable (tenantId id : string) (caller : Caller) : M DB (option JobSchedule) :=
  disableSchedule jobs tenantId id caller.
End service.

(** What the schedule service lets through, the job service can parse. *)
Lemma isInterval_intervalMs iv : isInterval iv = true <-> exists ms, intervalMs iv = Some ms.
Proof.
  unfold isInterval, intervalMs. destruct (splitLast iv) as [[digits u]|];
    [|split; [discriminate | intros [? [=]]]].
  destruct (truthy digits && all isDigit digits); cbn [andb];
    [|split; [discriminate | intros [? [=]]]].
  destruct u as [[] [] [] [] [] [] [] []]; cbn; split; intros Hu; try discriminate Hu;
    try (destruct Hu as [? [=]]); eauto.
Qed.
