(* ===== verification/Transfer.v ===== *)
(** * Transfer: export and import of configuration ([configuration/transfer.ts])

    An export document carries the variables, credential references, webhook
    endpoints and schedules of one tenant, application and environment; an
    import plans against the target as it is read and then applies item by
    item.  [JSON.parse], [JSON.stringify], [String(value)], the host's
    collation, the package's version and the [code] of foreign errors are
    parameters. *)

From S2P Require Import Prelude JsString JsTime Errors Models Store Principal Manifest Evidence Gateway Webhooks Configuration Jobs Schedules.
From Stdlib Require Import ZArith Lia Ascii.
Local Open Scope string_scope.
Local Open Scope Z_scope.

(** ** The document *)

Definition CONFIGURATION_EXPORT_FORMAT : string := "appport.configuration-export".
Definition CONFIGURATION_EXPORT_FORMAT_VERSION : Z := 1.

Record ConfigurationExportVariable := mkExportVariable {
  xv_name : string;
  xv_value : string;
  xv_required : bool }.

Record ConfigurationExportSecret := mkExportSecret {
  xs_name : string;
  xs_required : bool;
  xs_credentialRef : string }.

Record ConfigurationExportWebhookEndpoint := mkExportEndpoint {
  xe_url : string;
  xe_events : list string;
  xe_signingCredentialRef : option string }.

Record ConfigurationExportSchedule := mkExportSchedule {
  xc_type : string;
  xc_interval : string;
  xc_payload : list (string * jsval) }.

(** [format] and [formatVersion] have one value each. *)
Record ConfigurationExportDocument := mkDocument {
  xd_exportedAt : string;
  xd_application : string;
  xd_environment : ConfigurationEnvironment;
  xd_servicesVersion : string;
  xd_variables : list ConfigurationExportVariable;
  xd_secrets : list ConfigurationExportSecret;
  xd_webhookEndpoints : list ConfigurationExportWebhookEndpoint;
  xd_schedules : list ConfigurationExportSchedule }.

(** ** Values *)

Definition isObject (value : jsval) : bool := match value with JObj _ => true | _ => false end.

Definition payloadOf (payload : jsval) : list (string * jsval) :=
  match payload with JObj fields => fields | _ => [] end.

(** [value === true] *)
Definition isTrue (value : jsval) : bool := match value with JBool b => b | _ => false end.

Definition sameList (a b : list string) : bool := bool_decide (a = b).

Definition scheduleKey (type interval : string) : string := type ++ "@" ++ interval.

(** [new Map(items.map((item) => [key(item), item])).get(name)]: of two items
    with one key the later is kept. *)
Definition lastBy {A} (key : A -> string) (l : list A) (name : string) : option A :=
  List.find (fun a => String.eqb (key a) name) (rev l).

(** What the replacer of [stableJson] makes of a value: objects with their keys sorted. *)
Fixpoint sortKeys (v : jsval) : jsval :=
  match v with
  | JArr l => JArr (map sortKeys l)
  | JObj fields => JObj (sortBy (fun a b => String.leb a.1 b.1) (map (fun kv => (kv.1, sortKeys kv.2)) fields))
  | v => v
  end.

Definition requireEnvironment (environment : jsval) : outcome ConfigurationEnvironment :=
  match environmentOf environment with
  | Some e => Ok e
  | None => Throw (ServiceAuthorityError INVALID_REQUEST "Invalid environment" noDetails)
  end.

(** ** Reading an untrusted document *)

Definition exportFail {A} (message : string) : outcome A :=
  Throw (ServiceAuthorityError INVALID_REQUEST ("Invalid configuration export: " ++ message) noDetails).

(** [what[index].field] *)
Definition at_ (what : string) (index : Z) (field : string) : string := what ++ "[" ++ num index ++ "]." ++ field.

Definition textField (value : jsval) (what : string) : outcome string :=
  match value with
  | JStr s => if truthy s then Ok s else exportFail (what ++ " must be a non-empty string")
  | _ => exportFail (what ++ " must be a non-empty string")
  end.

Definition refField (value : jsval) (what : string) : outcome string :=
  reference ← textField value what;
  if isCredentialRef (JStr reference) then Ok reference else exportFail (what ++ " must be a credential-ref:<id> reference").

(** The entries of an array of objects. *)
Definition entriesOf (doc : list (string * jsval)) (key : string) : outcome (list (list (string * jsval))) :=
  match getField doc key with
  | JUndef | JNull => Ok []
  | JArr l => if existsb (fun e => negb (isObject e)) l then exportFail (key ++ " must be an array of objects")
              else Ok (map payloadOf l)
  | _ => exportFail (key ++ " must be an array of objects")
  end.

Fixpoint eachEntry {A} (read : Z -> list (string * jsval) -> outcome A) (index : Z) (l : list (list (string * jsval)))
  : outcome (list A) :=
  match l with
  | [] => Ok []
  | entry :: rest => a ← read index entry; more ← eachEntry read (index + 1) rest; Ok (a :: more)
  end.

Definition readVariable (index : Z) (entry : list (string * jsval)) : outcome ConfigurationExportVariable :=
  name ← textField (getField entry "name") (at_ "variables" index "name");
  value ← textField (getField entry "value") (at_ "variables" index "value");
  Ok (mkExportVariable name value (isTrue (getField entry "required"))).

(** The first forbidden field an entry has. *)
Definition forbiddenField (fields : list string) (entry : list (string * jsval)) : option string :=
  List.find (fun f => negb (isUndef (getField entry f))) fields.

Definition readSecret (index : Z) (entry : list (string * jsval)) : outcome ConfigurationExportSecret :=
  match forbiddenField ["value"; "secret"; "plaintext"] entry with
  | Some f => Throw (ServiceMigrationError ("secrets[" ++ num index ++ "] carries " ++ quoted f ++ ": secret values are never imported. Attach the credential in the target with credential.attach."))
  | None =>
      name ← textField (getField entry "name") (at_ "secrets" index "name");
      ref ← refField (getField entry "credentialRef") (at_ "secrets" index "credentialRef");
      Ok (mkExportSecret name (isTrue (getField entry "required")) ref)
  end.

Definition isText (v : jsval) : bool := match v with JStr s => truthy s | _ => false end.

(** [entry.events as string[]] *)
Definition eventTexts (l : list jsval) : list string :=
  map (fun v => match v with JStr s => s | _ => EmptyString end) l.

Definition readEvents (index : Z) (value : jsval) : outcome (list string) :=
  match value with
  | JArr ((_ :: _) as l) =>
      if forallb isText l then Ok (eventTexts l)
      else exportFail (at_ "webhookEndpoints" index "events must be a non-empty array of event names")
  | _ => exportFail (at_ "webhookEndpoints" index "events must be a non-empty array of event names")
  end.

Definition readEndpoint (index : Z) (entry : list (string * jsval)) : outcome ConfigurationExportWebhookEndpoint :=
  match forbiddenField ["secret"; "signingSecret"] entry with
  | Some f => Throw (ServiceMigrationError ("webhookEndpoints[" ++ num index ++ "] carries " ++ quoted f ++ ": signing secrets are never imported; pass signingCredentialRef."))
  | None =>
      events ← readEvents index (getField entry "events");
      url ← textField (getField entry "url") (at_ "webhookEndpoints" index "url");
      ref ← (if isUndef (getField entry "signingCredentialRef") then Ok None
             else ref ← refField (getField entry "signingCredentialRef") (at_ "webhookEndpoints" index "signingCredentialRef"); Ok (Some ref));
      Ok (mkExportEndpoint url events ref)
  end.

Definition readSchedule (index : Z) (entry : list (string * jsval)) : outcome ConfigurationExportSchedule :=
  type ← textField (getField entry "type") (at_ "schedules" index "type");
  interval ← textField (getField entry "interval") (at_ "schedules" index "interval");
  payload ← match getField entry "payload" with
    | JUndef => Ok []
    | JObj fields => Ok fields
    | _ => exportFail (at_ "schedules" index "payload must be an object")
    end;
  Ok (mkExportSchedule type interval payload).

(** [typeof value === 'string' ? value : ''] *)
Definition textOrEmpty (value : jsval) : string := match value with JStr s => s | _ => EmptyString end.

Section parse.
(** [JSON.parse], [None] where it throws, and [String(value)]. *)
Variable jsonParse : string -> option jsval.
Variable stringOfValue : jsval -> string.

Definition safeJson (text : string) : outcome jsval :=
  match jsonParse text with Some v => Ok v | None => exportFail "not valid JSON" end.

Definition parseExportDocument (input : jsval) : outcome ConfigurationExportDocument :=
  value ← match input with JStr text => safeJson text | v => Ok v end;
  match value with
  | JObj doc =>
      if negb (isStr (getField doc "format") CONFIGURATION_EXPORT_FORMAT) then
        exportFail ("format must be " ++ quoted CONFIGURATION_EXPORT_FORMAT)
      else if negb match getField doc "formatVersion" with JInt n => n =? CONFIGURATION_EXPORT_FORMAT_VERSION | _ => false end then
        exportFail ("formatVersion " ++ stringOfValue (getField doc "formatVersion") ++ " is not supported (this release reads " ++ num CONFIGURATION_EXPORT_FORMAT_VERSION ++ ")")
      else
        source ← match getField doc "source" with JObj f => Ok f | _ => exportFail "source is required" end;
        environment ← match environmentOf (getField source "environment") with
          | Some e => Ok e
          | None => exportFail "source.environment is invalid"
          end;
        variables ← (l ← entriesOf doc "variables"; eachEntry readVariable 0 l);
        secrets ← (l ← entriesOf doc "secrets"; eachEntry readSecret 0 l);
        webhookEndpoints ← (l ← entriesOf doc "webhookEndpoints"; eachEntry readEndpoint 0 l);
        schedules ← (l ← entriesOf doc "schedules"; eachEntry readSchedule 0 l);
        Ok (mkDocument (textOrEmpty (getField doc "exportedAt")) (textOrEmpty (getField source "application")) environment
              (textOrEmpty (getField source "servicesVersion")) variables secrets webhookEndpoints schedules)
  | _ => exportFail "expected an object"
  end.
End parse.

(** ** Plans and reports *)

Inductive ConfigurationImportKind := KVariable | KSecret | KWebhookEndpoint | KSchedule.
Inductive ConfigurationImportAction := ACreate | AUpdate | AUnchanged | AConflict | AMissing | ASkip.

#[global] Instance ConfigurationImportAction_eq_dec : EqDecision ConfigurationImportAction.
Proof. solve_decision. Defined.

(** [it_error]: the code and the message. *)
Record ConfigurationImportItem := mkImportItem {
  it_kind : ConfigurationImportKind;
  it_key : string;
  it_action : ConfigurationImportAction;
  it_reason : option string;
  it_applied : bool;
  it_error : option (string * string) }.

#[global] Instance ConfigurationImportItem_eta : Eta ConfigurationImportItem := fun r =>
  mkImportItem (it_kind r) (it_key r) (it_action r) (it_reason r) (it_applied r) (it_error r).

Record ConfigurationMissingSecret := mkMissingSecret {
  ms_name : string;
  ms_required : bool;
  ms_sourceCredentialRef : string }.

Record ImportSummary := mkImportSummary {
  ct_create : Z;
  ct_update : Z;
  ct_unchanged : Z;
  ct_conflict : Z;
  ct_missing : Z;
  ct_skip : Z;
  ct_failed : Z }.

#[global] Instance ImportSummary_eta : Eta ImportSummary := fun r =>
  mkImportSummary (ct_create r) (ct_update r) (ct_unchanged r) (ct_conflict r) (ct_missing r) (ct_skip r) (ct_failed r).

Record ConfigurationImportReport := mkImportReport {
  im_dryRun : bool;
  im_overwrite : bool;
  im_environment : ConfigurationEnvironment;
  im_items : list ConfigurationImportItem;
  im_summary : ImportSummary;
  im_missingSecrets : list ConfigurationMissingSecret }.

Record ConfigurationExportOptions := mkExportOptions {
  xo_principal : Caller;
  xo_environment : jsval }.

Record ConfigurationImportOptions := mkImportOptions {
  mo_principal : Caller;
  mo_dryRun : jsval;
  mo_overwrite : jsval;
  mo_environment : jsval }.

(** [summary[item.action] += 1; if (item.error) summary.failed += 1;] *)
Definition countItem (s : ImportSummary) (item : ConfigurationImportItem) : ImportSummary :=
  let s := match it_action item with
           | ACreate => s <| ct_create := ct_create s + 1 |>
           | AUpdate => s <| ct_update := ct_update s + 1 |>
           | AUnchanged => s <| ct_unchanged := ct_unchanged s + 1 |>
           | AConflict => s <| ct_conflict := ct_conflict s + 1 |>
           | AMissing => s <| ct_missing := ct_missing s + 1 |>
           | ASkip => s <| ct_skip := ct_skip s + 1 |>
           end in
  match it_error item with Some _ => s <| ct_failed := ct_failed s + 1 |> | None => s end.

Definition summarizeItems (items : list ConfigurationImportItem) : ImportSummary :=
  fold_left countItem items (mkImportSummary 0 0 0 0 0 0 0).

Definition planned (kind : ConfigurationImportKind) (key : string) (action : ConfigurationImportAction)
  (reason : option string) : ConfigurationImportItem := mkImportItem kind key action reason false None.

(** [{ environment }] as the services read it. *)
Definition environmentScope (environment : ConfigurationEnvironment) (rest : list (string * jsval)) : Scope :=
  let e := JStr (environmentName environment) in mkScopeInput JUndef JUndef e (("environment", e) :: rest).

Definition variableInput (environment : ConfigurationEnvironment) (v : ConfigurationExportVariable) : VariableInput :=
  mkVariableInput (environmentScope environment
      [("name", JStr (xv_name v)); ("value", JStr (xv_value v)); ("required", JBool (xv_required v))])
    (JStr (xv_name v)) (Some (xv_required v)) (JStr (xv_value v)).

Definition endpointInput (url : string) (events : list string) (ref : string) : CreateWebhookEndpointInput :=
  mkCreateEndpoint None (JStr url) (JArr (map JStr events)) (JStr ref) [].

Definition scheduleInput (s : ConfigurationExportSchedule) : CreateScheduleInput :=
  mkScheduleInput (JStr (xc_type s)) (JStr (xc_interval s))
    (mkRecurring None (xc_type s) (JObj (xc_payload s)) (xc_interval s) None None []).

(** ** Export and import *)

Section service.
Context {DB : Type} `{FeltDB DB}.
Variable authority : option (ServiceGateway DB).
Variable declarations : list ConfigurationDeclaration.
(** The sibling services, where they are mounted; the schedule service's own
    gateway comes with its job service. *)
Variable webhooks : option (WebhookPlatform DB * WebhookService DB).
Variable schedules : option (JobService DB * option (ServiceGateway DB)).
Variable localeLe : string -> string -> bool.
Variable VERSION : string.
Variable stringify : jsval -> string.
Variable jsonParse : string -> option jsval.
Variable stringOfValue : jsval -> string.
(** [String(error.code)] of an [Error] of another package that has one. *)
Variable foreignCode : exn -> option string.

Definition stableJson (v : jsval) : string := stringify (sortKeys v).

Definition byKey {A} (key : A -> string) (a b : A) : bool := localeLe (key a) (key b).

Definition errorOf (error : exn) : string * string :=
  (match error with
   | ServiceAuthorityError code _ _ => codeName code
   | SecretError code _ => code
   | _ => orElse (foreignCode error) "IMPORT_FAILED"
   end, errorMessage error).

(** Endpoints of the caller's tenant and this application. *)
Definition readEndpoints (g : ServiceGateway DB) (principal : VerifiedPrincipal) : M DB (list WebhookEndpoint) :=
  execute g "webhooks.read" (CVerified principal) (mkResource "webhook_endpoint" (vp_tenantId principal) None None)
    (mkOptions "webhook_endpoint" None None None)
    (fun context _ =>
       l ← listWebhookEndpoints (vp_tenantId principal);
       mret (List.filter (fun e => oeqb (we_applicationId e) (Some (x_application context))) l)).

Definition exportVariable (v : ConfigurationVariableView) : ConfigurationExportVariable :=
  mkExportVariable (vv_name v) (vv_value v) (vv_required v).

Definition exportSecret (b : ConfigurationSecretView) : ConfigurationExportSecret :=
  mkExportSecret (vb_name b) (vb_required b) (vb_credentialRef b).

Definition exportEndpoint (e : WebhookEndpoint) : ConfigurationExportWebhookEndpoint :=
  mkExportEndpoint (we_url e) (sortBy String.leb (we_events e)) (ifPresent (we_signingCredentialRef e)).

Definition exportSchedule (s : JobSchedule) : ConfigurationExportSchedule :=
  mkExportSchedule (s_type s) (s_interval s) (payloadOf (s_payload s)).

Definition isActive (e : WebhookEndpoint) : bool := negb (present (we_disabledAt e)).

Definition exportConfiguration (options : ConfigurationExportOptions) : M DB ConfigurationExportDocument :=
  principal ← ofOutcome (requireVerifiedPrincipal (xo_principal options));
  environment ← ofOutcome (requireEnvironment match xo_environment options with JUndef | JNull => JStr "production" | e => e end);
  g ← ofOutcome (configGateway authority);
  list ← listConfiguration authority declarations (environmentScope environment []) (CVerified principal);
  endpoints ← match webhooks with Some _ => readEndpoints g principal | None => mret [] end;
  scheduled ← match schedules with
    | Some (jobs, gateway) => sc_list gateway (vp_tenantId principal) (CVerified principal) None
    | None => mret []
    end;
  exportedAt ← nowIso;
  mret (mkDocument exportedAt (g_application g) environment VERSION
          (sortBy (byKey xv_name) (map exportVariable (li_variables list)))
          (sortBy (byKey xs_name) (map exportSecret (li_secrets list)))
          (sortBy (byKey xe_url) (map exportEndpoint (List.filter isActive endpoints)))
          (sortBy (byKey (fun s => scheduleKey (xc_type s) (xc_interval s)))
             (map exportSchedule (List.filter s_enabled scheduled)))).

(** An item is written unless this is a dry run or there is nothing to write;
    a failure is reported with it. *)
Definition applyItem (dryRun : bool) (item : ConfigurationImportItem) (write : M DB unit) : M DB ConfigurationImportItem :=
  if dryRun || negb (bool_decide (it_action item = ACreate) || bool_decide (it_action item = AUpdate)) then mret item
  else tryCatch (_ ← write; mret (item <| it_applied := true |>))
         (fun error => mret (item <| it_error := Some (errorOf error) |>)).

Fixpoint applyItems (dryRun : bool) (plan : list (ConfigurationImportItem * M DB unit)) : M DB (list ConfigurationImportItem) :=
  match plan with
  | [] => mret []
  | (item, write) :: rest =>
      done ← applyItem dryRun item write;
      more ← applyItems dryRun rest;
      mret (done :: more)
  end.

Definition nothing : M DB unit := mret tt.

Definition ignoring {A} (m : M DB A) : M DB unit := _ ← m; mret tt.

Definition planVariable (overwrite : bool) (environment : ConfigurationEnvironment) (principal : VerifiedPrincipal)
  (current : ConfigurationList) (v : ConfigurationExportVariable) : ConfigurationImportItem * M DB unit :=
  let input := variableInput environment v in
  match lastBy vb_name (li_secrets current) (xv_name v) with
  | Some _ => (planned KVariable (xv_name v) AConflict (Some "the target binds this name to a credential"), nothing)
  | None =>
      match lastBy vv_name (li_variables current) (xv_name v) with
      | None => (planned KVariable (xv_name v) ACreate None, ignoring (createVariable authority input (CVerified principal)))
      | Some existing =>
          if String.eqb (vv_value existing) (xv_value v) && Bool.eqb (vv_required existing) (xv_required v) then
            (planned KVariable (xv_name v) AUnchanged None, nothing)
          else if negb overwrite then
            (planned KVariable (xv_name v) AConflict (Some "the target has a different value or required flag"), nothing)
          else (planned KVariable (xv_name v) AUpdate None, ignoring (updateVariable authority input (CVerified principal)))
      end
  end.

(** A credential lives in an environment's custody: an import never attaches one. *)
Definition planSecret (current : ConfigurationList) (s : ConfigurationExportSecret) : ConfigurationImportItem :=
  match lastBy vv_name (li_variables current) (xs_name s) with
  | Some _ => planned KSecret (xs_name s) AConflict (Some "the target uses this name for a variable")
  | None =>
      match lastBy vb_name (li_secrets current) (xs_name s) with
      | Some existing =>
          planned KSecret (xs_name s) AUnchanged
            (if String.eqb (vb_credentialRef existing) (xs_credentialRef s) then None
             else Some "bound in the target to its own credential reference")
      | None => planned KSecret (xs_name s) AMissing (Some "attach the credential in the target with credential.attach")
      end
  end.

Definition missingSecrets (current : ConfigurationList) (l : list ConfigurationExportSecret) : list ConfigurationMissingSecret :=
  map (fun s => mkMissingSecret (xs_name s) (xs_required s) (xs_credentialRef s))
    (List.filter (fun s => bool_decide (it_action (planSecret current s) = AMissing)) l).

(** Endpoints are immutable: replacing one registers the new subscription and
    disables the old one. *)
Definition planEndpoint (overwrite : bool) (principal : VerifiedPrincipal) (pf : WebhookPlatform DB) (hooks : WebhookService DB)
  (endpoints : list WebhookEndpoint) (e : ConfigurationExportWebhookEndpoint) : ConfigurationImportItem * M DB unit :=
  let existing := List.find (fun c => String.eqb (we_url c) (xe_url e)) endpoints in
  let events := sortBy String.leb (xe_events e) in
  let sameEvents := match existing with Some c => sameList (sortBy String.leb (we_events c)) events | None => false end in
  let signingCredentialRef := orElseOpt (xe_signingCredentialRef e)
        match existing with Some c => we_signingCredentialRef c | None => None end in
  if sameEvents then (planned KWebhookEndpoint (xe_url e) AUnchanged None, nothing)
  else match ifPresent signingCredentialRef with
       | None => (planned KWebhookEndpoint (xe_url e) ASkip
                    (Some "exported without a signing credential reference; register it with one"), nothing)
       | Some ref =>
           let create := createWebhookEndpoint pf hooks (endpointInput (xe_url e) events ref) (CVerified principal) in
           match existing with
           | None => (planned KWebhookEndpoint (xe_url e) ACreate None, ignoring create)
           | Some c =>
               if negb overwrite then
                 (planned KWebhookEndpoint (xe_url e) AConflict (Some "the target endpoint subscribes to different events"), nothing)
               else (planned KWebhookEndpoint (xe_url e) AUpdate (Some "registers a new endpoint and disables the old one"),
                     _ ← create;
                     ignoring (disableWebhookEndpoint hooks (mkDisableEndpoint None (we_id c) []) (CVerified principal)))
           end
       end.

(** [for (const replaced of sameSlot) await scheduler.disable(...)] *)
Fixpoint disableEach (jobs : JobService DB) (principal : VerifiedPrincipal) (l : list JobSchedule) : M DB unit :=
  match l with
  | [] => mret tt
  | s :: rest => _ ← sc_disable jobs (vp_tenantId principal) (s_id s) (CVerified principal); disableEach jobs principal rest
  end.

Definition planSchedule (overwrite : bool) (principal : VerifiedPrincipal) (jobs : JobService DB)
  (current : list JobSchedule) (s : ConfigurationExportSchedule) : ConfigurationImportItem * M DB unit :=
  let key := scheduleKey (xc_type s) (xc_interval s) in
  let sameSlot := List.filter (fun c => String.eqb (scheduleKey (s_type c) (s_interval c)) key) current in
  let create := sc_create jobs (scheduleInput s) (CVerified principal) in
  if existsb (fun c => String.eqb (stableJson (JObj (payloadOf (s_payload c)))) (stableJson (JObj (xc_payload s)))) sameSlot then
    (planned KSchedule key AUnchanged None, nothing)
  else match sameSlot with
       | [] => (planned KSchedule key ACreate None, ignoring create)
       | _ =>
           if negb overwrite then
             (planned KSchedule key AConflict (Some "the target has this schedule with a different payload"), nothing)
           else (planned KSchedule key AUpdate (Some "creates the schedule and cancels the one it replaces"),
                 _ ← create; disableEach jobs principal sameSlot)
       end.

(** What is planned against the target as it was read. *)
Definition planItems (overwrite : bool) (environment : ConfigurationEnvironment) (principal : VerifiedPrincipal)
  (current : ConfigurationList) (endpoints : list WebhookEndpoint) (scheduled : list JobSchedule)
  (document : ConfigurationExportDocument) : list (ConfigurationImportItem * M DB unit) :=
  map (planVariable overwrite environment principal current) (xd_variables document)
  ++ map (fun s => (planSecret current s, nothing)) (xd_secrets document)
  ++ match webhooks with
     | Some (pf, hooks) => map (planEndpoint overwrite principal pf hooks endpoints) (xd_webhookEndpoints document)
     | None => map (fun e => (planned KWebhookEndpoint (xe_url e) ASkip (Some "webhooks are not mounted in the target"), nothing))
                 (xd_webhookEndpoints document)
     end
  ++ match schedules with
     | Some (jobs, _) => map (planSchedule overwrite principal jobs scheduled) (xd_schedules document)
     | None => map (fun s => (planned KSchedule (scheduleKey (xc_type s) (xc_interval s)) ASkip
                                (Some "schedules are not mounted in the target"), nothing)) (xd_schedules document)
     end.

(** The target as it is now: its configuration, active endpoints and enabled
    schedules, each read only where the document has some. *)
Definition readTarget (g : ServiceGateway DB) (environment : ConfigurationEnvironment) (principal : VerifiedPrincipal)
  (document : ConfigurationExportDocument) : M DB (ConfigurationList * list WebhookEndpoint * list JobSchedule) :=
  current ← listConfiguration authority declarations (environmentScope environment []) (CVerified principal);
  endpoints ← match webhooks, xd_webhookEndpoints document with
    | Some _, _ :: _ => l ← readEndpoints g principal; mret (List.filter isActive l)
    | _, _ => mret []
    end;
  scheduled ← match schedules, xd_schedules document with
    | Some (_, gateway), _ :: _ =>
        l ← sc_list gateway (vp_tenantId principal) (CVerified principal) None; mret (List.filter s_enabled l)
    | _, _ => mret []
    end;
  mret (current, endpoints, scheduled).

Definition importConfiguration (input : jsval) (options : ConfigurationImportOptions) : M DB ConfigurationImportReport :=
  principal ← ofOutcome (requireVerifiedPrincipal (mo_principal options));
  document ← ofOutcome (parseExportDocument jsonParse stringOfValue input);
  environment ← ofOutcome (requireEnvironment match mo_environment options with
      | JUndef | JNull => JStr (environmentName (xd_environment document)) | e => e end);
  let dryRun := isTrue (mo_dryRun options) in
  let overwrite := isTrue (mo_overwrite options) in
  g ← ofOutcome (configGateway authority);
  '(current, endpoints, scheduled) ← readTarget g environment principal document;
  items ← applyItems dryRun (planItems overwrite environment principal current endpoints scheduled document);
  mret (mkImportReport dryRun overwrite environment items (summarizeItems items)
          (missingSecrets current (xd_secrets document))).
End service.
