(* ===== verification/Worker.v ===== *)
(** * Worker: the polling worker ([jobs/worker.ts])

    The worker interleaves: polls ([work()] loops), the listing each of them
    awaits, and the executions it started without waiting for them.  Its state
    is [WorkerState]; what can happen next is the relation [step]. *)

From S2P Require Import Prelude.
From Stdlib Require Import ZArith Lia.

Definition DEFAULT_CONCURRENCY : nat := 10.
Definition DEFAULT_POLL_INTERVAL_MS : nat := 5000.

(** [wk_loops]: the [work()] loops awaiting [listDue]; [wk_timer]: whether the
    timer in [pollTimer] is pending; [wk_stale]: pending timers that
    [pollTimer] no longer refers to. *)
Record WorkerState := mkWorker {
  wk_running : bool;
  wk_activeJobs : nat;
  wk_loops : nat;
  wk_timer : bool;
  wk_stale : nat }.

#[global] Instance WorkerState_eta : Eta WorkerState := fun r =>
  mkWorker (wk_running r) (wk_activeJobs r) (wk_loops r) (wk_timer r) (wk_stale r).

Definition initial : WorkerState := mkWorker false 0 0 false 0.

Section worker.
Variable concurrency : nat.

(** [while (this.running && this.activeJobs < this.concurrency)] *)
Definition mayWork (s : WorkerState) : bool := wk_running s && Nat.ltb (wk_activeJobs s) concurrency.

(** A loop that ended; the timer [pollTimer] held before is forgotten. *)
Definition scheduleNextPoll (s : WorkerState) : WorkerState :=
  if wk_running s
  then s <| wk_timer := true |> <| wk_stale := (wk_stale s + (if wk_timer s then 1 else 0))%nat |>
  else s.

(** The head of the loop, reached by [poll] and after a job was started:
    the loop awaits [listDue], or ends. *)
Definition workHead (s : WorkerState) : WorkerState :=
  if mayWork s then s <| wk_loops := S (wk_loops s) |> else scheduleNextPoll s.

Definition poll (s : WorkerState) : WorkerState := if wk_running s then workHead s else s.

Definition start (s : WorkerState) : WorkerState :=
  if wk_running s then s else poll (s <| wk_running := true |>).

Definition stop (s : WorkerState) : WorkerState :=
  s <| wk_running := false |> <| wk_timer := false |>.

(** [listDue] answered with a job: it is started, not awaited, and the loop
    goes on. *)
Definition startJob (s : WorkerState) : WorkerState :=
  workHead (s <| wk_loops := pred (wk_loops s) |> <| wk_activeJobs := S (wk_activeJobs s) |>).

Inductive workStep : WorkerState -> WorkerState -> Prop :=
| ws_stop s : workStep s (stop s)
| ws_timer s : wk_timer s = true -> workStep s (poll (s <| wk_timer := false |>))
| ws_stale s : (0 < wk_stale s)%nat -> workStep s (poll (s <| wk_stale := pred (wk_stale s) |>))
(** [listDue] answered with no job, or threw. *)
| ws_idle s : (0 < wk_loops s)%nat -> workStep s (scheduleNextPoll (s <| wk_loops := pred (wk_loops s) |>))
| ws_job s : (0 < wk_loops s)%nat -> workStep s (startJob s)
(** A started execution settled. *)
| ws_settled s : (0 < wk_activeJobs s)%nat -> workStep s (s <| wk_activeJobs := pred (wk_activeJobs s) |>).

Inductive step : WorkerState -> WorkerState -> Prop :=
| step_start s : step s (start s)
| step_work s s' : workStep s s' -> step s s'.

Inductive reachable : WorkerState -> Prop :=
| reach_initial : reachable initial
| reach_step s s' : reachable s -> step s s' -> reachable s'.

(** The states of a worker that was started once. *)
Inductive startedOnce : WorkerState -> Prop :=
| once_start : startedOnce (start initial)
| once_step s s' : startedOnce s -> workStep s s' -> startedOnce s'.

(** One chain of polls: at most one loop or timer, and a loop has room for
    the job it may start. *)
Definition oneChain (s : WorkerState) : Prop :=
  (wk_loops s + (if wk_timer s then 1 else 0) + wk_stale s <= 1)%nat /\
  (wk_activeJobs s + wk_loops s <= concurrency)%nat.

Lemma scheduleNextPoll_chain s :
  (wk_loops s + (if wk_timer s then 1 else 0) + wk_stale s = 0)%nat ->
  (wk_activeJobs s + wk_loops s <= concurrency)%nat -> oneChain (scheduleNextPoll s).
Proof. unfold oneChain, scheduleNextPoll. destruct (wk_running s), (wk_timer s) eqn:E; cbn; rewrite ?E; lia. Qed.

Lemma workHead_chain s :
  (wk_loops s + (if wk_timer s then 1 else 0) + wk_stale s = 0)%nat ->
  (wk_activeJobs s <= concurrency)%nat -> oneChain (workHead s).
Proof.
  intros Hs Ha. unfold workHead, mayWork.
  destruct (wk_running s); cbn [andb]; [destruct (Nat.ltb_spec (wk_activeJobs s) concurrency)|].
  - unfold oneChain. cbn. destruct (wk_timer s); lia.
  - apply scheduleNextPoll_chain; [exact Hs | lia].
  - apply scheduleNextPoll_chain; [exact Hs | lia].
Qed.

Lemma poll_chain s :
  (wk_loops s + (if wk_timer s then 1 else 0) + wk_stale s = 0)%nat ->
  (wk_activeJobs s <= concurrency)%nat -> oneChain (poll s).
Proof.
  intros Hs Ha. unfold poll. destruct (wk_running s) eqn:Er; [now apply workHead_chain|].
  unfold oneChain. lia.
Qed.

Lemma workStep_chain s s' : oneChain s -> workStep s s' -> oneChain s'.
Proof.
  intros [Hc Ha] Hs. destruct Hs as [s|s Ht|s Ht|s Hl|s Hl|s Hl].
  - unfold oneChain. cbn. destruct (wk_timer s); lia.
  - apply poll_chain; cbn; rewrite ?Ht in *; lia.
  - apply poll_chain; cbn; destruct (wk_timer s); lia.
  - apply scheduleNextPoll_chain; cbn; destruct (wk_timer s); lia.
  - apply workHead_chain; cbn; destruct (wk_timer s); lia.
  - unfold oneChain. cbn. lia.
Qed.

Lemma startedOnce_chain s : startedOnce s -> oneChain s.
Proof.
  induction 1 as [|s s' _ IH Hs]; [apply poll_chain; cbn; lia | exact (workStep_chain s s' IH Hs)].
Qed.

(** A worker that was started once runs at most [concurrency] jobs at a
    time, however its polls, listings and executions interleave. *)
Theorem worker_bound s : startedOnce s -> (wk_activeJobs s <= concurrency)%nat.
Proof. intros Hs. apply startedOnce_chain in Hs as [_ Ha]. lia. Qed.
End worker.

(** Stopping and starting a worker while a listing is in flight leaves the
    old loop alive next to the new one: a worker of concurrency 1 can then run
    two jobs at once. *)
Theorem worker_restart_exceeds : exists s, reachable 1 s /\ wk_activeJobs s = 2%nat.
Proof.
  set (s1 := start 1 initial). set (s2 := stop s1). set (s3 := start 1 s2).
  set (s4 := startJob 1 s3). exists (startJob 1 s4). split; [|reflexivity].
  apply reach_step with s4; [|apply step_work, ws_job; cbn; lia].
  apply reach_step with s3; [|apply step_work, ws_job; cbn; lia].
  apply reach_step with s2; [|apply step_start].
  apply reach_step with s1; [|apply step_work, ws_stop].
  apply reach_step with initial; [apply reach_initial | apply step_start].
Qed.

Lemma worker_bound_witness :
  startedOnce 1 (startJob 1 (start 1 initial)) /\ (wk_activeJobs (startJob 1 (start 1 initial)) <= 1)%nat.
Proof.
  assert (startedOnce 1 (startJob 1 (start 1 initial))) as Hs.
  { apply once_step with (start 1 initial); [apply once_start | apply ws_job; cbn; lia]. }
  split; [exact Hs | exact (worker_bound 1 _ Hs)].
Defined.
