(* ===== verification/Demo.v ===== *)
(** * Demo: concrete worlds

    An in-memory store, a host whose AuthBoundry allows (or denies) every
    request, fixed clocks and readable identifiers.  The witnesses run the
    theorems of the development on these. *)

From S2P Require Import Prelude JsString JsTime Errors Models Store Calm MemStore Principal Manifest Evidence Gateway Rely GatewayFacts.
From Stdlib Require Import ZArith Lia Ascii.
Local Open Scope string_scope.
Local Open Scope Z_scope.

(** 2023-11-14T22:13:20.000Z *)
Definition demoTime : Z := 1700000000000.

(** Identifiers the demo draws: ["u"], ["ux"], ["uxx"], ... *)
Definition demoUuid (n : nat) : string := String "u" (tally n).

(** The [i]th bytes the demo draws: [n] times one letter. *)
Fixpoint demoBytes (i n : nat) : string :=
  match n with O => EmptyString | S n => String (ascii_of_nat (97 + i mod 26)) (demoBytes i n) end.

Lemma demoBytes_length i n : String.length (demoBytes i n) = n.
Proof. induction n as [|n IH]; cbn [demoBytes String.length]; congruence. Qed.

Definition demo (db : MemDB) : World MemDB :=
  mkWorld db [] (fun _ => demoTime) 0 (fun _ => demoTime) 0 demoUuid 0
    demoBytes 0 ∅ ∅ ∅ 0 0 [] (mkMem [] []).

(** No record has a key the demo may draw. *)
Definition unused (db : MemDB) : Prop :=
  forall n V (c : coll V), peek c (demoUuid n) db = None.

Lemma unused_empty : unused emptyDB.
Proof. intros n V c. destruct c; apply lookup_empty. Qed.

Lemma unused_put {V} (c : coll V) k x db :
  match k with String d _ => Ascii.eqb d "u" | EmptyString => false end = false ->
  unused db -> unused (memPut c k x db).
Proof.
  intros Hk Hdb n W c'. pose proof (memPut_changed c k x db) as (_ & _ & Hf).
  rewrite Hf; [apply Hdb|]. intros [= _ <-]. discriminate Hk.
Qed.

Lemma tally_inj m n : tally m = tally n -> m = n.
Proof. intros E. rewrite <- (tally_length m), <- (tally_length n), E. reflexivity. Qed.

Lemma demo_calm db : unused db -> calm (demo db).
Proof.
  intros Hdb. split; [|split; [|split]].
  - split; [reflexivity|]. split; [exact I|]. split.
    + intros i j [= E]. apply tally_inj, E.
    + cbn. intros m V c Hm. apply Hdb.
  - intros k. unfold timeBound. cbn. unfold demoTime. lia.
  - intros k. unfold timeBound. cbn. unfold demoTime. lia.
  - cbn. intros m Hm. apply lookup_empty.
Qed.

(** An AuthBoundry that answers every request with the same verdict. *)
Definition demoAnswer (allowed : bool) (rq : ServiceAuthorizationRequest) : M MemDB Answer :=
  mret (Decides (Some (mkDecision (JStr "d1") (JBool allowed) (JStr (rq_capability rq))
    (JStr (rq_tenant_id rq)) (JStr (rq_application_id rq)) (JStr (rq_subject_id rq)) (JStr (rq_uri rq)) None None))).

Definition demoGateway (allowed : bool) : ServiceGateway MemDB :=
  mkGateway "app" (Some (demoAnswer allowed)) NoCredentials 5000 [] (fun _ _ _ => mret tt).

Lemma demo_hostQuiet allowed : hostQuiet (demoGateway allowed).
Proof.
  split.
  - intros ask req w [= <-] Hc. now apply kept_refl.
  - intros p cap r w Hc. now apply kept_refl.
Qed.

(** The same host keeps every protocol. *)
Lemma demo_hostSafe allowed P : hostSafe (DB := MemDB) P (demoGateway allowed).
Proof. split; [intros ask rq [= <-]; apply safe_ret | intros p c r; apply safe_ret]. Qed.

Lemma demo_stable (P : Protocol MemDB) db :
  unused db -> invariant P db -> (forall n, drawable P (demoUuid n)) -> stable P (demo db).
Proof.
  intros Hdb Hi Hd. split; [exact I|]. split; [exact Hi|]. split; [|split; [constructor | exact Hd]].
  split; [intros i j [= E]; apply tally_inj, E | intros n V c _; apply Hdb].
Qed.

(** A denying AuthBoundry admits nobody. *)
Lemma demo_denies name caller r requestId c p :
  ~ admitted (demoGateway false) name caller r requestId c p.
Proof.
  intros (_ & _ & _ & _ & _ & _ & _ & d & ask & ts & w1 & w2 & [= <-] & [= _ <-] & _ & Hallow).
  discriminate Hallow.
Qed.

(** What is under a key of a store that was written to. *)
Lemma memPut_cases {V W} (c : coll V) (c' : coll W) k k' x db y :
  peek c k (memPut c' k' x db) = Some y -> (cname c, k) = (cname c', k') \/ peek c k db = Some y.
Proof.
  intros Hy. destruct (decide ((cname c, k) = (cname c', k'))) as [E|E]; [now left|]. right.
  now rewrite (changed_frame _ _ _ _ _ _ _ (memPut_changed c' k' x db) E) in Hy.
Qed.

Definition alice : VerifiedPrincipal :=
  mkPrincipal "alice" "user" "t1" (Some "app") None None None ByHost false.

Definition jobResource : ServiceResource := mkResource "job" "t1" None None.
