(* ===== verification/GatewayProps.v ===== *)
(** * GatewayProps: the properties of the policy enforcement point

    The claims about identity, authorization, evidence and credentials, each
    followed by a witness on a concrete host. *)

From S2P Require Import Prelude JsString JsTime Errors Models Store Calm MemStore Principal Manifest Bounded Evidence Gateway GatewayFacts Demo.
From Stdlib Require Import ZArith Lia Ascii.
Local Open Scope string_scope.
Local Open Scope Z_scope.

Section claims.
Context {DB : Type} `{FeltDBLaws DB}.
Variable g : ServiceGateway DB.

(** C1: Nothing runs without authority.  Unless the gateway admits the
    request (a declared capability on its own resource type, a verified
    principal of the resource's tenant and of this application, a live
    credential, and a matching AuthBoundry decision that allows it), the
    operation throws, with one and the same result whatever the effect is. *)
Theorem effect_needs_authority {T} name caller r options (w : World DB) :
  (forall requestId c p, ~ admitted g name caller r requestId c p) ->
  exists w' e, forall f : ServiceExecutionContext -> EffectTools -> M DB T,
    execute g name caller r options f w = (w', Throw e).
Proof.
  intros Hno. set (idle := fun (_ : ServiceExecutionContext) (_ : @EffectTools DB) => @throw DB T invalidDate).
  destruct (execute g name caller r options idle w) as [w' [a|e]] eqn:E.
  - apply execute_ok in E as (rid & c & p & x & w1 & st & Hi & _).
    exfalso. exact (Hno rid c p (is_admitted _ _ _ _ _ _ _ _ Hi)).
  - exists w', e. intros f. rewrite <- E. now apply execute_gate.
Qed.

(** The effect runs in a world that holds its [started] row, and may do
    anything but touch that row and name a malformed credential. *)
Definition wellBehaved {T} (options : ExecuteOptions) (f : ServiceExecutionContext -> EffectTools -> M DB T) : Prop :=
  forall x id startedAt w1,
    let row := evidenceFor x options id startedAt Started in
    calm w1 -> resolvedRefs id w1 = [] -> peek CEvidence id (w_db w1) = Some row ->
    wp (f x (toolsFor g x options id)) (fun o w2 => calm w2 /\ after w1 w2 /\
      peek CEvidence id (w_db w2) = Some row /\
      (o_credentialRef options = None -> cleanRef (refUpdate options (resolvedRefs id w2)))) w1.

(** What an operation leaves: a refusal, with nothing written but evidence
    of it; or an effect that ran under the admitted context, its row written
    before it started and finished with its outcome after it ended. *)
Definition bracketed {T} name caller r options (f : ServiceExecutionContext -> EffectTools -> M DB T)
  (w : World DB) (o : outcome T) (w' : World DB) : Prop :=
  (exists e, o = Throw e /\ onlyRefusal (w_db w) (w_db w')) \/
  exists requestId c p x id startedAt w1 w2 row,
    issuedFor g name caller r requestId c p x /\ peek CEvidence id (w_db w) = None /\
    changed CEvidence id (Some (evidenceFor x options id startedAt Started)) (w_db w) (w_db w1) /\
    f x (toolsFor g x options id) w1 = (w2, o) /\
    finished x options id startedAt o row /\ changed CEvidence id (Some row) (w_db w2) (w_db w').

(** C2: Evidence brackets every effect.  An operation is refused, and then
    the store holds at most one new row that records the refusal; or it was
    admitted, its effect ran on exactly the context the gate issued, after a
    [started] row was written, its result is passed on unchanged, and that
    row ends as [succeeded], [provider_error], [denied] or [failed]
    accordingly. *)
Theorem execute_brackets {T} name caller r options (f : ServiceExecutionContext -> EffectTools -> M DB T) w :
  calm w -> hostQuiet g -> wellBehaved options f ->
  wp (execute g name caller r options f) (bracketed name caller r options f w) w.
Proof.
  intros Hc Hhost Hf. eapply wp_mono.
  - apply (execute_spec g name caller r options f
      (fun x id startedAt o w2 => exists w1, peek CEvidence id (w_db w) = None /\
         changed CEvidence id (Some (evidenceFor x options id startedAt Started)) (w_db w) (w_db w1) /\
         peek CEvidence id (w_db w2) = Some (evidenceFor x options id startedAt Started) /\
         f x (toolsFor g x options id) w1 = (w2, o))); [exact Hc | exact Hhost|].
    intros requestId c p x id startedAt w1 Hi Hc1 Hl1 Hnil Hn Hch.
    pose proof (Hf x id startedAt w1 Hc1 Hnil (changed_hit _ _ _ _ _ Hch)) as Hw.
    unfold wp in *. destruct (f x (toolsFor g x options id) w1) as [w2 o] eqn:E. cbn in *. destruct Hw as (? & ? & ? & ?).
    do 4 (split; [assumption|]). exists w1. auto.
  - intros o w' (_ & _ & [Href|(rid & c & p & x & id & st & w2 & row & Hi & (w1 & Hn & Hch1 & Hrow & Hrun) & Hfin & _ & Hch)]).
    + left. exact Href.
    + right. exists rid, c, p, x, id, st, w1, w2, row. auto 10.
Qed.

(** A durable principal is an identity exactly when evidence says so.
    Attestation succeeds if and only if the store holds an allow row of the
    named decision, of this application, with the principal's own tenant,
    id, type and delegation, for one of the creating capabilities, whose
    effect started or succeeded; otherwise it is [DENIED].  It changes
    nothing. *)
Theorem attest_exact durable caps (w : World DB) :
  quiet w ->
  exists o, attest g durable caps w = (w, o) /\
    (o = Ok tt <-> attestedBy g durable caps (w_db w)) /\
    (o <> Ok tt -> exists e, o = Throw e /\ hasCode DENIED e = true).
Proof.
  intros Hq. destruct (proj1 (wp_run _ _ _) (attest_spec g durable caps w Hq)) as (o & w' & Ho & -> & Hiff & Hd).
  exists o. split; [exact Ho|]. split; [exact Hiff|].
  destruct o as [[]|e]; [congruence | eauto].
Qed.

(** An execution context is used once.  Whoever presents a context that
    was consumed before, with the same capability and tenant and at any
    later time, is [DENIED]. *)
Theorem context_single_use value cap tenant (w w' w2 : World DB) x :
  consumeExecutionContext value cap tenant w = (w', Ok x) ->
  x_identity x ∈ w_consumed w' /\
  (x_identity x ∈ w_consumed w2 ->
   exists w3 e, consumeExecutionContext value cap tenant w2 = (w3, Throw e) /\ hasCode DENIED e = true).
Proof.
  intros E. split; [|intros Hc; eapply consume_once; eassumption].
  unfold consumeExecutionContext in E. inv_run. destruct (a1 : bool); [inv_run|].
  inv_run. injection Hm2 as <-. left.
Qed.

(** Credentials stay behind their authorization.  When the reference is
    not the one the context was authorized for, or the context has expired,
    the operation is [DENIED] and the host's custody is not called. *)
Theorem credential_needs_context {T} x ref purpose (use : ResolvedSecret -> M DB T) provider w :
  attribute (x_resource x) "credentialRef" <> Some ref \/
    dateLe (x_expiresAt x) (w_clock w (w_tick w)) = true ->
  exists e, withCredential g (Issued x) ref purpose use provider w
    = (w <| w_tick := S (w_tick w) |>, Throw e) /\ hasCode DENIED e = true.
Proof. apply withCredential_unauthorized. Qed.
End claims.

(** The identifier AuthBoundry decides on names one resource: equal
    identifiers come from the same application, tenant, type and id. *)
Theorem resource_identifier_injective app app' r r' :
  resourceUri app r = resourceUri app' r' ->
  app = app' /\ r_tenantId r = r_tenantId r' /\ r_type r = r_type r' /\
  orElse (r_id r) "*" = orElse (r_id r') "*".
Proof. apply resourceUri_inj. Qed.

(** What leaves a failed custody write is text of this program: whatever
    the host threw, the error that reaches the caller carries one of a fixed
    list of messages, the capability, and at most a short snake_case reason. *)
Theorem custody_failure_fixed error cap :
  exists c m reason,
    mapCredentialFailure error cap true = ServiceAuthorityError c m (mkDetails (Some cap) None reason) /\
    In m custodyMessages /\ match reason with Some r => safeCode r = true | None => True end.
Proof. apply mapCredentialFailure_fixed. Qed.

(** Evidence carries no credential material: a record the guard accepts has
    no text field that looks like a key, a bearer token or a private key, no
    field named like a secret, and a [credentialRef] only of the reference
    form. *)
Theorem evidence_guard entries key value :
  assertEvidenceHasNoSecrets entries = Ok tt -> In (key, JStr value) entries ->
  secretValue value = false /\
  (key = "credentialRef" -> startsWith value "credential-ref:" = true) /\
  (key <> "credentialRef" -> key <> "credentialVersion" -> secretKey key = false).
Proof. apply guard_sound. Qed.

(** The evidence of a run is read completely and in order.  The lookup of a
    run id ends, changes nothing, and returns the application's rows of that
    run (of that tenant, when one is given), sorted by start time and id, at
    most [limit] of them, marked truncated exactly when there are more; a run
    counts as failed exactly when one of them failed, and as completed only
    when all of them did. *)
Theorem run_evidence_complete {DB} `{FeltDBLaws DB} localeLe application runId limit tenantId (w : World DB) :
  (forall a b, localeLe a b = false -> localeLe b a = true) ->
  quiet w -> application <> "" -> runId <> "" -> 1 <= limit <= 1000 ->
  exists l k, findByRunId localeLe application runId (JInt limit) tenantId w = (w, Ok k) /\
    enumerates CEvidence (runMatches runId (Some application) tenantId) (w_db w) l /\
    lookupOf localeLe runId (Z.to_nat limit) l k /\
    (lk_state k = Some EFailed <-> In EFailed (map snd (lk_records k))) /\
    (lk_state k = Some ECompleted ->
       lk_records k <> [] /\ forall s, In s (map snd (lk_records k)) -> s = ECompleted).
Proof.
  intros Htot Hq Happ Hrun Hlim.
  pose proof (lookupRun_spec localeLe application runId limit tenantId w Htot Hq Happ ltac:(lia)) as Hw.
  apply wp_run in Hw as (o & w' & Ho & -> & l & k & -> & Hl & Hk).
  exists l, k. unfold findByRunId. rewrite (proj2 (truthy_spec runId) Hrun). cbn [negb].
  replace (limit <? 1) with false by (symmetry; apply Z.ltb_ge; lia).
  replace (MAX_EVIDENCE_LOOKUP_LIMIT <? limit) with false
    by (symmetry; apply Z.ltb_ge; unfold MAX_EVIDENCE_LOOKUP_LIMIT; lia). cbn [orb].
  split; [exact Ho|]. split; [exact Hl|]. split; [exact Hk|].
  destruct Hk as (_ & _ & _ & -> & _). pose proof (aggregateState_spec (map snd (lk_records k))) as (_ & Hf & Hc).
  split; [exact Hf|]. intros Hs. apply Hc in Hs as [Hne Hall]. split; [|exact Hall].
  intros E. apply Hne. now rewrite E.
Qed.

(** Callers do not choose identities.  Whatever untyped fields an input
    carries, it is accepted only if every actor field is absent or names the
    verified principal itself, there is no principal, and scopes are absent or
    empty. *)
Theorem caller_is_the_principal input p :
  rejectCallerActor input p = Ok tt <->
  (forall field, In field ACTOR_FIELDS ->
     getField input field = JUndef \/ getField input field = JStr (vp_principalId p)) /\
  getField input "principal" = JUndef /\
  (getField input "scopes" = JUndef \/ getField input "scopes" = JArr []).
Proof. apply rejectCallerActor_ok. Qed.

(** The manifest is one function of names.  Whatever the host's collation
    does to its order, looking a name up in it gives the table's entry of that
    name, and every entry of the table requires authorization. *)
Theorem manifest_lookup localeLe name :
  byName localeLe name = getServiceCapability name /\
  (forall c, getServiceCapability name = Some c -> c_name c = name /\ c_required c = true).
Proof.
  split; [apply byName_find|]. intros c Hc. apply getServiceCapability_in in Hc as [Hin Hn].
  split; [exact Hn | apply (ENTRIES_required c Hin)].
Qed.

(** ** Witnesses *)

Definition demoEffect : ServiceExecutionContext -> @EffectTools MemDB -> M MemDB unit :=
  fun _ _ => throw (ServiceAuthorityError PROVIDER_ERROR "down" noDetails).

Lemma effect_needs_authority_witness :
  exists w' e, forall f : ServiceExecutionContext -> @EffectTools MemDB -> M MemDB nat,
    execute (demoGateway false) "jobs.create" (CVerified alice) jobResource (mkOptions "jobs" None None None) f (demo emptyDB)
    = (w', Throw e).
Proof.
  apply (effect_needs_authority (demoGateway false)). intros requestId c p. apply demo_denies.
Defined.

Lemma execute_brackets_witness :
  let options := mkOptions "jobs" None None None in
  wp (execute (demoGateway true) "jobs.create" (CVerified alice) jobResource options demoEffect)
    (bracketed (demoGateway true) "jobs.create" (CVerified alice) jobResource options demoEffect (demo emptyDB))
    (demo emptyDB).
Proof.
  intros options. apply (execute_brackets (demoGateway true)).
  - apply demo_calm, unused_empty.
  - apply demo_hostQuiet.
  - intros x id startedAt w1 row Hc Hnil Hrow. apply wp_throw. split; [exact Hc|]. split; [reflexivity|].
    split; [exact Hrow|]. rewrite Hnil. intros _; exact I.
Defined.

Definition demoRow : EffectEvidence :=
  mkEvidence "e1" "app" "t1" "alice" "user" None (Some "run-1") "jobs.create" 1 "appport://app/tenants/t1/job/*" Allow
    (Some "d1") None None "jobs" None "r1" "2023-11-14T22:13:20.000Z" None Succeeded None 1.

Definition demoEvidenceDB : MemDB := memPut CEvidence "e1" demoRow emptyDB.

Lemma demoEvidence_calm : calm (demo demoEvidenceDB).
Proof. apply demo_calm, unused_put; [reflexivity | apply unused_empty]. Qed.

Lemma attest_exact_witness :
  let durable := Some (mkDurable "alice" "user" "t1" (Some "app") None None (Some "d1")) in
  exists o, attest (demoGateway true) durable ["jobs.create"] (demo demoEvidenceDB) = (demo demoEvidenceDB, o) /\
    o = Ok tt /\ attestedBy (demoGateway true) durable ["jobs.create"] demoEvidenceDB.
Proof.
  intros durable.
  destruct (attest_exact (demoGateway true) durable ["jobs.create"] (demo demoEvidenceDB)) as (o & Ho & Hiff & _);
    [apply calm_quiet, demoEvidence_calm|].
  exists o. split; [exact Ho|]. vm_compute in Ho. injection Ho as <-. split; [reflexivity|].
  apply Hiff. reflexivity.
Defined.

Definition demoContext : ServiceExecutionContext :=
  mkContext 7 "app" "t1" alice "credential.status" 1 "r1"
    (mkResource "credential" "t1" None (Some {[ "credentialRef" := "credential-ref:a" ]})) "uri"
    (mkAuthorization "d1" "2023-11-14T22:13:20.000Z" None None) "2023-11-14T22:14:20.000Z".

Lemma context_single_use_witness :
  let w := demo emptyDB in
  let once := consumeExecutionContext (Issued demoContext) "credential.status" (Some "t1") w in
  exists w3 e, consumeExecutionContext (Issued demoContext) "credential.status" (Some "t1") once.1 = (w3, Throw e) /\
    hasCode DENIED e = true.
Proof.
  intros w once.
  destruct (context_single_use (Issued demoContext) "credential.status" (Some "t1") w once.1 once.1 demoContext) as [Hin Hno];
    [vm_compute; reflexivity|].
  apply Hno, Hin.
Defined.

Lemma credential_needs_context_witness :
  exists e, withCredential (demoGateway true) (Issued demoContext) "credential-ref:b" "use" (fun _ => mret tt) None (demo emptyDB)
    = (demo emptyDB <| w_tick := 1%nat |>, Throw e) /\ hasCode DENIED e = true.
Proof.
  apply (credential_needs_context (demoGateway true)). left. vm_compute. discriminate.
Defined.

Lemma resource_identifier_injective_witness :
  let r := mkResource "job" "t/1" (Some "a b") None in
  r_tenantId r = r_tenantId (mkResource "job" "t/1" (Some "a b") (Some ∅)).
Proof.
  intros r.
  destruct (resource_identifier_injective "app" "app" r (mkResource "job" "t/1" (Some "a b") (Some ∅)) eq_refl)
    as (_ & Ht & _).
  exact Ht.
Defined.

Lemma evidence_guard_witness : secretValue "credential-ref:stripe" = false.
Proof.
  apply (evidence_guard [("credentialRef", JStr "credential-ref:stripe")] "credentialRef"); [reflexivity | left; reflexivity].
Defined.

Lemma run_evidence_complete_witness :
  exists l k, findByRunId strLe "app" "run-1" (JInt 10) None (demo demoEvidenceDB) = (demo demoEvidenceDB, Ok k) /\
    enumerates CEvidence (runMatches "run-1" (Some "app") None) demoEvidenceDB l /\
    lookupOf strLe "run-1" 10 l k /\ lk_state k = Some ECompleted.
Proof.
  destruct (run_evidence_complete strLe "app" "run-1" 10 None (demo demoEvidenceDB)) as (l & k & Hk & Hl & Hlook & _).
  - intros a b. unfold strLe, String.leb. rewrite String.compare_antisym. destruct (String.compare b a); cbn; congruence.
  - apply calm_quiet, demoEvidence_calm.
  - discriminate.
  - discriminate.
  - lia.
  - exists l, k. split; [exact Hk|]. split; [exact Hl|]. split; [exact Hlook|].
    vm_compute in Hk. injection Hk as <-. reflexivity.
Defined.
