(* ===== verification/KeyProps.v ===== *)
(** * KeyProps: the properties of API keys

    The claims about [api-keys/], each followed by a witness on an in-memory
    store. *)

From S2P Require Import Prelude JsString Encoding JsTime Errors Models Store Calm MemStore Principal Manifest Restrictions Evidence Gateway GatewayFacts ApiKeys ApiKeysFacts KeyLifecycle KeyAuth Demo.
From Stdlib Require Import ZArith Lia Ascii Sorting.Sorted.
Local Open Scope string_scope.
Local Open Scope Z_scope.

Section claims.
Context {DB : Type} `{FeltDBLaws DB}.
Variable scrypt : string -> string -> nat -> string.
Variable hmac : string -> string -> string.
Variable localeLe : string -> string -> bool.
Variable stringOfValue : jsval -> string.
Variable otherDate : string -> option Z.
Variable s : ApiKeyService DB.
Variable g : ServiceGateway DB.
Implicit Types w : World DB.

(** A key service in a quiet world: its gateway, its store, its entropy. *)
Definition serving w : Prop :=
  av_authority s = Some g /\ hostQuiet g /\ calm w /\ entropyOk w /\ keyed (w_db w).

(** [k] permits no request that [parent] denies, and does not outlive it. *)
Definition narrower (k parent : ApiKey) : Prop :=
  (forall capability resource, restrictionsPermit (k_restrictions k) capability resource = true ->
     restrictionsPermit (k_restrictions parent) capability resource = true) /\
  (forall limit, k_expiresAt parent = Some limit -> limit <> "" ->
   exists e, k_expiresAt k = Some e /\ e <> "" /\ strGt e limit = false).

Lemma within_narrower w p cid k :
  vp_verifiedBy p = ByApiKey -> vp_credentialId p = Some cid -> cid <> "" ->
  within w p (k_restrictions k) (k_expiresAt k) -> exists parent, peek CKeys cid (w_db w) = Some parent /\ narrower k parent.
Proof.
  intros Hv Hcid Hne Hw. destruct (Hw Hv cid Hcid Hne) as (parent & Hp & Hr & Ho). exists parent.
  split; [exact Hp|]. split; [intros c r; now apply restrictionsWithin_sound|].
  intros limit Hl Hlne. unfold outlives, ifPresent in Ho. rewrite Hl, (proj2 (truthy_spec limit) Hlne) in Ho.
  destruct (k_expiresAt k) as [e|]; [|discriminate]. destruct (truthy e) eqn:Ee; [|discriminate].
  exists e. split; [reflexivity|]. split; [now apply truthy_spec | exact Ho].
Qed.

(** C38: A key begets no stronger key.  When the caller was authenticated by a
    key, every key it creates, every key it updates with restrictions or an
    expiry in the update, and every replacement it obtains by rotation permits
    no request its own key denies, and lasts no longer.  (An update that gives
    neither, a renaming, is accepted on a broader key as well.) *)
Theorem keys_within_caller p cid w w' :
  serving w -> vp_verifiedBy p = ByApiKey -> vp_credentialId p = Some cid -> cid <> "" ->
  (forall input c, createApiKey scrypt hmac localeLe stringOfValue otherDate s input (CVerified p) w = (w', Ok c) ->
     exists k parent, peek CKeys (cr_id c) (w_db w') = Some k /\ peek CKeys cid (w_db w) = Some parent /\ narrower k parent) /\
  (forall input id v, uk_id input = JStr id -> uk_restrictions input <> JUndef \/ uk_expiresAt input <> None ->
     updateApiKey localeLe stringOfValue otherDate s input (CVerified p) w = (w', Ok (Some v)) ->
     exists k parent, peek CKeys id (w_db w') = Some k /\ peek CKeys cid (w_db w) = Some parent /\ narrower k parent) /\
  (forall input id r, ro_id input = JStr id ->
     rotateApiKey scrypt hmac s input (CVerified p) w = (w', Ok (Some r)) ->
     exists k parent, peek CKeys (cr_id (rt_created r)) (w_db w') = Some k /\ peek CKeys cid (w_db w) = Some parent /\ narrower k parent).
Proof.
  intros (Hg & Hhost & Hc & He & Hkey) Hv Hcid Hne. repeat split.
  - intros input c Hrun.
    pose proof (createApiKey_spec scrypt hmac localeLe stringOfValue otherDate s g input (CVerified p) w Hg Hhost Hc He) as Hw.
    unfold wp in Hw. rewrite Hrun in Hw. destruct Hw as (_ & _ & p' & k & [= <-] & (_ & Hwi & _ & [Hk _] & _) & ->).
    destruct (within_narrower w p cid k Hv Hcid Hne Hwi) as (parent & Hp & Hn). exists k, parent. auto.
  - intros input id v Hid Hch Hrun.
    pose proof (updateApiKey_spec localeLe stringOfValue otherDate s g input p id w Hg Hhost Hc Hkey Hid) as Hw.
    unfold wp in Hw. rewrite Hrun in Hw. destruct Hw as (_ & _ & [(e & [=] & _)|(changes & Hr & Hx & Hu)]).
    unfold updates in Hu. destruct (peek CKeys id (w_db w)) as [k0|]; [|destruct Hu as [[=] _]].
    destruct (owns _ _ _ _); [|destruct Hu as [[=] _]].
    destruct Hu as [(e & [=] & _)|(at_ & now & _ & _ & [Hk _] & Hwi)].
    eassert (Hwi' : within w p _ _) by (apply Hwi; destruct Hch; [left | right]; auto).
    eapply (within_narrower w p cid (updatedKey changes at_ (vp_principalId p) k0)) in Hwi' as (parent & Hp & Hn); try assumption.
    exists (updatedKey changes at_ (vp_principalId p) k0 <| k_version := k_version k0 + 1 |>), parent.
    split; [exact Hk|]. split; [exact Hp | exact Hn].
  - intros input id r Hid Hrun.
    pose proof (rotateApiKey_spec scrypt hmac s g input p id w Hg Hhost Hc He Hkey Hid) as Hw.
    unfold wp in Hw. rewrite Hrun in Hw.
    destruct Hw as (_ & _ & [(e & [=] & _)|(overlap & _ & k & kr & Hk & _ & _ & Hwi & Hi & Hcr & _ & _ & Hkr & _)]).
    destruct (within_narrower w p cid k Hv Hcid Hne Hwi) as (parent & Hp & Hn). exists kr, parent.
    rewrite Hcr. split; [exact Hkr|]. split; [exact Hp|].
    destruct Hi as (pp & bb & sl & _ & _ & _ & _ & _ & _ & _ & _ & _ & Hre & Hex & _). cbn in Hre, Hex.
    unfold narrower. rewrite Hre, Hex. exact Hn.
Qed.

(** [scryptSync(input, salt, length)] returns [length] bytes. *)
Hypothesis scrypt_length : forall input salt n, String.length (scrypt input salt n) = n.

(** C39: The secret of a new key works, and only texts that derive its digest
    do.  After a creation, a text with the key's prefix authenticates as that
    key, in the creator's tenant, exactly when it derives the stored digest;
    the returned secret does; any other text is nobody. *)
Theorem created_key_authenticates input p c w w1 :
  serving w -> blank (vp_tenantId p) = false ->
  createApiKey scrypt hmac localeLe stringOfValue otherDate s input (CVerified p) w = (w1, Ok c) ->
  (forall k n, peek CKeys (cr_id c) (w_db w1) = Some k -> expiredAt (k_expiresAt k) (w_clock w n) = false) ->
  parseApiKeyPrefix (cr_secret c) = Some (cr_prefix c) /\
  exists salt, forall attempt, parseApiKeyPrefix attempt = Some (cr_prefix c) ->
    exists w2 o, authenticateApiKey scrypt hmac s (JStr attempt) w1 = (w2, Ok o) /\
      if String.eqb (derive scrypt hmac attempt salt (av_verifierKey s)) (derive scrypt hmac (cr_secret c) salt (av_verifierKey s))
      then exists q, o = Some q /\ vp_principalId q = cr_id c /\ vp_tenantId q = vp_tenantId p /\
             vp_applicationId q = ifPresent (Some (av_applicationId s)) /\ vp_verifiedBy q = ByApiKey /\ vp_bound q = true
      else o = None.
Proof.
  intros (Hg & Hhost & Hc & He & Hkey) Ht Hrun Hexp.
  pose proof (createApiKey_spec scrypt hmac localeLe stringOfValue otherDate s g input (CVerified p) w Hg Hhost Hc He) as Hw.
  unfold wp in Hw. rewrite Hrun in Hw. cbn [fst snd] in Hw.
  destruct Hw as (Hc1 & Ha1 & p' & k & [= <-] & ((name & re & ex & Hi) & _ & _ & [Hk _] & Hp & Hm) & Hcr).
  rewrite Hcr in Hexp |- *. cbn [createdOf cr_id cr_prefix cr_secret] in *.
  destruct Hi as (pp & bb & salt & Hpp & Hbb & Hsalt & Hsec & Hpre & Hhash & Hten & Happ & _ & _ & _ & Hrev & _ & _ & _ & _ & Hbl).
  assert (bb <> "") as Hbbne by (intros ->; discriminate Hbb).
  assert (salt <> "") as Hsne by (intros ->; discriminate Hsalt).
  rewrite Hsec at 1. rewrite Hpre, (parse_issued pp bb Hpp Hbbne). split; [reflexivity|]. exists salt. intros attempt Hat.
  assert (lookupKey s (issuedPrefix pp) w1 = Some k) as Hl.
  { unfold lookupKey. rewrite <- Hpre, Hm. cbn [ifPresent].
    rewrite (proj2 (truthy_spec (k_id k))) by (apply blank_nonempty, Hbl). now rewrite Hk. }
  pose proof (authenticate_known scrypt hmac s scrypt_length (issuedPrefix pp) attempt k w1 9 Hc1 Hl Hk Hbl
    ltac:(rewrite Hten; exact Ht)) as Hw.
  apply wp_run in Hw as (o & w2 & Hrun2 & _ & _ & n & at_ & _ & Hauth).
  unfold authenticateApiKey. rewrite Hat. change MAX_UPDATE_ATTEMPTS with 10%nat. rewrite Hrun2.
  unfold authenticationFailure in Hauth. rewrite Hrev in Hauth. cbn [present] in Hauth.
  rewrite (after_clock _ _ Ha1), (Hexp k n Hk), Hhash, (verify_hash scrypt hmac scrypt_length _ _ _ _ Hsne) in Hauth.
  destruct (String.eqb _ _).
  - rewrite Happ in Hauth. unfold oeqb in Hauth. rewrite bool_decide_eq_true_2 in Hauth by reflexivity.
    destruct Hauth as (-> & _). exists w2. eexists. split; [reflexivity|]. eexists. split; [reflexivity|].
    split; [reflexivity|]. split; [exact Hten|]. split; [cbn; now rewrite Happ|]. auto.
  - destruct Hauth as (-> & _). exists w2, None. auto.
Qed.

(** Cached copies are held under their keys' identifiers. *)
Definition keyedCache w : Prop := forall id k, mapGet (mm_local (w_mem w)) id = Some k -> k_id k = id.

(** C40: Revocation is immediate.  Once a key is revoked, no secret
    authenticates as it, and whoever was authenticated as it before is denied
    whatever it asks for. *)
Theorem revoked_key_stops tenant id by_ p v w w1 :
  serving w -> keyedCache w1 ->
  revokeApiKey s tenant id by_ (CVerified p) w = (w1, Ok (Some v)) ->
  (forall secret w2 q, authenticateApiKey scrypt hmac s secret w1 = (w2, Ok (Some q)) -> vp_principalId q <> id) /\
  (forall q capability resource, vp_principalId q = id ->
     exists w2 e, credentialCheck (av_applicationId s) q capability resource w1 = (w2, Throw e) /\ hasCode DENIED e = true).
Proof.
  intros (Hg & Hhost & Hc & He & Hkey) Hcache Hrun.
  pose proof (revokeApiKey_spec s g tenant id by_ p w Hg Hhost Hc Hkey) as Hw.
  unfold wp in Hw. rewrite Hrun in Hw. destruct Hw as (Hc1 & Ha1 & [(e & [=] & _)|Hr]). cbn [fst snd] in *.
  assert (exists k, peek CKeys id (w_db w) = Some k /\ owns s k (vp_tenantId p) true = true) as (k & Hk & Ho).
  { unfold revokes in Hr. destruct (peek CKeys id (w_db w)) as [k|]; [|destruct Hr as [[=] _]].
    destruct (owns s k (vp_tenantId p) true) eqn:Eo; [eauto | destruct Hr as [[=] _]]. }
  destruct (revokes_one s _ _ _ _ _ _ _ Hr Hk Ho Hkey) as (_ & (k' & Hk' & Hid' & Hrev) & Hfr).
  assert (keyed (w_db w1)) as Hkey1.
  { intros i x Hx. destruct (decide (i = id)) as [->|Hne]; [congruence|]. rewrite Hfr in Hx by exact Hne. now apply Hkey. }
  split.
  - intros secret w2 q Hauth Hq. unfold authenticateApiKey in Hauth. destruct secret; try discriminate Hauth.
    destruct (parseApiKeyPrefix s0) as [prefix|]; [|discriminate Hauth].
    pose proof (authenticateLoop_accepted scrypt hmac s prefix s0 MAX_UPDATE_ATTEMPTS w1 Hc1 Hkey1) as Hw.
    unfold wp in Hw. rewrite Hauth in Hw. destruct (Hw q eq_refl) as (x & i & Hl & Hf & ->). cbn in Hq.
    assert (peek CKeys id (w_db w1) = Some x) as Hx.
    { unfold lookupKey, indexedKey in Hl.
      assert (forall i0, peek CKeys i0 (w_db w1) = Some x -> peek CKeys id (w_db w1) = Some x) as Hst
        by (intros i0 Hi0; pose proof (Hkey1 _ _ Hi0) as E; rewrite <- Hq, E; exact Hi0).
      assert (match peek CPrefixes prefix (w_db w1) with Some r => peek CKeys (kp_apiKeyId r) (w_db w1) | None => None end = Some x ->
              peek CKeys id (w_db w1) = Some x) as Hix
        by (destruct (peek CPrefixes prefix (w_db w1)); [apply Hst | discriminate]).
      destruct (ifPresent _) as [i0|]; [|now apply Hix].
      destruct (peek CKeys i0 (w_db w1)) as [y|] eqn:Ey; [injection Hl as ->; now apply (Hst i0)|].
      destruct (if av_local s then mapGet (mm_local (w_mem w1)) i0 else None) as [y|] eqn:El; [|now apply Hix].
      injection Hl as ->. destruct (av_local s); [|discriminate]. apply Hcache in El. exfalso. congruence. }
    rewrite Hx in Hk'. injection Hk' as ->. rewrite failure_revoked in Hf by exact Hrev. discriminate Hf.
  - intros q capability resource Hq.
    pose proof (credentialCheck_spec (av_applicationId s) q capability resource w1 Hc1) as Hw.
    apply wp_run in Hw as (o & w2 & Ho2 & _ & i & Hiff & Hden). destruct o as [[]|e]; [|eauto].
    exfalso. destruct (proj1 Hiff eq_refl) as (x & Hx & _ & _ & Hs & _).
    rewrite Hq, Hk' in Hx. injection Hx as <-. rewrite keyStatus_revoked in Hs by exact Hrev. discriminate Hs.
Qed.

(** A key is rotated completely and once.  A rotation either leaves every
    key as it was, or issues one replacement with the key's own name,
    restrictions and expiry, and in the same commit retires the key: revoked
    when there is no overlap, and otherwise expiring no later than it would
    have and no later than the overlap; then no further rotation of that key
    succeeds. *)
Theorem rotation_once input id p o w w1 :
  serving w -> ro_id input = JStr id ->
  rotateApiKey scrypt hmac s input (CVerified p) w = (w1, o) ->
  match o with
  | Ok (Some r) => exists k k1 kr overlap,
      overlapInput (ro_overlapSeconds input) = Ok overlap /\
      peek CKeys id (w_db w) = Some k /\ peek CKeys id (w_db w1) = Some k1 /\
      peek CKeys (cr_id (rt_created r)) (w_db w) = None /\ peek CKeys (cr_id (rt_created r)) (w_db w1) = Some kr /\
      (forall id', id' <> id -> id' <> cr_id (rt_created r) -> peek CKeys id' (w_db w1) = peek CKeys id' (w_db w)) /\
      k_name kr = k_name k /\ k_restrictions kr = k_restrictions k /\ k_expiresAt kr = k_expiresAt k /\
      k_tenantId kr = vp_tenantId p /\ k_rotatedFrom kr = ifPresent (Some id) /\
      k_rotatedTo k1 = Some (cr_id (rt_created r)) /\ k_secretHash k1 = k_secretHash k /\
      (if overlap =? 0 then isRevoked k1
       else exists validUntil, k_expiresAt k1 = Some validUntil /\ rt_replacedKeyValidUntil r = validUntil /\
              forall e, k_expiresAt k = Some e -> e <> "" -> strLe validUntil e = true) /\
      forall input' p' w2 r', ro_id input' = JStr id ->
        rotateApiKey scrypt hmac s input' (CVerified p') w1 <> (w2, Ok (Some r'))
  | _ => sameKeys w w1
  end.
Proof.
  intros (Hg & Hhost & Hc & He & Hkey) Hid Hrun.
  pose proof (rotateApiKey_spec scrypt hmac s g input p id w Hg Hhost Hc He Hkey Hid) as Hw.
  unfold wp in Hw. rewrite Hrun in Hw. destruct Hw as (Hc1 & Ha1 & Hw). cbn [fst snd] in *.
  destruct o as [[r|]|e]; [|destruct Hw as [(e & [=] & _)|(? & _ & Hs)]; exact Hs
    |destruct Hw as [(e' & _ & Hs)|(? & _ & Hs)]; exact Hs].
  destruct Hw as [(e & [=] & _)|(overlap & Hov & k & kr & Hk & _ & Hnr & _ & Hi & Hcr & _ & Hn & Hkr & Hfr & n & at_ & oe & Hat & _ & _ & Hv & Hk1)].
  pose proof (Hkey _ _ Hk) as Eid.
  destruct Hi as (pp & bb & salt & _ & _ & _ & _ & _ & _ & Ht & _ & Hname & Hre & Hex & _ & _ & Hrf & _ & _ & Hbl).
  cbn in Ht, Hname, Hre, Hex, Hrf. rewrite Hcr. cbn [createdOf cr_id].
  set (k1 := _ <| k_version := _ |>) in Hk1.
  assert (k_rotatedTo k1 = Some (k_id kr)) as Hto by (unfold k1, retiredKey; destruct (overlap =? 0); reflexivity).
  exists k, k1, kr, overlap. rewrite Eid in Hrf. do 11 (split; [assumption|]). split; [exact Hto|].
  split; [unfold k1, retiredKey; destruct (overlap =? 0); reflexivity|].
  split.
  - unfold k1, retiredKey. destruct (overlap =? 0).
    + unfold isRevoked. cbn. apply truthy_spec. intros ->. exact (toISO_nonempty _ Hat).
    + eexists. split; [reflexivity|]. split; [exact Hv|]. intros e -> Hne. unfold earlierExpiry.
      cbn [ifPresent]. apply truthy_spec in Hne. rewrite Hne. unfold strGt.
      destruct (strLe oe e) eqn:El; cbn [negb]; [exact El | apply strLe_refl].
  - intros input' p' w2 r' Hid' Hrun'.
    assert (keyed (w_db w1)) as Hkey1.
    { intros i x Hx. destruct (decide (i = id)) as [->|H1]; [rewrite Hk1 in Hx; injection Hx as <-|].
      { unfold k1, retiredKey; destruct (overlap =? 0); exact Eid. }
      destruct (decide (i = k_id kr)) as [->|H2]; [congruence|]. rewrite Hfr in Hx by assumption. now apply Hkey. }
    pose proof (rotateApiKey_spec scrypt hmac s g input' p' id w1 Hg Hhost Hc1 (entropy_after _ _ He Ha1) Hkey1 Hid') as Hw.
    unfold wp in Hw. rewrite Hrun' in Hw. destruct Hw as (_ & _ & [(e & [=] & _)|(o2 & _ & k2 & kr2 & Hk2 & _ & Hnr2 & _)]).
    rewrite Hk1 in Hk2. injection Hk2 as <-. rewrite Hto in Hnr2. cbn in Hnr2.
    apply blank_nonempty, truthy_spec in Hbl. congruence.
Qed.

(** The check of an authenticated key decides exactly.  It passes if and
    only if the stored key still exists, belongs to the principal's tenant and
    to this application, is active at the time, and its restrictions permit
    the capability on the resource; otherwise it is [DENIED].  It changes no
    record. *)
Theorem credential_check_exact q capability resource w :
  calm w ->
  exists w' o i, credentialCheck (av_applicationId s) q capability resource w = (w', o) /\ w_db w' = w_db w /\
    (o = Ok tt <-> usable (av_applicationId s) q capability resource (w_clock w i) (w_db w)) /\
    (o <> Ok tt -> exists e, o = Throw e /\ hasCode DENIED e = true).
Proof.
  intros Hc. pose proof (credentialCheck_spec (av_applicationId s) q capability resource w Hc) as Hw.
  apply wp_run in Hw as (o & w' & Hrun & (_ & _ & Hd) & i & Hiff & Hden). exists w', o, i.
  split; [exact Hrun|]. split; [exact Hd|]. split; [exact Hiff|]. intros Hne. destruct o as [[]|e]; [congruence | eauto].
Qed.

(** Bulk revocation misses nothing.  It returns, once each, the ids of
    exactly the keys of the tenant and application (of that creator, when one
    is given) that were not revoked; afterwards all of them are revoked, and
    every other key is as it was. *)
Theorem revoke_all_complete tenant createdBy by_ field p ids w w1 :
  serving w -> revokeAllApiKeys localeLe s tenant createdBy by_ field (CVerified p) w = (w1, Ok ids) ->
  exists creator, match createdBy with JUndef => creator = None | JStr c => creator = Some c | _ => False end /\
    NoDup ids /\
    (forall id, id ∈ ids <-> exists k, peek CKeys id (w_db w) = Some k /\ revocable s (vp_tenantId p) creator k /\ ~ isRevoked k) /\
    (forall id k, peek CKeys id (w_db w1) = Some k -> revocable s (vp_tenantId p) creator k -> id ∈ ids \/ isRevoked k) /\
    (forall id, id ∈ ids -> exists k, peek CKeys id (w_db w1) = Some k /\ isRevoked k) /\
    (forall id, id ∉ ids -> peek CKeys id (w_db w1) = peek CKeys id (w_db w)).
Proof.
  intros (Hg & Hhost & Hc & He & Hkey) Hrun.
  pose proof (revokeAllApiKeys_spec localeLe s g tenant createdBy by_ field p w Hg Hhost Hc Hkey) as Hw.
  unfold wp in Hw. rewrite Hrun in Hw.
  destruct Hw as (_ & _ & [(e & [=] & _)|(creator & Hcr & ids' & [= <-] & Hd & Hin & Hrev & Hrest)]). cbn [fst snd] in *.
  exists creator. do 3 (split; [assumption|]). split; [|split; [exact Hrev | exact Hrest]].
  intros id k Hk Hr. destruct (decide (id ∈ ids)) as [Hi|Hi]; [now left|]. right.
  rewrite Hrest in Hk by exact Hi. destruct (present (k_revokedAt k)) eqn:Ep; [exact Ep|].
  exfalso. apply Hi, Hin. exists k. unfold isRevoked. rewrite Ep. auto.
Qed.

(** Pages partition the keys.  Reading a tenant's keys page by page, each
    page from the last id of the one before, gives every key of the tenant and
    application (of that creator, when one is given) exactly once, in order of
    creation. *)
Theorem key_pages_complete tenantId createdBy limit w :
  calm w -> keyed (w_db w) -> 1 <= limit <= MAX_PAGE_SIZE ->
  match createdBy with Some c => c <> "" | None => True end ->
  exists l, listing localeLe s tenantId createdBy w l /\
    pages k_id l (Z.to_nat limit) (S (length l)) None = l /\
    forall after, match after with Some a => a <> "" | None => True end ->
      exists w' now, listApiKeys localeLe s tenantId
          (Some (mkListOptions JUndef (ofOption createdBy) (JInt limit) (ofOption after))) w =
        (w', Ok (map (fun k => toView k now) (page k_id l after (Z.to_nat limit)))) /\ w_db w' = w_db w.
Proof.
  clear scrypt_length. clear scrypt hmac stringOfValue otherDate g.
  intros Hc Hkey Hlim Hcr. destruct (listApiKeys_spec localeLe s tenantId createdBy limit w Hc Hkey Hlim Hcr) as (l & Hl & Hpage).
  exists l. split; [exact Hl|]. split; [apply pages_all; [apply Hl | lia]|].
  intros after Ha. specialize (Hpage after Ha). apply wp_run in Hpage as (o & w' & Hrun & (_ & _ & Hd) & now & ->).
  exists w', now. auto.
Qed.
End claims.

(** Restrictions mean what they say.  When restrictions are accepted (with
    attribute names given once each, and none of them [__proto__]), the stored
    ceiling permits a request exactly when the given one does: the capability
    is listed and, if there are rules, one of them asks for nothing the
    resource does not have.  Its capabilities are invocable and listed once. *)
Theorem restrictions_meaning localeLe stringOfValue value r capability resource :
  normalizeRestrictions localeLe stringOfValue value = Ok r -> plainRestrictions value ->
  (restrictionsPermit (Some r) capability resource = true <-> rawPermits value capability resource) /\
  NoDup (rs_capabilities r) /\ Forall (fun n => isInvocable n = true) (rs_capabilities r).
Proof. apply normalizeRestrictions_ok. Qed.

(** A rule about the attribute [__proto__]. *)
Definition protoRestrictions : jsval :=
  JObj [("capabilities", JArr [JStr "jobs.read"]);
        ("resources", JArr [JObj [("attributes", JObj [("__proto__", JStr "alice")])]])].

(** A rule whose only attribute is called [__proto__] is accepted and then
    matches every resource: the assignment that should record it creates no
    property, although a rule that asks for nothing is refused. *)
Theorem proto_rule_matches_all localeLe stringOfValue resource :
  exists r, normalizeRestrictions localeLe stringOfValue protoRestrictions = Ok r /\
    restrictionsPermit (Some r) "jobs.read" resource = true /\
    ~ (r_attributes resource = None /\ rawPermits protoRestrictions "jobs.read" resource).
Proof.
  eexists. split; [vm_compute; reflexivity|]. split; [reflexivity|].
  intros [Hr (input & names & [= <-] & _ & _ & [Hu|(rules & Hru & rule & Hin & f & -> & _ & _ & Ha)])]; [discriminate Hu|].
  cbn in Hru. injection Hru as <-. destruct Hin as [[= <-]|[]].
  destruct Ha as [Hu|(entries & He & Hall)]; [discriminate Hu|]. cbn in He. injection He as <-.
  destruct (Hall "__proto__" (JStr "alice")) as (x & _ & Hx); [left|]. rewrite Hr in Hx. discriminate Hx.
Qed.

(** ** Witnesses *)

(** [n] bytes: the text, cut or padded. *)
Fixpoint fit (n : nat) (x : string) : string :=
  match n with
  | O => EmptyString
  | S n => match x with EmptyString => String "." (fit n EmptyString) | String c r => String c (fit n r) end
  end.

Lemma fit_length n x : String.length (fit n x) = n.
Proof. revert x. induction n as [|n IH]; intros [|c x]; cbn; congruence. Qed.

Definition demoScrypt (input salt : string) (n : nat) : string := fit n (input ++ salt).
Definition demoHmac (key x : string) : string := key ++ x.

Lemma demoScrypt_length input salt n : String.length (demoScrypt input salt n) = n.
Proof. apply fit_length. Qed.

Definition demoKeys : ApiKeyService MemDB := mkApiKeyService (Some (demoGateway true)) "app" None true.

Definition demoKey (id : string) : ApiKey :=
  mkApiKey id "t1" (Some "app") id "app_live_0000ff" "scrypt$$" (Some (mkRestrictions ["apikeys.create"; "jobs.read"] None))
    "2023-11-14T22:13:20.000Z" None None None None None None None None None "alice" 1.

Definition keyDB : MemDB := memPut CKeys "parent" (demoKey "parent") (memPut CKeys "child" (demoKey "child") emptyDB).

Lemma keyDB_serving : serving demoKeys (demoGateway true) (demo keyDB).
Proof.
  split; [reflexivity|]. split; [apply demo_hostQuiet|].
  split; [apply demo_calm, unused_put; [reflexivity | apply unused_put; [reflexivity | apply unused_empty]]|].
  split; [split; [apply demoBytes_length | intros n; split; [reflexivity | now apply blank_head]]|].
  intros id k Hk. cbn in Hk. rewrite !lookup_insert_Some in Hk.
  destruct Hk as [[<- <-]|[_ [[<- <-]|[_ Hk]]]]; [reflexivity | reflexivity | now rewrite lookup_empty in Hk].
Qed.

(** The principal of the key [id]. *)
Definition keyCaller (id : string) : VerifiedPrincipal :=
  mkPrincipal id "api_key" "t1" (Some "app") (Some id) None None ByApiKey true.

Definition demoCreate : CreateApiKeyInput :=
  mkCreateKey None (JStr "ci") [] (JObj [("capabilities", JArr [JStr "jobs.read"])]) None JUndef.

#[local] Notation createRun := (createApiKey demoScrypt demoHmac strLe (fun _ => "") (fun _ => None) demoKeys demoCreate
  (CVerified (keyCaller "parent")) (demo keyDB)) (only parsing).

Lemma keys_within_caller_witness :
  exists c k parent, createRun.2 = Ok c /\ peek CKeys (cr_id c) (w_db createRun.1) = Some k /\
    peek CKeys "parent" keyDB = Some parent /\ narrower k parent.
Proof.
  destruct (keys_within_caller demoScrypt demoHmac strLe (fun _ => "") (fun _ => None) demoKeys (demoGateway true)
    (keyCaller "parent") "parent" (demo keyDB) createRun.1 keyDB_serving) as (Hcreate & _); [reflexivity | reflexivity | discriminate|].
  destruct createRun as [w' [c|e]] eqn:E; [|vm_compute in E; discriminate E].
  destruct (Hcreate demoCreate c E) as (k & parent & Hk). exists c, k, parent. auto.
Defined.

Lemma created_key_authenticates_witness :
  exists c q w2, createRun.2 = Ok c /\
    authenticateApiKey demoScrypt demoHmac demoKeys (JStr (cr_secret c)) createRun.1 = (w2, Ok (Some q)) /\
    vp_principalId q = cr_id c /\ vp_tenantId q = "t1".
Proof.
  destruct createRun as [w1 [c|e]] eqn:E; [|vm_compute in E; discriminate E].
  destruct (created_key_authenticates demoScrypt demoHmac strLe (fun _ => "") (fun _ => None) demoKeys (demoGateway true)
    demoScrypt_length demoCreate (keyCaller "parent") c (demo keyDB) w1 keyDB_serving) as (Hp & salt & Hauth).
  - reflexivity.
  - exact E.
  - intros k n Hk. vm_compute in E. injection E as <- <-. vm_compute in Hk. injection Hk as <-. reflexivity.
  - destruct (Hauth (cr_secret c) Hp) as (w2 & o & Hrun & Ho). rewrite String.eqb_refl in Ho.
    destruct Ho as (q & -> & Hid & Ht & _). exists c, q, w2. auto.
Defined.

#[local] Notation revokeRun := (revokeApiKey demoKeys None "child" JUndef (CVerified alice) (demo keyDB)) (only parsing).

Lemma revoked_key_stops_witness :
  exists w2 e, credentialCheck "app" (keyCaller "child") "jobs.read" jobResource revokeRun.1 = (w2, Throw e) /\
    hasCode DENIED e = true.
Proof.
  destruct revokeRun as [w1 [[v|]|e]] eqn:E; [|vm_compute in E; discriminate E..].
  destruct (revoked_key_stops demoScrypt demoHmac demoKeys (demoGateway true) None "child" JUndef alice v (demo keyDB) w1)
    as (_ & Hcheck); [exact keyDB_serving | | exact E |].
  - vm_compute in E. injection E as <- _. intros id k Hk. discriminate Hk.
  - apply (Hcheck (keyCaller "child")). reflexivity.
Defined.

Definition demoRotate (seconds : Z) : RotateApiKeyInput := mkRotateKey None (JStr "child") (JInt seconds) [].

#[local] Notation rotateRun := (rotateApiKey demoScrypt demoHmac demoKeys (demoRotate 3600) (CVerified alice) (demo keyDB)) (only parsing).

Lemma rotation_once_witness :
  exists r k1, rotateRun.2 = Ok (Some r) /\ peek CKeys "child" (w_db rotateRun.1) = Some k1 /\
    k_rotatedTo k1 = Some (cr_id (rt_created r)) /\ k_expiresAt k1 = Some "2023-11-14T23:13:20.000Z".
Proof.
  destruct rotateRun as [w1 o] eqn:E.
  pose proof (rotation_once demoScrypt demoHmac demoKeys (demoGateway true) (demoRotate 3600) "child" alice o (demo keyDB) w1
    keyDB_serving eq_refl E) as Hr.
  destruct o as [[r|]|e]; [|vm_compute in E; discriminate E..].
  destruct Hr as (k & k1 & kr & overlap & _ & _ & Hk1 & _ & _ & _ & _ & _ & _ & _ & _ & Hto & _).
  exists r, k1. split; [reflexivity|]. split; [exact Hk1|]. split; [exact Hto|].
  vm_compute in E. injection E as <- _. vm_compute in Hk1. injection Hk1 as <-. reflexivity.
Defined.

Lemma credential_check_exact_witness :
  exists w' i, credentialCheck "app" (keyCaller "child") "jobs.read" jobResource (demo keyDB) = (w', Ok tt) /\
    usable "app" (keyCaller "child") "jobs.read" jobResource (w_clock (demo keyDB) i) keyDB.
Proof.
  destruct (credential_check_exact demoKeys (keyCaller "child") "jobs.read" jobResource (demo keyDB)) as (w' & o & i & Hrun & _ & Hiff & _).
  { apply keyDB_serving. }
  assert (o = Ok tt) as -> by (vm_compute in Hrun; now injection Hrun as _ <-).
  exists w', i. split; [exact Hrun | now apply Hiff].
Defined.

#[local] Notation revokeAllRun := (revokeAllApiKeys strLe demoKeys None JUndef JUndef JUndef (CVerified alice) (demo keyDB)) (only parsing).

Lemma revoke_all_complete_witness :
  exists ids, revokeAllRun.2 = Ok ids /\ "child" ∈ ids /\
    exists k, peek CKeys "child" (w_db revokeAllRun.1) = Some k /\ isRevoked k.
Proof.
  destruct revokeAllRun as [w1 [ids|e]] eqn:E; [|vm_compute in E; discriminate E].
  destruct (revoke_all_complete strLe demoKeys (demoGateway true) None JUndef JUndef JUndef alice ids (demo keyDB) w1
    keyDB_serving E) as (creator & -> & _ & Hin & _ & Hrev & _).
  assert ("child" ∈ ids) as Hc.
  { apply Hin. exists (demoKey "child"). split; [reflexivity|]. split; [split; [reflexivity | exact I]|]. intros [=]. }
  exists ids. split; [reflexivity|]. split; [exact Hc | now apply Hrev].
Defined.

Lemma key_pages_complete_witness :
  exists l, listing strLe demoKeys "t1" None (demo keyDB) l /\ pages k_id l 1 (S (length l)) None = l /\
    demoKey "child" ∈ l.
Proof.
  destruct (key_pages_complete strLe demoKeys "t1" None 1 (demo keyDB)) as (l & Hl & Hp & _).
  - apply keyDB_serving.
  - apply keyDB_serving.
  - unfold MAX_PAGE_SIZE. lia.
  - exact I.
  - exists l. split; [exact Hl|]. split; [exact Hp|]. apply Hl. repeat split.
Defined.

Definition demoRestrictions : jsval :=
  JObj [("capabilities", JArr [JStr "jobs.read"; JStr "jobs.read"]);
        ("resources", JArr [JObj [("type", JStr "job")]])].

Lemma restrictions_meaning_witness :
  exists r, normalizeRestrictions strLe (fun _ => "") demoRestrictions = Ok r /\
    restrictionsPermit (Some r) "jobs.read" jobResource = true /\ rawPermits demoRestrictions "jobs.read" jobResource.
Proof.
  destruct (normalizeRestrictions strLe (fun _ => "") demoRestrictions) as [r|e] eqn:E; [|vm_compute in E; discriminate E].
  destruct (restrictions_meaning strLe (fun _ => "") demoRestrictions r "jobs.read" jobResource E) as (Hiff & _).
  { intros input rules rule [= <-] Hr Hin f -> entries He. cbn in Hr. injection Hr as <-.
    destruct Hin as [[= <-]|[]]. discriminate He. }
  exists r. split; [reflexivity|]. assert (restrictionsPermit (Some r) "jobs.read" jobResource = true) as Hp
    by (vm_compute in E; injection E as <-; reflexivity).
  split; [exact Hp | now apply Hiff].
Defined.
