(* ===== verification/WebhookProps.v ===== *)
(** * WebhookProps: the properties of webhooks

    Where deliveries go, how they end, what an emitted event queues, and that
    an inbound event is handled once. *)

From S2P Require Import Prelude JsString JsTime Errors Models Store Calm MemStore Principal Manifest Destination Bounded Evidence Gateway GatewayFacts Webhooks WebhookFacts Demo.
From Stdlib Require Import ZArith Lia Ascii.
Local Open Scope string_scope.
Local Open Scope Z_scope.

(** C8: Deliveries reach checked destinations only.  With private networks
    disallowed, a delivery does not depend on what the HTTP client would do at
    a destination that failed the policy: replacing the client there changes
    neither the result nor anything that is written.  A destination that passed
    has a parsed http(s) URL without credentials, whose host is not one of the
    reserved names nor in a reserved zone, in any letter case and with or
    without the root's dot; the addresses of that host, the address it is or
    all that its name resolved to, are outside the reserved IPv4 and IPv6
    ranges (an IPv4-mapped one counts as the IPv4 address it maps) and none is
    written as a reserved IPv4 address behind [::ffff:] or [64:ff9b::], dotted
    or hexadecimal, or behind [::], dotted; and the first of them is the one
    dialled.  Other encodings of IPv4 in IPv6 are not recognised: the
    hexadecimal IPv4-compatible form is allowed ([compatible_hex_allowed]). *)
Theorem destination_pinned {DB} `{FeltDB DB} (pf : WebhookPlatform DB) s post tenantId deliveryId (w : World DB) :
  pf_allowPrivateNetworks pf = false ->
  (forall d eventId body signature, allowedDestination pf d ->
     post d eventId body signature = pf_post pf d eventId body signature) ->
  deliverWebhook (withPost pf post) s tenantId deliveryId w = deliverWebhook pf s tenantId deliveryId w.
Proof.
  intros Hpolicy Hpost. unfold deliverWebhook, attemptDelivery. rewrite (sendDelivery_post pf post Hpolicy Hpost).
  reflexivity.
Qed.

Section claims.
Context {DB : Type} `{FeltDBLaws DB}.
Variable pf : WebhookPlatform DB.
Variable s : WebhookService DB.
Variable g : ServiceGateway DB.


(** An event goes to its subscribers, once each, in the emitter's name.
    [emitWebhookEvent] either throws and queues nothing, or returns one
    pending delivery for each endpoint of the caller's tenant that is enabled,
    belongs to this application and is registered for the event, stored under
    a new id with the event's payload and a durable principal that the
    evidence in the store attests.  Existing records stay as they were. *)
Theorem emitted_to_subscribers input p (w : World DB) :
  calm w -> hs_authority s = Some g -> hostQuiet g ->
  exists w' o, emitWebhookEvent s input (CVerified p) w = (w', o) /\ onlyNew (w_db w) (w_db w') /\
    match o with
    | Throw _ => forall k, peek CDeliveries k (w_db w') = peek CDeliveries k (w_db w)
    | Ok ds => exists durable, emission (g_application g) (vp_tenantId p) input durable (w_db w) (w_db w') ds /\
        dp_tenantId durable = vp_tenantId p /\ dp_principalId durable = vp_principalId p /\
        attestedBy g (Some durable) ["webhooks.emit"; "webhooks.replay"] (w_db w')
    end.
Proof.
  intros Hc Hauth Hhost.
  assert (wp (emitWebhookEvent s input (CVerified p)) (fun o w' => onlyNew (w_db w) (w_db w') /\
    match o with
    | Throw _ => forall k, peek CDeliveries k (w_db w') = peek CDeliveries k (w_db w)
    | Ok ds => exists durable, emission (g_application g) (vp_tenantId p) input durable (w_db w) (w_db w') ds /\
        dp_tenantId durable = vp_tenantId p /\ dp_principalId durable = vp_principalId p /\
        attestedBy g (Some durable) ["webhooks.emit"; "webhooks.replay"] (w_db w')
    end) w) as Hw.
  2: { apply wp_run in Hw as (o & w' & Hrun & H'). exists w', o. auto. }
  assert (onlyNew (w_db w) (w_db w) /\ forall k, peek CDeliveries k (w_db w) = peek CDeliveries k (w_db w)) as Hno
    by (split; [intros V c k _ _ _; reflexivity | reflexivity]).
  unfold emitWebhookEvent. apply wp_guard; [intros q [= <-] | intros; exact Hno].
  apply wp_guard; [intros _ _ | intros; exact Hno].
  apply wp_guard; [intros tenant Ht | intros; exact Hno]. apply resolveTenant_ok in Ht as (-> & _).
  apply wp_guard; [intros _ _ | intros; exact Hno].
  apply wp_bind. unfold hookGateway. rewrite Hauth. apply wp_ret.
  eapply wp_mono.
  { apply (execute_spec g "webhooks.emit" _ _ (hookOptions None None) _
      (fun x id st o w2 => exists ds w1, o = Ok ds /\ evidenceOnly w w1 /\ onlyNew (w_db w1) (w_db w2) /\
         emission (x_application x) (vp_tenantId p) input
           (toDurablePrincipal p None (Some (a_decisionId (x_authorization x)))) (w_db w1) (w_db w2) ds)); [exact Hc | exact Hhost|].
    intros rid c q x id st w1 Hi Hc1 Hl1 Hnil _ Hch. pose proof (changed_hit _ _ _ _ _ Hch) as Hrow.
    eapply wp_mono; [apply (emitEffect_spec (x_application x) (vp_tenantId p) input (vp_principalId p)
      (toDurablePrincipal p None (Some (a_decisionId (x_authorization x)))) w1 Hc1)|].
    intros o w2 (ds & -> & Hc2 & Hl2 & Hem & Hfr). split; [exact Hc2|]. split; [after_tac|].
    split; [rewrite Hfr by discriminate; exact Hrow|].
    split; [unfold resolvedRefs; rewrite (later_resolved _ _ Hl2); unfold resolvedRefs in Hnil; rewrite Hnil; intros _; exact I|].
    exists ds, w1. split; [reflexivity|]. split; [eapply evidenceOnly_changed; eassumption|].
    split; [|exact Hem]. intros V k key _ A B. now apply Hfr. }
  intros o w' (Hc' & _ & [(err & -> & Href)|(rid & c & q & x & id & st & w2 & row & Hi & (ds & w1 & -> & Hev & Hnew & Hem) & Hfin & Hl2 & Hch)]).
  - pose proof (onlyRefusal_frame _ _ Href) as Hf. split; [intros V k key A _ _; now apply Hf | intros k; now apply Hf].
  - pose proof (evidenceOnly_changed _ _ _ _ Hl2 Hch) as Hev2.
    split.
    { intros V k key A B C. rewrite (proj2 Hev2 V k key A). rewrite <- (proj2 Hev V k key A) in C |- *. now apply Hnew. }
    exists (toDurablePrincipal p None (Some (a_decisionId (x_authorization x)))).
    split; [|split; [reflexivity|]; split; [reflexivity|]].
    2: { eapply finished_attests; [exact Hi | exact Hfin | exact (changed_hit _ _ _ _ _ Hch) | now left | reflexivity]. }
    rewrite (is_application _ _ _ _ _ _ _ _ Hi) in Hem. destruct Hem as (endpoints & He & Hm & Hall).
    exists endpoints. split; [|split; [exact Hm|]].
    + eapply enumerates_frame; [exact He|]. intros k. apply (proj2 Hev). discriminate.
    + rewrite Forall_forall in *. intros d Hd. destruct (Hall d Hd) as (A & B & C). split; [exact A|].
      split; [rewrite <- (proj2 Hev) by discriminate; exact B | rewrite (proj2 Hev2) by discriminate; exact C].
Qed.

(** Only evidence and audit records were added. *)
Definition onlyRecords (db db' : DB) : Prop :=
  forall V (c : coll V) k, cname c <> cname CEvidence -> cname c <> cname CHookAudit -> peek c k db' = peek c k db.

(** C9: An inbound event is handled at most once.  Once the identity of an
    event (integration and event id) is recorded, receiving it again throws,
    whatever the handlers are, and changes nothing but evidence and audit: no
    handler runs.  And when [receiveWebhook] returns, that identity is
    recorded, provided the handlers do not take back accepted events. *)
Theorem inbound_handled_once i eventId request (w : World DB) :
  let k := inboundId pf (wi_id i) eventId in
  calm w -> hs_authority s = Some g -> hostQuiet g -> custodyQuiet g ->
  ir_integrationId request = JStr (wi_id i) -> peek CIntegrations (wi_id i) (w_db w) = Some i ->
  header (ir_headers request) "x-appport-event-id" = Some eventId ->
  keyFree k w ->
  (peek CInbound k (w_db w) <> None \/ handlersQuiet s) ->
  exists w' o, receiveWebhook pf s request w = (w', o) /\
    (peek CInbound k (w_db w) <> None -> onlyRecords (w_db w) (w_db w') /\ exists e, o = Throw e) /\
    ((exists res, o = Ok res) -> peek CInbound k (w_db w') <> None).
Proof.
  intros k Hc Hauth Hhost Hcust Hid Hi Hev Hk Hh.
  set (good := fun (o : outcome InboundWebhookResult) (w' : World DB) =>
    (peek CInbound k (w_db w) <> None -> onlyRecords (w_db w) (w_db w') /\ exists e, o = Throw e) /\
    ((exists res, o = Ok res) -> peek CInbound k (w_db w') <> None)).
  assert (wp (receiveWebhook pf s request) good w) as Hw.
  2: { apply wp_run in Hw as (o & w' & Hrun & H'). exists w', o. auto. }
  assert (forall e w', onlyRecords (w_db w) (w_db w') -> good (Throw e) w') as Hno
    by (intros e w' Ho; split; [eauto | intros (res & [=])]).
  assert (onlyRecords (w_db w) (w_db w)) as Hrefl by (intros V c key _ _; reflexivity).
  assert (forall type db db', onlyRecords (w_db w) db -> hookAudited type db db' -> onlyRecords (w_db w) db') as Haud.
  { intros type db db' Ho Ha V c key A B. rewrite (hookAudited_frame _ _ _ _ _ Ha B). now apply Ho. }
  unfold receiveWebhook. apply wp_guard; [intros _ _ | intros; now apply Hno].
  apply wp_guard; [intros _ _ | intros; now apply Hno].
  rewrite Hid. apply wp_bind. unfold wi_get. apply wpc_get; [exact Hc|]. rewrite Hi.
  destruct (present (wi_disabledAt i)); [now apply Hno|]. rewrite Hev. unfold ifPresent at 1.
  destruct (truthy eventId); [|now apply Hno]. cbv zeta.
  destruct (ifPresent _) as [timestamp|]; [|now apply Hno].
  destruct (ifPresent _) as [signature|]; [|now apply Hno].
  destruct (ir_rawBody request) as [| | | | |rawBody| | |]; try now apply Hno.
  apply wp_bind. destruct (parseDate (pf_otherDate pf) timestamp) as [sentAt|].
  2: { apply wp_ret, wp_bind, wp_hookAudit; [exact Hc|]. intros w1 Hc1 Hl1 Ha. apply Hno. eapply Haud; eassumption. }
  apply wpc_nowMs; [exact Hc|]. intros now w1 _ _ Hc1 Hl1 Hd1.
  destruct (hs_inboundToleranceMs s <? Z.abs (now - sentAt)).
  { apply wp_bind, wp_hookAudit; [exact Hc1|]. intros w2 Hc2 Hl2 Ha. apply Hno. rewrite Hd1 in Ha. eapply Haud; eassumption. }
  apply wp_guard; [intros p Hp | intros; apply Hno; now rewrite Hd1].
  apply wp_tryCatch, wp_bind. unfold hookGateway. rewrite Hauth. apply wp_ret, wp_bind.
  assert (forall e w2, calm w2 -> onlyRecords (w_db w) (w_db w2) ->
    wp (_ ← swallow (hookAudit "webhook.inbound.rejected" None None (Some (wi_id i)) (wi_tenantId i) (wi_principalId i) false (Some (inboundReason e)));
        throw e) good w2) as Hrej.
  { intros e w2 Hc2 Ho. apply wp_bind, wp_swallow, wp_hookAudit; [exact Hc2|]. intros w3 Hc3 Hl3 Ha.
    apply wp_throw, Hno. eapply Haud; eassumption. }
  set (options := hookOptions (Some (wi_provider i)) (Some (wi_signingCredentialRef i))).
  eapply wp_mono.
  { apply (execute_spec g "webhooks.receive" _ _ options _ (fun _ _ _ o w2 =>
      (peek CInbound k (w_db w) <> None -> onlyRecords (w_db w) (w_db w2) /\ exists e, o = Throw e) /\
      ((exists res, o = Ok res) -> peek CInbound k (w_db w2) <> None) )); [exact Hc1 | exact Hhost|].
    intros rid c q x id st w2 _ Hc2 Hl2 _ _ Hch. pose proof (changed_hit _ _ _ _ _ Hch) as Hrow.
    pose proof (evidenceOnly_changed _ _ _ _ Hl2 Hch) as [_ Hf].
    assert (peek CInbound k (w_db w2) = peek CInbound k (w_db w)) as Hsame by (rewrite Hf, Hd1 by discriminate; reflexivity).
    eapply wp_mono; [apply (acceptInbound_spec pf s g i p eventId timestamp signature rawBody sentAt x id); [exact Hcust | exact Hc2 | exact Hrow | | fold k; rewrite Hsame; exact Hh]|].
    { intros n E. destruct Hl2 as (_ & _ & Hu & _). destruct Hl1 as (_ & _ & Hu1 & _). rewrite Hu, Hu1 in E. exact (Hk n E). }
    intros o w3 (Hc3 & Ha3 & Hrow3 & Hold & Hnew). split; [exact Hc3|]. split; [exact Ha3|]. split; [exact Hrow3|].
    split; [discriminate|].
    split; [|exact Hnew]. rewrite <- Hsame. intros Hx. destruct (Hold Hx) as [-> Hthrow]. split; [|exact Hthrow].
    intros V c' key A _. rewrite Hf, Hd1 by exact A. reflexivity. }
  intros o w2 (Hc2 & _ & [(e & -> & Href)|(rid & c & q & x & id & st & w3 & row & _ & (Hold & Hnew) & _ & Hl3 & Hch)]).
  - apply Hrej; [exact Hc2|]. intros V c key A _. rewrite (onlyRefusal_frame _ _ Href) by exact A. now rewrite Hd1.
  - pose proof (evidenceOnly_changed _ _ _ _ Hl3 Hch) as [_ Hf].
    assert (onlyRecords (w_db w) (w_db w3) -> onlyRecords (w_db w) (w_db w2)) as Hstep.
    { intros Ho V c' key A B. rewrite Hf by exact A. now apply Ho. }
    destruct o as [res|e].
    + apply wp_bind, wp_hookAudit; [exact Hc2|]. intros w4 Hc4 Hl4 Ha. apply wp_ret. split.
      * intros Hx. destruct (Hold Hx) as [_ (e & [=])].
      * intros _. rewrite (hookAudited_frame _ _ _ _ _ Ha), Hf by discriminate. apply Hnew. eauto.
    + destruct (peek CInbound k (w_db w)) as [old|] eqn:Eold.
      * apply Hrej; [exact Hc2 | apply Hstep, Hold; discriminate].
      * apply wp_bind, wp_swallow, wp_hookAudit; [exact Hc2|]. intros w4 Hc4 Hl4 Ha. apply wp_throw.
        split; [intros Hx; congruence | intros (res & [=])].
Qed.
End claims.

(** ** Witnesses *)

Definition demoURL : URL := mkURL "https:" "" "" "hooks.example.com" "https://hooks.example.com" "https://hooks.example.com/in".

Definition demoPlatform : WebhookPlatform MemDB :=
  mkPlatform (fun _ => Some demoURL) (fun _ => mret [mkAddress "93.184.216.34" 4]) false
    (fun key text => key ++ ":" ++ text) (fun text => text) (fun _ => "{}") (fun _ => Some (JObj [])) (fun _ => None)
    (fun _ _ _ _ => mret (HttpStatus (Some 200))).

Definition demoHost : ServiceGateway MemDB :=
  mkGateway "app" (Some (demoAnswer true)) (Resolver (fun T _ _ use => use (mkResolved (JStr "k") "signing" 1))) 5000 [] (fun _ _ _ => mret tt).

Lemma demoHost_quiet : hostQuiet demoHost.
Proof.
  split.
  - intros ask req w [= <-] Hc. now apply kept_refl.
  - intros p cap r w Hc. now apply kept_refl.
Qed.

Lemma demoHost_custody : custodyQuiet demoHost.
Proof.
  intros withSecret [[= <-]|(st & sto & [=])] T reference access use w Hc Huse. split; [now apply Huse|].
  intros a Ha. exists (mkResolved (JStr "k") "signing" 1), w, (use (mkResolved (JStr "k") "signing" 1) w).1.
  rewrite <- Ha. apply surjective_pairing.
Qed.

Lemma demoPlatform_quiet : platformQuiet demoPlatform.
Proof. split; intros; now apply kept_refl. Qed.

Definition demoHooks : WebhookService MemDB :=
  mkWebhookService (Some demoHost) 5 None 300000 true true [].

Definition demoRef : string := "credential-ref:signing".

Definition demoEndpoint : WebhookEndpoint :=
  mkEndpoint "e1" "t1" (Some "app") "https://hooks.example.com/in" ["order.paid"] (Some demoRef)
    "2023-11-14T22:13:20.000Z" "alice" None 1.

Definition demoDurable : DurablePrincipal := mkDurable "alice" "user" "t1" (Some "app") None None (Some "d1").

Definition demoDelivery : WebhookDelivery :=
  mkDelivery "w1" "t1" "e1" "ev1" "order.paid" (JObj []) WPending 0 None "2023-11-14T22:13:20.000Z"
    None None None None (Some demoDurable) 1.

Definition demoEmitRow : EffectEvidence :=
  mkEvidence "x1" "app" "t1" "alice" "user" None None "webhooks.emit" 1 "appport://app/tenants/t1/webhook_event/*" Allow
    (Some "d1") None None "webhooks" None "r1" "2023-11-14T22:13:20.000Z" None Succeeded None 1.

Definition demoHookDB : MemDB :=
  memPut CEvidence "x1" demoEmitRow (memPut CDeliveries "w1" demoDelivery (memPut CEndpoints "e1" demoEndpoint emptyDB)).

Lemma demoHook_calm : calm (demo demoHookDB).
Proof. apply demo_calm. do 3 (apply unused_put; [reflexivity|]). apply unused_empty. Qed.

Lemma destination_pinned_witness :
  let post d e b sg : M MemDB HttpReply :=
    if match ipv4 (ad_address (de_address d)) with Some n => check4 n | None => false end
    then throw (JsError "Error" "dialled") else pf_post demoPlatform d e b sg in
  deliverWebhook (withPost demoPlatform post) demoHooks "t1" "w1" (demo demoHookDB)
  = deliverWebhook demoPlatform demoHooks "t1" "w1" (demo demoHookDB).
Proof.
  intros post. apply (destination_pinned demoPlatform demoHooks post); [reflexivity|].
  intros d e b sg (_ & addresses & (_ & _ & _ & _ & Hh & Hall) & _). unfold post.
  assert (publicAddress (ad_address (de_address d))) as Hpub.
  { apply Hall. destruct addresses as [|a l]; [discriminate|]. injection Hh as ->. left. }
  destruct Hpub as [(n & -> & Hn)|(-> & _)]; [|reflexivity].
  destruct (check4 n) eqn:E; [|reflexivity]. apply check4_exact in E. contradiction.
Defined.


Lemma emitted_to_subscribers_witness :
  let input := mkEmit None "order.paid" (JObj []) [] in
  exists w' d durable, emitWebhookEvent demoHooks input (CVerified alice) (demo demoHookDB) = (w', Ok [d]) /\
    wd_endpointId d = "e1" /\ peek CDeliveries (wd_id d) (w_db w') = Some d /\
    attestedBy demoHost (Some durable) ["webhooks.emit"; "webhooks.replay"] (w_db w').
Proof.
  intros input.
  destruct (emitted_to_subscribers demoHooks demoHost input alice (demo demoHookDB) demoHook_calm eq_refl demoHost_quiet)
    as (w' & o & Hrun & _ & Ho).
  pose proof (f_equal snd Hrun) as Hv. vm_compute in Hv. subst o.
  destruct Ho as (durable & (endpoints & _ & _ & Hall) & _ & _ & Hatt).
  exists w'. eexists. exists durable. split; [exact Hrun|]. split; [reflexivity|]. split; [|exact Hatt].
  apply Forall_inv in Hall. apply Hall.
Defined.

Definition demoIntegration : WebhookIntegration :=
  mkIntegration "i1" "t1" "app" "stripe" "integration:stripe" demoRef "2023-11-14T22:13:20.000Z" "alice" None 1.

(** An event accepted before; its handler would fail loudly. *)
Definition demoInboundDB : MemDB :=
  memPut CInbound "i1:ev9" (mkInbound "i1:ev9" "i1" "stripe" "ev9" "2023-11-14T22:13:20.000Z" "2023-11-14T22:13:20.000Z" "t1")
    (memPut CIntegrations "i1" demoIntegration emptyDB).

Lemma inbound_handled_once_witness :
  let request := mkInboundRequest (JStr "i1")
    [("x-appport-event-id", HOne "ev9"); ("x-appport-timestamp", HOne "2023-11-14T22:13:20.000Z");
     ("x-appport-signature", HOne "k:2023-11-14T22:13:20.000Z.{}")] (JStr "{}") in
  exists w' e, receiveWebhook demoPlatform demoHooks request (demo demoInboundDB) = (w', Throw e) /\
    onlyRecords demoInboundDB (w_db w') /\ hasCode DENIED e = true.
Proof.
  intros request.
  destruct (inbound_handled_once demoPlatform demoHooks demoHost demoIntegration "ev9" request (demo demoInboundDB))
    as (w' & o & Hrun & Hold & _).
  - apply demo_calm. do 2 (apply unused_put; [reflexivity|]). apply unused_empty.
  - reflexivity.
  - exact demoHost_quiet.
  - exact demoHost_custody.
  - reflexivity.
  - reflexivity.
  - reflexivity.
  - intros n [=].
  - left. discriminate.
  - destruct Hold as [Honly (e & ->)]; [discriminate|]. exists w', e. split; [exact Hrun|]. split; [exact Honly|].
    apply (f_equal snd) in Hrun. vm_compute in Hrun. injection Hrun as <-. reflexivity.
Defined.
