(* ===== verification/FileProps.v ===== *)
(** * FileProps: the properties of the file service *)

From S2P Require Import Prelude JsString JsTime Errors Models Store Calm MemStore Principal Manifest Evidence Gateway GatewayFacts Files Demo.
From Stdlib Require Import ZArith Lia Ascii Sorting.Sorted.
Local Open Scope string_scope.
Local Open Scope Z_scope.

Section facts.
Context {DB : Type} `{FeltDBLaws DB}.
Variable g : ServiceGateway DB.
Implicit Types w : World DB.

(** ** The invariant and the steps *)

(** A file record as the service keeps it. *)
Record wellFormed (k : string) (f : File) : Prop := mkWellFormed {
  wf_id : f_id f = k;
  wf_tenant : blank (f_tenantId f) = false;
  wf_owner : blank (f_owner f) = false;
  wf_name : blank (f_name f) = false;
  wf_storage : blank (f_storageKey f) = false;
  wf_size : 0 <= f_size f;
  wf_metadata : match f_metadata f with Some v => metadataOk v = true | None => True end }.

Definition filesOk (db : DB) : Prop := forall k f, peek CFiles k db = Some f -> wellFormed k f.

(** What identifies a file and who it belongs to. *)
Definition sameFile (f f' : File) : Prop :=
  (f_id f', f_tenantId f', f_applicationId f', f_owner f', f_createdAt f') =
  (f_id f, f_tenantId f, f_applicationId f, f_owner f, f_createdAt f).

(** One operation of a caller of [tenant] on the file records: each record is
    as it was, or belongs to the tenant and this application and is either
    new or the next version of the same live file. *)
Definition fileChange (tenant : string) (old : option File) (f' : File) : Prop :=
  f_tenantId f' = tenant /\ f_applicationId f' = Some (g_application g) /\
  match old with
  | None => f_version f' = 1
  | Some f => sameFile f f' /\ present (f_deletedAt f) = false /\ f_version f' = f_version f + 1
  end.

Definition fileStep (tenant : string) (db db' : DB) : Prop :=
  (forall k f', peek CFiles k db' = Some f' -> peek CFiles k db = Some f' \/ fileChange tenant (peek CFiles k db) f') /\
  (forall k, peek CFiles k db <> None -> peek CFiles k db' <> None) /\
  (forall V (c : coll V) k, ~ In (cname c) [cname CFiles; cname CFileAudit; cname CEvidence] -> peek c k db' = peek c k db).

Lemma fileStep_same tenant (db db' : DB) :
  (forall V (c : coll V) k, cname c <> cname CEvidence -> cname c <> cname CFileAudit -> peek c k db' = peek c k db) ->
  fileStep tenant db db'.
Proof.
  intros Hf. split; [|split].
  - intros k f'. rewrite Hf by discriminate. auto.
  - intros k. now rewrite Hf by discriminate.
  - intros V c k Hn. apply Hf; intros E; apply Hn; rewrite E; cbn; auto.
Qed.

(** Evidence aside, the same store. *)
Definition sameFiles (db db' : DB) : Prop :=
  forall V (c : coll V) k, cname c <> cname CEvidence -> peek c k db' = peek c k db.

Lemma fileStep_frame tenant db1 db2 db3 db4 :
  sameFiles db1 db2 -> fileStep tenant db2 db3 -> sameFiles db3 db4 -> fileStep tenant db1 db4.
Proof.
  intros H12 (A & B & C) H34. split; [|split].
  - intros k f'. rewrite (H34 _ CFiles) by discriminate. rewrite <- (H12 _ CFiles) by discriminate. apply A.
  - intros k. rewrite (H34 _ CFiles), <- (H12 _ CFiles) by discriminate. apply B.
  - intros V c k Hn. assert (cname c <> cname CEvidence) as Hne by (intros E; apply Hn; rewrite E; cbn; auto).
    rewrite H34, <- H12 by exact Hne. now apply C.
Qed.

Lemma filesOk_same db db' : sameFiles db db' -> filesOk db -> filesOk db'.
Proof. intros Hs Hok k f. rewrite (Hs _ CFiles) by discriminate. apply Hok. Qed.

(** One file written, and an audit record. *)
Lemma fileStep_write tenant k (o : option File) f' w1 w2 w3 aid row :
  filesOk (w_db w1) -> peek CFiles k (w_db w1) = o -> wellFormed k f' -> fileChange tenant o f' ->
  changed CFiles k (Some f') (w_db w1) (w_db w2) -> changed CFileAudit aid (Some row) (w_db w2) (w_db w3) ->
  filesOk (w_db w3) /\ fileStep tenant (w_db w1) (w_db w3).
Proof.
  intros Hok Ho Hwf Hchange H12 H23.
  assert (forall k' f, peek CFiles k' (w_db w3) = Some f -> k' = k /\ f = f' \/ k' <> k /\ peek CFiles k' (w_db w1) = Some f) as Hcase.
  { intros k' f. rewrite (changed_frame _ _ _ _ _ _ _ H23) by discriminate.
    destruct (decide (k' = k)) as [->|Hne].
    - rewrite (changed_hit _ _ _ _ _ H12). intros [= <-]. auto.
    - rewrite (changed_frame _ _ _ _ _ _ _ H12) by congruence. auto. }
  split; [|split; [|split]].
  - intros k' f Hf. destruct (Hcase k' f Hf) as [[-> ->]|[_ Hf']]; [exact Hwf | now apply Hok].
  - intros k' f Hf. destruct (Hcase k' f Hf) as [[-> ->]|[_ Hf']]; [right; now rewrite Ho | now left].
  - intros k' Hk'. rewrite (changed_frame _ _ _ _ _ _ _ H23) by discriminate.
    destruct (decide (k' = k)) as [->|Hne]; [rewrite (changed_hit _ _ _ _ _ H12); discriminate|].
    now rewrite (changed_frame _ _ _ _ _ _ _ H12) by congruence.
  - intros V c k' Hn. rewrite (changed_frame _ _ _ _ _ _ _ H23), (changed_frame _ _ _ _ _ _ _ H12);
      [reflexivity | |]; injection 1 as E _; apply Hn; rewrite E; cbn; auto.
Qed.

(** ** Steps of the service *)

Lemma wp_fileAudit type item p Q w :
  calm w ->
  (forall w' id row, calm w' -> later w w' -> changed CFileAudit id (Some row) (w_db w) (w_db w') ->
     peek CFileAudit id (w_db w) = None -> Q (Ok tt) w') ->
  wp (fileAudit type item p) Q w.
Proof.
  intros Hc HQ. unfold fileAudit. apply wp_bind, wpc_uuid; [exact Hc|]. intros id w1 _ Ho Hc1 Hl1 Hd1.
  apply wp_bind, wpc_nowIso; [exact Hc1|]. intros t at_ w2 _ _ Hc2 Hl2 Hd2.
  pose proof (owned_ctl _ _ _ Ho Hl2 Hd2) as Ho2. unfold fa_record. cbn [fa_id].
  apply wpc_insert; [exact Hc2 | exact Ho2|]. intros w3 Hc3 Hl3 Hch. rewrite Hd2, Hd1 in Hch.
  eapply HQ; [exact Hc3 | later_tac | exact Hch | rewrite <- Hd1; apply Ho].
Qed.

Lemma wp_fs_update f patch Q w :
  calm w -> peek CFiles (f_id f) (w_db w) = Some f ->
  (forall w', calm w' -> later w w' ->
     changed CFiles (f_id f) (Some (patch f <| f_version := f_version f + 1 |>)) (w_db w) (w_db w') ->
     Q (Ok (Some (patch f <| f_version := f_version f + 1 |>))) w') ->
  wp (fs_update (f_id f) (f_version f) patch) Q w.
Proof.
  intros Hc Hf HQ. unfold fs_update. apply wp_bind, wpc_get; [exact Hc|]. rewrite Hf.
  apply (wpc_cas CFiles (f_id f) f); [exact Hc | exact Hf|]. cbn zeta. intros w' Hc' Hl' Hch. now apply HQ.
Qed.

(** The file an operation finds: stored, live, of the tenant and application. *)
Lemma wp_liveFile tenant id Q w :
  calm w -> filesOk (w_db w) ->
  (forall f, peek CFiles id (w_db w) = Some f -> f_id f = id -> f_tenantId f = tenant ->
     present (f_deletedAt f) = false -> f_applicationId f = Some (g_application g) -> Q (Ok (Some (g, f))) w) ->
  ((forall f, peek CFiles id (w_db w) = Some f -> f_tenantId f = tenant -> present (f_deletedAt f) = false ->
     f_applicationId f = Some (g_application g) -> False) -> Q (Ok None) w) ->
  wp (liveFile (Some g) tenant id) Q w.
Proof.
  intros Hc Hok Hsome Hnone. unfold liveFile, fs_get. apply wp_bind, wp_bind, wpc_get; [exact Hc|]. apply wp_ret.
  destruct (peek CFiles id (w_db w)) as [f|] eqn:Ef; [|apply wp_ret, Hnone; discriminate].
  destruct (String.eqb_spec (f_tenantId f) tenant) as [Et|Et]; [|apply wp_ret, Hnone; intros f' [= <-]; contradiction].
  destruct (present (f_deletedAt f)) eqn:Ed; [apply wp_ret, Hnone; intros f' [= <-]; congruence|].
  apply wp_bind, wp_ret, wp_ret. unfold ownsFile. destruct (oeqb _ _) eqn:Eo.
  - apply oeqb_true in Eo. apply Hsome; auto. apply (wf_id _ _ (Hok _ _ Ef)).
  - apply Hnone. intros f' [= <-] _ _ Ha. apply oeqb_true in Ha. congruence.
Qed.

(** An authorized operation on the files whose effect makes one step. *)
Lemma wp_fileOperation {T} name p r (effect : ServiceExecutionContext -> EffectTools -> M DB T) tenant w :
  hostQuiet g -> calm w -> filesOk (w_db w) ->
  (forall x tools w1, calm w1 -> filesOk (w_db w1) -> sameFiles (w_db w) (w_db w1) ->
     wp (effect x tools) (fun o w2 => calm w2 /\ later w1 w2 /\
       (forall k row, peek CEvidence k (w_db w1) = Some row -> peek CEvidence k (w_db w2) = Some row) /\
       filesOk (w_db w2) /\ fileStep tenant (w_db w1) (w_db w2)) w1) ->
  wp (execute g name (CVerified p) r fileOptions effect)
    (fun o w' => calm w' /\ filesOk (w_db w') /\ fileStep tenant (w_db w) (w_db w')) w.
Proof.
  intros Hhost Hc Hok Heff. eapply wp_mono.
  { apply (execute_effect g name (CVerified p) r fileOptions effect
      (fun _ o w2 => exists w1, sameFiles (w_db w) (w_db w1) /\ filesOk (w_db w2) /\ fileStep tenant (w_db w1) (w_db w2)));
      [exact Hc | exact Hhost|].
    intros rid c q x id st w1 _ Hc1 [Hl1 Hf1] _.
    eapply wp_mono; [apply Heff; [exact Hc1 | now apply (filesOk_same (w_db w)) | exact Hf1]|].
    intros o w2 (Hc2 & Hl2 & Hev & Hok2 & Hst). split; [exact Hc2|]. split; [after_tac|].
    split; [apply (later_resolved _ _ Hl2)|]. split; [exact Hev|]. exists w1. auto. }
  intros o w' (Hc' & _ & [(e & _ & Href)|(rid & c & q & x & w2 & _ & (w1 & Hf1 & Hok2 & Hst) & _ & Hf2)]); (split; [exact Hc'|]).
  - pose proof (onlyRefusal_frame _ _ Href) as Hf. split; [now apply (filesOk_same (w_db w))|].
    apply fileStep_same. intros V c k A _. now apply Hf.
  - split; [now apply (filesOk_same (w_db w2)) | eapply fileStep_frame; eassumption].
Qed.

(** ** The operations *)

Lemma createFile_step input p w :
  hostQuiet g -> calm w -> filesOk (w_db w) ->
  wp (createFile (Some g) input (CVerified p))
    (fun _ w' => calm w' /\ filesOk (w_db w') /\ fileStep (vp_tenantId p) (w_db w) (w_db w')) w.
Proof.
  intros Hhost Hc Hok. assert (calm w /\ filesOk (w_db w) /\ fileStep (vp_tenantId p) (w_db w) (w_db w)) as Hno
    by (split; [exact Hc|]; split; [exact Hok | now apply fileStep_same]).
  unfold createFile. apply wp_guard; [intros q [= <-] | intros; exact Hno].
  apply wp_guard; [intros tenant Ht | intros; exact Hno]. apply resolveTenant_ok in Ht as (-> & _).
  apply wp_guard; [intros size Hv | intros; exact Hno].
  apply wp_bind, wp_ret, wp_fileOperation; [exact Hhost | exact Hc | exact Hok|].
  intros _ _ w1 Hc1 Hok1 _. apply wp_bind, wpc_nowIso; [exact Hc1|]. intros t now w2 _ _ Hc2 Hl2 Hd2.
  apply wp_bind, wpc_uuid; [exact Hc2|]. intros id w3 _ Ho Hc3 Hl3 Hd3.
  apply wp_bind. unfold fs_create. apply wpc_create; [exact Hc3 | exact Ho|]. intros w4 Hc4 Hl4 Hch4.
  rewrite Hd3, Hd2 in Hch4. assert (peek CFiles id (w_db w1) = None) as Hn by (rewrite <- Hd2, <- Hd3; apply Ho).
  apply wp_bind, wp_fileAudit; [exact Hc4|]. intros w5 aid row Hc5 Hl5 Hch5 _. apply wp_ret.
  split; [exact Hc5|]. split; [later_tac|]. split.
  - intros k ev Hev. rewrite (changed_frame _ _ _ _ _ _ _ Hch5), (changed_frame _ _ _ _ _ _ _ Hch4) by discriminate. exact Hev.
  - eapply fileStep_write; [exact Hok1 | exact Hn | | | exact Hch4 | exact Hch5].
    + unfold validateCreate in Hv. repeat case_hyp Hv; try discriminate. injection Hv as ->.
      constructor; cbn; try assumption; [reflexivity | |].
      * unfold sizeOf in E3. destruct (cf_size input); try discriminate. destruct (0 <=? z) eqn:Ez; [|discriminate].
        injection E3 as <-. now apply Z.leb_le.
      * destruct (cf_metadata input); try discriminate; reflexivity.
    + split; [reflexivity|]. split; reflexivity.
Qed.

(** A change of a live file that keeps it well-formed and its own, seen after
    its audit record. *)
Lemma wp_fileChange tenant f patch Q w :
  calm w -> filesOk (w_db w) -> peek CFiles (f_id f) (w_db w) = Some f -> f_tenantId f = tenant ->
  present (f_deletedAt f) = false -> f_applicationId f = Some (g_application g) ->
  wellFormed (f_id f) (patch f) -> sameFile f (patch f) ->
  (forall w1 u, calm w1 -> later w w1 ->
     (forall w2 aid row, changed CFileAudit aid (Some row) (w_db w1) (w_db w2) ->
        filesOk (w_db w2) /\ fileStep tenant (w_db w) (w_db w2) /\
        forall id ev, peek CEvidence id (w_db w) = Some ev -> peek CEvidence id (w_db w2) = Some ev) ->
     Q (Ok (Some u)) w1) ->
  wp (fs_update (f_id f) (f_version f) patch) Q w.
Proof.
  intros Hc Hok Hf Ht Hd Ha Hwf Hsame HQ. apply wp_fs_update; [exact Hc | exact Hf|]. intros w1 Hc1 Hl1 Hch1.
  apply HQ; [exact Hc1 | exact Hl1|]. intros w2 aid row Hch2.
  assert (fileChange tenant (Some f) (patch f <| f_version := f_version f + 1 |>)) as Hchange.
  { pose proof Hsame as E. unfold sameFile in E. injection E as _ E2 E3 _ _. split; [cbn; congruence|].
    split; [cbn; congruence|]. split; [exact Hsame|]. split; [exact Hd | reflexivity]. }
  destruct (fileStep_write tenant (f_id f) (Some f) (patch f <| f_version := f_version f + 1 |>) w w1 w2 aid row) as [Hok2 Hst];
    [exact Hok | exact Hf | destruct Hwf; now constructor | exact Hchange | exact Hch1 | exact Hch2|].
  split; [exact Hok2|]. split; [exact Hst|].
  intros id ev Hev. rewrite (changed_frame _ _ _ _ _ _ _ Hch2), (changed_frame _ _ _ _ _ _ _ Hch1) by discriminate. exact Hev.
Qed.

(** [f'] is a well-formed version of [f]. *)
Definition versionOf (k : string) (f f' : File) : Prop := wellFormed k f' /\ sameFile f f'.

Lemma setGiven_keeps {A} (slot : Slot A) (set : A -> File -> File) k f f' :
  (forall a f2, given slot = Some a -> wellFormed k f2 -> sameFile f f2 -> versionOf k f (set a f2)) ->
  versionOf k f f' -> versionOf k f (setGiven slot set f').
Proof. unfold setGiven. intros Hset Hf. destruct (given slot) as [a|]; [apply Hset; [reflexivity | apply Hf | apply Hf] | exact Hf]. Qed.

Lemma sizeOf_pos v n : sizeOf v = Some n -> 0 <= n.
Proof.
  destruct v; try discriminate. cbn. destruct (0 <=? z) eqn:E; [|discriminate]. intros [= <-]. now apply Z.leb_le.
Qed.

Lemma updateFields_keeps input tenant id f now :
  validateUpdate input tenant = Ok id -> wellFormed (f_id f) f ->
  versionOf (f_id f) f (updateFields input f <| f_updatedAt := Some now |>).
Proof.
  unfold validateUpdate. intros Hv Hwf. destruct (uf_id input); try discriminate.
  destruct (blank tenant); [discriminate|]. destruct (blank s); [discriminate|].
  destruct (negb (providesField input)); [discriminate|].
  destruct (match given (uf_name input) with Some n => blank n | None => false end) eqn:En; [discriminate|].
  destruct (match given (uf_storageKey input) with Some k => blank k | None => false end) eqn:Ek; [discriminate|].
  destruct (match given (uf_size input) with Some JUndef | None => false | Some _ => _ end); [discriminate|].
  destruct (match given (uf_metadata input) with Some v => negb (metadataOk v) | None => false end) eqn:Em; [discriminate|].
  assert (forall f', versionOf (f_id f) f f' -> versionOf (f_id f) f (f' <| f_updatedAt := Some now |>)) as Hlast
    by (intros f' [[] Hs]; split; [now constructor | exact Hs]).
  apply Hlast. unfold updateFields. repeat apply setGiven_keeps; try (split; [exact Hwf | reflexivity]).
  - intros v f2 Hg [] Hs. rewrite Hg in Em. destruct v; try discriminate Em; (split; [now constructor | exact Hs]).
  - intros x f2 Hg [] Hs. rewrite Hg in Ek. split; [now constructor | exact Hs].
  - intros x f2 _ [] Hs. split; [now constructor | exact Hs].
  - intros v f2 _ [] Hs. destruct (sizeOf v) as [n|] eqn:Esz; (split; [constructor; cbn; try assumption | exact Hs]).
    eapply sizeOf_pos, Esz.
  - intros x f2 _ [] Hs. split; [now constructor | exact Hs].
  - intros x f2 Hg [] Hs. rewrite Hg in En. split; [now constructor | exact Hs].
Qed.

Lemma updateFile_step input p w :
  hostQuiet g -> calm w -> filesOk (w_db w) ->
  wp (updateFile (Some g) input (CVerified p))
    (fun _ w' => calm w' /\ filesOk (w_db w') /\ fileStep (vp_tenantId p) (w_db w) (w_db w')) w.
Proof.
  intros Hhost Hc Hok. assert (calm w /\ filesOk (w_db w) /\ fileStep (vp_tenantId p) (w_db w) (w_db w)) as Hno
    by (split; [exact Hc|]; split; [exact Hok | now apply fileStep_same]).
  unfold updateFile. apply wp_guard; [intros q [= <-] | intros; exact Hno].
  apply wp_guard; [intros tenant Ht | intros; exact Hno]. apply resolveTenant_ok in Ht as (-> & _).
  apply wp_guard; [intros id Hv | intros; exact Hno].
  apply wp_bind, wp_liveFile; [exact Hc | exact Hok | | intros _; exact Hno].
  intros f Hf Hid Ht Hd Ha. apply wp_fileOperation; [exact Hhost | exact Hc | exact Hok|].
  intros _ _ w1 Hc1 Hok1 Hs1. apply wp_bind, wpc_nowIso; [exact Hc1|]. intros t now w2 _ _ Hc2 Hl2 Hd2. rewrite <- Hd2 in Hok1 |- *.
  rewrite <- (Hs1 _ CFiles) in Hf by discriminate. rewrite <- Hd2, <- Hid in Hf.
  destruct (updateFields_keeps input (vp_tenantId p) id f now Hv (Hok1 _ _ Hf)) as [Hwf Hsame].
  apply wp_bind. eapply wp_fileChange; try eassumption. intros w3 u Hc3 Hl3 Hend. apply wp_bind, wp_fileAudit; [exact Hc3|].
  intros w4 aid row Hc4 Hl4 Hch4 _. destruct (Hend w4 aid row Hch4) as (A & B & C). apply wp_ret.
  split; [exact Hc4|]. split; [later_tac|]. auto.
Qed.

Lemma deleteFile_step tenantId id p w :
  hostQuiet g -> calm w -> filesOk (w_db w) ->
  wp (deleteFile (Some g) tenantId id (CVerified p))
    (fun _ w' => calm w' /\ filesOk (w_db w') /\ fileStep (vp_tenantId p) (w_db w) (w_db w')) w.
Proof.
  intros Hhost Hc Hok. assert (calm w /\ filesOk (w_db w) /\ fileStep (vp_tenantId p) (w_db w) (w_db w)) as Hno
    by (split; [exact Hc|]; split; [exact Hok | now apply fileStep_same]).
  unfold deleteFile. apply wp_guard; [intros q [= <-] | intros; exact Hno].
  apply wp_guard; [intros tenant Ht | intros; exact Hno]. apply resolveTenant_ok in Ht as (-> & _).
  apply wp_bind, wp_liveFile; [exact Hc | exact Hok | | intros _; exact Hno].
  intros f Hf Hid Ht Hd Ha. apply wp_fileOperation; [exact Hhost | exact Hc | exact Hok|].
  intros _ _ w1 Hc1 Hok1 Hs1. apply wp_bind, wpc_nowIso; [exact Hc1|]. intros t now w2 _ _ Hc2 Hl2 Hd2.
  apply wp_bind, wpc_nowIso; [exact Hc2|]. intros t' now' w3 _ _ Hc3 Hl3 Hd3. rewrite <- Hd2, <- Hd3 in Hok1 |- *.
  rewrite <- (Hs1 _ CFiles) in Hf by discriminate. rewrite <- Hd2, <- Hd3, <- Hid in Hf.
  apply wp_bind. eapply wp_fileChange; try eassumption; [|reflexivity|].
  { destruct (Hok1 _ _ Hf). now constructor. }
  intros w4 u Hc4 Hl4 Hend. apply wp_fileAudit; [exact Hc4|].
  intros w5 aid row Hc5 Hl5 Hch5 _. destruct (Hend w5 aid row Hch5) as (A & B & C).
  split; [exact Hc5|]. split; [later_tac|]. auto.
Qed.

(** ** Requests *)

(** A request to the file service, with its caller. *)
Inductive FileRequest :=
| CreateRequest (input : CreateFileInput)
| UpdateRequest (input : UpdateFileInput)
| DeleteRequest (tenantId id : string).

Definition serveFile (caller : Caller) (request : FileRequest) : M DB unit :=
  match request with
  | CreateRequest input => _ ← createFile (Some g) input caller; mret tt
  | UpdateRequest input => _ ← updateFile (Some g) input caller; mret tt
  | DeleteRequest tenantId id => deleteFile (Some g) tenantId id caller
  end.

(** Requests one after the other, whatever becomes of each. *)
Fixpoint serveFiles (requests : list (Caller * FileRequest)) : M DB unit :=
  match requests with
  | [] => mret tt
  | (caller, request) :: rest => _ ← swallow (serveFile caller request); serveFiles rest
  end.

(** Somebody who is not a verified principal changes nothing. *)
Lemma serveFile_unverified caller request w :
  (forall p, caller <> CVerified p) -> exists e, serveFile caller request w = (w, Throw e).
Proof.
  intros Hno. destruct caller as [p| | |]; [now destruct (Hno p)| | |];
    destruct request; try destruct hasScopes; eexists; reflexivity.
Qed.

Lemma serveFile_step caller request p w :
  caller = CVerified p -> hostQuiet g -> calm w -> filesOk (w_db w) ->
  wp (serveFile caller request)
    (fun _ w' => calm w' /\ filesOk (w_db w') /\ fileStep (vp_tenantId p) (w_db w) (w_db w')) w.
Proof.
  intros -> Hhost Hc Hok. destruct request as [input|input|tenantId id]; cbn [serveFile].
  - apply wp_bind. eapply wp_mono; [now apply createFile_step|]. intros [a|e] w' Hw'; exact Hw'.
  - apply wp_bind. eapply wp_mono; [now apply updateFile_step|]. intros [a|e] w' Hw'; exact Hw'.
  - now apply deleteFile_step.
Qed.

(** What any number of requests may do to a record that was there. *)
Definition fileEvolves (tenants : list string) (f f' : File) : Prop :=
  f' = f \/ sameFile f f' /\ f_version f < f_version f' /\ present (f_deletedAt f) = false /\
    In (f_tenantId f) tenants /\ f_applicationId f = Some (g_application g).

Lemma fileEvolves_trans tenants f f1 f2 :
  fileEvolves tenants f f1 -> fileEvolves tenants f1 f2 -> fileEvolves tenants f f2.
Proof.
  unfold fileEvolves, sameFile. intros [->|(A & B & C & D & E)] [->|(A' & B' & F)]; auto 10.
  right. split; [congruence|]. split; [lia | auto].
Qed.

(** The tenants of the verified callers. *)
Definition tenantsOf (requests : list (Caller * FileRequest)) : list string :=
  flat_map (fun r => match r.1 with CVerified p => [vp_tenantId p] | _ => [] end) requests.

Lemma fileStep_evolves tenant tenants db db' k f :
  fileStep tenant db db' -> In tenant tenants -> peek CFiles k db = Some f ->
  exists f', peek CFiles k db' = Some f' /\ fileEvolves tenants f f'.
Proof.
  intros (Hfwd & Hkeep & _) Hin Hk. destruct (peek CFiles k db') as [f'|] eqn:Ek'.
  - exists f'. split; [reflexivity|]. destruct (Hfwd k f' Ek') as [E|Hch]; [left; congruence|].
    rewrite Hk in Hch. destruct Hch as (Ht & Ha & Hs & Hd & Hv). right. split; [exact Hs|].
    split; [lia|]. split; [exact Hd|]. unfold sameFile in Hs. injection Hs as _ E1 E2 _ _.
    rewrite E1 in Ht. rewrite E2 in Ha. subst. auto.
  - exfalso. apply (Hkeep k); congruence.
Qed.

(** C12: Whatever file requests arrive, from whomever and however they end, the
    file records keep their shape (their own id, a tenant, an owner, a name
    and a storage key that are not blank, a size that is a natural number,
    metadata that is an object).  A record that was there is still there; it
    is unchanged, or a later version of the same file (same id, tenant,
    application, owner and creation time) whose tenant is the tenant of one of
    the verified callers, of this application, and which was not deleted
    before: deleted files never change again. *)
Theorem file_writes_confined requests w :
  hostQuiet g -> calm w -> filesOk (w_db w) ->
  exists w', serveFiles requests w = (w', Ok tt) /\ filesOk (w_db w') /\
    forall k f, peek CFiles k (w_db w) = Some f ->
      exists f', peek CFiles k (w_db w') = Some f' /\ fileEvolves (tenantsOf requests) f f'.
Proof.
  intros Hhost Hc Hok.
  assert (forall tenants, incl (tenantsOf requests) tenants -> wp (serveFiles requests) (fun o w' => o = Ok tt /\
    filesOk (w_db w') /\ forall k f, peek CFiles k (w_db w) = Some f ->
      exists f', peek CFiles k (w_db w') = Some f' /\ fileEvolves tenants f f') w) as Hrun.
  { intros tenants. revert w Hc Hok. induction requests as [|[caller request] rest IH]; intros w Hc Hok Hincl; cbn [serveFiles].
    { apply wp_ret. split; [reflexivity|]. split; [exact Hok|]. intros k f Hk. exists f. split; [exact Hk | now left]. }
    apply wp_bind, wp_swallow.
    assert ((exists p, caller = CVerified p) \/ forall p, caller <> CVerified p) as [(p & ->)|Hun]
      by (destruct caller; [left; eauto | right; discriminate..]).
    2: { destruct (serveFile_unverified caller request w Hun) as (e & Hrun). apply wp_run. exists (Throw e), w.
      split; [exact Hrun|]. apply IH; [exact Hc | exact Hok|]. intros t Ht. apply Hincl, in_or_app. now right. }
    eapply wp_mono; [now apply (serveFile_step _ request p)|]. intros _ w1 (Hc1 & Hok1 & Hst).
    eapply wp_mono; [apply IH; [exact Hc1 | exact Hok1 |]|].
    { intros t Ht. apply Hincl. now right. }
    intros o w' (Ho & Hok' & Hall). split; [exact Ho|]. split; [exact Hok'|]. intros k f Hk.
    destruct (fileStep_evolves _ tenants _ _ k f Hst) as (f1 & Hk1 & He1); [apply Hincl; now left | exact Hk|].
    destruct (Hall k f1 Hk1) as (f' & Hk' & He'). exists f'. split; [exact Hk'|].
    eapply fileEvolves_trans; eassumption. }
  destruct (proj1 (wp_run _ _ _) (Hrun _ (incl_refl _))) as (o & w' & E & -> & Hrest). exists w'. auto.
Qed.

(** ** Reading *)

Variable localeLe : string -> string -> bool.

Definition visible (tenant : string) (options : FileListOptions) (f : File) : bool :=
  String.eqb (f_tenantId f) tenant && listed g options f.

Lemma fileLe_total a b :
  (forall x y, localeLe x y = false -> localeLe y x = true) ->
  fileLe localeLe a b = false -> fileLe localeLe b a = true.
Proof.
  intros Htot. unfold fileLe. destruct (localeLe (f_createdAt b) (f_createdAt a)) eqn:E1; cbn.
  - intros E. apply orb_false_elim in E as [E E2]. apply negb_false_iff in E. rewrite E. cbn.
    now rewrite (Htot _ _ E2).
  - intros _. now rewrite (Htot _ _ E1).
Qed.

(** A listing returns exactly what the caller may see.  [listFiles] is
    refused (and then nothing but a refusal is recorded), or it returns every
    stored file of the tenant that is not deleted, belongs to this application
    and has the wanted owner, each once and no other, ordered newest first;
    the store is not changed but for evidence. *)
Theorem files_listed_exactly options p w :
  hostQuiet g -> calm w -> (forall x y, localeLe x y = false -> localeLe y x = true) ->
  exists w' o, listFiles (Some g) localeLe (vp_tenantId p) (CVerified p) options w = (w', o) /\
    match o with
    | Throw _ => onlyRefusal (w_db w) (w_db w')
    | Ok files => sameFiles (w_db w) (w_db w') /\
        (exists l, enumerates CFiles (visible (vp_tenantId p) options) (w_db w) l /\ files ≡ₚ l) /\
        Sorted (fun a b => fileLe localeLe a b = true) files
    end.
Proof.
  intros Hhost Hc Htot.
  assert (wp (listFiles (Some g) localeLe (vp_tenantId p) (CVerified p) options) (fun o w' =>
    match o with
    | Throw _ => onlyRefusal (w_db w) (w_db w')
    | Ok files => sameFiles (w_db w) (w_db w') /\
        (exists l, enumerates CFiles (visible (vp_tenantId p) options) (w_db w) l /\ files ≡ₚ l) /\
        Sorted (fun a b => fileLe localeLe a b = true) files
    end) w) as Hw.
  2: { apply wp_run in Hw as (o & w' & E & Hw). eauto. }
  unfold listFiles. apply wp_guard; [intros q [= <-] | intros; now left].
  apply wp_guard; [intros tenant Ht | intros; now left]. apply resolveTenant_ok in Ht as (-> & _).
  apply wp_bind, wp_ret. eapply wp_mono.
  { apply (execute_effect g _ _ _ _ _ (fun _ o w2 => exists l, o = Ok (sortBy (fileLe localeLe) (List.filter (listed g options) l)) /\
      sameFiles (w_db w) (w_db w2) /\ enumerates CFiles (fun f => String.eqb (f_tenantId f) (vp_tenantId p)) (w_db w) l));
      [exact Hc | exact Hhost|].
    intros rid c q x id st w1 _ Hc1 [Hl1 Hf1] _. apply wp_bind. unfold fs_list. apply wpc_find; [exact Hc1|].
    intros l Hl. apply wp_ret. split; [exact Hc1|]. split; [reflexivity|]. split; [reflexivity|]. split; [auto|].
    exists l. split; [reflexivity|]. split; [exact Hf1|]. eapply enumerates_frame; [exact Hl|].
    intros k. now apply Hf1. }
  intros o w' (_ & _ & [(e & -> & Href)|(rid & c & q & x & w2 & _ & (l & -> & Hf1 & Hl) & [_ Hf2])]); [exact Href|].
  split; [intros V c' k Hne; rewrite Hf2, Hf1 by exact Hne; reflexivity|]. split.
  - exists (List.filter (listed g options) l). split; [exact (enumerates_filter _ _ _ _ _ Hl) | apply sortBy_perm].
  - apply sortBy_sorted. intros a b. now apply fileLe_total.
Qed.
End facts.

(** ** Witnesses *)

Definition demoFile (id : string) (deletedAt : option string) : File :=
  mkFile id "t1" (Some "app") "alice" "report.pdf" None 12 None "blobs/1" None "2023-11-14T22:13:20.000Z"
    (Some "2023-11-14T22:13:20.000Z") deletedAt 1.

Definition demoFileDB : MemDB :=
  memPut CFiles "f2" (demoFile "f2" (Some "2023-11-14T22:13:20.000Z")) (memPut CFiles "f1" (demoFile "f1" None) emptyDB).

Lemma demoFile_calm : calm (demo demoFileDB).
Proof. apply demo_calm. do 2 (apply unused_put; [reflexivity|]). apply unused_empty. Qed.

Lemma demoFile_ok : filesOk demoFileDB.
Proof.
  intros k f Hk. unfold demoFileDB in Hk.
  destruct (decide (k = "f2")) as [->|N2]; [injection Hk as <-; now constructor|].
  destruct (decide (k = "f1")) as [->|N1]; [injection Hk as <-; now constructor|].
  pose proof (memPut_changed CFiles "f2" (demoFile "f2" (Some "2023-11-14T22:13:20.000Z")) (memPut CFiles "f1" (demoFile "f1" None) emptyDB)) as (_ & _ & Hf2).
  pose proof (memPut_changed CFiles "f1" (demoFile "f1" None) emptyDB) as (_ & _ & Hf1).
  rewrite Hf2, Hf1 in Hk by congruence. discriminate Hk.
Qed.

(** A rename and a deletion of ["f1"], and an attempt on the deleted ["f2"]. *)
Definition demoFileRequests : list (Caller * FileRequest) :=
  [(CVerified alice, UpdateRequest (mkUpdateFile None (JStr "f1") (Has "final.pdf") NoKey NoKey NoKey NoKey NoKey));
   (CVerified alice, DeleteRequest "t1" "f1"); (CVerified alice, DeleteRequest "t1" "f2"); (CNothing, DeleteRequest "t1" "f1")].

Lemma file_writes_confined_witness :
  exists w' f1 f2, serveFiles (demoGateway true) demoFileRequests (demo demoFileDB) = (w', Ok tt) /\
    peek CFiles "f1" (w_db w') = Some f1 /\ f_name f1 = "final.pdf" /\ f_version f1 = 3 /\
    peek CFiles "f2" (w_db w') = Some f2 /\ f2 = demoFile "f2" (Some "2023-11-14T22:13:20.000Z").
Proof.
  destruct (file_writes_confined (demoGateway true) demoFileRequests (demo demoFileDB)
    (demo_hostQuiet true) demoFile_calm demoFile_ok) as (w' & Hrun & _ & Hall).
  destruct (Hall "f2" _ eq_refl) as (f2 & Hk2 & He2). destruct (Hall "f1" _ eq_refl) as (f1 & Hk1 & _).
  exists w', f1, f2. split; [exact Hrun|]. split; [exact Hk1|].
  assert (f_name f1 = "final.pdf" /\ f_version f1 = 3) as [-> ->].
  { replace w' with (serveFiles (demoGateway true) demoFileRequests (demo demoFileDB)).1 in Hk1 by (rewrite Hrun; reflexivity).
    vm_compute in Hk1. injection Hk1 as <-. split; reflexivity. }
  split; [reflexivity|]. split; [reflexivity|]. split; [exact Hk2|].
  destruct He2 as [->|(_ & _ & Hd & _)]; [reflexivity | discriminate Hd].
Defined.

Lemma files_listed_exactly_witness :
  exists w' files, listFiles (Some (demoGateway true)) String.leb "t1" (CVerified alice) (mkFileListOptions (Some "alice")) (demo demoFileDB)
    = (w', Ok files) /\ files = [demoFile "f1" None] /\ sameFiles demoFileDB (w_db w').
Proof.
  destruct (files_listed_exactly (demoGateway true) String.leb (mkFileListOptions (Some "alice")) alice (demo demoFileDB)
    (demo_hostQuiet true) demoFile_calm) as (w' & o & Hrun & Ho).
  { intros x y E. destruct (String.leb_total x y) as [E'|E']; congruence. }
  pose proof (f_equal snd Hrun) as Hv. vm_compute in Hv. subst o. destruct Ho as (Hs & _).
  exists w'. eexists. split; [exact Hrun|]. split; [reflexivity | exact Hs].
Defined.
