(* ===== verification/ConfigProps.v ===== *)
(** * ConfigProps: the properties of configuration

    Rows stay well-formed, unique by name and inside the scope of the caller;
    the value of a stored credential reaches custody and nothing else. *)

From S2P Require Import Prelude JsString JsTime Errors Models Store Calm MemStore Principal Manifest Restrictions Evidence Gateway GatewayFacts WebhookFacts Configuration ConfigFacts Demo.
From Stdlib Require Import ZArith Lia Ascii.
Local Open Scope string_scope.
Local Open Scope Z_scope.

Section facts.
Context {DB : Type} `{FeltDBLaws DB}.
Variable g : ServiceGateway DB.
Variable declarations : list ConfigurationDeclaration.
Variable secretMetadata : bool.
Variable stackOf : exn -> option string.
Implicit Types w : World DB.

(** ** Secret metadata *)

(** Metadata rows only, and they keep their ids. *)
Definition metaMoved w w' : Prop :=
  calm w' /\ later w w' /\ metaOk (w_db w') /\
  forall V (c : coll V) k, ~ In (cname c) [cname CSecrets; cname CSecretVersions; cname CSecretAudit] -> peek c k (w_db w') = peek c k (w_db w).

Lemma metaMoved_trans w1 w2 w3 : metaMoved w1 w2 -> metaMoved w2 w3 -> metaMoved w1 w3.
Proof.
  intros (_ & L1 & _ & F1) (C & L2 & M & F2). split; [exact C|]. split; [later_tac|]. split; [exact M|].
  intros V c k Hn. rewrite (F2 V c k Hn). now apply F1.
Qed.

Lemma metaMoved_same w w' : calm w' -> later w w' -> w_db w' = w_db w -> metaOk (w_db w) -> metaMoved w w'.
Proof. intros Hc Hl Hd Hm. unfold metaMoved. rewrite Hd. split; [exact Hc|]. split; [exact Hl|]. split; [exact Hm | reflexivity]. Qed.

(** A metadata record under its own id. *)
Definition metaId {V} (c : coll V) : V -> string -> Prop :=
  match c with
  | CSecrets => fun m k => sm_id m = k
  | CSecretVersions => fun v k => sn_id v = k
  | _ => fun _ _ => True
  end.

Lemma metaMoved_changed {V} (c : coll V) k (x : V) w w' :
  calm w' -> later w w' -> changed c k (Some x) (w_db w) (w_db w') -> metaOk (w_db w) ->
  In (cname c) [cname CSecrets; cname CSecretVersions; cname CSecretAudit] ->
  metaId c x k -> metaMoved w w'.
Proof.
  intros Hc Hl Hch [Hm1 Hm2] Hin Hid. split; [exact Hc|]. split; [exact Hl|]. split.
  - split.
    + intros k' m Hk. destruct (decide ((cname CSecrets, k') = (cname c, k))) as [E|E].
      * injection E as E ->. destruct c; try discriminate E. rewrite (changed_hit _ _ _ _ _ Hch) in Hk. injection Hk as <-. exact Hid.
      * rewrite (changed_frame _ _ _ _ _ _ _ Hch E) in Hk. now apply Hm1.
    + intros k' v Hk. destruct (decide ((cname CSecretVersions, k') = (cname c, k))) as [E|E].
      * injection E as E ->. destruct c; try discriminate E. rewrite (changed_hit _ _ _ _ _ Hch) in Hk. injection Hk as <-. exact Hid.
      * rewrite (changed_frame _ _ _ _ _ _ _ Hch E) in Hk. now apply Hm2.
  - intros V' c' k' Hn. apply (changed_frame _ _ _ _ _ _ _ Hch). injection 1 as E _. apply Hn. now rewrite E.
Qed.

(** A write to a metadata collection. *)
Lemma wp_metaInsert {V} (c : coll V) id x w :
  calm w -> owned id w -> metaOk (w_db w) -> In (cname c) [cname CSecrets; cname CSecretVersions; cname CSecretAudit] ->
  metaId c x id -> wp (insert c id x) (fun o w' => o = Ok tt /\ metaMoved w w') w.
Proof.
  intros Hc Ho Hm Hin Hid. apply wpc_insert; [exact Hc | exact Ho|]. intros w' Hc' Hl' Hch.
  split; [reflexivity|]. eapply metaMoved_changed; eassumption.
Qed.

Lemma wpc_update {V} (c : coll V) k x cur Q w :
  calm w -> peek c k (w_db w) = Some cur ->
  (forall w', calm w' -> later w w' -> changed c k (Some (setVersion c (getVersion c cur + 1) x)) (w_db w) (w_db w') -> Q (Ok tt) w') ->
  wp (update c k x) Q w.
Proof.
  intros Hc Hk HQ. eapply wp_update; [apply calm_quiet, Hc | exact Hk|]. intros new db' Hch Hq.
  apply HQ; [now apply calm_db | later_ctl | exact Hch].
Qed.

Lemma wp_retireVersions previous w :
  calm w -> metaOk (w_db w) -> Forall (fun v => peek CSecretVersions (sn_id v) (w_db w) <> None) previous ->
  wp (retireVersions previous) (fun o w' => o = Ok tt /\ metaMoved w w') w.
Proof.
  revert w. induction previous as [|v previous IH]; intros w Hc Hm Hall; cbn [retireVersions].
  { apply wp_ret. split; [reflexivity|]. now apply metaMoved_same. }
  apply Forall_cons in Hall as [Hv Hall]. destruct (peek CSecretVersions (sn_id v) (w_db w)) as [cur|] eqn:Ev; [|congruence].
  apply wp_bind. eapply wpc_update; [exact Hc | exact Ev|]. intros w1 Hc1 Hl1 Hch.
  assert (metaMoved w w1) as Hw1.
  { eapply metaMoved_changed; [exact Hc1 | exact Hl1 | exact Hch | exact Hm | cbn; auto | reflexivity]. }
  eapply wp_mono; [apply IH; [exact Hc1 | apply Hw1|]|].
  { eapply Forall_impl; [exact Hall|]. cbn. intros v' Hv'. destruct (decide (sn_id v' = sn_id v)) as [->|Hne].
    - rewrite (changed_hit _ _ _ _ _ Hch). discriminate.
    - rewrite (changed_frame _ _ _ _ _ _ _ Hch) by congruence. exact Hv'. }
  intros o w2 [-> Hw2]. split; [reflexivity|]. eapply metaMoved_trans; eassumption.
Qed.

Lemma wp_saveMetadata input existing w :
  calm w -> metaOk (w_db w) -> match existing with Some e => exists k, peek CSecrets k (w_db w) = Some e | None => True end ->
  wp (saveMetadata input existing) (fun o w' => (exists s, o = Ok s) /\ metaMoved w w') w.
Proof.
  intros Hc Hm He. unfold saveMetadata. destruct existing as [e|].
  - destruct He as (k & Hk). pose proof (proj1 Hm _ _ Hk) as <-. apply wp_bind. eapply wpc_update; [exact Hc | exact Hk|].
    intros w1 Hc1 Hl1 Hch. assert (metaMoved w w1) as Hw1
      by (eapply metaMoved_changed; [exact Hc1 | exact Hl1 | exact Hch | exact Hm | cbn; auto | reflexivity]).
    apply wp_bind, wpc_find; [exact Hc1|]. intros l Hl. pose proof (proj1 (proj2 (proj2 Hw1))) as Hm1.
    apply wp_bind. eapply wp_mono; [apply wp_retireVersions; [exact Hc1 | exact Hm1|]|].
    { apply Forall_forall. intros v Hv. apply (enumerates_in _ _ _ _ _ Hl) in Hv as (k & Hv & _).
      rewrite (proj2 Hm1 _ _ Hv), Hv. discriminate. }
    intros o w2 [-> Hw2]. apply wp_ret. split; [eauto|]. eapply metaMoved_trans; eassumption.
  - apply wp_bind, wpc_uuid; [exact Hc|]. intros id w1 _ Ho Hc1 Hl1 Hd1. cbn [sm_id].
    assert (metaMoved w w1) as Hw1 by (now apply metaMoved_same). rewrite <- Hd1 in Hm.
    apply wp_bind. eapply wp_mono; [apply wp_metaInsert; [exact Hc1 | exact Ho | exact Hm | cbn; auto | reflexivity]|].
    intros o w2 [-> Hw2]. apply wp_ret. split; [eauto|]. eapply metaMoved_trans; eassumption.
Qed.

Lemma wp_addMeta {V A} (c : coll V) (mk : string -> V) (rest : M DB A) Q w :
  calm w -> metaOk (w_db w) -> In (cname c) [cname CSecrets; cname CSecretVersions; cname CSecretAudit] ->
  (forall id, metaId c (mk id) id) ->
  (forall w', metaMoved w w' -> wp rest Q w') ->
  wp (id ← randomUUID; _ ← insert c id (mk id); rest) Q w.
Proof.
  intros Hc Hm Hin Hid HQ. apply wp_bind, wpc_uuid; [exact Hc|]. intros id w1 _ Ho Hc1 Hl1 Hd1.
  assert (metaMoved w w1) as Hw1 by (now apply metaMoved_same). rewrite <- Hd1 in Hm. apply wp_bind.
  eapply wp_mono; [apply wp_metaInsert; [exact Hc1 | exact Ho | exact Hm | exact Hin | apply Hid]|].
  intros o w2 [-> Hw2]. apply HQ. eapply metaMoved_trans; eassumption.
Qed.

Lemma wp_recordStored input w :
  calm w -> metaOk (w_db w) -> wp (recordStored input) (fun o w' => (exists created, o = Ok created) /\ metaMoved w w') w.
Proof.
  intros Hc Hm. unfold recordStored. apply wp_bind, wpc_find; [exact Hc|]. intros l Hl.
  apply wp_bind. eapply wp_mono; [apply wp_saveMetadata; [exact Hc | exact Hm|]|].
  { destruct l as [|e l]; [exact I|]. destruct (proj1 (enumerates_in _ _ _ _ e Hl)) as (k & Hk & _); [left | exists k; exact Hk]. }
  intros o w1 [(s & ->) Hw1]. pose proof Hw1 as (Hc1 & _ & Hm1 & _).
  apply wp_addMeta; [exact Hc1 | exact Hm1 | cbn; auto | reflexivity|]. intros w2 Hw2. pose proof Hw2 as (Hc2 & _ & Hm2 & _).
  apply wp_addMeta; [exact Hc2 | exact Hm2 | cbn; auto | reflexivity|]. intros w3 Hw3. apply wp_ret.
  split; [eauto|]. eapply metaMoved_trans; [eapply metaMoved_trans; eassumption | exact Hw3].
Qed.

Lemma wp_recordFailure input w :
  calm w -> metaOk (w_db w) -> wp (recordFailure input) (fun o w' => o = Ok tt /\ metaMoved w w') w.
Proof.
  intros Hc Hm. unfold recordFailure. apply wp_bind, wpc_find; [exact Hc|]. intros l _.
  apply wp_bind, wpc_uuid; [exact Hc|]. intros id w1 _ Ho Hc1 Hl1 Hd1.
  assert (metaMoved w w1) as Hw1 by (now apply metaMoved_same). rewrite <- Hd1 in Hm.
  eapply wp_mono; [apply wp_metaInsert; [exact Hc1 | exact Ho | exact Hm | cbn; auto | exact I]|].
  intros o w2 [-> Hw2]. split; [reflexivity|]. eapply metaMoved_trans; eassumption.
Qed.

Lemma metaMoved_moved owned w w' : metaMoved w w' -> configInv (w_db w) -> moved owned w w'.
Proof.
  intros (Hc & Hl & Hm & Hf) [Hr _]. assert (sideOnly (w_db w) (w_db w')) as Hs.
  { intros V c k Hn. apply Hf. intros Hin. apply Hn. cbn in Hin |- *. intuition. }
  split; [exact Hc|]. split; [now apply later_after|].
  split; [intros k row Hk; rewrite Hf by (cbn; intuition discriminate); exact Hk|].
  split; [|now apply sideOnly_step]. split; [eapply sideOnly_ok; eassumption | exact Hm].
Qed.

(** ** Custody *)

(** The host's custody does not write this store. *)
Definition custodyStoreQuiet : Prop :=
  forall withSecret status store, g_credentials g = Custody withSecret status store ->
    (forall reference access w, calm w -> kept w (status reference access w).1) /\
    (forall reference value access w, calm w -> kept w (store reference value access w).1).

Lemma wp_gatewayStore x ref value options w :
  custodyStoreQuiet -> calm w -> wp (Gateway.storeCredential g (Issued x) ref value options) (fun _ w' => kept w w') w.
Proof.
  intros Hcust Hc. unfold Gateway.storeCredential, custodyContext. apply wp_bind, wp_bind, wpc_nowMs; [exact Hc|].
  intros t w1 _ _ Hc1 Hl1 Hd1. assert (kept w w1) as Hk1 by (split; auto).
  apply wp_bind, wp_outcome. destruct (assertExecutionContext _ _ _ _) as [y|e]; [|exact Hk1].
  destruct (negb _); [exact Hk1|]. apply wp_ret. unfold custody.
  destruct (g_credentials g) as [| |withSecret status store] eqn:Eg; [exact Hk1..|].
  destruct (Hcust _ _ _ Eg) as [Hstatus Hstore]. apply wp_bind, wp_tryCatch. unfold wp at 1.
  pose proof (kept_trans _ _ _ Hk1 (Hstatus (credentialReference ref (x_tenantId y) (co_provider options) (co_kind options)) (accessFor y (co_purpose options)) w1 Hc1)) as Hk2.
  destruct (status _ _ w1) as [w2 [raw|e]]; cbn [fst snd] in *; [|exact Hk2].
  destruct (negb _); [exact Hk2|]. apply wp_bind, wp_tryCatch. unfold wp at 1.
  pose proof (kept_trans _ _ _ Hk2 (Hstore (credentialReference ref (x_tenantId y) (co_provider options) (co_kind options)) value (accessFor y (co_purpose options)) w2 (proj1 Hk2))) as Hk3.
  destruct (store _ _ _ w2) as [w3 [result|e]]; cbn [fst snd] in *; [|exact Hk3].
  repeat case_match; exact Hk3.
Qed.

Lemma wp_toolStore x options id row ref value custodyOptions w :
  custodyStoreQuiet -> calm w -> peek CEvidence id (w_db w) = Some row ->
  wp (t_storeCredential (toolsFor g x options id) ref value custodyOptions)
    (fun _ w' => calm w' /\ after w w' /\ w_db w' = w_db w) w.
Proof.
  intros Hcust Hc Hrow. cbn [toolsFor t_storeCredential]. apply wp_bind. eapply wp_noteRef; [exact Hc | exact Hrow|].
  intros w1 Hc1 Ha1 Hd1 _. apply wp_bind. eapply wp_mono; [now apply wp_gatewayStore|].
  intros o w2 (Hc2 & Hl2 & Hd2). assert (after w w2) as Ha2 by (transitivity w1; [exact Ha1 | now apply later_after]).
  destruct o as [r|e]; [|split; [exact Hc2|]; split; [exact Ha2 | congruence]].
  apply wp_bind, wp_modify, wp_ret. split; [eapply calm_ctl; [exact Hc2 | reflexivity | reflexivity | later_ctl]|].
  split; [|cbn; congruence]. transitivity w2; [exact Ha2 | apply later_after; later_ctl].
Qed.

(** Moved on without touching a row. *)
Definition aside owned w w' : Prop := moved owned w w' /\ sideOnly (w_db w) (w_db w').

Lemma aside_trans owned w1 w2 w3 : aside owned w1 w2 -> aside owned w2 w3 -> aside owned w1 w3.
Proof. intros [A B] [C D]. split; [eapply moved_trans; eassumption | eapply sideOnly_trans; eassumption]. Qed.

Lemma aside_same owned w w' : calm w' -> after w w' -> w_db w' = w_db w -> configInv (w_db w) -> aside owned w w'.
Proof. intros Hc Ha Hd Hi. split; [now apply moved_same|]. rewrite Hd. intros V c k _. reflexivity. Qed.

Lemma aside_meta owned w w' : metaMoved w w' -> configInv (w_db w) -> aside owned w w'.
Proof.
  intros Hm Hi. split; [now apply metaMoved_moved|]. intros V c k Hn. apply Hm. intros Hin. apply Hn. cbn in Hin |- *. intuition.
Qed.

Lemma aside_calm owned w w' : aside owned w w' -> calm w' /\ configInv (w_db w').
Proof. intros ((A & _ & _ & B & _) & _). auto. Qed.

Lemma wp_storeInCustody owned x options id row principalId ref value provider kind w :
  custodyStoreQuiet -> calm w -> configInv (w_db w) -> peek CEvidence id (w_db w) = Some row ->
  wp (storeInCustody secretMetadata (toolsFor g x options id) owned principalId ref value provider kind)
    (fun _ w' => aside owned w w') w.
Proof.
  intros Hcust Hc Hi Hrow. unfold storeInCustody. apply wp_bind, wp_tryCatch.
  eapply wp_mono; [eapply wp_toolStore; eassumption|]. intros o w1 (Hc1 & Ha1 & Hd1).
  pose proof (aside_same owned w w1 Hc1 Ha1 Hd1 Hi) as H1. pose proof (aside_calm _ _ _ H1) as [_ [Hr1 Hm1]].
  destruct o as [stored|error].
  - apply wp_bind. destruct secretMetadata; [|apply wp_ret, wp_ret, H1].
    apply wp_bind. eapply wp_mono; [apply wp_recordStored; [exact Hc1 | exact Hm1]|].
    intros o2 w2 [(created & ->) H2]. apply wp_ret, wp_ret. eapply aside_trans; [exact H1|]. apply aside_meta; [exact H2 | now split].
  - apply wp_bind. destruct secretMetadata; [|apply wp_ret, wp_throw, H1].
    apply wp_bind, wpc_nowIso; [exact Hc1|]. intros t at_ w2 _ _ Hc2 Hl2 Hd2.
    assert (aside owned w w2) as H2 by (eapply aside_trans; [exact H1|]; apply aside_same; [exact Hc2 | now apply later_after | exact Hd2 | now split]).
    rewrite <- Hd2 in Hm1. apply wp_swallow. eapply wp_mono; [apply wp_recordFailure; [exact Hc2 | exact Hm1]|].
    intros o3 w3 [-> H3]. apply wp_throw. eapply aside_trans; [exact H2|]. apply aside_meta; [exact H3|].
    split; [now rewrite Hd2 | exact Hm1].
Qed.

(** ** Binding *)

(** What [storeCredential] found under the name it binds. *)
Definition bindable owned name (current : option ConfigurationSecret) (db : DB) : Prop :=
  match current with
  | Some c => exists k, peek CBindings k db = Some c /\ cb_scope c = owned
  | None => forall s k r, configRow db s k = Some r -> slotOf r <> (owned, name)
  end.

Lemma bindable_side owned name current db db' : sideOnly db db' -> bindable owned name current db -> bindable owned name current db'.
Proof.
  intros Hs. unfold bindable. destruct current as [c|].
  - intros (k & Hk & Hsc). exists k. rewrite Hs by (cbn; intuition discriminate). auto.
  - intros Hf s k r. rewrite (sideOnly_rows _ _ _ _ Hs). apply Hf.
Qed.

Lemma wp_bindConfiguration owned name ref required actor current w :
  calm w -> configInv (w_db w) -> isName name = true -> isCredentialRef (JStr ref) = true -> bindable owned name current (w_db w) ->
  wp (bindConfiguration owned name ref required actor current) (fun _ w' => plainly owned w w') w.
Proof.
  intros Hc Hi Hn Href Hb. unfold bindConfiguration. apply wp_bind, wpc_nowIso; [exact Hc|]. intros t at_ w1 _ _ Hc1 Hl1 Hd1.
  pose proof (plainly_same owned w w1 Hc1 Hl1 Hd1 Hi) as H1. rewrite <- Hd1 in Hi, Hb.
  destruct current as [c|].
  - destruct Hb as (k & Hk & <-). eapply wp_mono; [eapply wp_pointBinding; eassumption|].
    intros o w2 H2. eapply plainly_trans; eassumption.
  - eapply wp_mono; [eapply wp_addBinding; eassumption|]. intros o w2 H2. eapply plainly_trans; eassumption.
Qed.

(** A run of an effect without credentials under a context of its own. *)
Lemma wp_runPlainly {T} owned x options (effect : M DB T) startedAt w :
  calm w -> configInv (w_db w) ->
  (forall w1, calm w1 -> configInv (w_db w1) -> sideOnly (w_db w) (w_db w1) -> wp effect (fun _ w2 => plainly owned w1 w2) w1) ->
  wp (run g (Issued x) options (fun _ _ => effect) startedAt) (fun _ w' => moved owned w w') w.
Proof.
  intros Hc Hi Heff. eapply wp_mono.
  { apply (run_bracket g x options (fun _ _ => effect) startedAt (fun id o w2 => exists w1, peek CEvidence id (w_db w) = None /\
      changed CEvidence id (Some (evidenceFor x options id startedAt Started)) (w_db w) (w_db w1) /\ moved owned w1 w2)); [exact Hc|].
    intros id w1 Hc1 Hl1 Hnil Hn Hch. assert (sideOnly (w_db w) (w_db w1)) as Hs by (eapply sideOnly_changed; [|exact Hch]; cbn; auto).
    pose proof (configInv_changed _ _ _ _ Hch Hi) as Hi1.
    eapply wp_mono; [now apply Heff|]. intros o w2 [(Hc2 & Ha2 & Hk2 & Hi2 & Hs2) Hres].
    split; [exact Hc2|]. split; [exact Ha2|]. split; [apply Hk2, (changed_hit _ _ _ _ _ Hch)|]. split.
    - unfold refUpdate. intros ->. unfold resolvedRefs in *. rewrite Hres, Hnil. exact I.
    - exists w1. split; [exact Hn|]. split; [exact Hch|]. split; auto. }
  intros o w' (Hc' & Ha' & [(e & -> & Hd)|(id & w2 & row & (w1 & Hn & Hch1 & (Hc2 & Ha2 & Hk2 & Hi2 & Hs2)) & _ & Hl' & Hch')]);
    [now apply moved_same|].
  split; [exact Hc'|]. split; [exact Ha'|].
  assert (sideOnly (w_db w2) (w_db w')) as Hside by (eapply sideOnly_changed; [|exact Hch']; cbn; auto).
  split; [|split].
  - intros k r Hk. assert (k <> id) as Hne by congruence.
    rewrite (changed_frame _ _ _ _ _ _ _ Hch') by congruence. apply Hk2.
    rewrite (changed_frame _ _ _ _ _ _ _ Hch1) by congruence. exact Hk.
  - exact (configInv_changed _ _ _ _ Hch' Hi2).
  - eapply configStep_trans; [apply sideOnly_step; eapply sideOnly_changed; [|exact Hch1]; cbn; auto|].
    eapply configStep_trans; [exact Hs2 | now apply sideOnly_step].
Qed.

Lemma wp_storeAndBind owned x options id row p ref value provider kind name required current w :
  hostQuiet g -> custodyStoreQuiet -> calm w -> configInv (w_db w) -> peek CEvidence id (w_db w) = Some row ->
  isCredentialRef (JStr ref) = true ->
  match name with Some n => isName n = true /\ bindable owned n current (w_db w) | None => current = None end ->
  wp (storeAndBind secretMetadata g p owned ref value provider kind name required (toolsFor g x options id) current)
    (fun _ w' => moved owned w w') w.
Proof.
  intros Hhost Hcust Hc Hi Hrow Href Hname. unfold storeAndBind. apply wp_bind.
  apply wp_mono with (Q := fun o w1 => aside owned w w1).
  { destruct (bindingCapability name current ref) as [cap|]; [|apply wp_ret; now apply aside_same].
    apply wp_bind, wpc_uuid; [exact Hc|]. intros rid w1 _ _ Hc1 Hl1 Hd1. apply wp_bind.
    eapply wp_mono; [apply authorize_quiet; [exact Hhost | exact Hc1]|]. intros o w2 (Hc2 & Hl2 & Hd2).
    assert (aside owned w w2) as H2 by (apply aside_same; [exact Hc2 | after_tac | congruence | exact Hi]).
    destruct o; [apply wp_ret|]; exact H2. }
  intros o w1 H1. destruct o as [context|e]; [|apply H1]. pose proof (aside_calm _ _ _ H1) as [Hc1 Hi1].
  apply wp_bind. eapply wp_mono; [eapply wp_storeInCustody; [exact Hcust | exact Hc1 | exact Hi1|]|].
  { destruct H1 as ((_ & _ & Hk & _) & _). apply Hk, Hrow. }
  intros o w2 H2. pose proof (aside_trans _ _ _ _ H1 H2) as H12. destruct o as [stored|e]; [|apply H12].
  pose proof (aside_calm _ _ _ H2) as [Hc2 Hi2]. apply wp_bind.
  destruct name as [n|]; [|apply wp_ret, wp_ret, H12]. destruct context as [y|]; [|apply wp_ret, wp_ret, H12].
  destruct Hname as [Hn Hb]. apply wp_bind, wpc_nowIso; [exact Hc2|]. intros t at_ w3 _ _ Hc3 Hl3 Hd3. rewrite <- Hd3 in Hi2.
  assert (aside owned w w3) as H3 by (eapply aside_trans; [exact H12|]; apply aside_same; [exact Hc3 | now apply later_after | exact Hd3 | now rewrite <- Hd3]).
  apply wp_bind. eapply wp_mono; [apply (wp_runPlainly owned); [exact Hc3 | exact Hi2|]|].
  { intros w4 Hc4 Hi4 Hs4. apply wp_bindConfiguration; [exact Hc4 | exact Hi4 | exact Hn | exact Href|].
    eapply bindable_side; [exact Hs4|]. eapply bindable_side; [apply H3 | exact Hb]. }
  intros o w4 H4. pose proof (moved_trans _ _ _ _ (proj1 H3) H4) as H34. destruct o; [apply wp_ret, wp_ret|]; exact H34.
Qed.

Lemma wp_storeEffect owned x options id row p ref value provider kind name required w :
  hostQuiet g -> custodyStoreQuiet -> calm w -> configInv (w_db w) -> peek CEvidence id (w_db w) = Some row ->
  isCredentialRef (JStr ref) = true -> match name with Some n => isName n = true | None => True end ->
  wp (storeEffect secretMetadata g p owned ref value provider kind name required (toolsFor g x options id))
    (fun _ w' => moved owned w w') w.
Proof.
  intros Hhost Hcust Hc Hi Hrow Href Hname. unfold storeEffect.
  pose proof (moved_same owned w w Hc (reflexivity w) eq_refl Hi) as Hmv.
  destruct name as [n|]; [|eapply wp_storeAndBind; eauto].
  apply wp_bind, wp_getVariable with (owned := owned) (name := n); [exact Hc | intros; apply wp_throw, Hmv|]. intros Hfv.
  apply wp_bind, wp_getSecret with (owned := owned) (name := n); [exact Hc | |].
  - intros k b Hk Hsc _. eapply wp_storeAndBind; eauto. split; [exact Hname|]. exists k. auto.
  - intros Hfs. eapply wp_storeAndBind; eauto. split; [exact Hname|]. exact (bothFree _ _ _ Hfv Hfs).
Qed.

(** ** Operations *)

Lemma wp_configOperation {T} owned name p r options (effect : ServiceExecutionContext -> EffectTools -> M DB T) w :
  hostQuiet g -> calm w -> configInv (w_db w) ->
  (forall x id row w1, calm w1 -> configInv (w_db w1) -> peek CEvidence id (w_db w1) = Some row ->
     wp (effect x (toolsFor g x options id))
       (fun _ w2 => moved owned w1 w2 /\ (o_credentialRef options = None -> w_resolved w2 = w_resolved w1)) w1) ->
  wp (execute g name (CVerified p) r options effect)
    (fun _ w' => calm w' /\ configInv (w_db w') /\ configStep owned (w_db w) (w_db w')) w.
Proof.
  intros Hhost Hc Hi Heff. eapply wp_mono.
  { apply (execute_spec g name (CVerified p) r options effect (fun _ _ _ o w2 => exists w1, sideOnly (w_db w) (w_db w1) /\ moved owned w1 w2));
      [exact Hc | exact Hhost|].
    intros rid c q x id st w1 _ Hc1 Hl1 Hnil Hn Hch.
    assert (sideOnly (w_db w) (w_db w1)) as Hs by (eapply sideOnly_changed; [|exact Hch]; cbn; auto).
    pose proof (changed_hit _ _ _ _ _ Hch) as Hrow. eapply wp_mono; [eapply (Heff x id); [exact Hc1 | exact (configInv_changed _ _ _ _ Hch Hi) | exact Hrow]|].
    intros o w2 [Hm Hres]. pose proof Hm as (Hc2 & Ha2 & Hk2 & _). split; [exact Hc2|]. split; [exact Ha2|]. split; [now apply Hk2|].
    split; [|exists w1; now split]. intros E. unfold refUpdate. rewrite E. unfold resolvedRefs in *. now rewrite (Hres E), Hnil. }
  intros o w' (Hc' & _ & [(e & _ & Href)|(rid & c & q & x & id & st & w2 & row & _ & (w1 & Hs & (_ & _ & _ & Hi2 & Hs2)) & _ & _ & Hch)]);
    (split; [exact Hc'|]).
  - assert (sideOnly (w_db w) (w_db w')) as Hs.
    { intros V k key Hn. apply (onlyRefusal_frame _ _ Href). intros E. apply Hn. rewrite E. now left. }
    split; [|now apply sideOnly_step]. exact (configInv_evidence _ _ (onlyRefusal_frame _ _ Href) Hi).
  - assert (sideOnly (w_db w2) (w_db w')) as Hs' by (eapply sideOnly_changed; [|exact Hch]; cbn; auto). split.
    + exact (configInv_changed _ _ _ _ Hch Hi2).
    + eapply configStep_trans; [apply sideOnly_step, Hs|]. eapply configStep_trans; [exact Hs2 | now apply sideOnly_step].
Qed.

(** The usual case: an effect that names no credential. *)
Lemma wp_plainOperation {T} owned name p r options (effect : M DB T) w :
  hostQuiet g -> calm w -> configInv (w_db w) ->
  (forall w1, calm w1 -> configInv (w_db w1) -> wp effect (fun _ w2 => plainly owned w1 w2) w1) ->
  wp (execute g name (CVerified p) r options (fun _ _ => effect))
    (fun _ w' => calm w' /\ configInv (w_db w') /\ configStep owned (w_db w) (w_db w')) w.
Proof.
  intros Hhost Hc Hi Heff. apply wp_configOperation; [exact Hhost | exact Hc | exact Hi|].
  intros x id row w1 Hc1 Hi1 _. eapply wp_mono; [now apply Heff|]. intros o w2 [Hm Hr]. now split.
Qed.

(** A read that finds nothing to do, or ends the operation. *)
Lemma plainly_refl owned w : calm w -> configInv (w_db w) -> plainly owned w w.
Proof. intros Hc Hi. now apply plainly_same. Qed.

Inductive ConfigRequest :=
| CreateVariable (input : VariableInput)
| UpdateVariable (input : VariableInput)
| CreateSecret (input : CredentialInput)
| RotateSecret (input : CredentialInput)
| StoreCredential (input : CredentialStoreInput)
| DeleteConfiguration (scope : Scope) (name : string) (kind : ConfigurationKind).

Definition requestScope (request : ConfigRequest) : Scope :=
  match request with
  | CreateVariable i | UpdateVariable i => vi_scope i
  | CreateSecret i | RotateSecret i => ci_scope i
  | StoreCredential i => inProduction (st_scope i)
  | DeleteConfiguration scope _ _ => scope
  end.

Definition serveConfiguration (caller : Caller) (request : ConfigRequest) : M DB unit :=
  match request with
  | CreateVariable i => _ ← createVariable (Some g) i caller; mret tt
  | UpdateVariable i => _ ← updateVariable (Some g) i caller; mret tt
  | CreateSecret i => _ ← createSecret (Some g) i caller; mret tt
  | RotateSecret i => _ ← rotateSecret (Some g) i caller; mret tt
  | StoreCredential i => _ ← storeCredential (Some g) secretMetadata stackOf (Some i) caller; mret tt
  | DeleteConfiguration scope name kind => deleteConfiguration (Some g) scope name kind caller
  end.

(** What one request did: a step on the scope that its caller owns, or nothing. *)
Definition served (caller : Caller) (request : ConfigRequest) w w' : Prop :=
  calm w' /\ configInv (w_db w') /\
  (w_db w' = w_db w \/
   exists p owned, own (Some g) (requestScope request) caller = Ok (g, p, owned) /\ configStep owned (w_db w) (w_db w')).

Lemma own_gateway scope caller g' p owned : own (Some g) scope caller = Ok (g', p, owned) -> g' = g.
Proof. unfold own, configGateway. destruct (resolveConfigurationOwnership _ _ _) as [[]|]; [intros [= -> _ _]; reflexivity | discriminate]. Qed.

Lemma validateVariable_ok input name value :
  validateVariable input = Ok (name, value) -> isName name = true /\ value <> "".
Proof.
  unfold validateVariable, validateName. destruct (vi_name input); try discriminate. destruct (isName s) eqn:En; [|discriminate].
  destruct (vi_value input) as [| | | | |v| | |]; try discriminate. destruct (truthy v) eqn:Et; [|discriminate].
  intros [= <- <-]. split; [exact En | now apply truthy_spec].
Qed.

Lemma validateName_ok v name : validateName v = Ok name -> isName name = true.
Proof. unfold validateName. destruct v; try discriminate. destruct (isName s) eqn:En; [intros [= <-]; exact En | discriminate]. Qed.

Lemma requireRef_valid v field ref : requireCredentialRef v field = Ok ref -> isCredentialRef (JStr ref) = true.
Proof. intros E. apply requireCredentialRef_ok in E as [-> E]. exact E. Qed.

Lemma optionalName_ok v name : optionalName v = Ok name -> match name with Some n => isName n = true | None => True end.
Proof.
  unfold optionalName. destruct (isUndef v); [intros [= <-]; exact I|]. destruct (validateName v) as [s|] eqn:E; [|discriminate].
  intros [= <-]. eapply validateName_ok, E.
Qed.

Lemma wp_createVariable owned name value required p w :
  calm w -> configInv (w_db w) -> isName name = true -> value <> "" ->
  wp (current ← getVariable owned name; secret ← getSecret owned name;
      match current, secret with
       | None, None =>
           timestamp ← nowIso; id ← randomUUID;
           let item := mkVariable id owned name value (orElse required false) timestamp timestamp (vp_principalId p) 1 in
           _ ← saveVariable item None;
           _ ← recordConfiguration "configuration.created" owned name false (vp_principalId p) "created" true;
           mret (variableView item)
       | _, _ => throw (alreadyExists name)
       end) (fun _ w' => plainly owned w w') w.
Proof.
  intros Hc Hi Hn Hv. pose proof (plainly_refl owned w Hc Hi) as Hrefl.
  apply wp_bind, wp_getVariable with (owned := owned) (name := name); [exact Hc | |].
  { intros k v _ _ _. apply wp_bind, wp_getSecret with (owned := owned) (name := name); [exact Hc | |]; intros; apply wp_throw, Hrefl. }
  intros Hfv. apply wp_bind, wp_getSecret with (owned := owned) (name := name); [exact Hc | intros; apply wp_throw, Hrefl|]. intros Hfs.
  pose proof (bothFree _ _ _ Hfv Hfs) as Hfree.
  apply wp_bind, wpc_nowIso; [exact Hc|]. intros t at_ w1 _ _ Hc1 Hl1 Hd1.
  apply wp_bind, wpc_uuid; [exact Hc1|]. intros id w2 _ Ho Hc2 Hl2 Hd2. cbv zeta. unfold saveVariable. cbn [cv_id].
  apply wp_bind, wp_bind, wpc_insert; [exact Hc2 | exact Ho|]. intros w3 Hc3 Hl3 Hch. apply wp_ret, wp_thenRecord.
  rewrite Hd2, Hd1 in Hch. apply rowChanged_variable in Hch.
  eapply plainly_row; [exact Hc3 | later_tac | exact Hi | exact Hch | |].
  - cbn. rewrite <- Hd1, <- Hd2. destruct Ho as [_ Ho]. now rewrite Ho.
  - eapply free_fits; [exact Hfree | | reflexivity]. split; [exact Hn | split; [reflexivity | exact Hv]].
Qed.

Lemma wp_updateVariable owned name value required actor w :
  calm w -> configInv (w_db w) -> value <> "" ->
  wp (current ← getVariable owned name;
      match current with
       | None => throw (notFound name)
       | Some c =>
           updatedAt ← nowIso;
           let item := c <| cv_value := value |> <| cv_required := orElse required (cv_required c) |>
                         <| cv_updatedAt := updatedAt |> <| cv_version := cv_version c + 1 |> in
           _ ← saveVariable item (Some (cv_version c));
           _ ← recordConfiguration "configuration.updated" (cv_scope item) (cv_name item) false actor "updated" true;
           mret (variableView item)
       end) (fun _ w' => plainly owned w w') w.
Proof.
  intros Hc Hi Hv. apply wp_bind, wp_getVariable with (owned := owned) (name := name);
    [exact Hc | | intros; now apply wp_throw, plainly_refl].
  intros k c Hk Hsc _. pose proof Hi as [[Hok Hu] _].
  assert (configRow (w_db w) false k = Some (inl c)) as Hrow by (cbn; now rewrite Hk).
  destruct (Hok _ _ _ Hrow) as (Hn & Hid & _).
  apply wp_bind, wpc_nowIso; [exact Hc|]. intros t at_ w1 _ _ Hc1 Hl1 Hd1. cbv zeta. unfold saveVariable.
  match goal with |- context [updateIfVersion CVariables ?i _ _] => change i with (cv_id c) end. rewrite Hid. rewrite <- Hd1 in Hk.
  apply wp_bind, wp_bind. change (cv_version c) with (getVersion CVariables c) at 2.
  apply (wpc_cas CVariables k c); [exact Hc1 | exact Hk|]. cbv zeta. intros w2 Hc2 Hl2 Hch. apply wp_ret, wp_thenRecord.
  rewrite Hd1 in Hch. apply rowChanged_variable in Hch. eapply plainly_row; [exact Hc2 | later_tac | exact Hi | exact Hch | |].
  - rewrite Hrow. exact Hsc.
  - cbn [option_map]. eapply same_fits; [exact (conj Hok Hu) | exact Hrow | reflexivity | exact Hsc|].
    split; [exact Hn|]. split; [exact Hid | exact Hv].
Qed.

Lemma wp_createSecret owned name ref required actor w :
  calm w -> configInv (w_db w) -> isName name = true -> isCredentialRef (JStr ref) = true ->
  wp (current ← getSecret owned name; variable ← getVariable owned name;
      match current, variable with
       | None, None => timestamp ← nowIso; addBinding owned name ref required actor timestamp
       | _, _ => throw (alreadyExists name)
       end) (fun _ w' => plainly owned w w') w.
Proof.
  intros Hc Hi Hn Href. pose proof (plainly_refl owned w Hc Hi) as Hrefl.
  apply wp_bind, wp_getSecret with (owned := owned) (name := name); [exact Hc | |].
  { intros k v _ _ _. apply wp_bind, wp_getVariable with (owned := owned) (name := name); [exact Hc | |]; intros; apply wp_throw, Hrefl. }
  intros Hfs. apply wp_bind, wp_getVariable with (owned := owned) (name := name); [exact Hc | intros; apply wp_throw, Hrefl|]. intros Hfv.
  apply wp_bind, wpc_nowIso; [exact Hc|]. intros t at_ w1 _ _ Hc1 Hl1 Hd1.
  eapply wp_mono; [apply (wp_addBinding owned); [exact Hc1 | now rewrite Hd1 | exact Hn | exact Href | rewrite Hd1; now apply bothFree]|].
  intros o w2 H2. eapply plainly_trans; [|exact H2]. now apply plainly_same.
Qed.

Lemma wp_rotateSecret owned name ref required actor w :
  calm w -> configInv (w_db w) -> isCredentialRef (JStr ref) = true ->
  wp (current ← getSecret owned name;
      match current with
       | None => throw (notFound name)
       | Some c => updatedAt ← nowIso; pointBinding c ref required actor updatedAt
       end) (fun _ w' => plainly owned w w') w.
Proof.
  intros Hc Hi Href. apply wp_bind, wp_getSecret with (owned := owned) (name := name);
    [exact Hc | | intros; now apply wp_throw, plainly_refl].
  intros k c Hk <- _. apply wp_bind, wpc_nowIso; [exact Hc|]. intros t at_ w1 _ _ Hc1 Hl1 Hd1.
  rewrite <- Hd1 in Hk. eapply wp_mono; [eapply wp_pointBinding; [exact Hc1 | now rewrite Hd1 | exact Hk | exact Href]|].
  intros o w2 H2. eapply plainly_trans; [|exact H2]. now apply plainly_same.
Qed.

Lemma wp_deleteVariable owned name actor w :
  calm w -> configInv (w_db w) ->
  wp (item ← getVariable owned name;
      match item with
       | None => mret tt
       | Some v => _ ← deleteVariable v; recordConfiguration "configuration.deleted" (cv_scope v) (cv_name v) false actor "deleted" false
       end) (fun _ w' => plainly owned w w') w.
Proof.
  intros Hc Hi. apply wp_bind, wp_getVariable with (owned := owned) (name := name); [exact Hc | | intros; now apply wp_ret, plainly_refl].
  intros k v Hk Hsc _. assert (configRow (w_db w) false k = Some (inl v)) as Hrow by (cbn; now rewrite Hk).
  destruct (proj1 (proj1 Hi) _ _ _ Hrow) as (_ & Hid & _). unfold deleteVariable. rewrite Hid.
  apply wp_bind, wpc_remove; [exact Hc | eauto|]. intros w1 Hc1 Hl1 Hch. apply rowChanged_variable in Hch.
  assert (plainly owned w w1) as H1 by (eapply plainly_row; [exact Hc1 | exact Hl1 | exact Hi | exact Hch | rewrite Hrow; exact Hsc | exact I]).
  eapply wp_mono; [apply wp_recordConfiguration; [exact Hc1 | apply H1]|]. intros o w2 [_ H2]. eapply plainly_trans; eassumption.
Qed.

Lemma wp_deleteSecret owned name actor w :
  calm w -> configInv (w_db w) ->
  wp (item ← getSecret owned name;
      match item with
       | None => mret tt
       | Some b => _ ← deleteSecret b; recordConfiguration "secret.deleted" (cb_scope b) (cb_name b) true actor "deleted" false
       end) (fun _ w' => plainly owned w w') w.
Proof.
  intros Hc Hi. apply wp_bind, wp_getSecret with (owned := owned) (name := name); [exact Hc | | intros; now apply wp_ret, plainly_refl].
  intros k b Hk Hsc _. assert (configRow (w_db w) true k = Some (inr b)) as Hrow by (cbn; now rewrite Hk).
  destruct (proj1 (proj1 Hi) _ _ _ Hrow) as (_ & Hid & _). unfold deleteSecret. rewrite Hid.
  apply wp_bind, wpc_remove; [exact Hc | eauto|]. intros w1 Hc1 Hl1 Hch. apply rowChanged_binding in Hch.
  assert (plainly owned w w1) as H1 by (eapply plainly_row; [exact Hc1 | exact Hl1 | exact Hi | exact Hch | rewrite Hrow; exact Hsc | exact I]).
  eapply wp_mono; [apply wp_recordConfiguration; [exact Hc1 | apply H1]|]. intros o w2 [_ H2]. eapply plainly_trans; eassumption.
Qed.

(** ** Requests *)

(** An operation behind the ownership check. *)
Lemma wp_owned {T} caller request (k : ServiceGateway DB * VerifiedPrincipal * ConfigurationScope -> M DB T) w :
  calm w -> configInv (w_db w) ->
  (forall p owned, own (Some g) (requestScope request) caller = Ok (g, p, owned) ->
     wp (k (g, p, owned)) (fun _ w' => calm w' /\ configInv (w_db w') /\ configStep owned (w_db w) (w_db w')) w) ->
  wp (ofOutcome (own (Some g) (requestScope request) caller) ≫= k) (fun _ w' => served caller request w w') w.
Proof.
  intros Hc Hi Hk. apply wp_guard; [|intros; split; [exact Hc|]; split; [exact Hi | now left]].
  intros [[g' p] owned] Ho. pose proof (own_gateway _ _ _ _ _ Ho) as ->. eapply wp_mono; [now apply Hk|].
  intros o w' (Hc' & Hi' & Hs). split; [exact Hc'|]. split; [exact Hi'|]. right. eauto.
Qed.

(** A guard of an operation: it ends there, or goes on with its answer. *)
Lemma wp_guarded {A B} owned (o : outcome A) (k : A -> M DB B) w :
  calm w -> configInv (w_db w) ->
  (forall a, o = Ok a -> wp (k a) (fun _ w' => calm w' /\ configInv (w_db w') /\ configStep owned (w_db w) (w_db w')) w) ->
  wp (ofOutcome o ≫= k) (fun _ w' => calm w' /\ configInv (w_db w') /\ configStep owned (w_db w) (w_db w')) w.
Proof.
  intros Hc Hi Hk. apply wp_guard; [exact Hk|]. intros e. split; [exact Hc|]. split; [exact Hi|].
  apply sideOnly_step. intros V c k' _. reflexivity.
Qed.

Lemma wp_discard {A} (m : M DB A) (P : World DB -> Prop) w : wp m (fun _ w' => P w') w -> wp (_ ← m; mret tt) (fun _ w' => P w') w.
Proof. intros Hm. apply wp_bind. eapply wp_mono; [exact Hm|]. intros [a|e] w' Hw'; exact Hw'. Qed.

Lemma wp_storeRequest i caller w :
  hostQuiet g -> custodyStoreQuiet -> calm w -> configInv (w_db w) ->
  wp (storeCredentialUnredacted (Some g) secretMetadata (Some i) caller) (fun _ w' => served caller (StoreCredential i) w w') w.
Proof.
  intros Hhost Hcust Hc Hi. assert (served caller (StoreCredential i) w w) as Hno by (split; [exact Hc|]; split; [exact Hi | now left]).
  unfold storeCredentialUnredacted.
  apply wp_guard; [intros ref Href | intros; exact Hno]. apply wp_guard; [intros value _ | intros; exact Hno].
  apply wp_guard; [intros provider _ | intros; exact Hno]. apply wp_guard; [intros kind _ | intros; exact Hno].
  apply wp_guard; [intros name Hname | intros; exact Hno].
  apply requireRef_valid in Href. apply optionalName_ok in Hname.
  apply (wp_owned caller (StoreCredential i)); [exact Hc | exact Hi|]. intros p owned _.
  apply wp_configOperation; [exact Hhost | exact Hc | exact Hi|]. intros x id row w1 Hc1 Hi1 Hrow.
  eapply wp_mono; [eapply wp_storeEffect; eassumption|]. intros o w2 H2. split; [exact H2 | discriminate].
Qed.

Lemma serveConfiguration_served caller request w :
  hostQuiet g -> custodyStoreQuiet -> calm w -> configInv (w_db w) ->
  wp (serveConfiguration caller request) (fun _ w' => served caller request w w') w.
Proof.
  intros Hhost Hcust Hc Hi. assert (served caller request w w) as Hno by (split; [exact Hc|]; split; [exact Hi | now left]).
  destruct request as [i|i|i|i|i|scope name kind]; cbn [serveConfiguration]; [apply wp_discard..|].
  - apply (wp_owned caller (CreateVariable i)); [exact Hc | exact Hi|]. intros p owned _.
    apply wp_guarded; [exact Hc | exact Hi|]. intros [name value] Hv. apply validateVariable_ok in Hv as [Hn Hv].
    apply wp_plainOperation; [exact Hhost | exact Hc | exact Hi|]. intros w1 Hc1 Hi1. now apply wp_createVariable.
  - apply (wp_owned caller (UpdateVariable i)); [exact Hc | exact Hi|]. intros p owned _.
    apply wp_guarded; [exact Hc | exact Hi|]. intros [name value] Hv. apply validateVariable_ok in Hv as [Hn Hv].
    apply wp_plainOperation; [exact Hhost | exact Hc | exact Hi|]. intros w1 Hc1 Hi1. now apply wp_updateVariable.
  - apply wp_guard; [intros [] _ | intros; exact Hno].
    apply (wp_owned caller (CreateSecret i)); [exact Hc | exact Hi|]. intros p owned _.
    apply wp_guarded; [exact Hc | exact Hi|]. intros name Hn. apply wp_guarded; [exact Hc | exact Hi|]. intros ref Href.
    apply wp_plainOperation; [exact Hhost | exact Hc | exact Hi|]. intros w1 Hc1 Hi1.
    apply wp_createSecret; [exact Hc1 | exact Hi1 | eapply validateName_ok, Hn | eapply requireRef_valid, Href].
  - apply wp_guard; [intros [] _ | intros; exact Hno].
    apply (wp_owned caller (RotateSecret i)); [exact Hc | exact Hi|]. intros p owned _.
    apply wp_guarded; [exact Hc | exact Hi|]. intros name Hn. apply wp_guarded; [exact Hc | exact Hi|]. intros ref Href.
    apply wp_plainOperation; [exact Hhost | exact Hc | exact Hi|]. intros w1 Hc1 Hi1.
    apply wp_rotateSecret; [exact Hc1 | exact Hi1 | eapply requireRef_valid, Href].
  - unfold storeCredential. apply wp_tryCatch. eapply wp_mono; [now apply wp_storeRequest|]. intros [a|e] w' Hw'; exact Hw'.
  - apply (wp_owned caller (DeleteConfiguration scope name kind)); [exact Hc | exact Hi|]. intros p owned _. destruct kind;
      (apply wp_plainOperation; [exact Hhost | exact Hc | exact Hi|]; intros w1 Hc1 Hi1); [now apply wp_deleteVariable | now apply wp_deleteSecret].
Qed.

(** Requests one after the other, whatever becomes of each. *)
Fixpoint serveConfigurations (requests : list (Caller * ConfigRequest)) : M DB unit :=
  match requests with
  | [] => mret tt
  | (caller, request) :: rest => _ ← swallow (serveConfiguration caller request); serveConfigurations rest
  end.

(** Rows a list of requests may write: those of the scopes its callers own. *)
Definition reachedBy (requests : list (Caller * ConfigRequest)) (o : option ConfigurationRow) : Prop :=
  match o with
  | None => True
  | Some r => exists caller request p, In (caller, request) requests /\
      own (Some g) (requestScope request) caller = Ok (g, p, (slotOf r).1)
  end.

(** C11: Whatever configuration requests arrive, from whomever and however they
    end, the rows keep their shape (own id, an uppercase name, a value that is
    not empty or a credential reference) and a scope (tenant, application,
    environment) never holds two rows of one name, variables and bindings
    together.  A row is as it was unless it was, and if it is still there
    still is, in the scope that one of the callers owns: its own tenant, this
    application, and the environment it asked for. *)
Theorem configuration_rows_confined requests w :
  hostQuiet g -> custodyStoreQuiet -> calm w -> configInv (w_db w) ->
  exists w', serveConfigurations requests w = (w', Ok tt) /\ configInv (w_db w') /\
    forall s k, configRow (w_db w') s k = configRow (w_db w) s k \/
      reachedBy requests (configRow (w_db w) s k) /\ reachedBy requests (configRow (w_db w') s k).
Proof.
  intros Hhost Hcust Hc Hi.
  assert (forall all, incl requests all -> wp (serveConfigurations requests) (fun o w' => o = Ok tt /\ configInv (w_db w') /\
    forall s k, configRow (w_db w') s k = configRow (w_db w) s k \/
      reachedBy all (configRow (w_db w) s k) /\ reachedBy all (configRow (w_db w') s k)) w) as Hrun.
  { intros all. revert w Hc Hi. induction requests as [|[caller request] rest IH]; intros w Hc Hi Hincl; cbn [serveConfigurations].
    { apply wp_ret. split; [reflexivity|]. split; [exact Hi | now left]. }
    apply wp_bind, wp_swallow. eapply wp_mono; [now apply serveConfiguration_served|]. intros _ w1 (Hc1 & Hi1 & Hst).
    eapply wp_mono; [apply IH; [exact Hc1 | exact Hi1 | intros r Hr; apply Hincl; now right]|].
    intros o w' (Ho & Hi' & Hrows). split; [exact Ho|]. split; [exact Hi'|]. intros s k.
    assert (configRow (w_db w1) s k = configRow (w_db w) s k \/
      reachedBy all (configRow (w_db w) s k) /\ reachedBy all (configRow (w_db w1) s k)) as Hfirst.
    { destruct Hst as [->|(p & owned & Ho1 & Hst & _)]; [now left|]. destruct (Hst s k) as [E|[A B]]; [now left | right].
      assert (forall o', inScope owned o' -> reachedBy all o') as Hreach.
      { intros [r|]; [|exact id]. cbn. intros ->. exists caller, request, p. split; [apply Hincl; now left | exact Ho1]. }
      split; now apply Hreach. }
    destruct (Hrows s k) as [->|[A B]], Hfirst as [E|[A1 B1]]; [now left | now right | right | right; now split].
    split; [now rewrite <- E | exact B]. }
  destruct (proj1 (wp_run _ _ _) (Hrun _ (incl_refl _))) as (o & w' & E & -> & Hrest). exists w'. auto.
Qed.
End facts.

(** ** The value of a stored credential *)

(** The input with another value. *)
Definition withValue (v : string) (i : CredentialStoreInput) : CredentialStoreInput :=
  mkStoreInput (st_scope i) (st_ref i) (JStr v) (st_provider i) (st_kind i) (st_name i) (st_required i).

(** The texts [credential.store] writes by itself when it redacts. *)
Definition redactedTexts : list string :=
  ["credential.store failed"; "credential.store input is invalid"] ++
  map (fun c => "credential.store failed (" ++ codeName c ++ ")")
    [DENIED; AUTHORITY_UNAVAILABLE; AUTHORIZATION_TIMEOUT; INVALID_REQUEST; PROVIDER_ERROR; UNAUTHENTICATED; NOT_FOUND; CUSTODY_READ_ONLY].

(** A text that is missing, or does not hold the value. *)
Definition silent (v : string) (text : option string) : Prop :=
  match text with Some t => includes t v = false | None => True end.

(** The error holds the value in none of its message, reason and stack, or it
    is one of the fixed replacements, without a reason. *)
Definition freeOf (stackOf : exn -> option string) (v : string) (e : exn) : Prop :=
  let reason := match e with ServiceAuthorityError _ _ d => d_reason d | _ => None end in
  silent v (Some (errorMessage e)) /\ silent v reason /\ silent v (match e with Thrown _ => None | _ => stackOf e end) \/
  In (errorMessage e) redactedTexts /\ reason = None.

Lemma redacted_text stackOf error v : v <> "" -> freeOf stackOf v (redactValue stackOf error (JStr v)).
Proof.
  intros Hv. unfold redactValue. destruct v as [|c v]; [congruence|]. set (s := String c v).
  assert (forall c d, freeOf stackOf s (ServiceAuthorityError c ("credential.store failed (" ++ codeName c ++ ")") (mkDetails (ifPresent (d_capability d)) (ifPresent (d_decisionId d)) None))) as Hcode
    by (intros [] d; right; (split; [cbn; auto 15 | reflexivity])).
  assert (forall b : bool, freeOf stackOf s (if b then ConfigurationValidationError "credential.store input is invalid"
      else ServiceAuthorityError AUTHORITY_UNAVAILABLE "credential.store failed" noDetails)) as Hfixed
    by (intros []; right; (split; [cbn; auto | reflexivity])).
  destruct error as [code m d|code m|m|n m|st code m|repr]; cbv zeta;
    try (destruct (_ && _) eqn:E; [|first [apply Hcode | apply Hfixed]]; bool_hyps; left; split; [assumption|]; split;
      [first [exact I | unfold silent; destruct (d_reason d); [assumption | exact I]] |
       unfold silent; destruct (stackOf _); [assumption | exact I]]).
  destruct (includes repr s) eqn:E; [exact (Hfixed false) | left; split; [exact E | split; exact I]].
Qed.

Section value.
Context {DB : Type} `{FeltDB DB}.
Variable secretMetadata : bool.
Variable stackOf : exn -> option string.

(** Custody does not tell the two values apart. *)
Definition sameToCustody (g : ServiceGateway DB) (v v' : string) : Prop :=
  forall withSecret status store, g_credentials g = Custody withSecret status store ->
    forall reference access w, store reference v access w = store reference v' access w.

Lemma outcome_bind {A B} (a : A) (k : A -> M DB B) w : (ofOutcome (Ok a) ≫= k) w = k a w.
Proof. reflexivity. Qed.

Lemma run_ext {T} (g : ServiceGateway DB) x options (f f' : ServiceExecutionContext -> EffectTools -> M DB T) startedAt w :
  (forall id w', f x (toolsFor g x options id) w' = f' x (toolsFor g x options id) w') ->
  run g (Issued x) options f startedAt w = run g (Issued x) options f' startedAt w.
Proof.
  intros Hf. unfold run. apply bind_ext. intros w1 now _. apply bind_ext. intros w2 y Hy.
  apply ofOutcome_inv in Hy as [-> Hy]. apply assertContext_spec in Hy as ([= <-] & _).
  apply bind_ext. intros w3 id _. apply bind_ext. intros w4 [] _. unfold tryCatch, mbind, M_bind. rewrite Hf. reflexivity.
Qed.

Lemma execute_ext {T} (g : ServiceGateway DB) name caller r options (f f' : ServiceExecutionContext -> EffectTools -> M DB T) w :
  (forall x id w', f x (toolsFor g x options id) w' = f' x (toolsFor g x options id) w') ->
  execute g name caller r options f w = execute g name caller r options f' w.
Proof.
  intros Hf. unfold execute. apply bind_ext. intros w1 rid _. apply bind_ext. intros w2 st _.
  apply bind_ext. intros w3 x _. apply run_ext. apply Hf.
Qed.

Lemma toolStore_ext (g : ServiceGateway DB) v v' x options id ref custodyOptions w :
  sameToCustody g v v' ->
  t_storeCredential (toolsFor g x options id) ref v custodyOptions w = t_storeCredential (toolsFor g x options id) ref v' custodyOptions w.
Proof.
  intros Hsame. cbn [toolsFor t_storeCredential]. apply bind_ext. intros w1 [] _.
  assert (forall w', Gateway.storeCredential g (Issued x) ref v custodyOptions w' = Gateway.storeCredential g (Issued x) ref v' custodyOptions w') as E.
  { intros w'. unfold Gateway.storeCredential. apply bind_ext. intros w2 y _. unfold custody. destruct (g_credentials g) as [| |withSecret status store] eqn:Eg; [reflexivity..|].
    apply bind_ext. intros w3 raw _. destruct (negb _); [reflexivity|]. unfold tryCatch, mbind, M_bind.
    now rewrite (Hsame _ _ _ Eg). }
  unfold mbind, M_bind. now rewrite E.
Qed.

Lemma storeInCustody_ext tools owned principalId ref v v' provider kind w :
  (forall ref' custodyOptions w', t_storeCredential tools ref' v custodyOptions w' = t_storeCredential tools ref' v' custodyOptions w') ->
  storeInCustody secretMetadata tools owned principalId ref v provider kind w =
  storeInCustody secretMetadata tools owned principalId ref v' provider kind w.
Proof. intros Ht. unfold storeInCustody, tryCatch, mbind, M_bind. now rewrite Ht. Qed.

Lemma storeEffect_ext (g : ServiceGateway DB) p owned ref v v' provider kind name required tools w :
  (forall ref' custodyOptions w', t_storeCredential tools ref' v custodyOptions w' = t_storeCredential tools ref' v' custodyOptions w') ->
  storeEffect secretMetadata g p owned ref v provider kind name required tools w =
  storeEffect secretMetadata g p owned ref v' provider kind name required tools w.
Proof.
  intros Ht.
  assert (forall current w', storeAndBind secretMetadata g p owned ref v provider kind name required tools current w' =
    storeAndBind secretMetadata g p owned ref v' provider kind name required tools current w') as E.
  { intros current w'. unfold storeAndBind. apply bind_ext. intros w1 context _.
    unfold mbind at 1 3, M_bind at 1 3. now rewrite (storeInCustody_ext _ _ _ _ v v' _ _ w1 Ht). }
  unfold storeEffect. destruct name as [n|]; [|apply E]. apply bind_ext. intros w1 [variable|] _; [reflexivity|].
  apply bind_ext. intros w2 current _. apply E.
Qed.

(** C10: The value given to [credential.store] reaches the host's custody and
    nothing else.  For two acceptable values between which custody makes no
    difference, the operation is the same: it writes the same rows, metadata,
    audit and evidence, leaves the same world and returns the same result.
    When it throws, the error holds the value in none of its message, its
    reason and its stack, or it is one of the fixed texts that replace an error
    that did, without a reason.  (A value that is a piece of such a text is
    still in it: [redacted_still_contains].) *)
Theorem stored_value_confined (g : ServiceGateway DB) i v v' caller (w : World DB) :
  validateCredentialValue (JStr v) = Ok v -> validateCredentialValue (JStr v') = Ok v' -> sameToCustody g v v' ->
  let run := storeCredential (Some g) secretMetadata stackOf (Some (withValue v i)) caller w in
  let run' := storeCredential (Some g) secretMetadata stackOf (Some (withValue v' i)) caller w in
  run.1 = run'.1 /\ (forall r, run.2 = Ok r <-> run'.2 = Ok r) /\
  forall e, run.2 = Throw e -> freeOf stackOf v e.
Proof.
  intros Hv Hv' Hsame run run'.
  assert (storeCredentialUnredacted (Some g) secretMetadata (Some (withValue v i)) caller w =
          storeCredentialUnredacted (Some g) secretMetadata (Some (withValue v' i)) caller w) as E.
  { unfold storeCredentialUnredacted, withValue. cbn [st_scope st_ref st_value st_provider st_kind st_name st_required].
    rewrite Hv, Hv'. apply bind_ext. intros w1 ref _. rewrite !outcome_bind.
    apply bind_ext. intros w2 provider _. apply bind_ext. intros w3 kind _. apply bind_ext. intros w4 name _.
    apply bind_ext. intros w5 [[g' p] owned] Ho. apply ofOutcome_inv in Ho as [-> Ho]. apply own_gateway in Ho as ->.
    apply execute_ext. intros x id w6. apply storeEffect_ext. intros ref' custodyOptions w7. now apply toolStore_ext. }
  assert (v <> "") as Hne by (intros ->; discriminate Hv).
  unfold run, run', storeCredential, tryCatch. rewrite E. clear E. cbn [st_value withValue].
  destruct (storeCredentialUnredacted (Some g) secretMetadata (Some (withValue v' i)) caller w) as [w' [a|err]]; cbn [fst snd throw].
  - split; [reflexivity|]. split; [reflexivity|]. intros e [=].
  - split; [reflexivity|]. split; [intros r; split; discriminate|]. intros e [= <-]. now apply redacted_text.
Qed.
End value.

(** The replacement is a fixed text, so a value that is a piece of it is still
    there after redaction. *)
Lemma redacted_still_contains stackOf :
  let e := redactValue stackOf (JsError "Error" "store is down") (JStr "store") in includes (errorMessage e) "store" = true.
Proof. reflexivity. Qed.

(** ** Witnesses *)

Definition demoCustody : ServiceGateway MemDB :=
  mkGateway "app" (Some (demoAnswer true))
    (Custody (fun T _ _ use => use (mkResolved (JStr "k") "signing" 1))
       (fun _ _ => mret (Some (mkRawStatus (JStr "missing") JUndef JUndef JUndef (JBool true))))
       (fun _ _ _ => mret (Some (mkRawStore (JInt 1) (JStr "2023-11-14T22:13:20.000Z")))))
    5000 [] (fun _ _ _ => mret tt).

Lemma demoCustody_quiet : hostQuiet demoCustody.
Proof.
  split.
  - intros ask req w [= <-] Hc. now apply kept_refl.
  - intros p cap r w Hc. now apply kept_refl.
Qed.

Lemma demoCustody_store : custodyStoreQuiet demoCustody.
Proof. intros withSecret status store [= _ <- <-]. split; intros; now apply kept_refl. Qed.

Lemma configInv_empty : configInv emptyDB.
Proof.
  split; split.
  - intros [] k r Hr; discriminate Hr.
  - intros [] k r s' k' r' Hr; discriminate Hr.
  - intros k m Hm. discriminate Hm.
  - intros k v Hv. discriminate Hv.
Qed.

Definition demoScope : Scope := mkScopeInput JUndef JUndef (JStr "production") [].

(** A variable, a second one of the same name, a credential stored under the
    variable's name, one stored and bound, and somebody else's deletion. *)
Definition demoConfigRequests : list (Caller * ConfigRequest) :=
  [(CVerified alice, CreateVariable (mkVariableInput demoScope (JStr "API_URL") None (JStr "https://x")));
   (CVerified alice, CreateVariable (mkVariableInput demoScope (JStr "API_URL") None (JStr "https://y")));
   (CVerified alice, StoreCredential (mkStoreInput demoScope (JStr "credential-ref:db") (JStr "hunter2") JUndef JUndef (JStr "API_URL") None));
   (CVerified alice, StoreCredential (mkStoreInput demoScope (JStr "credential-ref:db") (JStr "hunter2") JUndef JUndef (JStr "DB_PASSWORD") None));
   (CNothing, DeleteConfiguration demoScope "API_URL" VariableKind)].

Lemma configuration_rows_confined_witness :
  exists w' l, serveConfigurations demoCustody true (fun _ => None) demoConfigRequests (demo emptyDB) = (w', Ok tt) /\
    configInv (w_db w') /\
    (listConfiguration (Some demoCustody) [] demoScope (CVerified alice) w').2 = Ok l /\
    map vv_value (li_variables l) = ["https://x"] /\ map vb_name (li_secrets l) = ["DB_PASSWORD"].
Proof.
  destruct (configuration_rows_confined demoCustody true (fun _ => None) demoConfigRequests (demo emptyDB)
    demoCustody_quiet demoCustody_store (demo_calm _ unused_empty) configInv_empty) as (w' & Hrun & Hi & _).
  exists w'. eexists. split; [exact Hrun|]. split; [exact Hi|].
  pose proof (f_equal fst Hrun) as E. change (fst (w', Ok tt)) with w' in E. rewrite <- E. clear.
  split; [vm_compute; reflexivity | split; reflexivity].
Defined.

(** Two passwords, one operation. *)
Lemma stored_value_confined_witness :
  let i := mkStoreInput demoScope (JStr "credential-ref:db") JUndef JUndef JUndef (JStr "DB_PASSWORD") None in
  let run v := storeCredential (Some demoCustody) true (fun _ => None) (Some (withValue v i)) (CVerified alice) (demo emptyDB) in
  (run "hunter2").1 = (run "correct horse").1 /\ exists r, (run "hunter2").2 = Ok r /\ (run "correct horse").2 = Ok r /\ cr_version r = 1.
Proof.
  intros i run.
  destruct (stored_value_confined true (fun _ => None) demoCustody i "hunter2" "correct horse" (CVerified alice) (demo emptyDB))
    as (Hw & Hr & _); [reflexivity | reflexivity | intros withSecret status store [= _ _ <-]; reflexivity|].
  split; [exact Hw|].
  eassert ((storeCredential (Some demoCustody) true (fun _ => None) (Some (withValue "hunter2" i)) (CVerified alice) (demo emptyDB)).2 = Ok _) as E
    by (vm_compute; reflexivity).
  eexists. split; [exact E|]. split; [exact (proj1 (Hr _) E) | reflexivity].
Defined.
