(* ===== verification/JobsProps.v ===== *)
(** * JobsProps: the properties of the job service *)

From S2P Require Import Prelude JsString JsTime Errors Models Store Calm MemStore Principal Manifest Evidence Gateway GatewayFacts Jobs JobsFacts Schedules Demo GatewayProps.
From Stdlib Require Import ZArith Lia Ascii.
Local Open Scope string_scope.
Local Open Scope Z_scope.

Section claims.
Context {DB : Type} `{FeltDBLaws DB}.
Variable s : JobService DB.
Implicit Types w : World DB.

(** C3: A job that may run under authority runs only as the principal that
    created it.  Executing such a job claims it, and then either the gateway
    refuses the run and the handler does not start, or the handler runs on a
    context issued for exactly the job's durable principal, the capability
    [jobs.execute] and this job; the record that is left follows from the
    result: completed, denied, postponed without counting the attempt when
    AuthBoundry is unavailable, or failed/retrying. *)
Theorem authorized_run g t id j worker (h : JobHandler DB) d w :
  runnable t id j w -> leaseOk s -> jv_authority s = Some g -> hostQuiet g ->
  startsWith (j_type j) SYSTEM_JOB_TYPE_PREFIX = false -> jv_handlers s !! j_type j = Some h ->
  0 <= j_attemptCount j -> j_maxAttempts j <= 42 ->
  j_principal j = Some d -> dp_tenantId d = t -> attestedBy g (Some d) creators (w_db w) ->
  (forall c p, sameJob j c -> runPrincipal c d = Ok p -> minds t id c p h) ->
  blank (dp_principalId d) = false -> blank (dp_principalType d) = false -> blank (dp_tenantId d) = false ->
  wp (executeJob s t id worker)
     (fun o w' => calm w' /\ exists lease sys p r j',
        let c := written (claimPatch lease sys) j in
        runPrincipal c d = Ok p /\ vp_principalId p = dp_principalId d /\ vp_tenantId p = t /\ vp_verifiedBy p = ByJob /\
        gated g t c p h r /\ o = Ok (succeeded r) /\
        peek CJobs id (w_db w') = Some j' /\ authorizedLeaves (w_clock w) c r j') w.
Proof.
  intros Hr Hlease Hg Hhost Hsys Hh Hpos Hmax Hd Ht Hatt Hmind Hb1 Hb2 Hb3.
  eapply wp_execute_runnable; [exact Hr|]. intros w1 Hh1 Hl1 Hd1.
  eapply wp_claim_run; [exact Hh1 | exact Hlease|]. intros n lease sys w2 _ c Hh2 Hl2 Hch.
  change (j_type c) with (j_type j). rewrite Hh, Hg, Hsys.
  destruct (mint_total (durableClaims d (runIdOf c)) ByJob Hb1 Hb2 Hb3) as [p Hp].
  pose proof (mint_ok _ _ _ Hp) as (Hp1 & _ & Hp2 & Hp3 & _).
  eapply wp_mono.
  - eapply (executeAuthorized_spec g t id c h d p); try eassumption.
    + eapply attested_keep; [exact Hch | discriminate | rewrite Hd1; exact Hatt].
    + apply gatewayRun_spec; [exact Hhost | exact Hh2|]. apply Hmind; [|exact Hp].
      unfold sameJob. cbn. auto 10.
  - intros o w' (Hc' & Hl' & r & j' & Hgate & Ho & Hj' & Hleft). split; [exact Hc'|].
    exists lease, sys, p, r, j'. cbn in Hp2. rewrite Ht in Hp2.
    assert (w_clock w2 = w_clock w) as Hclk.
    { destruct Hl1 as (E1 & _), Hl2 as (E2 & _). congruence. }
    rewrite <- Hclk. auto 12.
Qed.

(** C4: A job that nobody was allowed to create never runs.  If no evidence
    attests the durable principal of a queued job for this tenant, executing
    it runs nothing, whatever handler is registered: the job fails at once,
    its attempts untouched, and apart from one new audit record nothing else
    in the store changes. *)
Theorem unattested_job_refused g t id j worker (h : JobHandler DB) w :
  runnable t id j w -> leaseOk s -> jv_authority s = Some g ->
  startsWith (j_type j) SYSTEM_JOB_TYPE_PREFIX = false -> jv_handlers s !! j_type j = Some h ->
  (forall d, j_principal j = Some d -> dp_tenantId d = t -> ~ attestedBy g (Some d) creators (w_db w)) ->
  wp (executeJob s t id worker)
     (fun o w' => o = Ok false /\ exists j' aid, peek CJobs id (w_db w') = Some j' /\
        j_status j' = JFailed /\ j_attemptCount j' = j_attemptCount j /\
        forall V (c : coll V) k, (cname c, k) <> (cname CJobs, id) -> (cname c, k) <> (cname CJobAudit, aid) ->
          peek c k (w_db w') = peek c k (w_db w)) w.
Proof.
  intros Hr Hlease Hg Hsys Hh Hno.
  eapply wp_execute_runnable; [exact Hr|]. intros w1 Hh1 Hl1 Hd1.
  eapply wp_claim_run; [exact Hh1 | exact Hlease|]. intros n lease sys w2 _ c Hh2 Hl2 Hch.
  change (j_type c) with (j_type j). rewrite Hh, Hg, Hsys.
  eapply wp_mono; [eapply executeAuthorized_refused; [exact Hh2|]|].
  - intros d Hd Ht Hatt. apply (Hno d Hd Ht). rewrite <- Hd1.
    eapply attested_changed; [exact Hch | discriminate | exact Hatt].
  - intros o w3 (-> & _ & _ & j' & Hs & reason & ->). split; [reflexivity|].
    pose proof (settled_job _ _ _ _ _ Hs) as Hj'.
    destruct Hs as (db1 & Hch1 & aid & ev & Hcha & _).
    eexists. exists aid. split; [exact Hj'|]. split; [reflexivity|]. split; [reflexivity|].
    intros V c' k Hk Ha. rewrite (changed_frame _ _ _ c' k _ _ Hcha Ha), (changed_frame _ _ _ c' k _ _ Hch1 Hk).
    rewrite (changed_frame _ _ _ c' k _ _ Hch Hk). now rewrite Hd1.
Qed.

(** C5: What a caller enqueues can later be attested.  When [enqueue] under
    an authority returns a job, the job is stored under a new id, belongs to
    the verified caller's tenant and to this application, and the evidence
    in the store attests the principal it carries, so that a worker may run
    it - except where the input names the empty text as its delegation and the
    caller acts under one itself ([empty_delegation_unattested]); and no
    existing job is lost, whatever [enqueue] returns. *)
Theorem enqueued_job_attested g input caller w :
  jv_authority s = Some g -> hostQuiet g -> calm w ->
  wp (enqueue s input caller)
     (fun o w' => noJobsLost (w_db w) (w_db w') /\
        match o with
        | Ok job => peek CJobs (j_id job) (w_db w) = None /\ peek CJobs (j_id job) (w_db w') = Some job /\
            j_applicationId job = ifPresent (Some (g_application g)) /\
            exists p, caller = CVerified p /\ j_tenantId job = vp_tenantId p /\
              (ci_delegationId input <> Some "" \/ present (vp_delegationId p) = false ->
               attestedBy g (j_principal job) creators (w_db w'))
        | Throw _ => True
        end) w.
Proof. apply enqueue_attested. Qed.

(** C6: A job that keeps failing is tried as often as it may be, and by a
    worker no more often.  Take a fresh job, of a service without an authority
    or of a system type, with one to 42 attempts, whose handler always throws.
    Each of its first [maxAttempts] executions runs the handler and returns
    false; after fewer than [maxAttempts] the job is retrying, after that many
    it has failed, with the attempts counted and the handler's error recorded.
    However often a worker comes by, executing the job only when it is due or
    abandoned, every execution is counted, there are at most [maxAttempts],
    and after that many the job has failed and is due no more.  (Executing a
    settled job that is not due runs it again: [completed_job_runs_again].) *)
Theorem failing_job_attempts t id worker (h : JobHandler DB) e j w :
  leaseOk s -> trusted s j -> jv_handlers s !! j_type j = Some h -> 1 <= j_maxAttempts j <= 42 ->
  (forall c, sameJob j c -> does t id c (h c None) (Throw e)) ->
  runnable t id j w -> j_attemptCount j = 0 ->
  (forall n, Z.of_nat (S n) <= j_maxAttempts j ->
     wp (runs s (S n) t id worker)
        (fun o w' => o = Ok (repeat false (S n)) /\ exists j', peek CJobs id (w_db w') = Some j' /\
           j_attemptCount j' = Z.of_nat (S n) /\
           j_status j' = (if j_maxAttempts j =? Z.of_nat (S n) then JFailed else JRetrying) /\
           j_lastError j' = Some (errorMessage e)) w) /\
  forall k, wp (passes s k t id worker)
     (fun o w' => exists n j', o = Ok n /\ peek CJobs id (w_db w') = Some j' /\
        j_attemptCount j' = Z.of_nat n /\ (Z.of_nat n <= j_maxAttempts j) /\
        (Z.of_nat n = j_maxAttempts j -> j_status j' = JFailed /\ forall now, isDue now j' || isStale now j' = false)) w.
Proof.
  intros Hlease Htr Hh Hmax Hdoes Hr Hzero. split; [intros n Hn | intros k].
  - eapply wp_mono; [eapply (fails_n s t id worker h e j); try eassumption; [apply Hmax | unfold sameJob; auto 10 | lia | lia]|].
    intros o w' (-> & j' & (_ & Hj' & _) & _ & Ha & Hst & Her). split; [reflexivity|].
    exists j'. split; [exact Hj'|]. split; [lia|]. split; [|exact Her].
    rewrite Hst. replace (j_attemptCount j') with (Z.of_nat (S n)) by lia.
    destruct (Z.leb_spec (j_maxAttempts j) (Z.of_nat (S n))), (Z.eqb_spec (j_maxAttempts j) (Z.of_nat (S n)));
      first [reflexivity | lia].
  - eapply wp_mono; [eapply (passes_bounded s t id worker h e j); try eassumption; [apply Hmax | unfold sameJob; auto 10 | lia | lia]|].
    intros o w' (n & j' & -> & (_ & Hj' & _) & _ & Ha & Hle & Hf). exists n, j'. split; [reflexivity|]. split; [exact Hj'|]. split; [lia|]. split; [lia|].
    intros En. assert (Hfail : j_status j' = JFailed) by (apply Hf; lia). split; [exact Hfail|]. intros now. now apply failed_not_due.
Qed.

(** A live lease keeps other workers out: while the lease of a running
    job holds, executing it by anyone but its owner returns false and writes
    nothing. *)
Theorem lease_excludes t id j worker w :
  holds t id j w -> j_status j = JRunning -> heldFor j w -> j_leaseOwner j <> Some worker ->
  wp (executeJob s t id worker) (fun o w' => o = Ok false /\ calm w' /\ w_db w' = w_db w) w.
Proof. apply execute_held. Qed.

(** A crash uses up an attempt.  When a running job's lease has run out
    and the abandoned attempt was its last, executing it runs nothing: the
    job fails with that attempt counted. *)
Theorem abandoned_last_attempt t id j worker w :
  holds t id j w -> j_status j = JRunning -> expiredFor j w -> j_maxAttempts j <= j_attemptCount j + 1 ->
  wp (executeJob s t id worker)
     (fun o w' => o = Ok false /\ calm w' /\ exists j', peek CJobs id (w_db w') = Some j' /\
        j_status j' = JFailed /\ j_attemptCount j' = j_attemptCount j + 1 /\
        j_lastError j' = Some (abandonedMessage (j_attemptCount j + 1))) w.
Proof.
  intros. eapply wp_mono; [apply (execute_abandoned_last s t id j worker w); assumption|].
  intros o w' (-> & Hc & Hj). split; [reflexivity|]. split; [exact Hc|]. eexists. split; [exact Hj | auto].
Qed.

(** Otherwise the next worker takes the job over: it runs once more with
    the abandoned attempt counted, and is settled by the handler's result. *)
Theorem abandoned_attempt_counts t id j worker (h : JobHandler DB) r w :
  holds t id j w -> j_status j = JRunning -> expiredFor j w -> leaseOk s ->
  0 <= j_attemptCount j -> j_attemptCount j + 1 < j_maxAttempts j -> j_maxAttempts j <= 42 ->
  trusted s j -> jv_handlers s !! j_type j = Some h ->
  (forall c, j_attemptCount c = j_attemptCount j + 1 -> does t id c (h c None) r) ->
  wp (executeJob s t id worker)
     (fun o w' => o = Ok (succeeded r) /\ calm w' /\ exists c j',
        peek CJobs id (w_db w') = Some j' /\ j_attemptCount c = j_attemptCount j + 1 /\
        j_status c = JRunning /\ runLeaves (w_clock w) c r j') w.
Proof.
  intros Hh Hs Hexp Hl Hpos Hmore Hmax Htr Hreg Hdoes.
  eapply wp_mono; [eapply (execute_abandoned s t id j worker h r w); try eassumption|].
  - intros lease sys c. apply Hdoes. reflexivity.
  - intros o w' (-> & Hc & lease & sys & j' & Hj' & Hleft). split; [reflexivity|]. split; [exact Hc|].
    eexists. exists j'. split; [exact Hj'|]. split; [|split; [|exact Hleft]]; reflexivity.
Qed.

(** A job is claimed by one worker.  If, between this worker's read of a
    queued job and its claim, anybody else moved the job to another version
    (their claim, say), this worker returns false without running the
    handler or writing anything. *)
Theorem claim_race t id j worker (other : DB -> DB) w :
  up (w_db w) -> w_env w = [Datatypes.id; other] -> clocksOk w -> leaseOk s ->
  peek CJobs id (w_db w) = Some j -> j_tenantId j = t -> j_status j <> JRunning ->
  up (other (w_db w)) ->
  (forall j2, peek CJobs id (other (w_db w)) = Some j2 -> j_version j2 <> j_version j) ->
  wp (executeJob s t id worker) (fun o w' => o = Ok false /\ w_db w' = other (w_db w)) w.
Proof.
  intros Hup Henv (Hck & Hsys & _) Hlease Hj Ht Hs Hup' Hmoved. unfold executeJob, js_get.
  apply wp_bind, wp_bind. eapply wp_dbop_env; [exact Henv | apply law_get, Hup|].
  apply wp_ret. unfold Datatypes.id. rewrite Hj, Ht, String.eqb_refl. set (w1 := _ <| w_db := _ |>).
  destruct (toISO_some (w_clock w1 (w_tick w1))) as [now Hnow];
    [pose proof (Hck (w_tick w)); unfold timeBound, maxTime in *; cbn; lia|].
  apply wp_bind, wp_nowIso with now; [exact Hnow|].
  rewrite (isAbandoned_not_running now j Hs), bool_decide_eq_false_2 by exact Hs. cbn [andb].
  unfold claimAndRun. apply wp_bind, wp_nowMs, wp_bind.
  destruct (toISO_some (w_clock w (S (w_tick w)) + jv_leaseDurationMs s)) as [lease Hl];
    [pose proof (Hck (S (w_tick w))); unfold leaseOk, timeBound, maxTime in *; lia|].
  apply wp_isoString with lease; [exact Hl|]. apply wp_bind. unfold js_claim.
  destruct (toISO_some (w_system w (w_systick w))) as [sys Hsy];
    [pose proof (Hsys (w_systick w)); unfold timeBound, maxTime in *; lia|].
  apply wp_bind, wp_systemIso with sys; [exact Hsy|]. apply wp_bind.
  eapply wp_dbop_env; [reflexivity | apply law_cas_miss; [exact Hup' | exact Hmoved]|].
  apply wp_ret, wp_ret. auto.
Qed.

(** A settled job is not protected from running again.  [executeJob]
    checks only for a live lease: executing a completed job claims it again
    and runs its handler again. *)
Theorem completed_job_runs_again t id j worker (h : JobHandler DB) r w :
  holds t id j w -> j_status j = JCompleted -> leaseOk s -> trusted s j ->
  jv_handlers s !! j_type j = Some h -> 0 <= j_attemptCount j -> j_maxAttempts j <= 42 ->
  (forall lease sys, let c := written (claimPatch lease sys) j in does t id c (h c None) r) ->
  wp (executeJob s t id worker)
     (fun o w' => o = Ok (succeeded r) /\ exists lease sys j', peek CJobs id (w_db w') = Some j' /\
        runLeaves (w_clock w) (written (claimPatch lease sys) j) r j') w.
Proof.
  intros Hh Hs Hl Htr Hreg Hpos Hmax Hdoes.
  eapply wp_mono; [eapply (execute_trusted s t id j worker h r w); try eassumption|].
  - split; [exact Hh|]. rewrite Hs. discriminate.
  - intros o w' (-> & _ & _ & Hleft). auto.
Qed.

(** A completion that lost the race is still reported.  When the job
    moved to another version since it was claimed, [completeJob] writes no
    job, yet records a [job.completed] audit event. *)
Theorem stale_completion_audited c p r w :
  calm w -> (forall j, peek CJobs (j_id c) (w_db w) = Some j -> j_version j <> j_version c) ->
  wp (completeJob c p r) (fun o w' => o = Ok tt /\ audited "job.completed" c (w_db w) (w_db w')) w.
Proof. intros Hc Hj. apply wp_completeJob_stale; [exact Hc | exact Hj|]. auto. Qed.

(** [listDueJobs] is exact: it changes nothing and returns the tenant's
    jobs that are due at the clock's reading (pending or scheduled with
    [runAt] reached, retrying with the next attempt reached) or whose lease
    has run out, and no others. *)
Theorem due_jobs_exact t w :
  calm w ->
  wp (listDueJobs t) (fun o w' => w_db w' = w_db w /\ exists n now l, toISO (w_clock w n) = Some now /\ o = Ok l /\
     forall j, j ∈ l <-> (exists k, peek CJobs k (w_db w) = Some j) /\ j_tenantId j = t /\
       (isDue now j = true \/ isStale now j = true)) w.
Proof. apply listDue_exact. Qed.

(** Every due schedule makes one job.  Undisturbed,
    [processRecurringSchedules] creates exactly one new job for each enabled
    schedule of the tenant that is due, with the schedule's type, payload,
    principal and application, moves each of them one interval after now,
    leaves every other job alone, and returns their number. *)
Theorem recurring_schedules_once t w :
  calm w -> (forall k sch, peek CSchedules k (w_db w) = Some sch -> s_id sch = k) ->
  (forall k sch n, peek CSchedules k (w_db w) = Some sch -> exists next, runsNext (w_clock w n) sch next) ->
  wp (processRecurringSchedules t)
     (fun o w' => calm w' /\ exists n now due ids, toISO (w_clock w n) = Some now /\
        o = Ok (Z.of_nat (length due)) /\ NoDup (map s_id due) /\
        (forall sch, sch ∈ due <-> (exists k, peek CSchedules k (w_db w) = Some sch) /\ dueSchedule t now sch) /\
        NoDup ids /\
        Forall2 (fun id sch => peek CJobs id (w_db w) = None /\
           peek CJobs id (w_db w') = Some (jobFromSchedule id now sch)) ids due /\
        (forall k, k ∉ ids -> peek CJobs k (w_db w') = peek CJobs k (w_db w)) /\
        (forall sch, sch ∈ due -> exists next, runsNext (w_clock w n) sch next /\
           peek CSchedules (s_id sch) (w_db w') = Some (movedTo next sch))) w.
Proof. apply recurring_spec. Qed.
End claims.

(** The next run of a schedule is exactly one interval after now, never
    before it, and the schedule service accepts exactly the intervals the job
    service can compute. *)
Theorem next_run_one_interval t now interval next :
  toISO t = Some now -> nextRunTime now interval = Ok next ->
  isInterval interval = true /\
  exists ms, intervalMs interval = Some ms /\ 0 <= ms /\ toISO (t + ms) = Some next.
Proof.
  intros Ht Hn. destruct (nextRunTime_spec t now interval next Ht Hn) as (ms & Hms & Hpos & Hnext).
  split; [apply isInterval_intervalMs | ]; eauto.
Qed.

(** Jobs become due in time.  Although the store compares ISO texts, for
    instants of the years 0 to 9999 a pending job is due exactly when its
    [runAt] instant has been reached, a retrying one when its next attempt has,
    and a running one is stale exactly when its lease has run out. *)
Theorem due_in_time j t u now at_ :
  fourDigit t -> fourDigit u -> toISO t = Some now -> toISO u = Some at_ ->
  (j_status j = JPending -> j_runAt j = at_ -> (isDue now j = true <-> u <= t)) /\
  (j_status j = JRetrying -> j_nextAttemptAt j = Some at_ -> (isDue now j = true <-> u <= t)) /\
  (j_status j = JRunning -> j_leaseExpiresAt j = Some at_ -> (isStale now j = true <-> u <= t)).
Proof.
  intros Ht Hu Hnow Hat. pose proof (strLe_toISO u t at_ now Hu Ht Hat Hnow) as Hle.
  assert (truthy at_ = true) as Hne by (apply truthy_spec; intros ->; exact (toISO_nonempty _ Hat)).
  unfold isDue, isStale, dueAt.
  repeat split; intros; repeat match goal with E : _ = _ |- _ => rewrite E in * end; cbn in *;
    rewrite ?orb_false_r, ?Hle, ?Hne in *; cbn in *; apply Z.leb_le; assumption.
Qed.

(** ** Witnesses *)

Definition okHandler : JobHandler MemDB := fun _ _ => mret tt.
Definition boom : exn := JsError "Error" "boom".
Definition failHandler : JobHandler MemDB := fun _ _ => throw boom.

(** A service with one handler, for jobs of type [mail]. *)
Definition demoJobs (authority : option (ServiceGateway MemDB)) (h : JobHandler MemDB) : JobService MemDB :=
  setHandler (newJobService authority None None []) "mail" h.

Definition aliceDurable : DurablePrincipal := mkDurable "alice" "user" "t1" (Some "app") None None (Some "d1").

Definition demoNow : string := "2023-11-14T22:13:20.000Z".
Definition demoLater : string := "2023-11-14T22:14:20.000Z".

Definition demoJob (status : JobStatus) (attempts maxAttempts : Z) (lease : option string)
  (principal : option DurablePrincipal) : Job :=
  mkJob "job-1" "t1" (Some "app") "mail" JNull status demoNow attempts maxAttempts demoNow None None None None lease None
    principal 1.

Definition jobDB (j : Job) : MemDB := memPut CJobs (j_id j) j emptyDB.

Lemma jobDB_holds status a m lease p :
  holds "t1" "job-1" (demoJob status a m lease p) (demo (jobDB (demoJob status a m lease p))).
Proof.
  split; [apply demo_calm, unused_put; [reflexivity | apply unused_empty]|].
  split; [apply lookup_insert_eq | split; reflexivity].
Qed.

Lemma demo_leaseOk authority h : leaseOk (demoJobs authority h).
Proof. unfold leaseOk, timeBound. cbn. unfold LEASE_DURATION_MS. lia. Qed.

Lemma does_ok t id (c : Job) : does t id c (okHandler c None) (Ok tt).
Proof. intros w Hw. apply wp_ret. split; [reflexivity|]. split; [exact Hw | reflexivity]. Qed.

Lemma does_fail t id (c : Job) : does t id c (failHandler c None) (Throw boom).
Proof. intros w Hw. apply wp_throw. split; [reflexivity|]. split; [exact Hw | reflexivity]. Qed.

Lemma demo_unattested g durable caps (j : Job) : ~ attestedBy g durable caps (jobDB j).
Proof. intros (d & by_ & k & row & _ & _ & _ & Hrow & _). cbn in Hrow. now rewrite lookup_empty in Hrow. Qed.

Definition attestedDB (j : Job) : MemDB := memPut CJobs (j_id j) j demoEvidenceDB.

Lemma authorized_run_witness :
  let j := demoJob JPending 0 5 None (Some aliceDurable) in
  let s := demoJobs (Some (demoGateway true)) okHandler in
  let w := demo (attestedDB j) in
  wp (executeJob s "t1" "job-1" "w1")
    (fun o w' => calm w' /\ exists lease sys p r j',
       let c := written (claimPatch lease sys) j in
       runPrincipal c aliceDurable = Ok p /\ vp_principalId p = "alice" /\ vp_tenantId p = "t1" /\ vp_verifiedBy p = ByJob /\
       gated (demoGateway true) "t1" c p okHandler r /\ o = Ok (succeeded r) /\
       peek CJobs "job-1" (w_db w') = Some j' /\ authorizedLeaves (w_clock w) c r j') w.
Proof.
  intros j s w. eapply (authorized_run s (demoGateway true) "t1" "job-1" j "w1" okHandler aliceDurable); try reflexivity.
  - split; [|discriminate]. split; [|split; [apply lookup_insert_eq | split; reflexivity]].
    apply demo_calm, unused_put; [reflexivity|]. apply unused_put; [reflexivity | apply unused_empty].
  - apply demo_leaseOk.
  - apply demo_hostQuiet.
  - cbn; lia.
  - exists aliceDurable, "d1", "e1", demoRow. repeat split; try discriminate; [now left | now right].
  - intros c p _ _ x eid row w1 Hh Hrow Href. apply wp_ret. split; [exact Hh|]. split; [reflexivity | auto].
Defined.

Lemma unattested_job_refused_witness :
  let j := demoJob JPending 0 5 None (Some aliceDurable) in
  wp (executeJob (demoJobs (Some (demoGateway true)) okHandler) "t1" "job-1" "w1")
    (fun o w' => o = Ok false /\ exists j' aid, peek CJobs "job-1" (w_db w') = Some j' /\
       j_status j' = JFailed /\ j_attemptCount j' = 0 /\
       forall V (c : coll V) k, (cname c, k) <> (cname CJobs, "job-1") -> (cname c, k) <> (cname CJobAudit, aid) ->
         peek c k (w_db w') = peek c k (jobDB j)) (demo (jobDB j)).
Proof.
  intros j.
  eapply (unattested_job_refused (demoJobs (Some (demoGateway true)) okHandler) (demoGateway true) "t1" "job-1" j "w1" okHandler);
    try reflexivity.
  - split; [apply jobDB_holds | discriminate].
  - apply demo_leaseOk.
  - intros d _ _. apply demo_unattested.
Defined.

Definition demoInput : CreateJobInput := mkCreateJob None "mail" JNull None None None [].

Lemma enqueued_job_attested_witness :
  let g := demoGateway true in
  wp (enqueue (demoJobs (Some g) okHandler) demoInput (CVerified alice))
    (fun o w' => noJobsLost emptyDB (w_db w') /\
       match o with
       | Ok job => peek CJobs (j_id job) emptyDB = None /\ peek CJobs (j_id job) (w_db w') = Some job /\
           attestedBy g (j_principal job) creators (w_db w')
       | Throw _ => True
       end) (demo emptyDB).
Proof.
  intros g. eapply wp_mono.
  - apply (enqueued_job_attested (demoJobs (Some g) okHandler) g demoInput (CVerified alice) (demo emptyDB)).
    + reflexivity.
    + apply demo_hostQuiet.
    + apply demo_calm, unused_empty.
  - intros o w' [Hlost Ho]. split; [exact Hlost|]. destruct o as [job|e]; [|exact I].
    destruct Ho as (Hnew & Hin & _ & p & _ & _ & Hatt). split; [exact Hnew|]. split; [exact Hin|]. apply Hatt. left. discriminate.
Defined.

(** A caller that acts under a delegation and enqueues with the empty text as
    the job's: the evidence has the caller's delegation, the job has none. *)
Example empty_delegation_unattested :
  let delegated := mkPrincipal "alice" "user" "t1" (Some "app") None (Some "d1") None ByHost false in
  let g := demoGateway true in
  let (w', o) := enqueue (demoJobs (Some g) okHandler) (demoInput <| ci_delegationId := Some "" |>) (CVerified delegated) (demo emptyDB) in
  match o with
  | Ok job => match (attest g (j_principal job) creators w').2 with Throw e => hasCode DENIED e | Ok _ => false end
  | Throw _ => false
  end = true.
Proof. vm_compute. reflexivity. Qed.

Lemma failing_job_attempts_witness :
  let j := demoJob JPending 0 3 None None in
  wp (runs (demoJobs None failHandler) 3 "t1" "job-1" "w1")
    (fun o w' => o = Ok [false; false; false] /\ exists j', peek CJobs "job-1" (w_db w') = Some j' /\
       j_attemptCount j' = 3 /\ j_status j' = JFailed /\ j_lastError j' = Some "boom") (demo (jobDB j)) /\
  wp (passes (demoJobs None failHandler) 9 "t1" "job-1" "w1")
    (fun o w' => exists n j', o = Ok n /\ peek CJobs "job-1" (w_db w') = Some j' /\ j_attemptCount j' = Z.of_nat n /\ (Z.of_nat n <= 3) /\
       (Z.of_nat n = 3 -> j_status j' = JFailed /\ forall now, isDue now j' || isStale now j' = false)) (demo (jobDB j)).
Proof.
  intros j. destruct (failing_job_attempts (demoJobs None failHandler) "t1" "job-1" "w1" failHandler boom j (demo (jobDB j))) as [H1 H2].
  - apply demo_leaseOk.
  - now left.
  - reflexivity.
  - cbn. lia.
  - intros c _. apply does_fail.
  - split; [apply jobDB_holds | discriminate].
  - reflexivity.
  - split; [apply (H1 2%nat); cbn; lia | apply H2].
Defined.

Lemma lease_excludes_witness :
  let w := demo (jobDB (demoJob JRunning 0 3 (Some demoLater) None)) in
  wp (executeJob (demoJobs None okHandler) "t1" "job-1" "w2") (fun o w' => o = Ok false /\ calm w' /\ w_db w' = w_db w) w.
Proof.
  intros w. eapply (lease_excludes (demoJobs None okHandler)); [apply jobDB_holds | reflexivity | | discriminate].
  intros n now Hn. vm_compute in Hn. injection Hn as <-. reflexivity.
Defined.

Lemma abandoned_last_attempt_witness :
  wp (executeJob (demoJobs None okHandler) "t1" "job-1" "w2")
    (fun o w' => o = Ok false /\ calm w' /\ exists j', peek CJobs "job-1" (w_db w') = Some j' /\
       j_status j' = JFailed /\ j_attemptCount j' = 3 /\ j_lastError j' = Some (abandonedMessage 3))
    (demo (jobDB (demoJob JRunning 2 3 (Some demoNow) None))).
Proof.
  eapply (abandoned_last_attempt (demoJobs None okHandler) "t1" "job-1" (demoJob JRunning 2 3 (Some demoNow) None));
    [apply jobDB_holds | reflexivity | | cbn; lia].
  intros n now Hn. vm_compute in Hn. injection Hn as <-. reflexivity.
Defined.

Lemma abandoned_attempt_counts_witness :
  let w := demo (jobDB (demoJob JRunning 0 3 (Some demoNow) None)) in
  wp (executeJob (demoJobs None okHandler) "t1" "job-1" "w2")
    (fun o w' => o = Ok true /\ calm w' /\ exists c j', peek CJobs "job-1" (w_db w') = Some j' /\
       j_attemptCount c = 1 /\ j_status c = JRunning /\ runLeaves (w_clock w) c (Ok tt) j') w.
Proof.
  intros w. apply (abandoned_attempt_counts (demoJobs None okHandler) "t1" "job-1"
    (demoJob JRunning 0 3 (Some demoNow) None) "w2" okHandler (Ok tt)).
  - apply jobDB_holds.
  - reflexivity.
  - intros n now Hn. vm_compute in Hn. injection Hn as <-. reflexivity.
  - apply demo_leaseOk.
  - cbn. lia.
  - cbn. lia.
  - cbn. lia.
  - now left.
  - reflexivity.
  - intros c _. apply does_ok.
Defined.

(** Another worker's claim of version 1. *)
Definition otherClaim (db : MemDB) : MemDB :=
  (db_updateIfVersion CJobs "job-1" 1 (claimPatch demoLater demoNow) db).1.

Lemma claim_race_witness :
  let w := demo (jobDB (demoJob JPending 0 3 None None)) <| w_env := [Datatypes.id; otherClaim] |> in
  wp (executeJob (demoJobs None okHandler) "t1" "job-1" "w2") (fun o w' => o = Ok false /\ w_db w' = otherClaim (w_db w)) w.
Proof.
  intros w. eapply (claim_race (demoJobs None okHandler) "t1" "job-1" (demoJob JPending 0 3 None None)); try reflexivity.
  - destruct (jobDB_holds JPending 0 3 None None) as ((_ & Hck) & _). exact Hck.
  - apply demo_leaseOk.
  - cbn; discriminate.
  - intros j2 Hj2. vm_compute in Hj2. injection Hj2 as <-. discriminate.
Defined.

Lemma completed_job_runs_again_witness :
  let j := demoJob JCompleted 0 3 None None in
  let w := demo (jobDB j) in
  wp (executeJob (demoJobs None okHandler) "t1" "job-1" "w2")
    (fun o w' => o = Ok true /\ exists lease sys j', peek CJobs "job-1" (w_db w') = Some j' /\
       runLeaves (w_clock w) (written (claimPatch lease sys) j) (Ok tt) j') w.
Proof.
  intros j w. apply (completed_job_runs_again (demoJobs None okHandler) "t1" "job-1" j "w2" okHandler (Ok tt)).
  - apply jobDB_holds.
  - reflexivity.
  - apply demo_leaseOk.
  - now left.
  - reflexivity.
  - cbn. lia.
  - cbn. lia.
  - intros lease sys c. apply does_ok.
Defined.

Lemma stale_completion_audited_witness :
  let c := demoJob JRunning 0 3 None None in
  let w := demo (jobDB (c <| j_version := 2 |>)) in
  wp (completeJob c "system" None) (fun o w' => o = Ok tt /\ audited "job.completed" c (w_db w) (w_db w')) w.
Proof.
  intros c w. apply stale_completion_audited.
  - apply demo_calm, unused_put; [reflexivity | apply unused_empty].
  - intros j Hj. vm_compute in Hj. injection Hj as <-. discriminate.
Defined.

Lemma due_jobs_exact_witness :
  let w := demo (jobDB (demoJob JPending 0 3 None None)) in
  wp (listDueJobs "t1") (fun o w' => w_db w' = w_db w /\ exists n now l, toISO (w_clock w n) = Some now /\ o = Ok l /\
     forall j, j ∈ l <-> (exists k, peek CJobs k (w_db w) = Some j) /\ j_tenantId j = "t1" /\
       (isDue now j = true \/ isStale now j = true)) w.
Proof. intros w. apply due_jobs_exact. apply jobDB_holds. Defined.

Definition demoSchedule : JobSchedule :=
  mkSchedule "sched-1" "t1" (Some "app") "mail" JNull "5m" demoNow true demoNow "alice" (Some aliceDurable) 1.

Definition scheduleDB : MemDB := memPut CSchedules "sched-1" demoSchedule emptyDB.

Lemma scheduleDB_only k sch : peek CSchedules k scheduleDB = Some sch -> k = "sched-1" /\ sch = demoSchedule.
Proof.
  cbn. intros Hk. apply lookup_insert_Some in Hk as [[<- <-]|[_ Hk]]; [auto | now rewrite lookup_empty in Hk].
Qed.

Lemma recurring_schedules_once_witness :
  let w := demo scheduleDB in
  wp (processRecurringSchedules "t1")
    (fun o w' => calm w' /\ exists n now due ids, toISO (w_clock w n) = Some now /\
       o = Ok (Z.of_nat (length due)) /\ NoDup (map s_id due) /\
       (forall sch, sch ∈ due <-> (exists k, peek CSchedules k (w_db w) = Some sch) /\ dueSchedule "t1" now sch) /\
       NoDup ids /\
       Forall2 (fun id sch => peek CJobs id (w_db w) = None /\
          peek CJobs id (w_db w') = Some (jobFromSchedule id now sch)) ids due /\
       (forall k, k ∉ ids -> peek CJobs k (w_db w') = peek CJobs k (w_db w)) /\
       (forall sch, sch ∈ due -> exists next, runsNext (w_clock w n) sch next /\
          peek CSchedules (s_id sch) (w_db w') = Some (movedTo next sch))) w.
Proof.
  intros w. apply recurring_schedules_once.
  - apply demo_calm, unused_put; [reflexivity | apply unused_empty].
  - intros k sch Hk. apply scheduleDB_only in Hk as [-> ->]. reflexivity.
  - intros k sch n Hk. apply scheduleDB_only in Hk as [-> ->].
    exists "2023-11-14T22:18:20.000Z", 300000. split; reflexivity.
Defined.

Lemma next_run_one_interval_witness :
  isInterval "5m" = true /\
  exists ms, intervalMs "5m" = Some ms /\ 0 <= ms /\ toISO (demoTime + ms) = Some "2023-11-14T22:18:20.000Z".
Proof. apply (next_run_one_interval demoTime demoNow "5m"); reflexivity. Defined.

Lemma due_in_time_witness :
  isDue demoLater (demoJob JPending 0 3 None None) = true <-> demoTime <= demoTime + 60000.
Proof.
  refine (proj1 (due_in_time (demoJob JPending 0 3 None None) (demoTime + 60000) demoTime demoLater demoNow _ _ _ _)
    eq_refl eq_refl); first [reflexivity | unfold fourDigit, demoTime; lia].
Defined.
