(* ===== verification/NotificationProps.v ===== *)
(** * NotificationProps: the properties of notifications *)

From S2P Require Import Prelude JsString Encoding Json JsTime Errors Models Store Calm MemStore Principal Manifest Restrictions Evidence Gateway GatewayFacts Rely Sensitive Jobs Notifications NotificationFacts DeliveryFacts Demo.
From Stdlib Require Import ZArith Lia Ascii.
Local Open Scope string_scope.
Local Open Scope Z_scope.

Section properties.
Context {DB : Type} `{FeltDBLaws DB}.
Variable np : NotificationPlatform.
Variable s : NotificationService DB.
#[local] Abbreviation P := (forwardProtocol (DB := DB)).

(** C13: While other processes run the same service, notifications only move
    on.  After any requests (delivery jobs and recovery included; only deletion
    is left out), interleaved with writes of others that keep the same
    protocol, every notification that was stored is still stored with the same
    content; its status has not gone back in the order pending, failed,
    delivered, expired, read, acknowledged; and when it was read, acknowledged
    or dismissed is not rewritten.  A notification that was not there before
    has a content without credentials. *)
Theorem notifications_move_on requests w :
  channelsSafe s -> authoritySafe s -> platformOk np s -> stable P w ->
  let db := w_db w in let db' := w_db (serveAll np s requests w).1 in
  (forall k n, peek CNotifications k db = Some n -> exists n', peek CNotifications k db' = Some n' /\
     contentOf n' = contentOf n /\ (rank (n_status n) <= rank (n_status n'))%nat /\
     (present (n_readAt n) = true -> n_readAt n' = n_readAt n) /\
     (present (n_acknowledgedAt n) = true -> n_acknowledgedAt n' = n_acknowledgedAt n) /\
     (present (n_dismissedAt n) = true -> n_dismissedAt n' = n_dismissedAt n)) /\
  (forall k n', peek CNotifications k db = None -> peek CNotifications k db' = Some n' -> n_id n' = k /\ cleanContent n').
Proof.
  intros Hc Ha Hp Hs db db'.
  destruct (safe_serveAll np s requests Hc Ha Hp w Hs) as (_ & ((Hm & _) & _) & _). split.
  - intros k n Hk. specialize (Hm k). fold db db' in Hm. rewrite Hk in Hm. unfold rowMoves in Hm.
    destruct (peek CNotifications k db') as [n'|]; [|destruct Hm]. exists n'. destruct Hm. auto 6.
  - intros k n' Hk Hk'. specialize (Hm k). fold db db' in Hm. rewrite Hk, Hk' in Hm.
    destruct Hm as (n0 & (Hid & _ & _ & Hclean & _) & [Hcont _ _ _ _ _]). clear - Hid Hclean Hcont.
    destruct n0, n'. cbn in *. injection Hcont as -> -> -> -> -> -> -> -> -> -> -> -> -> -> ->. split; [exact Hid | exact Hclean].
Qed.

(** C14: Notifying is idempotent.  Of two requests whose inputs determine the
    same identifier (tenant, recipient and idempotency key, given or derived
    from the source event), the second, any time later, creates nothing: it
    returns the notification of the first, with the content of the first, and
    says that it was there already.  In between others may have done anything
    that only moves notifications on ([onward]: more of them, read and
    acknowledged ones, deliveries), but not have deleted it: a deleted
    notification is created anew. *)
Theorem notify_deduplicates input caller input' caller' id w w' r r' :
  channelsSafe s -> authoritySafe s -> platformOk np s -> stable P w ->
  logicalId np s (effectiveInput s input caller) = Some id ->
  logicalId np s (effectiveInput s input' caller') = Some id ->
  (notify np s input caller w).2 = Ok r ->
  stable P w' -> onward P (notify np s input caller w).1 w' ->
  (notify np s input' caller' w').2 = Ok r' ->
  nr_created r' = false /\ n_id (nr_notification r') = n_id (nr_notification r) /\
  contentOf (nr_notification r') = contentOf (nr_notification r).
Proof.
  intros Hc Ha Hp Hs Hl Hl' Hr Hs' Ho Hr'.
  destruct (rg_notify np s Hc Ha input caller w Hp Hs) as (_ & _ & HQ).
  destruct (HQ r Hr) as [Hsh Hid]. destruct (Hid id Hl) as [E _].
  destruct (rg_notify np s Hc Ha input' caller' w' Hp Hs') as (_ & Ho' & HQ').
  destruct (HQ' r' Hr') as [Hsh' Hid']. destruct (Hid' id Hl') as [E' Hcr]. rewrite E in Hsh. rewrite E' in Hsh'.
  pose proof (shows_onward _ _ _ _ Hsh Ho) as Hsh1. pose proof (shows_onward _ _ _ _ Hsh1 Ho') as (cur & Hk & Hcont).
  destruct Hsh' as (cur' & Hk' & Hcont'). rewrite Hk in Hk'. injection Hk' as <-.
  split; [apply Hcr; destruct Hsh1 as (c1 & Hk1 & _); eauto|]. split; [congruence|]. congruence.
Qed.

(** C15: Every delivery is settled in the end.  In any life of a delivery, with
    its attempts run at times when they are due (the service waits before, and
    other processes may do anything in between but change this delivery), as
    many attempts as it has left, and at least one, leave it delivered or
    failed, whatever the channel answers or throws. *)
Theorem deliveries_settle tenantId id d n w w' :
  channelsAside s -> 0 <= ns_retryDelayMs s -> alone w ->
  nd_id d = id -> nd_tenantId d = tenantId -> peek CNotificationDeliveries id (w_db w) = Some d ->
  (0 < n)%nat -> nd_maxAttempts d - nd_attemptCount d <= Z.of_nat n ->
  attemptsRun s tenantId id n w w' ->
  exists d', peek CNotificationDeliveries id (w_db w') = Some d' /\
    (nd_status d' = NdDelivered \/ nd_status d' = NdFailed).
Proof.
  intros Hch Hr Hw Hid Ht Hd Hn Hmax Hrun.
  destruct (run_settles s tenantId id n w w' Hch Hr Hrun Hw d Hid Ht Hd) as (d' & Hk & Hset); [right; split; assumption|].
  exists d'. split; [exact Hk|]. unfold settled in Hset. destruct (nd_status d'); auto; discriminate Hset.
Qed.
End properties.

(** ** Witnesses *)

(** Version 4 identifiers. *)
Definition demoV4 (n : nat) : string := "00000000-0000-4" ++ tally n.

(** The last bytes of a text in hexadecimal, filled up to 64 digits. *)
Fixpoint reversed (acc t : string) : string := match t with EmptyString => acc | String c r => reversed (String c acc) r end.

Definition demoSha (t : string) : string :=
  let hex := sliceTo 64 (toHex (reversed "" t)) in
  hex ++ (fix zeros n := match n with O => "" | S n => String "0" (zeros n) end) (64 - String.length hex)%nat.

Lemma sliceTo_length n t : (String.length (sliceTo n t) <= n)%nat.
Proof. revert t. induction n as [|n IH]; intros [|c t]; cbn; try lia. specialize (IH t). lia. Qed.

Lemma app_length_text a b : String.length (a ++ b) = (String.length a + String.length b)%nat.
Proof. induction a as [|c a IH]; [reflexivity|]. cbn. now rewrite <- IH. Qed.

Lemma demoSha_length t : String.length (demoSha t) = 64%nat.
Proof.
  unfold demoSha. cbv zeta. pose proof (sliceTo_length 64 (toHex (reversed "" t))) as Hl.
  set (hex := sliceTo 64 _) in *. rewrite app_length_text.
  assert (forall n, String.length ((fix zeros n := match n with O => "" | S n => String "0" (zeros n) end) n) = n) as Hz
    by (induction n as [|n IH]; cbn; [reflexivity | now rewrite IH]).
  rewrite Hz. lia.
Qed.

Definition demoNotices : NotificationPlatform :=
  mkNotificationPlatform demoSha (fun _ => Ok 2) (fun v => Ok v) (fun _ => None) String.leb (fun _ => None).

Definition demoInbox (jobs : option (JobService MemDB)) (deliver : Channel MemDB) : NotificationService MemDB :=
  mkNotificationService (Some (demoGateway true)) [("in-app", deliver)] ["in-app"] None jobs 2 1000 true.

Definition demoService : NotificationService MemDB := demoInbox None inAppChannel.

Lemma mapGet_single {A} k (v : A) k' x : mapGet [(k, v)] k' = Some x -> k' = k /\ x = v.
Proof. cbn [mapGet]. destruct (String.eqb_spec k k') as [->|]; [intros [= ->]; auto | discriminate]. Qed.

Lemma demo_channels : channelsSafe demoService.
Proof. intros type channel E n d. apply mapGet_single in E as [_ ->]. apply safe_ret. Qed.

Lemma demo_authority : authoritySafe demoService.
Proof. intros g [= <-]. apply demo_hostSafe. Qed.

Lemma demo_platform : platformOk demoNotices demoService.
Proof.
  split; [exact demoSha_length|]. split; [intros v v' [= <-]; reflexivity|]. intros id c c' Hc Hc' _.
  unfold channelRegistered, demoService, demoInbox in *. cbn [ns_channels] in *.
  destruct (mapGet _ c) as [x|] eqn:E; [|discriminate Hc]. destruct (mapGet _ c') as [x'|] eqn:E'; [|discriminate Hc'].
  apply mapGet_single in E as [-> _], E' as [-> _]. reflexivity.
Qed.

(** Another process dismisses the notification [k] while we wait. *)
Definition othersDismiss (k : string) (db : MemDB) : MemDB :=
  (db_updateIfVersion CNotifications k 1 (fun n =>
     if present (n_dismissedAt n) then n else n <| n_dismissedAt := Some "2023-11-14T22:13:20.000Z" |>) db).1.

Lemma othersDismiss_polite uuid k : polite forwardProtocol uuid (othersDismiss k).
Proof.
  intros db Hu Hi. unfold othersDismiss.
  assert ((exists cur, peek CNotifications k db = Some cur /\ getVersion CNotifications cur = 1) \/
    forall cur, peek CNotifications k db = Some cur -> getVersion CNotifications cur <> 1) as [(cur & Hk & Hv)|Hno].
  { destruct (peek CNotifications k db) as [cur|]; [|right; discriminate].
    destruct (Z.eq_dec (getVersion CNotifications cur) 1) as [E|E]; [left; eauto | right; now intros ? [= <-]]. }
  - edestruct (law_cas_hit _ CNotifications k 1) as (db' & E & Hch); [exact Hu | exact Hk | exact Hv|].
    rewrite E. cbn [fst]. split; [apply Hch|]. split; [split|].
    + intros k'. destruct (decide (k' = k)) as [->|Hne].
      * rewrite Hk, (changed_hit _ _ _ _ _ Hch). cbn in Hv |- *. destruct (present (n_dismissedAt cur)) eqn:Ed;
          constructor; cbn; auto; try congruence; right; lia.
      * rewrite (changed_frame _ _ _ CNotifications k' _ _ Hch) by congruence.
        destruct (peek CNotifications k' db); cbn; [reflexivity | exact I].
    + intros k' Hx. now rewrite (changed_frame _ _ _ CEvidence k' _ _ Hch) by discriminate.
    + intros n V c Hn. destruct (decide ((cname c, uuid n) = (cname CNotifications, k))) as [Ec|Ec].
      * injection Ec as Ec En. rewrite En in *. destruct c; try discriminate Ec. congruence.
      * now rewrite (changed_frame _ _ _ _ _ _ _ Hch Ec).
  - rewrite law_cas_miss by assumption. cbn [fst]. split; [exact Hu|]. split; [reflexivity | auto].
Qed.

(** A world with identifiers of version 4, where somebody dismisses [k] at the
    third call. *)
Definition demoBusy (k : string) (db : MemDB) : World MemDB :=
  demo db <| w_uuid := demoV4 |> <| w_env := [id; id; othersDismiss k] |>.

Lemma demoBusy_stable k db :
  keyed db -> (forall n V (c : coll V), peek c (demoV4 n) db = None) -> stable forwardProtocol (demoBusy k db).
Proof.
  intros Hk Hn. split; [exact I|]. split; [exact Hk|]. split; [split; [|intros n V c _; apply Hn]|].
  - intros i j [= E]. apply tally_inj, E.
  - split; [|intros n; reflexivity].
    assert (polite forwardProtocol demoV4 id) as Hid by (intros db0 Hu _; split; [exact Hu|]; split; [reflexivity | auto]).
    apply Forall_cons; split; [exact Hid|]. apply Forall_cons; split; [exact Hid|]. apply Forall_cons; split; [apply othersDismiss_polite | constructor].
Qed.

Definition demoNotification : Notification :=
  mkNotification "n1" "t1" (Some "app") "alice" "order.shipped" "Shipped" None None None PNormal ["in-app"] NPending
    None "2023-11-14T22:00:00.000Z" (Some "alice") None None None None None None None 1.

Definition demoNotified : MemDB := memPut CNotifications "n1" demoNotification emptyDB.

Lemma demoNotified_ok : keyed demoNotified /\ forall n V (c : coll V), peek c (demoV4 n) demoNotified = None.
Proof.
  assert (changed CNotifications "n1" (Some demoNotification) emptyDB demoNotified) as Hch by apply memPut_changed. split.
  - intros k n Hk. destruct (decide (k = "n1")) as [->|Hne].
    + rewrite (changed_hit _ _ _ _ _ Hch) in Hk. now injection Hk as <-.
    + rewrite (changed_frame _ _ _ CNotifications k _ _ Hch) in Hk by congruence. discriminate Hk.
  - intros n V c. rewrite (changed_frame _ _ _ c _ _ _ Hch) by (intros [= _ E]; discriminate E). destruct c; apply lookup_empty.
Qed.

Definition aliceCalls : NotificationCaller := mkNotificationCaller (CVerified alice) None.

Definition orderInput : list (string * jsval) :=
  [("recipient", JStr "alice"); ("type", JStr "order.shipped"); ("title", JStr "Shipped"); ("idempotencyKey", JStr "order-1")].

(** Alice reads a notification that another process dismisses meanwhile,
    acknowledges it and is notified. *)
Lemma notifications_move_on_witness :
  let w := demoBusy "n1" demoNotified in
  let db' := w_db (serveAll demoNotices demoService
    [RqRead "t1" "n1" aliceCalls; RqAcknowledge "t1" "n1" aliceCalls; RqNotify orderInput aliceCalls; RqRead "t1" "n1" aliceCalls] w).1 in
  exists n', peek CNotifications "n1" db' = Some n' /\ contentOf n' = contentOf demoNotification /\
    n_status n' = NAcknowledged /\ present (n_readAt n') = true /\ present (n_dismissedAt n') = true.
Proof.
  intros w db'.
  destruct (notifications_move_on demoNotices demoService
    [RqRead "t1" "n1" aliceCalls; RqAcknowledge "t1" "n1" aliceCalls; RqNotify orderInput aliceCalls; RqRead "t1" "n1" aliceCalls] w
    demo_channels demo_authority demo_platform) as [Hkept _]; [apply demoBusy_stable; apply demoNotified_ok|].
  destruct (Hkept "n1" demoNotification) as (n' & Hk & Hc & _); [vm_compute; reflexivity|].
  exists n'. split; [exact Hk|]. split; [exact Hc|]. clear Hkept Hc. unfold db', w in Hk.
  vm_compute in Hk. injection Hk as <-. split; [reflexivity|]. split; reflexivity.
Defined.

(** The same order, announced twice with different titles. *)
Lemma notify_deduplicates_witness :
  let again := [("tenantId", JStr "t1"); ("recipient", JStr "alice"); ("type", JStr "order.shipped");
                ("title", JStr "Your order is on its way"); ("idempotencyKey", JStr "order-1")] in
  let w := demoBusy "n1" demoNotified in
  exists r r', (notify demoNotices demoService orderInput aliceCalls w).2 = Ok r /\
    (notify demoNotices demoService again aliceCalls (notify demoNotices demoService orderInput aliceCalls w).1).2 = Ok r' /\
    nr_created r = true /\ nr_created r' = false /\ n_id (nr_notification r') = n_id (nr_notification r) /\
    n_title (nr_notification r') = "Shipped".
Proof.
  intros again w.
  assert (stable forwardProtocol w) as Hs by (apply demoBusy_stable; apply demoNotified_ok).
  pose proof (safe_notify demoNotices demoService demo_channels demo_authority orderInput aliceCalls demo_platform w Hs) as (Hs1 & _ & _).
  eassert ((notify demoNotices demoService orderInput aliceCalls w).2 = Ok _) as Hr by (vm_compute; reflexivity).
  eassert ((notify demoNotices demoService again aliceCalls (notify demoNotices demoService orderInput aliceCalls w).1).2 = Ok _) as Hr'
    by (vm_compute; reflexivity).
  eassert (logicalId demoNotices demoService (effectiveInput demoService orderInput aliceCalls) = Some _) as Hl by (vm_compute; reflexivity).
  destruct (notify_deduplicates demoNotices demoService _ _ again aliceCalls _ w _ _ _ demo_channels demo_authority demo_platform Hs Hl
    ltac:(vm_compute; reflexivity) Hr Hs1 ltac:(reflexivity) Hr') as (Hc & Hid & Hcont).
  do 2 eexists. split; [exact Hr|]. split; [exact Hr'|]. split; [reflexivity|]. split; [exact Hc|]. split; [exact Hid|].
  exact (f_equal (fun c => snd (fst (fst (fst c)))) Hcont).
Defined.

(** A channel that is always busy, and a job service for the retries. *)
Definition busyChannel : Channel MemDB := fun _ _ => mret (ChannelFailed "busy" None).

Definition demoRetrying : NotificationService MemDB :=
  demoInbox (Some (newJobService (Some (demoGateway true)) None None [])) busyChannel.

Definition demoDelivery : NotificationDelivery :=
  mkNotificationDelivery "d1" "t1" "n1" "alice" "in-app" NdPending "n1:in-app" 0 2 "2023-11-14T22:00:00.000Z"
    None None None None None None 1.

Definition demoPending : MemDB := memPut CNotificationDeliveries "d1" demoDelivery demoNotified.

Lemma demo_alone db : unused db -> alone (demo db).
Proof. intros Hu. destruct (demo_calm db Hu) as [Hq (Hc & _)]. split; assumption. Qed.

Lemma alone_clock (w : World MemDB) f :
  alone w -> (forall n, 0 <= f n <= timeBound) -> alone (w <| w_clock := f |>).
Proof. intros [(He & Hu & Hf) _] Hc. split; [split; [exact He|]; split; assumption | exact Hc]. Qed.

Lemma clock_db (w : World MemDB) f : w_db (w <| w_clock := f |>) = w_db w.
Proof. reflexivity. Qed.

(** The first attempt fails and is retried after its delay; the second is the last. *)
Lemma deliveries_settle_witness :
  let w := demo demoPending in
  let w1 := (attemptDelivery demoRetrying "t1" "d1" InitialAttempt w).1 in
  let w2 := w1 <| w_clock := (fun _ => demoTime + 1000) |> in
  let w3 := (attemptDelivery demoRetrying "t1" "d1" ScheduledAttempt w2).1 in
  exists d1 d', peek CNotificationDeliveries "d1" (w_db w1) = Some d1 /\ nd_status d1 = NdRetrying /\
    peek CNotificationDeliveries "d1" (w_db w3) = Some d' /\ nd_status d' = NdFailed /\ nd_attemptCount d' = 2.
Proof.
  intros w w1 w2 w3.
  assert (channelsAside demoRetrying) as Hch.
  { intros type channel E n d. apply mapGet_single in E as [_ ->]. apply safe_ret. }
  assert (alone w) as Hw by (apply demo_alone; do 2 (apply unused_put; [reflexivity|]); apply unused_empty).
  assert (alone w1) as Hw1.
  { apply (attempt_spec demoRetrying demoDelivery InitialAttempt w Hch ltac:(cbn; lia) Hw ltac:(reflexivity) ltac:(reflexivity)).
    intros now cutoff _ _. reflexivity. }
  assert (alone w2) as Hw2.
  { apply alone_clock; [exact Hw1|]. intros n. unfold timeBound, demoTime. lia. }
  assert (attemptsRun demoRetrying "t1" "d1" 2 w w3) as Hrun.
  { apply run_attempt with (mode := InitialAttempt).
    { intros d Hd _ now cutoff _ _. vm_compute in Hd. injection Hd as <-. reflexivity. }
    apply run_other with w2; [exact Hw2 | exact (f_equal (peek CNotificationDeliveries "d1") (clock_db w1 _)) |].
    apply run_attempt with (mode := ScheduledAttempt); [|apply run_done].
    intros d Hd _ now cutoff Hnow Hcut. vm_compute in Hd. injection Hd as <-.
    vm_compute in Hnow. injection Hnow as <-. vm_compute in Hcut. injection Hcut as <-. reflexivity. }
  destruct (deliveries_settle demoRetrying "t1" "d1" demoDelivery 2 w w3 Hch ltac:(cbn; lia) Hw eq_refl eq_refl
    ltac:(reflexivity) ltac:(lia) ltac:(cbn; lia) Hrun) as (d' & Hk & _).
  eassert (peek CNotificationDeliveries "d1" (w_db w1) = Some _) as Hk1 by (vm_compute; reflexivity).
  eexists. exists d'. split; [exact Hk1|]. split; [reflexivity|]. split; [exact Hk|].
  unfold w3, w2, w1, w in Hk. vm_compute in Hk. injection Hk as <-. split; reflexivity.
Defined.
