(* ===== verification/TransferProps.v ===== *)
(** * TransferProps: theorems about export and import

    A document read back is the document; importing what was exported changes
    nothing; a dry run predicts the import; an import attaches no credentials. *)

From S2P Require Import Prelude JsString JsTime Errors Models Store Calm MemStore Principal Manifest Restrictions Evidence Gateway Rely GatewayFacts Destination Webhooks Configuration ConfigFacts Jobs Schedules Transfer Demo.
From Stdlib Require Import ZArith Lia Ascii.
Local Open Scope string_scope.
Local Open Scope Z_scope.

(** ** The document as a value *)

Definition variableValue (v : ConfigurationExportVariable) : jsval :=
  JObj [("name", JStr (xv_name v)); ("value", JStr (xv_value v)); ("required", JBool (xv_required v))].

Definition secretValueOf (s : ConfigurationExportSecret) : jsval :=
  JObj [("name", JStr (xs_name s)); ("required", JBool (xs_required s)); ("credentialRef", JStr (xs_credentialRef s))].

Definition endpointValue (e : ConfigurationExportWebhookEndpoint) : jsval :=
  JObj ([("url", JStr (xe_url e)); ("events", JArr (map JStr (xe_events e)))] ++
        match xe_signingCredentialRef e with Some ref => [("signingCredentialRef", JStr ref)] | None => [] end).

Definition scheduleValue (s : ConfigurationExportSchedule) : jsval :=
  JObj [("type", JStr (xc_type s)); ("interval", JStr (xc_interval s)); ("payload", JObj (xc_payload s))].

(** The object that an export returns. *)
Definition documentValue (d : ConfigurationExportDocument) : jsval :=
  JObj [("format", JStr CONFIGURATION_EXPORT_FORMAT); ("formatVersion", JInt CONFIGURATION_EXPORT_FORMAT_VERSION);
    ("exportedAt", JStr (xd_exportedAt d));
    ("source", JObj [("application", JStr (xd_application d)); ("environment", JStr (environmentName (xd_environment d)));
                     ("servicesVersion", JStr (xd_servicesVersion d))]);
    ("variables", JArr (map variableValue (xd_variables d))); ("secrets", JArr (map secretValueOf (xd_secrets d)));
    ("webhookEndpoints", JArr (map endpointValue (xd_webhookEndpoints d)));
    ("schedules", JArr (map scheduleValue (xd_schedules d)))].

(** What an import accepts of a document. *)
Definition variableOk (v : ConfigurationExportVariable) : Prop := truthy (xv_name v) = true /\ truthy (xv_value v) = true.
Definition refOk (ref : string) : Prop := isCredentialRef (JStr ref) = true.
Definition secretOk (s : ConfigurationExportSecret) : Prop := truthy (xs_name s) = true /\ refOk (xs_credentialRef s).
Definition endpointOk (e : ConfigurationExportWebhookEndpoint) : Prop :=
  truthy (xe_url e) = true /\ xe_events e <> [] /\ Forall (fun s => truthy s = true) (xe_events e) /\
  match xe_signingCredentialRef e with Some ref => refOk ref | None => True end.
Definition scheduleOk (s : ConfigurationExportSchedule) : Prop := truthy (xc_type s) = true /\ truthy (xc_interval s) = true.

Record documentOk (d : ConfigurationExportDocument) : Prop := mkDocumentOk {
  ok_variables : Forall variableOk (xd_variables d);
  ok_secrets : Forall secretOk (xd_secrets d);
  ok_endpoints : Forall endpointOk (xd_webhookEndpoints d);
  ok_schedules : Forall scheduleOk (xd_schedules d) }.

Lemma refOk_text ref : refOk ref -> truthy ref = true.
Proof. unfold refOk. destruct ref; [intros E; vm_compute in E; discriminate | reflexivity]. Qed.

Lemma textField_ok s what : truthy s = true -> textField (JStr s) what = Ok s.
Proof. cbn. now intros ->. Qed.

Lemma refField_ok s what : refOk s -> refField (JStr s) what = Ok s.
Proof. intros Hs. unfold refField. rewrite textField_ok by now apply refOk_text. cbn -[isCredentialRef]. now rewrite Hs. Qed.

Lemma eventTexts_map l : eventTexts (map JStr l) = l.
Proof. unfold eventTexts. rewrite map_map. apply map_id. Qed.

Lemma readEvents_ok index l : l <> [] -> Forall (fun s => truthy s = true) l -> readEvents index (JArr (map JStr l)) = Ok l.
Proof.
  intros Hne Hl. assert (forallb isText (map JStr l) = true) as Ht.
  { apply forallb_forall. intros v (t & <- & Hin)%in_map_iff. rewrite List.Forall_forall in Hl. now apply Hl. }
  destruct l as [|s l]; [easy|]. cbn [map] in *. cbn [readEvents]. rewrite Ht.
  exact (f_equal Ok (eventTexts_map (s :: l))).
Qed.

(** Entries that read back as what they were printed from. *)
Lemma eachEntry_map {A} (read : Z -> list (string * jsval) -> outcome A) (print : A -> jsval) l index :
  (forall a i, In a l -> read i (payloadOf (print a)) = Ok a) -> eachEntry read index (map payloadOf (map print l)) = Ok l.
Proof.
  revert index. induction l as [|a l IH]; intros index Hr; [reflexivity|]. cbn [map eachEntry].
  rewrite Hr by now left. cbn. rewrite IH; [reflexivity|]. intros b i Hb. apply Hr. now right.
Qed.

Lemma entries_printed {A} doc key (print : A -> jsval) l :
  getField doc key = JArr (map print l) -> (forall a, isObject (print a) = true) -> entriesOf doc key = Ok (map payloadOf (map print l)).
Proof.
  intros E Hp. unfold entriesOf. rewrite E. destruct (existsb _ _) eqn:Ex; [|reflexivity].
  apply existsb_exists in Ex as (v & (a & <- & _)%in_map_iff & Hv). rewrite Hp in Hv. discriminate Hv.
Qed.

Lemma environmentOf_name e : environmentOf (JStr (environmentName e)) = Some e.
Proof. now destruct e. Qed.

Lemma readVariable_ok v i : variableOk v -> readVariable i (payloadOf (variableValue v)) = Ok v.
Proof. intros [Hn Hv]. destruct v as [n x r]. cbn in *. now rewrite Hn, Hv. Qed.

Lemma readSecret_ok s i : secretOk s -> readSecret i (payloadOf (secretValueOf s)) = Ok s.
Proof.
  intros [Hn Hr]. destruct s as [n r ref]. cbn -[refField] in *. rewrite Hn. cbn -[refField]. now rewrite refField_ok.
Qed.

Lemma readEndpoint_ok e i : endpointOk e -> readEndpoint i (payloadOf (endpointValue e)) = Ok e.
Proof.
  intros (Hu & He & Ht & Hr). destruct e as [url events [ref|]]; unfold readEndpoint, forbiddenField;
    cbn -[refField readEvents textField] in *;
    rewrite (readEvents_ok _ _ He Ht); cbn -[refField textField]; rewrite (textField_ok _ _ Hu); cbn -[refField];
    [now rewrite refField_ok | reflexivity].
Qed.

Lemma readSchedule_ok s i : scheduleOk s -> readSchedule i (payloadOf (scheduleValue s)) = Ok s.
Proof. intros [Ht Hi]. destruct s as [t iv p]. cbn in *. now rewrite Ht, Hi. Qed.

(** A document printed and read back is that document. *)
Lemma parse_document jsonParse stringOfValue d :
  documentOk d -> parseExportDocument jsonParse stringOfValue (documentValue d) = Ok d.
Proof.
  intros [Hv Hs He Hc]. rewrite List.Forall_forall in Hv, Hs, He, Hc. unfold parseExportDocument, documentValue.
  cbn -[entriesOf eachEntry environmentOf]. rewrite environmentOf_name. cbn -[entriesOf eachEntry].
  rewrite (entries_printed _ "variables" variableValue (xd_variables d)), (entries_printed _ "secrets" secretValueOf (xd_secrets d)),
    (entries_printed _ "webhookEndpoints" endpointValue (xd_webhookEndpoints d)),
    (entries_printed _ "schedules" scheduleValue (xd_schedules d)) by reflexivity.
  cbn -[eachEntry].
  rewrite (eachEntry_map readVariable variableValue), (eachEntry_map readSecret secretValueOf),
    (eachEntry_map readEndpoint endpointValue), (eachEntry_map readSchedule scheduleValue);
    [destruct d; reflexivity | ..]; intros a i Ha;
    [apply readSchedule_ok | apply readEndpoint_ok | apply readSecret_ok | apply readVariable_ok]; auto.
Qed.

Section import.
Context {DB : Type} `{FeltDBLaws DB}.
Variable authority : option (ServiceGateway DB).
Variable declarations : list ConfigurationDeclaration.
Variable webhooks : option (WebhookPlatform DB * WebhookService DB).
Variable schedules : option (JobService DB * option (ServiceGateway DB)).
Variable stringify : jsval -> string.
Variable jsonParse : string -> option jsval.
Variable stringOfValue : jsval -> string.
Variable foreignCode : exn -> option string.
Implicit Types w : World DB.

#[local] Abbreviation import :=
  (importConfiguration authority declarations webhooks schedules stringify jsonParse stringOfValue foreignCode).
#[local] Abbreviation planItems := (planItems authority webhooks schedules stringify).
#[local] Abbreviation applyItems := (applyItems foreignCode).
#[local] Abbreviation applyItem := (applyItem foreignCode).
#[local] Abbreviation readTarget := (readTarget authority declarations webhooks schedules).

(** ** What becomes of a planned item *)

Definition writes (item : ConfigurationImportItem) : bool :=
  bool_decide (it_action item = ACreate) || bool_decide (it_action item = AUpdate).

(** Planned and not written. *)
Definition unwritten (item : ConfigurationImportItem) : Prop := it_applied item = false /\ it_error item = None.

Definition plannedOf (item : ConfigurationImportItem) : ConfigurationImportItem :=
  item <| it_applied := false |> <| it_error := None |>.

(** What was to be written either was, or failed with an error. *)
Definition itemSettled (item : ConfigurationImportItem) : Prop :=
  if writes item then if it_applied item then it_error item = None else it_error item <> None else unwritten item.

Lemma plannedOf_unwritten item : unwritten item -> plannedOf item = item.
Proof. destruct item as [k key a r ap e]. intros [E1 E2]. cbn in *. now subst. Qed.

Lemma applyItem_settles item write w :
  unwritten item -> exists w' done, applyItem false item write w = (w', Ok done) /\ plannedOf done = item /\ itemSettled done /\
    (writes item = false -> w' = w).
Proof.
  intros Hu. unfold applyItem. fold (writes item). cbn [orb]. destruct (writes item) eqn:Ew; cbn [negb].
  - unfold tryCatch, mbind, M_bind. destruct (write w) as [w' [[]|e]]; do 2 eexists; (split; [reflexivity|]).
    + split; [destruct item as [? ? ? ? ? ?], Hu; cbn in *; now subst|]. split; [|discriminate].
      unfold itemSettled, writes in *. destruct item; cbn in *. rewrite Ew. apply Hu.
    + split; [destruct item as [? ? ? ? ? ?], Hu; cbn in *; now subst|]. split; [|discriminate].
      unfold itemSettled, writes in *. destruct item, Hu; cbn in *. rewrite Ew. now subst.
  - exists w, item. split; [reflexivity|]. split; [now apply plannedOf_unwritten|]. split; [|auto].
    unfold itemSettled. now rewrite Ew.
Qed.

Lemma applyItems_settle plan w :
  Forall (fun p => unwritten p.1) plan ->
  exists w' done, applyItems false plan w = (w', Ok done) /\ map plannedOf done = map fst plan /\ Forall itemSettled done /\
    (Forall (fun p => writes p.1 = false) plan -> w' = w).
Proof.
  intros Hu. revert w. induction Hu as [|[item write] plan Hi _ IH]; intros w; [exists w, []; auto|].
  destruct (applyItem_settles item write w Hi) as (w1 & done & E1 & Ep & Hs & Hw).
  destruct (IH w1) as (w2 & more & E2 & Em & Hm & Hw2). exists w2, (done :: more). cbn [Transfer.applyItems].
  unfold mbind, M_bind. rewrite E1, E2. split; [reflexivity|]. split; [cbn; congruence|]. split; [now constructor|].
  intros Hn. inversion Hn; subst. rewrite <- Hw by assumption. auto.
Qed.

Lemma applyItems_dry plan w : applyItems true plan w = (w, Ok (map fst plan)).
Proof.
  induction plan as [|[item write] plan IH]; [reflexivity|]. cbn [Transfer.applyItems]. unfold mbind, M_bind in *. cbn. now rewrite IH.
Qed.

(** Planned, and a credential is never to be written. *)
Definition wellPlanned (item : ConfigurationImportItem) : Prop :=
  unwritten item /\ (it_kind item = KSecret -> writes item = false).

Lemma planItems_well overwrite environment principal current endpoints scheduled document :
  Forall (fun p => wellPlanned p.1) (planItems overwrite environment principal current endpoints scheduled document).
Proof.
  assert (forall kind key action reason, (kind = KSecret -> action = AUnchanged \/ action = AConflict \/ action = AMissing) ->
    wellPlanned (planned kind key action reason)) as Hw.
  { intros kind key action reason Hk. split; [split; reflexivity|]. cbn. intros E. destruct (Hk E) as [->|[->| ->]]; reflexivity. }
  unfold planItems. repeat apply Forall_app_2.
  - apply Forall_map, Forall_true. intros v. cbn. unfold planVariable. repeat case_match; apply Hw; discriminate.
  - apply Forall_map, Forall_true. intros v. cbn. unfold planSecret. repeat case_match; apply Hw; auto.
  - destruct webhooks as [[pf hooks]|]; apply Forall_map, Forall_true; intros v; cbn; [|apply Hw; discriminate].
    unfold planEndpoint. repeat case_match; apply Hw; discriminate.
  - destruct schedules as [[jobs gw]|]; apply Forall_map, Forall_true; intros v; cbn; [|apply Hw; discriminate].
    unfold planSchedule. repeat case_match; apply Hw; discriminate.
Qed.

Lemma planItems_unwritten overwrite environment principal current endpoints scheduled document :
  Forall (fun p => unwritten p.1) (planItems overwrite environment principal current endpoints scheduled document).
Proof. eapply Forall_impl; [apply planItems_well|]. now intros p []. Qed.

(** ** Reading the target keeps every protocol *)

(** The gateways the reads go through. *)
Definition readersSafe (P : Protocol DB) : Prop :=
  (forall g, authority = Some g -> hostSafe P g) /\
  (forall jobs g, schedules = Some (jobs, Some g) -> hostSafe P g).

Lemma safe_guard {A B} (P : Protocol DB) (o : outcome A) (k : A -> M DB B) :
  (forall a, o = Ok a -> safe P (k a)) -> safe P (ofOutcome o ≫= k).
Proof.
  intros Hk w Hs. apply rg_bind, rg_outcome; [exact Hs|]. destruct o as [a|e]; [now apply Hk | exact I].
Qed.

Lemma safe_value {A B} (P : Protocol DB) (a : A) (k : A -> M DB B) : safe P (k a) -> safe P (mret a ≫= k).
Proof. exact id. Qed.

(** An operation on configuration goes through the service's gateway. *)
Lemma safe_owned {T} (P : Protocol DB) scope caller (k : ServiceGateway DB * VerifiedPrincipal * ConfigurationScope -> M DB T) :
  (forall g p owned, authority = Some g -> safe P (k (g, p, owned))) -> safe P (ofOutcome (own authority scope caller) ≫= k).
Proof.
  intros Hk. apply safe_guard. intros [[g p] owned]. unfold own, configGateway.
  destruct authority as [g'|]; [|discriminate]. destruct (resolveConfigurationOwnership _ _ _) as [[]|]; [|discriminate].
  intros [= <- <- <-]. now apply Hk.
Qed.

Lemma safe_listConfiguration P scope caller :
  (forall g, authority = Some g -> hostSafe P g) -> safe P (listConfiguration authority declarations scope caller).
Proof.
  intros Hg. apply safe_owned. intros g p owned Eg. apply safe_execute; [now apply Hg|]. intros x tools.
  unfold listVariables, listSecrets. safe_tac.
Qed.

Lemma safe_readTarget P g environment principal document :
  readersSafe P -> authority = Some g -> safe P (readTarget g environment principal document).
Proof.
  intros [Hg Hs] Eg. unfold readTarget, readEndpoints, sc_list, schedulesGateway, listSchedules, listWebhookEndpoints, we_list, ss_list.
  apply safe_bind; [now apply safe_listConfiguration|]. intros current.
  apply safe_bind; [|intros l; apply safe_bind; [|safe_tac]].
  - safe_tac; apply safe_execute; [now apply Hg | intros x tools; safe_tac].
  - destruct schedules as [[jobs gw]|], (xd_schedules document); try (apply safe_ret).
    apply safe_bind; [|safe_tac]. do 2 (apply safe_guard; intros ? _). destruct gw as [gw|]; [|exact (safe_throw P _)].
    apply safe_value, safe_execute; [now eapply Hs|]. intros x tools. safe_tac.
Qed.

(** ** A dry run *)

(** A dry run only reads, and predicts the import.  It keeps every
    protocol that the gateways keep, writing nothing of its own.  If it throws,
    so does the import, at the same point.  Otherwise all its items are
    unwritten, and the import from the same world reports the same items, in the
    same order, with the same missing credentials: each that was to be created
    or updated is applied, or carries its error, and the others are untouched;
    if none was, the import is the dry run. *)
Theorem dry_run_predicts input p notDry overwrite environment w :
  isTrue notDry = false ->
  (forall P : Protocol DB, readersSafe P ->
     safe P (import input (mkImportOptions p (JBool true) overwrite environment))) /\
  match import input (mkImportOptions p (JBool true) overwrite environment) w with
  | (w1, Throw e) => import input (mkImportOptions p notDry overwrite environment) w = (w1, Throw e)
  | (w1, Ok dry) =>
      Forall unwritten (im_items dry) /\
      exists w2 report, import input (mkImportOptions p notDry overwrite environment) w = (w2, Ok report) /\
        map plannedOf (im_items report) = im_items dry /\ Forall itemSettled (im_items report) /\
        im_missingSecrets report = im_missingSecrets dry /\ im_environment report = im_environment dry /\
        (Forall (fun i => writes i = false) (im_items dry) -> w2 = w1)
  end.
Proof.
  intros Hd. split.
  - intros P HP. unfold importConfiguration. cbn [mo_principal mo_dryRun mo_overwrite mo_environment isTrue].
    apply safe_guard; intros principal _. apply safe_guard; intros document _. apply safe_guard; intros env _.
    cbv zeta. apply safe_guard; intros g Eg. apply safe_bind.
    { apply safe_readTarget; [exact HP|]. unfold configGateway in Eg. destruct authority; [now injection Eg as -> | discriminate]. }
    intros [[current endpoints] scheduled]. apply safe_bind; [|intros; apply safe_ret].
    intros w' Hw'. unfold rg. rewrite applyItems_dry. split; [exact Hw'|]. split; [reflexivity | exact I].
  - unfold importConfiguration. cbn [mo_principal mo_dryRun mo_overwrite mo_environment isTrue]. rewrite Hd.
    unfold mbind, M_bind, ofOutcome.
    destruct (requireVerifiedPrincipal p) as [principal|e]; [|reflexivity].
    destruct (parseExportDocument _ _ _) as [document|e]; [|reflexivity].
    destruct (requireEnvironment _) as [env|e]; [|reflexivity].
    destruct (configGateway authority) as [g|e]; [|reflexivity].
    destruct (readTarget g env principal document w) as [w1 [[[current endpoints] scheduled]|e]]; [|reflexivity].
    set (plan := planItems _ _ _ _ _ _ _). rewrite applyItems_dry.
    assert (Forall (fun p => unwritten p.1) plan) as Hu by apply planItems_unwritten.
    destruct (applyItems_settle plan w1 Hu) as (w2 & done & -> & Em & Hs & Hw). cbn.
    split; [now apply Forall_map|]. do 2 eexists. split; [reflexivity|]. cbn.
    split; [exact Em|]. split; [exact Hs|]. split; [reflexivity|]. split; [reflexivity|].
    rewrite Forall_map. exact Hw.
Qed.

(** ** What an import may write

    A protocol that leaves variables, endpoints, schedules and the audit
    collections free is kept by every import. *)

Section writers.
Variable P : Protocol DB.
Hypothesis free_variables : free P CVariables.
Hypothesis free_configAudit : free P CConfigAudit.
Hypothesis free_endpoints : free P CEndpoints.
Hypothesis free_hookAudit : free P CHookAudit.
Hypothesis free_schedules : free P CSchedules.
Hypothesis free_jobAudit : free P CJobAudit.
#[local] Abbreviation safe := (safe P).
#[local] Abbreviation rg := (rg P).

(** A log row under a drawn identifier, with or without the time. *)
Lemma safe_logged {V} (c : coll V) (row : string -> string -> V) :
  free P c -> safe (id ← randomUUID; t ← nowIso; insert c id (row id t)).
Proof.
  intros Hf w Hs. apply rg_bind, rg_uuid; [exact Hs|]. intros id w1 Hs1 _ Hv.
  apply rg_bind, rg_nowIso; [exact Hs1|]. intros [t|e] w2 Hs2 Ha; [|exact I].
  apply rg_insert_free; [exact Hf | exact Hs2 | eapply vacant_aside; eassumption | auto].
Qed.

Lemma safe_drawn {A} (k : string -> M DB A) :
  (forall id w, stable P w -> vacant id w -> rg (k id) (fun _ _ => True) w) -> safe (randomUUID ≫= k).
Proof. intros Hk w Hs. apply rg_bind, rg_uuid; [exact Hs|]. intros id w1 Hs1 _ Hv. now apply Hk. Qed.

Lemma safe_recordConfiguration type scope name secret actor operation configured :
  safe (recordConfiguration type scope name secret actor operation configured).
Proof. apply (safe_logged CConfigAudit (fun id t => mkConfigAudit id type scope name secret actor t operation configured)), free_configAudit. Qed.

Lemma safe_hookAudit type e d i t p s r : safe (hookAudit type e d i t p s r).
Proof. apply (safe_logged CHookAudit (fun id at_ => mkHookAudit id type e d i t p at_ s r None)), free_hookAudit. Qed.

Lemma safe_audit type j s t p at_ ok details : safe (audit type j s t p at_ ok details).
Proof.
  intros w Hs. apply rg_bind, rg_uuid; [exact Hs|]. intros id w1 Hs1 _ Hv.
  apply rg_insert_free; [exact free_jobAudit | exact Hs1 | exact Hv | auto].
Qed.

Lemma safe_recordScheduleAudit type sch p : safe (recordScheduleAudit type sch p).
Proof.
  apply (safe_logged CJobAudit (fun id t => mkJobAudit id type None (Some (s_id sch)) (s_tenantId sch) p t true [] None)), free_jobAudit.
Qed.

Lemma safe_createVariable input caller :
  (forall g, authority = Some g -> hostSafe P g) -> safe (createVariable authority input caller).
Proof.
  intros Hg. apply safe_owned. intros g p owned Eg. apply safe_guard. intros [name value] _.
  apply safe_execute; [now apply Hg|]. intros x tools. unfold getVariable, getSecret.
  apply safe_bind; [safe_tac|]. intros [c|]; (apply safe_bind; [safe_tac|]; intros [b|]); try apply safe_throw.
  apply safe_bind; [apply safe_nowIso|]. intros t. apply safe_drawn. intros id w Hs Hv. unfold saveVariable.
  apply rg_bind, rg_bind, rg_insert_free; [exact free_variables | exact Hs | exact Hv|]. intros w1 Hs1 _.
  apply rg_ret; [exact Hs1|]. apply rg_safe; [|exact Hs1 | auto].
  apply safe_bind; [apply safe_recordConfiguration | safe_tac].
Qed.

Lemma safe_updateVariable input caller :
  (forall g, authority = Some g -> hostSafe P g) -> safe (updateVariable authority input caller).
Proof.
  intros Hg. apply safe_owned. intros g p owned Eg. apply safe_guard. intros [name value] _.
  apply safe_execute; [now apply Hg|]. intros x tools. unfold getVariable, saveVariable. safe_tac.
  - apply safe_cas_free, free_variables.
  - apply safe_recordConfiguration.
Qed.

Lemma safe_createWebhookEndpoint pf s input caller :
  (forall g, hs_authority s = Some g -> hostSafe P g) -> (forall host, safe (pf_lookup pf host)) ->
  safe (createWebhookEndpoint pf s input caller).
Proof.
  intros Hg Hl. unfold createWebhookEndpoint, hookGateway, destinationFor, validateDestination, Destination.resolve.
  do 7 (apply safe_guard; intros ? _). apply safe_bind; [safe_tac|]. intros d.
  destruct (hs_authority s) as [g|]; [|exact (safe_throw P _)]. apply safe_value, safe_execute; [now apply Hg|].
  intros x tools. apply safe_bind; [apply safe_nowIso|]. intros t. apply safe_drawn. intros id w Hs Hv.
  apply rg_bind, rg_create; [exact Hs | exact Hv | apply free_endpoints|]. intros [[]|] w1 Hs1 _; [|exact I].
  apply rg_safe; [|exact Hs1 | auto]. apply safe_bind; [apply safe_hookAudit | safe_tac].
Qed.

Lemma safe_disableWebhookEndpoint s input caller :
  (forall g, hs_authority s = Some g -> hostSafe P g) -> safe (disableWebhookEndpoint s input caller).
Proof.
  intros Hg. unfold disableWebhookEndpoint, hookGateway, getWebhookEndpoint, we_get, we_disable.
  do 3 (apply safe_guard; intros ? _). apply safe_bind; [safe_tac|]. intros [e|]; [|safe_tac].
  destruct (hs_authority s) as [g|]; [|exact (safe_throw P _)]. apply safe_value.
  destruct (negb _); [apply safe_ret|]. destruct (present _); [apply safe_ret|]. apply safe_execute; [now apply Hg|].
  intros x tools. safe_tac; [apply safe_cas_free, free_endpoints | apply safe_hookAudit].
Qed.

Lemma safe_createScheduleRecord input principalId application principal by_ :
  safe (createScheduleRecord input principalId application principal by_).
Proof.
  unfold createScheduleRecord, ss_create. apply safe_drawn. intros id w Hs Hv.
  apply rg_bind, rg_nowIso; [exact Hs|]. intros [t|] w1 Hs1 Ha; [|exact I]. apply rg_bind, rg_outcome; [exact Hs1|].
  destruct (nextRunTime t _) as [next|]; [|exact I]. cbv zeta.
  apply rg_bind, rg_create; [exact Hs1 | eapply vacant_aside; eassumption | apply free_schedules|].
  intros [[]|] w2 Hs2 _; [|exact I]. apply rg_safe; [|exact Hs2 | auto]. apply safe_bind; [apply safe_audit | safe_tac].
Qed.

Lemma safe_sc_create jobs input caller :
  (forall g, jv_authority jobs = Some g -> hostSafe P g) -> safe (sc_create jobs input caller).
Proof.
  intros Hg. unfold sc_create, scheduleRecurring. apply safe_guard; intros checked _. apply safe_bind; [apply safe_nowIso|].
  intros t. do 3 (apply safe_guard; intros ? _). destruct (jv_authority jobs) as [g|]; [|apply safe_createScheduleRecord].
  do 3 (apply safe_guard; intros ? _). apply safe_execute; [now apply Hg|]. intros x tools. apply safe_createScheduleRecord.
Qed.

Lemma safe_sc_disable jobs tenantId id caller :
  (forall g, jv_authority jobs = Some g -> hostSafe P g) -> safe (sc_disable jobs tenantId id caller).
Proof.
  intros Hg. assert (forall t v p, safe (disableAndAudit t id v p)) as Hd.
  { intros t v p. unfold disableAndAudit, ss_disable, ss_updateSchedule.
    safe_tac; [apply safe_cas_free, free_schedules | apply safe_recordScheduleAudit]. }
  unfold sc_disable, disableSchedule, disableScheduleLegacy, ss_get. destruct (jv_authority jobs) as [g|]; [|safe_tac; apply Hd].
  do 2 (apply safe_guard; intros ? _). apply safe_bind; [safe_tac|]. intros [c|]; [|apply safe_ret].
  destruct (negb _); [apply safe_ret|]. apply safe_execute; [now apply Hg|]. intros x tools. apply Hd.
Qed.

Lemma safe_disableEach jobs principal l :
  (forall g, jv_authority jobs = Some g -> hostSafe P g) -> safe (disableEach jobs principal l).
Proof.
  intros Hg. induction l as [|c l IH]; [apply safe_ret|]. apply safe_bind; [now apply safe_sc_disable | intros _; exact IH].
Qed.

(** The gateways and the name resolution an import goes through. *)
Definition writersSafe : Prop :=
  readersSafe P /\
  (forall pf s, webhooks = Some (pf, s) ->
     (forall g, hs_authority s = Some g -> hostSafe P g) /\ forall host, safe (pf_lookup pf host)) /\
  (forall jobs gw, schedules = Some (jobs, gw) -> forall g, jv_authority jobs = Some g -> hostSafe P g).

Lemma safe_ignoring {A} (m : M DB A) : safe m -> safe (ignoring m).
Proof. intros Hm. apply safe_bind; [exact Hm | intros; apply safe_ret]. Qed.

Lemma safe_plan overwrite environment principal current endpoints scheduled document :
  writersSafe -> Forall (fun p => safe p.2) (planItems overwrite environment principal current endpoints scheduled document).
Proof.
  intros ((Hg & _) & Hw & Hs). unfold planItems. repeat apply Forall_app_2.
  - apply Forall_map, Forall_true. intros v. cbn. unfold planVariable.
    repeat case_match; try apply safe_ret; apply safe_ignoring; [apply safe_updateVariable | apply safe_createVariable]; exact Hg.
  - apply Forall_map, Forall_true. intros v. apply safe_ret.
  - destruct webhooks as [[pf hooks]|]; apply Forall_map, Forall_true; intros v; [|apply safe_ret].
    destruct (Hw pf hooks eq_refl) as [Hga Hl]. cbn. unfold planEndpoint.
    pose proof (fun i c => safe_createWebhookEndpoint pf hooks i c Hga Hl) as Hcreate.
    repeat case_match; try apply safe_ret; [|apply safe_ignoring, Hcreate].
    apply safe_bind; [apply Hcreate|]. intros _. apply safe_ignoring, safe_disableWebhookEndpoint, Hga.
  - destruct schedules as [[jobs gw]|]; apply Forall_map, Forall_true; intros v; [|apply safe_ret].
    specialize (Hs jobs gw eq_refl). cbn. unfold planSchedule.
    repeat case_match; try apply safe_ret; [apply safe_ignoring, safe_sc_create, Hs|].
    apply safe_bind; [apply safe_sc_create, Hs|]. intros _. apply safe_disableEach, Hs.
Qed.

Lemma safe_applyItems dryRun plan : Forall (fun p => safe p.2) plan -> safe (applyItems dryRun plan).
Proof.
  induction 1 as [|[item write] plan Hw _ IH]; [apply safe_ret|]. cbn [Transfer.applyItems].
  apply safe_bind; [|intros; apply safe_bind; [exact IH | intros; apply safe_ret]]. unfold applyItem.
  destruct (_ || _); [apply safe_ret|]. apply safe_tryCatch; [|intros; apply safe_ret].
  apply safe_bind; [exact Hw | intros; apply safe_ret].
Qed.

Lemma safe_import input options : writersSafe -> safe (import input options).
Proof.
  intros Hw. unfold importConfiguration. do 3 (apply safe_guard; intros ? _). cbv zeta. apply safe_guard; intros g Eg.
  apply safe_bind.
  { apply safe_readTarget; [apply Hw|]. unfold configGateway in Eg. destruct authority; [now injection Eg as -> | discriminate]. }
  intros [[current endpoints] scheduled]. apply safe_bind; [|intros; apply safe_ret].
  now apply safe_applyItems, safe_plan.
Qed.
End writers.

(** ** Credentials *)

(** Bindings, and the metadata of stored secrets. *)
Definition credentialRows : list string := [cname CBindings; cname CSecrets; cname CSecretVersions; cname CSecretAudit].

(** Nobody touches credential rows, and evidence is not removed. *)
Definition credentialsKept (db db' : DB) : Prop :=
  (forall V (c : coll V) k, In (cname c) credentialRows -> peek c k db' = peek c k db) /\
  (forall k, is_Some (peek CEvidence k db) -> is_Some (peek CEvidence k db')).

#[global] Instance credentialsKept_preorder : PreOrder credentialsKept.
Proof.
  split; [split; auto|]. intros a b c [A1 A2] [B1 B2]. split; [|auto].
  intros V x k Hx. rewrite B1, A1 by exact Hx. reflexivity.
Qed.

Lemma credentialsKept_free {V} (c : coll V) k x (db db' : DB) :
  ~ In (cname c) credentialRows -> changed c k (Some x) db db' -> credentialsKept db db'.
Proof.
  intros Hn Hch. split.
  - intros V' c' k' Hin. apply (changed_frame _ _ _ _ _ _ _ Hch). injection 1 as E _. apply Hn. now rewrite <- E.
  - intros k' [e He]. destruct (decide ((cname CEvidence, k') = (cname c, k))) as [E|E].
    + injection E as E ->. destruct c; try discriminate E. rewrite (changed_hit _ _ _ _ _ Hch). eauto.
    + rewrite (changed_frame _ _ _ _ _ _ _ Hch) by exact E. eauto.
Qed.

Program Definition credentialProtocol : Protocol DB :=
  mkProtocol credentialsKept (fun _ => True) (fun _ => True) credentialsKept_preorder _ _ _.
Next Obligation. auto. Qed.
Next Obligation. intros db db' k [_ Hk]. apply Hk. Qed.
Next Obligation. intros db db' k x. apply credentialsKept_free. cbn. intuition discriminate. Qed.

(** An import attaches no credentials.  Beside others that leave them
    alone, whatever the document holds and whatever happens on the way, no
    credential binding and no row of a stored secret is written, changed or
    removed, and no item about a credential is reported as applied. *)
Theorem import_attaches_nothing input options w :
  writersSafe credentialProtocol -> stable credentialProtocol w ->
  (forall V (c : coll V) k, In (cname c) credentialRows -> peek c k (w_db (import input options w).1) = peek c k (w_db w)) /\
  (forall report, (import input options w).2 = Ok report ->
     Forall (fun i => it_kind i = KSecret -> unwritten i) (im_items report)).
Proof.
  intros Hw Hs. split.
  { assert (safe credentialProtocol (import input options)) as Hsafe.
    { apply safe_import; try exact Hw; intros k x db db'; apply credentialsKept_free; cbn; intuition discriminate. }
    destruct (Hsafe w Hs) as (_ & ((Hk & _) & _) & _). exact Hk. }
  intros report. unfold importConfiguration, mbind, M_bind, ofOutcome.
  destruct (requireVerifiedPrincipal _) as [principal|]; [|discriminate].
  destruct (parseExportDocument _ _ _) as [document|]; [|discriminate].
  destruct (requireEnvironment _) as [env|]; [|discriminate].
  destruct (configGateway authority) as [g|]; [|discriminate].
  destruct (readTarget g env principal document w) as [w1 [[[current endpoints] scheduled]|]]; [|discriminate].
  set (plan := planItems _ _ _ _ _ _ _). destruct (isTrue (mo_dryRun options)).
  { rewrite applyItems_dry. intros [= <-]. cbn. apply Forall_map. eapply Forall_impl; [apply planItems_unwritten | auto]. }
  destruct (applyItems_settle plan w1 (planItems_unwritten _ _ _ _ _ _ _)) as (w2 & done & -> & Em & Hd & _).
  intros [= <-]. cbn. assert (Forall wellPlanned (map fst plan)) as Hp by (apply Forall_map; apply planItems_well).
  rewrite <- Em, Forall_map in Hp. apply Forall_forall. intros i Hi Hk. rewrite Forall_forall in Hp, Hd.
  destruct (Hp i Hi) as [_ Hn]. specialize (Hd i Hi). unfold itemSettled in Hd.
  replace (writes i) with false in Hd; [exact Hd | symmetry; exact (Hn Hk)].
Qed.
End import.

(** ** Witnesses *)

(** A document of one variable and one credential reference. *)
Definition demoDocument : ConfigurationExportDocument :=
  mkDocument "2023-11-14T22:13:20.000Z" "app" Production "1.0.0" [mkExportVariable "API_URL" "https://x" true]
    [mkExportSecret "TOKEN" true "credential-ref:token"] [] [].

#[local] Abbreviation demoImport := (importConfiguration (Some (demoGateway true)) [] None None (fun _ => "") (fun _ => None) (fun _ => "") (fun _ => None)).

Lemma dry_run_predicts_witness :
  exists w2 report, demoImport (documentValue demoDocument) (mkImportOptions (CVerified alice) JUndef JUndef JUndef) (demo emptyDB) = (w2, Ok report) /\
    map plannedOf (im_items report) =
      [planned KVariable "API_URL" ACreate None;
       planned KSecret "TOKEN" AMissing (Some "attach the credential in the target with credential.attach")] /\
    Forall itemSettled (im_items report) /\ im_missingSecrets report = [mkMissingSecret "TOKEN" true "credential-ref:token"] /\
    ct_failed (im_summary report) = 0.
Proof.
  destruct (dry_run_predicts (Some (demoGateway true)) [] None None (fun _ => "") (fun _ => None) (fun _ => "") (fun _ => None)
    (documentValue demoDocument) (CVerified alice) JUndef JUndef JUndef (demo emptyDB) eq_refl) as [_ Hd].
  eassert (demoImport (documentValue demoDocument) (mkImportOptions (CVerified alice) (JBool true) JUndef JUndef) (demo emptyDB) = (_, Ok _)) as E
    by (vm_compute; reflexivity).
  rewrite E in Hd. destruct Hd as (_ & w2 & report & Hr & Hi & Hs & Hm & _ & _).
  exists w2, report. split; [exact Hr|]. split; [exact Hi|]. split; [exact Hs|]. split; [exact Hm|].
  apply (f_equal snd) in Hr. change (snd (w2, Ok report)) with (Ok report) in Hr. 
  vm_compute in Hr. injection Hr as <-. reflexivity.
Defined.

Lemma import_attaches_nothing_witness :
  let w' := (demoImport (documentValue demoDocument) (mkImportOptions (CVerified alice) JUndef JUndef JUndef) (demo emptyDB)).1 in
  (forall k, peek CBindings k (w_db w') = None) /\
  option_map cv_name (peek CVariables (demoUuid 4) (w_db w')) = Some "API_URL".
Proof.
  intros w'. split.
  - intros k. destruct (import_attaches_nothing (Some (demoGateway true)) [] None None (fun _ => "") (fun _ => None) (fun _ => "") (fun _ => None)
      (documentValue demoDocument) (mkImportOptions (CVerified alice) JUndef JUndef JUndef) (demo emptyDB)) as [Hk _].
    + split; [split; [intros g [= <-]; apply demo_hostSafe | discriminate] | split; discriminate].
    + apply demo_stable; [apply unused_empty | exact I | intros; exact I].
    + subst w'. rewrite (Hk _ CBindings k); [reflexivity | now left].
  - vm_compute. reflexivity.
Defined.
