(* ===== verification/ExportImport.v ===== *)
(** * ExportImport: importing what was exported changes nothing

    What the reads of an export and of an import return, and that every item
    planned from the exported document finds the row it came from. *)

From S2P Require Import Prelude JsString JsTime Errors Models Store Calm MemStore Principal Manifest Restrictions Evidence Gateway GatewayFacts Destination Webhooks Configuration ConfigFacts Jobs Schedules Transfer TransferProps Demo.
From Stdlib Require Import ZArith Lia Ascii Sorting.Sorted.
Local Open Scope string_scope.
Local Open Scope Z_scope.

Lemma sortBy_id {A} (le : A -> A -> bool) l : Sorted (fun a b => le a b = true) l -> sortBy le l = l.
Proof.
  induction l as [|x l IH]; intros Hs; [reflexivity|]. apply Sorted_inv in Hs as [Hs Hx]. change (insertBy le x (sortBy le l) = x :: l). rewrite (IH Hs).
  destruct Hx as [|y l' E]; cbn; [reflexivity | now rewrite E].
Qed.

Lemma sortBy_idem l : sortBy String.leb (sortBy String.leb l) = sortBy String.leb l.
Proof. apply sortBy_id, sortBy_sorted. intros a b E. destruct (String.leb_total a b); congruence. Qed.

Lemma lastBy_unique {A} (key : A -> string) l a :
  a ∈ l -> (forall b, b ∈ l -> key b = key a -> b = a) -> lastBy key l (key a) = Some a.
Proof.
  intros Ha Hu. unfold lastBy. destruct (List.find _ (rev l)) as [b|] eqn:E.
  - apply find_some in E as [Hb E]. apply String.eqb_eq in E. f_equal. apply Hu; [|exact E].
    now apply list_elem_of_In, in_rev.
  - apply list_elem_of_In, in_rev in Ha. apply (find_none _ _ E) in Ha. now rewrite String.eqb_refl in Ha.
Qed.

Lemma lastBy_none {A} (key : A -> string) l name : (forall b, b ∈ l -> key b <> name) -> lastBy key l name = None.
Proof.
  intros Hn. unfold lastBy. destruct (List.find _ (rev l)) as [b|] eqn:E; [|reflexivity].
  apply find_some in E as [Hb E]. apply String.eqb_eq in E. destruct (Hn b); [|exact E]. now apply list_elem_of_In, in_rev.
Qed.

(** The one element of its kind is the one found. *)
Lemma find_only {A} (key : A -> string) l a :
  a ∈ l -> (forall b, b ∈ l -> key b = key a -> b = a) -> List.find (fun c => String.eqb (key c) (key a)) l = Some a.
Proof.
  intros Ha Hu. destruct (List.find _ l) as [b|] eqn:E.
  - apply find_some in E as [Hb E]. apply String.eqb_eq in E. f_equal. apply Hu; [now apply list_elem_of_In | exact E].
  - apply list_elem_of_In in Ha. apply (find_none _ _ E) in Ha. now rewrite String.eqb_refl in Ha.
Qed.

Section trip.
Context {DB : Type} `{FeltDBLaws DB}.
Variable g : ServiceGateway DB.
Variable declarations : list ConfigurationDeclaration.
Variable webhooks : option (WebhookPlatform DB * WebhookService DB).
Variable schedules : option (JobService DB * option (ServiceGateway DB)).
Variable localeLe : string -> string -> bool.
Variable VERSION : string.
Variable stringify : jsval -> string.
Variable jsonParse : string -> option jsval.
Variable stringOfValue : jsval -> string.
Variable foreignCode : exn -> option string.
Implicit Types w : World DB.

#[local] Abbreviation export := (exportConfiguration (Some g) declarations webhooks schedules localeLe VERSION).
#[local] Abbreviation import :=
  (importConfiguration (Some g) declarations webhooks schedules stringify jsonParse stringOfValue foreignCode).

(** Evidence apart, the same store. *)
Definition sameRows (db db' : DB) : Prop := forall V (c : coll V) k, cname c <> cname CEvidence -> peek c k db' = peek c k db.

Lemma sameRows_trans db1 db2 db3 : sameRows db1 db2 -> sameRows db2 db3 -> sameRows db1 db3.
Proof. intros A B V c k Hn. rewrite (B V c k Hn). now apply A. Qed.

Lemma enumerates_same {V} (c : coll V) p db db' l :
  cname c <> cname CEvidence -> sameRows db db' -> enumerates c p db' l -> enumerates c p db l.
Proof. intros Hn Hs Hl. eapply enumerates_frame; [exact Hl|]. intros k. now apply Hs. Qed.

(** An operation that only reads, from a store with the rows of [db]. *)
Definition reads {A} (m : M DB A) (db : DB) (Q : A -> Prop) : Prop :=
  forall w, calm w -> sameRows db (w_db w) ->
    wp m (fun o w' => calm w' /\ sameRows db (w_db w') /\ match o with Ok a => Q a | Throw _ => True end) w.

Lemma reads_bind {A B} (m : M DB A) (k : A -> M DB B) db Q R :
  reads m db Q -> (forall a, Q a -> reads (k a) db R) -> reads (m ≫= k) db R.
Proof.
  intros Hm Hk w Hc Hs. apply wp_bind. eapply wp_mono; [now apply Hm|]. intros [a|e] w' (Hc' & Hs' & Ha); [now apply Hk | auto].
Qed.

Lemma reads_ret {A} (a : A) db (Q : A -> Prop) : Q a -> reads (mret a) db Q.
Proof. intros Ha w Hc Hs. apply wp_ret. auto. Qed.

Lemma reads_outcome {A} (o : outcome A) db (Q : A -> Prop) : (forall a, o = Ok a -> Q a) -> reads (ofOutcome o) db Q.
Proof. intros Ho w Hc Hs. unfold wp, ofOutcome. cbn. split; [exact Hc|]. split; [exact Hs|]. destruct o; auto. Qed.

Lemma reads_mono {A} (m : M DB A) db (Q R : A -> Prop) : reads m db Q -> (forall a, Q a -> R a) -> reads m db R.
Proof.
  intros Hm Hi w Hc Hs. eapply wp_mono; [now apply Hm|]. intros o w' (Hc' & Hs' & Ha). destruct o; auto.
Qed.

(** The effect of such an operation leaves the world as it is. *)
Definition peeks {A} (m : M DB A) (db : DB) (Q : A -> Prop) : Prop :=
  forall w, calm w -> sameRows db (w_db w) -> wp m (fun o w' => w' = w /\ match o with Ok a => Q a | Throw _ => True end) w.

Lemma peeks_find {V A} (c : coll V) p (k : list V -> M DB A) db Q :
  cname c <> cname CEvidence -> (forall l, enumerates c p db l -> peeks (k l) db Q) -> peeks (find c p ≫= k) db Q.
Proof.
  intros Hn Hk w Hc Hs. apply wp_bind, wpc_find; [exact Hc|]. intros l Hl. apply Hk; [|exact Hc | exact Hs].
  eapply enumerates_same; eassumption.
Qed.

Lemma peeks_ret {A} (a : A) db (Q : A -> Prop) : Q a -> peeks (mret a) db Q.
Proof. intros Ha w Hc Hs. apply wp_ret. auto. Qed.

(** Under a quiet host the gateway adds evidence to the reading. *)
Lemma reads_execute {T} (gw : ServiceGateway DB) name caller r options (effect : ServiceExecutionContext -> EffectTools -> M DB T) db Q :
  hostQuiet gw -> (forall x tools, x_application x = g_application gw -> peeks (effect x tools) db Q) ->
  reads (execute gw name caller r options effect) db Q.
Proof.
  intros Hhost Heffect w Hc Hs.
  eapply wp_mono; [apply (execute_effect gw name caller r options effect
    (fun _ o w2 => sameRows db (w_db w2) /\ match o with Ok a => Q a | Throw _ => True end)); [exact Hc | exact Hhost|]|].
  - intros rid c p x id st w1 Hi Hc1 [Hl1 Hf1] _.
    assert (sameRows db (w_db w1)) as Hs1 by (eapply sameRows_trans; [exact Hs|]; intros V c' k Hn; now apply Hf1).
    eapply wp_mono; [apply (Heffect x _ (is_application _ _ _ _ _ _ _ _ Hi) w1 Hc1 Hs1)|].
    intros o w2 [-> HQ]. split; [exact Hc1|]. split; [reflexivity|]. split; [reflexivity|]. auto.
  - intros o w' (Hc' & _ & [(e & -> & Hd)|(rid & c & p & x & w2 & _ & (Hs2 & HQ) & [_ Hf])]).
    + split; [exact Hc'|]. split; [|exact I]. eapply sameRows_trans; [exact Hs|]. intros V c k Hn.
      now apply (onlyRefusal_frame _ _ Hd).
    + split; [exact Hc'|]. split; [|exact HQ]. eapply sameRows_trans; [exact Hs2|]. intros V c' k Hn. now apply Hf.
Qed.

(** ** What the reads return *)

Variable p : VerifiedPrincipal.

Definition ownedScope (env : ConfigurationEnvironment) : ConfigurationScope := mkScope (vp_tenantId p) (g_application g) env.

Definition storedVariable (env : ConfigurationEnvironment) (db : DB) (v : ConfigurationVariable) : Prop :=
  exists k, peek CVariables k db = Some v /\ cv_scope v = ownedScope env.

Definition storedBinding (env : ConfigurationEnvironment) (db : DB) (b : ConfigurationSecret) : Prop :=
  exists k, peek CBindings k db = Some b /\ cb_scope b = ownedScope env.

(** The active endpoints, and the enabled schedules, of the tenant and application. *)
Definition storedEndpoint (db : DB) (e : WebhookEndpoint) : Prop :=
  exists k, peek CEndpoints k db = Some e /\ we_tenantId e = vp_tenantId p /\
    we_applicationId e = Some (g_application g) /\ isActive e = true.

Definition storedSchedule (db : DB) (s : JobSchedule) : Prop :=
  exists k, peek CSchedules k db = Some s /\ s_tenantId s = vp_tenantId p /\
    s_applicationId s = Some (g_application g) /\ s_enabled s = true.

Record seenList (env : ConfigurationEnvironment) (db : DB) (l : ConfigurationList) : Prop := mkSeenList {
  seen_variables : forall v, v ∈ li_variables l <-> exists r, storedVariable env db r /\ v = variableView r;
  seen_secrets : forall b, b ∈ li_secrets l <-> exists r, storedBinding env db r /\ b = secretView r }.

Lemma own_environment env : own (Some g) (environmentScope env []) (CVerified p) = Ok (g, p, ownedScope env).
Proof. now destruct env. Qed.

Lemma reads_list env db :
  hostQuiet g -> reads (listConfiguration (Some g) declarations (environmentScope env []) (CVerified p)) db (seenList env db).
Proof.
  intros Hhost. unfold listConfiguration. rewrite own_environment.
  apply (reads_bind _ _ _ (fun a => a = (g, p, ownedScope env))); [apply reads_outcome; now intros a [= <-]|].
  intros a ->. apply reads_execute; [exact Hhost|]. intros x tools _. unfold listVariables, listSecrets.
  apply peeks_find; [discriminate|]. intros vs Hv. apply peeks_find; [discriminate|]. intros bs Hb. apply peeks_ret.
  split; intros y; cbn; rewrite list_elem_of_In, in_map_iff; split.
  - intros (r & <- & Hr). apply list_elem_of_In, (enumerates_in _ _ _ _ _ Hv) in Hr as (k & Hk & Hs%bool_decide_eq_true).
    exists r. split; [exists k; auto | reflexivity].
  - intros (r & (k & Hk & Hs) & ->). exists r. split; [reflexivity|]. apply list_elem_of_In, (enumerates_in _ _ _ _ _ Hv).
    exists k. split; [exact Hk | now apply bool_decide_eq_true].
  - intros (r & <- & Hr). apply list_elem_of_In, (enumerates_in _ _ _ _ _ Hb) in Hr as (k & Hk & Hs%bool_decide_eq_true).
    exists r. split; [exists k; auto | reflexivity].
  - intros (r & (k & Hk & Hs) & ->). exists r. split; [reflexivity|]. apply list_elem_of_In, (enumerates_in _ _ _ _ _ Hb).
    exists k. split; [exact Hk | now apply bool_decide_eq_true].
Qed.

(** The active ones among the endpoints read. *)
Definition seenEndpoints (db : DB) (l : list WebhookEndpoint) : Prop := forall e, e ∈ l <-> storedEndpoint db e.
Definition seenSchedules (db : DB) (l : list JobSchedule) : Prop := forall s, s ∈ l <-> storedSchedule db s.

Lemma reads_endpoints db :
  hostQuiet g -> reads (readEndpoints g p) db (fun l => seenEndpoints db (List.filter isActive l)).
Proof.
  intros Hhost. apply reads_execute; [exact Hhost|]. intros x tools Hx. unfold listWebhookEndpoints, we_list.
  apply peeks_find; [discriminate|]. intros l Hl. apply peeks_ret. intros e.
  rewrite list_elem_of_In, !filter_In, <- list_elem_of_In, (enumerates_in _ _ _ _ _ Hl), oeqb_true, Hx.
  unfold storedEndpoint. split.
  - intros (((k & Hk & Ht%String.eqb_eq) & Ha) & Hd). eauto 6.
  - intros (k & Hk & Ht%String.eqb_eq & Ha & Hd). eauto 6.
Qed.

Lemma reads_schedules gw db :
  hostQuiet gw -> g_application gw = g_application g ->
  reads (sc_list (Some gw) (vp_tenantId p) (CVerified p) None) db (fun l => seenSchedules db (List.filter s_enabled l)).
Proof.
  intros Hhost Happ. unfold sc_list.
  apply (reads_bind _ _ _ (fun q => q = p)); [apply reads_outcome; now intros q [= <-]|]. intros q ->.
  apply (reads_bind _ _ _ (fun t => t = vp_tenantId p)).
  { apply reads_outcome. intros t Ht. now apply resolveTenant_ok in Ht as [-> _]. }
  intros t ->. apply (reads_bind _ _ _ (fun gw' => gw' = gw)); [now apply reads_ret|]. intros gw' ->.
  apply reads_execute; [exact Hhost|]. intros x tools Hx. unfold listSchedules, ss_list.
  apply peeks_find; [discriminate|]. intros l Hl. apply peeks_ret. intros e. cbn.
  rewrite list_elem_of_In, !filter_In, <- list_elem_of_In, (enumerates_in _ _ _ _ _ Hl), oeqb_true, Happ.
  unfold storedSchedule. split.
  - intros (((k & Hk & Ht%String.eqb_eq) & Ha) & Hd). eauto 6.
  - intros (k & Hk & Ht%String.eqb_eq & Ha & Hd). eauto 6.
Qed.

Lemma reads_nowIso db : reads nowIso db (fun _ => True).
Proof.
  intros w Hc Hs. apply wpc_nowIso; [exact Hc|]. intros u t w' _ _ Hc' _ Hd. split; [exact Hc'|]. split; [now rewrite Hd | exact I].
Qed.

Lemma reads_throw {A} e db (Q : A -> Prop) : reads (throw e) db Q.
Proof. apply (reads_outcome (Throw e)). discriminate. Qed.

(** ** What an export returns *)

(** Where schedules are mounted, their reads go through a quiet gateway of the
    same application. *)
Definition schedulesQuiet : Prop :=
  forall jobs gw, schedules = Some (jobs, Some gw) -> hostQuiet gw /\ g_application gw = g_application g.

Record exported (env : ConfigurationEnvironment) (db : DB) (d : ConfigurationExportDocument) : Prop := mkExported {
  ex_environment : xd_environment d = env;
  ex_variables : forall x, x ∈ xd_variables d <-> exists r, storedVariable env db r /\ x = exportVariable (variableView r);
  ex_secrets : forall x, x ∈ xd_secrets d <-> exists r, storedBinding env db r /\ x = exportSecret (secretView r);
  ex_endpoints : forall x, x ∈ xd_webhookEndpoints d <-> webhooks <> None /\ exists e, storedEndpoint db e /\ x = exportEndpoint e;
  ex_schedules : forall x, x ∈ xd_schedules d <-> schedules <> None /\ exists s, storedSchedule db s /\ x = exportSchedule s }.

(** The elements of a sorted image. *)
Lemma elem_sorted {A B} (le : B -> B -> bool) (f : A -> B) l x : x ∈ sortBy le (map f l) <-> exists a, a ∈ l /\ x = f a.
Proof.
  rewrite sortBy_perm, list_elem_of_In, in_map_iff. split.
  - intros (a & <- & Ha). exists a. split; [now apply list_elem_of_In | reflexivity].
  - intros (a & Ha & ->). exists a. split; [reflexivity | now apply list_elem_of_In].
Qed.

Lemma elem_image {A B C} (P : A -> Prop) (f : A -> B) (h : B -> C) (l : list B) x :
  (forall b, b ∈ l <-> exists r, P r /\ b = f r) -> (exists b, b ∈ l /\ x = h b) <-> exists r, P r /\ x = h (f r).
Proof.
  intros Hl. split.
  - intros (b & Hb & ->). apply Hl in Hb as (r & Hr & ->). eauto.
  - intros (r & Hr & ->). exists (f r). split; [apply Hl; eauto | reflexivity].
Qed.

Lemma elem_mounted {A B M} (m : option M) (P : A -> Prop) (h : A -> B) (l : list A) x :
  (if m then forall a, a ∈ l <-> P a else l = []) -> (exists a, a ∈ l /\ x = h a) <-> m <> None /\ exists a, P a /\ x = h a.
Proof.
  destruct m as [m|]; intros Hl.
  - split; [intros (a & Ha & ->); apply Hl in Ha; split; [discriminate | eauto] | intros (_ & a & Ha & ->); exists a; split; [now apply Hl | reflexivity]].
  - subst. split; [intros (a & Ha & _); now apply elem_of_nil in Ha | intros [[] _]; reflexivity].
Qed.

Lemma reads_export envInput env db :
  hostQuiet g -> schedulesQuiet -> requireEnvironment match envInput with JUndef | JNull => JStr "production" | e => e end = Ok env ->
  reads (export (mkExportOptions (CVerified p) envInput)) db (exported env db).
Proof.
  intros Hhost Hsch Henv. unfold exportConfiguration. cbn [xo_principal].
  apply (reads_bind _ _ _ (fun q => q = p)); [apply reads_outcome; now intros q [= <-]|]. intros q ->.
  apply (reads_bind _ _ _ (fun e => e = env)); [apply reads_outcome; intros e He; destruct envInput; cbn in *; congruence|]. intros e ->.
  apply (reads_bind _ _ _ (fun g' => g' = g)); [apply reads_outcome; now intros g' [= <-]|]. intros g' ->.
  eapply reads_bind; [now apply reads_list|]. intros l [Hv Hb].
  apply (reads_bind _ _ _ (fun es => if webhooks then seenEndpoints db (List.filter isActive es) else es = [])).
  { destruct webhooks; [now apply reads_endpoints | now apply reads_ret]. }
  intros es Hes.
  apply (reads_bind _ _ _ (fun ss => if schedules then seenSchedules db (List.filter s_enabled ss) else ss = [])).
  { destruct schedules as [[jobs [gw|]]|] eqn:Es; [|apply (reads_bind _ _ _ (fun _ => True)) |now apply reads_ret].
    - destruct (Hsch jobs gw Es). now apply reads_schedules.
    - now apply reads_outcome.
    - intros. apply (reads_bind _ _ _ (fun _ => True)); [now apply reads_outcome|]. intros. apply (reads_throw _ db). }
  intros ss Hss. eapply reads_bind; [apply reads_nowIso|]. intros at_ _. apply reads_ret.
  split; [reflexivity | | | |]; intros x; cbn [xd_variables xd_secrets xd_webhookEndpoints xd_schedules]; rewrite elem_sorted.
  - now apply elem_image.
  - now apply elem_image.
  - apply elem_mounted. destruct webhooks; [exact Hes | now rewrite Hes].
  - apply elem_mounted. destruct schedules; [exact Hss | now rewrite Hss].
Qed.

(** ** Every item finds its row *)

(** The rows an export can carry: configuration as the service keeps it,
    endpoints and schedules that read back, one active endpoint to a URL. *)
Record transferable (db : DB) : Prop := mkTransferable {
  tr_rows : rowsOk db;
  tr_endpoints : forall e, storedEndpoint db e -> endpointOk (exportEndpoint e);
  tr_distinct : forall e e', storedEndpoint db e -> storedEndpoint db e' -> we_url e = we_url e' -> e = e';
  tr_schedules : forall s, storedSchedule db s -> scheduleOk (exportSchedule s) }.

Lemma exported_ok env db d : transferable db -> exported env db d -> documentOk d.
Proof.
  intros [[Hok _] He _ Hs] [_ Ev Es Ee Ec]. split; apply Forall_forall.
  - intros x Hx. apply Ev in Hx as (r & (k & Hk & _) & ->).
    destruct (Hok false k (inl r)) as (Hn & _ & Hv); [cbn; now rewrite Hk|]. split; cbn in *.
    + destruct (cv_name r); [discriminate Hn | reflexivity].
    + now apply truthy_spec.
  - intros x Hx. apply Es in Hx as (r & (k & Hk & _) & ->).
    destruct (Hok true k (inr r)) as (Hn & _ & Hv); [cbn; now rewrite Hk|]. split; [|exact Hv]. cbn in *.
    destruct (cb_name r); [discriminate Hn | reflexivity].
  - intros x Hx. apply Ee in Hx as (_ & e & Hst & ->). now apply He.
  - intros x Hx. apply Ec in Hx as (_ & s & Hst & ->). now apply Hs.
Qed.

Lemma variable_unique env db r r' :
  rowsOk db -> storedVariable env db r -> storedVariable env db r' -> cv_name r = cv_name r' -> r = r'.
Proof.
  intros [_ Hu] (k & Hk & Hs) (k' & Hk' & Hs') En.
  assert ((false, k) = (false, k')) as [= <-].
  { apply (Hu false k (inl r) false k' (inl r')); cbn; rewrite ?Hk, ?Hk'; first [reflexivity | congruence]. }
  congruence.
Qed.

Lemma binding_unique env db r r' :
  rowsOk db -> storedBinding env db r -> storedBinding env db r' -> cb_name r = cb_name r' -> r = r'.
Proof.
  intros [_ Hu] (k & Hk & Hs) (k' & Hk' & Hs') En.
  assert ((true, k) = (true, k')) as [= <-].
  { apply (Hu true k (inr r) true k' (inr r')); cbn; rewrite ?Hk, ?Hk'; first [reflexivity | congruence]. }
  congruence.
Qed.

Lemma kinds_apart env db r b : rowsOk db -> storedVariable env db r -> storedBinding env db b -> cv_name r <> cb_name b.
Proof.
  intros [_ Hu] (k & Hk & Hs) (k' & Hk' & Hs') En.
  assert ((false, k) = (true, k')) as [=].
  apply (Hu false k (inl r) true k' (inr b)); cbn; rewrite ?Hk, ?Hk'; first [reflexivity | congruence].
Qed.

Definition unchangedItem (i : ConfigurationImportItem) : Prop := it_action i = AUnchanged /\ it_reason i = None /\ unwritten i.

Lemma planned_unchanged kind key : unchangedItem (planned kind key AUnchanged None).
Proof. repeat split. Qed.

Lemma plan_variable overwrite env db current x :
  rowsOk db -> seenList env db current -> (exists r, storedVariable env db r /\ x = exportVariable (variableView r)) ->
  unchangedItem (planVariable (Some g) overwrite env p current x).1.
Proof.
  intros Hok [Hv Hb] (r & Hr & ->). unfold planVariable. cbn [exportVariable xv_name xv_value xv_required].
  rewrite lastBy_none.
  2: { intros b Hin E. apply Hb in Hin as (b' & Hb' & ->). cbn in E. exact (kinds_apart env db r b' Hok Hr Hb' (eq_sym E)). }
  rewrite (lastBy_unique vv_name (li_variables current) (variableView r)).
  - cbn. rewrite String.eqb_refl, eqb_reflx. apply planned_unchanged.
  - apply Hv. eauto.
  - intros v Hin E. apply Hv in Hin as (r' & Hr' & ->). f_equal. eapply variable_unique; eauto.
Qed.

Lemma plan_secret env db current x :
  rowsOk db -> seenList env db current -> (exists r, storedBinding env db r /\ x = exportSecret (secretView r)) ->
  unchangedItem (planSecret current x).
Proof.
  intros Hok [Hv Hb] (r & Hr & ->). unfold planSecret. cbn [exportSecret xs_name xs_credentialRef].
  rewrite lastBy_none.
  2: { intros v Hin E. apply Hv in Hin as (v' & Hv' & ->). cbn in E. exact (kinds_apart env db v' r Hok Hv' Hr E). }
  rewrite (lastBy_unique vb_name (li_secrets current) (secretView r)).
  - cbn. rewrite String.eqb_refl. apply planned_unchanged.
  - apply Hb. eauto.
  - intros b Hin E. apply Hb in Hin as (b' & Hb' & ->). f_equal. eapply binding_unique; eauto.
Qed.

Lemma plan_endpoint overwrite pf hooks db endpoints e :
  transferable db -> seenEndpoints db endpoints -> storedEndpoint db e ->
  unchangedItem (planEndpoint overwrite p pf hooks endpoints (exportEndpoint e)).1.
Proof.
  intros [_ _ Hd _] Hs He. unfold planEndpoint. cbn [exportEndpoint xe_url xe_events].
  rewrite (find_only we_url endpoints e); [|now apply Hs | intros e' Hin E; apply Hs in Hin; now apply Hd].
  rewrite sortBy_idem. unfold sameList. rewrite bool_decide_eq_true_2 by reflexivity. apply planned_unchanged.
Qed.

Lemma plan_schedule overwrite jobs db scheduled s :
  seenSchedules db scheduled -> storedSchedule db s ->
  unchangedItem (planSchedule stringify overwrite p jobs scheduled (exportSchedule s)).1.
Proof.
  intros Hs Hst. unfold planSchedule. cbn [exportSchedule xc_type xc_interval xc_payload].
  replace (existsb _ _) with true; [apply planned_unchanged|]. symmetry. apply existsb_exists. exists s.
  split; [|apply String.eqb_refl]. apply filter_In. split; [now apply list_elem_of_In, Hs | apply String.eqb_refl].
Qed.

Lemma plan_unchanged overwrite env db d current endpoints scheduled :
  transferable db -> exported env db d -> seenList env db current ->
  (xd_webhookEndpoints d <> [] -> seenEndpoints db endpoints) -> (xd_schedules d <> [] -> seenSchedules db scheduled) ->
  Forall (fun q => unchangedItem q.1) (planItems (Some g) webhooks schedules stringify overwrite env p current endpoints scheduled d) /\
  missingSecrets current (xd_secrets d) = [].
Proof.
  intros Htr [_ Ev Es Ee Ec] Hl He Hs. pose proof (tr_rows _ Htr) as Hok.
  assert (forall x, x ∈ xd_secrets d -> unchangedItem (planSecret current x)) as Hsec.
  { intros x Hx. apply Es in Hx. eapply plan_secret; eassumption. }
  split.
  - unfold planItems. repeat apply Forall_app_2.
    + apply Forall_map, Forall_forall. intros x Hx. apply Ev in Hx. eapply plan_variable; eassumption.
    + apply Forall_map, Forall_forall. exact Hsec.
    + destruct webhooks as [[pf hooks]|]; apply Forall_map, Forall_forall; intros x Hx.
      * pose proof Hx as (_ & e & Hst & ->)%Ee. eapply plan_endpoint; [exact Htr | | exact Hst].
        apply He. intros E. rewrite E in Hx. now apply elem_of_nil in Hx.
      * apply Ee in Hx as [[] _]. reflexivity.
    + destruct schedules as [[jobs gw]|]; apply Forall_map, Forall_forall; intros x Hx.
      * pose proof Hx as (_ & s & Hst & ->)%Ec. apply (plan_schedule _ _ db); [|exact Hst].
        apply Hs. intros E. rewrite E in Hx. now apply elem_of_nil in Hx.
      * apply Ec in Hx as [[] _]. reflexivity.
  - unfold missingSecrets. replace (List.filter _ _) with (@nil ConfigurationExportSecret); [reflexivity|]. symmetry.
    clear Es. induction (xd_secrets d) as [|x l IH]; [reflexivity|]. cbn.
    destruct (Hsec x) as [-> _]; [left|]. apply IH. intros y Hy. apply Hsec. now right.
Qed.

Lemma applyItems_nothing dryRun plan w :
  Forall (fun q : ConfigurationImportItem * M DB unit => unchangedItem q.1) plan ->
  applyItems foreignCode dryRun plan w = (w, Ok (map fst plan)).
Proof.
  induction 1 as [|[item write] plan Hi _ IH]; [reflexivity|]. cbn [applyItems]. unfold applyItem.
  cbn in Hi. destruct Hi as [Ha _]. rewrite Ha, orb_true_r. unfold mbind, M_bind in *. cbn. now rewrite IH.
Qed.

Lemma reads_target env db d :
  hostQuiet g -> schedulesQuiet -> exported env db d ->
  reads (readTarget (Some g) declarations webhooks schedules g env p d) db (fun t =>
    seenList env db t.1.1 /\ (xd_webhookEndpoints d <> [] -> seenEndpoints db t.1.2) /\
    (xd_schedules d <> [] -> seenSchedules db t.2)).
Proof.
  intros Hhost Hsch [_ _ _ Ee Ec]. unfold readTarget. eapply reads_bind; [now apply reads_list|]. intros l Hl.
  apply (reads_bind _ _ _ (fun es => xd_webhookEndpoints d <> [] -> seenEndpoints db es)).
  { destruct webhooks; [|apply reads_ret].
    - destruct (xd_webhookEndpoints d); [now apply reads_ret|]. eapply reads_bind; [now apply reads_endpoints|].
      intros es Hes. now apply reads_ret.
    - intros Hn. destruct (xd_webhookEndpoints d) as [|x r]; [easy|]. destruct (proj1 (Ee x)) as [[] _]; [left | reflexivity]. }
  intros es Hes. apply (reads_bind _ _ _ (fun ss => xd_schedules d <> [] -> seenSchedules db ss)).
  { destruct schedules as [[jobs [gw|]]|] eqn:Es.
    - destruct (xd_schedules d); [now apply reads_ret|]. destruct (Hsch jobs gw Es).
      eapply reads_bind; [now apply reads_schedules|]. intros ss Hss. now apply reads_ret.
    - destruct (xd_schedules d); [now apply reads_ret|]. apply (reads_bind _ _ _ (fun _ => False)); [|easy].
      apply (reads_bind _ _ _ (fun _ => True)); [now apply reads_outcome|]. intros.
      apply (reads_bind _ _ _ (fun _ => True)); [now apply reads_outcome|]. intros. apply (reads_throw _ db).
    - apply reads_ret. intros Hn. destruct (xd_schedules d) as [|x r]; [easy|].
      destruct (proj1 (Ec x)) as [[] _]; [left | reflexivity]. }
  intros ss Hss. now apply reads_ret.
Qed.

(** C36: Importing what was exported changes nothing, for a store that can be
    exported and read back ([transferable]): its configuration rows are as the
    service keeps them, no two active endpoints of the tenant have one URL,
    each active endpoint has a URL, at least one event, no empty event name and
    a well-formed credential reference if it has one, and each enabled schedule
    has a type and an interval.  Then an export that succeeds carries exactly
    the variables, credential references, active endpoints and enabled
    schedules of its tenant, application and environment; the document, as a
    value or as JSON text, is read back unchanged; and an import of it that
    returns, dry or not, with or without overwriting, finds every item
    unchanged and no credential missing, and leaves the store as it was but for
    evidence.  Outside those conditions it need not: [empty_events_refused] and
    [second_endpoint_conflicts]. *)
Theorem export_import_unchanged envInput dry overwrite input w w1 d w2 report :
  hostQuiet g -> schedulesQuiet -> calm w -> transferable (w_db w) ->
  export (mkExportOptions (CVerified p) envInput) w = (w1, Ok d) ->
  input = documentValue d \/ (exists t, input = JStr t /\ jsonParse t = Some (documentValue d)) ->
  import input (mkImportOptions (CVerified p) dry overwrite JUndef) w1 = (w2, Ok report) ->
  exported (xd_environment d) (w_db w) d /\ parseExportDocument jsonParse stringOfValue input = Ok d /\
  Forall unchangedItem (im_items report) /\ im_missingSecrets report = [] /\ sameRows (w_db w) (w_db w2).
Proof.
  intros Hhost Hsch Hc Htr Hexp Hin Himp.
  destruct (requireEnvironment match envInput with JUndef | JNull => JStr "production" | e => e end) as [env|e] eqn:Henv.
  2: { exfalso. unfold exportConfiguration, mbind, M_bind, ofOutcome in Hexp. cbn [xo_principal xo_environment requireVerifiedPrincipal] in Hexp.
       destruct envInput; try (vm_compute in Henv; discriminate Henv); cbv iota in Hexp, Henv; rewrite Henv in Hexp; discriminate Hexp. }
  pose proof (reads_export envInput env (w_db w) Hhost Hsch Henv w Hc ltac:(intros V c k _; reflexivity)) as Hw.
  unfold wp in Hw. rewrite Hexp in Hw. destruct Hw as (Hc1 & Hs1 & Hd). cbn [fst snd] in *.
  rewrite (ex_environment _ _ _ Hd). split; [exact Hd|].
  assert (parseExportDocument jsonParse stringOfValue input = Ok d) as Hparse.
  { pose proof (parse_document jsonParse stringOfValue d (exported_ok _ _ _ Htr Hd)) as Hp.
    destruct Hin as [->|(t & -> & Ht)]; [exact Hp|]. unfold parseExportDocument, safeJson. cbn [mbind outcome_bind].
    rewrite Ht. exact Hp. }
  split; [exact Hparse|]. unfold importConfiguration, mbind, M_bind, ofOutcome in Himp. rewrite Hparse in Himp.
  cbn [mo_principal mo_dryRun mo_overwrite mo_environment requireVerifiedPrincipal] in Himp.
  rewrite (ex_environment _ _ _ Hd) in Himp. unfold requireEnvironment in Himp. rewrite environmentOf_name in Himp.
  cbn [configGateway] in Himp. pose proof (reads_target env (w_db w) d Hhost Hsch Hd w1 Hc1 Hs1) as Hw. unfold wp in Hw.
  destruct (readTarget _ _ _ _ _ _ _ _ w1) as [w3 [[[current endpoints] scheduled]|]]; [|discriminate Himp].
  destruct Hw as (_ & Hs3 & Hl & He & Hss). cbn [fst snd] in *.
  destruct (plan_unchanged (isTrue overwrite) env (w_db w) d current endpoints scheduled Htr Hd Hl He Hss) as [Hplan Hmiss].
  rewrite applyItems_nothing in Himp by exact Hplan. injection Himp as <- <-. cbn.
  split; [now apply Forall_map|]. split; [exact Hmiss | exact Hs3].
Qed.
End trip.

(** ** What an export can carry and an import refuse *)

(** An endpoint may be registered without events; its export is refused. *)
Lemma empty_events_refused jsonParse stringOfValue d url ref rest :
  xd_variables d = [] -> xd_secrets d = [] -> xd_webhookEndpoints d = mkExportEndpoint url [] ref :: rest ->
  exists e, parseExportDocument jsonParse stringOfValue (documentValue d) = Throw e /\ hasCode INVALID_REQUEST e = true.
Proof.
  intros Hv Hs He. unfold parseExportDocument, documentValue. rewrite Hv, Hs, He.
  cbn -[entriesOf environmentOf at_]. rewrite environmentOf_name. cbn -[entriesOf at_].
  rewrite (entries_printed _ "variables" variableValue []), (entries_printed _ "secrets" secretValueOf []),
    (entries_printed _ "webhookEndpoints" endpointValue (mkExportEndpoint url [] ref :: rest)) by reflexivity.
  destruct ref; eexists; (split; [reflexivity | reflexivity]).
Qed.

(** Of two active endpoints with one URL the first is found, whichever was exported. *)
Lemma second_endpoint_conflicts {DB} `{FeltDB DB} p (pf : WebhookPlatform DB) hooks (e e' : WebhookEndpoint) ref :
  we_url e' = we_url e -> we_signingCredentialRef e' = Some ref -> truthy ref = true ->
  sortBy String.leb (we_events e) <> sortBy String.leb (we_events e') ->
  it_action (planEndpoint false p pf hooks [e; e'] (exportEndpoint e')).1 = AConflict.
Proof.
  intros Hu Hr Ht Hne. unfold planEndpoint. cbn [exportEndpoint xe_url xe_events xe_signingCredentialRef List.find].
  rewrite Hu, String.eqb_refl, Hr, sortBy_idem. unfold sameList. rewrite bool_decide_eq_false_2 by exact Hne.
  cbn [ifPresent]. rewrite Ht. cbn [orElseOpt ifPresent]. rewrite Ht. reflexivity.
Qed.

(** ** Witness *)

Definition demoVariable : ConfigurationVariable :=
  mkVariable "v1" (mkScope "t1" "app" Production) "API_URL" "https://x" true "2023-11-14T22:00:00.000Z" "2023-11-14T22:00:00.000Z" "alice" 1.

Definition demoBinding : ConfigurationSecret :=
  mkBinding "b1" (mkScope "t1" "app" Production) "TOKEN" "credential-ref:token" true "2023-11-14T22:00:00.000Z"
    "2023-11-14T22:00:00.000Z" "alice" None 1.

Definition demoHook : WebhookEndpoint :=
  mkEndpoint "e1" "t1" (Some "app") "https://hooks.example.com/" ["order.shipped"; "order.paid"] (Some "credential-ref:hook")
    "2023-11-14T22:00:00.000Z" "alice" None 1.

Definition demoNightly : JobSchedule :=
  mkSchedule "s1" "t1" (Some "app") "report" (JObj [("b", JInt 2); ("a", JInt 1)]) "1d" "2023-11-15T22:00:00.000Z" true
    "2023-11-14T22:00:00.000Z" "alice" None 1.

Definition demoStored : MemDB :=
  memPut CSchedules "s1" demoNightly (memPut CEndpoints "e1" demoHook
    (memPut CBindings "b1" demoBinding (memPut CVariables "v1" demoVariable emptyDB))).

Lemma demoStored_unused : unused demoStored.
Proof. do 4 (apply unused_put; [reflexivity|]). apply unused_empty. Qed.

(** Each collection holds its one row. *)
Lemma demoStored_rows :
  (forall k v, peek CVariables k demoStored = Some v -> k = "v1" /\ v = demoVariable) /\
  (forall k b, peek CBindings k demoStored = Some b -> k = "b1" /\ b = demoBinding) /\
  (forall k e, peek CEndpoints k demoStored = Some e -> k = "e1" /\ e = demoHook) /\
  (forall k s, peek CSchedules k demoStored = Some s -> k = "s1" /\ s = demoNightly).
Proof.
  assert (forall V (c : coll V) k x, peek c k demoStored = Some x ->
    In (cname c, k) [(cname CSchedules, "s1"); (cname CEndpoints, "e1"); (cname CBindings, "b1"); (cname CVariables, "v1")]) as Hk.
  { intros V c k x Hx. unfold demoStored in Hx. do 4 (apply memPut_cases in Hx as [E|Hx]; [rewrite E; cbn; auto 6|]).
    destruct c; discriminate Hx. }
  split; [|split; [|split]]; intros k x Hx; pose proof (Hk _ _ _ _ Hx) as Hi; cbn in Hi;
    decompose [or] Hi; try (exfalso; congruence); match goal with H : (_, _) = (_, _) |- _ => injection H as <- end;
    (split; [reflexivity|]); vm_compute in Hx; now injection Hx as <-.
Qed.

Lemma demoStored_transferable : transferable (demoGateway true) alice demoStored.
Proof.
  destruct demoStored_rows as (Hv & Hb & He & Hs). split.
  - split.
    + intros [] k r Hr; unfold configRow in Hr.
      * destruct (peek CBindings k demoStored) as [b|] eqn:E; [|discriminate Hr]. apply Hb in E as [-> ->].
        injection Hr as <-. split; [reflexivity | split; reflexivity].
      * destruct (peek CVariables k demoStored) as [v|] eqn:E; [|discriminate Hr]. apply Hv in E as [-> ->].
        injection Hr as <-. split; [reflexivity | split; [reflexivity | discriminate]].
    + intros s k r s' k' r' Hr Hr' E. unfold configRow in *.
      destruct s, s'; repeat match goal with
        | H : option_map _ (peek CBindings ?k demoStored) = _ |- _ =>
            let E := fresh in destruct (peek CBindings k demoStored) eqn:E; [|discriminate H]; apply Hb in E as [-> ->]; injection H as <-
        | H : option_map _ (peek CVariables ?k demoStored) = _ |- _ =>
            let E := fresh in destruct (peek CVariables k demoStored) eqn:E; [|discriminate H]; apply Hv in E as [-> ->]; injection H as <-
        end; first [reflexivity | discriminate E].
  - intros e (k & Hk & _). apply He in Hk as [-> ->]. split; [reflexivity|]. split; [discriminate|].
    split; [repeat constructor | reflexivity].
  - intros e e' (k & Hk & _) (k' & Hk' & _) _. apply He in Hk as [-> ->], Hk' as [-> ->]. reflexivity.
  - intros s (k & Hk & _). apply Hs in Hk as [-> ->]. split; reflexivity.
Qed.

Definition demoHooks : WebhookPlatform MemDB * WebhookService MemDB :=
  (mkPlatform (fun _ => None) (fun _ => mret []) false (fun _ _ => "") (fun _ => "") (fun _ => "") (fun _ => None) (fun _ => None)
     (fun _ _ _ _ => mret HttpTimeout),
   mkWebhookService (Some (demoGateway true)) 5 None 300000 true true []).

Definition demoScheduler : JobService MemDB * option (ServiceGateway MemDB) :=
  (newJobService (Some (demoGateway true)) None None [], Some (demoGateway true)).

#[local] Abbreviation demoExport := (exportConfiguration (Some (demoGateway true)) [] (Some demoHooks) (Some demoScheduler) String.leb "1.0.0").
#[local] Abbreviation demoImport :=
  (importConfiguration (Some (demoGateway true)) [] (Some demoHooks) (Some demoScheduler) (fun _ => "") (fun _ => None) (fun _ => "") (fun _ => None)).

Lemma export_import_unchanged_witness :
  let w := demo demoStored in
  exists d w2 report, (demoExport (mkExportOptions (CVerified alice) JUndef) w).2 = Ok d /\
    demoImport (documentValue d) (mkImportOptions (CVerified alice) JUndef (JBool true) JUndef)
      (demoExport (mkExportOptions (CVerified alice) JUndef) w).1 = (w2, Ok report) /\
    map it_key (im_items report) = ["API_URL"; "TOKEN"; "https://hooks.example.com/"; "report@1d"] /\
    Forall unchangedItem (im_items report) /\ sameRows (w_db w) (w_db w2).
Proof.
  intros w.
  eassert ((demoExport (mkExportOptions (CVerified alice) JUndef) w).2 = Ok _) as Hd by (vm_compute; reflexivity).
  match type of Hd with _ = Ok ?d => set (doc := d) in Hd end.
  eassert ((demoImport (documentValue doc) (mkImportOptions (CVerified alice) JUndef (JBool true) JUndef)
      (demoExport (mkExportOptions (CVerified alice) JUndef) w).1).2 = Ok _) as Hr by (vm_compute; reflexivity).
  match type of Hr with _ = Ok ?r => set (report := r) in Hr end.
  pose proof (surjective_pairing (demoExport (mkExportOptions (CVerified alice) JUndef) w)) as E1. rewrite Hd in E1.
  pose proof (surjective_pairing (demoImport (documentValue doc) (mkImportOptions (CVerified alice) JUndef (JBool true) JUndef)
      (demoExport (mkExportOptions (CVerified alice) JUndef) w).1)) as E2. rewrite Hr in E2.
  exists doc. eexists. exists report. split; [exact Hd|]. split; [exact E2|]. split; [reflexivity|].
  destruct (export_import_unchanged (demoGateway true) [] (Some demoHooks) (Some demoScheduler) String.leb "1.0.0" (fun _ => "")
    (fun _ => None) (fun _ => "") (fun _ => None) alice JUndef JUndef (JBool true) (documentValue doc) w _ doc _ report
    (demo_hostQuiet true) ltac:(intros jobs gw [= _ <-]; split; [apply demo_hostQuiet | reflexivity])
    (demo_calm _ demoStored_unused) demoStored_transferable E1 ltac:(now left) E2) as (_ & _ & Hu & _ & Hs).
  split; [exact Hu | exact Hs].
Defined.
