(* ===== verification/Transactions.v ===== *)
(** * Transactions: application and AppPort effects in one commit

    [runtime/transaction.ts], [runtime/transaction-services.ts] and the
    [transaction] function of [runtime/unified-services.ts] and
    [runtime/appport.ts].  Queueing collects operations; nothing reaches the
    store before the one commit at the end.

    The callback is a program over the transaction context: it queues, awaits
    other work, and may catch what queueing throws.  Its state is the
    [Transaction]: the operations collected, and the validations that
    [_settle] waits for.  A validation runs when it is waited for. *)

From S2P Require Import Prelude JsString JsTime Errors Models Store Principal Manifest Evidence Gateway Sensitive Jobs Notifications Webhooks.
From Stdlib Require Import ZArith Lia Ascii.
Local Open Scope string_scope.
Local Open Scope Z_scope.

(** ** [runtime/transaction.ts] *)

Record TransactionOperation := mkOperation {
  to_collection : string;
  to_id : string;
  to_value : jsval;
  to_requireAbsent : bool;
  to_requirePresent : bool;
  to_expectedVersion : option Z }.

Definition applicationOperation (op : TransactionOperation) : txop :=
  TxApplication (to_collection op) (to_id op) (to_requireAbsent op) (to_requirePresent op) (to_expectedVersion op) (to_value op).

(** The builder's operations, and what [_settle] waits for: each validation
    yields the operations it adds. *)
Record Transaction (DB : Type) := mkTransaction {
  tx_operations : list txop;
  tx_pending : list (M DB (list txop)) }.
Arguments mkTransaction {DB}. Arguments tx_operations {DB}. Arguments tx_pending {DB}.

Definition newTransaction {DB} : Transaction DB := mkTransaction [] [].

(** A call on the transaction context: it may queue, and may throw. *)
Definition Tx (DB A : Type) : Type := Transaction DB -> M DB (Transaction DB * outcome A).

#[global] Instance Tx_ret DB : MRet (Tx DB) := fun A a tx => mret (tx, Ok a).

#[global] Instance Tx_bind DB : MBind (Tx DB) := fun A B k m tx =>
  '(tx', o) ← m tx;
  match o with Ok a => k a tx' | Throw e => mret (tx', Throw e) end.

Definition txThrow {DB A} (e : exn) : Tx DB A := fun tx => mret (tx, Throw e).
Definition txOutcome {DB A} (o : outcome A) : Tx DB A := fun tx => mret (tx, o).

(** Awaited work outside the transaction; what it throws is thrown on. *)
Definition outside {DB A} (m : M DB A) : Tx DB A := fun tx =>
  o ← tryCatch (a ← m; mret (Ok a)) (fun e => mret (Throw e)); mret (tx, o).

(** [TransactionBuilder.addOperation] *)
Definition queue {DB} (op : txop) : Tx DB unit := fun tx =>
  mret (mkTransaction (tx_operations tx ++ [op])%list (tx_pending tx), Ok tt).

(** [this.pending.push(work)] *)
Definition pend {DB} (work : M DB (list txop)) : Tx DB unit := fun tx =>
  mret (mkTransaction (tx_operations tx) (tx_pending tx ++ [work])%list, Ok tt).

(** [TransactionCollectionImpl.insert] *)
Definition collectionInsert {DB} (name : string) (value : jsval) (id : string) : Tx DB unit :=
  queue (applicationOperation (mkOperation name id value true false None)).

(** [TransactionCollectionImpl.updateIfVersion]: always [null]. *)
Definition collectionUpdateIfVersion {DB} (name id : string) (expectedVersion : Z) (updates : jsval) : Tx DB unit :=
  queue (applicationOperation (mkOperation name id updates false false (Some expectedVersion))).

(** ** Inputs *)

Record QueuedEvent := mkQueuedEvent {
  qe_tenantId : string;
  qe_type : string;
  qe_payload : jsval }.

Record QueuedJob := mkQueuedJob {
  qj_tenantId : string;
  qj_type : string;
  qj_payload : jsval;
  qj_maxAttempts : option Z;
  qj_runAt : option string;
  qj_delegationId : option string }.

Record QueuedNotification := mkQueuedNotification {
  qn_tenantId : string;
  qn_recipient : string;
  qn_type : string;
  qn_title : string;
  qn_body : option string;
  qn_data : option jsval;
  qn_source : option NotificationSource;
  qn_priority : option NotificationPriority }.

Definition plainDenied (message : string) : exn := ServiceAuthorityError DENIED message noDetails.

(** ** [TransactionContextImpl] *)

Section context.
Context {DB : Type} `{FeltDB DB}.
Variable gateway : option (ServiceGateway DB).
(** Registered endpoints of a tenant. *)
Variable endpoints : option (string -> M DB (list WebhookEndpoint)).

(** Evidence of a transaction's effects is complete when it is written. *)
Definition transactionEvidence (x : ServiceExecutionContext) (id now : string) : EffectEvidence :=
  evidenceFor x (mkOptions "transaction" None None None) id now Succeeded.

Definition authorized (context : ContextInput) (capability tenantId resourceType : string) : Tx DB ServiceExecutionContext :=
  match gateway with
  | None => txThrow (ServiceAuthorityError AUTHORITY_UNAVAILABLE "Transactions have no AuthBoundry authority configured" noDetails)
  | Some _ =>
      x ← outside (consumeExecutionContext context capability (Some tenantId));
      if negb (String.eqb (r_type (x_resource x)) resourceType) then
        txThrow (plainDenied ("Execution context was issued for a " ++ r_type (x_resource x) ++ ", not a " ++ resourceType))
      else
        id ← outside randomUUID;
        now ← outside systemIso;
        _ ← queue (TxPut CEvidence id true None (transactionEvidence x id now));
        mret x
  end.

Definition addOperation (op : TransactionOperation) : Tx DB unit :=
  _ ← txOutcome (assertApplicationCollection (to_collection op));
  queue (applicationOperation op).

(** [collection(name)], and one call on it. *)
Definition collection (name : string) (call : string -> Tx DB unit) : Tx DB unit :=
  _ ← txOutcome (assertApplicationCollection name);
  call name.

Definition subscribes (event : QueuedEvent) (application : string) (e : WebhookEndpoint) : bool :=
  String.eqb (we_tenantId e) (qe_tenantId event) && oeqb (we_applicationId e) (Some application) &&
  negb (present (we_disabledAt e)) && existsb (String.eqb (qe_type event)) (we_events e).

Fixpoint checkEndpoints (event : QueuedEvent) (application : string) (registered : list WebhookEndpoint)
  (endpointIds : list string) : outcome unit :=
  match endpointIds with
  | [] => Ok tt
  | endpointId :: rest =>
      let refused := Throw (plainDenied ("Endpoint " ++ endpointId ++ " is not a registered, enabled subscriber to " ++
                              qe_type event ++ " for this tenant")) in
      match List.find (fun e => String.eqb (we_id e) endpointId) registered with
      | Some e => if subscribes event application e then checkEndpoints event application registered rest else refused
      | None => refused
      end
  end.

Definition deliveryOf (event : QueuedEvent) (x : ServiceExecutionContext) (eventId createdAt id endpointId : string) : WebhookDelivery :=
  mkDelivery id (qe_tenantId event) endpointId eventId (qe_type event) (qe_payload event) WPending 0 (Some createdAt) createdAt
    None None None None
    (Some (toDurablePrincipal (x_principal x) None (Some (a_decisionId (x_authorization x))))) 1.

Fixpoint queuedDeliveries (event : QueuedEvent) (x : ServiceExecutionContext) (eventId createdAt : string)
  (endpointIds : list string) : M DB (list txop) :=
  match endpointIds with
  | [] => mret []
  | endpointId :: rest =>
      id ← randomUUID;
      ops ← queuedDeliveries event x eventId createdAt rest;
      mret (TxPut CDeliveries id true None (deliveryOf event x eventId createdAt id endpointId) :: ops)
  end.

Definition addDeliveries (endpointIds : list string) (event : QueuedEvent) (x : ServiceExecutionContext) : M DB (list txop) :=
  eventId ← randomUUID;
  createdAt ← systemIso;
  deliveries ← queuedDeliveries event x eventId createdAt endpointIds;
  auditId ← randomUUID;
  mret (deliveries ++ [TxPut CHookAudit auditId true None
          (mkHookAudit auditId "webhook.event.emitted" None None None (qe_tenantId event) (vp_principalId (x_principal x))
             createdAt true None (Some (qe_type event)))])%list.

Definition validateAndAdd (lookup : string -> M DB (list WebhookEndpoint)) (endpointIds : list string) (event : QueuedEvent)
  (x : ServiceExecutionContext) : M DB (list txop) :=
  registered ← lookup (qe_tenantId event);
  _ ← ofOutcome (checkEndpoints event (x_application x) registered endpointIds);
  addDeliveries endpointIds event x.

Definition queueWebhookDeliveries (endpointIds : list string) (event : QueuedEvent) (context : ContextInput) : Tx DB unit :=
  x ← authorized context "webhooks.emit" (qe_tenantId event) "webhook_event";
  if negb (oeqb (attribute (x_resource x) "eventType") (Some (qe_type event))) then
    txThrow (plainDenied ("Execution context was not issued for event " ++ qe_type event))
  else match endpoints with
       | None => txThrow (ServiceAuthorityError AUTHORITY_UNAVAILABLE
                   "Transactions cannot validate webhook endpoints without the webhook service" noDetails)
       | Some lookup => pend (validateAndAdd lookup endpointIds event x)
       end.

Definition queuedJob (input : QueuedJob) (x : ServiceExecutionContext) (delegationId : option string) (id now : string) : Job :=
  let runAt := orElse (qj_runAt input) now in
  mkJob id (qj_tenantId input) (Some (x_application x)) (qj_type input) (qj_payload input)
    (if strLe runAt now then JPending else JScheduled) runAt 0 (orElse (qj_maxAttempts input) 3) now None None (Some runAt)
    None None None
    (Some (toDurablePrincipal (x_principal x) delegationId (Some (a_decisionId (x_authorization x))))) 1.

Definition queueJob (input : QueuedJob) (context : ContextInput) : Tx DB string :=
  x ← authorized context "jobs.create" (qj_tenantId input) "job";
  if negb (oeqb (attribute (x_resource x) "jobType") (Some (qj_type input))) then
    txThrow (plainDenied ("Execution context was not issued for job type " ++ qj_type input))
  else
    let delegationId := effectiveDelegation x in
    if match qj_delegationId input with Some d => negb (oeqb (Some d) delegationId) | None => false end then
      txThrow (plainDenied "Execution context was not issued for this delegation")
    else
      id ← outside randomUUID;
      now ← outside systemIso;
      let job := queuedJob input x delegationId id now in
      _ ← queue (TxPut CJobs id true None job);
      auditId ← outside randomUUID;
      _ ← queue (TxPut CJobAudit auditId true None
            (mkJobAudit auditId "job.enqueued" (Some id) None (j_tenantId job) (vp_principalId (x_principal x)) now true []
               (Some (j_type job))));
      mret id.

Definition checkQueuedContent (input : QueuedNotification) : outcome unit :=
  _ ← assertNoCredentials (JStr (qn_title input)) "title";
  _ ← match qn_body input with Some b => assertNoCredentials (JStr b) "body" | None => Ok tt end;
  _ ← match qn_data input with Some d => assertNoCredentials d "data" | None => Ok tt end;
  match qn_source input with Some s => assertNoCredentials (sourceObject s) "source" | None => Ok tt end.

Definition queuedNotification (input : QueuedNotification) (x : ServiceExecutionContext) (id now : string) : Notification :=
  mkNotification id (qn_tenantId input) (Some (x_application x)) (qn_recipient input) (qn_type input) (qn_title input)
    (qn_body input) (qn_data input) (qn_source input) (orElse (qn_priority input) PNormal) ["in-app"] NDelivered None now
    (Some (vp_principalId (x_principal x))) None (Some now) None None None None None 1.

Definition queuedNotificationDelivery (input : QueuedNotification) (notificationId now id : string) : NotificationDelivery :=
  mkNotificationDelivery id (qn_tenantId input) notificationId (qn_recipient input) "in-app" NdDelivered
    (notificationId ++ ":in-app") 1 1 now (Some now) None (Some now) None None None 1.

Definition queueNotification (input : QueuedNotification) (context : ContextInput) : Tx DB string :=
  x ← authorized context "notifications.send" (qn_tenantId input) "notification";
  if negb (oeqb (attribute (x_resource x) "recipient") (Some (qn_recipient input))) then
    txThrow (plainDenied "Execution context was not issued for this recipient")
  else
    _ ← txOutcome (checkQueuedContent input);
    id ← outside randomUUID;
    now ← outside systemIso;
    _ ← queue (TxPut CNotifications id true None (queuedNotification input x id now));
    deliveryId ← outside randomUUID;
    _ ← queue (TxPut CNotificationDeliveries deliveryId true None (queuedNotificationDelivery input id now deliveryId));
    auditId ← outside randomUUID;
    _ ← queue (TxPut CNotificationAudit auditId true None
          (mkNotificationAudit auditId "notification.created" id (qn_tenantId input) (qn_recipient input)
             (vp_principalId (x_principal x)) now true None None));
    mret id.

(** ** The callback *)

Inductive TransactionCall :=
| AddOperation (op : TransactionOperation)
| CollectionInsert (name : string) (value : jsval) (id : string)
| CollectionUpdate (name id : string) (expectedVersion : Z) (updates : jsval)
| QueueWebhookDeliveries (endpointIds : list string) (event : QueuedEvent) (context : ContextInput)
| QueueJob (input : QueuedJob) (context : ContextInput)
| QueueNotification (input : QueuedNotification) (context : ContextInput).

(** What a call answers: an identifier, or nothing. *)
Definition callContext (call : TransactionCall) : Tx DB string :=
  match call with
  | AddOperation op => _ ← addOperation op; mret ""
  | CollectionInsert name value id => _ ← collection name (fun n => collectionInsert n value id); mret ""
  | CollectionUpdate name id v updates => _ ← collection name (fun n => collectionUpdateIfVersion n id v updates); mret ""
  | QueueWebhookDeliveries ids event context => _ ← queueWebhookDeliveries ids event context; mret ""
  | QueueJob input context => queueJob input context
  | QueueNotification input context => queueNotification input context
  end.

(** A callback: it ends, calls the context and goes on with what that
    returned or threw, or awaits something else. *)
Inductive Callback (T : Type) : Type :=
| Done (o : outcome T)
| Call (call : TransactionCall) (k : outcome string -> Callback T)
| Await (A : Type) (m : M DB A) (k : outcome A -> Callback T).
Arguments Done {T} o. Arguments Call {T} call k. Arguments Await {T A} m k.

Fixpoint runCallback {T} (callback : Callback T) : Tx DB T :=
  match callback with
  | Done o => txOutcome o
  | Call call k => fun tx => '(tx', o) ← callContext call tx; runCallback (k o) tx'
  | Await m k => fun tx => '(tx', o) ← outside m tx; runCallback (k o) tx'
  end.

(** [_settle] *)
Fixpoint settle (pending : list (M DB (list txop))) (ops : list txop) : M DB (list txop) :=
  match pending with
  | [] => mret ops
  | work :: rest => added ← work; settle rest (ops ++ added)%list
  end.

(** [builder.commit(db)] *)
Definition commit (ops : list txop) : M DB unit :=
  match ops with [] => mret tt | _ => transaction ops end.

(** The callback and the validations: its result, and what is to be committed. *)
Definition collect {T} (callback : Callback T) : M DB (T * list txop) :=
  '(tx, o) ← runCallback callback newTransaction;
  result ← ofOutcome o;
  ops ← settle (tx_pending tx) (tx_operations tx);
  mret (result, ops).

(** [services.transaction(callback)] *)
Definition runTransaction {T} (callback : Callback T) : M DB T :=
  '(result, ops) ← collect callback;
  _ ← commit ops;
  mret result.

(** [services.authorize]: the context of one transactional effect. *)
Definition authorizeEffect (g : ServiceGateway DB) (capability : string) (principal : Caller) (type : string)
  (tenantId id : option string) (attributes : option (gmap string string)) : M DB ServiceExecutionContext :=
  verified ← ofOutcome (requireVerifiedPrincipal principal);
  requestId ← randomUUID;
  authorize g capability (CVerified verified) (mkResource type (orElse tenantId (vp_tenantId verified)) id attributes) requestId.
End context.
Arguments Callback DB T : clear implicits.
Arguments Done {DB T} o. Arguments Call {DB T} call k. Arguments Await {DB T A} m k.
