(* ===== verification/Intelligence.v ===== *)
(** * Intelligence: the model provider a tenant configured

    [intelligence/catalog.ts], [intelligence/models.ts] and
    [intelligence/service.ts].  The selection is one configuration variable
    (a JSON text) and the credential one configuration binding, both in the
    collections of [Configuration].  The URL parser, [JSON.parse] and
    [String(value)] are parameters; [JSON.stringify] of a selection is
    written out. *)

From S2P Require Import Prelude JsString Encoding Json JsTime Errors Models Store Principal Manifest Evidence Gateway Destination Configuration.
From Stdlib Require Import ZArith Lia Ascii.
Local Open Scope string_scope.
Local Open Scope Z_scope.

(** ** [intelligence/catalog.ts] *)

Inductive IntelligenceProtocol := Openai | Anthropic | OpenaiCompatible.
Inductive CredentialRequirement := CredentialRequired | CredentialOptional | CredentialNone.
Inductive ModelSelection := FromCatalog | FreeModel.

#[global] Instance CredentialRequirement_eq_dec : EqDecision CredentialRequirement.
Proof. solve_decision. Defined.

Record IntelligenceModel := mkModel { im_id : string; im_displayName : string }.
Record IntelligenceEndpoint := mkIntelligenceEndpoint { ie_id : string; ie_displayName : string; ie_url : string }.

Record IntelligenceProvider := mkProvider {
  ip_id : string;
  ip_displayName : string;
  ip_protocol : IntelligenceProtocol;
  ip_models : list IntelligenceModel;
  ip_modelSelection : ModelSelection;
  ip_endpoints : list IntelligenceEndpoint;
  ip_customEndpoint : bool;
  ip_credential : CredentialRequirement }.

Definition CUSTOM_PROVIDER_ID : string := "custom".

Definition INTELLIGENCE_CATALOG : list IntelligenceProvider :=
  [ mkProvider "openai" "OpenAI" Openai
      [mkModel "gpt-4o" "GPT-4o"; mkModel "gpt-4o-mini" "GPT-4o mini"] FreeModel
      [mkIntelligenceEndpoint "default" "Default" "https://api.openai.com/v1"] false CredentialRequired;
    mkProvider "anthropic" "Anthropic" Anthropic
      [mkModel "claude-fable-5-1" "Claude Fable 5.1"; mkModel "claude-opus-5-5" "Claude Opus 5.5";
       mkModel "claude-sonnet-5-5" "Claude Sonnet 5.5"; mkModel "claude-haiku-4-5-20251001" "Claude Haiku 4.5"] FromCatalog
      [mkIntelligenceEndpoint "default" "Default" "https://api.anthropic.com"] false CredentialRequired;
    mkProvider "opencode" "OpenCode" OpenaiCompatible [] FreeModel
      [mkIntelligenceEndpoint "default" "Default" "https://opencode.ai/zen/v1"] true CredentialRequired;
    mkProvider "ollama" "Ollama (local)" OpenaiCompatible [] FreeModel
      [mkIntelligenceEndpoint "default" "Local" "http://localhost:11434/v1"] true CredentialOptional;
    mkProvider CUSTOM_PROVIDER_ID "Custom (OpenAI-compatible)" OpenaiCompatible [] FreeModel [] true CredentialOptional ].

Definition getIntelligenceProvider (id : jsval) : option IntelligenceProvider :=
  match id with
  | JStr s => List.find (fun entry => String.eqb (ip_id entry) s) INTELLIGENCE_CATALOG
  | _ => None
  end.

Definition findIntelligenceModel (providerId modelId : string) : option IntelligenceModel :=
  match getIntelligenceProvider (JStr providerId) with
  | Some p => List.find (fun m => String.eqb (im_id m) modelId) (ip_models p)
  | None => None
  end.

(** ** [intelligence/models.ts] *)

Record IntelligenceSelection := mkSelection {
  sl_provider : string;
  sl_model : string;
  sl_endpoint : option string }.

Inductive IntelligenceConfigurationView :=
| Unconfigured (environment : ConfigurationEnvironment)
| Configured (environment : ConfigurationEnvironment) (provider model : string) (custom : bool) (url : option string)
    (credentialRequirement : CredentialRequirement) (credentialConfigured : bool) (updatedAt : string).

Record IntelligenceRuntimeConfiguration := mkRuntime {
  rt_provider : string;
  rt_protocol : IntelligenceProtocol;
  rt_model : string;
  rt_endpoint : string;
  rt_credentialRef : option string }.

(** ** [intelligence/service.ts] *)

Definition INTELLIGENCE_SELECTION_NAME : string := "INTELLIGENCE_CONFIG".
Definition INTELLIGENCE_CREDENTIAL_NAME : string := "INTELLIGENCE_CREDENTIAL".

(** [si_own] of the scope are all own properties of the input. *)
Record IntelligenceWriteInput := mkIntelligenceWrite {
  iw_scope : Scope;
  iw_provider : jsval;
  iw_model : jsval;
  iw_endpoint : jsval;
  iw_credentialRef : jsval }.

Record IntelligenceCredentialInput := mkIntelligenceCredential {
  ic_scope : Scope;
  ic_credentialRef : jsval }.

Definition IntelligenceValidationError (message : string) : exn := JsError "IntelligenceValidationError" message.

(** What reading a property of [undefined] throws. *)
Definition undefinedProperty (name : string) : exn :=
  JsError "TypeError" ("Cannot read properties of undefined (reading '" ++ name ++ "')").

(** What the service reads of a parsed [URL]. *)
Record EndpointURL := mkEndpointURL {
  eu_protocol : string;
  eu_username : string;
  eu_password : string;
  eu_hostname : string;
  eu_search : string;
  eu_hash : string }.

(** A stored endpoint is a known endpoint id, absent (default), or a custom URL. *)
Definition resolveEndpoint (provider : IntelligenceProvider) (stored : option string) : string :=
  match ifPresent stored with
  | None => match ip_endpoints provider with e :: _ => ie_url e | [] => "" end
  | Some s =>
      if String.eqb s "default" then match ip_endpoints provider with e :: _ => ie_url e | [] => "" end
      else match List.find (fun e => String.eqb (ie_id e) s) (ip_endpoints provider) with
           | Some e => ie_url e
           | None => s
           end
  end.

(** [JSON.stringify(selection)] *)
Definition stringifySelection (s : IntelligenceSelection) : string :=
  "{" ++ quoteJson "provider" ++ ":" ++ quoteJson (sl_provider s) ++ "," ++ quoteJson "model" ++ ":" ++ quoteJson (sl_model s) ++
  match sl_endpoint s with Some e => "," ++ quoteJson "endpoint" ++ ":" ++ quoteJson e | None => "" end ++ "}".

Definition notASelection : exn :=
  IntelligenceValidationError (INTELLIGENCE_SELECTION_NAME ++ " does not contain a valid intelligence selection").

(** The fields of a parsed selection. *)
Definition selectionOf (fields : list (string * jsval)) : outcome IntelligenceSelection :=
  match getField fields "provider", getField fields "model", getField fields "endpoint" with
  | JStr provider, JStr model, JUndef => Ok (mkSelection provider model None)
  | JStr provider, JStr model, JStr e => Ok (mkSelection provider model (ifPresent (Some e)))
  | _, _, _ => Throw notASelection
  end.

(** [value.replace(/\/+$/, '')] *)
Fixpoint dropSlashes (s : string) : string :=
  match s with
  | EmptyString => EmptyString
  | String c r =>
      match dropSlashes r with
      | EmptyString => if Ascii.eqb c "/" then EmptyString else String c EmptyString
      | r' => String c r'
      end
  end.

Definition isLocalHost (hostname : string) : bool :=
  let host := toLowerCase (unbracket hostname) in
  if String.eqb host "localhost" || endsWith host ".localhost" || endsWith host ".local" || endsWith host ".internal"
     || String.eqb host "::1" then true
  else if isIP host =? 4 then
    match map (digitsValue 0) (splitOn "." host) with
    | a :: b :: _ => (a =? 127) || (a =? 10) || ((a =? 172) && (16 <=? b) && (b <=? 31)) || ((a =? 192) && (b =? 168))
    | _ => false
    end
  else false.

Definition intelligenceResource (scope : ConfigurationScope) (type : string) (credentialRef : option string) : ServiceResource :=
  mkResource type (sc_tenantId scope)
    (Some (environmentName (sc_environment scope) ++ "/" ++
           if String.eqb type "credential" then INTELLIGENCE_CREDENTIAL_NAME else INTELLIGENCE_SELECTION_NAME))
    (Some (match ifPresent credentialRef with
           | Some ref => <["credentialRef" := ref]> {["applicationId" := sc_applicationId scope; "environment" := environmentName (sc_environment scope)]}
           | None => {["applicationId" := sc_applicationId scope; "environment" := environmentName (sc_environment scope)]}
           end)).

Definition intelligenceOptions (provider credentialRef : option string) : ExecuteOptions :=
  mkOptions "intelligence" provider credentialRef None.

(** [view] *)
Definition viewOf (environment : ConfigurationEnvironment) (selection : IntelligenceSelection) (updatedAt : string)
  (credentialConfigured : bool) : outcome IntelligenceConfigurationView :=
  match getIntelligenceProvider (JStr (sl_provider selection)) with
  | None => Throw (IntelligenceValidationError ("Stored provider " ++ quoted (sl_provider selection) ++ " is no longer known"))
  | Some provider =>
      let isDefault := match ifPresent (sl_endpoint selection) with None => true | Some s => String.eqb s "default" end in
      Ok (Configured environment (ip_id provider) (sl_model selection) (negb isDefault)
            (ifPresent (Some (resolveEndpoint provider (sl_endpoint selection)))) (ip_credential provider)
            credentialConfigured updatedAt)
  end.

(** White space or a control character. *)
Definition badModelChar (c : ascii) : bool := isSpace c || codeIn 0 31 c.

Section validation.
(** [new URL(value)], [None] where it throws. *)
Variable parseEndpoint : string -> option EndpointURL.
(** [JSON.parse(text)], [None] where it throws. *)
Variable jsonParse : string -> option jsval.
(** [String(value)] *)
Variable stringOfValue : jsval -> string.

Definition parseSelection (value : string) : outcome IntelligenceSelection :=
  match jsonParse value with Some (JObj fields) => selectionOf fields | _ => Throw notASelection end.

Definition validateEndpointUrl (value : string) : outcome string :=
  match parseEndpoint value with
  | None => Throw (IntelligenceValidationError "Endpoint must be a valid URL")
  | Some url =>
      if negb (String.eqb (eu_protocol url) "https:") && negb (String.eqb (eu_protocol url) "http:") then
        Throw (IntelligenceValidationError "Endpoint must use http or https")
      else if truthy (eu_username url) || truthy (eu_password url) then
        Throw (IntelligenceValidationError "Endpoint must not embed credentials")
      else if truthy (eu_search url) || truthy (eu_hash url) then
        Throw (IntelligenceValidationError "Endpoint must not include a query string or fragment")
      else if String.eqb (eu_protocol url) "http:" && negb (isLocalHost (eu_hostname url)) then
        Throw (IntelligenceValidationError "Plain http endpoints are allowed only for local or private-network hosts")
      else Ok (dropSlashes value)
  end.

(** The endpoint of a selection, once provider and model are known good. *)
Definition selectEndpoint (provider : IntelligenceProvider) (model : string) (endpoint : jsval)
  : outcome IntelligenceSelection :=
  match endpoint with
  | JUndef | JNull | JStr _ =>
      let requested := match endpoint with JStr s => Some (trim s) | _ => None end in
      match ifPresent requested with
      | None =>
          match ip_endpoints provider with
          | [] => Throw (IntelligenceValidationError ("Provider " ++ ip_id provider ++ " requires an endpoint"))
          | _ => Ok (mkSelection (ip_id provider) model None)
          end
      | Some r =>
          if String.eqb r "default" then
            match ip_endpoints provider with
            | [] => Throw (IntelligenceValidationError ("Provider " ++ ip_id provider ++ " requires an endpoint"))
            | _ => Ok (mkSelection (ip_id provider) model None)
            end
          else
            match List.find (fun e => String.eqb (ie_id e) r) (ip_endpoints provider) with
            | Some known => Ok (mkSelection (ip_id provider) model
                (if String.eqb (ie_id known) "default" then None else Some (ie_id known)))
            | None =>
                if negb (ip_customEndpoint provider) then
                  Throw (IntelligenceValidationError ("Provider " ++ ip_id provider ++ " does not accept a custom endpoint"))
                else match validateEndpointUrl r with
                     | Ok url => Ok (mkSelection (ip_id provider) model (Some url))
                     | Throw e => Throw e
                     end
            end
      end
  | _ => Throw (IntelligenceValidationError "Endpoint must be a string")
  end.

Definition validateSelection (input : IntelligenceWriteInput) : outcome IntelligenceSelection :=
  match getIntelligenceProvider (iw_provider input) with
  | None => Throw (IntelligenceValidationError ("Unknown provider " ++ quoted (stringOfValue (iw_provider input)) ++
              "; use " ++ quoted "custom" ++ " for an OpenAI-compatible provider"))
  | Some provider =>
      let model := match iw_model input with JStr s => trim s | _ => "" end in
      if negb (truthy model) then Throw (IntelligenceValidationError "Model is required")
      else if Nat.ltb 200 (String.length model) || any badModelChar model then
        Throw (IntelligenceValidationError "Model must be a provider-defined identifier without whitespace")
      else if match ip_modelSelection provider, findIntelligenceModel (ip_id provider) model with
              | FromCatalog, None => true
              | _, _ => false
              end then
        Throw (IntelligenceValidationError ("Model " ++ quoted model ++ " is not available for provider " ++ ip_id provider))
      else selectEndpoint provider model (iw_endpoint input)
  end.
End validation.

(** [input.credentialRef === undefined ? undefined : requireCredentialRef(...)] *)
Definition optionalRef (v : jsval) : outcome (option string) :=
  if isUndef v then Ok None
  else match requireCredentialRef v "credentialRef" with Ok ref => Ok (Some ref) | Throw e => Throw e end.

(** The configuration row, the binding, and the selection read from the row. *)
Record Loaded := mkLoaded {
  lo_variable : option ConfigurationVariable;
  lo_secret : option ConfigurationSecret;
  lo_selection : option IntelligenceSelection }.

(** Whether [selection] leads elsewhere than what is configured. *)
Definition destinationChanged (provider : IntelligenceProvider) (current : option IntelligenceSelection)
  (selection : IntelligenceSelection) : bool :=
  match current with
  | None => true
  | Some c => negb (String.eqb (sl_provider c) (sl_provider selection)) ||
              negb (String.eqb (resolveEndpoint provider (sl_endpoint c)) (resolveEndpoint provider (sl_endpoint selection)))
  end.

Section service.
Context {DB : Type} `{FeltDB DB}.
Variable authority : option (ServiceGateway DB).
Variable parseEndpoint : string -> option EndpointURL.
Variable jsonParse : string -> option jsval.
Variable stringOfValue : jsval -> string.

Definition ownIntelligence (scope : Scope) (caller : Caller)
  : outcome (ServiceGateway DB * VerifiedPrincipal * ConfigurationScope) :=
  match authority with
  | None => Throw (ServiceAuthorityError AUTHORITY_UNAVAILABLE "Intelligence has no AuthBoundry authority configured" noDetails)
  | Some g =>
      match resolveConfigurationOwnership (g_application g) (inProduction scope) caller with
      | Ok (principal, owned) => Ok (g, principal, owned)
      | Throw e => Throw e
      end
  end.

Definition load (owned : ConfigurationScope) : M DB Loaded :=
  variable ← getVariable owned INTELLIGENCE_SELECTION_NAME;
  secret ← getSecret owned INTELLIGENCE_CREDENTIAL_NAME;
  selection ← match variable with
              | Some v => s ← ofOutcome (parseSelection jsonParse (cv_value v)); mret (Some s)
              | None => mret None
              end;
  mret (mkLoaded variable secret selection).

Definition recordIntelligence (type : string) (scope : ConfigurationScope) (name : string) (secret : bool)
  (actor operation : string) (configured : bool) : M DB unit :=
  id ← randomUUID;
  timestamp ← nowIso;
  auditConfiguration (mkConfigAudit id type scope name secret actor timestamp operation configured).

Definition saveSelection (owned : ConfigurationScope) (current : option ConfigurationVariable)
  (selection : IntelligenceSelection) (actor : string) : M DB unit :=
  timestamp ← nowIso;
  let value := stringifySelection selection in
  match current with
  | Some c =>
      let item := c <| cv_value := value |> <| cv_updatedAt := timestamp |> <| cv_version := cv_version c + 1 |> in
      _ ← saveVariable item (Some (cv_version c));
      recordIntelligence "configuration.updated" (cv_scope item) (cv_name item) false actor "updated" true
  | None =>
      id ← randomUUID;
      _ ← saveVariable (mkVariable id owned INTELLIGENCE_SELECTION_NAME value false timestamp timestamp actor 1) None;
      recordIntelligence "configuration.created" owned INTELLIGENCE_SELECTION_NAME false actor "created" true
  end.

Definition bindCredential (owned : ConfigurationScope) (current : option ConfigurationSecret) (ref actor : string) : M DB unit :=
  timestamp ← nowIso;
  match current with
  | Some c =>
      let item := c <| cb_credentialRef := ref |> <| cb_updatedAt := timestamp |> <| cb_version := cb_version c + 1 |> in
      _ ← saveSecret item false (Some (cb_version c));
      recordIntelligence "secret.rotated" (cb_scope item) (cb_name item) true actor "rotated" true
  | None =>
      id ← randomUUID;
      _ ← saveSecret (mkBinding id owned INTELLIGENCE_CREDENTIAL_NAME ref false timestamp timestamp actor None 1) false None;
      recordIntelligence "secret.created" owned INTELLIGENCE_CREDENTIAL_NAME true actor "created" true
  end.

Definition detachCredential (current : ConfigurationSecret) (actor : string) : M DB unit :=
  _ ← deleteSecret current;
  recordIntelligence "secret.deleted" (cb_scope current) (cb_name current) true actor "deleted" false.

Definition catalog (scope : Scope) (caller : Caller) : M DB (list IntelligenceProvider) :=
  '(g, principal, owned) ← ofOutcome (ownIntelligence scope caller);
  execute g "intelligence.catalog" (CVerified principal) (intelligenceResource owned "intelligence" None)
    (intelligenceOptions None None) (fun _ _ => mret INTELLIGENCE_CATALOG).

(** The effect of [get]. *)
Definition getEffect (owned : ConfigurationScope) : M DB IntelligenceConfigurationView :=
  current ← load owned;
  match lo_selection current, lo_variable current with
  | Some s, Some v =>
      ofOutcome (viewOf (sc_environment owned) s (cv_updatedAt v)
        match lo_secret current with Some _ => true | None => false end)
  | _, _ => mret (Unconfigured (sc_environment owned))
  end.

Definition getIntelligence (scope : Scope) (caller : Caller) : M DB IntelligenceConfigurationView :=
  '(g, principal, owned) ← ofOutcome (ownIntelligence scope caller);
  execute g "intelligence.read" (CVerified principal) (intelligenceResource owned "intelligence" None)
    (intelligenceOptions None None) (fun _ _ => getEffect owned).

(** The effect of [set]. *)
Definition setEffect (owned : ConfigurationScope) (selection : IntelligenceSelection) (credentialRef : option string)
  (provider : IntelligenceProvider) (actor : string) : M DB IntelligenceConfigurationView :=
  current ← load owned;
  let given := match credentialRef with Some _ => true | None => false end in
  let stored := match lo_secret current with Some _ => true | None => false end in
  if bool_decide (ip_credential provider = CredentialNone) && given then
    throw (IntelligenceValidationError ("Provider " ++ ip_id provider ++ " does not use a credential"))
  else
    let keepCredential := stored && negb given && negb (destinationChanged provider (lo_selection current) selection) in
    if bool_decide (ip_credential provider = CredentialRequired) && negb given && negb keepCredential then
      throw (IntelligenceValidationError ("Provider " ++ ip_id provider ++ " requires a credential" ++
        if stored then " (the existing credential is not carried over to a different provider or endpoint)" else ""))
    else
      _ ← match lo_secret current with
          | Some b => if negb given && negb keepCredential then detachCredential b actor else mret tt
          | None => mret tt
          end;
      _ ← match credentialRef with Some ref => bindCredential owned (lo_secret current) ref actor | None => mret tt end;
      _ ← saveSelection owned (lo_variable current) selection actor;
      updatedAt ← nowIso;
      ofOutcome (viewOf (sc_environment owned) selection updatedAt (given || keepCredential)).

Definition setIntelligence (input : IntelligenceWriteInput) (caller : Caller) : M DB IntelligenceConfigurationView :=
  _ ← ofOutcome (rejectRawCredentialFields (si_own (iw_scope input)));
  '(g, principal, owned) ← ofOutcome (ownIntelligence (iw_scope input) caller);
  selection ← ofOutcome (validateSelection parseEndpoint stringOfValue input);
  credentialRef ← ofOutcome (optionalRef (iw_credentialRef input));
  execute g "intelligence.write" (CVerified principal) (intelligenceResource owned "intelligence" credentialRef)
    (intelligenceOptions (Some (sl_provider selection)) credentialRef) (fun _ _ =>
      match getIntelligenceProvider (JStr (sl_provider selection)) with
      | Some provider => setEffect owned selection credentialRef provider (vp_principalId principal)
      | None => throw (undefinedProperty "credential")
      end).

(** The effect of [setCredential]. *)
Definition setCredentialEffect (owned : ConfigurationScope) (credentialRef actor : string) : M DB IntelligenceConfigurationView :=
  current ← load owned;
  match lo_selection current, lo_variable current with
  | Some s, Some v =>
      match getIntelligenceProvider (JStr (sl_provider s)) with
      | None => throw (undefinedProperty "credential")
      | Some provider =>
          if bool_decide (ip_credential provider = CredentialNone) then
            throw (IntelligenceValidationError "This provider does not use a credential")
          else
            _ ← bindCredential owned (lo_secret current) credentialRef actor;
            ofOutcome (viewOf (sc_environment owned) s (cv_updatedAt v) true)
      end
  | _, _ => throw (IntelligenceValidationError "Intelligence is not configured; set a provider and model first")
  end.

Definition setCredential (input : IntelligenceCredentialInput) (caller : Caller) : M DB IntelligenceConfigurationView :=
  _ ← ofOutcome (rejectRawCredentialFields (si_own (ic_scope input)));
  '(g, principal, owned) ← ofOutcome (ownIntelligence (ic_scope input) caller);
  credentialRef ← ofOutcome (requireCredentialRef (ic_credentialRef input) "credentialRef");
  execute g "intelligence.credential.set" (CVerified principal) (intelligenceResource owned "credential" (Some credentialRef))
    (intelligenceOptions None (Some credentialRef)) (fun _ _ =>
      setCredentialEffect owned credentialRef (vp_principalId principal)).

(** The effect of [removeCredential]. *)
Definition removeEffect (owned : ConfigurationScope) (actor : string) : M DB IntelligenceConfigurationView :=
  current ← load owned;
  match lo_selection current, lo_variable current with
  | Some s, Some v =>
      match getIntelligenceProvider (JStr (sl_provider s)) with
      | None => throw (undefinedProperty "credential")
      | Some provider =>
          if bool_decide (ip_credential provider = CredentialRequired) then
            throw (IntelligenceValidationError "This provider requires a credential; replace it instead of removing it")
          else
            _ ← match lo_secret current with Some b => detachCredential b actor | None => mret tt end;
            ofOutcome (viewOf (sc_environment owned) s (cv_updatedAt v) false)
      end
  | _, _ => throw (IntelligenceValidationError "Intelligence is not configured")
  end.

Definition removeCredential (scope : Scope) (caller : Caller) : M DB IntelligenceConfigurationView :=
  '(g, principal, owned) ← ofOutcome (ownIntelligence scope caller);
  execute g "intelligence.credential.remove" (CVerified principal) (intelligenceResource owned "credential" None)
    (intelligenceOptions None None) (fun _ _ => removeEffect owned (vp_principalId principal)).

(** The effect of [resolveRuntime]; [None] is the source's [null]: nothing is
    configured. *)
Definition resolveEffect (owned : ConfigurationScope) : M DB (option IntelligenceRuntimeConfiguration) :=
  current ← load owned;
  match lo_selection current with
  | None => mret None
  | Some s =>
      match getIntelligenceProvider (JStr (sl_provider s)) with
      | None => throw (undefinedProperty "id")
      | Some provider =>
          mret (Some (mkRuntime (ip_id provider) (ip_protocol provider) (sl_model s)
            (resolveEndpoint provider (sl_endpoint s)) (option_map cb_credentialRef (lo_secret current))))
      end
  end.

Definition resolveRuntime (scope : Scope) (caller : Caller) : M DB (option IntelligenceRuntimeConfiguration) :=
  '(g, principal, owned) ← ofOutcome (ownIntelligence scope caller);
  execute g "intelligence.resolve" (CVerified principal) (intelligenceResource owned "intelligence" None)
    (intelligenceOptions None None) (fun _ _ => resolveEffect owned).
End service.
