(* ===== verification/IntelligenceProps.v ===== *)
(** * IntelligenceProps: the properties of the intelligence configuration

    What a scope has configured is a [Setting]: the text of its selection and
    the reference of its credential.  Every operation is a step on settings
    ([specIntelligence]), and a credential stays with the provider and
    endpoint it was handed over for. *)

From S2P Require Import Prelude JsString Encoding Json JsTime Errors Models Store Calm MemStore Principal Manifest Evidence Gateway GatewayFacts Destination Configuration ConfigFacts ConfigProps Intelligence Demo.
From Stdlib Require Import ZArith Lia Ascii.
Local Open Scope string_scope.
Local Open Scope Z_scope.

(** ** One record of a name per scope *)

(** [f] with the value at [s] replaced. *)
Definition fset {A} (s : ConfigurationScope) (a : A) (f : ConfigurationScope -> A) : ConfigurationScope -> A :=
  fun s' => if bool_decide (s' = s) then a else f s'.

Lemma fset_same {A} s (a : A) f : fset s a f s = a.
Proof. unfold fset. now rewrite bool_decide_eq_true_2. Qed.

Lemma fset_other {A} s s' (a : A) f : s' <> s -> fset s a f s' = f s'.
Proof. intros Hn. unfold fset. now rewrite bool_decide_eq_false_2. Qed.

Section slots.
Context {DB : Type} `{FeltDBLaws DB}.
Context {V : Type} (c : coll V) (idOf : V -> string) (scopeOf : V -> ConfigurationScope) (named : V -> bool) (content : V -> string).

(** The named records of [c]: under their own keys, at most one in a scope,
    with the contents [f]. *)
Definition slots (f : ConfigurationScope -> option string) (db : DB) : Prop :=
  (forall k x, peek c k db = Some x -> idOf x = k) /\
  (forall k x k' x', peek c k db = Some x -> peek c k' db = Some x' -> named x = true -> named x' = true ->
     scopeOf x = scopeOf x' -> k = k') /\
  forall s, match f s with
            | Some t => exists k x, peek c k db = Some x /\ named x = true /\ scopeOf x = s /\ content x = t
            | None => forall k x, peek c k db = Some x -> named x = true -> scopeOf x <> s
            end.

Lemma slots_frame f db db' : (forall k, peek c k db' = peek c k db) -> slots f db -> slots f db'.
Proof.
  intros Hf (A & B & C). split; [intros k x; rewrite Hf; apply A|].
  split; [intros k x k' x'; rewrite !Hf; apply B|]. intros s. specialize (C s). destruct (f s).
  - destruct C as (k & x & Hk & Hx). exists k, x. now rewrite Hf.
  - intros k x. rewrite Hf. apply C.
Qed.

Lemma slots_put f k x s0 t db db' :
  slots f db -> changed c k (Some x) db db' -> scopeOf x = s0 -> content x = t -> idOf x = k -> named x = true ->
  (f (scopeOf x) = None \/ exists cur, peek c k db = Some cur /\ named cur = true /\ scopeOf cur = scopeOf x) ->
  match peek c k db with Some cur => scopeOf cur = scopeOf x | None => True end ->
  slots (fset s0 (Some t) f) db'.
Proof.
  intros (A & B & C) Hch <- <- Hid Hn Hslot Hold.
  assert (forall k' y, peek c k' db' = Some y -> k' = k /\ y = x \/ k' <> k /\ peek c k' db = Some y) as Hcase.
  { intros k' y Hy. destruct (decide (k' = k)) as [->|Hne].
    - rewrite (changed_hit _ _ _ _ _ Hch) in Hy. injection Hy as <-. auto.
    - rewrite (changed_frame _ _ _ _ _ _ _ Hch) in Hy by congruence. auto. }
  assert (forall k' y, peek c k' db = Some y -> named y = true -> scopeOf y = scopeOf x -> k' = k) as Hmine.
  { intros k' y Hy Hny Es. destruct Hslot as [Hnone|(cur & Hk & Hcn & Hcs)].
    - specialize (C (scopeOf x)). rewrite Hnone in C. exfalso. exact (C k' y Hy Hny Es).
    - eapply B; [exact Hy | exact Hk | exact Hny | exact Hcn | congruence]. }
  split; [|split].
  - intros k' y Hy. destruct (Hcase k' y Hy) as [[-> ->]|[_ Hy']]; [exact Hid | now apply A].
  - intros k1 x1 k2 x2 H1 H2 N1 N2 E.
    destruct (Hcase _ _ H1) as [[-> ->]|[_ H1']], (Hcase _ _ H2) as [[-> ->]|[_ H2']].
    + reflexivity.
    + symmetry. now apply (Hmine k2 x2).
    + now apply (Hmine k1 x1).
    + eapply B; eassumption.
  - intros s. destruct (decide (s = scopeOf x)) as [->|Hs].
    + rewrite fset_same. exists k, x. split; [apply (changed_hit _ _ _ _ _ Hch) | auto].
    + rewrite fset_other by exact Hs. specialize (C s). destruct (f s).
      * destruct C as (k' & y & Hy & Hny & Hsy & Hcy). exists k', y. split; [|auto].
        rewrite (changed_frame _ _ _ _ _ _ _ Hch); [exact Hy|]. intros [= ->]. rewrite Hy in Hold. congruence.
      * intros k' y Hy Hny. destruct (Hcase k' y Hy) as [[-> ->]|[_ Hy']]; [congruence | eapply C; eassumption].
Qed.

Lemma slots_remove f k cur db db' :
  slots f db -> changed c k None db db' -> peek c k db = Some cur -> named cur = true -> slots (fset (scopeOf cur) None f) db'.
Proof.
  intros (A & B & C) Hch Hk Hn.
  assert (forall k' y, peek c k' db' = Some y -> k' <> k /\ peek c k' db = Some y) as Hcase.
  { intros k' y Hy. destruct (decide ((cname c, k') = (cname c, k))) as [[= ->]|Hne].
    - rewrite (changed_hit _ _ _ _ _ Hch) in Hy. discriminate Hy.
    - rewrite (changed_frame _ _ _ _ _ _ _ Hch) in Hy by congruence. split; [congruence | exact Hy]. }
  split; [|split].
  - intros k' y Hy. now apply A, (Hcase k' y).
  - intros k1 x1 k2 x2 H1 H2. apply B; eapply Hcase; eassumption.
  - intros s. destruct (decide (s = scopeOf cur)) as [->|Hs].
    + rewrite fset_same. intros k' y Hy Hny E. destruct (Hcase k' y Hy) as [Hne Hy']. apply Hne. eapply B; eassumption.
    + rewrite fset_other by exact Hs. specialize (C s). destruct (f s).
      * destruct C as (k' & y & Hy & Hny & Hsy & Hcy). exists k', y. split; [|auto].
        rewrite (changed_frame _ _ _ _ _ _ _ Hch); [exact Hy|]. intros [= ->]. congruence.
      * intros k' y Hy. eapply C, Hcase, Hy.
Qed.

(** What a lookup by scope and name finds. *)
Definition foundAt (f : ConfigurationScope -> option string) (s : ConfigurationScope) (o : option V) (db : DB) : Prop :=
  f s = option_map content o /\
  forall x, o = Some x -> peek c (idOf x) db = Some x /\ named x = true /\ scopeOf x = s.

Lemma slots_find f s l db :
  slots f db -> enumerates c (fun x => bool_decide (scopeOf x = s) && named x) db l -> foundAt f s (head l) db.
Proof.
  intros (A & B & C) Hl. pose proof (fun x => enumerates_in _ _ _ _ x Hl) as Hin. specialize (C s).
  destruct l as [|x l]; cbn [head option_map].
  - split; [|discriminate]. destruct (f s) as [t|]; [|reflexivity]. destruct C as (k & y & Hy & Hny & Hsy & _).
    exfalso. apply (not_elem_of_nil y), Hin. exists k. split; [exact Hy|]. rewrite bool_decide_eq_true_2 by exact Hsy. exact Hny.
  - destruct (proj1 (Hin x)) as (k & Hk & Hp); [left|]. bool_hyps. split.
    + destruct (f s) as [t|].
      * destruct C as (k' & y & Hy & Hny & Hsy & <-). assert (k' = k) as -> by (eapply B; try eassumption; congruence).
        cbn. congruence.
      * exfalso. eapply C; eassumption.
    + intros y [= <-]. rewrite (A _ _ Hk). auto.
Qed.
End slots.

(** ** What a scope has configured *)

Record Setting := mkSetting {
  st_text : option string;
  st_ref : option string }.

Definition selectionSlot (v : ConfigurationVariable) : bool := String.eqb (cv_name v) INTELLIGENCE_SELECTION_NAME.
Definition credentialSlot (b : ConfigurationSecret) : bool := String.eqb (cb_name b) INTELLIGENCE_CREDENTIAL_NAME.

Definition same {A} (a b : option A) : bool :=
  match a, b with Some _, Some _ | None, None => true | _, _ => false end.

Section spec.
Variable parseEndpoint : string -> option EndpointURL.
Variable jsonParse : string -> option jsval.
Variable stringOfValue : jsval -> string.

Definition currentSelection (st : Setting) : outcome (option IntelligenceSelection) :=
  match st_text st with
  | None => Ok None
  | Some t => match parseSelection jsonParse t with Ok s => Ok (Some s) | Throw e => Throw e end
  end.

(** The known provider and the selection of a setting. *)
Definition configured (st : Setting) : option (IntelligenceProvider * IntelligenceSelection) :=
  match currentSelection st with
  | Ok (Some s) => match getIntelligenceProvider (JStr (sl_provider s)) with Some p => Some (p, s) | None => None end
  | _ => None
  end.

(** Where the requests of a setting, and its credential with them, go. *)
Definition destinationOf (st : Setting) : option (string * string) :=
  match configured st with Some (p, s) => Some (ip_id p, resolveEndpoint p (sl_endpoint s)) | None => None end.

Definition isSome {A} (o : option A) : bool := match o with Some _ => true | None => false end.

(** [set]: the credential given, else the one in place if the destination
    does not change; none where the provider needs one is an error. *)
Definition specSet (selection : IntelligenceSelection) (ref : option string) (st : Setting) : option Setting :=
  match currentSelection st, getIntelligenceProvider (JStr (sl_provider selection)) with
  | Ok current, Some p =>
      let kept := if destinationChanged p current selection then None else st_ref st in
      let ref' := match ref with Some r => Some r | None => kept end in
      if bool_decide (ip_credential p = CredentialNone) && isSome ref then None
      else if bool_decide (ip_credential p = CredentialRequired) && negb (isSome ref') then None
      else Some (mkSetting (Some (stringifySelection selection)) ref')
  | _, _ => None
  end.

Definition specSetCredential (ref : string) (st : Setting) : option Setting :=
  match configured st with
  | Some (p, _) => if bool_decide (ip_credential p = CredentialNone) then None else Some (mkSetting (st_text st) (Some ref))
  | None => None
  end.

Definition specRemove (st : Setting) : option Setting :=
  match configured st with
  | Some (p, _) => if bool_decide (ip_credential p = CredentialRequired) then None else Some (mkSetting (st_text st) None)
  | None => None
  end.

(** What a client is shown of a setting, the time of the change aside. *)
Definition viewSpec (environment : ConfigurationEnvironment) (st : Setting) : option IntelligenceConfigurationView :=
  match currentSelection st with
  | Throw _ => None
  | Ok None => Some (Unconfigured environment)
  | Ok (Some s) => match viewOf environment s "" (isSome (st_ref st)) with Ok v => Some v | Throw _ => None end
  end.

Definition runtimeSpec (st : Setting) : option (option IntelligenceRuntimeConfiguration) :=
  match currentSelection st with
  | Throw _ => None
  | Ok None => Some None
  | Ok (Some s) =>
      match getIntelligenceProvider (JStr (sl_provider s)) with
      | Some p => Some (Some (mkRuntime (ip_id p) (ip_protocol p) (sl_model s) (resolveEndpoint p (sl_endpoint s)) (st_ref st)))
      | None => None
      end
  end.

(** ** Requests *)

Inductive IntelligenceRequest :=
| SetIntelligence (input : IntelligenceWriteInput)
| SetCredential (input : IntelligenceCredentialInput)
| RemoveCredential (scope : Scope)
| GetIntelligence (scope : Scope)
| ResolveRuntime (scope : Scope)
| ListCatalog (scope : Scope).

Inductive IntelligenceAnswer :=
| AnView (v : IntelligenceConfigurationView)
| AnRuntime (r : option IntelligenceRuntimeConfiguration)
| AnCatalog (l : list IntelligenceProvider).

Definition undated (a : IntelligenceAnswer) : IntelligenceAnswer :=
  match a with
  | AnView (Configured env p m cu url req cred _) => AnView (Configured env p m cu url req cred "")
  | _ => a
  end.

Definition intelligenceScope (rq : IntelligenceRequest) : Scope :=
  match rq with
  | SetIntelligence i => iw_scope i
  | SetCredential i => ic_scope i
  | RemoveCredential s | GetIntelligence s | ResolveRuntime s | ListCatalog s => s
  end.

(** The credential a request hands over. *)
Definition handsOver (rq : IntelligenceRequest) : option string :=
  match rq with
  | SetIntelligence i => match optionalRef (iw_credentialRef i) with Ok ref => ref | Throw _ => None end
  | SetCredential i => match requireCredentialRef (ic_credentialRef i) "credentialRef" with Ok ref => Some ref | Throw _ => None end
  | _ => None
  end.

(** The step a request makes on the setting of its scope, and its answer. *)
Definition specIntelligence (environment : ConfigurationEnvironment) (rq : IntelligenceRequest) (st : Setting)
  : option (Setting * IntelligenceAnswer) :=
  let shown st' := match viewSpec environment st' with Some v => Some (st', AnView v) | None => None end in
  match rq with
  | SetIntelligence i =>
      match rejectRawCredentialFields (si_own (iw_scope i)), validateSelection parseEndpoint stringOfValue i, optionalRef (iw_credentialRef i) with
      | Ok _, Ok selection, Ok ref =>
          match specSet selection ref st with Some st' => shown st' | None => None end
      | _, _, _ => None
      end
  | SetCredential i =>
      match rejectRawCredentialFields (si_own (ic_scope i)), handsOver rq with
      | Ok _, Some ref => match specSetCredential ref st with Some st' => shown st' | None => None end
      | _, _ => None
      end
  | RemoveCredential _ => match specRemove st with Some st' => shown st' | None => None end
  | GetIntelligence _ => shown st
  | ResolveRuntime _ => match runtimeSpec st with Some r => Some (st, AnRuntime r) | None => None end
  | ListCatalog _ => Some (st, AnCatalog INTELLIGENCE_CATALOG)
  end.
End spec.

Section facts.
Context {DB : Type} `{FeltDBLaws DB}.
Variable parseEndpoint : string -> option EndpointURL.
Variable jsonParse : string -> option jsval.
Variable stringOfValue : jsval -> string.
Implicit Types w : World DB.

(** The store holds the settings [st] of all scopes. *)
Definition stands (st : ConfigurationScope -> Setting) (db : DB) : Prop :=
  slots CVariables cv_id cv_scope selectionSlot cv_value (fun s => st_text (st s)) db /\
  slots CBindings cb_id cb_scope credentialSlot cb_credentialRef (fun s => st_ref (st s)) db.

Lemma slots_ext {V} (c : coll V) idOf scopeOf named content f f' db :
  (forall s, f s = f' s) -> slots c idOf scopeOf named content f db -> slots c idOf scopeOf named content f' db.
Proof. intros E (A & B & C). split; [exact A|]. split; [exact B|]. intros s. rewrite <- E. apply C. Qed.

Lemma fset_proj {A} (p : Setting -> A) s a st s' : fset s (p a) (fun s => p (st s)) s' = p (fset s a st s').
Proof. unfold fset. now destruct (bool_decide _). Qed.

Lemma fset_keep {A} (p : Setting -> A) s a st s' : p (st s) = p a -> p (st s') = p (fset s a st s').
Proof. unfold fset. intros E. destruct (bool_decide _) eqn:Ed; [|reflexivity]. apply bool_decide_eq_true in Ed as ->. exact E. Qed.

(** One row of the selection or of the credential changed. *)
Lemma stands_text s t st db db' :
  slots CVariables cv_id cv_scope selectionSlot cv_value (fset s (Some t) (fun s => st_text (st s))) db' ->
  (forall k, peek CBindings k db' = peek CBindings k db) -> stands st db ->
  stands (fset s (mkSetting (Some t) (st_ref (st s))) st) db'.
Proof.
  intros Hv Hb [_ HB]. split.
  - eapply slots_ext; [|exact Hv]. intros s'. apply (fset_proj st_text s (mkSetting (Some t) (st_ref (st s)))).
  - eapply slots_ext; [|eapply slots_frame; [exact Hb | exact HB]]. intros s'. now apply (fset_keep st_ref).
Qed.

Lemma stands_ref s o st db db' :
  slots CBindings cb_id cb_scope credentialSlot cb_credentialRef (fset s o (fun s => st_ref (st s))) db' ->
  (forall k, peek CVariables k db' = peek CVariables k db) -> stands st db ->
  stands (fset s (mkSetting (st_text (st s)) o) st) db'.
Proof.
  intros Hb Hv [HV _]. split.
  - eapply slots_ext; [|eapply slots_frame; [exact Hv | exact HV]]. intros s'. now apply (fset_keep st_text).
  - eapply slots_ext; [|exact Hb]. intros s'. apply (fset_proj st_ref s (mkSetting (st_text (st s)) o)).
Qed.

Lemma stands_frame st db db' :
  (forall k, peek CVariables k db' = peek CVariables k db) -> (forall k, peek CBindings k db' = peek CBindings k db) ->
  stands st db -> stands st db'.
Proof. intros A B [HV HB]. split; eapply slots_frame; eassumption. Qed.

(** A step of an effect: evidence stays, and the settings are [st']. *)
Definition went (w : World DB) (st' : ConfigurationScope -> Setting) (w' : World DB) : Prop :=
  calm w' /\ after w w' /\ w_resolved w' = w_resolved w /\
  (forall k row, peek CEvidence k (w_db w) = Some row -> peek CEvidence k (w_db w') = Some row) /\ stands st' (w_db w').

Lemma went_trans w1 st2 w2 st3 w3 : went w1 st2 w2 -> went w2 st3 w3 -> went w1 st3 w3.
Proof.
  intros (_ & A1 & R1 & E1 & _) (C & A2 & R2 & E2 & S). split; [exact C|]. split; [etransitivity; eassumption|].
  split; [congruence|]. split; [auto | exact S].
Qed.

Lemma went_later st w w' : calm w' -> later w w' -> w_db w' = w_db w -> stands st (w_db w) -> went w st w'.
Proof.
  intros Hc Hl Hd Hs. unfold went. rewrite Hd. split; [exact Hc|]. split; [now apply later_after|].
  split; [apply later_resolved, Hl | auto].
Qed.

Lemma went_refl st w : calm w -> stands st (w_db w) -> went w st w.
Proof. intros Hc. now apply went_later. Qed.

Lemma went_changed {V} (c : coll V) k o st w w' :
  calm w' -> later w w' -> changed c k o (w_db w) (w_db w') -> cname c <> cname CEvidence -> stands st (w_db w') -> went w st w'.
Proof.
  intros Hc Hl Hch Hne Hs. split; [exact Hc|]. split; [now apply later_after|]. split; [apply later_resolved, Hl|].
  split; [|exact Hs]. intros k' row Hk. now rewrite (changed_frame _ _ _ _ _ _ _ Hch) by congruence.
Qed.

Lemma wp_recordIntelligence type scope name secret actor operation cfg st w :
  calm w -> stands st (w_db w) ->
  wp (recordIntelligence type scope name secret actor operation cfg)
    (fun o w' => o = Ok tt /\ went w st w' /\ forall k, peek CVariables k (w_db w') = peek CVariables k (w_db w)) w.
Proof.
  intros Hc Hs. unfold recordIntelligence. apply wp_bind, wpc_uuid; [exact Hc|]. intros id w1 _ Ho Hc1 Hl1 Hd1.
  apply wp_bind, wpc_nowIso; [exact Hc1|]. intros t at_ w2 _ _ Hc2 Hl2 Hd2.
  unfold auditConfiguration. cbn [ca_id]. apply wpc_insert; [exact Hc2 | eapply owned_ctl; eassumption|].
  intros w3 Hc3 Hl3 Hch. split; [reflexivity|]. rewrite Hd2, Hd1 in Hch.
  split; [|intros k; apply (changed_frame _ _ _ _ _ _ _ Hch); discriminate].
  eapply went_changed; [exact Hc3 | later_tac | exact Hch | discriminate|].
  eapply stands_frame; [..|exact Hs]; intros k; apply (changed_frame _ _ _ _ _ _ _ Hch); discriminate.
Qed.

(** Write, then record. *)
Lemma wp_thenRecordIntelligence type scope name secret actor operation cfg st w w1 :
  went w st w1 ->
  wp (recordIntelligence type scope name secret actor operation cfg)
    (fun o w' => o = Ok tt /\ went w st w' /\ forall k, peek CVariables k (w_db w') = peek CVariables k (w_db w1)) w1.
Proof.
  intros Hw. pose proof Hw as (Hc1 & _ & _ & _ & Hs1). eapply wp_mono; [apply (wp_recordIntelligence _ _ _ _ _ _ _ st w1); assumption|].
  intros o w2 (-> & Hw2 & Hv). split; [reflexivity|]. split; [eapply went_trans; eassumption | exact Hv].
Qed.

(** The same where a binding was written: the variables are as they were. *)
Lemma wp_bindingRecorded k o type scope name secret actor operation cfg st w w1 :
  went w st w1 -> changed CBindings k o (w_db w) (w_db w1) ->
  wp (recordIntelligence type scope name secret actor operation cfg)
    (fun o w' => o = Ok tt /\ went w st w' /\ forall k, peek CVariables k (w_db w') = peek CVariables k (w_db w)) w1.
Proof.
  intros Hw Hch. eapply wp_mono; [eapply wp_thenRecordIntelligence, Hw|]. intros o' w2 (-> & Hw2 & Hv).
  split; [reflexivity|]. split; [exact Hw2|]. intros k'. rewrite Hv. apply (changed_frame _ _ _ _ _ _ _ Hch). discriminate.
Qed.

#[local] Abbreviation variableAt := (foundAt CVariables cv_id cv_scope selectionSlot cv_value).
#[local] Abbreviation bindingAt := (foundAt CBindings cb_id cb_scope credentialSlot cb_credentialRef).

Lemma wp_saveSelection owned current selection actor st w :
  calm w -> stands st (w_db w) -> variableAt (fun s => st_text (st s)) owned current (w_db w) ->
  wp (saveSelection owned current selection actor)
    (fun o w' => o = Ok tt /\ went w (fset owned (mkSetting (Some (stringifySelection selection)) (st_ref (st owned))) st) w') w.
Proof.
  intros Hc Hs [Hf Hcur]. unfold saveSelection. apply wp_bind, wpc_nowIso; [exact Hc|].
  intros t at_ w1 _ _ Hc1 Hl1 Hd1. destruct current as [c|].
  - destruct (Hcur c eq_refl) as (Hk & Hn & Hsc). rewrite <- Hd1 in Hk. unfold saveVariable. apply wp_bind, wp_bind.
    match goal with |- context [updateIfVersion CVariables ?i _ _] => change i with (cv_id c) end.
    change (cv_version c) with (getVersion CVariables c). apply (wpc_cas CVariables (cv_id c) c); [exact Hc1 | exact Hk|].
    cbv zeta. intros w2 Hc2 Hl2 Hch. apply wp_ret. rewrite Hd1 in Hch, Hk.
    eapply wp_mono; [apply wp_thenRecordIntelligence with (w := w) | intros o w3 (-> & Hw3 & _); split; [reflexivity | exact Hw3]].
    eapply went_changed; [exact Hc2 | later_tac | exact Hch | discriminate|].
    eapply stands_text; [|intros k; apply (changed_frame _ _ _ _ _ _ _ Hch); discriminate | exact Hs].
    eapply slots_put; [apply Hs | exact Hch | exact Hsc | reflexivity | reflexivity | exact Hn | |].
    + right. exists c. auto.
    + rewrite Hk. reflexivity.
  - apply wp_bind, wpc_uuid; [exact Hc1|]. intros id w2 _ Ho Hc2 Hl2 Hd2. unfold saveVariable. cbn [cv_id].
    apply wp_bind, wp_bind, wpc_insert; [exact Hc2 | exact Ho|]. intros w3 Hc3 Hl3 Hch. apply wp_ret.
    destruct Ho as [_ Ho]. rewrite Hd2, Hd1 in Hch. specialize (Ho _ CVariables). rewrite Hd2, Hd1 in Ho.
    eapply wp_mono; [apply wp_thenRecordIntelligence with (w := w) | intros o w4 (-> & Hw4 & _); split; [reflexivity | exact Hw4]].
    eapply went_changed; [exact Hc3 | later_tac | exact Hch | discriminate|].
    eapply stands_text; [|intros k; apply (changed_frame _ _ _ _ _ _ _ Hch); discriminate | exact Hs].
    eapply slots_put; [apply Hs | exact Hch | reflexivity | reflexivity | reflexivity | reflexivity | left; exact Hf|].
    rewrite Ho. exact I.
Qed.

Lemma wp_bindCredential owned current ref actor st w :
  calm w -> stands st (w_db w) -> bindingAt (fun s => st_ref (st s)) owned current (w_db w) ->
  wp (bindCredential owned current ref actor)
    (fun o w' => o = Ok tt /\ went w (fset owned (mkSetting (st_text (st owned)) (Some ref)) st) w' /\
       forall k, peek CVariables k (w_db w') = peek CVariables k (w_db w)) w.
Proof.
  intros Hc Hs [Hf Hcur]. unfold bindCredential. apply wp_bind, wpc_nowIso; [exact Hc|].
  intros t at_ w1 _ _ Hc1 Hl1 Hd1. destruct current as [c|].
  - destruct (Hcur c eq_refl) as (Hk & Hn & Hsc). rewrite <- Hd1 in Hk. unfold saveSecret. apply wp_bind, wp_bind.
    match goal with |- context [updateIfVersion CBindings ?i _ _] => change i with (cb_id c) end.
    change (cb_version c) with (getVersion CBindings c). apply (wpc_cas CBindings (cb_id c) c); [exact Hc1 | exact Hk|].
    cbv zeta. intros w2 Hc2 Hl2 Hch. apply wp_ret. rewrite Hd1 in Hch, Hk. eapply wp_bindingRecorded; [|exact Hch].
    eapply went_changed; [exact Hc2 | later_tac | exact Hch | discriminate|].
    eapply stands_ref; [|intros k; apply (changed_frame _ _ _ _ _ _ _ Hch); discriminate | exact Hs].
    eapply slots_put; [apply Hs | exact Hch | exact Hsc | reflexivity | reflexivity | exact Hn | |].
    + right. exists c. auto.
    + rewrite Hk. reflexivity.
  - apply wp_bind, wpc_uuid; [exact Hc1|]. intros id w2 _ Ho Hc2 Hl2 Hd2. unfold saveSecret. cbn [cb_id].
    apply wp_bind, wp_bind, wpc_insert; [exact Hc2 | exact Ho|]. intros w3 Hc3 Hl3 Hch. apply wp_ret.
    destruct Ho as [_ Ho]. rewrite Hd2, Hd1 in Hch. specialize (Ho _ CBindings). rewrite Hd2, Hd1 in Ho. eapply wp_bindingRecorded; [|exact Hch].
    eapply went_changed; [exact Hc3 | later_tac | exact Hch | discriminate|].
    eapply stands_ref; [|intros k; apply (changed_frame _ _ _ _ _ _ _ Hch); discriminate | exact Hs].
    eapply slots_put; [apply Hs | exact Hch | reflexivity | reflexivity | reflexivity | reflexivity | left; exact Hf|].
    rewrite Ho. exact I.
Qed.

Lemma wp_detachCredential owned c actor st w :
  calm w -> stands st (w_db w) -> bindingAt (fun s => st_ref (st s)) owned (Some c) (w_db w) ->
  wp (detachCredential c actor)
    (fun o w' => o = Ok tt /\ went w (fset owned (mkSetting (st_text (st owned)) None) st) w' /\
       forall k, peek CVariables k (w_db w') = peek CVariables k (w_db w)) w.
Proof.
  intros Hc Hs [Hf Hcur]. destruct (Hcur c eq_refl) as (Hk & Hn & Hsc). unfold detachCredential, deleteSecret.
  apply wp_bind. apply wpc_remove; [exact Hc | eauto|]. intros w1 Hc1 Hl1 Hch. eapply wp_bindingRecorded; [|exact Hch].
  eapply went_changed; [exact Hc1 | exact Hl1 | exact Hch | discriminate|].
  eapply stands_ref; [|intros k; apply (changed_frame _ _ _ _ _ _ _ Hch); discriminate | exact Hs].
  rewrite <- Hsc. eapply (slots_remove CBindings cb_id cb_scope credentialSlot cb_credentialRef); [apply Hs | exact Hch | exact Hk | exact Hn].
Qed.

(** What loading a scope finds. *)
Lemma wp_load owned st Q w :
  calm w -> stands st (w_db w) ->
  (forall ov ob, variableAt (fun s => st_text (st s)) owned ov (w_db w) -> bindingAt (fun s => st_ref (st s)) owned ob (w_db w) ->
     match currentSelection jsonParse (st owned) with
     | Ok sel => isSome sel = isSome ov -> Q (Ok (mkLoaded ov ob sel)) w
     | Throw e => Q (Throw e) w
     end) ->
  wp (load jsonParse owned) Q w.
Proof.
  intros Hc [HV HB] HQ. unfold load, getVariable, getSecret.
  apply wp_bind, wp_bind, wpc_find; [exact Hc|]. intros lv Hlv. apply wp_ret.
  apply wp_bind, wp_bind, wpc_find; [exact Hc|]. intros lb Hlb. apply wp_ret.
  pose proof (slots_find CVariables cv_id cv_scope selectionSlot cv_value _ owned lv _ HV Hlv) as Fv.
  pose proof (slots_find CBindings cb_id cb_scope credentialSlot cb_credentialRef _ owned lb _ HB Hlb) as Fb.
  specialize (HQ _ _ Fv Fb). unfold currentSelection in HQ. rewrite (proj1 Fv) in HQ.
  apply wp_bind. destruct (head lv) as [v|]; cbn [option_map] in HQ.
  - apply wp_bind, wp_outcome. destruct (parseSelection jsonParse (cv_value v)) as [s|e]; [|exact HQ].
    apply wp_ret, wp_ret, HQ. reflexivity.
  - apply wp_ret, wp_ret, HQ. reflexivity.
Qed.

Lemma stored_ref st owned ob (db : DB) :
  bindingAt (fun s => st_ref (st s)) owned ob db -> st_ref (st owned) = option_map cb_credentialRef ob.
Proof. intros [E _]. exact E. Qed.

(** An effect that changes nothing and ends in [o]. *)
Definition ends {A} (o : outcome A) st (w : World DB) : outcome A -> World DB -> Prop := fun o' w' => o' = o /\ went w st w'.

Lemma viewOf_dated environment s at_ credential v :
  viewOf environment s "" credential = Ok v -> exists v', viewOf environment s at_ credential = Ok v' /\ undated (AnView v') = AnView v.
Proof.
  unfold viewOf. destruct (getIntelligenceProvider _) as [p|]; [|discriminate]. intros [= <-]. eexists. split; reflexivity.
Qed.

(** The setting [st'] of a scope is shown as [o], but for the time. *)
Definition shows environment (st' : Setting) (o : outcome IntelligenceConfigurationView) : Prop :=
  exists v, viewSpec jsonParse environment st' = Some v /\ exists v', o = Ok v' /\ undated (AnView v') = AnView v.

Lemma shows_selection environment st' s p at_ credential :
  currentSelection jsonParse st' = Ok (Some s) -> getIntelligenceProvider (JStr (sl_provider s)) = Some p ->
  credential = isSome (st_ref st') -> shows environment st' (viewOf environment s at_ credential).
Proof.
  intros Ec Ep ->. unfold shows, viewSpec. rewrite Ec. destruct (viewOf environment s "" _) as [v|e] eqn:Ev.
  - exists v. split; [reflexivity | now apply viewOf_dated].
  - unfold viewOf in Ev. rewrite Ep in Ev. discriminate Ev.
Qed.

(** [JSON.parse] reads back the selections this program writes. *)
Definition selectionFields (s : IntelligenceSelection) : list (string * jsval) :=
  [("provider", JStr (sl_provider s)); ("model", JStr (sl_model s))] ++
  match sl_endpoint s with Some e => [("endpoint", JStr e)] | None => [] end.

Definition readsBack : Prop := forall s, jsonParse (stringifySelection s) = Some (JObj (selectionFields s)).

(** A selection as it is read back: an empty endpoint is none. *)
Definition readSelection (s : IntelligenceSelection) : IntelligenceSelection :=
  mkSelection (sl_provider s) (sl_model s) (ifPresent (sl_endpoint s)).

Lemma currentSelection_written s ref :
  readsBack -> currentSelection jsonParse (mkSetting (Some (stringifySelection s)) ref) = Ok (Some (readSelection s)).
Proof.
  intros Hj. unfold currentSelection, parseSelection. cbn [st_text]. rewrite Hj. unfold readSelection, selectionFields.
  destruct (sl_endpoint s) as [e|]; reflexivity.
Qed.

Lemma resolveEndpoint_read p o : resolveEndpoint p (ifPresent o) = resolveEndpoint p o.
Proof. unfold resolveEndpoint. now rewrite ifPresent_idem. Qed.

Lemma viewOf_read environment s at_ credential : viewOf environment (readSelection s) at_ credential = viewOf environment s at_ credential.
Proof. unfold viewOf. cbn [sl_provider sl_endpoint sl_model readSelection]. destruct (getIntelligenceProvider _) as [p|]; [|reflexivity]. now rewrite resolveEndpoint_read, ifPresent_idem. Qed.

(** The credential of a scope, as [set] leaves it: the one given, else the
    one in place or none. *)
Definition refAfter (ref : option string) (keep : bool) (old : option string) : option string :=
  match ref with Some r => Some r | None => if keep then old else None end.

Lemma stands_same owned st r (db : DB) :
  r = st_ref (st owned) -> stands st db -> stands (fset owned (mkSetting (st_text (st owned)) r) st) db.
Proof.
  intros -> Hs. split; (eapply slots_ext; [|apply Hs]); intros s'; [apply (fset_keep st_text) | apply (fset_keep st_ref)]; reflexivity.
Qed.

Lemma wp_settleCredential owned ob ref keep actor st w :
  calm w -> stands st (w_db w) -> bindingAt (fun s => st_ref (st s)) owned ob (w_db w) ->
  wp (match ob with Some b => if negb (isSome ref) && negb keep then detachCredential b actor else mret tt | None => mret tt end)
    (fun o w1 => o = Ok tt /\ wp (match ref with Some r => bindCredential owned ob r actor | None => mret tt end)
       (fun o w' => o = Ok tt /\ went w (fset owned (mkSetting (st_text (st owned)) (refAfter ref keep (st_ref (st owned)))) st) w' /\
          forall k, peek CVariables k (w_db w') = peek CVariables k (w_db w)) w1) w.
Proof.
  intros Hc Hs Fb. pose proof (stored_ref _ _ _ _ Fb) as Er.
  assert (forall r, r = st_ref (st owned) -> went w (fset owned (mkSetting (st_text (st owned)) r) st) w) as Hsame.
  { intros r E. apply went_refl; [exact Hc | now apply stands_same]. }
  destruct ref as [r|]; cbn [isSome negb andb refAfter].
  - assert (wp (bindCredential owned ob r actor) (fun o w' => o = Ok tt /\
      went w (fset owned (mkSetting (st_text (st owned)) (Some r)) st) w' /\
      forall k, peek CVariables k (w_db w') = peek CVariables k (w_db w)) w) as Hb by (eapply wp_bindCredential; eassumption).
    destruct ob; now apply wp_ret.
  - destruct ob as [b|]; [destruct keep; cbn [negb]|].
    + apply wp_ret. split; [reflexivity|]. apply wp_ret. auto.
    + eapply wp_mono; [eapply wp_detachCredential; eassumption|]. intros o w1 (-> & Hw1 & Hv). split; [reflexivity|]. now apply wp_ret.
    + apply wp_ret. split; [reflexivity|]. apply wp_ret. split; [reflexivity|]. split; [|auto]. apply Hsame. rewrite Er.
      now destruct keep.
Qed.

Lemma foundAt_frame {V} (c : coll V) idOf scopeOf named content f f' s o (db db' : DB) :
  f' s = f s -> (forall k, peek c k db' = peek c k db) -> foundAt c idOf scopeOf named content f s o db ->
  foundAt c idOf scopeOf named content f' s o db'.
Proof. intros Es Hp [E F]. split; [congruence|]. intros x Hx. rewrite Hp. now apply F. Qed.

Lemma went_stands w st w' : went w st w' -> calm w' /\ stands st (w_db w').
Proof. intros (Hc & _ & _ & _ & Hs). auto. Qed.

Lemma fset_fset {A} s (a b : A) f s' : fset s b (fset s a f) s' = fset s b f s'.
Proof. unfold fset. now destruct (bool_decide (s' = s)). Qed.

Lemma went_ext w st st' w' : (forall s, st s = st' s) -> went w st w' -> went w st' w'.
Proof.
  intros E (A & B & C & D & [F G]). split; [exact A|]. split; [exact B|]. split; [exact C|]. split; [exact D|].
  split; (eapply slots_ext; [|eassumption]); intros s; cbn beta; now rewrite E.
Qed.

Lemma wp_setEffect owned selection ref p actor st w :
  readsBack -> calm w -> stands st (w_db w) -> getIntelligenceProvider (JStr (sl_provider selection)) = Some p ->
  wp (setEffect jsonParse owned selection ref p actor) (fun o w' =>
    match specSet jsonParse selection ref (st owned) with
    | None => (exists e, o = Throw e) /\ went w st w'
    | Some s' => shows (sc_environment owned) s' o /\ went w (fset owned s' st) w'
    end) w.
Proof.
  intros Hj Hc Hs Hp. pose proof (went_refl st w Hc Hs) as Hw0. unfold setEffect, specSet. rewrite Hp.
  apply wp_bind, (wp_load owned st); [exact Hc | exact Hs|]. intros ov ob Fv Fb.
  destruct (currentSelection jsonParse (st owned)) as [cur|e]; [|eauto]. intros _. cbn [lo_secret lo_selection lo_variable].
  change (match ref with Some _ => true | None => false end) with (isSome ref).
  change (match ob with Some _ => true | None => false end) with (isSome ob).
  destruct (bool_decide (ip_credential p = CredentialNone) && isSome ref); [apply wp_throw; eauto|].
  set (changed := destinationChanged p cur selection). set (keep := isSome ob && negb (isSome ref) && negb changed).
  set (ref' := refAfter ref keep (st_ref (st owned))).
  assert ((match ref with Some r => Some r | None => if changed then None else st_ref (st owned) end) = ref') as ->.
  { subst ref' keep. unfold refAfter. rewrite (stored_ref _ _ _ _ Fb). destruct ref, ob, changed; reflexivity. }
  assert (isSome ref || keep = isSome ref') as Eref.
  { subst ref' keep. unfold refAfter. rewrite (stored_ref _ _ _ _ Fb). destruct ref, ob, changed; reflexivity. }
  assert (bool_decide (ip_credential p = CredentialRequired) && negb (isSome ref) && negb keep
    = bool_decide (ip_credential p = CredentialRequired) && negb (isSome ref')) as -> by now rewrite <- Eref, negb_orb, andb_assoc.
  destruct (bool_decide (ip_credential p = CredentialRequired) && negb (isSome ref')); [apply wp_throw; eauto|].
  apply wp_bind. eapply wp_mono; [exact (wp_settleCredential owned ob ref keep actor st w Hc Hs Fb)|].
  intros o w1 [-> Hb]. apply wp_bind. eapply wp_mono; [exact Hb|]. intros o w2 (-> & Hw2 & Hv). fold ref' in Hw2.
  destruct (went_stands _ _ _ Hw2) as [Hc2 Hs2]. apply wp_bind. eapply wp_mono.
  { apply (wp_saveSelection owned ov selection actor _ w2 Hc2 Hs2). eapply foundAt_frame; [|exact Hv | exact Fv].
    cbn beta. now rewrite fset_same. }
  intros o w3 [-> Hw3]. rewrite fset_same in Hw3. cbn [st_ref] in Hw3. pose proof (went_trans _ _ _ _ _ Hw2 Hw3) as Hw.
  destruct (went_stands _ _ _ Hw) as [Hc3 Hs3]. apply wp_bind, wpc_nowIso; [exact Hc3|]. intros t at_ w4 _ _ Hc4 Hl4 Hd4.
  apply wp_outcome. split.
  - rewrite <- viewOf_read, Eref. eapply shows_selection; [now apply currentSelection_written | exact Hp | reflexivity].
  - eapply went_ext; [intros s; apply (fset_fset owned (mkSetting (st_text (st owned)) ref'))|].
    eapply went_trans; [exact Hw|]. apply went_later; [exact Hc4 | exact Hl4 | exact Hd4 | exact Hs3].
Qed.

(** An effect on the scope [owned] that does what [spec] says. *)
Definition follows {A} (answer : A -> IntelligenceAnswer) (spec : option (Setting * IntelligenceAnswer)) owned st (w : World DB)
  (o : outcome A) (w' : World DB) : Prop :=
  match spec with
  | None => (exists e, o = Throw e) /\ went w st w'
  | Some (s', a) => (exists x, o = Ok x /\ undated (answer x) = a) /\ went w (fset owned s' st) w'
  end.

(** The answer that shows the setting. *)
Definition shown environment (st' : Setting) : option (Setting * IntelligenceAnswer) :=
  match viewSpec jsonParse environment st' with Some v => Some (st', AnView v) | None => None end.

Lemma shown_follows owned s' st w o w' :
  shows (sc_environment owned) s' o -> went w (fset owned s' st) w' ->
  follows AnView (shown (sc_environment owned) s') owned st w o w'.
Proof. intros (v & Ev & v' & -> & Eu) Hw. unfold follows, shown. rewrite Ev. eauto. Qed.

Lemma fset_id s (st : ConfigurationScope -> Setting) s' : st s' = fset s (st s) st s'.
Proof. unfold fset. destruct (bool_decide _) eqn:E; [|reflexivity]. now apply bool_decide_eq_true in E as ->. Qed.

Lemma went_id owned w st w' : went w st w' -> went w (fset owned (st owned) st) w'.
Proof. apply went_ext. intros s. apply fset_id. Qed.

Lemma wp_setFollows owned selection ref p actor st w :
  readsBack -> calm w -> stands st (w_db w) -> getIntelligenceProvider (JStr (sl_provider selection)) = Some p ->
  wp (setEffect jsonParse owned selection ref p actor)
    (follows AnView (match specSet jsonParse selection ref (st owned) with Some s' => shown (sc_environment owned) s' | None => None end)
       owned st w) w.
Proof.
  intros Hj Hc Hs Hp. eapply wp_mono; [apply (wp_setEffect owned selection ref p actor st w); assumption|]. intros o w' Ho.
  destruct (specSet _ _ _ _) as [s'|]; [|exact Ho]. destruct Ho. now apply shown_follows.
Qed.

Lemma wp_getFollows owned st w :
  calm w -> stands st (w_db w) ->
  wp (getEffect jsonParse owned) (follows AnView (shown (sc_environment owned) (st owned)) owned st w) w.
Proof.
  intros Hc Hs. pose proof (went_refl st w Hc Hs) as Hw0. unfold getEffect.
  apply wp_bind, (wp_load owned st); [exact Hc | exact Hs|]. intros ov ob Fv Fb. unfold follows, shown, viewSpec.
  destruct (currentSelection jsonParse (st owned)) as [[s|]|e] eqn:Ec; cbn [lo_selection lo_variable lo_secret]; [..|eauto].
  - intros Hsv. destruct ov as [v|]; [|discriminate Hsv]. apply wp_outcome. rewrite (stored_ref _ _ _ _ Fb).
    replace (match ob with Some _ => true | None => false end) with (isSome (option_map cb_credentialRef ob)) by now destruct ob.
    destruct (viewOf (sc_environment owned) s "" _) as [v'|e] eqn:Ev.
    + destruct (viewOf_dated _ _ (cv_updatedAt v) _ _ Ev) as (v2 & -> & Eu). split; [eauto | now apply went_id].
    + split; [|exact Hw0]. unfold viewOf in *. destruct (getIntelligenceProvider _); [discriminate | eauto].
  - intros _. apply wp_ret. split; [eauto | now apply went_id].
Qed.

Lemma wp_resolveFollows owned st w :
  calm w -> stands st (w_db w) ->
  wp (resolveEffect jsonParse owned)
    (follows AnRuntime (match runtimeSpec jsonParse (st owned) with Some r => Some (st owned, AnRuntime r) | None => None end) owned st w) w.
Proof.
  intros Hc Hs. pose proof (went_refl st w Hc Hs) as Hw0. unfold resolveEffect.
  apply wp_bind, (wp_load owned st); [exact Hc | exact Hs|]. intros ov ob Fv Fb. unfold follows, runtimeSpec.
  destruct (currentSelection jsonParse (st owned)) as [[s|]|e]; cbn [lo_selection lo_secret]; [intros _ | intros _ | eauto].
  - destruct (getIntelligenceProvider _) as [p|]; [|apply wp_throw; eauto]. apply wp_ret. split; [|now apply went_id].
    eexists. split; [reflexivity|]. cbn. now rewrite (stored_ref _ _ _ _ Fb).
  - apply wp_ret. split; [eauto | now apply went_id].
Qed.

Lemma wp_setCredentialFollows owned ref actor st w :
  calm w -> stands st (w_db w) ->
  wp (setCredentialEffect jsonParse owned ref actor)
    (follows AnView (match specSetCredential jsonParse ref (st owned) with Some s' => shown (sc_environment owned) s' | None => None end)
       owned st w) w.
Proof.
  intros Hc Hs. pose proof (went_refl st w Hc Hs) as Hw0. unfold setCredentialEffect, specSetCredential, configured.
  apply wp_bind, (wp_load owned st); [exact Hc | exact Hs|]. intros ov ob Fv Fb.
  destruct (currentSelection jsonParse (st owned)) as [[s|]|e] eqn:Ec; cbn [lo_selection lo_variable lo_secret];
    [|intros _; apply wp_throw; split; eauto | split; eauto].
  intros Hsv. destruct ov as [v|]; [|discriminate Hsv]. destruct (getIntelligenceProvider _) as [p|] eqn:Ep; [|apply wp_throw; split; eauto].
  destruct (bool_decide _); [apply wp_throw; split; eauto|]. apply wp_bind.
  eapply wp_mono; [eapply wp_bindCredential; eassumption|]. intros o w1 (-> & Hw1 & _). apply wp_outcome, shown_follows; [|exact Hw1].
  eapply shows_selection; [exact Ec | exact Ep | reflexivity].
Qed.

Lemma wp_removeFollows owned actor st w :
  calm w -> stands st (w_db w) ->
  wp (removeEffect jsonParse owned actor)
    (follows AnView (match specRemove jsonParse (st owned) with Some s' => shown (sc_environment owned) s' | None => None end) owned st w) w.
Proof.
  intros Hc Hs. pose proof (went_refl st w Hc Hs) as Hw0. unfold removeEffect, specRemove, configured.
  apply wp_bind, (wp_load owned st); [exact Hc | exact Hs|]. intros ov ob Fv Fb.
  destruct (currentSelection jsonParse (st owned)) as [[s|]|e] eqn:Ec; cbn [lo_selection lo_variable lo_secret];
    [|intros _; apply wp_throw; split; eauto | split; eauto].
  intros Hsv. destruct ov as [v|]; [|discriminate Hsv]. destruct (getIntelligenceProvider _) as [p|] eqn:Ep; [|apply wp_throw; split; eauto].
  destruct (bool_decide _); [apply wp_throw; split; eauto|]. apply wp_bind.
  eapply wp_mono with (Q := fun o w1 => o = Ok tt /\ went w (fset owned (mkSetting (st_text (st owned)) None) st) w1).
  { destruct ob as [b|].
    - eapply wp_mono; [eapply wp_detachCredential; eassumption|]. intros o w1 (-> & Hw1 & _). auto.
    - apply wp_ret. split; [reflexivity|]. apply went_refl; [exact Hc|]. apply stands_same; [|exact Hs].
      now rewrite (stored_ref _ _ _ _ Fb). }
  intros o w1 [-> Hw1]. apply wp_outcome, shown_follows; [|exact Hw1].
  eapply shows_selection; [exact Ec | exact Ep | reflexivity].
Qed.

(** ** Operations *)

Variable g : ServiceGateway DB.

Definition serveIntelligence (caller : Caller) (rq : IntelligenceRequest) : M DB IntelligenceAnswer :=
  match rq with
  | SetIntelligence i => v ← setIntelligence (Some g) parseEndpoint jsonParse stringOfValue i caller; mret (AnView v)
  | SetCredential i => v ← setCredential (Some g) jsonParse i caller; mret (AnView v)
  | RemoveCredential s => v ← removeCredential (Some g) jsonParse s caller; mret (AnView v)
  | GetIntelligence s => v ← getIntelligence (Some g) jsonParse s caller; mret (AnView v)
  | ResolveRuntime s => r ← resolveRuntime (Some g) jsonParse s caller; mret (AnRuntime r)
  | ListCatalog s => l ← catalog (Some g) s caller; mret (AnCatalog l)
  end.

(** The scope a request is about, for this caller. *)
Definition intelligenceOwner (caller : Caller) (rq : IntelligenceRequest) : option ConfigurationScope :=
  match ownIntelligence (Some g) (intelligenceScope rq) caller with Ok (_, _, owned) => Some owned | Throw _ => None end.

#[local] Abbreviation spec := (specIntelligence parseEndpoint jsonParse stringOfValue).

(** What a request did: it failed and changed nothing, for want of authority
    or because [spec] has no step; or it made the step of [spec]. *)
Definition refines caller rq st (w : World DB) (o : outcome IntelligenceAnswer) (w' : World DB) : Prop :=
  calm w' /\
  ((exists e, o = Throw e) /\ stands st (w_db w') /\
     (onlyRefusal (w_db w) (w_db w') \/
      exists owned, intelligenceOwner caller rq = Some owned /\ spec (sc_environment owned) rq (st owned) = None) \/
   exists owned s' a, intelligenceOwner caller rq = Some owned /\ o = Ok a /\
     spec (sc_environment owned) rq (st owned) = Some (s', undated a) /\ stands (fset owned s' st) (w_db w')).

Lemma refines_early caller rq st w e : calm w -> stands st (w_db w) -> refines caller rq st w (Throw e) w.
Proof. intros Hc Hs. split; [exact Hc|]. left. split; [eauto|]. split; [exact Hs|]. left. now left. Qed.

(** A protected operation whose effect follows the specification. *)
Lemma wp_refines {A} (answer : A -> IntelligenceAnswer) caller rq owned name p r options (effect : M DB A) st w :
  hostQuiet g -> calm w -> stands st (w_db w) -> intelligenceOwner caller rq = Some owned ->
  (forall w1, calm w1 -> stands st (w_db w1) -> wp effect (follows answer (spec (sc_environment owned) rq (st owned)) owned st w1) w1) ->
  wp (x ← execute g name (CVerified p) r options (fun _ _ => effect); mret (answer x)) (refines caller rq st w) w.
Proof.
  intros Hhost Hc Hs Hown Heff. apply wp_bind. eapply wp_mono.
  { apply (execute_effect g name (CVerified p) r options (fun _ _ => effect) (fun _ o w2 =>
      exists w1, follows answer (spec (sc_environment owned) rq (st owned)) owned st w1 o w2) w Hc Hhost).
    intros rid c q x id at_ w1 _ Hc1 [_ Hf] _. assert (stands st (w_db w1)) as Hs1
      by (eapply stands_frame; [..|exact Hs]; intros k; apply Hf; discriminate).
    eapply wp_mono; [now apply Heff|]. intros o w2 Hfo. assert (exists st', went w1 st' w2) as (st' & Hc2 & Ha2 & Hr2 & He2 & _).
    { unfold follows in Hfo. destruct (spec _ _ _) as [[s' a]|]; destruct Hfo; eauto. }
    eauto 10. }
  intros o w' (Hc' & _ & [(e & -> & Href)|(rid & c & q & x & w2 & _ & (w1 & Hfo) & _ & Hf)]).
  - split; [exact Hc'|]. left. split; [eauto|]. split; [|now left].
    eapply stands_frame; [..|exact Hs]; intros k; apply (onlyRefusal_frame _ _ Href); discriminate.
  - assert (forall st', stands st' (w_db w2) -> stands st' (w_db w')) as Hkeep
      by (intros st'; apply stands_frame; intros k; apply Hf; discriminate).
    unfold follows in Hfo. destruct (spec _ _ _) as [[s' a]|] eqn:Es.
    + destruct Hfo as [(y & -> & <-) (_ & _ & _ & _ & Hs2)]. apply wp_ret. split; [exact Hc'|]. right. exists owned, s', (answer y). auto 6.
    + destruct Hfo as [(e & ->) (_ & _ & _ & _ & Hs2)]. split; [exact Hc'|]. left. split; [eauto|]. split; [auto|]. right. eauto.
Qed.

Lemma ownIntelligence_gateway scope caller g' p owned : ownIntelligence (Some g) scope caller = Ok (g', p, owned) -> g' = g.
Proof. unfold ownIntelligence. destruct (resolveConfigurationOwnership _ _ _) as [[]|]; [intros [= -> _ _]; reflexivity | discriminate]. Qed.

(** The scope resolved, the rest of an operation. *)
Lemma wp_ownedIntelligence {A} (answer : A -> IntelligenceAnswer) caller rq st (k : ServiceGateway DB * VerifiedPrincipal * ConfigurationScope -> M DB A) w :
  calm w -> stands st (w_db w) ->
  (forall p owned, intelligenceOwner caller rq = Some owned -> wp (x ← k (g, p, owned); mret (answer x)) (refines caller rq st w) w) ->
  wp (x ← (own ← ofOutcome (ownIntelligence (Some g) (intelligenceScope rq) caller); k own); mret (answer x)) (refines caller rq st w) w.
Proof.
  intros Hc Hs Hk. unfold intelligenceOwner in *.
  destruct (ownIntelligence (Some g) (intelligenceScope rq) caller) as [[[g' p] owned]|e] eqn:Eo.
  - pose proof (ownIntelligence_gateway _ _ _ _ _ Eo) as ->. exact (Hk p owned eq_refl).
  - now apply refines_early.
Qed.

(** A check of the input before anything else, or between. *)
Lemma wp_checked {A B} (answer : B -> IntelligenceAnswer) caller rq st (c : outcome A) (k : A -> M DB B) w :
  calm w -> stands st (w_db w) ->
  (forall a, c = Ok a -> wp (x ← k a; mret (answer x)) (refines caller rq st w) w) ->
  wp (x ← (a ← ofOutcome c; k a); mret (answer x)) (refines caller rq st w) w.
Proof. intros Hc Hs Hk. destruct c as [a|e]; [exact (Hk a eq_refl) | now apply refines_early]. Qed.

Lemma selectEndpoint_provider p model endpoint s :
  selectEndpoint parseEndpoint p model endpoint = Ok s -> sl_provider s = ip_id p.
Proof.
  assert (match ip_endpoints p with
          | [] => Throw (IntelligenceValidationError ("Provider " ++ ip_id p ++ " requires an endpoint"))
          | _ => Ok (mkSelection (ip_id p) model None)
          end = Ok s -> sl_provider s = ip_id p) as Hd by (destruct (ip_endpoints p); [discriminate | intros [= <-]; reflexivity]).
  unfold selectEndpoint. destruct endpoint; try discriminate; try exact Hd.
  cbv zeta. destruct (ifPresent _) as [r|]; [|exact Hd]. destruct (String.eqb r "default"); [exact Hd|].
  destruct (List.find _ _); [intros [= <-]; reflexivity|]. destruct (negb _); [discriminate|].
  destruct (validateEndpointUrl _ _); [intros [= <-]; reflexivity | discriminate].
Qed.

Lemma validateSelection_provider i s :
  validateSelection parseEndpoint stringOfValue i = Ok s -> exists p, getIntelligenceProvider (JStr (sl_provider s)) = Some p.
Proof.
  unfold validateSelection. destruct (getIntelligenceProvider (iw_provider i)) as [p|] eqn:Ep; [|discriminate].
  set (model := match iw_model i with JStr m => trim m | _ => "" end). cbv zeta.
  destruct (negb _); [discriminate|]. destruct (Nat.ltb 200 (String.length model) || any badModelChar model); [discriminate|].
  match goal with |- (if ?b then _ else _) = _ -> _ => destruct b end; [discriminate|].
  intros ->%selectEndpoint_provider. exists p. destruct (iw_provider i); try discriminate Ep.
  cbn [getIntelligenceProvider] in *. pose proof Ep as Hf. apply find_some in Hf as [_ E]. apply String.eqb_eq in E. now rewrite E.
Qed.

Lemma wp_serve caller rq st w :
  hostQuiet g -> readsBack -> calm w -> stands st (w_db w) -> wp (serveIntelligence caller rq) (refines caller rq st w) w.
Proof.
  intros Hhost Hj Hc Hs. destruct rq as [i|i|s|s|s|s]; cbn [serveIntelligence].
  - apply wp_checked; [exact Hc | exact Hs|]. intros u Eu. apply (wp_ownedIntelligence AnView caller (SetIntelligence i)); [exact Hc | exact Hs|].
    intros p owned Hown. apply wp_checked; [exact Hc | exact Hs|]. intros selection Ev.
    apply wp_checked; [exact Hc | exact Hs|]. intros ref Er. eapply wp_refines; [exact Hhost | exact Hc | exact Hs | exact Hown|].
    intros w1 Hc1 Hs1. cbn [specIntelligence]. rewrite Eu, Ev, Er. destruct (validateSelection_provider _ _ Ev) as (q & Eq). rewrite Eq.
    now apply wp_setFollows.
  - apply wp_checked; [exact Hc | exact Hs|]. intros u Eu. apply (wp_ownedIntelligence AnView caller (SetCredential i)); [exact Hc | exact Hs|].
    intros p owned Hown. apply wp_checked; [exact Hc | exact Hs|]. intros ref Er.
    eapply wp_refines; [exact Hhost | exact Hc | exact Hs | exact Hown|].
    intros w1 Hc1 Hs1. cbn [specIntelligence handsOver]. rewrite Eu, Er. now apply wp_setCredentialFollows.
  - apply (wp_ownedIntelligence AnView caller (RemoveCredential s)); [exact Hc | exact Hs|]. intros p owned Hown.
    eapply wp_refines; [exact Hhost | exact Hc | exact Hs | exact Hown|]. intros w1 Hc1 Hs1. now apply wp_removeFollows.
  - apply (wp_ownedIntelligence AnView caller (GetIntelligence s)); [exact Hc | exact Hs|]. intros p owned Hown.
    eapply wp_refines; [exact Hhost | exact Hc | exact Hs | exact Hown|]. intros w1 Hc1 Hs1. now apply wp_getFollows.
  - apply (wp_ownedIntelligence AnRuntime caller (ResolveRuntime s)); [exact Hc | exact Hs|]. intros p owned Hown.
    eapply wp_refines; [exact Hhost | exact Hc | exact Hs | exact Hown|]. intros w1 Hc1 Hs1. now apply wp_resolveFollows.
  - apply (wp_ownedIntelligence AnCatalog caller (ListCatalog s)); [exact Hc | exact Hs|]. intros p owned Hown.
    eapply wp_refines; [exact Hhost | exact Hc | exact Hs | exact Hown|]. intros w1 Hc1 Hs1. apply wp_ret. split; [eauto|].
    now apply went_id, went_refl.
Qed.
End facts.

Section claims.
Context {DB : Type} `{FeltDBLaws DB}.
Variable parseEndpoint : string -> option EndpointURL.
Variable jsonParse : string -> option jsval.
Variable stringOfValue : jsval -> string.
Variable g : ServiceGateway DB.
Implicit Types w : World DB.

#[local] Abbreviation serve := (serveIntelligence parseEndpoint jsonParse stringOfValue g).
#[local] Abbreviation spec := (specIntelligence parseEndpoint jsonParse stringOfValue).

(** ** The settings of a well-kept store *)

Lemma slots_exist {V} (c : coll V) idOf scopeOf named content (db : DB) :
  up db -> (forall k x, peek c k db = Some x -> idOf x = k) ->
  (forall k x k' x', peek c k db = Some x -> peek c k' db = Some x' -> named x = true -> named x' = true ->
     scopeOf x = scopeOf x' -> k = k') ->
  exists f, slots c idOf scopeOf named content f db.
Proof.
  intros Hu A B. exists (fun s => match (db_find c (fun x => bool_decide (scopeOf x = s) && named x) db).2 with
                                  | Ok l => option_map content (head l) | Throw _ => None end).
  split; [exact A|]. split; [exact B|]. intros s.
  destruct (law_find V c (fun x => bool_decide (scopeOf x = s) && named x) db Hu) as (l & -> & Hl). cbn [snd].
  pose proof (fun x => enumerates_in _ _ _ _ x Hl) as Hin. destruct l as [|x l]; cbn [head option_map].
  - intros k x Hk Hn E. apply (not_elem_of_nil x), Hin. exists k. split; [exact Hk|]. now rewrite bool_decide_eq_true_2.
  - destruct (proj1 (Hin x)) as (k & Hk & Hp); [left|]. bool_hyps. eauto 6.
Qed.

Lemma settings_exist (db : DB) : up db -> configInv db -> exists st, stands st db.
Proof.
  intros Hu [[Hok Hd] _].
  assert (forall k v, peek CVariables k db = Some v -> configRow db false k = Some (inl v)) as Hv by (intros k v E; cbn; now rewrite E).
  assert (forall k b, peek CBindings k db = Some b -> configRow db true k = Some (inr b)) as Hb by (intros k b E; cbn; now rewrite E).
  destruct (slots_exist CVariables cv_id cv_scope selectionSlot cv_value db Hu) as (f & Hf).
  { intros k v E. apply (Hok _ _ _ (Hv _ _ E)). }
  { intros k v k' v' E E' N N' Es. apply String.eqb_eq in N, N'.
    assert ((false, k) = (false, k')) as [= ->]; [|reflexivity]. eapply Hd; [exact (Hv _ _ E) | exact (Hv _ _ E')|]. cbn. congruence. }
  destruct (slots_exist CBindings cb_id cb_scope credentialSlot cb_credentialRef db Hu) as (f' & Hf').
  { intros k v E. apply (Hok _ _ _ (Hb _ _ E)). }
  { intros k v k' v' E E' N N' Es. apply String.eqb_eq in N, N'.
    assert ((true, k) = (true, k')) as [= ->]; [|reflexivity]. eapply Hd; [exact (Hb _ _ E) | exact (Hb _ _ E')|]. cbn. congruence. }
  exists (fun s => mkSetting (f s) (f' s)). now split.
Qed.

(** C17: The intelligence service implements its specification.  In a scope
    whose setting is [st], a request either fails and leaves every setting as
    it was, for want of authority or because the specification has no step
    from there, or it succeeds, makes exactly the step of the specification
    on the setting of its own scope and on no other, and answers what the
    specification answers. *)
Theorem intelligence_refines caller rq st w :
  hostQuiet g -> readsBack jsonParse -> calm w -> stands st (w_db w) ->
  exists w' o, serve caller rq w = (w', o) /\ refines parseEndpoint jsonParse stringOfValue g caller rq st w o w'.
Proof.
  intros Hhost Hj Hc Hs. destruct (proj1 (wp_run _ _ _) (wp_serve parseEndpoint jsonParse stringOfValue g caller rq st w Hhost Hj Hc Hs))
    as (o & w' & E & Hr). eauto.
Qed.

(** ** A credential and its destination *)

Definition destinationAt (db : DB) (owned : ConfigurationScope) (d : string * string) : Prop :=
  exists k v s p, peek CVariables k db = Some v /\ cv_scope v = owned /\ cv_name v = INTELLIGENCE_SELECTION_NAME /\
    parseSelection jsonParse (cv_value v) = Ok s /\ getIntelligenceProvider (JStr (sl_provider s)) = Some p /\
    d = (ip_id p, resolveEndpoint p (sl_endpoint s)).

Definition boundAt (db : DB) (owned : ConfigurationScope) (ref : string) : Prop :=
  exists k b, peek CBindings k db = Some b /\ cb_scope b = owned /\ cb_name b = INTELLIGENCE_CREDENTIAL_NAME /\ cb_credentialRef b = ref.

Lemma stands_bound st (db : DB) owned ref : stands st db -> boundAt db owned ref -> st_ref (st owned) = Some ref.
Proof.
  intros [_ (_ & B & C)] (k & b & Hk & Hs & Hn & <-). specialize (C owned). apply String.eqb_eq in Hn. destruct (st_ref (st owned)) as [t|].
  - destruct C as (k' & b' & Hk' & Hn' & Hs' & <-). assert (k' = k) as -> by (eapply B; try eassumption; congruence). congruence.
  - exfalso. eapply C; eassumption.
Qed.

Lemma stands_destination st (db : DB) owned d : stands st db -> destinationAt db owned d <-> destinationOf jsonParse (st owned) = Some d.
Proof.
  intros [(_ & B & C) _]. specialize (C owned). unfold destinationOf, configured, currentSelection. split.
  - intros (k & v & s & p & Hk & Hs & Hn & Hp & Hg & ->). apply String.eqb_eq in Hn. destruct (st_text (st owned)) as [t|].
    + destruct C as (k' & v' & Hk' & Hn' & Hs' & <-). assert (k' = k) as -> by (eapply B; try eassumption; congruence).
      rewrite Hk in Hk'. injection Hk' as <-. now rewrite Hp, Hg.
    + exfalso. eapply C; eassumption.
  - destruct (st_text (st owned)) as [t|]; [|discriminate]. destruct C as (k & v & Hk & Hn & Hs & <-).
    destruct (parseSelection jsonParse (cv_value v)) as [s|] eqn:Ep; [|discriminate].
    destruct (getIntelligenceProvider (JStr (sl_provider s))) as [p|] eqn:Eg; [|discriminate]. intros [= <-].
    apply String.eqb_eq in Hn. exists k, v, s, p. auto 8.
Qed.

(** After a step, a credential the request did not hand over was there
    before, with the same destination. *)
Lemma spec_destination environment rq st st' a ref d :
  readsBack jsonParse -> spec environment rq st = Some (st', a) -> st_ref st' = Some ref -> destinationOf jsonParse st' = Some d ->
  handsOver rq = Some ref \/ st_ref st = Some ref /\ destinationOf jsonParse st = Some d.
Proof.
  intros Hj Hspec Href Hd. destruct rq as [i|i|s|s|s|s]; cbn [specIntelligence handsOver] in *.
  - destruct (rejectRawCredentialFields _); [|discriminate]. destruct (validateSelection _ _ i) as [sel|]; [|discriminate].
    destruct (optionalRef _) as [r|]; [|discriminate]. unfold specSet in Hspec.
    destruct (currentSelection jsonParse st) as [cur|] eqn:Ec; [|discriminate].
    destruct (getIntelligenceProvider (JStr (sl_provider sel))) as [p|] eqn:Ep; [|discriminate].
    destruct (_ && isSome r); [discriminate|]. destruct (_ && negb _); [discriminate|].
    destruct (viewSpec _ _ _); [|discriminate]. injection Hspec as <- _. cbn [st_ref] in Href.
    destruct r as [r|]; [left; congruence|]. right. destruct (destinationChanged p cur sel) eqn:Eg; [discriminate|].
    split; [exact Href|]. rewrite <- Hd. unfold destinationOf, configured. rewrite currentSelection_written by exact Hj. rewrite Ec.
    destruct cur as [c|]; [|discriminate Eg]. cbn [destinationChanged] in Eg. bool_hyps. cbn [sl_provider sl_endpoint readSelection].
    match goal with E : sl_provider c = _, E' : resolveEndpoint p _ = _ |- _ => rewrite E, Ep, E' end.
    unfold readSelection. cbn [sl_endpoint]. now rewrite resolveEndpoint_read.
  - destruct (rejectRawCredentialFields _); [|discriminate]. destruct (requireCredentialRef _ _) as [r|]; [|discriminate].
    unfold specSetCredential in Hspec. destruct (configured _ _) as [[p s]|]; [|discriminate]. destruct (bool_decide _); [discriminate|].
    destruct (viewSpec _ _ _); [|discriminate]. injection Hspec as <- _. left. exact Href.
  - unfold specRemove in Hspec. destruct (configured _ _) as [[p q]|]; [|discriminate]. destruct (bool_decide _); [discriminate|].
    destruct (viewSpec _ _ _); [|discriminate]. injection Hspec as <- _. discriminate Href.
  - destruct (viewSpec _ _ _); [|discriminate]. injection Hspec as <- _. auto.
  - destruct (runtimeSpec _ _); [|discriminate]. injection Hspec as <- _. auto.
  - injection Hspec as <- _. auto.
Qed.

(** Requests served one after another. *)
Fixpoint serveAll (l : list (Caller * IntelligenceRequest)) w : World DB :=
  match l with [] => w | (caller, rq) :: rest => serveAll rest (serve caller rq w).1 end.

Lemma serveAll_snoc l caller rq w : serveAll (l ++ [(caller, rq)]) w = (serve caller rq (serveAll l w)).1.
Proof. revert w. induction l as [|[c r] l IH]; intros w; [reflexivity | apply IH]. Qed.

(** A request among [l] that succeeded in handing over [ref] when the
    destination of its scope became, or stayed, [d]. *)
Definition handedOver l w (owned : ConfigurationScope) (ref : string) (d : string * string) : Prop :=
  exists l1 caller rq l2, l = (l1 ++ (caller, rq) :: l2)%list /\
    intelligenceOwner g caller rq = Some owned /\ handsOver rq = Some ref /\
    (exists a, (serve caller rq (serveAll l1 w)).2 = Ok a) /\
    destinationAt (w_db (serveAll (l1 ++ [(caller, rq)]) w)) owned d.

Lemma handedOver_more l w owned ref d x : handedOver l w owned ref d -> handedOver (l ++ [x]) w owned ref d.
Proof.
  intros (l1 & caller & rq & l2 & -> & Hrest). exists l1, caller, rq, (l2 ++ [x])%list. split; [|exact Hrest].
  now rewrite <- app_assoc.
Qed.

Lemma served_destinations l w st :
  hostQuiet g -> readsBack jsonParse -> calm w -> stands st (w_db w) -> (forall s, st_ref (st s) = None) ->
  calm (serveAll l w) /\ exists st', stands st' (w_db (serveAll l w)) /\
    forall owned ref d, st_ref (st' owned) = Some ref -> destinationOf jsonParse (st' owned) = Some d -> handedOver l w owned ref d.
Proof.
  intros Hhost Hj Hc Hs Hnone. induction l as [|[caller rq] l IH] using rev_ind.
  { split; [exact Hc|]. exists st. split; [exact Hs|]. intros owned ref d E. rewrite Hnone in E. discriminate E. }
  destruct IH as (Hc1 & st1 & Hs1 & Hh). rewrite serveAll_snoc.
  pose proof (wp_serve parseEndpoint jsonParse stringOfValue g caller rq st1 _ Hhost Hj Hc1 Hs1) as Hr. unfold wp in Hr.
  destruct (serve caller rq (serveAll l w)) as [w' o] eqn:Es. cbn [fst snd] in *.
  destruct Hr as (Hc' & [((e & ->) & Hs' & _)|(owned & s' & a & Hown & -> & Hspec & Hs')]); (split; [exact Hc'|]).
  { exists st1. split; [exact Hs'|]. intros owned ref d A B. apply handedOver_more. now apply Hh. }
  exists (fset owned s' st1). split; [exact Hs'|]. intros owned' ref d Href Hd.
  destruct (decide (owned' = owned)) as [->|Hne].
  - rewrite fset_same in Href, Hd. destruct (spec_destination _ _ _ _ _ _ _ Hj Hspec Href Hd) as [Hgive|[A B]].
    + exists l, caller, rq, []. split; [reflexivity|]. split; [exact Hown|]. split; [exact Hgive|]. rewrite Es. split; [eauto|].
      rewrite serveAll_snoc, Es. apply (stands_destination _ _ _ _ Hs'). now rewrite fset_same.
    + apply handedOver_more. now apply Hh.
  - rewrite fset_other in Href, Hd by exact Hne. apply handedOver_more. now apply Hh.
Qed.

(** C16: A credential stays with the destination it was given for.  Start
    from a well-kept store without intelligence credentials and serve any
    requests of any callers, one after another.  Whenever a scope then has a
    credential and a destination (provider and resolved endpoint), one of
    those requests, for that very scope, handed that credential over, and
    right after it the destination was the same one: changing the provider or
    the endpoint never carries an old credential along. *)
Theorem credential_stays_with_destination l w owned ref d :
  hostQuiet g -> readsBack jsonParse -> calm w -> configInv (w_db w) ->
  (forall k b, peek CBindings k (w_db w) = Some b -> cb_name b <> INTELLIGENCE_CREDENTIAL_NAME) ->
  boundAt (w_db (serveAll l w)) owned ref -> destinationAt (w_db (serveAll l w)) owned d ->
  handedOver l w owned ref d.
Proof.
  intros Hhost Hj Hc Hi Hnone Hb Hd. destruct (settings_exist (w_db w)) as (st & Hs); [apply Hc | exact Hi|].
  destruct (served_destinations l w st Hhost Hj Hc Hs) as (_ & st' & Hs' & Hh).
  { intros s. destruct Hs as [_ (_ & _ & C)]. specialize (C s). destruct (st_ref (st s)); [|reflexivity].
    destruct C as (k & b & Hk & Hn & _). apply String.eqb_eq in Hn. exfalso. exact (Hnone k b Hk Hn). }
  apply Hh; [eapply stands_bound; eassumption | now apply (stands_destination _ _ _ _ Hs')].
Qed.
End claims.

(** ** Witnesses *)

(** A [JSON.parse] of just the texts [stringifySelection] writes. *)
Definition demoParseWith (fuel : nat) (text : string) : option jsval :=
  let afterText (prefix s : string) := if startsWith s prefix then readText fuel (sliceFrom (String.length prefix) s) else None in
  match afterText ("{" ++ quoteJson "provider" ++ ":" ++ dq) text with
  | Some (provider, r) =>
      match afterText ("," ++ quoteJson "model" ++ ":" ++ dq) r with
      | Some (model, r') =>
          match afterText ("," ++ quoteJson "endpoint" ++ ":" ++ dq) r' with
          | Some (e, _) => Some (JObj [("provider", JStr provider); ("model", JStr model); ("endpoint", JStr e)])
          | None => Some (JObj [("provider", JStr provider); ("model", JStr model)])
          end
      | None => None
      end
  | None => None
  end.

Definition demoParse (text : string) : option jsval := demoParseWith (S (String.length text)) text.

Lemma escapeText_length s : (String.length s <= String.length (escapeText s))%nat.
Proof.
  induction s as [|c s IH]; cbn [escapeText String.length]; [lia|]. rewrite length_append.
  assert (1 <= String.length (escapeChar c))%nat by (apply Nat.leb_le; destruct c as [[] [] [] [] [] [] [] []]; reflexivity). lia.
Qed.

Lemma demo_readsBack : readsBack demoParse.
Proof.
  intros [p m e]. unfold demoParse. remember (S _) as fuel eqn:Ef. unfold demoParseWith.
  assert (forall prefix s rest, (String.length s < fuel)%nat ->
    (if startsWith (prefix ++ escapeText s ++ dq ++ rest) prefix
     then readText fuel (sliceFrom (String.length prefix) (prefix ++ escapeText s ++ dq ++ rest)) else None) = Some (s, rest)) as Hr.
  { intros prefix s rest Hf. unfold startsWith. rewrite prefix_append, sliceFrom_append. now apply readText_escape. }
  set (tail := match e with Some e => "," ++ quoteJson "endpoint" ++ ":" ++ quoteJson e | None => "" end ++ "}").
  assert (stringifySelection (mkSelection p m e) = ("{" ++ quoteJson "provider" ++ ":" ++ dq) ++ escapeText p ++ dq ++
    ("," ++ quoteJson "model" ++ ":" ++ dq) ++ escapeText m ++ dq ++ tail) as E.
  { unfold stringifySelection, quoteJson. cbn [sl_provider sl_model sl_endpoint]. fold tail. rewrite !append_assoc. reflexivity. }
  pose proof (escapeText_length p). pose proof (escapeText_length m).
  rewrite E in Ef |- *.
  assert (String.length (escapeText p) < fuel /\ String.length (escapeText m) < fuel /\ String.length tail < fuel)%nat as (Fp & Fm & Ft)
    by (rewrite Ef, !length_append; lia).
  clear Ef. cbv zeta. rewrite !Hr by lia. subst tail. unfold selectionFields. cbn [sl_provider sl_model sl_endpoint].
  destruct e as [e|]; [|reflexivity]. pose proof (escapeText_length e).
  assert ((("," ++ quoteJson "endpoint" ++ ":" ++ quoteJson e) ++ "}") = ("," ++ quoteJson "endpoint" ++ ":" ++ dq) ++ escapeText e ++ dq ++ "}") as Ee
    by (unfold quoteJson; rewrite !append_assoc; reflexivity).
  rewrite Ee in *. rewrite !length_append in Ft. rewrite Hr by lia. reflexivity.
Qed.

(** A scope of [alice]'s tenant, and a choice of provider with a credential. *)
Definition demoScope : Scope := mkScopeInput JUndef JUndef JUndef [].
Definition demoOwned : ConfigurationScope := mkScope "t1" "app" Production.
Definition demoSet : IntelligenceRequest :=
  SetIntelligence (mkIntelligenceWrite demoScope (JStr "openai") (JStr "gpt-4o") JUndef (JStr "credential-ref:openai")).
Definition demoUrl (_ : string) : option EndpointURL := None.
Definition demoString (_ : jsval) : string := "".

Lemma stands_empty : stands (fun _ => mkSetting None None) emptyDB.
Proof.
  assert (forall V (c : coll V) k, peek c k emptyDB = None) as He by (intros V c k; destruct c; apply lookup_empty).
  split; (split; [|split]); intros; rewrite ?He in *; cbn; try discriminate; intros k x; rewrite He; discriminate.
Qed.

Definition demoAfter : World MemDB :=
  serveAll demoUrl demoParse demoString (demoGateway true) [(CVerified alice, demoSet)] (demo emptyDB).

Lemma intelligence_refines_witness :
  exists w' o, serveIntelligence demoUrl demoParse demoString (demoGateway true) (CVerified alice) demoSet (demo emptyDB) = (w', o) /\
    refines demoUrl demoParse demoString (demoGateway true) (CVerified alice) demoSet (fun _ => mkSetting None None) (demo emptyDB) o w'.
Proof.
  apply (intelligence_refines demoUrl demoParse demoString (demoGateway true) (CVerified alice) demoSet).
  - apply demo_hostQuiet.
  - exact demo_readsBack.
  - apply demo_calm, unused_empty.
  - exact stands_empty.
Defined.

Lemma credential_stays_with_destination_witness :
  handedOver demoUrl demoParse demoString (demoGateway true) [(CVerified alice, demoSet)] (demo emptyDB) demoOwned
    "credential-ref:openai" ("openai", "https://api.openai.com/v1").
Proof.
  apply (credential_stays_with_destination demoUrl demoParse demoString (demoGateway true)).
  - apply demo_hostQuiet.
  - exact demo_readsBack.
  - apply demo_calm, unused_empty.
  - exact configInv_empty.
  - intros k b. cbn. rewrite lookup_empty. discriminate.
  - exists "uxx", (mkBinding "uxx" demoOwned INTELLIGENCE_CREDENTIAL_NAME "credential-ref:openai" false
      "2023-11-14T22:13:20.000Z" "2023-11-14T22:13:20.000Z" "alice" None 1).
    split; [vm_compute; reflexivity | repeat split].
  - eexists "uxxxx", (mkVariable "uxxxx" demoOwned INTELLIGENCE_SELECTION_NAME
      (stringifySelection (mkSelection "openai" "gpt-4o" None)) false "2023-11-14T22:13:20.000Z" "2023-11-14T22:13:20.000Z" "alice" 1),
      (mkSelection "openai" "gpt-4o" None), _.
    split; [vm_compute; reflexivity|]. split; [reflexivity|]. split; [reflexivity|].
    split; [vm_compute; reflexivity|]. split; [vm_compute; reflexivity | reflexivity].
Defined.

(** ** Where a credential does move *)

Definition demoResolve : World MemDB -> outcome (option IntelligenceRuntimeConfiguration) := fun w =>
  (resolveRuntime (Some (demoGateway true)) demoParse demoScope (CVerified alice) w).2.

(** The configuration service changes the selection like any variable: the
    credential stays, and now goes to an endpoint that was never validated. *)
Lemma update_moves_credential :
  let update := updateVariable (Some (demoGateway true)) (mkVariableInput (mkScopeInput JUndef JUndef (JStr "production") [])
    (JStr INTELLIGENCE_SELECTION_NAME) None
    (JStr (stringifySelection (mkSelection "custom" "m" (Some "http://elsewhere.example"))))) (CVerified alice) in
  (exists v, (update demoAfter).2 = Ok v) /\
  demoResolve (update demoAfter).1 =
    Ok (Some (mkRuntime "custom" OpenaiCompatible "m" "http://elsewhere.example" (Some "credential-ref:openai"))).
Proof. split; [eexists|]; vm_compute; reflexivity. Qed.

(** Another process's version of the selection row. *)
Definition bumped (db : MemDB) : MemDB :=
  match peek CVariables "uxxxx" db with Some v => memPut CVariables "uxxxx" (v <| cv_version := 7 |>) db | None => db end.

(** A request that names another provider and its credential, and loses the
    race for the selection row, fails: but the new credential is bound, with
    the old destination. *)
Lemma failed_set_moves_credential :
  let set := setIntelligence (Some (demoGateway true)) demoUrl demoParse demoString
    (mkIntelligenceWrite demoScope (JStr "anthropic") (JStr "claude-opus-5-5") JUndef (JStr "credential-ref:anthropic")) (CVerified alice) in
  let raced := demoAfter <| w_env := [id; id; id; id; id; bumped] |> in
  (set raced).2 = Throw changedConcurrently /\
  demoResolve (set raced).1 =
    Ok (Some (mkRuntime "openai" Openai "gpt-4o" "https://api.openai.com/v1" (Some "credential-ref:anthropic"))).
Proof. split; vm_compute; reflexivity. Qed.
