(* ===== verification/TransactionFacts.v ===== *)
(** * TransactionFacts: what a transaction collects

    What a callback collects is [grounded]: every record of the services in it
    is new and belongs to a context that the gateway issued, whose evidence is
    in the same collection.  The commit writes all of it or nothing. *)

From S2P Require Import Prelude JsString JsTime Errors Models Store Calm MemStore Principal Manifest Evidence Gateway Rely GatewayFacts Sensitive Jobs Notifications NotificationFacts Webhooks Transactions Demo.
From Stdlib Require Import ZArith Lia Ascii.
Local Open Scope string_scope.
Local Open Scope Z_scope.

Section props.
Context {DB : Type} `{FeltDBLaws DB}.
Variable g : ServiceGateway DB.
Implicit Types w : World DB.

(** ** The protocol: evidence stays *)

Definition evidenceStays (db db' : DB) : Prop := forall k, is_Some (peek CEvidence k db) -> is_Some (peek CEvidence k db').

#[global] Instance evidenceStays_preorder : PreOrder evidenceStays.
Proof. split; [intros db k; exact id | intros db1 db2 db3 A B k Hk; apply B, A, Hk]. Qed.

Program Definition evidenceProtocol : Protocol DB :=
  mkProtocol evidenceStays (fun _ => True) (fun _ => True) evidenceStays_preorder _ _ _.
Next Obligation. auto. Qed.
Next Obligation. auto. Qed.
Next Obligation.
  intros db db' k x Hch k' Hk. destruct (decide (k' = k)) as [->|E].
  - rewrite (changed_hit _ _ _ _ _ Hch). eauto.
  - now rewrite (changed_frame _ _ _ _ _ _ _ Hch) by congruence.
Qed.

#[local] Abbreviation stable := (stable evidenceProtocol).
#[local] Abbreviation onward := (onward evidenceProtocol).

(** Work of this process that leaves the identifiers others drew alone. *)
Definition civil {A} (m : M DB A) : Prop := forall w, stable w ->
  stable (m w).1 /\ onward w (m w).1 /\ forall id, vacant id w -> vacant id (m w).1.

Lemma civil_aside {A} (m : M DB A) : (forall w, aside w (m w).1) -> civil m.
Proof.
  intros Ha w Hs. specialize (Ha w). destruct (stable_aside _ _ _ Hs Ha) as [Hs' Ho]. split; [exact Hs'|]. split; [exact Ho|].
  intros id Hv. eapply vacant_aside; eassumption.
Qed.

Lemma civil_find {V} (c : coll V) p : civil (find c p).
Proof.
  intros w Hs. destruct (stable_interfere _ w Hs) as (Hs1 & Ho1 & _ & Hv). unfold find, dbop.
  destruct (law_find _ c p (w_db (interfere w)) (proj1 Hs1)) as (l & -> & _). cbn [fst]. rewrite world_db_eta. auto.
Qed.

Lemma civil_outcome {A} (o : outcome A) : civil (ofOutcome o).
Proof. apply civil_aside. intros w. unfold aside, ofOutcome. auto. Qed.

Lemma civil_throw {A} e : civil (throw e : M DB A).
Proof. apply (civil_outcome (Throw e)). Qed.

Lemma civil_bind {A B} (m : M DB A) (k : A -> M DB B) : civil m -> (forall a, civil (k a)) -> civil (m ≫= k).
Proof.
  intros Hm Hk w Hs. destruct (Hm w Hs) as (Hs1 & Ho1 & Hv1). unfold mbind, M_bind.
  destruct (m w) as [w1 [a|e]]; cbn [fst snd] in *; [|auto]. destruct (Hk a w1 Hs1) as (Hs2 & Ho2 & Hv2).
  split; [exact Hs2|]. split; [etransitivity; eassumption | auto].
Qed.

Lemma civil_tryCatch {A} (m : M DB A) h : civil m -> (forall e, civil (h e)) -> civil (tryCatch m h).
Proof.
  intros Hm Hk w Hs. destruct (Hm w Hs) as (Hs1 & Ho1 & Hv1). unfold tryCatch.
  destruct (m w) as [w1 [a|e]]; cbn [fst snd] in *; [auto|]. destruct (Hk e w1 Hs1) as (Hs2 & Ho2 & Hv2).
  split; [exact Hs2|]. split; [etransitivity; eassumption | auto].
Qed.

Lemma civil_nowMs : civil nowMs.
Proof. apply civil_aside. intros w. aside_tac. Qed.

Lemma civil_uuid : civil randomUUID.
Proof. apply civil_aside. intros w. aside_tac. Qed.

Lemma civil_mint build : civil (mintExecutionContext build).
Proof. apply civil_aside. intros w. aside_tac. Qed.

(** The host's collaborators are civil. *)
Definition hostCivil (gw : ServiceGateway DB) : Prop :=
  (forall (ask : ServiceAuthorizationRequest -> M DB Answer) request, g_authorizer gw = Some ask -> civil (ask request)) /\
  forall p cap r, civil (g_check gw p cap r).

Ltac civil_step :=
  lazymatch goal with
  | |- civil (_ ≫= _) => apply civil_bind; [|intros ?]
  | |- civil (tryCatch _ _) => apply civil_tryCatch; [|intros ?]
  | |- civil (match ?x with _ => _ end) => destruct x
  | |- civil _ => first [assumption | apply civil_nowMs | apply civil_uuid | apply civil_outcome | apply civil_throw | apply civil_mint | apply civil_find | auto]
  end.

Lemma civil_authorizeEffect gw cap caller type tenantId id attributes :
  hostCivil gw -> civil (authorizeEffect gw cap caller type tenantId id attributes).
Proof.
  intros [Hask Hcheck]. unfold authorizeEffect, authorize, enforceCredential, decide_, nowIso, isoString.
  destruct (g_authorizer gw) as [ask|] eqn:Ea; [assert (forall r, civil (ask r)) by (intros r; now apply Hask)|]; repeat civil_step.
Qed.

(** ** Contexts and what they ground *)

Definition genuine (x : ServiceExecutionContext) : Prop :=
  exists name caller r requestId c p, issuedFor g name caller r requestId c p x.

Definition genuineInput (context : ContextInput) : Prop :=
  match context with Issued x => genuine x | NotIssued => True end.

Definition decisionOf (x : ServiceExecutionContext) : string := a_decisionId (x_authorization x).
Definition actorOf (x : ServiceExecutionContext) : string := vp_principalId (x_principal x).

(** A record of the services that the context [x] allows a transaction to create. *)
Definition groundedRecord {V} (c : coll V) (x : ServiceExecutionContext) : V -> Prop :=
  match c with
  | CEvidence => fun e => exists id now, e = transactionEvidence x id now
  | CJobs => fun j => x_capability x = "jobs.create" /\ j_tenantId j = x_tenantId x /\ j_applicationId j = Some (x_application x) /\
      attribute (x_resource x) "jobType" = Some (j_type j) /\
      j_principal j = Some (toDurablePrincipal (x_principal x) (effectiveDelegation x) (Some (decisionOf x)))
  | CDeliveries => fun d => x_capability x = "webhooks.emit" /\ wd_tenantId d = x_tenantId x /\ wd_status d = WPending /\
      attribute (x_resource x) "eventType" = Some (wd_eventType d) /\
      wd_principal d = Some (toDurablePrincipal (x_principal x) None (Some (decisionOf x)))
  | CNotifications => fun n => x_capability x = "notifications.send" /\ n_tenantId n = x_tenantId x /\
      attribute (x_resource x) "recipient" = Some (n_recipient n) /\ n_createdBy n = Some (actorOf x) /\
      noCredentials (JStr (n_title n)) /\ (forall b, n_body n = Some b -> noCredentials (JStr b)) /\
      forall d, n_data n = Some d -> noCredentials d
  | CNotificationDeliveries => fun d => x_capability x = "notifications.send" /\ nd_tenantId d = x_tenantId x
  | CJobAudit => fun a => ja_tenantId a = x_tenantId x /\ ja_principalId a = actorOf x
  | CHookAudit => fun a => wa_tenantId a = x_tenantId x /\ wa_principalId a = actorOf x
  | CNotificationAudit => fun a => nx_tenantId a = x_tenantId x /\ nx_principalId a = actorOf x
  | _ => fun _ => False
  end.

(** The evidence of [x] is among [ops]. *)
Definition evidenced (ops : list txop) (x : ServiceExecutionContext) : Prop :=
  genuine x /\ exists id now, In (TxPut CEvidence id true None (transactionEvidence x id now)) ops.

(** An operation on a collection of the application, or the creation of a
    record that an issued context with evidence in [ops] allows. *)
Definition grounded (ops : list txop) (op : txop) : Prop :=
  match op with
  | TxApplication name _ _ _ _ _ => assertApplicationCollection name = Ok tt
  | TxPut c _ absent version v => absent = true /\ version = None /\ exists x, evidenced ops x /\ groundedRecord c x v
  end.

Lemma evidenced_more ops ops' x : incl ops ops' -> evidenced ops x -> evidenced ops' x.
Proof. intros Hi (Hg & id & now & Hin). split; [exact Hg|]. eauto. Qed.

Lemma grounded_more ops ops' op : incl ops ops' -> grounded ops op -> grounded ops' op.
Proof.
  intros Hi. destruct op as [V c id absent version v|]; [|exact (fun Hx => Hx)].
  intros (Ha & Hv & x & He & Hr). split; [exact Ha|]. split; [exact Hv|]. exists x. split; [eapply evidenced_more; eassumption | exact Hr].
Qed.

(** The identifiers of the services' records in [ops]. *)
Fixpoint serviceIds (ops : list txop) : list string :=
  match ops with
  | [] => []
  | TxPut _ id _ _ _ :: rest => id :: serviceIds rest
  | TxApplication _ _ _ _ _ _ :: rest => serviceIds rest
  end.

Lemma serviceIds_app l m : serviceIds (l ++ m) = (serviceIds l ++ serviceIds m)%list.
Proof. induction l as [|[] l IH]; cbn [app serviceIds]; [reflexivity | now rewrite IH | exact IH]. Qed.

(** A collection under construction in the world [w]: grounded, its
    identifiers drawn once each and unused. *)
Record collecting (ops : list txop) w : Prop := mkCollecting {
  co_grounded : Forall (grounded ops) ops;
  co_unique : NoDup (serviceIds ops);
  co_vacant : Forall (fun id => vacant id w) (serviceIds ops) }.

Lemma collecting_nil w : collecting [] w.
Proof. split; constructor. Qed.

Lemma collecting_world ops w w' : (forall id, vacant id w -> vacant id w') -> collecting ops w -> collecting ops w'.
Proof. intros Hv [A B C]. split; [exact A | exact B|]. eapply Forall_impl; [exact C | exact Hv]. Qed.

(** More of it, under identifiers drawn since. *)
Lemma collecting_app ops new w :
  collecting ops w -> Forall (grounded (ops ++ new)) new -> NoDup (serviceIds new) ->
  Forall (fun id => vacant id w /\ ~ In id (serviceIds ops)) (serviceIds new) -> collecting (ops ++ new) w.
Proof.
  intros [A B C] Hg Hd Hv. split.
  - apply Forall_app. split; [|exact Hg]. eapply Forall_impl; [exact A|]. intros op. apply grounded_more, incl_appl, incl_refl.
  - rewrite serviceIds_app. apply NoDup_app. split; [exact B|]. split; [|exact Hd]. intros id Hin Hnew.
    rewrite Forall_forall in Hv. apply (Hv id Hnew). now apply list_elem_of_In.
  - rewrite serviceIds_app. apply Forall_app. split; [exact C|]. eapply Forall_impl; [exact Hv | cbn; tauto].
Qed.

(** ** Calls on the transaction context

    They read clocks, draw identifiers and consume contexts: [txp m Q tx w]
    says that [m] does no more than that, and ends in [Q]. *)

Definition txp {A} (m : Tx DB A) (Q : outcome A -> Transaction DB -> World DB -> Prop) (tx : Transaction DB) w : Prop :=
  exists w' tx' o, m tx w = (w', Ok (tx', o)) /\ aside w w' /\ stable w' /\ Q o tx' w'.

Lemma aside_refl w : aside w w.
Proof. unfold aside. auto. Qed.

Lemma aside_then w1 w2 w3 : aside w1 w2 -> aside w2 w3 -> aside w1 w3.
Proof. intros (A1 & B1 & C1 & D1 & E1) (A2 & B2 & C2 & D2 & E2). unfold aside. repeat split; try congruence. lia. Qed.

Lemma txp_pure {A} (o : outcome A) (tx' : Transaction DB) (m : Tx DB A) (Q : outcome A -> Transaction DB -> World DB -> Prop) tx w :
  m tx w = (w, Ok (tx', o)) -> stable w -> Q o tx' w -> txp m Q tx w.
Proof. intros E Hs HQ. exists w, tx', o. split; [exact E|]. split; [apply aside_refl|]. auto. Qed.

Lemma txp_outcome {A} (o : outcome A) (Q : outcome A -> Transaction DB -> World DB -> Prop) tx w :
  stable w -> Q o tx w -> txp (txOutcome o) Q tx w.
Proof. now apply txp_pure. Qed.

Lemma txp_ret {A} (a : A) (Q : outcome A -> Transaction DB -> World DB -> Prop) tx w : stable w -> Q (Ok a) tx w -> txp (mret a) Q tx w.
Proof. apply (txp_outcome (Ok a)). Qed.

Lemma txp_throw {A} e (Q : outcome A -> Transaction DB -> World DB -> Prop) tx w : stable w -> Q (Throw e) tx w -> txp (txThrow e) Q tx w.
Proof. apply (txp_outcome (Throw e)). Qed.

Lemma txp_bind {A B} (m : Tx DB A) (k : A -> Tx DB B) Q tx w :
  txp m (fun o tx' w' => match o with Ok a => txp (k a) Q tx' w' | Throw e => Q (Throw e) tx' w' end) tx w -> txp (m ≫= k) Q tx w.
Proof.
  intros (w' & tx' & o & E & Ha & Hs & HQ). unfold txp.
  assert ((m ≫= k) tx w = match o with Ok a => k a tx' w' | Throw e => (w', Ok (tx', Throw e)) end) as ->
    by (unfold mbind, Tx_bind, M_bind, mbind; rewrite E; destruct o; reflexivity).
  destruct o as [a|e].
  - destruct HQ as (w2 & tx2 & o2 & E2 & Ha2 & Hs2 & HQ2). exists w2, tx2, o2. split; [exact E2|].
    split; [eapply aside_then; eassumption | auto].
  - exists w', tx', (Throw e). auto.
Qed.

Lemma txp_mono {A} (m : Tx DB A) (Q Q' : outcome A -> Transaction DB -> World DB -> Prop) tx w :
  txp m Q tx w -> (forall o tx' w', stable w' -> aside w w' -> Q o tx' w' -> Q' o tx' w') -> txp m Q' tx w.
Proof. intros (w' & tx' & o & E & Ha & Hs & HQ) Himp. exists w', tx', o. auto 6. Qed.

Lemma txp_outside {A} (m : M DB A) (Q : outcome A -> Transaction DB -> World DB -> Prop) tx w :
  stable w -> aside w (m w).1 -> (stable (m w).1 -> Q (m w).2 tx (m w).1) -> txp (outside m) Q tx w.
Proof.
  intros Hs Ha HQ. destruct (stable_aside _ _ _ Hs Ha) as [Hs' _]. exists (m w).1, tx, (m w).2. split; [|auto].
  unfold outside, tryCatch, mbind, M_bind. now destruct (m w) as [w' [a|e]].
Qed.

Lemma txp_systemIso (Q : outcome string -> Transaction DB -> World DB -> Prop) tx w :
  stable w -> (forall o w', stable w' -> aside w w' -> Q o tx w') -> txp (outside systemIso) Q tx w.
Proof.
  intros Hs HQ. assert (aside w (systemIso w).1) as Ha by (unfold systemIso, systemMs, isoString, ofOutcome, mbind, M_bind; aside_tac).
  apply txp_outside; [exact Hs | exact Ha|]. intros Hs'. now apply HQ.
Qed.

Variable endpoints : option (string -> M DB (list WebhookEndpoint)).

(** What a pending validation may add, once it has passed. *)
Definition goodWork (ops : list txop) (work : M DB (list txop)) : Prop :=
  exists lookup endpointIds event x, endpoints = Some lookup /\ work = validateAndAdd lookup endpointIds event x /\
    evidenced ops x /\ x_capability x = "webhooks.emit" /\ x_tenantId x = qe_tenantId event /\
    attribute (x_resource x) "eventType" = Some (qe_type event).

Definition good (tx : Transaction DB) w : Prop :=
  collecting (tx_operations tx) w /\ Forall (goodWork (tx_operations tx)) (tx_pending tx).

Lemma goodWork_more ops ops' work : incl ops ops' -> goodWork ops work -> goodWork ops' work.
Proof.
  intros Hi (lookup & ids & event & x & E & Ew & He & Hrest). exists lookup, ids, event, x. split; [exact E|]. split; [exact Ew|].
  split; [eapply evidenced_more; eassumption | exact Hrest].
Qed.

Lemma good_world tx w w' : (forall id, vacant id w -> vacant id w') -> good tx w -> good tx w'.
Proof. intros Hv [Hc Hp]. split; [eapply collecting_world; eassumption | exact Hp]. Qed.

Lemma good_aside tx w w' : aside w w' -> good tx w -> good tx w'.
Proof. intros Ha. apply good_world. intros id Hv. eapply vacant_aside; eassumption. Qed.

(** An identifier nobody uses, nor the transaction. *)
Definition unused id (tx : Transaction DB) w : Prop := vacant id w /\ ~ In id (serviceIds (tx_operations tx)).

Lemma unused_aside id tx w w' : aside w w' -> unused id tx w -> unused id tx w'.
Proof. intros Ha [Hv Hn]. split; [eapply vacant_aside; eassumption | exact Hn]. Qed.

Lemma txp_uuid (Q : outcome string -> Transaction DB -> World DB -> Prop) tx w :
  stable w -> good tx w -> (forall id w', stable w' -> good tx w' -> unused id tx w' -> Q (Ok id) tx w') ->
  txp (outside randomUUID) Q tx w.
Proof.
  intros Hs Hg HQ. assert (aside w (randomUUID w).1) as Ha by aside_tac.
  apply txp_outside; [exact Hs | exact Ha|]. intros Hs'. apply HQ; [exact Hs' | eapply good_aside; eassumption|]. split.
  - split; [exists (w_fresh w); cbn; split; [lia | reflexivity]|]. intros V c. cbn. apply Hs. lia.
  - destruct Hg as [[_ _ Hv] _]. intros Hin. rewrite Forall_forall in Hv. apply list_elem_of_In in Hin.
    destruct (Hv _ Hin) as ((m & Hm & E) & _). destruct Hs as (_ & _ & (Hj & _) & _). cbn in E. apply Hj in E. lia.
Qed.

Lemma txp_now id (Q : outcome string -> Transaction DB -> World DB -> Prop) tx w :
  stable w -> good tx w -> unused id tx w -> (forall now w', stable w' -> good tx w' -> unused id tx w' -> Q (Ok now) tx w') ->
  (forall e w', stable w' -> good tx w' -> Q (Throw e) tx w') -> txp (outside systemIso) Q tx w.
Proof.
  intros Hs Hg Hi Hok Hno. apply txp_systemIso; [exact Hs|]. intros [now|e] w' Hs' Ha.
  - apply Hok; [exact Hs' | eapply good_aside; eassumption | eapply unused_aside; eassumption].
  - apply Hno; [exact Hs' | eapply good_aside; eassumption].
Qed.

(** Queueing what is grounded, under a new identifier. *)
Lemma txp_queue {V} (c : coll V) id v x tx w (Q : outcome unit -> Transaction DB -> World DB -> Prop) :
  stable w -> good tx w -> unused id tx w ->
  evidenced (tx_operations tx ++ [TxPut c id true None v]) x -> groundedRecord c x v ->
  (forall tx', good tx' w -> tx_operations tx' = (tx_operations tx ++ [TxPut c id true None v])%list -> Q (Ok tt) tx' w) ->
  txp (queue (TxPut c id true None v)) Q tx w.
Proof.
  intros Hs [Hc Hp] [Hv Hn] He Hr HQ. eapply txp_pure; [reflexivity | exact Hs|]. apply HQ; [|reflexivity]. split; cbn [tx_operations tx_pending].
  - apply collecting_app; [exact Hc | | apply NoDup_singleton | constructor; [now split | constructor]].
    constructor; [|constructor]. split; [reflexivity|]. split; [reflexivity|]. eauto.
  - eapply Forall_impl; [exact Hp|]. intros work. apply goodWork_more, incl_appl, incl_refl.
Qed.

(** ** The calls *)

Lemma evidenced_snoc ops op x : evidenced ops x -> evidenced (ops ++ [op]) x.
Proof. apply evidenced_more, incl_appl, incl_refl. Qed.

Definition goodEnd {A} (_ : outcome A) (tx : Transaction DB) w : Prop := good tx w.

Lemma txp_authorized (gateway : option (ServiceGateway DB)) context cap tenant type
  (Q : outcome ServiceExecutionContext -> Transaction DB -> World DB -> Prop) tx w :
  stable w -> good tx w -> genuineInput context ->
  (forall e tx' w', stable w' -> good tx' w' -> Q (Throw e) tx' w') ->
  (forall x tx' w', stable w' -> good tx' w' -> evidenced (tx_operations tx') x -> x_capability x = cap ->
     x_tenantId x = tenant -> Q (Ok x) tx' w') ->
  txp (authorized gateway context cap tenant type) Q tx w.
Proof.
  intros Hs Hg Hx Hno Hok. unfold authorized. destruct gateway as [gw|]; [|apply txp_throw; auto].
  apply txp_bind. assert (aside w (consumeExecutionContext context cap (Some tenant) w).1) as Ha.
  { unfold consumeExecutionContext, systemMs, ofOutcome, ask, modify, mbind, M_bind. cbn.
    destruct (assertExecutionContext _ _ _ _); [|aside_tac]. case_bool_decide; aside_tac. }
  apply txp_outside; [exact Hs | exact Ha|]. intros Hs'. pose proof (good_aside _ _ _ Ha Hg) as Hg'. revert Hs' Hg'.
  destruct (consumeExecutionContext context cap (Some tenant) w) as [w1 [x|e]] eqn:E; cbn [fst snd]; intros Hs1 Hg1; [|now apply Hno].
  assert (context = Issued x /\ x_capability x = cap /\ x_tenantId x = tenant) as (-> & Hcap & Hten).
  { unfold consumeExecutionContext in E. inv_run. destruct (a1 : bool); inv_run.
    apply assertContext_spec in Hm0 as (-> & Hc & Ht & _). auto. }
  destruct (negb _); [apply txp_throw; auto|].
  apply txp_bind, txp_uuid; [exact Hs1 | exact Hg1|]. intros id w2 Hs2 Hg2 Hi2.
  apply txp_bind, (txp_now id); [exact Hs2 | exact Hg2 | exact Hi2 | | intros; now apply Hno]. intros now w3 Hs3 Hg3 Hi3.
  assert (evidenced (tx_operations tx ++ [TxPut CEvidence id true None (transactionEvidence x id now)]) x) as He.
  { split; [exact Hx|]. exists id, now. apply in_or_app. right. now left. }
  apply txp_bind, (txp_queue _ _ _ x); [exact Hs3 | exact Hg3 | exact Hi3 | exact He | cbn; eauto|].
  intros tx' Hg' Eo. apply txp_ret; [exact Hs3|]. apply Hok; try assumption. now rewrite Eo.
Qed.

Lemma txp_queueJob gateway input context tx w :
  stable w -> good tx w -> genuineInput context -> txp (queueJob gateway input context) goodEnd tx w.
Proof.
  intros Hs Hg Hx. unfold queueJob. apply txp_bind, txp_authorized; [exact Hs | exact Hg | exact Hx | auto|].
  clear Hs Hg. intros x tx1 w1 Hs Hg He Hc Ht. destruct (negb _) eqn:Ejt; [apply txp_throw; assumption|].
  case_match; [apply txp_throw; assumption|]. apply negb_false_iff in Ejt. apply oeqb_true in Ejt.
  apply txp_bind, txp_uuid; [exact Hs | exact Hg|]. intros id w2 Hs2 Hg2 Hi2.
  apply txp_bind, (txp_now id); [exact Hs2 | exact Hg2 | exact Hi2 | | auto]. intros now w3 Hs3 Hg3 Hi3.
  apply txp_bind, (txp_queue _ _ _ x); [exact Hs3 | exact Hg3 | exact Hi3 | now apply evidenced_snoc | cbn; auto 6|].
  intros tx2 Hg4 E2. apply txp_bind, txp_uuid; [exact Hs3 | exact Hg4|]. intros auditId w4 Hs4 Hg5 Hi4.
  apply txp_bind, (txp_queue _ _ _ x); [exact Hs4 | exact Hg5 | exact Hi4 | | cbn; auto |].
  { rewrite E2. now do 2 apply evidenced_snoc. }
  intros tx3 Hg6 _. now apply txp_ret.
Qed.

Lemma checkContent_spec input : checkQueuedContent input = Ok tt ->
  noCredentials (JStr (qn_title input)) /\ (forall b, qn_body input = Some b -> noCredentials (JStr b)) /\
  forall d, qn_data input = Some d -> noCredentials d.
Proof.
  unfold checkQueuedContent, mbind, outcome_bind. intros E.
  destruct (assertNoCredentials _ _) as [[]|e] eqn:E1 in E; [|discriminate E]. apply guard_ok in E1.
  split; [exact E1|]. split; intros v Ev; rewrite Ev in E.
  - destruct (assertNoCredentials _ _) as [[]|e] eqn:E2 in E; [|discriminate E]. now apply guard_ok in E2.
  - destruct (qn_body input); [destruct (assertNoCredentials (JStr s) _) as [[]|e]; [|discriminate E]|];
      (destruct (assertNoCredentials v _) as [[]|e] eqn:E2 in E; [|discriminate E]); now apply guard_ok in E2.
Qed.

Lemma txp_queueNotification gateway input context tx w :
  stable w -> good tx w -> genuineInput context -> txp (queueNotification gateway input context) goodEnd tx w.
Proof.
  intros Hs Hg Hx. unfold queueNotification. apply txp_bind, txp_authorized; [exact Hs | exact Hg | exact Hx | auto|].
  clear Hs Hg. intros x tx1 w1 Hs Hg He Hc Ht. destruct (negb _) eqn:Er; [apply txp_throw; assumption|].
  apply negb_false_iff in Er. apply oeqb_true in Er.
  apply txp_bind, txp_outcome; [exact Hs|]. destruct (checkQueuedContent input) as [[]|e] eqn:Ec; [|assumption].
  apply checkContent_spec in Ec as (Hn1 & Hn2 & Hn3).
  apply txp_bind, txp_uuid; [exact Hs | exact Hg|]. intros id w2 Hs2 Hg2 Hi2.
  apply txp_bind, (txp_now id); [exact Hs2 | exact Hg2 | exact Hi2 | | auto]. intros now w3 Hs3 Hg3 Hi3.
  apply txp_bind, (txp_queue _ _ _ x); [exact Hs3 | exact Hg3 | exact Hi3 | now apply evidenced_snoc | cbn; auto 9|].
  intros tx2 Hg4 E2. apply txp_bind, txp_uuid; [exact Hs3 | exact Hg4|]. intros deliveryId w4 Hs4 Hg5 Hi4.
  apply txp_bind, (txp_queue _ _ _ x); [exact Hs4 | exact Hg5 | exact Hi4 | | cbn; auto |].
  { rewrite E2. now do 2 apply evidenced_snoc. }
  intros tx3 Hg6 E3. apply txp_bind, txp_uuid; [exact Hs4 | exact Hg6|]. intros auditId w5 Hs5 Hg7 Hi5.
  apply txp_bind, (txp_queue _ _ _ x); [exact Hs5 | exact Hg7 | exact Hi5 | | cbn; auto |].
  { rewrite E3, E2. now do 3 apply evidenced_snoc. }
  intros tx4 Hg8 _. now apply txp_ret.
Qed.

Lemma txp_queueWebhooks gateway ids event context tx w :
  stable w -> good tx w -> genuineInput context -> txp (queueWebhookDeliveries gateway endpoints ids event context) goodEnd tx w.
Proof.
  intros Hs Hg Hx. unfold queueWebhookDeliveries. apply txp_bind, txp_authorized; [exact Hs | exact Hg | exact Hx | auto|].
  clear Hs Hg. intros x tx1 w1 Hs [Hc Hp] He Hcap Ht. destruct (negb _) eqn:Ety; [now apply txp_throw; [|split]|].
  apply negb_false_iff in Ety. apply oeqb_true in Ety.
  destruct endpoints as [lookup|] eqn:El; [|now apply txp_throw; [|split]].
  eapply txp_pure; [reflexivity | exact Hs|]. split; [exact Hc|]. cbn [tx_pending tx_operations].
  apply Forall_app. split; [exact Hp|]. constructor; [|constructor]. exists lookup, ids, event, x. auto 8.
Qed.

Definition genuineCall (call : TransactionCall) : Prop :=
  match call with
  | QueueWebhookDeliveries _ _ context | QueueJob _ context | QueueNotification _ context => genuineInput context
  | _ => True
  end.

Lemma good_application op tx w : assertApplicationCollection (to_collection op) = Ok tt -> good tx w ->
  good (mkTransaction (tx_operations tx ++ [applicationOperation op])%list (tx_pending tx)) w.
Proof.
  intros Ha [Hc Hp]. split; cbn [tx_operations tx_pending].
  - apply collecting_app; [exact Hc | now constructor | constructor | constructor].
  - eapply Forall_impl; [exact Hp|]. intros work. apply goodWork_more, incl_appl, incl_refl.
Qed.

Lemma txp_application op (k : Tx DB unit) tx w :
  stable w -> good tx w -> k = queue (applicationOperation op) ->
  txp (_ ← (_ ← txOutcome (assertApplicationCollection (to_collection op)); k); mret "") goodEnd tx w.
Proof.
  intros Hs Hg ->. apply txp_bind, txp_bind, txp_outcome; [exact Hs|].
  destruct (assertApplicationCollection _) as [[]|] eqn:E; [|exact Hg].
  eapply txp_pure; [reflexivity | exact Hs|]. apply txp_ret; [exact Hs|]. now apply good_application.
Qed.

Lemma txp_call gateway call tx w :
  stable w -> good tx w -> genuineCall call -> txp (callContext gateway endpoints call) goodEnd tx w.
Proof.
  intros Hs Hg Hx. destruct call as [op|name value id|name id v u|ids event context|input context|input context]; cbn [callContext].
  - now apply (txp_application op).
  - now apply (txp_application (mkOperation name id value true false None)).
  - now apply (txp_application (mkOperation name id u false false (Some v))).
  - apply txp_bind. eapply txp_mono; [now apply txp_queueWebhooks|]. intros [[]|e] tx' w' Hs' _ Hg'; [now apply txp_ret | exact Hg'].
  - now apply txp_queueJob.
  - now apply txp_queueNotification.
Qed.

(** ** Callbacks

    A callback presents contexts the gateway issued, and what else it awaits
    is civil and keeps [K]. *)

Variable K : DB -> DB -> Prop.
Context `{!PreOrder K}.

Definition awaitable {A} (m : M DB A) : Prop := civil m /\ forall w, stable w -> K (w_db w) (w_db (m w).1).

Inductive honest {T} : Callback DB T -> Prop :=
| honest_done o : honest (Done o)
| honest_call call k : genuineCall call -> (forall o, honest (k o)) -> honest (Call call k)
| honest_await A (m : M DB A) k : awaitable m -> (forall w, stable w -> honest (k (m w).2)) -> honest (Await m k).

(** What [services.authorize] issues may be presented. *)
Lemma honest_authorize {T} cap caller type tenantId id attributes (k : outcome ServiceExecutionContext -> Callback DB T) :
  hostCivil g -> (forall w, stable w -> K (w_db w) (w_db (authorizeEffect g cap caller type tenantId id attributes w).1)) ->
  (forall x, genuine x -> honest (k (Ok x))) -> (forall e, honest (k (Throw e))) ->
  honest (Await (authorizeEffect g cap caller type tenantId id attributes) k).
Proof.
  intros Hh HK Hok Hno. constructor; [split; [now apply civil_authorizeEffect | exact HK]|]. intros w _.
  destruct (authorizeEffect g cap caller type tenantId id attributes w) as [w' [x|e]] eqn:E; cbn [snd]; [|apply Hno].
  apply Hok. unfold authorizeEffect in E. inv_run. apply authorize_inv in E as (c & p & Hi). do 6 eexists. exact Hi.
Qed.

(** Where a run ends. *)
Definition reached w w' : Prop := stable w' /\ onward w w' /\ K (w_db w) (w_db w').

Lemma reached_refl w : stable w -> reached w w.
Proof. intros Hs. split; [exact Hs|]. split; reflexivity. Qed.

Lemma reached_then w1 w2 w3 : reached w1 w2 -> reached w2 w3 -> reached w1 w3.
Proof. intros (_ & O1 & K1) (S2 & O2 & K2). split; [exact S2|]. split; etransitivity; eassumption. Qed.

Lemma reached_aside w w' : stable w' -> stable w -> aside w w' -> reached w w'.
Proof.
  intros Hs' Hs Ha. split; [exact Hs'|]. split; [now apply stable_aside|]. destruct Ha as (-> & _). reflexivity.
Qed.

Lemma outside_run {A} (m : M DB A) (tx : Transaction DB) w : outside m tx w = ((m w).1, Ok (tx, (m w).2)).
Proof. unfold outside, tryCatch, mbind, M_bind. now destruct (m w) as [w' [a|e]]. Qed.

Lemma runCallback_good {T} gateway (callback : Callback DB T) : honest callback -> forall tx w, stable w -> good tx w ->
  exists w' tx' o, runCallback gateway endpoints callback tx w = (w', Ok (tx', o)) /\ reached w w' /\ good tx' w'.
Proof.
  intros Hh. induction Hh as [o|call k Hx _ IH|A m k [Hm HK] _ IH]; intros tx w Hs Hg; cbn [runCallback].
  - exists w, tx, o. split; [reflexivity|]. split; [now apply reached_refl | exact Hg].
  - destruct (txp_call gateway call tx w Hs Hg Hx) as (w1 & tx1 & o & E & Ha & Hs1 & Hg1).
    destruct (IH o tx1 w1 Hs1 Hg1) as (w2 & tx2 & o2 & E2 & Hr & Hg2). exists w2, tx2, o2.
    unfold mbind, M_bind. rewrite E. split; [exact E2|]. split; [|exact Hg2].
    eapply reached_then; [apply reached_aside; eassumption | exact Hr].
  - destruct (Hm w Hs) as (Hs1 & Ho1 & Hv1). unfold mbind, M_bind. rewrite outside_run.
    destruct (IH w Hs tx (m w).1 Hs1 (good_world _ _ _ Hv1 Hg)) as (w2 & tx2 & o2 & E2 & Hr & Hg2).
    exists w2, tx2, o2. split; [exact E2|]. split; [|exact Hg2]. eapply reached_then; [|exact Hr]. split; [exact Hs1|]. split; [exact Ho1 | now apply HK].
Qed.

(** ** Settling *)

(** [m] draws identifiers and reads clocks, and ends in [Q]. *)
Definition apart {A} (m : M DB A) (Q : outcome A -> World DB -> Prop) w : Prop :=
  aside w (m w).1 /\ stable (m w).1 /\ Q (m w).2 (m w).1.

Lemma apart_ret {A} (a : A) (Q : outcome A -> World DB -> Prop) w : stable w -> Q (Ok a) w -> apart (mret a) Q w.
Proof. intros Hs HQ. split; [apply aside_refl|]. auto. Qed.

Lemma apart_bind {A B} (m : M DB A) (k : A -> M DB B) Q w :
  apart m (fun o w' => match o with Ok a => apart (k a) Q w' | Throw e => Q (Throw e) w' end) w -> apart (m ≫= k) Q w.
Proof.
  unfold apart, mbind, M_bind. destruct (m w) as [w1 [a|e]]; cbn [fst snd]; [|auto].
  intros (Ha & _ & Ha2 & Hs & HQ). split; [eapply aside_then; eassumption | auto].
Qed.

Lemma apart_mono {A} (m : M DB A) (Q Q' : outcome A -> World DB -> Prop) w :
  apart m Q w -> (forall o w', stable w' -> aside w w' -> Q o w' -> Q' o w') -> apart m Q' w.
Proof. intros (Ha & Hs & HQ) Himp. split; [exact Ha|]. auto. Qed.

Lemma apart_iso (Q : outcome string -> World DB -> Prop) w :
  stable w -> (forall o w', stable w' -> aside w w' -> Q o w') -> apart systemIso Q w.
Proof.
  intros Hs HQ. assert (aside w (systemIso w).1) as Ha by (unfold systemIso, systemMs, isoString, ofOutcome, mbind, M_bind; aside_tac).
  destruct (stable_aside _ _ _ Hs Ha) as [Hs' _]. split; [exact Ha|]. auto.
Qed.

Lemma vacant_all ids w w' : aside w w' -> Forall (fun id => vacant id w) ids -> Forall (fun id => vacant id w') ids.
Proof. intros Ha Hv. eapply Forall_impl; [exact Hv|]. intros id Hi. eapply vacant_aside; [exact Hi | exact Ha]. Qed.

Lemma apart_uuid before (Q : outcome string -> World DB -> Prop) w :
  stable w -> Forall (fun id => vacant id w) before ->
  (forall id w', stable w' -> aside w w' -> Forall (fun id => vacant id w') (id :: before) -> ~ In id before -> Q (Ok id) w') ->
  apart randomUUID Q w.
Proof.
  intros Hs Hb HQ. assert (aside w (randomUUID w).1) as Ha by aside_tac. destruct (stable_aside _ _ _ Hs Ha) as [Hs' _].
  split; [exact Ha|]. split; [exact Hs'|]. apply HQ; [exact Hs' | exact Ha | |].
  - constructor; [|eapply vacant_all; eassumption]. split; [exists (w_fresh w); cbn; split; [lia | reflexivity]|].
    intros V c. cbn. apply Hs. lia.
  - intros Hin. rewrite Forall_forall in Hb. apply list_elem_of_In in Hin.
    destruct (Hb _ Hin) as ((m & Hm & E) & _). destruct Hs as (_ & _ & (Hj & _) & _). apply Hj in E. lia.
Qed.

Definition isDelivery event x (op : txop) : Prop :=
  exists eventId createdAt id endpointId, op = TxPut CDeliveries id true None (deliveryOf event x eventId createdAt id endpointId).

(** Identifiers drawn after those [before]: [new]. *)
Lemma apart_deliveries event x eventId createdAt endpointIds : forall before w, stable w -> Forall (fun id => vacant id w) before ->
  NoDup before ->
  apart (queuedDeliveries event x eventId createdAt endpointIds) (fun o w' => exists new, o = Ok new /\
    Forall (isDelivery event x) new /\ NoDup (before ++ serviceIds new)%list /\
    Forall (fun id => vacant id w') (before ++ serviceIds new)%list) w.
Proof.
  induction endpointIds as [|endpointId rest IH]; intros before w Hs Hb Hd; cbn [queuedDeliveries].
  - apply apart_ret; [exact Hs|]. exists []. rewrite app_nil_r. auto.
  - apply apart_bind, (apart_uuid before); [exact Hs | exact Hb|]. intros id w1 Hs1 Ha1 Hb1 Hn.
    apply apart_bind. eapply apart_mono; [apply (IH (before ++ [id])%list); [exact Hs1 | |]|].
    + apply Forall_cons in Hb1 as [Hi Hb1]. apply Forall_app. auto.
    + apply NoDup_app. split; [exact Hd|]. split; [|apply NoDup_singleton]. intros y Hy ->%list_elem_of_singleton. now apply Hn, list_elem_of_In.
    + intros o w2 Hs2 _ (new & -> & Hf & Hd2 & Hv2). apply apart_ret; [exact Hs2|]. eexists. split; [reflexivity|].
      rewrite <- app_assoc in Hd2, Hv2. split; [constructor; [unfold isDelivery; eauto | exact Hf] | auto].
Qed.

Lemma collecting_more ops new w :
  Forall (grounded ops) ops -> Forall (grounded (ops ++ new)) new -> NoDup (serviceIds ops ++ serviceIds new)%list ->
  Forall (fun id => vacant id w) (serviceIds ops ++ serviceIds new)%list -> collecting (ops ++ new) w.
Proof.
  intros A B C D. split; rewrite ?serviceIds_app; [|exact C | exact D]. apply Forall_app. split; [|exact B].
  eapply Forall_impl; [exact A|]. intros op. apply grounded_more, incl_appl, incl_refl.
Qed.

(** What [addDeliveries] adds belongs to the context. *)
Lemma apart_addDeliveries endpointIds event x ops w :
  stable w -> collecting ops w -> evidenced ops x -> x_capability x = "webhooks.emit" -> x_tenantId x = qe_tenantId event ->
  attribute (x_resource x) "eventType" = Some (qe_type event) ->
  apart (addDeliveries endpointIds event x) (fun o w' => forall new, o = Ok new -> collecting (ops ++ new) w') w.
Proof.
  intros Hs [Hg Hd Hv] He Hcap Ht Hty. unfold addDeliveries. apply apart_bind, (apart_uuid (serviceIds ops)); [exact Hs | exact Hv|].
  intros eventId w1 Hs1 Ha1 Hv1 _. apply Forall_cons in Hv1 as [_ Hv1].
  apply apart_bind, apart_iso; [exact Hs1|]. intros [createdAt|e] w2 Hs2 Ha2; [|discriminate].
  apply apart_bind. eapply apart_mono; [apply (apart_deliveries event x eventId createdAt endpointIds (serviceIds ops));
    [exact Hs2 | eapply vacant_all; eassumption | exact Hd]|].
  intros o w3 Hs3 _ (new & -> & Hf & Hd3 & Hv3). apply apart_bind. eapply apart_uuid; [exact Hs3 | exact Hv3|].
  intros auditId w4 Hs4 _ Hv4 Hn. apply apart_ret; [exact Hs4|]. intros all [= <-]. apply Forall_cons in Hv4 as [Hva Hv4].
  apply collecting_more; [exact Hg | | |]; rewrite ?serviceIds_app, ?(app_assoc (serviceIds ops)).
  - assert (forall more, evidenced (ops ++ more) x) as Hev by (intros more; eapply evidenced_more; [apply incl_appl, incl_refl | exact He]).
    apply Forall_app. split; [eapply Forall_impl; [exact Hf|]; intros op (eid & at_ & id & endpointId & ->)|constructor; [|constructor]];
      (split; [reflexivity|]; split; [reflexivity|]; exists x; split; [apply Hev | cbn; auto]).
  - apply NoDup_app. split; [exact Hd3|]. split; [|apply NoDup_singleton]. intros y Hy ->%list_elem_of_singleton. now apply Hn, list_elem_of_In.
  - apply Forall_app. split; [exact Hv4 | now constructor].
Qed.

(** A run that reaches [Q], having kept [K]. *)
Definition ends {A} (m : M DB A) (Q : outcome A -> World DB -> Prop) w : Prop := reached w (m w).1 /\ Q (m w).2 (m w).1.

Lemma ends_bind {A B} (m : M DB A) (k : A -> M DB B) Q w :
  ends m (fun o w' => match o with Ok a => ends (k a) Q w' | Throw e => Q (Throw e) w' end) w -> ends (m ≫= k) Q w.
Proof.
  unfold ends, mbind, M_bind. destruct (m w) as [w1 [a|e]]; cbn [fst snd]; [|auto].
  intros (Hr & Hr2 & HQ). split; [eapply reached_then; eassumption | exact HQ].
Qed.

Lemma ends_outcome {A} (o : outcome A) (Q : outcome A -> World DB -> Prop) w : stable w -> Q o w -> ends (ofOutcome o) Q w.
Proof. intros Hs HQ. split; [now apply reached_refl | exact HQ]. Qed.

Lemma ends_apart {A} (m : M DB A) Q w : stable w -> apart m Q w -> ends m Q w.
Proof. intros Hs (Ha & Hs' & HQ). split; [now apply reached_aside | exact HQ]. Qed.

Variable endpointsAwaitable : forall lookup tenantId, endpoints = Some lookup -> awaitable (lookup tenantId).

Lemma ends_validate ops work w :
  stable w -> collecting ops w -> goodWork ops work ->
  ends work (fun o w' => forall new, o = Ok new -> collecting (ops ++ new) w') w.
Proof.
  intros Hs Hc (lookup & ids & event & x & El & -> & He & Hcap & Ht & Hty). unfold validateAndAdd.
  destruct (endpointsAwaitable lookup (qe_tenantId event) El) as [Hm HK]. apply ends_bind.
  destruct (Hm w Hs) as (Hs1 & Ho1 & Hv1). split; [split; [exact Hs1|]; split; [exact Ho1 | now apply HK]|].
  destruct (lookup (qe_tenantId event) w) as [w1 [registered|e]]; cbn [fst snd] in *; [|discriminate].
  apply ends_bind, ends_outcome; [exact Hs1|]. destruct (checkEndpoints _ _ _ _) as [[]|e]; [|discriminate].
  apply ends_apart, apart_addDeliveries; try assumption. eapply collecting_world; eassumption.
Qed.

Lemma ends_settle pending : forall ops w, stable w -> collecting ops w -> Forall (goodWork ops) pending ->
  ends (settle pending ops) (fun o w' => forall all, o = Ok all -> collecting all w') w.
Proof.
  induction pending as [|work rest IH]; intros ops w Hs Hc Hp; cbn [settle].
  - apply (ends_outcome (Ok ops)); [exact Hs|]. now intros all [= <-].
  - apply Forall_cons in Hp as [Hw Hp]. apply ends_bind. destruct (ends_validate ops work w Hs Hc Hw) as [Hr HQ].
    split; [exact Hr|]. destruct (work w) as [w1 [added|e]]; cbn [fst snd] in *; [|discriminate].
    apply IH; [apply Hr | now apply HQ|]. eapply Forall_impl; [exact Hp|]. intros v. apply goodWork_more, incl_appl, incl_refl.
Qed.

(** The callback and the validations write nothing of their own, and what they collect is grounded. *)
Lemma collect_good {T} gateway (callback : Callback DB T) w : honest callback -> stable w ->
  ends (collect gateway endpoints callback) (fun o w' => forall result ops, o = Ok (result, ops) -> collecting ops w') w.
Proof.
  intros Hh Hs. unfold collect.
  destruct (runCallback_good gateway callback Hh newTransaction w Hs) as (w1 & tx & o & E & Hr & Hc & Hp).
  { split; [apply collecting_nil | constructor]. }
  apply ends_bind. split; rewrite E; cbn [fst snd]; [exact Hr|].
  apply ends_bind, ends_outcome; [apply Hr|]. destruct o as [result|e]; [|discriminate].
  apply ends_bind. destruct (ends_settle _ _ _ (proj1 Hr) Hc Hp) as [Hr2 HQ]. split; [exact Hr2|].
  destruct (settle _ _ w1) as [w2 [ops|e]]; cbn [fst snd] in *; [|discriminate].
  apply (ends_outcome (Ok (result, ops))); [apply Hr2|]. intros r all [= <- <-]. now apply HQ.
Qed.

(** ** The keys of a collection *)

Fixpoint applicationKeys (ops : list txop) : list (string * string) :=
  match ops with
  | [] => []
  | TxApplication name id _ _ _ _ :: rest => (name, id) :: applicationKeys rest
  | TxPut _ _ _ _ _ :: rest => applicationKeys rest
  end.

Lemma serviceIds_in {V} (c : coll V) id a e v ops : In (TxPut c id a e v) ops -> In id (serviceIds ops).
Proof. induction ops as [|[] ops IH]; cbn; [tauto|intros [[=]|Hin]|intros [[=]|Hin]]; try subst; auto. Qed.

Lemma applicationKeys_in name id a p e v ops : In (TxApplication name id a p e v) ops -> In (name, id) (applicationKeys ops).
Proof. induction ops as [|[] ops IH]; cbn; [tauto|intros [[=]|Hin]|intros [[=]|Hin]]; try subst; auto. Qed.

Lemma groundedRecord_service {V} (c : coll V) x v name : groundedRecord c x v -> cname c <> cname (CApplication name).
Proof. destruct c; cbn; first [discriminate | tauto]. Qed.

Lemma grounded_keys all ops : Forall (grounded all) ops -> NoDup (serviceIds ops) -> NoDup (applicationKeys ops) -> NoDup (map txKey ops).
Proof.
  induction ops as [|op ops IH]; [constructor|]. intros Hg Hs Ha. apply Forall_cons in Hg as [Hop Hg].
  rewrite Forall_forall in Hg.
  assert (forall k, In k (map txKey ops) -> exists op', In op' ops /\ grounded all op' /\ txKey op' = k) as Hin.
  { intros k (op' & <- & Hi)%in_map_iff. exists op'. split; [exact Hi|]. split; [now apply Hg, list_elem_of_In | reflexivity]. }
  cbn [map]. destruct op as [V c id absent version v|name id absent pr version v]; cbn [serviceIds applicationKeys] in *.
  - apply NoDup_cons in Hs as [Hn Hs]. constructor; [|apply IH; [now rewrite Forall_forall | assumption..]].
    intros (op' & Hi & Hg' & Ek)%list_elem_of_In%Hin. destruct op' as [V' c' id' a' e' v'|name' id' a' p' e' v'].
    + injection Ek as _ ->. apply Hn, list_elem_of_In. eapply serviceIds_in, Hi.
    + injection Ek as Ek _. destruct Hop as (_ & _ & x & _ & Hr). exact (groundedRecord_service _ _ _ _ Hr (eq_sym Ek)).
  - apply NoDup_cons in Ha as [Hn Ha]. constructor; [|apply IH; [now rewrite Forall_forall | assumption..]].
    intros (op' & Hi & Hg' & Ek)%list_elem_of_In%Hin. destruct op' as [V' c' id' a' e' v'|name' id' a' p' e' v'].
    + injection Ek as Ek _. destruct Hg' as (_ & _ & x & _ & Hr). exact (groundedRecord_service _ _ _ _ Hr Ek).
    + injection Ek as -> ->. apply Hn, list_elem_of_In. eapply applicationKeys_in, Hi.
Qed.

(** ** The commit *)

Lemma run_collected {T} gateway (callback : Callback DB T) w w1 result ops :
  collect gateway endpoints callback w = (w1, Ok (result, ops)) ->
  runTransaction gateway endpoints callback w =
    match commit ops w1 with (w2, Ok _) => (w2, Ok result) | (w2, Throw e) => (w2, Throw e) end.
Proof. intros E. unfold runTransaction, mbind, M_bind. rewrite E. now destruct (commit ops w1) as [w2 []]. Qed.

Lemma run_refused {T} gateway (callback : Callback DB T) w w1 e :
  collect gateway endpoints callback w = (w1, Throw e) -> runTransaction gateway endpoints callback w = (w1, Throw e).
Proof. intros E. unfold runTransaction, mbind, M_bind. now rewrite E. Qed.

(** Either everything is written to the store the others left, or nothing. *)
Lemma commit_cases ops w : ops <> [] -> stable w -> NoDup (map txKey ops) ->
  (Exists (fun o => ~ txReady (w_db (interfere w)) o) ops /\
     exists m, commit ops w = (interfere w, Throw (ConditionalConflictError m))) \/
  (Forall (txReady (w_db (interfere w))) ops /\ exists w2, commit ops w = (w2, Ok tt) /\ Forall (txDone (w_db w2)) ops /\
     forall V (c : coll V) k, (cname c, k) ∉ map txKey ops -> peek c k (w_db w2) = peek c k (w_db (interfere w))).
Proof.
  intros Hne Hs Hd. destruct (stable_interfere _ w Hs) as ((Hu & _) & _).
  assert (commit ops w = transaction ops w) as -> by now destruct ops. unfold transaction, dbop.
  destruct (List.Forall_Exists_dec _ (txReady_dec (w_db (interfere w))) ops) as [Hready|Hno].
  - right. split; [exact Hready|]. destruct (law_commit ops _ Hu Hd Hready) as (db' & -> & _ & Hdone & Hfr). eauto.
  - left. split; [exact Hno|]. destruct (law_conflict ops _ Hu Hno) as (m & ->). exists m. cbn [fst snd]. now rewrite world_db_eta.
Qed.

Lemma grounded_fresh all ops db : Forall (grounded all) ops -> Forall (txReady db) ops ->
  Forall (fun op => match op with TxPut c id _ _ _ => peek c id db = None | _ => True end) ops.
Proof.
  rewrite !Forall_forall. intros Hg Hr op Hin. specialize (Hg op Hin). specialize (Hr op Hin).
  destruct op as [V c id absent version v|]; [|exact I]. cbn in Hg, Hr. destruct Hg as (-> & -> & _).
  destruct (peek c id db); [now destruct Hr | reflexivity].
Qed.

(** A queued job's principal is the identity its evidence attests. *)
Lemma grounded_attested ops id a version j db :
  In (TxPut CJobs id a version j) ops -> Forall (grounded ops) ops -> Forall (txDone db) ops ->
  attestedBy g (j_principal j) ["jobs.create"] db.
Proof.
  intros Hin Hg Hdone. rewrite Forall_forall in Hg, Hdone. apply list_elem_of_In in Hin.
  destruct (Hg _ Hin) as (_ & _ & x & (Hx & eid & now & Hev) & (Hcap & _ & _ & _ & ->)). apply list_elem_of_In, Hdone in Hev. cbn in Hev.
  destruct Hx as (name & caller & r & requestId & c & p & Hi). do 4 eexists. split; [reflexivity|].
  cbn [toDurablePrincipal dp_authorizedBy]. pose proof (is_decision _ _ _ _ _ _ _ _ Hi) as Hd.
  split; [unfold ifPresent, decisionOf; now rewrite (proj2 (truthy_spec _) Hd)|]. split; [exact Hd|]. split; [exact Hev|].
  pose proof (is_admitted _ _ _ _ _ _ _ _ Hi) as (_ & _ & -> & _ & Htenant & _). cbn -[ifPresent].
  rewrite (is_application _ _ _ _ _ _ _ _ Hi), (is_tenant _ _ _ _ _ _ _ _ Hi), (is_principal _ _ _ _ _ _ _ _ Hi), Hcap.
  do 4 (split; [auto|]). do 2 (split; [reflexivity|]). split; [|auto].
  rewrite <- (is_principal _ _ _ _ _ _ _ _ Hi). unfold effectiveDelegation. destruct (attribute _ _); [reflexivity|]. now destruct (vp_delegationId _).
Qed.
End props.
