(* ===== verification/TransactionProps.v ===== *)
(** * TransactionProps: the properties of transactions

    All of a transaction or none of it, and only what issued contexts allow.
    The concrete runs at the end show what the callback's freedom to catch
    leaves behind. *)

From S2P Require Import Prelude JsString JsTime Errors Models Store Calm MemStore Principal Manifest Evidence Gateway Rely GatewayFacts Sensitive Jobs Notifications NotificationFacts Webhooks Transactions TransactionFacts Demo.
From Stdlib Require Import ZArith Lia Ascii.
Local Open Scope string_scope.
Local Open Scope Z_scope.

Section props.
Context {DB : Type} `{FeltDBLaws DB}.
Variable g : ServiceGateway DB.
Implicit Types w : World DB.
Variable endpoints : option (string -> M DB (list WebhookEndpoint)).
(** What the awaited work may do to the store. *)
Variable K : DB -> DB -> Prop.
Context `{!PreOrder K}.
#[local] Abbreviation stable := (stable evidenceProtocol).

(** C18: A transaction is all or nothing.  While other processes write to the
    store, the callback queues what it likes and presents contexts that the
    gateway issued.  If it throws, or a validation does, the run ends there
    and has written nothing but what the awaited work wrote itself.
    Otherwise everything collected is an operation on an application
    collection or a new record that an issued context allows, with that
    context's evidence among the rest; and the commit either finds the store
    not as required and is refused, with the store as the others left it, or
    writes every operation in one step, changes nothing else, and replaces no
    record of the services. *)
Theorem transaction_all_or_nothing {T} gateway (callback : Callback DB T) w :
  honest g K callback -> (forall lookup tenantId, endpoints = Some lookup -> awaitable K (lookup tenantId)) -> stable w ->
  match collect gateway endpoints callback w with
  | (w1, Throw e) => runTransaction gateway endpoints callback w = (w1, Throw e) /\ K (w_db w) (w_db w1)
  | (w1, Ok (result, ops)) =>
      let before := w_db (interfere w1) in
      K (w_db w) (w_db w1) /\ Forall (grounded g ops) ops /\
      (NoDup (applicationKeys ops) ->
       (ops = [] /\ runTransaction gateway endpoints callback w = (w1, Ok result)) \/
       (exists m, Exists (fun op => ~ txReady before op) ops /\
          runTransaction gateway endpoints callback w = (interfere w1, Throw (ConditionalConflictError m))) \/
       (exists w2, runTransaction gateway endpoints callback w = (w2, Ok result) /\ Forall (txDone (w_db w2)) ops /\
          (forall V (c : coll V) k, (cname c, k) ∉ map txKey ops -> peek c k (w_db w2) = peek c k before) /\
          Forall (fun op => match op with TxPut c id _ _ _ => peek c id before = None | _ => True end) ops))
  end.
Proof.
  intros Hh He Hs. destruct (collect_good g endpoints K He gateway callback w Hh Hs) as [(Hs1 & _ & HK) Hc].
  destruct (collect gateway endpoints callback w) as [w1 [[result ops]|e]] eqn:Ec; cbn [fst snd] in *;
    [rewrite (run_collected _ _ _ _ _ _ _ Ec) | split; [now apply run_refused | exact HK]].
  destruct (Hc result ops eq_refl) as [Hg Hd Hv]. split; [exact HK|]. split; [exact Hg|]. intros Ha.
  destruct ops as [|op ops]; [now left|]. right. remember (op :: ops) as all eqn:Eall.
  destruct (commit_cases all w1) as [(Hno & m & E)|(Hr & w2 & E & Hdone & Hfr)];
    [subst; discriminate | exact Hs1 | eapply grounded_keys; eassumption | left | right]; rewrite E.
  - eauto.
  - exists w2. split; [reflexivity|]. split; [exact Hdone|]. split; [exact Hfr|]. eapply grounded_fresh; eassumption.
Qed.

(** C19: Every job that a transaction creates can run as the caller who was
    allowed to create it: once the commit has succeeded, the job is stored
    as queued, for the tenant, application and job type that were decided,
    and the store holds evidence that attests its principal for
    [jobs.create], so the worker's check of the job's identity passes. *)
Theorem transaction_jobs_attested {T} gateway (callback : Callback DB T) w w1 w2 result r ops id absent version job :
  honest g K callback -> (forall lookup tenantId, endpoints = Some lookup -> awaitable K (lookup tenantId)) -> stable w ->
  collect gateway endpoints callback w = (w1, Ok (result, ops)) -> NoDup (applicationKeys ops) ->
  runTransaction gateway endpoints callback w = (w2, Ok r) -> In (TxPut CJobs id absent version job) ops ->
  peek CJobs id (w_db w2) = Some job /\ j_applicationId job = Some (g_application g) /\
  (exists x, genuine g x /\ x_capability x = "jobs.create" /\ j_tenantId job = x_tenantId x /\
     attribute (x_resource x) "jobType" = Some (j_type job)) /\
  attestedBy g (j_principal job) ["jobs.create"] (w_db w2).
Proof.
  intros Hh He Hs Ec Ha Er Hin. destruct (collect_good g endpoints K He gateway callback w Hh Hs) as [(Hs1 & _) Hc].
  rewrite (run_collected _ _ _ _ _ _ _ Ec) in Er. rewrite Ec in Hc, Hs1. cbn [fst snd] in *.
  destruct (Hc _ _ eq_refl) as [Hg Hd _]. destruct (commit_cases ops w1) as [(_ & m & E)|(_ & w3 & E & Hdone & _)];
    [now intros -> | exact Hs1 | eapply grounded_keys; eassumption | | ]; rewrite E in Er; [discriminate Er|].
  injection Er as -> _. pose proof (grounded_attested _ _ _ _ _ _ _ Hin Hg Hdone) as Hatt.
  rewrite Forall_forall in Hg, Hdone. apply list_elem_of_In in Hin. split; [exact (Hdone _ Hin)|].
  destruct (Hg _ Hin) as (_ & _ & x & (Hx & _) & Hcap & Ht & Happ & Hty & _).
  split; [|split; [eauto 6 | exact Hatt]]. rewrite Happ. destruct Hx as (? & ? & ? & ? & ? & ? & Hi). f_equal. apply Hi.
Qed.
End props.

(** ** Runs on a store in memory *)

Definition wholeStore : MemDB -> MemDB -> Prop := fun _ _ => True.

#[global] Instance wholeStore_preorder : PreOrder wholeStore.
Proof. split; repeat intro; exact I. Qed.

Definition jobInput (type : string) : QueuedJob := mkQueuedJob "t1" type JNull None None None.

Definition mayQueue (type : string) {T} (k : outcome ServiceExecutionContext -> Callback MemDB T) : Callback MemDB T :=
  Await (authorizeEffect (demoGateway true) "jobs.create" (CVerified alice) "job" None None (Some {[ "jobType" := type ]})) k.

(** An order and the job that ships it. *)
Definition orderCallback : Callback MemDB string :=
  mayQueue "order.ship" (fun o => match o with
    | Ok x => Call (CollectionInsert "orders" (JStr "new") "order-1") (fun _ => Call (QueueJob (jobInput "order.ship") (Issued x)) Done)
    | Throw e => Done (Throw e)
    end).

Lemma demo_hostCivil allowed : hostCivil (DB := MemDB) (demoGateway allowed).
Proof. split; [intros ask rq [= <-] | intros p c r]; apply civil_aside; intros w; aside_tac. Qed.

Lemma orderCallback_honest : honest (demoGateway true) wholeStore orderCallback.
Proof.
  apply honest_authorize; [apply demo_hostCivil | intros; exact I | | intros; constructor].
  intros x Hx. constructor; [exact I|]. intros _. constructor; [exact Hx|]. intros o. constructor.
Qed.

#[local] Abbreviation demoRun callback := (runTransaction (Some (demoGateway true)) None callback (demo emptyDB)).

#[local] Abbreviation orderCollected := (collect (Some (demoGateway true)) None orderCallback (demo emptyDB)).

Definition orderJob : Job :=
  queuedJob (jobInput "order.ship")
    match (authorizeEffect (demoGateway true) "jobs.create" (CVerified alice) "job" None None
             (Some {[ "jobType" := "order.ship" ]}) (demo emptyDB)).2 with
    | Ok x => x
    | Throw _ => mkContext 0 "" "" alice "" 0 "" jobResource "" (mkAuthorization "" "" None None) ""
    end None "uxx" "2023-11-14T22:13:20.000Z".

Lemma orderCollected_ok : exists ops, orderCollected.2 = Ok ("uxx", ops) /\ applicationKeys ops = [("orders", "order-1")] /\
  In (TxPut CJobs "uxx" true None orderJob) ops.
Proof. eexists. split; [vm_compute; reflexivity|]. split; [reflexivity|]. do 2 right. left. vm_compute. reflexivity. Qed.

Lemma orderRun_ok : (demoRun orderCallback).2 = Ok "uxx".
Proof. vm_compute. reflexivity. Qed.

Lemma demo_evidenceStable : stable evidenceProtocol (demo emptyDB).
Proof. apply demo_stable; [exact unused_empty | exact I | intros n; exact I]. Qed.

Lemma transaction_all_or_nothing_witness :
  match orderCollected with
  | (w1, Throw _) => False
  | (w1, Ok (result, ops)) =>
      Forall (grounded (demoGateway true) ops) ops /\
      exists w2, demoRun orderCallback = (w2, Ok result) /\ Forall (txDone (w_db w2)) ops
  end.
Proof.
  pose proof (transaction_all_or_nothing (demoGateway true) None wholeStore (Some (demoGateway true)) orderCallback (demo emptyDB)
    orderCallback_honest ltac:(discriminate) demo_evidenceStable) as Hall.
  destruct orderCollected_ok as (ops & E & Hk & Hin). pose proof orderRun_ok as Hr.
  destruct orderCollected as [w1 [[result ops']|e]]; cbn [snd] in E; [|discriminate E].
  injection E as -> ->. destruct Hall as (_ & Hg & Hall). split; [exact Hg|]. rewrite Hk in Hall.
  destruct (Hall (NoDup_singleton _)) as [[-> _]|[(m & _ & Hx)|(w2 & Hx & Hd & _)]].
  - destruct Hin.
  - rewrite Hx in Hr. discriminate Hr.
  - exists w2. split; [exact Hx | exact Hd].
Defined.

Lemma transaction_jobs_attested_witness :
  attestedBy (demoGateway true) (j_principal orderJob) ["jobs.create"] (w_db (demoRun orderCallback).1).
Proof.
  destruct orderCollected_ok as (ops & E & Hk & Hin).
  eapply (transaction_jobs_attested (demoGateway true) None wholeStore (Some (demoGateway true)) orderCallback (demo emptyDB)
    orderCollected.1 (demoRun orderCallback).1 "uxx" "uxx" ops "uxx" true None orderJob orderCallback_honest ltac:(discriminate) demo_evidenceStable).
  - destruct orderCollected as [w1 o]. cbn [snd] in E. now rewrite E.
  - rewrite Hk. apply NoDup_singleton.
  - pose proof orderRun_ok as Hr. destruct (runTransaction _ _ _ _) as [w2 o]. cbn [snd fst] in *. now rewrite Hr.
  - exact Hin.
Defined.

(** ** What catching leaves behind *)

(** A callback that was allowed to create one job, asks for another, and
    catches the refusal. *)
Definition caughtCallback : Callback MemDB string :=
  mayQueue "order.ship" (fun o => match o with
    | Ok x => Call (QueueJob (jobInput "order.refund") (Issued x)) (fun _ => Done (Ok "caught"))
    | Throw e => Done (Throw e)
    end).

(** The refused effect is committed as one that succeeded. *)
Lemma caught_refusal_leaves_evidence :
  (demoRun caughtCallback).2 = Ok "caught" /\
  (exists row, peek CEvidence "ux" (w_db (demoRun caughtCallback).1) = Some row /\ e_capability row = "jobs.create" /\
     e_outcome row = Succeeded /\ e_decision row = Allow) /\
  forall id, peek CJobs id (w_db (demoRun caughtCallback).1) = None.
Proof.
  split; [vm_compute; reflexivity|]. split; [eexists; split; [vm_compute; reflexivity | vm_compute; auto]|].
  intros id. assert (mJobs (w_db (demoRun caughtCallback).1) = ∅) as E by (vm_compute; reflexivity).
  change (mJobs (w_db (demoRun caughtCallback).1) !! id = None). rewrite E. apply lookup_empty.
Qed.

Definition systemCallback : Callback MemDB string :=
  mayQueue "appport.webhook.deliver" (fun o => match o with
    | Ok x => Call (QueueJob (jobInput "appport.webhook.deliver") (Issued x)) Done
    | Throw e => Done (Throw e)
    end).

(** A transaction queues a job of a type that is reserved for AppPort, which
    [enqueue] refuses to every caller. *)
Lemma transaction_queues_system_job :
  (exists e, assertApplicationJobType "appport.webhook.deliver" = Throw e) /\
  exists job, peek CJobs "uxx" (w_db (demoRun systemCallback).1) = Some job /\ j_type job = "appport.webhook.deliver" /\
    j_status job = JPending.
Proof. split; [eexists; reflexivity|]. eexists. split; [vm_compute; reflexivity | vm_compute; auto]. Qed.
