(* ===== verification/Health.v ===== *)
(** * Health: the state of the services from bounded counts ([runtime/health.ts])

    Every read stops after [limit + 1] records.  The report is a function of
    what the reads returned ([HealthReads]) and of what custody answers about
    each credential binding.  The reads, which the code starts together, are
    made in their order. *)

From S2P Require Import Prelude JsString JsTime Errors Models Store Principal Manifest Bounded Gateway Configuration Intelligence.
From Stdlib Require Import ZArith Lia Ascii.
Local Open Scope string_scope.
Local Open Scope Z_scope.

Inductive ServiceHealthState := HOk | HDegraded | HUnconfigured | HDisabled.

#[global] Instance ServiceHealthState_eq_dec : EqDecision ServiceHealthState.
Proof. solve_decision. Defined.

(** [countLimit] of the caller's options is a JavaScript value. *)
Record ServiceHealthOptions := mkHealthOptions {
  ho_tenantId : jsval;
  ho_countLimit : jsval }.

Record ServiceHealthBase (C : Type) := mkHealth {
  sh_state : ServiceHealthState;
  sh_reasons : list string;
  sh_counts : C }.
Arguments mkHealth {C}. Arguments sh_state {C}. Arguments sh_reasons {C}. Arguments sh_counts {C}.

Record AuthorityHealth := mkAuthorityHealth {
  ah_state : ServiceHealthState;
  ah_reasons : list string;
  ah_authorizer : bool;
  ah_credentials : bool }.

Record ApiKeyCounts := mkApiKeyCounts { nk_keys : Z; nk_active : Z; nk_revoked : Z; nk_expired : Z }.

Record WebhookCounts := mkWebhookCounts {
  nw_endpoints : Z; nw_activeEndpoints : Z; nw_disabledEndpoints : Z;
  nw_pendingDeliveries : Z; nw_retryingDeliveries : Z; nw_failedDeliveries : Z }.

Record JobCounts := mkJobCounts { nj_pending : Z; nj_running : Z; nj_retrying : Z; nj_failed : Z }.

Record ScheduleCounts := mkScheduleCounts { nc_enabled : Z; nc_disabled : Z }.

Record NotificationCounts := mkNotificationCounts {
  no_failedNotifications : Z; no_pendingDeliveries : Z; no_retryingDeliveries : Z; no_failedDeliveries : Z }.

Inductive BindingState := BSet | BMissing | BRevoked | BUnknown.

#[global] Instance BindingState_eq_dec : EqDecision BindingState.
Proof. solve_decision. Defined.

Record CredentialBindingHealth := mkBindingHealth {
  bh_tenantId : string;
  bh_environment : ConfigurationEnvironment;
  bh_name : string;
  bh_state : BindingState;
  bh_version : option Z;
  bh_location : option string;
  bh_writable : option bool }.

Record ConfigurationCounts := mkConfigurationCounts {
  nf_variables : Z; nf_secrets : Z; nf_missingRequired : Z; nf_legacySecretValues : Z; nf_missingMaterial : option Z }.

Record ConfigurationHealth := mkConfigurationHealth {
  fh_base : ServiceHealthBase ConfigurationCounts;
  fh_bindings : option (list CredentialBindingHealth) }.

Record IntelligenceCounts := mkIntelligenceCounts { ni_configured : Z; ni_missingCredentials : Z }.

Record HealthAttention := mkAttention {
  at_failedWebhookDeliveries : Z;
  at_disabledWebhookEndpoints : Z;
  at_failedJobs : Z;
  at_failedNotifications : Z;
  at_failedNotificationDeliveries : Z;
  at_missingSecrets : Z;
  at_legacySecretValues : Z;
  at_missingCredentialMaterial : option Z }.

Record ServicesHealth := mkServicesHealth {
  se_apiKeys : ServiceHealthBase ApiKeyCounts;
  se_webhooks : ServiceHealthBase WebhookCounts;
  se_jobs : ServiceHealthBase JobCounts;
  se_schedules : ServiceHealthBase ScheduleCounts;
  se_notifications : ServiceHealthBase NotificationCounts;
  se_files : ServiceHealthBase Z;
  se_configuration : ConfigurationHealth;
  se_intelligence : ServiceHealthBase IntelligenceCounts }.

Record AppPortServicesHealth := mkServicesReport {
  hr_status : ServiceHealthState;
  hr_checkedAt : string;
  hr_application : string;
  hr_tenantId : option string;
  hr_version : string;
  hr_countLimit : Z;
  hr_cappedCounts : list string;
  hr_authority : AuthorityHealth;
  hr_services : ServicesHealth;
  hr_attention : HealthAttention }.

Definition DEFAULT_HEALTH_COUNT_LIMIT : Z := 1000.
Definition MAX_HEALTH_COUNT_LIMIT : Z := 10000.

Definition countLimitOf (v : jsval) : outcome Z :=
  let refused := Throw (JsError "RangeError" ("countLimit must be an integer from 1 to " ++ num MAX_HEALTH_COUNT_LIMIT)) in
  match v with
  | JUndef | JNull => Ok DEFAULT_HEALTH_COUNT_LIMIT
  | JInt n => if (n <? 1) || (MAX_HEALTH_COUNT_LIMIT <? n) then refused else Ok n
  | _ => refused
  end.

Definition healthTenant (v : jsval) : outcome (option string) :=
  match v with
  | JUndef => Ok None
  | JStr s => if truthy s then Ok (Some s) else Throw (JsError "TypeError" "tenantId must be a non-empty string")
  | _ => Throw (JsError "TypeError" "tenantId must be a non-empty string")
  end.

(** [x.length] *)
Definition count {V} (l : list V) : Z := Z.of_nat (length l).
Definition countIf {V} (p : V -> bool) (l : list V) : Z := count (List.filter p l).

(** ** Reading *)

Record HealthSources (DB : Type) := mkSources {
  src_application : string;
  src_version : string;
  src_authorizer : bool;
  src_credentials : bool;
  src_custody : option (SecretReference -> SecretAccessContext -> M DB (option RawCustodyStatus));
  src_declarations : list ConfigurationDeclaration;
  src_now : option (M DB Z) }.
Arguments mkSources {DB}. Arguments src_application {DB}. Arguments src_version {DB}. Arguments src_authorizer {DB}.
Arguments src_credentials {DB}. Arguments src_custody {DB}. Arguments src_declarations {DB}. Arguments src_now {DB}.

Definition inTenant (tenant : option string) (tenantId : string) : bool :=
  match tenant with Some t => String.eqb tenantId t | None => true end.

Definition ownedRow (application : string) (tenant : option string) (tenantId : string) (applicationId : option string) : bool :=
  inTenant tenant tenantId && oeqb applicationId (Some application).

Definition ownedScope (application : string) (tenant : option string) (scope : ConfigurationScope) : bool :=
  ownedRow application tenant (sc_tenantId scope) (Some (sc_applicationId scope)).

Definition ownedJob application tenant (status : JobStatus) (j : Job) : bool :=
  ownedRow application tenant (j_tenantId j) (j_applicationId j) && bool_decide (j_status j = status).

Definition tenantDelivery tenant (status : WebhookDeliveryStatus) (d : WebhookDelivery) : bool :=
  inTenant tenant (wd_tenantId d) && bool_decide (wd_status d = status).

Definition ownedSchedule application tenant (enabled : bool) (s : JobSchedule) : bool :=
  ownedRow application tenant (s_tenantId s) (s_applicationId s) && Bool.eqb (s_enabled s) enabled.

Definition ownedFailure application tenant (n : Notification) : bool :=
  ownedRow application tenant (n_tenantId n) (n_applicationId n) && bool_decide (n_status n = NFailed).

Definition tenantNotice tenant (status : NotificationDeliveryStatus) (d : NotificationDelivery) : bool :=
  inTenant tenant (nd_tenantId d) && bool_decide (nd_status d = status).

(** What the reads returned, and the paths of those that were capped. *)
Record HealthReads := mkReads {
  re_keys : list ApiKey;
  re_endpoints : list WebhookEndpoint;
  re_pendingDeliveries : Z;
  re_retryingDeliveries : Z;
  re_failedDeliveries : Z;
  re_pendingJobs : Z;
  re_runningJobs : Z;
  re_retryingJobs : Z;
  re_failedJobs : Z;
  re_enabledSchedules : Z;
  re_disabledSchedules : Z;
  re_failedNotifications : Z;
  re_pendingNotices : Z;
  re_retryingNotices : Z;
  re_failedNotices : Z;
  re_files : list File;
  re_variables : list ConfigurationVariable;
  re_secrets : list ConfigurationSecret;
  re_capped : list string }.

Section reading.
Context {DB : Type} `{FeltDBLaws DB}.
Variable limit : nat.

(** One bounded read: at most [limit] rows, plus one to know whether it was capped. *)
Definition rows {V} (c : coll V) (matches : V -> bool) (path : string) : M DB (list V * list string) :=
  found ← boundedFind c matches (S limit);
  mret (take limit found, if Nat.ltb limit (length found) then [path] else []).

Definition countRows {V} (c : coll V) (matches : V -> bool) (path : string) : M DB (Z * list string) :=
  r ← rows c matches path; mret (count (fst r), snd r).

Definition readHealth (application : string) (tenant : option string) : M DB HealthReads :=
  keys ← rows CKeys (fun k => ownedRow application tenant (k_tenantId k) (k_applicationId k)) "apiKeys.keys";
  endpoints ← rows CEndpoints (fun e => ownedRow application tenant (we_tenantId e) (we_applicationId e)) "webhooks.endpoints";
  pendingDeliveries ← countRows CDeliveries (tenantDelivery tenant WPending) "webhooks.pendingDeliveries";
  retryingDeliveries ← countRows CDeliveries (tenantDelivery tenant WRetrying) "webhooks.retryingDeliveries";
  failedDeliveries ← countRows CDeliveries (tenantDelivery tenant WFailed) "webhooks.failedDeliveries";
  pendingJobs ← countRows CJobs (ownedJob application tenant JPending) "jobs.pending";
  runningJobs ← countRows CJobs (ownedJob application tenant JRunning) "jobs.running";
  retryingJobs ← countRows CJobs (ownedJob application tenant JRetrying) "jobs.retrying";
  failedJobs ← countRows CJobs (ownedJob application tenant JFailed) "jobs.failed";
  enabledSchedules ← countRows CSchedules (ownedSchedule application tenant true) "schedules.enabled";
  disabledSchedules ← countRows CSchedules (ownedSchedule application tenant false) "schedules.disabled";
  failedNotifications ← countRows CNotifications (ownedFailure application tenant) "notifications.failedNotifications";
  pendingNotices ← countRows CNotificationDeliveries (tenantNotice tenant NdPending) "notifications.pendingDeliveries";
  retryingNotices ← countRows CNotificationDeliveries (tenantNotice tenant NdRetrying) "notifications.retryingDeliveries";
  failedNotices ← countRows CNotificationDeliveries (tenantNotice tenant NdFailed) "notifications.failedDeliveries";
  files ← rows CFiles (fun f => ownedRow application tenant (f_tenantId f) (f_applicationId f)) "files.files";
  variables ← rows CVariables (fun v => ownedScope application tenant (cv_scope v)) "configuration.variables";
  secrets ← rows CBindings (fun b => ownedScope application tenant (cb_scope b)) "configuration.secrets";
  mret (mkReads (fst keys) (fst endpoints) (fst pendingDeliveries) (fst retryingDeliveries) (fst failedDeliveries)
    (fst pendingJobs) (fst runningJobs) (fst retryingJobs) (fst failedJobs) (fst enabledSchedules) (fst disabledSchedules)
    (fst failedNotifications) (fst pendingNotices) (fst retryingNotices) (fst failedNotices) (fst files) (fst variables)
    (fst secrets)
    (snd keys ++ snd endpoints ++ snd pendingDeliveries ++ snd retryingDeliveries ++ snd failedDeliveries ++ snd pendingJobs
       ++ snd runningJobs ++ snd retryingJobs ++ snd failedJobs ++ snd enabledSchedules ++ snd disabledSchedules
       ++ snd failedNotifications ++ snd pendingNotices ++ snd retryingNotices ++ snd failedNotices ++ snd files
       ++ snd variables ++ snd secrets)%list).
End reading.

(** ** The report of each service *)

Section report.
Context {DB : Type} `{FeltDBLaws DB}.
(** [JSON.parse(text)], [None] where it throws. *)
Variable jsonParse : string -> option jsval.
Variable sources : HealthSources DB.

Definition authorityHealth : AuthorityHealth :=
  mkAuthorityHealth
    (if negb (src_authorizer sources) then HUnconfigured else if src_credentials sources then HOk else HDegraded)
    ((if negb (src_authorizer sources) then ["authorizer_unconfigured"] else [])
       ++ (if negb (src_credentials sources) then ["credentials_unconfigured"] else []))%list
    (src_authorizer sources) (src_credentials sources).

(** Without an authorizer every effect fails closed, whatever the state says. *)
Definition gate {C} (state : ServiceHealthState) (reasons : list string) (counts : C) : ServiceHealthBase C :=
  if src_authorizer sources then mkHealth state reasons counts
  else mkHealth HDisabled ("authorizer_unconfigured" :: reasons) counts.

Definition apiKeysHealth (keys : list ApiKey) (nowIso : string) : ServiceHealthBase ApiKeyCounts :=
  let revoked := countIf (fun k => present (k_revokedAt k)) keys in
  let expired := countIf (fun k => negb (present (k_revokedAt k)) &&
                            match k_expiresAt k with Some e => strLe e nowIso | None => false end) keys in
  gate (if count keys =? 0 then HUnconfigured else HOk) (if count keys =? 0 then ["no_keys"] else [])
    (mkApiKeyCounts (count keys) (count keys - revoked - expired) revoked expired).

Definition disabledEndpoints (r : HealthReads) : Z := countIf (fun e => present (we_disabledAt e)) (re_endpoints r).

Definition webhooksHealth (r : HealthReads) : ServiceHealthBase WebhookCounts :=
  let endpoints := count (re_endpoints r) in
  let disabled := disabledEndpoints r in
  let active := endpoints - disabled in
  let reasons := ((if 0 <? re_failedDeliveries r then ["failed_deliveries"] else [])
                    ++ (if (0 <? active) && negb (src_credentials sources) then ["credentials_unconfigured"] else []))%list in
  let state := if endpoints =? 0 then HUnconfigured
               else match reasons with
                    | _ :: _ => HDegraded
                    | [] => if active =? 0 then HDisabled else HOk
                    end in
  gate state
    (if endpoints =? 0 then ["no_endpoints"] else if bool_decide (state = HDisabled) then ["all_endpoints_disabled"] else reasons)
    (mkWebhookCounts endpoints active disabled (re_pendingDeliveries r) (re_retryingDeliveries r) (re_failedDeliveries r)).

Definition jobsHealth (r : HealthReads) : ServiceHealthBase JobCounts :=
  gate (if 0 <? re_failedJobs r then HDegraded else HOk) (if 0 <? re_failedJobs r then ["failed_jobs"] else [])
    (mkJobCounts (re_pendingJobs r) (re_runningJobs r) (re_retryingJobs r) (re_failedJobs r)).

Definition schedulesHealth (r : HealthReads) : ServiceHealthBase ScheduleCounts :=
  let enabled := re_enabledSchedules r in
  let disabled := re_disabledSchedules r in
  let state := if enabled + disabled =? 0 then HUnconfigured else if enabled =? 0 then HDisabled else HOk in
  gate state
    (if bool_decide (state = HUnconfigured) then ["no_schedules"]
     else if bool_decide (state = HDisabled) then ["all_schedules_disabled"] else [])
    (mkScheduleCounts enabled disabled).

Definition notificationsHealth (r : HealthReads) : ServiceHealthBase NotificationCounts :=
  let reasons := ((if 0 <? re_failedNotices r then ["failed_deliveries"] else [])
                    ++ (if 0 <? re_failedNotifications r then ["failed_notifications"] else []))%list in
  gate (match reasons with _ :: _ => HDegraded | [] => HOk end) reasons
    (mkNotificationCounts (re_failedNotifications r) (re_pendingNotices r) (re_retryingNotices r) (re_failedNotices r)).

Definition filesHealth (r : HealthReads) : ServiceHealthBase Z :=
  gate HOk [] (countIf (fun f => negb (present (f_deletedAt f))) (re_files r)).

(** ** Configuration *)

Definition legacySecretValues (secrets : list ConfigurationSecret) : Z :=
  countIf (fun b => match cb_value b with None | Some JUndef | Some JNull => false | Some _ => true end) secrets.

(** Scope and name of every variable and binding. *)
Definition configured (r : HealthReads) : list (ConfigurationScope * string) :=
  (map (fun v => (cv_scope v, cv_name v)) (re_variables r) ++ map (fun b => (cb_scope b, cb_name b)) (re_secrets r))%list.

(** The environments that have configuration, or production. *)
Definition environments (r : HealthReads) : list ConfigurationEnvironment :=
  match remove_dups (map (fun row => sc_environment (fst row)) (configured r)) with
  | [] => [Production]
  | l => l
  end.

(** Required declarations without a binding in an environment. *)
Definition missingIn (r : HealthReads) (environment : ConfigurationEnvironment) : list ConfigurationDeclaration :=
  List.filter (fun d => de_required d &&
    negb (existsb (fun row => bool_decide (sc_environment (fst row) = environment) && String.eqb (snd row) (de_name d)) (configured r)))
    (src_declarations sources).

Definition missingDeclarations (tenant : option string) (r : HealthReads) : list ConfigurationDeclaration :=
  match tenant with
  | Some _ => flat_map (missingIn r) (environments r)
  | None => []
  end.

Definition noMaterial (b : CredentialBindingHealth) : bool := bool_decide (bh_state b = BMissing \/ bh_state b = BRevoked).

Definition configurationHealth (tenant : option string) (r : HealthReads) (bindings : option (list CredentialBindingHealth))
  : ConfigurationHealth :=
  let missingRequired := count (missingDeclarations tenant r) in
  let legacy := legacySecretValues (re_secrets r) in
  let missingMaterial := option_map (countIf noMaterial) bindings in
  let reasons := ((if 0 <? missingRequired then ["missing_required"] else [])
                    ++ (if 0 <? legacy then ["legacy_secret_values"] else [])
                    ++ (if match missingMaterial with Some n => negb (n =? 0) | None => false end then ["missing_material"] else []))%list in
  let state := match reasons with
               | _ :: _ => HDegraded
               | [] => if count (re_variables r) + count (re_secrets r) =? 0 then HUnconfigured else HOk
               end in
  mkConfigurationHealth
    (gate state (if bool_decide (state = HUnconfigured) then ["no_configuration"] else reasons)
       (mkConfigurationCounts (count (re_variables r)) (count (re_secrets r)) missingRequired legacy missingMaterial))
    bindings.

(** ** Intelligence *)

Definition providerOf (value : string) : option string :=
  match jsonParse value with
  | Some (JObj fields) => match getField fields "provider" with JStr p => Some p | _ => None end
  | _ => None
  end.

Definition selections (r : HealthReads) : list ConfigurationVariable :=
  List.filter (fun v => String.eqb (cv_name v) INTELLIGENCE_SELECTION_NAME) (re_variables r).

(** [scopeKey]: the tenant and the environment. *)
Definition scopeKey (scope : ConfigurationScope) : string * ConfigurationEnvironment := (sc_tenantId scope, sc_environment scope).

Definition lacksCredential (r : HealthReads) (v : ConfigurationVariable) : bool :=
  match providerOf (cv_value v) with
  | Some p =>
      match getIntelligenceProvider (JStr p) with
      | Some provider =>
          bool_decide (ip_credential provider = CredentialRequired) &&
          negb (existsb (fun b => String.eqb (cb_name b) INTELLIGENCE_CREDENTIAL_NAME &&
                                  bool_decide (scopeKey (cb_scope b) = scopeKey (cv_scope v))) (re_secrets r))
      | None => false
      end
  | None => false
  end.

Definition missingCredentials (r : HealthReads) : Z := countIf (lacksCredential r) (selections r).

Definition intelligenceHealth (r : HealthReads) : ServiceHealthBase IntelligenceCounts :=
  let missing := missingCredentials r in
  let state := if count (selections r) =? 0 then HUnconfigured else if 0 <? missing then HDegraded else HOk in
  gate state (if bool_decide (state = HUnconfigured) then ["not_configured"] else if 0 <? missing then ["missing_credential"] else [])
    (mkIntelligenceCounts (count (selections r)) missing).

(** ** The whole *)

Definition servicesHealth (tenant : option string) (r : HealthReads) (nowIso : string)
  (bindings : option (list CredentialBindingHealth)) : ServicesHealth :=
  mkServicesHealth (apiKeysHealth (re_keys r) nowIso) (webhooksHealth r) (jobsHealth r) (schedulesHealth r)
    (notificationsHealth r) (filesHealth r) (configurationHealth tenant r bindings) (intelligenceHealth r).

Definition states (s : ServicesHealth) : list ServiceHealthState :=
  [sh_state (se_apiKeys s); sh_state (se_webhooks s); sh_state (se_jobs s); sh_state (se_schedules s);
   sh_state (se_notifications s); sh_state (se_files s); sh_state (fh_base (se_configuration s)); sh_state (se_intelligence s)].

Definition overall (s : ServicesHealth) : ServiceHealthState :=
  if negb (src_authorizer sources) then HUnconfigured
  else if existsb (fun state => bool_decide (state = HDegraded)) (states s) then HDegraded else HOk.

Definition attentionOf (tenant : option string) (r : HealthReads) (bindings : option (list CredentialBindingHealth)) : HealthAttention :=
  mkAttention (re_failedDeliveries r) (disabledEndpoints r) (re_failedJobs r) (re_failedNotifications r) (re_failedNotices r)
    (countIf de_secret (missingDeclarations tenant r) + missingCredentials r) (legacySecretValues (re_secrets r))
    (option_map (countIf noMaterial) bindings).

Definition bindingState (state : jsval) : BindingState :=
  if isStr state "set" then BSet else if isStr state "missing" then BMissing
  else if isStr state "revoked" then BRevoked else BUnknown.

(** One binding's material; what custody throws is no failure of health. *)
Definition bindingHealth (status : SecretReference -> SecretAccessContext -> M DB (option RawCustodyStatus))
  (b : ConfigurationSecret) : M DB CredentialBindingHealth :=
  let scope := cb_scope b in
  let base state version location writable :=
    mkBindingHealth (sc_tenantId scope) (sc_environment scope) (cb_name b) state version location writable in
  if negb (isCredentialRef (JStr (cb_credentialRef b))) then mret (base BUnknown None None None)
  else tryCatch
    (s ← status (mkSecretRef (sliceFrom (String.length PREFIX) (cb_credentialRef b)) (sc_tenantId scope) None None)
           (mkAccess (sc_tenantId scope) "appport-services:health" "health" None);
     mret match s with
          | Some s => base (bindingState (cs_state s)) (match cs_version s with JInt v => Some v | _ => None end)
                        (match cs_location s with JStr l => Some l | _ => None end)
                        (match cs_writable s with JBool x => Some x | _ => None end)
          | None => base BUnknown None None None
          end)
    (fun _ => mret (base BUnknown None None None)).

Fixpoint materialStatus (status : SecretReference -> SecretAccessContext -> M DB (option RawCustodyStatus))
  (secrets : list ConfigurationSecret) : M DB (list CredentialBindingHealth) :=
  match secrets with
  | [] => mret []
  | b :: rest => h ← bindingHealth status b; hs ← materialStatus status rest; mret (h :: hs)
  end.

Definition collectHealth (options : ServiceHealthOptions) : M DB AppPortServicesHealth :=
  limit ← ofOutcome (countLimitOf (ho_countLimit options));
  tenant ← ofOutcome (healthTenant (ho_tenantId options));
  now ← match src_now sources with Some f => f | None => systemMs end;
  r ← readHealth (Z.to_nat limit) (src_application sources) tenant;
  nowIso ← isoString now;
  bindings ← match src_custody sources with
             | Some status => l ← materialStatus status (re_secrets r); mret (Some l)
             | None => mret None
             end;
  let services := servicesHealth tenant r nowIso bindings in
  mret (mkServicesReport (overall services) nowIso (src_application sources) tenant (src_version sources) limit
          (sortBy String.leb (re_capped r)) authorityHealth services (attentionOf tenant r bindings)).
End report.
