(* ===== verification/HealthProps.v ===== *)
(** * HealthProps: what the health report says of the store

    [exactReads] states what each bounded read returned; the report is
    compared with the store itself. *)

From S2P Require Import Prelude JsString JsTime Errors Models Store Calm MemStore Principal Manifest Bounded Gateway GatewayFacts Configuration Intelligence Health Demo.
From Stdlib Require Import ZArith Lia Ascii.
Local Open Scope string_scope.
Local Open Scope Z_scope.

(** ** Marks of capped reads *)

Definition marked (marks : list (string * bool)) : list string := flat_map (fun m : string * bool => if snd m then [fst m] else []) marks.

Lemma in_marked p marks : In p (marked marks) <-> In (p, true) marks.
Proof.
  unfold marked. rewrite in_flat_map. split.
  - intros ([q b] & Hin & Hp). destruct b; [|destruct Hp]. destruct Hp as [<-|[]]. exact Hin.
  - intros Hin. exists (p, true). split; [exact Hin | now left].
Qed.

Lemma marked_once p b marks : NoDup (map fst marks) -> In (p, b) marks -> (In p (marked marks) <-> b = true).
Proof.
  intros Hd Hin. rewrite in_marked. split; [|now intros <-]. intros Ht.
  apply list_elem_of_In, list_elem_of_lookup in Hin as [i Hi]. apply list_elem_of_In, list_elem_of_lookup in Ht as [j Hj].
  assert (i = j) as <-.
  { eapply (NoDup_lookup _ _ _ p Hd); rewrite list_lookup_fmap; [now rewrite Hi | now rewrite Hj]. }
  congruence.
Qed.

Section props.
Context {DB : Type} `{FeltDBLaws DB}.
Implicit Types w : World DB.

(** ** The reads *)

(** The first [limit] of the records that satisfy [p], in the store's order. *)
Definition sampled {V} (c : coll V) (p : V -> bool) (db : DB) (limit : nat) (l : list V) (capped : bool) : Prop :=
  exists all, enumerates c p db all /\ l = take limit all /\ capped = Nat.ltb limit (length all).

Definition counted {V} (c : coll V) (p : V -> bool) (db : DB) (limit : nat) (n : Z) (capped : bool) : Prop :=
  exists all, enumerates c p db all /\ n = Z.min (Z.of_nat limit) (count all) /\ capped = Nat.ltb limit (length all).

Lemma wp_rows {V} limit (c : coll V) p path w (Q : outcome (list V * list string) -> World DB -> Prop) :
  quiet w -> (forall l b, sampled c p (w_db w) limit l b -> Q (Ok (l, if b then [path] else [])) w) ->
  wp (rows limit c p path) Q w.
Proof.
  intros Hq HQ. unfold rows. apply wp_bind. eapply wp_mono; [apply boundedFind_spec, Hq|].
  intros o w' (-> & all & Hall & ->). apply wp_ret. rewrite take_take, Nat.min_l, length_take by lia.
  replace (Nat.ltb limit (Nat.min (S limit) (length all))) with (Nat.ltb limit (length all))
    by (destruct (Nat.ltb_spec limit (length all)), (Nat.ltb_spec limit (Nat.min (S limit) (length all))); lia || reflexivity).
  apply HQ. exists all. auto.
Qed.

Lemma wp_countRows {V} limit (c : coll V) p path w (Q : outcome (Z * list string) -> World DB -> Prop) :
  quiet w -> (forall n b, counted c p (w_db w) limit n b -> Q (Ok (n, if b then [path] else [])) w) ->
  wp (countRows limit c p path) Q w.
Proof.
  intros Hq HQ. unfold countRows. apply wp_bind, wp_rows; [exact Hq|]. intros l b (all & Hall & -> & ->). apply wp_ret.
  apply HQ. exists all. split; [exact Hall|]. split; [|reflexivity]. cbn [fst]. unfold count. rewrite length_take. lia.
Qed.

Section exact.
Variable limit : nat.
Variable application : string.
Variable tenant : option string.

Definition ownKey (k : ApiKey) : bool := ownedRow application tenant (k_tenantId k) (k_applicationId k).
Definition ownEndpoint (e : WebhookEndpoint) : bool := ownedRow application tenant (we_tenantId e) (we_applicationId e).
Definition ownFile (f : File) : bool := ownedRow application tenant (f_tenantId f) (f_applicationId f).
Definition ownVariable (v : ConfigurationVariable) : bool := ownedScope application tenant (cv_scope v).
Definition ownBinding (b : ConfigurationSecret) : bool := ownedScope application tenant (cb_scope b).

(** Every read returned what the store has, up to the limit, and the capped paths are those that had more. *)
Record exactReads (db : DB) (r : HealthReads) : Prop := mkExact {
  ex_keys : exists b, sampled CKeys ownKey db limit (re_keys r) b /\ (In "apiKeys.keys" (re_capped r) <-> b = true);
  ex_endpoints : exists b, sampled CEndpoints ownEndpoint db limit (re_endpoints r) b /\ (In "webhooks.endpoints" (re_capped r) <-> b = true);
  ex_pending : exists b, counted CDeliveries (tenantDelivery tenant WPending) db limit (re_pendingDeliveries r) b /\ (In "webhooks.pendingDeliveries" (re_capped r) <-> b = true);
  ex_retrying : exists b, counted CDeliveries (tenantDelivery tenant WRetrying) db limit (re_retryingDeliveries r) b /\ (In "webhooks.retryingDeliveries" (re_capped r) <-> b = true);
  ex_failed : exists b, counted CDeliveries (tenantDelivery tenant WFailed) db limit (re_failedDeliveries r) b /\ (In "webhooks.failedDeliveries" (re_capped r) <-> b = true);
  ex_pendingJobs : exists b, counted CJobs (ownedJob application tenant JPending) db limit (re_pendingJobs r) b /\ (In "jobs.pending" (re_capped r) <-> b = true);
  ex_runningJobs : exists b, counted CJobs (ownedJob application tenant JRunning) db limit (re_runningJobs r) b /\ (In "jobs.running" (re_capped r) <-> b = true);
  ex_retryingJobs : exists b, counted CJobs (ownedJob application tenant JRetrying) db limit (re_retryingJobs r) b /\ (In "jobs.retrying" (re_capped r) <-> b = true);
  ex_failedJobs : exists b, counted CJobs (ownedJob application tenant JFailed) db limit (re_failedJobs r) b /\ (In "jobs.failed" (re_capped r) <-> b = true);
  ex_enabled : exists b, counted CSchedules (ownedSchedule application tenant true) db limit (re_enabledSchedules r) b /\ (In "schedules.enabled" (re_capped r) <-> b = true);
  ex_disabled : exists b, counted CSchedules (ownedSchedule application tenant false) db limit (re_disabledSchedules r) b /\ (In "schedules.disabled" (re_capped r) <-> b = true);
  ex_notifications : exists b, counted CNotifications (ownedFailure application tenant) db limit (re_failedNotifications r) b /\ (In "notifications.failedNotifications" (re_capped r) <-> b = true);
  ex_pendingNotices : exists b, counted CNotificationDeliveries (tenantNotice tenant NdPending) db limit (re_pendingNotices r) b /\ (In "notifications.pendingDeliveries" (re_capped r) <-> b = true);
  ex_retryingNotices : exists b, counted CNotificationDeliveries (tenantNotice tenant NdRetrying) db limit (re_retryingNotices r) b /\ (In "notifications.retryingDeliveries" (re_capped r) <-> b = true);
  ex_failedNotices : exists b, counted CNotificationDeliveries (tenantNotice tenant NdFailed) db limit (re_failedNotices r) b /\ (In "notifications.failedDeliveries" (re_capped r) <-> b = true);
  ex_files : exists b, sampled CFiles ownFile db limit (re_files r) b /\ (In "files.files" (re_capped r) <-> b = true);
  ex_variables : exists b, sampled CVariables ownVariable db limit (re_variables r) b /\ (In "configuration.variables" (re_capped r) <-> b = true);
  ex_secrets : exists b, sampled CBindings ownBinding db limit (re_secrets r) b /\ (In "configuration.secrets" (re_capped r) <-> b = true) }.

Lemma readHealth_spec w : quiet w ->
  wp (readHealth limit application tenant) (fun o w' => w' = w /\ exists r, o = Ok r /\ exactReads (w_db w) r) w.
Proof.
  intros Hq. unfold readHealth.
  apply wp_bind, wp_rows; [exact Hq|]. intros keys b1 H1.
  apply wp_bind, wp_rows; [exact Hq|]. intros endpoints b2 H2.
  apply wp_bind, wp_countRows; [exact Hq|]. intros pending b3 H3.
  apply wp_bind, wp_countRows; [exact Hq|]. intros retrying b4 H4.
  apply wp_bind, wp_countRows; [exact Hq|]. intros failed b5 H5.
  apply wp_bind, wp_countRows; [exact Hq|]. intros pendingJobs b6 H6.
  apply wp_bind, wp_countRows; [exact Hq|]. intros runningJobs b7 H7.
  apply wp_bind, wp_countRows; [exact Hq|]. intros retryingJobs b8 H8.
  apply wp_bind, wp_countRows; [exact Hq|]. intros failedJobs b9 H9.
  apply wp_bind, wp_countRows; [exact Hq|]. intros enabled b10 H10.
  apply wp_bind, wp_countRows; [exact Hq|]. intros disabled b11 H11.
  apply wp_bind, wp_countRows; [exact Hq|]. intros notifications b12 H12.
  apply wp_bind, wp_countRows; [exact Hq|]. intros pendingNotices b13 H13.
  apply wp_bind, wp_countRows; [exact Hq|]. intros retryingNotices b14 H14.
  apply wp_bind, wp_countRows; [exact Hq|]. intros failedNotices b15 H15.
  apply wp_bind, wp_rows; [exact Hq|]. intros files b16 H16.
  apply wp_bind, wp_rows; [exact Hq|]. intros variables b17 H17.
  apply wp_bind, wp_rows; [exact Hq|]. intros secrets b18 H18.
  apply wp_ret. split; [reflexivity|]. eexists. split; [reflexivity|]. cbn [fst snd].
  set (marks := [("apiKeys.keys", b1); ("webhooks.endpoints", b2); ("webhooks.pendingDeliveries", b3); ("webhooks.retryingDeliveries", b4); ("webhooks.failedDeliveries", b5); ("jobs.pending", b6); ("jobs.running", b7); ("jobs.retrying", b8); ("jobs.failed", b9); ("schedules.enabled", b10); ("schedules.disabled", b11); ("notifications.failedNotifications", b12); ("notifications.pendingDeliveries", b13); ("notifications.retryingDeliveries", b14); ("notifications.failedDeliveries", b15); ("files.files", b16); ("configuration.variables", b17); ("configuration.secrets", b18)]).
  assert (NoDup (map fst marks)) as Hd by (apply (bool_decide_unpack _); vm_compute; exact I).
  match goal with |- exactReads _ (mkReads _ _ _ _ _ _ _ _ _ _ _ _ _ _ _ _ _ _ ?capped) =>
    replace capped with (marked marks) by (unfold marked, marks; cbn [flat_map fst snd]; now rewrite app_nil_r)
  end.
  split; eexists; (split; [cbn; eassumption | cbn [re_capped]; apply (marked_once _ _ marks Hd); unfold marks; repeat first [left; reflexivity | right]]).
Qed.
End exact.

(** ** From lists to the store *)

Definition holds {V} (c : coll V) (p : V -> bool) (db : DB) : Prop := exists k x, peek c k db = Some x /\ p x = true.

Lemma uncapped {V} (c : coll V) p db limit l : sampled c p db limit l false -> enumerates c p db l.
Proof. intros (all & Hall & -> & Hb). symmetry in Hb. apply Nat.ltb_ge in Hb. now rewrite take_ge. Qed.

Lemma countIf_pos {V} (p : V -> bool) l : 0 <? countIf p l = existsb p l.
Proof.
  unfold countIf, count. induction l as [|x l IH]; [reflexivity|]. cbn [List.filter existsb]. destruct (p x); [|exact IH].
  cbn [length orb]. apply Z.ltb_lt. lia.
Qed.

Lemma countIf_nonneg {V} (p : V -> bool) l : 0 <= countIf p l.
Proof. unfold countIf, count. lia. Qed.

Lemma existsb_holds {V} (c : coll V) p q db l : enumerates c p db l -> (existsb q l = true <-> holds c (fun x => p x && q x) db).
Proof.
  intros Hl. rewrite existsb_exists. split.
  - intros (x & Hx & Hq). apply list_elem_of_In, (enumerates_in _ _ _ _ _ Hl) in Hx as (k & Hk & Hp). exists k, x. now rewrite Hp, Hq.
  - intros (k & x & Hk & [Hp Hq]%andb_true_iff). exists x. split; [|exact Hq]. apply list_elem_of_In, (enumerates_in _ _ _ _ _ Hl). eauto.
Qed.

Lemma counted_holds {V} (c : coll V) p db limit n b : (1 <= limit)%nat -> counted c p db limit n b -> (0 <? n = true <-> holds c p db).
Proof.
  intros Hl (all & Hall & -> & _). rewrite Z.ltb_lt. unfold count. split.
  - destruct all as [|x all]; [cbn; lia|]. intros _. destruct (proj1 (enumerates_in _ _ _ _ x Hall)) as (k & Hk & Hp); [left | exists k, x; auto].
  - intros (k & x & Hk & Hp). assert (x ∈ all) as Hx by (apply (enumerates_in _ _ _ _ _ Hall); eauto).
    destruct all; [now apply elem_of_nil in Hx|]. cbn. lia.
Qed.

(** ** Custody's answers *)

Definition statusCall := SecretReference -> SecretAccessContext -> M DB (option RawCustodyStatus).

(** Custody answers (or throws) by the reference alone, and does not write this store. *)
Definition answersBy (status : statusCall) (answers : SecretReference -> outcome (option RawCustodyStatus)) : Prop :=
  forall ref ctx w, calm w -> wp (status ref ctx) (fun o w' => kept w w' /\ o = answers ref) w.

Definition materialOf (answers : SecretReference -> outcome (option RawCustodyStatus)) (b : ConfigurationSecret) : BindingState :=
  if isCredentialRef (JStr (cb_credentialRef b)) then
    match answers (mkSecretRef (sliceFrom (String.length PREFIX) (cb_credentialRef b)) (sc_tenantId (cb_scope b)) None None) with
    | Ok (Some s) => bindingState (cs_state s)
    | _ => BUnknown
    end
  else BUnknown.

Lemma bindingHealth_spec status answers b w : answersBy status answers -> calm w ->
  wp (bindingHealth status b) (fun o w' => kept w w' /\ exists h, o = Ok h /\ bh_state h = materialOf answers b) w.
Proof.
  intros Ha Hc. unfold bindingHealth, materialOf. destruct (isCredentialRef _); cbn [negb];
    [|apply wp_ret; split; [now apply kept_refl | eexists; split; reflexivity]].
  apply wp_tryCatch, wp_bind. eapply wp_mono; [apply Ha, Hc|]. intros o w' (Hk & ->).
  destruct (answers _) as [[s|]|e]; apply wp_ret; (split; [exact Hk | eexists; split; reflexivity]).
Qed.

Lemma materialStatus_spec status answers secrets : answersBy status answers -> forall w, calm w ->
  wp (materialStatus status secrets) (fun o w' => kept w w' /\ exists hs, o = Ok hs /\ map bh_state hs = map (materialOf answers) secrets) w.
Proof.
  intros Ha. induction secrets as [|b rest IH]; intros w Hc; cbn [materialStatus].
  - apply wp_ret. split; [now apply kept_refl|]. exists []. auto.
  - apply wp_bind. eapply wp_mono; [exact (bindingHealth_spec _ answers _ _ Ha Hc)|]. intros o w1 (Hk1 & h & -> & Eh).
    apply wp_bind. eapply wp_mono; [apply IH, Hk1|]. intros o w2 (Hk2 & hs & -> & Ehs). apply wp_ret.
    split; [eapply kept_trans; eassumption|]. exists (h :: hs). split; [reflexivity|]. cbn [map]. congruence.
Qed.

Lemma noMaterial_states answers secrets hs : map bh_state hs = map (materialOf answers) secrets ->
  existsb noMaterial hs = existsb (fun b => bool_decide (materialOf answers b = BMissing \/ materialOf answers b = BRevoked)) secrets.
Proof.
  revert hs. induction secrets as [|b secrets IH]; intros [|h hs] E; try discriminate E; [reflexivity|].
  injection E as Eh E. cbn [existsb]. unfold noMaterial at 1. now rewrite Eh, (IH hs E).
Qed.

(** ** What needs an operator *)

Section trouble.
Variable sources : HealthSources DB.
Variable tenant : option string.
#[local] Abbreviation ownV := (ownVariable (src_application sources) tenant).
#[local] Abbreviation ownB := (ownBinding (src_application sources) tenant).
#[local] Abbreviation ownE := (ownEndpoint (src_application sources) tenant).

(** The environment has a variable or a binding; with the name. *)
Definition inUse (db : DB) (environment : ConfigurationEnvironment) : Prop :=
  holds CVariables (fun v => ownV v && bool_decide (sc_environment (cv_scope v) = environment)) db \/
  holds CBindings (fun b => ownB b && bool_decide (sc_environment (cb_scope b) = environment)) db.

Definition provided (db : DB) (environment : ConfigurationEnvironment) (name : string) : Prop :=
  holds CVariables (fun v => ownV v && (bool_decide (sc_environment (cv_scope v) = environment) && String.eqb (cv_name v) name)) db \/
  holds CBindings (fun b => ownB b && (bool_decide (sc_environment (cb_scope b) = environment) && String.eqb (cb_name b) name)) db.

(** A required declaration that an environment in use (production, if none is) lacks. *)
Definition unmet (db : DB) : Prop :=
  exists t declaration environment, tenant = Some t /\ In declaration (src_declarations sources) /\ de_required declaration = true /\
    (inUse db environment \/ environment = Production /\ forall e, ~ inUse db e) /\ ~ provided db environment (de_name declaration).

Lemma existsb_configured r db (p : ConfigurationScope * string -> bool) :
  enumerates CVariables ownV db (re_variables r) -> enumerates CBindings ownB db (re_secrets r) ->
  (existsb p (configured r) = true <->
   holds CVariables (fun v => ownV v && p (cv_scope v, cv_name v)) db \/ holds CBindings (fun b => ownB b && p (cb_scope b, cb_name b)) db).
Proof.
  intros Hv Hb. unfold configured. rewrite existsb_app, orb_true_iff.
  assert (forall A B (f : A -> B) q l, existsb q (map f l) = existsb (fun x => q (f x)) l) as Hmap
    by (intros A B f q l; induction l as [|x l IH]; [reflexivity | cbn; now rewrite IH]).
  rewrite !Hmap, (existsb_holds _ _ _ _ _ Hv), (existsb_holds _ _ _ _ _ Hb). reflexivity.
Qed.

Lemma in_environments r db environment :
  enumerates CVariables ownV db (re_variables r) -> enumerates CBindings ownB db (re_secrets r) ->
  (In environment (environments r) <-> inUse db environment \/ environment = Production /\ forall e, ~ inUse db e).
Proof.
  intros Hv Hb.
  assert (forall e, inUse db e <-> In e (remove_dups (map (fun row => sc_environment (fst row)) (configured r)))) as Hin.
  { intros e. rewrite <- list_elem_of_In, elem_of_remove_dups, list_elem_of_In, in_map_iff. unfold inUse.
    etransitivity; [symmetry; exact (existsb_configured r db (fun row => bool_decide (sc_environment (fst row) = e)) Hv Hb)|]. rewrite existsb_exists.
    split; [intros (row & Hr & He%bool_decide_eq_true); eauto | intros (row & He & Hr); exists row; now rewrite bool_decide_eq_true]. }
  rewrite (Hin environment). unfold environments.
  assert ((forall e, ~ inUse db e) <-> forall e, ~ In e (remove_dups (map (fun row => sc_environment (fst row)) (configured r)))) as ->
    by (split; intros Hno e He; apply (Hno e), Hin, He).
  destruct (remove_dups _) as [|e0 l].
  - cbn [In]. split; [intros [<-|[]]; right; auto | intros [[]|[-> _]]; now left].
  - split; [auto|]. intros [Hi|[_ Hno]]; [exact Hi | destruct (Hno e0); now left].
Qed.

Lemma missing_unmet r db :
  enumerates CVariables ownV db (re_variables r) -> enumerates CBindings ownB db (re_secrets r) ->
  (0 <? count (missingDeclarations sources tenant r) = true <-> unmet db).
Proof.
  intros Hv Hb. rewrite Z.ltb_lt. unfold unmet, missingDeclarations.
  destruct tenant as [t|] eqn:Et; [|split; [intros E; discriminate E | intros (? & ? & ? & E & _); discriminate E]].
  assert (0 < count (flat_map (missingIn sources r) (environments r)) <->
          exists d, In d (flat_map (missingIn sources r) (environments r))) as ->.
  { unfold count. destruct (flat_map _ _) as [|d l]; cbn [length]; [split; [lia | intros (? & [])] | split; [intros _; exists d; now left | lia]]. }
  split.
  - intros (d & (e & He & Hd)%in_flat_map). unfold missingIn in Hd. apply filter_In in Hd as (Hd & [Hr Hn%negb_true_iff]%andb_true_iff).
    exists t, d, e. split; [reflexivity|]. split; [exact Hd|]. split; [exact Hr|]. split; [eapply in_environments; [..|exact He]; rewrite ?Et; assumption|].
    intros Hp. assert (existsb (fun row => bool_decide (sc_environment (fst row) = e) && String.eqb (snd row) (de_name d)) (configured r) = true) as E
      by (rewrite existsb_configured; [exact Hp | now rewrite ?Et..]). congruence.
  - intros (t' & d & e & _ & Hd & Hr & He & Hn). exists d. apply in_flat_map. exists e. split.
    + eapply in_environments; [..|exact He]; rewrite ?Et; assumption.
    + unfold missingIn. apply filter_In. split; [exact Hd|]. rewrite Hr. cbn [andb]. apply negb_true_iff, not_true_iff_false.
      intros E. apply Hn. rewrite existsb_configured in E; [exact E | now rewrite ?Et..].
Qed.

Variable jsonParse : string -> option jsval.

(** A selection whose provider requires a credential that its scope has not bound. *)
Definition unbound (db : DB) : Prop :=
  exists k v p provider, peek CVariables k db = Some v /\ ownV v = true /\ cv_name v = INTELLIGENCE_SELECTION_NAME /\
    providerOf jsonParse (cv_value v) = Some p /\ getIntelligenceProvider (JStr p) = Some provider /\
    ip_credential provider = CredentialRequired /\
    ~ holds CBindings (fun b => ownB b && (String.eqb (cb_name b) INTELLIGENCE_CREDENTIAL_NAME &&
                                 bool_decide (scopeKey (cb_scope b) = scopeKey (cv_scope v)))) db.

Definition isLegacy (b : ConfigurationSecret) : bool :=
  match cb_value b with None | Some JUndef | Some JNull => false | Some _ => true end.

Definition isLost (answers : SecretReference -> outcome (option RawCustodyStatus)) (b : ConfigurationSecret) : bool :=
  bool_decide (materialOf answers b = BMissing \/ materialOf answers b = BRevoked).

Definition troubled (answers : SecretReference -> outcome (option RawCustodyStatus)) (db : DB) : Prop :=
  (holds CEndpoints ownE db /\
     (holds CDeliveries (tenantDelivery tenant WFailed) db \/
      src_credentials sources = false /\ holds CEndpoints (fun e => ownE e && negb (present (we_disabledAt e))) db)) \/
  holds CJobs (ownedJob (src_application sources) tenant JFailed) db \/
  holds CNotificationDeliveries (tenantNotice tenant NdFailed) db \/
  holds CNotifications (ownedFailure (src_application sources) tenant) db \/
  unmet db \/
  holds CBindings (fun b => ownB b && isLegacy b) db \/
  (src_custody sources <> None /\ holds CBindings (fun b => ownB b && isLost answers b) db) \/
  unbound db.

Lemma lacks_unbound r db v : enumerates CBindings ownB db (re_secrets r) ->
  (lacksCredential jsonParse r v = true <->
   exists p provider, providerOf jsonParse (cv_value v) = Some p /\ getIntelligenceProvider (JStr p) = Some provider /\
     ip_credential provider = CredentialRequired /\
     ~ holds CBindings (fun b => ownB b && (String.eqb (cb_name b) INTELLIGENCE_CREDENTIAL_NAME &&
                                  bool_decide (scopeKey (cb_scope b) = scopeKey (cv_scope v)))) db).
Proof.
  intros Hb. unfold lacksCredential. destruct (providerOf jsonParse (cv_value v)) as [p|]; [|split; [discriminate | intros (? & ? & E & _); discriminate E]].
  destruct (getIntelligenceProvider (JStr p)) as [provider|] eqn:Ep; [|split; [discriminate | intros (? & ? & [= <-] & E & _); congruence]].
  pose proof (existsb_holds CBindings ownB (fun b => String.eqb (cb_name b) INTELLIGENCE_CREDENTIAL_NAME &&
    bool_decide (scopeKey (cb_scope b) = scopeKey (cv_scope v))) db _ Hb) as Hex. cbn beta in Hex.
  rewrite andb_true_iff, negb_true_iff, bool_decide_eq_true, <- not_true_iff_false, Hex.
  split; [intros [A B]; exists p, provider; auto | intros (q & pr & [= <-] & E & Hc & Hn)]. rewrite Ep in E. injection E as <-. auto.
Qed.

Lemma missing_unbound r db :
  enumerates CVariables ownV db (re_variables r) -> enumerates CBindings ownB db (re_secrets r) ->
  (0 <? missingCredentials jsonParse r = true <-> unbound db).
Proof.
  intros Hv Hb. unfold missingCredentials, selections, unbound. rewrite countIf_pos, existsb_exists. split.
  - intros (v & (Hin & Hn%String.eqb_eq)%filter_In & Hl). apply (lacks_unbound _ _ _ Hb) in Hl as (p & provider & Hl).
    apply list_elem_of_In, (enumerates_in _ _ _ _ _ Hv) in Hin as (k & Hk & Ho). exists k, v, p, provider. tauto.
  - intros (k & v & p & provider & Hk & Ho & Hn & Hl). exists v. split; [|apply (lacks_unbound _ _ _ Hb); eauto].
    apply filter_In. split; [apply list_elem_of_In, (enumerates_in _ _ _ _ _ Hv); eauto | now apply String.eqb_eq].
Qed.

(** ** The states *)

Definition degraded (state : ServiceHealthState) : bool := bool_decide (state = HDegraded).

Lemma count_pos {V} (l : list V) : 0 <? count l = negb (count l =? 0).
Proof. unfold count. destruct (Z.ltb_spec 0 (Z.of_nat (length l))), (Z.eqb_spec (Z.of_nat (length l)) 0); lia || reflexivity. Qed.

Lemma countIf_compl {V} (p : V -> bool) l : count l - countIf p l = countIf (fun x => negb (p x)) l.
Proof.
  unfold countIf, count. induction l as [|x l IH]; [reflexivity|]. cbn [List.filter length]. destruct (p x); cbn [negb length]; lia.
Qed.

Variable authorized : src_authorizer sources = true.

Lemma webhooks_degraded r : degraded (sh_state (webhooksHealth sources r)) =
  (0 <? count (re_endpoints r)) && ((0 <? re_failedDeliveries r) ||
    negb (src_credentials sources) && (0 <? countIf (fun e => negb (present (we_disabledAt e))) (re_endpoints r))).
Proof.
  unfold webhooksHealth, gate, degraded. rewrite authorized, <- countIf_compl, count_pos. unfold disabledEndpoints.
  destruct (count (re_endpoints r) =? 0); [reflexivity|]. destruct (0 <? re_failedDeliveries r); [reflexivity|].
  destruct (0 <? _); [now destruct (src_credentials sources); [destruct (_ =? 0)|]|].
  rewrite andb_false_r. now destruct (_ =? 0).
Qed.

Lemma intelligence_degraded r : degraded (sh_state (intelligenceHealth jsonParse sources r)) = (0 <? missingCredentials jsonParse r).
Proof.
  unfold intelligenceHealth, gate, degraded. rewrite authorized. cbn [sh_state].
  destruct (Z.eqb_spec (count (selections r)) 0) as [E|]; [|now destruct (0 <? _)].
  unfold missingCredentials. destruct (selections r); [reflexivity | discriminate E].
Qed.

Definition lostCount (bindings : option (list CredentialBindingHealth)) : bool :=
  match bindings with Some hs => existsb noMaterial hs | None => false end.

Lemma configuration_degraded r bindings : degraded (sh_state (fh_base (configurationHealth sources tenant r bindings))) =
  (0 <? count (missingDeclarations sources tenant r)) || (0 <? legacySecretValues (re_secrets r)) || lostCount bindings.
Proof.
  unfold configurationHealth, gate, degraded. rewrite authorized. cbn [fh_base sh_state].
  destruct (0 <? count _); [reflexivity|]. destruct (0 <? legacySecretValues _); [reflexivity|]. cbn [app orb].
  unfold lostCount. destruct bindings as [hs|]; cbn [option_map]; [|now destruct (_ =? 0)].
  rewrite <- countIf_pos. unfold countIf. rewrite count_pos. destruct (count (List.filter noMaterial hs) =? 0); [now destruct (_ =? 0) | reflexivity].
Qed.

Lemma states_degraded r nowIso bindings : existsb degraded (states (servicesHealth jsonParse sources tenant r nowIso bindings)) =
  (0 <? count (re_endpoints r)) && ((0 <? re_failedDeliveries r) ||
    negb (src_credentials sources) && (0 <? countIf (fun e => negb (present (we_disabledAt e))) (re_endpoints r)))
  || (0 <? re_failedJobs r) || ((0 <? re_failedNotices r) || (0 <? re_failedNotifications r))
  || ((0 <? count (missingDeclarations sources tenant r)) || (0 <? legacySecretValues (re_secrets r)) || lostCount bindings)
  || (0 <? missingCredentials jsonParse r).
Proof.
  unfold states, servicesHealth. cbn [existsb se_apiKeys se_webhooks se_jobs se_schedules se_notifications se_files se_configuration se_intelligence].
  rewrite webhooks_degraded, intelligence_degraded, configuration_degraded.
  assert (degraded (sh_state (apiKeysHealth sources (re_keys r) nowIso)) = false) as ->
    by (unfold apiKeysHealth, gate, degraded; rewrite authorized; cbn; now destruct (_ =? 0)).
  assert (degraded (sh_state (schedulesHealth sources r)) = false) as ->
    by (unfold schedulesHealth, gate, degraded; rewrite authorized; cbn; now destruct (_ =? 0); [|destruct (_ =? 0)]).
  assert (degraded (sh_state (filesHealth sources r)) = false) as -> by (unfold filesHealth, gate, degraded; now rewrite authorized).
  assert (degraded (sh_state (jobsHealth sources r)) = (0 <? re_failedJobs r)) as ->
    by (unfold jobsHealth, gate, degraded; rewrite authorized; cbn; now destruct (0 <? _)).
  assert (degraded (sh_state (notificationsHealth sources r)) = (0 <? re_failedNotices r) || (0 <? re_failedNotifications r)) as ->
    by (unfold notificationsHealth, gate, degraded; rewrite authorized; cbn; now destruct (0 <? re_failedNotices r), (0 <? re_failedNotifications r)).
  cbn [orb]. now rewrite orb_false_r, <- !orb_assoc.
Qed.
End trouble.

(** ** The report *)

Definition reportOf jsonParse (sources : HealthSources DB) tenant limit r nowIso bindings : AppPortServicesHealth :=
  mkServicesReport (overall sources (servicesHealth jsonParse sources tenant r nowIso bindings)) nowIso (src_application sources)
    tenant (src_version sources) limit (sortBy String.leb (re_capped r)) (authorityHealth sources)
    (servicesHealth jsonParse sources tenant r nowIso bindings) (attentionOf jsonParse sources tenant r bindings).

Definition bindingsMatch (sources : HealthSources DB) answers r (bindings : option (list CredentialBindingHealth)) : Prop :=
  match src_custody sources with
  | Some _ => exists hs, bindings = Some hs /\ map bh_state hs = map (materialOf answers) (re_secrets r)
  | None => bindings = None
  end.

Lemma collect_spec jsonParse sources options answers limit tenant w :
  calm w -> src_now sources = None -> (forall status, src_custody sources = Some status -> answersBy status answers) ->
  countLimitOf (ho_countLimit options) = Ok limit -> healthTenant (ho_tenantId options) = Ok tenant ->
  wp (collectHealth jsonParse sources options) (fun o w' => kept w w' /\ exists r nowIso bindings,
     o = Ok (reportOf jsonParse sources tenant limit r nowIso bindings) /\
     exactReads (Z.to_nat limit) (src_application sources) tenant (w_db w) r /\ bindingsMatch sources answers r bindings) w.
Proof.
  intros Hc Hnow Hans El Et. unfold collectHealth. rewrite El, Et, Hnow.
  apply wp_bind, wp_outcome, wp_bind, wp_outcome, wp_bind. unfold systemMs. red. cbn [fst snd].
  set (t := w_system w (w_systick w)). set (w1 := w <| w_systick := S (w_systick w) |>).
  assert (kept w w1) as Hk1.
  { split; [|split; [later_ctl | reflexivity]]. eapply calm_ctl; [exact Hc | reflexivity | reflexivity | later_ctl]. }
  apply wp_bind. eapply wp_mono; [apply readHealth_spec, calm_quiet, Hk1|]. intros o w' (-> & r & -> & Hr).
  apply wp_bind, wpc_isoString; [pose proof (proj1 (proj2 (proj2 Hc)) (w_systick w)); unfold timeBound, maxTime in *; lia|].
  intros nowIso _. apply wp_bind. unfold bindingsMatch. destruct (src_custody sources) as [status|] eqn:Ecust.
  - apply wp_bind. eapply wp_mono; [apply (materialStatus_spec _ answers _ (Hans _ eq_refl)), Hk1|].
    intros o w2 (Hk2 & hs & -> & Ehs). do 2 apply wp_ret. split; [exact (kept_trans _ _ _ Hk1 Hk2)|].
    exists r, nowIso, (Some hs). split; [reflexivity|]. split; [exact Hr | eauto].
  - do 2 apply wp_ret. split; [exact Hk1|]. exists r, nowIso, None. auto.
Qed.

Lemma countLimit_range v limit : countLimitOf v = Ok limit -> 1 <= limit <= MAX_HEALTH_COUNT_LIMIT.
Proof.
  unfold countLimitOf, DEFAULT_HEALTH_COUNT_LIMIT, MAX_HEALTH_COUNT_LIMIT.
  destruct v; try discriminate; [intros [= <-]; lia.. |]. destruct (_ || _) eqn:E; [discriminate|]. intros [= <-].
  apply orb_false_iff in E as [E1%Z.ltb_ge E2%Z.ltb_ge]. lia.
Qed.

Lemma nothing_capped (c : list string) p b : c = [] -> (In p c <-> b = true) -> b = false.
Proof. intros -> Hi. destruct b; [|reflexivity]. destruct (proj2 Hi eq_refl). Qed.

Lemma lost_bindings sources tenant answers r bindings db :
  enumerates CBindings (ownBinding (src_application sources) tenant) db (re_secrets r) -> bindingsMatch sources answers r bindings ->
  (lostCount bindings = true <-> src_custody sources <> None /\
     holds CBindings (fun b => ownBinding (src_application sources) tenant b && isLost answers b) db).
Proof.
  intros Hb. unfold bindingsMatch, lostCount. destruct (src_custody sources).
  - intros (hs & -> & E). rewrite (noMaterial_states _ _ _ E), (existsb_holds _ _ _ _ _ Hb). split; [intros Hx; split; [discriminate | exact Hx] | tauto].
  - intros ->. split; [discriminate | tauto].
Qed.

Lemma degraded_troubled sources tenant jsonParse limit answers r nowIso bindings db :
  (1 <= limit)%nat -> src_authorizer sources = true -> re_capped r = [] -> exactReads limit (src_application sources) tenant db r ->
  bindingsMatch sources answers r bindings ->
  (existsb degraded (states (servicesHealth jsonParse sources tenant r nowIso bindings)) = true <-> troubled sources tenant jsonParse answers db).
Proof.
  intros Hl Ha Hcap Hr Hb.
  destruct (ex_endpoints _ _ _ _ _ Hr) as (be & He & Hbe). rewrite (nothing_capped _ _ _ Hcap Hbe) in He. apply uncapped in He.
  destruct (ex_variables _ _ _ _ _ Hr) as (bv & Hv & Hbv). rewrite (nothing_capped _ _ _ Hcap Hbv) in Hv. apply uncapped in Hv.
  destruct (ex_secrets _ _ _ _ _ Hr) as (bs & Hs & Hbs). rewrite (nothing_capped _ _ _ Hcap Hbs) in Hs. apply uncapped in Hs.
  destruct (ex_failed _ _ _ _ _ Hr) as (b1 & Hd & _). apply (counted_holds _ _ _ _ _ _ Hl) in Hd.
  destruct (ex_failedJobs _ _ _ _ _ Hr) as (b2 & Hj & _). apply (counted_holds _ _ _ _ _ _ Hl) in Hj.
  destruct (ex_failedNotices _ _ _ _ _ Hr) as (b3 & Hn & _). apply (counted_holds _ _ _ _ _ _ Hl) in Hn.
  destruct (ex_notifications _ _ _ _ _ Hr) as (b4 & Hf & _). apply (counted_holds _ _ _ _ _ _ Hl) in Hf.
  rewrite states_degraded by exact Ha.
  rewrite !orb_true_iff, !andb_true_iff, !orb_true_iff, !andb_true_iff, negb_true_iff, Hd, Hj, Hn, Hf.
  rewrite (missing_unmet _ _ _ _ Hv Hs), (missing_unbound _ _ _ _ _ Hv Hs), (lost_bindings _ _ _ _ _ _ Hs Hb).
  assert (0 <? legacySecretValues (re_secrets r) = true <->
          holds CBindings (fun b => ownBinding (src_application sources) tenant b && isLegacy b) db) as ->
    by (unfold legacySecretValues; rewrite countIf_pos; now apply existsb_holds).
  rewrite countIf_pos, (existsb_holds _ _ _ _ _ He).
  assert (0 <? count (re_endpoints r) = true <-> holds CEndpoints (ownEndpoint (src_application sources) tenant) db) as ->.
  { rewrite Z.ltb_lt. unfold count. split.
    - destruct (re_endpoints r) as [|e l] eqn:E; [cbn; lia|]. intros _. destruct (proj1 (enumerates_in _ _ _ _ e He)) as (k & Hk & Hp); [left | exists k, e; auto].
    - intros (k & e & Hk & Hp). assert (e ∈ re_endpoints r) as Hx by (apply (enumerates_in _ _ _ _ _ He); eauto).
      destruct (re_endpoints r); [now apply elem_of_nil in Hx | cbn; lia]. }
  unfold troubled. tauto.
Qed.

(** C20: The health report tells the state of the store.  On a calm store, with
    valid options and whatever custody answers or throws for each credential,
    [collectHealth] returns and writes nothing.  Without an authorizer the
    status is [unconfigured].  With one, and when no read was capped, it is
    [degraded] exactly when something needs an operator - a failed delivery
    where the application has endpoints, an active endpoint without
    credentials to sign with, a failed job, notification or notification
    delivery, a required declaration that an environment lacks, a raw legacy
    credential, a binding whose material is missing or revoked, a selection
    without the credential its provider needs - and [ok] otherwise. *)
Theorem health_status_exact jsonParse sources options answers limit tenant w :
  calm w -> src_now sources = None -> (forall status, src_custody sources = Some status -> answersBy status answers) ->
  countLimitOf (ho_countLimit options) = Ok limit -> healthTenant (ho_tenantId options) = Ok tenant ->
  exists w' report, collectHealth jsonParse sources options w = (w', Ok report) /\ kept w w' /\
    (src_authorizer sources = false -> hr_status report = HUnconfigured) /\
    (src_authorizer sources = true -> hr_cappedCounts report = [] ->
       (hr_status report = HDegraded <-> troubled sources tenant jsonParse answers (w_db w)) /\
       (hr_status report = HOk <-> ~ troubled sources tenant jsonParse answers (w_db w))).
Proof.
  intros Hc Hnow Hans El Et.
  destruct (proj1 (wp_run _ _ _) (collect_spec jsonParse _ _ _ _ _ _ Hc Hnow Hans El Et)) as (o & w' & Eo & Hk & r & nowIso & bindings & -> & Hr & Hb).
  exists w', (reportOf jsonParse sources tenant limit r nowIso bindings). split; [exact Eo|]. split; [exact Hk|]. cbn [hr_status hr_cappedCounts reportOf].
  unfold overall. split; [now intros ->|]. intros Ha Hcap. rewrite Ha. cbn [negb].
  assert (re_capped r = []) as Hnil.
  { pose proof (sortBy_perm String.leb (re_capped r)) as Hp. rewrite Hcap in Hp. now apply Permutation_nil. }
  apply countLimit_range in El. pose proof (degraded_troubled sources tenant jsonParse (Z.to_nat limit) answers r nowIso bindings (w_db w) ltac:(lia) Ha Hnil Hr Hb) as Hd.
  fold degraded. change (fun state => bool_decide (state = HDegraded)) with degraded.
  destruct (existsb degraded _); split; split; intros Hx; try reflexivity; try discriminate Hx; intuition congruence.
Qed.

(** The counts of the health report are the store's, up to the limit.
    Every count is the number of matching records or, if those are more than
    the limit, the limit, and exactly then its path is among the capped
    counts; active, revoked and expired keys add up to the keys, active and
    disabled endpoints to the endpoints. *)
Theorem health_counts_exact jsonParse sources options answers limit tenant w :
  calm w -> src_now sources = None -> (forall status, src_custody sources = Some status -> answersBy status answers) ->
  countLimitOf (ho_countLimit options) = Ok limit -> healthTenant (ho_tenantId options) = Ok tenant ->
  exists w' report, collectHealth jsonParse sources options w = (w', Ok report) /\ 1 <= limit <= MAX_HEALTH_COUNT_LIMIT /\
    let app := src_application sources in
    let services := hr_services report in
    let exact (V : Type) (c : coll V) p path n := exists b, counted c p (w_db w) (Z.to_nat limit) n b /\ (In path (hr_cappedCounts report) <-> b = true) in
    let keys := sh_counts (se_apiKeys services) in
    let hooks := sh_counts (se_webhooks services) in
    let jobs := sh_counts (se_jobs services) in
    let schedules := sh_counts (se_schedules services) in
    let notes := sh_counts (se_notifications services) in
    let config := sh_counts (fh_base (se_configuration services)) in
    exact _ CKeys (ownKey app tenant) "apiKeys.keys" (nk_keys keys) /\ nk_active keys + nk_revoked keys + nk_expired keys = nk_keys keys /\
    exact _ CEndpoints (ownEndpoint app tenant) "webhooks.endpoints" (nw_endpoints hooks) /\
    nw_activeEndpoints hooks + nw_disabledEndpoints hooks = nw_endpoints hooks /\
    exact _ CDeliveries (tenantDelivery tenant WPending) "webhooks.pendingDeliveries" (nw_pendingDeliveries hooks) /\
    exact _ CDeliveries (tenantDelivery tenant WRetrying) "webhooks.retryingDeliveries" (nw_retryingDeliveries hooks) /\
    exact _ CDeliveries (tenantDelivery tenant WFailed) "webhooks.failedDeliveries" (nw_failedDeliveries hooks) /\
    exact _ CJobs (ownedJob app tenant JPending) "jobs.pending" (nj_pending jobs) /\
    exact _ CJobs (ownedJob app tenant JRunning) "jobs.running" (nj_running jobs) /\
    exact _ CJobs (ownedJob app tenant JRetrying) "jobs.retrying" (nj_retrying jobs) /\
    exact _ CJobs (ownedJob app tenant JFailed) "jobs.failed" (nj_failed jobs) /\
    exact _ CSchedules (ownedSchedule app tenant true) "schedules.enabled" (nc_enabled schedules) /\
    exact _ CSchedules (ownedSchedule app tenant false) "schedules.disabled" (nc_disabled schedules) /\
    exact _ CNotifications (ownedFailure app tenant) "notifications.failedNotifications" (no_failedNotifications notes) /\
    exact _ CNotificationDeliveries (tenantNotice tenant NdPending) "notifications.pendingDeliveries" (no_pendingDeliveries notes) /\
    exact _ CNotificationDeliveries (tenantNotice tenant NdRetrying) "notifications.retryingDeliveries" (no_retryingDeliveries notes) /\
    exact _ CNotificationDeliveries (tenantNotice tenant NdFailed) "notifications.failedDeliveries" (no_failedDeliveries notes) /\
    exact _ CVariables (ownVariable app tenant) "configuration.variables" (nf_variables config) /\
    exact _ CBindings (ownBinding app tenant) "configuration.secrets" (nf_secrets config).
Proof.
  intros Hc Hnow Hans El Et.
  destruct (proj1 (wp_run _ _ _) (collect_spec jsonParse _ _ _ _ _ _ Hc Hnow Hans El Et)) as (o & w' & Eo & _ & r & nowIso & bindings & -> & [] & _).
  exists w', (reportOf jsonParse sources tenant limit r nowIso bindings). split; [exact Eo|]. split; [eapply countLimit_range, El|].
  assert (forall p b, (In p (re_capped r) <-> b = true) -> (In p (sortBy String.leb (re_capped r)) <-> b = true)) as Hsort.
  { intros p b <-. pose proof (sortBy_perm String.leb (re_capped r)) as Hp. rewrite <- !list_elem_of_In. now rewrite Hp. }
  assert (forall V (c : coll V) p l b, sampled c p (w_db w) (Z.to_nat limit) l b -> counted c p (w_db w) (Z.to_nat limit) (count l) b) as Hlist.
  { intros V c p l b (all & Hall & -> & Hb). exists all. split; [exact Hall|]. split; [|exact Hb]. unfold count. rewrite length_take. lia. }
  assert (forall C state reasons (counts : C), sh_counts (gate sources state reasons counts) = counts) as Hgate
    by (intros; unfold gate; now destruct (src_authorizer sources)).
  cbn [hr_services hr_cappedCounts reportOf servicesHealth se_apiKeys se_webhooks se_jobs se_schedules se_notifications se_configuration configurationHealth fh_base].
  unfold apiKeysHealth, webhooksHealth, jobsHealth, schedulesHealth, notificationsHealth, configurationHealth. cbn [fh_base]. rewrite !Hgate. cbn.
  assert (forall V (c : coll V) p l path, (exists b, sampled c p (w_db w) (Z.to_nat limit) l b /\ (In path (re_capped r) <-> b = true)) ->
    exists b, counted c p (w_db w) (Z.to_nat limit) (count l) b /\ (In path (sortBy String.leb (re_capped r)) <-> b = true)) as HL
    by (intros V c p l path (b & Hs & Hb); exists b; split; [now apply Hlist | now apply Hsort]).
  assert (forall V (c : coll V) p n path, (exists b, counted c p (w_db w) (Z.to_nat limit) n b /\ (In path (re_capped r) <-> b = true)) ->
    exists b, counted c p (w_db w) (Z.to_nat limit) n b /\ (In path (sortBy String.leb (re_capped r)) <-> b = true)) as HN
    by (intros V c p n path (b & Hs & Hb); exists b; split; [exact Hs | now apply Hsort]).
  repeat match goal with |- _ /\ _ => split end; try (apply HL; assumption); try (apply HN; assumption); lia.
Qed.
End props.

(** ** Reports on stores in memory *)

Definition noJson : string -> option jsval := fun _ => None.

Definition demoSources (declarations : list ConfigurationDeclaration) : HealthSources MemDB :=
  mkSources "app" "1" true true None declarations None.

Definition demoOptions (limit : Z) : ServiceHealthOptions := mkHealthOptions (JStr "t1") (JInt limit).

Definition brokenJob : Job :=
  mkJob "j1" "t1" (Some "app") "mail" JNull JFailed "2023-11-14T22:13:20.000Z" 3 3 "2023-11-14T22:13:20.000Z" None None None
    None None None None 1.

Definition brokenDB : MemDB := memPut CJobs "j1" brokenJob emptyDB.

Lemma brokenDB_calm : calm (demo brokenDB).
Proof. apply demo_calm, unused_put; [reflexivity | exact unused_empty]. Qed.

Definition noAnswers : SecretReference -> outcome (option RawCustodyStatus) := fun _ => Ok None.

Lemma demo_custody : forall status, src_custody (demoSources []) = Some status -> answersBy status noAnswers.
Proof. discriminate. Qed.

Lemma health_status_exact_witness :
  exists w' report, collectHealth noJson (demoSources []) (demoOptions 10) (demo brokenDB) = (w', Ok report) /\
    hr_status report = HDegraded.
Proof.
  destruct (health_status_exact noJson (demoSources []) (demoOptions 10) noAnswers 10 (Some "t1") (demo brokenDB)
    brokenDB_calm eq_refl demo_custody eq_refl eq_refl) as (w' & report & E & _ & _ & Hs).
  exists w', report. split; [exact E|].
  assert (match (collectHealth noJson (demoSources []) (demoOptions 10) (demo brokenDB)).2 with
          | Ok r => hr_cappedCounts r = [] | Throw _ => False end) as Hcap by (vm_compute; reflexivity).
  rewrite E in Hcap. apply (Hs eq_refl Hcap). right. left. exists "j1", brokenJob. split; vm_compute; reflexivity.
Defined.

Lemma health_counts_exact_witness :
  exists w' report, collectHealth noJson (demoSources []) (demoOptions 10) (demo brokenDB) = (w', Ok report) /\
    exists b, counted CJobs (ownedJob "app" (Some "t1") JFailed) brokenDB 10 (nj_failed (sh_counts (se_jobs (hr_services report)))) b /\
      (In "jobs.failed" (hr_cappedCounts report) <-> b = true).
Proof.
  destruct (health_counts_exact noJson (demoSources []) (demoOptions 10) noAnswers 10 (Some "t1") (demo brokenDB)
    brokenDB_calm eq_refl demo_custody eq_refl eq_refl) as (w' & report & E & _ & Hs).
  exists w', report. split; [exact E|]. apply Hs.
Defined.

Definition variable (id name : string) : ConfigurationVariable :=
  mkVariable id (mkScope "t1" "app" Production) name "on" false "2023-11-14T22:13:20.000Z" "2023-11-14T22:13:20.000Z" "alice" 1.

Definition required (secret : bool) : ConfigurationDeclaration := mkDeclaration "MODE" secret true.

Definition twoVariables : MemDB := memPut CVariables "v1" (variable "v1" "OTHER") (memPut CVariables "v2" (variable "v2" "MODE") emptyDB).

Lemma reported {A} (m : World MemDB * outcome A) (P : A -> Prop) :
  match m.2 with Ok a => P a | Throw _ => False end -> exists w' a, m = (w', Ok a) /\ P a.
Proof. destruct m as [w' [a|e]]; [eauto | intros []]. Qed.

(** A declaration that is met is reported as missing, when its variable is
    beyond the limit of the counts. *)
Lemma capped_health_reports_missing :
  (exists v, peek CVariables "v2" twoVariables = Some v /\ cv_name v = "MODE") /\
  exists w' report, collectHealth noJson (demoSources [required false]) (demoOptions 1) (demo twoVariables) = (w', Ok report) /\
    nf_missingRequired (sh_counts (fh_base (se_configuration (hr_services report)))) = 1 /\ hr_status report = HDegraded.
Proof. split; [eexists; split; vm_compute; reflexivity|]. apply reported. vm_compute. auto. Qed.

(** A missing variable degrades the services and is no part of the summary of
    everything that needs an operator. *)
Lemma attention_omits_missing_variables :
  exists w' report, collectHealth noJson (demoSources [required false]) (demoOptions 10) (demo emptyDB) = (w', Ok report) /\
    hr_status report = HDegraded /\ hr_attention report = mkAttention 0 0 0 0 0 0 0 None.
Proof. apply reported. vm_compute. auto. Qed.
