(* ===== verification/Extensions.v ===== *)
(** * Extensions: what a management extension may declare ([extensions/extension.ts])

    An extension is untyped input that is read once ([snapshot]), checked and
    kept.  [String(value)] of a value that is no text is a parameter, and
    whether a number that is no integer is finite: both only matter in
    messages and in the order of a page.  [routes] is a function when it is
    [JOpaque]. *)

From S2P Require Import Prelude JsString Errors Models Store Principal Manifest Gateway Sensitive.
From Stdlib Require Import ZArith Lia Ascii.
Local Open Scope string_scope.
Local Open Scope Z_scope.

(** ** Declarations *)

Record ServicesExtensionCapability := mkExtensionCapability {
  xc_name : string;
  xc_operation : string;
  xc_effect : ServiceEffect;
  xc_resource : string }.

Record ServicesExtensionPage := mkExtensionPage {
  xp_id : string;
  xp_title : string;
  xp_route : string;
  xp_order : jsval;
  xp_description : string;
  xp_capabilities : list string;
  xp_script : string }.

(** [xn_routes]: the extension mounts routes. *)
Record ServicesExtension := mkExtension {
  xn_id : string;
  xn_capabilities : list ServicesExtensionCapability;
  xn_pages : list ServicesExtensionPage;
  xn_routes : bool }.

(** [^[a-z][a-z0-9-]{1,30}$] *)
Definition isId (s : string) : bool :=
  match s with
  | String c r => isLower c && all (fun c => isLower c || isDigit c || chr "-" c) r &&
                  Nat.leb 1 (String.length r) && Nat.leb (String.length r) 30
  | EmptyString => false
  end.

(** [^[a-z][a-z0-9_]*$] *)
Definition isSegment (s : string) : bool :=
  match s with
  | String c r => isLower c && all (fun c => isLower c || isDigit c || chr "_" c) r
  | EmptyString => false
  end.

(** [^(\/[a-z0-9-]+)+$] *)
Definition isRoute (s : string) : bool :=
  match splitOn "/" s with
  | EmptyString :: (_ :: _) as parts => forallb (fun p => truthy p && all (fun c => isLower c || isDigit c || chr "-" c) p) (tail parts)
  | _ => false
  end.

Definition MAX_SCRIPT : Z := 256 * 1024.

Definition RESERVED_IDS : list string :=
  [ "overview"; "services"; "api-keys"; "webhooks"; "jobs"; "schedules"; "notifications"; "files"; "configuration"; "intelligence";
    "secrets"; "extensions"; "v1"; "_appport" ].

Definition reservedId (id : string) : bool := existsb (String.eqb id) RESERVED_IDS.

(** [name.split('.')[0]] *)
Definition namespaceOf (name : string) : string := match splitOn "." name with p :: _ => p | [] => "" end.

Definition BUILT_IN_NAMESPACES : list string := map (fun c => namespaceOf (c_name c)) ENTRIES.
Definition BUILT_IN_RESOURCES : list string := map c_resource ENTRIES.

Definition UNSAFE_SCRIPT : re := anyOf [litI "</script"; lit "<!--"; litI "<script"].

Definition ServicesExtensionError (message : string) : exn := JsError "ServicesExtensionError" message.

(** ** Reading *)

Record RawCapability := mkRawCapability { rc_name : jsval; rc_operation : jsval; rc_effect : jsval; rc_resource : jsval }.

Record RawPage := mkRawPage {
  rp_id : jsval;
  rp_title : jsval;
  rp_route : jsval;
  rp_order : jsval;
  rp_description : jsval;
  rp_capabilities : list jsval;
  rp_script : jsval }.

Record RawExtension := mkRawExtension {
  rx_id : jsval;
  rx_capabilities : list RawCapability;
  rx_pages : list RawPage;
  rx_routes : jsval }.

(** The own properties of a value with [typeof value === 'object']; an array
    has none of those that are read. *)
Definition objectFields (v : jsval) : option (list (string * jsval)) :=
  match v with JObj fields => Some fields | JArr _ => Some [] | _ => None end.

Section define.
(** [String(value)] *)
Variable stringOf : jsval -> string.
(** [Number.isFinite] of numbers that are no integers *)
Variable fractionsFinite : bool.

Definition extensionFail {A} (label message : string) : outcome A :=
  Throw (ServicesExtensionError ("Extension " ++ quoted label ++ ": " ++ message)).

(** The elements, read in order. *)
Fixpoint readAll {A} (read : jsval -> outcome A) (l : list jsval) : outcome (list A) :=
  match l with
  | [] => Ok []
  | v :: rest => a ← read v; entries ← readAll read rest; Ok (a :: entries)
  end.

Definition readCapability (v : jsval) : outcome RawCapability :=
  match objectFields v with
  | Some f => Ok (mkRawCapability (getField f "name") (getField f "operation") (getField f "effect") (getField f "resource"))
  | None => extensionFail "unknown" "every capability must be an object"
  end.

Definition readPage (v : jsval) : outcome RawPage :=
  match objectFields v with
  | Some f =>
      match getField f "capabilities" with
      | JArr l => Ok (mkRawPage (getField f "id") (getField f "title") (getField f "route") (getField f "order")
                        (getField f "description") l (getField f "script"))
      | _ => extensionFail "unknown" ("page " ++ quoted (stringOf (getField f "id")) ++ " must declare the capabilities it drives")
      end
  | None => extensionFail "unknown" "every page must be an object"
  end.

Definition arrayField (v : jsval) (message : string) : outcome (list jsval) :=
  match v with
  | JUndef => Ok []
  | JArr l => Ok l
  | _ => extensionFail "unknown" message
  end.

Definition snapshot (input : jsval) : outcome RawExtension :=
  match objectFields input with
  | Some f =>
      capabilities ← arrayField (getField f "capabilities") "capabilities must be an array";
      pages ← arrayField (getField f "pages") "pages must be an array";
      copiedCapabilities ← readAll readCapability capabilities;
      copiedPages ← readAll readPage pages;
      Ok (mkRawExtension (getField f "id") copiedCapabilities copiedPages (getField f "routes"))
  | None => extensionFail "unknown" "an extension must be an object"
  end.

(** ** Checking *)

Definition textThat (p : string -> bool) (v : jsval) : bool := match v with JStr s => p s | _ => false end.
Definition textOf (v : jsval) : string := match v with JStr s => s | _ => "" end.

Definition effectOf (v : jsval) : option ServiceEffect :=
  if isStr v "observation" then Some Observation else if isStr v "consequential" then Some Consequential else None.

Section declaration.
Variable id : string.

(** Fails under the extension's own label unless [ok]. *)
Definition require (ok : bool) (message : string) : outcome unit := if ok then Ok tt else extensionFail id message.

Definition defineCapability (names : list string) (c : RawCapability) : outcome ServicesExtensionCapability :=
  _ ← require (textThat (fun n => startsWith n (id ++ ".")) (rc_name c))
        ("capability " ++ quoted (stringOf (rc_name c)) ++ " must be named " ++ quoted (id ++ ".<name>"));
  let name := textOf (rc_name c) in
  let label := "capability " ++ quoted name in
  _ ← require (forallb isSegment (splitOn "." (sliceFrom (String.length id + 1) name))) (label ++ " has an invalid name");
  _ ← require (match getServiceCapability name with Some _ => false | None => true end) (label ++ " is a built-in capability");
  _ ← require (negb (existsb (String.eqb name) names)) (label ++ " is declared twice");
  match effectOf (rc_effect c) with
  | None => extensionFail id (label ++ " needs an effect")
  | Some effect =>
      _ ← require (textThat truthy (rc_operation c)) (label ++ " needs an operation");
      _ ← require (textThat isSegment (rc_resource c)) (label ++ " needs a resource type");
      let resource := textOf (rc_resource c) in
      _ ← require (negb (existsb (String.eqb resource) BUILT_IN_RESOURCES))
            (label ++ " may not use the built-in resource type " ++ quoted resource);
      Ok (mkExtensionCapability name (textOf (rc_operation c)) effect resource)
  end.

Fixpoint defineCapabilities (seen : list ServicesExtensionCapability) (l : list RawCapability)
  : outcome (list ServicesExtensionCapability) :=
  match l with
  | [] => Ok seen
  | c :: rest => d ← defineCapability (map xc_name seen) c; defineCapabilities (seen ++ [d])%list rest
  end.

(** Every element is the name of a capability of the extension. *)
Fixpoint ownCapabilities (pageLabel : string) (names : list string) (l : list jsval) : outcome (list string) :=
  match l with
  | [] => Ok []
  | v :: rest =>
      _ ← require (textThat (fun n => existsb (String.eqb n) names) v)
            (pageLabel ++ " uses " ++ quoted (stringOf v) ++ ", which the extension does not declare");
      own ← ownCapabilities pageLabel names rest; Ok (textOf v :: own)
  end.

Definition definePage (names pageIds routes : list string) (p : RawPage) : outcome ServicesExtensionPage :=
  _ ← require (textThat (fun i => (String.eqb i id || startsWith i (id ++ "-")) && isId i) (rp_id p))
        ("page " ++ quoted (stringOf (rp_id p)) ++ " must be " ++ quoted id ++ " or " ++ quoted (id ++ "-<name>"));
  let pageId := textOf (rp_id p) in
  let label := "page " ++ quoted pageId in
  _ ← require (negb (reservedId pageId)) (label ++ " is a built-in page id");
  _ ← require (negb (existsb (String.eqb pageId) pageIds)) (label ++ " is declared twice");
  _ ← require (textThat (fun r => (String.eqb r ("/" ++ id) || startsWith r ("/" ++ id ++ "/")) && isRoute r) (rp_route p))
        (label ++ " route must be /" ++ id ++ " or under it");
  let route := textOf (rp_route p) in
  _ ← require (negb (existsb (String.eqb route) routes)) (label ++ " route " ++ route ++ " is used by another page");
  _ ← require (textThat (fun t => negb (blank t)) (rp_title p)) (label ++ " needs a title");
  _ ← require (textThat (fun t => negb (blank t)) (rp_description p)) (label ++ " needs a description");
  _ ← require (match rp_order p with JInt _ => true | JNumOther => fractionsFinite | _ => false end) (label ++ " needs an order");
  _ ← require (match rp_capabilities p with [] => false | _ => true end) (label ++ " must declare the capabilities it drives");
  own ← ownCapabilities label names (rp_capabilities p);
  _ ← require (textThat (fun s => negb (blank s) && (Z.of_nat (String.length s) <=? MAX_SCRIPT)) (rp_script p))
        (label ++ " needs a renderer script under " ++ num MAX_SCRIPT ++ " characters");
  let script := textOf (rp_script p) in
  _ ← require (negb (test UNSAFE_SCRIPT script))
        (label ++ " script may not contain " ++ quoted "</script" ++ ", " ++ quoted "<script" ++ " or " ++ quoted "<!--");
  Ok (mkExtensionPage pageId (textOf (rp_title p)) route (rp_order p) (textOf (rp_description p)) own script).

Fixpoint definePages (names : list string) (seen : list ServicesExtensionPage) (l : list RawPage) : outcome (list ServicesExtensionPage) :=
  match l with
  | [] => Ok seen
  | p :: rest =>
      d ← definePage names (map xp_id seen) (map xp_route seen) p;
      definePages names (seen ++ [d])%list rest
  end.
End declaration.

Definition defineServicesExtension (input : jsval) : outcome ServicesExtension :=
  raw ← snapshot input;
  let label := stringOf (rx_id raw) in
  if negb (textThat isId (rx_id raw)) then extensionFail label "id must match [a-z][a-z0-9-]{1,30}"
  else
    let id := textOf (rx_id raw) in
    if reservedId id || existsb (String.eqb id) BUILT_IN_NAMESPACES then extensionFail label "id is reserved by AppPort Services"
    else
      capabilities ← defineCapabilities id [] (rx_capabilities raw);
      pages ← definePages id (map xc_name capabilities) [] (rx_pages raw);
      match rx_routes raw with
      | JUndef => Ok (mkExtension id capabilities pages false)
      | JOpaque => Ok (mkExtension id capabilities pages true)
      | _ => extensionFail label "routes must be a function"
      end.

(** The pages of one extension, after those [seen]: their ids and routes. *)
Fixpoint contributePages (ids routes : list string) (pages : list ServicesExtensionPage) : outcome (list string * list string) :=
  match pages with
  | [] => Ok (ids, routes)
  | p :: rest =>
      if existsb (String.eqb (xp_id p)) ids then Throw (ServicesExtensionError ("Page " ++ quoted (xp_id p) ++ " is contributed twice"))
      else if existsb (String.eqb (xp_route p)) routes
           then Throw (ServicesExtensionError ("Page route " ++ xp_route p ++ " is contributed twice"))
      else contributePages (ids ++ [xp_id p])%list (routes ++ [xp_route p])%list rest
  end.

Fixpoint contribute (ids pages routes : list string) (l : list ServicesExtension) : outcome unit :=
  match l with
  | [] => Ok tt
  | x :: rest =>
      if existsb (String.eqb (xn_id x)) ids then
        Throw (ServicesExtensionError ("Extension " ++ quoted (xn_id x) ++ " is registered twice"))
      else
        seen ← contributePages pages routes (xn_pages x);
        contribute (ids ++ [xn_id x])%list (fst seen) (snd seen) rest
  end.

Definition defineServicesExtensions (extensions : list jsval) : outcome (list ServicesExtension) :=
  defined ← readAll defineServicesExtension extensions;
  _ ← contribute [] [] [] defined;
  Ok defined.
End define.

(** The gateway capabilities an extension's declarations become. *)
Definition extensionCapabilities (x : ServicesExtension) : list ServiceCapability :=
  map (fun c => mkCapability (xc_name c) 1 ("extension:" ++ xn_id x) (xc_operation c) (xc_effect c) false true (xc_resource c))
    (xn_capabilities x).

(** [createServices]: the declarations join the gateway's manifest. *)
Definition extensionManifest (extensions : list ServicesExtension) : list ServiceCapability := flat_map extensionCapabilities extensions.

(** ** Registration *)

(** A registration is an object; [rg_identity] is its identity. *)
Record RegisteredServicesExtension := mkRegistered {
  rg_identity : nat;
  rg_extension : ServicesExtension }.

(** The objects [registerServicesExtension] made: how many, and the weak set of them. *)
Record Registrations := mkRegistrations {
  rs_made : nat;
  rs_known : list nat }.

Definition registerServicesExtension (x : ServicesExtension) (registrations : Registrations)
  : Registrations * RegisteredServicesExtension :=
  (mkRegistrations (S (rs_made registrations)) (rs_made registrations :: rs_known registrations),
   mkRegistered (rs_made registrations) x).

(** Of an object with the identity [value]; anything else has none. *)
Definition isRegisteredServicesExtension (registrations : Registrations) (value : option nat) : bool :=
  match value with Some i => existsb (Nat.eqb i) (rs_known registrations) | None => false end.
