(* ===== verification/ExtensionProps.v ===== *)
(** * ExtensionProps: what an accepted extension may do

    [wellDefined] states what a declaration must be; the checks accept exactly
    those, and their capabilities join the gateway without touching the
    built-in ones. *)

From S2P Require Import Prelude JsString Errors Models Store Principal Manifest Gateway Sensitive NotificationFacts Extensions Demo.
From Stdlib Require Import ZArith Lia Ascii.
Local Open Scope string_scope.
Local Open Scope Z_scope.

(** ** What a declaration must be *)

Record wellNamed (id : string) (c : ServicesExtensionCapability) : Prop := mkWellNamed {
  wn_prefix : startsWith (xc_name c) (id ++ ".") = true;
  wn_segments : forallb isSegment (splitOn "." (sliceFrom (String.length id + 1) (xc_name c))) = true;
  wn_new : getServiceCapability (xc_name c) = None;
  wn_operation : xc_operation c <> "";
  wn_resource : isSegment (xc_resource c) = true;
  wn_ownResource : ~ In (xc_resource c) BUILT_IN_RESOURCES }.

Record wellPlaced (fractionsFinite : bool) (id : string) (names : list string) (p : ServicesExtensionPage) : Prop := mkWellPlaced {
  wp_id : (xp_id p = id \/ startsWith (xp_id p) (id ++ "-") = true) /\ isId (xp_id p) = true;
  wp_unreserved : ~ In (xp_id p) RESERVED_IDS;
  wp_route : (xp_route p = "/" ++ id \/ startsWith (xp_route p) ("/" ++ id ++ "/") = true) /\ isRoute (xp_route p) = true;
  wp_title : blank (xp_title p) = false;
  wp_description : blank (xp_description p) = false;
  wp_order : (exists z, xp_order p = JInt z) \/ xp_order p = JNumOther /\ fractionsFinite = true;
  wp_drives : xp_capabilities p <> [];
  wp_own : incl (xp_capabilities p) names;
  wp_script : blank (xp_script p) = false /\ Z.of_nat (String.length (xp_script p)) <= MAX_SCRIPT;
  wp_safe : ~ occurs UNSAFE_SCRIPT (xp_script p) }.

Record wellDefined (fractionsFinite : bool) (x : ServicesExtension) : Prop := mkWellDefined {
  wd_id : isId (xn_id x) = true;
  wd_free : ~ In (xn_id x) RESERVED_IDS /\ ~ In (xn_id x) BUILT_IN_NAMESPACES;
  wd_named : Forall (wellNamed (xn_id x)) (xn_capabilities x);
  wd_names : NoDup (map xc_name (xn_capabilities x));
  wd_placed : Forall (wellPlaced fractionsFinite (xn_id x) (map xc_name (xn_capabilities x))) (xn_pages x);
  wd_pageIds : NoDup (map xp_id (xn_pages x));
  wd_routes : NoDup (map xp_route (xn_pages x)) }.

(** ** Small facts *)

Lemma member_spec s l : existsb (String.eqb s) l = true <-> In s l.
Proof. rewrite existsb_exists. split; [intros (y & Hy & ->%String.eqb_eq); exact Hy | intros Hs; exists s; split; [exact Hs | apply String.eqb_refl]]. Qed.

Lemma member_false s l : existsb (String.eqb s) l = false <-> ~ In s l.
Proof. rewrite <- member_spec. destruct (existsb _ l); intuition congruence. Qed.

Lemma require_ok id ok message : require id ok message = Ok tt <-> ok = true.
Proof. unfold require, extensionFail. destruct ok; split; congruence. Qed.

Lemma textThat_spec p v : textThat p v = true <-> exists s, v = JStr s /\ p s = true.
Proof.
  destruct v; cbn; (split; [try discriminate | intros (s' & E & Hp); try discriminate E]); [eauto|]. now injection E as ->.
Qed.

Section accepted.
Variable stringOf : jsval -> string.
Variable fractionsFinite : bool.

(** A chain of requirements: all hold, and the end is reached. *)
Ltac chain H :=
  repeat match type of H with
  | (_ ← require _ _ _; _) = Ok _ =>
      let u := fresh "u" in let Hr := fresh "Hr" in
      apply obind_ok in H as (u & Hr & H); destruct u; apply require_ok in Hr
  end.

Lemma defineCapability_ok id names c d : defineCapability stringOf id names c = Ok d ->
  wellNamed id d /\ ~ In (xc_name d) names.
Proof.
  unfold defineCapability. intros E. chain E. destruct (effectOf (rc_effect c)) as [effect|]; [|discriminate E]. chain E.
  injection E as <-. cbn [xc_name].
  apply textThat_spec in Hr as (name & En & Hp), Hr3 as (op & Eop & Ho), Hr4 as (res & Eres & Hs). rewrite En, Eop, Eres in *. cbn [textOf] in *.
  apply negb_true_iff in Hr2, Hr5. apply member_false in Hr2, Hr5.
  split; [|exact Hr2]. split; cbn [xc_name xc_operation xc_resource]; try assumption; [revert Hr1; now destruct (getServiceCapability name) | now apply truthy_spec].
Qed.

Lemma defineCapabilities_ok id l : forall seen out, defineCapabilities stringOf id seen l = Ok out ->
  Forall (wellNamed id) seen -> NoDup (map xc_name seen) -> Forall (wellNamed id) out /\ NoDup (map xc_name out).
Proof.
  induction l as [|c l IH]; cbn [defineCapabilities]; intros seen out E Hw Hd; [injection E as <-; auto|].
  apply obind_ok in E as (d & Ed & E). apply defineCapability_ok in Ed as [Hwd Hn]. apply (IH _ _ E).
  - apply Forall_app. auto.
  - rewrite map_app. apply NoDup_app. split; [exact Hd|]. split; [|apply NoDup_singleton].
    intros y Hy ->%list_elem_of_singleton. now apply Hn, list_elem_of_In.
Qed.

Lemma ownCapabilities_ok id label names l : forall out, ownCapabilities stringOf id label names l = Ok out ->
  incl out names /\ (l <> [] -> out <> []).
Proof.
  induction l as [|v l IH]; cbn [ownCapabilities]; intros out E; [injection E as <-; split; [intros ? [] | congruence]|].
  chain E. apply obind_ok in E as (own & Eo & [= <-]). apply textThat_spec in Hr as (n & -> & Hn%member_spec).
  split; [|discriminate]. intros y [<-|Hy]; [exact Hn | now apply (IH _ Eo)].
Qed.

Lemma definePage_ok id names ids routes p d : definePage stringOf fractionsFinite id names ids routes p = Ok d ->
  wellPlaced fractionsFinite id names d /\ ~ In (xp_id d) ids /\ ~ In (xp_route d) routes.
Proof.
  unfold definePage. intros E. chain E. apply obind_ok in E as (own & Eo & E). chain E. injection E as <-. cbn [xp_id xp_route].
  apply textThat_spec in Hr as (pid & Eid & [Hid Hi]%andb_prop), Hr2 as (route & Er & [Hrt Hir]%andb_prop),
    Hr4 as (title & Et & Ht%negb_true_iff), Hr5 as (descr & Ed & Hds%negb_true_iff), Hr8 as (script & Es & [Hs1%negb_true_iff Hs2%Z.leb_le]%andb_prop).
  rewrite Eid, Er, Et, Ed, Es in *. cbn [textOf] in *. apply negb_true_iff in Hr0, Hr1, Hr3, Hr9.
  apply member_false in Hr1, Hr3. split; [|auto]. apply ownCapabilities_ok in Eo as [Hincl Hne].
  apply orb_prop in Hid, Hrt.
  split; cbn [xp_id xp_title xp_route xp_order xp_description xp_capabilities xp_script]; try assumption.
  - split; [|exact Hi]. destruct Hid as [->%String.eqb_eq|]; auto.
  - now apply member_false.
  - split; [|exact Hir]. destruct Hrt as [->%String.eqb_eq|]; auto.
  - destruct (rp_order p); try discriminate Hr6; [left; eauto | right; auto].
  - apply Hne. now destruct (rp_capabilities p).
  - auto.
  - intros Ho%test_spec. congruence.
Qed.

Lemma definePages_ok id names l : forall seen out, definePages stringOf fractionsFinite id names seen l = Ok out ->
  Forall (wellPlaced fractionsFinite id names) seen -> NoDup (map xp_id seen) -> NoDup (map xp_route seen) ->
  Forall (wellPlaced fractionsFinite id names) out /\ NoDup (map xp_id out) /\ NoDup (map xp_route out).
Proof.
  induction l as [|c l IH]; cbn [definePages]; intros seen out E Hw Hd Hd2; [injection E as <-; auto|].
  apply obind_ok in E as (d & Ed & E). apply definePage_ok in Ed as (Hwd & Hn & Hn2). apply (IH _ _ E).
  - apply Forall_app. auto.
  - rewrite map_app. apply NoDup_app. split; [exact Hd|]. split; [|apply NoDup_singleton].
    intros y Hy ->%list_elem_of_singleton. now apply Hn, list_elem_of_In.
  - rewrite map_app. apply NoDup_app. split; [exact Hd2|]. split; [|apply NoDup_singleton].
    intros y Hy ->%list_elem_of_singleton. now apply Hn2, list_elem_of_In.
Qed.

Lemma define_ok input x : defineServicesExtension stringOf fractionsFinite input = Ok x -> wellDefined fractionsFinite x.
Proof.
  unfold defineServicesExtension. intros E. apply obind_ok in E as (raw & _ & E).
  destruct (negb _) eqn:Eid; [discriminate E|]. apply negb_false_iff, textThat_spec in Eid as (id & Ei & Hid). rewrite Ei in E. cbn [textOf] in E.
  destruct (reservedId id || existsb (String.eqb id) BUILT_IN_NAMESPACES) eqn:Er; [discriminate E|].
  apply orb_false_iff in Er as [Er1 Er2]. apply member_false in Er1, Er2.
  apply obind_ok in E as (caps & Ec & E). apply obind_ok in E as (pages & Ep & E).
  apply defineCapabilities_ok in Ec as [Hc Hcd]; [|constructor..]. apply definePages_ok in Ep as (Hp & Hpi & Hpr); [|constructor..].
  destruct (rx_routes raw); try discriminate E; injection E as <-; split; cbn; auto.
Qed.

(** ** Every such declaration is accepted *)

Definition effectName (e : ServiceEffect) : string := match e with Observation => "observation" | Consequential => "consequential" end.

Definition rawCapability (c : ServicesExtensionCapability) : RawCapability :=
  mkRawCapability (JStr (xc_name c)) (JStr (xc_operation c)) (JStr (effectName (xc_effect c))) (JStr (xc_resource c)).

Definition rawPage (p : ServicesExtensionPage) : RawPage :=
  mkRawPage (JStr (xp_id p)) (JStr (xp_title p)) (JStr (xp_route p)) (xp_order p) (JStr (xp_description p))
    (map JStr (xp_capabilities p)) (JStr (xp_script p)).

Definition printCapability (c : ServicesExtensionCapability) : jsval :=
  JObj [("name", JStr (xc_name c)); ("operation", JStr (xc_operation c)); ("effect", JStr (effectName (xc_effect c)));
        ("resource", JStr (xc_resource c))].

Definition printPage (p : ServicesExtensionPage) : jsval :=
  JObj [("id", JStr (xp_id p)); ("title", JStr (xp_title p)); ("route", JStr (xp_route p)); ("order", xp_order p);
        ("description", JStr (xp_description p)); ("capabilities", JArr (map JStr (xp_capabilities p))); ("script", JStr (xp_script p))].

(** An extension as a host writes it. *)
Definition printExtension (x : ServicesExtension) : jsval :=
  JObj ([("id", JStr (xn_id x)); ("capabilities", JArr (map printCapability (xn_capabilities x)));
         ("pages", JArr (map printPage (xn_pages x)))] ++ (if xn_routes x then [("routes", JOpaque)] else []))%list.

Lemma require_bind {A} id ok message (k : outcome A) : ok = true -> (_ ← require id ok message; k) = k.
Proof. now intros ->. Qed.

Lemma readAll_map {A B} (read : jsval -> outcome A) (print : B -> jsval) (raw : B -> A) l :
  (forall b, read (print b) = Ok (raw b)) -> readAll read (map print l) = Ok (map raw l).
Proof. intros Hr. induction l as [|b l IH]; cbn [map readAll]; [reflexivity | now rewrite Hr, IH]. Qed.

Lemma defineCapability_accepts id names c : wellNamed id c -> ~ In (xc_name c) names ->
  defineCapability stringOf id names (rawCapability c) = Ok c.
Proof.
  intros [Hp Hs Hnew Ho Hr Hown] Hn. unfold defineCapability, rawCapability. cbn [rc_name rc_operation rc_effect rc_resource textThat textOf].
  assert (effectOf (JStr (effectName (xc_effect c))) = Some (xc_effect c)) as He by now destruct (xc_effect c).
  rewrite require_bind by exact Hp. rewrite require_bind by exact Hs. rewrite require_bind by now rewrite Hnew.
  rewrite require_bind by now apply negb_true_iff, member_false. rewrite He.
  rewrite require_bind by now apply truthy_spec. rewrite require_bind by exact Hr.
  rewrite require_bind by now apply negb_true_iff, member_false. now destruct c.
Qed.

Lemma defineCapabilities_accepts id l : forall seen, Forall (wellNamed id) l -> NoDup (map xc_name (seen ++ l)) ->
  defineCapabilities stringOf id seen (map rawCapability l) = Ok (seen ++ l)%list.
Proof.
  induction l as [|c l IH]; cbn [map defineCapabilities]; intros seen Hw Hd; [now rewrite app_nil_r|].
  apply Forall_cons in Hw as [Hc Hw]. rewrite defineCapability_accepts; [|exact Hc|].
  - cbn [mbind outcome_bind]. rewrite IH; [now rewrite <- app_assoc | exact Hw | now rewrite <- app_assoc].
  - intros Hin. rewrite map_app in Hd. apply NoDup_app in Hd as (_ & Hd & _). apply (Hd (xc_name c)); [now apply list_elem_of_In | left].
Qed.

Lemma ownCapabilities_accepts id label names l : incl l names -> ownCapabilities stringOf id label names (map JStr l) = Ok l.
Proof.
  induction l as [|n l IH]; cbn [map ownCapabilities]; intros Hi; [reflexivity|].
  rewrite require_bind by (apply member_spec, Hi; now left). rewrite IH by (intros y Hy; apply Hi; now right). reflexivity.
Qed.

Lemma definePage_accepts id names ids routes p : wellPlaced fractionsFinite id names p -> ~ In (xp_id p) ids -> ~ In (xp_route p) routes ->
  definePage stringOf fractionsFinite id names ids routes (rawPage p) = Ok p.
Proof.
  intros [[Hid Hi] Hu [Hrt Hir] Ht Hd Ho Hne Hown [Hs1 Hs2] Hs3] Hn1 Hn2.
  unfold definePage, rawPage. cbn [rp_id rp_title rp_route rp_order rp_description rp_capabilities rp_script textThat textOf].
  rewrite require_bind by (rewrite Hi, andb_true_r; apply orb_true_iff; destruct Hid as [->|]; [left; apply String.eqb_refl | now right]).
  rewrite require_bind by (now apply negb_true_iff, member_false).
  rewrite require_bind by (now apply negb_true_iff, member_false).
  rewrite require_bind by (rewrite Hir, andb_true_r; apply orb_true_iff; destruct Hrt as [->|]; [left; apply String.eqb_refl | now right]).
  rewrite require_bind by (now apply negb_true_iff, member_false).
  rewrite require_bind by (now rewrite Ht). rewrite require_bind by (now rewrite Hd).
  rewrite require_bind by (destruct Ho as [(z & ->)|[-> Hf]]; auto).
  rewrite require_bind by (now destruct (xp_capabilities p)).
  rewrite (ownCapabilities_accepts _ _ _ _ Hown). cbn [mbind outcome_bind].
  rewrite require_bind by (rewrite Hs1; now apply Z.leb_le).
  rewrite require_bind by (apply negb_true_iff, not_true_iff_false; now rewrite test_spec).
  now destruct p.
Qed.

Lemma definePages_accepts id names l : forall seen, Forall (wellPlaced fractionsFinite id names) l ->
  NoDup (map xp_id (seen ++ l)) -> NoDup (map xp_route (seen ++ l)) ->
  definePages stringOf fractionsFinite id names seen (map rawPage l) = Ok (seen ++ l)%list.
Proof.
  induction l as [|c l IH]; cbn [map definePages]; intros seen Hw Hd Hd2; [now rewrite app_nil_r|].
  apply Forall_cons in Hw as [Hc Hw]. rewrite definePage_accepts; [|exact Hc|..].
  - cbn [mbind outcome_bind]. rewrite IH; [now rewrite <- app_assoc | exact Hw | now rewrite <- app_assoc..].
  - intros Hin. rewrite map_app in Hd. apply NoDup_app in Hd as (_ & Hd & _). apply (Hd (xp_id c)); [now apply list_elem_of_In | left].
  - intros Hin. rewrite map_app in Hd2. apply NoDup_app in Hd2 as (_ & Hd2 & _). apply (Hd2 (xp_route c)); [now apply list_elem_of_In | left].
Qed.

(** The checks accept exactly the well-defined extensions.  An extension
    as a host writes it is kept, field by field, if and only if its id is a
    free name, its capabilities are named under it, are new and apply to
    resource types of its own, and its pages have distinct ids and routes
    under it, drive only its own capabilities and carry a script that cannot
    end the element it is put in. *)
Theorem extension_accepted_exactly x :
  defineServicesExtension stringOf fractionsFinite (printExtension x) = Ok x <-> wellDefined fractionsFinite x.
Proof.
  split; [apply define_ok|]. intros [Hid [Hf1 Hf2] Hn Hnd Hp Hpi Hpr]. unfold defineServicesExtension, snapshot.
  cbn [printExtension objectFields getField app String.eqb Ascii.eqb Bool.eqb arrayField mbind outcome_bind].
  rewrite (readAll_map _ _ rawCapability), (readAll_map _ _ rawPage) by reflexivity.
  cbn [mbind outcome_bind rx_id rx_capabilities rx_pages rx_routes textThat textOf]. rewrite Hid. cbn [negb].
  unfold reservedId. rewrite (proj2 (member_false _ _) Hf1), (proj2 (member_false _ _) Hf2). cbn [orb].
  rewrite (defineCapabilities_accepts _ _ []) by assumption. cbn [mbind outcome_bind app].
  rewrite (definePages_accepts _ _ _ []) by assumption. cbn [mbind outcome_bind app].
  destruct x as [id caps pages []]; reflexivity.
Qed.

(** ** A set of extensions *)

Lemma readAll_ok {A} (read : jsval -> outcome A) l : forall out, readAll read l = Ok out -> Forall2 (fun v a => read v = Ok a) l out.
Proof.
  induction l as [|v l IH]; cbn [readAll]; intros out E; [injection E as <-; constructor|].
  apply obind_ok in E as (a & Ea & E). apply obind_ok in E as (rest & Er & [= <-]). constructor; auto.
Qed.

Lemma NoDup_snoc {A} (l : list A) x : NoDup l -> ~ In x l -> NoDup (l ++ [x]).
Proof.
  intros Hd Hn. apply NoDup_app. split; [exact Hd|]. split; [|apply NoDup_singleton].
  intros y Hy ->%list_elem_of_singleton. now apply Hn, list_elem_of_In.
Qed.

Lemma contributePages_ok l : forall ids routes out, contributePages ids routes l = Ok out -> NoDup ids -> NoDup routes ->
  out = (ids ++ map xp_id l, routes ++ map xp_route l)%list /\ NoDup (fst out) /\ NoDup (snd out).
Proof.
  induction l as [|p l IH]; cbn [contributePages map]; intros ids routes out E Hi Hr.
  - injection E as <-. rewrite !app_nil_r. auto.
  - destruct (existsb _ ids) eqn:E1; [discriminate E|]. destruct (existsb _ routes) eqn:E2; [discriminate E|].
    apply member_false in E1, E2. apply IH in E as (-> & H1 & H2); [|now apply NoDup_snoc..].
    rewrite <- !app_assoc in *. auto.
Qed.

Lemma contribute_ok l : forall ids pages routes, contribute ids pages routes l = Ok tt -> NoDup ids -> NoDup pages -> NoDup routes ->
  NoDup (ids ++ map xn_id l)%list /\ NoDup (pages ++ flat_map (fun x => map xp_id (xn_pages x)) l)%list /\
  NoDup (routes ++ flat_map (fun x => map xp_route (xn_pages x)) l)%list.
Proof.
  induction l as [|x l IH]; cbn [contribute map flat_map]; intros ids pages routes E Hi Hp Hr; [rewrite !app_nil_r; auto|].
  destruct (existsb _ ids) eqn:E1; [discriminate E|]. apply member_false in E1. apply obind_ok in E as (out & Eo & E).
  apply contributePages_ok in Eo as (-> & H1 & H2); [|assumption..]. cbn [fst snd] in *.
  apply IH in E as (A & B & C); [|now apply NoDup_snoc | assumption..]. rewrite <- !app_assoc in *. auto.
Qed.

Lemma defineAll_ok inputs extensions : defineServicesExtensions stringOf fractionsFinite inputs = Ok extensions ->
  Forall (wellDefined fractionsFinite) extensions /\ NoDup (map xn_id extensions) /\
  NoDup (flat_map (fun x => map xp_id (xn_pages x)) extensions) /\ NoDup (flat_map (fun x => map xp_route (xn_pages x)) extensions).
Proof.
  unfold defineServicesExtensions. intros E. apply obind_ok in E as (defined & Ed & E). apply obind_ok in E as ([] & Ec & [= <-]).
  apply contribute_ok in Ec as (A & B & C); [|constructor..]. split; [|auto]. apply readAll_ok in Ed.
  apply Forall_forall. intros x Hx. apply list_elem_of_lookup in Hx as [i Hx].
  destruct (Forall2_lookup_r _ _ _ _ _ Ed Hx) as (v & _ & Ev). eapply define_ok, Ev.
Qed.

(** ** Namespaces *)

Lemma splitOn_first d s r : all (fun c => negb (Ascii.eqb c d)) s = true -> splitOn d (s ++ String d r) = s :: splitOn d r.
Proof.
  induction s as [|c s IH]; cbn [all]; intros Ha.
  - change (splitOn d (String d r) = "" :: splitOn d r). cbn [splitOn]. now rewrite Ascii.eqb_refl.
  - apply andb_prop in Ha as [Hc Ha]. change (splitOn d (String c (s ++ String d r)) = String c s :: splitOn d r).
    cbn [splitOn]. apply negb_true_iff in Hc. now rewrite Hc, (IH Ha).
Qed.

Lemma isId_noDot id : isId id = true -> all (fun c => negb (Ascii.eqb c ".")) id = true /\ id <> "".
Proof.
  unfold isId. destruct id as [|c r]; [discriminate|]. rewrite !andb_true_iff. intros (((Hc & Ha) & _) & _). split; [|discriminate].
  cbn [all]. apply andb_true_iff. split; [destruct (Ascii.eqb_spec c "."); [subst; discriminate Hc | reflexivity]|].
  revert Ha. clear. induction r as [|d r IH]; cbn [all]; [reflexivity|]. intros [Hd Ha]%andb_prop. rewrite (IH Ha).
  destruct (Ascii.eqb_spec d "."); [subst; discriminate Hd | reflexivity].
Qed.

Lemma namespace_own id c : isId id = true -> wellNamed id c -> namespaceOf (xc_name c) = id.
Proof.
  intros Hid Hw. pose proof (startsWith_split _ _ (wn_prefix _ _ Hw)) as E. destruct (isId_noDot _ Hid) as [Hd _].
  unfold namespaceOf. rewrite E, append_assoc. set (r := sliceFrom _ _).
  pose proof (splitOn_first "." id r Hd) as Es. change (String "." r) with ("." ++ r) in Es. now rewrite Es.
Qed.

(** ** The gateway's manifest *)

Definition fromExtension (c : ServiceCapability) : Prop :=
  getServiceCapability (c_name c) = None /\ c_invocable c = false /\ c_required c = true /\
  exists id, c_service c = "extension:" ++ id /\ id <> "" /\ startsWith (c_name c) (id ++ ".") = true.

Lemma checkExtensions_ok todo : forall seen, Forall fromExtension todo -> NoDup (map c_name (seen ++ todo)) ->
  checkExtensions seen todo = Ok (seen ++ todo)%list.
Proof.
  induction todo as [|c todo IH]; cbn [checkExtensions]; intros seen Hf Hd; [now rewrite app_nil_r|].
  apply Forall_cons in Hf as [(Hn & Hi & Hq & id & Es & Hid & Hp) Hf]. unfold declared. rewrite Hn.
  assert (existsb (fun c' => String.eqb (c_name c') (c_name c)) seen = false) as ->.
  { apply not_true_iff_false. rewrite existsb_exists. intros (d & Hin & E%String.eqb_eq).
    rewrite map_app in Hd. cbn [map] in Hd. apply NoDup_app in Hd as (_ & Hd & _). apply (Hd (c_name d)).
    - apply list_elem_of_In, in_map, Hin.
    - rewrite E. left. }
  unfold extensionNamespace. rewrite Es, Hi, Hq.
  replace (startsWith ("extension:" ++ id) "extension:") with true by (symmetry; apply prefix_append).
  change (sliceFrom 10 ("extension:" ++ id)) with id. rewrite (proj2 (truthy_spec id) Hid), Hp. cbn [negb orb].
  rewrite IH; [now rewrite <- app_assoc | exact Hf | now rewrite <- app_assoc].
Qed.

Lemma find_named {A} (name : A -> string) l n c : NoDup (map name l) ->
  (List.find (fun x => String.eqb (name x) n) l = Some c <-> In c l /\ name c = n).
Proof.
  intros Hd. split; [intros E; apply List.find_some in E as [Hin E%String.eqb_eq]; auto|]. intros [Hin <-].
  induction l as [|x l IH]; [destruct Hin|]. cbn [map List.find] in *. apply NoDup_cons in Hd as [Hn Hd].
  destruct (String.eqb_spec (name x) (name c)) as [E|Hne].
  - destruct Hin as [->|Hin]; [reflexivity|]. exfalso. apply Hn. rewrite E. apply list_elem_of_In, in_map, Hin.
  - destruct Hin as [->|Hin]; [congruence | auto].
Qed.

Lemma extension_names extensions : Forall (wellDefined fractionsFinite) extensions -> NoDup (map xn_id extensions) ->
  NoDup (map c_name (extensionManifest extensions)).
Proof.
  induction extensions as [|x l IH]; [constructor|]. intros Hw Hd. apply Forall_cons in Hw as [Hx Hw].
  cbn [map] in Hd. apply NoDup_cons in Hd as [Hn Hd]. unfold extensionManifest. cbn [flat_map]. rewrite map_app.
  assert (forall y, map c_name (extensionCapabilities y) = map xc_name (xn_capabilities y)) as Hmap
    by (intros y; unfold extensionCapabilities; rewrite map_map; reflexivity).
  apply NoDup_app. split; [rewrite Hmap; apply Hx|]. split; [|now apply IH].
  rewrite Hmap. intros n Hin1 Hin2. apply list_elem_of_In, in_map_iff in Hin1 as (c & <- & Hc).
  apply list_elem_of_In, in_map_iff in Hin2 as (sc & E & (y & Hy & Hsc)%in_flat_map).
  assert (In (c_name sc) (map xc_name (xn_capabilities y))) as (d & Ed & Hdin)%in_map_iff by (rewrite <- Hmap; apply in_map, Hsc).
  rewrite Forall_forall in Hw. apply Hn. apply list_elem_of_In. apply in_map_iff. exists y. split; [|exact Hy].
  assert (wellDefined fractionsFinite y) as Hwy by now apply Hw, list_elem_of_In.
  pose proof (wd_named _ _ Hx) as Hnx. pose proof (wd_named _ _ Hwy) as Hny. rewrite Forall_forall in Hnx, Hny.
  rewrite <- (namespace_own _ _ (wd_id _ _ Hx) (Hnx c (proj2 (list_elem_of_In _ _) Hc))).
  rewrite <- (namespace_own _ _ (wd_id _ _ Hwy) (Hny d (proj2 (list_elem_of_In _ _) Hdin))). congruence.
Qed.

Lemma manifest_fromExtension extensions : Forall (wellDefined fractionsFinite) extensions -> Forall fromExtension (extensionManifest extensions).
Proof.
  intros Hw. apply Forall_forall. intros sc Hsc. apply list_elem_of_In, in_flat_map in Hsc as (x & Hx & (c & <- & Hc)%in_map_iff).
  rewrite Forall_forall in Hw. pose proof (Hw x (proj2 (list_elem_of_In _ _) Hx)) as Hwx. pose proof (wd_named _ _ Hwx) as Hn.
  rewrite Forall_forall in Hn. destruct (Hn c (proj2 (list_elem_of_In _ _) Hc)) as [Hp _ Hnew _ _ _].
  split; [exact Hnew|]. split; [reflexivity|]. split; [reflexivity|]. exists (xn_id x). split; [reflexivity|].
  split; [|exact Hp]. apply (isId_noDot (xn_id x)), (wd_id _ _ Hwx).
Qed.

(** C21: Accepted extensions join the gateway and change nothing of the
    built-in services.  From any set of extensions that registration accepts
    the gateway is constructed (its own check of them never fails); every
    built-in capability is still found as it was; every other capability it
    finds is a declaration of exactly one of the extensions, not invocable and
    to be authorized, and no context issued for it names a resource of a
    built-in type. *)
Theorem extensions_join_gateway {DB} inputs extensions application
  (authorizer : option (ServiceAuthorizationRequest -> M DB Answer)) credentials timeoutMs check :
  defineServicesExtensions stringOf fractionsFinite inputs = Ok extensions -> blank application = false ->
  exists g, newGateway application authorizer credentials timeoutMs (extensionManifest extensions) check = Ok g /\
    (forall name c, getServiceCapability name = Some c -> capability g name = Some c) /\
    (forall name c, getServiceCapability name = None ->
       (capability g name = Some c <-> exists x d, In x extensions /\ In d (xn_capabilities x) /\ name = xc_name d /\
          c = mkCapability (xc_name d) 1 ("extension:" ++ xn_id x) (xc_operation d) (xc_effect d) false true (xc_resource d)) /\
       (capability g name = Some c -> ~ In (c_resource c) BUILT_IN_RESOURCES)).
Proof.
  intros E Hb. apply defineAll_ok in E as (Hw & Hd & _).
  pose proof (extension_names _ Hw Hd) as Hnames. pose proof (checkExtensions_ok (extensionManifest extensions) [] (manifest_fromExtension _ Hw) Hnames) as Hck.
  unfold newGateway. rewrite Hb, Hck. eexists. split; [reflexivity|]. unfold capability. cbn [g_extensionCapabilities app].
  split; [now intros name c ->|]. intros name c Hnone. rewrite Hnone, (find_named _ _ _ _ Hnames).
  assert (In c (extensionManifest extensions) /\ c_name c = name <->
    exists x d, In x extensions /\ In d (xn_capabilities x) /\ name = xc_name d /\
      c = mkCapability (xc_name d) 1 ("extension:" ++ xn_id x) (xc_operation d) (xc_effect d) false true (xc_resource d)) as Hiff.
  { split.
    - intros [(x & Hx & (d & <- & Hdin)%in_map_iff)%in_flat_map <-]. exists x, d. auto.
    - intros (x & d & Hx & Hdin & -> & ->). split; [|reflexivity]. apply in_flat_map. exists x. split; [exact Hx|].
      apply in_map_iff. exists d. auto. }
  split; [exact Hiff|]. intros Hc. apply Hiff in Hc as (x & d & Hx & Hdin & _ & ->). cbn [c_resource].
  rewrite Forall_forall in Hw. pose proof (wd_named _ _ (Hw x (proj2 (list_elem_of_In _ _) Hx))) as Hn.
  rewrite Forall_forall in Hn. apply (Hn d), list_elem_of_In, Hdin.
Qed.
End accepted.

(** ** An extension with one page *)

Definition notes : ServicesExtension :=
  mkExtension "notes"
    [mkExtensionCapability "notes.read" "listNotes" Observation "note"; mkExtensionCapability "notes.write" "writeNote" Consequential "note"]
    [mkExtensionPage "notes" "Notes" "/notes" (JInt 90) "Notes of the tenant" ["notes.read"; "notes.write"] "register()"]
    true.

Definition otherNotes : ServicesExtension :=
  mkExtension "notes-archive" [mkExtensionCapability "notes-archive.read" "readArchive" Observation "archived_note"] [] false.

Definition anyText : jsval -> string := fun _ => "?".

Lemma extensions_join_gateway_witness :
  exists g, newGateway (DB := MemStore.MemDB) "app" None NoCredentials None (extensionManifest [notes; otherNotes]) (fun _ _ _ => mret tt) = Ok g /\
    present (option_map c_name (capability g "jobs.create")) = true /\
    capability g "notes.read" = Some (mkCapability "notes.read" 1 "extension:notes" "listNotes" Observation false true "note").
Proof.
  destruct (extensions_join_gateway (DB := MemStore.MemDB) anyText true [printExtension notes; printExtension otherNotes] [notes; otherNotes] "app"
    None NoCredentials None (fun _ _ _ => mret tt) ltac:(vm_compute; reflexivity) eq_refl) as (g & Eg & Hbuilt & Hext).
  exists g. split; [exact Eg|]. split; [erewrite Hbuilt; [|vm_compute; reflexivity]; reflexivity|].
  apply (Hext "notes.read" _ ltac:(vm_compute; reflexivity)). exists notes. eexists. split; [now left|]. split; [now left|].
  split; reflexivity.
Defined.
