(* ===== verification/Invoke.v ===== *)
(** * Invoke: the protected dispatcher ([runtime/invoke.ts])

    [invokeService] maps a capability of the manifest to the service operation
    that performs it.  The services are what the dispatcher is given: records
    of operations on the caller's input, each service present or not.  An
    input object is its own properties; a result is a value. *)

From S2P Require Import Prelude JsString Errors Models Store Principal Manifest Gateway.
From Stdlib Require Import ZArith.
Local Open Scope string_scope.
Local Open Scope Z_scope.

(** [Record<string, unknown>] *)
Definition Input : Type := list (string * jsval).

(** [{ ...input, [key]: value }] *)
Fixpoint spreadWith (input : Input) (key : string) (value : jsval) : Input :=
  match input with
  | [] => [(key, value)]
  | (k, v) :: r => if String.eqb k key then (k, value) :: r else (k, v) :: spreadWith r key value
  end.

(** [const { [key]: _, ...rest } = input] *)
Definition withoutKey (input : Input) (key : string) : Input :=
  List.filter (fun e : string * jsval => negb (String.eqb (fst e) key)) input.

Section services.
Context {DB : Type}.

(** ** The services the dispatcher may be given *)

Record ApiKeyOperations := mkApiKeyOperations {
  getApiKey : string -> string -> M DB jsval;
  listApiKeys : string -> option Input -> M DB jsval;
  createApiKey : Input -> VerifiedPrincipal -> M DB jsval;
  updateApiKey : Input -> VerifiedPrincipal -> M DB jsval;
  rotateApiKey : Input -> VerifiedPrincipal -> M DB jsval;
  revokeAllApiKeys : Input -> VerifiedPrincipal -> M DB jsval;
  revokeApiKey : Input -> VerifiedPrincipal -> M DB jsval;
  listApiKeyAuditEvents : Input -> VerifiedPrincipal -> M DB jsval }.

Record WebhookOperations := mkWebhookOperations {
  getWebhookEndpoint : string -> string -> M DB jsval;
  listWebhookEndpoints : string -> M DB jsval;
  readWebhookDelivery : Input -> VerifiedPrincipal -> M DB jsval;
  readWebhookDeliveries : Input -> VerifiedPrincipal -> M DB jsval;
  createWebhookEndpoint : Input -> VerifiedPrincipal -> M DB jsval;
  disableWebhookEndpoint : Input -> VerifiedPrincipal -> M DB jsval;
  emitWebhookEvent : Input -> VerifiedPrincipal -> M DB jsval;
  replayWebhookDelivery : string -> string -> VerifiedPrincipal -> M DB jsval;
  registerIntegration : Input -> VerifiedPrincipal -> M DB jsval }.

Record JobOperations := mkJobOperations {
  getJob : string -> string -> M DB jsval;
  listJobs : string -> M DB jsval;
  enqueue : Input -> VerifiedPrincipal -> M DB jsval;
  retry : string -> string -> VerifiedPrincipal -> M DB jsval }.

Record ScheduleOperations := mkScheduleOperations {
  scheduleGet : string -> string -> VerifiedPrincipal -> M DB jsval;
  scheduleList : string -> VerifiedPrincipal -> option string -> M DB jsval;
  scheduleCreate : Input -> VerifiedPrincipal -> M DB jsval;
  scheduleDisable : string -> string -> VerifiedPrincipal -> M DB jsval }.

Record NotificationOperations := mkNotificationOperations {
  notificationGet : string -> string -> VerifiedPrincipal -> M DB jsval;
  notificationList : string -> Input -> VerifiedPrincipal -> M DB jsval;
  notificationCreate : Input -> VerifiedPrincipal -> M DB jsval;
  notificationDismiss : string -> string -> VerifiedPrincipal -> M DB jsval;
  notificationMarkRead : string -> string -> VerifiedPrincipal -> M DB jsval;
  notificationDelete : string -> string -> VerifiedPrincipal -> M DB jsval }.

Record FileOperations := mkFileOperations {
  fileGet : string -> string -> VerifiedPrincipal -> M DB jsval;
  fileList : string -> VerifiedPrincipal -> option string -> M DB jsval;
  fileUpdate : Input -> VerifiedPrincipal -> M DB jsval;
  fileCreate : Input -> VerifiedPrincipal -> M DB jsval;
  fileDelete : string -> string -> VerifiedPrincipal -> M DB jsval }.

Record ConfigurationOperations := mkConfigurationOperations {
  configurationList : Input -> VerifiedPrincipal -> M DB jsval;
  updateVariable : Input -> VerifiedPrincipal -> M DB jsval;
  createVariable : Input -> VerifiedPrincipal -> M DB jsval;
  configurationDelete : Input -> VerifiedPrincipal -> M DB jsval;
  createSecret : Input -> VerifiedPrincipal -> M DB jsval;
  rotateSecret : Input -> VerifiedPrincipal -> M DB jsval;
  storeSecret : Input -> VerifiedPrincipal -> M DB jsval;
  secretStatus : Input -> VerifiedPrincipal -> M DB jsval }.

Record IntelligenceOperations := mkIntelligenceOperations {
  catalog : Input -> VerifiedPrincipal -> M DB jsval;
  intelligenceGet : Input -> VerifiedPrincipal -> M DB jsval;
  intelligenceSet : Input -> VerifiedPrincipal -> M DB jsval;
  setCredential : Input -> VerifiedPrincipal -> M DB jsval;
  removeCredential : Input -> VerifiedPrincipal -> M DB jsval;
  resolveRuntime : Input -> VerifiedPrincipal -> M DB jsval }.

Record InvokableServices := mkInvokable {
  s_gateway : ServiceGateway DB;
  s_apiKeys : option ApiKeyOperations;
  s_webhooks : option WebhookOperations;
  s_jobs : option JobOperations;
  s_schedules : option ScheduleOperations;
  s_notifications : option NotificationOperations;
  s_files : option FileOperations;
  s_configuration : option ConfigurationOperations;
  s_intelligence : option IntelligenceOperations }.

Definition Handler : Type := InvokableServices -> Input -> VerifiedPrincipal -> M DB jsval.

(** ** Helpers *)

(** [ownedBy]: of several records those of this application; of one, itself
    or null. *)
Definition isOwned (application : string) (record : jsval) : bool :=
  match record with JObj fields => isStr (getField fields "applicationId") application | _ => false end.

Definition ownedBy (application : string) (value : jsval) : jsval :=
  match value with
  | JArr l => JArr (List.filter (isOwned application) l)
  | v => if isOwned application v then v else JNull
  end.

Definition need {T} (service : option T) (name : string) : outcome T :=
  match service with
  | Some s => Ok s
  | None => Throw (invalidRequest ("The " ++ name ++ " capability is not enabled for this application"))
  end.

(** [id(input)] *)
Definition inputId (input : Input) : outcome string :=
  match getField input "id" with
  | JStr s => if truthy s then Ok s else Throw (invalidRequest "id is required")
  | _ => Throw (invalidRequest "id is required")
  end.

(** [resolveTenant(input, principal)] *)
Definition tenantOf (input : Input) (principal : VerifiedPrincipal) : outcome string :=
  resolveTenant (getField input "tenantId") principal.

Definition LIST_KEYS : list string := ["status"; "createdBy"; "limit"; "after"].

Definition apiKeyListOptions (input : Input) : option Input :=
  let keys := List.filter (fun key => negb (isUndef (getField input key))) LIST_KEYS in
  match keys with
  | [] => None
  | _ => Some (map (fun key => (key, getField input key)) keys)
  end.

(** [typeof v === 'string'] *)
Definition stringField (input : Input) (key : string) : option string :=
  match getField input key with JStr s => Some s | _ => None end.

Definition observe (services : InvokableServices) `{FeltDB DB} (capability type : string) (input : Input)
  (principal : VerifiedPrincipal) (read : string -> M DB jsval) : M DB jsval :=
  tenantId ← ofOutcome (tenantOf input principal);
  let application := g_application (s_gateway services) in
  execute (s_gateway services) capability (CVerified principal)
    (mkResource type tenantId (stringField input "id") None) (mkOptions type None None None)
    (fun _ _ => value ← read tenantId; mret (ownedBy application value)).

(** ** The table *)

Context `{FeltDB DB}.

Definition withId (input : Input) : outcome Input :=
  id ← inputId input; Ok (spreadWith input "id" (JStr id)).

(** [n.retry(resolveTenant(input, p), id(input), p)] and the like. *)
Definition onRecord (input : Input) (p : VerifiedPrincipal) (work : string -> string -> VerifiedPrincipal -> M DB jsval) : M DB jsval :=
  tenantId ← ofOutcome (tenantOf input p);
  id ← ofOutcome (inputId input);
  work tenantId id p.

Definition API_KEY_HANDLERS : list (string * Handler) := [
  ("apikeys.read", fun s input p =>
     keys ← ofOutcome (need (s_apiKeys s) "api");
     observe s "apikeys.read" "api_key" input p (fun t =>
       match stringField input "id" with
       | Some id => getApiKey keys t id
       | None => listApiKeys keys t (apiKeyListOptions input)
       end));
  ("apikeys.create", fun s input p => keys ← ofOutcome (need (s_apiKeys s) "api"); createApiKey keys input p);
  ("apikeys.update", fun s input p =>
     keys ← ofOutcome (need (s_apiKeys s) "api"); named ← ofOutcome (withId input); updateApiKey keys named p);
  ("apikeys.rotate", fun s input p =>
     keys ← ofOutcome (need (s_apiKeys s) "api"); named ← ofOutcome (withId input); rotateApiKey keys named p);
  ("apikeys.revoke", fun s input p =>
     keys ← ofOutcome (need (s_apiKeys s) "api");
     if isTrue (getField input "all") then revokeAllApiKeys keys (withoutKey input "all") p
     else named ← ofOutcome (withId input); revokeApiKey keys named p);
  ("apikeys.audit", fun s input p => keys ← ofOutcome (need (s_apiKeys s) "api"); listApiKeyAuditEvents keys input p) ].

Definition WEBHOOK_HANDLERS : list (string * Handler) := [
  ("webhooks.read", fun s input p =>
     hooks ← ofOutcome (need (s_webhooks s) "webhooks");
     observe s "webhooks.read" "webhook_endpoint" input p (fun t =>
       match stringField input "id" with
       | Some id => getWebhookEndpoint hooks t id
       | None => listWebhookEndpoints hooks t
       end));
  ("webhooks.deliveries.read", fun s input p =>
     hooks ← ofOutcome (need (s_webhooks s) "webhooks");
     match stringField input "id" with
     | Some id => readWebhookDelivery hooks (spreadWith input "id" (JStr id)) p
     | None => readWebhookDeliveries hooks input p
     end);
  ("webhooks.register", fun s input p => hooks ← ofOutcome (need (s_webhooks s) "webhooks"); createWebhookEndpoint hooks input p);
  ("webhooks.remove", fun s input p =>
     hooks ← ofOutcome (need (s_webhooks s) "webhooks"); named ← ofOutcome (withId input); disableWebhookEndpoint hooks named p);
  ("webhooks.emit", fun s input p => hooks ← ofOutcome (need (s_webhooks s) "webhooks"); emitWebhookEvent hooks input p);
  ("webhooks.replay", fun s input p =>
     hooks ← ofOutcome (need (s_webhooks s) "webhooks"); onRecord input p (replayWebhookDelivery hooks));
  ("webhooks.integrations.register", fun s input p =>
     hooks ← ofOutcome (need (s_webhooks s) "webhooks"); registerIntegration hooks input p) ].

Definition JOB_HANDLERS : list (string * Handler) := [
  ("jobs.read", fun s input p =>
     jobs ← ofOutcome (need (s_jobs s) "jobs");
     observe s "jobs.read" "job" input p (fun t =>
       match stringField input "id" with
       | Some id => getJob jobs t id
       | None => listJobs jobs t
       end));
  ("jobs.create", fun s input p => jobs ← ofOutcome (need (s_jobs s) "jobs"); enqueue jobs input p);
  ("jobs.retry", fun s input p => jobs ← ofOutcome (need (s_jobs s) "jobs"); onRecord input p (retry jobs));
  ("schedules.read", fun s input p =>
     schedules ← ofOutcome (need (s_schedules s) "jobs");
     match stringField input "id" with
     | Some id => t ← ofOutcome (tenantOf input p); scheduleGet schedules t id p
     | None => t ← ofOutcome (tenantOf input p); scheduleList schedules t p (stringField input "createdBy")
     end);
  ("schedules.create", fun s input p => schedules ← ofOutcome (need (s_schedules s) "jobs"); scheduleCreate schedules input p);
  ("schedules.cancel", fun s input p =>
     schedules ← ofOutcome (need (s_schedules s) "jobs"); onRecord input p (scheduleDisable schedules)) ].

Definition NOTIFICATION_HANDLERS : list (string * Handler) := [
  ("notifications.read", fun s input p =>
     n ← ofOutcome (need (s_notifications s) "notifications");
     match stringField input "id" with
     | Some id => t ← ofOutcome (tenantOf input p); notificationGet n t id p
     | None => t ← ofOutcome (tenantOf input p); notificationList n t input p
     end);
  ("notifications.send", fun s input p => n ← ofOutcome (need (s_notifications s) "notifications"); notificationCreate n input p);
  ("notifications.update", fun s input p =>
     n ← ofOutcome (need (s_notifications s) "notifications");
     if isStr (getField input "action") "dismiss" then onRecord input p (notificationDismiss n)
     else onRecord input p (notificationMarkRead n));
  ("notifications.delete", fun s input p =>
     n ← ofOutcome (need (s_notifications s) "notifications"); onRecord input p (notificationDelete n)) ].

Definition FILE_HANDLERS : list (string * Handler) := [
  ("files.read", fun s input p =>
     f ← ofOutcome (need (s_files s) "files");
     match stringField input "id" with
     | Some id => t ← ofOutcome (tenantOf input p); fileGet f t id p
     | None => t ← ofOutcome (tenantOf input p); fileList f t p (stringField input "owner")
     end);
  ("files.write", fun s input p =>
     f ← ofOutcome (need (s_files s) "files");
     match stringField input "id" with
     | Some _ => fileUpdate f input p
     | None => fileCreate f input p
     end);
  ("files.delete", fun s input p => f ← ofOutcome (need (s_files s) "files"); onRecord input p (fileDelete f)) ].

Definition CONFIGURATION_HANDLERS : list (string * Handler) := [
  ("configuration.read", fun s input p =>
     c ← ofOutcome (need (s_configuration s) "configuration"); configurationList c input p);
  ("configuration.write", fun s input p =>
     c ← ofOutcome (need (s_configuration s) "configuration");
     if isStr (getField input "operation") "update" then updateVariable c input p else createVariable c input p);
  ("configuration.delete", fun s input p =>
     c ← ofOutcome (need (s_configuration s) "configuration");
     configurationDelete c (spreadWith input "kind" (JStr "variable")) p);
  ("credential.attach", fun s input p =>
     c ← ofOutcome (need (s_configuration s) "configuration"); createSecret c input p);
  ("credential.rotate", fun s input p =>
     c ← ofOutcome (need (s_configuration s) "configuration"); rotateSecret c input p);
  ("credential.detach", fun s input p =>
     c ← ofOutcome (need (s_configuration s) "configuration");
     configurationDelete c (spreadWith input "kind" (JStr "secret")) p);
  ("credential.store", fun s input p =>
     c ← ofOutcome (need (s_configuration s) "configuration"); storeSecret c input p);
  ("credential.status", fun s input p =>
     c ← ofOutcome (need (s_configuration s) "configuration"); secretStatus c input p) ].

Definition INTELLIGENCE_HANDLERS : list (string * Handler) := [
  ("intelligence.catalog", fun s input p => i ← ofOutcome (need (s_intelligence s) "intelligence"); catalog i input p);
  ("intelligence.read", fun s input p => i ← ofOutcome (need (s_intelligence s) "intelligence"); intelligenceGet i input p);
  ("intelligence.write", fun s input p => i ← ofOutcome (need (s_intelligence s) "intelligence"); intelligenceSet i input p);
  ("intelligence.credential.set", fun s input p =>
     i ← ofOutcome (need (s_intelligence s) "intelligence"); setCredential i input p);
  ("intelligence.credential.remove", fun s input p =>
     i ← ofOutcome (need (s_intelligence s) "intelligence"); removeCredential i input p);
  ("intelligence.resolve", fun s input p => i ← ofOutcome (need (s_intelligence s) "intelligence"); resolveRuntime i input p) ].

Definition HANDLERS : list (string * Handler) :=
  API_KEY_HANDLERS ++ WEBHOOK_HANDLERS ++ JOB_HANDLERS ++ NOTIFICATION_HANDLERS ++ FILE_HANDLERS ++
  CONFIGURATION_HANDLERS ++ INTELLIGENCE_HANDLERS.

(** [HANDLERS[capability]] *)
Definition handlerOf (capability : string) : option Handler :=
  match List.find (fun e : string * Handler => String.eqb (fst e) capability) HANDLERS with
  | Some (_, h) => Some h
  | None => None
  end.

(** What the caller passed as input: nothing, an object, or another value. *)
Definition inputObject (input : jsval) : outcome Input :=
  match input with
  | JUndef => Ok []
  | JObj fields => Ok fields
  | _ => Throw (invalidRequest "Service input must be an object")
  end.

Definition invokeService (services : InvokableServices) (capability : string) (input : jsval) (caller : Caller) : M DB jsval :=
  match getServiceCapability capability with
  | None => throw (invalidRequest ("Capability " ++ quoted capability ++ " is not declared in the service capability manifest"))
  | Some declared =>
      if negb (c_invocable declared) then
        throw (invalidRequest ("Capability " ++ quoted capability ++ " is runtime-internal and cannot be invoked"))
      else
        principal ← ofOutcome (requireVerifiedPrincipal caller);
        fields ← ofOutcome (inputObject input);
        match handlerOf capability with
        | Some handler => handler services fields principal
        | None => throw (JsError "TypeError" "HANDLERS[capability] is not a function")
        end
  end.
End services.
Arguments InvokableServices : clear implicits.
Arguments FileOperations : clear implicits.
Arguments Handler : clear implicits.
