(* ===== verification/InvokeProps.v ===== *)
(** * InvokeProps: what the dispatcher guarantees

    [Guarded] is what a service promises the dispatcher: without an admitted
    request for the capability nothing of the store changes but evidence of
    the refusal.  The dispatcher is proved against that interface; the file
    service implements it. *)

From S2P Require Import Prelude JsString JsTime Errors Models Store Calm MemStore Principal Manifest Gateway GatewayFacts Files Invoke Demo.
From Stdlib Require Import ZArith Lia.
Local Open Scope string_scope.
Local Open Scope Z_scope.

(** ** The interface *)

Section guarded.
Context {DB : Type} `{FeltDBLaws DB}.
Variable g : ServiceGateway DB.

(** No request for the capability on any resource of the caller is admitted. *)
Definition unadmitted (capability : string) (caller : Caller) : Prop :=
  forall r requestId c p, ~ admitted g capability caller r requestId c p.

(** Nothing was written but evidence of a refusal. *)
Definition untouched {A} (m : M DB A) : Prop :=
  forall w, calm w -> wp m (fun _ w' => calm w' /\ onlyRefusal (w_db w) (w_db w')) w.

Class Guarded (capability : string) {A} (op : VerifiedPrincipal -> M DB A) : Prop :=
  guarded : forall p, unadmitted capability (CVerified p) -> untouched (op p).

Lemma untouched_outcome {A} (o : outcome A) : untouched (ofOutcome o).
Proof. intros w Hc. apply wp_outcome. split; [exact Hc | now left]. Qed.

Lemma untouched_ret {A} (a : A) : untouched (mret a).
Proof. intros w Hc. split; [exact Hc | now left]. Qed.

Lemma untouched_throw {A} e : untouched (throw e : M DB A).
Proof. intros w Hc. split; [exact Hc | now left]. Qed.

(** A step that only decides whether to go on. *)
Lemma untouched_check {A B} (o : outcome A) (k : A -> M DB B) :
  (forall a, o = Ok a -> untouched (k a)) -> untouched (a ← ofOutcome o; k a).
Proof.
  intros Hk w Hc. apply wp_bind, wp_outcome. destruct o as [a|e]; [exact (Hk a eq_refl w Hc)|].
  split; [exact Hc | now left].
Qed.

Lemma untouched_read {A B} (m : M DB A) (k : A -> M DB B) :
  (forall w, calm w -> wp m (fun _ w' => w' = w) w) -> (forall a, untouched (k a)) -> untouched (a ← m; k a).
Proof.
  intros Hm Hk w Hc. apply wp_bind. eapply wp_mono; [apply Hm, Hc|].
  intros [a|e] w' ->; [exact (Hk a w Hc) | split; [exact Hc | now left]].
Qed.

Lemma untouched_map {A B} (m : M DB A) (f : A -> B) : untouched m -> untouched (a ← m; mret (f a)).
Proof.
  intros Hm w Hc. apply wp_bind. eapply wp_mono; [apply Hm, Hc|].
  intros [a|e] w' Hw'; [now apply wp_ret | exact Hw'].
Qed.

(** An operation of the gateway itself. *)
Lemma untouched_execute {T} name p r options (f : ServiceExecutionContext -> EffectTools -> M DB T) :
  hostQuiet g -> unadmitted name (CVerified p) -> untouched (execute g name (CVerified p) r options f).
Proof.
  intros Hhost Hno w Hc. eapply wp_mono.
  { apply (execute_spec g name (CVerified p) r options f (fun _ _ _ _ _ => False)); [exact Hc | exact Hhost|].
    intros rid c q x id st w1 Hi _ _ _ _ _. exfalso. exact (Hno r rid c q (is_admitted _ _ _ _ _ _ _ _ Hi)). }
  cbn beta. intros o w' (Hc' & _ & [(e & -> & Href)|(rid & c & q & x & id & st & w2 & row & Hi & [] & _)]). auto.
Qed.

(** ** The services the dispatcher is given *)

Class GuardedApiKeys (a : @ApiKeyOperations DB) : Prop := {
  create_key input :: Guarded "apikeys.create" (createApiKey a input);
  update_key input :: Guarded "apikeys.update" (updateApiKey a input);
  rotate_key input :: Guarded "apikeys.rotate" (rotateApiKey a input);
  revoke_keys input :: Guarded "apikeys.revoke" (revokeAllApiKeys a input);
  revoke_key input :: Guarded "apikeys.revoke" (revokeApiKey a input);
  audit_keys input :: Guarded "apikeys.audit" (listApiKeyAuditEvents a input) }.

Class GuardedWebhooks (a : @WebhookOperations DB) : Prop := {
  read_delivery input :: Guarded "webhooks.deliveries.read" (readWebhookDelivery a input);
  read_deliveries input :: Guarded "webhooks.deliveries.read" (readWebhookDeliveries a input);
  register_hook input :: Guarded "webhooks.register" (createWebhookEndpoint a input);
  remove_hook input :: Guarded "webhooks.remove" (disableWebhookEndpoint a input);
  emit_hook input :: Guarded "webhooks.emit" (emitWebhookEvent a input);
  replay_hook t i :: Guarded "webhooks.replay" (replayWebhookDelivery a t i);
  integrate_hook input :: Guarded "webhooks.integrations.register" (registerIntegration a input) }.

Class GuardedJobs (a : @JobOperations DB) : Prop := {
  create_job input :: Guarded "jobs.create" (enqueue a input);
  retry_job t i :: Guarded "jobs.retry" (retry a t i) }.

Class GuardedSchedules (a : @ScheduleOperations DB) : Prop := {
  get_schedule t i :: Guarded "schedules.read" (scheduleGet a t i);
  list_schedules t by_ :: Guarded "schedules.read" (fun p => scheduleList a t p by_);
  create_schedule input :: Guarded "schedules.create" (scheduleCreate a input);
  cancel_schedule t i :: Guarded "schedules.cancel" (scheduleDisable a t i) }.

Class GuardedNotifications (a : @NotificationOperations DB) : Prop := {
  get_notification t i :: Guarded "notifications.read" (notificationGet a t i);
  list_notifications t input :: Guarded "notifications.read" (notificationList a t input);
  send_notification input :: Guarded "notifications.send" (notificationCreate a input);
  dismiss_notification t i :: Guarded "notifications.update" (notificationDismiss a t i);
  mark_notification t i :: Guarded "notifications.update" (notificationMarkRead a t i);
  delete_notification t i :: Guarded "notifications.delete" (notificationDelete a t i) }.

Class GuardedFiles (a : FileOperations DB) : Prop := {
  get_file t i :: Guarded "files.read" (fileGet a t i);
  list_files t owner :: Guarded "files.read" (fun p => fileList a t p owner);
  update_file input :: Guarded "files.write" (fileUpdate a input);
  create_file input :: Guarded "files.write" (fileCreate a input);
  delete_file t i :: Guarded "files.delete" (fileDelete a t i) }.

Class GuardedConfiguration (a : @ConfigurationOperations DB) : Prop := {
  list_configuration input :: Guarded "configuration.read" (configurationList a input);
  update_variable input :: Guarded "configuration.write" (updateVariable a input);
  create_variable input :: Guarded "configuration.write" (createVariable a input);
  delete_variable input :: Guarded "configuration.delete" (configurationDelete a (spreadWith input "kind" (JStr "variable")));
  attach_secret input :: Guarded "credential.attach" (createSecret a input);
  rotate_secret input :: Guarded "credential.rotate" (rotateSecret a input);
  detach_secret input :: Guarded "credential.detach" (configurationDelete a (spreadWith input "kind" (JStr "secret")));
  store_secret input :: Guarded "credential.store" (storeSecret a input);
  secret_status input :: Guarded "credential.status" (secretStatus a input) }.

Class GuardedIntelligence (a : @IntelligenceOperations DB) : Prop := {
  read_catalog input :: Guarded "intelligence.catalog" (catalog a input);
  read_intelligence input :: Guarded "intelligence.read" (intelligenceGet a input);
  write_intelligence input :: Guarded "intelligence.write" (intelligenceSet a input);
  set_credential input :: Guarded "intelligence.credential.set" (setCredential a input);
  remove_credential input :: Guarded "intelligence.credential.remove" (removeCredential a input);
  resolve_intelligence input :: Guarded "intelligence.resolve" (resolveRuntime a input) }.

(** Every service that is present keeps the interface. *)
Record lawful (s : InvokableServices DB) : Prop := mkLawful {
  lw_gateway : s_gateway s = g;
  lw_apiKeys a : s_apiKeys s = Some a -> GuardedApiKeys a;
  lw_webhooks a : s_webhooks s = Some a -> GuardedWebhooks a;
  lw_jobs a : s_jobs s = Some a -> GuardedJobs a;
  lw_schedules a : s_schedules s = Some a -> GuardedSchedules a;
  lw_notifications a : s_notifications s = Some a -> GuardedNotifications a;
  lw_files a : s_files s = Some a -> GuardedFiles a;
  lw_configuration a : s_configuration s = Some a -> GuardedConfiguration a;
  lw_intelligence a : s_intelligence s = Some a -> GuardedIntelligence a }.
End guarded.

(** ** Every handler keeps it *)

Section dispatch.
Context {DB : Type} `{FeltDBLaws DB}.
Variable g : ServiceGateway DB.
Variable s : InvokableServices DB.
Hypothesis Hhost : hostQuiet g.
Hypothesis Hs : lawful g s.

Definition keeps (e : string * Handler DB) : Prop :=
  forall input p, unadmitted g (fst e) (CVerified p) -> untouched (snd e s input p).

Lemma need_ok {T} (service : option T) name a : need service name = Ok a -> service = Some a.
Proof. destruct service; cbn; congruence. Qed.

Lemma untouched_observe cap type input p read :
  unadmitted g cap (CVerified p) -> untouched (observe s cap type input p read).
Proof.
  intros Hno. unfold observe. apply untouched_check. intros t _. cbn zeta.
  rewrite (lw_gateway _ _ Hs). now apply untouched_execute.
Qed.

Lemma untouched_onRecord cap input p work :
  (forall t i, Guarded g cap (work t i)) -> unadmitted g cap (CVerified p) -> untouched (onRecord input p work).
Proof.
  intros Hw Hno. unfold onRecord. apply untouched_check. intros t _. apply untouched_check. intros i _.
  exact (Hw t i p Hno).
Qed.

(** Take the service the handler asked for, with its laws. *)
Ltac laws :=
  match goal with
  | E : need _ _ = Ok ?a |- _ => apply need_ok in E;
      first [ pose proof (lw_apiKeys _ _ Hs _ E) | pose proof (lw_webhooks _ _ Hs _ E) | pose proof (lw_jobs _ _ Hs _ E)
            | pose proof (lw_schedules _ _ Hs _ E) | pose proof (lw_notifications _ _ Hs _ E) | pose proof (lw_files _ _ Hs _ E)
            | pose proof (lw_configuration _ _ Hs _ E) | pose proof (lw_intelligence _ _ Hs _ E) ]
  end.

Ltac handler :=
  unfold keeps; intros input p Hno; cbn [fst snd] in Hno |- *; apply untouched_check; intros a E; laws;
  repeat first
    [ now apply untouched_observe
    | now (eapply untouched_onRecord; [intros; exact _ | exact Hno])
    | match goal with |- untouched (?op p) => now apply (guarded g (op := op) p Hno) end
    | match goal with |- untouched (scheduleList ?b ?t p ?o) => now apply (guarded g (op := fun q => scheduleList b t q o) p Hno) end
    | match goal with |- untouched (fileList ?b ?t p ?o) => now apply (guarded g (op := fun q => fileList b t q o) p Hno) end
    | apply untouched_check; intros ? ?
    | case_match ].

Ltac table := repeat (constructor; [handler|]); constructor.

Lemma keys_keep : Forall keeps API_KEY_HANDLERS.
Proof. table. Qed.

Lemma hooks_keep : Forall keeps WEBHOOK_HANDLERS.
Proof. table. Qed.

Lemma jobs_keep : Forall keeps JOB_HANDLERS.
Proof. table. Qed.

Lemma notifications_keep : Forall keeps NOTIFICATION_HANDLERS.
Proof. table. Qed.

Lemma files_keep : Forall keeps FILE_HANDLERS.
Proof. table. Qed.

Lemma configuration_keeps : Forall keeps CONFIGURATION_HANDLERS.
Proof. table. Qed.

Lemma intelligence_keeps : Forall keeps INTELLIGENCE_HANDLERS.
Proof. table. Qed.

Lemma handlers_keep : Forall keeps HANDLERS.
Proof.
  unfold HANDLERS. repeat (apply Forall_app; split); auto using keys_keep, hooks_keep, jobs_keep, notifications_keep,
    files_keep, configuration_keeps, intelligence_keeps.
Qed.

Lemma handlerOf_keeps name h : handlerOf name = Some h -> keeps (name, h).
Proof.
  unfold handlerOf. destruct (List.find _ HANDLERS) as [[n h']|] eqn:E; [|discriminate]. intros [= <-].
  apply find_some in E as [Hin Hn]. cbn [fst] in Hn. apply String.eqb_eq in Hn. subst n.
  pose proof handlers_keep as Hk. rewrite List.Forall_forall in Hk. exact (Hk _ Hin).
Qed.
End dispatch.

(** ** The file service implements the interface *)

Section files.
Context {DB : Type} `{FeltDBLaws DB}.
Variable g : ServiceGateway DB.
Variable localeLe : string -> string -> bool.
(** An input seen as its declared type, and a record as the value it is. *)
Variable asCreate : Input -> CreateFileInput.
Variable asUpdate : Input -> UpdateFileInput.
Variable fileValue : File -> jsval.

Definition fileService : FileOperations DB := mkFileOperations
  (fun t i p => f ← getFile (Some g) t i (CVerified p); mret (fileValue f))
  (fun t p owner => l ← listFiles (Some g) localeLe t (CVerified p) (mkFileListOptions owner); mret (JArr (map fileValue l)))
  (fun input p => f ← updateFile (Some g) (asUpdate input) (CVerified p); mret (fileValue f))
  (fun input p => f ← createFile (Some g) (asCreate input) (CVerified p); mret (fileValue f))
  (fun t i p => _ ← deleteFile (Some g) t i (CVerified p); mret JUndef).

(** Finding a live file reads, and answers with this gateway. *)
Lemma untouched_found {B} t i (k : option (ServiceGateway DB * File) -> M DB B) :
  untouched (k None) -> (forall f, untouched (k (Some (g, f)))) -> untouched (found ← liveFile (Some g) t i; k found).
Proof.
  intros Hn Hf w Hc. apply wp_bind. unfold liveFile, fs_get. apply wp_bind, wp_bind, wpc_get; [exact Hc|]. apply wp_ret.
  destruct (peek CFiles i (w_db w)) as [f|]; [|apply wp_ret; exact (Hn w Hc)].
  destruct (String.eqb _ _); [|apply wp_ret; exact (Hn w Hc)].
  destruct (present _); [apply wp_ret; exact (Hn w Hc)|]. apply wp_bind, wp_ret, wp_ret.
  destruct (ownsFile g f); [exact (Hf f w Hc) | exact (Hn w Hc)].
Qed.

Lemma untouched_gateway {B} (k : ServiceGateway DB -> M DB B) : untouched (k g) -> untouched (a ← fileGateway (Some g); k a).
Proof. intros Hk w Hc. apply wp_bind, wp_ret. exact (Hk w Hc). Qed.

#[local] Hint Resolve untouched_throw untouched_ret untouched_outcome : core.

Ltac operation :=
  repeat first
    [ apply untouched_gateway; cbn beta
    | apply untouched_check; intros ? ?; cbn zeta;
      try match goal with E : requireVerifiedPrincipal (CVerified _) = Ok _ |- _ => injection E as <- end
    | apply untouched_found; [auto | intros ?] ];
  auto using untouched_execute.

#[export] Instance fileService_guarded : hostQuiet g -> GuardedFiles g fileService.
Proof.
  intros Hhost. split; intros; intros p Hno; cbn [fileService fileGet fileList fileUpdate fileCreate fileDelete]; apply untouched_map.
  - unfold getFile. operation.
  - unfold listFiles. operation.
  - unfold updateFile. operation.
  - unfold createFile. operation.
  - unfold deleteFile. operation.
Qed.

(** A host that serves files alone. *)
Definition fileHost : InvokableServices DB := mkInvokable g None None None None None (Some fileService) None None.

Lemma fileHost_lawful : hostQuiet g -> lawful g fileHost.
Proof. intros Hhost. split; [reflexivity | discriminate.. | | discriminate | discriminate]. intros a [= <-]. now apply fileService_guarded. Qed.
End files.

(** ** The claims *)

Section claims.
Context {DB : Type} `{FeltDBLaws DB}.

(** The dispatcher fails closed: whatever capability is named and whoever
    calls, unless AuthBoundry admits a request of this verified caller for
    exactly that capability nothing is written but one row that records the
    denial - provided every service keeps its interface. *)
Lemma invoke_untouched g (s : InvokableServices DB) cap input caller :
  hostQuiet g -> lawful g s -> unadmitted g cap caller -> untouched (invokeService s cap input caller).
Proof.
  intros Hhost Hs Hno. unfold invokeService. destruct (getServiceCapability cap) as [c|]; [|apply untouched_throw].
  destruct (negb _); [apply untouched_throw|]. apply untouched_check. intros p Hp. apply requireVerified_ok in Hp as ->.
  apply untouched_check. intros fields _. destruct (handlerOf cap) as [h|] eqn:Eh; [|apply untouched_throw].
  exact (handlerOf_keeps g s Hhost Hs cap h Eh fields p Hno).
Qed.

(** The handlers of the capabilities that may be invoked. *)
Lemma invocable_handled : forallb (fun c => negb (c_invocable c) ||
  match handlerOf (DB := DB) (c_name c) with Some _ => true | None => false end) ENTRIES = true.
Proof. reflexivity. Qed.

(** Every invocable capability of the manifest has its handler, which gets
    the caller's own principal and input; every other name is refused before
    anything is read. *)
Theorem invoke_total (s : InvokableServices DB) cap fields p :
  match getServiceCapability cap with
  | Some c =>
      if c_invocable c then exists h, handlerOf cap = Some h /\ invokeService s cap (JObj fields) (CVerified p) = h s fields p
      else exists e, invokeService s cap (JObj fields) (CVerified p) = throw e /\ hasCode INVALID_REQUEST e = true
  | None => exists e, invokeService s cap (JObj fields) (CVerified p) = throw e /\ hasCode INVALID_REQUEST e = true
  end.
Proof.
  unfold invokeService. destruct (getServiceCapability cap) as [c|] eqn:Ec; [|eexists; split; reflexivity].
  destruct (c_invocable c) eqn:Ei; cbn [negb]; [|eexists; split; reflexivity].
  apply getServiceCapability_in in Ec as [Hin <-].
  pose proof invocable_handled as Hall. rewrite forallb_forall in Hall.
  apply list_elem_of_In in Hin. specialize (Hall c Hin). rewrite Ei in Hall. cbn [negb orb] in Hall.
  destruct (handlerOf (c_name c)) as [h|]; [|discriminate Hall]. exists h. split; reflexivity.
Qed.

(** What an observation may show of a value: records of this application. *)
Definition onlyOwned (application : string) (v : jsval) : Prop :=
  match v with
  | JArr l => Forall (fun r => isOwned application r = true) l
  | JNull => True
  | r => isOwned application r = true
  end.

Lemma ownedBy_only application v : onlyOwned application (ownedBy application v).
Proof.
  destruct v; cbn [ownedBy]; try (case_match eqn:E; [cbn; exact E | exact I]).
  - exact I.
  - cbn. apply List.Forall_forall. intros r Hr. now apply filter_In in Hr.
Qed.

(** An observation shows a caller only the records of its own tenant and
    of this application: it succeeds only when the read was admitted for that
    tenant, the read asked for that tenant, and every record that belongs to
    another application is left out. *)
Theorem observation_confined (s : InvokableServices DB) cap type input p read w w' v :
  observe s cap type input p read w = (w', Ok v) ->
  (exists requestId c, admitted (s_gateway s) cap (CVerified p) (mkResource type (vp_tenantId p) (stringField input "id") None) requestId c p) /\
  onlyOwned (g_application (s_gateway s)) v /\
  exists w1 w2 a, read (vp_tenantId p) w1 = (w2, Ok a) /\ v = ownedBy (g_application (s_gateway s)) a.
Proof.
  unfold observe. intros E. apply bind_inv in E as (t & w0 & Ht & E). apply ofOutcome_inv in Ht as [-> Ht].
  apply resolveTenant_ok in Ht as [-> _]. cbn zeta in E.
  apply execute_ok in E as (rid & c & q & x & w1 & st & Hi & E). pose proof (is_admitted _ _ _ _ _ _ _ _ Hi) as Ha.
  assert (q = p) as -> by (destruct Ha as (_ & _ & [= ->] & _); reflexivity).
  split; [eauto|].
  unfold run in E. inv_run. unfold tryCatch in E.
  match type of E with (match ?m with _ => _ end = _) => destruct m as [w5 [b|e]] eqn:Er end; [|inv_run].
  injection E as <- <-. inv_run.
  split; [apply ownedBy_only|]. eauto 6.
Qed.
End claims.

(** ** Witnesses *)

Definition demoCreate (i : Input) : CreateFileInput := mkCreateFile None None (orElse (stringField i "name") "") None (JInt 3) None "k1" JUndef.
Definition demoUpdate (i : Input) : UpdateFileInput :=
  mkUpdateFile None (getField i "id") (Has (orElse (stringField i "name") "")) NoKey NoKey NoKey NoKey NoKey.
Definition demoFileValue (f : File) : jsval := JObj [("id", JStr (f_id f)); ("name", JStr (f_name f))].

(** A host that serves files, behind an AuthBoundry that allows or denies. *)
Definition demoFileHost (allowed : bool) : InvokableServices MemDB :=
  fileHost (demoGateway allowed) strLe demoCreate demoUpdate demoFileValue.

Lemma demoFileHost_lawful allowed : lawful (demoGateway allowed) (demoFileHost allowed).
Proof. apply fileHost_lawful, demo_hostQuiet. Qed.

Lemma demo_unadmitted cap caller : unadmitted (demoGateway false) cap caller.
Proof. intros r rid c p. apply demo_denies. Qed.

Example invoke_denied :
  hasCode DENIED (match (invokeService (demoFileHost false) "files.write" (JObj [("name", JStr "a.txt")]) (CVerified alice) (demo emptyDB)).2 with
                  | Throw e => e | Ok _ => invalidDate end) = true.
Proof. vm_compute. reflexivity. Qed.

(** The same request to a host that allows it makes the file. *)
Example invoke_allowed :
  match (invokeService (demoFileHost true) "files.write" (JObj [("name", JStr "a.txt")]) (CVerified alice) (demo emptyDB)).2 with
  | Ok (JObj fields) => isStr (getField fields "name") "a.txt" | _ => false end = true.
Proof. vm_compute. reflexivity. Qed.

(** A read that finds a record of this application and one of another. *)
Definition demoRead (tenantId : string) : M MemDB jsval :=
  mret (JArr [JObj [("id", JStr "a"); ("applicationId", JStr "app")]; JObj [("id", JStr "b"); ("applicationId", JStr "other")]]).

#[local] Abbreviation demoObserved :=
  (observe (demoFileHost true) "jobs.read" "job" [("tenantId", JStr "t1")] alice demoRead (demo emptyDB)).

Lemma observation_confined_witness :
  demoObserved.2 = Ok (JArr [JObj [("id", JStr "a"); ("applicationId", JStr "app")]]) /\
  exists requestId c, admitted (demoGateway true) "jobs.read" (CVerified alice) (mkResource "job" "t1" None None) requestId c alice.
Proof.
  assert (demoObserved.2 = Ok (JArr [JObj [("id", JStr "a"); ("applicationId", JStr "app")]])) as E by (vm_compute; reflexivity).
  split; [exact E|].
  exact (proj1 (observation_confined (demoFileHost true) "jobs.read" "job" [("tenantId", JStr "t1")] alice demoRead
    (demo emptyDB) demoObserved.1 _ (eq_trans (surjective_pairing demoObserved) (f_equal (pair demoObserved.1) E)))).
Defined.

(** [intelligence.resolve] has a handler that no call reaches: the capability
    is not invocable. *)
Lemma resolve_is_unreachable {DB} `{FeltDB DB} :
  (exists h : Handler DB, handlerOf "intelligence.resolve" = Some h) /\
  forall s input caller, exists e, invokeService s "intelligence.resolve" input caller = throw e.
Proof. split; [eexists; reflexivity | intros; eexists; reflexivity]. Qed.
