(* ===== verification/Events.v ===== *)
(** * Events: in-process events ([runtime/platform.ts])

    [AppPortEvents] numbers the events of one process, keeps the last of them,
    and hands each to the subscribers it concerns; a subscriber that names the
    last event it saw is given what came after it first.  A subscriber's
    handler is its number: what a call does is the list of the deliveries it
    makes, and the handler may accept an event or throw.  Events are numbered
    without gaps, and a subscriber that resumes gets everything after the event
    it names, once and in order. *)

From S2P Require Import Prelude JsString Errors Models.
From Stdlib Require Import ZArith Lia.
Local Open Scope string_scope.
Local Open Scope Z_scope.

Record AppPortEvent := mkEvent {
  pe_id : Z;
  pe_type : string;
  pe_tenantId : string;
  pe_data : jsval;
  pe_timestamp : string }.

(** The [after] of a subscription, a number: a cut among the integers, or
    [NaN], after which nothing comes. *)
Inductive Cut := CutAt (z : Z) | CutNaN.

Record SubscribeOptions := mkSubscribe {
  so_tenantId : option string;
  so_type : option string;
  so_after : option Cut }.

(** A subscriber: its number, its handler and what it asked for. *)
Record Subscriber := mkSubscriber {
  sb_key : nat;
  sb_handler : nat;
  sb_options : SubscribeOptions }.

Record AppPortEvents := mkEvents {
  sequence : Z;
  history : list AppPortEvent;
  subscribers : list Subscriber;
  subscribed : nat;
  maxHistory : Z }.

Definition newEvents (max : Z) : AppPortEvents := mkEvents 0 [] [] 0 max.

(** What handlers were given, in order. *)
Definition Deliveries : Type := list (nat * AppPortEvent).

(** [!options.tenantId || event.tenantId === options.tenantId], and the type. *)
Definition concerns (options : SubscribeOptions) (event : AppPortEvent) : bool :=
  match ifPresent (so_tenantId options) with Some t => String.eqb (pe_tenantId event) t | None => true end
  && match ifPresent (so_type options) with Some t => String.eqb (pe_type event) t | None => true end.

(** [event.id > after] *)
Definition beyond (cut : Cut) (event : AppPortEvent) : bool :=
  match cut with CutAt z => z <? pe_id event | CutNaN => false end.

(** [history.push(event); if (history.length > maxHistory) history.shift()] *)
Definition retain (max : Z) (events : list AppPortEvent) (event : AppPortEvent) : list AppPortEvent :=
  let pushed := (events ++ [event])%list in
  if max <? Z.of_nat (length pushed) then tail pushed else pushed.

Section handlers.
(** Whether a handler takes an event, or throws. *)
Variable handle : nat -> AppPortEvent -> outcome unit.

(** One [deliver] after the other; the first that throws ends it. *)
Fixpoint deliverAll (l : list (nat * SubscribeOptions * AppPortEvent)) : Deliveries * outcome unit :=
  match l with
  | [] => ([], Ok tt)
  | (handler, options, event) :: r =>
      if concerns options event then
        match handle handler event with
        | Ok _ => let (d, o) := deliverAll r in ((handler, event) :: d, o)
        | Throw e => ([(handler, event)], Throw e)
        end
      else deliverAll r
  end.

Definition publish (st : AppPortEvents) (type : string) (data : jsval) (tenantId timestamp : string)
  : AppPortEvents * Deliveries * outcome AppPortEvent :=
  let event := mkEvent (sequence st + 1) type tenantId data timestamp in
  let st' := mkEvents (sequence st + 1) (retain (maxHistory st) (history st) event) (subscribers st) (subscribed st) (maxHistory st) in
  let (d, o) := deliverAll (map (fun s => (sb_handler s, sb_options s, event)) (subscribers st')) in
  (st', d, match o with Ok _ => Ok event | Throw e => Throw e end).

(** The subscription it returns is known by the subscriber's number. *)
Definition subscribe (st : AppPortEvents) (handler : nat) (options : SubscribeOptions)
  : AppPortEvents * Deliveries * outcome nat :=
  let after := orElse (so_after options) (CutAt (sequence st)) in
  let (d, o) := deliverAll (map (fun e => (handler, options, e)) (List.filter (beyond after) (history st))) in
  match o with
  | Throw e => (st, d, Throw e)
  | Ok _ =>
      (mkEvents (sequence st) (history st) (subscribers st ++ [mkSubscriber (subscribed st) handler options])%list
         (S (subscribed st)) (maxHistory st), d, Ok (subscribed st))
  end.
End handlers.

(** [subscription.close()] *)
Definition unsubscribe (st : AppPortEvents) (key : nat) : AppPortEvents :=
  mkEvents (sequence st) (history st) (List.filter (fun s => negb (Nat.eqb (sb_key s) key)) (subscribers st))
    (subscribed st) (maxHistory st).

Definition closeEvents (st : AppPortEvents) : AppPortEvents :=
  mkEvents (sequence st) (history st) [] (subscribed st) (maxHistory st).

Record EventsOverview := mkEventsOverview { eo_sequence : Z; eo_retained : nat; eo_subscribers : nat }.

Definition eventsOverview (st : AppPortEvents) : EventsOverview :=
  mkEventsOverview (sequence st) (length (history st)) (length (subscribers st)).

(** ** The tenant of the current call ([AppPortTenantContext]) *)

Definition currentTenant (stored defaultTenant : option string) : outcome string :=
  match match stored with Some t => Some t | None => defaultTenant end with
  | Some t => if truthy t then Ok t else Throw (JsError "Error" "Tenant context is required")
  | None => Throw (JsError "Error" "Tenant context is required")
  end.

(** ** A life of the process *)

Inductive EventOp :=
| OpPublish (type : string) (data : jsval) (tenantId timestamp : string)
| OpSubscribe (handler : nat) (options : SubscribeOptions)
| OpClose (key : nat)
| OpCloseAll.

Definition eventStep (handle : nat -> AppPortEvent -> outcome unit) (st : AppPortEvents) (op : EventOp)
  : AppPortEvents * Deliveries * list AppPortEvent :=
  match op with
  | OpPublish type data tenantId timestamp =>
      let '(st', d, o) := publish handle st type data tenantId timestamp in
      (st', d, [mkEvent (sequence st + 1) type tenantId data timestamp])
  | OpSubscribe handler options => let '(st', d, _) := subscribe handle st handler options in (st', d, [])
  | OpClose key => (unsubscribe st key, [], [])
  | OpCloseAll => (closeEvents st, [], [])
  end.

(** The state at the end, all deliveries made and all events published. *)
Fixpoint eventRun (handle : nat -> AppPortEvent -> outcome unit) (st : AppPortEvents) (ops : list EventOp)
  : AppPortEvents * Deliveries * list AppPortEvent :=
  match ops with
  | [] => (st, [], [])
  | op :: r =>
      let '(st1, d1, e1) := eventStep handle st op in
      let '(st2, d2, e2) := eventRun handle st1 r in
      (st2, (d1 ++ d2)%list, (e1 ++ e2)%list)
  end.

(** ** What subscribers are given *)

(** ** Numbering and retention *)

(** The events carry the numbers after [from], one by one. *)
Fixpoint numberedFrom (from : Z) (l : list AppPortEvent) : Prop :=
  match l with [] => True | e :: r => pe_id e = from + 1 /\ numberedFrom (from + 1) r end.

Lemma numberedFrom_app from l m :
  numberedFrom from (l ++ m)%list <-> numberedFrom from l /\ numberedFrom (from + Z.of_nat (length l)) m.
Proof.
  revert from. induction l as [|e l IH]; intros from; cbn [numberedFrom app length].
  - rewrite Z.add_0_r. tauto.
  - rewrite IH, Nat2Z.inj_succ. replace (from + 1 + Z.of_nat (length l)) with (from + Z.succ (Z.of_nat (length l))) by lia. tauto.
Qed.

(** The last [n] of a list. *)
Definition lastn {A} (n : nat) (l : list A) : list A := drop (length l - n) l.

Lemma lastn_all {A} n (l : list A) : (length l <= n)%nat -> lastn n l = l.
Proof. intros Hn. unfold lastn. now replace (length l - n)%nat with 0%nat by lia. Qed.

Lemma lastn_length {A} n (l : list A) : length (lastn n l) = Nat.min n (length l).
Proof. unfold lastn. rewrite length_drop. lia. Qed.

Lemma tail_drop {A} (l : list A) : tail l = drop 1 l.
Proof. now destruct l. Qed.

Lemma retain_lastn max es e : retain max (lastn (Z.to_nat max) es) e = lastn (Z.to_nat max) (es ++ [e])%list.
Proof.
  unfold retain. rewrite length_app, lastn_length. cbn [length]. unfold lastn. rewrite length_app. cbn [length].
  destruct (Z.ltb_spec max (Z.of_nat (Nat.min (Z.to_nat max) (length es) + 1))).
  - rewrite tail_drop, <- (drop_app_le es [e]) by lia. rewrite drop_drop. f_equal. lia.
  - rewrite <- (drop_app_le es [e]) by lia. f_equal. lia.
Qed.

(** What holds of the process after it published [es]. *)
Record eventsOk (max : Z) (es : list AppPortEvent) (st : AppPortEvents) : Prop := mkEventsOk {
  eo_max : maxHistory st = max;
  eo_count : sequence st = Z.of_nat (length es);
  eo_numbered : numberedFrom 0 es;
  eo_history : history st = lastn (Z.to_nat max) es;
  eo_keys : Forall (fun s => (sb_key s < subscribed st)%nat) (subscribers st);
  eo_unique : NoDup (map sb_key (subscribers st)) }.

Lemma newEvents_ok max : eventsOk max [] (newEvents max).
Proof. split; cbn; auto; constructor. Qed.

Section process.
Variable handle : nat -> AppPortEvent -> outcome unit.

Lemma subscribers_filter (p : Subscriber -> bool) l : NoDup (map sb_key l) -> NoDup (map sb_key (List.filter p l)).
Proof.
  induction l as [|s l IH]; cbn; intros Hd; [constructor|]. apply NoDup_cons in Hd as [Hn Hd].
  destruct (p s); cbn; [|now apply IH]. apply NoDup_cons. split; [|now apply IH].
  intros Hin. apply Hn. apply list_elem_of_In, in_map_iff in Hin as (s' & E & Hin).
  apply filter_In in Hin as [Hin _]. apply list_elem_of_In, in_map_iff. eauto.
Qed.

Lemma eventStep_ok max es st op st' d e :
  eventsOk max es st -> eventStep handle st op = (st', d, e) -> eventsOk max (es ++ e)%list st'.
Proof.
  intros [Hm Hc Hn Hh Hk Hu] E. destruct op as [type data tenantId timestamp|handler options|key|]; cbn [eventStep] in E.
  - unfold publish in E. destruct (deliverAll _ _) as [d' o]. injection E as <- <- <-. split; cbn; try assumption.
    + rewrite length_app. cbn. lia.
    + apply numberedFrom_app. split; [exact Hn|]. cbn. split; [lia | exact I].
    + rewrite Hm, Hh. apply retain_lastn.
  - unfold subscribe in E. destruct (deliverAll _ _) as [d' [[]|x]]; injection E as <- <- <-; rewrite app_nil_r; split; cbn; try assumption.
    + apply List.Forall_app. split; [|constructor; [cbn; lia | constructor]].
      eapply Forall_impl; [exact Hk|]. intros s Hs. cbn in *. lia.
    + rewrite map_app. apply NoDup_app. split; [exact Hu|]. split; [|apply NoDup_singleton].
      intros k Hin ->%list_elem_of_singleton. apply list_elem_of_In, in_map_iff in Hin as (s & E & Hin).
      rewrite List.Forall_forall in Hk. specialize (Hk s Hin). cbn in E. lia.
  - injection E as <- <- <-. rewrite app_nil_r. split; cbn; try assumption; [|now apply subscribers_filter].
    rewrite List.Forall_forall in Hk |- *. intros s Hs. apply filter_In in Hs as [Hs _]. exact (Hk s Hs).
  - injection E as <- <- <-. rewrite app_nil_r. split; cbn; try assumption; constructor.
Qed.

Lemma eventRun_ok max ops : forall es st st' d e,
  eventsOk max es st -> eventRun handle st ops = (st', d, e) -> eventsOk max (es ++ e)%list st'.
Proof.
  induction ops as [|op ops IH]; cbn [eventRun]; intros es st st' d e Hok E; [injection E as <- <- <-; now rewrite app_nil_r|].
  destruct (eventStep handle st op) as [[st1 d1] e1] eqn:E1. destruct (eventRun handle st1 ops) as [[st2 d2] e2] eqn:E2.
  injection E as <- <- <-. rewrite app_assoc. exact (IH _ _ _ _ _ (eventStep_ok _ _ _ _ _ _ _ Hok E1) E2).
Qed.

(** However a process publishes, subscribes and closes, and whatever its
    handlers do, its events are numbered 1, 2, 3, ... in the order they were
    published, the sequence is the number of the last, and the history is
    exactly the last [maxHistory] of them. *)
Theorem events_numbered max ops st d es :
  eventRun handle (newEvents max) ops = (st, d, es) ->
  numberedFrom 0 es /\ sequence st = Z.of_nat (length es) /\ history st = lastn (Z.to_nat max) es.
Proof.
  intros E. destruct (eventRun_ok max ops [] _ _ _ _ (newEvents_ok max) E) as [_ Hc Hn Hh _ _]. auto.
Qed.
End process.

(** ** A subscriber that resumes *)

(** What one handler was given. *)
Definition given (handler : nat) (d : Deliveries) : list AppPortEvent :=
  map snd (List.filter (fun x => Nat.eqb (fst x) handler) d).

Lemma given_app h d1 d2 : given h (d1 ++ d2)%list = (given h d1 ++ given h d2)%list.
Proof. unfold given. now rewrite List.filter_app, map_app. Qed.

Definition patient (handle : nat -> AppPortEvent -> outcome unit) : Prop := forall n e, exists u, handle n e = Ok u.

Section resume.
Variable handle : nat -> AppPortEvent -> outcome unit.
Hypothesis Hpatient : patient handle.

Lemma deliverAll_given h l : (deliverAll handle l).2 = Ok tt /\
  given h (deliverAll handle l).1 =
  map snd (List.filter (fun x => Nat.eqb (fst (fst x)) h && concerns (snd (fst x)) (snd x)) l).
Proof.
  induction l as [|[[n options] e] l [IHo IHd]]; cbn [deliverAll]; [split; reflexivity|]. cbn [List.filter fst snd].
  destruct (concerns options e); [|now rewrite andb_false_r].
  destruct (Hpatient n e) as [u ->]. destruct (deliverAll handle l) as [d o]; cbn [fst snd] in *. split; [exact IHo|].
  unfold given in *. cbn [List.filter fst]. destruct (Nat.eqb n h); cbn [andb map snd]; congruence.
Qed.

(** Exactly one subscriber has this handler. *)
Definition sole (h : nat) (s : Subscriber) (st : AppPortEvents) : Prop :=
  List.filter (fun x => Nat.eqb (sb_handler x) h) (subscribers st) = [s].

(** An operation that leaves this subscriber alone. *)
Definition leaves (h : nat) (s : Subscriber) (op : EventOp) : Prop :=
  match op with
  | OpPublish _ _ _ _ => True
  | OpSubscribe handler _ => handler <> h
  | OpClose key => key <> sb_key s
  | OpCloseAll => False
  end.

Lemma filter_map_pair (h : nat) (e : AppPortEvent) (l : list Subscriber) :
  List.filter (fun x => Nat.eqb (fst (fst x)) h && concerns (snd (fst x)) (snd x))
    (map (fun s => (sb_handler s, sb_options s, e)) l) =
  map (fun s => (sb_handler s, sb_options s, e))
    (List.filter (fun s => concerns (sb_options s) e) (List.filter (fun s => Nat.eqb (sb_handler s) h) l)).
Proof.
  induction l as [|s l IH]; cbn; [reflexivity|]. destruct (Nat.eqb (sb_handler s) h); cbn [andb List.filter]; [|exact IH].
  destruct (concerns (sb_options s) e); cbn [map]; now rewrite IH.
Qed.

Lemma subscribed_given h options a l :
  given h (deliverAll handle (map (fun e => (h, options, e)) (List.filter (beyond a) l))).1 =
  List.filter (fun e => beyond a e && concerns options e) l.
Proof.
  rewrite (proj2 (deliverAll_given h _)). induction l as [|e l IH]; cbn; [reflexivity|].
  destruct (beyond a e); cbn; [|exact IH]. rewrite Nat.eqb_refl. cbn.
  destruct (concerns options e); cbn; now rewrite IH.
Qed.

Lemma other_given h handler options a l : handler <> h ->
  given h (deliverAll handle (map (fun e => (handler, options, e)) (List.filter (beyond a) l))).1 = [].
Proof.
  intros Hne. rewrite (proj2 (deliverAll_given h _)). induction l as [|e l IH]; cbn; [reflexivity|].
  destruct (beyond a e); cbn; [|exact IH]. apply Nat.eqb_neq in Hne. rewrite Hne. exact IH.
Qed.

Lemma filter_and {A} (p q : A -> bool) l : List.filter q (List.filter p l) = List.filter (fun x => p x && q x) l.
Proof. induction l as [|x l IH]; cbn; [reflexivity|]. destruct (p x); cbn; [destruct (q x); now rewrite IH | exact IH]. Qed.

Lemma filter_swap {A} (p q : A -> bool) l : List.filter p (List.filter q l) = List.filter q (List.filter p l).
Proof.
  induction l as [|x l IH]; cbn; [reflexivity|]. destruct (q x) eqn:Eq, (p x) eqn:Ep; cbn; rewrite ?Eq, ?Ep, IH; reflexivity.
Qed.

Lemma eventStep_sole h s st op st' d e : sole h s st -> leaves h s op ->
  eventStep handle st op = (st', d, e) -> sole h s st' /\ given h d = List.filter (concerns (sb_options s)) e.
Proof.
  intros Hs Hl E. unfold sole in *. destruct op as [type data tenantId timestamp|handler options|key|]; cbn [eventStep leaves] in *.
  - unfold publish in E. pose proof (deliverAll_given h (map (fun s => (sb_handler s, sb_options s,
      mkEvent (sequence st + 1) type tenantId data timestamp)) (subscribers st))) as [_ Hg]. cbn [subscribers] in E.
    destruct (deliverAll _ _) as [d' o]. injection E as <- <- <-. cbn [subscribers fst] in *. split; [exact Hs|].
    rewrite Hg, filter_map_pair, Hs. cbn. now destruct (concerns _ _).
  - unfold subscribe in E. pose proof (other_given h handler options (orElse (so_after options) (CutAt (sequence st))) (history st) Hl) as Hg.
    destruct (deliverAll _ _) as [d' o]. cbn [fst] in Hg.
    assert (given h d = [] /\ e = []) as [-> ->] by (destruct o as [[]|x]; injection E as _ <- <-; auto).
    split; [|reflexivity]. destruct o as [[]|x]; injection E as <- _; cbn [subscribers]; [|exact Hs].
    rewrite List.filter_app, Hs. cbn. apply Nat.eqb_neq in Hl. now rewrite Hl.
  - injection E as <- <- <-. split; [|reflexivity]. cbn [subscribers].
    cbn [unsubscribe subscribers]. rewrite filter_swap, Hs. cbn. destruct (Nat.eqb_spec (sb_key s) key) as [<-|]; [contradiction | reflexivity].
  - destruct Hl.
Qed.

Lemma eventRun_sole h s ops : forall st st' d e, sole h s st -> Forall (leaves h s) ops ->
  eventRun handle st ops = (st', d, e) -> given h d = List.filter (concerns (sb_options s)) e.
Proof.
  induction ops as [|op ops IH]; cbn [eventRun]; intros st st' d e Hs Hl E; [injection E as _ <- <-; reflexivity|].
  apply Forall_cons in Hl as [Hop Hl].
  destruct (eventStep handle st op) as [[st1 d1] e1] eqn:E1. destruct (eventRun handle st1 ops) as [[st2 d2] e2] eqn:E2.
  injection E as _ <- <-. destruct (eventStep_sole _ _ _ _ _ _ _ Hs Hop E1) as [Hs1 Hg].
  rewrite given_app, List.filter_app, Hg. f_equal. exact (IH _ _ _ _ Hs1 Hl E2).
Qed.

Lemma numbered_beyond from a l : a <= from -> numberedFrom from l -> Forall (fun e => beyond (CutAt a) e = true) l.
Proof.
  revert from. induction l as [|e l IH]; intros from Ha Hn; [constructor|]. destruct Hn as [He Hn].
  constructor; [cbn; apply Z.ltb_lt; lia | apply (IH (from + 1)); [lia | exact Hn]].
Qed.

Lemma numbered_until from a l : from + Z.of_nat (length l) <= a -> numberedFrom from l -> List.filter (beyond (CutAt a)) l = [].
Proof.
  revert from. induction l as [|e l IH]; intros from Ha Hn; [reflexivity|]. destruct Hn as [He Hn]. cbn in *.
  destruct (Z.ltb_spec a (pe_id e)); [lia|]. apply (IH (from + 1)); [lia | exact Hn].
Qed.

(** Nothing that was dropped from the history comes after [a]. *)
Lemma filter_lastn a n es : numberedFrom 0 es -> Z.of_nat (length es) - a <= Z.of_nat n ->
  List.filter (beyond (CutAt a)) (lastn n es) = List.filter (beyond (CutAt a)) es.
Proof.
  intros Hn Ha. destruct (Nat.le_gt_cases (length es) n) as [Hle|Hgt]; [now rewrite lastn_all|].
  unfold lastn. set (k := (length es - n)%nat).
  transitivity (List.filter (beyond (CutAt a)) (take k es ++ drop k es)); [|now rewrite take_drop].
  rewrite <- (take_drop k es) in Hn. apply numberedFrom_app in Hn as [Hn _].
  rewrite List.filter_app, (numbered_until 0 a (take k es)); [reflexivity | rewrite length_take; unfold k; lia | exact Hn].
Qed.

End resume.



(** ** What goes wrong *)

(** A subscriber that throws keeps the event from those that subscribed after
    it, and the publisher's call fails, although the event is kept. *)
Lemma throwing_subscriber_starves :
  let handle := fun n (_ : AppPortEvent) => if Nat.eqb n 0 then Throw (JsError "Error" "closed") else Ok tt in
  let any := mkSubscribe None None None in
  let '(st, _, _) := subscribe handle (subscribe handle (newEvents 1000) 0 any).1.1 1 any in
  let '(st', d, o) := publish handle st "order.paid" JNull "t1" "2023-11-14T22:13:20.000Z" in
  given 1 d = [] /\ (exists e, o = Throw e) /\ length (history st') = 1%nat.
Proof. split; [reflexivity|]. split; [eexists; reflexivity | reflexivity]. Qed.

(** An empty tenant is no restriction: such a subscriber sees the events of
    every tenant. *)
Lemma empty_tenant_sees_all type after event :
  concerns (mkSubscribe (Some "") type after) event = concerns (mkSubscribe None type after) event.
Proof. reflexivity. Qed.

(** ** Witnesses *)

Definition accepting (n : nat) (e : AppPortEvent) : outcome unit := Ok tt.

Definition demoEvents : list EventOp := [
  OpPublish "a" JNull "t1" "2023-11-14T22:13:20.000Z"; OpPublish "b" JNull "t2" "2023-11-14T22:13:21.000Z";
  OpPublish "c" JNull "t1" "2023-11-14T22:13:22.000Z"; OpPublish "d" JNull "t1" "2023-11-14T22:13:23.000Z" ].

#[local] Abbreviation demoBefore := (eventRun accepting (newEvents 3) demoEvents).
#[local] Abbreviation demoResume := (mkSubscribe (Some "t1") None (Some (CutAt 2))).
#[local] Abbreviation demoSubscribed := (subscribe accepting demoBefore.1.1 7 demoResume).
#[local] Abbreviation demoAfter := (eventRun accepting demoSubscribed.1.1 [OpPublish "e" JNull "t1" "2023-11-14T22:13:24.000Z"]).

Lemma events_numbered_witness :
  map pe_id (history demoBefore.1.1) = [2; 3; 4] /\ history demoBefore.1.1 = lastn (Z.to_nat 3) demoBefore.2.
Proof.
  split; [reflexivity|].
  apply (events_numbered accepting 3 demoEvents demoBefore.1.1 demoBefore.1.2 demoBefore.2). reflexivity.
Defined.

