(* ===== verification/Dsl.v ===== *)
(** * Dsl: the contract of [appport.toml] ([runtime/dsl.ts])

    The [use] lines are taken from the text; what is left is TOML, whose parser
    is a parameter, and its value is normalised to the configuration of the
    application.  A TOML value is a [jsval]: a table is its own properties, a
    date is an object without any.  How an offending value is shown
    ([JSON.stringify], which throws on a bigint) is a parameter. *)

From S2P Require Import Prelude JsString Errors Models.
From Stdlib Require Import ZArith Lia Ascii.
Local Open Scope string_scope.
Local Open Scope Z_scope.

(** ** The configuration *)

Inductive AppPortCapabilityName := CapApi | CapWebhooks | CapJobs | CapSecrets | CapNotifications | CapFiles.
Inductive DeploymentMode := ModeLocal | ModeManaged | ModeSelfHosted.
Inductive StorageKind := Durable | InMemory.
Inductive TenantMode := TenantRequired | TenantOptional | TenantSingle.
Inductive ConfigPriority := PLow | PNormal | PHigh | PUrgent.
Inductive DefaultChannel := ChannelInApp | ChannelBrowser.
Inductive AuthorizationDefault := AuthAllow | AuthDeny.

#[global] Instance AppPortCapabilityName_eq_dec : EqDecision AppPortCapabilityName.
Proof. solve_decision. Defined.

Definition ALL_CAPABILITIES : list AppPortCapabilityName :=
  [CapApi; CapWebhooks; CapJobs; CapSecrets; CapNotifications; CapFiles].

Definition capabilityName (c : AppPortCapabilityName) : string :=
  match c with
  | CapApi => "api" | CapWebhooks => "webhooks" | CapJobs => "jobs" | CapSecrets => "secrets"
  | CapNotifications => "notifications" | CapFiles => "files"
  end.

(** The nested object of the source, a field per path.  [version],
    [application.runtime], [state.authority] and [events.streaming.transport]
    have one value each and are not kept. *)
Record AppPortConfig := mkConfig {
  ac_application_name : string;
  ac_application_description : string;
  ac_deployment_mode : DeploymentMode;
  ac_deployment_storage : StorageKind;
  ac_deployment_distributed : bool;
  ac_state_enabled : bool;
  ac_state_namespace : string;
  ac_tenant_mode : TenantMode;
  ac_tenant_default : option string;
  ac_http_enabled : bool;
  ac_http_host : string;
  ac_http_port : Z;
  ac_cors_enabled : bool;
  ac_cors_origins : list string;
  ac_capabilities : AppPortCapabilityName -> bool;
  ac_api_enabled : bool;
  ac_api_keys_enabled : bool;
  ac_api_keys_scopes : list string;
  ac_webhooks_enabled : bool;
  ac_webhooks_delivery_enabled : bool;
  ac_webhooks_delivery_retries : Z;
  ac_webhooks_delivery_timeout_ms : Z;
  ac_webhooks_events_allowed : list string;
  ac_jobs_enabled : bool;
  ac_jobs_execution_enabled : bool;
  ac_jobs_max_attempts : Z;
  ac_jobs_types : list (string * Z);
  ac_secrets_enabled : bool;
  ac_notifications_enabled : bool;
  ac_notifications_default_priority : ConfigPriority;
  ac_notifications_default_channel : DefaultChannel;
  ac_notifications_max_attempts : Z;
  ac_files_enabled : bool;
  ac_events_enabled : bool;
  ac_events_streaming_enabled : bool;
  ac_authorization_enabled : bool;
  ac_authorization_default : AuthorizationDefault;
  ac_observability_enabled : bool;
  ac_lifecycle_managed : bool;
  ac_development_mail : string;
  ac_development_webhooks : string;
  ac_development_jobs : string }.

(** ** The [use] lines *)

Definition capabilityNamed (s : string) : option AppPortCapabilityName :=
  List.find (fun c => String.eqb (capabilityName c) s) ALL_CAPABILITIES.

(** The longest prefix of characters that satisfy [p], and the rest. *)
Fixpoint spanOf (p : ascii -> bool) (s : string) : string * string :=
  match s with
  | EmptyString => (EmptyString, EmptyString)
  | String c r => if p c then let (a, b) := spanOf p r in (String c a, b) else (EmptyString, s)
  end.

Definition useChar (c : ascii) : bool := isLower c || isDigit c || Nat.eqb (code c) 95 || Nat.eqb (code c) 45.

(** The pattern of a [use] line: [use], white space, a name ([a-z], then
    letters, digits, underscores and hyphens), and at most an opening brace;
    the name, and whether a block opens. *)
Definition useLine (line : string) : option (string * bool) :=
  if startsWith line "use" then
    let (spaces, rest) := spanOf isSpace (sliceFrom 3 line) in
    let (name, after) := spanOf useChar rest in
    match spaces, name with
    | String _ _, String c _ =>
        if isLower c then
          if negb (truthy after) then Some (name, false)
          else if String.eqb (trimStart after) "{" then Some (name, true) else None
        else None
    | _, _ => None
    end
  else None.

Record Scan := mkScan {
  sn_uses : list AppPortCapabilityName;
  sn_lines : list string;
  sn_block : option AppPortCapabilityName }.

Section dsl.
Variable file : string.
(** [JSON.stringify(value)] in a message *)
Variable stringify : jsval -> outcome string.
(** [TOML.parse]: the table, or a syntax error with its text. *)
Variable tomlParse : string -> list (string * jsval) + string.

Definition configError (property : string) (value : jsval) (expected : string) : exn :=
  match stringify value with
  | Ok text => JsError "AppPortConfigError" (file ++ ": invalid " ++ property ++ " (" ++ text ++ "); expected " ++ expected)
  | Throw e => e
  end.

Definition fails {A} (property : string) (value : jsval) (expected : string) : outcome A := Throw (configError property value expected).

(** One line of the text. *)
Definition scanLine (st : Scan) (rawLine : string) : outcome Scan :=
  let line := trim rawLine in
  match sn_block st with
  | Some block =>
      if String.eqb line "}" then Ok (mkScan (sn_uses st) (sn_lines st) None)
      else if truthy line && negb (startsWith line "#")
      then Ok (mkScan (sn_uses st) (sn_lines st ++ [("[" ++ capabilityName block ++ "]")%string; rawLine])%list (Some block))
      else Ok st
  | None =>
      match useLine line with
      | Some (name, opens) =>
          match capabilityNamed name with
          | Some c => Ok (mkScan (c :: sn_uses st) (sn_lines st) (if opens then Some c else None))
          | None => fails "use" (JStr name) "api, webhooks, jobs, secrets, notifications, or files"
          end
      | None => Ok (mkScan (sn_uses st) (sn_lines st ++ [rawLine])%list None)
      end
  end.

Fixpoint scanLines (st : Scan) (lines : list string) : outcome Scan :=
  match lines with
  | [] => Ok st
  | line :: r => st' ← scanLine st line; scanLines st' r
  end.

Fixpoint joinLines (l : list string) : string :=
  match l with [] => "" | [s] => s | s :: r => s ++ String "010" (joinLines r) end.

(** ** Values *)

(** [object]: a table; absent when that is allowed. *)
Definition objectOf (value : jsval) (property : string) (optional : bool) : outcome (list (string * jsval)) :=
  match value with
  | JUndef => if optional then Ok [] else fails property value "a table"
  | JObj fields => Ok fields
  | _ => fails property value "a table"
  end.

Definition str (value : jsval) (property fallback : string) : outcome string :=
  match value with
  | JUndef => Ok fallback
  | JStr s => if blank s then fails property value "a non-empty string" else Ok s
  | _ => fails property value "a non-empty string"
  end.

Definition boolOf (value : jsval) (property : string) (fallback : bool) : outcome bool :=
  match value with JUndef => Ok fallback | JBool b => Ok b | _ => fails property value "true or false" end.

Definition MAX_SAFE_INTEGER : Z := 9007199254740991.

Definition integerOf (value : jsval) (property : string) (fallback min max : Z) : outcome Z :=
  match value with
  | JUndef => Ok fallback
  | JInt z => if (z <? min) || (max <? z) then fails property value ("an integer from " ++ num min ++ " to " ++ num max) else Ok z
  | _ => fails property value ("an integer from " ++ num min ++ " to " ++ num max)
  end.

Fixpoint allStrings (l : list jsval) : option (list string) :=
  match l with
  | [] => Some []
  | JStr s :: r => match allStrings r with Some t => Some (s :: t) | None => None end
  | _ :: _ => None
  end.

Definition stringArray (value : jsval) (property : string) (fallback : list string) : outcome (list string) :=
  match value with
  | JUndef => Ok fallback
  | JArr l => match allStrings l with Some t => Ok t | None => fails property value "an array of strings" end
  | _ => fails property value "an array of strings"
  end.

Fixpoint joinComma (l : list string) : string :=
  match l with [] => "" | [s] => s | s :: r => s ++ ", " ++ joinComma r end.

Definition enumeration {T} (value : jsval) (property : string) (allowed : list (string * T)) (fallback : T) : outcome T :=
  match value with
  | JUndef => Ok fallback
  | JStr s =>
      match List.find (fun e => String.eqb (fst e) s) allowed with
      | Some (_, t) => Ok t
      | None => fails property value (joinComma (map fst allowed))
      end
  | _ => fails property value (joinComma (map fst allowed))
  end.

(** [a ?? b] *)
Definition nullish (a b : jsval) : jsval := match a with JUndef | JNull => b | _ => a end.

Definition isObject (v : jsval) : bool := match v with JObj _ | JArr _ | JNull => true | _ => false end.

(** [normalizedTypes[type] = ...]: the key [__proto__] sets no property. *)
Fixpoint jobTypesOf (entries : list (string * jsval)) : outcome (list (string * Z)) :=
  match entries with
  | [] => Ok []
  | (type, value) :: r =>
      config ← objectOf value ("jobs.types." ++ type) false;
      timeout ← integerOf (getField config "timeout_ms") ("jobs.types." ++ type ++ ".timeout_ms") 30000 1 MAX_SAFE_INTEGER;
      rest ← jobTypesOf r;
      Ok (if String.eqb type "__proto__" then rest else (type, timeout) :: rest)
  end.

(** The capabilities in use: named by a [use] line, or by a section that does
    not say [enabled = false]. *)
Fixpoint usedCapabilities (raw : list (string * jsval)) (uses todo : list AppPortCapabilityName) : outcome (list AppPortCapabilityName) :=
  match todo with
  | [] => Ok uses
  | c :: r =>
      section ← objectOf (getField raw (capabilityName c)) (capabilityName c) true;
      let named := existsb (fun d => bool_decide (c = d)) uses in
      enabled ← boolOf (getField section "enabled") (capabilityName c ++ ".enabled")
                  (named || negb match getField raw (capabilityName c) with JUndef => true | _ => false end);
      usedCapabilities raw (if (enabled : bool) then c :: uses else uses) r
  end.

Definition SCOPES_MESSAGE : string :=
  "no scopes: API keys identify callers and AuthBoundry authorizes capabilities (old: API key + scopes -> authority; new: API key -> identity, AuthBoundry -> authorization; see docs/AUTHORITY.md#migration)".

Definition deploymentModes := [("local", ModeLocal); ("managed", ModeManaged); ("self-hosted", ModeSelfHosted)].
Definition storageKinds := [("durable", Durable); ("memory", InMemory)].
Definition tenantModes := [("required", TenantRequired); ("optional", TenantOptional); ("single", TenantSingle)].
Definition priorities := [("low", PLow); ("normal", PNormal); ("high", PHigh); ("urgent", PUrgent)].
Definition channels := [("in-app", ChannelInApp); ("browser", ChannelBrowser)].
Definition authorizationDefaults := [("allow", AuthAllow); ("deny", AuthDeny)].

Definition normalizeConfig (raw : list (string * jsval)) (named : list AppPortCapabilityName) : outcome AppPortConfig :=
  let section (name : string) := objectOf (getField raw name) name true in
  application ← section "application"; deployment ← section "deployment"; state ← section "state";
  tenant ← section "tenant"; http ← section "http"; cors ← section "cors";
  api ← section "api";
  apiKeys ← (if isObject (getField api "keys") then objectOf (getField api "keys") "api.keys" true else Ok []);
  webhooks ← section "webhooks"; webhookDelivery ← objectOf (getField webhooks "delivery") "webhooks.delivery" true;
  let legacyWebhookEvents := match getField webhooks "events" with JArr l => JArr l | _ => JUndef end in
  webhookEvents ← match getField webhooks "events" with
                  | JArr _ => Ok []
                  | v => objectOf v "webhooks.events" true
                  end;
  jobs ← section "jobs"; jobExecution ← objectOf (getField jobs "execution") "jobs.execution" true;
  jobTypes ← objectOf (getField jobs "types") "jobs.types" true;
  notifications ← section "notifications";
  files ← section "files";
  events ← section "events"; streaming ← objectOf (getField events "streaming") "events.streaming" true;
  authorization ← section "authorization"; observability ← section "observability";
  lifecycle ← section "lifecycle"; development ← section "development";
  uses ← usedCapabilities raw named ALL_CAPABILITIES;
  let has (c : AppPortCapabilityName) := existsb (fun d => bool_decide (c = d)) uses in
  name ← str (getField application "name") "application.name" "app";
  declaredScopes ← stringArray (nullish (getField apiKeys "scopes") (getField api "scopes")) "api.keys.scopes" [];
  _ ← match declaredScopes with
      | [] => Ok tt
      | _ => fails "api.keys.scopes" (JArr (map JStr declaredScopes)) SCOPES_MESSAGE
      end;
  normalizedTypes ← jobTypesOf jobTypes;
  maxAttempts ← integerOf (nullish (getField jobExecution "max_attempts") (getField jobs "max_attempts"))
                  "jobs.execution.max_attempts" 3 1 MAX_SAFE_INTEGER;
  _ ← enumeration (getField raw "version") "version" [("1", tt)] tt;
  description ← str (getField application "description") "application.description" "AppPort application";
  _ ← enumeration (getField application "runtime") "application.runtime" [("node", tt)] tt;
  mode ← enumeration (getField deployment "mode") "deployment.mode" deploymentModes ModeLocal;
  storage ← enumeration (getField deployment "storage") "deployment.storage" storageKinds Durable;
  distributed ← boolOf (getField deployment "distributed") "deployment.distributed" true;
  stateEnabled ← boolOf (getField state "enabled") "state.enabled" true;
  _ ← enumeration (getField state "authority") "state.authority" [("feltdb", tt)] tt;
  namespace ← str (getField state "namespace") "state.namespace" name;
  tenantMode ← enumeration (getField tenant "mode") "tenant.mode" tenantModes TenantRequired;
  tenantDefault ← match getField tenant "default" with
                  | JUndef => Ok None
                  | v => d ← str v "tenant.default" ""; Ok (Some d)
                  end;
  httpEnabled ← boolOf (getField http "enabled") "http.enabled" false;
  host ← str (getField http "host") "http.host" "127.0.0.1";
  port ← integerOf (getField http "port") "http.port" 8787 0 65535;
  corsEnabled ← boolOf (getField cors "enabled") "cors.enabled" false;
  origins ← stringArray (getField cors "origins") "cors.origins" ["*"];
  keysEnabled ← boolOf (nullish (getField apiKeys "enabled") (getField api "keys")) "api.keys.enabled" (has CapApi);
  deliveryEnabled ← boolOf (getField webhookDelivery "enabled") "webhooks.delivery.enabled" (has CapWebhooks);
  retries ← integerOf (getField webhookDelivery "retries") "webhooks.delivery.retries" 3 0 MAX_SAFE_INTEGER;
  timeout ← integerOf (getField webhookDelivery "timeout_ms") "webhooks.delivery.timeout_ms" 10000 1 MAX_SAFE_INTEGER;
  allowedEvents ← stringArray (nullish (getField webhookEvents "allowed") legacyWebhookEvents) "webhooks.events.allowed" [];
  executionEnabled ← boolOf (getField jobExecution "enabled") "jobs.execution.enabled" (has CapJobs);
  priority ← enumeration (getField notifications "default_priority") "notifications.default_priority" priorities PNormal;
  channel ← enumeration (getField notifications "default_channel") "notifications.default_channel" channels ChannelInApp;
  delivery ← objectOf (getField notifications "delivery") "notifications.delivery" true;
  notificationAttempts ← integerOf (getField delivery "max_attempts") "notifications.delivery.max_attempts" 5 1 MAX_SAFE_INTEGER;
  filesEnabled ← (if has CapFiles then Ok true else boolOf (getField files "enabled") "files.enabled" false);
  eventsEnabled ← boolOf (getField events "enabled") "events.enabled" false;
  streamingEnabled ← boolOf (getField streaming "enabled") "events.streaming.enabled" false;
  _ ← enumeration (getField streaming "transport") "events.streaming.transport" [("sse", tt)] tt;
  authorizationEnabled ← boolOf (getField authorization "enabled") "authorization.enabled" (has CapApi);
  authorizationDefault ← enumeration (getField authorization "default") "authorization.default" authorizationDefaults AuthDeny;
  observabilityEnabled ← boolOf (getField observability "enabled") "observability.enabled" true;
  managed ← boolOf (getField lifecycle "managed") "lifecycle.managed" true;
  mail ← str (getField development "mail") "development.mail" "local";
  devWebhooks ← str (getField development "webhooks") "development.webhooks" "local";
  devJobs ← str (getField development "jobs") "development.jobs" "local";
  Ok (mkConfig name description mode storage distributed stateEnabled namespace tenantMode tenantDefault
        httpEnabled host port corsEnabled origins has (has CapApi) keysEnabled declaredScopes
        (has CapWebhooks) deliveryEnabled retries timeout allowedEvents
        (has CapJobs) executionEnabled maxAttempts normalizedTypes (has CapSecrets)
        (has CapNotifications) priority channel notificationAttempts filesEnabled
        eventsEnabled streamingEnabled authorizationEnabled authorizationDefault observabilityEnabled managed
        mail devWebhooks devJobs).

Definition parseAppPortConfigText (source : string) : outcome AppPortConfig :=
  st ← scanLines (mkScan [] [] None) (splitOn "010" source);
  match tomlParse (joinLines (sn_lines st)) with
  | inr text => fails "syntax" (JStr text) "valid AppPort TOML"
  | inl raw => normalizeConfig raw (sn_uses st)
  end.

(** [parseAppPortConfig]: an error of the contract as it is, any other as a
    file that could not be read. *)
Definition parseAppPortConfig (readFile : outcome string) (describe : exn -> string) : outcome AppPortConfig :=
  match (source ← readFile; parseAppPortConfigText source) with
  | Ok config => Ok config
  | Throw e =>
      match e with
      | JsError "AppPortConfigError" _ => Throw e
      | _ => Throw (JsError "Error" ("Cannot read appport.toml at " ++ file ++ ": " ++ describe e))
      end
  end.
End dsl.
