(* ===== verification/DslProps.v ===== *)
(** * DslProps: what a configuration that is accepted guarantees *)

From S2P Require Import Prelude JsString Errors Models Dsl.
From Stdlib Require Import ZArith Lia Ascii.
Local Open Scope string_scope.
Local Open Scope Z_scope.

(** ** Single values *)

Section values.
Variable file : string.
Variable stringify : jsval -> outcome string.

Lemma str_ok value property fallback s : str file stringify value property fallback = Ok s ->
  s = fallback \/ blank s = false.
Proof. unfold str, fails. destruct value; try discriminate; [intros [= ->]; now left|]. destruct (blank s0) eqn:E; [discriminate | intros [= <-]; now right]. Qed.

Lemma str_solid value property fallback s : str file stringify value property fallback = Ok s -> blank fallback = false -> blank s = false.
Proof. intros E Hf. apply str_ok in E as [->|]; assumption. Qed.

Lemma integerOf_ok value property fallback min max z : integerOf file stringify value property fallback min max = Ok z ->
  min <= fallback <= max -> min <= z <= max.
Proof.
  unfold integerOf, fails. destruct value; try discriminate; [intros [= <-]; auto|].
  destruct (Z.ltb_spec z0 min), (Z.ltb_spec max z0); cbn [orb]; try discriminate. intros [= <-] _. lia.
Qed.

Lemma jobTypesOf_ok entries : forall l, jobTypesOf file stringify entries = Ok l -> Forall (fun t => 1 <= snd t <= MAX_SAFE_INTEGER) l.
Proof.
  induction entries as [|[type value] r IH]; cbn [jobTypesOf]; intros l E; [injection E as <-; constructor|].
  apply obind_ok in E as (config & _ & E). apply obind_ok in E as (timeout & Ht & E). apply obind_ok in E as (rest & Hr & E).
  apply integerOf_ok in Ht; [|unfold MAX_SAFE_INTEGER; lia]. injection E as <-. specialize (IH _ Hr).
  destruct (String.eqb type "__proto__"); [exact IH | now constructor].
Qed.

(** A section is in use unless it says otherwise. *)
Definition sectionEnables (raw : list (string * jsval)) (c : AppPortCapabilityName) : Prop :=
  exists fields, getField raw (capabilityName c) = JObj fields /\ getField fields "enabled" <> JBool false.

Lemma usedCapabilities_ok raw todo : NoDup todo -> forall uses out, usedCapabilities file stringify raw uses todo = Ok out ->
  forall c, In c out <-> In c uses \/ (In c todo /\ sectionEnables raw c).
Proof.
  induction 1 as [|c todo Hn Hd IH]; cbn [usedCapabilities]; intros uses out E d; [injection E as <-; cbn; tauto|].
  apply obind_ok in E as (section & Hs & E). apply obind_ok in E as (enabled & He & E).
  rewrite (IH _ _ E d). cbn [In].
  assert (In d (if enabled then c :: uses else uses) <-> In d uses \/ (d = c /\ sectionEnables raw c)) as ->.
  2: { split; [intros [[|[-> ?]]|[? ?]]; auto 6 | intros [?|[[<-|?] ?]]; auto]. }
  assert (enabled = true -> In c uses \/ sectionEnables raw c) as H1.
  { intros ->. unfold sectionEnables. destruct (getField raw (capabilityName c)) as [| | | | | | |fields|] eqn:Ef; try discriminate Hs.
    - injection Hs as <-. cbn in He. rewrite orb_false_r in He. injection He as He. left.
      apply existsb_exists in He as (x & Hx & Hb). apply bool_decide_eq_true in Hb. now subst.
    - injection Hs as <-. right. exists fields. split; [reflexivity|]. intros E2. rewrite E2 in He. discriminate He. }
  assert (sectionEnables raw c -> enabled = true) as H2.
  { intros (fields & Ef & Hne). rewrite Ef in Hs, He. injection Hs as <-. cbn in He. rewrite orb_true_r in He.
    destruct (getField fields "enabled") as [| |b| | | | | |]; try discriminate He; injection He as <-; [reflexivity|].
    destruct b; [reflexivity | contradiction]. }
  destruct enabled; cbn [In].
  - split; [intros [<-|?]; [destruct (H1 eq_refl); auto | auto] | intros [?|[-> _]]; auto].
  - split; [auto | intros [?|[-> Hse]]; [assumption | discriminate (H2 Hse)]].
Qed.
End values.

(** ** The whole contract *)

(** What the rest of the program may rely on. *)
Record wellFormedConfig (c : AppPortConfig) : Prop := mkWellFormedConfig {
  wc_name : blank (ac_application_name c) = false;
  wc_namespace : blank (ac_state_namespace c) = false;
  wc_host : blank (ac_http_host c) = false;
  wc_port : 0 <= ac_http_port c <= 65535;
  wc_tenant : forall t, ac_tenant_default c = Some t -> blank t = false;
  wc_retries : 0 <= ac_webhooks_delivery_retries c <= MAX_SAFE_INTEGER;
  wc_timeout : 1 <= ac_webhooks_delivery_timeout_ms c <= MAX_SAFE_INTEGER;
  wc_attempts : 1 <= ac_jobs_max_attempts c <= MAX_SAFE_INTEGER;
  wc_types : Forall (fun t => 1 <= snd t <= MAX_SAFE_INTEGER) (ac_jobs_types c);
  wc_notifications : 1 <= ac_notifications_max_attempts c <= MAX_SAFE_INTEGER;
  wc_scopes : ac_api_keys_scopes c = [];
  wc_enabled : ac_api_enabled c = ac_capabilities c CapApi /\ ac_webhooks_enabled c = ac_capabilities c CapWebhooks /\
    ac_jobs_enabled c = ac_capabilities c CapJobs /\ ac_secrets_enabled c = ac_capabilities c CapSecrets /\
    ac_notifications_enabled c = ac_capabilities c CapNotifications;
  wc_files : ac_capabilities c CapFiles = true -> ac_files_enabled c = true }.

Section contract.
Variable file : string.
Variable stringify : jsval -> outcome string.

(** Follow an accepted configuration through its checks. *)
Ltac accepted H :=
  repeat match type of H with
  | (_ ← _; _) = Ok _ => let x := fresh "x" in let Hx := fresh "Hx" in apply obind_ok in H as (x & Hx & H)
  end.

Lemma normalizeConfig_ok raw named c : normalizeConfig file stringify raw named = Ok c ->
  wellFormedConfig c /\ exists uses, usedCapabilities file stringify raw named ALL_CAPABILITIES = Ok uses /\
    ac_capabilities c = (fun d => existsb (fun e => bool_decide (d = e)) uses).
Proof.
  unfold normalizeConfig. intros E. accepted E.
  match goal with Hu : usedCapabilities _ _ _ _ _ = Ok ?u |- _ => rename Hu into Huses; rename u into uses end.
  injection E as <-.
  repeat match goal with
  | Hi : integerOf _ _ _ _ _ _ _ = Ok _ |- _ => apply integerOf_ok in Hi; [|unfold MAX_SAFE_INTEGER; lia]
  | Hj : jobTypesOf _ _ _ = Ok _ |- _ => apply jobTypesOf_ok in Hj
  end.
  assert (forall l (u : unit), match l with [] => Ok tt | _ :: _ => fails file stringify "api.keys.scopes" (JArr (map JStr l)) SCOPES_MESSAGE end = Ok u -> l = []) as Hscopes
    by (intros [|] u; [auto | discriminate]).
  repeat match goal with Hs : match ?l with [] => Ok tt | _ :: _ => _ end = Ok _ |- _ => apply Hscopes in Hs end.
  split; [|exists uses; split; [exact Huses | reflexivity]].
  split; cbn; auto.
  - eapply str_solid; [eassumption | reflexivity].
  - eapply str_solid; [eassumption|]. eapply str_solid; [eassumption | reflexivity].
  - eapply str_solid; [eassumption | reflexivity].
  - intros t ->. match goal with He : _ = Ok (Some t) |- _ => rename He into Ht end.
    destruct (getField _ "default") as [| | | | |s| | |]; try discriminate Ht. cbn in Ht.
    destruct (blank s) eqn:Eb; [discriminate Ht|]. now injection Ht as <-.
  - intros Hf. rewrite Hf in *. match goal with Hx : Ok true = Ok _ |- _ => now injection Hx end.
Qed.
End contract.

(** ** The text *)

(** The names of the [use] lines outside blocks. *)
Fixpoint usedNames (inBlock : bool) (lines : list string) : list string :=
  match lines with
  | [] => []
  | raw :: r =>
      let line := trim raw in
      if inBlock then usedNames (negb (String.eqb line "}")) r
      else match useLine line with
           | Some (name, opens) => name :: usedNames opens r
           | None => usedNames false r
           end
  end.

Lemma capabilityNamed_spec s c : capabilityNamed s = Some c <-> capabilityName c = s.
Proof.
  unfold capabilityNamed. split.
  - intros E. apply find_some in E as [_ E]. now apply String.eqb_eq.
  - intros <-. destruct c; reflexivity.
Qed.

Section text.
Variable file : string.
Variable stringify : jsval -> outcome string.

Lemma scanLines_uses lines : forall st out, scanLines file stringify st lines = Ok out ->
  forall c, In c (sn_uses out) <-> In c (sn_uses st) \/ In (capabilityName c) (usedNames match sn_block st with Some _ => true | None => false end lines).
Proof.
  induction lines as [|raw r IH]; cbn [scanLines usedNames]; intros st out E c; [injection E as ->; cbn; tauto|].
  apply obind_ok in E as (st' & Es & E). rewrite (IH _ _ E c). clear IH E. unfold scanLine in Es. cbn zeta in Es |- *.
  destruct (sn_block st) as [b|] eqn:Eb.
  - destruct (String.eqb (trim raw) "}"); [injection Es as <-; reflexivity|].
    destruct (_ && _); injection Es as <-; cbn [sn_uses sn_block]; rewrite ?Eb; reflexivity.
  - destruct (useLine (trim raw)) as [[name opens]|]; [|injection Es as <-; reflexivity].
    destruct (capabilityNamed name) as [d|] eqn:Ed; [|discriminate Es]. apply capabilityNamed_spec in Ed as <-.
    injection Es as <-. cbn [sn_uses sn_block In].
    assert (capabilityName d = capabilityName c <-> d = c) as -> by (split; [destruct d, c; (reflexivity || discriminate) | now intros ->]).
    destruct opens; tauto.
Qed.
End text.

Section claims.
Variable file : string.
Variable stringify : jsval -> outcome string.
Variable tomlParse : string -> list (string * jsval) + string.

(** C25: Every contract that is accepted is sound: names and hosts are not
    blank, the port is a port, retries, attempts and timeouts are within their
    bounds, API keys carry no scopes, and every section's switch agrees with
    its capability. *)
Theorem accepted_contract_sound source c :
  parseAppPortConfigText file stringify tomlParse source = Ok c -> wellFormedConfig c.
Proof.
  unfold parseAppPortConfigText. intros E. apply obind_ok in E as (st & _ & E).
  destruct (tomlParse _) as [raw|text]; [|discriminate E]. now apply normalizeConfig_ok in E as [Hw _].
Qed.

(** C26: A capability is enabled exactly when a [use] line outside a block
    names it, or its section is there and does not say [enabled = false]. *)
Theorem capabilities_exact source c cap :
  parseAppPortConfigText file stringify tomlParse source = Ok c ->
  (ac_capabilities c cap = true <->
   In (capabilityName cap) (usedNames false (splitOn "010" source)) \/
   exists st raw, scanLines file stringify (mkScan [] [] None) (splitOn "010" source) = Ok st /\
     tomlParse (joinLines (sn_lines st)) = inl raw /\ sectionEnables raw cap).
Proof.
  unfold parseAppPortConfigText. intros E. apply obind_ok in E as (st & Es & E).
  destruct (tomlParse _) as [raw|text] eqn:Et; [|discriminate E]. apply normalizeConfig_ok in E as (_ & uses & Hu & ->).
  assert (NoDup ALL_CAPABILITIES) as Hd by (apply (bool_decide_unpack _); vm_compute; exact I).
  pose proof (usedCapabilities_ok file stringify raw ALL_CAPABILITIES Hd _ _ Hu cap) as Huse.
  pose proof (scanLines_uses file stringify _ _ _ Es cap) as Hscan. cbn in Hscan.
  transitivity (In cap uses).
  { rewrite existsb_exists. split; [intros (x & Hx & Hb); apply bool_decide_eq_true in Hb; now subst|].
    intros Hin. exists cap. split; [exact Hin | now apply bool_decide_eq_true]. }
  assert (In cap ALL_CAPABILITIES) as Hall by (destruct cap; cbn; auto 10).
  rewrite Huse, Hscan. split.
  - intros [[[]|Hn]|[_ Hs]]; [now left | right]. eauto.
  - intros [Hn|(st' & raw' & Es' & Et' & Hs)]; [left; now right | right]. split; [exact Hall|].
    rewrite Es in Es'. injection Es' as <-. rewrite Et in Et'. now injection Et' as <-.
Qed.
End claims.

(** ** What goes wrong *)

(** The [use] line of the notifications guide, with its comment, is none: it
    is handed to the TOML parser. *)
Lemma commented_use_is_no_use : useLine (trim "use jobs            # enables durable delivery retries") = None.
Proof. reflexivity. Qed.

(** A table [api.keys] without [enabled] - with an empty list of scopes, say -
    is refused: the table itself is taken for the switch. *)
Lemma keys_table_needs_enabled file stringify :
  normalizeConfig file stringify [("api", JObj [("keys", JObj [("scopes", JArr [])])])] [] =
  fails file stringify "api.keys.enabled" (JObj [("scopes", JArr [])]) "true or false".
Proof. reflexivity. Qed.

(** Each line of a block is put under a header of its own, so a block of two
    lines defines its table twice; what follows the block stays in it. *)
Lemma block_repeats_header file stringify :
  scanLines file stringify (mkScan [] [] None) ["use api {"; "  enabled = true"; "  keys = true"; "}"; "version = 1"] =
  Ok (mkScan [CapApi] ["[api]"; "  enabled = true"; "[api]"; "  keys = true"; "version = 1"] None).
Proof. reflexivity. Qed.

(** [enabled = false] does not disable a capability that a [use] line names. *)
Lemma use_not_disabled file stringify :
  match normalizeConfig file stringify [("webhooks", JObj [("enabled", JBool false)])] [CapWebhooks] with
  | Ok c => ac_capabilities c CapWebhooks && ac_webhooks_delivery_enabled c
  | Throw _ => false
  end = true.
Proof. reflexivity. Qed.

(** ** Witnesses *)

Definition demoToml (text : string) : list (string * jsval) + string :=
  if startsWith text "port" then inl [("http", JObj [("port", JInt 9000)]); ("jobs", JObj []); ("files", JObj [("enabled", JBool false)])]
  else inr "unexpected".

Definition demoContract : string := "use api
use webhooks {
}
port = 9000".

#[local] Abbreviation demoParsed := (parseAppPortConfigText "appport.toml" (fun _ => Ok "?") demoToml demoContract).

Lemma accepted_contract_sound_witness :
  exists c, demoParsed = Ok c /\ ac_http_port c = 9000 /\ wellFormedConfig c.
Proof.
  eexists. split; [vm_compute; reflexivity|]. split; [reflexivity|].
  apply (accepted_contract_sound "appport.toml" (fun _ => Ok "?") demoToml demoContract). vm_compute. reflexivity.
Defined.

Lemma capabilities_exact_witness :
  exists c, demoParsed = Ok c /\ map (ac_capabilities c) ALL_CAPABILITIES = [true; true; true; false; false; false] /\
    (ac_capabilities c CapJobs = true <->
     In "jobs" (usedNames false (splitOn "010" demoContract)) \/
     exists st raw, scanLines "appport.toml" (fun _ => Ok "?") (mkScan [] [] None) (splitOn "010" demoContract) = Ok st /\
       demoToml (joinLines (sn_lines st)) = inl raw /\ sectionEnables raw CapJobs).
Proof.
  eexists. split; [vm_compute; reflexivity|]. split; [reflexivity|].
  apply (capabilities_exact "appport.toml" (fun _ => Ok "?") demoToml demoContract). vm_compute. reflexivity.
Defined.
