(* ===== verification/Contract.v ===== *)
(** * Contract: what the services store, and what they offer

    [contract/services-contract.ts]: the collections and indexes a host
    declares for the services it enables; [runtime/discovery.ts]: the
    catalogue of capabilities. *)

From S2P Require Import Prelude JsString Errors Models Manifest.
From Stdlib Require Import ZArith Lia Ascii.
Local Open Scope string_scope.
Local Open Scope Z_scope.

(** ** Declarations *)

Record ServicesContractField := mkContractField {
  xf_name : string;
  xf_type : string;
  xf_required : bool;
  xf_nullable : bool }.

Record ServicesContractCollection := mkContractCollection {
  xo_name : string;
  xo_fields : list ServicesContractField }.

Record ServicesContractIndex := mkContractIndex {
  xi_name : string;
  xi_collection : string;
  xi_fields : list string }.

(** [SERVICE_COLLECTIONS[name]!] may be undefined for a name without a
    declaration; that it never is, is proved. *)
Record ServicesContractFragment := mkContractFragment {
  xg_collections : list (option ServicesContractCollection);
  xg_indexes : list (option ServicesContractIndex) }.

(** [s.trim().split(/\s+/)] *)
Fixpoint words (current : string) (s : string) : list string :=
  match s with
  | EmptyString => if truthy current then [current] else []
  | String c r =>
      if isSpace c then (if truthy current then current :: words "" r else words "" r)
      else words (current ++ String c EmptyString) r
  end.

(** One entry, [name:type]: [id] is required, any other field is not. *)
Definition contractField (entry : string) : ServicesContractField :=
  let parts := splitOn ":" entry in
  let field := orElse (head parts) "" in
  let type := orElse (head (tail parts)) "" in
  if String.eqb field "id" then mkContractField field type true false else mkContractField field type false true.

Definition collection (name spec : string) : ServicesContractCollection :=
  mkContractCollection name (map contractField (words "" spec)).

Definition SERVICE_COLLECTIONS : list ServicesContractCollection := [
  collection "service_effect_evidence" "id:text application:text tenantId:text principalId:text principalType:text delegationId:text
    runId:text capability:text capabilityVersion:integer resource:text decision:text decisionId:text credentialRef:text
    credentialVersion:integer service:text provider:text requestId:text startedAt:text completedAt:text outcome:text failureCode:text";
  collection "files" "id:text tenantId:text applicationId:text owner:text name:text contentType:text size:integer checksum:text
    storageKey:text metadata:json createdAt:text updatedAt:text deletedAt:text";
  collection "file_audit_events" "id:text type:text fileId:text tenantId:text owner:text principalId:text timestamp:text result:text";
  collection "notifications" "id:text tenantId:text applicationId:text recipient:text type:text title:text body:text data:json source:json
    priority:text channels:json status:text idempotencyKey:text createdAt:text createdBy:text expiresAt:text deliveredAt:text
    failedAt:text expiredAt:text readAt:text acknowledgedAt:text dismissedAt:text";
  collection "notification_deliveries" "id:text tenantId:text notificationId:text recipient:text channel:text status:text
    idempotencyKey:text attemptCount:integer maxAttempts:integer createdAt:text lastAttemptAt:text nextAttemptAt:text deliveredAt:text
    failedAt:text failureReason:text externalId:text";
  collection "notification_audit_events" "id:text type:text notificationId:text tenantId:text recipient:text principalId:text
    timestamp:text result:text channel:text deliveryId:text";
  collection "ConfigurationVariables" "id:text tenantId:text applicationId:text environment:text name:text value:text required:boolean
    createdAt:text updatedAt:text createdBy:text";
  collection "ConfigurationSecrets" "id:text tenantId:text applicationId:text environment:text name:text credentialRef:text
    required:boolean createdAt:text updatedAt:text createdBy:text";
  collection "ConfigurationAuditEvents" "id:text type:text tenantId:text applicationId:text environment:text name:text kind:text
    actor:text timestamp:text operation:text status:text";
  collection "Secrets" "id:text tenantId:text name:text currentVersion:integer status:text providerRef:text provider:text accountId:text
    kind:text createdAt:text expiresAt:text revokedAt:text retiredAt:text createdBy:text";
  collection "SecretVersions" "id:text secretId:text tenantId:text version:integer providerRef:text status:text createdAt:text
    expiresAt:text revokedAt:text createdBy:text";
  collection "SecretAuditEvents" "id:text type:text secretId:text version:integer tenantId:text principalId:text timestamp:text
    result:text purpose:text provider:text reason:text";
  collection "api_keys" "id:text tenantId:text applicationId:text name:text keyPrefix:text secretHash:text scopes:json restrictions:json
    createdAt:text expiresAt:text revokedAt:text revokedBy:text lastUsedAt:text updatedAt:text updatedBy:text rotatedFrom:text
    rotatedTo:text rotatedAt:text createdBy:text";
  collection "api_key_prefixes" "id:text apiKeyId:text tenantId:text createdAt:text";
  collection "api_key_audit_events" "id:text type:text credentialId:text tenantId:text principalId:text timestamp:text result:text
    changes:json relatedCredentialId:text";
  collection "webhook_endpoints" "id:text tenantId:text applicationId:text url:text events:json signingCredentialRef:text createdAt:text
    createdBy:text disabledAt:text";
  collection "webhook_deliveries" "id:text tenantId:text endpointId:text eventId:text eventType:text payload:json status:text
    attemptCount:integer nextAttemptAt:text createdAt:text lastAttemptAt:text deliveredAt:text lastStatusCode:integer lastError:text
    principal:json";
  collection "webhook_audit_events" "id:text type:text endpointId:text deliveryId:text integrationId:text tenantId:text principalId:text
    timestamp:text result:text reason:text eventType:text";
  collection "webhook_integrations" "id:text tenantId:text applicationId:text provider:text principalId:text signingCredentialRef:text
    createdAt:text createdBy:text disabledAt:text";
  collection "inbound_webhook_events" "id:text integrationId:text provider:text eventId:text eventTimestamp:text acceptedAt:text tenantId:text";
  collection "jobs" "id:text tenantId:text applicationId:text type:text payload:json status:text runAt:text attemptCount:integer
    maxAttempts:integer createdAt:text startedAt:text completedAt:text nextAttemptAt:text leaseOwner:text leaseExpiresAt:text
    lastError:text principal:json";
  collection "job_schedules" "id:text tenantId:text applicationId:text type:text payload:json interval:text nextRunAt:text enabled:boolean
    createdAt:text createdBy:text principal:json";
  collection "job_audit_events" "id:text type:text jobId:text scheduleId:text tenantId:text principalId:text timestamp:text result:text details:json jobType:text" ].

(** [SERVICE_INDEXES[c.name]]: the equality index of tenant-scoped reads. *)
Definition tenantIndex (c : ServicesContractCollection) : ServicesContractIndex :=
  mkContractIndex (xo_name c ++ "_by_tenant") (xo_name c) ["tenantId"].

Definition SERVICE_INDEXES : list ServicesContractIndex := map tenantIndex SERVICE_COLLECTIONS.

Definition SHARED : list string := ["service_effect_evidence"].

(** ** Services *)

Inductive ServiceName := SFiles | SNotifications | SConfiguration | SApiKeys | SWebhooks | SJobs | SSchedules | SIntelligence.

#[global] Instance ServiceName_eq_dec : EqDecision ServiceName.
Proof. solve_decision. Defined.

Definition SERVICE_NAMES : list ServiceName :=
  [SFiles; SNotifications; SConfiguration; SApiKeys; SWebhooks; SJobs; SSchedules; SIntelligence].

Definition serviceText (s : ServiceName) : string :=
  match s with
  | SFiles => "files" | SNotifications => "notifications" | SConfiguration => "configuration" | SApiKeys => "apiKeys"
  | SWebhooks => "webhooks" | SJobs => "jobs" | SSchedules => "schedules" | SIntelligence => "intelligence"
  end.

Record ServiceRequirement := mkRequirement { sr_collections : list string; sr_requires : list ServiceName }.

Definition SERVICE_REQUIREMENTS (s : ServiceName) : ServiceRequirement :=
  match s with
  | SFiles => mkRequirement ["files"; "file_audit_events"] []
  | SNotifications => mkRequirement ["notifications"; "notification_deliveries"; "notification_audit_events"] []
  | SConfiguration => mkRequirement ["ConfigurationVariables"; "ConfigurationSecrets"; "ConfigurationAuditEvents"; "Secrets"; "SecretVersions"; "SecretAuditEvents"] []
  | SApiKeys => mkRequirement ["api_keys"; "api_key_prefixes"; "api_key_audit_events"] []
  | SWebhooks => mkRequirement ["webhook_endpoints"; "webhook_deliveries"; "webhook_audit_events"; "webhook_integrations"; "inbound_webhook_events"] []
  | SJobs => mkRequirement ["jobs"; "job_audit_events"] []
  | SSchedules => mkRequirement ["job_schedules"] [SJobs]
  | SIntelligence => mkRequirement ["ConfigurationVariables"; "ConfigurationSecrets"; "ConfigurationAuditEvents"] []
  end.

Definition serviceNamed (s : string) : option ServiceName :=
  List.find (fun n => String.eqb (serviceText n) s) SERVICE_NAMES.

(** What [name in SERVICE_REQUIREMENTS] finds on [Object.prototype]: such a
    name has no requirements to iterate over. *)
Definition INHERITED : list string :=
  ["constructor"; "__proto__"; "__defineGetter__"; "__defineSetter__"; "__lookupGetter__"; "__lookupSetter__";
   "hasOwnProperty"; "isPrototypeOf"; "propertyIsEnumerable"; "toLocaleString"; "toString"; "valueOf"].

Fixpoint joinNames (l : list string) : string :=
  match l with [] => "" | [s] => s | s :: r => s ++ ", " ++ joinNames r end.

Definition unknownService (name : string) : exn :=
  if existsb (String.eqb name) INHERITED
  then JsError "TypeError" "SERVICE_REQUIREMENTS[name].requires is not iterable"
  else JsError "TypeError" ("Unknown AppPort service " ++ quoted name ++ ". Services: " ++ joinNames (map serviceText SERVICE_NAMES) ++ ".").

Definition hasMember {A} `{EqDecision A} (x : A) (l : list A) : bool := existsb (fun y => bool_decide (x = y)) l.

(** [add]: a service and the services it requires, each once. *)
Fixpoint addService (fuel : nat) (wanted : list ServiceName) (name : ServiceName) : list ServiceName :=
  match fuel with
  | O => wanted
  | S fuel =>
      if hasMember name wanted then wanted
      else foldl (addService fuel) (wanted ++ [name])%list (sr_requires (SERVICE_REQUIREMENTS name))
  end.

(** Every service adds at most all the others. *)
Definition addFuel : nat := S (length SERVICE_NAMES).

Fixpoint addNamed (wanted : list ServiceName) (names : list string) : outcome (list ServiceName) :=
  match names with
  | [] => Ok wanted
  | name :: r =>
      match serviceNamed name with
      | Some s => addNamed (addService addFuel wanted s) r
      | None => Throw (unknownService name)
      end
  end.

(** [names.add(c)] on a set, in insertion order. *)
Definition addOnce (names : list string) (c : string) : list string :=
  if existsb (String.eqb c) names then names else (names ++ [c])%list.

Definition collectionNames (wanted : list ServiceName) : list string :=
  foldl (fun names s => foldl addOnce names (sr_collections (SERVICE_REQUIREMENTS s))) SHARED wanted.

Definition declaredCollection (name : string) : option ServicesContractCollection :=
  List.find (fun c => String.eqb (xo_name c) name) SERVICE_COLLECTIONS.

Definition declaredIndex (name : string) : option ServicesContractIndex :=
  List.find (fun i => String.eqb (xi_collection i) name) SERVICE_INDEXES.

(** The argument: some services by name, or ['all']. *)
Inductive ServicesRequest := AllServices | TheseServices (names : list string).

Definition servicesContract (services : ServicesRequest) : outcome ServicesContractFragment :=
  wanted ← addNamed [] match services with AllServices => map serviceText SERVICE_NAMES | TheseServices names => names end;
  match wanted with
  | [] => Ok (mkContractFragment [] [])
  | _ =>
      let sorted := sortBy String.leb (collectionNames wanted) in
      Ok (mkContractFragment (map declaredCollection sorted) (map declaredIndex sorted))
  end.

(** ** Discovery ([runtime/discovery.ts]) *)

Inductive CapabilityCatalogId :=
| IdApiKeys | IdWebhooks | IdJobs | IdSchedules | IdNotifications | IdFiles | IdConfiguration | IdCredentials
| IdIntelligence | IdSecrets | IdRuntimeEvents.

#[global] Instance CapabilityCatalogId_eq_dec : EqDecision CapabilityCatalogId.
Proof. solve_decision. Defined.

Record Descriptor := mkDescriptor {
  de_id : CapabilityCatalogId;
  de_name : string;
  de_contractVersion : Z;
  de_operations : list string;
  de_durable : bool;
  de_async : bool;
  de_dependencies : list string }.

Definition CAPABILITY_CATALOG : list Descriptor := [
  mkDescriptor IdApiKeys "API Keys" 1 ["create"; "read"; "update"; "rotate"; "revoke"; "revokeAll"; "audit"; "authenticate"] true false
    ["ServiceGateway"; "FeltDB"];
  mkDescriptor IdWebhooks "Webhooks" 1
    ["register"; "read"; "readDeliveries"; "disable"; "deliver"; "retry"; "replay"; "receive"; "registerIntegration"] true true
    ["ServiceGateway"; "FeltDB"; "ScopedSecretsResolver"];
  mkDescriptor IdJobs "Jobs" 1 ["create"; "read"; "execute"; "retry"] true true ["ServiceGateway"; "FeltDB"];
  mkDescriptor IdSchedules "Schedules" 1 ["create"; "read"; "cancel"; "materialize"] true true ["jobs"; "ServiceGateway"; "FeltDB"];
  mkDescriptor IdNotifications "Notifications" 1 ["create"; "read"; "deliver"; "retry"; "acknowledge"; "dismiss"; "delete"] true true
    ["ServiceGateway"; "FeltDB"; "jobs"];
  mkDescriptor IdFiles "Files" 1 ["create"; "read"; "update"; "delete"] true false ["ServiceGateway"; "FeltDB"];
  mkDescriptor IdConfiguration "Configuration" 1 ["read"; "write"; "delete"] true false ["ServiceGateway"; "FeltDB"];
  mkDescriptor IdCredentials "Credentials" 1 ["attach"; "rotate"; "detach"; "store"; "status"] true false
    ["configuration"; "ServiceGateway"; "FeltDB"; "SecretCustody"];
  mkDescriptor IdIntelligence "Intelligence" 1 ["catalog"; "read"; "write"; "credential.set"; "credential.remove"; "resolve"] true false
    ["configuration"; "ServiceGateway"; "FeltDB"];
  mkDescriptor IdSecrets "Secrets" 1 ["register"; "describe"; "list"; "rotate"; "revoke"; "retire"; "resolve"] true false
    ["AuthBoundry"; "AppBoundry"; "FeltDB"];
  mkDescriptor IdRuntimeEvents "Runtime Events" 1 ["publish"; "subscribe"; "stream"] false true ["AppPortEvents"] ].

Record RuntimeCapabilityDescriptor := mkRuntimeDescriptor { rd_descriptor : Descriptor; rd_runtimeMounted : bool }.

(** [describeCapabilities(mounted)], [mounted] given by the ids it mentions. *)
Definition describeCapabilities (mounted : CapabilityCatalogId -> option bool) : list RuntimeCapabilityDescriptor :=
  map (fun d => mkRuntimeDescriptor d (orElse (mounted (de_id d)) false)) CAPABILITY_CATALOG.
