(* ===== verification/ContractProps.v ===== *)
(** * ContractProps: the fragment a host declares *)

From S2P Require Import Prelude JsString Errors Models Manifest Contract.
From Stdlib Require Import ZArith Lia Ascii.
From stdpp Require Import sorting.
Local Open Scope string_scope.
Local Open Scope Z_scope.

(** ** What the services need *)

(** Reachable through the services' requirements. *)
Inductive needs : ServiceName -> ServiceName -> Prop :=
| needs_self s : needs s s
| needs_step s t u : In t (sr_requires (SERVICE_REQUIREMENTS s)) -> needs t u -> needs s u.

(** What a host that enables the named services stores. *)
Definition stored (names : list string) (c : string) : Prop :=
  names <> [] /\ (In c SHARED \/
    exists n s t, In n names /\ serviceNamed n = Some s /\ needs s t /\ In c (sr_collections (SERVICE_REQUIREMENTS t))).

Lemma hasMember_spec {A} `{EqDecision A} (x : A) l : hasMember x l = true <-> In x l.
Proof.
  unfold hasMember. rewrite existsb_exists. split; [intros (y & Hy & E%bool_decide_eq_true); now subst|].
  intros Hx. exists x. split; [exact Hx | now apply bool_decide_eq_true].
Qed.

Lemma addOnce_in names c d : In d (addOnce names c) <-> In d names \/ d = c.
Proof.
  unfold addOnce. destruct (existsb (String.eqb c) names) eqn:E; [|rewrite in_app_iff; cbn; intuition congruence].
  apply existsb_exists in E as (y & Hy & ->%String.eqb_eq). split; [auto | intros [?| ->]; assumption].
Qed.

Lemma addOnce_nodup names c : NoDup names -> NoDup (addOnce names c).
Proof.
  intros Hd. unfold addOnce. destruct (existsb (String.eqb c) names) eqn:E; [exact Hd|]. apply NoDup_app. split; [exact Hd|].
  split; [|apply NoDup_singleton]. intros x Hx ->%list_elem_of_singleton. apply list_elem_of_In in Hx.
  assert (existsb (String.eqb c) names = true) by (apply existsb_exists; exists c; split; [exact Hx | apply String.eqb_refl]). congruence.
Qed.

Lemma addAll_spec cs : forall names, NoDup names -> NoDup (foldl addOnce names cs) /\
  forall d, In d (foldl addOnce names cs) <-> In d names \/ In d cs.
Proof.
  induction cs as [|c cs IH]; cbn; intros names Hd; [split; [exact Hd | tauto]|].
  destruct (IH _ (addOnce_nodup names c Hd)) as [H1 H2]. split; [exact H1|]. intros d. rewrite H2, addOnce_in. intuition congruence.
Qed.

Lemma collectionNames_spec wanted : NoDup (collectionNames wanted) /\
  forall d, In d (collectionNames wanted) <-> In d SHARED \/ exists s, In s wanted /\ In d (sr_collections (SERVICE_REQUIREMENTS s)).
Proof.
  unfold collectionNames. assert (NoDup SHARED) as Hd by apply NoDup_singleton. revert Hd. generalize SHARED.
  induction wanted as [|s wanted IH]; cbn [foldl]; intros names Hd.
  - split; [exact Hd|]. intros d. split; [auto | intros [?|(? & [] & _)]; assumption].
  - destruct (addAll_spec (sr_collections (SERVICE_REQUIREMENTS s)) names Hd) as [H1 H2].
    destruct (IH _ H1) as [H3 H4]. split; [exact H3|]. intros d. rewrite H4, H2. split.
    + intros [[?|?]|(t & Ht & Hdt)]; [auto | right; exists s; split; [now left | assumption] | right; exists t; split; [now right | assumption]].
    + intros [?|(t & [<-|Ht] & Hdt)]; [auto | auto | right; eauto].
Qed.

(** A set of services with everything they need. *)
Definition closed (wanted : list ServiceName) : Prop := forall s t, In s wanted -> needs s t -> In t wanted.

Lemma needs_cases s t : needs s t <-> t = s \/ s = SSchedules /\ t = SJobs.
Proof.
  split.
  - induction 1 as [s|s t u Ht Hn IH]; [now left|].
    destruct s; cbn in Ht; try destruct Ht as [<-|[]]; try destruct Ht. destruct IH as [->|[? _]]; [now right | discriminate].
  - intros [->|[-> ->]]; [constructor | eapply needs_step; [now left | constructor]].
Qed.

Lemma addService_spec wanted s : closed wanted -> closed (addService addFuel wanted s) /\
  forall t, In t (addService addFuel wanted s) <-> In t wanted \/ needs s t.
Proof.
  intros Hc.
  assert (forall t, In t (addService addFuel wanted s) <-> In t wanted \/ needs s t) as Hin.
  { intros t. rewrite needs_cases. unfold addFuel. cbn [SERVICE_NAMES length addService].
    destruct (hasMember s wanted) eqn:E.
    - apply hasMember_spec in E. split; [auto|]. intros [?|[->|[-> ->]]]; [assumption.. |]. apply (Hc SSchedules); [exact E | now apply needs_cases; right].
    - destruct s; cbn [SERVICE_REQUIREMENTS sr_requires foldl]; rewrite ?in_app_iff; cbn [In]; try (intuition (congruence || discriminate)).
      cbn [SERVICE_REQUIREMENTS sr_requires foldl]. destruct (hasMember SJobs (wanted ++ [SSchedules])) eqn:Ej.
      + apply hasMember_spec in Ej. rewrite in_app_iff in *. cbn [In] in *. intuition (subst; auto || discriminate).
      + rewrite !in_app_iff. cbn [In]. intuition (subst; auto || discriminate). }
  split; [|exact Hin]. intros a b Ha Hab. apply Hin in Ha as [Ha|Ha]; apply Hin; [left; eapply Hc; eassumption|].
  right. rewrite needs_cases in *. intuition (subst; auto || discriminate).
Qed.

Lemma addNamed_spec names : forall wanted out, closed wanted -> addNamed wanted names = Ok out ->
  forall t, In t out <-> In t wanted \/ exists n s, In n names /\ serviceNamed n = Some s /\ needs s t.
Proof.
  induction names as [|n names IH]; cbn [addNamed]; intros wanted out Hc E t.
  - injection E as <-. split; [auto | intros [?|(? & ? & [] & _)]; assumption].
  - destruct (serviceNamed n) as [s|] eqn:En; [|discriminate E]. destruct (addService_spec wanted s Hc) as [Hc' Hin].
    rewrite (IH _ _ Hc' E t), Hin. split.
    + intros [[?|?]|(m & u & Hm & Hu & Hn)]; [auto | right; exists n, s; cbn; auto | right; exists m, u; cbn; auto].
    + intros [?|(m & u & [<-|Hm] & Hu & Hn)]; [auto | rewrite En in Hu; injection Hu as <-; auto | right; eauto].
Qed.

Lemma addNamed_total names wanted : (forall n, In n names -> serviceNamed n <> None) -> exists out, addNamed wanted names = Ok out.
Proof.
  revert wanted. induction names as [|n names IH]; cbn [addNamed]; intros wanted Hk; [eauto|].
  destruct (serviceNamed n) as [s|] eqn:En; [|now destruct (Hk n (or_introl eq_refl))]. apply IH. intros m Hm. apply Hk. now right.
Qed.

(** Every name a service stores under is declared once, with its index. *)
Lemma declarations_complete c :
  (In c SHARED \/ exists s, In c (sr_collections (SERVICE_REQUIREMENTS s))) ->
  exists d, declaredCollection c = Some d /\ xo_name d = c /\ declaredIndex c = Some (tenantIndex d).
Proof.
  intros Hc. assert (In c (SHARED ++ concat (map (fun s => sr_collections (SERVICE_REQUIREMENTS s)) SERVICE_NAMES))) as Hin.
  { apply in_app_iff. destruct Hc as [Hc|(s & Hs)]; [now left | right]. apply in_concat.
    exists (sr_collections (SERVICE_REQUIREMENTS s)). split; [|exact Hs]. apply in_map_iff. exists s. split; [reflexivity | destruct s; cbn; auto 10]. }
  revert c Hc Hin. assert (List.Forall (fun c => exists d, declaredCollection c = Some d /\ xo_name d = c /\ declaredIndex c = Some (tenantIndex d))
    (SHARED ++ concat (map (fun s => sr_collections (SERVICE_REQUIREMENTS s)) SERVICE_NAMES))) as Hall.
  { repeat (constructor; [eexists; split; [vm_compute; reflexivity | split; vm_compute; reflexivity]|]). constructor. }
  intros c _ Hin. rewrite List.Forall_forall in Hall. exact (Hall c Hin).
Qed.

Definition strOrder (a b : string) : Prop := String.leb a b = true.

Lemma strOrder_cons x a y b : strOrder (String x a) (String y b) <->
  (N_of_ascii x < N_of_ascii y)%N \/ x = y /\ strOrder a b.
Proof.
  unfold strOrder, String.leb. cbn [String.compare]. unfold Ascii.compare.
  destruct (N.compare_spec (N_of_ascii x) (N_of_ascii y)) as [E|E|E].
  - apply (f_equal ascii_of_N) in E. rewrite !ascii_N_embedding in E. subst y. split; [auto|].
    intros [Hlt|[_ ?]]; [now apply N.lt_irrefl in Hlt | assumption].
  - split; [auto | reflexivity].
  - split; [discriminate|]. intros [Hlt|[-> _]]; [now apply (N.lt_asymm _ _ E) in Hlt | now apply N.lt_irrefl in E].
Qed.

#[local] Instance strOrder_trans : Transitive strOrder.
Proof.
  intros a. induction a as [|x a IH]; intros [|y b] [|z c] Hab Hbc; try reflexivity; try discriminate Hab; try discriminate Hbc.
  apply strOrder_cons in Hab as [H1|[-> H1]], Hbc as [H2|[-> H2]]; apply strOrder_cons; eauto using N.lt_trans.
Qed.

#[local] Instance strOrder_antisymm : AntiSymm (=) strOrder.
Proof. intros a b Hab Hba. exact (String.leb_antisym a b Hab Hba). Qed.

Lemma leb_false a b : String.leb a b = false -> String.leb b a = true.
Proof. intros E. destruct (String.leb_total a b); congruence. Qed.

(** Two ways to the same names sort to the same list. *)
Lemma sorted_names l m : NoDup l -> NoDup m -> (forall c, In c l <-> In c m) -> sortBy String.leb l = sortBy String.leb m.
Proof.
  intros Hl Hm Hlm. apply (Sorted_unique strOrder); [apply sortBy_sorted, leb_false..|].
  rewrite !sortBy_perm. apply NoDup_Permutation; [exact Hl | exact Hm|]. intros c. rewrite !list_elem_of_In. apply Hlm.
Qed.

(** The accepted names, and what comes of them. *)
Lemma contract_run names fragment : servicesContract (TheseServices names) = Ok fragment ->
  exists l, NoDup l /\ (forall c, In c l <-> stored names c) /\
    fragment = mkContractFragment (map declaredCollection (sortBy String.leb l)) (map declaredIndex (sortBy String.leb l)).
Proof.
  unfold servicesContract. intros E. apply obind_ok in E as (wanted & Ew & E).
  assert (closed []) as Hc by (intros s t []). pose proof (addNamed_spec names [] wanted Hc Ew) as Hin.
  destruct names as [|n names].
  - cbn in Ew. injection Ew as <-. injection E as <-. exists []. split; [constructor|]. split; [|reflexivity].
    intros c. split; [intros [] | intros [Hne _]; congruence].
  - destruct wanted as [|s wanted].
    { exfalso. cbn [addNamed] in Ew. destruct (serviceNamed n) as [s|] eqn:En; [|discriminate Ew].
      destruct (proj2 (Hin s)) as []. right. exists n, s. split; [now left|]. split; [exact En | constructor]. }
    injection E as <-. destruct (collectionNames_spec (s :: wanted)) as [Hd Hl]. exists (collectionNames (s :: wanted)).
    split; [exact Hd|]. split; [|reflexivity]. intros c. rewrite Hl. unfold stored. split.
    + intros [?|(t & Ht & Hct)]; (split; [discriminate|]); [now left | right].
      apply Hin in Ht as [[]|(m & u & Hm & Hu & Hn)]. eauto 10.
    + intros [_ [?|(m & u & t & Hm & Hu & Hn & Hct)]]; [now left | right]. exists t. split; [apply Hin; right; eauto | exact Hct].
Qed.

Lemma stored_declared names c : stored names c -> exists d, declaredCollection c = Some d /\ xo_name d = c /\ declaredIndex c = Some (tenantIndex d).
Proof. intros [_ [?|(n & s & t & _ & _ & _ & Hc)]]; apply declarations_complete; eauto. Qed.

Lemma accepted_known names : forall wanted out, addNamed wanted names = Ok out -> forall n, In n names -> serviceNamed n <> None.
Proof.
  induction names as [|m r IH]; intros wanted out E n Hn; [destruct Hn|]. cbn [addNamed] in E.
  destruct (serviceNamed m) as [s|] eqn:Em; [|discriminate E]. destruct Hn as [->|Hn]; [congruence | exact (IH _ _ E n Hn)].
Qed.

Lemma stored_same names names' c : (forall n, In n names <-> In n names') -> stored names c -> stored names' c.
Proof.
  intros Hsame [Hne Hc]. split.
  - intros ->. destruct names as [|n r]; [congruence|]. now destruct (proj1 (Hsame n) (or_introl eq_refl)).
  - destruct Hc as [?|(n & s & t & Hn & Hr)]; [now left | right]. exists n, s, t. split; [now apply Hsame | exact Hr].
Qed.

(** The same services, in any order and however often, give the same. *)
Lemma contract_same names names' fragment : servicesContract (TheseServices names) = Ok fragment ->
  (forall n, In n names <-> In n names') -> servicesContract (TheseServices names') = Ok fragment.
Proof.
  intros E Hsame. assert (exists fragment', servicesContract (TheseServices names') = Ok fragment') as [fragment' E'].
  { unfold servicesContract in E |- *. apply obind_ok in E as (w & Ew & _).
    destruct (addNamed_total names' []) as [wanted ->]; [|cbn; destruct wanted; eauto].
    intros n Hn. apply Hsame in Hn. exact (accepted_known _ _ _ Ew n Hn). }
  rewrite E'. apply contract_run in E as (l & Hd & Hl & ->), E' as (l' & Hd' & Hl' & ->).
  rewrite (sorted_names l l' Hd Hd'); [reflexivity|]. intros c. rewrite Hl, Hl'.
  split; apply stored_same; [exact Hsame | intros n; now rewrite Hsame].
Qed.

(** C27: The fragment for a set of known services declares exactly the
    collections they and the services they need store, and the shared
    evidence, each once and in name order, each with its declaration and the
    index of its tenant; whoever asks for the same services, in any order and
    however often, gets the same fragment. *)
Theorem contract_exact names fragment :
  servicesContract (TheseServices names) = Ok fragment ->
  exists declarations,
    xg_collections fragment = map Some declarations /\
    xg_indexes fragment = map (fun d => Some (tenantIndex d)) declarations /\
    (forall d, In d declarations <-> stored names (xo_name d) /\ declaredCollection (xo_name d) = Some d) /\
    (forall c, stored names c -> In c (map xo_name declarations)) /\
    NoDup (map xo_name declarations) /\
    Sorted (fun a b => String.leb (xo_name a) (xo_name b) = true) declarations /\
    forall names', (forall n, In n names <-> In n names') -> servicesContract (TheseServices names') = Ok fragment.
Proof.
  intros E. pose proof E as Erun. apply contract_run in E as (l & Hd & Hl & ->). cbn [xg_collections xg_indexes].
  set (sorted := sortBy String.leb l).
  assert (forall c, In c sorted <-> stored names c) as Hs.
  { intros c. rewrite <- Hl. unfold sorted. rewrite <- !list_elem_of_In. now rewrite sortBy_perm. }
  assert (NoDup sorted) as Hsd by (unfold sorted; now rewrite sortBy_perm).
  assert (Sorted (fun a b => String.leb a b = true) sorted) as Hss by apply sortBy_sorted, leb_false.
  set (declare := fun c => orElse (declaredCollection c) (mkContractCollection c [])).
  assert (forall c, In c sorted -> declaredCollection c = Some (declare c) /\ xo_name (declare c) = c /\ declaredIndex c = Some (tenantIndex (declare c))) as Hdecl.
  { intros c Hc. apply Hs, stored_declared in Hc as (d & Ed & En & Ei). unfold declare. rewrite Ed. cbn. auto. }
  exists (map declare sorted).
  assert (map xo_name (map declare sorted) = sorted) as Hnames.
  { rewrite map_map. rewrite <- (map_id sorted) at 2. apply map_ext_in. intros c Hc. apply Hdecl, Hc. }
  split; [rewrite map_map; apply map_ext_in; intros c Hc; apply Hdecl, Hc|].
  split; [rewrite map_map; apply map_ext_in; intros c Hc; apply Hdecl, Hc|].
  split; [|split; [|split; [|split]]].
  - intros d. rewrite in_map_iff. split.
    + intros (c & <- & Hc). destruct (Hdecl c Hc) as (Ed & En & _). rewrite En. split; [now apply Hs | exact Ed].
    + intros [Hst Ed]. exists (xo_name d). split; [|now apply Hs]. unfold declare. now rewrite Ed.
  - intros c Hc. rewrite Hnames. now apply Hs.
  - now rewrite Hnames.
  - clear -Hss Hdecl. assert (forall c, In c sorted -> xo_name (declare c) = c) as Hn by (intros c Hc; apply Hdecl, Hc). clear Hdecl.
    induction Hss as [|c r Hr IH Hc]; cbn; [constructor|]. constructor; [apply IH; intros; apply Hn; now right|].
    destruct Hc as [|e r Hce]; cbn; constructor. rewrite !Hn; [exact Hce | cbn; auto..].
  - intros names' Hsame. exact (contract_same names names' _ Erun Hsame).
Qed.

(** Notifications that are retried are retried by jobs, as the catalogue says,
    but a host that enables notifications alone declares no collection for
    them. *)
Lemma notifications_without_jobs :
  existsb (fun d => bool_decide (de_id d = IdNotifications) && existsb (String.eqb "jobs") (de_dependencies d)) CAPABILITY_CATALOG = true /\
  sr_requires (SERVICE_REQUIREMENTS SNotifications) = [] /\
  exists fragment, servicesContract (TheseServices ["notifications"]) = Ok fragment /\
    existsb (fun o => match o with Some d => String.eqb (xo_name d) "jobs" | None => false end) (xg_collections fragment) = false.
Proof. split; [reflexivity|]. split; [reflexivity|]. eexists. split; [vm_compute; reflexivity | reflexivity]. Qed.

Lemma contract_exact_witness :
  exists fragment, servicesContract (TheseServices ["schedules"; "files"; "schedules"]) = Ok fragment /\
    map (fun o => match o with Some d => xo_name d | None => "" end) (xg_collections fragment) =
      ["file_audit_events"; "files"; "job_audit_events"; "job_schedules"; "jobs"; "service_effect_evidence"] /\
    servicesContract (TheseServices ["files"; "schedules"]) = Ok fragment.
Proof.
  eexists. split; [vm_compute; reflexivity|]. split; [reflexivity|].
  edestruct (contract_exact ["schedules"; "files"; "schedules"]) as (_ & _ & _ & _ & _ & _ & _ & Hsame); [vm_compute; reflexivity|].
  apply Hsame. intros n. cbn. tauto.
Defined.
