(* ===== verification/Platform.v ===== *)
(** * Platform: the HTTP runtime ([runtime/platform.ts])

    Which requests reach the management routes, a stream, the application's
    routes or nobody: the application's operations, the host's route handlers,
    the URL parser and [JSON.parse] are parameters.  A reply is what the
    response is given; the management router is only named. *)

From S2P Require Import Prelude JsString JsTime Errors Models Store Principal Webhooks Dsl Events.
From Stdlib Require Import ZArith Lia Ascii.
Local Open Scope string_scope.
Local Open Scope Z_scope.

(** ** Requests and replies *)

(** A request: [body] is the whole text, if any chunk came. *)
Record HttpRequest := mkHttpRequest {
  hq_method : option string;
  hq_url : option string;
  hq_path : string;
  hq_headers : list (string * HeaderValue);
  hq_body : option string }.

Inductive Reply :=
| Json (status : Z) (body : jsval)
| NoContent
| EventStream (tenantId : string) (after : Cut)
| ToManagement.

Definition ResponseHeaders : Type := list (string * string).

Definition httpError (status : Z) (code message : string) : exn := Errors.HttpError status code message.

(** [request.headers[name]], the first of several. *)
Definition firstHeader (request : HttpRequest) (name : string) : option string :=
  match List.find (fun h => String.eqb (fst h) name) (hq_headers request) with
  | Some (_, HOne v) => Some v
  | Some (_, HMany l) => head l
  | _ => None
  end.

Definition recordOf (value : jsval) : outcome (list (string * jsval)) :=
  match value with JObj fields => Ok fields | _ => Throw (httpError 400 "INVALID_INPUT" "Expected a JSON object") end.

Definition textOf (value : jsval) (property : string) : outcome string :=
  match value with
  | JStr s => if truthy s then Ok s else Throw (httpError 400 "INVALID_INPUT" (property ++ " must be a non-empty string"))
  | _ => Throw (httpError 400 "INVALID_INPUT" (property ++ " must be a non-empty string"))
  end.

Definition MANAGEMENT_PREFIXES : list string :=
  ["/_appport/api/keys"; "/_appport/webhooks"; "/_appport/jobs"; "/_appport/schedules"; "/_appport/files"; "/_appport/notifications"].

Definition isManagementServicePath (path : string) : bool :=
  existsb (fun prefix => String.eqb path prefix || startsWith path (prefix ++ "/")) MANAGEMENT_PREFIXES.

(** [/_appport/webhooks/inbound/<id>]: the encoded id. *)
Definition inboundPath (pathname : string) : option string :=
  let prefix := "/_appport/webhooks/inbound/" in
  let id := sliceFrom (String.length prefix) pathname in
  if startsWith pathname prefix && truthy id && negb (any (fun c => Ascii.eqb c "/") id) then Some id else None.

(** The cross-origin headers of every response. *)
Definition corsHeaders (config : AppPortConfig) (request : HttpRequest) : ResponseHeaders :=
  if negb (ac_cors_enabled config) then []
  else
    let origins := ac_cors_origins config in
    ((if existsb (String.eqb "*") origins then [("access-control-allow-origin", "*")]
      else match firstHeader request "origin" with
           | Some origin => if truthy origin && existsb (String.eqb origin) origins then [("access-control-allow-origin", origin)] else []
           | None => []
           end)
     ++ [("access-control-allow-headers", "authorization, content-type, x-appport-tenant");
         ("access-control-allow-methods", "GET, POST, PUT, PATCH, DELETE, OPTIONS")])%list.

(** The services whose management routes are mounted. *)
Record ManagementServices := mkManagementServices {
  ms_apiKeys : bool; ms_webhooks : bool; ms_jobs : bool; ms_schedules : bool; ms_notifications : bool; ms_files : bool }.

Definition managementServices (config : AppPortConfig) : ManagementServices :=
  let declared := ac_capabilities config in
  mkManagementServices (declared CapApi && ac_api_keys_enabled config) (declared CapWebhooks) (declared CapJobs) (declared CapJobs)
    (declared CapNotifications) (declared CapFiles).

(** ** The application *)

Section runtime.
Context {DB : Type}.

Record RouteContext := mkRouteContext {
  rx_request : HttpRequest;
  rx_body : jsval;
  rx_tenantId : string;
  rx_principal : option VerifiedPrincipal }.

Definition RouteHandler : Type := RouteContext -> M DB jsval.

(** For whom an event is published: a principal, or a tenant that was named. *)
Inductive Publisher := AsPrincipal (p : VerifiedPrincipal) | ForTenant (tenantId : option string).

Record Application := mkApplication {
  pa_contract : AppPortConfig;
  pa_discovery : jsval;
  pa_overview : M DB jsval;
  pa_authenticate : HttpRequest -> M DB (option VerifiedPrincipal);
  pa_receiveWebhook : string -> list (string * HeaderValue) -> string -> M DB jsval;
  pa_publish : string -> list (string * jsval) -> Publisher -> M DB jsval }.

Variable application : Application.
Variable routes : list (string * RouteHandler).
(** [new URL(url, base).pathname] *)
Variable pathnameOf : string -> outcome string.
(** [decodeURIComponent] *)
Variable decode : string -> outcome string.
(** [JSON.parse] *)
Variable parseJson : string -> option jsval.
(** [Number(text)], as a cut among event ids. *)
Variable numberOf : string -> Cut.
(** The [status] and [code] properties of an error this program did not make. *)
Variable foreign : exn -> option Z * option string.

Definition contract : AppPortConfig := pa_contract application.

Definition readJson (request : HttpRequest) : outcome jsval :=
  match hq_body request with
  | None => Ok JUndef
  | Some text =>
      match parseJson text with
      | Some v => Ok v
      | None => Throw (httpError 400 "INVALID_JSON" "Request body must be valid JSON")
      end
  end.

(** [authenticate(application, request)] *)
Definition authenticateRequest (request : HttpRequest) : M DB (option VerifiedPrincipal) :=
  if negb (ac_authorization_enabled contract) then mret None
  else
    principal ← pa_authenticate application request;
    match principal with
    | Some p => mret (Some p)
    | None =>
        if match firstHeader request "authorization" with Some a => startsWith a "Bearer " | None => false end
        then throw (httpError 403 "INVALID_CREDENTIAL" "Credential is invalid")
        else match ac_authorization_default contract with
             | AuthDeny => throw (httpError 401 "UNAUTHENTICATED" "Bearer credential required")
             | AuthAllow => mret None
             end
    end.

(** [principal?.tenantId ?? header ?? default] *)
Definition requestTenant (principal : option VerifiedPrincipal) (request : HttpRequest) : option string :=
  match principal with
  | Some p => Some (vp_tenantId p)
  | None =>
      match firstHeader request "x-appport-tenant" with
      | Some t => Some t
      | None => ac_tenant_default contract
      end
  end.

Definition given_ (tenantId : option string) : bool := match tenantId with Some t => truthy t | None => false end.

(** [request.method ?? 'GET'], and the name of a route. *)
Definition routeName (request : HttpRequest) (pathname : string) : string := orElse (hq_method request) "GET" ++ " " ++ pathname.

Definition isMethod (request : HttpRequest) (method : string) : bool := oeqb (hq_method request) (Some method).

(** [result ?? null] *)
Definition orNull (v : jsval) : jsval := match v with JUndef => JNull | v => v end.

(** What follows authentication. *)
Definition serveRoute (request : HttpRequest) (pathname : string) (principal : option VerifiedPrincipal) : M DB Reply :=
  let tenantId := requestTenant principal request in
  if negb (given_ tenantId) && match ac_tenant_mode contract with TenantRequired => true | _ => false end
  then throw (httpError 400 "TENANT_REQUIRED" "A tenant is required")
  else if String.eqb pathname "/_appport/events" && isMethod request "GET" && ac_events_streaming_enabled contract
  then mret (EventStream (orElse tenantId "default") match firstHeader request "last-event-id" with Some t => numberOf t | None => CutAt 0 end)
  else if String.eqb pathname "/_appport/overview" then body ← pa_overview application; mret (Json 200 body)
  else if String.eqb pathname "/_appport/capabilities" then
    if negb (isMethod request "GET")
    then throw (httpError 405 "METHOD_NOT_ALLOWED" "Capability discovery is available only through GET /_appport/capabilities")
    else mret (Json 200 (pa_discovery application))
  else if String.eqb pathname "/_appport/events" && isMethod request "POST" then
    json ← ofOutcome (readJson request);
    body ← ofOutcome (recordOf json);
    type ← ofOutcome (textOf (getField body "type") "type");
    data ← ofOutcome (recordOf (nullish (getField body "data") (JObj [])));
    event ← pa_publish application type data match principal with Some p => AsPrincipal p | None => ForTenant tenantId end;
    mret (Json 201 event)
  else
    match List.find (fun e => String.eqb (fst e) (routeName request pathname)) routes with
    | None => throw (httpError 404 "NOT_FOUND" "Route not found")
    | Some (_, handler) =>
        body ← ofOutcome (readJson request);
        result ← handler (mkRouteContext request body (orElse tenantId "default") principal);
        mret (Json 200 (orNull result))
    end.

Definition serveRequest (request : HttpRequest) : M DB Reply :=
  pathname ← ofOutcome (pathnameOf (orElse (hq_url request) "/"));
  if String.eqb pathname "/_appport/health"
  then mret (Json 200 (JObj [("ok", JBool true); ("application", JStr (ac_application_name contract))]))
  else
    match inboundPath pathname, isMethod request "POST" with
    | Some id, true =>
        integrationId ← ofOutcome (decode id);
        result ← pa_receiveWebhook application integrationId (hq_headers request) (orElse (hq_body request) "");
        mret (Json 202 result)
    | _, _ =>
        principal ← authenticateRequest request;
        serveRoute request pathname principal
    end.

(** The status and code an error has, or their defaults. *)
Definition statusOf (e : exn) : Z :=
  match e with
  | ServiceAuthorityError c _ _ => STATUS c
  | Errors.HttpError status _ _ => status
  | SecretError _ _ => 500
  | e => orElse (fst (foreign e)) 500
  end.

Definition codeOf (e : exn) : string :=
  match e with
  | ServiceAuthorityError c _ _ => codeName c
  | Errors.HttpError _ code _ => code
  | SecretError code _ => code
  | e => orElse (snd (foreign e)) "INTERNAL_ERROR"
  end.

Definition errorBody (e : exn) : jsval :=
  JObj [("error", JObj [("code", JStr (codeOf e)); ("message", JStr (errorMessage e))])].

Definition dispatch (request : HttpRequest) : M DB Reply :=
  tryCatch (serveRequest request) (fun e => mret (Json (statusOf e) (errorBody e))).

(** Every response of the runtime. *)
Definition handleRequest (request : HttpRequest) : M DB (ResponseHeaders * Reply) :=
  let headers := corsHeaders contract request in
  if isMethod request "OPTIONS" then mret (headers, NoContent)
  else if isManagementServicePath (hq_path request) then mret (headers, ToManagement)
  else reply ← dispatch request; mret (headers, reply).
End runtime.
Arguments Application : clear implicits.
Arguments RouteHandler : clear implicits.
