(* ===== verification/PlatformProps.v ===== *)
(** * PlatformProps: who reaches what over HTTP *)

From S2P Require Import Prelude JsString JsTime Errors Models Store Calm MemStore Principal Webhooks Dsl Events Platform Demo.
From Stdlib Require Import ZArith Lia Ascii.
Local Open Scope string_scope.
Local Open Scope Z_scope.

Section runtime.
Context {DB : Type}.
Variable pathnameOf : string -> outcome string.
Variable decode : string -> outcome string.
Variable parseJson : string -> option jsval.
Variable numberOf : string -> Cut.
Variable foreign : exn -> option Z * option string.
Implicit Types (application : Application DB) (request : HttpRequest).

#[local] Abbreviation reply app routes := (dispatch app routes pathnameOf decode parseJson numberOf foreign).

(** A request that is neither the health probe nor an inbound webhook. *)
Definition ordinary request (pathname : string) : Prop :=
  pathnameOf (orElse (hq_url request) "/") = Ok pathname /\ String.eqb pathname "/_appport/health" = false /\
  (inboundPath pathname = None \/ isMethod request "POST" = false).

Lemma dispatch_ordinary application routes request pathname : ordinary request pathname ->
  reply application routes request =
  tryCatch (principal ← authenticateRequest application request;
            serveRoute application routes parseJson numberOf request pathname principal)
    (fun e => mret (Json (statusOf foreign e) (errorBody foreign e))).
Proof.
  intros (Hp & Hh & Hi). unfold dispatch, serveRequest. rewrite Hp. cbn [ofOutcome].
  f_equal. change ((ofOutcome (Ok pathname) : M DB string) ≫= ?k) with (k pathname). cbv beta. rewrite Hh.
  destruct (inboundPath pathname) as [id|]; [|reflexivity]. destruct Hi as [Hi|Hi]; [discriminate|]. now rewrite Hi.
Qed.

(** Where authorization is enabled and denies by default, a request
    without an identity reaches nothing: beyond the health probe and the
    inbound webhooks, whatever it asks, no route, stream, event or discovery
    is served - the reply is 401 or 403, and the store is as authenticating
    the request left it. *)
Theorem unidentified_stopped application routes request pathname w w' :
  ac_authorization_enabled (pa_contract application) = true ->
  ac_authorization_default (pa_contract application) = AuthDeny ->
  ordinary request pathname ->
  pa_authenticate application request w = (w', Ok None) ->
  exists status body, (status = 401 \/ status = 403) /\ reply application routes request w = (w', Ok (Json status body)).
Proof.
  intros He Hd Ho Ha. rewrite (dispatch_ordinary _ _ _ _ Ho). unfold authenticateRequest, contract. rewrite He, Hd. cbn [negb].
  unfold tryCatch, mbind, M_bind. rewrite Ha. cbn [ofOutcome].
  destruct (match firstHeader request "authorization" with Some a => startsWith a "Bearer " | None => false end);
    cbn; eauto 6.
Qed.

(** Routes that do the same for one tenant and principal. *)
Definition sameFor (p : VerifiedPrincipal) (routes routes' : list (string * RouteHandler DB)) : Prop :=
  Forall2 (fun e e' => fst e = fst e' /\ forall context, rx_tenantId context = vp_tenantId p ->
     rx_principal context = Some p -> snd e context = snd e' context) routes routes'.

Lemma sameFor_find p routes routes' name : sameFor p routes routes' ->
  match List.find (fun e => String.eqb (fst e) name) routes, List.find (fun e => String.eqb (fst e) name) routes' with
  | Some (_, h), Some (_, h') => forall context, rx_tenantId context = vp_tenantId p -> rx_principal context = Some p -> h context = h' context
  | None, None => True
  | _, _ => False
  end.
Proof.
  induction 1 as [|[n h] [n' h'] l l' [E Hh] _ IH]; cbn in *; [exact I|]. subst n'. destruct (String.eqb n name); [exact Hh | exact IH].
Qed.

(** Only a stream tells a tenant. *)
Definition streams (tenantId : string) (o : outcome Reply) : Prop :=
  match o with Ok (EventStream t _) => t = tenantId | _ => True end.

Lemma streams_bind {A} tenantId (m : M DB A) (k : A -> Reply) w :
  (forall a, match k a with EventStream _ _ => False | _ => True end) -> streams tenantId ((a ← m; mret (k a)) w).2.
Proof.
  intros Hk. unfold mbind, M_bind. destruct (m w) as [w1 [a|e]]; [|exact I]. cbn. specialize (Hk a). now destruct (k a).
Qed.

Lemma serveRoute_tenant application routes request pathname p w : streams (vp_tenantId p)
  (serveRoute application routes parseJson numberOf request pathname (Some p) w).2.
Proof.
  unfold serveRoute. cbn [requestTenant given_]. repeat (case_match; try exact I); try (apply streams_bind; intros; exact I).
  all: repeat match goal with
  | |- streams _ ((_ ← ofOutcome ?o; _) _).2 => destruct o as [?|?]; [|exact I]; cbn [ofOutcome]; change (((ofOutcome (Ok ?a) : M DB _) ≫= ?k) w) with (k a w); cbv beta
  end; try reflexivity; apply streams_bind; intros; exact I.
Qed.

Lemma serveRoute_same application application' routes routes' request pathname p w :
  pa_contract application = pa_contract application' -> pa_discovery application = pa_discovery application' ->
  pa_overview application = pa_overview application' ->
  (forall type data, pa_publish application type data (AsPrincipal p) = pa_publish application' type data (AsPrincipal p)) ->
  sameFor p routes routes' ->
  serveRoute application routes parseJson numberOf request pathname (Some p) w =
  serveRoute application' routes' parseJson numberOf request pathname (Some p) w.
Proof.
  intros Hc Hd Ho Hp Hr. unfold serveRoute, contract. cbn [requestTenant given_ orElse]. rewrite Hc, Hd, Ho.
  destruct (negb (truthy (vp_tenantId p)) && _); [reflexivity|].
  destruct (String.eqb pathname "/_appport/events" && isMethod request "GET" && _); [reflexivity|].
  destruct (String.eqb pathname "/_appport/overview"); [reflexivity|].
  destruct (String.eqb pathname "/_appport/capabilities"); [reflexivity|].
  destruct (String.eqb pathname "/_appport/events" && isMethod request "POST").
  - repeat (apply bind_ext; intros ? ? _). now rewrite Hp.
  - pose proof (sameFor_find p routes routes' (routeName request pathname) Hr) as Hf.
    destruct (List.find _ routes) as [[n h]|], (List.find _ routes') as [[n' h']|]; try destruct Hf; try reflexivity.
    apply bind_ext. intros w1 body _. now rewrite (Hf (mkRouteContext request body (vp_tenantId p) (Some p))).
Qed.

(** C28: A request that is authenticated stays in its principal's tenant: what
    the routes do for any other tenant or caller, and what publishing for any
    other would do, has no influence on it, and a stream it opens is of that
    tenant - whatever tenant its headers name. *)
Theorem authenticated_stays_in_tenant application application' routes routes' request pathname p w w' :
  pa_contract application = pa_contract application' -> pa_discovery application = pa_discovery application' ->
  pa_overview application = pa_overview application' -> pa_authenticate application = pa_authenticate application' ->
  (forall type data, pa_publish application type data (AsPrincipal p) = pa_publish application' type data (AsPrincipal p)) ->
  sameFor p routes routes' ->
  ordinary request pathname -> ac_authorization_enabled (pa_contract application) = true ->
  pa_authenticate application request w = (w', Ok (Some p)) ->
  reply application routes request w = reply application' routes' request w /\
  streams (vp_tenantId p) (reply application routes request w).2.
Proof.
  intros Hc Hd Ho Ha Hp Hr Hq He Hauth. rewrite !(dispatch_ordinary _ _ _ _ Hq).
  assert (forall a b, pa_contract a = pa_contract application -> pa_authenticate a = pa_authenticate application ->
    tryCatch (principal ← authenticateRequest a request; serveRoute a b parseJson numberOf request pathname principal)
      (fun e => mret (Json (statusOf foreign e) (errorBody foreign e))) w =
    tryCatch (serveRoute a b parseJson numberOf request pathname (Some p)) (fun e => mret (Json (statusOf foreign e) (errorBody foreign e))) w') as Hstep.
  { intros a b Ea Eb. unfold authenticateRequest, contract. rewrite Ea, Eb, He. cbn [negb].
    unfold tryCatch, mbind, M_bind. now rewrite Hauth. }
  rewrite (Hstep application routes eq_refl eq_refl), (Hstep application' routes' (eq_sym Hc) (eq_sym Ha)). clear Hstep.
  unfold tryCatch. rewrite (serveRoute_same application application' routes routes' request pathname p w' Hc Hd Ho Hp Hr).
  split; [reflexivity|]. rewrite <- (serveRoute_same application application' routes routes' request pathname p w' Hc Hd Ho Hp Hr).
  pose proof (serveRoute_tenant application routes request pathname p w') as Hs.
  destruct (serveRoute application routes parseJson numberOf request pathname (Some p) w') as [w2 [r|e]]; [exact Hs | exact I].
Qed.
End runtime.

(** ** Witnesses *)

(** A contract with one thing or another switched on. *)
Definition demoConfig (authorized : bool) : AppPortConfig :=
  mkConfig "app" "AppPort application" ModeLocal Durable true true "app" TenantOptional None true "127.0.0.1" 8787 false ["*"]
    (fun _ => true) true true [] true true 3 10000 [] true true 3 [] false true PNormal ChannelInApp 5 true
    true true authorized AuthDeny true false "local" "local" "local".

Definition demoApplication (authorized : bool) (who : option VerifiedPrincipal) : Application MemDB :=
  mkApplication (demoConfig authorized) JNull (mret JNull) (fun _ => mret who) (fun _ _ _ => mret JNull)
    (fun type _ _ => mret (JStr type)).

Definition demoRoute : RouteHandler MemDB := fun context => mret (JStr (rx_tenantId context)).

Definition demoRequest (method url tenant : string) : HttpRequest :=
  mkHttpRequest (Some method) (Some url) url [("x-appport-tenant", HOne tenant)] None.

#[local] Abbreviation demoReply app routes request :=
  (dispatch app routes (fun url => Ok url) (fun s => Ok s) (fun _ => None) (fun _ => CutAt 0) (fun _ => (None, None)) request (demo emptyDB)).2.

Lemma unidentified_stopped_witness :
  match demoReply (demoApplication true None) [("GET /orders", demoRoute)] (demoRequest "GET" "/orders" "t2") with
  | Ok (Json status _) => status = 401 | _ => False end /\
  exists status body, (status = 401 \/ status = 403) /\
    dispatch (demoApplication true None) [("GET /orders", demoRoute)] (fun url => Ok url) (fun s => Ok s) (fun _ => None) (fun _ => CutAt 0)
      (fun _ => (None, None)) (demoRequest "GET" "/orders" "t2") (demo emptyDB) = (demo emptyDB, Ok (Json status body)).
Proof.
  split; [reflexivity|].
  apply (unidentified_stopped (fun url => Ok url) (fun s => Ok s) (fun _ => None) (fun _ => CutAt 0) (fun _ => (None, None))
    (demoApplication true None) [("GET /orders", demoRoute)] (demoRequest "GET" "/orders" "t2") "/orders"); try reflexivity.
  split; [reflexivity|]. split; [reflexivity | now left].
Defined.

Lemma authenticated_stays_in_tenant_witness :
  demoReply (demoApplication true (Some alice)) [("GET /orders", demoRoute)] (demoRequest "GET" "/orders" "t2") = Ok (Json 200 (JStr "t1")) /\
  streams "t1" (demoReply (demoApplication true (Some alice)) [] (demoRequest "GET" "/_appport/events" "t2")).
Proof.
  split; [reflexivity|].
  refine (proj2 (authenticated_stays_in_tenant (fun url => Ok url) (fun s => Ok s) (fun _ => None) (fun _ => CutAt 0) (fun _ => (None, None))
    (demoApplication true (Some alice)) (demoApplication true (Some alice)) [] [] (demoRequest "GET" "/_appport/events" "t2")
    "/_appport/events" alice (demo emptyDB) (demo emptyDB) eq_refl eq_refl eq_refl eq_refl (fun _ _ => eq_refl) _ _ eq_refl eq_refl)).
  - constructor.
  - split; [reflexivity|]. split; [reflexivity | now left].
Defined.

(** ** What goes wrong *)

(** Without authorization, a request whose tenant header is empty opens a
    stream of the empty tenant - which is the stream of every tenant
    ([empty_tenant_sees_all]). *)
Lemma empty_header_streams_all after :
  demoReply (demoApplication false None) [] (mkHttpRequest (Some "GET") (Some "/_appport/events") "/_appport/events" [("x-appport-tenant", HOne "")] None)
    = Ok (EventStream "" (CutAt 0)) /\
  forall event, concerns (mkSubscribe (Some "") None (Some after)) event = true.
Proof. split; reflexivity. Qed.
