(* ===== verification/AppPort.v ===== *)
(** * AppPort: the application's runtime ([runtime/appport.ts], [runtime/deployment.ts], [runtime/api-keys.ts])

    What the runtime decides between the contract and the services: which
    capabilities and collections there are, where state lives, whose tenant a
    call is for, what publishing an event does, and when the runtime's loops
    and server run.  The services it calls are records of their operations. *)

From S2P Require Import Prelude JsString JsTime Errors Models Store Principal Dsl Events Contract Platform.
From Stdlib Require Import ZArith Lia Ascii.
Local Open Scope string_scope.
Local Open Scope Z_scope.

(** ** The plan *)

Definition createCapabilityPlan (config : AppPortConfig) : list AppPortCapabilityName :=
  List.filter (ac_capabilities config) ALL_CAPABILITIES.

Definition CapabilityNotDeclaredError (capability : string) : exn :=
  let declaration := if String.eqb capability "schedules" then "jobs" else orElse (head (splitOn "." capability)) "" in
  JsError "CapabilityNotDeclaredError"
    ("Capability " ++ quoted capability ++ " is not declared in appport.toml. Add " ++ quoted ("use " ++ declaration) ++ " to enable it.").

(** The services that are initialised, in the order of the plan: each reads
    only the contract, and the notifications get the jobs if they are there. *)
Record InitializedCapabilities := mkInitialized {
  ic_apiKeys : bool; ic_webhooks : bool; ic_jobs : bool; ic_notifications : bool; ic_files : bool;
  ic_notificationJobs : bool }.

Definition nothingInitialized : InitializedCapabilities := mkInitialized false false false false false false.

Definition capabilityRegistry (config : AppPortConfig) (services : InitializedCapabilities) (capability : AppPortCapabilityName)
  : InitializedCapabilities :=
  match capability with
  | CapApi => if ac_api_keys_enabled config
              then mkInitialized true (ic_webhooks services) (ic_jobs services) (ic_notifications services) (ic_files services) (ic_notificationJobs services)
              else services
  | CapWebhooks => mkInitialized (ic_apiKeys services) true (ic_jobs services) (ic_notifications services) (ic_files services) (ic_notificationJobs services)
  | CapJobs => mkInitialized (ic_apiKeys services) (ic_webhooks services) true (ic_notifications services) (ic_files services) (ic_notificationJobs services)
  | CapSecrets => services
  | CapNotifications => mkInitialized (ic_apiKeys services) (ic_webhooks services) (ic_jobs services) true (ic_files services) (ic_jobs services)
  | CapFiles => mkInitialized (ic_apiKeys services) (ic_webhooks services) (ic_jobs services) (ic_notifications services) true (ic_notificationJobs services)
  end.

Definition initialize (config : AppPortConfig) : InitializedCapabilities :=
  foldl (capabilityRegistry config) nothingInitialized (createCapabilityPlan config).

(** [services.schedules] is there with the jobs; the getters throw for what is not. *)
Definition facades (config : AppPortConfig) (capability : string) : outcome unit :=
  let services := initialize config in
  let have (b : bool) := if b then Ok tt else Throw (CapabilityNotDeclaredError capability) in
  if String.eqb capability "api" then have (ac_capabilities config CapApi)
  else if String.eqb capability "api.keys" then
    if ac_capabilities config CapApi then have (ic_apiKeys services) else Throw (CapabilityNotDeclaredError "api")
  else if String.eqb capability "webhooks" then have (ic_webhooks services)
  else if String.eqb capability "jobs" then have (ic_jobs services)
  else if String.eqb capability "notifications" then have (ac_capabilities config CapNotifications && ic_notifications services)
  else if String.eqb capability "files" then have (ac_capabilities config CapFiles && ic_files services)
  else have (ic_jobs services).

(** The capabilities discovery shows as mounted. *)
Definition mountedCapabilities (config : AppPortConfig) (id : CapabilityCatalogId) : option bool :=
  let services := initialize config in
  match id with
  | IdApiKeys => Some (ic_apiKeys services)
  | IdWebhooks => Some (ic_webhooks services)
  | IdJobs => Some (ic_jobs services)
  | IdSchedules => Some (ic_jobs services)
  | IdNotifications => Some (ic_notifications services)
  | IdFiles => Some (ic_files services)
  | IdConfiguration | IdCredentials | IdIntelligence | IdSecrets => Some false
  | IdRuntimeEvents => Some (ac_events_enabled config)
  end.

(** ** The authoritative flow *)

Definition CAPABILITY_COLLECTIONS (c : AppPortCapabilityName) : list string :=
  match c with
  | CapApi => ["ApiKeys"; "ApiKeyPrefixes"; "ApiKeyAuditEvents"]
  | CapWebhooks => ["WebhookEndpoints"; "WebhookDeliveries"; "WebhookAuditEvents"]
  | CapJobs => ["Jobs"; "JobSchedules"; "JobAuditEvents"]
  | CapSecrets => ["Secrets"; "SecretVersions"; "SecretAuditEvents"]
  | CapNotifications => ["Notifications"; "NotificationDeliveries"; "NotificationAuditEvents"]
  | CapFiles => ["Files"; "FileAuditEvents"]
  end.

Definition CHECKED_CAPABILITIES : list AppPortCapabilityName := [CapApi; CapWebhooks; CapJobs; CapNotifications; CapFiles].

Definition checkCapability (config : AppPortConfig) (collections : list string) (c : AppPortCapabilityName) : outcome unit :=
  let has name := existsb (String.eqb name) collections in
  let present := List.filter has (CAPABILITY_COLLECTIONS c) in
  let missing := List.filter (fun name => negb (has name)) (CAPABILITY_COLLECTIONS c) in
  if ac_capabilities config c && negb (Nat.eqb (length present) (length (CAPABILITY_COLLECTIONS c))) then
    Throw (JsError "Error" ("feltdb.flow is missing collections required by " ++ quoted ("use " ++ capabilityName c) ++ ": " ++ joinNames missing))
  else if negb (ac_capabilities config c) && match present with [] => false | _ => true end then
    Throw (JsError "Error" ("feltdb.flow declares " ++ capabilityName c ++ " infrastructure but appport.toml does not contain " ++ quoted ("use " ++ capabilityName c)))
  else Ok tt.

Fixpoint checkFlow (config : AppPortConfig) (collections : list string) (todo : list AppPortCapabilityName) : outcome unit :=
  match todo with
  | [] => Ok tt
  | c :: r => _ ← checkCapability config collections c; checkFlow config collections r
  end.

Fixpoint joinErrors (l : list string) : string :=
  match l with [] => "" | [s] => s | s :: r => s ++ "; " ++ joinErrors r end.

(** [readFile], [parseFlowSpec] and [validateFlowSpec] are given by their
    results: the flow's collections and the messages of its errors. *)
Definition loadAuthoritativeFlow (path : string) (readFile : outcome string) (describe : exn -> string)
  (parseFlowSpec : string -> outcome (list string)) (flowErrors : string -> list string) (config : AppPortConfig) : outcome (list string) :=
  match readFile with
  | Throw e => Throw (JsError "Error" ("Cannot read authoritative feltdb.flow at " ++ path ++ ": " ++ describe e))
  | Ok source =>
      collections ← parseFlowSpec source;
      match flowErrors source with
      | [] => _ ← checkFlow config collections CHECKED_CAPABILITIES; Ok collections
      | errors => Throw (JsError "Error" ("Invalid authoritative feltdb.flow at " ++ path ++ ": " ++ joinErrors errors))
      end
  end.

(** ** Where state lives *)

Record FeltDbServer := mkServer {
  fs_url : string; fs_token : option string; fs_applicationId : string; fs_environment : option string }.

(** The options of the FeltDB runtime that the source reads or sets. *)
Record FeltDBOptions := mkFeltDBOptions {
  fo_server : option FeltDbServer;
  fo_browser : bool;
  fo_memory : bool;
  fo_path : option string;
  fo_mode : option string;
  fo_namespace : option string }.

Definition noFeltDBOptions : FeltDBOptions := mkFeltDBOptions None false false None None None.

(** [FELTDB_URL], [FELTDB_TOKEN] and [FELTDB_ENVIRONMENT]. *)
Record FeltDbEnv := mkEnv { en_url : option string; en_token : option string; en_environment : option string }.

Definition serverFor (config : AppPortConfig) (env : FeltDbEnv) (url : string) : FeltDbServer :=
  mkServer url (en_token env) (ac_application_name config) (en_environment env).

(** [resolve(root, '.appport/state')] is given as [statePath]. *)
Definition runtimeOptionsFromContract (config : AppPortConfig) (explicit : FeltDBOptions) (env : FeltDbEnv) (statePath : string)
  : outcome FeltDBOptions :=
  let chosen := match fo_server explicit with Some _ => true | None => false end || fo_browser explicit || fo_memory explicit
                || present (fo_path explicit) || present (fo_mode explicit) in
  let named := Some (ac_state_namespace config) in
  if chosen then Ok explicit
  else match ac_deployment_mode config with
       | ModeManaged =>
           match ifPresent (en_url env) with
           | Some url => Ok (mkFeltDBOptions (Some (serverFor config env url)) (fo_browser explicit) (fo_memory explicit) (fo_path explicit) (fo_mode explicit) named)
           | None => Throw (JsError "Error" ("appport.toml deployment.mode is " ++ quoted "managed" ++ " but FELTDB_URL is not configured"))
           end
       | _ =>
           match ac_deployment_storage config with
           | InMemory => Ok (mkFeltDBOptions (fo_server explicit) (fo_browser explicit) true (fo_path explicit) (fo_mode explicit) named)
           | Durable => Ok (mkFeltDBOptions (fo_server explicit) (fo_browser explicit) (fo_memory explicit) (Some statePath) (Some "local") named)
           end
       end.

Record ResolvedDeployment := mkDeployment {
  rd_feltdb : FeltDBOptions;
  rd_config : option AppPortConfig;
  rd_application : string }.

Definition DEFAULT_APPLICATION : string := "default".

(** [resolveDeployment]; [config] is the parsed contract if there is one. *)
Definition resolveDeployment (config : option AppPortConfig) (env : FeltDbEnv) (statePath : string) : ResolvedDeployment :=
  match config with
  | None => mkDeployment noFeltDBOptions None DEFAULT_APPLICATION
  | Some c =>
      let named := Some (ac_state_namespace c) in
      match ac_deployment_storage c, ac_deployment_mode c, ifPresent (en_url env) with
      | InMemory, _, _ => mkDeployment (mkFeltDBOptions None false true None None named) (Some c) (ac_application_name c)
      | Durable, ModeLocal, _ | Durable, _, None =>
          mkDeployment (mkFeltDBOptions None false false (Some statePath) (Some "local") named) (Some c) (ac_application_name c)
      | Durable, _, Some url =>
          mkDeployment (mkFeltDBOptions (Some (serverFor c env url)) false false None None named) (Some c) (ac_application_name c)
      end
  end.

(** ** Calls of the application *)

Section application.
Context {DB : Type}.

(** What publishing uses of the webhook service: the endpoints of a tenant
    with their events, emission, and one delivery. *)
Record PublishWebhooks := mkPublishWebhooks {
  pw_endpoints : string -> M DB (list WebhookEndpoint);
  pw_emit : string -> jsval -> VerifiedPrincipal -> M DB (list string);
  pw_deliver : string -> string -> M DB unit }.

(** The third argument of [publish]: a tenant, or who and for which tenant. *)
Inductive PublishOptions :=
| ByTenant (tenantId : string)
| Publishing (tenantId : option string) (principal : option Caller).

(** A call whose failure is looked at later. *)
Definition settledCall {A} (m : M DB A) : M DB (outcome A) := fun w => ((m w).1, Ok (m w).2).

(** [Promise.all] over the deliveries: every one is made, and the first that
    failed fails the whole. *)
Fixpoint deliverEach (deliver : string -> M DB unit) (ids : list string) : M DB unit :=
  match ids with
  | [] => mret tt
  | id :: r =>
      o ← settledCall (deliver id);
      rest ← settledCall (deliverEach deliver r);
      match o with Throw e => throw e | Ok _ => ofOutcome rest end
  end.

Definition subscribes (type : string) (e : WebhookEndpoint) : bool :=
  negb (present (we_disabledAt e)) && existsb (String.eqb type) (we_events e).

Definition crossTenant : exn :=
  ServiceAuthorityError DENIED "Cross-tenant service operation denied" (reasonOnly "tenant_mismatch").

(** The publisher, and the tenant it publishes for. *)
Definition publisherOf (options : PublishOptions) (current : outcome string) : outcome (option VerifiedPrincipal * string) :=
  match options with
  | ByTenant t => Ok (None, t)
  | Publishing tenantId caller =>
      principal ← match caller with Some c => p ← requireVerifiedPrincipal c; Ok (Some p) | None => Ok None end;
      tenant ← match principal, tenantId with
               | Some p, _ => Ok (vp_tenantId p)
               | None, Some t => Ok t
               | None, None => current
               end;
      match principal, tenantId with
      | Some p, Some t => if String.eqb t (vp_tenantId p) then Ok (principal, tenant) else Throw crossTenant
      | _, _ => Ok (principal, tenant)
      end
  end.

(** The outbound side of an event: webhooks to the endpoints that ask for it. *)
Definition deliverEvent (webhooks : option PublishWebhooks) (type : string) (data : jsval)
  (principal : option VerifiedPrincipal) (tenantId : string) : M DB unit :=
  match webhooks with
  | None => mret tt
  | Some hooks =>
      endpoints ← pw_endpoints hooks tenantId;
      if existsb (subscribes type) endpoints then
        match principal with
        | None => throw (ServiceAuthorityError UNAUTHENTICATED
            ("Publishing " ++ quoted type ++ " delivers webhooks, which requires a verified principal") noDetails)
        | Some p =>
            ids ← pw_emit hooks type data p;
            deliverEach (pw_deliver hooks tenantId) ids
        end
      else mret tt
  end.

(** [application.publish]: the events after it, what the subscribers were
    given, and its result.  A throw of the monad leaves the events alone. *)
Definition publishEvent (webhooks : option PublishWebhooks) (handlers : list (string * (AppPortEvent -> M DB unit)))
  (handle : nat -> AppPortEvent -> outcome unit) (current : outcome string)
  (events : AppPortEvents) (type : string) (data : jsval) (options : PublishOptions)
  : M DB (AppPortEvents * Deliveries * outcome AppPortEvent) :=
  publisher ← ofOutcome (publisherOf options current);
  let '(principal, tenantId) := (publisher : option VerifiedPrincipal * string) in
  _ ← deliverEvent webhooks type data principal tenantId;
  timestamp ← systemIso;
  let '(events', given, result) := publish handle events type data tenantId timestamp in
  match result with
  | Throw e => mret (events', given, Throw e)
  | Ok event =>
      match List.find (fun h => String.eqb (fst h) type) handlers with
      | None => mret (events', given, Ok event)
      | Some (_, handler) =>
          o ← settledCall (handler event);
          mret (events', given, match o with Ok _ => Ok event | Throw e => Throw e end)
      end
  end.

(** [own]: the caller must be of the tenant the helpers are bound to. *)
Definition own (tenantId : string) (caller : Caller) : outcome VerifiedPrincipal :=
  verified ← requireVerifiedPrincipal caller;
  if String.eqb (vp_tenantId verified) tenantId then Ok verified else Throw crossTenant.

(** What a call of the tenant-bound helpers is. *)
Inductive TenantCall :=
| CallKeys (input : list (string * jsval))
| CallListKeys
| CallGetKey (id : string)
| CallRevokeKey (input : list (string * jsval))
| CallRegisterWebhook (input : list (string * jsval))
| CallListWebhooks
| CallEmitWebhook (input : list (string * jsval))
| CallEnqueue (input : list (string * jsval))
| CallListJobs
| CallCreateFile (input : list (string * jsval))
| CallListFiles
| CallNotify (input : list (string * jsval))
| CallListNotifications (options : list (string * jsval))
| CallCreateSchedule (input : list (string * jsval))
| CallListSchedules
| CallInvoke (capability : string) (input : list (string * jsval))
| CallPublish (type : string) (data : jsval).

(** The operations of the application the helpers call; those of a facade are
    there if its getter does not throw. *)
Record TenantOperations := mkTenantOperations {
  to_invoke : string -> list (string * jsval) -> VerifiedPrincipal -> M DB jsval;
  to_createApiKey : outcome (list (string * jsval) -> VerifiedPrincipal -> M DB jsval);
  to_revokeApiKey : outcome (list (string * jsval) -> VerifiedPrincipal -> M DB jsval);
  to_createWebhookEndpoint : outcome (list (string * jsval) -> VerifiedPrincipal -> M DB jsval);
  to_emitWebhookEvent : outcome (list (string * jsval) -> VerifiedPrincipal -> M DB jsval);
  to_enqueue : outcome (list (string * jsval) -> VerifiedPrincipal -> M DB jsval);
  to_createFile : outcome (list (string * jsval) -> VerifiedPrincipal -> M DB jsval);
  to_listFiles : outcome (string -> VerifiedPrincipal -> M DB jsval);
  to_notify : outcome (list (string * jsval) -> Caller -> M DB jsval);
  to_listNotifications : outcome (string -> list (string * jsval) -> Caller -> M DB jsval);
  to_createSchedule : outcome (list (string * jsval) -> VerifiedPrincipal -> M DB jsval);
  to_listSchedules : outcome (string -> VerifiedPrincipal -> M DB jsval);
  to_publish : string -> jsval -> PublishOptions -> M DB jsval }.

(** [{ ...input, tenantId }] *)
Fixpoint withTenant (input : list (string * jsval)) (tenantId : string) : list (string * jsval) :=
  match input with
  | [] => [("tenantId", JStr tenantId)]
  | (k, v) :: r => if String.eqb k "tenantId" then (k, JStr tenantId) :: r else (k, v) :: withTenant r tenantId
  end.

(** One call of [application.forTenant(tenantId)]; [publish] may come without
    a caller.  A facade's getter is read before the caller is looked at. *)
Definition forTenant (ops : TenantOperations) (tenantId : string) (call : TenantCall) (caller : option Caller) : M DB jsval :=
  let who := orElse caller CNothing in
  let mine (work : VerifiedPrincipal -> M DB jsval) : M DB jsval := p ← ofOutcome (own tenantId who); work p in
  let through {A} (facade : outcome A) (work : A -> M DB jsval) : M DB jsval := operation ← ofOutcome facade; work operation in
  match call with
  | CallKeys input => through (to_createApiKey ops) (fun f => mine (f input))
  | CallListKeys => mine (to_invoke ops "apikeys.read" [])
  | CallGetKey id => mine (to_invoke ops "apikeys.read" [("id", JStr id)])
  | CallRevokeKey input => through (to_revokeApiKey ops) (fun f => mine (f input))
  | CallRegisterWebhook input => through (to_createWebhookEndpoint ops) (fun f => mine (f input))
  | CallListWebhooks => mine (to_invoke ops "webhooks.read" [])
  | CallEmitWebhook input => through (to_emitWebhookEvent ops) (fun f => mine (f input))
  | CallEnqueue input => through (to_enqueue ops) (fun f => mine (f input))
  | CallListJobs => mine (to_invoke ops "jobs.read" [])
  | CallCreateFile input => through (to_createFile ops) (fun f => mine (f input))
  | CallListFiles => through (to_listFiles ops) (fun f => mine (f tenantId))
  | CallNotify input => through (to_notify ops) (fun f => f (withTenant input tenantId) who)
  | CallListNotifications options => through (to_listNotifications ops) (fun f => f tenantId options who)
  | CallCreateSchedule input => through (to_createSchedule ops) (fun f => mine (f input))
  | CallListSchedules => through (to_listSchedules ops) (fun f => mine (f tenantId))
  | CallInvoke capability input => mine (to_invoke ops capability input)
  | CallPublish type data =>
      match caller with
      | None => to_publish ops type data (Publishing (Some tenantId) None)
      | Some c => p ← ofOutcome (own tenantId c); to_publish ops type data (Publishing (Some tenantId) (Some (CVerified p)))
      end
  end.

(** [application.authenticate]: an API key if one is presented, else the host. *)
Definition authenticateCaller (authenticateApiKey : option (string -> M DB (option VerifiedPrincipal)))
  (identify : option (M DB (option VerifiedPrincipal))) (authorization : option string) : M DB (option VerifiedPrincipal) :=
  let bearer := match authorization with
                | Some a => if startsWith a "Bearer " then ifPresent (Some (sliceFrom 7 a)) else None
                | None => None
                end in
  match bearer, authenticateApiKey, identify with
  | Some token, Some authenticate, _ => authenticate token
  | _, _, Some who => who
  | _, _, None => mret None
  end.

(** [authenticateBearerToken] ([runtime/api-keys.ts]): the two words of the
    header, split at white space. *)
Definition authenticateBearerToken (authenticateApiKey : string -> M DB (option VerifiedPrincipal)) (header : string)
  : M DB (option VerifiedPrincipal) :=
  let (scheme, rest) := spanOf (fun c => negb (isSpace c)) header in
  let (token, _) := spanOf (fun c => negb (isSpace c)) (trimStart rest) in
  if truthy scheme && truthy token && String.eqb (toLowerCase scheme) "bearer" then authenticateApiKey token else mret None.

(** [capabilityAwareTransactionContext]: reading a property of the context. *)
Definition transactionProperty (config : AppPortConfig) (property : string) : outcome unit :=
  if String.eqb property "queueWebhookDeliveries" && negb (ac_capabilities config CapWebhooks)
  then Throw (CapabilityNotDeclaredError "webhooks")
  else if String.eqb property "queueJob" && negb (ac_capabilities config CapJobs)
  then Throw (CapabilityNotDeclaredError "jobs")
  else Ok tt.

(** ** The managed loops *)

(** One pass over the due jobs of the default tenant; a throw ends it. *)
Fixpoint eachInTurn {A} (work : A -> M DB unit) (l : list A) : M DB unit :=
  match l with [] => mret tt | a :: r => _ ← work a; eachInTurn work r end.

Definition jobsPass (processRecurringSchedules : string -> M DB unit) (listDueJobs : string -> M DB (list Job))
  (executeJob : string -> string -> string -> M DB unit) (tenantId application : string) : M DB unit :=
  _ ← processRecurringSchedules tenantId;
  due ← listDueJobs tenantId;
  eachInTurn (fun job => executeJob (j_tenantId job) (j_id job) (application ++ ":runtime")) due.

(** A delivery that is to be attempted now. *)
Definition deliveryDue (now : string) (d : WebhookDelivery) : bool :=
  match wd_status d with
  | WPending => true
  | WRetrying => match ifPresent (wd_nextAttemptAt d) with Some t => strLe t now | None => true end
  | _ => false
  end.

Definition deliveriesPass (listDeliveries : string -> M DB (list WebhookDelivery)) (deliver : string -> string -> M DB unit)
  (tenantId : string) : M DB unit :=
  deliveries ← listDeliveries tenantId;
  now ← systemIso;
  eachInTurn (fun d => deliver (wd_tenantId d) (wd_id d)) (List.filter (deliveryDue now) deliveries).

(** Which loops [start] sets up. *)
Definition managedLoops (config : AppPortConfig) : bool * bool :=
  let services := initialize config in
  let run := ac_lifecycle_managed config && present (ac_tenant_default config) in
  (run && ic_jobs services && ac_jobs_execution_enabled config,
   run && ic_webhooks services && ac_webhooks_delivery_enabled config).
End application.

(** ** Starting and closing

    [start] and [close] wait - for the server to listen, for the recovery of
    deliveries, for the server to close - and whatever else happens meanwhile
    happens between their steps. *)

Inductive Starting := NotStarting | AwaitHttp | AwaitRecovery.
Inductive Closing := NotClosing | AwaitHttpClose | AllClosed.

Record Life := mkLife {
  lf_closed : bool;
  lf_started : bool;
  lf_http : bool;
  lf_timers : bool;
  lf_signals : bool;
  lf_starting : Starting;
  lf_closing : Closing }.

Definition newLife : Life := mkLife false false false false false NotStarting NotClosing.

Section life.
Variable config : AppPortConfig.

Definition loops : bool := fst (managedLoops config) || snd (managedLoops config).
Definition recovers : bool := present (ac_tenant_default config) && ic_notifications (initialize config).

(** From the loops on: the timers run, and the start ends or waits for the
    recovery of deliveries. *)
Definition startLoops (s : Life) : Life :=
  mkLife (lf_closed s) (lf_started s) (lf_http s) (lf_timers s || loops)
    (if recovers then lf_signals s else lf_signals s || ac_lifecycle_managed config)
    (if recovers then AwaitRecovery else NotStarting) (lf_closing s).

Inductive lifeStep : Life -> Life -> Prop :=
| life_start s : lf_closed s = false -> lf_started s = false ->
    lifeStep s (let s1 := mkLife false true (lf_http s) (lf_timers s) (lf_signals s) AwaitHttp (lf_closing s) in
                if ac_http_enabled config then s1 else startLoops s1)
| life_listening s : lf_starting s = AwaitHttp -> ac_http_enabled config = true ->
    lifeStep s (startLoops (mkLife (lf_closed s) (lf_started s) true (lf_timers s) (lf_signals s) (lf_starting s) (lf_closing s)))
| life_failed s : lf_starting s = AwaitHttp ->
    lifeStep s (mkLife (lf_closed s) (lf_started s) (lf_http s) (lf_timers s) (lf_signals s) NotStarting (lf_closing s))
| life_recovered s : lf_starting s = AwaitRecovery ->
    lifeStep s (mkLife (lf_closed s) (lf_started s) (lf_http s) (lf_timers s) (lf_signals s || ac_lifecycle_managed config) NotStarting (lf_closing s))
| life_recovery_failed s : lf_starting s = AwaitRecovery ->
    lifeStep s (mkLife (lf_closed s) (lf_started s) (lf_http s) (lf_timers s) (lf_signals s) NotStarting (lf_closing s))
| life_close s : lf_closed s = false ->
    lifeStep s (mkLife true (lf_started s) (lf_http s) false false (lf_starting s) (if lf_http s then AwaitHttpClose else AllClosed))
| life_http_closed s : lf_closing s = AwaitHttpClose ->
    lifeStep s (mkLife (lf_closed s) (lf_started s) false (lf_timers s) (lf_signals s) (lf_starting s) AllClosed).

Inductive lifeRun : Life -> Prop :=
| life_new : lifeRun newLife
| life_more s s' : lifeRun s -> lifeStep s s' -> lifeRun s'.
End life.
