(* ===== verification/AppPortProps.v ===== *)
(** * AppPortProps: what the runtime decides *)

From S2P Require Import Prelude JsString JsTime Errors Models Store Calm MemStore Principal Dsl Events Contract Platform PlatformProps AppPort Demo.
From Stdlib Require Import ZArith Lia Ascii.
Local Open Scope string_scope.
Local Open Scope Z_scope.

(** ** The plan *)

Lemma initialize_exact config :
  ic_apiKeys (initialize config) = ac_capabilities config CapApi && ac_api_keys_enabled config /\
  ic_webhooks (initialize config) = ac_capabilities config CapWebhooks /\
  ic_jobs (initialize config) = ac_capabilities config CapJobs /\
  ic_notifications (initialize config) = ac_capabilities config CapNotifications /\
  ic_files (initialize config) = ac_capabilities config CapFiles /\
  ic_notificationJobs (initialize config) = ac_capabilities config CapNotifications && ac_capabilities config CapJobs.
Proof.
  unfold initialize, createCapabilityPlan. cbn [List.filter ALL_CAPABILITIES].
  destruct (ac_capabilities config CapApi), (ac_capabilities config CapWebhooks), (ac_capabilities config CapJobs),
    (ac_capabilities config CapSecrets), (ac_capabilities config CapNotifications), (ac_capabilities config CapFiles);
    cbn; destruct (ac_api_keys_enabled config); repeat split.
Qed.

(** The name a mounted capability is reached by. *)
Definition facadeOf (id : CapabilityCatalogId) : option string :=
  match id with
  | IdApiKeys => Some "api.keys" | IdWebhooks => Some "webhooks" | IdJobs => Some "jobs" | IdSchedules => Some "schedules"
  | IdNotifications => Some "notifications" | IdFiles => Some "files" | _ => None
  end.

(** Discovery tells the truth: a capability is shown as mounted exactly
    when the application's getter for it answers. *)
Theorem mounted_exactly config id name : facadeOf id = Some name ->
  (mountedCapabilities config id = Some true <-> facades config name = Ok tt).
Proof.
  destruct (initialize_exact config) as (H1 & H2 & H3 & H4 & H5 & _).
  destruct id; intros [= <-]; cbn [mountedCapabilities]; unfold facades; cbn [String.eqb Ascii.eqb Bool.eqb];
    rewrite ?H1, ?H2, ?H3, ?H4, ?H5;
    destruct (ac_capabilities config CapApi), (ac_api_keys_enabled config), (ac_capabilities config CapWebhooks),
      (ac_capabilities config CapJobs), (ac_capabilities config CapNotifications), (ac_capabilities config CapFiles);
    cbn; (split; intros E; (reflexivity || discriminate E)).
Qed.

(** ** Where state lives *)

(** When the runtime and the operator's tools mean the same deployment. *)
Definition sameDeployment (config : AppPortConfig) (env : FeltDbEnv) : Prop :=
  match ac_deployment_mode config with
  | ModeLocal => True
  | ModeManaged => ac_deployment_storage config = Durable /\ present (en_url env) = true
  | ModeSelfHosted => ac_deployment_storage config = InMemory \/ present (en_url env) = false
  end.

(** The runtime and the command line (and the management host) resolve
    one contract to the same deployment exactly when it is local, managed with
    durable state and a server, or self-hosted without one or in memory; in
    the other cases they administer another database than the application
    runs on, or the application does not start. *)
Theorem deployments_agree_exactly config env statePath :
  runtimeOptionsFromContract config noFeltDBOptions env statePath = Ok (rd_feltdb (resolveDeployment (Some config) env statePath)) <->
  sameDeployment config env.
Proof.
  unfold runtimeOptionsFromContract, resolveDeployment, sameDeployment, present. cbn [noFeltDBOptions fo_server fo_browser fo_memory fo_path fo_mode orb].
  destruct (ac_deployment_mode config), (ac_deployment_storage config), (en_url env) as [[|c u]|]; cbn;
    split; intros E; try reflexivity; try discriminate; try tauto; try (destruct E; congruence || discriminate);
    repeat split; auto.
Qed.

(** A self-hosted application runs on its local state while the command line
    administers the server. *)
Lemma self_hosted_disagrees config env statePath url :
  ac_deployment_mode config = ModeSelfHosted -> ac_deployment_storage config = Durable -> ifPresent (en_url env) = Some url ->
  exists options, runtimeOptionsFromContract config noFeltDBOptions env statePath = Ok options /\
    fo_server options = None /\ fo_server (rd_feltdb (resolveDeployment (Some config) env statePath)) = Some (serverFor config env url).
Proof.
  intros Em Es Eu. unfold runtimeOptionsFromContract, resolveDeployment. rewrite Em, Es, Eu. eexists. split; [reflexivity|]. split; reflexivity.
Qed.

(** ** The flow *)

Lemma length_filter_all {A} (p : A -> bool) l : length (List.filter p l) = length l <-> forall x, In x l -> p x = true.
Proof.
  induction l as [|x l IH]; cbn; [tauto|]. destruct (p x) eqn:E; cbn.
  - split; [intros [= Hl] y [<-|Hy]; [exact E | now apply IH] | intros Hp; f_equal; apply IH; auto].
  - split; [intros Hl | intros Hp; rewrite (Hp x) in E; [discriminate | now left]].
    exfalso. pose proof (List.filter_length_le p l). lia.
Qed.

Lemma filter_none {A} (p : A -> bool) l : List.filter p l = [] <-> forall x, In x l -> p x = false.
Proof.
  induction l as [|x l IH]; cbn; [tauto|]. destruct (p x) eqn:E.
  - split; [discriminate | intros Hp; rewrite (Hp x) in E; [discriminate | now left]].
  - rewrite IH. split; [intros Hp y [<-|Hy]; auto | auto].
Qed.

Lemma checkCapability_exact config collections c : checkCapability config collections c = Ok tt <->
  forall name, In name (CAPABILITY_COLLECTIONS c) -> (In name collections <-> ac_capabilities config c = true).
Proof.
  unfold checkCapability. set (has := fun name => existsb (String.eqb name) collections).
  assert (forall name, has name = true <-> In name collections) as Hhas.
  { intros name. unfold has. rewrite existsb_exists. split; [intros (y & Hy & ->%String.eqb_eq); exact Hy | intros Hn; exists name; split; [exact Hn | apply String.eqb_refl]]. }
  destruct (ac_capabilities config c) eqn:Ec; cbn [negb andb].
  - destruct (Nat.eqb_spec (length (List.filter has (CAPABILITY_COLLECTIONS c))) (length (CAPABILITY_COLLECTIONS c))) as [E|E]; cbn [negb].
    + split; [|reflexivity]. intros _ name Hn. rewrite <- Hhas. apply (proj1 (length_filter_all _ _) E) in Hn. tauto.
    + split; [discriminate|]. intros Hall. exfalso. apply E, length_filter_all. intros name Hn. apply Hhas, Hall; auto.
  - destruct (List.filter has (CAPABILITY_COLLECTIONS c)) as [|x l] eqn:E.
    + split; [|reflexivity]. intros _ name Hn. rewrite <- Hhas. rewrite (proj1 (filter_none _ _) E name Hn). split; discriminate.
    + split; [discriminate|]. intros Hall. exfalso. assert (In x (List.filter has (CAPABILITY_COLLECTIONS c))) as Hin by (rewrite E; now left).
      apply filter_In in Hin as [Hin Hx]. apply Hhas in Hx. apply (Hall x Hin) in Hx. discriminate Hx.
Qed.

(** A flow is taken exactly when, for every capability it is checked for,
    it declares all of its collections if the contract uses it and none of
    them if it does not. *)
Theorem flow_checked_exactly config collections :
  checkFlow config collections CHECKED_CAPABILITIES = Ok tt <->
  forall c name, In c CHECKED_CAPABILITIES -> In name (CAPABILITY_COLLECTIONS c) ->
    (In name collections <-> ac_capabilities config c = true).
Proof.
  assert (forall todo, checkFlow config collections todo = Ok tt <-> forall c, In c todo -> checkCapability config collections c = Ok tt) as Hall.
  { induction todo as [|c todo IH]; cbn [checkFlow]; [split; [intros _ ? [] | reflexivity]|].
    destruct (checkCapability config collections c) as [[]|e] eqn:E; cbn.
    - rewrite IH. split; [intros Hr d [<-|Hd]; auto | auto].
    - split; [discriminate|]. intros Hr. rewrite (Hr c) in E; [discriminate | now left]. }
  rewrite Hall. split.
  - intros Hr c name Hc. apply checkCapability_exact, Hr, Hc.
  - intros Hr c Hc. apply checkCapability_exact. intros name. now apply Hr.
Qed.

(** The names it asks for are not the names the services store under. *)
Lemma flow_names_are_not_stored c name : In c CHECKED_CAPABILITIES -> In name (CAPABILITY_COLLECTIONS c) -> declaredCollection name = None.
Proof.
  intros Hc Hn. assert (List.Forall (fun name => declaredCollection name = None) (concat (map CAPABILITY_COLLECTIONS CHECKED_CAPABILITIES))) as Hall
    by (repeat (constructor; [vm_compute; reflexivity|]); constructor).
  rewrite List.Forall_forall in Hall. apply Hall, in_concat. exists (CAPABILITY_COLLECTIONS c). split; [now apply in_map | exact Hn].
Qed.

(** Queueing a notification in a transaction is not held against the contract. *)
Lemma notifications_not_gated config : transactionProperty config "queueNotification" = Ok tt.
Proof. reflexivity. Qed.

(** ** Publishing and the tenant-bound helpers *)

Section calls.
Context {DB : Type}.
Implicit Types w : World DB.

(** The helpers bound to a tenant act for that tenant alone: a caller of
    another tenant, or none, is refused before anything is called; only the
    notification helpers leave the caller to their service, and hand it the
    bound tenant, whatever the input names. *)
Theorem tenant_helpers_confined (ops : @TenantOperations DB) tenantId call caller :
  (forall p, caller = Some (CVerified p) -> vp_tenantId p <> tenantId) ->
  (match call with CallPublish _ _ => caller <> None | _ => True end) ->
  match call with
  | CallNotify input => forTenant ops tenantId call caller = (f ← ofOutcome (to_notify ops); f (withTenant input tenantId) (orElse caller CNothing)) /\
      getField (withTenant input tenantId) "tenantId" = JStr tenantId
  | CallListNotifications options => forTenant ops tenantId call caller = (f ← ofOutcome (to_listNotifications ops); f tenantId options (orElse caller CNothing))
  | _ => exists e, forall w, forTenant ops tenantId call caller w = (w, Throw e)
  end.
Proof.
  intros Hother Hpub.
  assert (exists e, own tenantId (orElse caller CNothing) = Throw e) as (e & Hown).
  { unfold own. destruct caller as [[p|s|[]|]|]; cbn; try (eexists; reflexivity).
    destruct (String.eqb_spec (vp_tenantId p) tenantId) as [E|E]; [now destruct (Hother p eq_refl)|]. eexists. reflexivity. }
  assert (forall work : VerifiedPrincipal -> M DB jsval, forall w, (p ← ofOutcome (own tenantId (orElse caller CNothing)); work p) w = (w, Throw e)) as Hmine
    by (intros work w; rewrite Hown; reflexivity).
  assert (forall A (facade : outcome A) (work : A -> VerifiedPrincipal -> M DB jsval), exists e', forall w,
    (f ← ofOutcome facade; (p ← ofOutcome (own tenantId (orElse caller CNothing)); work f p)) w = (w, Throw e')) as Hthrough.
  { intros A [f|e'] work; [exists e | exists e']; intros w; [exact (Hmine _ w) | reflexivity]. }
  destruct call; cbn [forTenant]; try (apply Hthrough); try (exists e; intros w; apply Hmine).
  - split; [reflexivity|]. induction input as [|[k v] r IH]; cbn; [reflexivity|].
    destruct (String.eqb_spec k "tenantId") as [->|Hne]; cbn; [reflexivity|]. apply String.eqb_neq in Hne. now rewrite Hne.
  - reflexivity.
  - destruct caller as [c|]; [|congruence]. exists e. intros w. exact (Hmine _ w).
Qed.

Lemma bind_ok {A B} (m : M DB A) (k : A -> M DB B) w w1 a : m w = (w1, Ok a) -> (m ≫= k) w = k a w1.
Proof. intros E. unfold mbind, M_bind. now rewrite E. Qed.

(** What follows the webhooks of an event. *)
Lemma publish_after handlers handle (events : AppPortEvents) type data tenantId w w' result :
  (timestamp ← systemIso;
   let '(events', given, result) := publish handle events type data tenantId timestamp in
   match result with
   | Throw e => mret (events', given, Throw e)
   | Ok event =>
       match List.find (fun h : string * (AppPortEvent -> M DB unit) => String.eqb (fst h) type) handlers with
       | None => mret (events', given, Ok event)
       | Some (_, handler) =>
           o ← settledCall (handler event);
           mret (events', given, match o with Ok _ => Ok event | Throw e => Throw e end)
       end
   end) w = (w', Ok result) ->
  exists timestamp, result.1 = (publish handle events type data tenantId timestamp).1.
Proof.
  intros E. apply bind_inv in E as (w1 & timestamp & _ & E). exists timestamp.
  destruct (publish handle events type data tenantId timestamp) as [[events' given] [event|e]]; cbn [fst] in *.
  - destruct (List.find _ handlers) as [[n handler]|]; [|now injection E as _ <-].
    apply bind_inv in E as (w2 & o & _ & E). now injection E as _ <-.
  - now injection E as _ <-.
Qed.

(** Who an event is published as, and for which tenant: a verified principal
    for its own, which the call may repeat but not change; otherwise nobody,
    for the tenant that is named or else the one of the request. *)
Inductive publishesAs (current : outcome string) : PublishOptions -> option VerifiedPrincipal -> string -> Prop :=
| as_tenant t : publishesAs current (ByTenant t) None t
| as_principal p tenant : (tenant = None \/ tenant = Some (vp_tenantId p)) ->
    publishesAs current (Publishing tenant (Some (CVerified p))) (Some p) (vp_tenantId p)
| as_nobody t : publishesAs current (Publishing (Some t) None) None t
| as_current t : current = Ok t -> publishesAs current (Publishing None None) None t.

Lemma publisherOf_spec current options :
  (exists principal tenantId, publishesAs current options principal tenantId /\ publisherOf options current = Ok (principal, tenantId)) \/
  exists e, publisherOf options current = Throw e.
Proof.
  destruct options as [t|tenant [caller|]]; [left; do 2 eexists; split; [constructor | reflexivity]|..]; cbn [publisherOf].
  - destruct (requireVerifiedPrincipal caller) as [p|e] eqn:Ec; [|right; eauto].
    destruct caller as [q| |[]|]; try discriminate Ec. injection Ec as ->.
    destruct tenant as [t|]; cbn; [|left; do 2 eexists; split; [constructor; auto | reflexivity]].
    destruct (String.eqb_spec t (vp_tenantId p)) as [->|]; [left; do 2 eexists; split; [constructor; auto | reflexivity] | right; eauto].
  - destruct tenant as [t|]; [left; do 2 eexists; split; [constructor | reflexivity]|].
    destruct current as [t|e]; [left; do 2 eexists; split; [constructor | ]; reflexivity | right; eexists; reflexivity].
Qed.

(** Two outbound sides that cannot be told apart in one tenant: they list the
    same endpoints for it and, for a principal, make the same of this event
    emitted as it and deliver the same in its tenant. *)
Definition sameOutbound (type : string) (data : jsval) (principal : option VerifiedPrincipal) (tenantId : string)
  (hooks hooks' : @PublishWebhooks DB) : Prop :=
  (forall w, pw_endpoints hooks tenantId w = pw_endpoints hooks' tenantId w) /\
  forall p, principal = Some p ->
    (forall w, pw_emit hooks type data p w = pw_emit hooks' type data p w) /\
    forall id w, pw_deliver hooks (vp_tenantId p) id w = pw_deliver hooks' (vp_tenantId p) id w.

Lemma deliverEach_ext (deliver deliver' : string -> M DB unit) ids w :
  (forall id w, deliver id w = deliver' id w) -> deliverEach deliver ids w = deliverEach deliver' ids w.
Proof.
  intros E. revert w. induction ids as [|id r IH]; intros w; [reflexivity|]. cbn [deliverEach].
  unfold settledCall, mbind, M_bind. rewrite E. cbn. now rewrite IH.
Qed.

Lemma deliverEvent_same type data principal tenantId hooks hooks' w :
  sameOutbound type data principal tenantId hooks hooks' -> (forall p, principal = Some p -> tenantId = vp_tenantId p) ->
  deliverEvent (Some hooks) type data principal tenantId w = deliverEvent (Some hooks') type data principal tenantId w.
Proof.
  intros [Hl Hp] Ht. unfold deliverEvent. transitivity ((pw_endpoints hooks' tenantId ≫= fun endpoints =>
      if existsb (subscribes type) endpoints then
        match principal with
        | None => throw (ServiceAuthorityError UNAUTHENTICATED
            ("Publishing " ++ quoted type ++ " delivers webhooks, which requires a verified principal") noDetails)
        | Some p => ids ← pw_emit hooks type data p; deliverEach (pw_deliver hooks tenantId) ids
        end
      else mret tt) w); [unfold mbind, M_bind; now rewrite Hl|].
  apply bind_ext. intros w1 l _. destruct (existsb _ l); [|reflexivity]. destruct principal as [p|]; [|reflexivity].
  destruct (Hp p eq_refl) as [He Hd]. rewrite (Ht p eq_refl).
  transitivity ((pw_emit hooks' type data p ≫= fun ids => deliverEach (pw_deliver hooks (vp_tenantId p)) ids) w1);
    [unfold mbind, M_bind; now rewrite He|].
  apply bind_ext. intros w2 ids _. now apply deliverEach_ext.
Qed.

Lemma asks_subscribes type l : (exists e, In e l /\ we_disabledAt e = None /\ In type (we_events e)) -> existsb (subscribes type) l = true.
Proof.
  intros (e & Hin & Hd & Ht). apply existsb_exists. exists e. split; [exact Hin|]. unfold subscribes. rewrite Hd. cbn [present negb andb].
  apply existsb_exists. exists type. split; [exact Ht | apply String.eqb_refl].
Qed.

(** C29: Publishing delivers webhooks only as a verified principal and in its
    own tenant.  Either the call is refused before anything happens, or it
    publishes as somebody for a tenant ([publishesAs]), and then: its outcome
    and everything it writes depend on the webhook service only through the
    endpoints of that tenant and, when it publishes as a principal, through
    what emitting this event as that principal and delivering in that
    principal's tenant do; when an active endpoint of the tenant asks for the
    event, publishing as a principal emits it as that principal (a failure to
    is the call's), and publishing as nobody fails and publishes nothing; and
    an event that is published is published for that tenant. *)
Theorem publish_needs_principal handlers handle current events type data options :
  (exists e, forall hooks w, publishEvent hooks handlers handle current events type data options w = (w, Throw e)) \/
  exists principal tenantId, publishesAs current options principal tenantId /\
    (forall hooks hooks' w, sameOutbound type data principal tenantId hooks hooks' ->
      publishEvent (Some hooks) handlers handle current events type data options w =
      publishEvent (Some hooks') handlers handle current events type data options w) /\
    (forall hooks w w1 l, pw_endpoints hooks tenantId w = (w1, Ok l) ->
      (exists e, In e l /\ we_disabledAt e = None /\ In type (we_events e)) ->
      match principal with
      | Some p => forall w2 e, pw_emit hooks type data p w1 = (w2, Throw e) ->
          publishEvent (Some hooks) handlers handle current events type data options w = (w2, Throw e)
      | None => exists message,
          publishEvent (Some hooks) handlers handle current events type data options w =
          (w1, Throw (ServiceAuthorityError UNAUTHENTICATED message noDetails))
      end) /\
    forall hooks w w' result, publishEvent hooks handlers handle current events type data options w = (w', Ok result) ->
      exists timestamp, result.1 = (publish handle events type data tenantId timestamp).1.
Proof.
  destruct (publisherOf_spec current options) as [(principal & tenantId & Has & Ep)|(e & Ep)].
  2: { left. exists e. intros hooks w. unfold publishEvent. now rewrite Ep. }
  right. exists principal, tenantId. split; [exact Has|].
  assert (forall p, principal = Some p -> tenantId = vp_tenantId p) as Hown by (intros p ->; now inversion Has).
  assert (exists rest, forall hooks w, publishEvent hooks handlers handle current events type data options w =
    (deliverEvent hooks type data principal tenantId ≫= rest) w /\ forall w1 w' result, rest tt w1 = (w', Ok result) ->
      exists timestamp, result.1 = (publish handle events type data tenantId timestamp).1) as (rest & Hrest).
  { eexists. intros hooks w. unfold publishEvent. rewrite (bind_ok _ _ w w (principal, tenantId)) by now rewrite Ep.
    split; [reflexivity|]. cbv beta. intros w1 w' result. apply publish_after. }
  split; [|split].
  - intros hooks hooks' w Hsame. rewrite !(proj1 (Hrest _ w)). unfold mbind, M_bind.
    now rewrite (deliverEvent_same _ _ _ _ _ _ w Hsame Hown).
  - intros hooks w w1 l Hl Hask%asks_subscribes.
    assert (deliverEvent (Some hooks) type data principal tenantId w = match principal with
      | None => (w1, Throw (ServiceAuthorityError UNAUTHENTICATED
          ("Publishing " ++ quoted type ++ " delivers webhooks, which requires a verified principal") noDetails))
      | Some p => (ids ← pw_emit hooks type data p; deliverEach (pw_deliver hooks tenantId) ids) w1 end) as E.
    { unfold deliverEvent. rewrite (bind_ok _ _ w w1 l Hl). rewrite Hask. now destruct principal. }
    destruct principal as [p|].
    + intros w2 e He. rewrite (proj1 (Hrest _ w)). unfold mbind at 1, M_bind at 1. rewrite E. unfold mbind, M_bind. now rewrite He.
    + eexists. rewrite (proj1 (Hrest _ w)). unfold mbind, M_bind. rewrite E. reflexivity.
  - intros hooks w w' result E. destruct (Hrest hooks w) as [Er Hafter]. rewrite Er in E.
    apply bind_inv in E as (w1 & [] & _ & E). exact (Hafter _ _ _ E).
Qed.
End calls.

(** ** Starting and closing *)

Section lifecycle.
Variable config : AppPortConfig.

(** A run in which nothing is closed while it is starting. *)
Inductive orderlyRun : Life -> Prop :=
| orderly_new : orderlyRun newLife
| orderly_more s s' : orderlyRun s -> lifeStep config s s' ->
    (lf_closed s = false -> lf_closed s' = true -> lf_starting s = NotStarting) -> orderlyRun s'.

(** What holds of such a run. *)
Definition orderly (s : Life) : Prop :=
  (lf_closed s = false -> lf_closing s = NotClosing) /\
    (lf_closed s = true -> lf_starting s = NotStarting /\ lf_timers s = false /\ lf_signals s = false /\
    lf_closing s <> NotClosing /\ (lf_closing s = AllClosed -> lf_http s = false)).

Lemma orderlyRun_orderly s : orderlyRun s -> orderly s.
Proof.
  induction 1 as [|s s' Hr [Ho Hc] Hstep Hord]; [split; [reflexivity | discriminate]|].
  unfold orderly in *. destruct s as [closed started http timers signals starting closing].
  inversion Hstep; subst; cbn [lf_closed lf_started lf_http lf_timers lf_signals lf_starting lf_closing] in *.
  - subst. destruct (ac_http_enabled config); cbn; (split; [auto | discriminate]).
  - subst. cbn. split; [exact Ho|]. intros E. now destruct (Hc E).
  - subst. split; [exact Ho|]. intros E. now destruct (Hc E).
  - subst. split; [exact Ho|]. intros E. now destruct (Hc E).
  - subst. split; [exact Ho|]. intros E. now destruct (Hc E).
  - split; [discriminate|]. intros _. destruct http; repeat split; auto; try discriminate; now apply Hord.
  - split; [intros E; now rewrite (Ho E) in *|]. intros E. destruct (Hc E) as (Hs & Ht & Hg & _ & _). repeat split; auto; discriminate.
Qed.

(** An application that is closed, and was not closed while it was
    starting, runs nothing: no loop, no signal handler, no start in flight,
    and once closing is done no server. *)
Theorem closed_runs_nothing s : orderlyRun s -> lf_closed s = true ->
  lf_starting s = NotStarting /\ lf_timers s = false /\ lf_signals s = false /\ (lf_closing s = AllClosed -> lf_http s = false).
Proof. intros Hr Hcl. apply orderlyRun_orderly in Hr as [_ Hc]. destruct (Hc Hcl) as (? & ? & ? & _ & ?). auto. Qed.

(** Closed while the server is coming up, it runs on: the server listens and
    the loops run on the closed database, and nothing can close them. *)
Lemma close_during_start_leaks : ac_http_enabled config = true -> loops config = true ->
  exists s, lifeRun config s /\ lf_closed s = true /\ lf_closing s = AllClosed /\ lf_http s = true /\ lf_timers s = true.
Proof.
  intros Hh Hl. eexists. split.
  - eapply life_more; [eapply life_more; [eapply life_more; [apply life_new | apply life_start; reflexivity]|]|].
    + rewrite Hh. apply life_close. reflexivity.
    + apply life_listening; [reflexivity | exact Hh].
  - cbn. rewrite Hl. auto.
Qed.

(** A start that failed counts as started: the next one returns without
    starting anything. *)
Lemma failed_start_is_final : ac_http_enabled config = true ->
  exists s, lifeRun config s /\ lf_closed s = false /\ lf_started s = true /\ lf_http s = false /\ lf_timers s = false /\ lf_starting s = NotStarting /\
    forall s', lifeStep config s s' -> lf_closed s' = true.
Proof.
  intros Hh. eexists. split.
  - eapply life_more; [eapply life_more; [apply life_new | apply life_start; reflexivity]|]. rewrite Hh. apply life_failed. reflexivity.
  - cbn. repeat split; try reflexivity. intros s' Hs. inversion Hs; subst; cbn in *; (reflexivity || discriminate).
Qed.
End lifecycle.

(** ** Witnesses *)

Definition demoOperations : @TenantOperations MemDB :=
  let echo (name : string) : M MemDB jsval := mret (JStr name) in
  mkTenantOperations (fun capability _ _ => echo capability) (Ok (fun _ _ => echo "createApiKey")) (Ok (fun _ _ => echo "revokeApiKey"))
    (Ok (fun _ _ => echo "createWebhookEndpoint")) (Ok (fun _ _ => echo "emitWebhookEvent")) (Ok (fun _ _ => echo "enqueue"))
    (Ok (fun _ _ => echo "createFile")) (Ok (fun _ _ => echo "listFiles")) (Ok (fun input _ => mret (getField input "tenantId")))
    (Ok (fun _ _ _ => echo "listNotifications")) (Ok (fun _ _ => echo "createSchedule")) (Throw (CapabilityNotDeclaredError "schedules"))
    (fun _ _ _ => echo "publish").

Lemma tenant_helpers_confined_witness :
  (forTenant demoOperations "t1" (CallEnqueue []) (Some (CVerified alice)) (demo emptyDB)).2 = Ok (JStr "enqueue") /\
  exists e, forall w, forTenant demoOperations "t2" (CallEnqueue []) (Some (CVerified alice)) w = (w, Throw e).
Proof.
  split; [reflexivity|].
  apply (tenant_helpers_confined demoOperations "t2" (CallEnqueue []) (Some (CVerified alice))); [intros p [= <-]; discriminate | exact I].
Defined.

Definition orderEndpoint : WebhookEndpoint :=
  mkEndpoint "e1" "t1" (Some "app") "https://hooks.example.com/in" ["order.paid"] None "2023-11-14T22:13:20.000Z" "alice" None 1.

(** One endpoint of tenant "t1", whose delivery is noted in the world; other
    tenants have what [others] gives, and delivering there does [elsewhere]. *)
Definition demoOutbound (others : list WebhookEndpoint) (elsewhere : M MemDB unit) : @PublishWebhooks MemDB :=
  mkPublishWebhooks (fun tenantId => mret (if String.eqb tenantId "t1" then [orderEndpoint] else others))
    (fun _ _ p => if String.eqb (vp_tenantId p) "t1" then mret ["w1"] else throw (JsError "Error" "other"))
    (fun tenantId _ => if String.eqb tenantId "t1" then modify (fun w => w <| w_uses := S (w_uses w) |>) else elsewhere).

#[local] Abbreviation demoPublished hooks :=
  (publishEvent (Some hooks) [] accepting (Ok "t9") (newEvents 1000) "order.paid" JNull (Publishing None (Some (CVerified alice))) (demo emptyDB)).

(** Alice's event is delivered in her tenant, whatever the webhooks of other
    tenants are; the same event published by nobody is refused. *)
Lemma publish_needs_principal_witness :
  w_uses (demoPublished (demoOutbound [] (mret tt))).1 = 1%nat /\
  demoPublished (demoOutbound [] (mret tt)) = demoPublished (demoOutbound [orderEndpoint] (throw (JsError "Error" "evil"))) /\
  exists message,
    publishEvent (Some (demoOutbound [] (mret tt))) [] accepting (Ok "t9") (newEvents 1000) "order.paid" JNull (ByTenant "t1") (demo emptyDB)
    = (demo emptyDB, Throw (ServiceAuthorityError UNAUTHENTICATED message noDetails)).
Proof.
  split; [reflexivity|]. split.
  - destruct (publish_needs_principal (DB := MemDB) [] accepting (Ok "t9") (newEvents 1000) "order.paid" JNull (Publishing None (Some (CVerified alice))))
      as [(e & He)|(principal & tenantId & Has & Hsame & _)].
    + specialize (He None (demo emptyDB)). vm_compute in He. discriminate He.
    + apply Hsame. inversion Has; subst. split; [reflexivity|]. intros p [= <-]. split; reflexivity.
  - destruct (publish_needs_principal (DB := MemDB) [] accepting (Ok "t9") (newEvents 1000) "order.paid" JNull (ByTenant "t1"))
      as [(e & He)|(principal & tenantId & Has & _ & Hasks & _)].
    + specialize (He None (demo emptyDB)). vm_compute in He. discriminate He.
    + inversion Has; subst. apply (Hasks (demoOutbound [] (mret tt)) (demo emptyDB) (demo emptyDB) [orderEndpoint] eq_refl).
      exists orderEndpoint. split; [now left|]. split; [reflexivity | now left].
Defined.

(** Started, then closed, its server down. *)
Lemma closed_runs_nothing_witness :
  let closed := mkLife true true false false false NotStarting AllClosed in
  orderlyRun (demoConfig true) closed /\ lf_timers closed = false /\ (lf_closing closed = AllClosed -> lf_http closed = false).
Proof.
  intros closed.
  assert (orderlyRun (demoConfig true) (mkLife false true true false false NotStarting NotClosing)) as Hup.
  { eapply (orderly_more _ (mkLife false true false false false AwaitHttp NotClosing)); [|apply (life_listening (demoConfig true) (mkLife false true false false false AwaitHttp NotClosing)); reflexivity | discriminate].
    eapply (orderly_more _ newLife); [apply orderly_new | apply (life_start (demoConfig true) newLife); reflexivity | discriminate]. }
  assert (orderlyRun (demoConfig true) closed) as Hr.
  { eapply (orderly_more _ (mkLife true true true false false NotStarting AwaitHttpClose)); [|apply (life_http_closed (demoConfig true) (mkLife true true true false false NotStarting AwaitHttpClose)); reflexivity | discriminate].
    eapply (orderly_more _ _ _ Hup); [apply (life_close (demoConfig true) (mkLife false true true false false NotStarting NotClosing)); reflexivity | reflexivity]. }
  split; [exact Hr|]. destruct (closed_runs_nothing (demoConfig true) closed Hr eq_refl) as (_ & Ht & _ & Hh). split; [exact Ht | exact Hh].
Defined.
