(* ===== verification/Ui.v ===== *)
(** * Ui: the management pages ([runtime/ui.ts], [configuration/ui.ts])

    Which pages a host serves, what it tells about them, and the document a
    page is.  The UI protocol's validator and filter, [JSON.stringify], the
    URL parser and the packaged styles and scripts are parameters. *)

From S2P Require Import Prelude JsString Errors Models Manifest Extensions.
From Stdlib Require Import ZArith Lia Ascii.
Local Open Scope string_scope.
Local Open Scope Z_scope.

(** ** Surfaces *)

Record UiMountedServices := mkMounted {
  um_apiKeys : bool; um_webhooks : bool; um_jobs : bool; um_schedules : bool;
  um_files : bool; um_notifications : bool; um_configuration : bool; um_intelligence : bool }.

Record SurfaceDefinition := mkSurfaceDefinition {
  sd_id : string;
  sd_title : string;
  sd_route : string;
  sd_order : Z;
  sd_mounted : UiMountedServices -> bool -> bool;
  sd_capabilities : list string }.

(** The pages behind the overview. *)
Definition PAGE_SURFACES : list SurfaceDefinition := [
  mkSurfaceDefinition "api-keys" "API Keys" "/api-keys" 10 (fun s _ => um_apiKeys s) ["apikeys.read"; "apikeys.create"; "apikeys.revoke"];
  mkSurfaceDefinition "webhooks" "Webhooks" "/webhooks" 20 (fun s _ => um_webhooks s) ["webhooks.read"; "webhooks.register"; "webhooks.remove"];
  mkSurfaceDefinition "jobs" "Jobs" "/jobs" 30 (fun s _ => um_jobs s) ["jobs.read"; "jobs.create"; "jobs.retry"];
  mkSurfaceDefinition "schedules" "Schedules" "/schedules" 40 (fun s _ => um_schedules s) ["schedules.read"; "schedules.create"; "schedules.cancel"];
  mkSurfaceDefinition "notifications" "Notifications" "/notifications" 50 (fun s _ => um_notifications s)
    ["notifications.read"; "notifications.send"; "notifications.update"; "notifications.delete"];
  mkSurfaceDefinition "files" "Files" "/files" 60 (fun s _ => um_files s) ["files.read"; "files.write"; "files.delete"];
  mkSurfaceDefinition "configuration" "Configuration" "/configuration" 70 (fun s c => c && um_configuration s)
    ["configuration.read"; "configuration.write"; "configuration.delete"];
  mkSurfaceDefinition "intelligence" "Intelligence" "/intelligence" 75 (fun s c => c && um_intelligence s)
    ["intelligence.catalog"; "intelligence.read"; "intelligence.write"; "intelligence.credential.set"; "intelligence.credential.remove"];
  mkSurfaceDefinition "secrets" "Secrets" "/secrets" 80 (fun s c => c && um_configuration s)
    ["configuration.read"; "credential.attach"; "credential.rotate"; "credential.detach"; "credential.status"; "credential.store"] ].

(** [countPages]: the mounted surfaces but the overview. *)
Definition countPages (services : UiMountedServices) (includeConfiguration : bool) (extensionPages : nat) : nat :=
  (length (List.filter (fun s => sd_mounted s services includeConfiguration) PAGE_SURFACES) + extensionPages)%nat.

Definition SURFACES : list SurfaceDefinition :=
  mkSurfaceDefinition "overview" "AppPort Services" "/services" 0 (fun s c => Nat.ltb 2 (countPages s c 0)) [] :: PAGE_SURFACES.

(** A surface that is mounted; an extension's page brings its description and
    its script. *)
Record MountedSurface := mkSurface {
  ms_id : string;
  ms_title : string;
  ms_route : string;
  ms_order : jsval;
  ms_capabilities : list string;
  ms_extension : option (string * string * string) }.

Definition builtInSurface (s : SurfaceDefinition) : MountedSurface :=
  mkSurface (sd_id s) (sd_title s) (sd_route s) (JInt (sd_order s)) (sd_capabilities s) None.

Definition extensionSurface (x : ServicesExtension) (page : ServicesExtensionPage) : MountedSurface :=
  mkSurface (xp_id page) (xp_title page) (xp_route page) (xp_order page) (xp_capabilities page)
    (Some (xn_id x, xp_description page, xp_script page)).

Definition extensionPages (extensions : list ServicesExtension) : list MountedSurface :=
  flat_map (fun x => map (extensionSurface x) (xn_pages x)) extensions.

Definition mountedSurfaces (services : UiMountedServices) (includeConfiguration : bool) (extensions : list ServicesExtension)
  : list MountedSurface :=
  let pages := extensionPages extensions in
  let shown (s : SurfaceDefinition) :=
    if String.eqb (sd_id s) "overview" then
      match pages with
      | [] => sd_mounted s services includeConfiguration
      | _ => Nat.ltb 2 (countPages services includeConfiguration (length pages))
      end
    else sd_mounted s services includeConfiguration in
  (map builtInSurface (List.filter shown SURFACES) ++ pages)%list.

(** ** The contribution of [AppPort/ui/1] *)

Record UiSurface := mkUiSurface { us_id : string; us_title : string; us_route : string; us_capabilities : list string }.

Record UiNavigation := mkNavigation {
  un_id : string; un_label : string; un_group : string; un_order : jsval; un_surface : string }.

Record UiContribution := mkContribution {
  uc_product : string;
  uc_version : string;
  uc_surfaces : list UiSurface;
  uc_navigation : list UiNavigation;
  uc_requires : list string }.

Definition PRODUCT_ID : string := "appport-services".
Definition GROUP : string := "AppPort Services".

Definition contributionOf (version : string) (mounted : list MountedSurface) : UiContribution :=
  mkContribution PRODUCT_ID version
    (map (fun s => mkUiSurface (ms_id s) (ms_title s) (ms_route s) (ms_capabilities s)) mounted)
    (map (fun s => mkNavigation ("appport-services." ++ ms_id s) (ms_title s) GROUP (ms_order s) (ms_id s)) mounted)
    [].

Section protocol.
Variable version : string.
(** [validateUiContribution] *)
Variable validate : UiContribution -> outcome UiContribution.
(** [filterUiContribution] *)
Variable filterUi : UiContribution -> list string -> jsval.

Definition createUiContribution (services : UiMountedServices) (includeConfiguration : bool) (extensions : list ServicesExtension)
  : outcome (option UiContribution) :=
  match mountedSurfaces services includeConfiguration extensions with
  | [] => Ok None
  | mounted => c ← validate (contributionOf version mounted); Ok (Some c)
  end.

Definition createUiDiscoveryDocument (services : UiMountedServices) (includeConfiguration : bool) (extensions : list ServicesExtension)
  (callerCapabilities : list string) : outcome (option jsval) :=
  contribution ← createUiContribution services includeConfiguration extensions;
  Ok match contribution with Some c => Some (filterUi c callerCapabilities) | None => None end.
End protocol.

(** ** Pages *)

Record UiPage := mkUiPage {
  pg_id : string;
  pg_title : string;
  pg_route : string;
  pg_order : jsval;
  pg_extension : option (string * string * string) }.

Definition pageOf (s : MountedSurface) : UiPage := mkUiPage (ms_id s) (ms_title s) (ms_route s) (ms_order s) (ms_extension s).

Definition EVERYTHING : UiMountedServices := mkMounted true true true true true true true true.

(** [orderLe]: [a.order <= b.order]; the sort is stable. *)
Definition createUiPages (orderLe : jsval -> jsval -> bool) (services : UiMountedServices) (includeConfiguration : bool)
  (extensions : list ServicesExtension) : list UiPage :=
  map pageOf (sortBy (fun a b => orderLe (ms_order a) (ms_order b)) (mountedSurfaces services includeConfiguration extensions)).

(** ** The document of a page *)

(** [text.replace(/</g, ...)] and the two line separators, which in UTF-8 are
    the bytes E2 80 A8 and E2 80 A9. *)
Fixpoint replaceLt (s : string) : string :=
  match s with
  | EmptyString => EmptyString
  | String c r => if Nat.eqb (code c) 60 then "\u003c" ++ replaceLt r else String c (replaceLt r)
  end.

Definition separator (third : nat) : string :=
  String (ascii_of_nat 226) (String (ascii_of_nat 128) (String (ascii_of_nat third) EmptyString)).

Fixpoint replaceSeparators (s : string) : string :=
  match s with
  | EmptyString => EmptyString
  | String c r =>
      if startsWith s (separator 168) then match r with String _ (String _ r') => "\u2028" ++ replaceSeparators r' | _ => s end
      else if startsWith s (separator 169) then match r with String _ (String _ r') => "\u2029" ++ replaceSeparators r' | _ => s end
      else String c (replaceSeparators r)
  end.

(** [scriptJson]; [text] is the result of [JSON.stringify]. *)
Definition scriptJson (text : string) : string := replaceSeparators (replaceLt text).

Fixpoint escapeText (s : string) : string :=
  match s with
  | EmptyString => EmptyString
  | String c r =>
      (if Ascii.eqb c "&" then "&amp;" else if Nat.eqb (code c) 60 then "&lt;" else if Ascii.eqb c ">" then "&gt;"
       else if Nat.eqb (code c) 34 then "&quot;" else String c EmptyString) ++ escapeText r
  end.

Definition DESCRIPTIONS : list (string * string) := [
  ("api-keys", "Application caller identities. AuthBoundry authorizes what they may do.");
  ("webhooks", "Register durable event endpoints.");
  ("jobs", "Queue durable work and retry failed records.");
  ("schedules", "Create recurring work using plain English intervals.");
  ("notifications", "Create and manage durable notifications.");
  ("files", "Create and update durable file metadata.");
  ("configuration", "Variables and secret references for each environment.");
  ("intelligence", "Provider, model, endpoint and credential for AI features. Optional.");
  ("secrets", "Provider-neutral secret metadata.") ].

(** The packaged styles and scripts. *)
Record Assets := mkAssets { as_style : string; as_designSystem : string; as_page : string }.

(** Trailing slashes off. *)
Fixpoint trimSlashes (s : string) : string :=
  match s with
  | EmptyString => EmptyString
  | String c r =>
      match trimSlashes r with
      | EmptyString => if Ascii.eqb c "/" then EmptyString else String c EmptyString
      | r' => String c r'
      end
  end.

(** The characters of a path segment. *)
Definition pathChar (c : ascii) : bool :=
  isAlnum c || existsb (fun k => Nat.eqb (code c) k) [46; 95; 126; 33; 36; 38; 39; 40; 41; 42; 43; 44; 59; 61; 58; 64; 37; 45]%nat.

(** A path: segments that are not empty, each after a slash. *)
Definition isPath (s : string) : bool :=
  match splitOn "/" s with
  | EmptyString :: (_ :: _) as parts => forallb (fun p => truthy p && all pathChar p) (tail parts)
  | _ => false
  end.

(** What [new URL] finds. *)
Record ParsedUrl := mkParsedUrl {
  pu_protocol : string; pu_username : string; pu_password : string; pu_search : string; pu_hash : string;
  pu_origin : string; pu_pathname : string }.

Definition basePathError {A} (message : string) : outcome A := Throw (JsError "TypeError" message).

Definition normalizeBasePath (parseUrl : string -> option ParsedUrl) (value : jsval) : outcome string :=
  match value with
  | JUndef | JStr EmptyString => Ok EmptyString
  | JStr text =>
      let trimmed := trimSlashes text in
      if negb (truthy trimmed) then Ok EmptyString
      else if startsWith trimmed "/" && negb (startsWith trimmed "//") then
        if isPath trimmed then Ok trimmed else basePathError "basePath must be a URL path such as /services-admin"
      else
        match parseUrl trimmed with
        | None => basePathError "basePath must be a path starting with / or an http(s) origin"
        | Some url =>
            if (negb (String.eqb (pu_protocol url) "https:") && negb (String.eqb (pu_protocol url) "http:"))
               || truthy (pu_username url) || truthy (pu_password url) || truthy (pu_search url) || truthy (pu_hash url)
            then basePathError "basePath must be an http(s) origin with an optional path, and no credentials, query or fragment"
            else Ok (pu_origin url ++ trimSlashes (pu_pathname url))
        end
  | _ => basePathError "basePath must be a string"
  end.

Section render.
(** [JSON.stringify] *)
Variable stringify : jsval -> string.
Variable assets : Assets.

(** [{ ...DESCRIPTIONS, ...extensionDescriptions }] *)
Fixpoint withDescription (l : list (string * string)) (id description : string) : list (string * string) :=
  match l with
  | [] => [(id, description)]
  | (k, v) :: r => if String.eqb k id then (k, description) :: r else (k, v) :: withDescription r id description
  end.

Definition descriptionsOf (pages : list UiPage) : list (string * string) :=
  foldl (fun l p => match pg_extension p with Some (_, description, _) => withDescription l (pg_id p) description | None => l end)
    DESCRIPTIONS pages.

Definition pageDescription (page : UiPage) (pages : list UiPage) (basePath : string) : jsval :=
  JObj ([("page", JStr (pg_id page))]
        ++ (if truthy basePath then [("basePath", JStr basePath)] else [])
        ++ [("navigation", JArr (map (fun p => JObj [("id", JStr (pg_id p)); ("label", JStr (pg_title p));
                                                    ("route", JStr (pg_route p)); ("order", pg_order p)]) pages));
            ("descriptions", JObj (map (fun d => (fst d, JStr (snd d))) (descriptionsOf pages)))])%list.

Definition pageTitle (page : UiPage) : string :=
  if String.eqb (pg_id page) "overview" then "AppPort Services"
  else "AppPort Services " ++ String (ascii_of_nat 194) (String (ascii_of_nat 183) EmptyString) ++ " " ++ pg_title page.

Definition renderManagementPage (page : UiPage) (pages : list UiPage) (basePath : string) : string :=
  let extensionScript := match pg_extension page with Some (_, _, script) => "<script>" ++ script ++ "</script>" | None => "" end in
  "<!doctype html><html lang=" ++ quoted "en" ++ "><head><meta charset=" ++ quoted "utf-8" ++ ">"
  ++ "<meta name=" ++ quoted "viewport" ++ " content=" ++ quoted "width=device-width, initial-scale=1" ++ ">"
  ++ "<title>" ++ escapeText (pageTitle page) ++ "</title><style>" ++ as_style assets ++ "</style></head><body>"
  ++ "<noscript><p class=" ++ quoted "appport-noscript" ++ ">The " ++ escapeText (pg_title page) ++ " page needs JavaScript.</p></noscript>"
  ++ "<script type=" ++ quoted "application/json" ++ " id=" ++ quoted "appport-page" ++ ">" ++ scriptJson (stringify (pageDescription page pages basePath)) ++ "</script>"
  ++ "<script>" ++ as_designSystem assets ++ "</script>" ++ extensionScript ++ "<script>" ++ as_page assets ++ "</script>"
  ++ "</body></html>".
End render.
