(* ===== verification/UiProps.v ===== *)
(** * UiProps: the pages a host serves and what it tells about them *)

From S2P Require Import Prelude JsString Errors Models Manifest Extensions Ui.
From Stdlib Require Import ZArith Lia Ascii Sorting.Sorted.
Local Open Scope string_scope.
Local Open Scope Z_scope.

(** ** Which surfaces are mounted *)

Definition surfaceOf (s : MountedSurface) : string * string * string := (ms_id s, ms_title s, ms_route s).
Definition entryOf (s : MountedSurface) : string * string * jsval := (ms_id s, ms_title s, ms_order s).

(** The landing page of this package. *)
Definition isOverview (id : string) (extension : option (string * string * string)) : bool :=
  String.eqb id "overview" && match extension with None => true | Some _ => false end.

Definition overviewPage (p : UiPage) : bool := isOverview (pg_id p) (pg_extension p).
Definition overviewSurface (s : MountedSurface) : bool := isOverview (ms_id s) (ms_extension s).

Lemma filter_app_ {A} (f : A -> bool) l m : List.filter f (l ++ m) = (List.filter f l ++ List.filter f m)%list.
Proof. apply List.filter_app. Qed.

Lemma filter_every {A} (f : A -> bool) l : (forall a, In a l -> f a = true) -> List.filter f l = l.
Proof.
  induction l as [|a l IH]; intros Hf; [reflexivity|]. cbn. rewrite (Hf a) by now left. f_equal. apply IH. intros b Hb. apply Hf. now right.
Qed.

Lemma existsb_never {A} (f : A -> bool) l : (forall a, In a l -> f a = false) -> existsb f l = false.
Proof.
  induction l as [|a l IH]; intros Hf; [reflexivity|]. cbn. rewrite (Hf a) by now left. apply IH. intros b Hb. apply Hf. now right.
Qed.

Lemma extensionPages_other xs s : In s (extensionPages xs) -> overviewSurface s = false.
Proof.
  unfold extensionPages. rewrite in_flat_map. intros (x & _ & Hs). apply in_map_iff in Hs as (page & <- & _).
  unfold overviewSurface, isOverview. cbn. apply andb_false_r.
Qed.

(** The pages behind the overview that are mounted. *)
Definition behindOverview (services : UiMountedServices) (includeConfiguration : bool) (xs : list ServicesExtension) : list MountedSurface :=
  (map builtInSurface (List.filter (fun s => sd_mounted s services includeConfiguration) PAGE_SURFACES) ++ extensionPages xs)%list.

Lemma behindOverview_other services c xs s : In s (behindOverview services c xs) -> overviewSurface s = false.
Proof.
  intros Hs. apply in_app_iff in Hs as [Hs|Hs]; [|exact (extensionPages_other _ _ Hs)].
  apply in_map_iff in Hs as (d & <- & Hd). apply filter_In in Hd as [Hd _].
  pose proof (eq_refl : forallb (fun d => negb (overviewSurface (builtInSurface d))) PAGE_SURFACES = true) as Hall.
  rewrite forallb_forall in Hall. now apply negb_true_iff, Hall.
Qed.

(** The overview is mounted in front of more than two other pages. *)
Lemma mountedSurfaces_split services c xs :
  mountedSurfaces services c xs =
  ((if Nat.ltb 2 (length (behindOverview services c xs)) then [builtInSurface (mkSurfaceDefinition "overview" "AppPort Services" "/services" 0
      (fun s c => Nat.ltb 2 (countPages s c 0)) [])] else []) ++ behindOverview services c xs)%list.
Proof.
  unfold mountedSurfaces, behindOverview. rewrite length_app, length_map. cbv zeta. cbn [SURFACES List.filter sd_id].
  change (String.eqb "overview" "overview") with true. cbn [sd_mounted].
  assert (forall f, List.filter (fun s => if String.eqb (sd_id s) "overview" then f s else sd_mounted s services c) PAGE_SURFACES =
    List.filter (fun s => sd_mounted s services c) PAGE_SURFACES) as -> by reflexivity.
  unfold countPages. destruct (extensionPages xs) as [|x l]; [|destruct (Nat.ltb 2 _); reflexivity].
  rewrite app_nil_r. cbn [length]. destruct (Nat.ltb 2 _); cbn [map app]; rewrite ?app_nil_r; reflexivity.
Qed.

(** ** Pages and surfaces *)

Lemma pages_perm orderLe services c xs :
  createUiPages orderLe services c xs ≡ₚ map pageOf (mountedSurfaces services c xs).
Proof. unfold createUiPages. now rewrite sortBy_perm. Qed.

Lemma sorted_map {A B} (R : B -> B -> Prop) (f : A -> B) l : Sorted (fun a b => R (f a) (f b)) l -> Sorted R (map f l).
Proof.
  induction 1 as [|a l _ IH Hd]; cbn; constructor; [exact IH|]. destruct Hd; cbn; constructor. assumption.
Qed.

Lemma existsb_perm {A} (f : A -> bool) l m : l ≡ₚ m -> existsb f l = existsb f m.
Proof. induction 1; cbn; try congruence. now rewrite !orb_assoc, (orb_comm (f y)). Qed.

Lemma filter_perm {A} (f : A -> bool) l m : l ≡ₚ m -> length (List.filter f l) = length (List.filter f m).
Proof. induction 1; cbn; repeat case_match; cbn; congruence. Qed.

Lemma filter_map_length {A B} (f : B -> bool) (g : A -> B) l : length (List.filter f (map g l)) = length (List.filter (fun a => f (g a)) l).
Proof. induction l as [|a l IH]; [reflexivity|]. cbn. destruct (f (g a)); cbn; now rewrite IH. Qed.

Lemma existsb_map {A B} (f : B -> bool) (g : A -> B) l : existsb f (map g l) = existsb (fun a => f (g a)) l.
Proof. induction l as [|a l IH]; [reflexivity|]. cbn. now rewrite IH. Qed.

(** The overview is served exactly in front of more than two other pages. *)
Lemma overview_exactly orderLe services c xs :
  let pages := createUiPages orderLe services c xs in
  existsb overviewPage pages = Nat.ltb 2 (length (List.filter (fun p => negb (overviewPage p)) pages)).
Proof.
  cbv zeta. rewrite (existsb_perm _ _ _ (pages_perm orderLe services c xs)), (filter_perm _ _ _ (pages_perm orderLe services c xs)).
  rewrite existsb_map, filter_map_length, mountedSurfaces_split.
  change (fun a => overviewPage (pageOf a)) with overviewSurface. change (fun a => negb (overviewPage (pageOf a))) with (fun a => negb (overviewSurface a)).
  rewrite existsb_app, filter_app_, length_app, (existsb_never _ _ (behindOverview_other services c xs)).
  rewrite (filter_every _ (behindOverview services c xs)) by (intros a Ha; now rewrite (behindOverview_other _ _ _ _ Ha)).
  destruct (Nat.ltb 2 (length (behindOverview services c xs))) eqn:E; cbn; now rewrite ?E.
Qed.

(** ** Text in a page *)

Fixpoint occurs (needle s : string) : bool :=
  startsWith s needle || match s with EmptyString => false | String _ r => occurs needle r end.

(** No character of [s] is one of [codes]. *)
Definition without (codes : list nat) (s : string) : bool := all (fun c => negb (existsb (Nat.eqb (code c)) codes)) s.

Lemma without_append codes a b : without codes (a ++ b) = without codes a && without codes b.
Proof. apply all_append. Qed.

Lemma without_cons codes c s : without codes (String c s) = negb (existsb (Nat.eqb (code c)) codes) && without codes s.
Proof. reflexivity. Qed.

Lemma replaceLt_without s : without [60%nat] (replaceLt s) = true.
Proof.
  induction s as [|c s IH]; [reflexivity|]. cbn [replaceLt]. destruct (Nat.eqb (code c) 60) eqn:E.
  - now rewrite without_append, IH.
  - rewrite without_cons, IH. cbn [existsb]. now rewrite E.
Qed.

Lemma escapeText_without s : without [60; 62; 34]%nat (escapeText s) = true.
Proof.
  induction s as [|c s IH]; [reflexivity|]. cbn [escapeText]. rewrite without_append, IH, andb_true_r.
  destruct (Ascii.eqb_spec c "&") as [->|_]; [reflexivity|]. destruct (Nat.eqb (code c) 60) eqn:E1; [reflexivity|].
  destruct (Ascii.eqb c ">") eqn:E2; [reflexivity|]. destruct (Nat.eqb (code c) 34) eqn:E3; [reflexivity|].
  rewrite without_cons. cbn [existsb]. rewrite E1, E3. destruct (Nat.eqb_spec (code c) 62) as [E|]; [|reflexivity].
  unfold code in E. rewrite <- (ascii_nat_embedding c), E in E2. discriminate E2.
Qed.

Lemma startsWith_cons c d s p : startsWith (String c s) (String d p) = Ascii.eqb d c && startsWith s p.
Proof.
  unfold startsWith. cbn. destruct (ascii_dec d c) as [->|Hn]; [now rewrite Ascii.eqb_refl|].
  now rewrite (proj2 (Ascii.eqb_neq d c) Hn).
Qed.

Lemma separator_start third c r : startsWith (String c r) (separator third) = true ->
  c = ascii_of_nat 226 /\ exists r', r = String (ascii_of_nat 128) (String (ascii_of_nat third) r').
Proof.
  unfold separator. rewrite startsWith_cons, andb_true_iff. intros [<-%Ascii.eqb_eq E]. split; [reflexivity|].
  destruct r as [|d r]; [discriminate E|]. rewrite startsWith_cons, andb_true_iff in E. destruct E as [<-%Ascii.eqb_eq E].
  destruct r as [|d' r]; [discriminate E|]. rewrite startsWith_cons, andb_true_iff in E. destruct E as [<-%Ascii.eqb_eq _]. eauto.
Qed.

(** The characters a replaced text starts with. *)
Definition keptHead (s : string) : Prop :=
  match replaceSeparators s with
  | EmptyString => True
  | String c out => Nat.eqb (code c) 92 = true \/ exists r, s = String c r /\ out = replaceSeparators r
  end.

Lemma replaceSeparators_head s : keptHead s.
Proof.
  unfold keptHead. destruct s as [|c r]; cbn [replaceSeparators]; [exact I|].
  destruct (startsWith (String c r) (separator 168)) eqn:E1.
  { apply separator_start in E1 as (_ & r' & ->). left. reflexivity. }
  destruct (startsWith (String c r) (separator 169)) eqn:E2.
  { apply separator_start in E2 as (_ & r' & ->). left. reflexivity. }
  right. eauto.
Qed.

(** What follows the first byte of a separator is not the start of a
    replacement. *)
Lemma replaceSeparators_prefix p s : all (fun c => negb (Nat.eqb (code c) 92)) p = true ->
  startsWith (replaceSeparators s) p = true -> startsWith s p = true.
Proof.
  revert s. induction p as [|d p IH]; intros s Hp E; [destruct s; reflexivity|]. cbn [all] in Hp. apply andb_true_iff in Hp as [Hd Hp].
  pose proof (replaceSeparators_head s) as Hh. unfold keptHead in Hh. destruct (replaceSeparators s) as [|c out]; [discriminate E|].
  rewrite startsWith_cons in E. apply andb_true_iff in E as [Ec E]. apply Ascii.eqb_eq in Ec as ->.
  destruct Hh as [Hh|(r & -> & ->)]; [now rewrite Hh in Hd|]. rewrite startsWith_cons, Ascii.eqb_refl. now apply IH.
Qed.

Lemma occurs_cons c d needle s : Ascii.eqb d c = false -> occurs (String d needle) (String c s) = occurs (String d needle) s.
Proof. intros Hn. cbn [occurs]. now rewrite startsWith_cons, Hn. Qed.

Lemma occurs_unescaped third s : occurs (separator third) s = false ->
  occurs (separator third) ("\u2028" ++ s) = false /\ occurs (separator third) ("\u2029" ++ s) = false.
Proof.
  unfold separator. intros Hs. split;
    (change (_ ++ s) with (String "\" (String "u" (String "2" (String "0" (String "2" (String "8" s)))))) ||
     change (_ ++ s) with (String "\" (String "u" (String "2" (String "0" (String "2" (String "9" s)))))));
    now rewrite !occurs_cons.
Qed.

Lemma replaceSeparators_none third s : third = 168%nat \/ third = 169%nat -> occurs (separator third) (replaceSeparators s) = false.
Proof.
  intros Ht. remember (String.length s) as n eqn:Hn. assert (String.length s <= n)%nat as Hle by lia. clear Hn. revert s Hle.
  induction n as [|n IH]; intros [|c r] Hle; try (destruct Ht as [-> | ->]; reflexivity); cbn [String.length] in Hle; [lia|].
  cbn [replaceSeparators].
  destruct (startsWith (String c r) (separator 168)) eqn:E1.
  { apply separator_start in E1 as (-> & r' & ->). cbn [String.length] in Hle.
    apply (occurs_unescaped _ _ (IH r' ltac:(lia))). }
  destruct (startsWith (String c r) (separator 169)) eqn:E2.
  { apply separator_start in E2 as (-> & r' & ->). cbn [String.length] in Hle.
    apply (occurs_unescaped _ _ (IH r' ltac:(lia))). }
  cbn [occurs]. rewrite IH by lia. rewrite orb_false_r. unfold separator in *. rewrite !startsWith_cons in *.
  destruct (Ascii.eqb (ascii_of_nat 226) c); [|reflexivity]. cbn [andb] in *.
  destruct (startsWith (replaceSeparators r) _) eqn:E; [|reflexivity]. apply replaceSeparators_prefix in E; [|now destruct Ht as [-> | ->]].
  destruct Ht as [-> | ->]; congruence.
Qed.

Lemma replaceSeparators_without codes s :
  without codes "\u2028" = true -> without codes "\u2029" = true -> without codes s = true -> without codes (replaceSeparators s) = true.
Proof.
  intros H8 H9. remember (String.length s) as n eqn:Hn. assert (String.length s <= n)%nat as Hle by lia. clear Hn. revert s Hle.
  induction n as [|n IH]; intros [|c r] Hle Hs; try reflexivity; cbn [String.length] in Hle; [lia|].
  cbn [replaceSeparators]. destruct (startsWith (String c r) (separator 168)) eqn:E1.
  { apply separator_start in E1 as (-> & r' & ->). cbn [String.length] in Hle.
    rewrite !without_cons, !andb_true_iff in Hs. rewrite without_append, H8. apply IH; [lia | tauto]. }
  destruct (startsWith (String c r) (separator 169)) eqn:E2.
  { apply separator_start in E2 as (-> & r' & ->). cbn [String.length] in Hle.
    rewrite !without_cons, !andb_true_iff in Hs. rewrite without_append, H9. apply IH; [lia | tauto]. }
  rewrite without_cons, andb_true_iff in Hs |- *. split; [tauto|]. apply IH; [lia | tauto].
Qed.

(** ** The claims *)

(** The pages a host serves are the surfaces it tells about.  Where the
    protocol's validator returns the document it was given: the pages are, in
    some order, exactly the contribution's surfaces - same identifier, title
    and route - and its navigation names these surfaces, one entry each, with
    the page's title and order; there is no contribution exactly if there is
    no page.  Pages come in ascending order, and the overview is among them
    exactly if there are more than two others. *)
Theorem pages_are_surfaces version validate orderLe services includeConfiguration xs :
  (forall c, validate c = Ok c) -> (forall a b, orderLe a b = false -> orderLe b a = true) ->
  let pages := createUiPages orderLe services includeConfiguration xs in
  Sorted (fun a b => orderLe (pg_order a) (pg_order b) = true) pages /\
  existsb overviewPage pages = Nat.ltb 2 (length (List.filter (fun p => negb (overviewPage p)) pages)) /\
  match createUiContribution version validate services includeConfiguration xs with
  | Ok None => pages = []
  | Ok (Some c) =>
      pages <> [] /\
      map (fun p => (pg_id p, pg_title p, pg_route p)) pages ≡ₚ map (fun u => (us_id u, us_title u, us_route u)) (uc_surfaces c) /\
      map un_surface (uc_navigation c) = map us_id (uc_surfaces c) /\
      map (fun p => (pg_id p, pg_title p, pg_order p)) pages ≡ₚ map (fun n => (un_surface n, un_label n, un_order n)) (uc_navigation c)
  | Throw _ => False
  end.
Proof.
  intros Hv Hle pages. pose proof (pages_perm orderLe services includeConfiguration xs) as Hp. fold pages in Hp.
  split; [|split; [apply overview_exactly|]].
  - apply sorted_map. apply (sortBy_sorted (fun a b => orderLe (ms_order a) (ms_order b))). intros a b. apply Hle.
  - unfold createUiContribution. destruct (mountedSurfaces services includeConfiguration xs) as [|s l] eqn:E; [now apply Permutation_nil|].
    rewrite Hv. cbn [mbind outcome_bind]. unfold mbind, outcome_bind. split; [intros Hn; rewrite Hn in Hp; now apply Permutation_nil_cons in Hp|].
    cbn [contributionOf uc_surfaces uc_navigation]. rewrite Hp, !map_map.
    split; [reflexivity|]. split; reflexivity.
Qed.

(** C31: Text in a page stays text.  Whatever JSON text describes a page, in
    its script element there is no [<] - nothing in it closes the element or
    opens another - and none of the two line separators that end a JavaScript
    line; and an escaped title holds no [<], [>] or quote. *)
Theorem page_text_inert json title :
  without [60%nat] (scriptJson json) = true /\
  occurs (separator 168) (scriptJson json) = false /\ occurs (separator 169) (scriptJson json) = false /\
  without [60; 62; 34]%nat (escapeText title) = true.
Proof.
  unfold scriptJson. split; [|split; [|split]].
  - apply replaceSeparators_without; [reflexivity.. | apply replaceLt_without].
  - apply replaceSeparators_none. now left.
  - apply replaceSeparators_none. now right.
  - apply escapeText_without.
Qed.

(** ** Witness *)

Definition demoOrderLe (a b : jsval) : bool := match a, b with JInt x, JInt y => x <=? y | JInt _, _ => true | _, JInt _ => false | _, _ => true end.

Lemma pages_are_surfaces_witness :
  let pages := createUiPages demoOrderLe EVERYTHING true [] in
  length pages = 10%nat /\ Sorted (fun a b => demoOrderLe (pg_order a) (pg_order b) = true) pages.
Proof.
  split; [vm_compute; reflexivity|].
  refine (proj1 (pages_are_surfaces "1" (fun c => Ok c) demoOrderLe EVERYTHING true [] (fun c => eq_refl) _)).
  intros [] []; cbn; try congruence. intros E. apply Z.leb_gt in E. apply Z.leb_le. lia.
Defined.
