(* ===== verification/Management.v ===== *)
(** * Management: the management router ([runtime/management.ts] and the routers it mounts)

    The routes of [createManagementRouter] with those of
    [configuration/http.ts], [intelligence/http.ts] and
    [notifications/http.ts], as the layers of an Express router in the order
    they are added.  Express is a parameter: which layer a request matches and
    with which path parameters ([matchLayer]), what the body parser made of
    the body, whether the rate limiter answers.  The services are records of
    their operations on the raw input, as for the dispatcher. *)

From S2P Require Import Prelude JsString Errors Models Store Principal Manifest Gateway Configuration Extensions Invoke Ui.
From Stdlib Require Import ZArith Lia Ascii.
Local Open Scope string_scope.
Local Open Scope Z_scope.

(** ** Requests, replies and layers *)

(** [hr_body]: the parsed body, or the parser's failure; [hr_auth]: a
    principal that an earlier middleware of the host left. *)
Record HostRequest := mkHostRequest {
  hr_method : string;
  hr_path : string;
  hr_query : list (string * jsval);
  hr_body : outcome jsval;
  hr_auth : option VerifiedPrincipal }.

Inductive HostReply :=
| Answer (status : Z) (body : jsval)
| NoContent
| Page (html : string)
| Unanswered.

Inductive Step := Done (reply : HostReply) | NextLayer.

Definition Params : Type := list (string * string).

Record HostContext := mkHostContext {
  hc_request : HostRequest;
  hc_body : jsval;
  hc_params : Params;
  hc_auth : option VerifiedPrincipal }.

Record Layer (DB : Type) := mkLayer {
  ly_method : string;
  ly_pattern : string;
  ly_run : HostContext -> M DB Step }.
Arguments ly_method {DB}. Arguments ly_pattern {DB}. Arguments ly_run {DB}.
Arguments mkLayer {DB}.

(** ** Reading the request *)

(** [req.body?.key] *)
Definition bodyField (body : jsval) (key : string) : jsval :=
  match body with JObj fields => getField fields key | _ => JUndef end.

Definition nullishOr (v fallback : jsval) : jsval := match v with JUndef | JNull => fallback | v => v end.

Definition param (c : HostContext) (key : string) : string := orElse (mapGet (hc_params c) key) "".

(** [typeof req.query.key === 'string'] *)
Definition queryText (query : list (string * jsval)) (key : string) : option string :=
  match getField query key with JStr s => Some s | _ => None end.

Definition inputError (message : string) : exn := HttpError 400 "INVALID_INPUT" message.

Definition requiredText (value : jsval) (property : string) : outcome jsval :=
  match value with
  | JStr s => if blank s then Throw (inputError (property ++ " must be a non-empty string")) else Ok value
  | _ => Throw (inputError (property ++ " must be a non-empty string"))
  end.

Definition isText (v : jsval) : bool := match v with JStr _ => true | _ => false end.

Definition stringList (value : jsval) (property : string) : outcome jsval :=
  match value with
  | JArr l => if forallb isText l then Ok value else Throw (inputError (property ++ " must be an array of strings"))
  | _ => Throw (inputError (property ++ " must be an array of strings"))
  end.

Definition objectValue (value : jsval) (property : string) : outcome (list (string * jsval)) :=
  match value with JObj fields => Ok fields | _ => Throw (inputError (property ++ " must be an object")) end.

Definition objectField (value : jsval) (property : string) : outcome jsval :=
  fields ← objectValue value property; Ok (JObj fields).

Definition nonNegativeInteger (value : jsval) (property : string) : outcome jsval :=
  match value with
  | JInt z => if z <? 0 then Throw (inputError (property ++ " must be a non-negative integer")) else Ok value
  | _ => Throw (inputError (property ++ " must be a non-negative integer"))
  end.

(** [new Date(text)], if it is a date. *)
Definition dateValue (dateOf : string -> option jsval) (value : jsval) (property : string) : outcome jsval :=
  match match value with JStr s => dateOf s | _ => None end with
  | Some date => Ok date
  | None => Throw (inputError (property ++ " must be an ISO 8601 date string"))
  end.

Definition found (value : jsval) : outcome jsval :=
  match value with JNull => Throw (HttpError 404 "NOT_FOUND" "API key not found") | v => Ok v end.

Definition foundDelivery (value : jsval) : outcome jsval :=
  match value with JNull => Throw (HttpError 404 "NOT_FOUND" "Webhook delivery not found") | v => Ok v end.

(** An object literal: its parts from left to right, the first that throws
    ends it. *)
Fixpoint objectOf (parts : list (outcome Input)) : outcome Input :=
  match parts with
  | [] => Ok []
  | part :: r => fields ← part; rest ← objectOf r; Ok (fields ++ rest)%list
  end.

(** [{ key: check(body.key, 'key') }] *)
Definition field_ (body : jsval) (key : string) (check : jsval -> string -> outcome jsval) : outcome Input :=
  v ← check (bodyField body key) key; Ok [(key, v)].

(** [...(body.key === undefined ? {} : { key: check(body.key, 'key') })] *)
Definition optional (body : jsval) (key : string) (check : jsval -> string -> outcome jsval) : outcome Input :=
  if isUndef (bodyField body key) then Ok [] else field_ body key check.

(** The value as it is. *)
Definition asIs (value : jsval) (property : string) : outcome jsval := Ok value.

(** [value === null ? null : check(value, property)] *)
Definition orNullOf (check : jsval -> string -> outcome jsval) (value : jsval) (property : string) : outcome jsval :=
  match value with JNull => Ok JNull | v => check v property end.

(** [...(typeof query.key === 'string' ? { key: f(query.key) } : {})] *)
Definition fromQuery (query : list (string * jsval)) (key : string) (f : string -> jsval) : Input :=
  match queryText query key with Some s => [(key, f s)] | None => [] end.

(** ** Errors *)

Definition ManagementAuthenticationError : exn := HttpError 401 "UNAUTHENTICATED" "Authentication is required".
Definition ConfigurationAuthorizationError : exn := JsError "ConfigurationAuthorizationError" "Configuration operation is not authorized".
Definition NotificationAuthorizationError : exn := JsError "NotificationAuthorizationError" "Notification operation is not authorized".

Definition crossTenantOperation : exn :=
  ServiceAuthorityError DENIED "Cross-tenant service operation denied" (reasonOnly "tenant_mismatch").

(** [error instanceof C] for the classes without a status of their own;
    [IntelligenceValidationError] extends [ConfigurationValidationError]. *)
Definition instanceOf (names : list string) (e : exn) : bool :=
  match e with JsError name _ => existsb (String.eqb name) names | _ => false end.

Definition errorAnswer (status : Z) (code message : string) : HostReply :=
  Answer status (JObj [("error", JObj [("code", JStr code); ("message", JStr message)])]).

Section errors.
(** The [type] property of an error the libraries made, and its [status] and
    [code] properties. *)
Variable typeOf : exn -> option string.
Variable foreign : exn -> option Z * option string.

Definition PARSER_ERRORS : list string := ["entity."; "request."; "stream."; "encoding."; "charset."; "parameters."].

Definition isBodyParseError (e : exn) : bool :=
  match typeOf e with Some t => existsb (startsWith t) PARSER_ERRORS | None => false end.

(** [Number(error.status)] of an error that has one, and [String(error.code)]. *)
Definition statusProperty (e : exn) : option Z :=
  match e with
  | ServiceAuthorityError c _ _ => Some (STATUS c)
  | HttpError status _ _ => Some status
  | SecretError _ _ => None
  | e => fst (foreign e)
  end.

Definition codeProperty (e : exn) : option string :=
  match e with
  | ServiceAuthorityError c _ _ => Some (codeName c)
  | HttpError _ code _ => Some code
  | SecretError code _ => Some code
  | e => snd (foreign e)
  end.

Definition isError (e : exn) : bool := match e with Thrown _ => false | _ => true end.

Definition managementErrorHandler (e : exn) : HostReply :=
  if isBodyParseError e then
    let status := orElse (statusProperty e) 400 in
    errorAnswer (if (400 <=? status) && (status <? 500) then status else 400) "INVALID_INPUT" "Request body could not be read as JSON"
  else if isServiceAuthorityError e then errorAnswer (orElse (statusProperty e) 500) (orElse (codeProperty e) "") (errorMessage e)
  else if instanceOf ["ConfigurationAuthorizationError"] e then errorAnswer 403 "FORBIDDEN" (errorMessage e)
  else if instanceOf ["ConfigurationValidationError"; "IntelligenceValidationError"] e then errorAnswer 400 "INVALID_INPUT" (errorMessage e)
  else if instanceOf ["FileAuthorizationError"; "NotificationAuthorizationError"; "ScheduleAuthorizationError"] e
  then errorAnswer 403 "FORBIDDEN" (errorMessage e)
  else
    let status := orElse (statusProperty e) 500 in
    errorAnswer status (orElse (codeProperty e) "MANAGEMENT_OPERATION_FAILED")
      (if (status <? 500) && isError e then errorMessage e else "Management operation failed").

(** [{ error, code }] and [{ error }]. *)
Definition plainError (status : Z) (message : string) (code : option string) : HostReply :=
  Answer status (JObj ([("error", JStr message)] ++ match code with Some c => [("code", JStr c)] | None => [] end)%list).

Definition configurationErrorHandler (e : exn) : HostReply :=
  if isBodyParseError e then plainError 400 "Request body is not valid JSON" (Some "INVALID_INPUT")
  else if isServiceAuthorityError e then plainError (orElse (statusProperty e) 500) (errorMessage e) (codeProperty e)
  else if instanceOf ["ConfigurationAuthorizationError"] e then plainError 403 (errorMessage e) None
  else if instanceOf ["ConfigurationValidationError"; "IntelligenceValidationError"] e then plainError 400 (errorMessage e) None
  else plainError 500 "Configuration operation failed" None.

Definition notificationErrorHandler (e : exn) : HostReply :=
  if isServiceAuthorityError e then plainError (orElse (statusProperty e) 500) (errorMessage e) (codeProperty e)
  else if instanceOf ["NotificationAuthorizationError"] e then plainError 403 (errorMessage e) None
  else if instanceOf ["NotificationNotFoundError"] e then plainError 404 (errorMessage e) None
  else if instanceOf ["NotificationValidationError"; "NotificationSensitiveDataError"] e then plainError 400 (errorMessage e) None
  else plainError 500 "Notification operation failed" None.
End errors.

(** ** The services a router is given *)

Section router.
Context {DB : Type}.

(** Operations in [option] are those a service may not provide. *)
Record ManagedKeys := mkManagedKeys {
  mk_list : string -> M DB jsval;
  mk_create : Input -> VerifiedPrincipal -> M DB jsval;
  mk_revoke : Input -> VerifiedPrincipal -> M DB jsval;
  mk_update : option (Input -> VerifiedPrincipal -> M DB jsval);
  mk_rotate : option (Input -> VerifiedPrincipal -> M DB jsval);
  mk_revokeAll : option (Input -> VerifiedPrincipal -> M DB jsval);
  mk_audit : option (Input -> VerifiedPrincipal -> M DB jsval) }.

Record ManagedWebhooks := mkManagedWebhooks {
  mw_list : string -> M DB jsval;
  mw_create : Input -> VerifiedPrincipal -> M DB jsval;
  mw_disable : Input -> VerifiedPrincipal -> M DB jsval;
  mw_deliveries : option (Input -> VerifiedPrincipal -> M DB jsval);
  mw_delivery : option (Input -> VerifiedPrincipal -> M DB jsval) }.

Record ManagedJobs := mkManagedJobs {
  mj_list : string -> M DB jsval;
  mj_enqueue : Input -> VerifiedPrincipal -> M DB jsval;
  mj_retry : string -> string -> VerifiedPrincipal -> M DB jsval }.

Record ManagedSchedules := mkManagedSchedules {
  md_list : string -> VerifiedPrincipal -> M DB jsval;
  md_create : Input -> VerifiedPrincipal -> M DB jsval;
  md_disable : string -> string -> VerifiedPrincipal -> M DB jsval }.

(** [notify] returns whether the notification is new, it, and its deliveries. *)
Record ManagedNotifications := mkManagedNotifications {
  mn_notify : Input -> VerifiedPrincipal -> M DB (bool * jsval * jsval);
  mn_get : string -> string -> VerifiedPrincipal -> M DB jsval;
  mn_list : string -> Input -> VerifiedPrincipal -> M DB jsval;
  mn_deliveries : string -> string -> VerifiedPrincipal -> M DB jsval;
  mn_markRead : string -> string -> VerifiedPrincipal -> M DB jsval;
  mn_acknowledge : string -> string -> VerifiedPrincipal -> M DB jsval;
  mn_dismiss : string -> string -> VerifiedPrincipal -> M DB jsval;
  mn_delete : string -> string -> VerifiedPrincipal -> M DB jsval;
  mn_retryDelivery : string -> string -> string -> VerifiedPrincipal -> M DB jsval }.

Record ManagedFiles := mkManagedFiles {
  mf_list : string -> VerifiedPrincipal -> Input -> M DB jsval;
  mf_create : Input -> VerifiedPrincipal -> M DB jsval;
  mf_update : Input -> VerifiedPrincipal -> M DB jsval;
  mf_delete : string -> string -> VerifiedPrincipal -> M DB jsval }.

Record ManagementServices := mkManagementServices {
  ma_apiKeys : option ManagedKeys;
  ma_webhooks : option ManagedWebhooks;
  ma_jobs : option ManagedJobs;
  ma_schedules : option ManagedSchedules;
  ma_files : option ManagedFiles;
  ma_notifications : option ManagedNotifications;
  ma_configuration : option (@ConfigurationOperations DB);
  ma_intelligence : option (@IntelligenceOperations DB) }.

Context `{FeltDB DB}.
Variable gateway : ServiceGateway DB.
(** [new Date(text)] if valid, and [Number(text)]. *)
Variable dateOf : string -> option jsval.
Variable numberOf : string -> jsval.

(** ** Handlers *)

Definition Work : Type := HostContext -> VerifiedPrincipal -> M DB HostReply.

Definition requirePrincipal (c : HostContext) : outcome VerifiedPrincipal :=
  match hc_auth c with Some p => Ok p | None => Throw ManagementAuthenticationError end.

(** [handler(work)]: who, for which tenant, then the work. *)
Definition handler (work : Work) (c : HostContext) : M DB Step :=
  principal ← ofOutcome (requirePrincipal c);
  let supplied := bodyField (hc_body c) "tenantId" in
  if negb (isUndef supplied) && negb (isStr supplied (vp_tenantId principal)) then throw crossTenantOperation
  else reply ← work c principal; mret (Done reply).

(** [read]: an observation that is authorized first. *)
Definition readAuthorized (capability type : string) (principal : VerifiedPrincipal) (work : M DB jsval) : M DB jsval :=
  execute gateway capability (CVerified principal) (mkResource type (vp_tenantId principal) None None) (mkOptions type None None None)
    (fun _ _ => value ← work; mret (ownedBy (g_application gateway) value)).

(** [{ body: await m }] and [{ status, body: await m }] *)
Definition answering (status : Z) (m : M DB jsval) : M DB HostReply := body ← m; mret (Answer status body).

(** [await m; return { status: 204 }] *)
Definition answeringNothing (m : M DB jsval) : M DB HostReply := _ ← m; mret NoContent.

Definition route (method pattern : string) (work : Work) : Layer DB := mkLayer method pattern (handler work).

(** An operation on an input that is built from the request. *)
Definition withInput (input : outcome Input) (op : Input -> VerifiedPrincipal -> M DB jsval) (p : VerifiedPrincipal) : M DB jsval :=
  fields ← ofOutcome input; op fields p.

Definition idPart (c : HostContext) : outcome Input := Ok [("id", JStr (param c "id"))].

(** Not revoked: [!key.revokedAt] *)
Definition unrevoked (key : jsval) : bool :=
  match bodyField key "revokedAt" with JUndef | JNull | JStr EmptyString | JBool false | JInt 0 => true | _ => false end.

Definition onlyUnrevoked (keys : jsval) : outcome jsval :=
  match keys with
  | JArr l => Ok (JArr (List.filter unrevoked l))
  | _ => Throw (JsError "TypeError" "keys.filter is not a function")
  end.

(** A route that is there if the service provides its operation. *)
Definition provided {A} (op : option A) (layer : A -> Layer DB) : list (Layer DB) :=
  match op with Some f => [layer f] | None => [] end.

Definition keyRoutes (keys : ManagedKeys) : list (Layer DB) :=
  ([ route "GET" "/_appport/api/keys" (fun c p => answering 200
       (all ← readAuthorized "apikeys.read" "api_key" p (mk_list keys (vp_tenantId p)); ofOutcome (onlyUnrevoked all)));
     route "POST" "/_appport/api/keys" (fun c p => let body := hc_body c in answering 201
       (withInput (objectOf [field_ body "name" requiredText; optional body "scopes" stringList; optional body "restrictions" objectField;
                             optional body "expiresAt" (dateValue dateOf); optional body "tenantId" asIs; optional body "createdBy" asIs])
          (mk_create keys) p));
     route "DELETE" "/_appport/api/keys/:id" (fun c p => answeringNothing (withInput (idPart c) (mk_revoke keys) p)) ]
   ++ provided (mk_update keys) (fun update =>
        route "PATCH" "/_appport/api/keys/:id" (fun c p => let body := hc_body c in answering 200
          (key ← withInput (objectOf [idPart c; optional body "name" requiredText; optional body "restrictions" (orNullOf objectField);
                                      optional body "expiresAt" (orNullOf (dateValue dateOf))]) update p;
           ofOutcome (found key))))
   ++ provided (mk_rotate keys) (fun rotate =>
        route "POST" "/_appport/api/keys/:id/rotate" (fun c p => answering 201
          (key ← withInput (objectOf [idPart c; optional (hc_body c) "overlapSeconds" nonNegativeInteger]) rotate p; ofOutcome (found key))))
   ++ provided (mk_revokeAll keys) (fun revokeAll =>
        route "POST" "/_appport/api/keys/revoke-all" (fun c p => answering 200
          (withInput (objectOf [optional (hc_body c) "createdBy" requiredText]) revokeAll p)))
   ++ provided (mk_audit keys) (fun audit =>
        route "GET" "/_appport/api/keys/:id/audit" (fun c p => let query := hr_query (hc_request c) in answering 200
          (audit ([("credentialId", JStr (param c "id"))] ++ fromQuery query "limit" numberOf ++ fromQuery query "after" JStr)%list p))))%list.

Definition webhookRoutes (hooks : ManagedWebhooks) : list (Layer DB) :=
  ([ route "GET" "/_appport/webhooks" (fun c p => answering 200
       (readAuthorized "webhooks.read" "webhook_endpoint" p (mw_list hooks (vp_tenantId p))));
     route "POST" "/_appport/webhooks" (fun c p => let body := hc_body c in answering 201
       (withInput (objectOf [field_ body "url" requiredText; field_ body "events" stringList; field_ body "signingCredentialRef" requiredText])
          (mw_create hooks) p));
     route "DELETE" "/_appport/webhooks/:id" (fun c p => answeringNothing (withInput (idPart c) (mw_disable hooks) p)) ]
   ++ provided (mw_deliveries hooks) (fun deliveries =>
        route "GET" "/_appport/webhooks/deliveries" (fun c p => let query := hr_query (hc_request c) in answering 200
          (deliveries (fromQuery query "endpointId" JStr ++ fromQuery query "status" JStr ++ fromQuery query "limit" numberOf)%list p)))
   ++ provided (mw_delivery hooks) (fun delivery =>
        route "GET" "/_appport/webhooks/deliveries/:id" (fun c p => answering 200
          (d ← withInput (idPart c) delivery p; ofOutcome (foundDelivery d)))))%list.

(** [objectValue(req.body?.payload ?? {}, 'payload')] *)
Definition payloadPart (body : jsval) : outcome Input :=
  v ← objectField (nullishOr (bodyField body "payload") (JObj [])) "payload"; Ok [("payload", v)].

Definition jobRoutes (jobs : ManagedJobs) : list (Layer DB) :=
  [ route "GET" "/_appport/jobs" (fun c p => answering 200 (readAuthorized "jobs.read" "job" p (mj_list jobs (vp_tenantId p))));
    route "POST" "/_appport/jobs" (fun c p => let body := hc_body c in answering 201
      (withInput (objectOf [field_ body "type" requiredText; payloadPart body; optional body "maxAttempts" nonNegativeInteger]) (mj_enqueue jobs) p));
    route "POST" "/_appport/jobs/:id/retry" (fun c p => answering 200 (mj_retry jobs (vp_tenantId p) (param c "id") p)) ].

Definition scheduleRoutes (schedules : ManagedSchedules) : list (Layer DB) :=
  [ route "GET" "/_appport/schedules" (fun c p => answering 200 (md_list schedules (vp_tenantId p) p));
    route "POST" "/_appport/schedules" (fun c p => let body := hc_body c in answering 201
      (withInput (objectOf [field_ body "type" requiredText; payloadPart body; field_ body "interval" requiredText; optional body "createdBy" asIs])
         (md_create schedules) p));
    route "DELETE" "/_appport/schedules/:id" (fun c p => answering 200 (md_disable schedules (vp_tenantId p) (param c "id") p)) ].

(** [typeof req.body?.owner === 'string' ? { owner } : {}] *)
Definition ownerPart (body : jsval) : outcome Input :=
  Ok match bodyField body "owner" with JStr s => [("owner", JStr s)] | _ => [] end.

Definition updateFileWork (files : ManagedFiles) : Work := fun c p => let body := hc_body c in answering 200
  (withInput (objectOf [idPart c; optional body "name" requiredText; optional body "storageKey" requiredText; optional body "size" nonNegativeInteger;
                        optional body "contentType" requiredText; optional body "checksum" requiredText; optional body "metadata" objectField])
     (mf_update files) p).

Definition fileRoutes (files : ManagedFiles) : list (Layer DB) :=
  [ route "GET" "/_appport/files" (fun c p => answering 200 (mf_list files (vp_tenantId p) p (fromQuery (hr_query (hc_request c)) "owner" JStr)));
    route "POST" "/_appport/files" (fun c p => let body := hc_body c in answering 201
      (withInput (objectOf [ownerPart body; field_ body "name" requiredText; field_ body "size" nonNegativeInteger; field_ body "storageKey" requiredText;
                            optional body "contentType" requiredText; optional body "checksum" requiredText; optional body "metadata" objectField])
         (mf_create files) p));
    route "PATCH" "/_appport/files/:id" (updateFileWork files);
    route "PUT" "/_appport/files/:id" (updateFileWork files);
    route "DELETE" "/_appport/files/:id" (fun c p => answeringNothing (mf_delete files (vp_tenantId p) (param c "id") p)) ].

(** [notificationListOptions(query)] *)
Definition notificationListOptions (query : list (string * jsval)) : Input :=
  let text name := (name, ofOption (queryText query name)) in
  [ text "recipient"; text "type"; text "status"; text "priority"; text "sourceType"; text "cursor"; text "createdAfter"; text "createdBefore";
    ("unread", JBool (isStr (getField query "unread") "true"));
    ("unacknowledged", JBool (isStr (getField query "unacknowledged") "true"));
    ("limit", match ifPresent (queryText query "limit") with Some s => numberOf s | None => JUndef end) ].

(** What creating a notification answers. *)
Definition notifyAnswer (m : M DB (bool * jsval * jsval)) : M DB HostReply :=
  result ← m;
  let '(created, notification, deliveries) := (result : bool * jsval * jsval) in
  mret (Answer (if created : bool then 201 else 200) (JObj [("notification", notification); ("deliveries", deliveries)])).

Definition onNotification (op : string -> string -> VerifiedPrincipal -> M DB jsval) : Work :=
  fun c p => answering 200 (op (vp_tenantId p) (param c "id") p).

Definition notificationRoutes (n : ManagedNotifications) : list (Layer DB) :=
  [ route "GET" "/_appport/notifications" (fun c p => answering 200
      (mn_list n (vp_tenantId p) (notificationListOptions (hr_query (hc_request c))) p));
    route "POST" "/_appport/notifications" (fun c p =>
      fields ← ofOutcome (objectValue (nullishOr (hc_body c) (JObj [])) "body");
      notifyAnswer (mn_notify n (spreadWith fields "tenantId" (JStr (vp_tenantId p))) p));
    route "GET" "/_appport/notifications/:id" (onNotification (mn_get n));
    route "GET" "/_appport/notifications/:id/deliveries" (fun c p =>
      items ← mn_deliveries n (vp_tenantId p) (param c "id") p; mret (Answer 200 (JObj [("items", items)])));
    route "POST" "/_appport/notifications/:id/read" (onNotification (mn_markRead n));
    route "POST" "/_appport/notifications/:id/acknowledge" (onNotification (mn_acknowledge n));
    route "POST" "/_appport/notifications/:id/dismiss" (onNotification (mn_dismiss n));
    route "POST" "/_appport/notifications/:id/deliveries/:channel/retry" (fun c p => answering 200
      (mn_retryDelivery n (vp_tenantId p) (param c "id") (param c "channel") p));
    route "DELETE" "/_appport/notifications/:id" (fun c p => answeringNothing (mn_delete n (vp_tenantId p) (param c "id") p)) ].

(** [mountExistingServiceRoutes] *)
Definition serviceRoutes (services : ManagementServices) : list (Layer DB) :=
  let mount {A} (service : option A) (routes : A -> list (Layer DB)) := match service with Some s => routes s | None => [] end in
  (mount (ma_apiKeys services) keyRoutes ++ mount (ma_webhooks services) webhookRoutes ++ mount (ma_jobs services) jobRoutes
   ++ mount (ma_schedules services) scheduleRoutes ++ mount (ma_files services) fileRoutes
   ++ mount (ma_notifications services) notificationRoutes)%list.

(** ** [configuration/http.ts] and [intelligence/http.ts] *)

(** [scope(req)] *)
Definition requestScope (c : HostContext) (p : VerifiedPrincipal) : Input :=
  let query := hr_query (hc_request c) in
  ([("tenantId", JStr (vp_tenantId p))]
   ++ match queryText query "application" with Some a => [("applicationId", JStr a)] | None => [] end
   ++ [("environment", JStr (orElse (queryText query "environment") "production"))])%list.

Definition bodyInput (c : HostContext) (p : VerifiedPrincipal) : Input :=
  let body := hc_body c in
  (requestScope c p ++ [("name", bodyField body "name"); ("value", bodyField body "value"); ("required", bodyField body "required")])%list.

(** [...(value === undefined ? {} : { key: value })] *)
Definition unlessUndefined (key : string) (value : jsval) : Input := if isUndef value then [] else [(key, value)].

Definition credentialInput (c : HostContext) (p : VerifiedPrincipal) : Input :=
  let body := hc_body c in
  (requestScope c p ++ [("name", bodyField body "name"); ("credentialRef", bodyField body "credentialRef"); ("required", bodyField body "required")]
   ++ unlessUndefined "value" (bodyField body "value"))%list.

Definition storeInput (c : HostContext) (p : VerifiedPrincipal) : Input :=
  let body := hc_body c in
  (requestScope c p ++ [("ref", bodyField body "ref"); ("value", bodyField body "value")]
   ++ unlessUndefined "provider" (bodyField body "provider")
   ++ unlessUndefined "kind" (bodyField body "kind")
   ++ match bodyField body "name" with JUndef | JStr EmptyString => [] | name => [("name", name)] end
   ++ (if isUndef (bodyField body "required") then [] else [("required", JBool (isTrue (bodyField body "required")))]))%list.

(** [[].concat(query.ref ?? []).filter(isString)] *)
Definition requestedRefs (query : list (string * jsval)) : list jsval :=
  List.filter isText match nullishOr (getField query "ref") (JArr []) with JArr l => l | v => [v] end.

Definition statusInput (c : HostContext) (p : VerifiedPrincipal) : Input :=
  let query := hr_query (hc_request c) in
  (requestScope c p ++ [("refs", JArr (requestedRefs query))] ++ fromQuery query "provider" JStr)%list.

(** A handler behind the check of its router; [unauthenticated] is what a
    handler itself does without a principal. *)
Definition routed (unauthenticated : M DB Step) (work : Work) (c : HostContext) : M DB Step :=
  match hc_auth c with Some p => reply ← work c p; mret (Done reply) | None => unauthenticated end.

(** [req.auth!] of no principal: behind the check this is not reached. *)
Definition noPrincipal : M DB Step := throw (JsError "TypeError" "Cannot read properties of undefined").

(** The first layer of a router: a principal is needed. *)
Definition authenticated (pattern : string) (refusal : exn) : Layer DB :=
  mkLayer "USE" pattern (fun c => match hc_auth c with Some _ => mret NextLayer | None => throw refusal end).

(** [delete '/:kind/:name'] *)
Definition deleteConfiguration (service : @ConfigurationOperations DB) : Work := fun c p =>
  let input (kind : string) := spreadWith (requestScope c p ++ [("name", JStr (param c "name"))])%list "kind" (JStr kind) in
  if String.eqb (param c "kind") "secrets" then answeringNothing (configurationDelete service (input "secret") p)
  else if String.eqb (param c "kind") "variables" then answeringNothing (configurationDelete service (input "variable") p)
  else throw (ConfigurationValidationError "Invalid configuration kind").

Definition createConfigurationRouter (mountedAt : string) (service : @ConfigurationOperations DB) : list (Layer DB) :=
  let at_ path := mountedAt ++ path in
  let on method path work := mkLayer method (at_ path) (routed noPrincipal work) in
  [ authenticated mountedAt ConfigurationAuthorizationError;
    on "GET" "/" (fun c p => answering 200 (configurationList service (requestScope c p) p));
    on "POST" "/variables" (fun c p => answering 201 (createVariable service (bodyInput c p) p));
    on "PATCH" "/variables/:name" (fun c p => answering 200 (updateVariable service (spreadWith (bodyInput c p) "name" (JStr (param c "name"))) p));
    on "POST" "/secrets" (fun c p => answering 201 (createSecret service (credentialInput c p) p));
    on "POST" "/credentials" (fun c p => answering 201 (storeSecret service (storeInput c p) p));
    on "GET" "/credentials/status" (fun c p => answering 200 (secretStatus service (statusInput c p) p));
    on "PUT" "/secrets/:name" (fun c p => answering 200 (rotateSecret service (spreadWith (credentialInput c p) "name" (JStr (param c "name"))) p));
    on "DELETE" "/:kind/:name" (deleteConfiguration service) ].

(** [pick(body, keys)] *)
Definition pick (body : jsval) (keys : list string) : Input :=
  flat_map (fun key => unlessUndefined key (bodyField body key)) keys.

Definition rawFields (body : jsval) : Input := pick body ["value"; "secret"; "password"; "token"; "apiKey"; "credential"].

Definition createIntelligenceRouter (mountedAt : string) (service : @IntelligenceOperations DB) : list (Layer DB) :=
  let refused : M DB Step := mret (Done (Answer 401 (JObj [("error", JStr "Authentication is required")]))) in
  let on method path (input : HostContext -> VerifiedPrincipal -> Input) op :=
    mkLayer method (mountedAt ++ path) (routed refused (fun c p => answering 200 (op (input c p) p))) in
  let selected keys c p := (requestScope c p ++ pick (hc_body c) keys ++ rawFields (hc_body c))%list in
  [ on "GET" "/" requestScope (intelligenceGet service);
    on "GET" "/catalog" requestScope (catalog service);
    on "PUT" "/" (selected ["provider"; "model"; "endpoint"; "credentialRef"]) (intelligenceSet service);
    on "PUT" "/credential" (selected ["credentialRef"]) (setCredential service);
    on "DELETE" "/credential" requestScope (removeCredential service) ].

(** ** [notifications/http.ts]: the router a host mounts itself *)

Definition objectBody (value : jsval) : outcome Input :=
  match value with JObj fields => Ok fields | _ => Throw (JsError "NotificationValidationError" "Request body must be a JSON object") end.

Definition createNotificationRouter (n : ManagedNotifications) : list (Layer DB) :=
  let on method path work := mkLayer method path (routed noPrincipal work) in
  [ authenticated "" NotificationAuthorizationError;
    on "POST" "/" (fun c p =>
      fields ← ofOutcome (objectBody (hc_body c));
      notifyAnswer (mn_notify n (spreadWith fields "tenantId" (JStr (vp_tenantId p))) p));
    on "GET" "/" (fun c p => answering 200 (mn_list n (vp_tenantId p) (notificationListOptions (hr_query (hc_request c))) p));
    on "GET" "/:id" (onNotification (mn_get n));
    on "GET" "/:id/deliveries" (fun c p =>
      items ← mn_deliveries n (vp_tenantId p) (param c "id") p; mret (Answer 200 (JObj [("items", items)])));
    on "POST" "/:id/read" (onNotification (mn_markRead n));
    on "POST" "/:id/acknowledge" (onNotification (mn_acknowledge n));
    on "POST" "/:id/dismiss" (onNotification (mn_dismiss n));
    on "POST" "/:id/deliveries/:channel/retry" (fun c p => answering 200 (mn_retryDelivery n (vp_tenantId p) (param c "id") (param c "channel") p));
    on "DELETE" "/:id" (fun c p => answeringNothing (mn_delete n (vp_tenantId p) (param c "id") p)) ].

(** ** Gates of pages *)

(** [gateway.authorize(capability, principal, resource)]: the context is not
    used, only that it was issued. *)
Definition authorizeOnly (capabilityName type : string) (p : VerifiedPrincipal) : M DB unit :=
  requestId ← randomUUID;
  _ ← authorize gateway capabilityName (CVerified p) (mkResource type (vp_tenantId p) None None) requestId;
  mret tt.

Fixpoint authorizeAll (capabilities : list (string * string)) (p : VerifiedPrincipal) : M DB unit :=
  match capabilities with
  | [] => mret tt
  | (name, type) :: r => _ ← authorizeOnly name type p; authorizeAll r p
  end.

Definition gate (capabilities : list (string * string)) (c : HostContext) : M DB Step :=
  principal ← ofOutcome (requirePrincipal c);
  _ ← authorizeAll capabilities principal;
  mret NextLayer.

Definition API_KEY_MANAGEMENT_CAPABILITIES : list string := ["apikeys.read"; "apikeys.create"; "apikeys.revoke"].

(** ** Extensions *)

(** A registration as the router is given it: the object, whether its context
    is of this gateway, and the layers its [routes] adds. *)
Record ManagedExtension := mkManagedExtension {
  mx_registration : RegisteredServicesExtension;
  mx_ourGateway : bool;
  mx_layers : list (Layer DB) }.

(** A layer of a router that is mounted at a path. *)
Definition mountedAt_ (path : string) (l : Layer DB) : Layer DB := mkLayer (ly_method l) (path ++ ly_pattern l) (ly_run l).

(** The resource types of the capabilities a page names. *)
Definition pageCapabilities (names : list string) : list (string * string) :=
  map (fun name => (name, match capability gateway name with Some c => c_resource c | None => "" end)) names.

Definition extensionLayers (includeUi : bool) (x : ServicesExtension) (layers : list (Layer DB)) : list (Layer DB) :=
  let path := "/v1/extensions/" ++ xn_id x in
  ((if xn_routes x then authenticated path ManagementAuthenticationError :: map (mountedAt_ path) layers else [])
   ++ (if includeUi then map (fun page => mkLayer "GET" (xp_route page) (gate (pageCapabilities (xp_capabilities page)))) (xn_pages x) else []))%list.

Fixpoint mountExtensions (registrations : Registrations) (includeUi : bool) (l : list ManagedExtension) : outcome (list (Layer DB)) :=
  match l with
  | [] => Ok []
  | e :: r =>
      let x := rg_extension (mx_registration e) in
      if negb (isRegisteredServicesExtension registrations (Some (rg_identity (mx_registration e)))) then
        Throw (JsError "Error" "Management extensions must be the ones createServices returned (services.extensions)")
      else if negb (mx_ourGateway e) then
        Throw (JsError "Error" ("Extension " ++ quoted (xn_id x) ++ " is registered with another Services instance; register it with createServices({ extensions }) on this host"))
      else match List.find (fun c => match capability gateway (xc_name c) with Some _ => false | None => true end) (xn_capabilities x) with
           | Some c => Throw (JsError "Error" ("Extension " ++ quoted (xn_id x) ++ " capability " ++ quoted (xc_name c) ++ " is not known to this gateway"))
           | None => rest ← mountExtensions registrations includeUi r; Ok (extensionLayers includeUi x (mx_layers e) ++ rest)%list
           end
  end.

(** ** [createManagementRouter] *)

Record RouterOptions := mkRouterOptions {
  ro_services : ManagementServices;
  ro_authorize : bool;
  ro_includeConfiguration : bool;
  ro_includeUi : bool;
  ro_basePath : jsval;
  ro_extensions : list ManagedExtension }.

(** What the router uses of the pages' side. *)
Record UiHost := mkUiHost {
  uh_version : string;
  uh_validate : UiContribution -> outcome UiContribution;
  uh_filter : UiContribution -> list string -> jsval;
  uh_orderLe : jsval -> jsval -> bool;
  uh_parseUrl : string -> option ParsedUrl;
  uh_stringify : jsval -> string;
  uh_assets : Assets }.
Variable ui : UiHost.

Definition isSome {A} (o : option A) : bool := match o with Some _ => true | None => false end.

Definition mountedOf (s : ManagementServices) : UiMountedServices :=
  mkMounted (isSome (ma_apiKeys s)) (isSome (ma_webhooks s)) (isSome (ma_jobs s)) (isSome (ma_schedules s))
    (isSome (ma_files s)) (isSome (ma_notifications s)) (isSome (ma_configuration s)) (isSome (ma_intelligence s)).

Definition discoveryLayer (document : option jsval) : Layer DB :=
  mkLayer "GET" "/v1/ui" (fun _ => mret (Done
    match document with
    | Some d => Answer 200 d
    | None => Answer 404 (JObj [("error", JObj [("code", JStr "NOT_FOUND"); ("message", JStr "No composable UI is advertised")])])
    end)).

(** A router of pages, each at the route of its surface. *)
Definition createConfigurationUiRouter (pages : list UiPage) (basePath : string) : list (Layer DB) :=
  map (fun page => mkLayer "GET" (pg_route page)
    (fun _ => mret (Done (Page (renderManagementPage (uh_stringify ui) (uh_assets ui) page pages basePath))))) pages.

(** The packaged pages, behind the paths the contribution names. *)
Definition pageLayers (supported : list string) (pages : list UiPage) (basePath : string) : list (Layer DB) :=
  map (fun l => mkLayer (ly_method l) (ly_pattern l) (fun c =>
    if existsb (String.eqb (hr_path (hc_request c))) supported then ly_run l c else mret NextLayer))
    (createConfigurationUiRouter pages basePath).

(** [createConfigurationManagementRouter]: the configuration alone, with every page. *)
Definition createConfigurationManagementRouter (service : @ConfigurationOperations DB) : list (Layer DB) :=
  (createConfigurationRouter "/v1/configuration" service
   ++ createConfigurationUiRouter (createUiPages (uh_orderLe ui) EVERYTHING true []) "")%list.

Definition createManagementRouter (registrations : Registrations) (options : RouterOptions) : outcome (list (Layer DB)) :=
  let services := ro_services options in
  if ro_authorize options then
    Throw (ServiceMigrationError "createManagementRouter no longer accepts an authorize adapter. Configure the AuthBoundry authorizer on the services; the router is a thin adapter.")
  else
    basePath ← normalizeBasePath (uh_parseUrl ui) (ro_basePath options);
    let keyPage := match ma_apiKeys services with
                   | Some _ => [mkLayer "GET" "/api-keys" (gate (map (fun name => (name, "api_key")) API_KEY_MANAGEMENT_CAPABILITIES))]
                   | None => []
                   end in
    extensionRoutes ← mountExtensions registrations (ro_includeUi options) (ro_extensions options);
    let registered := map (fun e => rg_extension (mx_registration e)) (ro_extensions options) in
    let mounted := mountedOf services in
    let configuration := if ro_includeConfiguration options
                         then match ma_configuration services with Some s => createConfigurationRouter "/v1/configuration" s | None => [] end else [] in
    let intelligence := if ro_includeConfiguration options
                        then match ma_intelligence services with Some s => createIntelligenceRouter "/v1/intelligence" s | None => [] end else [] in
    document ← (if ro_includeUi options
                then createUiDiscoveryDocument (uh_version ui) (uh_validate ui) (uh_filter ui) mounted (ro_includeConfiguration options) registered []
                else Ok None);
    contribution ← (if ro_includeUi options
                    then createUiContribution (uh_version ui) (uh_validate ui) mounted (ro_includeConfiguration options) registered
                    else Ok None);
    let supported := match contribution with Some c => map us_route (uc_surfaces c) | None => [] end in
    let pages := if ro_includeUi options
                 then pageLayers supported (createUiPages (uh_orderLe ui) mounted (ro_includeConfiguration options) registered) basePath else [] in
    Ok (keyPage ++ serviceRoutes services ++ extensionRoutes ++ configuration ++ intelligence ++ [discoveryLayer document] ++ pages)%list.

(** ** A request *)

(** What the host's adapter says: claims it verified, or a principal. *)
Inductive Identity := IdentityClaims (claims : PrincipalClaims) | IdentityPrincipal (p : VerifiedPrincipal).

Variable authenticate : HostRequest -> M DB (option Identity).
(** The rate limiter's own answer, if it gives one. *)
Variable throttle : HostRequest -> M DB (option HostReply).
(** Which layer a request is for, with the parameters of its path. *)
Variable matchLayer : string -> string -> HostRequest -> option Params.
Variable typeOf : exn -> option string.
Variable foreign : exn -> option Z * option string.

Definition authenticateHost (request : HostRequest) : M DB (option VerifiedPrincipal) :=
  identity ← authenticate request;
  match identity with
  | None => mret (hr_auth request)
  | Some (IdentityPrincipal p) => mret (Some p)
  | Some (IdentityClaims claims) => ofOutcome (identify gateway (Some claims))
  end.

Fixpoint runLayers (layers : list (Layer DB)) (request : HostRequest) (body : jsval) (auth : option VerifiedPrincipal) : M DB HostReply :=
  match layers with
  | [] => mret Unanswered
  | l :: r =>
      match matchLayer (ly_method l) (ly_pattern l) request with
      | None => runLayers r request body auth
      | Some params =>
          step ← ly_run l (mkHostContext request body params auth);
          match step with Done reply => mret reply | NextLayer => runLayers r request body auth end
      end
  end.

Definition serveManagement (layers : list (Layer DB)) (request : HostRequest) : M DB HostReply :=
  body ← ofOutcome (hr_body request);
  limited ← throttle request;
  match limited with
  | Some reply => mret reply
  | None => auth ← authenticateHost request; runLayers layers request body auth
  end.

Definition handleManagement (layers : list (Layer DB)) (request : HostRequest) : M DB HostReply :=
  tryCatch (serveManagement layers request) (fun e => mret (managementErrorHandler typeOf foreign e)).
End router.
Arguments Layer : clear implicits.
Arguments ManagementServices : clear implicits.
Arguments RouterOptions : clear implicits.
Arguments ManagedExtension : clear implicits.
