(* ===== verification/ManagementProps.v ===== *)
(** * ManagementProps: what the management router guarantees

    The router is proved against the interface the services keep towards the
    dispatcher ([Guarded]): behind every route is the capability the table
    [ROUTE_CAPABILITIES] names. *)

From S2P Require Import Prelude JsString JsTime Errors Models Store Calm MemStore Principal Manifest Gateway GatewayFacts Configuration Extensions Invoke InvokeProps Ui Management Demo.
From Stdlib Require Import ZArith Lia Ascii.
Local Open Scope string_scope.
Local Open Scope Z_scope.

(** ** What the routes need *)

Definition ROUTE_CAPABILITIES : list (string * string * string) := [
  ("GET", "/_appport/api/keys", "apikeys.read"); ("POST", "/_appport/api/keys", "apikeys.create");
  ("DELETE", "/_appport/api/keys/:id", "apikeys.revoke"); ("PATCH", "/_appport/api/keys/:id", "apikeys.update");
  ("POST", "/_appport/api/keys/:id/rotate", "apikeys.rotate"); ("POST", "/_appport/api/keys/revoke-all", "apikeys.revoke");
  ("GET", "/_appport/api/keys/:id/audit", "apikeys.audit");
  ("GET", "/_appport/webhooks", "webhooks.read"); ("POST", "/_appport/webhooks", "webhooks.register");
  ("DELETE", "/_appport/webhooks/:id", "webhooks.remove"); ("GET", "/_appport/webhooks/deliveries", "webhooks.deliveries.read");
  ("GET", "/_appport/webhooks/deliveries/:id", "webhooks.deliveries.read");
  ("GET", "/_appport/jobs", "jobs.read"); ("POST", "/_appport/jobs", "jobs.create"); ("POST", "/_appport/jobs/:id/retry", "jobs.retry");
  ("GET", "/_appport/schedules", "schedules.read"); ("POST", "/_appport/schedules", "schedules.create");
  ("DELETE", "/_appport/schedules/:id", "schedules.cancel");
  ("GET", "/_appport/files", "files.read"); ("POST", "/_appport/files", "files.write"); ("PATCH", "/_appport/files/:id", "files.write");
  ("PUT", "/_appport/files/:id", "files.write"); ("DELETE", "/_appport/files/:id", "files.delete");
  ("GET", "/_appport/notifications", "notifications.read"); ("POST", "/_appport/notifications", "notifications.send");
  ("GET", "/_appport/notifications/:id", "notifications.read"); ("GET", "/_appport/notifications/:id/deliveries", "notifications.read");
  ("POST", "/_appport/notifications/:id/read", "notifications.update"); ("POST", "/_appport/notifications/:id/acknowledge", "notifications.update");
  ("POST", "/_appport/notifications/:id/dismiss", "notifications.update");
  ("POST", "/_appport/notifications/:id/deliveries/:channel/retry", "notifications.update");
  ("DELETE", "/_appport/notifications/:id", "notifications.delete");
  ("GET", "/v1/configuration/", "configuration.read"); ("POST", "/v1/configuration/variables", "configuration.write");
  ("PATCH", "/v1/configuration/variables/:name", "configuration.write"); ("POST", "/v1/configuration/secrets", "credential.attach");
  ("POST", "/v1/configuration/credentials", "credential.store"); ("GET", "/v1/configuration/credentials/status", "credential.status");
  ("PUT", "/v1/configuration/secrets/:name", "credential.rotate");
  ("DELETE", "/v1/configuration/:kind/:name", "configuration.delete"); ("DELETE", "/v1/configuration/:kind/:name", "credential.detach");
  ("GET", "/v1/intelligence/", "intelligence.read"); ("GET", "/v1/intelligence/catalog", "intelligence.catalog");
  ("PUT", "/v1/intelligence/", "intelligence.write"); ("PUT", "/v1/intelligence/credential", "intelligence.credential.set");
  ("DELETE", "/v1/intelligence/credential", "intelligence.credential.remove") ].

(** The capabilities behind a route. *)
Definition behind (method pattern : string) : list string :=
  flat_map (fun '(m, p, cap) => if String.eqb m method && String.eqb p pattern then [cap] else []) ROUTE_CAPABILITIES.

(** The capabilities behind the routes a request matches. *)
Definition neededBy (matchLayer : string -> string -> HostRequest -> option Params) (request : HostRequest) : list string :=
  flat_map (fun '(m, p, cap) => match matchLayer m p request with Some _ => [cap] | None => [] end) ROUTE_CAPABILITIES.

Lemma behind_needed matchLayer request method pattern params cap : matchLayer method pattern request = Some params ->
  In cap (behind method pattern) -> In cap (neededBy matchLayer request).
Proof.
  intros Hm. unfold behind, neededBy. rewrite !in_flat_map. intros ([[m p] c] & Hin & Hc). exists (m, p, c). split; [exact Hin|].
  destruct (String.eqb_spec m method) as [->|]; [|destruct Hc]. destruct (String.eqb_spec p pattern) as [->|]; [|destruct Hc].
  now rewrite Hm.
Qed.

(** ** The interface of the services *)

Section interface.
Context {DB : Type} `{FeltDBLaws DB}.
Variable g : ServiceGateway DB.

Class GuardedKeys (k : @ManagedKeys DB) : Prop := {
  keys_create input :: Guarded g "apikeys.create" (mk_create k input);
  keys_revoke input :: Guarded g "apikeys.revoke" (mk_revoke k input);
  keys_update f input : mk_update k = Some f -> Guarded g "apikeys.update" (f input);
  keys_rotate f input : mk_rotate k = Some f -> Guarded g "apikeys.rotate" (f input);
  keys_revokeAll f input : mk_revokeAll k = Some f -> Guarded g "apikeys.revoke" (f input);
  keys_audit f input : mk_audit k = Some f -> Guarded g "apikeys.audit" (f input) }.

Class GuardedHooks (k : @ManagedWebhooks DB) : Prop := {
  hooks_create input :: Guarded g "webhooks.register" (mw_create k input);
  hooks_disable input :: Guarded g "webhooks.remove" (mw_disable k input);
  hooks_deliveries f input : mw_deliveries k = Some f -> Guarded g "webhooks.deliveries.read" (f input);
  hooks_delivery f input : mw_delivery k = Some f -> Guarded g "webhooks.deliveries.read" (f input) }.

Class GuardedQueue (k : @ManagedJobs DB) : Prop := {
  queue_enqueue input :: Guarded g "jobs.create" (mj_enqueue k input);
  queue_retry t i :: Guarded g "jobs.retry" (mj_retry k t i) }.

Class GuardedTimes (k : @ManagedSchedules DB) : Prop := {
  times_list t :: Guarded g "schedules.read" (md_list k t);
  times_create input :: Guarded g "schedules.create" (md_create k input);
  times_disable t i :: Guarded g "schedules.cancel" (md_disable k t i) }.

Class GuardedNotices (k : @ManagedNotifications DB) : Prop := {
  notices_notify input :: Guarded g "notifications.send" (mn_notify k input);
  notices_get t i :: Guarded g "notifications.read" (mn_get k t i);
  notices_list t input :: Guarded g "notifications.read" (mn_list k t input);
  notices_deliveries t i :: Guarded g "notifications.read" (mn_deliveries k t i);
  notices_read t i :: Guarded g "notifications.update" (mn_markRead k t i);
  notices_acknowledge t i :: Guarded g "notifications.update" (mn_acknowledge k t i);
  notices_dismiss t i :: Guarded g "notifications.update" (mn_dismiss k t i);
  notices_delete t i :: Guarded g "notifications.delete" (mn_delete k t i);
  notices_retry t i channel :: Guarded g "notifications.update" (mn_retryDelivery k t i channel) }.

Class GuardedStored (k : @ManagedFiles DB) : Prop := {
  stored_list t input :: Guarded g "files.read" (fun p => mf_list k t p input);
  stored_create input :: Guarded g "files.write" (mf_create k input);
  stored_update input :: Guarded g "files.write" (mf_update k input);
  stored_delete t i :: Guarded g "files.delete" (mf_delete k t i) }.

(** Every service that is mounted keeps it. *)
Record lawfulHost (s : ManagementServices DB) : Prop := mkLawfulHost {
  lh_apiKeys k : ma_apiKeys s = Some k -> GuardedKeys k;
  lh_webhooks k : ma_webhooks s = Some k -> GuardedHooks k;
  lh_jobs k : ma_jobs s = Some k -> GuardedQueue k;
  lh_schedules k : ma_schedules s = Some k -> GuardedTimes k;
  lh_files k : ma_files s = Some k -> GuardedStored k;
  lh_notifications k : ma_notifications s = Some k -> GuardedNotices k;
  lh_configuration k : ma_configuration s = Some k -> GuardedConfiguration g k;
  lh_intelligence k : ma_intelligence s = Some k -> GuardedIntelligence g k }.
End interface.

(** ** Layers *)

Section layers.
Context {DB : Type} `{FeltDBLaws DB}.
Variable g : ServiceGateway DB.
Hypothesis Hhost : hostQuiet g.

(** A layer that passes a request on has done nothing; one that answers or
    throws wrote nothing but evidence of a refusal. *)
Definition stepSafe (m : M DB Step) : Prop :=
  forall w, calm w -> wp m (fun o w' => calm w' /\
    match o with Ok NextLayer => w_db w' = w_db w | _ => onlyRefusal (w_db w) (w_db w') end) w.

(** No capability behind the layer is admitted for its caller. *)
Definition safe (l : Layer DB) : Prop := forall c,
  (forall cap p, In cap (behind (ly_method l) (ly_pattern l)) -> hc_auth c = Some p -> unadmitted g cap (CVerified p)) ->
  stepSafe (ly_run l c).

Lemma done_safe (m : M DB HostReply) : untouched m -> stepSafe (reply ← m; mret (Done reply)).
Proof.
  intros Hm w Hc. apply wp_bind. eapply wp_mono; [exact (Hm w Hc)|]. intros [r|e] w' Hw'; [now apply wp_ret | exact Hw'].
Qed.

Lemma throw_safe e : stepSafe (throw e).
Proof. intros w Hc. split; [exact Hc | now left]. Qed.

Lemma handler_safe work c :
  (forall p, hc_auth c = Some p -> untouched (work c p)) -> stepSafe (handler work c).
Proof.
  intros Hw. unfold handler, requirePrincipal. destruct (hc_auth c) as [p|]; [|intros w Hc; split; [exact Hc | now left]].
  change (stepSafe (if negb (isUndef (bodyField (hc_body c) "tenantId")) && negb (isStr (bodyField (hc_body c) "tenantId") (vp_tenantId p))
    then throw crossTenantOperation else reply ← work c p; mret (Done reply))).
  destruct (_ && _); [apply throw_safe | apply done_safe, Hw; reflexivity].
Qed.

Lemma routed_safe unauthenticated work c : stepSafe unauthenticated ->
  (forall p, hc_auth c = Some p -> untouched (work c p)) -> stepSafe (routed unauthenticated work c).
Proof. intros Hu Hw. unfold routed. destruct (hc_auth c) as [p|]; [apply done_safe, Hw; reflexivity | exact Hu]. Qed.

Lemma untouched_answering status (m : M DB jsval) : untouched m -> untouched (answering status m).
Proof. apply untouched_map. Qed.

Lemma untouched_nothing (m : M DB jsval) : untouched m -> untouched (answeringNothing m).
Proof. apply untouched_map. Qed.

(** A step after one that only refuses. *)
Lemma untouched_then {A B} (m : M DB A) (k : A -> outcome B) : untouched m -> untouched (a ← m; ofOutcome (k a)).
Proof.
  intros Hm w Hc. apply wp_bind. eapply wp_mono; [exact (Hm w Hc)|]. intros [a|e] w' Hw'; [now apply wp_outcome | exact Hw'].
Qed.

Lemma untouched_input cap input (op : Input -> VerifiedPrincipal -> M DB jsval) p :
  (forall i, Guarded g cap (op i)) -> unadmitted g cap (CVerified p) -> untouched (withInput input op p).
Proof. intros Hop Hno. unfold withInput. apply untouched_check. intros fields _. exact (Hop fields p Hno). Qed.

Lemma untouched_readAuthorized cap type p (work : M DB jsval) :
  unadmitted g cap (CVerified p) -> untouched (readAuthorized g cap type p work).
Proof. intros Hno. now apply untouched_execute. Qed.

Lemma untouched_notify (m : M DB (bool * jsval * jsval)) : untouched m -> untouched (notifyAnswer m).
Proof.
  intros Hm w Hc. apply wp_bind. eapply wp_mono; [exact (Hm w Hc)|].
  intros [[[created n] d]|e] w' Hw'; [now apply wp_ret | exact Hw'].
Qed.

(** Asking for authority changes nothing. *)
Lemma authorizeAll_kept caps p w : calm w -> wp (authorizeAll g caps p) (fun _ w' => kept w w') w.
Proof.
  revert w. induction caps as [|[name type] caps IH]; intros w Hc; [now apply kept_refl|].
  cbn [authorizeAll]. apply wp_bind. unfold authorizeOnly. apply wp_bind, wpc_uuid; [exact Hc|].
  intros id w1 _ _ Hc1 Hl1 Hd1. assert (kept w w1) as Hk by (split; auto). apply wp_bind.
  eapply wp_mono; [apply authorize_quiet; [exact Hhost | exact Hc1]|].
  intros [x|e] w2 Hk2; pose proof (kept_trans _ _ _ Hk Hk2) as Hk3; [|exact Hk3]. apply wp_ret.
  eapply wp_mono; [apply IH, Hk3|]. intros o w3 Hw3. exact (kept_trans _ _ _ Hk3 Hw3).
Qed.

Lemma gate_safe caps c : stepSafe (gate g caps c).
Proof.
  intros w Hc. unfold gate, requirePrincipal. apply wp_bind, wp_outcome.
  destruct (hc_auth c) as [p|]; [|split; [exact Hc | now left]]. apply wp_bind.
  eapply wp_mono; [now apply authorizeAll_kept|]. intros [[]|e] w' (Hc' & _ & Hd); [now apply wp_ret | split; [exact Hc' | now left]].
Qed.

Lemma authenticated_safe pattern refusal c : stepSafe (ly_run (authenticated (DB := DB) pattern refusal) c).
Proof. intros w Hc. cbn [authenticated ly_run]. destruct (hc_auth c); (split; [exact Hc|]); [reflexivity | now left]. Qed.

Lemma untouched_op {A} cap (op : VerifiedPrincipal -> M DB A) p :
  Guarded g cap op -> unadmitted g cap (CVerified p) -> untouched (op p).
Proof. intros Hop. exact (Hop p). Qed.

(** The capability of this route is not admitted. *)
Ltac needed :=
  match goal with Hno : context [behind] |- unadmitted _ _ _ => apply Hno; [vm_compute; tauto | assumption] end.

(** The operation a service provides is guarded. *)
Ltac guard_op :=
  match goal with
  | |- Guarded _ _ _ => exact _
  | E : _ = Some _ |- Guarded _ _ _ =>
      first [ eapply keys_update; eassumption | eapply keys_rotate; eassumption | eapply keys_revokeAll; eassumption
            | eapply keys_audit; eassumption | eapply hooks_deliveries; eassumption | eapply hooks_delivery; eassumption ]
  end.

Ltac guarded_call op p := eapply (untouched_op _ op p); [guard_op | needed].

Ltac operation :=
  repeat first
    [ apply untouched_answering | apply untouched_nothing | apply untouched_notify | apply untouched_then
    | apply untouched_readAuthorized; needed
    | apply untouched_check; intros ? _
    | eapply untouched_input; [intros; guard_op | needed]
    | match goal with
      | |- untouched (mf_list ?k ?t ?p ?i) => guarded_call (fun q => mf_list k t q i) p
      | |- untouched (?op ?p) => guarded_call op p
      end
    | apply untouched_map ].

Ltac served := intros c Hno; apply handler_safe; intros p Hp; operation.

Ltac served_table := repeat (constructor; [served|]); try constructor.

Lemma keyRoutes_safe dateOf numberOf k : GuardedKeys g k -> Forall safe (keyRoutes g dateOf numberOf k).
Proof.
  intros Hk. unfold keyRoutes. repeat (apply Forall_app; split); [served_table|..].
  - destruct (mk_update k) eqn:E; cbn [provided]; served_table.
  - destruct (mk_rotate k) eqn:E; cbn [provided]; served_table.
  - destruct (mk_revokeAll k) eqn:E; cbn [provided]; served_table.
  - destruct (mk_audit k) eqn:E; cbn [provided]; served_table.
Qed.

Lemma webhookRoutes_safe numberOf k : GuardedHooks g k -> Forall safe (webhookRoutes g numberOf k).
Proof.
  intros Hk. unfold webhookRoutes. repeat (apply Forall_app; split); [served_table|..].
  - destruct (mw_deliveries k) eqn:E; cbn [provided]; served_table.
  - destruct (mw_delivery k) eqn:E; cbn [provided]; served_table.
Qed.

Lemma jobRoutes_safe k : GuardedQueue g k -> Forall safe (jobRoutes g k).
Proof. intros Hk. served_table. Qed.

Lemma scheduleRoutes_safe k : GuardedTimes g k -> Forall safe (scheduleRoutes k).
Proof. intros Hk. served_table. Qed.

Lemma fileRoutes_safe k : GuardedStored g k -> Forall safe (fileRoutes k).
Proof. intros Hk. served_table. Qed.

Lemma notificationRoutes_safe numberOf k : GuardedNotices g k -> Forall safe (notificationRoutes numberOf k).
Proof. intros Hk. served_table. Qed.

Lemma noPrincipal_safe : stepSafe noPrincipal.
Proof. apply throw_safe. Qed.

Ltac behind_check := intros c Hno; apply routed_safe; [|intros p Hp; operation].

Lemma configurationRoutes_safe k : GuardedConfiguration g k -> Forall safe (createConfigurationRouter "/v1/configuration" k).
Proof.
  intros Hk. unfold createConfigurationRouter. constructor; [intros c _; apply authenticated_safe|].
  repeat (constructor; [behind_check; try exact noPrincipal_safe|]); [|constructor].
  unfold deleteConfiguration. destruct (String.eqb (param c "kind") "secrets"); [|destruct (String.eqb (param c "kind") "variables"); [|apply untouched_throw]].
  - apply untouched_nothing. eapply untouched_op with (cap := "credential.detach"); [exact (detach_secret g _) | needed].
  - apply untouched_nothing. eapply untouched_op with (cap := "configuration.delete"); [exact (delete_variable g _) | needed].
Qed.

Lemma intelligenceRoutes_safe k : GuardedIntelligence g k -> Forall safe (createIntelligenceRouter "/v1/intelligence" k).
Proof.
  intros Hk. unfold createIntelligenceRouter.
  repeat (constructor; [behind_check; intros w Hc; split; [exact Hc | now left]|]). constructor.
Qed.

Lemma serviceRoutes_safe dateOf numberOf s : lawfulHost g s -> Forall safe (serviceRoutes g dateOf numberOf s).
Proof.
  intros Hs. unfold serviceRoutes. repeat (apply Forall_app; split).
  - destruct (ma_apiKeys s) eqn:E; [apply keyRoutes_safe, (lh_apiKeys _ _ Hs), E | constructor].
  - destruct (ma_webhooks s) eqn:E; [apply webhookRoutes_safe, (lh_webhooks _ _ Hs), E | constructor].
  - destruct (ma_jobs s) eqn:E; [apply jobRoutes_safe, (lh_jobs _ _ Hs), E | constructor].
  - destruct (ma_schedules s) eqn:E; [apply scheduleRoutes_safe, (lh_schedules _ _ Hs), E | constructor].
  - destruct (ma_files s) eqn:E; [apply fileRoutes_safe, (lh_files _ _ Hs), E | constructor].
  - destruct (ma_notifications s) eqn:E; [apply notificationRoutes_safe, (lh_notifications _ _ Hs), E | constructor].
Qed.

(** The layers of extensions' own routes, as they are mounted. *)
Definition ownLayers (l : list (ManagedExtension DB)) : list (Layer DB) :=
  flat_map (fun e => map (mountedAt_ ("/v1/extensions/" ++ xn_id (rg_extension (mx_registration e)))) (mx_layers e)) l.

Lemma mountExtensions_safe registrations includeUi l : forall layers, mountExtensions g registrations includeUi l = Ok layers ->
  Forall (fun y => In y (ownLayers l) \/ safe y) layers.
Proof.
  induction l as [|e l IH]; intros layers E; cbn [mountExtensions] in E; [injection E as <-; constructor|].
  destruct (negb _); [discriminate E|]. destruct (negb _); [discriminate E|]. destruct (List.find _ _); [discriminate E|].
  apply obind_ok in E as (rest & Er & E). injection E as <-. unfold ownLayers. cbn [flat_map].
  apply Forall_app. split.
  - unfold extensionLayers. apply Forall_app. split.
    + destruct (xn_routes _); [|constructor]. constructor; [right; intros c _; apply authenticated_safe|].
      apply List.Forall_forall. intros y Hy. left. apply in_app_iff. now left.
    + destruct includeUi; [|constructor]. apply List.Forall_forall. intros y Hy. apply in_map_iff in Hy as (page & <- & _).
      right. intros c _. apply gate_safe.
  - eapply Forall_impl; [exact (IH rest Er)|]. intros y [Hy|Hy]; [left; apply in_app_iff; now right | now right].
Qed.

Lemma router_safe dateOf numberOf ui registrations options layers : lawfulHost g (ro_services options) ->
  createManagementRouter g dateOf numberOf ui registrations options = Ok layers ->
  Forall (fun y => In y (ownLayers (ro_extensions options)) \/ safe y) layers.
Proof.
  intros Hs E. unfold createManagementRouter in E. destruct (ro_authorize options); [discriminate E|].
  apply obind_ok in E as (basePath & _ & E). apply obind_ok in E as (extensionRoutes & Ex & E).
  apply obind_ok in E as (document & _ & E). apply obind_ok in E as (contribution & _ & E). injection E as <-.
  assert (forall l, Forall safe l -> Forall (fun y => In y (ownLayers (ro_extensions options)) \/ safe y) l) as Hr
    by (intros l Hl; eapply Forall_impl; [exact Hl | auto]).
  apply Forall_app. split; [|apply Forall_app; split; [|apply Forall_app; split; [|apply Forall_app; split;
    [|apply Forall_app; split; [|apply Forall_cons; split]]]]].
  - apply Hr. destruct (ma_apiKeys _); [|constructor]. constructor; [|constructor]. intros c _. apply gate_safe.
  - apply Hr, serviceRoutes_safe, Hs.
  - exact (mountExtensions_safe _ _ _ _ Ex).
  - apply Hr. destruct (ro_includeConfiguration _); [|constructor]. destruct (ma_configuration _) eqn:Ec; [|constructor].
    apply configurationRoutes_safe, (lh_configuration _ _ Hs), Ec.
  - apply Hr. destruct (ro_includeConfiguration _); [|constructor]. destruct (ma_intelligence _) eqn:Ei; [|constructor].
    apply intelligenceRoutes_safe, (lh_intelligence _ _ Hs), Ei.
  - right. intros c _ w Hc. split; [exact Hc | now left].
  - apply Hr. destruct (ro_includeUi _); [|constructor]. apply List.Forall_forall. intros y Hy. apply in_map_iff in Hy as (l & <- & Hy).
    apply in_map_iff in Hy as (page & <- & _). intros c _ w Hc. cbn [ly_run]. destruct (existsb _ _); (split; [exact Hc|]); [now left | reflexivity].
Qed.

Lemma runLayers_safe matchLayer layers request body auth :
  Forall (fun y => matchLayer (ly_method y) (ly_pattern y) request = None \/ safe y) layers ->
  (forall cap p, In cap (neededBy matchLayer request) -> auth = Some p -> unadmitted g cap (CVerified p)) ->
  untouched (runLayers matchLayer layers request body auth).
Proof.
  intros Hl Hno. induction layers as [|y layers IH]; cbn [runLayers]; [apply untouched_ret|].
  apply Forall_cons in Hl as [Hy Hl]. destruct (matchLayer _ _ request) as [params|] eqn:Em; [|now apply IH].
  destruct Hy as [Hy|Hy]; [discriminate Hy|]. intros w Hc. apply wp_bind.
  eapply wp_mono; [apply (Hy (mkHostContext request body params auth)); [|exact Hc]|].
  - intros cap p Hin Hp. apply (Hno cap p); [exact (behind_needed _ _ _ _ _ _ Em Hin) | exact Hp].
  - intros [[r|]|e] w' [Hc' Hd]; [now apply wp_ret | | now split]. rewrite <- Hd. now apply IH.
Qed.
End layers.

(** ** The caller's tenant *)

Section confinement.
Context {DB : Type} `{FeltDBLaws DB}.
Variable g : ServiceGateway DB.
Variable p : VerifiedPrincipal.

(** An input that names no tenant, or the principal's own. *)
Definition ofTenant (input : Input) : Prop :=
  isUndef (getField input "tenantId") = true \/ getField input "tenantId" = JStr (vp_tenantId p).

Definition sameOp (op op' : Input -> VerifiedPrincipal -> M DB jsval) : Prop := forall input, ofTenant input -> op input p = op' input p.

Definition sameOption {A} (R : A -> A -> Prop) (o o' : option A) : Prop :=
  match o, o' with Some a, Some b => R a b | None, None => True | _, _ => False end.

(** Services that do the same for one principal in its own tenant; for any
    other principal or tenant they may do anything. *)
Record sameKeys (k k' : @ManagedKeys DB) : Prop := mkSameKeys {
  sk_list : mk_list k (vp_tenantId p) = mk_list k' (vp_tenantId p);
  sk_create : sameOp (mk_create k) (mk_create k');
  sk_revoke : sameOp (mk_revoke k) (mk_revoke k');
  sk_update : sameOption sameOp (mk_update k) (mk_update k');
  sk_rotate : sameOption sameOp (mk_rotate k) (mk_rotate k');
  sk_revokeAll : sameOption sameOp (mk_revokeAll k) (mk_revokeAll k');
  sk_audit : sameOption sameOp (mk_audit k) (mk_audit k') }.

Record sameWebhooks (k k' : @ManagedWebhooks DB) : Prop := mkSameWebhooks {
  sw_list : mw_list k (vp_tenantId p) = mw_list k' (vp_tenantId p);
  sw_create : sameOp (mw_create k) (mw_create k');
  sw_disable : sameOp (mw_disable k) (mw_disable k');
  sw_deliveries : sameOption sameOp (mw_deliveries k) (mw_deliveries k');
  sw_delivery : sameOption sameOp (mw_delivery k) (mw_delivery k') }.

Record sameJobs (k k' : @ManagedJobs DB) : Prop := mkSameJobs {
  sj_list : mj_list k (vp_tenantId p) = mj_list k' (vp_tenantId p);
  sj_enqueue : sameOp (mj_enqueue k) (mj_enqueue k');
  sj_retry id : mj_retry k (vp_tenantId p) id p = mj_retry k' (vp_tenantId p) id p }.

Record sameSchedules (k k' : @ManagedSchedules DB) : Prop := mkSameSchedules {
  ss_list : md_list k (vp_tenantId p) p = md_list k' (vp_tenantId p) p;
  ss_create : sameOp (md_create k) (md_create k');
  ss_disable id : md_disable k (vp_tenantId p) id p = md_disable k' (vp_tenantId p) id p }.

Record sameNotifications (k k' : @ManagedNotifications DB) : Prop := mkSameNotifications {
  sn_notify input : ofTenant input -> mn_notify k input p = mn_notify k' input p;
  sn_get id : mn_get k (vp_tenantId p) id p = mn_get k' (vp_tenantId p) id p;
  sn_list options : mn_list k (vp_tenantId p) options p = mn_list k' (vp_tenantId p) options p;
  sn_deliveries id : mn_deliveries k (vp_tenantId p) id p = mn_deliveries k' (vp_tenantId p) id p;
  sn_markRead id : mn_markRead k (vp_tenantId p) id p = mn_markRead k' (vp_tenantId p) id p;
  sn_acknowledge id : mn_acknowledge k (vp_tenantId p) id p = mn_acknowledge k' (vp_tenantId p) id p;
  sn_dismiss id : mn_dismiss k (vp_tenantId p) id p = mn_dismiss k' (vp_tenantId p) id p;
  sn_delete id : mn_delete k (vp_tenantId p) id p = mn_delete k' (vp_tenantId p) id p;
  sn_retryDelivery id channel : mn_retryDelivery k (vp_tenantId p) id channel p = mn_retryDelivery k' (vp_tenantId p) id channel p }.

Record sameFiles (k k' : @ManagedFiles DB) : Prop := mkSameFiles {
  sf_list options : mf_list k (vp_tenantId p) p options = mf_list k' (vp_tenantId p) p options;
  sf_create : sameOp (mf_create k) (mf_create k');
  sf_update : sameOp (mf_update k) (mf_update k');
  sf_delete id : mf_delete k (vp_tenantId p) id p = mf_delete k' (vp_tenantId p) id p }.

Record sameConfiguration (k k' : @ConfigurationOperations DB) : Prop := mkSameConfiguration {
  sc_list : sameOp (configurationList k) (configurationList k');
  sc_update : sameOp (updateVariable k) (updateVariable k');
  sc_create : sameOp (createVariable k) (createVariable k');
  sc_delete : sameOp (configurationDelete k) (configurationDelete k');
  sc_attach : sameOp (createSecret k) (createSecret k');
  sc_rotate : sameOp (rotateSecret k) (rotateSecret k');
  sc_store : sameOp (storeSecret k) (storeSecret k');
  sc_status : sameOp (secretStatus k) (secretStatus k') }.

Record sameIntelligence (k k' : @IntelligenceOperations DB) : Prop := mkSameIntelligence {
  si_catalog : sameOp (catalog k) (catalog k');
  si_get : sameOp (intelligenceGet k) (intelligenceGet k');
  si_set : sameOp (intelligenceSet k) (intelligenceSet k');
  si_setCredential : sameOp (setCredential k) (setCredential k');
  si_removeCredential : sameOp (removeCredential k) (removeCredential k') }.

Record sameServices (s s' : ManagementServices DB) : Prop := mkSameServices {
  sv_apiKeys : sameOption sameKeys (ma_apiKeys s) (ma_apiKeys s');
  sv_webhooks : sameOption sameWebhooks (ma_webhooks s) (ma_webhooks s');
  sv_jobs : sameOption sameJobs (ma_jobs s) (ma_jobs s');
  sv_schedules : sameOption sameSchedules (ma_schedules s) (ma_schedules s');
  sv_files : sameOption sameFiles (ma_files s) (ma_files s');
  sv_notifications : sameOption sameNotifications (ma_notifications s) (ma_notifications s');
  sv_configuration : sameOption sameConfiguration (ma_configuration s) (ma_configuration s');
  sv_intelligence : sameOption sameIntelligence (ma_intelligence s) (ma_intelligence s') }.

(** *** Inputs *)

Lemma getField_app a b key : getField (a ++ b) key = getField a key \/ getField (a ++ b) key = getField b key.
Proof.
  induction a as [|[k v] a IH]; cbn; [now right|]. destruct (String.eqb k key); [now left | exact IH].
Qed.

Lemma ofTenant_app a b : ofTenant a -> ofTenant b -> ofTenant (a ++ b)%list.
Proof. unfold ofTenant. intros Ha Hb. destruct (getField_app a b "tenantId") as [-> | ->]; assumption. Qed.

Lemma ofTenant_objectOf parts : Forall (fun part => forall fields, part = Ok fields -> ofTenant fields) parts ->
  forall out, objectOf parts = Ok out -> ofTenant out.
Proof.
  induction 1 as [|part parts Hp _ IH]; cbn [objectOf]; intros out E; [injection E as <-; now left|].
  apply obind_ok in E as (fields & Ef & E). apply obind_ok in E as (rest & Er & E). injection E as <-.
  apply ofTenant_app; auto.
Qed.

Lemma ofTenant_other key v : String.eqb key "tenantId" = false -> ofTenant [(key, v)].
Proof. unfold ofTenant. cbn. intros ->. now left. Qed.

Lemma ofTenant_field body key check fields : String.eqb key "tenantId" = false -> field_ body key check = Ok fields -> ofTenant fields.
Proof. intros Hk E. apply obind_ok in E as (v & _ & E). injection E as <-. now apply ofTenant_other. Qed.

Lemma ofTenant_optional body key check fields : String.eqb key "tenantId" = false -> optional body key check = Ok fields -> ofTenant fields.
Proof. unfold optional. destruct (isUndef _); [intros _ [= <-]; now left | apply ofTenant_field]. Qed.

Lemma ofTenant_query query key f : String.eqb key "tenantId" = false -> ofTenant (fromQuery query key f).
Proof. unfold fromQuery. destruct (queryText query key); [now apply ofTenant_other | now left]. Qed.

Lemma ofTenant_unless key v : String.eqb key "tenantId" = false -> ofTenant (unlessUndefined key v).
Proof. unfold unlessUndefined. destruct (isUndef v); [now left | now apply ofTenant_other]. Qed.

Lemma ofTenant_pick body keys : Forall (fun key => String.eqb key "tenantId" = false) keys -> ofTenant (pick body keys).
Proof. induction 1 as [|key keys Hk _ IH]; cbn; [now left | now apply ofTenant_app; [apply ofTenant_unless|]]. Qed.

Lemma getField_spread input key v : getField (spreadWith input key v) key = v.
Proof.
  induction input as [|[k u] input IH]; cbn; [now rewrite String.eqb_refl|].
  destruct (String.eqb k key) eqn:E; cbn; rewrite E; [reflexivity | exact IH].
Qed.

Lemma getField_spread_other input key key' v : String.eqb key key' = false -> getField (spreadWith input key v) key' = getField input key'.
Proof.
  intros Hne. induction input as [|[k u] input IH]; cbn; [now rewrite Hne|].
  destruct (String.eqb_spec k key) as [->|]; cbn; [now rewrite Hne|]. now rewrite IH.
Qed.

Lemma ofTenant_spread input key v : String.eqb key "tenantId" = false -> ofTenant input -> ofTenant (spreadWith input key v).
Proof. unfold ofTenant. intros Hk. now rewrite getField_spread_other. Qed.

Lemma ofTenant_scope c : ofTenant (requestScope c p).
Proof. right. reflexivity. Qed.

Lemma ofTenant_scoped c rest : ofTenant (requestScope c p ++ rest)%list.
Proof. right. reflexivity. Qed.

(** *** Layers *)

Definition alike (l l' : Layer DB) : Prop :=
  ly_method l = ly_method l' /\ ly_pattern l = ly_pattern l' /\ forall c w, hc_auth c = Some p -> ly_run l c w = ly_run l' c w.

Definition bodyOfTenant (c : HostContext) : Prop :=
  isUndef (bodyField (hc_body c) "tenantId") = true \/ bodyField (hc_body c) "tenantId" = JStr (vp_tenantId p).

Lemma then_same {A B} (m m' : M DB A) (k : A -> M DB B) w : m w = m' w -> (a ← m; k a) w = (a ← m'; k a) w.
Proof. unfold mbind, M_bind. now intros ->. Qed.

Lemma handler_alike method pattern work work' :
  (forall c w, bodyOfTenant c -> work c p w = work' c p w) -> alike (route method pattern work) (route method pattern work').
Proof.
  intros Hw. split; [reflexivity|]. split; [reflexivity|]. intros c w Hauth. cbn [route ly_run]. unfold handler, requirePrincipal.
  rewrite Hauth. unfold ofOutcome, mbind at 1 3, M_bind at 1 3. unfold bodyOfTenant in Hw.
  destruct (isUndef (bodyField (hc_body c) "tenantId")) eqn:Eu; cbn [negb andb].
  - apply then_same, Hw. now left.
  - destruct (isStr _ _) eqn:Es; [|reflexivity]. cbn [negb]. apply then_same, Hw. right.
    destruct (bodyField _ _); try discriminate Es. apply String.eqb_eq in Es. now subst.
Qed.

Lemma routed_alike method pattern unauthenticated work work' :
  (forall c w, work c p w = work' c p w) ->
  alike (mkLayer method pattern (routed unauthenticated work)) (mkLayer method pattern (routed unauthenticated work')).
Proof.
  intros Hw. split; [reflexivity|]. split; [reflexivity|]. intros c w Hauth. cbn [ly_run]. unfold routed. rewrite Hauth. apply then_same, Hw.
Qed.

Lemma alike_refl l : alike l l.
Proof. repeat split. Qed.

Lemma input_same input op op' w : (forall fields, input = Ok fields -> ofTenant fields) -> sameOp op op' ->
  withInput input op p w = withInput input op' p w.
Proof.
  intros Hi Hop. unfold withInput. destruct input as [fields|e]; [|reflexivity].
  change (op fields p w = op' fields p w). now rewrite (Hop fields (Hi fields eq_refl)).
Qed.

(** The tenant a body names has passed the check. *)
Lemma ofTenant_given c fields : bodyOfTenant c -> optional (hc_body c) "tenantId" asIs = Ok fields -> ofTenant fields.
Proof.
  unfold optional, bodyOfTenant. intros [->|E]; [intros [= <-]; now left|]. rewrite E. cbn. unfold field_, asIs. rewrite E.
  intros [= <-]. now right.
Qed.

Lemma ofTenant_payload body fields : payloadPart body = Ok fields -> ofTenant fields.
Proof. intros E. apply obind_ok in E as (v & _ & E). injection E as <-. now left. Qed.

Lemma ofTenant_owner body fields : ownerPart body = Ok fields -> ofTenant fields.
Proof. unfold ownerPart. intros [= <-]. destruct (bodyField body "owner"); now left. Qed.

Lemma ofTenant_id c fields : idPart c = Ok fields -> ofTenant fields.
Proof. intros [= <-]. now left. Qed.

Create HintDb parts discriminated.
#[local] Hint Resolve ofTenant_given ofTenant_payload ofTenant_owner ofTenant_id : parts.
#[local] Hint Extern 3 (ofTenant _) => eapply ofTenant_field; [|eassumption]; reflexivity : parts.
#[local] Hint Extern 2 (ofTenant _) => eapply ofTenant_optional; [|eassumption]; reflexivity : parts.

(** A literal built from the request names no other tenant. *)
Ltac parts := intros fields E; first [ eapply ofTenant_id, E | eapply ofTenant_objectOf; [|exact E]; repeat (constructor; [eauto with parts|]); constructor ].

Ltac same_work :=
  unfold answering, answeringNothing, notifyAnswer, onNotification;
  repeat first [ reflexivity | apply then_same; apply input_same; [parts | assumption] | apply then_same ].

(** The observation of a list, which is the same. *)
Ltac same_list Hl := apply handler_alike; intros c w Hbody; cbv beta; rewrite Hl; reflexivity.

Ltac same_route := apply handler_alike; intros c w Hbody; same_work.

Lemma provided_alike (op op' : option (Input -> VerifiedPrincipal -> M DB jsval)) layer :
  sameOption sameOp op op' -> (forall f f', sameOp f f' -> alike (layer f) (layer f')) -> Forall2 alike (provided op layer) (provided op' layer).
Proof. intros Ho Hl. destruct op, op'; cbn in Ho; try destruct Ho; cbn; repeat constructor; now apply Hl. Qed.

Lemma keyRoutes_alike dateOf numberOf k k' : sameKeys k k' -> Forall2 alike (keyRoutes g dateOf numberOf k) (keyRoutes g dateOf numberOf k').
Proof.
  intros [Hl Hc Hr Hu Hro Hra Ha]. unfold keyRoutes.
  apply Forall2_app; [|apply Forall2_app; [|apply Forall2_app; [|apply Forall2_app]]].
  - apply List.Forall2_cons; [|apply List.Forall2_cons; [|apply List.Forall2_cons; [|apply List.Forall2_nil]]]; [same_list Hl | same_route | same_route].
  - apply provided_alike; [exact Hu|]. intros f f' Hf. same_route.
  - apply provided_alike; [exact Hro|]. intros f f' Hf. same_route.
  - apply provided_alike; [exact Hra|]. intros f f' Hf. same_route.
  - apply provided_alike; [exact Ha|]. intros f f' Hf. apply handler_alike. intros c w _. same_work. rewrite Hf; [reflexivity|].
    repeat apply ofTenant_app; [now left | now apply ofTenant_query..].
Qed.

Lemma webhookRoutes_alike numberOf k k' : sameWebhooks k k' -> Forall2 alike (webhookRoutes g numberOf k) (webhookRoutes g numberOf k').
Proof.
  intros [Hl Hc Hd Hds Hdl]. unfold webhookRoutes. apply Forall2_app; [|apply Forall2_app].
  - apply List.Forall2_cons; [|apply List.Forall2_cons; [|apply List.Forall2_cons; [|apply List.Forall2_nil]]]; [same_list Hl | same_route | same_route].
  - apply provided_alike; [exact Hds|]. intros f f' Hf. apply handler_alike. intros c w _. same_work. rewrite Hf; [reflexivity|].
    repeat apply ofTenant_app; now apply ofTenant_query.
  - apply provided_alike; [exact Hdl|]. intros f f' Hf. same_route.
Qed.

Lemma jobRoutes_alike k k' : sameJobs k k' -> Forall2 alike (jobRoutes g k) (jobRoutes g k').
Proof.
  intros [Hl He Hr]. unfold jobRoutes. apply List.Forall2_cons; [|apply List.Forall2_cons; [|apply List.Forall2_cons; [|apply List.Forall2_nil]]].
  - same_list Hl.
  - same_route.
  - apply handler_alike. intros c w _. same_work. now rewrite Hr.
Qed.

Lemma scheduleRoutes_alike k k' : sameSchedules k k' -> Forall2 alike (scheduleRoutes k) (scheduleRoutes k').
Proof.
  intros [Hl Hc Hd]. unfold scheduleRoutes. apply List.Forall2_cons; [|apply List.Forall2_cons; [|apply List.Forall2_cons; [|apply List.Forall2_nil]]].
  - apply handler_alike. intros c w _. same_work. now rewrite Hl.
  - same_route.
  - apply handler_alike. intros c w _. same_work. now rewrite Hd.
Qed.

Lemma fileRoutes_alike k k' : sameFiles k k' -> Forall2 alike (fileRoutes k) (fileRoutes k').
Proof.
  intros [Hl Hc Hu Hd]. unfold fileRoutes. apply List.Forall2_cons; [|apply List.Forall2_cons; [|apply List.Forall2_cons; [|apply List.Forall2_cons; [|apply List.Forall2_cons; [|apply List.Forall2_nil]]]]].
  - apply handler_alike. intros c w _. same_work. now rewrite Hl.
  - same_route.
  - unfold updateFileWork. same_route.
  - unfold updateFileWork. same_route.
  - apply handler_alike. intros c w _. same_work. now rewrite Hd.
Qed.

Lemma notificationRoutes_alike numberOf k k' : sameNotifications k k' -> Forall2 alike (notificationRoutes numberOf k) (notificationRoutes numberOf k').
Proof.
  intros [Hn Hg Hl Hd Hm Ha Hs Hx Hr]. unfold notificationRoutes.
  repeat (apply List.Forall2_cons; [apply handler_alike; intros c w _; same_work|]); try apply List.Forall2_nil;
    rewrite ?Hg, ?Hl, ?Hd, ?Hm, ?Ha, ?Hs, ?Hx, ?Hr; try reflexivity.
  apply bind_ext. intros w1 fields _. apply then_same. rewrite Hn; [reflexivity|]. right. apply getField_spread.
Qed.

Ltac same_call Hop := apply routed_alike; intros c w; apply then_same; rewrite Hop; [reflexivity|].

Lemma configurationRoutes_alike k k' : sameConfiguration k k' ->
  Forall2 alike (createConfigurationRouter "/v1/configuration" k) (createConfigurationRouter "/v1/configuration" k').
Proof.
  intros [Hl Hu Hc Hd Ha Hr Hs Ht]. unfold createConfigurationRouter.
  apply List.Forall2_cons; [apply alike_refl|].
  apply List.Forall2_cons; [same_call Hl; apply ofTenant_scope|].
  apply List.Forall2_cons; [same_call Hc; apply ofTenant_scoped|].
  apply List.Forall2_cons; [same_call Hu; apply ofTenant_spread; [reflexivity | apply ofTenant_scoped]|].
  apply List.Forall2_cons; [same_call Ha; apply ofTenant_scoped|].
  apply List.Forall2_cons; [same_call Hs; apply ofTenant_scoped|].
  apply List.Forall2_cons; [same_call Ht; apply ofTenant_scoped|].
  apply List.Forall2_cons; [same_call Hr; apply ofTenant_spread; [reflexivity | apply ofTenant_scoped]|].
  apply List.Forall2_cons; [|apply List.Forall2_nil]. apply routed_alike. intros c w. unfold deleteConfiguration.
  destruct (String.eqb _ "secrets"); [|destruct (String.eqb _ "variables"); [|reflexivity]]; apply then_same;
    (rewrite Hd; [reflexivity|]); (apply ofTenant_spread; [reflexivity | apply ofTenant_scoped]).
Qed.

Lemma intelligenceRoutes_alike k k' : sameIntelligence k k' ->
  Forall2 alike (createIntelligenceRouter "/v1/intelligence" k) (createIntelligenceRouter "/v1/intelligence" k').
Proof.
  intros [Hc Hg Hs Hsc Hr]. unfold createIntelligenceRouter.
  apply List.Forall2_cons; [same_call Hg; apply ofTenant_scope|].
  apply List.Forall2_cons; [same_call Hc; apply ofTenant_scope|].
  apply List.Forall2_cons; [same_call Hs; apply ofTenant_scoped|].
  apply List.Forall2_cons; [same_call Hsc; apply ofTenant_scoped|].
  apply List.Forall2_cons; [same_call Hr; apply ofTenant_scope | apply List.Forall2_nil].
Qed.

(** Two services, or none: their routes. *)
Lemma mount_alike {A} (R : A -> A -> Prop) (routes : A -> list (Layer DB)) (o o' : option A) :
  (forall a a', R a a' -> Forall2 alike (routes a) (routes a')) -> sameOption R o o' ->
  Forall2 alike match o with Some a => routes a | None => [] end match o' with Some a => routes a | None => [] end.
Proof. intros Hr Ho. destruct o, o'; cbn in Ho; try destruct Ho; [now apply Hr | constructor]. Qed.

Lemma serviceRoutes_alike dateOf numberOf s s' : sameServices s s' ->
  Forall2 alike (serviceRoutes g dateOf numberOf s) (serviceRoutes g dateOf numberOf s').
Proof.
  intros [Hk Hw Hj Hs Hf Hn _ _]. unfold serviceRoutes. apply Forall2_app; [|apply Forall2_app; [|apply Forall2_app;
    [|apply Forall2_app; [|apply Forall2_app]]]].
  - exact (mount_alike sameKeys _ _ _ (keyRoutes_alike dateOf numberOf) Hk).
  - exact (mount_alike sameWebhooks _ _ _ (webhookRoutes_alike numberOf) Hw).
  - exact (mount_alike sameJobs _ _ _ jobRoutes_alike Hj).
  - exact (mount_alike sameSchedules _ _ _ scheduleRoutes_alike Hs).
  - exact (mount_alike sameFiles _ _ _ fileRoutes_alike Hf).
  - exact (mount_alike sameNotifications _ _ _ (notificationRoutes_alike numberOf) Hn).
Qed.

Lemma mountedOf_same s s' : sameServices s s' -> mountedOf s = mountedOf s'.
Proof.
  intros [Hk Hw Hj Hs Hf Hn Hc Hi]. unfold mountedOf.
  assert (forall A (R : A -> A -> Prop) o o', sameOption R o o' -> isSome o = isSome o') as Hsome
    by (intros A R [a|] [b|] Ho; cbn in Ho; (reflexivity || destruct Ho)).
  f_equal; eapply Hsome; eassumption.
Qed.

(** The same router over other services. *)
Definition withServices (options : RouterOptions DB) (services : ManagementServices DB) : RouterOptions DB :=
  mkRouterOptions services (ro_authorize options) (ro_includeConfiguration options) (ro_includeUi options) (ro_basePath options) (ro_extensions options).

Lemma forall2_refl l : Forall2 alike l l.
Proof. induction l; constructor; [apply alike_refl | assumption]. Qed.

Lemma router_alike dateOf numberOf ui registrations options services layers layers' :
  sameServices (ro_services options) services ->
  createManagementRouter g dateOf numberOf ui registrations options = Ok layers ->
  createManagementRouter g dateOf numberOf ui registrations (withServices options services) = Ok layers' ->
  Forall2 alike layers layers'.
Proof.
  intros Hs E E'. unfold createManagementRouter in E, E'. cbn [withServices ro_services ro_authorize ro_includeConfiguration ro_includeUi ro_basePath ro_extensions] in E'.
  destruct (ro_authorize options); [discriminate E|].
  apply obind_ok in E as (basePath & Eb & E). apply obind_ok in E as (routes & Ex & E). apply obind_ok in E as (document & Ed & E).
  apply obind_ok in E as (contribution & Ec & E). injection E as <-.
  rewrite <- (mountedOf_same _ _ Hs) in E'.
  apply obind_ok in E' as (basePath' & Eb' & E'). apply obind_ok in E' as (routes' & Ex' & E'). apply obind_ok in E' as (document' & Ed' & E').
  apply obind_ok in E' as (contribution' & Ec' & E'). injection E' as <-.
  rewrite Eb in Eb'. injection Eb' as <-. rewrite Ex in Ex'. injection Ex' as <-. rewrite Ed in Ed'. injection Ed' as <-. rewrite Ec in Ec'. injection Ec' as <-.
  apply Forall2_app; [|apply Forall2_app; [|apply Forall2_app; [apply forall2_refl|apply Forall2_app; [|apply Forall2_app; [|apply forall2_refl]]]]].
  - destruct Hs as [Hk _ _ _ _ _ _ _]. destruct (ma_apiKeys _), (ma_apiKeys services); cbn in Hk; try destruct Hk; apply forall2_refl.
  - now apply serviceRoutes_alike.
  - destruct (ro_includeConfiguration options); [|constructor].
    exact (mount_alike sameConfiguration _ _ _ configurationRoutes_alike (sv_configuration _ _ Hs)).
  - destruct (ro_includeConfiguration options); [|constructor].
    exact (mount_alike sameIntelligence _ _ _ intelligenceRoutes_alike (sv_intelligence _ _ Hs)).
Qed.

Lemma runLayers_alike matchLayer layers layers' request body w : Forall2 alike layers layers' ->
  runLayers matchLayer layers request body (Some p) w = runLayers matchLayer layers' request body (Some p) w.
Proof.
  intros Hl. revert w. induction Hl as [|l l' layers layers' (Hm & Hp & Hr) _ IH]; intros w; [reflexivity|]. cbn [runLayers].
  rewrite <- Hm, <- Hp. destruct (matchLayer _ _ request) as [params|]; [|apply IH].
  unfold mbind, M_bind. rewrite (Hr (mkHostContext request body params (Some p)) w eq_refl).
  destruct (ly_run l' _ w) as [w1 [[r|]|e]]; [reflexivity | apply IH | reflexivity].
Qed.
End confinement.

(** ** The router fails closed *)

Section claims.
Context {DB : Type} `{FeltDBLaws DB}.

(** The router fails closed: once the request is authenticated nothing is
    written but one row that records a denial, unless a capability of a route
    the request matches is admitted.  (Extensions' own routes are theirs.) *)
Lemma handle_untouched g dateOf numberOf ui registrations options layers
  authenticate throttle matchLayer typeOf foreign request body w w0 w1 auth :
  hostQuiet g -> lawfulHost g (ro_services options) ->
  createManagementRouter g dateOf numberOf ui registrations options = Ok layers ->
  (forall y, In y (ownLayers (ro_extensions options)) -> matchLayer (ly_method y) (ly_pattern y) request = None) ->
  hr_body request = Ok body -> throttle request w = (w0, Ok None) -> authenticateHost g authenticate request w0 = (w1, Ok auth) -> calm w1 ->
  (forall cap p, In cap (neededBy matchLayer request) -> auth = Some p -> unadmitted g cap (CVerified p)) ->
  let w' := (handleManagement g authenticate throttle matchLayer typeOf foreign layers request w).1 in
  calm w' /\ onlyRefusal (w_db w1) (w_db w').
Proof.
  intros Hhost Hs Er Hown Hb Ht Ha Hc Hno w'. subst w'. unfold handleManagement, serveManagement, tryCatch, mbind, M_bind.
  rewrite Hb. cbn [ofOutcome]. rewrite Ht, Ha.
  assert (Forall (fun y => matchLayer (ly_method y) (ly_pattern y) request = None \/ safe g y) layers) as Hl.
  { eapply Forall_impl; [exact (router_safe g Hhost _ _ _ _ _ _ Hs Er)|]. intros y [Hy|Hy]; [left; now apply Hown | now right]. }
  pose proof (runLayers_safe g matchLayer layers request body auth Hl Hno w1 Hc) as Hw. unfold wp in Hw.
  destruct (runLayers matchLayer layers request body auth w1) as [w2 [r|e]]; exact Hw.
Qed.

(** C30: The router keeps a caller in its tenant.  Take any two sets of
    services that do the same for one principal as long as they are called
    for its own tenant, and may do anything for other tenants and callers:
    every request of that principal is answered the same, with the same
    effects - whatever tenant its body, query or path names. *)
Theorem management_stays_in_tenant g dateOf numberOf ui registrations options services layers layers'
  authenticate throttle matchLayer typeOf foreign request body p w w0 w1 :
  sameServices p (ro_services options) services ->
  createManagementRouter g dateOf numberOf ui registrations options = Ok layers ->
  createManagementRouter g dateOf numberOf ui registrations (withServices options services) = Ok layers' ->
  hr_body request = Ok body -> throttle request w = (w0, Ok None) -> authenticateHost g authenticate request w0 = (w1, Ok (Some p)) ->
  handleManagement g authenticate throttle matchLayer typeOf foreign layers request w =
  handleManagement g authenticate throttle matchLayer typeOf foreign layers' request w.
Proof.
  intros Hs E E' Hb Ht Ha. unfold handleManagement, serveManagement, tryCatch, mbind, M_bind.
  rewrite Hb. cbn [ofOutcome]. rewrite Ht, Ha.
  now rewrite (runLayers_alike p matchLayer layers layers' request body w1 (router_alike g p _ _ _ _ _ _ _ _ Hs E E')).
Qed.
End claims.

(** ** A host of files *)

(** The file operations of the dispatcher, as the router calls them. *)
Definition managedFiles {DB} (f : FileOperations DB) : @ManagedFiles DB :=
  mkManagedFiles (fun t p input => fileList f t p (stringField input "owner")) (fileCreate f) (fileUpdate f) (fileDelete f).

Definition onlyFiles {DB} (files : @ManagedFiles DB) : ManagementServices DB :=
  mkManagementServices None None None None (Some files) None None None.

Lemma onlyFiles_lawful {DB} `{FeltDBLaws DB} (g : ServiceGateway DB) f :
  GuardedFiles g f -> lawfulHost g (onlyFiles (managedFiles f)).
Proof. intros Hf. split; try discriminate. intros k [= <-]. split; intros; exact _. Qed.

(** A pattern against a path, segment by segment; [:name] takes any segment. *)
Fixpoint matchSegments (pattern path : list string) : option Params :=
  match pattern, path with
  | [], [] => Some []
  | String ":" name :: pattern, segment :: path => option_map (cons (name, segment)) (matchSegments pattern path)
  | s :: pattern, segment :: path => if String.eqb s segment then matchSegments pattern path else None
  | _, _ => None
  end.

(** A matcher for the demo: ["USE"] takes every path below its own. *)
Definition demoMatch (method pattern : string) (request : HostRequest) : option Params :=
  if String.eqb method "USE" then if startsWith (hr_path request) pattern then Some [] else None
  else if String.eqb method (hr_method request) then matchSegments (splitOn "/" pattern) (splitOn "/" (hr_path request)) else None.

Definition demoUi : UiHost :=
  mkUiHost "1" (fun c => Ok c) (fun _ _ => JNull) (fun _ _ => true) (fun _ => None) (fun _ => "{}") (mkAssets "" "" "").

Definition fileRouterOptions (files : @ManagedFiles MemDB) : RouterOptions MemDB :=
  mkRouterOptions (onlyFiles files) false true true JUndef [].

Definition demoFiles (allowed : bool) : @ManagedFiles MemDB :=
  managedFiles (fileService (demoGateway allowed) strLe demoCreate demoUpdate demoFileValue).

Definition fileLayers (allowed : bool) (files : @ManagedFiles MemDB) : outcome (list (Layer MemDB)) :=
  createManagementRouter (demoGateway allowed) (fun _ => None) (fun _ => JUndef) demoUi (mkRegistrations 0 []) (fileRouterOptions files).

Definition layersOf (o : outcome (list (Layer MemDB))) : list (Layer MemDB) := match o with Ok l => l | Throw _ => [] end.

Definition newFile (auth : option VerifiedPrincipal) (body : jsval) : HostRequest :=
  mkHostRequest "POST" "/_appport/files" [] (Ok body) auth.

Definition newFileBody : jsval := JObj [("name", JStr "a.txt"); ("size", JInt 3); ("storageKey", JStr "k1")].

(** A request to the demo host. *)
#[local] Abbreviation served allowed layers request :=
  (handleManagement (demoGateway allowed) (fun _ => mret None) (fun _ => mret None) demoMatch (fun _ => None) (fun _ => (None, None))
     layers request (demo emptyDB)).

Definition statusOf (o : outcome HostReply) : Z := match o with Ok (Answer status _) => status | Ok (Page _) => 200 | Ok NoContent => 204 | _ => 0 end.

(** ** Witnesses *)

Lemma demoFiles_lawful allowed : lawfulHost (demoGateway allowed) (onlyFiles (demoFiles allowed)).
Proof. apply onlyFiles_lawful, fileService_guarded, demo_hostQuiet. Qed.

Lemma demo_empty_calm : calm (demo emptyDB).
Proof. apply demo_calm, unused_empty. Qed.

Example file_denied :
  statusOf (served false (layersOf (fileLayers false (demoFiles false))) (newFile (Some alice) newFileBody)).2 = 403.
Proof. vm_compute. reflexivity. Qed.

(** The same files for tenant [t1], and nonsense for every other tenant. *)
Definition strictFiles (files : @ManagedFiles MemDB) : @ManagedFiles MemDB :=
  let ours (input : Input) := match getField input "tenantId" with JUndef => true | v => isStr v "t1" end in
  mkManagedFiles
    (fun t p i => if String.eqb t "t1" then mf_list files t p i else throw invalidDate)
    (fun i p => if ours i then mf_create files i p else throw invalidDate)
    (fun i p => if ours i then mf_update files i p else throw invalidDate)
    (fun t i p => if String.eqb t "t1" then mf_delete files t i p else throw invalidDate).

Lemma strictFiles_same files : sameFiles alice files (strictFiles files).
Proof.
  split; intros; try reflexivity; intros input Hi; cbn [strictFiles mf_create mf_update];
    (destruct Hi as [Hi| ->]; [destruct (getField input "tenantId"); (discriminate Hi || reflexivity) | reflexivity]).
Qed.

Lemma management_stays_in_tenant_witness :
  statusOf (served true (layersOf (fileLayers true (demoFiles true))) (newFile (Some alice) newFileBody)).2 = 201 /\
  served true (layersOf (fileLayers true (demoFiles true))) (newFile (Some alice) newFileBody) =
  served true (layersOf (fileLayers true (strictFiles (demoFiles true)))) (newFile (Some alice) newFileBody).
Proof.
  split; [vm_compute; reflexivity|].
  apply (management_stays_in_tenant (demoGateway true) (fun _ => None) (fun _ => JUndef) demoUi (mkRegistrations 0 [])
    (fileRouterOptions (demoFiles true)) (onlyFiles (strictFiles (demoFiles true)))
    (layersOf (fileLayers true (demoFiles true))) (layersOf (fileLayers true (strictFiles (demoFiles true))))
    (fun _ => mret None) (fun _ => mret None) demoMatch (fun _ => None) (fun _ => (None, None)) (newFile (Some alice) newFileBody) newFileBody alice
    (demo emptyDB) (demo emptyDB) (demo emptyDB)); try reflexivity.
  split; cbn; try exact I. apply strictFiles_same.
Defined.

(** ** What modelling showed *)

(** A page behind the overview is served to a caller without identity: only
    the API-key page and extensions' pages are gated. *)
Lemma file_page_is_open :
  statusOf (served false (layersOf (fileLayers false (demoFiles false))) (mkHostRequest "GET" "/files" [] (Ok JUndef) None)).2 = 200.
Proof. vm_compute. reflexivity. Qed.

(** A file that does not exist is answered with 500. *)
Lemma missing_file_is_500 : statusOf (served true (layersOf (fileLayers true (demoFiles true)))
  (mkHostRequest "PATCH" "/_appport/files/none" [] (Ok (JObj [("name", JStr "b.txt")])) (Some alice))).2 = 500.
Proof. vm_compute. reflexivity. Qed.

(** A notification that does not exist is 500 on the management routes, and
    404 on the router of [notifications/http.ts]. *)
Lemma missing_notification_differs typeOf foreign message :
  typeOf (JsError "NotificationNotFoundError" message) = None -> foreign (JsError "NotificationNotFoundError" message) = (None, None) ->
  statusOf (Ok (managementErrorHandler typeOf foreign (JsError "NotificationNotFoundError" message))) = 500 /\
  statusOf (Ok (notificationErrorHandler foreign (JsError "NotificationNotFoundError" message))) = 404.
Proof.
  intros Ht Hf. unfold managementErrorHandler, isBodyParseError, statusProperty, codeProperty. rewrite Ht, Hf. split; reflexivity.
Qed.
