(* ===== verification/HttpAdapter.v ===== *)
(** * HttpAdapter: identities on requests ([runtime/http-adapter.ts], [runtime/express-middleware.ts])

    How the [Authorization] header of a request becomes a principal, for hosts
    that authenticate with AppPort API keys.  [authenticateApiKey] is the
    operation of the key service. *)

From S2P Require Import Prelude JsString Errors Models Store Principal Webhooks Dsl Platform AppPort.
From Stdlib Require Import ZArith Lia Ascii.
Local Open Scope string_scope.
Local Open Scope Z_scope.

(** ** Reading the header *)

(** [typeof header === 'string'], or the first of several. *)
Definition getAuthorizationHeader (request : HttpRequest) : option string := firstHeader request "authorization".

(** [text.split(/\s+/, 2)]: what is before the first white space, and the word
    after it, if there is white space at all. *)
Definition splitTwo (text : string) : list string :=
  let word s := spanOf (fun c => negb (isSpace c)) s in
  match word text with
  | (first, EmptyString) => [first]
  | (first, rest) => [first; fst (word (trimStart rest))]
  end.

Definition isValidAuthorizationFormat (header : string) : bool := Nat.eqb (length (splitTwo header)) 2.

(** ** Authentication *)

Inductive Reason := Missing | Malformed | Invalid.

Definition reasonText (r : Reason) : string := match r with Missing => "missing" | Malformed => "malformed" | Invalid => "invalid" end.

Inductive AuthenticationResult := Authenticated (p : VerifiedPrincipal) | Unauthenticated (reason : Reason).

Definition AuthenticationError (r : Reason) : exn := JsError "AuthenticationError" ("Authentication " ++ reasonText r).
Definition TenantMismatchError : exn := JsError "TenantMismatchError" "Tenant mismatch".

Definition principalOf (result : AuthenticationResult) : option VerifiedPrincipal :=
  match result with Authenticated p => Some p | Unauthenticated _ => None end.

(** [RequestContext]: the principal it holds. *)
Definition RequestContext : Type := option VerifiedPrincipal.

Definition newRequestContext : RequestContext := None.
Definition getPrincipal (c : RequestContext) : option VerifiedPrincipal := c.
Definition setPrincipal (p : VerifiedPrincipal) (c : RequestContext) : RequestContext := Some p.
Definition clearContext (c : RequestContext) : RequestContext := None.

Definition assertTenant (p : VerifiedPrincipal) (tenantId : string) : outcome unit :=
  if String.eqb (vp_tenantId p) tenantId then Ok tt else Throw TenantMismatchError.

(** What the middlewares leave on an Express request. *)
Record ExpressRequest := mkExpressRequest {
  xr_request : HttpRequest;
  xr_auth : option VerifiedPrincipal;
  xr_authContext : option RequestContext }.

Section adapter.
Context {DB : Type} `{FeltDB DB}.
Variable authenticateApiKey : string -> M DB (option VerifiedPrincipal).

(** [authenticateRequest]: a failure of the key service is no identity. *)
Definition authenticateHttp (request : HttpRequest) : M DB AuthenticationResult :=
  match ifPresent (getAuthorizationHeader request) with
  | None => mret (Unauthenticated Missing)
  | Some header =>
      if negb (isValidAuthorizationFormat header) then mret (Unauthenticated Malformed)
      else tryCatch
             (principal ← authenticateBearerToken authenticateApiKey header;
              mret match principal with Some p => Authenticated p | None => Unauthenticated Invalid end)
             (fun _ => mret (Unauthenticated Invalid))
  end.

Definition requirePrincipalOf (request : HttpRequest) : M DB VerifiedPrincipal :=
  result ← authenticateHttp request;
  match result with Authenticated p => mret p | Unauthenticated r => throw (AuthenticationError r) end.

Definition authenticatePrincipal (request : HttpRequest) : M DB (option VerifiedPrincipal) :=
  result ← authenticateHttp request; mret (principalOf result).

(** [apiKeyAuth] and [requireApiKeyAuth]: the request as the next handler
    sees it, or the error [next] is given. *)
Definition authContext (req : ExpressRequest) (p : option VerifiedPrincipal) : ExpressRequest :=
  match p with
  | Some p => mkExpressRequest (xr_request req) (Some p) (Some (setPrincipal p newRequestContext))
  | None => mkExpressRequest (xr_request req) (xr_auth req) (Some newRequestContext)
  end.

Definition apiKeyAuth (req : ExpressRequest) : M DB ExpressRequest :=
  principal ← authenticatePrincipal (xr_request req); mret (authContext req principal).

Definition requireApiKeyAuth (req : ExpressRequest) : M DB ExpressRequest :=
  principal ← requirePrincipalOf (xr_request req); mret (authContext req (Some principal)).

(** ** The management host's own boundary ([runtime/management-host.ts]) *)

(** [createManagementHostAuthenticate]: a header of the request that is text
    and not blank, then the operator's adapter. *)
Definition createManagementHostAuthenticate {Claims} (ofPrincipal : VerifiedPrincipal -> Claims) (identify : option (M DB (option Claims)))
  (headers : list (string * HeaderValue)) : M DB (option Claims) :=
  let operator := match identify with Some who => who | None => mret None end in
  match List.find (fun h => String.eqb (fst h) "authorization") headers with
  | Some (_, HOne header) =>
      if blank header then operator
      else
        principal ← authenticateBearerToken authenticateApiKey header;
        match principal with Some p => mret (Some (ofPrincipal p)) | None => operator end
  | _ => operator
  end.

(** ** What authenticates *)

(** The token a header presents. *)
Definition bearerToken (header : string) : option string :=
  match splitTwo header with
  | [scheme; token] => if truthy scheme && truthy token && String.eqb (toLowerCase scheme) "bearer" then Some token else None
  | _ => None
  end.

Lemma spanOf_all p s : spanOf p s = (s, EmptyString) <-> all p s = true.
Proof.
  induction s as [|c s IH]; cbn; [tauto|]. destruct (p c); cbn; [|split; [intros [=] | discriminate]].
  destruct (spanOf p s) as [a b]. split; [intros [= -> ->]; now apply IH | intros Ha; apply IH in Ha as [= -> ->]; reflexivity].
Qed.

Lemma bearerToken_exact header :
  authenticateBearerToken authenticateApiKey header =
  match bearerToken header with Some token => authenticateApiKey token | None => mret None end.
Proof.
  unfold authenticateBearerToken, bearerToken, splitTwo. destruct (spanOf _ header) as [scheme rest].
  destruct rest as [|c r].
  - cbn. now rewrite andb_false_r.
  - destruct (spanOf (fun c => negb (isSpace c)) (trimStart (String c r))) as [token after]. cbn [fst]. now destruct (_ && _ && _).
Qed.

(** The adapter and the host's boundary ask the key service for the same
    token, and for no other: what authenticates is the word after [Bearer]. *)
Lemma authenticateHttp_exact request w :
  authenticateHttp request w =
  match ifPresent (getAuthorizationHeader request) with
  | None => (w, Ok (Unauthenticated Missing))
  | Some header =>
      match bearerToken header with
      | Some token =>
          let (w', o) := authenticateApiKey token w in
          (w', Ok match o with Ok (Some p) => Authenticated p | _ => Unauthenticated Invalid end)
      | None => (w, Ok (Unauthenticated (if isValidAuthorizationFormat header then Invalid else Malformed)))
      end
  end.
Proof.
  unfold authenticateHttp. destruct (ifPresent _) as [header|]; [|reflexivity]. rewrite bearerToken_exact.
  destruct (isValidAuthorizationFormat header) eqn:Ef; cbn [negb].
  - unfold tryCatch, mbind, M_bind, mret, M_ret. destruct (bearerToken header) as [token|]; [|reflexivity].
    destruct (authenticateApiKey token w) as [w' [[p|]|e]]; reflexivity.
  - unfold isValidAuthorizationFormat in Ef. unfold bearerToken. destruct (splitTwo header) as [|a [|b [|]]]; try discriminate Ef; reflexivity.
Qed.

(** [requireApiKeyAuth] lets a request pass exactly where [apiKeyAuth] finds a
    principal, and both then leave the same request. *)
Lemma require_is_auth req w :
  (requireApiKeyAuth req w).1 = (apiKeyAuth req w).1 /\
  match (requireApiKeyAuth req w).2 with
  | Ok req' => (apiKeyAuth req w).2 = Ok req' /\ exists p, xr_auth req' = Some p /\ xr_authContext req' = Some (Some p)
  | Throw _ => exists req', (apiKeyAuth req w).2 = Ok req' /\ xr_auth req' = xr_auth req /\ xr_authContext req' = Some None
  end.
Proof.
  unfold requireApiKeyAuth, apiKeyAuth, requirePrincipalOf, authenticatePrincipal, mbind, M_bind. rewrite authenticateHttp_exact.
  destruct (ifPresent _) as [header|]; [|split; [reflexivity | eexists; repeat split]].
  destruct (bearerToken header) as [token|]; [|split; [reflexivity | eexists; repeat split]].
  destruct (authenticateApiKey token w) as [w' [[p|]|e]]; (split; [reflexivity|]); [|eexists; repeat split..].
  split; [reflexivity|]. exists p. split; reflexivity.
Qed.
End adapter.
