(* ===== verification/Email.v ===== *)
(** * Email: the e-mail channel ([notifications/email.ts])

    The transport, the host's address book and its renderer are parameters. *)

From S2P Require Import Prelude JsString Errors Models Store Notifications.
From Stdlib Require Import ZArith Lia Ascii.
Local Open Scope string_scope.
Local Open Scope Z_scope.

Record EmailMessage := mkEmail {
  em_identity : string;
  em_to : string;
  em_subject : string;
  em_text : string;
  em_html : option string;
  em_idempotencyKey : string;
  em_metadata : list (string * string) }.

Record EmailContent := mkContent { ec_subject : string; ec_text : string; ec_html : option string }.

(** ** Addresses *)

(** A character of [^\s@<>]. *)
Definition addressChar (c : ascii) : bool :=
  negb (isSpace c || Ascii.eqb c "@" || Nat.eqb (code c) 60 || Ascii.eqb c ">").

(** A dot with a character before and after it. *)
Definition dotted (domain : string) : bool :=
  match splitLast domain with
  | Some (String _ inner, _) => any (fun c => Ascii.eqb c ".") inner
  | _ => false
  end.

(** [ADDRESS] *)
Definition isAddress (text : string) : bool :=
  match splitOn "@" text with
  | [local; domain] => truthy local && all addressChar local && all addressChar domain && dotted domain
  | _ => false
  end.

Section channel.
Context {DB : Type} `{FeltDB DB}.

(** [identity] is as configured; [send] returns what the transport did, of
    which only [message_id] and [id] are read. *)
Record EmailChannelOptions := mkEmailOptions {
  eo_send : EmailMessage -> M DB jsval;
  eo_identity : option string;
  eo_address : Notification -> M DB (option string);
  eo_render : option (Notification -> NotificationDelivery -> M DB (option EmailContent)) }.
Variable o : EmailChannelOptions.

Definition defaultContent (n : Notification) : EmailContent := mkContent (n_title n) (orElse (n_body n) (n_title n)) None.

Definition emailOf (n : Notification) (d : NotificationDelivery) (to : string) (c : EmailContent) : EmailMessage :=
  mkEmail (orElse (eo_identity o) "system") to (ec_subject c) (ec_text c) (ifPresent (ec_html c)) (nd_idempotencyKey d)
    [("notificationId", n_id n); ("deliveryId", nd_id d); ("type", n_type n)].

(** [sent?.message_id], or [sent?.id], where it is text. *)
Definition externalIdOf (sent : jsval) : option string :=
  match sent with
  | JObj fields =>
      match getField fields "message_id", getField fields "id" with
      | JStr id, _ => ifPresent (Some id)
      | _, JStr id => ifPresent (Some id)
      | _, _ => None
      end
  | _ => None
  end.

Definition emailChannel : Channel DB := fun n d =>
  to ← eo_address o n;
  match ifPresent to with
  | None => mret (ChannelFailed "no_email_address" (Some false))
  | Some address =>
      if negb (isAddress address) then mret (ChannelFailed "no_email_address" (Some false))
      else
        content ← match eo_render o with Some render => render n d | None => mret (Some (defaultContent n)) end;
        match content with
        | None => mret (ChannelFailed "not_renderable" (Some false))
        | Some c =>
            sent ← eo_send o (emailOf n d address c);
            mret (ChannelDelivered (externalIdOf sent))
        end
  end.
End channel.
Arguments EmailChannelOptions : clear implicits.

(** ** What the channel promises the delivery loop *)

Section promises.
Context {DB : Type} `{FeltDB DB}.

(** Options whose transport refuses what [allowed] does not hold of. *)
Definition onlySending (allowed : EmailMessage -> bool) (o : EmailChannelOptions DB) : EmailChannelOptions DB :=
  mkEmailOptions (fun m => if allowed m then eo_send o m else throw (JsError "Error" "refused")) (eo_identity o) (eo_address o) (eo_render o).

(** The transport is given only messages to well-formed addresses under the
    delivery's own idempotency key: a transport that refuses every other
    message makes no difference. *)
Lemma email_confined (o : EmailChannelOptions DB) n d w :
  emailChannel (onlySending (fun m => isAddress (em_to m) && String.eqb (em_idempotencyKey m) (nd_idempotencyKey d)) o) n d w =
  emailChannel o n d w.
Proof.
  unfold emailChannel. apply bind_ext. intros w1 to _. destruct (ifPresent to) as [address|]; [|reflexivity].
  destruct (isAddress address) eqn:E; [|reflexivity]. cbn [negb]. cbn [onlySending eo_render].
  apply bind_ext. intros w2 [c|] _; [|reflexivity]. cbn [onlySending eo_send emailOf em_to em_idempotencyKey].
  now rewrite E, String.eqb_refl.
Qed.

(** The channel itself never asks for a retry: what it reports as failed is
    final, and only what the host's functions throw is tried again. *)
Lemma email_failures_final (o : EmailChannelOptions DB) n d w w' reason retryable :
  emailChannel o n d w = (w', Ok (ChannelFailed reason retryable)) -> retryable = Some false.
Proof.
  unfold emailChannel. intros E. apply bind_inv in E as (w1 & to & _ & E).
  destruct (ifPresent to) as [address|]; [|injection E as _ _ <-; reflexivity].
  destruct (negb _); [injection E as _ _ <-; reflexivity|].
  apply bind_inv in E as (w2 & [c|] & _ & E); [|injection E as _ _ <-; reflexivity].
  apply bind_inv in E as (w3 & sent & _ & E). discriminate E.
Qed.
End promises.
