(* ===== verification/Wiring.v ===== *)
(** * Wiring: the services of one host ([runtime/unified-services.ts], [runtime/management-host.ts])

    [createServices] puts the services together: one gateway, one job service,
    the API keys' check on every principal.  Here the records of the other
    files are built the way it builds them, and the operations the dispatcher
    and the management router are given are those of these services.  How a
    plain object is read as the input of an operation, and how its result is
    shown as one, is a parameter ([Shapes]), as are the functions of the
    platform ([Platform]). *)

From S2P Require Import Prelude JsString JsTime Errors Models Store Principal Manifest Evidence Gateway Jobs Schedules ApiKeys Webhooks Files Configuration Notifications Intelligence Transactions Health Extensions Contract Dsl AppPort Invoke Ui Management.
From Stdlib Require Import ZArith Lia Ascii.
Local Open Scope string_scope.
Local Open Scope Z_scope.

(** ** Parameters *)

Record Platform (DB : Type) := mkHostPlatform {
  pl_scrypt : string -> string -> nat -> string;
  pl_hmac : string -> string -> string;
  pl_localeLe : string -> string -> bool;
  pl_stringOf : jsval -> string;
  pl_otherDate : string -> option Z;
  pl_fractionsFinite : bool;
  pl_jsonParse : string -> option jsval;
  pl_parseEndpoint : string -> option EndpointURL;
  pl_stackOf : exn -> option string;
  pl_version : string;
  (** The hosts' lookups and requests, with [webhookDestinationPolicy]. *)
  pl_hooks : WebhookPlatform DB;
  pl_notices : NotificationPlatform }.
Arguments pl_scrypt {DB}. Arguments pl_hmac {DB}. Arguments pl_localeLe {DB}. Arguments pl_stringOf {DB}. Arguments pl_otherDate {DB}.
Arguments pl_fractionsFinite {DB}. Arguments pl_jsonParse {DB}. Arguments pl_parseEndpoint {DB}. Arguments pl_stackOf {DB}.
Arguments pl_version {DB}. Arguments pl_hooks {DB}. Arguments pl_notices {DB}. Arguments mkHostPlatform {DB}.

(** Plain objects as inputs ([in_]) and results as plain values ([out_]). *)
Record Shapes := mkShapes {
  in_createKey : Input -> CreateApiKeyInput;
  in_listKeys : Input -> ApiKeyListOptions;
  in_updateKey : Input -> UpdateApiKeyInput;
  in_rotateKey : Input -> RotateApiKeyInput;
  in_createEndpoint : Input -> CreateWebhookEndpointInput;
  in_disableEndpoint : Input -> DisableWebhookEndpointInput;
  in_emit : Input -> EmitWebhookEventInput;
  in_deliveryQuery : Input -> WebhookDeliveryQuery;
  in_integration : Input -> RegisterWebhookIntegrationInput;
  in_createJob : Input -> CreateJobInput;
  in_createSchedule : Input -> CreateScheduleInput;
  in_listNotices : Input -> Notifications.NotificationListOptions;
  in_createFile : Input -> CreateFileInput;
  in_updateFile : Input -> UpdateFileInput;
  in_scope : Input -> Scope;
  in_variable : Input -> VariableInput;
  in_credential : Input -> CredentialInput;
  in_store : Input -> CredentialStoreInput;
  in_status : Input -> CredentialStatusInput;
  in_selection : Input -> IntelligenceWriteInput;
  in_intelligenceCredential : Input -> IntelligenceCredentialInput;
  out_key : ApiKeyView -> jsval;
  out_createdKey : CreatedApiKey -> jsval;
  out_rotatedKey : RotatedApiKey -> jsval;
  out_keyEvent : ApiKeyAuditEvent -> jsval;
  out_endpoint : WebhookEndpoint -> jsval;
  out_delivery : WebhookDelivery -> jsval;
  out_integration : WebhookIntegration -> jsval;
  out_job : Job -> jsval;
  out_schedule : JobSchedule -> jsval;
  out_notification : Notification -> jsval;
  out_noticeDelivery : NotificationDelivery -> jsval;
  out_file : File -> jsval;
  out_variable : ConfigurationVariableView -> jsval;
  out_secret : ConfigurationSecretView -> jsval;
  out_configuration : ConfigurationList -> jsval;
  out_stored : CredentialStoreResult -> jsval;
  out_status : CredentialStatusView -> jsval;
  out_provider : IntelligenceProvider -> jsval;
  out_intelligence : IntelligenceConfigurationView -> jsval;
  out_runtime : IntelligenceRuntimeConfiguration -> jsval }.

Section wiring.
Context {DB : Type} `{FeltDBLaws DB}.
Variable pl : Platform DB.
Variable sh : Shapes.

(** ** [createServices] *)

(** [so_contract]: the contract [config] names, parsed; [so_local]: the
    deployment mode of the store the runtime opens or is given is [local]. *)
Record CreateServicesOptions := mkServicesOptions {
  so_contract : option AppPortConfig;
  so_namespace : option string;
  so_local : bool;
  so_hostDb : bool;
  so_application : option string;
  so_authorizer : option (ServiceAuthorizationRequest -> M DB Gateway.Answer);
  so_credentials : Credentials DB;
  so_authorizationTimeoutMs : option Z;
  so_apiKeyVerifierKey : option string;
  so_declarations : list ConfigurationDeclaration;
  so_channels : list (string * Channel DB);
  so_extensions : list jsval }.

Record AppPortServices := mkAppPortServices {
  as_gateway : ServiceGateway DB;
  (** The gateway the services enforce, if they have one. *)
  as_authority : option (ServiceGateway DB);
  as_apiKeys : ApiKeyService DB;
  as_webhooks : WebhookService DB;
  as_jobs : JobService DB;
  as_notifications : NotificationService DB;
  as_declarations : list ConfigurationDeclaration;
  as_extensions : list RegisteredServicesExtension;
  as_capabilities : list ServiceCapability;
  as_ownsDb : bool;
  as_authorizer : bool;
  as_credentials : bool }.

(** [application ?? dslConfig?.application.name ?? namespace ?? 'default'] *)
Definition applicationOf (options : CreateServicesOptions) : string :=
  orElse (so_application options) (orElse (option_map ac_application_name (so_contract options)) (orElse (so_namespace options) "default")).

Definition hasCredentials (c : Credentials DB) : bool := match c with NoCredentials => false | _ => true end.
Definition hasAuthorizer (options : CreateServicesOptions) : bool := match so_authorizer options with Some _ => true | None => false end.

(** [authorizer || credentials ? gateway : undefined] *)
Definition authorityOf (options : CreateServicesOptions) (gateway : ServiceGateway DB) : option (ServiceGateway DB) :=
  if hasAuthorizer options || hasCredentials (so_credentials options) then Some gateway else None.

Fixpoint registerExtensions (l : list ServicesExtension) (registrations : Registrations) : Registrations * list RegisteredServicesExtension :=
  match l with
  | [] => (registrations, [])
  | x :: rest =>
      let (registrations', r) := registerServicesExtension x registrations in
      let (registrations'', rs) := registerExtensions rest registrations' in (registrations'', r :: rs)
  end.

(** The host's channels come beside the inbox. *)
Definition channelsOf (options : CreateServicesOptions) : option (list (string * Channel DB)) :=
  match so_channels options with [] => None | l => Some (("in-app", inAppChannel) :: l) end.

Definition createServices (registrations : Registrations) (options : CreateServicesOptions) : outcome (Registrations * AppPortServices) :=
  extensions ← defineServicesExtensions (pl_stringOf pl) (pl_fractionsFinite pl) (so_extensions options);
  let manifest := extensionManifest extensions in
  gateway ← newGateway (applicationOf options) (so_authorizer options) (so_credentials options) (so_authorizationTimeoutMs options)
              manifest (credentialCheck (applicationOf options));
  let authority := authorityOf options gateway in
  keys ← newApiKeyService [] (ifPresent (so_apiKeyVerifierKey options)) (Some (g_application gateway)) authority (so_local options);
  hooks ← newWebhookService authority false None [] None true true;
  let jobs := newJobService authority None None [] in
  notices ← newNotificationService (Some gateway) (channelsOf options) None None (Some jobs) None None None;
  connected ← connectJobs notices jobs;
  let (registrations', registered) := registerExtensions extensions registrations in
  Ok (registrations', mkAppPortServices gateway authority keys hooks connected notices (so_declarations options) registered
        (SERVICE_CAPABILITY_MANIFEST (pl_localeLe pl) ++ manifest)%list (negb (so_hostDb options)) (hasAuthorizer options)
        (hasCredentials (so_credentials options))).

(** [services.discovery] *)
Definition servicesDiscovery : list RuntimeCapabilityDescriptor :=
  describeCapabilities (fun id => match id with IdSecrets | IdRuntimeEvents => Some false | _ => Some true end).

(** ** Their operations, as they are called with plain objects *)

(** An operation whose result is shown. *)
Definition shown {A} (out : A -> jsval) (m : M DB A) : M DB jsval := a ← m; mret (out a).

Definition orNull {A} (out : A -> jsval) (o : option A) : jsval := match o with Some a => out a | None => JNull end.
Definition listOf {A} (out : A -> jsval) (l : list A) : jsval := JArr (map out l).
Definition nothing (x : unit) : jsval := JUndef.

(** A verified principal, which carries no scopes. *)
Definition byPrincipal (p : VerifiedPrincipal) : NotificationCaller :=
  mkNotificationCaller (CVerified p) (Some (mkLegacy (Some (vp_principalId p)) (Some (vp_tenantId p)) None)).

Definition keyOperations (service : ApiKeyService DB) : @ApiKeyOperations DB := mkApiKeyOperations
  (fun t i => shown (orNull (out_key sh)) (ApiKeys.getApiKey t i))
  (fun t o => shown (listOf (out_key sh)) (ApiKeys.listApiKeys (pl_localeLe pl) service t (option_map (in_listKeys sh) o)))
  (fun i p => shown (out_createdKey sh) (ApiKeys.createApiKey (pl_scrypt pl) (pl_hmac pl) (pl_localeLe pl) (pl_stringOf pl) (pl_otherDate pl)
     service (in_createKey sh i) (CVerified p)))
  (fun i p => shown (orNull (out_key sh)) (ApiKeys.updateApiKey (pl_localeLe pl) (pl_stringOf pl) (pl_otherDate pl)
     service (in_updateKey sh i) (CVerified p)))
  (fun i p => shown (orNull (out_rotatedKey sh)) (ApiKeys.rotateApiKey (pl_scrypt pl) (pl_hmac pl) service (in_rotateKey sh i) (CVerified p)))
  (fun i p => shown (listOf JStr) (ApiKeys.revokeAllApiKeys (pl_localeLe pl) service (stringField i "tenantId") (getField i "createdBy")
     (getField i "revokedBy") (getField i "principal") (CVerified p)))
  (fun i p => shown (orNull (out_key sh)) (ApiKeys.revokeApiKey service (stringField i "tenantId") (orElse (stringField i "id") "")
     (getField i "revokedBy") (CVerified p)))
  (fun i p => shown (listOf (out_keyEvent sh)) (ApiKeys.listApiKeyAuditEvents (pl_localeLe pl) service (stringField i "tenantId")
     (getField i "credentialId") (getField i "limit") (getField i "after") (CVerified p))).

Definition webhookOperations (service : WebhookService DB) : @WebhookOperations DB := mkWebhookOperations
  (fun t i => shown (orNull (out_endpoint sh)) (Webhooks.getWebhookEndpoint t i))
  (fun t => shown (listOf (out_endpoint sh)) (Webhooks.listWebhookEndpoints t))
  (fun i p => shown (orNull (out_delivery sh)) (Webhooks.readWebhookDelivery service (stringField i "tenantId") (getField i "id") (CVerified p)))
  (fun i p => shown (listOf (out_delivery sh)) (Webhooks.readWebhookDeliveries service (in_deliveryQuery sh i) (CVerified p)))
  (fun i p => shown (out_endpoint sh) (Webhooks.createWebhookEndpoint (pl_hooks pl) service (in_createEndpoint sh i) (CVerified p)))
  (fun i p => shown (orNull (out_endpoint sh)) (Webhooks.disableWebhookEndpoint service (in_disableEndpoint sh i) (CVerified p)))
  (fun i p => shown (listOf (out_delivery sh)) (Webhooks.emitWebhookEvent service (in_emit sh i) (CVerified p)))
  (fun t i p => shown (orNull (out_delivery sh)) (Webhooks.replayWebhookDelivery service t i (CVerified p)))
  (fun i p => shown (out_integration sh) (Webhooks.registerIntegration service (in_integration sh i) (CVerified p))).

Definition jobOperations (service : JobService DB) : @JobOperations DB := mkJobOperations
  (fun t i => shown (orNull (out_job sh)) (Jobs.getJob t i))
  (fun t => shown (listOf (out_job sh)) (Jobs.listJobs t))
  (fun i p => shown (out_job sh) (Jobs.enqueue service (in_createJob sh i) (CVerified p)))
  (fun t i p => shown (orNull (out_job sh)) (Jobs.retry service t i (CVerified p))).

Definition scheduleOperations (authority : option (ServiceGateway DB)) (jobs : JobService DB) : @ScheduleOperations DB := mkScheduleOperations
  (fun t i p => shown (orNull (out_schedule sh)) (sc_get authority t i (CVerified p)))
  (fun t p createdBy => shown (listOf (out_schedule sh)) (sc_list authority t (CVerified p) createdBy))
  (fun i p => shown (out_schedule sh) (sc_create jobs (in_createSchedule sh i) (CVerified p)))
  (fun t i p => shown (orNull (out_schedule sh)) (sc_disable jobs t i (CVerified p))).

(** [{ items, nextCursor? }] *)
Definition noticePage (page : list Notification * option string) : jsval :=
  JObj ([("items", listOf (out_notification sh) (fst page))]
        ++ match snd page with Some c => [("nextCursor", JStr c)] | None => [] end)%list.

Definition notificationOperations (service : NotificationService DB) : @NotificationOperations DB := mkNotificationOperations
  (fun t i p => shown (out_notification sh) (getNotification service t i (byPrincipal p)))
  (fun t o p => shown noticePage (listNotifications (pl_notices pl) service t (in_listNotices sh o) (byPrincipal p)))
  (fun i p => shown (fun r => out_notification sh (nr_notification r)) (notify (pl_notices pl) service i (byPrincipal p)))
  (fun t i p => shown (out_notification sh) (dismiss service t i (byPrincipal p)))
  (fun t i p => shown (out_notification sh) (markRead service t i (byPrincipal p)))
  (fun t i p => shown nothing (deleteNotification service t i (byPrincipal p))).

Definition fileOperations (authority : option (ServiceGateway DB)) : FileOperations DB := mkFileOperations
  (fun t i p => shown (out_file sh) (getFile authority t i (CVerified p)))
  (fun t p owner => shown (listOf (out_file sh)) (listFiles authority (pl_localeLe pl) t (CVerified p) (mkFileListOptions owner)))
  (fun i p => shown (out_file sh) (updateFile authority (in_updateFile sh i) (CVerified p)))
  (fun i p => shown (out_file sh) (createFile authority (in_createFile sh i) (CVerified p)))
  (fun t i p => shown nothing (deleteFile authority t i (CVerified p))).

Definition configurationKind (i : Input) : ConfigurationKind := if isStr (getField i "kind") "secret" then SecretKind else VariableKind.

Definition configurationOperations (authority : option (ServiceGateway DB)) (declarations : list ConfigurationDeclaration) : @ConfigurationOperations DB := mkConfigurationOperations
  (fun i p => shown (out_configuration sh) (listConfiguration authority declarations (in_scope sh i) (CVerified p)))
  (fun i p => shown (out_variable sh) (Configuration.updateVariable authority (in_variable sh i) (CVerified p)))
  (fun i p => shown (out_variable sh) (Configuration.createVariable authority (in_variable sh i) (CVerified p)))
  (fun i p => shown nothing (Configuration.deleteConfiguration authority (in_scope sh i) (orElse (stringField i "name") "") (configurationKind i) (CVerified p)))
  (fun i p => shown (out_secret sh) (Configuration.createSecret authority (in_credential sh i) (CVerified p)))
  (fun i p => shown (out_secret sh) (Configuration.rotateSecret authority (in_credential sh i) (CVerified p)))
  (fun i p => shown (out_stored sh) (storeCredential authority true (pl_stackOf pl) (Some (in_store sh i)) (CVerified p)))
  (fun i p => shown (listOf (out_status sh)) (credentialStatusOf authority (Some (in_status sh i)) (CVerified p))).

Definition intelligenceOperations (authority : option (ServiceGateway DB)) : @IntelligenceOperations DB := mkIntelligenceOperations
  (fun i p => shown (listOf (out_provider sh)) (Intelligence.catalog authority (in_scope sh i) (CVerified p)))
  (fun i p => shown (out_intelligence sh) (getIntelligence authority (pl_jsonParse pl) (in_scope sh i) (CVerified p)))
  (fun i p => shown (out_intelligence sh) (setIntelligence authority (pl_parseEndpoint pl) (pl_jsonParse pl) (pl_stringOf pl)
     (in_selection sh i) (CVerified p)))
  (fun i p => shown (out_intelligence sh) (Intelligence.setCredential authority (pl_jsonParse pl) (in_intelligenceCredential sh i) (CVerified p)))
  (fun i p => shown (out_intelligence sh) (Intelligence.removeCredential authority (pl_jsonParse pl) (in_scope sh i) (CVerified p)))
  (fun i p => shown (orNull (out_runtime sh)) (Intelligence.resolveRuntime authority (pl_jsonParse pl) (in_scope sh i) (CVerified p))).

(** *** Of these services *)

Variable s : AppPortServices.

(** [invokable] *)
Definition invokable : InvokableServices DB :=
  mkInvokable (as_gateway s) (Some (keyOperations (as_apiKeys s))) (Some (webhookOperations (as_webhooks s)))
    (Some (jobOperations (as_jobs s))) (Some (scheduleOperations (as_authority s) (as_jobs s)))
    (Some (notificationOperations (as_notifications s))) (Some (fileOperations (as_authority s)))
    (Some (configurationOperations (as_authority s) (as_declarations s))) (Some (intelligenceOperations (as_authority s))).

(** [services.invoke], [services.identify], [services.authorize],
    [services.transaction], [services.health]. *)
Definition servicesInvoke (capability : string) (input : jsval) (caller : Caller) : M DB jsval :=
  invokeService invokable capability input caller.

Definition servicesIdentify (claims : option PrincipalClaims) : outcome (option VerifiedPrincipal) := identify (as_gateway s) claims.

Definition servicesAuthorize (capability : string) (caller : Caller) (type : string) (tenantId id : option string)
  (attributes : option (gmap string string)) : M DB ServiceExecutionContext :=
  authorizeEffect (as_gateway s) capability caller type tenantId id attributes.

Definition servicesTransaction {T} (callback : Callback DB T) : M DB T :=
  runTransaction (Some (as_gateway s)) (Some Webhooks.listWebhookEndpoints) callback.

(** [isSecretCustody(credentials) ? { custody } : {}] *)
Definition custodyOf (c : Credentials DB) : option (SecretReference -> SecretAccessContext -> M DB (option RawCustodyStatus)) :=
  match c with Custody _ status _ => Some status | _ => None end.

Definition healthSources : HealthSources DB :=
  mkSources (g_application (as_gateway s)) (pl_version pl) (as_authorizer s) (as_credentials s) (custodyOf (g_credentials (as_gateway s)))
    (as_declarations s) None.

Definition servicesHealth (options : ServiceHealthOptions) : M DB AppPortServicesHealth :=
  collectHealth (pl_jsonParse pl) healthSources options.

(** ** As the management router is given them *)

Definition managedNotifications (service : NotificationService DB) : @ManagedNotifications DB :=
  let operations := notificationOperations service in
  mkManagedNotifications
    (fun i p => r ← notify (pl_notices pl) service i (byPrincipal p);
       mret (nr_created r, out_notification sh (nr_notification r), listOf (out_noticeDelivery sh) (nr_deliveries r)))
    (notificationGet operations) (notificationList operations)
    (fun t i p => shown (listOf (out_noticeDelivery sh)) (deliveries (pl_notices pl) service t i (byPrincipal p)))
    (notificationMarkRead operations)
    (fun t i p => shown (out_notification sh) (acknowledge service t i (byPrincipal p)))
    (notificationDismiss operations) (notificationDelete operations)
    (fun t i channel p => shown (orNull (out_noticeDelivery sh)) (retryDelivery (pl_notices pl) service t i channel (byPrincipal p))).

Definition managed : Management.ManagementServices DB :=
  let keys := keyOperations (as_apiKeys s) in
  let hooks := webhookOperations (as_webhooks s) in
  let jobs := jobOperations (as_jobs s) in
  let schedules := scheduleOperations (as_authority s) (as_jobs s) in
  let stored := fileOperations (as_authority s) in
  mkManagementServices
    (Some (mkManagedKeys (fun t => listApiKeys keys t None) (createApiKey keys) (revokeApiKey keys)
       (Some (updateApiKey keys)) (Some (rotateApiKey keys)) (Some (revokeAllApiKeys keys)) (Some (listApiKeyAuditEvents keys))))
    (Some (mkManagedWebhooks (listWebhookEndpoints hooks) (createWebhookEndpoint hooks) (disableWebhookEndpoint hooks)
       (Some (readWebhookDeliveries hooks)) (Some (readWebhookDelivery hooks))))
    (Some (mkManagedJobs (listJobs jobs) (enqueue jobs) (retry jobs)))
    (Some (mkManagedSchedules (fun t p => scheduleList schedules t p None) (scheduleCreate schedules) (scheduleDisable schedules)))
    (Some (mkManagedFiles (fun t p i => fileList stored t p (stringField i "owner")) (fileCreate stored) (fileUpdate stored) (fileDelete stored)))
    (Some (managedNotifications (as_notifications s))) (Some (configurationOperations (as_authority s) (as_declarations s)))
    (Some (intelligenceOperations (as_authority s))).
End wiring.
Arguments CreateServicesOptions : clear implicits.
Arguments AppPortServices : clear implicits.
