(* ===== verification/WiringProps.v ===== *)
(** * WiringProps: what the services of one host guarantee together

    The real operations keep the interface the dispatcher and the management
    router were proved against, so a host that has an authority fails closed as
    a whole. *)

From S2P Require Import Prelude JsString JsTime Errors Models Store Calm MemStore Principal Manifest Evidence Gateway GatewayFacts Jobs Schedules ApiKeys KeyAuth Webhooks WebhookFacts Files Configuration Notifications Intelligence Extensions Invoke InvokeProps Ui Management ManagementProps Wiring Demo.
From Stdlib Require Import ZArith Lia Ascii.
Local Open Scope string_scope.
Local Open Scope Z_scope.

(** ** Steps before an effect *)

Section steps.
Context {DB : Type} `{FeltDBLaws DB}.
Variable g : ServiceGateway DB.

(** A step that reads, or draws the time: it keeps the store. *)
Definition keeps {A} (m : M DB A) : Prop := forall w, calm w -> kept w (m w).1.

Lemma keeps_get {V} (c : coll V) k : keeps (get c k).
Proof. intros w Hc. apply (wpc_get c k (fun _ w' => kept w w')); [exact Hc | now apply kept_refl]. Qed.

Lemma keeps_nowMs : keeps nowMs.
Proof. intros w Hc. apply (wpc_nowMs (fun _ w' => kept w w')); [exact Hc|]. intros t w' _ _ Hc' Hl Hd. split; [exact Hc'|]. split; assumption. Qed.

Lemma keeps_nowIso : keeps nowIso.
Proof. intros w Hc. apply (wpc_nowIso (fun _ w' => kept w w')); [exact Hc|]. intros t x w' _ _ Hc' Hl Hd. split; [exact Hc'|]. split; assumption. Qed.

Lemma keeps_systemIso : keeps systemIso.
Proof. intros w Hc. apply (wpc_systemIso (fun _ w' => kept w w')); [exact Hc|]. intros t x w' _ _ Hc' Hl Hd. split; [exact Hc'|]. split; assumption. Qed.

Lemma keeps_find {V} (c : coll V) q : keeps (find c q).
Proof. intros w Hc. apply (wpc_find c q (fun _ w' => kept w w')); [exact Hc | intros l _; now apply kept_refl]. Qed.

Lemma keeps_ret {A} (a : A) : keeps (mret a).
Proof. intros w Hc. now apply kept_refl. Qed.

Lemma keeps_throw {A} e : keeps (throw e : M DB A).
Proof. intros w Hc. now apply kept_refl. Qed.

Lemma keeps_outcome {A} (o : outcome A) : keeps (ofOutcome o).
Proof. intros w Hc. destruct o; now apply kept_refl. Qed.

Lemma keeps_bind {A B} (m : M DB A) (k : A -> M DB B) : keeps m -> (forall a, keeps (k a)) -> keeps (m ≫= k).
Proof.
  intros Hm Hk w Hc. unfold mbind, M_bind. pose proof (Hm w Hc) as Hw. destruct (m w) as [w1 [a|e]]; cbn [fst] in Hw; [|exact Hw].
  eapply kept_trans; [exact Hw | apply Hk, Hw].
Qed.

Lemma untouched_keeps {A B} (m : M DB A) (k : A -> M DB B) : keeps m -> (forall a, untouched (k a)) -> untouched (a ← m; k a).
Proof.
  intros Hm Hk w Hc. apply wp_bind. pose proof (Hm w Hc) as (Hc' & _ & Hd). unfold wp.
  destruct (m w) as [w1 [a|e]]; cbn [fst snd] in *; rewrite <- Hd; [exact (Hk a w1 Hc') | split; [exact Hc' | now left]].
Qed.

Lemma untouched_pure {A B} (a : A) (k : A -> M DB B) : untouched (k a) -> untouched (x ← mret a; k x).
Proof. intros Hk w Hc. exact (Hk w Hc). Qed.

Lemma untouched_thrown {A B} e (k : A -> M DB B) : untouched (x ← throw e; k x).
Proof. intros w Hc. split; [exact Hc | now left]. Qed.

Lemma untouched_assoc {A B C} (m : M DB A) (f : A -> M DB B) (k : B -> M DB C) :
  untouched (a ← m; b ← f a; k b) -> untouched (b ← (a ← m; f a); k b).
Proof.
  intros Hm w Hc. pose proof (Hm w Hc) as Hw. unfold wp, mbind, M_bind in *. destruct (m w) as [w1 [a|e]]; exact Hw.
Qed.

(** An operation of the gateway is refused: what comes after it is not reached. *)
Lemma untouched_refused {T B} name p r options (f : ServiceExecutionContext -> EffectTools -> M DB T) (k : T -> M DB B) :
  hostQuiet g -> unadmitted g name (CVerified p) -> untouched (x ← execute g name (CVerified p) r options f; k x).
Proof.
  intros Hhost Hno w Hc. apply wp_bind. eapply wp_mono.
  { apply (execute_spec g name (CVerified p) r options f (fun _ _ _ _ _ => False)); [exact Hc | exact Hhost|].
    intros rid c q x id st w1 Hi _ _ _ _ _. exfalso. exact (Hno r rid c q (is_admitted _ _ _ _ _ _ _ _ Hi)). }
  cbn beta. intros o w' (Hc' & _ & [(e & -> & Href)|(rid & c & q & x & id & st & w2 & row & Hi & [] & _)]). auto.
Qed.

(** A failure that is told differently. *)
Lemma untouched_rethrow {A} (m : M DB A) (h : exn -> exn) : untouched m -> untouched (tryCatch m (fun e => throw (h e))).
Proof.
  intros Hm w Hc. pose proof (Hm w Hc) as Hw. unfold wp, tryCatch in *. destruct (m w) as [w1 [a|e]]; exact Hw.
Qed.
End steps.

(** Any operation up to the gateway's refusal. *)
Ltac checked :=
  let a := fresh "a" in let E := fresh "E" in intros a E; cbn beta zeta;
  try match type of E with requireVerifiedPrincipal (CVerified _) = Ok _ => injection E as <- end.

Ltac op_step :=
  lazymatch goal with
  | |- untouched (mbind _ (ofOutcome _)) => apply untouched_check; checked
  | |- untouched (mbind _ (mret _)) => apply untouched_pure; cbn beta zeta
  | |- untouched (mbind _ (execute _ _ _ _ _ _)) => apply untouched_refused; assumption
  | |- untouched (mbind _ (throw _)) => apply untouched_thrown
  | |- untouched (mbind _ (mbind _ _)) => apply untouched_assoc
  | |- untouched (mbind _ (match ?x with _ => _ end)) => destruct x eqn:?
  | |- untouched (mbind _ _) => apply untouched_keeps; [solve [eauto with keeps]|]; intros ?; cbn beta zeta
  | |- untouched (execute _ _ _ _ _ _) => apply untouched_execute; assumption
  | |- untouched (mret _) => apply untouched_ret
  | |- untouched (throw _) => apply untouched_throw
  | |- untouched (ofOutcome _) => apply untouched_outcome
  | |- untouched (tryCatch _ _) => apply untouched_rethrow
  | |- untouched (if ?b then _ else _) => destruct b
  | |- untouched (match ?x with _ => _ end) => destruct x eqn:?
  end.

Create HintDb keeps discriminated.
#[export] Hint Resolve keeps_get keeps_nowMs keeps_nowIso keeps_ret keeps_throw keeps_outcome : keeps.

(** ** Operations of services that enforce the gateway *)

Section operations.
Context {DB : Type} `{FeltDBLaws DB}.
Variable pl : Platform DB.
Variable g : ServiceGateway DB.
Hypothesis Hhost : hostQuiet g.
Variable p : VerifiedPrincipal.

Lemma keeps_read {V A} (c : coll V) k (f : option V -> A) : keeps (x ← get c k; mret (f x)).
Proof. apply keeps_bind; [apply keeps_get | intros a; apply keeps_ret]. Qed.

(** Reads that belong to no effect. *)
Lemma keeps_getWebhookEndpoint t i : keeps (Webhooks.getWebhookEndpoint t i).
Proof. apply keeps_read. Qed.

Lemma keeps_getWebhookDelivery t i : keeps (Webhooks.getWebhookDelivery t i).
Proof. apply keeps_read. Qed.

Lemma keeps_ss_get t i : keeps (Jobs.ss_get t i).
Proof. apply keeps_read. Qed.

Lemma keeps_js_get t i : keeps (js_get t i).
Proof. apply keeps_read. Qed.

Lemma keeps_we_get i : keeps (we_get i).
Proof. apply keeps_get. Qed.

Lemma keeps_destination url : platformQuiet (pl_hooks pl) -> keeps (destinationFor (pl_hooks pl) url).
Proof. intros Hq w Hc. now apply validateDestination_kept. Qed.
#[local] Hint Resolve keeps_getWebhookEndpoint keeps_getWebhookDelivery keeps_ss_get keeps_js_get keeps_we_get keeps_destination : keeps.

Section keys.
Variable s : ApiKeyService DB.
Hypothesis Hs : av_authority s = Some g.

Lemma createApiKey_untouched scrypt hmac le str date input : unadmitted g "apikeys.create" (CVerified p) ->
  untouched (ApiKeys.createApiKey scrypt hmac le str date s input (CVerified p)).
Proof. intros Hno. unfold ApiKeys.createApiKey, keyGateway. rewrite Hs. repeat op_step. Qed.

Lemma revokeApiKey_untouched t i by_ : unadmitted g "apikeys.revoke" (CVerified p) -> untouched (ApiKeys.revokeApiKey s t i by_ (CVerified p)).
Proof. intros Hno. unfold ApiKeys.revokeApiKey, keyGateway. rewrite Hs. repeat op_step. Qed.
End keys.

Section hooks.
Variable s : WebhookService DB.
Hypothesis Hs : hs_authority s = Some g.
Hypothesis Hq : platformQuiet (pl_hooks pl).

Lemma createWebhookEndpoint_untouched input : unadmitted g "webhooks.register" (CVerified p) ->
  untouched (Webhooks.createWebhookEndpoint (pl_hooks pl) s input (CVerified p)).
Proof. intros Hno. unfold Webhooks.createWebhookEndpoint, hookGateway. rewrite Hs. repeat op_step. Qed.

Lemma disableWebhookEndpoint_untouched input : unadmitted g "webhooks.remove" (CVerified p) ->
  untouched (Webhooks.disableWebhookEndpoint s input (CVerified p)).
Proof. intros Hno. unfold Webhooks.disableWebhookEndpoint, hookGateway. rewrite Hs. repeat op_step. Qed.

Lemma replayWebhookDelivery_untouched t i : unadmitted g "webhooks.replay" (CVerified p) ->
  untouched (Webhooks.replayWebhookDelivery s t i (CVerified p)).
Proof. intros Hno. unfold Webhooks.replayWebhookDelivery, hookGateway. rewrite Hs. repeat op_step. Qed.
End hooks.

Section jobs.
Variable s : JobService DB.
Hypothesis Hs : jv_authority s = Some g.

Lemma enqueue_untouched input : unadmitted g "jobs.create" (CVerified p) -> untouched (Jobs.enqueue s input (CVerified p)).
Proof. intros Hno. unfold Jobs.enqueue. rewrite Hs. repeat op_step. Qed.

Lemma retry_untouched t i : unadmitted g "jobs.retry" (CVerified p) -> untouched (Jobs.retry s t i (CVerified p)).
Proof. intros Hno. unfold Jobs.retry. rewrite Hs. repeat op_step. Qed.

Lemma scheduleRecurring_untouched input : unadmitted g "schedules.create" (CVerified p) -> untouched (scheduleRecurring s input (CVerified p)).
Proof. intros Hno. unfold scheduleRecurring. rewrite Hs. repeat op_step. Qed.

Lemma disableSchedule_untouched t i : unadmitted g "schedules.cancel" (CVerified p) -> untouched (disableSchedule s t i (CVerified p)).
Proof. intros Hno. unfold disableSchedule. rewrite Hs. repeat op_step. Qed.
End jobs.
End operations.

(** ** The operations of the services *)

Section guarded.
Context {DB : Type} `{FeltDBLaws DB}.
Variable pl : Platform DB.
Variable sh : Shapes.
Variable g : ServiceGateway DB.
Hypothesis Hhost : hostQuiet g.

#[export] Instance keys_guarded service : av_authority service = Some g -> GuardedApiKeys g (keyOperations pl sh service).
Proof.
  intros Hs. split; intros; intros p Hno; cbn [keyOperations createApiKey updateApiKey rotateApiKey revokeAllApiKeys revokeApiKey listApiKeyAuditEvents];
    apply untouched_map.
  - apply (createApiKey_untouched g Hhost p _ Hs), Hno.
  - unfold ApiKeys.updateApiKey. unfold keyGateway. rewrite Hs. repeat op_step.
  - unfold ApiKeys.rotateApiKey. unfold keyGateway. rewrite Hs. repeat op_step.
  - unfold ApiKeys.revokeAllApiKeys. unfold keyGateway. rewrite Hs. repeat op_step.
  - apply (revokeApiKey_untouched g Hhost p _ Hs), Hno.
  - unfold ApiKeys.listApiKeyAuditEvents. unfold keyGateway. rewrite Hs. repeat op_step.
Qed.

Lemma keeps_ns_get t i : keeps (ns_get t i).
Proof. apply keeps_read. Qed.

Lemma keeps_loadOwned service t i : keeps (loadOwned (DB := DB) service t i).
Proof. apply keeps_bind; [apply keeps_ns_get | intros a; apply keeps_ret]. Qed.

Lemma keeps_getSchedule t i : keeps (getSchedule t i).
Proof. apply keeps_read. Qed.

#[local] Hint Resolve keeps_getWebhookEndpoint keeps_getWebhookDelivery keeps_ss_get keeps_js_get keeps_ns_get keeps_loadOwned
  keeps_getSchedule keeps_we_get keeps_destination : keeps.

Instance webhooks_guarded service : hs_authority service = Some g -> platformQuiet (pl_hooks pl) -> GuardedWebhooks g (webhookOperations pl sh service).
Proof.
  intros Hs Hq. split; intros; intros p Hno; cbn [webhookOperations readWebhookDelivery readWebhookDeliveries createWebhookEndpoint
    disableWebhookEndpoint emitWebhookEvent replayWebhookDelivery registerIntegration]; apply untouched_map.
  - unfold Webhooks.readWebhookDelivery. unfold hookGateway. rewrite Hs. repeat op_step.
  - unfold Webhooks.readWebhookDeliveries. unfold hookGateway. rewrite Hs. repeat op_step.
  - apply (createWebhookEndpoint_untouched pl g Hhost p _ Hs Hq), Hno.
  - apply (disableWebhookEndpoint_untouched g Hhost p _ Hs), Hno.
  - unfold Webhooks.emitWebhookEvent. unfold hookGateway. rewrite Hs. repeat op_step.
  - apply (replayWebhookDelivery_untouched g Hhost p _ Hs), Hno.
  - unfold Webhooks.registerIntegration. unfold hookGateway. rewrite Hs. repeat op_step.
Qed.

Instance jobs_guarded service : jv_authority service = Some g -> GuardedJobs g (jobOperations sh service).
Proof.
  intros Hs. split; intros; intros p Hno; cbn [jobOperations enqueue retry]; apply untouched_map.
  - apply (enqueue_untouched g Hhost p _ Hs), Hno.
  - apply (retry_untouched g Hhost p _ Hs), Hno.
Qed.

Instance schedules_guarded jobs : jv_authority jobs = Some g -> GuardedSchedules g (scheduleOperations sh (Some g) jobs).
Proof.
  intros Hs. split; intros; intros p Hno; cbn [scheduleOperations scheduleGet scheduleList scheduleCreate scheduleDisable]; apply untouched_map.
  - unfold Schedules.sc_get, schedulesGateway. repeat op_step.
  - unfold Schedules.sc_list, schedulesGateway. repeat op_step.
  - unfold Schedules.sc_create, scheduleRecurring. rewrite Hs. repeat op_step.
  - unfold Schedules.sc_disable, disableSchedule. rewrite Hs. repeat op_step.
Qed.

Instance notices_guarded service : ns_authority service = Some g -> GuardedNotifications g (notificationOperations pl sh service).
Proof.
  intros Hs. split; intros; intros p Hno; cbn [notificationOperations notificationGet notificationList notificationCreate notificationDismiss
    notificationMarkRead notificationDelete]; apply untouched_map.
  - unfold getNotification, loadReadable. rewrite Hs. cbn [byPrincipal nc_caller]. repeat op_step.
  - unfold listNotifications, authorizedList. rewrite Hs. cbn [byPrincipal nc_caller]. repeat op_step.
  - unfold notify. rewrite Hs. cbn [byPrincipal nc_caller]. repeat op_step.
  - unfold dismiss, mutate. rewrite Hs. cbn [byPrincipal nc_caller]. repeat op_step.
  - unfold markRead, mutate. rewrite Hs. cbn [byPrincipal nc_caller]. repeat op_step.
  - unfold deleteNotification. rewrite Hs. cbn [byPrincipal nc_caller]. repeat op_step.
Qed.

Instance managedNotices_guarded service : ns_authority service = Some g -> GuardedNotices g (managedNotifications pl sh service).
Proof.
  intros Hs. destruct (notices_guarded service Hs) as [get_ list_ _ dismiss_ mark_ delete_].
  split; intros; [| exact (get_ t i) | exact (list_ t input) | | exact (mark_ t i) | | exact (dismiss_ t i) | exact (delete_ t i) |];
    intros p Hno; cbn [managedNotifications mn_notify mn_deliveries mn_acknowledge mn_retryDelivery].
  - unfold notify. rewrite Hs. cbn [byPrincipal nc_caller]. repeat op_step.
  - apply untouched_map. unfold deliveries, loadReadable. rewrite Hs. cbn [byPrincipal nc_caller]. repeat op_step.
  - apply untouched_map. unfold acknowledge, mutate. rewrite Hs. cbn [byPrincipal nc_caller]. repeat op_step.
  - apply untouched_map. unfold retryDelivery. rewrite Hs. cbn [byPrincipal nc_caller]. repeat op_step.
Qed.

Instance files_guarded : GuardedFiles g (fileOperations pl sh (Some g)).
Proof. exact (fileService_guarded g (pl_localeLe pl) (in_createFile sh) (in_updateFile sh) (out_file sh) Hhost). Qed.

(** The scope a configuration operation resolves is the caller's. *)
Lemma ownership_caller application scope p q owned : resolveConfigurationOwnership application scope (CVerified p) = Ok (q, owned) -> q = p.
Proof. unfold resolveConfigurationOwnership. cbn [requireVerifiedPrincipal]. intros E. repeat case_match; simplify_eq; auto. Qed.

Lemma own_caller scope p g' q owned : own (Some g) scope (CVerified p) = Ok (g', q, owned) -> g' = g /\ q = p.
Proof.
  unfold own, configGateway. destruct (resolveConfigurationOwnership _ _ _) as [[q' o]|e] eqn:E; [|discriminate].
  intros [= <- <- <-]. split; [reflexivity | exact (ownership_caller _ _ _ _ _ E)].
Qed.

Lemma ownIntelligence_caller scope p g' q owned : ownIntelligence (Some g) scope (CVerified p) = Ok (g', q, owned) -> g' = g /\ q = p.
Proof.
  unfold ownIntelligence. destruct (resolveConfigurationOwnership _ _ _) as [[q' o]|e] eqn:E; [|discriminate].
  intros [= <- <- <-]. split; [reflexivity | exact (ownership_caller _ _ _ _ _ E)].
Qed.

Ltac scoped_step :=
  first [ op_step
        | match goal with
          | E : own (Some _) _ (CVerified _) = Ok (_, _, _) |- _ => apply own_caller in E as [-> ->]
          | E : ownIntelligence (Some _) _ (CVerified _) = Ok (_, _, _) |- _ => apply ownIntelligence_caller in E as [-> ->]
          end ].

Lemma statusEach_untouched p owned provider refs : unadmitted g "credential.status" (CVerified p) ->
  untouched (statusEach g p owned provider refs).
Proof. intros Hno. destruct refs as [|ref refs]; cbn [statusEach]; repeat op_step. Qed.

Instance configuration_guarded declarations : GuardedConfiguration g (configurationOperations pl sh (Some g) declarations).
Proof.
  split; intros; intros p Hno; cbn [configurationOperations configurationList updateVariable createVariable configurationDelete createSecret
    rotateSecret storeSecret secretStatus]; apply untouched_map.
  - unfold listConfiguration. repeat scoped_step.
  - unfold Configuration.updateVariable. repeat scoped_step.
  - unfold Configuration.createVariable. repeat scoped_step.
  - unfold Configuration.deleteConfiguration, configurationKind. rewrite getField_spread.
    change (isStr (JStr "variable") "secret") with false. cbn match. repeat scoped_step.
  - unfold Configuration.createSecret. repeat scoped_step.
  - unfold Configuration.rotateSecret. repeat scoped_step.
  - unfold Configuration.deleteConfiguration, configurationKind. rewrite getField_spread.
    change (isStr (JStr "secret") "secret") with true. cbn match. repeat scoped_step.
  - unfold storeCredential, storeCredentialUnredacted. repeat scoped_step.
  - unfold credentialStatusOf. repeat scoped_step. now apply statusEach_untouched.
Qed.

Instance intelligence_guarded : GuardedIntelligence g (intelligenceOperations pl sh (Some g)).
Proof.
  split; intros; intros p Hno; cbn [intelligenceOperations catalog intelligenceGet intelligenceSet setCredential removeCredential resolveRuntime];
    apply untouched_map.
  - unfold Intelligence.catalog. repeat scoped_step.
  - unfold getIntelligence. repeat scoped_step.
  - unfold setIntelligence. repeat scoped_step.
  - unfold Intelligence.setCredential. repeat scoped_step.
  - unfold Intelligence.removeCredential. repeat scoped_step.
  - unfold Intelligence.resolveRuntime. repeat scoped_step.
Qed.
End guarded.

(** The services enforce the gateway. *)
Record enforces {DB} (g : ServiceGateway DB) (s : AppPortServices DB) : Prop := mkEnforces {
  en_authority : as_authority s = Some g;
  en_keys : av_authority (as_apiKeys s) = Some g;
  en_hooks : hs_authority (as_webhooks s) = Some g;
  en_jobs : jv_authority (as_jobs s) = Some g;
  en_notices : ns_authority (as_notifications s) = Some g }.


(** ** Assembled *)

Section assembled.
Context {DB : Type} `{FeltDBLaws DB}.
Variable pl : Platform DB.
Variable sh : Shapes.

(** The host's own functions do not write this store. *)
Definition authorizerQuiet (options : CreateServicesOptions DB) : Prop :=
  forall ask req w, so_authorizer options = Some ask -> calm w -> kept w (ask req w).1.

Lemma newApiKeyService_authority scopes key application authority local k :
  newApiKeyService (DB := DB) scopes key application authority local = Ok k -> av_authority k = authority.
Proof.
  unfold newApiKeyService. destruct scopes; [|discriminate]. cbn zeta. destruct key as [key|]; [|now intros [= <-]].
  destruct (Nat.ltb _ _); [discriminate | now intros [= <-]].
Qed.

Lemma newWebhookService_authority authority a b c d e f h :
  newWebhookService (DB := DB) authority a b c d e f = Ok h -> hs_authority h = authority.
Proof. unfold newWebhookService. repeat match goal with |- (if ?b then _ else _) = _ -> _ => destruct b end; first [discriminate | now intros [= <-]]. Qed.

Lemma registerSystem_authority (jobs : JobService DB) type handler jobs' :
  registerSystem jobs type handler = Ok jobs' -> jv_authority jobs' = jv_authority jobs.
Proof. unfold registerSystem. destruct (startsWith _ _); [intros [= <-]; reflexivity | discriminate]. Qed.

Lemma connectJobs_authority notices jobs connected :
  connectJobs (DB := DB) notices jobs = Ok connected -> jv_authority connected = jv_authority jobs.
Proof. apply registerSystem_authority. Qed.

Lemma newNotificationService_authority g channels dc dp jobs ma rd inline n :
  newNotificationService (DB := DB) g channels dc dp jobs ma rd inline = Ok n -> ns_authority n = g.
Proof. unfold newNotificationService. destruct (newRegistry _ _); [intros [= <-]; reflexivity | discriminate]. Qed.

Lemma ok_pair {A B} (a c : A) (b d : B) : Ok (a, b) = Ok (c, d) -> a = c /\ b = d.
Proof. intros [=]. now split. Qed.

(** Everything [createServices] made, and from what. *)
Lemma createServices_made registrations options registrations' s : createServices pl registrations options = Ok (registrations', s) ->
  exists extensions,
    defineServicesExtensions (pl_stringOf pl) (pl_fractionsFinite pl) (so_extensions options) = Ok extensions /\
    newGateway (applicationOf options) (so_authorizer options) (so_credentials options) (so_authorizationTimeoutMs options)
      (extensionManifest extensions) (credentialCheck (applicationOf options)) = Ok (as_gateway s) /\
    as_authority s = authorityOf options (as_gateway s) /\ av_authority (as_apiKeys s) = as_authority s /\
    hs_authority (as_webhooks s) = as_authority s /\ jv_authority (as_jobs s) = as_authority s /\
    ns_authority (as_notifications s) = Some (as_gateway s).
Proof.
  unfold createServices. intros E. apply obind_ok in E as (extensions & Ex & E). apply obind_ok in E as (gateway & Eg & E).
  cbn zeta in E. apply obind_ok in E as (keys & Ek & E). apply obind_ok in E as (hooks & Eh & E).
  apply obind_ok in E as (notices & En & E). apply obind_ok in E as (connected & Ej & E).
  destruct (registerExtensions extensions registrations) as [r rs]. apply ok_pair in E as [_ <-]. exists extensions.
  cbn [as_gateway as_authority as_apiKeys as_webhooks as_jobs as_notifications].
  split; [exact Ex|]. split; [exact Eg|]. split; [reflexivity|]. split; [exact (newApiKeyService_authority _ _ _ _ _ _ Ek)|].
  split; [exact (newWebhookService_authority _ _ _ _ _ _ _ _ Eh)|]. split; [exact (connectJobs_authority _ _ _ Ej)|].
  exact (newNotificationService_authority _ _ _ _ _ _ _ _ _ En).
Qed.

Lemma newGateway_made application authorizer credentials timeout extensions check g :
  newGateway (DB := DB) application authorizer credentials timeout extensions check = Ok g ->
  g_application g = application /\ g_authorizer g = authorizer /\ g_check g = check.
Proof.
  unfold newGateway. destruct (blank application); [discriminate|]. destruct (checkExtensions _ _); [intros [= <-]; auto | discriminate].
Qed.

(** The gateway's own steps keep the store: AuthBoundry is asked, and an API
    key's principal is looked up again. *)
Lemma createServices_quiet registrations options registrations' s : createServices pl registrations options = Ok (registrations', s) ->
  authorizerQuiet options -> hostQuiet (as_gateway s).
Proof.
  intros E Hq. destruct (createServices_made _ _ _ _ E) as (extensions & _ & Eg & _).
  apply newGateway_made in Eg as (_ & Ea & Ec). split.
  - intros ask req w Hask. rewrite Ea in Hask. now apply Hq.
  - intros p cap r w Hc. rewrite Ec. exact (proj1 (credentialCheck_spec _ p cap r w Hc)).
Qed.

(** With an authorizer or credentials every service enforces the one gateway. *)
Lemma createServices_enforces registrations options registrations' s : createServices pl registrations options = Ok (registrations', s) ->
  hasAuthorizer options || hasCredentials (so_credentials options) = true -> enforces (as_gateway s) s.
Proof.
  intros E Hh. destruct (createServices_made _ _ _ _ E) as (extensions & _ & _ & Ea & Ek & Eh & Ej & En).
  unfold authorityOf in Ea. rewrite Hh in Ea. split; congruence.
Qed.

Lemma invokable_lawful g s : hostQuiet g -> enforces g s -> as_gateway s = g -> platformQuiet (pl_hooks pl) -> lawful g (invokable pl sh s).
Proof.
  intros Hhost [Ha Hk Hh Hj Hn] Hg Hp. unfold invokable. rewrite Ha. split; [exact Hg|..]; intros a [= <-].
  - now apply keys_guarded.
  - now apply webhooks_guarded.
  - now apply jobs_guarded.
  - now apply schedules_guarded.
  - now apply notices_guarded.
  - now apply files_guarded.
  - now apply configuration_guarded.
  - now apply intelligence_guarded.
Qed.

(** The operations the management router is given beside those. *)
Lemma managed_lawful g s : hostQuiet g -> enforces g s -> platformQuiet (pl_hooks pl) -> lawfulHost g (managed pl sh s).
Proof.
  intros Hhost [Ha Hk Hh Hj Hn] Hp. unfold managed. rewrite Ha. split; intros a [= <-].
  - destruct (keys_guarded pl sh g Hhost _ Hk) as [create_ update_ rotate_ all_ one_ audit_].
    split; [exact create_ | exact one_ | intros f input [= <-]..]; [exact (update_ input) | exact (rotate_ input) | exact (all_ input) | exact (audit_ input)].
  - destruct (webhooks_guarded pl sh g Hhost _ Hh Hp) as [one_ list_ register_ remove_ _ _ _].
    split; [exact register_ | exact remove_ | intros f input [= <-]..]; [exact (list_ input) | exact (one_ input)].
  - destruct (jobs_guarded sh g Hhost _ Hj) as [create_ retry_]. split; [exact create_ | exact retry_].
  - destruct (schedules_guarded sh g Hhost _ Hj) as [_ list_ create_ cancel_].
    split; [exact (fun t => list_ t None) | exact create_ | exact cancel_].
  - destruct (files_guarded pl sh g Hhost) as [_ list_ update_ create_ delete_].
    split; [exact (fun t input => list_ t (stringField input "owner")) | exact create_ | exact update_ | exact delete_].
  - now apply managedNotices_guarded.
  - now apply configuration_guarded.
  - now apply intelligence_guarded.
Qed.

(** C23: A host fails closed as a whole.  Services that [createServices] makes
    with an authorizer or with credentials, whatever else is configured,
    leave the store as it was - but for one row that records a denial -
    whatever capability is invoked, with whatever input and by whomever,
    unless AuthBoundry admits a request of that verified caller for exactly
    that capability.  (The authorizer, and the host's lookups and requests,
    do not write this store themselves.) *)
Theorem services_fail_closed registrations options registrations' s cap input caller :
  createServices pl registrations options = Ok (registrations', s) ->
  hasAuthorizer options || hasCredentials (so_credentials options) = true ->
  authorizerQuiet options -> platformQuiet (pl_hooks pl) ->
  unadmitted (as_gateway s) cap caller -> untouched (servicesInvoke pl sh s cap input caller).
Proof.
  intros E Hh Hq Hp Hno. pose proof (createServices_quiet _ _ _ _ E Hq) as Hhost.
  refine (invoke_untouched (as_gateway s) _ cap input caller Hhost (invokable_lawful _ s Hhost _ eq_refl Hp) Hno).
  exact (createServices_enforces _ _ _ _ E Hh).
Qed.

(** The management router over the same services keeps its interface. *)
Lemma services_lawful registrations options registrations' s :
  createServices pl registrations options = Ok (registrations', s) ->
  hasAuthorizer options || hasCredentials (so_credentials options) = true ->
  authorizerQuiet options -> platformQuiet (pl_hooks pl) ->
  hostQuiet (as_gateway s) /\ lawfulHost (as_gateway s) (managed pl sh s).
Proof.
  intros E Hh Hq Hp. pose proof (createServices_quiet _ _ _ _ E Hq) as Hhost. split; [exact Hhost|].
  exact (managed_lawful _ s Hhost (createServices_enforces _ _ _ _ E Hh) Hp).
Qed.

(** With neither, nothing stands before the jobs: an identified caller's job
    is made as [system]'s, and AuthBoundry is not asked. *)
Lemma jobs_without_authority registrations options registrations' s input p :
  createServices pl registrations options = Ok (registrations', s) ->
  hasAuthorizer options = false -> hasCredentials (so_credentials options) = false ->
  assertApplicationJobType (ci_type (in_createJob sh input)) = Ok tt ->
  assertAllowedType (as_jobs s) (ci_type (in_createJob sh input)) false = Ok tt ->
  enqueue (jobOperations sh (as_jobs s)) input p = shown (out_job sh) (createJobRecord (as_jobs s) (in_createJob sh input) "system" None None None).
Proof.
  intros E Ha Hc Ht Hl. destruct (createServices_made _ _ _ _ E) as (extensions & _ & _ & Eauth & _ & _ & Ej & _).
  unfold authorityOf in Eauth. rewrite Ha, Hc in Eauth. cbn [orb] in Eauth. rewrite Eauth in Ej.
  cbn [jobOperations enqueue]. unfold Jobs.enqueue. rewrite Ht, Ej. cbn [is_Some]. 
  rewrite bool_decide_eq_false_2 by (intros [? [=]]). rewrite Hl. reflexivity.
Qed.
End assembled.

(** ** A concrete host *)

(** Plain objects as inputs, property by property; results by their identity. *)
Definition demoScope (i : Input) : Scope := mkScopeInput (getField i "tenantId") (getField i "applicationId") (getField i "environment") i.
Definition demoRecurring (i : Input) : ScheduleRecurringInput :=
  mkRecurring (stringField i "tenantId") (orElse (stringField i "type") "") (getField i "payload") (orElse (stringField i "interval") "") None None [].
Definition demoName (name : string) : jsval := JObj [("id", JStr name)].

Definition demoShapes : Shapes := mkShapes
  (fun i => mkCreateKey (stringField i "tenantId") (getField i "name") [] (getField i "restrictions") None (getField i "createdBy"))
  (fun i => ApiKeys.mkListOptions (getField i "status") (getField i "createdBy") (getField i "limit") (getField i "after"))
  (fun i => mkUpdateKey (stringField i "tenantId") (getField i "id") (getField i "name") (getField i "restrictions") None [])
  (fun i => mkRotateKey (stringField i "tenantId") (getField i "id") (getField i "overlapSeconds") [])
  (fun i => mkCreateEndpoint (stringField i "tenantId") (getField i "url") (getField i "events") (getField i "signingCredentialRef") [])
  (fun i => mkDisableEndpoint (stringField i "tenantId") (orElse (stringField i "id") "") [])
  (fun i => mkEmit (stringField i "tenantId") (orElse (stringField i "type") "") (getField i "payload") [])
  (fun i => mkDeliveryQuery (stringField i "tenantId") (getField i "endpointId") (getField i "status") (getField i "limit"))
  (fun i => mkRegister (stringField i "tenantId") (getField i "provider") (getField i "signingCredentialRef") [])
  (fun i => mkCreateJob (stringField i "tenantId") (orElse (stringField i "type") "") (getField i "payload") (stringField i "runAt") None None [])
  (fun i => mkScheduleInput (getField i "type") (getField i "interval") (demoRecurring i))
  (fun i => Notifications.mkListOptions (stringField i "status") None (stringField i "cursor") (stringField i "recipient") false false None None None None None)
  demoCreate demoUpdate demoScope
  (fun i => mkVariableInput (demoScope i) (getField i "name") None (getField i "value"))
  (fun i => mkCredentialInput (demoScope i) (getField i "name") None (getField i "credentialRef") (getField i "value"))
  (fun i => mkStoreInput (demoScope i) (getField i "ref") (getField i "value") (getField i "provider") (getField i "kind") (getField i "name") None)
  (fun i => mkStatusInput (demoScope i) (getField i "ref") (getField i "refs") (getField i "provider"))
  (fun i => mkIntelligenceWrite (demoScope i) (getField i "provider") (getField i "model") (getField i "endpoint") (getField i "credentialRef"))
  (fun i => mkIntelligenceCredential (demoScope i) (getField i "credentialRef"))
  (fun v => demoName "key") (fun c => demoName "created") (fun r => demoName "rotated") (fun e => demoName "event")
  (fun e => demoName (we_id e)) (fun d => demoName (wd_id d)) (fun r => demoName "integration") (fun j => JObj [("id", JStr (j_id j)); ("type", JStr (j_type j))])
  (fun v => demoName "schedule") (fun n => demoName (n_id n)) (fun d => demoName (nd_id d)) demoFileValue (fun v => demoName "variable")
  (fun v => demoName "secret") (fun l => demoName "configuration") (fun r => demoName "stored") (fun r => demoName "status")
  (fun p => demoName "provider") (fun v => demoName "intelligence") (fun r => demoName "runtime").

Definition demoServices : Platform MemDB := mkHostPlatform
  (fun secret salt n => secret) (fun key text => text) String.leb (fun _ => "") (fun _ => None) true (fun _ => None) (fun _ => None) (fun _ => None)
  "1.0.0" (mkPlatform (fun _ => None) (fun _ => mret []) false (fun key text => text) (fun text => text) (fun _ => "{}") (fun _ => None)
    (fun _ => None) (fun _ _ _ _ => mret (HttpStatus None)))
  (mkNotificationPlatform (fun text => text) (fun _ => Ok 2) Ok (fun _ => None) String.leb (fun _ => None)).

Definition demoOptions (authorizer : option (ServiceAuthorizationRequest -> M MemDB Gateway.Answer)) : CreateServicesOptions MemDB :=
  mkServicesOptions None None false false (Some "app") authorizer NoCredentials None None [] [] [].

Lemma demoOptions_quiet allowed : authorizerQuiet (demoOptions (Some (demoAnswer allowed))).
Proof. intros ask req w [= <-] Hc. now apply kept_refl. Qed.

Lemma demoServices_quiet : platformQuiet (pl_hooks demoServices).
Proof. split; intros; now apply kept_refl. Qed.

(** Nothing is admitted where AuthBoundry denies everything. *)
Lemma denied_unadmitted (g : ServiceGateway MemDB) cap caller : g_authorizer g = Some (demoAnswer false) -> unadmitted g cap caller.
Proof.
  intros Ea r rid c p (_ & _ & _ & _ & _ & _ & _ & d & ask & ts & w1 & w2 & Eask & Ed & _ & Hallow).
  rewrite Ea in Eask. injection Eask as <-. injection Ed as _ <-. discriminate Hallow.
Qed.

#[local] Abbreviation newJob := (JObj [("type", JStr "send.email"); ("payload", JObj [])]).
#[local] Abbreviation servedBy s := (servicesInvoke demoServices demoShapes s "jobs.create" newJob (CVerified alice) (demo emptyDB)).

(** A host whose AuthBoundry denies: the job is refused. *)
Lemma services_fail_closed_witness : exists registrations s,
  createServices demoServices (mkRegistrations 0 []) (demoOptions (Some (demoAnswer false))) = Ok (registrations, s) /\
  untouched (servicesInvoke demoServices demoShapes s "jobs.create" newJob (CVerified alice)) /\
  hasCode DENIED (match (servedBy s).2 with Throw e => e | Ok _ => invalidDate end) = true.
Proof.
  eexists _, _. split; [reflexivity|]. split; [|vm_compute; reflexivity].
  apply (services_fail_closed demoServices demoShapes (mkRegistrations 0 []) (demoOptions (Some (demoAnswer false))) _ _ "jobs.create" newJob (CVerified alice) eq_refl eq_refl
    (demoOptions_quiet false) demoServices_quiet).
  apply denied_unadmitted. reflexivity.
Defined.

(** The same call to a host without an authorizer makes the job. *)
Example unauthorized_job : exists registrations s,
  createServices demoServices (mkRegistrations 0 []) (demoOptions None) = Ok (registrations, s) /\
  match (servedBy s).2 with Ok (JObj fields) => isStr (getField fields "type") "send.email" | _ => false end = true.
Proof. eexists _, _. split; [reflexivity | vm_compute; reflexivity]. Qed.
