(* ===== verification/Host.v ===== *)
(** * Host: the standalone management host ([runtime/management-host.ts])

    [startManagementHost] resolves the deployment, makes the services, mounts
    the management router over them behind its own authentication, and listens.
    How the server's [listen] ends is an argument; what shutting down does, once,
    is a list of effects. *)

From S2P Require Import Prelude JsString Errors Models Store Principal Manifest Evidence Gateway ApiKeys Webhooks Extensions Dsl Platform AppPort Invoke Ui Management HttpAdapter Wiring.
From Stdlib Require Import ZArith Lia Ascii.
Local Open Scope string_scope.
Local Open Scope Z_scope.

Definition DEFAULT_MANAGEMENT_HOST : string := "127.0.0.1".
Definition DEFAULT_MANAGEMENT_PORT : Z := 4100.

(** [host.includes(':') && !host.startsWith('[') ? `[${host}]` : host] *)
Definition formatHost (host : string) : string :=
  if any (Ascii.eqb ":"%char) host && negb (startsWith host "[") then "[" ++ host ++ "]" else host.

(** How [server.listen] ends: listening, with the port of the server's address
    if that is an object, or an error with its code. *)
Inductive Bound := Listening (port : option Z) | NotListening (code : option string) (error : exn).

(** [listen] *)
Definition listenError (port : Z) (host : string) (code : option string) (error : exn) : exn :=
  if oeqb code (Some "EADDRINUSE")
  then JsError "Error" ("Cannot start the AppPort Services management host: " ++ host ++ ":" ++ num port ++ " is already in use. Pass a different --port.")
  else if oeqb code (Some "EACCES")
  then JsError "Error" ("Cannot start the AppPort Services management host: not permitted to bind " ++ host ++ ":" ++ num port ++ ". Pass a port above 1023.")
  else error.

Definition listen (bound : Bound) (port : Z) (host : string) : outcome (option Z) :=
  match bound with Listening p => Ok p | NotListening code e => Throw (listenError port host code e) end.

Section host.
Context {DB : Type} `{FeltDBLaws DB}.
Variable pl : Wiring.Platform DB.
Variable sh : Shapes.
(** What the management router is a function of, as in [Management]. *)
Variable dateOf : string -> option jsval.
Variable numberOf : string -> jsval.
Variable ui : UiHost.
Variable throttle : HostRequest -> M DB (option HostReply).
Variable matchLayer : string -> string -> HostRequest -> option Params.
Variable typeOf : exn -> option string.
Variable foreign : exn -> option Z * option string.
(** The headers of a request. *)
Variable headersOf : HostRequest -> list (string * HeaderValue).
(** [@feltdb/core]: whether the deployment these options resolve to is local. *)
Variable isLocal : FeltDBOptions -> bool.

Record ManagementHostOptions := mkHostOptions {
  mh_host : option string;
  mh_port : option Z;
  mh_application : option string;
  mh_authorizer : option (ServiceAuthorizationRequest -> M DB Gateway.Answer);
  mh_credentials : Credentials DB;
  mh_identify : option (M DB (option PrincipalClaims));
  mh_authenticate : option (HostRequest -> M DB (option Identity)) }.

Record ManagementHostRuntime := mkHostRuntime {
  mr_url : string;
  mr_host : string;
  mr_port : Z;
  mr_application : string;
  mr_contribution : UiContribution;
  mr_routes : list string;
  mr_services : AppPortServices DB;
  (** The router that is mounted, and the boundary before it. *)
  mr_layers : list (Layer DB);
  mr_authenticate : HostRequest -> M DB (option Identity);
  mr_log : list string }.

(** The options the host gives [createServices]. *)
Definition hostServices (deployment : ResolvedDeployment) (application : string) (options : ManagementHostOptions) : CreateServicesOptions DB :=
  mkServicesOptions None (fo_namespace (rd_feltdb deployment)) (isLocal (rd_feltdb deployment)) false (Some application)
    (mh_authorizer options) (mh_credentials options) None None [] [] [].

(** [createManagementHostAuthenticate(services, identify)] *)
Definition hostBoundary (services : AppPortServices DB) (identify : option (M DB (option PrincipalClaims))) (request : HostRequest)
  : M DB (option Identity) :=
  createManagementHostAuthenticate
    (fun secret => ApiKeys.authenticateApiKey (pl_scrypt pl) (pl_hmac pl) (as_apiKeys services) (JStr secret))
    IdentityPrincipal (option_map (fun who => claims ← who; mret (option_map IdentityClaims claims)) identify) (headersOf request).

Definition hostRouter (services : AppPortServices DB) : RouterOptions DB :=
  mkRouterOptions (managed pl sh services) false true true JUndef [].

Definition startManagementHost (registrations : Registrations) (deployment : ResolvedDeployment) (options : ManagementHostOptions)
  (bound : Z -> string -> Bound) : outcome (Registrations * ManagementHostRuntime) :=
  let application := orElse (mh_application options) (rd_application deployment) in
  made ← createServices pl registrations (hostServices deployment application options);
  let services := snd made in
  contribution ← createUiContribution (uh_version ui) (uh_validate ui) EVERYTHING true [];
  match contribution with
  | None => Throw (JsError "Error" "AppPort Services has no management surfaces to serve")
  | Some contribution =>
      layers ← createManagementRouter (as_gateway services) dateOf numberOf ui (fst made) (hostRouter services);
      let bindHost := orElse (mh_host options) (orElse (option_map ac_http_host (rd_config deployment)) DEFAULT_MANAGEMENT_HOST) in
      let bindPort := orElse (mh_port options) (orElse (option_map ac_http_port (rd_config deployment)) DEFAULT_MANAGEMENT_PORT) in
      address ← listen (bound bindPort bindHost) bindPort bindHost;
      let port := orElse address bindPort in
      let url := "http://" ++ formatHost bindHost ++ ":" ++ num port in
      let routes := map us_route (uc_surfaces contribution) in
      Ok (fst made, mkHostRuntime url bindHost port application contribution routes services layers
            (orElse (mh_authenticate options) (hostBoundary services (mh_identify options)))
            [ "appport-services serve: listening on " ++ url;
              "appport-services serve: application " ++ application ++ ", " ++ num (Z.of_nat (length routes)) ++ " management routes";
              "appport-services serve: UI discovery at " ++ url ++ "/v1/ui" ])
  end.

(** A request to the host. *)
Definition serveRequest (h : ManagementHostRuntime) (request : HostRequest) : M DB HostReply :=
  handleManagement (as_gateway (mr_services h)) (mr_authenticate h) throttle matchLayer typeOf foreign (mr_layers h) request.
End host.
Arguments ManagementHostOptions : clear implicits.
Arguments ManagementHostRuntime : clear implicits.

(** ** Shutting down *)

Inductive HostEffect := LogLine (line : string) | RemoveHandlers | CloseServer | CloseKeys.

(** What ends the host: a signal, or its own [close]. *)
Inductive Ending := Signal (name : string) | CloseCall.

(** [close]: [closed] before and after, and what it does. *)
Definition closeHost (closed : bool) : bool * list HostEffect :=
  if closed then (true, []) else (true, [RemoveHandlers; CloseServer; CloseKeys]).

Definition shutdown (signal : string) (closed : bool) : bool * list HostEffect :=
  let (closed', effects) := closeHost closed in
  (closed', LogLine ("appport-services serve: received " ++ signal ++ ", shutting down") :: effects).

Fixpoint endHost (l : list Ending) (closed : bool) : bool * list HostEffect :=
  match l with
  | [] => (closed, [])
  | x :: r =>
      let (closed', effects) := match x with Signal name => shutdown name closed | CloseCall => closeHost closed end in
      let (closed'', rest) := endHost r closed' in (closed'', effects ++ rest)%list
  end.
