(* ===== verification/HostProps.v ===== *)
(** * HostProps: the standalone host fails closed, and ends once *)

From S2P Require Import Prelude JsString Errors Models Store Calm MemStore Principal Manifest Evidence Gateway GatewayFacts ApiKeys Webhooks WebhookFacts Extensions Dsl Platform AppPort Invoke InvokeProps Ui Management ManagementProps HttpAdapter Wiring WiringProps Host Demo.
From Stdlib Require Import ZArith Lia Ascii.
Local Open Scope string_scope.
Local Open Scope Z_scope.

Section host.
Context {DB : Type} `{FeltDBLaws DB}.
Variable pl : Wiring.Platform DB.
Variable sh : Shapes.
Variable dateOf : string -> option jsval.
Variable numberOf : string -> jsval.
Variable ui : UiHost.
Variable throttle : HostRequest -> M DB (option HostReply).
Variable matchLayer : string -> string -> HostRequest -> option Params.
Variable typeOf : exn -> option string.
Variable foreign : exn -> option Z * option string.
Variable headersOf : HostRequest -> list (string * HeaderValue).
Variable isLocal : FeltDBOptions -> bool.

#[local] Abbreviation start := (startManagementHost pl sh dateOf numberOf ui headersOf isLocal).

(** A host that started has made its services and their router, and advertises
    the pages of all of them. *)
Lemma started registrations deployment options bound registrations' h : start registrations deployment options bound = Ok (registrations', h) ->
  createServices pl registrations (hostServices isLocal deployment (orElse (mh_application options) (rd_application deployment)) options)
    = Ok (registrations', mr_services h) /\
  createManagementRouter (as_gateway (mr_services h)) dateOf numberOf ui registrations' (hostRouter pl sh (mr_services h)) = Ok (mr_layers h) /\
  createUiContribution (uh_version ui) (uh_validate ui) EVERYTHING true [] = Ok (Some (mr_contribution h)) /\
  mr_routes h = map us_route (uc_surfaces (mr_contribution h)).
Proof.
  unfold startManagementHost. intros E. cbn zeta in E. apply obind_ok in E as ([r s] & Es & E). apply obind_ok in E as (c & Ec & E).
  destruct c as [c|]; [|discriminate E]. apply obind_ok in E as (layers & El & E). apply obind_ok in E as (address & _ & E).
  apply ok_pair in E as [<- <-]. repeat split; assumption.
Qed.

(** C22: The standalone host fails closed as it is put together.  Take any host
    that started with an authorizer or with credentials.  Whatever is asked of
    it, once the caller is authenticated - by an API key, by the operator's
    adapter or not at all - nothing happens in the store but one row that
    records a denial, unless AuthBoundry admits a request of that very
    principal for a capability of a route the request matches. *)
Theorem host_fails_closed registrations deployment options bound registrations' h request body w w0 w1 auth :
  start registrations deployment options bound = Ok (registrations', h) ->
  mh_authorizer options <> None \/ hasCredentials (mh_credentials options) = true ->
  (forall ask req v, mh_authorizer options = Some ask -> calm v -> kept v (ask req v).1) -> platformQuiet (pl_hooks pl) ->
  hr_body request = Ok body -> throttle request w = (w0, Ok None) ->
  authenticateHost (as_gateway (mr_services h)) (mr_authenticate h) request w0 = (w1, Ok auth) -> calm w1 ->
  (forall cap p, In cap (neededBy matchLayer request) -> auth = Some p -> unadmitted (as_gateway (mr_services h)) cap (CVerified p)) ->
  let w' := (serveRequest throttle matchLayer typeOf foreign h request w).1 in
  calm w' /\ onlyRefusal (w_db w1) (w_db w').
Proof.
  intros E Hh Hq Hp Hb Ht Ha Hc Hno. destruct (started _ _ _ _ _ _ E) as (Es & El & _).
  destruct (services_lawful pl sh _ _ _ _ Es) as [Hhost Hs].
  - unfold hasAuthorizer, hostServices. cbn. destruct (mh_authorizer options), Hh as [Hh|Hh]; (reflexivity || (rewrite Hh; reflexivity) || congruence).
  - exact Hq.
  - exact Hp.
  - refine (handle_untouched _ dateOf numberOf ui registrations' (hostRouter pl sh (mr_services h)) _ _ _ _ _ _ _ _ _ _ _ _ Hhost Hs El _ Hb Ht Ha Hc Hno). intros y [].
Qed.
End host.

(** ** Ending *)

Definition isLog (x : HostEffect) : bool := match x with LogLine _ => true | _ => false end.

Definition silenced (effects : list HostEffect) : list HostEffect := List.filter (fun x => negb (isLog x)) effects.

Lemma silenced_app l r : silenced (l ++ r) = (silenced l ++ silenced r)%list.
Proof. apply List.filter_app. Qed.

(** However often the host is told to end, by signals or by its caller, it
    drains its server and closes its keys once, in this order. *)
Lemma ends_once l closed :
  (endHost l closed).1 = (closed || match l with [] => false | _ => true end)%bool /\
  silenced (endHost l closed).2 = match closed, l with false, _ :: _ => [RemoveHandlers; CloseServer; CloseKeys] | _, _ => [] end.
Proof.
  revert closed. induction l as [|x l IH]; intros closed; [destruct closed; split; reflexivity|].
  specialize (IH true). cbn [orb] in IH. cbn [endHost].
  destruct x, closed; cbn; destruct (endHost l true) as [c rest]; cbn in IH |- *; destruct IH as [-> IH]; (split; [reflexivity|]);
    rewrite IH; reflexivity.
Qed.

(** ** A concrete host *)

Definition demoOperator : M MemDB (option PrincipalClaims) :=
  mret (Some (mkClaims "alice" "user" "t1" (Some "app") None None None)).

(** A host on an operator's machine: no API keys are presented. *)
Definition operatorHost (authorizer : option (ServiceAuthorizationRequest -> M MemDB Gateway.Answer)) : ManagementHostOptions MemDB :=
  mkHostOptions None None (Some "app") authorizer NoCredentials (Some demoOperator) None.

#[local] Abbreviation demoStart authorizer :=
  (startManagementHost demoServices demoShapes (fun _ => None) (fun _ => JUndef) demoUi (fun _ => []) (fun _ => true)
    (mkRegistrations 0 []) (mkDeployment noFeltDBOptions None DEFAULT_APPLICATION) (operatorHost authorizer) (fun _ _ => Listening (Some 4100))).

Definition postJob : HostRequest :=
  mkHostRequest "POST" "/_appport/jobs" [] (Ok (JObj [("type", JStr "send.email"); ("payload", JObj [])])) None.

#[local] Abbreviation answeredBy h := (serveRequest (fun _ => mret None) demoMatch (fun _ => None) (fun _ => (None, None)) h postJob (demo emptyDB)).

(** AuthBoundry denies: the operator's job is answered 403. *)
Lemma host_fails_closed_witness : exists registrations h,
  demoStart (Some (demoAnswer false)) = Ok (registrations, h) /\ mr_url h = "http://127.0.0.1:4100" /\
  statusOf (answeredBy h).2 = 403 /\ onlyRefusal (w_db (demo emptyDB)) (w_db (answeredBy h).1).
Proof.
  eexists _, _. split; [reflexivity|]. split; [reflexivity|]. split; [vm_compute; reflexivity|].
  refine (proj2 (host_fails_closed demoServices demoShapes (fun _ => None) (fun _ => JUndef) demoUi (fun _ => mret None) demoMatch
    (fun _ => None) (fun _ => (None, None)) (fun _ => []) (fun _ => true) (mkRegistrations 0 []) (mkDeployment noFeltDBOptions None DEFAULT_APPLICATION)
    (operatorHost (Some (demoAnswer false))) (fun _ _ => Listening (Some 4100)) _ _ postJob _ (demo emptyDB) (demo emptyDB) (demo emptyDB)
    (Some alice) eq_refl _ (demoOptions_quiet false) demoServices_quiet eq_refl eq_refl eq_refl demo_empty_calm _)).
  - left. discriminate.
  - intros cap p _ _ r rid c q (_ & _ & _ & _ & _ & _ & _ & d & ask & ts & w1 & w2 & [= <-] & [= _ <-] & _ & Hallow). discriminate Hallow.
Defined.

(** Without an authorizer and without credentials the same request makes the job. *)
Example unauthorized_host : exists registrations h, demoStart None = Ok (registrations, h) /\ statusOf (answeredBy h).2 = 201.
Proof. eexists _, _. split; [reflexivity | vm_compute; reflexivity]. Qed.
