(* ===== verification/Cli.v ===== *)
(** * Cli: the command line ([cli.ts])

    [appport-runtime] parses its options, writes the application contract and
    the flow file, and calls the services for an operator: who the operator is
    says an API key or the host's identity adapter, what he may do AuthBoundry.
    A command runs over the files and the streams of its process ([Console])
    and the world of the services; paths are absolute and normal, as
    [process.cwd] gives them. *)

From S2P Require Import Prelude JsString JsTime Errors Models Store Principal Manifest Evidence Gateway Jobs ApiKeys KeyAuth Webhooks Extensions Dsl Platform AppPort Invoke Ui Management HttpAdapter Wiring Host.
From Stdlib Require Import ZArith Lia Ascii.
Local Open Scope string_scope.
Local Open Scope Z_scope.

(** [l.join(separator)] *)
Fixpoint joinWith (separator : string) (l : list string) : string :=
  match l with [] => "" | [s] => s | s :: r => s ++ separator ++ joinWith separator r end.

(** ** Options *)

(** [Map<string, string[]>], in the order of its first insertions. *)
Definition Options : Type := list (string * list string).

Fixpoint arrayOption (options : Options) (key : string) : list string :=
  match options with
  | [] => []
  | (k, values) :: r => if String.eqb k key then values else arrayOption r key
  end.

Fixpoint pushOption (options : Options) (key value : string) : Options :=
  match options with
  | [] => [(key, [value])]
  | (k, values) :: r => if String.eqb k key then (k, values ++ [value])%list :: r else (k, values) :: pushOption r key value
  end.

Definition cliError (message : string) : exn := JsError "Error" message.

Fixpoint parseFrom (tokens : list string) (options : Options) : outcome Options :=
  match tokens with
  | [] => Ok options
  | token :: r =>
      if negb (startsWith token "--") then Throw (cliError ("Unexpected argument: " ++ token))
      else
        let key := sliceFrom 2 token in
        match r with
        | value :: r' =>
            if negb (truthy value) || startsWith value "--" then Throw (cliError ("Missing value for --" ++ key))
            else parseFrom r' (pushOption options key value)
        | [] => Throw (cliError ("Missing value for --" ++ key))
        end
  end.

Definition parseOptions (tokens : list string) : outcome Options := parseFrom tokens [].

Definition firstOption (options : Options) (key : string) : option string := List.head (arrayOption options key).

Definition required (options : Options) (key : string) : outcome string :=
  match ifPresent (firstOption options key) with
  | Some value => Ok value
  | None => Throw (cliError ("Missing required option --" ++ key))
  end.

Definition ACTOR_FLAGS : list string := ["created-by"; "revoked-by"; "disabled-by"; "replayed-by"; "actor"].

Definition rejectActorFlags (tokens : list string) : outcome unit :=
  match List.find (fun flag => existsb (String.eqb ("--" ++ flag)) tokens) ACTOR_FLAGS with
  | Some flag => Throw (ServiceMigrationError ("--" ++ flag ++ " is no longer accepted: an actor string is not an identity. The operator is identified via APPPORT_AUTHORITY or APPPORT_API_KEY."))
  | None =>
      if existsb (String.eqb "--scope") tokens
      then Throw (ServiceMigrationError "--scope is no longer accepted: API key scopes are not authority. Grant capabilities in AuthBoundry.")
      else Ok tt
  end.

(** [Number(value)] is [numberOf value]; [stringify] is [JSON.stringify]. *)
Definition parsePort (numberOf : string -> jsval) (stringify : string -> string) (value : string) : outcome Z :=
  let invalid := Throw (cliError ("Invalid --port " ++ stringify value ++ "; expected an integer between 0 and 65535")) in
  match numberOf value with
  | JInt port => if (port <? 0) || (65535 <? port) then invalid else Ok port
  | _ => invalid
  end.

(** ** The contract that [init] writes *)

Definition SUPPORTED_CAPABILITIES : list AppPortCapabilityName := [CapApi; CapWebhooks; CapJobs; CapNotifications; CapFiles].
Definition DEFAULT_CAPABILITIES : list string := ["api"; "webhooks"; "jobs"].

Definition CAPABILITY_COLLECTIONS (c : AppPortCapabilityName) : list string :=
  match c with
  | CapApi => ["ApiKeys"; "ApiKeyPrefixes"; "ApiKeyAuditEvents"]
  | CapWebhooks => ["WebhookEndpoints"; "WebhookDeliveries"; "WebhookAuditEvents"]
  | CapJobs => ["Jobs"; "JobSchedules"; "JobAuditEvents"]
  | CapNotifications => ["Notifications"; "NotificationDeliveries"; "NotificationAuditEvents"]
  | CapFiles => ["Files"; "FileAuditEvents"]
  | CapSecrets => []
  end.

Definition selects (selected : list AppPortCapabilityName) (c : AppPortCapabilityName) : bool :=
  existsb (fun d => String.eqb (capabilityName d) (capabilityName c)) selected.

(** The lines before the capabilities. *)
Definition contractHead (applicationName : string) : list string :=
  [ "# AppPort application contract"; "version = " ++ quoted "1"; "";
    "[application]"; "name = " ++ quoted applicationName; "description = " ++ quoted "AppPort application"; "runtime = " ++ quoted "node"; "";
    "[deployment]"; "mode = " ++ quoted "local"; "storage = " ++ quoted "durable"; "distributed = true"; "";
    "[state]"; "enabled = true"; "authority = " ++ quoted "feltdb"; "namespace = " ++ quoted applicationName; "";
    "[tenant]"; "mode = " ++ quoted "required"; "default = " ++ quoted "development"; "";
    "[http]"; "enabled = true"; "host = " ++ quoted "127.0.0.1"; "port = 4100"; "";
    "[cors]"; "enabled = true"; "origins = [" ++ quoted "*" ++ "]" ].

Definition sectionLines (c : AppPortCapabilityName) : list string :=
  match c with
  | CapApi => [""; "[api]"; "enabled = true"; ""; "[api.keys]"; "enabled = true"]
  | CapWebhooks => [""; "[webhooks]"; "enabled = true"; ""; "[webhooks.delivery]"; "enabled = true"; "retries = 3"; "timeout_ms = 10000"; "";
      "[webhooks.events]"; "allowed = [" ++ quoted "example.created" ++ "]"]
  | CapJobs => [""; "[jobs]"; "enabled = true"; ""; "[jobs.execution]"; "enabled = true"; "max_attempts = 3"; "";
      "[jobs.types]"; quoted "example.process" ++ " = { timeout_ms = 30000 }"]
  | CapNotifications => [""; "[notifications]"; "enabled = true"; "default_priority = " ++ quoted "normal"; "default_channel = " ++ quoted "in-app"]
  | CapFiles => [""; "[files]"; "enabled = true"]
  | CapSecrets => []
  end.

(** The lines after the capabilities, before the [use] lines. *)
Definition contractRest (selected : list AppPortCapabilityName) : list string :=
  [ ""; "[events]"; "enabled = true"; ""; "[events.streaming]"; "enabled = true"; "transport = " ++ quoted "sse";
    ""; "[authorization]"; "enabled = " ++ (if selects selected CapApi then "true" else "false"); "default = " ++ quoted "deny";
    ""; "[observability]"; "enabled = true"; ""; "[lifecycle]"; "managed = true";
    ""; "[development]"; "mail = " ++ quoted "local"; "webhooks = " ++ quoted "local"; "jobs = " ++ quoted "local"; "" ].

Definition contractTail (selected : list AppPortCapabilityName) : list string :=
  (contractRest selected ++ map (fun c => ("use " ++ capabilityName c)%string) selected ++ [""])%list.

Definition contractLines (applicationName : string) (selected : list AppPortCapabilityName) : list string :=
  (contractHead applicationName
   ++ flat_map (fun c => if selects selected c then sectionLines c else []) SUPPORTED_CAPABILITIES
   ++ contractTail selected)%list.

Definition canonicalConfig (applicationName : string) (selected : list AppPortCapabilityName) : string :=
  joinLines (contractLines applicationName selected).

(** ** Names of applications *)

Definition nameChar (c : ascii) : bool := isLower c || isDigit c || Ascii.eqb c "_"%char || Ascii.eqb c "-"%char.

(** [.replace(/[^a-z0-9_-]+/g, '-')]: [inside] a run that was replaced. *)
Fixpoint replaceRuns (inside : bool) (s : string) : string :=
  match s with
  | EmptyString => EmptyString
  | String c r =>
      if nameChar c then String c (replaceRuns false r)
      else if inside then replaceRuns true r else String "-" (replaceRuns true r)
  end.

(** [.replace(/^-+|-+$/g, '')] *)
Fixpoint dropDashes (s : string) : string :=
  match s with String "-" r => dropDashes r | _ => s end.

Fixpoint dropLastDashes (s : string) : string :=
  match s with
  | EmptyString => EmptyString
  | String c r =>
      match dropLastDashes r with
      | EmptyString => if Ascii.eqb c "-"%char then EmptyString else String c EmptyString
      | r' => String c r'
      end
  end.

Definition applicationNameOf (candidate : string) : string :=
  match dropLastDashes (dropDashes (replaceRuns false (toLowerCase candidate))) with EmptyString => "app" | name => name end.

(** [.replace(/^@[^/]+\//, '')] *)
Definition withoutOrganization (name : string) : string :=
  match name with
  | String "@" r =>
      match spanOf (fun c => negb (Ascii.eqb c "/"%char)) r with
      | (String _ _, String _ rest) => rest
      | _ => name
      end
  | _ => name
  end.

(** ** A process *)

(** [co_files]: the texts at paths; [co_out], [co_err]: what was written. *)
Record Console := mkConsole {
  co_files : gmap string string;
  co_out : list string;
  co_err : list string }.

Definition Cli (DB A : Type) : Type := Console -> World DB -> Console * World DB * outcome A.

#[global] Instance Cli_ret DB : MRet (Cli DB) := fun A a console w => (console, w, Ok a).

#[global] Instance Cli_bind DB : MBind (Cli DB) := fun A B k m console w =>
  match m console w with
  | (console', w', Ok a) => k a console' w'
  | (console', w', Throw e) => (console', w', Throw e)
  end.

(** A step of the services, a value or an error, and what happens to files
    and streams. *)
Definition serving {DB A} (m : M DB A) : Cli DB A := fun console w => let (w', o) := m w in (console, w', o).
Definition settled {DB A} (o : outcome A) : Cli DB A := fun console w => (console, w, o).
Definition storedFiles {DB} : Cli DB (gmap string string) := fun console w => (console, w, Ok (co_files console)).
Definition writeLine {DB} (line : string) : Cli DB unit := fun console w =>
  (mkConsole (co_files console) (co_out console ++ [line]) (co_err console), w, Ok tt).
Definition warnLine {DB} (line : string) : Cli DB unit := fun console w =>
  (mkConsole (co_files console) (co_out console) (co_err console ++ [line]), w, Ok tt).

(** [writeFile]; [exclusive] is the flag [wx]. *)
Definition writeFile {DB} (exclusive : bool) (path text : string) : Cli DB unit := fun console w =>
  match co_files console !! path, exclusive with
  | Some _, true => (console, w, Throw (cliError ("EEXIST: file already exists, open '" ++ path ++ "'")))
  | _, _ => (mkConsole (<[path := text]> (co_files console)) (co_out console) (co_err console), w, Ok tt)
  end.

Fixpoint writeLines {DB} (lines : list string) : Cli DB unit :=
  match lines with [] => mret tt | line :: r => _ ← writeLine line; writeLines r end.

(** [resolve(cwd, name)] and [basename(path)] *)
Definition resolveIn (cwd name : string) : string := if String.eqb cwd "/" then "/" ++ name else cwd ++ "/" ++ name.

Definition basename (path : string) : string := List.last (splitOn "/" path) "".

(** ** The operator *)

Record CliAuthority (DB : Type) := mkCliAuthority {
  ca_authorizer : option (ServiceAuthorizationRequest -> M DB Gateway.Answer);
  ca_identify : option (M DB (option PrincipalClaims));
  ca_credentials : Credentials DB }.
Arguments ca_authorizer {DB}. Arguments ca_identify {DB}. Arguments ca_credentials {DB}. Arguments mkCliAuthority {DB}.

(** A module: what it exports itself, and its default export. *)
Record LoadedModule (DB : Type) := mkLoaded { lm_own : CliAuthority DB; lm_default : option (CliAuthority DB) }.
Arguments lm_own {DB}. Arguments lm_default {DB}. Arguments mkLoaded {DB}.

(** The process a command runs in.  [ps_import]: the module a path names, from
    the working directory; [ps_flowTemplate] and [ps_formatFlow]: the packaged
    flow as [@feltdb/core] parses it, with its collections by name, and the
    text of the flow with a name and some of them; [ps_answer]: what the
    terminal answers, if there is one; [ps_isLocal]: whether the deployment
    these options resolve to is local. *)
Record Process (DB : Type) := mkProcess {
  ps_cwd : string;
  ps_apiKey : option string;
  ps_authority : option string;
  ps_env : FeltDbEnv;
  ps_injected : option (CliAuthority DB);
  ps_import : string -> outcome (LoadedModule DB);
  ps_stringify : string -> string;
  ps_valueText : jsval -> outcome string;
  ps_tomlParse : string -> list (string * jsval) + string;
  ps_errorText : exn -> string;
  ps_jsonParse : string -> outcome jsval;
  ps_numberOf : string -> jsval;
  ps_flowTemplate : outcome (list (string * jsval));
  ps_formatFlow : string -> list (string * jsval) -> string;
  ps_answer : option (nat -> string);
  ps_isLocal : FeltDBOptions -> bool }.
Arguments ps_cwd {DB}. Arguments ps_apiKey {DB}. Arguments ps_authority {DB}. Arguments ps_env {DB}. Arguments ps_injected {DB}.
Arguments ps_import {DB}. Arguments ps_stringify {DB}. Arguments ps_valueText {DB}. Arguments ps_tomlParse {DB}. Arguments ps_errorText {DB}.
Arguments ps_jsonParse {DB}. Arguments ps_numberOf {DB}. Arguments ps_flowTemplate {DB}. Arguments ps_formatFlow {DB}.
Arguments ps_answer {DB}. Arguments ps_isLocal {DB}. Arguments mkProcess {DB}.

Section process.
Context {DB : Type} `{FeltDBLaws DB}.
Variable pl : Wiring.Platform DB.
Variable p : Process DB.

Definition configPath : string := resolveIn (ps_cwd p) "appport.toml".
Definition flowPath : string := resolveIn (ps_cwd p) "feltdb.flow".

(** [parseAppPortConfig(path)] *)
Definition readContract : Cli DB AppPortConfig :=
  fs ← storedFiles;
  settled (parseAppPortConfig configPath (ps_valueText p) (ps_tomlParse p)
    (match fs !! configPath with
     | Some text => Ok text
     | None => Throw (cliError ("ENOENT: no such file or directory, open '" ++ configPath ++ "'"))
     end) (ps_errorText p)).

Definition contractIfAny : Cli DB (option AppPortConfig) :=
  fs ← storedFiles;
  match fs !! configPath with None => mret None | Some _ => config ← readContract; mret (Some config) end.

(** [createConfiguredRuntime], as far as a command depends on it: the contract,
    and whether the store it opens is local. *)
Definition createConfiguredRuntime : Cli DB (option AppPortConfig * bool) :=
  config ← contractIfAny;
  mret (config, ps_isLocal p (rd_feltdb (resolveDeployment config (ps_env p) (resolveIn (ps_cwd p) ".appport/state")))).

Definition loadAuthority : outcome (option (CliAuthority DB)) :=
  match ps_injected p with
  | Some authority => Ok (Some authority)
  | None =>
      match ifPresent (ps_authority p) with
      | None => Ok None
      | Some path =>
          loaded ← ps_import p path;
          let authority := match ca_authorizer (lm_own loaded) with Some _ => Some (lm_own loaded) | None => lm_default loaded end in
          match authority with
          | Some a => match ca_authorizer a with
                      | Some _ => Ok (Some a)
                      | None => Throw (cliError (path ++ " must export an AuthBoundry authorizer"))
                      end
          | None => Throw (cliError (path ++ " must export an AuthBoundry authorizer"))
          end
      end
  end.

(** The authorizer and the credentials of the operator's gateway. *)
Definition askOperator (request : ServiceAuthorizationRequest) : M DB Gateway.Answer :=
  match loadAuthority with
  | Throw e => mret (Fails e)
  | Ok authority =>
      match authority ≫= ca_authorizer with
      | None => mret (Fails (cliError "No AuthBoundry authorizer"))
      | Some authorize => authorize request
      end
  end.

Definition operatorSecret (T : Type) (reference : SecretReference) (context : SecretAccessContext) (use : ResolvedSecret -> M DB T) : M DB T :=
  authority ← ofOutcome loadAuthority;
  match option_map ca_credentials authority with
  | Some (Resolver withSecret) | Some (Custody withSecret _ _) => withSecret T reference context use
  | _ => throw (cliError "No AuthBoundry credential resolver")
  end.

Definition operatorGateway (application : string) : outcome (ServiceGateway DB) :=
  newGateway application (Some askOperator) (Resolver operatorSecret) None [] (credentialCheck application).

Definition applicationIn (config : option AppPortConfig) : string := orElse (option_map ac_application_name config) "default".

Definition NO_OPERATOR : exn :=
  cliError "Mutating commands require an operator identity: set APPPORT_AUTHORITY to a module exporting { authorizer, identify } (or APPPORT_API_KEY). See docs/AUTHORITY.md.".

(** [operator.principal(keys)], with the keys that authenticate, and the
    gateway if one was made. *)
Definition operatorPrincipal (keys : ApiKeyService DB) (gateway : option (ServiceGateway DB)) : M DB VerifiedPrincipal :=
  match ifPresent (ps_apiKey p) with
  | Some secret =>
      found ← authenticateApiKey (pl_scrypt pl) (pl_hmac pl) keys (JStr secret);
      match found with
      | Some principal => mret principal
      | None => throw (cliError "APPPORT_API_KEY is not a valid API key for this application")
      end
  | None =>
      authority ← ofOutcome loadAuthority;
      claims ← match authority ≫= ca_identify with Some identify => identify | None => mret None end;
      principal ← ofOutcome (match gateway with Some g => identify g claims | None => Ok None end);
      match principal with Some verified => mret verified | None => throw NO_OPERATOR end
  end.

(** The keys that authenticate for commands that bring none. *)
Definition operatorKeys (application : string) : outcome (ApiKeyService DB) :=
  newApiKeyService [] None (Some application) None false.

Definition createConfiguredApiKeyService (gateway : ServiceGateway DB) : Cli DB (ApiKeyService DB) :=
  runtime ← createConfiguredRuntime;
  settled (newApiKeyService [] None (Some (applicationIn (fst runtime))) (Some gateway) (snd runtime)).

(** ** Writing the contract *)

Definition writeFlowContract (destination applicationName : string) (selected : list AppPortCapabilityName) (exclusive : bool) : Cli DB unit :=
  template ← settled (ps_flowTemplate p);
  let included := flat_map CAPABILITY_COLLECTIONS selected in
  writeFile exclusive destination
    (ps_formatFlow p applicationName (List.filter (fun c : string * jsval => existsb (String.eqb (fst c)) included) template)).

Definition detectFlowApplicationName : Cli DB string :=
  fs ← storedFiles;
  mret (applicationNameOf
    match fs !! resolveIn (ps_cwd p) "package.json" with
    | Some text =>
        match ps_jsonParse p text with
        | Ok (JObj manifest) =>
            match getField manifest "name" with
            | JStr name => if blank name then basename (ps_cwd p) else withoutOrganization name
            | _ => basename (ps_cwd p)
            end
        | _ => basename (ps_cwd p)
        end
    | None => basename (ps_cwd p)
    end).

Fixpoint assertFilesDoNotExist (paths : list string) : Cli DB unit :=
  match paths with
  | [] => mret tt
  | path :: r =>
      fs ← storedFiles;
      match fs !! path with
      | Some _ => settled (Throw (cliError (basename path ++ " already exists at " ++ path)))
      | None => assertFilesDoNotExist r
      end
  end.

(** The questions of [init] at a terminal, from the [n]th answer on. *)
Fixpoint askCapabilities (answer : nat -> string) (n : nat) (prompts : list (string * string)) : Cli DB (list string) :=
  match prompts with
  | [] => mret []
  | (capability, label) :: r =>
      _ ← writeLine ("Enable " ++ label ++ "? [Y/n] ");
      let said := toLowerCase (trim (answer n)) in
      if existsb (String.eqb said) [""; "y"; "yes"] then selected ← askCapabilities answer (S n) r; mret (capability :: selected)
      else if existsb (String.eqb said) ["n"; "no"] then askCapabilities answer (S n) r
      else settled (Throw (cliError ("Invalid answer " ++ quoted said ++ ". Enter y or n.")))
  end.

Definition configureCapabilities : Cli DB (list string) :=
  match ps_answer p with
  | None => mret DEFAULT_CAPABILITIES
  | Some answer =>
      _ ← writeLine "Configure AppPort capabilities (press Enter to accept each default):";
      askCapabilities answer 0 [("api", "API keys"); ("webhooks", "Webhooks"); ("jobs", "Jobs"); ("files", "Files")]
  end.

Definition chosen (capabilities : list string) : list AppPortCapabilityName :=
  List.filter (fun c => existsb (String.eqb (capabilityName c)) capabilities) SUPPORTED_CAPABILITIES.

Definition handleInitCommand (tokens : list string) : Cli DB Z :=
  options ← settled (parseOptions tokens);
  _ ← settled (match List.find (fun o : string * list string => negb (String.eqb (fst o) "use")) options with
               | Some (key, _) => Throw (cliError ("Unknown option for init: --" ++ key))
               | None => Ok tt
               end);
  capabilities ← match flat_map (splitOn ",") (arrayOption options "use") with
                 | [] => configureCapabilities
                 | requested => mret (List.filter truthy (map trim requested))
                 end;
  _ ← settled (match capabilities with [] => Throw (cliError "--use must include at least one capability") | _ => Ok tt end);
  let names := map capabilityName SUPPORTED_CAPABILITIES in
  _ ← settled (match List.filter (fun c => negb (existsb (String.eqb c) names)) capabilities with
               | [] => Ok tt
               | unknown => Throw (cliError ("Unknown capability: " ++ joinWith ", " unknown ++ ". Supported: " ++ joinWith ", " names))
               end);
  let selected := chosen capabilities in
  _ ← assertFilesDoNotExist [configPath; flowPath];
  applicationName ← detectFlowApplicationName;
  _ ← writeFile true configPath (canonicalConfig applicationName selected);
  _ ← writeFlowContract flowPath applicationName selected true;
  _ ← writeLine ("Created " ++ configPath);
  _ ← writeLine ("Created " ++ flowPath);
  _ ← writeLine ("Enabled: " ++ joinWith ", " (map capabilityName selected));
  mret 0.

Definition handleConfigMigrate : Cli DB Z :=
  config ← readContract;
  let selected := List.filter (ac_capabilities config) SUPPORTED_CAPABILITIES in
  fs ← storedFiles;
  _ ← writeFile false (configPath ++ ".bak") (orElse (fs !! configPath) "");
  applicationName ← (if String.eqb (ac_application_name config) "app" then detectFlowApplicationName else mret (ac_application_name config));
  _ ← writeFile false configPath (canonicalConfig applicationName selected);
  fs' ← storedFiles;
  _ ← match fs' !! flowPath with Some _ => mret tt | None => writeFlowContract flowPath applicationName selected false end;
  _ ← writeLine ("Migrated " ++ configPath);
  _ ← writeLine ("Backup: " ++ configPath ++ ".bak");
  mret 0.

(** ** [api-key] *)

Definition required_ (options : Options) (key : string) : Cli DB string := settled (required options key).

(** [const [id, ...optionTokens] = rest], with what is missing without one. *)
Definition idAndOptions (rest : list string) (missing : string) : Cli DB (string * Options) :=
  match rest with
  | id :: optionTokens =>
      if truthy id then options ← settled (parseOptions optionTokens); mret (id, options) else settled (Throw (cliError missing))
  | [] => settled (Throw (cliError missing))
  end.

Definition notFound (line : string) : Cli DB Z := _ ← warnLine line; mret 1.
Definition told (lines : list string) : Cli DB Z := _ ← writeLines lines; mret 0.

Definition tab : string := String "009" EmptyString.

Section commands.
Variable gateway : ServiceGateway DB.

Definition apiKeyCreate (service : ApiKeyService DB) (operator : M DB VerifiedPrincipal) (rest : list string) : Cli DB Z :=
  options ← settled (parseOptions rest);
  tenantId ← required_ options "tenant";
  name ← required_ options "name";
  principal ← serving operator;
  created ← serving (ApiKeys.createApiKey (pl_scrypt pl) (pl_hmac pl) (pl_localeLe pl) (pl_stringOf pl) (pl_otherDate pl) service
    (mkCreateKey (Some tenantId) (JStr name) [] JUndef
       (option_map (fun text => DDate (parseDate (pl_otherDate pl) text)) (ifPresent (firstOption options "expires-at"))) JUndef)
    (CVerified principal));
  _ ← warnLine "WARNING: save this secret now. It will only be shown once.";
  told ["id: " ++ cr_id created; "name: " ++ cr_name created; "prefix: " ++ cr_prefix created; "secret: " ++ cr_secret created].

Definition keyLine (k : ApiKeyView) : string :=
  kv_id k ++ tab ++ kv_name k ++ tab ++ kv_keyPrefix k ++ tab ++ (if present (kv_revokedAt k) then "revoked" else "active").

Definition apiKeyList (service : ApiKeyService DB) (rest : list string) : Cli DB Z :=
  options ← settled (parseOptions rest);
  tenantId ← required_ options "tenant";
  items ← serving (ApiKeys.listApiKeys (pl_localeLe pl) service tenantId None);
  told (map keyLine items).

Definition apiKeyRevoke (service : ApiKeyService DB) (operator : M DB VerifiedPrincipal) (rest : list string) : Cli DB Z :=
  '(id, options) ← idAndOptions rest "Missing API key id.";
  tenantId ← required_ options "tenant";
  principal ← serving operator;
  revoked ← serving (ApiKeys.revokeApiKey service (Some tenantId) id JUndef (CVerified principal));
  match revoked with
  | None => notFound "API key not found for tenant."
  | Some key => told ["revoked: " ++ kv_id key]
  end.

Definition handleApiKeyCommand (action : string) (rest : list string) (service : ApiKeyService DB) (operator : M DB VerifiedPrincipal) : Cli DB Z :=
  if String.eqb action "create" then apiKeyCreate service operator rest
  else if String.eqb action "list" then apiKeyList service rest
  else if String.eqb action "revoke" then apiKeyRevoke service operator rest
  else notFound "Usage: appport-runtime api-key <create|list|revoke>".

(** ** [webhook] *)

(** The service of the commands, from the contract. *)
Definition cliWebhooks (config : option AppPortConfig) : outcome (WebhookService DB) :=
  newWebhookService (Some gateway) false (option_map ac_webhooks_delivery_retries config)
    (orElse (option_map ac_webhooks_events_allowed config) []) None false false.

Definition webhookCreate (service : WebhookService DB) (operator : M DB VerifiedPrincipal) (rest : list string) : Cli DB Z :=
  options ← settled (parseOptions rest);
  tenantId ← required_ options "tenant";
  url ← required_ options "url";
  signing ← required_ options "signing-credential";
  let events := arrayOption options "event" in
  _ ← settled (match events with [] => Throw (cliError "At least one --event is required") | _ => Ok tt end);
  principal ← serving operator;
  endpoint ← serving (Webhooks.createWebhookEndpoint (pl_hooks pl) service
    (mkCreateEndpoint (Some tenantId) (JStr url) (JArr (map JStr events)) (JStr signing) []) (CVerified principal));
  told ["id: " ++ we_id endpoint; "url: " ++ we_url endpoint; "events: " ++ joinWith "," (we_events endpoint);
        "signing credential: " ++ orElse (we_signingCredentialRef endpoint) "undefined"].

Definition endpointLine (e : WebhookEndpoint) : string :=
  we_id e ++ tab ++ we_url e ++ tab ++ joinWith "," (we_events e) ++ tab ++ (if present (we_disabledAt e) then "disabled" else "active").

Definition webhookList (rest : list string) : Cli DB Z :=
  options ← settled (parseOptions rest);
  tenantId ← required_ options "tenant";
  endpoints ← serving (Webhooks.listWebhookEndpoints tenantId);
  told (map endpointLine endpoints).

Definition webhookDisable (service : WebhookService DB) (operator : M DB VerifiedPrincipal) (rest : list string) : Cli DB Z :=
  '(id, options) ← idAndOptions rest "Missing endpoint id.";
  tenantId ← required_ options "tenant";
  principal ← serving operator;
  disabled ← serving (Webhooks.disableWebhookEndpoint service (mkDisableEndpoint (Some tenantId) id []) (CVerified principal));
  match disabled with
  | None => notFound "Webhook endpoint not found for tenant."
  | Some endpoint => told ["disabled: " ++ we_id endpoint]
  end.

(** [parseInt(text, 10)] *)
Definition parseInt (text : string) : option Z :=
  let unsigned s := match spanOf isDigit s with (EmptyString, _) => None | (digits, _) => Some (digitsValue 0 digits) end in
  match trimStart text with
  | String "-" r => option_map Z.opp (unsigned r)
  | String "+" r => unsigned r
  | s => unsigned s
  end.

(** [limit ? results.slice(0, limit) : results] for any number. *)
Definition sliceFirst {A} (limit : option Z) (l : list A) : list A :=
  match limit with
  | None | Some 0 => l
  | Some z => if z <? 0 then take (length l - Z.to_nat (- z)) l else take (Z.to_nat z) l
  end.

Definition deliveryLine (d : WebhookDelivery) : string :=
  wd_id d ++ tab ++ wd_endpointId d ++ tab ++ wd_eventType d ++ tab ++ Webhooks.statusText (wd_status d) ++ tab ++ "attempts=" ++ num (wd_attemptCount d).

Definition webhookDeliveries (rest : list string) : Cli DB Z :=
  options ← settled (parseOptions rest);
  tenantId ← required_ options "tenant";
  let limit := match ifPresent (firstOption options "limit") with Some text => parseInt text | None => Some 50 end in
  found ← serving (Webhooks.listWebhookDeliveries tenantId (firstOption options "endpoint") 0);
  told (map deliveryLine (sliceFirst limit found)).

Definition webhookReplay (service : WebhookService DB) (operator : M DB VerifiedPrincipal) (rest : list string) : Cli DB Z :=
  '(id, options) ← idAndOptions rest "Missing delivery id.";
  tenantId ← required_ options "tenant";
  principal ← serving operator;
  replayed ← serving (Webhooks.replayWebhookDelivery service tenantId id (CVerified principal));
  match replayed with
  | None => notFound "Webhook delivery not found or endpoint is disabled."
  | Some delivery => told ["replayed: " ++ wd_id delivery]
  end.

Definition handleWebhookCommand (action : string) (rest : list string) (operator : M DB VerifiedPrincipal) : Cli DB Z :=
  runtime ← createConfiguredRuntime;
  service ← settled (cliWebhooks (fst runtime));
  if String.eqb action "create" then webhookCreate service operator rest
  else if String.eqb action "list" then webhookList rest
  else if String.eqb action "disable" then webhookDisable service operator rest
  else if String.eqb action "deliveries" then webhookDeliveries rest
  else if String.eqb action "replay" then webhookReplay service operator rest
  else notFound "Usage: appport-runtime webhook <create|list|disable|deliveries|replay>".

(** ** [job] *)

Definition cliJobs (config : option AppPortConfig) : JobService DB :=
  newJobService (Some gateway) (option_map ac_jobs_max_attempts config) None
    (match config with Some c => map fst (ac_jobs_types c) | None => [] end).

Definition jobStatusText (s : JobStatus) : string :=
  match s with
  | JScheduled => "scheduled" | JPending => "pending" | JRunning => "running" | JRetrying => "retrying"
  | JCompleted => "completed" | JFailed => "failed"
  end.

(** What is left of [diffMs] milliseconds; [None] is [NaN]. *)
Definition remainingText (diffMs : option Z) : string :=
  match diffMs with
  | None => "NaNs"
  | Some diff =>
      if diff <? 0 then "-"
      else
        let seconds := diff / 1000 in
        let minutes := seconds / 60 in
        let hours := minutes / 60 in
        let days := hours / 24 in
        if 0 <? days then num days ++ "d" else if 0 <? hours then num hours ++ "h"
        else if 0 <? minutes then num minutes ++ "m" else num seconds ++ "s"
  end.

Definition getTimeRemaining (targetTime : string) : M DB string :=
  now ← systemMs;
  mret (remainingText (option_map (fun target => target - now) (parseDate (pl_otherDate pl) targetTime))).

Definition payloadOf (options : Options) : outcome jsval :=
  match ifPresent (firstOption options "payload") with Some text => ps_jsonParse p text | None => Ok (JObj []) end.

Definition delegationOf (options : Options) : option string := ifPresent (firstOption options "delegation").

Definition jobLines (job : Job) : list string :=
  ["id: " ++ j_id job; "type: " ++ j_type job; "status: " ++ jobStatusText (j_status job); "runAt: " ++ j_runAt job].

Definition jobEnqueue (service : JobService DB) (operator : M DB VerifiedPrincipal) (rest : list string) : Cli DB Z :=
  options ← settled (parseOptions rest);
  tenantId ← required_ options "tenant";
  type ← required_ options "type";
  payload ← settled (payloadOf options);
  principal ← serving operator;
  job ← serving (Jobs.enqueue service (mkCreateJob (Some tenantId) type payload None None (delegationOf options) []) (CVerified principal));
  told (jobLines job).

Definition jobSchedule (service : JobService DB) (operator : M DB VerifiedPrincipal) (rest : list string) : Cli DB Z :=
  options ← settled (parseOptions rest);
  tenantId ← required_ options "tenant";
  type ← required_ options "type";
  runAt ← required_ options "run-at";
  payload ← settled (payloadOf options);
  principal ← serving operator;
  job ← serving (Jobs.schedule service (mkCreateJob (Some tenantId) type payload (Some runAt) None (delegationOf options) []) (CVerified principal));
  told (jobLines job).

Definition jobScheduleRecurring (service : JobService DB) (operator : M DB VerifiedPrincipal) (rest : list string) : Cli DB Z :=
  options ← settled (parseOptions rest);
  tenantId ← required_ options "tenant";
  type ← required_ options "type";
  interval ← required_ options "interval";
  payload ← settled (payloadOf options);
  principal ← serving operator;
  schedule ← serving (Jobs.scheduleRecurring service (mkRecurring (Some tenantId) type payload interval (delegationOf options) None []) (CVerified principal));
  told ["id: " ++ s_id schedule; "type: " ++ s_type schedule; "interval: " ++ s_interval schedule; "nextRunAt: " ++ s_nextRunAt schedule].

(** When a job runs next: each line asks the clock again. *)
Definition jobLine (job : Job) : M DB string :=
  runIn ← match j_status job, ifPresent (j_nextAttemptAt job) with
          | JRunning, _ => mret "now"
          | JRetrying, Some at_ => getTimeRemaining at_
          | _, _ => getTimeRemaining (j_runAt job)
          end;
  mret (j_id job ++ tab ++ j_type job ++ tab ++ jobStatusText (j_status job) ++ tab ++ runIn ++ tab ++ "attempt="
        ++ num (j_attemptCount job) ++ "/" ++ num (j_maxAttempts job)).

Fixpoint tellEach {A} (line : A -> M DB string) (l : list A) : Cli DB Z :=
  match l with
  | [] => mret 0
  | a :: r => text ← serving (line a); _ ← writeLine text; tellEach line r
  end.

Definition jobList (rest : list string) : Cli DB Z :=
  options ← settled (parseOptions rest);
  tenantId ← required_ options "tenant";
  jobs ← serving (Jobs.listJobs tenantId);
  tellEach jobLine jobs.

Definition jobGet (rest : list string) : Cli DB Z :=
  '(id, options) ← idAndOptions rest "Missing job id.";
  tenantId ← required_ options "tenant";
  found ← serving (Jobs.getJob tenantId id);
  match found with
  | None => notFound "Job not found."
  | Some job =>
      told (jobLines job
            ++ [("attemptCount: " ++ num (j_attemptCount job))%string; ("maxAttempts: " ++ num (j_maxAttempts job))%string]
            ++ match ifPresent (j_lastError job) with Some text => [("lastError: " ++ text)%string] | None => [] end)%list
  end.

Definition jobRetry (service : JobService DB) (operator : M DB VerifiedPrincipal) (rest : list string) : Cli DB Z :=
  '(id, options) ← idAndOptions rest "Missing job id.";
  tenantId ← required_ options "tenant";
  principal ← serving operator;
  retried ← serving (Jobs.retry service tenantId id (CVerified principal));
  match retried with
  | None => notFound "Job not found."
  | Some job => told ["retried: " ++ j_id job]
  end.

Definition scheduleLine (schedule : JobSchedule) : M DB string :=
  next ← getTimeRemaining (s_nextRunAt schedule);
  mret (s_id schedule ++ tab ++ s_type schedule ++ tab ++ (if s_enabled schedule then "enabled" else "disabled") ++ tab
        ++ s_interval schedule ++ tab ++ "next=" ++ next).

Definition jobSchedules (rest : list string) : Cli DB Z :=
  options ← settled (parseOptions rest);
  tenantId ← required_ options "tenant";
  schedules ← serving (Jobs.listSchedules tenantId);
  tellEach scheduleLine schedules.

Definition jobDisableSchedule (service : JobService DB) (operator : M DB VerifiedPrincipal) (rest : list string) : Cli DB Z :=
  '(id, options) ← idAndOptions rest "Missing schedule id.";
  tenantId ← required_ options "tenant";
  principal ← serving operator;
  disabled ← serving (Jobs.disableSchedule service tenantId id (CVerified principal));
  match disabled with
  | None => notFound "Schedule not found."
  | Some schedule => told ["disabled: " ++ s_id schedule]
  end.

Definition handleJobCommand (action : string) (rest : list string) (operator : M DB VerifiedPrincipal) : Cli DB Z :=
  runtime ← createConfiguredRuntime;
  let service := cliJobs (fst runtime) in
  if String.eqb action "enqueue" then jobEnqueue service operator rest
  else if String.eqb action "schedule" then jobSchedule service operator rest
  else if String.eqb action "schedule-recurring" then jobScheduleRecurring service operator rest
  else if String.eqb action "list" then jobList rest
  else if String.eqb action "get" then jobGet rest
  else if String.eqb action "retry" then jobRetry service operator rest
  else if String.eqb action "schedules" then jobSchedules rest
  else if String.eqb action "disable-schedule" then jobDisableSchedule service operator rest
  else notFound "Usage: appport-runtime job <enqueue|schedule|schedule-recurring|list|get|retry|schedules|disable-schedule>".
End commands.

(** ** [serve] *)

(** [startManagementHost] with the options the command gives it, and the
    signal that ends it. *)
Variable startHost : ResolvedDeployment -> ManagementHostOptions DB -> outcome (ManagementHostRuntime DB).
Variable signal : string.

Fixpoint warnLines (lines : list string) : Cli DB unit :=
  match lines with [] => mret tt | line :: r => _ ← warnLine line; warnLines r end.

Definition handleServeCommand (tokens : list string) : Cli DB Z :=
  options ← settled (parseOptions tokens);
  authority ← settled loadAuthority;
  port ← settled (match ifPresent (firstOption options "port") with
                  | Some text => port ← parsePort (ps_numberOf p) (ps_stringify p) text; Ok (Some port)
                  | None => Ok None
                  end);
  config ← contractIfAny;
  let deployment := resolveDeployment config (ps_env p) (resolveIn (ps_cwd p) ".appport/state") in
  host ← settled (startHost deployment
    (mkHostOptions (ifPresent (firstOption options "host")) port None (authority ≫= ca_authorizer)
       (match authority with Some a => ca_credentials a | None => NoCredentials end) (authority ≫= ca_identify) None));
  _ ← warnLines (mr_log host);
  _ ← warnLines (flat_map (fun x => match x with LogLine line => [line] | _ => [] end) (snd (endHost [Signal signal; CloseCall] false)));
  mret 0.

(** ** [runCli] *)

Definition USAGE : string :=
  "Usage: appport-runtime init [--use api,webhooks,jobs,notifications,files] | appport-runtime config migrate | appport-runtime serve [--host <host>] [--port <port>] | appport-runtime <api-key|webhook|job> <command>".

(** [service]: the key service the caller gives, if any.  The services' own
    closing, when a command has ended, is not part of the model. *)
Definition runCli (argv : list string) (service : option (ApiKeyService DB)) : Cli DB Z :=
  let group := List.nth 0 argv "" in
  let action := List.nth 1 argv "" in
  let rest := tl (tl argv) in
  _ ← settled (rejectActorFlags rest);
  if String.eqb group "init" then handleInitCommand (tl argv)
  else if String.eqb group "config" && String.eqb action "migrate" then handleConfigMigrate
  else if String.eqb group "api-key" then
    config ← contractIfAny;
    gateway ← settled (operatorGateway (applicationIn config));
    match service with
    | Some keys => handleApiKeyCommand action rest keys (operatorPrincipal keys None)
    | None =>
        keys ← createConfiguredApiKeyService gateway;
        handleApiKeyCommand action rest keys (operatorPrincipal keys (Some gateway))
    end
  else if String.eqb group "webhook" then
    config ← contractIfAny;
    gateway ← settled (operatorGateway (applicationIn config));
    keys ← settled (operatorKeys (applicationIn config));
    handleWebhookCommand gateway action rest (operatorPrincipal keys (Some gateway))
  else if String.eqb group "job" then
    config ← contractIfAny;
    gateway ← settled (operatorGateway (applicationIn config));
    keys ← settled (operatorKeys (applicationIn config));
    handleJobCommand gateway action rest (operatorPrincipal keys (Some gateway))
  else if String.eqb group "serve" then
    _ ← settled (rejectActorFlags (tl argv));
    handleServeCommand (tl argv)
  else notFound USAGE.
End process.
