(* ===== verification/CliProps.v ===== *)
(** * CliProps: what the command line guarantees

    Options read back as they were given; the contract [init] writes says what
    was selected; and no command changes the services' state without an
    operator whom AuthBoundry admits. *)

From S2P Require Import Prelude JsString JsTime Errors Models Store Calm MemStore Principal Manifest Evidence Gateway GatewayFacts Jobs ApiKeys KeyAuth Webhooks WebhookFacts Extensions Dsl DslProps Platform AppPort Invoke InvokeProps Ui Management ManagementProps HttpAdapter Wiring WiringProps Host HostProps Cli Demo.
From Stdlib Require Import ZArith Lia Ascii.
Local Open Scope string_scope.
Local Open Scope Z_scope.

(** ** Options *)

(** The tokens of options with their values, and what may be such a value. *)
Definition spelled (l : list (string * string)) : list string := flat_map (fun o => ["--" ++ fst o; snd o]) l.

Definition isValue (o : string * string) : Prop := truthy (snd o) = true /\ startsWith (snd o) "--" = false.

Definition valuesOf (l : list (string * string)) (key : string) : list string :=
  map snd (List.filter (fun o => String.eqb (fst o) key) l).

Lemma arrayOption_push options key value k :
  arrayOption (pushOption options key value) k = (arrayOption options k ++ if String.eqb key k then [value] else [])%list.
Proof.
  induction options as [|[k' values] r IH]; cbn [pushOption arrayOption].
  - destruct (String.eqb key k); reflexivity.
  - destruct (String.eqb_spec k' key) as [->|Hk]; cbn [arrayOption].
    + destruct (String.eqb key k); [reflexivity | now rewrite app_nil_r].
    + rewrite IH. destruct (String.eqb_spec k' k) as [->|]; [|reflexivity].
      destruct (String.eqb_spec key k); [congruence | now rewrite app_nil_r].
Qed.

Lemma dashes_key token : startsWith token "--" = true -> token = "--" ++ sliceFrom 2 token.
Proof. intros H. exact (startsWith_split token "--" H). Qed.

Lemma startsWith_dashes key : startsWith ("--" ++ key) "--" = true /\ sliceFrom 2 ("--" ++ key) = key.
Proof. split; destruct key; reflexivity. Qed.

Lemma parseFrom_spelled l : Forall isValue l -> forall options, exists out, parseFrom (spelled l) options = Ok out /\
  forall key, arrayOption out key = (arrayOption options key ++ valuesOf l key)%list.
Proof.
  induction 1 as [|[k v] l [Hv Hd] _ IH]; intros options; cbn [spelled flat_map app parseFrom].
  - exists options. split; [reflexivity|]. intros key. cbn. now rewrite app_nil_r.
  - cbn [fst snd]. destruct (startsWith_dashes k) as [-> ->]. cbn [snd] in Hv, Hd. rewrite Hv, Hd. cbn [negb orb].
    destruct (IH (pushOption options k v)) as (out & E & Hout). exists out. split; [exact E|]. intros key.
    rewrite Hout, arrayOption_push, <- app_assoc. unfold valuesOf. cbn [List.filter fst]. destruct (String.eqb k key); reflexivity.
Qed.

Lemma parseFrom_only n : forall tokens options out, (length tokens <= n)%nat -> parseFrom tokens options = Ok out ->
  exists l, Forall isValue l /\ tokens = spelled l.
Proof.
  induction n as [|n IH]; intros [|token [|value r]] options out Hn E; cbn [length] in Hn; try lia;
    try (exists []; split; [constructor | reflexivity]); cbn [parseFrom] in E.
  - destruct (negb _); discriminate E.
  - destruct (startsWith token "--") eqn:Et; cbn [negb] in E; [|discriminate E].
    destruct (truthy value) eqn:Ev; cbn [negb orb] in E; [|discriminate E].
    destruct (startsWith value "--") eqn:Ed; [discriminate E|].
    destruct (IH r _ _ ltac:(lia) E) as (l & Hl & ->). exists ((sliceFrom 2 token, value) :: l). split.
    + constructor; [split; assumption | exact Hl].
    + cbn [spelled flat_map app fst snd]. now rewrite <- (dashes_key token Et).
Qed.

(** C34: Options read back as they were given.  Any sequence of options, each
    with a value that is not empty and does not look like an option, is
    accepted, and each name then has exactly its values in the order they were
    given; and nothing else is accepted. *)
Theorem options_read_back tokens :
  (forall l, Forall isValue l -> tokens = spelled l ->
     exists options, parseOptions tokens = Ok options /\ forall key, arrayOption options key = valuesOf l key) /\
  (forall options, parseOptions tokens = Ok options -> exists l, Forall isValue l /\ tokens = spelled l).
Proof.
  split.
  - intros l Hl ->. destruct (parseFrom_spelled l Hl []) as (out & E & Hout). now exists out.
  - intros options E. exact (parseFrom_only _ tokens [] options (Nat.le_refl _) E).
Qed.

(** ** Ports and times *)

Lemma parsePort_exact numberOf stringify text port : parsePort numberOf stringify text = Ok port <->
  numberOf text = JInt port /\ 0 <= port <= 65535.
Proof.
  unfold parsePort. destruct (numberOf text); try (split; [discriminate | intros [[=] _]]).
  destruct (Z.ltb_spec z 0), (Z.ltb_spec 65535 z); cbn [orb]; split; (discriminate || (intros [[= ->] ?]; lia) || idtac).
  - intros [= ->]. split; [reflexivity | lia].
  - intros [[= ->] _]. reflexivity.
Qed.

(** What is left is told in whole days, hours, minutes or seconds, in the
    largest of them that is at least one. *)
Lemma remainingText_exact diff : 0 <= diff ->
  exists n unit letter, remainingText (Some diff) = num n ++ letter /\ In (unit, letter) [(86400000, "d"); (3600000, "h"); (60000, "m"); (1000, "s")] /\
    n * unit <= diff < (n + 1) * unit /\
    (0 < n \/ (n = 0 /\ letter = "s")) /\
    (forall unit' letter', In (unit', letter') [(86400000, "d"); (3600000, "h"); (60000, "m"); (1000, "s")] -> unit < unit' -> diff < unit').
Proof.
  intros Hd. unfold remainingText. destruct (Z.ltb_spec diff 0) as [|_]; [lia|].
  rewrite !Z.div_div by lia. change (1000 * (60 * (60 * 24))) with 86400000. change (1000 * (60 * 60)) with 3600000. change (1000 * 60) with 60000.
  assert (forall u, 0 < u -> diff / u * u <= diff < (diff / u + 1) * u) as Hb
    by (intros u Hu; pose proof (Z.div_mod diff u ltac:(lia)); pose proof (Z.mod_pos_bound diff u Hu); nia).
  assert (forall u, 0 < u -> 0 <= diff / u) as Hn by (intros u Hu; apply Z.div_pos; lia).
  assert (forall u, 0 < u -> (0 <? diff / u) = false -> diff < u) as Hs
    by (intros u Hu Hlt; apply Z.ltb_ge in Hlt; specialize (Hb u Hu); specialize (Hn u Hu); nia).
  pose proof (Hb 86400000 ltac:(lia)). pose proof (Hb 3600000 ltac:(lia)). pose proof (Hb 60000 ltac:(lia)). pose proof (Hb 1000 ltac:(lia)).
  destruct (0 <? diff / 86400000) eqn:E1; [|destruct (0 <? diff / 3600000) eqn:E2; [|destruct (0 <? diff / 60000) eqn:E3]].
  all: eexists _, _, _; split; [reflexivity|]; split; [cbn; auto 10|]; split; [assumption|].
  all: split; [|intros unit' letter' Hin Hlt; cbn in Hin; repeat destruct Hin as [[= <- <-]|Hin]; try lia; try (apply Hs; [lia | assumption]); destruct Hin].
  1-3: left; apply Z.ltb_lt; assumption.
  destruct (Z.eq_dec (diff / 1000) 0) as [->|]; [right; now split | left; specialize (Hn 1000 ltac:(lia)); lia].
Qed.

(** ** The contract that [init] writes *)

Definition noNewline (s : string) : bool := all (fun c => negb (Ascii.eqb c "010"%char)) s.

Lemma splitOn_line s r : noNewline s = true -> splitOn "010" (s ++ String "010" r) = s :: splitOn "010" r.
Proof.
  unfold noNewline. induction s as [|c s IH]; [reflexivity|]. change (String c s ++ String "010" r) with (String c (s ++ String "010" r)).
  cbn [all splitOn]. destruct (Ascii.eqb c "010"%char); [discriminate|]. intros H. now rewrite (IH H).
Qed.

Lemma splitOn_one s : noNewline s = true -> splitOn "010" s = [s].
Proof.
  unfold noNewline. induction s as [|c s IH]; cbn; [reflexivity|]. destruct (Ascii.eqb c "010"%char); cbn; [discriminate|].
  intros H. now rewrite (IH H).
Qed.

Lemma splitOn_joinLines lines : lines <> [] -> Forall (fun s => noNewline s = true) lines -> splitOn "010" (joinLines lines) = lines.
Proof.
  intros Hn Hl. induction Hl as [|s r Hs Hr IH]; [congruence|]. destruct r as [|s' r]; [exact (splitOn_one s Hs)|].
  change (joinLines (s :: s' :: r)) with (s ++ String "010" (joinLines (s' :: r))). transitivity (s :: splitOn "010" (joinLines (s' :: r))); [exact (splitOn_line s (joinLines (s' :: r)) Hs) | rewrite IH; [reflexivity | discriminate]].
Qed.

(** A line that holds no newline and is no [use] line. *)
Definition plain (line : string) : bool := noNewline line && match useLine (trim line) with None => true | Some _ => false end.

Lemma trim_first c s : isSpace c = false -> exists r, trim (String c s) = String c r.
Proof.
  intros Hc. unfold trim. cbn [trimStart]. rewrite Hc. cbn [trimEnd]. destruct (trimEnd s); [rewrite Hc|]; eexists; reflexivity.
Qed.

Lemma plain_first c s : isSpace c = false -> Ascii.eqb "u"%char c = false -> noNewline (String c s) = true -> plain (String c s) = true.
Proof.
  intros Hc Hu Hn. unfold plain. rewrite Hn. destruct (trim_first c s Hc) as [r ->]. unfold useLine, startsWith. cbn [String.prefix].
  assert (c <> "u"%char) as Hneq by (intros ->; discriminate Hu). destruct (ascii_dec "u" c); [congruence | reflexivity].
Qed.

Lemma noNewline_app a b : noNewline (a ++ b) = noNewline a && noNewline b.
Proof. apply all_append. Qed.

Lemma nameChar_noNewline name : all nameChar name = true -> noNewline name = true.
Proof.
  unfold noNewline. induction name as [|c s IH]; cbn; [reflexivity|]. intros H. apply andb_true_iff in H as [Hc Hs].
  rewrite (IH Hs), andb_true_r. destruct (Ascii.eqb_spec c "010"%char) as [->|]; [discriminate Hc | reflexivity].
Qed.

Lemma head_plain name : noNewline name = true -> Forall (fun s => plain s = true) (contractHead name).
Proof.
  intros Hn. unfold contractHead.
  repeat (apply List.Forall_cons; [first [vm_compute; reflexivity | apply plain_first; [reflexivity..|];
    unfold quoted; cbn; change (noNewline (name ++ dq) = true); rewrite noNewline_app, Hn; reflexivity]|]). constructor.
Qed.

Lemma section_plain c : Forall (fun s => plain s = true) (sectionLines c).
Proof. apply List.Forall_forall. intros s Hs. revert s Hs. apply forallb_forall. destruct c; vm_compute; reflexivity. Qed.

Lemma rest_plain selected : Forall (fun s => plain s = true) (contractRest selected).
Proof.
  apply List.Forall_forall, forallb_forall. unfold contractRest. destruct (selects selected CapApi); vm_compute; reflexivity.
Qed.

Section scanning.
Variable file : string.
Variable stringify : jsval -> outcome string.

Lemma scan_plain lines : Forall (fun s => plain s = true) lines -> forall uses kept,
  scanLines file stringify (mkScan uses kept None) lines = Ok (mkScan uses (kept ++ lines)%list None).
Proof.
  induction 1 as [|line lines Hl _ IH]; intros uses kept; cbn [scanLines]; [now rewrite app_nil_r|].
  unfold scanLine. cbn [sn_block sn_uses sn_lines]. unfold plain in Hl. apply andb_true_iff in Hl as [_ Hl].
  destruct (useLine (trim line)); [discriminate Hl|]. cbn [mbind outcome_bind]. rewrite IH, <- app_assoc. reflexivity.
Qed.

Lemma scan_use c uses kept : scanLine file stringify (mkScan uses kept None) ("use " ++ capabilityName c) = Ok (mkScan (c :: uses) kept None).
Proof. destruct c; reflexivity. Qed.

Lemma scan_uses selected : forall uses kept,
  scanLines file stringify (mkScan uses kept None) (map (fun c => "use " ++ capabilityName c) selected) = Ok (mkScan (rev selected ++ uses)%list kept None).
Proof.
  induction selected as [|c l IH]; intros uses kept; cbn [map scanLines]; [reflexivity|]. rewrite scan_use. cbn [mbind outcome_bind].
  rewrite IH. cbn [rev]. now rewrite <- app_assoc.
Qed.

Lemma scanLines_app l r st : scanLines file stringify st (l ++ r) = (st' ← scanLines file stringify st l; scanLines file stringify st' r).
Proof.
  revert st. induction l as [|line l IH]; intros st; cbn [app scanLines]; [reflexivity|]. destruct (scanLine _ _ _ _); cbn [mbind outcome_bind]; [apply IH | reflexivity].
Qed.

Definition tomlLines (name : string) (selected : list AppPortCapabilityName) : list string :=
  (contractHead name ++ flat_map (fun c => if selects selected c then sectionLines c else []) SUPPORTED_CAPABILITIES ++ contractRest selected)%list.

Lemma toml_plain name selected : noNewline name = true -> Forall (fun s => plain s = true) (tomlLines name selected).
Proof.
  intros Hn. apply Forall_app. split; [now apply head_plain|]. apply Forall_app. split; [|apply rest_plain].
  apply List.Forall_forall. intros s Hs. apply in_flat_map in Hs as (c & _ & Hs). destruct (selects selected c); [|destruct Hs].
  exact (proj1 (List.Forall_forall _ _) (section_plain c) s Hs).
Qed.

Lemma contractLines_split name selected :
  contractLines name selected = (tomlLines name selected ++ map (fun c => "use " ++ capabilityName c)%string selected ++ [""])%list.
Proof. unfold contractLines, contractTail, tomlLines. now rewrite <- !app_assoc. Qed.

Lemma contract_noNewline name selected : noNewline name = true -> Forall (fun s => noNewline s = true) (contractLines name selected).
Proof.
  intros Hn. rewrite contractLines_split. apply Forall_app. split; [|apply Forall_app; split].
  - eapply Forall_impl; [exact (toml_plain name selected Hn)|]. intros s Hs. unfold plain in Hs. now apply andb_true_iff in Hs as [Hs _].
  - apply List.Forall_forall. intros s Hs. apply in_map_iff in Hs as (c & <- & _). destruct c; reflexivity.
  - repeat constructor.
Qed.

(** The written contract is read as what was selected, if the name holds no
    newline. *)
Lemma canonicalConfig_scanned name selected : noNewline name = true ->
  scanLines file stringify (mkScan [] [] None) (splitOn "010" (canonicalConfig name selected)) =
  Ok (mkScan (rev selected) (tomlLines name selected ++ [""])%list None).
Proof.
  intros Hn. unfold canonicalConfig. rewrite splitOn_joinLines; [|unfold contractLines; discriminate | now apply contract_noNewline].
  rewrite contractLines_split, scanLines_app, (scan_plain _ (toml_plain name selected Hn)). cbn [mbind outcome_bind].
  rewrite scanLines_app, scan_uses. cbn [mbind outcome_bind]. rewrite app_nil_r, scan_plain; [reflexivity | repeat constructor].
Qed.
End scanning.

(** ** Names are safe *)

Lemma replaceRuns_safe s : forall inside, all nameChar (replaceRuns inside s) = true.
Proof.
  induction s as [|c s IH]; intros inside; cbn [replaceRuns]; [reflexivity|].
  destruct (nameChar c) eqn:Hc; [cbn [all]; now rewrite Hc, IH|]. destruct inside; [apply IH|]. cbn [all]. now rewrite IH.
Qed.

Lemma dropDashes_safe s : all nameChar s = true -> all nameChar (dropDashes s) = true.
Proof.
  induction s as [|c s IH]; intros Hs; [reflexivity|]. unfold dropDashes; fold dropDashes.
  destruct (Ascii.eqb_spec c "-"%char) as [->|Hc].
  - apply IH. cbn [all] in Hs. now apply andb_true_iff in Hs as [_ Hs].
  - destruct c as [[] [] [] [] [] [] [] []]; (exact Hs || (exfalso; now apply Hc)).
Qed.

Lemma dropLastDashes_safe s : all nameChar s = true -> all nameChar (dropLastDashes s) = true.
Proof.
  induction s as [|c s IH]; intros Hs; [reflexivity|]. cbn [all] in Hs. apply andb_true_iff in Hs as [Hc Hs]. specialize (IH Hs).
  cbn [dropLastDashes]. destruct (dropLastDashes s); [destruct (Ascii.eqb c "-"%char); cbn [all]; rewrite ?Hc; reflexivity|].
  cbn [all] in IH |- *. now rewrite Hc.
Qed.

Lemma applicationNameOf_safe candidate : all nameChar (applicationNameOf candidate) = true.
Proof.
  unfold applicationNameOf. pose proof (dropLastDashes_safe _ (dropDashes_safe _ (replaceRuns_safe (toLowerCase candidate) false))) as Hs.
  destruct (dropLastDashes _); [reflexivity | exact Hs].
Qed.

(** ** Steps of a command *)

Section steps.
Context {DB : Type}.

(** A step that does nothing to the services or to any file. *)
Definition prints {A} (m : Cli DB A) : Prop := forall console w, (m console w).1.2 = w /\ co_files (m console w).1.1 = co_files console.

Lemma prints_ret {A} (a : A) : prints (mret a).
Proof. now intros console w. Qed.

Lemma prints_settled {A} (o : outcome A) : prints (settled o).
Proof. now intros console w. Qed.

Lemma prints_files : prints storedFiles.
Proof. now intros console w. Qed.

Lemma prints_line line : prints (writeLine line).
Proof. now intros console w. Qed.

Lemma prints_warn line : prints (warnLine line).
Proof. now intros console w. Qed.

Lemma prints_bind {A B} (m : Cli DB A) (k : A -> Cli DB B) : prints m -> (forall a, prints (k a)) -> prints (m ≫= k).
Proof.
  intros Hm Hk console w. unfold mbind, Cli_bind. destruct (Hm console w) as [Hw Hf]. destruct (m console w) as [[console1 w1] [a|e]];
    cbn [fst snd] in *; [|split; assumption].
  subst w1. destruct (Hk a console1 w) as [Hw' Hf']. split; [exact Hw' | congruence].
Qed.

Lemma cli_bind_ok {A B} (m : Cli DB A) (k : A -> Cli DB B) console w console' w' b : (m ≫= k) console w = (console', w', Ok b) ->
  exists console1 w1 a, m console w = (console1, w1, Ok a) /\ k a console1 w1 = (console', w', Ok b).
Proof.
  unfold mbind, Cli_bind. destruct (m console w) as [[console1 w1] [a|e]]; [|discriminate]. intros E. now exists console1, w1, a.
Qed.

Lemma prints_ok {A} (m : Cli DB A) console w console' w' a : prints m -> m console w = (console', w', Ok a) ->
  w' = w /\ co_files console' = co_files console.
Proof. intros Hm E. specialize (Hm console w). rewrite E in Hm. exact Hm. Qed.

Lemma settled_ok {A} (o : outcome A) console w console' w' a : settled (DB := DB) o console w = (console', w', Ok a) ->
  console' = console /\ w' = w /\ o = Ok a.
Proof. unfold settled. intros [= <- <- ->]. auto. Qed.

Lemma writeFile_ok exclusive path text console w console' w' : writeFile (DB := DB) exclusive path text console w = (console', w', Ok tt) ->
  w' = w /\ co_files console' = <[path := text]> (co_files console) /\ (exclusive = true -> co_files console !! path = None).
Proof.
  unfold writeFile. destruct (co_files console !! path) eqn:Ef, exclusive; intros [= <- <-]; cbn [co_files]; repeat split; (discriminate || auto).
Qed.
End steps.
Create HintDb prints discriminated.
#[export] Hint Resolve prints_ret prints_settled prints_files prints_line prints_warn : prints.

Ltac printing := repeat first [ progress eauto with prints | apply prints_bind; [|intros ?] | case_match ].

Section init.
Context {DB : Type} `{FeltDBLaws DB}.
Variable p : Process DB.

Lemma askCapabilities_prints answer prompts : forall n, prints (askCapabilities (DB := DB) answer n prompts).
Proof. induction prompts as [|[capability label] r IH]; intros n; cbn [askCapabilities]; printing. Qed.

Lemma configureCapabilities_prints : prints (configureCapabilities p).
Proof.
  unfold configureCapabilities. destruct (ps_answer p); [|apply prints_ret].
  apply prints_bind; [apply prints_line | intros _; apply askCapabilities_prints].
Qed.

Lemma detect_ok console w console' w' name : detectFlowApplicationName p console w = (console', w', Ok name) ->
  console' = console /\ w' = w /\ all nameChar name = true.
Proof.
  intros E. apply cli_bind_ok in E as (c1 & w1 & fs & E1 & E). injection E1 as <- <- <-. injection E as <- <- <-.
  split; [reflexivity|]. split; [reflexivity | apply applicationNameOf_safe].
Qed.

Lemma absent_ok paths : forall console w console' w', assertFilesDoNotExist (DB := DB) paths console w = (console', w', Ok tt) ->
  console' = console /\ w' = w /\ Forall (fun path => co_files console !! path = None) paths.
Proof.
  induction paths as [|path r IH]; intros console w console' w' E; cbn [assertFilesDoNotExist] in E.
  - injection E as <- <-. auto.
  - apply cli_bind_ok in E as (c1 & w1 & fs & E1 & E). injection E1 as <- <- <-.
    destruct (co_files console !! path) eqn:Ef; [discriminate E|]. apply IH in E as (-> & -> & Hr). auto.
Qed.

Lemma chosen_exact capabilities c : In c (chosen capabilities) <-> In c SUPPORTED_CAPABILITIES /\ In (capabilityName c) capabilities.
Proof.
  unfold chosen. rewrite List.filter_In. split; intros [Hs Hc]; (split; [exact Hs|]).
  - apply existsb_exists in Hc as (x & Hx & Hc). apply String.eqb_eq in Hc as ->. exact Hx.
  - apply existsb_exists. exists (capabilityName c). split; [exact Hc | apply String.eqb_refl].
Qed.

Lemma resolveIn_apart a b : a <> b -> resolveIn (ps_cwd p) a <> resolveIn (ps_cwd p) b.
Proof.
  intros Hn. unfold resolveIn. assert (forall x y z : string, x ++ y = x ++ z -> y = z) as Hinj.
  { induction x as [|c x IH]; intros y z E; [exact E|]. injection E as E. exact (IH y z E). }
  destruct (String.eqb (ps_cwd p) "/"); intros E; [now apply Hinj in E|]. apply Hinj, Hinj in E. congruence.
Qed.

(** What the answers at the terminal select. *)
Lemma askCapabilities_ok answer prompts n : forall console w console' w' l,
  askCapabilities (DB := DB) answer n prompts console w = (console', w', Ok l) ->
  forall name, In name l <-> exists k, nth_error (map fst prompts) k = Some name /\
    In (toLowerCase (trim (answer (n + k)%nat))) [""; "y"; "yes"].
Proof.
  revert n. induction prompts as [|[capability label] r IH]; intros n console w console' w' l E name; cbn [askCapabilities] in E.
  - injection E as <- <- <-. split; [intros [] | intros ([|k] & Hk & _); discriminate Hk].
  - apply cli_bind_ok in E as (c1 & w1 & [] & _ & E). cbv zeta in E.
    assert (forall q, (exists k, nth_error (map fst r) k = Some name /\ q (S n + k)%nat) <->
      exists k, (0 < k)%nat /\ nth_error (map fst ((capability, label) :: r)) k = Some name /\ q (n + k)%nat) as Hshift.
    { intros q. split.
      - intros (k & Hk & Ha). exists (S k). split; [lia|]. split; [exact Hk | now rewrite Nat.add_succ_r].
      - intros ([|k] & Hp0 & Hk & Ha); [lia|]. exists k. split; [exact Hk | now rewrite Nat.add_succ_r in Ha]. }
    destruct (existsb _ [""; "y"; "yes"]) eqn:Ey.
    + apply cli_bind_ok in E as (c2 & w2 & l' & E2 & E). injection E as <- <- <-. cbn [In].
      rewrite (IH _ _ _ _ _ _ E2), (Hshift (fun k => In (toLowerCase (trim (answer k))) [""; "y"; "yes"])). split.
      * intros [->|(k & _ & Hk)]; [|exists k; exact Hk]. exists O. split; [reflexivity|]. rewrite Nat.add_0_r.
        apply existsb_exists in Ey as (x & Hx & Ex). apply String.eqb_eq in Ex. now rewrite Ex.
      * intros ([|k] & Hk & Ha); [left; now injection Hk | right; exists (S k); split; [lia | auto]].
    + destruct (existsb _ ["n"; "no"]); [|discriminate E]. rewrite (IH _ _ _ _ _ _ E), (Hshift (fun k => In (toLowerCase (trim (answer k))) [""; "y"; "yes"])).
      split; [intros (k & _ & Hk); exists k; exact Hk|]. intros ([|k] & Hk & Ha); [|exists (S k); split; [lia | auto]].
      rewrite Nat.add_0_r in Ha. exfalso. rewrite <- not_true_iff_false in Ey. apply Ey, existsb_exists.
      eexists. split; [exact Ha | apply String.eqb_refl].
Qed.

(** What [init] is asked for: the names in the [--use] values, separated by
    commas; without any, the defaults, or at a terminal the names whose
    question was answered with yes. *)
Definition wanted (options : list (string * list string)) (name : string) : Prop :=
  match arrayOption options "use" with
  | [] => match ps_answer p with
          | None => In name ["api"; "webhooks"; "jobs"]
          | Some answer => exists k, nth_error ["api"; "webhooks"; "jobs"; "files"] k = Some name /\
              In (toLowerCase (trim (answer k))) [""; "y"; "yes"]
          end
  | values => exists value piece, In value values /\ In piece (splitOn "," value) /\ trim piece = name
  end.

Lemma asked_wanted options console w console' w' capabilities :
  match flat_map (splitOn ",") (arrayOption options "use") with
  | [] => configureCapabilities p
  | requested => mret (List.filter truthy (map trim requested))
  end console w = (console', w', Ok capabilities) ->
  forall name, In name capabilities <-> wanted options name /\ (name <> "").
Proof.
  intros E name. unfold wanted. destruct (arrayOption options "use") as [|v r] eqn:Eu.
  - cbn [flat_map] in E. unfold configureCapabilities in E. destruct (ps_answer p) as [answer|].
    + apply cli_bind_ok in E as (c1 & w1 & [] & _ & E). rewrite (askCapabilities_ok _ _ _ _ _ _ _ _ E). cbn [map fst].
      split; [|intros [Hw _]; exact Hw]. intros (k & Hk & Ha). split; [eauto|].
      destruct k as [|[|[|[|[|k]]]]]; cbn in Hk; first [discriminate Hk | injection Hk as <-; discriminate].
    + injection E as <- <- <-. unfold DEFAULT_CAPABILITIES. split; [|intros [Hw _]; exact Hw]. intros Hin. split; [exact Hin|].
      cbn in Hin. destruct Hin as [<-|[<-|[<-|[]]]]; discriminate.
  - destruct (flat_map (splitOn ",") (v :: r)) as [|a l] eqn:Ew.
    + exfalso. cbn [flat_map] in Ew. destruct v as [|ch v]; [discriminate Ew|]. cbn [splitOn] in Ew.
      destruct (Ascii.eqb ch ","); [discriminate Ew|]. destruct (splitOn "," v); discriminate Ew.
    + assert (capabilities = List.filter truthy (map trim (flat_map (splitOn ",") (v :: r)))) as -> by (rewrite Ew; now injection E).
      rewrite List.filter_In, in_map_iff. unfold truthy. rewrite negb_true_iff, String.eqb_neq.
      split; intros [Hw Hne]; (split; [|exact Hne]).
      * destruct Hw as (piece & Ht & Hp). apply in_flat_map in Hp as (value & Hv & Hp). eauto.
      * destruct Hw as (value & piece & Hv & Hp & Ht). exists piece. split; [exact Ht|]. apply in_flat_map. eauto.
Qed.

(** C33: The contract [init] writes says what was asked for.  When [init]
    succeeds there was neither a contract nor a flow file, the services'
    state is as before, and the two files are all that was written; [--use] is
    the only option; and the application reads of this contract, line by line,
    exactly the capabilities that were asked for ([wanted]: those named by
    [--use]; without it the defaults, or at a terminal those answered with
    yes), each once, at least one; and every name asked for is one of the five
    that are supported (or empty, between two commas). *)
Theorem init_reads_back file stringify tokens console w console' w' code :
  handleInitCommand p tokens console w = (console', w', Ok code) ->
  exists options text flow st,
    code = 0 /\ w' = w /\ parseOptions tokens = Ok options /\ (forall key values, In (key, values) options -> key = "use") /\
    co_files console !! configPath p = None /\ co_files console !! flowPath p = None /\
    co_files console' = <[flowPath p := flow]> (<[configPath p := text]> (co_files console)) /\ co_files console' !! configPath p = Some text /\
    scanLines file stringify (mkScan [] [] None) (splitOn "010" text) = Ok st /\ sn_block st = None /\
    (forall c, In c (sn_uses st) <-> wanted options (capabilityName c)) /\ List.NoDup (sn_uses st) /\ sn_uses st <> [] /\
    (forall name, wanted options name -> In name [""; "api"; "webhooks"; "jobs"; "notifications"; "files"]).
Proof.
  unfold handleInitCommand. intros E.
  apply cli_bind_ok in E as (c1 & w1 & options & E1 & E). apply settled_ok in E1 as (-> & -> & Eo).
  apply cli_bind_ok in E as (c1 & w1 & u1 & E1 & E). apply settled_ok in E1 as (-> & -> & Eother).
  apply cli_bind_ok in E as (c1 & w1 & capabilities & E1 & E).
  assert (w1 = w /\ co_files c1 = co_files console) as [-> Hf1].
  { refine (prints_ok _ _ _ _ _ _ _ E1). destruct (flat_map _ _); [apply configureCapabilities_prints | apply prints_ret]. }
  apply cli_bind_ok in E as (c2 & w2 & u2 & E2 & E). apply settled_ok in E2 as (-> & -> & En).
  apply cli_bind_ok in E as (c2 & w2 & u3 & E2 & E). apply settled_ok in E2 as (-> & -> & Eu).
  apply cli_bind_ok in E as (c2 & w2 & [] & E2 & E). apply absent_ok in E2 as (-> & -> & Ha).
  apply cli_bind_ok in E as (c2 & w2 & name & E2 & E). apply detect_ok in E2 as (-> & -> & Hname).
  apply cli_bind_ok in E as (c2 & w2 & [] & E2 & E). apply writeFile_ok in E2 as (-> & Hf2 & _).
  apply cli_bind_ok in E as (c3 & w3 & [] & E3 & E). apply cli_bind_ok in E3 as (c4 & w4 & template & E4 & E3).
  apply settled_ok in E4 as (-> & -> & _). apply writeFile_ok in E3 as (-> & Hf3 & _).
  do 3 (apply cli_bind_ok in E as (? & ? & [] & [= <- <-] & E)). injection E as <- <- <-. cbn [co_files].
  pose proof (asked_wanted _ _ _ _ _ _ E1) as Hw.
  assert (forall name, In name capabilities -> In name (map capabilityName SUPPORTED_CAPABILITIES)) as Hknown.
  { intros x Hx. destruct (List.filter _ capabilities) eqn:Ef; [|discriminate Eu].
    destruct (existsb (String.eqb x) (map capabilityName SUPPORTED_CAPABILITIES)) eqn:Hk.
    - apply existsb_exists in Hk as (y & Hy & Hk). apply String.eqb_eq in Hk as ->. exact Hy.
    - assert (In x []) as []. rewrite <- Ef. apply List.filter_In. now rewrite Hk. }
  exists options, (canonicalConfig name (chosen capabilities)).
  eexists _, (mkScan (rev (chosen capabilities)) (tomlLines name (chosen capabilities) ++ [""])%list None).
  rewrite Hf1 in Ha, Hf2. rewrite Hf2 in Hf3. inversion Ha as [|? ? Hc Ha']; subst. inversion Ha' as [|? ? Hfl _]; subst.
  split; [reflexivity|]. split; [reflexivity|]. split; [exact Eo|]. split.
  { intros key values Hin. destruct (List.find _ options) as [[k vs]|] eqn:Ef; [discriminate Eother|].
    apply (List.find_none _ _ Ef) in Hin. now apply negb_false_iff, String.eqb_eq in Hin. }
  split; [exact Hc|]. split; [exact Hfl|]. split; [exact Hf3|].
  split; [rewrite Hf3, lookup_insert_ne by (apply resolveIn_apart; discriminate); apply lookup_insert_eq|].
  split; [apply canonicalConfig_scanned, nameChar_noNewline, Hname|]. split; [reflexivity|]. cbn [sn_uses].
  assert (forall c, In c (rev (chosen capabilities)) <-> wanted options (capabilityName c)) as Hexact.
  { intros c. rewrite <- in_rev, chosen_exact. split; [intros [_ Hin]; now apply Hw in Hin as [Hin _]|].
    intros Hc'. assert (In (capabilityName c) capabilities) as Hin by (apply Hw; split; [exact Hc' | now destruct c]).
    split; [|exact Hin]. apply Hknown, in_map_iff in Hin as (c' & Hn & Hin). destruct c', c; try discriminate Hn; exact Hin. }
  split; [exact Hexact|]. split; [apply NoDup_rev, List.NoDup_filter; repeat constructor; cbn; intuition discriminate|]. split.
  - destruct capabilities as [|x r]; [discriminate En|]. pose proof (Hknown x (or_introl eq_refl)) as Hx.
    apply in_map_iff in Hx as (c & Hn & Hs). intros E0. assert (In c (rev (chosen (x :: r)))) as Hin.
    { rewrite <- in_rev. apply chosen_exact. split; [exact Hs | left; now symmetry]. }
    rewrite E0 in Hin. destruct Hin.
  - intros n Hn. destruct (String.eqb_spec n "") as [->|Hne]; [now left|]. right. apply Hknown, Hw. auto.
Qed.
End init.

(** ** Commands and what they do to the services *)

Lemma untouched_keeps_only {DB} `{FeltDBLaws DB} {A} (m : M DB A) : keeps m -> untouched m.
Proof. intros Hm w Hc. destruct (Hm w Hc) as (Hc' & _ & Hd). split; [exact Hc'|]. left. exact Hd. Qed.

Lemma keeps_systemMs {DB} `{FeltDBLaws DB} : keeps systemMs.
Proof.
  intros w Hc. unfold systemMs. cbn [fst]. split; [|split; [later_ctl | reflexivity]].
  eapply calm_ctl; [exact Hc | reflexivity | reflexivity | later_ctl].
Qed.

Section tame.
Context {DB : Type} `{FeltDBLaws DB}.

(** A step that leaves the store as it is, and one that may record a denial. *)
Definition still {A} (m : Cli DB A) : Prop := forall console w, calm w -> calm (m console w).1.2 /\ w_db (m console w).1.2 = w_db w.

Definition tame {A} (m : Cli DB A) : Prop :=
  forall console w, calm w -> calm (m console w).1.2 /\ onlyRefusal (w_db w) (w_db (m console w).1.2).

Lemma still_tame {A} (m : Cli DB A) : still m -> tame m.
Proof. intros Hm console w Hc. destruct (Hm console w Hc) as [Hc' Hd]. split; [exact Hc' | now left]. Qed.

Lemma still_prints {A} (m : Cli DB A) : prints m -> still m.
Proof. intros Hm console w Hc. destruct (Hm console w) as [-> _]. auto. Qed.

Lemma still_write exclusive path text : still (writeFile exclusive path text).
Proof. intros console w Hc. unfold writeFile. destruct (co_files console !! path), exclusive; auto. Qed.

Lemma still_serving {A} (m : M DB A) : keeps m -> still (serving m).
Proof. intros Hm console w Hc. destruct (Hm w Hc) as (Hc' & _ & Hd). unfold serving. destruct (m w); auto. Qed.

Lemma tame_serving {A} (m : M DB A) : untouched m -> tame (serving m).
Proof. intros Hm console w Hc. pose proof (Hm w Hc) as Hw. unfold wp in Hw. unfold serving. destruct (m w); exact Hw. Qed.

Lemma still_bind {A B} (m : Cli DB A) (k : A -> Cli DB B) : still m -> (forall a, still (k a)) -> still (m ≫= k).
Proof.
  intros Hm Hk console w Hc. unfold mbind, Cli_bind. destruct (Hm console w Hc) as [Hc' Hd]. destruct (m console w) as [[c1 w1] [a|e]]; cbn in *; [|auto].
  destruct (Hk a c1 w1 Hc') as [Hc2 Hd2]. split; [exact Hc2 | congruence].
Qed.

Lemma tame_bind {A B} (m : Cli DB A) (k : A -> Cli DB B) : still m -> (forall a, tame (k a)) -> tame (m ≫= k).
Proof.
  intros Hm Hk console w Hc. unfold mbind, Cli_bind. destruct (Hm console w Hc) as [Hc' Hd].
  destruct (m console w) as [[c1 w1] [a|e]]; cbn in *; [|split; [exact Hc' | now left]].
  rewrite <- Hd. exact (Hk a c1 w1 Hc').
Qed.

Lemma tame_then {A B} (m : Cli DB A) (k : A -> Cli DB B) : tame m -> (forall a, still (k a)) -> tame (m ≫= k).
Proof.
  intros Hm Hk console w Hc. unfold mbind, Cli_bind. destruct (Hm console w Hc) as [Hc' Hd].
  destruct (m console w) as [[c1 w1] [a|e]]; cbn in *; [|auto]. destruct (Hk a c1 w1 Hc') as [Hc2 Hd2]. split; [exact Hc2 | now rewrite Hd2].
Qed.

Lemma tame_check {A B} (o : outcome A) (k : A -> Cli DB B) : (forall a, o = Ok a -> tame (k a)) -> tame (a ← settled o; k a).
Proof. intros Hk console w Hc. unfold mbind, Cli_bind, settled. destruct o as [a|e]; [exact (Hk a eq_refl console w Hc) | split; [exact Hc | now left]]. Qed.

Lemma tame_assoc {A B C} (m : Cli DB A) (f : A -> Cli DB B) (k : B -> Cli DB C) : tame (a ← m; b ← f a; k b) -> tame (b ← (a ← m; f a); k b).
Proof. intros Hm console w Hc. pose proof (Hm console w Hc) as Hw. unfold mbind, Cli_bind in *. destruct (m console w) as [[c1 w1] [a|e]]; exact Hw. Qed.

Lemma still_told lines : still (told (DB := DB) lines).
Proof.
  apply still_prints. unfold told. apply prints_bind; [|intros; apply prints_ret].
  induction lines as [|l r IH]; cbn [writeLines]; [apply prints_ret | apply prints_bind; [apply prints_line | intros _; exact IH]].
Qed.

Lemma still_notFound line : still (notFound (DB := DB) line).
Proof. apply still_prints. unfold notFound. apply prints_bind; [apply prints_warn | intros _; apply prints_ret]. Qed.

Lemma still_settled {A} (o : outcome A) : still (settled (DB := DB) o).
Proof. apply still_prints, prints_settled. Qed.

Lemma still_idAndOptions rest missing : still (idAndOptions (DB := DB) rest missing).
Proof.
  apply still_prints. unfold idAndOptions. destruct rest as [|id r]; [apply prints_settled|]. destruct (truthy id); [|apply prints_settled].
  apply prints_bind; [apply prints_settled | intros options; apply prints_ret].
Qed.
End tame.

Create HintDb tame discriminated.
#[export] Hint Resolve still_prints still_write still_told still_notFound still_settled still_idAndOptions : tame.
#[export] Hint Resolve prints_ret prints_settled prints_files prints_line prints_warn : tame.
#[export] Hint Resolve keeps_find keeps_systemMs keeps_get keeps_nowMs keeps_ret : tame.

(** A command up to the service it calls, and after it. *)
Ltac tame_step :=
  lazymatch goal with
  | |- tame (mbind _ (serving _)) => first [ apply tame_bind; [apply still_serving; solve [eauto with tame] | intros ?; cbn beta zeta]
                                           | apply tame_then; [apply tame_serving; solve [eauto with tame] | intros ?; cbn beta zeta] ]
  | |- tame (mbind _ _) => apply tame_bind; [solve [eauto with tame] | intros ?; cbn beta zeta]
  | |- tame (let '(_, _) := ?x in _) => destruct x
  | |- tame (match ?x with _ => _ end) => destruct x
  | |- tame _ => apply still_tame
  | |- still (mbind _ (serving _)) => apply still_bind; [apply still_serving; solve [eauto with tame] | intros ?; cbn beta zeta]
  | |- still (mbind _ _) => apply still_bind; [solve [eauto with tame] | intros ?; cbn beta zeta]
  | |- still (match ?x with _ => _ end) => destruct x
  | |- still _ => solve [eauto with tame]
  end.

(** What AuthBoundry is asked for by a command; [None] for one that only
    reads. *)
Definition commandCapability (group action : string) : option string :=
  match List.find (fun c : string * string * string => String.eqb (fst (fst c)) group && String.eqb (snd (fst c)) action)
    [ ("api-key", "create", "apikeys.create"); ("api-key", "revoke", "apikeys.revoke");
      ("webhook", "create", "webhooks.register"); ("webhook", "disable", "webhooks.remove"); ("webhook", "replay", "webhooks.replay");
      ("job", "enqueue", "jobs.create"); ("job", "schedule", "jobs.create"); ("job", "schedule-recurring", "schedules.create");
      ("job", "retry", "jobs.retry"); ("job", "disable-schedule", "schedules.cancel") ] with
  | Some c => Some (snd c)
  | None => None
  end.

Section commands.
Context {DB : Type} `{FeltDBLaws DB}.
Variable pl : Wiring.Platform DB.
Variable p : Process DB.
Variable g : ServiceGateway DB.
Hypothesis Hhost : hostQuiet g.
Hypothesis Hhooks : platformQuiet (pl_hooks pl).
Variable operator : M DB VerifiedPrincipal.
Hypothesis Hoperator : keeps operator.
(** Who the operator can turn out to be. *)
Variable who : VerifiedPrincipal -> Prop.
Hypothesis Hwho : forall w w' q, operator w = (w', Ok q) -> who q.

Lemma tame_operator {A} (k : VerifiedPrincipal -> Cli DB A) : (forall q, who q -> tame (k q)) -> tame (q ← serving operator; k q).
Proof.
  intros Hk console w Hc. unfold mbind, Cli_bind, serving. destruct (Hoperator w Hc) as (Hc' & _ & Hd).
  destruct (operator w) as [w1 [q|e]] eqn:E; cbn in *; [|split; [exact Hc' | now left]].
  rewrite <- Hd. exact (Hk q (Hwho _ _ _ E) console w1 Hc').
Qed.

Ltac command_step := first [apply tame_operator; intros ? ? | tame_step].

(** AuthBoundry admits no request of the operator for the capability of the
    command. *)
Definition refused (group action : string) : Prop :=
  forall cap q, commandCapability group action = Some cap -> who q -> unadmitted g cap (CVerified q).

Lemma still_required options key : still (required_ (DB := DB) options key).
Proof. apply still_settled. Qed.

Lemma apiKeyCreate_tame service rest : (forall q, who q -> av_authority service = Some g) -> refused "api-key" "create" -> tame (apiKeyCreate pl service operator rest).
Proof.
  intros Hs Hno. assert (forall input q, who q -> untouched (ApiKeys.createApiKey (pl_scrypt pl) (pl_hmac pl) (pl_localeLe pl) (pl_stringOf pl) (pl_otherDate pl)
    service input (CVerified q))) as Hop by (intros input q Hq; apply (createApiKey_untouched g); [exact Hhost | exact (Hs q Hq) | now apply (Hno _ q)]).
  pose proof still_required. unfold apiKeyCreate. repeat command_step.
Qed.

Lemma apiKeyRevoke_tame service rest : (forall q, who q -> av_authority service = Some g) -> refused "api-key" "revoke" -> tame (apiKeyRevoke service operator rest).
Proof.
  intros Hs Hno. assert (forall t i by_ q, who q -> untouched (ApiKeys.revokeApiKey service t i by_ (CVerified q))) as Hop
    by (intros t i by_ q Hq; apply (revokeApiKey_untouched g); [exact Hhost | exact (Hs q Hq) | now apply (Hno _ q)]).
  pose proof still_required. unfold apiKeyRevoke. repeat command_step.
Qed.

Lemma keeps_listApiKeys le service t : keeps (ApiKeys.listApiKeys le service t None).
Proof. unfold ApiKeys.listApiKeys, ks_list. apply keeps_bind; [apply keeps_find | intros a]. apply keeps_bind; [apply keeps_nowMs | intros; apply keeps_ret]. Qed.

Lemma apiKeyList_still service rest : still (apiKeyList pl service rest).
Proof. pose proof still_required. pose proof keeps_listApiKeys. unfold apiKeyList. repeat command_step. Qed.

Lemma handleApiKey_tame action rest service : (forall q, who q -> av_authority service = Some g) -> refused "api-key" action ->
  tame (handleApiKeyCommand pl action rest service operator).
Proof.
  intros Hs Hno. unfold handleApiKeyCommand. destruct (String.eqb_spec action "create") as [->|]; [now apply apiKeyCreate_tame|].
  destruct (String.eqb_spec action "list"); [apply still_tame, apiKeyList_still|].
  destruct (String.eqb_spec action "revoke") as [->|]; [now apply apiKeyRevoke_tame | apply still_tame, still_notFound].
Qed.

Lemma webhookCreate_tame service rest : hs_authority service = Some g -> refused "webhook" "create" -> tame (webhookCreate pl service operator rest).
Proof.
  intros Hs Hno. assert (forall input q, who q -> untouched (Webhooks.createWebhookEndpoint (pl_hooks pl) service input (CVerified q))) as Hop
    by (intros; now apply (createWebhookEndpoint_untouched pl g), Hno).
  pose proof still_required. unfold webhookCreate. repeat command_step.
Qed.

Lemma webhookDisable_tame service rest : hs_authority service = Some g -> refused "webhook" "disable" -> tame (webhookDisable service operator rest).
Proof.
  intros Hs Hno. assert (forall input q, who q -> untouched (Webhooks.disableWebhookEndpoint service input (CVerified q))) as Hop
    by (intros; now apply (disableWebhookEndpoint_untouched g), Hno).
  pose proof still_required. unfold webhookDisable. repeat command_step.
Qed.

Lemma webhookReplay_tame service rest : hs_authority service = Some g -> refused "webhook" "replay" -> tame (webhookReplay service operator rest).
Proof.
  intros Hs Hno. assert (forall t i q, who q -> untouched (Webhooks.replayWebhookDelivery service t i (CVerified q))) as Hop
    by (intros; now apply (replayWebhookDelivery_untouched g), Hno).
  pose proof still_required. unfold webhookReplay. repeat command_step.
Qed.

Lemma webhookList_still rest : still (webhookList (DB := DB) rest).
Proof.
  pose proof still_required. assert (forall t, keeps (Webhooks.listWebhookEndpoints t)) as Hop by (intros; apply keeps_find).
  unfold webhookList. repeat command_step.
Qed.

Lemma webhookDeliveries_still rest : still (webhookDeliveries (DB := DB) rest).
Proof.
  pose proof still_required. assert (forall t e n, keeps (Webhooks.listWebhookDeliveries t e n)) as Hop
    by (intros; apply keeps_bind; [apply keeps_find | intros; apply keeps_ret]).
  unfold webhookDeliveries. repeat command_step.
Qed.

Lemma contractIfAny_prints : prints (contractIfAny p).
Proof.
  unfold contractIfAny, readContract. apply prints_bind; [apply prints_files | intros fs]. destruct (fs !! configPath p); [|apply prints_ret].
  apply prints_bind; [|intros; apply prints_ret]. apply prints_bind; [apply prints_files | intros; apply prints_settled].
Qed.

Lemma createConfiguredRuntime_still : still (createConfiguredRuntime p).
Proof. apply still_prints, prints_bind; [apply contractIfAny_prints | intros; apply prints_ret]. Qed.

Lemma handleWebhook_tame action rest : refused "webhook" action -> tame (handleWebhookCommand pl p g action rest operator).
Proof.
  intros Hno. unfold handleWebhookCommand. apply tame_bind; [apply createConfiguredRuntime_still | intros runtime].
  apply tame_check. intros service Es. unfold cliWebhooks in Es. apply newWebhookService_authority in Es.
  destruct (String.eqb_spec action "create") as [->|]; [now apply webhookCreate_tame|].
  destruct (String.eqb_spec action "list"); [apply still_tame, webhookList_still|].
  destruct (String.eqb_spec action "disable") as [->|]; [now apply webhookDisable_tame|].
  destruct (String.eqb_spec action "deliveries"); [apply still_tame, webhookDeliveries_still|].
  destruct (String.eqb_spec action "replay") as [->|]; [now apply webhookReplay_tame | apply still_tame, still_notFound].
Qed.

(** *** Jobs *)

Section jobs.
Variable service : JobService DB.
Hypothesis Hs : jv_authority service = Some g.

Lemma jobEnqueue_tame rest : refused "job" "enqueue" -> tame (jobEnqueue p service operator rest).
Proof.
  intros Hno. assert (forall input q, who q -> untouched (Jobs.enqueue service input (CVerified q))) as Hop by (intros; now apply (enqueue_untouched g), Hno).
  pose proof still_required. unfold jobEnqueue. repeat command_step.
Qed.

Lemma jobSchedule_tame rest : refused "job" "schedule" -> tame (jobSchedule p service operator rest).
Proof.
  intros Hno. assert (forall input q, who q -> untouched (Jobs.schedule service input (CVerified q))) as Hop.
  { intros input q Hq. unfold Jobs.schedule. rewrite Hs. destruct (present _); [now apply (enqueue_untouched g), (Hno _ q) | apply untouched_throw]. }
  pose proof still_required. unfold jobSchedule. repeat command_step.
Qed.

Lemma jobScheduleRecurring_tame rest : refused "job" "schedule-recurring" -> tame (jobScheduleRecurring p service operator rest).
Proof.
  intros Hno. assert (forall input q, who q -> untouched (Jobs.scheduleRecurring service input (CVerified q))) as Hop
    by (intros; now apply (scheduleRecurring_untouched g), Hno).
  pose proof still_required. unfold jobScheduleRecurring. repeat command_step.
Qed.

Lemma jobRetry_tame rest : refused "job" "retry" -> tame (jobRetry service operator rest).
Proof.
  intros Hno. assert (forall t i q, who q -> untouched (Jobs.retry service t i (CVerified q))) as Hop by (intros; now apply (retry_untouched g), Hno).
  pose proof still_required. unfold jobRetry. repeat command_step.
Qed.

Lemma jobDisableSchedule_tame rest : refused "job" "disable-schedule" -> tame (jobDisableSchedule service operator rest).
Proof.
  intros Hno. assert (forall t i q, who q -> untouched (Jobs.disableSchedule service t i (CVerified q))) as Hop
    by (intros; now apply (disableSchedule_untouched g), Hno).
  pose proof still_required. unfold jobDisableSchedule. repeat command_step.
Qed.
End jobs.

Lemma keeps_getTimeRemaining text : keeps (getTimeRemaining pl text).
Proof. apply keeps_bind; [apply keeps_systemMs | intros; apply keeps_ret]. Qed.

Lemma tellEach_still {A} (line : A -> M DB string) l : (forall a, keeps (line a)) -> still (tellEach line l).
Proof.
  intros Hl. induction l as [|a r IH]; cbn [tellEach]; [apply still_prints, prints_ret|].
  apply still_bind; [apply still_serving, Hl | intros text]. apply still_bind; [apply still_prints, prints_line | intros _; exact IH].
Qed.

Lemma jobLine_keeps job : keeps (jobLine pl job).
Proof.
  apply keeps_bind; [|intros; apply keeps_ret].
  destruct (j_status job), (ifPresent (j_nextAttemptAt job)); (apply keeps_getTimeRemaining || apply keeps_ret).
Qed.

Lemma scheduleLine_keeps schedule : keeps (scheduleLine pl schedule).
Proof. apply keeps_bind; [apply keeps_getTimeRemaining | intros; apply keeps_ret]. Qed.

Lemma jobList_still rest : still (jobList pl rest).
Proof.
  pose proof still_required. assert (forall t, keeps (Jobs.listJobs t)) as Hop by (intros; apply keeps_find).
  pose proof (fun l => tellEach_still _ l jobLine_keeps). unfold jobList. repeat command_step.
Qed.

Lemma jobSchedules_still rest : still (jobSchedules pl rest).
Proof.
  pose proof still_required. assert (forall t, keeps (Jobs.listSchedules t)) as Hop by (intros; apply keeps_find).
  pose proof (fun l => tellEach_still _ l scheduleLine_keeps). unfold jobSchedules. repeat command_step.
Qed.

Lemma jobGet_still rest : still (jobGet (DB := DB) rest).
Proof.
  pose proof still_required. assert (forall t i, keeps (Jobs.getJob t i)) as Hop by (intros; apply keeps_js_get).
  unfold jobGet. repeat command_step.
Qed.

Lemma handleJob_tame action rest : refused "job" action -> tame (handleJobCommand pl p g action rest operator).
Proof.
  intros Hno. unfold handleJobCommand. apply tame_bind; [apply createConfiguredRuntime_still | intros runtime]. cbn zeta.
  assert (jv_authority (cliJobs g (fst runtime)) = Some g) as Hs by reflexivity.
  destruct (String.eqb_spec action "enqueue") as [->|]; [now apply jobEnqueue_tame|].
  destruct (String.eqb_spec action "schedule") as [->|]; [now apply jobSchedule_tame|].
  destruct (String.eqb_spec action "schedule-recurring") as [->|]; [now apply jobScheduleRecurring_tame|].
  destruct (String.eqb_spec action "list"); [apply still_tame, jobList_still|].
  destruct (String.eqb_spec action "get"); [apply still_tame, jobGet_still|].
  destruct (String.eqb_spec action "retry") as [->|]; [now apply jobRetry_tame|].
  destruct (String.eqb_spec action "schedules"); [apply still_tame, jobSchedules_still|].
  destruct (String.eqb_spec action "disable-schedule") as [->|]; [now apply jobDisableSchedule_tame | apply still_tame, still_notFound].
Qed.
End commands.

(** ** The command line fails closed *)

Section claims.
Context {DB : Type} `{FeltDBLaws DB}.
Variable pl : Wiring.Platform DB.
Variable p : Process DB.

(** The host's authority writes nothing to this store itself. *)
Definition authorityQuiet : Prop := forall a, loadAuthority p = Ok (Some a) ->
  (forall ask req, ca_authorizer a = Some ask -> keeps (ask req)) /\ (forall who, ca_identify a = Some who -> keeps who).

Lemma operatorGateway_quiet application gateway : authorityQuiet -> operatorGateway p application = Ok gateway -> hostQuiet gateway.
Proof.
  intros Hq E. apply newGateway_made in E as (_ & Ea & Ec). split.
  - intros ask req w Hask Hc. rewrite Ea in Hask. injection Hask as <-. unfold askOperator.
    destruct (loadAuthority p) as [[a|]|e] eqn:El; cbn; try (now apply kept_refl).
    destruct (ca_authorizer a) as [ask|] eqn:Ek; cbn; [exact (proj1 (Hq a El) ask req Ek w Hc) | now apply kept_refl].
  - intros q cap r w Hc. rewrite Ec. exact (proj1 (credentialCheck_spec _ q cap r w Hc)).
Qed.

Lemma keeps_check {A B} (o : outcome A) (k : A -> M DB B) : (forall a, o = Ok a -> keeps (k a)) -> keeps (a ← ofOutcome o; k a).
Proof. intros Hk w Hc. unfold ofOutcome, mbind, M_bind. destruct o as [a|e]; [exact (Hk a eq_refl w Hc) | now apply kept_refl]. Qed.

Lemma operatorPrincipal_keeps keys gateway : authorityQuiet -> ifPresent (ps_apiKey p) = None -> keeps (operatorPrincipal pl p keys gateway).
Proof.
  intros Hq Hk. unfold operatorPrincipal. rewrite Hk. apply keeps_check. intros authority El. apply keeps_bind.
  - destruct authority as [a|]; [|apply keeps_ret]. cbn. destruct (ca_identify a) as [who|] eqn:Ew; [exact (proj2 (Hq a El) who Ew) | apply keeps_ret].
  - intros claims. apply keeps_bind; [apply keeps_outcome | intros [v|]; [apply keeps_ret | apply keeps_throw]].
Qed.

(** *** Commands that only write files *)

Lemma assertFiles_prints paths : prints (assertFilesDoNotExist (DB := DB) paths).
Proof.
  induction paths as [|path r IH]; cbn [assertFilesDoNotExist]; [apply prints_ret|].
  apply prints_bind; [apply prints_files | intros fs]. destruct (fs !! path); [apply prints_settled | exact IH].
Qed.

Lemma detect_prints : prints (detectFlowApplicationName p).
Proof. apply prints_bind; [apply prints_files | intros; apply prints_ret]. Qed.

Lemma readContract_prints : prints (readContract p).
Proof. apply prints_bind; [apply prints_files | intros; apply prints_settled]. Qed.

Lemma writeFlow_still destination name selected exclusive : still (writeFlowContract p destination name selected exclusive).
Proof. apply still_bind; [apply still_settled | intros; apply still_write]. Qed.
#[local] Hint Resolve assertFiles_prints detect_prints readContract_prints writeFlow_still configureCapabilities_prints : tame.

Lemma init_still tokens : still (handleInitCommand p tokens).
Proof.
  unfold handleInitCommand. do 2 tame_step. apply still_bind; [destruct (flat_map _ _); eauto with tame | intros capabilities].
  cbn zeta. repeat tame_step.
Qed.

Lemma migrate_still : still (handleConfigMigrate p).
Proof.
  unfold handleConfigMigrate. tame_step. cbn zeta. do 2 tame_step.
  apply still_bind; [destruct (String.eqb _ _); eauto with tame | intros name]. do 2 tame_step.
  apply still_bind; [match goal with |- still (match ?x with _ => _ end) => destruct x end; eauto with tame | intros u]. repeat tame_step.
Qed.

Lemma warnLines_prints lines : prints (warnLines (DB := DB) lines).
Proof. induction lines as [|l r IH]; cbn [warnLines]; [apply prints_ret | apply prints_bind; [apply prints_warn | intros _; exact IH]]. Qed.

Lemma serve_still startHost signal tokens : still (handleServeCommand p startHost signal tokens).
Proof.
  pose proof warnLines_prints. pose proof (contractIfAny_prints p). unfold handleServeCommand. repeat (tame_step || cbn zeta).
Qed.

(** *** Who the operator is *)

(** An authority the host has set: given to the command line, or exported by
    the module the environment names. *)
Inductive hostAuthority : CliAuthority DB -> Prop :=
| authority_given a : ps_injected p = Some a -> hostAuthority a
| authority_loaded path loaded a : ps_injected p = None -> ps_authority p = Some path -> ps_import p path = Ok loaded ->
    a = lm_own loaded \/ lm_default loaded = Some a -> hostAuthority a.

(** The operator: whom the identity adapter of the host's authority names,
    when it names one, of this application or of none in particular. *)
Definition operatorIs (application : string) (q : VerifiedPrincipal) : Prop :=
  exists a identity claims w w', hostAuthority a /\ ca_identify a = Some identity /\ identity w = (w', Ok (Some claims)) /\
    (pc_applicationId claims = None \/ pc_applicationId claims = Some "" \/ pc_applicationId claims = Some application) /\
    q = mkPrincipal (pc_principalId claims) (pc_principalType claims) (pc_tenantId claims) (ifPresent (pc_applicationId claims))
          (ifPresent (pc_credentialId claims)) (ifPresent (pc_delegationId claims)) (ifPresent (pc_runId claims)) ByHost false.

(** AuthBoundry answers no request of the operator for the capability of the
    command with a decision on that request that allows it. *)
Definition operatorRefused (application group action : string) : Prop :=
  forall a ask cap q request w w' d, hostAuthority a -> ca_authorizer a = Some ask ->
    commandCapability group action = Some cap -> operatorIs application q ->
    rq_application_id request = application -> rq_capability request = cap -> rq_subject_id request = vp_principalId q ->
    rq_subject_kind request = vp_principalType q -> rq_tenant_id request = vp_tenantId q ->
    ask request w = (w', Ok (Decides (Some d))) -> decisionMatches request d = true -> dc_allowed d <> JBool true.

Lemma loadAuthority_host a : loadAuthority p = Ok (Some a) -> hostAuthority a.
Proof.
  unfold loadAuthority. destruct (ps_injected p) as [b|] eqn:Ei; [intros [= <-]; now constructor|].
  destruct (ps_authority p) as [path|] eqn:Ea; [|discriminate]. cbn [ifPresent]. destruct (truthy path); [|discriminate].
  destruct (ps_import p path) as [loaded|e] eqn:El; [|discriminate]. cbn.
  destruct (ca_authorizer (lm_own loaded)) eqn:Eo.
  - rewrite Eo. intros [= <-]. eapply authority_loaded; eauto.
  - destruct (lm_default loaded) as [b|] eqn:Ed; [|discriminate]. destruct (ca_authorizer b); [|discriminate].
    intros [= <-]. eapply authority_loaded; eauto.
Qed.

(** Without an API key in the environment the principal of a command is the
    operator, and nobody where there is no gateway to identify with. *)
Lemma operatorPrincipal_is application keys gateway w w' q : ifPresent (ps_apiKey p) = None ->
  (forall g, gateway = Some g -> g_application g = application) ->
  operatorPrincipal pl p keys gateway w = (w', Ok q) -> gateway <> None /\ operatorIs application q.
Proof.
  intros Hk Hg. unfold operatorPrincipal. rewrite Hk. intros E. apply bind_inv in E as (w1 & authority & El & E).
  apply ofOutcome_inv in El as [-> El]. apply bind_inv in E as (w2 & claims & Ec & E).
  apply bind_inv in E as (w3 & principal & Ei & E). apply ofOutcome_inv in Ei as [-> Ei].
  destruct principal as [v|]; [|discriminate E]. injection E as <- ->.
  destruct gateway as [g|]; [|discriminate Ei]. split; [discriminate|]. specialize (Hg g eq_refl).
  destruct claims as [c|]; [|discriminate Ei]. destruct authority as [a|]; [|discriminate Ec]. cbn in Ec.
  destruct (ca_identify a) as [identity|] eqn:Ea; [|discriminate Ec]. apply loadAuthority_host in El.
  exists a, identity, c, w, w2. split; [exact El|]. split; [exact Ea|]. split; [exact Ec|].
  unfold identify in Ei. destruct (_ && _) eqn:Em; [discriminate Ei|]. split.
  - destruct (pc_applicationId c) as [t|]; [right | now left]. unfold present in Em.
    destruct t as [|ch t]; [now left | right]. cbn [truthy andb] in Em. apply negb_false_iff, oeqb_true in Em. now rewrite <- Hg.
  - unfold mintVerifiedPrincipal in Ei. destruct (blank _); [discriminate Ei|]. destruct (blank _); [discriminate Ei|].
    destruct (blank _); [discriminate Ei|]. now injection Ei as <-.
Qed.

Lemma operatorRefused_gateway application group action gateway : operatorGateway p application = Ok gateway ->
  operatorRefused application group action -> refused gateway (operatorIs application) group action.
Proof.
  intros E Hno cap q Hcap Hq r rid c q' (Hc & _ & [= <-] & _ & Ht & _ & _ & d & ask & ts & w1 & w2 & Hask & Hrun & Hm & Hallow).
  apply newGateway_made in E as (Eapp & Ea & _). rewrite Ea in Hask. injection Hask as <-.
  unfold askOperator in Hrun. destruct (loadAuthority p) as [[a|]|e] eqn:El; cbn in Hrun; try discriminate Hrun.
  destruct (ca_authorizer a) as [ask|] eqn:Ek; [|discriminate Hrun]. cbn in Hrun. apply loadAuthority_host in El.
  refine (Hno a ask cap q _ w1 w2 d El Ek Hcap Hq _ _ _ _ _ Hrun Hm Hallow); try reflexivity; [exact Eapp | exact (capability_name _ _ _ Hc) | now symmetry].
Qed.

(** *** Commands on the services *)

Section group.
Hypothesis Hq : authorityQuiet.
Hypothesis Hkey : ifPresent (ps_apiKey p) = None.
Hypothesis Hp : platformQuiet (pl_hooks pl).
Variable config : option AppPortConfig.
Variable action : string.
Variable rest : list string.
#[local] Abbreviation application := (applicationIn config).

Lemma operator_of keys gateway w w' q : operatorGateway p application = Ok gateway ->
  operatorPrincipal pl p keys (Some gateway) w = (w', Ok q) -> operatorIs application q.
Proof.
  intros E Hrun. apply newGateway_made in E as (Eapp & _). now apply (operatorPrincipal_is application) in Hrun as [_ Hi]; [|exact Hkey | intros g [= <-]].
Qed.

(** The steps every group takes after it has read the contract. *)
Lemma webhooks_tame : operatorRefused application "webhook" action ->
  tame (gateway ← settled (operatorGateway p application); keys ← settled (operatorKeys application);
        handleWebhookCommand pl p gateway action rest (operatorPrincipal pl p keys (Some gateway))).
Proof.
  intros Hno. apply tame_check. intros gateway Eg. apply tame_check. intros keys _.
  exact (handleWebhook_tame pl p gateway (operatorGateway_quiet _ _ Hq Eg) Hp _ (operatorPrincipal_keeps _ _ Hq Hkey) (operatorIs application)
    (fun w w' q => operator_of keys gateway w w' q Eg) action rest (operatorRefused_gateway _ _ _ _ Eg Hno)).
Qed.

Lemma jobs_tame : operatorRefused application "job" action ->
  tame (gateway ← settled (operatorGateway p application); keys ← settled (operatorKeys application);
        handleJobCommand pl p gateway action rest (operatorPrincipal pl p keys (Some gateway))).
Proof.
  intros Hno. apply tame_check. intros gateway Eg. apply tame_check. intros keys _.
  exact (handleJob_tame pl p gateway (operatorGateway_quiet _ _ Hq Eg) _ (operatorPrincipal_keeps _ _ Hq Hkey) (operatorIs application)
    (fun w w' q => operator_of keys gateway w w' q Eg) action rest (operatorRefused_gateway _ _ _ _ Eg Hno)).
Qed.

Lemma keys_tame service : (service = None -> operatorRefused application "api-key" action) ->
  tame (gateway ← settled (operatorGateway p application);
        match service with
        | Some keys => handleApiKeyCommand pl action rest keys (operatorPrincipal pl p keys None)
        | None => keys ← createConfiguredApiKeyService p gateway; handleApiKeyCommand pl action rest keys (operatorPrincipal pl p keys (Some gateway))
        end).
Proof.
  intros Hno. apply tame_check. intros gateway Eg. pose proof (operatorGateway_quiet _ _ Hq Eg) as Hhost. destruct service as [keys|].
  - apply (handleApiKey_tame pl gateway Hhost _ (operatorPrincipal_keeps _ _ Hq Hkey) (fun _ => False)); [|intros q [] | intros cap q _ []].
    intros w w' q Hrun. now apply (operatorPrincipal_is application) in Hrun as [Hne _].
  - unfold createConfiguredApiKeyService. apply tame_assoc, tame_bind; [apply createConfiguredRuntime_still | intros runtime].
    apply tame_check. intros keys Ek. apply newApiKeyService_authority in Ek.
    exact (handleApiKey_tame pl gateway Hhost _ (operatorPrincipal_keeps _ _ Hq Hkey) (operatorIs application)
      (fun w w' q => operator_of keys gateway w w' q Eg) action rest keys (fun _ _ => Ek) (operatorRefused_gateway _ _ _ _ Eg (Hno eq_refl))).
Qed.
End group.

(** C32: The command line fails closed.  Whatever is typed, without an API key
    in the environment, no command does anything to the services' store but
    record one denial, unless AuthBoundry allows the operator the capability
    of this very command in the application whose contract is in the
    directory.  The operator is whoever the identity adapter of the host's
    authority names ([operatorIs]); nothing is assumed of other principals.
    So where the adapter names nobody AuthBoundry may allow everything, and
    nothing at all is assumed of it for a command on API keys when the key
    service is given from outside. *)
Theorem cli_fails_closed startHost signal argv service console w :
  ifPresent (ps_apiKey p) = None -> authorityQuiet -> platformQuiet (pl_hooks pl) -> calm w ->
  (forall console1 w1 config, contractIfAny p console w = (console1, w1, Ok config) ->
     service = None \/ List.nth 0 argv "" <> "api-key" ->
     operatorRefused (match config with Some c => ac_application_name c | None => "default" end) (List.nth 0 argv "") (List.nth 1 argv "")) ->
  let w' := (runCli pl p startHost signal argv service console w).1.2 in
  calm w' /\ onlyRefusal (w_db w) (w_db w').
Proof.
  intros Hkey Hq Hp Hc Hno w'. subst w'. unfold runCli.
  assert (forall config console1 w1, contractIfAny p console w = (console1, w1, Ok config) ->
    service = None \/ List.nth 0 argv "" <> "api-key" -> operatorRefused (applicationIn config) (List.nth 0 argv "") (List.nth 1 argv "")) as Hno'
    by (intros config c1 w1 E Hs; specialize (Hno c1 w1 config E Hs); now destruct config). clear Hno.
  set (group := List.nth 0 argv "") in *. set (action := List.nth 1 argv "") in *. set (rest := tl (tl argv)).
  assert (forall k : option AppPortConfig -> Cli DB Z,
    (forall config console1 w1, contractIfAny p console w = (console1, w1, Ok config) -> tame (k config)) ->
    calm ((config ← contractIfAny p; k config) console w).1.2 /\ onlyRefusal (w_db w) (w_db ((config ← contractIfAny p; k config) console w).1.2)) as Hcontract.
  { intros k Hk. pose proof (contractIfAny_prints p console w) as [Hw _]. unfold mbind, Cli_bind.
    destruct (contractIfAny p console w) as [[c1 w1] [config|e]] eqn:E; cbn in Hw; subst w1; [|split; [exact Hc | now left]].
    exact (Hk config c1 w eq_refl c1 w Hc). }
  assert (forall m : Cli DB Z, tame m -> calm (m console w).1.2 /\ onlyRefusal (w_db w) (w_db (m console w).1.2)) as Htame
    by (intros m Hm; exact (Hm console w Hc)).
  destruct (rejectActorFlags rest); [|split; [exact Hc | now left]].
  destruct (String.eqb group "init"); [apply Htame, still_tame, init_still|].
  destruct (String.eqb group "config" && String.eqb action "migrate"); [apply Htame, still_tame, migrate_still|].
  destruct (String.eqb_spec group "api-key") as [Eg|_]; [rewrite Eg in *; apply Hcontract; intros; apply keys_tame; eauto 8|].
  destruct (String.eqb_spec group "webhook") as [Eg|_]; [rewrite Eg in *; apply Hcontract; intros; apply webhooks_tame; eauto; eapply Hno'; eauto; now right|].
  destruct (String.eqb_spec group "job") as [Eg|_]; [rewrite Eg in *; apply Hcontract; intros; apply jobs_tame; eauto; eapply Hno'; eauto; now right|].
  destruct (String.eqb group "serve"); [|apply Htame, still_tame, still_notFound].
  apply Htame. do 2 (apply tame_check; intros ? _). apply still_tame, serve_still.
Qed.
End claims.

(** ** Witnesses *)

(** A process whose adapter says who the operator is, and whose AuthBoundry
    allows or denies. *)
Definition demoAuthority (allowed : bool) : CliAuthority MemDB :=
  mkCliAuthority (Some (demoAnswer allowed)) (Some demoOperator) NoCredentials.

Definition demoProcess (authority : option (CliAuthority MemDB)) : Process MemDB :=
  mkProcess "/srv/app" None None (mkEnv None None None) authority (fun _ => Throw (cliError "no module")) (fun s => quoted s) (fun _ => Ok "null")
    (fun _ => inl [("application", JObj [("name", JStr "app")])]) (fun _ => "error") (fun _ => Ok (JObj [])) (fun _ => JUndef)
    (Ok [("ApiKeys", JNull); ("Jobs", JNull)]) (fun name l => "app " ++ name ++ ": " ++ joinWith ", " (map fst l)) None (fun _ => true).

Definition emptyConsole : Console := mkConsole ∅ [] [].

(** A directory with a contract. *)
Definition contractConsole : Console := mkConsole {["/srv/app/appport.toml" := "use jobs"]} [] [].

Definition noHost : ResolvedDeployment -> ManagementHostOptions MemDB -> outcome (ManagementHostRuntime MemDB) := fun _ _ => Throw (cliError "no host").

#[local] Abbreviation ran authority argv := (runCli demoServices (demoProcess authority) noHost "SIGINT" argv None contractConsole (demo emptyDB)).

Definition enqueueArgs : list string := ["job"; "enqueue"; "--tenant"; "t1"; "--type"; "send.email"].

Lemma options_read_back_witness :
  parseOptions ["--tenant"; "t1"; "--event"; "a"; "--event"; "b"] = Ok [("tenant", ["t1"]); ("event", ["a"; "b"])] /\
  exists options, parseOptions ["--tenant"; "t1"; "--event"; "a"; "--event"; "b"] = Ok options /\ forall key, arrayOption options key = valuesOf [("tenant", "t1"); ("event", "a"); ("event", "b")] key.
Proof.
  split; [reflexivity|].
  refine (proj1 (options_read_back ["--tenant"; "t1"; "--event"; "a"; "--event"; "b"]) [("tenant", "t1"); ("event", "a"); ("event", "b")] _ eq_refl).
  repeat constructor.
Defined.

#[local] Abbreviation demoInit := (handleInitCommand (demoProcess None) ["--use"; "jobs,api"] emptyConsole (demo emptyDB)).

Lemma init_reads_back_witness : demoInit.2 = Ok 0 /\ co_out demoInit.1.1 = ["Created /srv/app/appport.toml"; "Created /srv/app/feltdb.flow"; "Enabled: api, jobs"] /\
  exists text st, co_files demoInit.1.1 !! "/srv/app/appport.toml" = Some text /\
    scanLines "appport.toml" (fun _ => Ok "") (mkScan [] [] None) (splitOn "010" text) = Ok st /\ In CapJobs (sn_uses st) /\ ~ In CapFiles (sn_uses st).
Proof.
  assert (demoInit.2 = Ok 0) as E by (vm_compute; reflexivity). split; [exact E|]. split; [vm_compute; reflexivity|].
  assert (demoInit = (demoInit.1.1, demoInit.1.2, Ok 0)) as Ei
    by (rewrite <- E; exact (eq_trans (surjective_pairing demoInit) (f_equal (fun x => pair x demoInit.2) (surjective_pairing demoInit.1)))).
  destruct (init_reads_back (demoProcess None) "appport.toml" (fun _ => Ok "") ["--use"; "jobs,api"] emptyConsole (demo emptyDB) _ _ 0 Ei)
    as (options & text & flow & st & _ & _ & Ho & _ & _ & _ & _ & Ht & Hst & _ & Hu & _).
  injection Ho as <-. exists text, st. split; [exact Ht|]. split; [exact Hst|]. split.
  - apply Hu. exists "jobs,api", "jobs". split; [now left|]. split; [now left | reflexivity].
  - intros (value & piece & [<-|[]] & Hp & Hn)%Hu. cbn in Hp. destruct Hp as [<-|[<-|[]]]; discriminate Hn.
Defined.

(** AuthBoundry denies alice, the operator, and allows everybody else. *)
Definition aliceDenied : CliAuthority MemDB :=
  mkCliAuthority (Some (fun rq => demoAnswer (negb (String.eqb (rq_subject_id rq) "alice")) rq)) (Some demoOperator) NoCredentials.

Lemma aliceDenied_refuses application group action : operatorRefused (demoProcess (Some aliceDenied)) application group action.
Proof.
  assert (forall a, hostAuthority (demoProcess (Some aliceDenied)) a -> a = aliceDenied) as Hown
    by (intros a [b Hb|path loaded b Hb _ _ _]; [now injection Hb as <- | discriminate Hb]).
  intros a ask cap q request w w' d Ha%Hown Hask _ (b & identity & claims & w1 & w2 & Hb%Hown & Hi & Hrun & _ & ->) _ _ Hs _ _ Hd _.
  subst a b. injection Hask as <-. injection Hi as <-. cbn in Hrun. injection Hrun as _ <-. cbn in Hs. rewrite Hs in Hd.
  cbn in Hd. injection Hd as _ <-. discriminate.
Qed.

(** A denied job: the command fails, and only the denial is recorded. *)
Lemma cli_fails_closed_witness :
  hasCode DENIED (match (ran (Some aliceDenied) enqueueArgs).2 with Throw e => e | Ok _ => invalidDate end) = true /\
  onlyRefusal (w_db (demo emptyDB)) (w_db (ran (Some aliceDenied) enqueueArgs).1.2).
Proof.
  split; [vm_compute; reflexivity|].
  refine (proj2 (cli_fails_closed demoServices (demoProcess (Some aliceDenied)) noHost "SIGINT" enqueueArgs None contractConsole (demo emptyDB)
    eq_refl _ demoServices_quiet demo_empty_calm _)).
  - intros a [= <-]. split; [intros ask req [= <-] w Hc; now apply kept_refl | intros who [= <-] w Hc; now apply kept_refl].
  - intros c1 w1 config _ _. apply aliceDenied_refuses.
Defined.

(** The same command for an operator AuthBoundry allows. *)
Example allowed_job : match ran (Some (demoAuthority true)) enqueueArgs with
  | (console, _, Ok code) => (code =? 0) && existsb (String.eqb "type: send.email") (co_out console) | _ => false end = true.
Proof. vm_compute. reflexivity. Qed.

(** Without an adapter the operator is nobody. *)
Example no_operator : (ran None enqueueArgs).2 = Throw NO_OPERATOR.
Proof. vm_compute. reflexivity. Qed.

(** ** What [config migrate] does with a name *)

(** A name that holds a newline, as a contract may give it in an escaped
    string, is written as it is: what follows it are lines of the contract. *)
Definition lineName : string := "app" ++ String "010" ("use files" ++ String "010" "#").

Lemma migrate_writes_lines file stringify : exists st,
  scanLines file stringify (mkScan [] [] None) (splitOn "010" (canonicalConfig lineName [CapApi])) = Ok st /\
  In CapFiles (sn_uses st) /\ ~ In CapFiles [CapApi].
Proof. eexists. split; [vm_compute; reflexivity|]. split; [cbn; auto | intros [[=]|[]]]. Qed.

(** Such a name is one that a contract may have. *)
Lemma lineName_accepted file stringify : str file stringify (JStr lineName) "application.name" "app" = Ok lineName.
Proof. reflexivity. Qed.

(** [init] never writes one. *)
Lemma init_names_hold_no_line candidate : noNewline (applicationNameOf candidate) = true.
Proof. apply nameChar_noNewline, applicationNameOf_safe. Qed.
