(* ===== verification/Application.v ===== *)
(** * Application: what [appport()] puts together ([runtime/appport.ts])

    [AppPort] has what the runtime decides; here are the services themselves,
    constructed by the factories of the capability registry from the contract,
    and the operations of the application over them: the dispatcher, the
    facades, the tenant-bound helpers, publishing, transactions, inbound
    webhooks, authentication and the passes of the managed loops.  The
    application's events live in the process; where an operation reads them
    they are an argument, and the channel that publishes into them is given
    what does.

    The services are those the plan names, every one enforces the one gateway
    when the host gives any authority, and so nothing an application is asked
    to do - through the dispatcher or through the helpers of a tenant - changes
    the store without AuthBoundry. *)

From S2P Require Import Prelude JsString JsTime Errors Models Store Calm MemStore Principal Manifest Evidence Gateway GatewayFacts ApiKeys KeyAuth Webhooks WebhookFacts Files Jobs Notifications NotificationFacts Schedules Demo Transactions Invoke InvokeProps Events Dsl Contract Platform PlatformProps AppPort AppPortProps Wiring WiringProps.
From Stdlib Require Import ZArith Lia Ascii.
Local Open Scope string_scope.
Local Open Scope Z_scope.

Definition BROWSER_NOTIFICATION_EVENT : string := "appport.notification".

Definition priorityOf (p : ConfigPriority) : NotificationPriority :=
  match p with PLow => Models.PLow | PNormal => Models.PNormal | PHigh => Models.PHigh | PUrgent => Models.PUrgent end.

Definition channelName (c : DefaultChannel) : string := match c with ChannelInApp => "in-app" | ChannelBrowser => "browser" end.

(** The message of a browser notification, as the data of an event. *)
Definition messageValue (m : BrowserNotificationMessage) : jsval :=
  JObj ([("notificationId", JStr (bm_notificationId m)); ("deliveryId", JStr (bm_deliveryId m)); ("tenantId", JStr (bm_tenantId m));
         ("recipient", JStr (bm_recipient m)); ("type", JStr (bm_type m)); ("idempotencyKey", JStr (bm_idempotencyKey m));
         ("createdAt", JStr (bm_createdAt m))]
        ++ match bm_expiresAt m with Some e => [("expiresAt", JStr e)] | None => [] end)%list.

Definition eventValue (e : AppPortEvent) : jsval :=
  JObj [("id", JInt (pe_id e)); ("type", JStr (pe_type e)); ("tenantId", JStr (pe_tenantId e)); ("data", pe_data e); ("timestamp", JStr (pe_timestamp e))].

(** What a getter answers for a service that is there or not. *)
Definition declared {A} (capability : string) (service : option A) : outcome A :=
  match service with Some a => Ok a | None => Throw (CapabilityNotDeclaredError capability) end.

Section application.
Context {DB Request : Type} `{FeltDBLaws DB}.
Variable pl : Platform DB.
Variable sh : Shapes.

(** ** The options, but for the paths and FeltDB's own *)

Record AppPortOptions := mkAppPortOptions {
  ao_authorizer : option (ServiceAuthorizationRequest -> M DB Gateway.Answer);
  ao_credentials : Credentials DB;
  ao_identify : option (Request -> M DB (option PrincipalClaims));
  ao_authorizationTimeoutMs : option Z;
  ao_apiKeyVerifierKey : option string;
  ao_jobs : list (string * JobHandler DB);
  ao_jobHandlers : list (string * JobHandler DB);
  ao_webhooks : list (string * (AppPortEvent -> M DB unit));
  ao_inbound : list (string * (InboundWebhookHandlerInput -> M DB jsval)) }.

(** ** The services *)

Record ServiceObjects := mkServiceObjects {
  sv_apiKeys : option (ApiKeyService DB);
  sv_webhooks : option (WebhookService DB);
  sv_jobs : option (JobService DB);
  sv_notifications : option (NotificationService DB);
  sv_files : bool }.

Definition noServices : ServiceObjects := mkServiceObjects None None None None false.

Variable config : AppPortConfig.
(** The deployment mode of the store that was opened is [local]. *)
Variable localStore : bool.
Variable options : AppPortOptions.
(** [events.publish] of the application's own events, as the browser channel
    calls it: a type, the data, a tenant. *)
Variable emit : string -> jsval -> string -> M DB unit.

Definition browserPush (message : BrowserNotificationMessage) : M DB unit :=
  emit BROWSER_NOTIFICATION_EVENT (messageValue message) (bm_tenantId message).

(** [capabilityRegistry]: one factory.  The job service is one object: the
    notifications add their handler to it. *)
Definition capabilityFactory (authority : option (ServiceGateway DB)) (services : ServiceObjects) (capability : AppPortCapabilityName)
  : outcome ServiceObjects :=
  match capability with
  | CapApi =>
      if ac_api_keys_enabled config then
        keys ← newApiKeyService [] (ifPresent (ao_apiKeyVerifierKey options)) (Some (ac_application_name config)) authority localStore;
        Ok (mkServiceObjects (Some keys) (sv_webhooks services) (sv_jobs services) (sv_notifications services) (sv_files services))
      else Ok services
  | CapWebhooks =>
      hooks ← newWebhookService authority false (Some (ac_webhooks_delivery_retries config)) (ac_webhooks_events_allowed config) None true true;
      Ok (mkServiceObjects (sv_apiKeys services) (Some hooks) (sv_jobs services) (sv_notifications services) (sv_files services))
  | CapJobs =>
      Ok (mkServiceObjects (sv_apiKeys services) (sv_webhooks services)
            (Some (newJobService authority (Some (ac_jobs_max_attempts config)) None (map fst (ac_jobs_types config))))
            (sv_notifications services) (sv_files services))
  | CapSecrets => Ok services
  | CapNotifications =>
      notices ← newNotificationService authority (Some [("in-app", inAppChannel); ("browser", browserChannel browserPush)])
                  (Some [channelName (ac_notifications_default_channel config)]) (Some (priorityOf (ac_notifications_default_priority config)))
                  (sv_jobs services) (Some (ac_notifications_max_attempts config)) None None;
      jobs ← match sv_jobs services with None => Ok None | Some j => connected ← connectJobs notices j; Ok (Some connected) end;
      Ok (mkServiceObjects (sv_apiKeys services) (sv_webhooks services) jobs (Some notices) (sv_files services))
  | CapFiles =>
      Ok (mkServiceObjects (sv_apiKeys services) (sv_webhooks services) (sv_jobs services) (sv_notifications services) true)
  end.

Fixpoint initializeServices (authority : option (ServiceGateway DB)) (plan : list AppPortCapabilityName) (services : ServiceObjects)
  : outcome ServiceObjects :=
  match plan with
  | [] => Ok services
  | capability :: rest => services' ← capabilityFactory authority services capability; initializeServices authority rest services'
  end.

(** ** [appport()] *)

(** [authorizer || credentials || identify ? gateway : undefined] *)
Definition enforced : bool :=
  match ao_authorizer options with Some _ => true | None => false end || hasCredentials (ao_credentials options)
  || match ao_identify options with Some _ => true | None => false end.

(** [{ ...jobHandlers, ...jobs }] *)
Definition allHandlers : list (string * JobHandler DB) := fold_left (fun l e => mapSet l (fst e) (snd e)) (ao_jobs options) (ao_jobHandlers options).

Fixpoint registerJobs (handlers : list (string * JobHandler DB)) (jobs : JobService DB) : outcome (JobService DB) :=
  match handlers with
  | [] => Ok jobs
  | (type, handler) :: rest => jobs' ← Jobs.register jobs type handler; registerJobs rest jobs'
  end.

Fixpoint registerInbound (handlers : list (string * (InboundWebhookHandlerInput -> M DB jsval))) (hooks : WebhookService DB) : outcome (WebhookService DB) :=
  match handlers with
  | [] => Ok hooks
  | (provider, handler) :: rest => hooks' ← registerInboundHandler provider handler hooks; registerInbound rest hooks'
  end.

(** [services.x?.register(...)] for each *)
Definition registerOn {A} (service : option A) (register : A -> outcome A) : outcome (option A) :=
  match service with None => Ok None | Some a => a' ← register a; Ok (Some a') end.

Record AppPortApplication := mkAppPortApplication {
  aa_plan : list AppPortCapabilityName;
  aa_gateway : ServiceGateway DB;
  aa_authority : option (ServiceGateway DB);
  aa_services : ServiceObjects }.

(** [deployed]: what [deployFlowSpec] answers. *)
Definition assemble (deployed : outcome unit) : outcome AppPortApplication :=
  gateway ← newGateway (ac_application_name config) (ao_authorizer options) (ao_credentials options) (ao_authorizationTimeoutMs options)
              [] (credentialCheck (ac_application_name config));
  let authority := if enforced then Some gateway else None in
  services ← initializeServices authority (createCapabilityPlan config) noServices;
  _ ← deployed;
  jobs ← registerOn (sv_jobs services) (registerJobs allHandlers);
  hooks ← registerOn (sv_webhooks services) (registerInbound (ao_inbound options));
  Ok (mkAppPortApplication (createCapabilityPlan config) gateway authority
        (mkServiceObjects (sv_apiKeys services) hooks jobs (sv_notifications services) (sv_files services))).

Variable app : AppPortApplication.

(** ** The facades *)

Definition keysFacade : option ApiKeyOperations := option_map (keyOperations pl sh) (sv_apiKeys (aa_services app)).
Definition webhooksFacade : option WebhookOperations := option_map (webhookOperations pl sh) (sv_webhooks (aa_services app)).
Definition jobsFacade : option JobOperations := option_map (jobOperations sh) (sv_jobs (aa_services app)).
Definition notificationsFacade : option NotificationOperations := option_map (notificationOperations pl sh) (sv_notifications (aa_services app)).
Definition filesFacade : option (FileOperations DB) := if sv_files (aa_services app) then Some (fileOperations pl sh (aa_authority app)) else None.
(** [services.schedules] is made of the job service. *)
Definition schedulesFacade : option ScheduleOperations := option_map (scheduleOperations sh (aa_authority app)) (sv_jobs (aa_services app)).

(** [application.api.keys], [application.webhooks] and so on. *)
Definition apiKeysGetter : outcome ApiKeyOperations :=
  if ac_capabilities config CapApi then declared "api.keys" keysFacade else Throw (CapabilityNotDeclaredError "api").
Definition webhooksGetter : outcome WebhookOperations := declared "webhooks" webhooksFacade.
Definition jobsGetter : outcome JobOperations := declared "jobs" jobsFacade.
Definition notificationsGetter {A} (facade : option A) : outcome A :=
  if ac_capabilities config CapNotifications then declared "notifications" facade else Throw (CapabilityNotDeclaredError "notifications").
Definition filesGetter : outcome (FileOperations DB) :=
  if ac_capabilities config CapFiles then declared "files" filesFacade else Throw (CapabilityNotDeclaredError "files").
Definition schedulesGetter : outcome ScheduleOperations := declared "schedules" schedulesFacade.

(** [application.discovery] *)
Definition applicationDiscovery : list RuntimeCapabilityDescriptor :=
  let there {A} (o : option A) := Some (match o with Some _ => true | None => false end) in
  describeCapabilities (fun id => match id with
    | IdApiKeys => there keysFacade | IdWebhooks => there webhooksFacade | IdJobs => there jobsFacade
    | IdSchedules => there schedulesFacade | IdNotifications => there notificationsFacade | IdFiles => there filesFacade
    | IdConfiguration | IdCredentials | IdIntelligence | IdSecrets => Some false
    | IdRuntimeEvents => Some (ac_events_enabled config)
    end).

(** ** The operations of the application *)

(** [{ gateway, ...services }] *)
Definition applicationServices : InvokableServices DB :=
  mkInvokable (aa_gateway app) keysFacade webhooksFacade jobsFacade schedulesFacade notificationsFacade filesFacade None None.

Definition applicationInvoke (capability : string) (input : jsval) (caller : Caller) : M DB jsval :=
  invokeService applicationServices capability input caller.

Definition applicationAuthorize (capability : string) (caller : Caller) (type : string) (tenantId id : option string)
  (attributes : option (gmap string string)) : M DB ServiceExecutionContext :=
  authorizeEffect (aa_gateway app) capability caller type tenantId id attributes.

(** [application.authenticate(request)]; [authorization] is the header, if it is a text. *)
Definition applicationAuthenticate (authorization : option string) (request : Request) : M DB (option VerifiedPrincipal) :=
  authenticateCaller
    (option_map (fun service token => ApiKeys.authenticateApiKey (pl_scrypt pl) (pl_hmac pl) service (JStr token)) (sv_apiKeys (aa_services app)))
    (option_map (fun identify => claims ← identify request; ofOutcome (Gateway.identify (aa_gateway app) claims)) (ao_identify options))
    authorization.

Definition applicationReceive (request : InboundWebhookRequest) : M DB InboundWebhookResult :=
  match sv_webhooks (aa_services app) with
  | None => throw (CapabilityNotDeclaredError "webhooks")
  | Some hooks => receiveWebhook (pl_hooks pl) hooks request
  end.

(** *** Transactions *)

(** The property of the context that a call reads. *)
Definition propertyOf (call : TransactionCall) : string :=
  match call with
  | AddOperation _ => "addOperation"
  | CollectionInsert _ _ _ | CollectionUpdate _ _ _ _ => "collection"
  | QueueWebhookDeliveries _ _ _ => "queueWebhookDeliveries"
  | QueueJob _ _ => "queueJob"
  | QueueNotification _ _ => "queueNotification"
  end.

(** A callback given the context of [capabilityAwareTransactionContext]: a
    call that reads a property it may not have throws there. *)
Fixpoint aware {T} (callback : Callback DB T) : Callback DB T :=
  match callback with
  | Done o => Done o
  | Call call k =>
      match transactionProperty config (propertyOf call) with
      | Throw e => aware (k (Throw e))
      | Ok _ => Call call (fun o => aware (k o))
      end
  | Await m k => Await m (fun o => aware (k o))
  end.

Definition applicationTransaction {T} (callback : Callback DB T) : M DB T :=
  runTransaction (Some (aa_gateway app))
    (match sv_webhooks (aa_services app) with Some _ => Some Webhooks.listWebhookEndpoints | None => None end) (aware callback).

(** *** Publishing *)

Definition publishing : option PublishWebhooks :=
  option_map (fun hooks => mkPublishWebhooks Webhooks.listWebhookEndpoints
    (fun type data p => l ← Webhooks.emitWebhookEvent hooks (mkEmit None type data []) (CVerified p); mret (map wd_id l))
    (fun tenantId id => _ ← deliverWebhook (pl_hooks pl) hooks tenantId id; mret tt)) (sv_webhooks (aa_services app)).

(** [handle] runs a subscriber, [current] is [tenant.current()]. *)
Definition applicationPublish (handle : nat -> AppPortEvent -> outcome unit) (current : outcome string) (events : AppPortEvents)
  (type : string) (data : jsval) (publishOptions : PublishOptions) : M DB (AppPortEvents * Deliveries * outcome AppPortEvent) :=
  publishEvent publishing (ao_webhooks options) handle current events type data publishOptions.

(** *** The helpers of a tenant *)

(** What an object that is no verified principal shows the compatibility mode
    of the notification service. *)
Variable legacyOf : Caller -> option LegacyPrincipal.

Definition noticeCaller (caller : Caller) : NotificationCaller :=
  match caller with CVerified p => byPrincipal p | _ => mkNotificationCaller caller (legacyOf caller) end.

Definition tenantOperations (handle : nat -> AppPortEvent -> outcome unit) (current : outcome string) (events : AppPortEvents) : @TenantOperations DB :=
  let notices := notificationsGetter (sv_notifications (aa_services app)) in
  mkTenantOperations
    (fun capability input p => applicationInvoke capability (JObj input) (CVerified p))
    (keys ← apiKeysGetter; Ok (createApiKey keys))
    (keys ← apiKeysGetter; Ok (revokeApiKey keys))
    (hooks ← webhooksGetter; Ok (createWebhookEndpoint hooks))
    (hooks ← webhooksGetter; Ok (emitWebhookEvent hooks))
    (jobs ← jobsGetter; Ok (enqueue jobs))
    (stored ← filesGetter; Ok (fileCreate stored))
    (stored ← filesGetter; Ok (fun tenantId p => fileList stored tenantId p None))
    (service ← notices; Ok (fun input caller =>
       shown (fun r => out_notification sh (nr_notification r)) (notify (pl_notices pl) service input (noticeCaller caller))))
    (service ← notices; Ok (fun tenantId listed caller =>
       shown (noticePage sh) (listNotifications (pl_notices pl) service tenantId (in_listNotices sh listed) (noticeCaller caller))))
    (schedules ← schedulesGetter; Ok (scheduleCreate schedules))
    (schedules ← schedulesGetter; Ok (fun tenantId p => scheduleList schedules tenantId p None))
    (fun type data publishOptions =>
       '(_, _, result) ← applicationPublish handle current events type data publishOptions;
       event ← ofOutcome result; mret (eventValue event)).

Definition applicationForTenant (handle : nat -> AppPortEvent -> outcome unit) (current : outcome string) (events : AppPortEvents)
  (tenantId : string) (call : TenantCall) (caller : option Caller) : M DB jsval :=
  forTenant (tenantOperations handle current events) tenantId call caller.

(** *** The managed loops *)

(** One pass of the loop of jobs, one of deliveries, and the recovery when
    the application starts; each if [start] sets it up. *)
Definition jobsLoop : option (M DB unit) :=
  match sv_jobs (aa_services app), ifPresent (ac_tenant_default config) with
  | Some jobs, Some tenantId =>
      if ac_lifecycle_managed config && ac_jobs_execution_enabled config then
        Some (jobsPass (fun t => _ ← processRecurringSchedules t; mret tt) listDueJobs
                (fun t id worker => _ ← executeJob jobs t id worker; mret tt) tenantId (ac_application_name config))
      else None
  | _, _ => None
  end.

Definition deliveriesLoop : option (M DB unit) :=
  match sv_webhooks (aa_services app), ifPresent (ac_tenant_default config) with
  | Some hooks, Some tenantId =>
      if ac_lifecycle_managed config && ac_webhooks_delivery_enabled config then
        Some (deliveriesPass (fun t => listWebhookDeliveries t None 0)
                (fun t id => _ ← deliverWebhook (pl_hooks pl) hooks t id; mret tt) tenantId)
      else None
  | _, _ => None
  end.

Definition recovery : option (M DB nat) :=
  match sv_notifications (aa_services app), ifPresent (ac_tenant_default config) with
  | Some notices, Some tenantId => Some (Notifications.recoverDeliveries notices tenantId)
  | _, _ => None
  end.
End application.
Arguments AppPortOptions : clear implicits.
Arguments AppPortApplication : clear implicits.
Arguments ServiceObjects : clear implicits.

(** ** From the files *)

(** [appport(options)]: the contract, the flow, the store, the services.  The
    files' texts and what is parsed of them, and the opening of the store,
    which answers whether its mode is local, are arguments. *)
Definition appport {DB Request} `{FeltDBLaws DB} (parsed : outcome AppPortConfig) (loaded : AppPortConfig -> outcome (list string))
  (explicit : FeltDBOptions) (env : FeltDbEnv) (statePath : string) (openRuntime : FeltDBOptions -> outcome bool)
  (deployFlowSpec : list string -> outcome unit) (options : AppPortOptions DB Request) (emit : string -> jsval -> string -> M DB unit)
  : outcome (AppPortConfig * AppPortApplication DB) :=
  config ← parsed;
  flow ← loaded config;
  feltdb ← runtimeOptionsFromContract config explicit env statePath;
  localStore ← openRuntime feltdb;
  app ← assemble config localStore options emit (deployFlowSpec flow);
  Ok (config, app).

(** ** The services are the plan's *)

Section planned.
Context {DB Request : Type} `{FeltDBLaws DB}.
Variable config : AppPortConfig.
Variable localStore : bool.
Variable options : AppPortOptions DB Request.
Variable emit : string -> jsval -> string -> M DB unit.

Definition there {A} (o : option A) : bool := match o with Some _ => true | None => false end.

(** Which services are there, as [initialize] has it. *)
Definition flags (s : ServiceObjects DB) : InitializedCapabilities :=
  mkInitialized (there (sv_apiKeys s)) (there (sv_webhooks s)) (there (sv_jobs s)) (there (sv_notifications s)) (sv_files s)
    match sv_notifications s with Some n => there (ns_jobs n) | None => false end.

(** Every service that is there enforces [authority]. *)
Record enforcing (authority : option (ServiceGateway DB)) (s : ServiceObjects DB) : Prop := mkEnforcing {
  ef_keys x : sv_apiKeys s = Some x -> av_authority x = authority;
  ef_hooks x : sv_webhooks s = Some x -> hs_authority x = authority;
  ef_jobs x : sv_jobs s = Some x -> jv_authority x = authority;
  ef_notices x : sv_notifications s = Some x -> ns_authority x = authority }.

Lemma newNotificationService_jobs authority channels dc dp jobs ma rd inline n :
  newNotificationService (DB := DB) authority channels dc dp jobs ma rd inline = Ok n -> ns_jobs n = jobs.
Proof. unfold newNotificationService. destruct (newRegistry _ _); [intros [= <-]; reflexivity | discriminate]. Qed.

Lemma factory_planned authority s c s' : capabilityFactory config localStore options emit authority s c = Ok s' ->
  flags s' = capabilityRegistry config (flags s) c.
Proof.
  destruct c; cbn [capabilityFactory capabilityRegistry].
  - destruct (ac_api_keys_enabled config); [|now intros [= <-]]. intros E. apply obind_ok in E as (k & _ & [= <-]). reflexivity.
  - intros E. apply obind_ok in E as (h & _ & [= <-]). reflexivity.
  - intros [= <-]. reflexivity.
  - intros [= <-]. reflexivity.
  - intros E. apply obind_ok in E as (n & En & E). apply obind_ok in E as (j & Ej & [= <-]).
    unfold flags. cbn. rewrite (newNotificationService_jobs _ _ _ _ _ _ _ _ _ En).
    destruct (sv_jobs s); [apply obind_ok in Ej as (j' & _ & [= <-]) | injection Ej as <-]; reflexivity.
  - intros [= <-]. reflexivity.
Qed.

Lemma factory_enforcing authority s c s' : capabilityFactory config localStore options emit authority s c = Ok s' ->
  enforcing authority s -> enforcing authority s'.
Proof.
  intros E [Hk Hh Hj Hn]. destruct c; cbn [capabilityFactory] in E.
  - destruct (ac_api_keys_enabled config); [|injection E as <-; now split]. apply obind_ok in E as (k & Ek & [= <-]).
    split; cbn; auto. intros x [= <-]. exact (newApiKeyService_authority _ _ _ _ _ _ Ek).
  - apply obind_ok in E as (h & Eh & [= <-]). split; cbn; auto. intros x [= <-]. exact (newWebhookService_authority _ _ _ _ _ _ _ _ Eh).
  - injection E as <-. split; cbn; auto. intros x [= <-]. reflexivity.
  - injection E as <-. now split.
  - apply obind_ok in E as (n & En & E). apply obind_ok in E as (j & Ej & [= <-]). split; cbn; auto.
    + intros x ->. destruct (sv_jobs s) as [j'|]; [|discriminate]. apply obind_ok in Ej as (j'' & Ec & [= ->]).
      rewrite (connectJobs_authority _ _ _ Ec). now apply Hj.
    + intros x [= <-]. exact (newNotificationService_authority _ _ _ _ _ _ _ _ _ En).
  - injection E as <-. split; cbn; auto.
Qed.

Lemma initializeServices_made authority plan s s' : initializeServices config localStore options emit authority plan s = Ok s' ->
  flags s' = foldl (capabilityRegistry config) (flags s) plan /\ (enforcing authority s -> enforcing authority s').
Proof.
  revert s. induction plan as [|c plan IH]; intros s; cbn; [intros [= <-]; auto|].
  intros E. apply obind_ok in E as (s1 & E1 & E). apply IH in E as [Ef Ee].
  rewrite Ef, (factory_planned _ _ _ _ E1). split; [reflexivity|]. intros He. exact (Ee (factory_enforcing _ _ _ _ E1 He)).
Qed.

Lemma registerJobs_authority handlers jobs jobs' : registerJobs handlers jobs = Ok jobs' -> jv_authority (DB := DB) jobs' = jv_authority jobs.
Proof.
  revert jobs. induction handlers as [|[type h] r IH]; intros jobs; cbn; [now intros [= <-]|].
  intros E. apply obind_ok in E as (j & Ej & E). rewrite (IH _ E). unfold Jobs.register in Ej.
  destruct (assertApplicationJobType type), (assertAllowedType jobs type false); try discriminate Ej. now injection Ej as <-.
Qed.

Lemma registerInbound_authority handlers hooks hooks' : registerInbound handlers hooks = Ok hooks' -> hs_authority (DB := DB) hooks' = hs_authority hooks.
Proof.
  revert hooks. induction handlers as [|[provider h] r IH]; intros hooks; cbn; [now intros [= <-]|].
  intros E. apply obind_ok in E as (s & Es & E). rewrite (IH _ E). unfold registerInboundHandler in Es.
  destruct (isProvider provider); [now injection Es as <- | discriminate].
Qed.

Lemma registerOn_made {A} (service : option A) register service' : registerOn service register = Ok service' ->
  there service' = there service /\ forall x', service' = Some x' -> exists x, service = Some x /\ register x = Ok x'.
Proof.
  destruct service as [a|]; cbn; [|intros [= <-]; split; [reflexivity | discriminate]].
  intros E. apply obind_ok in E as (a' & Ea & [= <-]). split; [reflexivity|]. intros x [= <-]. eauto.
Qed.

(** Everything [appport] puts together. *)
Lemma assemble_made deployed app : assemble config localStore options emit deployed = Ok app ->
  newGateway (ac_application_name config) (ao_authorizer options) (ao_credentials options) (ao_authorizationTimeoutMs options) []
    (credentialCheck (ac_application_name config)) = Ok (aa_gateway app) /\
  aa_authority app = (if enforced options then Some (aa_gateway app) else None) /\
  aa_plan app = createCapabilityPlan config /\ flags (aa_services app) = initialize config /\
  enforcing (aa_authority app) (aa_services app).
Proof.
  unfold assemble. intros E. apply obind_ok in E as (gateway & Eg & E). cbn zeta in E. apply obind_ok in E as (s & Es & E).
  apply obind_ok in E as (u & _ & E). apply obind_ok in E as (jobs & Ej & E). apply obind_ok in E as (hooks & Eh & [= <-]).
  apply initializeServices_made in Es as [Ef Ee]. apply registerOn_made in Ej as [Tj Ej]. apply registerOn_made in Eh as [Th Eh].
  cbn [aa_gateway aa_authority aa_plan aa_services]. repeat split; [exact Eg|..].
  - unfold initialize. change nothingInitialized with (flags noServices). rewrite <- Ef. unfold flags. cbn. now rewrite Tj, Th.
  - intros x Ex. assert (He : enforcing (if enforced options then Some gateway else None) noServices) by (split; discriminate).
    exact (ef_keys _ _ (Ee He) x Ex).
  - intros x Ex. destruct (Eh x Ex) as (y & Ey & R). rewrite (registerInbound_authority _ _ _ R).
    apply (ef_hooks _ _ (Ee ltac:(split; discriminate)) y Ey).
  - intros x Ex. destruct (Ej x Ex) as (y & Ey & R). rewrite (registerJobs_authority _ _ _ R).
    apply (ef_jobs _ _ (Ee ltac:(split; discriminate)) y Ey).
  - intros x Ex. apply (ef_notices _ _ (Ee ltac:(split; discriminate)) x Ex).
Qed.
End planned.

Section assembled.
Context {DB Request : Type} `{FeltDBLaws DB}.
Variable pl : Platform DB.
Variable sh : Shapes.
Variable config : AppPortConfig.
Variable localStore : bool.
Variable options : AppPortOptions DB Request.
Variable emit : string -> jsval -> string -> M DB unit.
Variable deployed : outcome unit.
Variable app : AppPortApplication DB.
Hypothesis Happ : assemble config localStore options emit deployed = Ok app.

Definition erased {A} (o : outcome A) : outcome unit := match o with Ok _ => Ok tt | Throw e => Throw e end.

Lemma describe_ext f h : (forall id, f id = h id) -> describeCapabilities f = describeCapabilities h.
Proof. intros Hf. unfold describeCapabilities. apply List.map_ext. intros d. now rewrite Hf. Qed.

(** The getters answer as the plan says, and discovery shows what they answer. *)
Lemma getters_as_planned :
  erased (apiKeysGetter pl sh config app) = facades config "api.keys" /\
  erased (webhooksGetter pl sh app) = facades config "webhooks" /\
  erased (jobsGetter sh app) = facades config "jobs" /\
  erased (notificationsGetter config (notificationsFacade pl sh app)) = facades config "notifications" /\
  erased (filesGetter pl sh config app) = facades config "files" /\
  erased (schedulesGetter sh app) = facades config "schedules" /\
  applicationDiscovery pl sh config app = describeCapabilities (mountedCapabilities config).
Proof.
  destruct (assemble_made _ _ _ _ _ _ Happ) as (_ & _ & _ & Ef & _).
  unfold facades, apiKeysGetter, webhooksGetter, jobsGetter, notificationsGetter, filesGetter, schedulesGetter,
    keysFacade, webhooksFacade, jobsFacade, schedulesFacade, notificationsFacade, filesFacade.
  rewrite <- Ef. cbn [String.eqb Ascii.eqb Bool.eqb flags ic_apiKeys ic_webhooks ic_jobs ic_notifications ic_files]. unfold flags.
  cbn [ic_apiKeys ic_webhooks ic_jobs ic_notifications ic_files]. repeat split.
  - destruct (ac_capabilities config CapApi), (sv_apiKeys (aa_services app)); reflexivity.
  - destruct (sv_webhooks (aa_services app)); reflexivity.
  - destruct (sv_jobs (aa_services app)); reflexivity.
  - destruct (ac_capabilities config CapNotifications), (sv_notifications (aa_services app)); reflexivity.
  - destruct (ac_capabilities config CapFiles), (sv_files (aa_services app)); reflexivity.
  - destruct (sv_jobs (aa_services app)); reflexivity.
  - unfold applicationDiscovery, keysFacade, webhooksFacade, jobsFacade, schedulesFacade, notificationsFacade, filesFacade.
    apply describe_ext. intros id. unfold mountedCapabilities. rewrite <- Ef.
    destruct id; try reflexivity; cbn;
      [destruct (sv_apiKeys (aa_services app)) | destruct (sv_webhooks (aa_services app)) | destruct (sv_jobs (aa_services app))
      | destruct (sv_jobs (aa_services app)) | destruct (sv_notifications (aa_services app)) | destruct (sv_files (aa_services app))]; reflexivity.
Qed.

(** *** Nothing without AuthBoundry *)

Definition authorityQuiet : Prop :=
  forall ask req w, ao_authorizer options = Some ask -> calm w -> kept w (ask req w).1.

Lemma assembled_quiet : authorityQuiet -> hostQuiet (aa_gateway app).
Proof.
  intros Hq. destruct (assemble_made _ _ _ _ _ _ Happ) as (Eg & _). apply newGateway_made in Eg as (_ & Ea & Ec). split.
  - intros ask req w Hask. rewrite Ea in Hask. now apply Hq.
  - intros p cap r w Hc. rewrite Ec. exact (proj1 (credentialCheck_spec _ p cap r w Hc)).
Qed.

Section enforced.
Hypothesis Henf : enforced options = true.
Hypothesis Hhost : hostQuiet (aa_gateway app).
Hypothesis Hp : platformQuiet (pl_hooks pl).

Lemma app_authority : aa_authority app = Some (aa_gateway app).
Proof. destruct (assemble_made _ _ _ _ _ _ Happ) as (_ & Ea & _). now rewrite Ea, Henf. Qed.

Lemma app_enforcing : enforcing (Some (aa_gateway app)) (aa_services app).
Proof. destruct (assemble_made _ _ _ _ _ _ Happ) as (_ & _ & _ & _ & He). now rewrite <- app_authority. Qed.

Lemma facade_of {A B} (f : A -> B) (o : option A) b : option_map f o = Some b -> exists a, o = Some a /\ b = f a.
Proof. destruct o as [a|]; [|discriminate]. intros [= <-]. eauto. Qed.

Lemma application_lawful : lawful (aa_gateway app) (applicationServices pl sh app).
Proof.
  destruct app_enforcing as [Hk Hh Hj Hn]. split; cbn [applicationServices s_gateway s_apiKeys s_webhooks s_jobs s_schedules s_notifications s_files
    s_configuration s_intelligence]; try discriminate; [reflexivity|..]; intros a E.
  - apply facade_of in E as (x & Ex & ->). now apply keys_guarded, Hk.
  - apply facade_of in E as (x & Ex & ->). apply webhooks_guarded; auto.
  - apply facade_of in E as (x & Ex & ->). now apply jobs_guarded, Hj.
  - apply facade_of in E as (x & Ex & ->). rewrite app_authority. now apply schedules_guarded, Hj.
  - apply facade_of in E as (x & Ex & ->). now apply notices_guarded, Hn.
  - unfold filesFacade in E. destruct (sv_files (aa_services app)); [|discriminate]. injection E as <-. rewrite app_authority. now apply files_guarded.
Qed.

(** *** The helpers of a tenant *)

(** The capability a call needs; publishing needs it to deliver webhooks. *)
Definition neededFor (call : TenantCall) : string :=
  match call with
  | CallKeys _ => "apikeys.create" | CallListKeys | CallGetKey _ => "apikeys.read" | CallRevokeKey _ => "apikeys.revoke"
  | CallRegisterWebhook _ => "webhooks.register" | CallListWebhooks => "webhooks.read" | CallEmitWebhook _ => "webhooks.emit"
  | CallEnqueue _ => "jobs.create" | CallListJobs => "jobs.read" | CallCreateFile _ => "files.write" | CallListFiles => "files.read"
  | CallNotify _ => "notifications.send" | CallListNotifications _ => "notifications.read"
  | CallCreateSchedule _ => "schedules.create" | CallListSchedules => "schedules.read"
  | CallInvoke capability _ => capability
  | CallPublish _ _ => "webhooks.emit"
  end.

Lemma requireVerified_inv c p : requireVerifiedPrincipal c = Ok p -> c = CVerified p.
Proof. destruct c as [q| |[]|]; try discriminate. now intros [= ->]. Qed.

Lemma own_inv tenantId c p : own tenantId c = Ok p -> c = CVerified p.
Proof.
  unfold own. intros E. apply obind_ok in E as (q & Eq & E). destruct (String.eqb _ _); [|discriminate]. injection E as <-. now apply requireVerified_inv.
Qed.

(** A helper that lets only the tenant's callers through. *)
Lemma mine_untouched tenantId cap caller (work : VerifiedPrincipal -> M DB jsval) :
  Guarded (aa_gateway app) cap work -> unadmitted (aa_gateway app) cap caller ->
  untouched (p ← ofOutcome (own tenantId caller); work p).
Proof. intros Hg Hno. apply untouched_check. intros p E. apply own_inv in E as ->. now apply Hg. Qed.

Lemma through_untouched {A} (facade : outcome A) (work : A -> M DB jsval) :
  (forall a, facade = Ok a -> untouched (work a)) -> untouched (f ← ofOutcome facade; work f).
Proof. intros Hw. now apply untouched_check. Qed.

Lemma declared_ok {A} name (o : option A) a : declared name o = Ok a -> o = Some a.
Proof. destruct o; [now intros [= ->] | discriminate]. Qed.

Lemma untouched_settled {A B} (m : M DB A) (f : outcome A -> B) : untouched m -> untouched (o ← settledCall m; mret (f o)).
Proof. intros Hm w Hc. specialize (Hm w Hc). unfold wp, settledCall, mbind, M_bind in *. destruct (m w) as [w1 o]. exact Hm. Qed.

(** What follows an operation and only looks at its result. *)
Lemma untouched_result {A B} (m : M DB A) (k : A -> M DB B) : untouched m -> (forall a w, (k a w).1 = w) -> untouched (a ← m; k a).
Proof.
  intros Hm Hk w Hc. specialize (Hm w Hc). unfold wp, mbind, M_bind in *. destruct (m w) as [w1 [a|e]]; cbn [fst snd] in *; [|exact Hm].
  now rewrite Hk.
Qed.

Definition handlersUntouched : Prop := forall type handler event, In (type, handler) (ao_webhooks options) -> untouched (handler event).

(** Publishing: the endpoints of the tenant are read, nobody is delivered to,
    and the application's handler is run. *)
Lemma publish_untouched handle current events type data tenantId caller : handlersUntouched ->
  unadmitted (aa_gateway app) "webhooks.emit" (orElse caller CNothing) ->
  untouched (applicationPublish pl options app handle current events type data (Publishing tenantId caller)).
Proof.
  intros Hhandlers Hno. unfold applicationPublish, publishEvent. apply untouched_check. intros [principal t] E.
  assert (Hprin : principal = None \/ exists p, principal = Some p /\ caller = Some (CVerified p)).
  { unfold publisherOf in E. apply obind_ok in E as (q & Eq & E). apply obind_ok in E as (t' & _ & E).
    assert (principal = q) as -> by (destruct q as [q|], tenantId as [t0|]; try (now injection E as <-); destruct (String.eqb _ _); [now injection E as <- | discriminate]).
    destruct caller as [c|]; [|injection Eq as <-; now left]. apply obind_ok in Eq as (p & Ep & [= <-]). apply requireVerified_inv in Ep as ->. eauto. }
  cbn beta iota zeta. unfold deliverEvent, publishing.
  assert (Hrest : untouched (timestamp ← systemIso;
    let '(events', given, result) := publish handle events type data t timestamp in
    match result with
    | Throw e => mret (events', given, Throw e)
    | Ok event =>
        match List.find (fun h : string * (AppPortEvent -> M DB unit) => String.eqb (fst h) type) (ao_webhooks options) with
        | None => mret (events', given, Ok event)
        | Some (_, handler) =>
            o ← settledCall (handler event);
            mret (events', given, match o with Ok _ => Ok event | Throw e => Throw e end)
        end
    end)).
  { apply untouched_keeps; [apply keeps_systemIso|]. intros timestamp.
    destruct (publish handle events type data t timestamp) as [[events' given] [event|e]]; [|apply untouched_ret].
    destruct (List.find _ _) as [[name handler]|] eqn:Ef; [|apply untouched_ret].
    apply List.find_some in Ef as [Hin _]. apply untouched_settled. exact (Hhandlers _ _ _ Hin). }
  destruct (sv_webhooks (aa_services app)) as [hooks|] eqn:Eh; [|apply untouched_pure, Hrest].
  cbn [option_map pw_endpoints pw_emit pw_deliver]. apply untouched_assoc, untouched_keeps; [apply keeps_find|]. intros endpoints. destruct (existsb _ endpoints); [|apply untouched_pure, Hrest].
  destruct Hprin as [->|(p & -> & ->)]; [apply untouched_thrown|].
  cbn [orElse] in Hno. apply untouched_assoc, untouched_assoc. unfold Webhooks.emitWebhookEvent, hookGateway.
  rewrite (ef_hooks _ _ app_enforcing _ Eh). repeat op_step.
Qed.

(** The service behind the notification helpers refuses what is no principal. *)
Lemma notice_untouched cap service caller legacyOf :
  sv_notifications (aa_services app) = Some service -> unadmitted (aa_gateway app) cap caller ->
  (cap = "notifications.send" -> forall input,
     untouched (shown (fun r => out_notification sh (nr_notification r)) (notify (pl_notices pl) service input (noticeCaller legacyOf caller)))) /\
  (cap = "notifications.read" -> forall t listed,
     untouched (shown (noticePage sh) (listNotifications (pl_notices pl) service t listed (noticeCaller legacyOf caller)))).
Proof.
  intros E Hno. pose proof (ef_notices _ _ app_enforcing _ E) as Hs.
  split; intros ->; intros; unfold shown, notify, listNotifications, authorizedList; rewrite Hs;
    destruct caller as [p| |[]|]; cbn [noticeCaller byPrincipal nc_caller]; repeat (discriminate || op_step).
Qed.

Lemma tenant_untouched legacyOf handle current events tenantId call caller : handlersUntouched ->
  unadmitted (aa_gateway app) (neededFor call) (orElse caller CNothing) ->
  untouched (applicationForTenant pl sh config options app legacyOf handle current events tenantId call caller).
Proof.
  intros Hhandlers Hno. pose proof application_lawful as Hlaw. pose proof (lw_apiKeys _ _ Hlaw) as Lk. pose proof (lw_webhooks _ _ Hlaw) as Lh.
  pose proof (lw_jobs _ _ Hlaw) as Lj. pose proof (lw_schedules _ _ Hlaw) as Ls. pose proof (lw_files _ _ Hlaw) as Lf.
  cbn [applicationServices s_apiKeys s_webhooks s_jobs s_schedules s_files] in Lk, Lh, Lj, Ls, Lf.
  assert (Hinvoke : forall cap input, Guarded (aa_gateway app) cap (fun p => applicationInvoke pl sh app cap input (CVerified p))).
  { intros cap input p Hcap. exact (invoke_untouched _ _ cap input (CVerified p) Hhost Hlaw Hcap). }
  unfold applicationForTenant, forTenant, tenantOperations.
  destruct call; cbn [neededFor] in Hno; cbn [to_invoke to_createApiKey to_revokeApiKey to_createWebhookEndpoint to_emitWebhookEvent to_enqueue
    to_createFile to_listFiles to_notify to_listNotifications to_createSchedule to_listSchedules to_publish];
    try (eapply mine_untouched; [apply Hinvoke | exact Hno]);
    try (apply through_untouched; intros f E; apply obind_ok in E as (a & Ea & [= <-])).
  - unfold apiKeysGetter in Ea. destruct (ac_capabilities config CapApi); [|discriminate]. apply declared_ok in Ea.
    destruct (Lk _ Ea) as [G]. exact (mine_untouched _ _ _ _ (G input) Hno).
  - unfold apiKeysGetter in Ea. destruct (ac_capabilities config CapApi); [|discriminate]. apply declared_ok in Ea.
    destruct (Lk _ Ea) as [_ _ _ _ G]. exact (mine_untouched _ _ _ _ (G input) Hno).
  - apply declared_ok in Ea. destruct (Lh _ Ea) as [_ _ G]. exact (mine_untouched _ _ _ _ (G input) Hno).
  - apply declared_ok in Ea. destruct (Lh _ Ea) as [_ _ _ _ G]. exact (mine_untouched _ _ _ _ (G input) Hno).
  - apply declared_ok in Ea. destruct (Lj _ Ea) as [G]. exact (mine_untouched _ _ _ _ (G input) Hno).
  - unfold filesGetter in Ea. destruct (ac_capabilities config CapFiles); [|discriminate]. apply declared_ok in Ea.
    destruct (Lf _ Ea) as [_ _ _ G]. exact (mine_untouched _ _ _ _ (G input) Hno).
  - unfold filesGetter in Ea. destruct (ac_capabilities config CapFiles); [|discriminate]. apply declared_ok in Ea.
    destruct (Lf _ Ea) as [_ G]. exact (mine_untouched _ _ _ _ (G tenantId None) Hno).
  - unfold notificationsGetter in Ea. destruct (ac_capabilities config CapNotifications); [|discriminate]. apply declared_ok in Ea.
    exact (proj1 (notice_untouched _ _ _ legacyOf Ea Hno) eq_refl _).
  - unfold notificationsGetter in Ea. destruct (ac_capabilities config CapNotifications); [|discriminate]. apply declared_ok in Ea.
    exact (proj2 (notice_untouched _ _ _ legacyOf Ea Hno) eq_refl _ _).
  - apply declared_ok in Ea. destruct (Ls _ Ea) as [_ _ G]. exact (mine_untouched _ _ _ _ (G input) Hno).
  - apply declared_ok in Ea. destruct (Ls _ Ea) as [_ G]. exact (mine_untouched _ _ _ _ (G tenantId None) Hno).
  - destruct caller as [c|].
    + apply untouched_check. intros p E. apply own_inv in E as ->.
      apply untouched_result; [now apply publish_untouched | now intros [[e g'] [v|x]] w].
    + apply untouched_result; [now apply publish_untouched | now intros [[e g'] [v|x]] w].
Qed.
End enforced.

(** C35: An application fails closed as a whole.  Take any application that was
    put together with an authorizer, with credentials or with a way to
    identify callers, whatever its contract declares.  Invoking any capability,
    with any input and by anyone, and calling any of the helpers of any tenant,
    publishing included, leaves the store as it was - but for one row that
    records a denial - unless AuthBoundry admits a request of that verified
    caller for exactly the capability the call needs.  (The authorizer, the
    host's lookups and requests, and the application's own handlers of events
    do not write this store themselves.) *)
Theorem application_fails_closed :
  ao_authorizer options <> None \/ hasCredentials (ao_credentials options) = true \/ ao_identify options <> None ->
  authorityQuiet -> platformQuiet (pl_hooks pl) -> handlersUntouched ->
  (forall cap input caller, unadmitted (aa_gateway app) cap caller -> untouched (applicationInvoke pl sh app cap input caller)) /\
  forall legacyOf handle current events tenantId call caller, unadmitted (aa_gateway app) (neededFor call) (orElse caller CNothing) ->
    untouched (applicationForTenant pl sh config options app legacyOf handle current events tenantId call caller).
Proof.
  intros Hgiven Hq Hp Hh. pose proof (assembled_quiet Hq) as Hhost.
  assert (Henf : enforced options = true).
  { unfold enforced. destruct (ao_authorizer options), (hasCredentials (ao_credentials options)), (ao_identify options), Hgiven as [G|[G|G]]; try reflexivity; congruence. }
  split.
  - intros cap input caller Hno. exact (invoke_untouched _ _ cap input caller Hhost (application_lawful Henf Hhost Hp) Hno).
  - intros. now apply tenant_untouched.
Qed.
End assembled.

(** ** Transactions *)

Section transactions.
Context {DB : Type} `{FeltDBLaws DB}.
Variable config : AppPortConfig.

(** The calls a callback may come to make, whatever its calls answer. *)
Fixpoint mayCall {T} (call : TransactionCall) (callback : Callback DB T) : Prop :=
  match callback with
  | Done _ => False
  | Call made k => made = call \/ exists o, mayCall call (k o)
  | Await _ k => exists o, mayCall call (k o)
  end.

(** In an application's transaction webhooks and jobs are queued only if the
    contract declares them, whatever the callback tries and catches; a
    contract that declares both changes nothing. *)
Lemma aware_declared {T} (callback : Callback DB T) :
  (forall call, mayCall call (aware config callback) ->
     match call with
     | QueueWebhookDeliveries _ _ _ => ac_capabilities config CapWebhooks = true
     | QueueJob _ _ => ac_capabilities config CapJobs = true
     | _ => True
     end) /\
  (ac_capabilities config CapWebhooks = true -> ac_capabilities config CapJobs = true ->
     forall gateway endpoints tx w, runCallback gateway endpoints (aware config callback) tx w = runCallback gateway endpoints callback tx w).
Proof.
  induction callback as [o|call k IH|A m k IH]; split; cbn [aware].
  - now intros call.
  - reflexivity.
  - intros call'. destruct (transactionProperty config (propertyOf call)) as [u|e] eqn:E; [|apply IH].
    cbn [mayCall]. intros [<-|(o & Ho)]; [|exact (proj1 (IH o) call' Ho)]. unfold transactionProperty in E.
    destruct call; cbn in E; try exact I;
      [destruct (ac_capabilities config CapWebhooks) | destruct (ac_capabilities config CapJobs)]; now cbn in E.
  - intros Hw Hj gateway endpoints tx w. replace (transactionProperty config (propertyOf call)) with (Ok tt : outcome unit).
    + cbn [runCallback]. unfold mbind, M_bind. destruct (callContext _ _ _ _) as [w1 [[tx' o]|e]]; [apply (proj2 (IH o) Hw Hj gateway endpoints) | reflexivity].
    + unfold transactionProperty. rewrite Hw, Hj. destruct call; reflexivity.
  - intros call' (o & Ho). exact (proj1 (IH o) call' Ho).
  - intros Hw Hj gateway endpoints tx w. cbn [runCallback]. unfold mbind, M_bind. destruct (outside _ _ _) as [w1 [[tx' o]|e]]; [apply (proj2 (IH o) Hw Hj gateway endpoints) | reflexivity].
Qed.
End transactions.

(** ** A concrete application *)

Definition demoApp (allowed : bool) : AppPortOptions MemDB unit :=
  mkAppPortOptions (Some (demoAnswer allowed)) NoCredentials None None None [] [] [] [].

Lemma demoApp_quiet allowed : authorityQuiet (demoApp allowed).
Proof. intros ask req w [= <-] Hc. now apply kept_refl. Qed.

Lemma demoApp_given allowed : ao_authorizer (demoApp allowed) <> None \/ hasCredentials (ao_credentials (demoApp allowed)) = true \/ ao_identify (demoApp allowed) <> None.
Proof. now left. Qed.

#[local] Abbreviation demoAssembled allowed :=
  (assemble (PlatformProps.demoConfig true) true (demoApp allowed) (fun _ _ _ => mret tt) (Ok tt)).
#[local] Abbreviation newJob := [("type", JStr "send.email"); ("payload", JObj [])].
#[local] Abbreviation enqueued allowed app :=
  (applicationForTenant demoServices demoShapes (PlatformProps.demoConfig true) (demoApp allowed) app (fun _ => None) (fun _ _ => Ok tt) (Ok "t1")
     (newEvents 1000) "t1" (CallEnqueue newJob) (Some (CVerified alice))).

(** An application whose AuthBoundry denies: the job of a tenant's helper is
    refused. *)
Lemma application_fails_closed_witness : exists app,
  demoAssembled false = Ok app /\ untouched (enqueued false app) /\
  hasCode DENIED (match (enqueued false app (demo emptyDB)).2 with Throw e => e | Ok _ => invalidDate end) = true.
Proof.
  eexists. split; [reflexivity|]. split; [|vm_compute; reflexivity].
  apply (application_fails_closed demoServices demoShapes (PlatformProps.demoConfig true) true (demoApp false) (fun _ _ _ => mret tt) (Ok tt) _ eq_refl
    (demoApp_given false) (demoApp_quiet false) demoServices_quiet); [intros type handler event []|].
  apply denied_unadmitted. reflexivity.
Defined.

(** The same call where AuthBoundry allows makes the job. *)
Example application_job : exists app,
  demoAssembled true = Ok app /\
  match (enqueued true app (demo emptyDB)).2 with Ok (JObj fields) => isStr (getField fields "type") "send.email" | _ => false end = true.
Proof. eexists. split; [reflexivity | vm_compute; reflexivity]. Qed.
